(* ===== verification/_CoqProject ===== *)
-Q . S2P
Prelude.v
BoundedQueue.v
CacheBuffer.v
Interfaces.v
AtomicHashMap.v
ObjectPool.v
UnboundedQueue.v
GlobalData.v
DataFlow.v
Role.v
Warehouse.v
MultiValueWarehouse.v
SingleValueWarehouse.v
Graph.v
Manager.v
ChannelManager.v
NodeManager.v
ServiceManager.v
TopologyManager.v
Time.v
TimingWheel.v
Timer.v
RWLock.v
ShmConf.v
ShmMessage.v
ShmSegment.v
ShmKinds.v
ShmTransport.v
ShmSafety.v
ShmDelivery.v
ConditionNotifier.v
CRoutine.v
RunQueue.v
Scheduler.v
SchedulerSafety.v
SchedulerPriority.v
Processor.v
Pipeline.v
SchedulerWakeup.v
TaskPool.v
Blocker.v
IntraDelivery.v
Signal.v
MessageHeader.v
ListenerHandler.v
FanOut.v
Dispatcher.v
IntraDispatcher.v
IntraFanOut.v
Hybrid.v
HybridPeers.v
HybridDelivery.v
Node.v
NodeParts.v
NodePeers.v
NodeRun.v
NodeOps.v
NodeDelivery.v
Component.v
ComponentModes.v
Poller.v
Logger.v
ClassLoader.v
MainBoard.v
RecordProto.v
RecordFile.v
RecordReader.v
RecordReading.v
RecordRoundtrip.v
RecordViewing.v
RecordPlayback.v
RecordWriter.v
RecordSegments.v
RecordDemo.v
Service.v
ServiceSafety.v
ServiceOrder.v
ServiceLiveness.v
ParameterServer.v
ParameterStore.v
