(* ===== verification/Prelude.v ===== *)
(** * Cyber RT: a verification development

    Cyber RT (under [src/cyber]) is the run-time system of a robot: processes made of components that
    exchange messages on named channels.  A message goes from a writer, through a transport (shared memory inside
    a host), to the buffers of the readers' channels; a scheduler runs the coroutines of the readers when
    their buffers have something new; timers run periodic tasks; and a service discovery tells each
    process which nodes, readers and writers there are.  This development models the parts that carry
    the program's own logic as executable functions and step relations, and proves what makes them correct.

    ** The files, and the sources they model

    Shared: this file (machine integers, invariants of step relations, counting), [Interfaces.v] (what
    components promise each other: a map with 64-bit keys; the visitors and callbacks of tasks).

    Containers and locks ([src/cyber/base], [common], [task]):
    - [BoundedQueue.v]: [base/bounded_queue.h].  The queue as a record of its counters and slots;
      [thread_step] is one atomic access of [Enqueue] or [Dequeue].
    - [AtomicHashMap.v]: [base/atomic_hash_map.h], an instance of the map interface.
    - [RWLock.v]: [base/atomic_rw_lock.h], [base/reentrant_rw_lock.h], access by access.
    - [ObjectPool.v]: [base/object_pool.h] and [base/concurrent_object_pool.h]; [UnboundedQueue.v]:
      [base/unbounded_queue.h], whose nodes are in a heap.  Both access by access.
    - [TaskPool.v]: [base/thread_pool.h] with [base/wait_strategy.h], and [task/task_manager.{h,cc}], over a bounded queue.
    - [GlobalData.v]: the registries of names of [common/global_data.{h,cc}].

    Data ([src/cyber/data]):
    - [CacheBuffer.v]: [cache_buffer.h], [channel_buffer.h] and a visitor of one channel.
    - [DataFlow.v]: [data_dispatcher.h], [data_notifier.h], [data_visitor.h], [fusion/all_latest.h].  One record, the
      world, holds the buffers, the registrations and the callbacks.

    - [Blocker.v]: [blocker/blocker.h], [blocker_manager.h]; [IntraDelivery.v]: the writers and readers of
      [src/cyber/blocker] composed over them (a publication, an observation, a reset).

    Service discovery ([src/cyber/service_discovery]):
    - [Role.v], [Warehouse.v], [MultiValueWarehouse.v], [SingleValueWarehouse.v], [Graph.v]: roles with their quality of service, and the
      containers of roles; the class of warehouses and its two instances.
    - [Manager.v], [ChannelManager.v], [NodeManager.v], [ServiceManager.v], [TopologyManager.v]: the managers of the
      same names, composed as in the code.

    Time: [Time.v] ([src/cyber/time] and [common/time_conversion.h]: instants, durations, the rate of a loop, the
    clock, UNIX and GPS time); [TimingWheel.v], [Timer.v] ([src/cyber/timer]).

    Shared memory ([src/cyber/transport]):
    - [ShmConf.v], [ShmMessage.v]: sizes and headers.
    - [ShmSegment.v] ([State], [Block], [Segment]) over the class of the two kinds of segment, [ShmKinds.v] (POSIX and
      System V).  Memory is a store of objects that outlive their names; leaving it is a [Crash].
    - [ShmTransport.v]: [ShmTransmitter] and [ShmDispatcher]; [ConditionNotifier.v].
    - [ShmSafety.v] and [ShmDelivery.v]: what the transport as a whole does, interleaved and in sequence.

    Choice of transports ([src/cyber/transport], [base/signal.h]):
    - [Signal.v]: signals, slots and connections; [MessageHeader.v]: the header of a packet and the raw message.
    - [ListenerHandler.v]: [message/listener_handler.h], the listeners of a channel and of a pair of endpoints.
    - [FanOut.v]: the class of dispatchers, what a receiver relies on; [Dispatcher.v] (the base dispatcher, for shared
      memory and RTPS) and [IntraDispatcher.v], [IntraFanOut.v] (inside a process) are its two instances.
    - [Hybrid.v]: the history of a writer, [HybridTransmitter], [HybridReceiver], the relation of two roles and the mode it
      chooses; [HybridPeers.v]: the peers they are switched on for; [HybridDelivery.v]: a network of processes, hosts
      and media, with the tasks that send and receive histories, proved against the class.

    Scheduling ([src/cyber/croutine], [src/cyber/scheduler]):
    - [CRoutine.v]: coroutines and the scan of a queue; [RunQueue.v]: the contexts of the two policies;
      [Scheduler.v]: creating, dispatching, notifying and removing tasks.
    - [SchedulerSafety.v], [SchedulerPriority.v]: the scheduler interleaved with its processors;
      [Processor.v], [Pipeline.v]: the loop of a processor, and a chain of tasks on the buffers;
      [SchedulerWakeup.v]: the accesses of a notification and of the processors to one coroutine.

    Nodes and components ([src/cyber/node], [src/cyber/component]):
    - [Node.v]: a process with its nodes, writers and readers; it composes the managers, the transports, the
      flow of data and, through the class [Tasks] of [Interfaces.v], the scheduler.  [NodeParts.v], [NodePeers.v]:
      the invariants of its parts; [NodeRun.v], [NodeOps.v]: every operation keeps them; [NodeDelivery.v]: what
      writers and readers achieve.
    - [Component.v]: components and timer components, in reality mode over [Node.v] and in simulation mode over
      [Blocker.v]; [ComponentModes.v]: what the user is called with in both modes.
    - [ClassLoader.v]: [src/cyber/class_loader]; [MainBoard.v]: [src/cyber/mainboard/module_controller.{h,cc}], the
      modules of a process, which makes components through the loaders.

    Sockets and logs: [Poller.v] ([src/cyber/io]: the poller's thread, blocked coroutines and the transfers of a session, over a
    class for what [epoll] keeps); [Logger.v] ([src/cyber/logger]: the asynchronous logger, access by access).

    Services and parameters ([src/cyber/service], [src/cyber/parameter]):
    - [Service.v]: clients, services and the network between them; [ServiceSafety.v], [ServiceOrder.v], [ServiceLiveness.v]:
      what their runs satisfy, and runs.
    - [ParameterServer.v]: parameters, their server and clients, as callbacks of [Service.v]; [ParameterStore.v]: what they store.

    Record files ([src/cyber/record]):
    - [RecordProto.v]: the messages of a file, over a class of serializations ([RecordDemo.v] has an instance);
      [RecordFile.v]: the writer and the reader of one file; [RecordReader.v]: readers in a range of time and the viewer;
      [RecordWriter.v]: recording to a sequence of files.
    - [RecordReading.v], [RecordRoundtrip.v], [RecordViewing.v], [RecordPlayback.v], [RecordSegments.v],
      [RecordDemo.v]: what is written, read back, viewed and recorded.

    ** How the code is translated

    An operation under a lock is one function from state to state; what other threads can see between
    two accesses is a step relation, and the theorems hold for all interleavings.  Unsigned integers are
    in [Z] with their wrap-around written out; sizes are those of LP64.  Errors are values: [option] or
    a type of outcomes, with a case for an access outside memory.  Pointers shared by several owners are keys
    of a store.  The hash of a name, the serialization of messages and system calls are parameters; the hypotheses
    on them say what their documentation says, and each theorem with such a hypothesis has a concrete witness.

    ** What the theorems show

    Each theorem's comment states its conditions; where one of them is needed, an example shows what happens without it.

    - Queues, pools and buffers: the lock-free queues are FIFO and the bounded one loses nothing in every interleaving (the
      unbounded one as long as no node comes back at an address that a thread still holds: its compare-and-swaps are not
      protected against that, [reused_address_skips]); a pool
      gives nobody an object that is in use; tasks start once and in order; a reader of a buffer gets a subsequence of the messages, all of them when it keeps up; fusion takes the latest.
    - Locks and registries: mutual exclusion; a registered name keeps its identifier.
    - Discovery: the containers refine bags of roles, the graph answers by reachability, the managers keep
      exactly the roles announced, and a process that follows another ends with what the other published; the earliest
      of several nodes of one name is kept.
    - Time: a task of the wheel fires exactly once, at its tick; neither a periodic timer nor a loop with a rate drifts.
    - Shared memory: opening and making a segment takes many steps, and readers get whole messages in every interleaving
      in which nobody maps memory that is not finished or looks for a block in memory whose blocks are too small for its
      message; what the code lets happen otherwise is in [resize_races].  A stream whose writer and reader take turns
      arrives complete and in order, also when the segment grows.  Notifications after the first come in order to a listener that is not a
      whole ring behind.
    - Transports: signals call exactly the connected slots; a dispatcher of either kind calls exactly the listeners that
      the message is addressed to; on a network of any shape a message of a volatile hybrid transmitter reaches each receiver
      once (with a history it may come again, [history_comes_twice]).  The media themselves are assumed lossless there; shared memory's own behaviour is proved apart.
    - Nodes: in every run of a process each operation returns; a message that a writer sends goes out on the media of the readers that
      the process knows, when these have different identifiers, and what arrives reaches the readers of its channel, also after
      processes come and go.  Components: as long as the coroutine of a component keeps up, both modes of a process call it with the same
      messages; a library stays open while an object of its code is there and its loader is, and deleting an object after its
      loader is the one operation that fails; a process makes the components that its files ask for, shuts them down and gives all back.
    - Services: calls take effect one at a time in one order that respects real time, and with nothing lost every call
      is answered; parameters are a linearizable store.
    - Records: what is written is read back; a viewer shows the messages of several files in order, when each was written in the order of
      its times by a writer whose thread flushes in time; a recorder that changes its file loses none.
    - Sockets and logs: the kernel is told what the poller was asked, and is ready to say it until a one-shot descriptor was returned; a
      coroutine that waits with its request on the clock goes on exactly when its descriptor was returned or its time is over; a stop of
      the logger writes every message once, in order, and each file has the messages that name it.
    - Scheduling: a coroutine is run by one processor at a time and never after its removal, and is queued once, where its group
      and priority say; the highest priority first; a processor drains its tasks and then sleeps; with one processor a wake-up is not lost.

    ** Bounds and fuel

    Fuel appears where the source loops on shared state or waits: [WaitEnqueue] and [WaitDequeue] (rounds of
    waiting), the search of [Graph.v] (proved enough: the number of vertices), the probing of [GlobalData.v] (the
    table is finite), the search for a block to write (other writers may hold all blocks), [run_until_wait] (proved
    enough).  Counters of 64 bits are bounded by hypotheses on the length of a run where they would wrap around.

    ** Not modelled

    - [transport/rtps] and the multicast notifier: calls into Fast-RTPS and sockets, whose code is not under
      [src/cyber]; what the rest needs of them (packets that are lost, late and out of order) is in the models that use them.
    - [mainboard/module_argument], the files of [common]: command lines and the file system; what a shared library registers when
      the system loads it, and what a component's [Initialize] answers, are parameters of [ClassLoader.v] and [MainBoard.v].
    - [message/protobuf_factory]: the reflection of protobuf; serialization is a class or a parameter.
    - The log files, [event], [sysmo]: they change nothing that the other parts read.
    - Affinities and priorities of threads; the switch of stacks in assembly (a coroutine is its code up to the next
      yield); weak memory orders (atomic accesses are sequentially consistent here).
    - The Python bindings, tools, drivers and examples, which only call the parts above. *)

From Stdlib Require Export Sorted.
From stdpp Require Export base gmap strings relations numbers list.

#[global] Open Scope Z_scope.

(** ** Machine integers

    An unsigned integer of the source is a [Z] in range, and every operation
    of the source that can leave the range is followed by its wrap-around. *)

Definition two32 : Z := 4294967296.
Definition two64 : Z := 18446744073709551616.

Definition wrap_u32 (z : Z) : Z := z mod two32.
Definition wrap_u64 (z : Z) : Z := z mod two64.

(** Conversion to [int32_t] (two's complement). *)
Definition wrap_i32 (z : Z) : Z :=
  let m := z mod two32 in if m <? 2147483648 then m else m - two32.

(** Conversion to [int64_t] (two's complement). *)
Definition wrap_i64 (z : Z) : Z :=
  let m := z mod two64 in if m <? 9223372036854775808 then m else m - two64.

Definition is_u32 (z : Z) : Prop := 0 <= z < two32.
Definition is_u64 (z : Z) : Prop := 0 <= z < two64.

(** ** Tactics *)

(** Linear arithmetic with division and modulo turned into equations. *)
Ltac div_lia := Z.to_euclidean_division_equations; lia.

(** Turn the boolean comparisons of the context into propositions. *)
Ltac to_prop :=
  repeat match goal with
  | H : (_ && _) = true |- _ => apply andb_true_iff in H as [? ?]
  | H : (_ || _) = false |- _ => apply orb_false_iff in H as [? ?]
  | H : negb _ = true |- _ => apply negb_true_iff in H
  | H : negb _ = false |- _ => apply negb_false_iff in H
  | H : (_ =? _) = true |- _ => apply Z.eqb_eq in H
  | H : (_ =? _) = false |- _ => apply Z.eqb_neq in H
  | H : (_ <? _) = true |- _ => apply Z.ltb_lt in H
  | H : (_ <? _) = false |- _ => apply Z.ltb_ge in H
  | H : (_ <=? _) = true |- _ => apply Z.leb_le in H
  | H : (_ <=? _) = false |- _ => apply Z.leb_gt in H
  end.

(** Case analysis on the condition of an [if] of the goal or of a hypothesis. *)
Ltac case_if :=
  match goal with
  | |- context [if ?b then _ else _] => destruct b eqn:?
  | H : context [if ?b then _ else _] |- _ => destruct b eqn:?
  end; to_prop.

Create HintDb cyber.

(** ** Lemmas on machine integers *)

Lemma wrap_u64_small z : 0 <= z < two64 -> wrap_u64 z = z.
Proof. intros; unfold wrap_u64; by rewrite Z.mod_small. Qed.

Lemma wrap_u32_small z : 0 <= z < two32 -> wrap_u32 z = z.
Proof. intros; unfold wrap_u32; by rewrite Z.mod_small. Qed.

Lemma wrap_u64_range z : is_u64 (wrap_u64 z).
Proof. apply Z.mod_pos_bound. reflexivity. Qed.

Lemma wrap_u32_range z : is_u32 (wrap_u32 z).
Proof. apply Z.mod_pos_bound. reflexivity. Qed.

Lemma wrap_i32_small z : -2147483648 <= z < 2147483648 -> wrap_i32 z = z.
Proof. intros; unfold wrap_i32, two32. case_if; div_lia. Qed.

Lemma wrap_i64_small z :
  -9223372036854775808 <= z < 9223372036854775808 -> wrap_i64 z = z.
Proof. intros; unfold wrap_i64, two64. case_if; div_lia. Qed.

#[export] Hint Resolve wrap_u64_range wrap_u32_range : cyber.

(** What the elements of a list have, when one of them is replaced. *)
Lemma omap_insert {A B} (f : A -> option B) (l : list A) i x : l !! i = Some x ->
  exists r, omap f l ≡ₚ option_list (f x) ++ r /\ forall y, omap f (<[i := y]> l) ≡ₚ option_list (f y) ++ r.
Proof.
  intros Hx. exists (omap f (take i l) ++ omap f (drop (S i) l)).
  assert (H : forall y, omap f (take i l ++ y :: drop (S i) l) ≡ₚ option_list (f y) ++ omap f (take i l) ++ omap f (drop (S i) l)).
  { intros y. rewrite omap_app. cbn. destruct (f y); cbn; [by rewrite Permutation_middle|done]. }
  split; [rewrite <- (take_drop_middle l i x Hx) at 1; apply H|]. intros y. rewrite insert_take_drop by by eapply lookup_lt_Some. apply H.
Qed.

Lemma lor_halves q r : 0 <= r < 2 ^ 32 -> Z.lor (Z.shiftl q 32) r = q * 2 ^ 32 + r.
Proof.
  intros Hr. rewrite Z.shiftl_mul_pow2 by lia. pose proof (Z.add_lor_land (q * 2 ^ 32) r) as Hadd.
  assert (E : Z.land (q * 2 ^ 32) r = 0); [|rewrite E in Hadd; lia].
  apply Z.bits_inj'. intros n Hn. rewrite Z.land_spec, Z.bits_0. destruct (Z.lt_ge_cases n 32).
  - rewrite <- Z.shiftl_mul_pow2, Z.shiftl_spec_low by lia. done.
  - rewrite <- (Z.mod_small r (2 ^ 32)), Z.mod_pow2_bits_high by lia. apply andb_false_r.
Qed.

Lemma land_le_r a b : 0 <= a -> 0 <= b -> 0 <= Z.land a b <= b.
Proof.
  intros Ha Hb. split; [apply Z.land_nonneg; lia|].
  rewrite <- (Z2N.id a), <- (Z2N.id b), <- N2Z.inj_land by done.
  apply N2Z.inj_le, N.land_le_r.
Qed.

(** Two numbers less than [n] apart agree modulo [n] only when they are equal. *)
Lemma mod_close_inj a b n :
  0 < n -> a mod n = b mod n -> Z.abs (a - b) < n -> a = b.
Proof.
  intros Hn He Hd.
  assert (a = n * (a / n) + a mod n) by (apply Z.div_mod; lia).
  assert (b = n * (b / n) + b mod n) by (apply Z.div_mod; lia).
  assert (a / n = b / n) by nia. congruence.
Qed.

(** ** Invariants of step relations *)

(** Rule induction over runs of a bounded number of steps, the number of steps
    taken being visible to the invariant. *)
Lemma nsteps_invariant {A} (R : relation A) (P : nat -> A -> Prop) (bound : Z) x :
  P 0%nat x ->
  (forall n y z, Z.of_nat (S n) < bound -> P n y -> R y z -> P (S n) z) ->
  forall n y, nsteps R n x y -> Z.of_nat n < bound -> P n y.
Proof.
  intros H0 HS n. induction n as [|n IH]; intros y Hn Hb.
  - inversion Hn; by subst.
  - apply nsteps_inv_r in Hn as (z & Hz & HR).
    apply (HS n z y Hb); [apply IH; [done|lia] | done].
Qed.

Lemma rtc_invariant {A} (R : relation A) (P : A -> Prop) x :
  P x -> (forall y z, P y -> R y z -> P z) -> forall y, rtc R x y -> P y.
Proof. intros H0 HS y Hr. induction Hr; eauto. Qed.

(** ** Lists *)

Lemma lookup_take_snoc {A} (l : list A) n x :
  l !! n = Some x -> take (S n) l = take n l ++ [x].
Proof. apply take_S_r. Qed.

Lemma lookup_snoc_lt {A} (l : list A) x i :
  (i < length l)%nat -> (l ++ [x]) !! i = l !! i.
Proof. intros; by apply lookup_app_l. Qed.

Lemma lookup_snoc_eq {A} (l : list A) x i :
  i = length l -> (l ++ [x]) !! i = Some x.
Proof. intros ->. apply list_lookup_middle. reflexivity. Qed.

Lemma take_sublist_take {A} (l : list A) n m :
  (n <= m)%nat -> take n l `sublist_of` take m l.
Proof.
  intros Hnm. replace (take n l) with (take n (take m l)); [apply sublist_take|].
  rewrite take_take. f_equal. lia.
Qed.

(** ** Counting *)

(** The number of elements (threads, say) that satisfy a condition. *)
Definition count {A} (p : A -> bool) (ts : list A) : Z :=
  Z.of_nat (length (List.filter p ts)).

Lemma count_nonneg {A} (p : A -> bool) ts : 0 <= count p ts.
Proof. unfold count. lia. Qed.

Lemma count_insert {A} (p : A -> bool) ts i x y :
  ts !! i = Some x ->
  count p (<[i := y]> ts) = count p ts - (if p x then 1 else 0) + (if p y then 1 else 0).
Proof.
  unfold count. revert i. induction ts as [|z ts IH]; intros [|i] Hi; try done; cbn in Hi.
  - injection Hi as ->. cbn. destruct (p x), (p y); cbn [length]; lia.
  - change (<[S i := y]> (z :: ts)) with (z :: <[i := y]> ts). cbn [List.filter]. specialize (IH i Hi).
    destruct (p z); cbn [length]; lia.
Qed.

Lemma count_le_length {A} (p : A -> bool) ts : count p ts <= Z.of_nat (length ts).
Proof. unfold count. induction ts as [|z ts IH]; cbn; [lia|]. destruct (p z); cbn [length]; lia. Qed.

(** A thread that satisfies the condition is counted; two are counted twice. *)
Lemma count_one {A} (p : A -> bool) ts i x : ts !! i = Some x -> p x = true -> 1 <= count p ts.
Proof.
  intros Hi Hp. pose proof (count_insert p ts i x x Hi) as H. rewrite list_insert_id in H by done.
  unfold count in *. revert i Hi H. induction ts as [|z ts IH]; intros [|i] Hi _; try done; cbn in Hi.
  - injection Hi as ->. cbn. rewrite Hp. cbn [length]. lia.
  - cbn [List.filter]. assert (1 <= Z.of_nat (length (List.filter p ts))).
    { apply (IH i Hi). rewrite Hp. lia. }
    destruct (p z); cbn [length]; lia.
Qed.

Lemma count_two {A} (p : A -> bool) ts i j x y :
  ts !! i = Some x -> ts !! j = Some y -> i <> j -> p x = true -> p y = true -> 2 <= count p ts.
Proof.
  revert i j. induction ts as [|z ts IH]; intros [|i] [|j] Hi Hj Hne Hx Hy; try done; cbn in Hi, Hj.
  - injection Hi as ->. pose proof (count_one p ts j y Hj Hy). unfold count in *. cbn. rewrite Hx. cbn [length]. lia.
  - injection Hj as ->. pose proof (count_one p ts i x Hi Hx). unfold count in *. cbn. rewrite Hy. cbn [length]. lia.
  - assert (2 <= count p ts) by (eapply IH; eauto). unfold count in *. cbn [List.filter].
    destruct (p z); cbn [length]; lia.
Qed.

Lemma count_zero {A} (p : A -> bool) ts :
  (forall i x, ts !! i = Some x -> p x = false) -> count p ts = 0.
Proof.
  unfold count. induction ts as [|z ts IH]; intros H; [done|]. cbn. rewrite (H 0%nat z eq_refl).
  apply IH. intros i x Hi. by apply (H (S i)).
Qed.
