(* ===== verification/BoundedQueue.v ===== *)
(** * BoundedQueue: the lock-free bounded MPMC queue of cyber/base

    Models [cyber/base/bounded_queue.h].  The queue object is the record [BQ];
    [Enqueue] and [Dequeue] are given twice: as the steps their code makes on the
    shared words (each atomic load, compare-and-swap and slot access one step),
    interleaved over any number of threads, and as the functions a single thread
    computes.  The bodies of the two overloads of [Enqueue] (and of
    [WaitEnqueue]) are the same; one definition stands for both.  A slot is
    copied in one step. *)

From S2P Require Import Prelude.

Section bounded_queue.
Context {T : Type} `{!Inhabited T}.

(** ** The object *)

Record BQ := mkBQ {
  head_ : Z;
  tail_ : Z;
  commit_ : Z;
  pool_size_ : Z;
  pool_ : list T;
  break_all_wait_ : bool;
}.

Definition set_head (h : Z) (q : BQ) : BQ :=
  mkBQ h (tail_ q) (commit_ q) (pool_size_ q) (pool_ q) (break_all_wait_ q).
Definition set_tail (t : Z) (q : BQ) : BQ :=
  mkBQ (head_ q) t (commit_ q) (pool_size_ q) (pool_ q) (break_all_wait_ q).
Definition set_commit (c : Z) (q : BQ) : BQ :=
  mkBQ (head_ q) (tail_ q) c (pool_size_ q) (pool_ q) (break_all_wait_ q).
Definition set_pool (p : list T) (q : BQ) : BQ :=
  mkBQ (head_ q) (tail_ q) (commit_ q) (pool_size_ q) p (break_all_wait_ q).

(** The default-constructed queue: no pool yet. *)
Definition bq_new : BQ := mkBQ 0 1 1 0 [] false.

(** [calloc_ok] says whether the allocation returned memory. *)
Definition Init (calloc_ok : bool) (size : Z) (q : BQ) : bool * BQ :=
  let n := wrap_u64 (size + 2) in
  if calloc_ok
  then (true, mkBQ (head_ q) (tail_ q) (commit_ q) n
                   (replicate (Z.to_nat n) inhabitant) (break_all_wait_ q))
  else (false, mkBQ (head_ q) (tail_ q) (commit_ q) n [] (break_all_wait_ q)).

Definition GetIndex (q : BQ) (num : Z) : Z :=
  wrap_u64 (num - wrap_u64 (num / pool_size_ q * pool_size_ q)).

Definition Size (q : BQ) : Z := wrap_u64 (wrap_u64 (tail_ q - head_ q) - 1).
Definition Empty (q : BQ) : bool := Size q =? 0.

Definition BreakAllWait (q : BQ) : BQ :=
  mkBQ (head_ q) (tail_ q) (commit_ q) (pool_size_ q) (pool_ q) true.

Definition slot (q : BQ) (num : Z) : T :=
  default inhabitant (pool_ q !! Z.to_nat (GetIndex q num)).
Definition write_slot (num : Z) (x : T) (q : BQ) : BQ :=
  set_pool (<[Z.to_nat (GetIndex q num) := x]> (pool_ q)) q.

(** ** A thread inside Enqueue or Dequeue

    The constructors are the points between two accesses of the shared words. *)
Inductive pc :=
| Idle                              (* outside of the queue's operations *)
| E_Load (x : T)                    (* before [tail_.load] *)
| E_Check (old_tail : Z) (x : T)    (* before the test against [head_.load] *)
| E_Cas (old_tail : Z) (x : T)      (* before the compare-and-swap of [tail_] *)
| E_Write (old_tail : Z) (x : T)    (* before the store to the slot *)
| E_Commit (old_tail : Z) (x : T)   (* before the compare-and-swap of [commit_] *)
| E_Done (res : bool)               (* Enqueue returned [res] *)
| D_Load                            (* before [head_.load] *)
| D_Check (old_head : Z)            (* before the test against [commit_.load] *)
| D_Read (old_head : Z)             (* before the read of the slot *)
| D_Cas (old_head : Z) (v : T)      (* before the compare-and-swap of [head_] *)
| D_Done (res : option T).          (* Dequeue returned; [None] is [false] *)

(** What a step adds to the history of the queue: an element claimed a place by
    the swap of [tail_], an element handed out by the swap of [head_]. *)
Inductive event := EvEnq (x : T) | EvDeq (x : T).

(** One step of a thread.  [fail] is the choice of a [compare_exchange_weak] to
    fail although the comparison succeeds. *)
Definition thread_step (fail : bool) (q : BQ) (p : pc) : BQ * pc * option event :=
  match p with
  | Idle => (q, Idle, None)
  | E_Load x => (q, E_Check (tail_ q) x, None)
  | E_Check ot x =>
      if GetIndex q (wrap_u64 (ot + 1)) =? GetIndex q (head_ q)
      then (q, E_Done false, None) else (q, E_Cas ot x, None)
  | E_Cas ot x =>
      if negb fail && (tail_ q =? ot)
      then (set_tail (wrap_u64 (ot + 1)) q, E_Write ot x, Some (EvEnq x))
      else (q, E_Check (tail_ q) x, None)
  | E_Write ot x => (write_slot ot x q, E_Commit ot x, None)
  | E_Commit ot x =>
      if negb fail && (commit_ q =? ot)
      then (set_commit (wrap_u64 (ot + 1)) q, E_Done true, None)
      else (q, E_Commit ot x, None)
  | E_Done b => (q, E_Done b, None)
  | D_Load => (q, D_Check (head_ q), None)
  | D_Check oh =>
      if wrap_u64 (oh + 1) =? commit_ q
      then (q, D_Done None, None) else (q, D_Read oh, None)
  | D_Read oh => (q, D_Cas oh (slot q (wrap_u64 (oh + 1))), None)
  | D_Cas oh v =>
      if negb fail && (head_ q =? oh)
      then (set_head (wrap_u64 (oh + 1)) q, D_Done (Some v), Some (EvDeq v))
      else (q, D_Check (head_ q), None)
  | D_Done r => (q, D_Done r, None)
  end.

(** ** Any number of threads

    [enq_log] and [deq_log] record, in order, the elements of the successful
    swaps of [tail_] and of [head_]. *)
Record config := mkC {
  queue : BQ;
  threads : gmap nat pc;
  enq_log : list T;
  deq_log : list T;
}.

Definition log_event (e : option event) (c : config) : config :=
  match e with
  | None => c
  | Some (EvEnq x) => mkC (queue c) (threads c) (enq_log c ++ [x]) (deq_log c)
  | Some (EvDeq x) => mkC (queue c) (threads c) (enq_log c) (deq_log c ++ [x])
  end.

(** A thread may call an operation only when it is not inside one. *)
Definition outside (p : pc) : bool :=
  match p with Idle | E_Done _ | D_Done _ => true | _ => false end.

Inductive step : relation config :=
| step_call_enqueue c t p x :
    threads c !! t = Some p -> outside p = true ->
    step c (mkC (queue c) (<[t := E_Load x]> (threads c)) (enq_log c) (deq_log c))
| step_call_dequeue c t p :
    threads c !! t = Some p -> outside p = true ->
    step c (mkC (queue c) (<[t := D_Load]> (threads c)) (enq_log c) (deq_log c))
| step_thread c t p fail q' p' e :
    threads c !! t = Some p ->
    thread_step fail (queue c) p = (q', p', e) ->
    step c (log_event e (mkC q' (<[t := p']> (threads c)) (enq_log c) (deq_log c))).

(** A queue of capacity [size] used by [n] threads. *)
Definition init_config (size : Z) (n : nat) : config :=
  mkC (snd (Init true size bq_new)) (gset_to_gmap Idle (set_seq 0 n)) [] [].

(** ** One thread alone *)

Definition Enqueue (x : T) (q : BQ) : bool * BQ :=
  let old_tail := tail_ q in
  let new_tail := wrap_u64 (old_tail + 1) in
  if GetIndex q new_tail =? GetIndex q (head_ q) then (false, q)
  else (true, set_commit new_tail (write_slot old_tail x (set_tail new_tail q))).

Definition Dequeue (q : BQ) : option T * BQ :=
  let old_head := head_ q in
  let new_head := wrap_u64 (old_head + 1) in
  if new_head =? commit_ q then (None, q)
  else (Some (slot q new_head), set_head new_head q).

(** [WaitEnqueue] and [WaitDequeue]: the wait strategy's [EmptyWait] and what the
    other threads do meanwhile are the argument [wait]: [None] when the wait timed
    out, else the queue found after it. *)
Fixpoint WaitEnqueue (fuel : nat) (wait : BQ -> option BQ) (x : T) (q : BQ)
    : option (bool * BQ) :=
  if break_all_wait_ q then Some (false, q)
  else match Enqueue x q with
       | (true, q') => Some (true, q')
       | (false, q') =>
           match wait q' with
           | None => Some (false, q')
           | Some q'' =>
               match fuel with
               | O => None
               | S fuel' => WaitEnqueue fuel' wait x q''
               end
           end
       end.

Fixpoint WaitDequeue (fuel : nat) (wait : BQ -> option BQ) (q : BQ)
    : option (option T * BQ) :=
  if break_all_wait_ q then Some (None, q)
  else match Dequeue q with
       | (Some x, q') => Some (Some x, q')
       | (None, q') =>
           match wait q' with
           | None => Some (None, q')
           | Some q'' =>
               match fuel with
               | O => None
               | S fuel' => WaitDequeue fuel' wait q''
               end
           end
       end.

(** A thread that runs alone, without spurious failures of the swaps. *)
Fixpoint solo (n : nat) (q : BQ) (p : pc) : BQ * pc :=
  match n with
  | O => (q, p)
  | S n' => let '(q', p', _) := thread_step false q p in solo n' q' p'
  end.

(** What a queue between operations holds, oldest element first. *)
Definition contents (q : BQ) : list T :=
  (fun i : nat => slot q (head_ q + 1 + Z.of_nat i)) <$> seq 0 (Z.to_nat (Size q)).

(** The abstract queue: a list of at most [cap] elements. *)
Definition spec_enqueue (cap : nat) (x : T) (l : list T) : bool * list T :=
  if decide (length l < cap)%nat then (true, l ++ [x]) else (false, l).
Definition spec_dequeue (l : list T) : option T * list T :=
  match l with [] => (None, []) | x :: l' => (Some x, l') end.

(** ** Invariant *)

Definition bq_wf (q : BQ) : Prop :=
  2 <= pool_size_ q < two64 /\ Z.of_nat (length (pool_ q)) = pool_size_ q /\
  0 <= head_ q /\ head_ q < commit_ q <= tail_ q /\
  tail_ q < head_ q + pool_size_ q /\ tail_ q < two64 - 1.

(** The committed elements are in their slots and what was handed out is a prefix
    of what was claimed. *)
Record queue_inv (q : BQ) (enq deq : list T) : Prop := {
  qi_wf : bq_wf q;
  qi_len : Z.of_nat (length enq) = tail_ q - 1;
  qi_deq : deq = take (Z.to_nat (head_ q)) enq;
  qi_slots : forall i, head_ q < i < commit_ q ->
    pool_ q !! Z.to_nat (i mod pool_size_ q) = enq !! Z.to_nat (i - 1);
}.

(** The place a thread has claimed and not yet committed. *)
Definition owns (p : pc) : option Z :=
  match p with E_Write ot _ | E_Commit ot _ => Some ot | _ => None end.

Definition thread_inv (q : BQ) (enq : list T) (p : pc) : Prop :=
  match p with
  | E_Check ot _ => 1 <= ot <= tail_ q
  | E_Cas ot _ => 1 <= ot <= tail_ q /\
      (tail_ q = ot -> ot + 1 < head_ q + pool_size_ q)
  | E_Write ot x => commit_ q <= ot < tail_ q /\ enq !! Z.to_nat (ot - 1) = Some x
  | E_Commit ot x => commit_ q <= ot < tail_ q /\ enq !! Z.to_nat (ot - 1) = Some x /\
      pool_ q !! Z.to_nat (ot mod pool_size_ q) = Some x
  | D_Check oh => 0 <= oh <= head_ q
  | D_Read oh => 0 <= oh <= head_ q /\ (head_ q = oh -> oh + 1 < commit_ q)
  | D_Cas oh v => 0 <= oh <= head_ q /\
      (head_ q = oh -> oh + 1 < commit_ q /\ enq !! Z.to_nat oh = Some v)
  | _ => True
  end.

(** No operation is under way. *)
Definition quiescent (q : BQ) : Prop := bq_wf q /\ commit_ q = tail_ q.

Record config_inv (c : config) : Prop := {
  ci_queue : queue_inv (queue c) (enq_log c) (deq_log c);
  ci_threads : forall t p, threads c !! t = Some p -> thread_inv (queue c) (enq_log c) p;
  ci_distinct : forall t1 t2 p1 p2 w, threads c !! t1 = Some p1 -> threads c !! t2 = Some p2 ->
    owns p1 = Some w -> owns p2 = Some w -> t1 = t2;
  ci_owned : forall w, commit_ (queue c) <= w < tail_ (queue c) ->
    exists t p, threads c !! t = Some p /\ owns p = Some w;
}.

(** ** Slots *)

Lemma GetIndex_mod q n :
  bq_wf q -> 0 <= n < two64 -> GetIndex q n = n mod pool_size_ q.
Proof.
  intros (HN & _) Hn. unfold GetIndex.
  pose proof (Z.div_mod n (pool_size_ q) ltac:(lia)).
  pose proof (Z.mod_pos_bound n (pool_size_ q) ltac:(lia)).
  pose proof (Z.div_pos n (pool_size_ q) ltac:(lia) ltac:(lia)).
  rewrite (wrap_u64_small (_ * _)) by nia. rewrite wrap_u64_small; lia.
Qed.

Lemma index_lt q n : bq_wf q -> (Z.to_nat (n mod pool_size_ q) < length (pool_ q))%nat.
Proof.
  intros (HN & Hl & _). pose proof (Z.mod_pos_bound n (pool_size_ q)). lia.
Qed.

(** Slots of two places less than a pool apart are different. *)
Lemma index_ne q i j :
  bq_wf q -> i <> j -> Z.abs (i - j) < pool_size_ q ->
  Z.to_nat (i mod pool_size_ q) <> Z.to_nat (j mod pool_size_ q).
Proof.
  intros (HN & _) Hne Hd He. apply Hne, (mod_close_inj i j (pool_size_ q)); [lia| |lia].
  pose proof (Z.mod_pos_bound i (pool_size_ q)). pose proof (Z.mod_pos_bound j (pool_size_ q)).
  lia.
Qed.

Ltac bq_simpl :=
  unfold write_slot, thread_inv, bq_wf in *;
  unfold set_head, set_tail, set_commit, set_pool in *;
  cbn [head_ tail_ commit_ pool_size_ pool_ break_all_wait_] in *.

(** ** The four updates of the shared words keep the invariant *)

Section updates.
Context (q : BQ) (enq deq : list T) (Hq : queue_inv q enq deq).

Lemma claim_queue_inv x :
  tail_ q + 1 < head_ q + pool_size_ q -> tail_ q + 1 < two64 - 1 ->
  queue_inv (set_tail (tail_ q + 1) q) (enq ++ [x]) deq.
Proof.
  destruct Hq as [Hwf Hl Hd Hs]. intros H1 H2. split; bq_simpl.
  - lia.
  - rewrite length_app; simpl; lia.
  - rewrite take_app_le by lia. done.
  - intros i Hi. rewrite lookup_snoc_lt by lia. by apply Hs.
Qed.

Lemma claim_thread_inv x p :
  thread_inv q enq p -> thread_inv (set_tail (tail_ q + 1) q) (enq ++ [x]) p.
Proof.
  destruct Hq as [Hwf Hl Hd Hs].
  destruct p; bq_simpl; try solve [done | intros; lia].
  - intros [? ?]; split; [lia|]. rewrite lookup_snoc_lt by lia. done.
  - intros (? & ? & ?); split_and!; [lia|lia| |done]. rewrite lookup_snoc_lt by lia. done.
  - intros [? Hv]; split; [lia|]. intros He. destruct (Hv He). split; [lia|].
    rewrite lookup_snoc_lt by lia. done.
Qed.

Lemma write_queue_inv w x :
  commit_ q <= w < tail_ q -> enq !! Z.to_nat (w - 1) = Some x ->
  queue_inv (write_slot w x q) enq deq.
Proof.
  destruct Hq as [Hwf Hl Hd Hs]. intros Hw Hx.
  assert (HG : GetIndex q w = w mod pool_size_ q)
    by (apply GetIndex_mod; [done|unfold bq_wf in Hwf; lia]).
  split; bq_simpl; [rewrite length_insert; lia|done|done|].
  intros i Hi. rewrite HG, list_lookup_insert_ne; [by apply Hs|].
  apply index_ne; bq_simpl; lia.
Qed.

Lemma write_thread_inv w x p :
  commit_ q <= w < tail_ q -> owns p <> Some w ->
  thread_inv q enq p -> thread_inv (write_slot w x q) enq p.
Proof.
  destruct Hq as [Hwf Hl Hd Hs]. intros Hw Hne.
  destruct p; bq_simpl; try done. simpl in Hne.
  intros (? & ? & ?); split_and!; [lia|lia|done|].
  rewrite GetIndex_mod by (done || lia). rewrite list_lookup_insert_ne; [done|].
  apply index_ne; bq_simpl; [lia|congruence|lia].
Qed.

Lemma commit_queue_inv x :
  commit_ q < tail_ q -> enq !! Z.to_nat (commit_ q - 1) = Some x ->
  pool_ q !! Z.to_nat (commit_ q mod pool_size_ q) = Some x ->
  queue_inv (set_commit (commit_ q + 1) q) enq deq.
Proof.
  destruct Hq as [Hwf Hl Hd Hs]. intros Hw Hx Hp. split; bq_simpl; [lia|done|done|].
  intros i Hi. destruct (decide (i = commit_ q)) as [->|]; [congruence|apply Hs; lia].
Qed.

Lemma commit_thread_inv p :
  owns p <> Some (commit_ q) ->
  thread_inv q enq p -> thread_inv (set_commit (commit_ q + 1) q) enq p.
Proof.
  intros Hne. destruct p; bq_simpl; simpl in Hne; try solve [done | intros; lia].
  - intros [? ?]; split; [|done]. assert (old_tail <> commit_ q) by congruence. lia.
  - intros (? & ? & ?); split_and!; try done; assert (old_tail <> commit_ q) by congruence; lia.
  - intros [? Hv]; split; [lia|]. intros He. destruct (Hv He). split; [lia|done].
Qed.

Lemma head_queue_inv v :
  head_ q + 1 < commit_ q -> enq !! Z.to_nat (head_ q) = Some v ->
  queue_inv (set_head (head_ q + 1) q) enq (deq ++ [v]).
Proof.
  destruct Hq as [Hwf Hl Hd Hs]. intros Hw Hx. split; bq_simpl; [lia|done| |intros; apply Hs; lia].
  replace (Z.to_nat (head_ q + 1)) with (S (Z.to_nat (head_ q))) by lia.
  rewrite (take_S_r _ _ v) by done. by rewrite <- Hd.
Qed.

Lemma head_thread_inv p :
  thread_inv q enq p -> thread_inv (set_head (head_ q + 1) q) enq p.
Proof.
  destruct p; bq_simpl; solve [done | intros; lia].
Qed.

End updates.

(** ** Steps of one thread among others *)

Lemma owns_range q enq p w :
  thread_inv q enq p -> owns p = Some w -> commit_ q <= w < tail_ q.
Proof. destruct p; bq_simpl; simpl; naive_solver. Qed.

(** What a step of thread [t] must establish; the rest of the configuration is
    framed. *)
Lemma update_config_inv c t p p' q' enq' deq' :
  config_inv c -> threads c !! t = Some p ->
  queue_inv q' enq' deq' -> thread_inv q' enq' p' ->
  (forall t2 p2, t2 <> t -> threads c !! t2 = Some p2 -> thread_inv q' enq' p2) ->
  (forall w, owns p' = Some w -> owns p = Some w \/ tail_ (queue c) <= w) ->
  (forall w, commit_ q' <= w < tail_ q' ->
     owns p' = Some w \/ commit_ (queue c) <= w < tail_ (queue c) /\ owns p <> Some w) ->
  config_inv (mkC q' (<[t := p']> (threads c)) enq' deq').
Proof.
  intros [Hq Ht Hd Ho] Hp Hq' Hp' Hother Hown Hex.
  assert (Hone : forall t2 p2 w, t2 <> t -> threads c !! t2 = Some p2 ->
            owns p' = Some w -> owns p2 = Some w -> False).
  { intros t2 p2 w Hne H2 Ho1 Ho2. destruct (Hown w Ho1) as [Hw|Hw].
    - apply Hne. eauto.
    - pose proof (owns_range _ _ _ _ (Ht _ _ H2) Ho2). lia. }
  split; cbn [queue threads enq_log deq_log]; [done| | |].
  - intros t2 p2. rewrite lookup_insert. case_decide; naive_solver.
  - intros t1 t2 p1 p2 w. rewrite !lookup_insert.
    repeat case_decide; naive_solver.
  - intros w Hw. destruct (Hex w Hw) as [He|[Hr Hne]].
    + exists t, p'. by rewrite lookup_insert_eq.
    + destruct (Ho w Hr) as (t2 & p2 & H2 & Ho2). exists t2, p2.
      rewrite lookup_insert_ne; [done|]. intros ->. congruence.
Qed.

(** A step that changes no shared word and claims nothing. *)
Lemma local_config_inv c t p p' :
  config_inv c -> threads c !! t = Some p -> owns p' = owns p ->
  thread_inv (queue c) (enq_log c) p' ->
  config_inv (mkC (queue c) (<[t := p']> (threads c)) (enq_log c) (deq_log c)).
Proof.
  intros Hc Hp Ho Hp'. pose proof Hc as [Hq Ht Hd Hex].
  apply (update_config_inv c t p); eauto; rewrite Ho; [naive_solver|].
  intros w Hw. destruct (decide (owns p = Some w)); auto.
Qed.

Section steps.
Context (c : config) (t : nat) (Hc : config_inv c).
Context (Hb : tail_ (queue c) + 1 < two64 - 1).

#[local] Abbreviation q := (queue c).
#[local] Abbreviation after q' p' enq' deq' := (mkC q' (<[t := p']> (threads c)) enq' deq').

Lemma check_step_inv ot x :
  threads c !! t = Some (E_Check ot x) ->
  GetIndex q (wrap_u64 (ot + 1)) <> GetIndex q (head_ q) ->
  config_inv (after q (E_Cas ot x) (enq_log c) (deq_log c)).
Proof.
  intros Hp Hne. pose proof (qi_wf _ _ _ (ci_queue _ Hc)) as Hwf.
  pose proof (ci_threads _ Hc _ _ Hp) as Hti. simpl in Hti.
  apply (local_config_inv c t _ _ Hc Hp); simpl; [done|]. split; [lia|]. intros He.
  assert (Hw := Hwf). unfold bq_wf in Hw.
  rewrite wrap_u64_small, !GetIndex_mod in Hne by (done || lia).
  assert (ot + 1 <> head_ q + pool_size_ q); [|lia].
  intros Heq. apply Hne. rewrite Heq.
  rewrite <- (Z.mul_1_l (pool_size_ q)) at 1. rewrite Z.mod_add; [done|lia].
Qed.

Lemma cas_step_inv x :
  threads c !! t = Some (E_Cas (tail_ q) x) ->
  config_inv (after (set_tail (tail_ q + 1) q) (E_Write (tail_ q) x) (enq_log c ++ [x]) (deq_log c)).
Proof.
  intros Hp. pose proof (ci_queue _ Hc) as Hq. pose proof (qi_wf _ _ _ Hq) as Hw.
  unfold bq_wf in Hw.
  destruct (ci_threads _ Hc _ _ Hp) as [Hr Hroom].
  apply (update_config_inv c t _ _ _ _ _ Hc Hp).
  - apply claim_queue_inv; [done|by apply Hroom|lia].
  - simpl. split; [lia|]. apply lookup_snoc_eq.
    pose proof (qi_len _ _ _ Hq). lia.
  - intros. apply (claim_thread_inv _ _ _ Hq). eapply ci_threads; eauto.
  - intros w [= <-]. right. lia.
  - simpl. intros w Hw'.
    destruct (decide (tail_ q = w)); [left; congruence|right; split; [lia|done]].
Qed.

Lemma write_step_inv ot x :
  threads c !! t = Some (E_Write ot x) ->
  config_inv (after (write_slot ot x q) (E_Commit ot x) (enq_log c) (deq_log c)).
Proof.
  intros Hp. pose proof (ci_queue _ Hc) as Hq. pose proof (qi_wf _ _ _ Hq) as Hwf.
  destruct (ci_threads _ Hc _ _ Hp) as [Hr Hx].
  apply (update_config_inv c t _ _ _ _ _ Hc Hp).
  - by apply write_queue_inv.
  - simpl. split; [lia|]. split; [done|].
    rewrite GetIndex_mod by (done || unfold bq_wf in Hwf; lia).
    apply list_lookup_insert_eq. by apply index_lt.
  - intros t2 p2 Hne H2. apply (write_thread_inv _ _ _ Hq); [done| |by eapply ci_threads].
    intros Ho. apply Hne. by eapply ci_distinct.
  - naive_solver.
  - simpl. intros w Hw. destruct (decide (ot = w)); [left; congruence|right; split; [lia|congruence]].
Qed.

Lemma commit_step_inv x :
  threads c !! t = Some (E_Commit (commit_ q) x) ->
  config_inv (after (set_commit (commit_ q + 1) q) (E_Done true) (enq_log c) (deq_log c)).
Proof.
  intros Hp. pose proof (ci_queue _ Hc) as Hq.
  destruct (ci_threads _ Hc _ _ Hp) as (Hr & Hx & Hv).
  apply (update_config_inv c t _ _ _ _ _ Hc Hp).
  - apply (commit_queue_inv _ _ _ Hq x); [lia|done|done].
  - done.
  - intros t2 p2 Hne H2. apply commit_thread_inv; [|by eapply ci_threads].
    intros Ho. apply Hne. by eapply (ci_distinct _ Hc t2 t _ _ _ H2 Hp).
  - done.
  - simpl. intros w Hw. right. split; [lia|intros [= Heq]; lia].
Qed.

Lemma read_step_inv oh :
  threads c !! t = Some (D_Read oh) ->
  config_inv (after q (D_Cas oh (slot q (wrap_u64 (oh + 1)))) (enq_log c) (deq_log c)).
Proof.
  intros Hp. pose proof (ci_queue _ Hc) as Hq. pose proof (qi_wf _ _ _ Hq) as Hwf.
  destruct (ci_threads _ Hc _ _ Hp) as [Hr Hx]. assert (Hw := Hwf). unfold bq_wf in Hw.
  apply (local_config_inv c t _ _ Hc Hp); simpl; [done|]. split; [done|]. intros He.
  split; [by apply Hx|]. specialize (Hx He). unfold slot.
  rewrite wrap_u64_small by lia. rewrite GetIndex_mod by (done || lia).
  pose proof (qi_slots _ _ _ Hq (oh + 1) ltac:(lia)) as Hs.
  replace (oh + 1 - 1) with oh in Hs by lia. rewrite Hs.
  destruct (enq_log c !! Z.to_nat oh) eqn:Hl; [done|].
  apply lookup_ge_None in Hl. pose proof (qi_len _ _ _ Hq). lia.
Qed.

Lemma head_step_inv v :
  threads c !! t = Some (D_Cas (head_ q) v) ->
  config_inv (after (set_head (head_ q + 1) q) (D_Done (Some v)) (enq_log c) (deq_log c ++ [v])).
Proof.
  intros Hp. pose proof (ci_queue _ Hc) as Hq.
  destruct (ci_threads _ Hc _ _ Hp) as [Hr Hx]. destruct (Hx eq_refl) as [Hlt Hv].
  apply (update_config_inv c t _ _ _ _ _ Hc Hp).
  - by apply head_queue_inv.
  - done.
  - intros. apply head_thread_inv. by eapply ci_threads.
  - done.
  - simpl. intros w Hw. by right.
Qed.

Lemma thread_step_inv p fail q' p' e :
  threads c !! t = Some p -> thread_step fail q p = (q', p', e) ->
  config_inv (log_event e (after q' p' (enq_log c) (deq_log c))).
Proof.
  intros Hp Hs. pose proof (ci_threads _ Hc _ _ Hp) as Hti.
  pose proof (qi_wf _ _ _ (ci_queue _ Hc)) as Hw. unfold bq_wf in Hw.
  destruct p as [|x|ot x|ot x|ot x|ot x|b| |oh|oh|oh v|r]; simpl in Hs, Hti;
    repeat case_if; simplify_eq; cbn [log_event queue threads enq_log deq_log];
    rewrite ?wrap_u64_small in * by lia;
    try (apply (local_config_inv c t _ _ Hc Hp); simpl; [done|]; solve [done | lia | intuition lia]).
  - apply check_step_inv; [done|]. rewrite wrap_u64_small; [done|lia].
  - by apply cas_step_inv.
  - by apply write_step_inv.
  - by eapply commit_step_inv.
  - rewrite <- (wrap_u64_small (oh + 1)) by lia. by apply read_step_inv.
  - by apply head_step_inv.
Qed.

End steps.

Lemma step_inv n c c' :
  Z.of_nat (S n) < two64 - 3 ->
  config_inv c /\ tail_ (queue c) <= Z.of_nat n + 1 -> step c c' ->
  config_inv c' /\ tail_ (queue c') <= Z.of_nat (S n) + 1.
Proof.
  intros Hn [Hc Ht] Hs. destruct Hs as [c t p x Hp Ho|c t p Hp Ho|c t p fail q' p' e Hp Hs].
  - split; [|simpl; lia]. apply (local_config_inv c t p); [done|done|by destruct p|done].
  - split; [|simpl; lia]. apply (local_config_inv c t p); [done|done|by destruct p|done].
  - split; [eapply thread_step_inv; eauto; lia|].
    assert (tail_ q' <= tail_ (queue c) + 1); [|destruct e as [[]|]; simpl; lia].
    pose proof (ci_threads _ Hc _ _ Hp) as Hti. pose proof (qi_wf _ _ _ (ci_queue _ Hc)) as Hw.
    unfold bq_wf in Hw. destruct p; simpl in Hs, Hti; repeat case_if; simplify_eq; simpl; try lia.
    rewrite wrap_u64_small; lia.
Qed.

Lemma init_inv size n :
  0 <= size < two64 - 2 -> config_inv (init_config size n).
Proof.
  intros Hs. unfold init_config, Init. cbn -[wrap_u64 replicate].
  rewrite wrap_u64_small by lia.
  split; cbn -[replicate].
  - split; bq_simpl; [rewrite length_replicate; unfold two64 in *; lia|done|done|lia].
  - intros t p. rewrite lookup_gset_to_gmap_Some. by intros [_ <-].
  - intros t1 t2 p1 p2 w. rewrite lookup_gset_to_gmap_Some. by intros [_ <-].
  - lia.
Qed.

Lemma reachable_inv size k n c :
  0 <= size < two64 - 2 -> nsteps step n (init_config size k) c -> Z.of_nat n < two64 - 3 ->
  config_inv c.
Proof.
  intros Hs Hr Hn.
  apply (nsteps_invariant step (fun n c => config_inv c /\ tail_ (queue c) <= Z.of_nat n + 1)
           (two64 - 3) (init_config size k)) with (n := n); [|apply step_inv|done|done].
  split; [by apply init_inv|done].
Qed.

Lemma step_pool_size c c' : step c c' -> pool_size_ (queue c') = pool_size_ (queue c).
Proof.
  destruct 1 as [| |c t p fail q' p' e Hp Hs]; [done|done|].
  assert (pool_size_ q' = pool_size_ (queue c)); [|by destruct e as [[]|]].
  destruct p; simpl in Hs; repeat case_if; by simplify_eq.
Qed.

Lemma reachable_pool_size size k n c :
  0 <= size < two64 - 2 -> nsteps step n (init_config size k) c ->
  pool_size_ (queue c) = size + 2.
Proof.
  intros Hs Hr. apply rtc_nsteps_2 in Hr.
  eapply (rtc_invariant step (fun c => pool_size_ (queue c) = size + 2)); [|intros y z <- Hyz|apply Hr].
  - simpl. rewrite wrap_u64_small; lia.
  - by apply step_pool_size.
Qed.

(** C1: In every run of any number of producers and consumers, whatever the
    interleaving of their memory accesses and spurious failures of the weak swaps,
    the elements handed out by [Dequeue] are, in order, the first elements claimed
    by [Enqueue], and never more than [size] elements are in the queue. *)
Theorem bounded_queue_fifo (size : Z) (k n : nat) (c : config)
    (Hsize : 0 <= size < two64 - 2)
    (Hrun : nsteps step n (init_config size k) c) (Hn : Z.of_nat n < two64 - 3) :
  deq_log c `prefix_of` enq_log c /\
  Z.of_nat (length (enq_log c)) - Z.of_nat (length (deq_log c)) <= size.
Proof.
  pose proof (reachable_inv _ _ _ _ Hsize Hrun Hn) as [[Hw Hl Hd _] _ _ _].
  pose proof (reachable_pool_size _ _ _ _ Hsize Hrun). unfold bq_wf in Hw.
  rewrite Hd. split; [apply prefix_take|]. rewrite length_take. lia.
Qed.

(** ** The queue between operations *)

Lemma Size_wf q : bq_wf q -> Size q = tail_ q - head_ q - 1.
Proof.
  unfold bq_wf, Size. intros. rewrite (wrap_u64_small (tail_ q - head_ q)) by lia.
  rewrite wrap_u64_small; lia.
Qed.

Lemma slot_lookup q n :
  bq_wf q -> 0 <= n < two64 -> pool_ q !! Z.to_nat (n mod pool_size_ q) = Some (slot q n).
Proof.
  intros Hw Hn. unfold slot. rewrite GetIndex_mod by done.
  destruct (lookup_lt_is_Some_2 (pool_ q) _ (index_lt q n Hw)) as [x Hx]. by rewrite Hx.
Qed.

Lemma lookup_contents q i :
  bq_wf q -> (i < Z.to_nat (Size q))%nat ->
  contents q !! i = Some (slot q (head_ q + 1 + Z.of_nat i)).
Proof.
  intros Hw Hi. unfold contents. rewrite list_lookup_fmap, lookup_seq_lt by lia. done.
Qed.

Lemma length_contents q : length (contents q) = Z.to_nat (Size q).
Proof. unfold contents. by rewrite length_fmap, length_seq. Qed.

(** When every thread of a run is outside of [Enqueue] and [Dequeue], the queue
    holds exactly the elements enqueued and not yet dequeued, oldest first: no
    element is lost, duplicated or reordered. *)
Theorem bounded_queue_no_loss (size : Z) (k n : nat) (c : config)
    (Hsize : 0 <= size < two64 - 2)
    (Hrun : nsteps step n (init_config size k) c) (Hn : Z.of_nat n < two64 - 3)
    (Hout : forall t p, threads c !! t = Some p -> outside p = true) :
  quiescent (queue c) /\ enq_log c = deq_log c ++ contents (queue c).
Proof.
  pose proof (reachable_inv _ _ _ _ Hsize Hrun Hn) as [[Hw Hl Hd Hs] Ht _ Ho].
  assert (Hct : commit_ (queue c) = tail_ (queue c)).
  { destruct (decide (commit_ (queue c) < tail_ (queue c))) as [Hlt|]; [|unfold bq_wf in Hw; lia].
    destruct (Ho (commit_ (queue c)) ltac:(lia)) as (t & p & Hp & Hown).
    specialize (Hout t p Hp). by destruct p. }
  split; [done|]. rewrite Hd. rewrite <- (take_drop (Z.to_nat (head_ (queue c))) (enq_log c)) at 1.
  f_equal. pose proof Hw as Hw'. unfold bq_wf in Hw'. pose proof (Size_wf _ Hw).
  apply list_eq. intros i. rewrite lookup_drop.
  destruct (decide (i < Z.to_nat (Size (queue c)))%nat).
  - rewrite lookup_contents by done. rewrite <- slot_lookup by (done || lia).
    rewrite Hs by lia. f_equal. lia.
  - rewrite !lookup_ge_None_2; [done| |]; rewrite ?length_contents; lia.
Qed.

Lemma list_eq_contents q l :
  bq_wf q -> length l = Z.to_nat (Size q) ->
  (forall i, (i < length l)%nat -> l !! i = Some (slot q (head_ q + 1 + Z.of_nat i))) ->
  contents q = l.
Proof.
  intros Hw Hl Hi. apply list_eq_same_length with (n := length l); [done|by rewrite length_contents|].
  intros i x y Hlt. rewrite lookup_contents by (done || lia). rewrite Hi by done. congruence.
Qed.

Section alone.
Context (q : BQ) (Hq : quiescent q) (Hroom : tail_ q + 1 < two64 - 1).

Lemma full_test :
  (GetIndex q (wrap_u64 (tail_ q + 1)) =? GetIndex q (head_ q)) =
  bool_decide (tail_ q + 1 = head_ q + pool_size_ q).
Proof.
  destruct Hq as [Hw Hc]. pose proof Hw as Hw'. unfold bq_wf in Hw'.
  rewrite wrap_u64_small, !GetIndex_mod by (done || lia).
  case_bool_decide as Hf.
  - rewrite Hf. replace (head_ q + pool_size_ q) with (head_ q + 1 * pool_size_ q) by lia.
    rewrite Z.mod_add by lia. apply Z.eqb_refl.
  - apply Z.eqb_neq. intros He. apply mod_close_inj in He; lia.
Qed.

Lemma Enqueue_full :
  tail_ q + 1 = head_ q + pool_size_ q -> forall x, Enqueue x q = (false, q).
Proof. intros Hf x. unfold Enqueue. rewrite full_test, bool_decide_eq_true_2; done. Qed.

Lemma Enqueue_room x :
  tail_ q + 1 <> head_ q + pool_size_ q ->
  exists q', Enqueue x q = (true, q') /\ quiescent q' /\ pool_size_ q' = pool_size_ q /\
    contents q' = contents q ++ [x].
Proof.
  intros Hf. destruct Hq as [Hw Hc]. pose proof Hw as Hw'. unfold bq_wf in Hw'.
  unfold Enqueue. rewrite full_test, bool_decide_eq_false_2 by done.
  rewrite wrap_u64_small by lia. eexists. split; [reflexivity|].
  set (q' := set_commit _ _).
  assert (Hwq : bq_wf q') by (subst q'; bq_simpl; rewrite length_insert; lia).
  split; [split; [done|done]|]. split; [done|].
  assert (Hs : Size q' = Size q + 1) by (rewrite !Size_wf by done; simpl; lia).
  apply list_eq_contents; [done|rewrite length_app, length_contents; simpl; rewrite Hs, Size_wf by done; lia|].
  intros i Hi. rewrite length_app, length_contents in Hi. simpl in Hi. rewrite Size_wf in Hi by done.
  rewrite <- slot_lookup by (done || simpl; lia). simpl. unfold write_slot, GetIndex; simpl.
  fold (GetIndex q (tail_ q)). rewrite GetIndex_mod by (done || lia).
  destruct (decide (Z.of_nat i = tail_ q - head_ q - 1)) as [Hl|Hl].
  - rewrite lookup_snoc_eq by (rewrite length_contents, Size_wf by done; lia).
    replace (head_ q + 1 + Z.of_nat i) with (tail_ q) by lia.
    rewrite list_lookup_insert_eq by (by apply index_lt). done.
  - rewrite lookup_snoc_lt by (rewrite length_contents, Size_wf by done; lia).
    rewrite list_lookup_insert_ne by (apply index_ne; done || lia).
    rewrite slot_lookup by (done || lia). apply lookup_contents; [done|]. rewrite Size_wf by done. lia.
Qed.

Lemma Dequeue_empty : Size q = 0 -> Dequeue q = (None, q).
Proof.
  destruct Hq as [Hw Hc]. intros Hs. rewrite Size_wf in Hs by done. unfold bq_wf in Hw.
  unfold Dequeue. rewrite wrap_u64_small by lia. rewrite (proj2 (Z.eqb_eq _ _)); [done|lia].
Qed.

Lemma Dequeue_some :
  Size q <> 0 -> exists x q', Dequeue q = (Some x, q') /\ quiescent q' /\
    pool_size_ q' = pool_size_ q /\ contents q = x :: contents q'.
Proof.
  intros Hs. destruct Hq as [Hw Hc]. pose proof Hw as Hw'. unfold bq_wf in Hw'.
  rewrite Size_wf in Hs by done.
  unfold Dequeue. rewrite wrap_u64_small by lia. rewrite (proj2 (Z.eqb_neq _ _)) by lia.
  eexists _, _. split; [reflexivity|]. set (q' := set_head _ _).
  assert (Hwq : bq_wf q') by (subst q'; bq_simpl; lia).
  split; [split; [done|simpl; lia]|]. split; [done|].
  apply list_eq_contents; [done|simpl; rewrite length_contents, !Size_wf by done; simpl; lia|].
  intros [|i] Hi; simpl in *; [do 2 f_equal; lia|].
  rewrite length_contents in Hi. rewrite lookup_contents by (done || lia).
  replace (head_ q + 1 + Z.of_nat (S i)) with (head_ q + 1 + 1 + Z.of_nat i) by lia.
  reflexivity.
Qed.

End alone.

(** Between operations the queue refines a list of bounded length: [Enqueue]
    appends and reports success exactly when fewer than [size] elements are held,
    [Dequeue] removes the oldest element and reports failure exactly when there is
    none, and both leave a queue of the same capacity that is between operations. *)
Theorem bounded_queue_refines_list (q : BQ) (x : T)
    (Hq : quiescent q) (Hroom : tail_ q + 1 < two64 - 1) :
  (let '(b, q') := Enqueue x q in
   quiescent q' /\ pool_size_ q' = pool_size_ q /\
   (b, contents q') = spec_enqueue (Z.to_nat (pool_size_ q - 2)) x (contents q)) /\
  (let '(r, q') := Dequeue q in
   quiescent q' /\ pool_size_ q' = pool_size_ q /\
   (r, contents q') = spec_dequeue (contents q)).
Proof.
  pose proof Hq as [Hw Hc]. pose proof Hw as Hw'. unfold bq_wf in Hw'.
  pose proof (Size_wf q Hw) as Hs. split.
  - unfold spec_enqueue. rewrite length_contents.
    destruct (decide (tail_ q + 1 = head_ q + pool_size_ q)) as [Hf|Hf].
    + rewrite (Enqueue_full q Hq Hroom Hf x), decide_False by lia. done.
    + destruct (Enqueue_room q Hq Hroom x Hf) as (q' & -> & ? & ? & ->).
      rewrite decide_True by lia. done.
  - destruct (decide (Size q = 0)) as [He|Hne].
    + rewrite (Dequeue_empty q Hq Hroom He). split_and!; [done|done|].
      destruct (contents q) eqn:Hl; [done|]. apply (f_equal length) in Hl.
      rewrite length_contents in Hl. simpl in Hl. lia.
    + destruct (Dequeue_some q Hq Hroom Hne) as (y & q' & -> & ? & ? & ->). done.
Qed.

(** A thread that runs alone through the atomic accesses of [Enqueue] (or of
    [Dequeue]) computes what the sequential functions compute, whatever the
    starting queue between operations. *)
Theorem solo_runs_are_operations (q : BQ) (x : T)
    (Hq : quiescent q) (Hroom : tail_ q + 1 < two64 - 1) :
  solo 5 q (E_Load x) = (snd (Enqueue x q), E_Done (fst (Enqueue x q))) /\
  solo 4 q D_Load = (snd (Dequeue q), D_Done (fst (Dequeue q))).
Proof.
  destruct Hq as [Hw Hc]. unfold Enqueue, Dequeue. simpl. split.
  - case_if; [done|]. simpl. rewrite Z.eqb_refl. simpl.
    rewrite Hc, Z.eqb_refl. done.
  - case_if; [done|]. simpl. rewrite Z.eqb_refl. done.
Qed.

End bounded_queue.
Arguments BQ : clear implicits.
Arguments pc : clear implicits.
Arguments config : clear implicits.

(** ** Witnesses *)

(** Two threads on a queue of capacity 1: thread 0 enqueues 7 while thread 1 has
    already looked at an empty queue. *)
Definition run_step (fail : bool) (t : nat) (c : config nat) : config nat :=
  match threads c !! t with
  | Some p => let '(q', p', e) := thread_step fail (queue c) p in
              log_event e (mkC q' (<[t := p']> (threads c)) (enq_log c) (deq_log c))
  | None => c
  end.

Definition run_call (t : nat) (p : pc nat) (c : config nat) : config nat :=
  mkC (queue c) (<[t := p]> (threads c)) (enq_log c) (deq_log c).

Definition demo_run : config nat :=
  let c := run_call 1 D_Load (run_call 0 (E_Load 7%nat) (init_config 1 2)) in
  let c := run_step false 0 (run_step false 1 (run_step false 0 c)) in
  let c := run_step false 0 (run_step true 0 (run_step false 0 (run_step false 0 c))) in
  let c := run_step false 0 (run_step false 0 c) in
  run_step false 1 (run_step false 1 (run_step false 1 c)).

Lemma run_step_step fail t c :
  is_Some (threads c !! t) -> step c (run_step fail t c).
Proof.
  intros [p Hp]. unfold run_step. rewrite Hp.
  destruct (thread_step fail (queue c) p) as [[q' p'] e] eqn:Hs. by eapply step_thread.
Qed.

Ltac run_demo :=
  repeat match goal with
  | |- nsteps step 0 _ _ => apply nsteps_O
  | |- nsteps step (S _) _ (run_step ?f ?t ?c) =>
      eapply nsteps_r with (y := c); [|apply run_step_step; vm_compute; eexists; reflexivity]
  | |- nsteps step (S _) _ (run_call ?t (E_Load ?x) ?c) =>
      eapply nsteps_r with (y := c); [|eapply (step_call_enqueue c t); reflexivity]
  | |- nsteps step (S _) _ (run_call ?t D_Load ?c) =>
      eapply nsteps_r with (y := c); [|eapply (step_call_dequeue c t); reflexivity]
  end.

Lemma bounded_queue_fifo_witness :
  nsteps step 14 (init_config 1 2) demo_run /\ deq_log demo_run = [7%nat] /\
  deq_log demo_run `prefix_of` enq_log demo_run.
Proof.
  assert (nsteps step 14 (init_config 1 2) demo_run) by (unfold demo_run; cbv zeta; run_demo).
  split; [done|]. split; [vm_compute; reflexivity|].
  apply (bounded_queue_fifo 1 2 14 demo_run); [split; vm_compute; congruence|done|vm_compute; reflexivity].
Defined.

Lemma bounded_queue_no_loss_witness :
  enq_log demo_run = deq_log demo_run ++ contents (queue demo_run).
Proof.
  apply (bounded_queue_no_loss 1 2 14 demo_run);
    [split; vm_compute; congruence|unfold demo_run; cbv zeta; run_demo|vm_compute; reflexivity|].
  change (map_Forall (fun _ p => outside p = true) (threads demo_run)).
  apply map_Forall_to_list. vm_compute. repeat constructor.
Defined.

(** A queue of capacity 2 that holds one element. *)
Definition demo_queue : BQ nat := snd (Enqueue 5%nat (snd (Init true 2 bq_new))).

Lemma demo_queue_quiescent : quiescent demo_queue /\ tail_ demo_queue + 1 < two64 - 1.
Proof. vm_compute. repeat split; congruence. Qed.

Lemma bounded_queue_refines_list_witness :
  contents demo_queue = [5%nat] /\
  (let '(r, q') := Dequeue demo_queue in
   quiescent q' /\ pool_size_ q' = pool_size_ demo_queue /\
   (r, contents q') = spec_dequeue (contents demo_queue)).
Proof.
  split; [vm_compute; reflexivity|].
  exact (proj2 (bounded_queue_refines_list demo_queue 6%nat
    (proj1 demo_queue_quiescent) (proj2 demo_queue_quiescent))).
Defined.

Lemma solo_runs_are_operations_witness :
  solo 5 demo_queue (E_Load 6%nat) =
    (snd (Enqueue 6%nat demo_queue), E_Done (fst (Enqueue 6%nat demo_queue))) /\
  fst (Enqueue 6%nat demo_queue) = true.
Proof.
  split; [|vm_compute; reflexivity].
  exact (proj1 (solo_runs_are_operations demo_queue 6%nat
    (proj1 demo_queue_quiescent) (proj2 demo_queue_quiescent))).
Defined.
