(* ===== verification/CacheBuffer.v ===== *)
(** * CacheBuffer: the ring buffer behind every reader, and its channel view

    Models [cyber/data/cache_buffer.h], [cyber/data/channel_buffer.h] and
    [DataVisitor<M0>::TryFetch] of [cyber/data/data_visitor.h].  A buffer is the
    record [CacheBuffer]; positions count the messages ever stored, from 1, and
    the message of position [i] lives in slot [i mod capacity_].  Every operation
    runs under the buffer's mutex in the source, so an operation is one function
    here. *)

From S2P Require Import Prelude.

Section cache_buffer.
Context {T : Type} `{!Inhabited T}.

(** [fusion_callback_] says whether a fusion callback is set. *)
Record CacheBuffer := mkCB {
  head_ : Z;
  tail_ : Z;
  capacity_ : Z;
  buffer_ : list T;
  fusion_callback_ : bool;
}.

(** The constructor [CacheBuffer(size)]. *)
Definition cb_new (size : Z) : CacheBuffer :=
  let c := wrap_u64 (size + 1) in
  mkCB 0 0 c (replicate (Z.to_nat c) inhabitant) false.

Definition GetIndex (b : CacheBuffer) (pos : Z) : Z := pos mod capacity_ b.

Definition at_ (b : CacheBuffer) (pos : Z) : T :=
  default inhabitant (buffer_ b !! Z.to_nat (GetIndex b pos)).

Definition Head (b : CacheBuffer) : Z := wrap_u64 (head_ b + 1).
Definition Tail (b : CacheBuffer) : Z := tail_ b.
Definition Size (b : CacheBuffer) : Z := wrap_u64 (tail_ b - head_ b).
Definition Front (b : CacheBuffer) : T := at_ b (wrap_u64 (head_ b + 1)).
Definition Back (b : CacheBuffer) : T := at_ b (tail_ b).
Definition Empty (b : CacheBuffer) : bool := tail_ b =? 0.
Definition Full (b : CacheBuffer) : bool :=
  wrap_u64 (capacity_ b - 1) =? wrap_u64 (tail_ b - head_ b).

Definition SetFusionCallback (b : CacheBuffer) : CacheBuffer :=
  mkCB (head_ b) (tail_ b) (capacity_ b) (buffer_ b) true.

(** [Fill]: with a callback the value goes to the callback, second component,
    and the buffer stays; without one it is stored, over the oldest message when
    the buffer is full. *)
Definition Fill (value : T) (b : CacheBuffer) : CacheBuffer * option T :=
  if fusion_callback_ b then (b, Some value)
  else if Full b then
    (mkCB (wrap_u64 (head_ b + 1)) (wrap_u64 (tail_ b + 1)) (capacity_ b)
       (<[Z.to_nat (GetIndex b (head_ b)) := value]> (buffer_ b)) false, None)
  else
    (mkCB (head_ b) (wrap_u64 (tail_ b + 1)) (capacity_ b)
       (<[Z.to_nat (GetIndex b (wrap_u64 (tail_ b + 1))) := value]> (buffer_ b)) false, None).

(** ** ChannelBuffer *)

(** [Fetch(index, m)]: [None] is [false] (nothing is written), [Some (i, m)] is
    [true] with [*index = i] and the message [m]. *)
Definition Fetch (index : Z) (b : CacheBuffer) : option (Z * T) :=
  if Empty b then None
  else if index =? 0 then Some (Tail b, at_ b (Tail b))
  else if index =? wrap_u64 (Tail b + 1) then None
  else if index <? Head b then Some (Tail b, at_ b (Tail b))
  else Some (index, at_ b index).

Definition Latest (b : CacheBuffer) : option T :=
  if Empty b then None else Some (Back b).

(** The loop of [FetchMulti], at most [fuel] rounds. *)
Fixpoint fetch_loop (fuel : nat) (index : Z) (b : CacheBuffer) : list T :=
  match fuel with
  | O => []
  | S fuel' =>
      if index <=? Tail b then at_ b index :: fetch_loop fuel' (wrap_u64 (index + 1)) b else []
  end.

(** [FetchMulti(fetch_size, vec)]: the messages appended to [vec]. *)
Definition FetchMulti (fetch_size : Z) (b : CacheBuffer) : option (list T) :=
  if Empty b then None
  else
    let num := Z.min (Size b) fetch_size in
    Some (fetch_loop (S (Z.to_nat num)) (wrap_u64 (wrap_u64 (Tail b - num) + 1)) b).

(** ** One reader: [DataVisitor<M0>] *)

(** [TryFetch] with the visitor's [next_msg_index_]: the message and the new index. *)
Definition TryFetch (next_msg_index : Z) (b : CacheBuffer) : option (T * Z) :=
  match Fetch next_msg_index b with
  | Some (i, m) => Some (m, wrap_u64 (i + 1))
  | None => None
  end.

(** A writer and a reader on one buffer. *)
Inductive op := OpFill (m : T) | OpFetch.

Record session := mkS { buf : CacheBuffer; next_msg_index_ : Z; got : list T }.

Definition run_op (s : session) (o : op) : session :=
  match o with
  | OpFill m => mkS (fst (Fill m (buf s))) (next_msg_index_ s) (got s)
  | OpFetch =>
      match TryFetch (next_msg_index_ s) (buf s) with
      | Some (m, n) => mkS (buf s) n (got s ++ [m])
      | None => s
      end
  end.

Definition run_ops (size : Z) (os : list op) : session :=
  fold_left run_op os (mkS (cb_new size) 0 []).

(** The messages the writer filled in, in order. *)
Definition filled (os : list op) : list T :=
  omap (fun o => match o with OpFill m => Some m | OpFetch => None end) os.

(** The branch of [Fetch] that drops messages ("read buffer overflow"). *)
Definition overflows (next_msg_index : Z) (b : CacheBuffer) : bool :=
  negb (next_msg_index =? 0) && (next_msg_index <? Head b).

(** No fetch of the run takes that branch. *)
Fixpoint never_overflows (s : session) (os : list op) : bool :=
  match os with
  | [] => true
  | o :: os' =>
      match o with
      | OpFetch => negb (overflows (next_msg_index_ s) (buf s))
      | OpFill _ => true
      end && never_overflows (run_op s o) os'
  end.

(** ** Abstraction: a buffer of capacity [size] after the messages [hist] *)

Record holds (size : Z) (hist : list T) (b : CacheBuffer) : Prop := {
  h_size : 0 <= size < two64 - 1;
  h_short : Z.of_nat (length hist) < two64 - 1;
  h_cap : capacity_ b = size + 1;
  h_len : Z.of_nat (length (buffer_ b)) = size + 1;
  h_tail : tail_ b = Z.of_nat (length hist);
  h_head : head_ b = Z.max 0 (Z.of_nat (length hist) - size);
  h_nocb : fusion_callback_ b = false;
  h_slots : forall i, 1 <= i <= tail_ b -> tail_ b - capacity_ b < i ->
    buffer_ b !! Z.to_nat (i mod capacity_ b) = hist !! Z.to_nat (i - 1);
}.

(** ** Operations under the abstraction *)

Lemma holds_new size : 0 <= size < two64 - 1 -> holds size [] (cb_new size).
Proof.
  intros Hs. unfold cb_new. rewrite wrap_u64_small by lia.
  split; cbn -[replicate]; try (rewrite ?length_replicate; lia || done).
Qed.

Section held.
Context (size : Z) (hist : list T) (b : CacheBuffer) (Hb : holds size hist b).

Lemma held_at i :
  1 <= i <= tail_ b -> tail_ b - capacity_ b < i -> hist !! Z.to_nat (i - 1) = Some (at_ b i).
Proof.
  intros H1 H2. destruct Hb. unfold at_, GetIndex. rewrite h_slots0 by done.
  destruct (hist !! Z.to_nat (i - 1)) eqn:Hl; [done|]. apply lookup_ge_None in Hl. lia.
Qed.

Lemma held_index_lt i : (Z.to_nat (i mod capacity_ b) < length (buffer_ b))%nat.
Proof. destruct Hb. pose proof (Z.mod_pos_bound i (capacity_ b)). lia. Qed.

Lemma held_Full : Full b = bool_decide (size <= Z.of_nat (length hist)).
Proof.
  destruct Hb. unfold Full. rewrite h_cap0, h_tail0, h_head0.
  rewrite !wrap_u64_small by lia. case_bool_decide; [apply Z.eqb_eq | apply Z.eqb_neq]; lia.
Qed.

(** A full buffer stores over the slot of position [head_], which is the slot of
    the new position. *)
Lemma held_Fill m :
  Z.of_nat (length hist) + 1 < two64 - 1 ->
  Fill m b = (mkCB (Z.max 0 (tail_ b + 1 - size)) (tail_ b + 1) (capacity_ b)
    (<[Z.to_nat ((tail_ b + 1) mod capacity_ b) := m]> (buffer_ b)) false, None).
Proof.
  intros Hl. unfold Fill, GetIndex. rewrite held_Full. destruct Hb.
  rewrite h_nocb0. rewrite (wrap_u64_small (tail_ b + 1)) by lia.
  case_bool_decide; do 2 f_equal; try lia.
  - rewrite wrap_u64_small; lia.
  - rewrite <- (Z.mod_add (head_ b) 1) by lia. do 3 f_equal. lia.
Qed.

Lemma holds_fill m :
  Z.of_nat (length hist) + 1 < two64 - 1 -> holds size (hist ++ [m]) (fst (Fill m b)).
Proof.
  intros Hl. rewrite held_Fill by done. pose proof held_index_lt as Hlt. destruct Hb.
  split; cbn [fst head_ tail_ capacity_ buffer_ fusion_callback_];
    rewrite ?length_app, ?length_insert; cbn [length]; try (lia || done).
  intros i H1 H2. destruct (decide (i = tail_ b + 1)) as [->|].
  - rewrite list_lookup_insert_eq by apply Hlt. symmetry. apply lookup_snoc_eq. lia.
  - rewrite lookup_snoc_lt by lia. rewrite list_lookup_insert_ne; [apply h_slots0; lia|].
    intros He. assert (i = tail_ b + 1); [|done].
    pose proof (Z.mod_pos_bound i (capacity_ b)). pose proof (Z.mod_pos_bound (tail_ b + 1) (capacity_ b)).
    apply (mod_close_inj i _ (capacity_ b)); lia.
Qed.

Lemma held_Empty : Empty b = bool_decide (hist = []).
Proof.
  destruct Hb. unfold Empty. rewrite h_tail0. destruct hist; [done|].
  rewrite bool_decide_eq_false_2 by done. apply Z.eqb_neq. simpl. lia.
Qed.

Lemma held_last :
  hist <> [] -> hist !! (length hist - 1)%nat = Some (at_ b (tail_ b)).
Proof.
  intros Hne. destruct Hb. assert (0 < length hist)%nat by (destruct hist; simpl; [done|lia]).
  replace (length hist - 1)%nat with (Z.to_nat (tail_ b - 1)) by lia. apply held_at; lia.
Qed.

(** [Fetch] in terms of the messages: what the reader asked for when it is still
    held, else the newest message. *)
Lemma held_Fetch n :
  0 <= n <= Z.of_nat (length hist) + 1 ->
  Fetch n b =
    if decide (n = Z.of_nat (length hist) + 1 \/ hist = []) then None
    else let i := if decide (n = 0 \/ n + size <= Z.of_nat (length hist))
                  then Z.of_nat (length hist) else n in
         Some (i, at_ b i).
Proof.
  intros Hn. unfold Fetch. rewrite held_Empty. destruct Hb. unfold Tail, Head.
  rewrite h_tail0, h_head0, !wrap_u64_small by lia.
  destruct (decide (hist = [])) as [->|Hne].
  { rewrite bool_decide_eq_true_2, decide_True by auto. done. }
  assert (0 < Z.of_nat (length hist)) by (destruct hist; simpl; [done|lia]).
  rewrite bool_decide_eq_false_2 by done.
  repeat (case_if || case_decide); try done; try lia.
  all: destruct_or?; try done; lia.
Qed.

End held.

(** A visitor whose last delivered message was number [n] gets nothing when
    there is no newer message, message [n+1] when at most [size] newer messages were
    stored, and otherwise the newest message, the ones in between being dropped. *)
Theorem visitor_try_fetch (size : Z) (hist : list T) (b : CacheBuffer) (n : nat)
    (Hb : holds size hist b) (Hn : (n <= length hist)%nat) :
  (n = length hist -> TryFetch (Z.of_nat n + 1) b = None) /\
  ((n < length hist)%nat -> Z.of_nat (length hist) <= Z.of_nat n + size ->
   exists m, hist !! n = Some m /\ TryFetch (Z.of_nat n + 1) b = Some (m, Z.of_nat n + 2)) /\
  (Z.of_nat n + size < Z.of_nat (length hist) ->
   exists m, hist !! (length hist - 1)%nat = Some m /\
     TryFetch (Z.of_nat n + 1) b = Some (m, Z.of_nat (length hist) + 1)).
Proof.
  pose proof (h_size _ _ _ Hb). pose proof (h_short _ _ _ Hb). pose proof (h_cap _ _ _ Hb).
  pose proof (h_tail _ _ _ Hb) as Ht. unfold TryFetch. rewrite (held_Fetch size hist b Hb) by lia.
  cbv zeta.
  split_and!.
  - intros ->. rewrite decide_True by auto. done.
  - intros H2 H3. rewrite decide_False by (intros [?|He]; [lia|rewrite He in H2; simpl in H2; lia]).
    rewrite decide_False by lia. exists (at_ b (Z.of_nat n + 1)).
    rewrite wrap_u64_small by lia. split; [|do 2 f_equal; lia].
    rewrite <- (held_at size hist b Hb) by lia. f_equal. lia.
  - intros H2. rewrite decide_False by (intros [?|He]; [lia|rewrite He in H2; simpl in H2; lia]).
    rewrite decide_True by lia. exists (at_ b (tail_ b)).
    rewrite wrap_u64_small by lia. split; [|by rewrite Ht].
    apply (held_last size hist b Hb). intros He. rewrite He in H2. simpl in H2. lia.
Qed.

(** ** Runs of one writer and one reader *)

Lemma run_ops_snoc size os o : run_ops size (os ++ [o]) = run_op (run_ops size os) o.
Proof. unfold run_ops. by rewrite fold_left_app. Qed.

Lemma filled_snoc os o :
  filled (os ++ [o]) = filled os ++ match o with OpFill m => [m] | OpFetch => [] end.
Proof. unfold filled. rewrite omap_app. by destruct o. Qed.

Lemma length_filled os : (length (filled os) <= length os)%nat.
Proof. induction os as [|[m|] os IH]; simpl; unfold filled in *; simpl; lia. Qed.

(** What a run has stored and delivered after the operations [os]. *)
Record run_inv (size : Z) (os : list op) (s : session) : Prop := {
  ri_holds : holds size (filled os) (buf s);
  ri_next : 0 <= next_msg_index_ s <= Z.of_nat (length (filled os)) + 1;
  ri_unread : next_msg_index_ s = 0 -> got s = [];
  ri_got : got s `sublist_of` take (Z.to_nat (next_msg_index_ s - 1)) (filled os);
}.

Lemma run_op_fetch_inv size os s :
  run_inv size os s -> run_inv size os (run_op s OpFetch).
Proof.
  intros [Hb Hn Hu Hg]. simpl. unfold TryFetch. rewrite (held_Fetch size _ _ Hb) by done.
  cbv zeta.
  case_decide as Hc; [done|]. set (i := if decide _ then _ else _).
  assert (Hne : filled os <> []) by tauto. assert (0 < length (filled os))%nat by (destruct (filled os); simpl; [done|lia]).
  pose proof (h_short _ _ _ Hb). pose proof (h_size _ _ _ Hb).
  assert (Hi : next_msg_index_ s <= i <= Z.of_nat (length (filled os)) /\ 1 <= i /\
               Z.of_nat (length (filled os)) <= i + size).
  { subst i. case_decide; lia. }
  rewrite wrap_u64_small by lia. split; cbn [buf next_msg_index_ got]; [done|lia|lia|].
  replace (Z.to_nat (i + 1 - 1)) with (S (Z.to_nat (i - 1))) by lia.
  rewrite (take_S_r _ _ (at_ (buf s) i)).
  - apply sublist_app; [|done]. etrans; [exact Hg|].
    apply take_sublist_take. lia.
  - apply (held_at size _ _ Hb); [rewrite (h_tail _ _ _ Hb); lia|].
    rewrite (h_tail _ _ _ Hb), (h_cap _ _ _ Hb). lia.
Qed.

Lemma run_ops_inv size os :
  0 <= size < two64 - 1 -> Z.of_nat (length os) < two64 - 1 -> run_inv size os (run_ops size os).
Proof.
  intros Hs. induction os as [|o os IH] using rev_ind; intros Hl.
  - split; simpl; [by apply holds_new|lia|done|done].
  - rewrite length_app in Hl. simpl in Hl. rewrite run_ops_snoc. specialize (IH ltac:(lia)).
    pose proof (length_filled os) as Hlen.
    destruct o as [m|].
    + destruct IH as [Hb Hn Hu Hg].
      split; simpl; rewrite ?filled_snoc, ?length_app; simpl.
      * apply holds_fill; [done|lia].
      * lia.
      * done.
      * rewrite take_app_le by lia. done.
    + apply run_op_fetch_inv in IH. destruct IH as [? ? ? ?].
      by split; rewrite ?filled_snoc, ?app_nil_r.
Qed.

(** C27: Whatever the order of stores and fetches, a reader gets a subsequence of the
    messages stored: never one that was not stored, never one twice, never out of
    order. *)
Theorem reader_gets_subsequence (size : Z) (os : list op)
    (Hsize : 0 <= size < two64 - 1) (Hshort : Z.of_nat (length os) < two64 - 1) :
  got (run_ops size os) `sublist_of` filled os.
Proof.
  destruct (run_ops_inv size os Hsize Hshort) as [_ _ _ Hg].
  etrans; [exact Hg|apply sublist_take].
Qed.

Lemma never_overflows_snoc s os o :
  never_overflows s (os ++ [o]) = true ->
  never_overflows s os = true /\
  (o = OpFetch -> overflows (next_msg_index_ (fold_left run_op os s)) (buf (fold_left run_op os s)) = false).
Proof.
  revert s. induction os as [|o' os IH]; intros s; simpl.
  - intros H. split; [done|]. intros ->. to_prop. done.
  - intros H. to_prop. destruct (IH (run_op s o')) as [H1 H2]; [done|].
    split; [|done]. apply andb_true_iff. done.
Qed.

(** A reader that lost nothing: it has not started, or what it got is a contiguous
    run of the messages [hist], followed by what it has not asked for. *)
Definition lossless (hist : list T) (s : session) : Prop :=
  next_msg_index_ s = 0 /\ got s = [] \/
  1 <= next_msg_index_ s /\
  exists skipped, hist = skipped ++ got s ++ drop (Z.to_nat (next_msg_index_ s - 1)) hist.

Lemma fetch_lossless size os s :
  run_inv size os s -> overflows (next_msg_index_ s) (buf s) = false ->
  lossless (filled os) s -> lossless (filled os) (run_op s OpFetch).
Proof.
  intros [Hb Hn _ _] Hlast IH. pose proof (h_short _ _ _ Hb). pose proof (h_size _ _ _ Hb).
  simpl. unfold TryFetch. rewrite (held_Fetch size _ _ Hb) by done. cbv zeta.
  case_decide as Hc; [done|]. right. cbn [buf next_msg_index_ got].
  assert (Hne : filled os <> []) by tauto.
  assert (0 < length (filled os))%nat by (destruct (filled os); simpl; [done|lia]).
  unfold overflows, Head in Hlast. rewrite (h_head _ _ _ Hb), wrap_u64_small in Hlast by lia.
  case_decide as Hz; rewrite wrap_u64_small by lia; (split; [lia|]).
  - assert (Hz0 : next_msg_index_ s = 0)
      by (destruct (next_msg_index_ s =? 0) eqn:E; simpl in Hlast; to_prop; lia).
    destruct IH as [[_ Hg]|[? _]]; [|lia]. rewrite Hg.
    exists (take (length (filled os) - 1) (filled os)). simpl.
    rewrite <- (take_drop (length (filled os) - 1) (filled os)) at 1. f_equal.
    erewrite drop_S by (rewrite (held_last size _ _ Hb) by done; reflexivity).
    rewrite (h_tail _ _ _ Hb). do 2 f_equal. lia.
  - destruct IH as [[? _]|[Hge [sk IH]]]; [lia|].
    exists sk. rewrite IH at 1. f_equal. rewrite <- (assoc_L app). f_equal.
    erewrite drop_S by (apply (held_at size _ _ Hb); rewrite (h_tail _ _ _ Hb), ?(h_cap _ _ _ Hb); lia).
    simpl. do 2 f_equal. lia.
Qed.

(** A reader that never falls more than the queue size behind loses nothing after
    its first message: the messages it got are a contiguous run of the messages
    stored, and what follows that run is exactly what it has not asked for yet. *)
Theorem reader_keeps_up_lossless (size : Z) (os : list op)
    (Hsize : 0 <= size < two64 - 1) (Hshort : Z.of_nat (length os) < two64 - 1)
    (Hok : never_overflows (mkS (cb_new size) 0 []) os = true) :
  lossless (filled os) (run_ops size os).
Proof.
  induction os as [|o os IH] using rev_ind; [by left|].
  apply never_overflows_snoc in Hok as [Hok Hlast]. rewrite length_app in Hshort. simpl in Hshort.
  pose proof (run_ops_inv size os Hsize ltac:(lia)) as Hinv. pose proof (ri_next _ _ _ Hinv).
  specialize (IH ltac:(lia) Hok). fold (run_ops size os) in Hlast.
  rewrite run_ops_snoc, filled_snoc. destruct o as [m|].
  - destruct IH as [?|[H1 [sk IH]]]; [by left|right]. simpl. split; [done|]. exists sk.
    rewrite drop_app_le by lia. rewrite IH at 1. by rewrite <- !(assoc_L app).
  - rewrite app_nil_r. apply (fetch_lossless size); auto.
Qed.

(** C26: [FetchMulti] returns the newest [fetch_size] messages that are still held, in
    the order they were stored. *)
Theorem fetch_multi_newest (size : Z) (hist : list T) (b : CacheBuffer) (k : Z)
    (Hb : holds size hist b) (Hk : 0 <= k) :
  FetchMulti k b =
    if decide (hist = []) then None
    else Some (drop (length hist - Z.to_nat (Z.min k size)) hist).
Proof.
  pose proof (h_short _ _ _ Hb). pose proof (h_size _ _ _ Hb). pose proof (h_tail _ _ _ Hb) as Ht.
  pose proof (h_head _ _ _ Hb) as Hh. pose proof (h_cap _ _ _ Hb).
  unfold FetchMulti. rewrite (held_Empty size hist b Hb).
  case_decide as He; [by rewrite bool_decide_eq_true_2|]. rewrite bool_decide_eq_false_2 by done.
  cbv zeta. f_equal. unfold Size, Tail. set (num := Z.min _ k).
  assert (Hnum : num = Z.min k (Z.min (tail_ b) size)).
  { subst num. rewrite wrap_u64_small; lia. }
  rewrite (wrap_u64_small (tail_ b - num)), wrap_u64_small by lia.
  assert (Hloop : forall fuel i, 1 <= i <= tail_ b + 1 -> tail_ b - size < i ->
            (Z.to_nat (tail_ b + 1 - i) < fuel)%nat ->
            fetch_loop fuel i b = drop (Z.to_nat (i - 1)) hist).
  { induction fuel as [|fuel IH]; intros i Hi1 Hi2 Hi3; [lia|]. simpl. unfold Tail. case_if.
    - erewrite drop_S by (apply (held_at size hist b Hb); lia).
      rewrite wrap_u64_small, IH by lia. do 2 f_equal. lia.
    - symmetry. apply drop_ge. lia. }
  rewrite Hloop by lia. destruct (decide (Z.min k size <= tail_ b)).
  - f_equal. lia.
  - f_equal. lia.
Qed.

End cache_buffer.
Arguments CacheBuffer : clear implicits.
Arguments op : clear implicits.
Arguments session : clear implicits.

(** ** Witnesses: a queue of size 2, messages 1 to 4 *)

Definition demo_ops : list (op nat) :=
  [OpFill 1; OpFetch; OpFill 2; OpFill 3; OpFetch; OpFetch; OpFetch; OpFill 4]%nat.

Definition demo_buffer : CacheBuffer nat :=
  fst (Fill 3%nat (fst (Fill 2%nat (fst (Fill 1%nat (cb_new 2)))))).

Lemma demo_holds : holds 2 [1; 2; 3]%nat demo_buffer.
Proof.
  unfold demo_buffer.
  apply (holds_fill 2 [1; 2]%nat); [|done]. apply (holds_fill 2 [1]%nat); [|done].
  apply (holds_fill 2 []); [|done]. by apply holds_new.
Qed.

Lemma visitor_try_fetch_witness :
  exists m, [1; 2; 3]%nat !! 1%nat = Some m /\ TryFetch 2 demo_buffer = Some (m, 3).
Proof.
  apply (visitor_try_fetch 2 [1; 2; 3]%nat demo_buffer 1%nat demo_holds); simpl; lia.
Defined.

Lemma reader_gets_subsequence_witness :
  got (run_ops 2 demo_ops) = [1; 2; 3]%nat /\
  got (run_ops 2 demo_ops) `sublist_of` filled demo_ops.
Proof.
  split; [vm_compute; reflexivity|].
  apply (reader_gets_subsequence 2 demo_ops); vm_compute; intuition congruence.
Defined.

Lemma reader_keeps_up_lossless_witness : lossless (filled demo_ops) (run_ops 2 demo_ops).
Proof.
  apply (reader_keeps_up_lossless 2 demo_ops); [split; vm_compute; congruence..|].
  vm_compute. reflexivity.
Defined.

Lemma fetch_multi_newest_witness : FetchMulti 5 demo_buffer = Some [2; 3]%nat.
Proof.
  rewrite (fetch_multi_newest 2 [1; 2; 3]%nat demo_buffer 5 demo_holds ltac:(lia)). reflexivity.
Defined.
