(* ===== verification/Interfaces.v ===== *)
(** * Interfaces between the components

    What a component promises to the ones that use it, as type classes.  The
    clients' theorems are proved against the class; the component's file gives
    the instance. *)

From S2P Require Import Prelude.

(** ** A map with 64-bit keys

    Promised by [AtomicHashMap] (cyber/base) to the data dispatcher, the data
    notifier and the schedulers, which use [Get] and [Set]. *)
Class KeyMap (M : Type -> Type) := {
  km_wf : forall {V}, M V -> Prop;
  km_empty : forall {V}, M V;
  km_get : forall {V}, Z -> M V -> option V;
  km_set : forall {V}, Z -> V -> M V -> M V;
}.

Class KeyMapLaws (M : Type -> Type) `{!KeyMap M} := {
  km_empty_wf : forall V, km_wf (km_empty : M V);
  km_set_wf : forall V k v (m : M V), is_u64 k -> km_wf m -> km_wf (km_set k v m);
  km_get_empty : forall V k, is_u64 k -> km_get k (km_empty : M V) = None;
  km_get_set_eq : forall V k v (m : M V), is_u64 k -> km_wf m -> km_get k (km_set k v m) = Some v;
  km_get_set_ne : forall V k k' v (m : M V), is_u64 k -> is_u64 k' -> km_wf m -> k <> k' ->
    km_get k' (km_set k v m) = km_get k' m;
}.

Lemma km_get_set `{KeyMapLaws M} {V} k k' v (m : M V) :
  is_u64 k -> is_u64 k' -> km_wf m ->
  km_get k' (km_set k v m) = if decide (k = k') then Some v else km_get k' m.
Proof.
  intros. case_decide; [subst; by apply km_get_set_eq|by apply km_get_set_ne].
Qed.

#[export] Hint Resolve @km_empty_wf @km_set_wf : cyber.

(** ** The visitors and callbacks of the tasks of a processor

    Promised by the data visitors and the callbacks of the components to the loop of a processor:
    [v_fetch p] is the [TryFetch] of the visitor of the task at [p]; [v_call p m] runs its callback on
    a message and gives the tasks that it notifies, by publishing on channels that they read.
    [v_work] bounds what is left to do. *)
Class Visitors (W M : Type) := {
  v_fetch : Z -> W -> option (M * W);
  v_call : Z -> M -> W -> W * list Z;
  v_work : W -> nat;
  v_ok : W -> Prop;
}.

(** Handling a message is progress, also when it makes messages for others; and a task whose visitor
    had nothing has nothing until it is notified. *)
Class VisitorsLaws (W M : Type) `{!Visitors W M} := {
  v_progress : forall p w m w1 w2 qs, v_ok w -> v_fetch p w = Some (m, w1) -> v_call p m w1 = (w2, qs) ->
    (v_work w2 + length qs < v_work w)%nat /\ v_ok w2;
  v_notified : forall p w m w1 w2 qs q, v_ok w -> v_fetch p w = Some (m, w1) -> v_call p m w1 = (w2, qs) ->
    v_fetch q w = None -> q ∉ qs -> v_fetch q w2 = None;
}.

(** ** The table of tasks

    Promised by the scheduler to the readers: a task has a name of its own, [t_create] refuses a name that is
    taken, and a name that was removed is free again.  [t_inv names t]: the tasks of [t] are [names]. *)
Class Tasks (T : Type) := {
  t_create : string -> T -> bool * T;
  t_remove : string -> T -> T;
}.

Class TasksLaws (T : Type) `{!Tasks T} := {
  t_inv : gset string -> T -> Prop;
  t_create_new : forall names t name, t_inv names t -> name ∉ names ->
    exists t', t_create name t = (true, t') /\ t_inv ({[name]} ∪ names) t';
  t_create_taken : forall names t name, t_inv names t -> name ∈ names ->
    exists t', t_create name t = (false, t') /\ t_inv names t';
  t_remove_inv : forall names t name, t_inv names t -> t_inv (names ∖ {[name]}) (t_remove name t);
}.
