(* ===== verification/AtomicHashMap.v ===== *)
(** * AtomicHashMap: the fixed-size hash map of cyber/base

    Models [cyber/base/atomic_hash_map.h] for one thread at a time.  A bucket is
    the list of its entries after the sentinel, in the order of the [next]
    pointers; the code keeps it sorted by key.  The three overloads of [Insert]
    (and of [Set]) differ only in how the value is constructed.  Replacing a value
    deletes the old one in the source; the model's value is the pointee. *)

From S2P Require Import Prelude Interfaces.

(** The entries of a bucket, key and value. *)
Abbreviation Bucket V := (list (Z * V)).

Section bucket.
Context {V : Type}.

(** [Find]: whether the key was found, the entries up to [prev] (in order), and
    the entries from [target] on. *)
Fixpoint Find (key : Z) (l : Bucket V) : bool * Bucket V * Bucket V :=
  match l with
  | [] => (false, [], [])
  | (k, v) :: l' =>
      if k =? key then (true, [], l)
      else if key <? k then (false, [], l)
      else let '(found, pre, post) := Find key l' in (found, (k, v) :: pre, post)
  end.

Fixpoint bucket_Has (key : Z) (l : Bucket V) : bool :=
  match l with
  | [] => false
  | (k, v) :: l' => if k <? key then bucket_Has key l' else k =? key
  end.

(** [Insert]: replace the value of an existing entry, or link a new entry between
    [prev] and [target]. *)
Definition bucket_Insert (key : Z) (value : V) (l : Bucket V) : Bucket V :=
  match Find key l with
  | (true, pre, (k, _) :: post) => pre ++ (k, value) :: post
  | (_, pre, post) => pre ++ (key, value) :: post
  end.

Definition bucket_Get (key : Z) (l : Bucket V) : option V :=
  match Find key l with
  | (true, _, (_, v) :: _) => Some v
  | _ => None
  end.

End bucket.

Section table.
Context (TableSize : Z).

(** The array of [TableSize] buckets, each with only its sentinel. *)
Definition AtomicHashMap (V : Type) : Type := list (Bucket V).

Definition ahm_new {V} : AtomicHashMap V := replicate (Z.to_nat TableSize) [].

(** [key & mode_num_], with [mode_num_ = TableSize - 1]. *)
Definition bucket_index (key : Z) : Z := Z.land key (wrap_u64 (TableSize - 1)).

Definition bucket_of {V} (key : Z) (m : AtomicHashMap V) : Bucket V :=
  default [] (m !! Z.to_nat (bucket_index key)).

Definition Has {V} (key : Z) (m : AtomicHashMap V) : bool :=
  bucket_Has key (bucket_of key m).

Definition Get {V} (key : Z) (m : AtomicHashMap V) : option V :=
  bucket_Get key (bucket_of key m).

Definition Set_ {V} (key : Z) (value : V) (m : AtomicHashMap V) : AtomicHashMap V :=
  <[Z.to_nat (bucket_index key) := bucket_Insert key value (bucket_of key m)]> m.

(** Every bucket is strictly sorted by key, and there are [TableSize] of them. *)
Definition bucket_wf {V} (l : Bucket V) : Prop := StronglySorted Z.lt l.*1.
Definition ahm_wf {V} (m : AtomicHashMap V) : Prop :=
  Z.of_nat (length m) = TableSize /\ Forall bucket_wf m.

End table.

(** ** Buckets *)

Section bucket_lemmas.
Context {V : Type}.
Implicit Types l pre post : Bucket V.

Lemma bucket_wf_cons k v l :
  bucket_wf ((k, v) :: l) <-> (forall k', k' ∈ l.*1 -> k < k') /\ bucket_wf l.
Proof.
  unfold bucket_wf. rewrite fmap_cons. split.
  - intros Hs. inversion Hs as [|? ? ? Hf]; subst. split; [|done].
    intros k' Hin. rewrite Forall_forall in Hf. by apply Hf.
  - intros [Hf Hs]. constructor; [done|]. by apply Forall_forall.
Qed.

(** What [Find] returns on a sorted bucket. *)
Lemma Find_spec key l found pre post :
  bucket_wf l -> Find key l = (found, pre, post) ->
  l = pre ++ post /\ (forall k, k ∈ pre.*1 -> k < key) /\
  (if found then exists v post', post = (key, v) :: post'
   else forall k, k ∈ post.*1 -> key < k).
Proof.
  revert found pre post. induction l as [|[k v] l IH]; intros found pre post Hwf; simpl.
  - intros HR; simplify_eq. split_and!; [done|..]; simpl; intros ? ?%elem_of_nil; done.
  - apply bucket_wf_cons in Hwf as [Hk Hwf]. destruct (Z.eqb_spec k key); [|destruct (Z.ltb_spec key k)].
    + intros HR; simplify_eq. split_and!; [done| |eauto]. intros ? ?%elem_of_nil; done.
    + intros HR; simplify_eq. split_and!; [done|intros ? ?%elem_of_nil; done|].
      simpl. intros k' [->|Hin]%elem_of_cons; [done|]. specialize (Hk _ Hin). lia.
    + destruct (Find key l) as [[f pr] po] eqn:HF. intros HR; simplify_eq.
      destruct (IH _ _ _ Hwf eq_refl) as (-> & Hpre & Hpost). split_and!; [done| |done].
      simpl. intros k' [->|Hin]%elem_of_cons; [lia|auto].
Qed.

Lemma sorted_fst_app pre post (k : Z) (v : V) :
  bucket_wf pre -> bucket_wf post -> (forall k', k' ∈ pre.*1 -> k' < k) ->
  (forall k', k' ∈ post.*1 -> k < k') -> bucket_wf (pre ++ (k, v) :: post).
Proof.
  intros Hpre Hpost H1 H2. induction pre as [|[k0 v0] pre IH]; simpl.
  - apply bucket_wf_cons. done.
  - apply bucket_wf_cons in Hpre as [Hk Hpre]. apply bucket_wf_cons. simpl in H1.
    split; [|apply IH; [done|intros; apply H1; set_solver]].
    intros k' Hin. rewrite fmap_app, elem_of_app, fmap_cons, elem_of_cons in Hin.
    assert (k0 < k) by (apply H1; set_solver).
    destruct Hin as [Hin|[->|Hin]]; [by apply Hk|done|]. specialize (H2 _ Hin). lia.
Qed.

Lemma bucket_wf_app pre post : bucket_wf (pre ++ post) -> bucket_wf pre /\ bucket_wf post.
Proof.
  induction pre as [|[k v] pre IH]; simpl; [intros; split; [constructor|done]|].
  intros [Hk Hw]%bucket_wf_cons. destruct (IH Hw). split; [|done].
  apply bucket_wf_cons. split; [|done]. intros k' Hin. apply Hk. set_solver.
Qed.

Lemma bucket_Insert_wf key v l : bucket_wf l -> bucket_wf (bucket_Insert key v l).
Proof.
  intros Hwf. unfold bucket_Insert. destruct (Find key l) as [[[] pre] post] eqn:HF.
  - destruct (Find_spec _ _ _ _ _ Hwf HF) as (-> & Hpre & v0 & post' & ->).
    apply bucket_wf_app in Hwf as [? [? ?]%bucket_wf_cons]. by apply sorted_fst_app.
  - destruct (Find_spec _ _ _ _ _ Hwf HF) as (-> & Hpre & Hpost).
    apply bucket_wf_app in Hwf as [? ?].
    destruct post as [|[k0 v0] post]; by apply sorted_fst_app.
Qed.

(** [Get] on a sorted bucket is lookup by key. *)
Lemma bucket_Get_iff key v l :
  bucket_wf l -> bucket_Get key l = Some v <-> (key, v) ∈ l.
Proof.
  intros Hwf. unfold bucket_Get. destruct (Find key l) as [[f pre] post] eqn:HF.
  destruct (Find_spec _ _ _ _ _ Hwf HF) as (-> & Hpre & Hpost).
  apply bucket_wf_app in Hwf as [_ Hwf].
  assert (Hno : (key, v) ∉ pre).
  { intros Hin. apply (list_elem_of_fmap_2 fst) in Hin. apply Hpre in Hin. simpl in Hin. lia. }
  rewrite elem_of_app. destruct f.
  - destruct Hpost as (v0 & post' & ->). apply bucket_wf_cons in Hwf as [Hlt _].
    split; [intros [= ->]; set_solver|]. intros [?|[[= <-]|Hin]%elem_of_cons]; [done|done|].
    apply (list_elem_of_fmap_2 fst), Hlt in Hin. simpl in Hin. lia.
  - destruct post as [|[k0 v0] post]; (split; [done|]); intros [?|Hin]; try done.
    + by apply elem_of_nil in Hin.
    + apply (list_elem_of_fmap_2 fst), Hpost in Hin. simpl in Hin. lia.
Qed.

Lemma bucket_Get_Insert key key' v l :
  bucket_wf l ->
  bucket_Get key' (bucket_Insert key v l) = if decide (key = key') then Some v else bucket_Get key' l.
Proof.
  intros Hwf. pose proof (bucket_Insert_wf key v l Hwf) as Hwf'.
  apply option_eq. intros w. rewrite bucket_Get_iff by done.
  assert (Hmem : (key', w) ∈ bucket_Insert key v l <->
            (key' = key /\ w = v) \/ (key' <> key /\ (key', w) ∈ l)); cycle 1.
  { rewrite Hmem. case_decide as Hd; [subst; naive_solver|].
    rewrite bucket_Get_iff by done. naive_solver. }
  unfold bucket_Insert in *. destruct (Find key l) as [[[] pre] post] eqn:HF.
  - destruct (Find_spec _ _ _ _ _ Hwf HF) as (-> & Hpre & v0 & post' & ->).
    apply bucket_wf_app in Hwf as [_ [Hlt _]%bucket_wf_cons].
    rewrite !elem_of_app, !elem_of_cons.
    assert (forall x, (key, x) ∉ pre) by (intros x Hin%(list_elem_of_fmap_2 fst)%Hpre; simpl in Hin; lia).
    assert (forall x, (key, x) ∉ post') by (intros x Hin%(list_elem_of_fmap_2 fst)%Hlt; simpl in Hin; lia).
    destruct (decide (key' = key)); naive_solver.
  - destruct (Find_spec _ _ _ _ _ Hwf HF) as (-> & Hpre & Hpost).
    assert (forall x, (key, x) ∉ pre) by (intros x Hin%(list_elem_of_fmap_2 fst)%Hpre; simpl in Hin; lia).
    assert (forall x, (key, x) ∉ post) by (intros x Hin%(list_elem_of_fmap_2 fst)%Hpost; simpl in Hin; lia).
    assert (Hi : (key', w) ∈ pre ++ (key, v) :: post <->
              (key' = key /\ w = v) \/ (key' <> key /\ (key', w) ∈ pre ++ post)).
    { rewrite !elem_of_app, elem_of_cons. destruct (decide (key' = key)); naive_solver. }
    destruct post; exact Hi.
Qed.

Lemma bucket_Has_Get key l : bucket_wf l -> bucket_Has key l = bool_decide (is_Some (bucket_Get key l)).
Proof.
  intros Hwf. apply Bool.eq_true_iff_eq. rewrite bool_decide_eq_true.
  assert (Hg : is_Some (bucket_Get key l) <-> exists v, (key, v) ∈ l).
  { split; intros [v Hv]; exists v; by apply bucket_Get_iff. }
  rewrite Hg. clear Hg. induction l as [|[k v] l IH]; simpl.
  - split; [done|]. intros [v Hv]. by apply elem_of_nil in Hv.
  - apply bucket_wf_cons in Hwf as [Hk Hwf]. destruct (Z.ltb_spec k key).
    + rewrite IH by done. split; intros [w Hw]; exists w; [set_solver|].
      apply elem_of_cons in Hw as [[= -> ->]|]; [lia|done].
    + rewrite Z.eqb_eq. split; [intros ->; exists v; set_solver|].
      intros [w [[= -> ->]|Hin]%elem_of_cons]; [done|].
      apply (list_elem_of_fmap_2 fst), Hk in Hin. simpl in Hin. lia.
Qed.
End bucket_lemmas.

(** ** The table *)

Section table_lemmas.
Context (TableSize : Z) (Hts : 0 < TableSize < two64).

(** The masked index is a bucket of the table. *)
Lemma bucket_index_range key : is_u64 key -> 0 <= bucket_index TableSize key < TableSize.
Proof.
  intros Hk. unfold bucket_index, is_u64 in *. rewrite wrap_u64_small by lia.
  pose proof (land_le_r key (TableSize - 1)). lia.
Qed.

Section with_value.
Context {V : Type}.
Implicit Types m : AtomicHashMap V.

Lemma ahm_new_wf : ahm_wf TableSize (ahm_new TableSize : AtomicHashMap V).
Proof.
  unfold ahm_new. split; [rewrite length_replicate; lia|]. apply Forall_replicate. constructor.
Qed.

Lemma bucket_of_wf key m : ahm_wf TableSize m -> bucket_wf (bucket_of TableSize key m).
Proof.
  intros [_ Hf]. unfold bucket_of. destruct (m !! _) as [l|] eqn:Hl; simpl; [|constructor].
  by eapply Forall_lookup_1.
Qed.

Lemma Set_wf key v m : ahm_wf TableSize m -> ahm_wf TableSize (Set_ TableSize key v m).
Proof.
  intros Hm. pose proof (bucket_of_wf key m Hm). destruct Hm as [Hl Hf].
  split; unfold Set_, AtomicHashMap in *; [by rewrite length_insert|].
  apply Forall_insert; [done|by apply bucket_Insert_wf].
Qed.

Lemma bucket_of_Set key key' v m :
  is_u64 key -> ahm_wf TableSize m ->
  bucket_of TableSize key' (Set_ TableSize key v m) =
    if decide (Z.to_nat (bucket_index TableSize key) = Z.to_nat (bucket_index TableSize key'))
    then bucket_Insert key v (bucket_of TableSize key m)
    else bucket_of TableSize key' m.
Proof.
  intros Hk [Hl _]. pose proof (bucket_index_range key Hk). unfold Set_, bucket_of at 1.
  unfold AtomicHashMap in *.
  rewrite list_lookup_insert. case_decide as Hd.
  - rewrite decide_True by tauto. done.
  - rewrite decide_False by (intros He; apply Hd; lia). done.
Qed.

Lemma Get_Set key key' v m :
  is_u64 key -> ahm_wf TableSize m ->
  Get TableSize key' (Set_ TableSize key v m) =
    if decide (key = key') then Some v else Get TableSize key' m.
Proof.
  intros Hk Hm. unfold Get. rewrite bucket_of_Set by done. pose proof (bucket_of_wf key m Hm).
  case_decide as Hd.
  - rewrite bucket_Get_Insert by done. case_decide; [done|]. unfold bucket_of. by rewrite Hd.
  - rewrite decide_False by congruence. done.
Qed.

(** C35: [AtomicHashMap] is a map: after [Set(key, value)] the key is bound to the value,
    every other key is as before (also when it shares the bucket), [Has] agrees with
    [Get], and the buckets stay sorted. *)
Theorem hash_map_correct (key key' : Z) (v : V) (m : AtomicHashMap V)
    (Hk : is_u64 key) (Hm : ahm_wf TableSize m) :
  ahm_wf TableSize (Set_ TableSize key v m) /\
  Get TableSize key' (Set_ TableSize key v m) =
    (if decide (key = key') then Some v else Get TableSize key' m) /\
  Has TableSize key' m = bool_decide (is_Some (Get TableSize key' m)).
Proof.
  split_and!; [by apply Set_wf|by apply Get_Set|by apply bucket_Has_Get, bucket_of_wf].
Qed.
End with_value.
End table_lemmas.

Lemma hash_map_correct_witness :
  Get 128 129 (Set_ 128 1 7%nat (ahm_new 128)) = None /\
  Get 128 129 (Set_ 128 129 8%nat (Set_ 128 1 7%nat (ahm_new 128))) = Some 8%nat.
Proof.
  split; [reflexivity|].
  exact (proj1 (proj2 (hash_map_correct 128 ltac:(done) 129 129 8%nat _ ltac:(done)
    (Set_wf 128 1 7%nat _ (ahm_new_wf 128 ltac:(done)))))).
Defined.

(** ** The promise to the clients *)

(** The default table size of the source. *)
#[export] Instance ahm_KeyMap : KeyMap AtomicHashMap := {
  km_wf V m := ahm_wf 128 m;
  km_empty V := ahm_new 128;
  km_get V k m := Get 128 k m;
  km_set V k v m := Set_ 128 k v m;
}.

#[export] Instance ahm_KeyMapLaws : KeyMapLaws AtomicHashMap.
Proof.
  split; simpl.
  - intros. by apply ahm_new_wf.
  - intros. by apply Set_wf.
  - intros V k Hk. unfold Get, bucket_of, ahm_new, AtomicHashMap in *. rewrite lookup_replicate_2; [done|].
    pose proof (bucket_index_range 128 ltac:(done) k Hk). lia.
  - intros. rewrite Get_Set by done. by rewrite decide_True.
  - intros. rewrite Get_Set by done. by rewrite decide_False.
Qed.
