(* ===== verification/ObjectPool.v ===== *)
(** * ObjectPool: pools of objects

    Models [base/object_pool.h] and [base/concurrent_object_pool.h].  The nodes of an arena are its indices; what matters of a node is its
    link.  [CCObjectPool] is used by any number of threads, which interleave between the accesses to the shared head and links; its
    compare-and-swap may fail spuriously.  Both pools are stacks of free nodes: nobody is given a node that is in use. *)

From S2P Require Import Prelude.

(** The free list that begins at a node. *)
Fixpoint chain (next : list (option nat)) (h : option nat) (l : list nat) : Prop :=
  match l with
  | [] => h = None
  | n :: l' => h = Some n /\ exists h', next !! n = Some h' /\ chain next h' l'
  end.

(** What an operation on a stack of free nodes does. *)
Inductive event := EvGet (res : option nat) | EvPut (n : nat).

Definition spec_step (l : list nat) (e : event) : option (list nat) :=
  match e, l with
  | EvGet None, [] => Some []
  | EvGet (Some n), m :: l' => if decide (n = m) then Some l' else None
  | EvGet _, _ => None
  | EvPut n, _ => Some (n :: l)
  end.
Fixpoint spec_run (l : list nat) (es : list event) : option (list nat) :=
  match es with [] => Some l | e :: es' => l1 ← spec_step l e; spec_run l1 es' end.

(** ** [ObjectPool]: one thread *)

Module ObjectPool.

Record Pool := mkPool { num_objects_ : Z; free_head_ : option nat; next : list (option nat) }.

(** The constructor links the nodes while it goes over the arena. *)
Fixpoint link_all (i k : nat) (h : option nat) (next : list (option nat)) : option nat * list (option nat) :=
  match k with O => (h, next) | S k' => link_all (S i) k' (Some i) (<[i := h]> next) end.
Definition pool_new (num_objects : Z) : Pool :=
  let '(h, next) := link_all 0 (Z.to_nat num_objects) None (replicate (Z.to_nat num_objects) None) in mkPool num_objects h next.

Definition ReleaseObject (object : option nat) (p : Pool) : Pool :=
  match object with
  | None => p
  | Some n => mkPool (num_objects_ p) (Some n) (<[n := free_head_ p]> (next p))
  end.

Definition GetObject (p : Pool) : option nat * Pool :=
  match free_head_ p with
  | None => (None, p)
  | Some n => (Some n, mkPool (num_objects_ p) (default None (next p !! n)) (next p))
  end.

(** What the users of a pool do; they release what they hold, in any order. *)
Inductive op := OGet | OPut (n : nat).
Definition run_op (s : Pool * list nat * list event) (o : op) : Pool * list nat * list event :=
  let '(p, held, log) := s in
  match o with
  | OGet => let '(r, p1) := GetObject p in (p1, option_list r ++ held, log ++ [EvGet r])
  | OPut n => if decide (n ∈ held) then (ReleaseObject (Some n) p, filter (fun m => m <> n) held, log ++ [EvPut n]) else s
  end.
Definition run_ops (num_objects : Z) (l : list op) : Pool * list nat * list event := foldl run_op (pool_new num_objects, [], []) l.

End ObjectPool.

(** ** [CCObjectPool]: any number of threads *)

Module CCObjectPool.

Record Head := mkHead { count : Z; node : option nat }.

#[export] Instance Head_dec : EqDecision Head.
Proof. solve_decision. Defined.

Record Pool := mkPool { free_head_ : Head; next : list (option nat); capacity_ : Z }.

(** With no nodes, the bound of the loop over the arena wraps to the largest number, and the loop leaves the arena. *)
Definition CCObjectPool_new (size : Z) : option Pool :=
  if wrap_u32 (size - 1) <? size then
    Some (mkPool (mkHead 0 (Some 0%nat)) (((fun i => Some (S i)) <$> seq 0 (Z.to_nat (wrap_u32 (size - 1)))) ++ [None]) size)
  else None.

(** The points of [FindFreeHead] and [ReleaseObject] between two accesses of shared words. *)
Inductive pc :=
| Idle
| F_Load                                      (* before [free_head_.load] *)
| F_Top (old : Head)                          (* at the test of [old_head.node], before its link is read *)
| F_Cas (old : Head) (new_node : option nat)  (* before the compare-and-swap *)
| F_Done (res : option nat)                   (* the object, or null *)
| R_Load (n : nat)                            (* before [free_head_.load] *)
| R_Link (n : nat) (old : Head)               (* before [node->next] is written *)
| R_Cas (n : nat) (old : Head)                (* before the compare-and-swap *)
| R_Done.

Definition with_head (h : Head) (p : Pool) : Pool := mkPool h (next p) (capacity_ p).
Definition with_next (n : nat) (x : option nat) (p : Pool) : Pool := mkPool (free_head_ p) (<[n := x]> (next p)) (capacity_ p).

(** That there is no object is settled where the head is read. *)
Definition seen_empty (h : Head) : option event := match node h with None => Some (EvGet None) | Some _ => None end.

Definition thread_step (fail : bool) (p : Pool) (s : pc) : Pool * pc * option event :=
  let head := free_head_ p in
  match s with
  | Idle | F_Done _ | R_Done => (p, s, None)
  | F_Load => (p, F_Top head, seen_empty head)
  | F_Top old =>
      match node old with
      | None => (p, F_Done None, None)
      | Some n => (p, F_Cas old (default None (next p !! n)), None)
      end
  | F_Cas old new_node =>
      if negb fail && bool_decide (head = old)
      then (with_head (mkHead (wrap_u64 (count old + 1)) new_node) p, F_Done (node old), Some (EvGet (node old)))
      else (p, F_Top head, seen_empty head)
  | R_Load n => (p, R_Link n head, None)
  | R_Link n old => (with_next n (node old) p, R_Cas n old, None)
  | R_Cas n old =>
      if negb fail && bool_decide (head = old)
      then (with_head (mkHead (wrap_u64 (count old + 1)) (Some n)) p, R_Done, Some (EvPut n))
      else (p, R_Link n head, None)
  end.

Definition outside (s : pc) : bool := match s with Idle | F_Done _ | R_Done => true | _ => false end.

(** The node that a thread is giving back. *)
Definition hand (s : pc) : option nat := match s with R_Load n | R_Link n _ | R_Cas n _ => Some n | _ => None end.

Record config := mkC { pool : Pool; threads : list pc; held : list nat; log : list event }.

Definition taken (e : option event) : list nat := match e with Some (EvGet (Some n)) => [n] | _ => [] end.

(** An object is given back once, by whichever thread drops the last pointer to it. *)
Inductive step : relation config :=
| step_get c t s : threads c !! t = Some s -> outside s = true ->
    step c (mkC (pool c) (<[t := F_Load]> (threads c)) (held c) (log c))
| step_release c t s l1 n l2 : threads c !! t = Some s -> outside s = true -> held c = l1 ++ n :: l2 ->
    step c (mkC (pool c) (<[t := R_Load n]> (threads c)) (l1 ++ l2) (log c))
| step_thread c t s fail p' s' e : threads c !! t = Some s -> thread_step fail (pool c) s = (p', s', e) ->
    step c (mkC p' (<[t := s']> (threads c)) (taken e ++ held c) (log c ++ option_list e)).

Definition init_config (p : Pool) (n : nat) : config := mkC p (replicate n Idle) [] [].

Fixpoint solo (n : nat) (p : Pool) (s : pc) : Pool * pc :=
  match n with O => (p, s) | S n' => let '(p1, s1, _) := thread_step false p s in solo n' p1 s1 end.

End CCObjectPool.

(** ** Chains *)

Lemma chain_insert next h l n x : n ∉ l -> chain next h l -> chain (<[n := x]> next) h l.
Proof.
  revert h. induction l as [|m l IH]; intros h Hn; [done|]. apply not_elem_of_cons in Hn as [Hne Hn]. cbn. intros (-> & h' & Hm & Hc). split; [done|].
  exists h'. rewrite list_lookup_insert_ne by done. split; [done|]. by apply IH.
Qed.

Lemma spec_run_app l es1 es2 : spec_run l (es1 ++ es2) = l1 ← spec_run l es1; spec_run l1 es2.
Proof. revert l. induction es1 as [|e es1 IH]; intros l; [done|]. cbn. destruct (spec_step l e) as [l1|]; [|done]. cbn. apply IH. Qed.

Lemma spec_run_snoc l es l1 e l2 : spec_run l es = Some l1 -> spec_step l1 e = Some l2 -> spec_run l (es ++ [e]) = Some l2.
Proof. intros H1 H2. rewrite spec_run_app, H1. cbn. by rewrite H2. Qed.

(** ** [CCObjectPool]: its invariant *)

Module CCObjectPoolFacts.
Import CCObjectPool.

Section pool.
Context (size : nat).

(** A head that a thread has read: unless the count has gone on, it is still the head. *)
Definition seen (h old : Head) : Prop := count old <= count h /\ (count old = count h -> old = h).

Definition thread_inv (p : Pool) (s : pc) : Prop :=
  match s with
  | Idle | F_Load | F_Done _ | R_Load _ | R_Done => True
  | F_Top old | R_Link _ old => seen (free_head_ p) old
  | F_Cas old new_node => seen (free_head_ p) old /\ exists n, node old = Some n /\ (old = free_head_ p -> next p !! n = Some new_node)
  | R_Cas n old => seen (free_head_ p) old /\ next p !! n = Some (node old)
  end.

Record config_inv (k : nat) (fl : list nat) (c : config) : Prop := {
  ci_count : 0 <= count (free_head_ (pool c)) <= Z.of_nat k;
  ci_chain : chain (next (pool c)) (node (free_head_ (pool c))) fl;
  ci_nodes : fl ++ held c ++ omap hand (threads c) ≡ₚ seq 0 size;
  ci_length : length (next (pool c)) = size;
  ci_threads : Forall (thread_inv (pool c)) (threads c);
  ci_log : spec_run (seq 0 size) (log c) = Some fl;
}.

Lemma ci_nodup k fl c : config_inv k fl c -> NoDup (fl ++ held c ++ omap hand (threads c)).
Proof. intros Hi. rewrite (ci_nodes _ _ _ Hi). apply NoDup_seq. Qed.

Lemma ci_node k fl c n : config_inv k fl c -> n ∈ omap hand (threads c) -> (n < size)%nat /\ n ∉ fl.
Proof.
  intros Hi Hn. assert (Hin : n ∈ seq 0 size) by (rewrite <- (ci_nodes _ _ _ Hi), !elem_of_app; by right; right).
  apply elem_of_seq in Hin. split; [lia|]. intros Hfl. pose proof (ci_nodup k fl c Hi) as (_ & H & _)%NoDup_app. apply (H n Hfl). apply elem_of_app. by right.
Qed.

Lemma hand_elem (l : list pc) t s n : l !! t = Some s -> hand s = Some n -> n ∈ omap hand l.
Proof. intros Hs Hn. apply list_elem_of_omap. exists s. split; [by eapply list_elem_of_lookup_2|done]. Qed.

(** Two threads do not have the same node in hand. *)
Lemma hand_unique k fl c t1 t2 s1 s2 n : config_inv k fl c -> threads c !! t1 = Some s1 -> threads c !! t2 = Some s2 ->
  hand s1 = Some n -> hand s2 = Some n -> t1 = t2.
Proof.
  intros Hi H1 H2 E1 E2. destruct (decide (t1 = t2)) as [|Hne]; [done|]. exfalso. pose proof (ci_nodup k fl c Hi) as (_ & _ & (_ & _ & Hnd)%NoDup_app)%NoDup_app.
  destruct (omap_insert hand (threads c) t1 s1 H1) as (r & Hr & Hr'). rewrite Hr, E1 in Hnd. cbn in Hnd. apply NoDup_cons in Hnd as [Hn _]. apply Hn.
  assert (Hin : n ∈ omap hand (<[t1 := Idle]> (threads c))) by (eapply (hand_elem _ t2 s2); [by rewrite list_lookup_insert_ne|done]).
  rewrite Hr' in Hin. exact Hin.
Qed.

(** A thread goes on and leaves the head, the links that others rely on and the nodes where they are. *)
Lemma inv_same k fl c t s s' : config_inv k fl c -> threads c !! t = Some s -> hand s' = hand s -> thread_inv (pool c) s' ->
  forall e, spec_run (seq 0 size) (log c ++ option_list e) = Some fl ->
  config_inv (S k) fl (mkC (pool c) (<[t := s']> (threads c)) (held c) (log c ++ option_list e)).
Proof.
  intros [H1 H2 H3 H4 H5 H6] Hs Eh Ht e He. destruct (omap_insert hand (threads c) t s Hs) as (r & Hr & Hr').
  split; cbn [pool threads held log]; try done; [lia|rewrite Hr', Eh, <- Hr; done|by apply Forall_insert].
Qed.

Lemma inv_empty k fl c : config_inv k fl c -> spec_run (seq 0 size) (log c ++ option_list (seen_empty (free_head_ (pool c)))) = Some fl.
Proof.
  intros Hi. unfold seen_empty. destruct (node (free_head_ (pool c))) as [n|] eqn:En; cbn; [rewrite app_nil_r; apply Hi|].
  eapply spec_run_snoc; [apply Hi|]. pose proof (ci_chain k fl c Hi) as Hc. rewrite En in Hc. destruct fl; [done|]. by destruct Hc.
Qed.

Lemma seen_refl h : seen h h.
Proof. split; [lia|done]. Qed.

Lemma seen_next h old x : seen h old -> seen (mkHead (count h + 1) x) old.
Proof. intros [H1 H2]. split; cbn; [lia|]. intros E. lia. Qed.

(** When the head is swapped, what the others read is out of date. *)
Lemma others_swapped p h' s : free_head_ p <> h' -> count h' = count (free_head_ p) + 1 -> thread_inv p s -> thread_inv (with_head h' p) s.
Proof.
  intros Hne Hc. assert (H : forall old, seen (free_head_ p) old -> seen h' old).
  { intros old [H1 H2]. split; [lia|]. intros E. lia. }
  destruct s as [| |old|old x| | |n old|n old|]; cbn; try done; try apply H.
  - intros [Hs (n & Hn & Hl)]. split; [by apply H|]. exists n. split; [done|]. intros ->. destruct Hs as [Hs _]. lia.
  - intros [Hs Hl]. split; [by apply H|done].
Qed.

Lemma inv_get k fl c t old new_node : config_inv k fl c -> Z.of_nat k + 1 < two64 -> threads c !! t = Some (F_Cas old new_node) -> free_head_ (pool c) = old ->
  exists n fl', node old = Some n /\ fl = n :: fl' /\
  config_inv (S k) fl' (mkC (with_head (mkHead (wrap_u64 (count old + 1)) new_node) (pool c)) (<[t := F_Done (node old)]> (threads c))
    (n :: held c) (log c ++ [EvGet (Some n)])).
Proof.
  intros Hi Hk Hs Eo. pose proof (Forall_lookup_1 _ _ _ _ (ci_threads _ _ _ Hi) Hs) as [_ (n & Hn & Hl)]. specialize (Hl (eq_sym Eo)).
  pose proof (ci_chain k fl c Hi) as Hc. rewrite Eo, Hn in Hc. destruct fl as [|m fl']; [done|]. destruct Hc as ([= ->] & h' & Hm & Hc). rewrite Hl in Hm.
  injection Hm as <-. exists m, fl'. split; [done|]. split; [done|]. destruct Hi as [H1 H2 H3 H4 H5 H6].
  destruct (omap_insert hand (threads c) t _ Hs) as (r & Hr & Hr'). rewrite wrap_u64_small by (rewrite Eo in H1; lia).
  split; cbn [pool threads held log with_head free_head_ next count node]; try done.
  - rewrite Eo in H1. lia.
  - rewrite Hr'. cbn [hand option_list]. rewrite Hr in H3. cbn in H3. rewrite <- H3. cbn. by rewrite <- Permutation_middle.
  - apply Forall_insert; [|done]. eapply Forall_impl; [exact H5|]. intros s. rewrite <- Eo. apply others_swapped; [|done].
    intros E. apply (f_equal count) in E. cbn in E. lia.
  - eapply spec_run_snoc; [exact H6|]. cbn. by rewrite decide_True.
Qed.

Lemma inv_put k fl c t n old : config_inv k fl c -> Z.of_nat k + 1 < two64 -> threads c !! t = Some (R_Cas n old) -> free_head_ (pool c) = old ->
  config_inv (S k) (n :: fl) (mkC (with_head (mkHead (wrap_u64 (count old + 1)) (Some n)) (pool c)) (<[t := R_Done]> (threads c)) (held c) (log c ++ [EvPut n])).
Proof.
  intros Hi Hk Hs Eo. pose proof (Forall_lookup_1 _ _ _ _ (ci_threads _ _ _ Hi) Hs) as [_ Hl]. destruct Hi as [H1 H2 H3 H4 H5 H6].
  destruct (omap_insert hand (threads c) t _ Hs) as (r & Hr & Hr'). rewrite wrap_u64_small by (rewrite Eo in H1; lia).
  split; cbn [pool threads held log with_head free_head_ next count node]; try done.
  - rewrite Eo in H1. lia.
  - split; [done|]. exists (node old). split; [done|]. by rewrite <- Eo.
  - rewrite Hr'. cbn [hand option_list]. rewrite Hr in H3. cbn in H3. rewrite <- H3. cbn. by rewrite <- !Permutation_middle.
  - apply Forall_insert; [|done]. eapply Forall_impl; [exact H5|]. intros s. rewrite <- Eo. apply others_swapped; [|done].
    intros E. apply (f_equal count) in E. cbn in E. lia.
  - eapply spec_run_snoc; [exact H6|done].
Qed.

(** The link of a node in hand is nobody's but the thread's. *)
Lemma inv_link k fl c t n old : config_inv k fl c -> threads c !! t = Some (R_Link n old) ->
  config_inv (S k) fl (mkC (with_next n (node old) (pool c)) (<[t := R_Cas n old]> (threads c)) (held c) (log c)).
Proof.
  intros Hi Hs. destruct (ci_node k fl c n Hi (hand_elem _ t _ n Hs eq_refl)) as [Hlt Hn]. pose proof (Forall_lookup_1 _ _ _ _ (ci_threads _ _ _ Hi) Hs) as Hseen.
  assert (Hoth : forall u s, threads c !! u = Some s -> u <> t -> thread_inv (with_next n (node old) (pool c)) s).
  { intros u s Hu Hne. pose proof (Forall_lookup_1 _ _ _ _ (ci_threads _ _ _ Hi) Hu) as H.
    destruct s as [| |o|o x| | |m o|m o|]; cbn in *; try done.
    - destruct H as [Hso (m & Hm & Hl)]. split; [done|]. exists m. split; [done|]. intros ->. rewrite list_lookup_insert_ne; [by apply Hl|]. intros ->.
      pose proof (ci_chain k fl c Hi) as Hc. rewrite Hm in Hc. destruct fl as [|m' fl']; [done|]. destruct Hc as ([= ->] & _). apply Hn. by left.
    - destruct H as [Hso Hl]. split; [done|]. rewrite list_lookup_insert_ne; [done|]. intros ->. apply Hne. by eapply (hand_unique k fl c u t _ _ m Hi Hu Hs). }
  pose proof Hi as [H1 H2 H3 H4 H5 H6]. destruct (omap_insert hand (threads c) t _ Hs) as (r & Hr & Hr').
  split; cbn [pool threads held log with_next free_head_ next]; try done; [lia|by apply chain_insert|rewrite Hr'; cbn; by rewrite Hr in H3|by rewrite length_insert|].
  apply Forall_lookup. intros u s Hu. destruct (decide (u = t)) as [->|Hne]; [|rewrite list_lookup_insert_ne in Hu by done; by apply (Hoth u)].
  rewrite list_lookup_insert_eq in Hu by by eapply lookup_lt_Some. injection Hu as <-. cbn. split; [done|]. by rewrite list_lookup_insert_eq by by rewrite H4.
Qed.

Lemma step_keeps_inv k fl c c' : config_inv k fl c -> Z.of_nat k + 1 < two64 -> step c c' -> exists fl', config_inv (S k) fl' c'.
Proof.
  intros Hi Hk Hst. destruct Hst as [c t s Hs Ho|c t s l1 n l2 Hs Ho Hh|c t s fail p' s' e Hs E].
  - exists fl. rewrite <- (app_nil_r (log c)). apply (inv_same k fl c t s F_Load Hi Hs ltac:(by destruct s) I None). cbn. rewrite app_nil_r. apply Hi.
  - exists fl. destruct Hi as [H1 H2 H3 H4 H5 H6]. destruct (omap_insert hand (threads c) t s Hs) as (r & Hr & Hr').
    split; cbn [pool threads held log]; try done; [lia| |by apply Forall_insert]. rewrite Hr', <- H3, Hr, Hh. replace (hand s) with (@None nat) by by destruct s.
    cbn. rewrite <- !app_assoc. cbn. by rewrite <- !Permutation_middle.
  - destruct s as [| |old|old x|r|n|n old|n old|]; cbn [thread_step] in E.
    + injection E as <- <- <-. exists fl. apply (inv_same k fl c t Idle Idle Hi Hs); [done|done|]. cbn. rewrite app_nil_r. apply Hi.
    + injection E as <- <- <-. exists fl. assert (Et : taken (seen_empty (free_head_ (pool c))) = []) by (unfold seen_empty; by destruct (node _)). rewrite Et.
      apply (inv_same k fl c t F_Load _ Hi Hs); [done|apply seen_refl|by eapply inv_empty].
    + pose proof (Forall_lookup_1 _ _ _ _ (ci_threads _ _ _ Hi) Hs) as Hseen. cbn in Hseen. exists fl. destruct (node old) as [n|] eqn:En; injection E as <- <- <-.
      * apply (inv_same k fl c t (F_Top old) _ Hi Hs); [done| |cbn; rewrite app_nil_r; apply Hi]. split; [done|]. exists n. split; [done|]. intros ->.
        pose proof (ci_chain k fl c Hi) as Hc. rewrite En in Hc. destruct fl as [|m fl']; [done|]. destruct Hc as ([= ->] & h' & Hm & _). by rewrite Hm.
      * apply (inv_same k fl c t (F_Top old) _ Hi Hs); [done|done|]. cbn. rewrite app_nil_r. apply Hi.
    + destruct (negb fail && bool_decide (free_head_ (pool c) = old)) eqn:Eb; injection E as <- <- <-.
      * apply andb_true_iff in Eb as [_ Eo%bool_decide_eq_true]. destruct (inv_get k fl c t old x Hi Hk Hs Eo) as (n & fl' & Hn & _ & H). exists fl'. by rewrite Hn in *.
      * exists fl. assert (Et : taken (seen_empty (free_head_ (pool c))) = []) by (unfold seen_empty; by destruct (node _)). rewrite Et.
        apply (inv_same k fl c t (F_Cas old x) _ Hi Hs); [done|apply seen_refl|by eapply inv_empty].
    + injection E as <- <- <-. exists fl. apply (inv_same k fl c t (F_Done r) _ Hi Hs); [done|done|]. cbn. rewrite app_nil_r. apply Hi.
    + injection E as <- <- <-. exists fl. apply (inv_same k fl c t (R_Load n) _ Hi Hs); [done|apply seen_refl|]. cbn. rewrite app_nil_r. apply Hi.
    + injection E as <- <- <-. exists fl. cbn. rewrite app_nil_r. by apply inv_link.
    + destruct (negb fail && bool_decide (free_head_ (pool c) = old)) eqn:Eb; injection E as <- <- <-.
      * apply andb_true_iff in Eb as [_ Eo%bool_decide_eq_true]. exists (n :: fl). by apply inv_put.
      * exists fl. apply (inv_same k fl c t (R_Cas n old) _ Hi Hs); [done|apply seen_refl|]. cbn. rewrite app_nil_r. apply Hi.
    + injection E as <- <- <-. exists fl. apply (inv_same k fl c t R_Done _ Hi Hs); [done|done|]. cbn. rewrite app_nil_r. apply Hi.
Qed.
(** ** Runs *)

Lemma chain_from_links l m : forall i, length l = i ->
  chain (l ++ ((fun j => Some (S j)) <$> seq i m) ++ [None]) (Some i) (seq i (S m)).
Proof.
  revert l. induction m as [|m IH]; intros l i Hl; cbn [seq fmap list_fmap app chain].
  - split; [done|]. exists None. split; [|done]. rewrite lookup_app_r by lia. by replace (i - length l)%nat with 0%nat by lia.
  - split; [done|]. exists (Some (S i)). split; [rewrite lookup_app_r by lia; by replace (i - length l)%nat with 0%nat by lia|].
    rewrite cons_middle, app_assoc. apply (IH (l ++ [Some (S i)]) (S i)). rewrite length_app. cbn. lia.
Qed.

Lemma init_pool_inv p n : CCObjectPool_new (Z.of_nat size) = Some p -> Z.of_nat size < two32 -> config_inv 0 (seq 0 size) (init_config p n).
Proof.
  unfold CCObjectPool_new. destruct (_ <? _) eqn:E; [|done]. apply Z.ltb_lt in E. intros [= <-] Hs. destruct size as [|m] eqn:Em; [by vm_compute in E|].
  rewrite wrap_u32_small by lia. replace (Z.to_nat (Z.of_nat (S m) - 1)) with m by lia. split; cbn [init_config pool threads held log free_head_ next count node].
  - lia.
  - exact (chain_from_links [] m 0 eq_refl).
  - assert (Eh : omap hand (replicate n Idle) = []) by (induction n as [|n IH]; [done|exact IH]). by rewrite Eh, !app_nil_r, Em.
  - rewrite length_app, length_fmap, length_seq. cbn. lia.
  - apply Forall_replicate. done.
  - by rewrite Em.
Qed.

Lemma steps_inv c c' : forall k j fl, nsteps step j c c' -> config_inv k fl c -> Z.of_nat (k + j) < two64 -> exists fl', config_inv (k + j) fl' c'.
Proof.
  intros k j. revert k c. induction j as [|j IH]; intros k c fl Hn Hi Hb; inversion Hn as [|? c0 c1 ? Hst Hrest]; subst; [exists fl; by rewrite Nat.add_0_r|].
  destruct (step_keeps_inv k fl c c1 Hi ltac:(lia) Hst) as [fl1 Hi1]. rewrite Nat.add_succ_r, <- Nat.add_succ_l. apply (IH (S k) c1 fl1); [done|done|lia].
Qed.
End pool.

(** C22: however its threads interleave, and whenever a compare-and-swap fails spuriously, a concurrent pool is a stack of its nodes: the
    operations took effect in one order, a get took the node on top, or found that there was none, and a release put its node on top; and every node
    is at all times in one place, free, with one user, or on its way back: no object has two users, and none is lost.  The count of the head
    keeps a thread that was stopped from putting an old link into it; it must not come round while a thread is stopped. *)
Theorem pool_is_a_stack size p n k c : CCObjectPool_new (Z.of_nat size) = Some p -> Z.of_nat size < two32 ->
  nsteps step k (init_config p n) c -> Z.of_nat k < two64 ->
  exists free, spec_run (seq 0 size) (log c) = Some free /\ chain (next (pool c)) (node (free_head_ (pool c))) free /\
    free ++ held c ++ omap hand (threads c) ≡ₚ seq 0 size.
Proof.
  intros Hp Hs Hn Hk. destruct (steps_inv size _ c 0 k _ Hn (init_pool_inv size p n Hp Hs) Hk) as [fl Hi].
  exists fl. split; [apply Hi|]. split; apply Hi.
Qed.

(** A pool of no nodes leaves its arena, and every other is made. *)
Lemma pool_made size : 0 <= size < two32 -> is_Some (CCObjectPool_new size) <-> size <> 0.
Proof.
  intros Hs. unfold CCObjectPool_new. destruct (decide (size = 0)) as [->|Hne]; [split; [by intros [? ?]|done]|].
  rewrite wrap_u32_small by lia. rewrite (proj2 (Z.ltb_lt _ _)) by lia. split; [done|by eexists].
Qed.

Lemma solo_outside k p s : outside s = true -> solo k p s = (p, s).
Proof. intros Ho. induction k as [|k IH]; [done|]. cbn [solo]. by destruct s. Qed.

(** A thread that is left alone comes out of its operation in four steps. *)
Lemma solo_ends p s : outside (solo 4 p s).2 = true.
Proof.
  assert (Hd : forall h : Head, bool_decide (h = h) = true) by (intros h; by apply bool_decide_eq_true_2).
  assert (Htop : forall k q, outside (solo (S (S k)) q (F_Top (free_head_ q))).2 = true).
  { intros k q. cbn [solo thread_step]. destruct (node (free_head_ q)); cbn [solo thread_step negb andb]; [rewrite Hd|]; by rewrite solo_outside. }
  assert (Hlink : forall k q n, outside (solo (S (S k)) q (R_Link n (free_head_ q))).2 = true).
  { intros k q n. cbn [solo thread_step with_next free_head_ negb andb]. rewrite Hd. by rewrite solo_outside. }
  destruct s as [| |old|old x| |n|n old|n old|]; [done|exact (Htop 1%nat p)| | |done|exact (Hlink 1%nat p n)| | |done].
  - cbn [solo thread_step]. destruct (node old) as [n|]; [|done]. cbn [thread_step negb andb]. case_bool_decide; [done|]. exact (Htop 0%nat p).
  - cbn [solo thread_step negb andb]. case_bool_decide; [done|]. exact (Htop 1%nat p).
  - cbn [solo thread_step with_next free_head_ negb andb]. case_bool_decide; [done|]. exact (Hlink 0%nat (with_next n (node old) p) n).
  - cbn [solo thread_step negb andb]. case_bool_decide; [done|]. exact (Hlink 1%nat p n).
Qed.
End CCObjectPoolFacts.

(** ** [ObjectPool] *)

Module ObjectPoolFacts.
Import ObjectPool.

Lemma link_all_chain k : forall i h next l, chain next h l -> Forall (fun n => n < i)%nat l -> (i + k <= length next)%nat ->
  let '(h', next') := link_all i k h next in chain next' h' (rev (seq i k) ++ l) /\ length next' = length next.
Proof.
  induction k as [|k IH]; intros i h next l Hc Hl Hk; cbn [link_all]; [done|].
  assert (Hi : i ∉ l) by (intros Hin; rewrite Forall_forall in Hl; specialize (Hl i Hin); lia).
  specialize (IH (S i) (Some i) (<[i := h]> next) (i :: l)). destruct (link_all _ _ _ _) as [h' next']. destruct IH as [H1 H2].
  - split; [done|]. exists h. split; [apply list_lookup_insert_eq; lia|by apply chain_insert].
  - constructor; [lia|]. eapply Forall_impl; [exact Hl|]. intros n Hn. cbn in *. lia.
  - rewrite length_insert. lia.
  - rewrite length_insert in H2. split; [|done]. cbn [seq rev]. by rewrite <- app_assoc.
Qed.

Record pool_inv (size : nat) (free : list nat) (s : Pool * list nat * list event) : Prop := {
  pi_chain : chain (next s.1.1) (free_head_ s.1.1) free;
  pi_nodes : free ++ s.1.2 ≡ₚ seq 0 size;
  pi_length : length (next s.1.1) = size;
  pi_log : spec_run (rev (seq 0 size)) s.2 = Some free;
}.

Lemma filter_out n (l : list nat) : NoDup l -> n ∈ l -> l ≡ₚ n :: filter (fun m => m <> n) l.
Proof.
  intros Hl Hn. apply NoDup_Permutation; [done| |].
  - constructor; [|by apply NoDup_filter]. intros [Hne _]%list_elem_of_filter. done.
  - intros x. rewrite elem_of_cons, list_elem_of_filter. destruct (decide (x = n)) as [->|]; naive_solver.
Qed.

Lemma run_op_inv size free s o : pool_inv size free s -> exists free', pool_inv size free' (run_op s o).
Proof.
  destruct s as [[p held] log]. intros [H1 H2 H3 H4]. cbn in *. destruct o as [|n]; cbn [run_op].
  - unfold GetObject. destruct (free_head_ p) as [n|] eqn:Eh.
    + destruct free as [|m free]; [done|]. destruct H1 as ([= ->] & h' & Hm & Hc). exists free. split; cbn.
      * by rewrite Hm.
      * rewrite <- H2. cbn. by rewrite <- Permutation_middle.
      * done.
      * eapply spec_run_snoc; [exact H4|]. cbn. by rewrite decide_True.
    + destruct free as [|m free]; [|by destruct H1]. exists []. split; cbn; try done. eapply spec_run_snoc; [exact H4|done].
  - case_decide as Hn; [|by exists free]. assert (Hnd : NoDup (free ++ held)) by (rewrite H2; apply NoDup_seq).
    apply NoDup_app in Hnd as (_ & Hd & Hh). exists (n :: free). split; cbn.
    + assert (Hnf : n ∉ free) by (intros Hf; by apply (Hd n Hf)). split; [done|]. exists (free_head_ p). split; [|by apply chain_insert].
      apply list_lookup_insert_eq. rewrite H3. assert (Hin : n ∈ seq 0 size) by (rewrite <- H2; apply elem_of_app; by right). apply elem_of_seq in Hin. lia.
    + rewrite <- H2. rewrite (filter_out n held Hh Hn) at 2. by rewrite Permutation_middle.
    + by rewrite length_insert.
    + eapply spec_run_snoc; [exact H4|done].
Qed.

(** The pool of one thread is a stack too, with the last node of the arena on top at first. *)
Theorem object_pool_is_a_stack size l : exists free,
  let '(p, held, log) := run_ops (Z.of_nat size) l in
  spec_run (rev (seq 0 size)) log = Some free /\ chain (next p) (free_head_ p) free /\ free ++ held ≡ₚ seq 0 size.
Proof.
  assert (Hinit : pool_inv size (rev (seq 0 size)) (pool_new (Z.of_nat size), [], [])).
  { unfold pool_new. rewrite Nat2Z.id. pose proof (link_all_chain size 0 None (replicate size None) [] eq_refl ltac:(done) ltac:(by rewrite length_replicate)) as H.
    destruct (link_all _ _ _ _) as [h next]. destruct H as [Hc Hl]. rewrite length_replicate in Hl. split; cbn.
    - by rewrite app_nil_r in Hc.
    - rewrite app_nil_r. symmetry. apply Permutation_rev.
    - done.
    - done. }
  unfold run_ops. revert Hinit. generalize (rev (seq 0 size)) at 1. generalize (pool_new (Z.of_nat size), @nil nat, @nil event).
  induction l as [|o l IH]; intros s free Hi; cbn [foldl].
  - exists free. destruct s as [[p held] log]. destruct Hi as [H1 H2 _ H4]. by split_and!.
  - destruct (run_op_inv size free s o Hi) as [free' Hi']. exact (IH _ _ Hi').
Qed.
End ObjectPoolFacts.

(** ** A small pool *)

Module PoolDemo.
Import CCObjectPool.

Definition demo_pool : Pool := mkPool (mkHead 0 (Some 0%nat)) [Some 1%nat; Some 2%nat; None] 3.
(** Thread 0 reads the head and its link and is stopped; thread 1 gets two nodes and gives back the first, so that the head is the same node with
    another link: only the count tells thread 0. *)
Definition demo_end : config :=
  mkC (mkPool (mkHead 3 (Some 0%nat)) [Some 2%nat; Some 2%nat; None] 3) [F_Top (mkHead 3 (Some 0%nat)); R_Done] [1%nat] [EvGet (Some 0%nat); EvGet (Some 1%nat); EvPut 0].

Lemma thread_at c t s fail p' s' e k c' : threads c !! t = Some s -> thread_step fail (pool c) s = (p', s', e) ->
  nsteps step k (mkC p' (<[t := s']> (threads c)) (taken e ++ held c) (log c ++ option_list e)) c' -> nsteps step (S k) c c'.
Proof. intros H1 H2 H3. eapply nsteps_l; [by eapply step_thread|exact H3]. Qed.

Ltac go t := eapply (thread_at _ t _ false); [reflexivity|reflexivity|]; cbn.

Lemma demo_steps : nsteps step 16 (init_config demo_pool 2) demo_end.
Proof.
  eapply nsteps_l; [by apply (step_get _ 0%nat Idle)|]. cbn. do 2 go 0%nat.
  eapply nsteps_l; [by apply (step_get _ 1%nat Idle)|]. cbn. do 3 go 1%nat.
  eapply nsteps_l; [by eapply (step_get _ 1%nat (F_Done _))|]. cbn. do 3 go 1%nat.
  eapply nsteps_l; [by apply (step_release _ 1%nat (F_Done (Some 1%nat)) [1%nat] 0%nat [])|]. cbn. do 3 go 1%nat.
  go 0%nat. apply nsteps_O.
Qed.

Lemma pool_is_a_stack_witness : exists free, spec_run (seq 0 3) (log demo_end) = Some free /\ chain (next (pool demo_end)) (node (free_head_ (pool demo_end))) free /\
  free ++ held demo_end ++ omap hand (threads demo_end) ≡ₚ seq 0 3.
Proof. apply (CCObjectPoolFacts.pool_is_a_stack 3 demo_pool 2 16 demo_end); [reflexivity|reflexivity|exact demo_steps|reflexivity]. Defined.
End PoolDemo.
