(* ===== verification/UnboundedQueue.v ===== *)
(** * UnboundedQueue: a queue of linked nodes

    Models [base/unbounded_queue.h].  The nodes are in a heap from which they are deleted when their count of references is zero; a thread
    that touches a node that was deleted has no step.  Threads interleave between the accesses to shared words.  A new node gets
    any address that is not in use, which may be that of a node that was deleted.  As long as no address is given out twice, what the queue gives out is in the order of what was put in;
    used by one thread it is a list and frees its nodes; two threads can be made to use a node that was deleted, and
    an address that is given out again makes the queue skip an element. *)

From S2P Require Import Prelude.

Section queue.
Context {T : Type}.

Record Node := mkNode { data : option T; ref_count : Z; next : option nat }.

Definition node_new : Node := mkNode None 2 None.

Record Queue := mkQueue { head_ : nat; tail_ : nat; size_ : Z; heap : gmap nat Node }.

(** [Reset] in a heap, with the address of the new node. *)
Definition Reset (h : gmap nat Node) (f : nat) : Queue := mkQueue f f 0 (<[f := node_new]> h).
Definition queue_new : Queue := Reset ∅ 0.

(** [Destroy] deletes the nodes from the head on. *)
Fixpoint destroy_from (fuel : nat) (ite : option nat) (h : gmap nat Node) : option (gmap nat Node) :=
  match ite with
  | None => Some h
  | Some a => match fuel with O => None | S fuel' => n ← h !! a; destroy_from fuel' (next n) (delete a h) end
  end.
Definition Destroy (q : Queue) : option (gmap nat Node) := destroy_from (size (heap q)) (Some (head_ q)) (heap q).
Definition Clear (f : nat) (q : Queue) : option Queue := h ← Destroy q; Some (Reset h f).

Definition Size (q : Queue) : Z := size_ q.
Definition Empty (q : Queue) : bool := size_ q =? 0.

Definition with_heap (h : gmap nat Node) (q : Queue) : Queue := mkQueue (head_ q) (tail_ q) (size_ q) h.
Definition with_size (z : Z) (q : Queue) : Queue := mkQueue (head_ q) (tail_ q) (wrap_u64 z) (heap q).
Definition with_tail (a : nat) (q : Queue) : Queue := mkQueue (head_ q) a (size_ q) (heap q).
Definition with_head (a : nat) (q : Queue) : Queue := mkQueue a (tail_ q) (size_ q) (heap q).
Definition set_next (m : nat) (n : Node) : Node := mkNode (data n) (ref_count n) (Some m).
Definition drop_ref (n : Node) : Node := mkNode (data n) (wrap_u32 (ref_count n - 1)) (next n).

(** The points of [Enqueue] and [Dequeue] between two accesses.  The number of a dequeue, in the order of the swaps of the head, is there for
    the proofs. *)
Inductive pc :=
| Idle
| E_New (x : T)                   (* before the node is made *)
| E_Load (node : nat)             (* before [tail_.load] *)
| E_Cas (node old_tail : nat)     (* before the compare-and-swap *)
| E_Link (node old_tail : nat)    (* before [old_tail->next] is written *)
| E_Drop (old_tail : nat)         (* before the count of [old_tail] is decreased *)
| E_Free (old_tail : nat)         (* before the count is read again *)
| E_Size                          (* before [size_.fetch_add] *)
| E_Done
| D_Load                          (* before [head_.load] *)
| D_Next (old_head : nat)         (* before [old_head->next] is read *)
| D_Cas (old_head head_next : nat)
| D_Read (k : nat) (old_head head_next : nat)   (* before the data is read *)
| D_Size (k : nat) (old_head : nat) (x : option T)
| D_Drop (k : nat) (old_head : nat) (x : option T)
| D_Free (k : nat) (old_head : nat) (x : option T)
| D_Done (res : option (option T)).

Inductive event := EvEnq (a : nat) | EvDeq.

(** One step; [k] dequeues have been made, and [f] is the address that [new] returns if the step makes a node.  [None]: memory that was deleted is
    used, or [f] is in use, which no allocator returns. *)
Definition thread_step (f k : nat) (q : Queue) (s : pc) : option (Queue * pc * option event) :=
  match s with
  | Idle | E_Done | D_Done _ => Some (q, s, None)
  | E_New x => if decide (heap q !! f = None) then Some (with_heap (<[f := mkNode (Some x) 2 None]> (heap q)) q, E_Load f, None) else None
  | E_Load n => Some (q, E_Cas n (tail_ q), None)
  | E_Cas n old => if decide (tail_ q = old) then Some (with_tail n q, E_Link n old, Some (EvEnq n)) else Some (q, E_Cas n (tail_ q), None)
  | E_Link n old => o ← heap q !! old; Some (with_heap (<[old := set_next n o]> (heap q)) q, E_Drop old, None)
  | E_Drop old => o ← heap q !! old; Some (with_heap (<[old := drop_ref o]> (heap q)) q, E_Free old, None)
  | E_Free old => o ← heap q !! old; Some (if ref_count o =? 0 then with_heap (delete old (heap q)) q else q, E_Size, None)
  | E_Size => Some (with_size (size_ q + 1) q, E_Done, None)
  | D_Load => Some (q, D_Next (head_ q), None)
  | D_Next old => o ← heap q !! old; match next o with None => Some (q, D_Done None, None) | Some m => Some (q, D_Cas old m, None) end
  | D_Cas old m => if decide (head_ q = old) then Some (with_head m q, D_Read k old m, Some EvDeq) else Some (q, D_Next (head_ q), None)
  | D_Read j old m => o ← heap q !! m; Some (q, D_Size j old (data o), None)
  | D_Size j old x => Some (with_size (size_ q - 1) q, D_Drop j old x, None)
  | D_Drop j old x => o ← heap q !! old; Some (with_heap (<[old := drop_ref o]> (heap q)) q, D_Free j old x, None)
  | D_Free j old x => o ← heap q !! old; Some (if ref_count o =? 0 then with_heap (delete old (heap q)) q else q, D_Done (Some x), None)
  end.

Definition outside (s : pc) : bool := match s with Idle | E_Done | D_Done _ => true | _ => false end.

(** The elements in the order of the swaps of the tail; the number of swaps of the head; what the dequeues read; the addresses that were given out. *)
Record config := mkC { queue : Queue; threads : list pc; enq_log : list T; deq_count : nat; returned : list (nat * option T); given : list nat }.

Definition enqueued (e : option event) (q : Queue) : list T :=
  match e with Some (EvEnq a) => option_list (n ← heap q !! a; data n) | _ => [] end.
Definition dequeued (e : option event) : nat := match e with Some EvDeq => 1 | _ => 0 end.
Definition read (s s' : pc) : list (nat * option T) := match s, s' with D_Read k _ _, D_Size _ _ x => [(k, x)] | _, _ => [] end.

Definition new_address (f : nat) (s : pc) : list nat := match s with E_New _ => [f] | _ => [] end.

(** A call of a thread, a step inside one, or the step that makes a node at an address. *)
Inductive action := CallEnqueue (t : nat) (x : T) | CallDequeue (t : nat) | Step (t : nat) | New (t f : nat).

Definition makes (s : pc) : bool := match s with E_New _ => true | _ => false end.

Definition step_of (f : nat) (t : nat) (s : pc) (c : config) : option config :=
  '(q1, s1, e) ← thread_step f (deq_count c) (queue c) s;
  Some (mkC q1 (<[t := s1]> (threads c)) (enq_log c ++ enqueued e (queue c)) (deq_count c + dequeued e) (returned c ++ read s s1) (given c ++ new_address f s)).

Definition act (c : config) (a : action) : option config :=
  match a with
  | CallEnqueue t x => s ← threads c !! t; if outside s then Some (mkC (queue c) (<[t := E_New x]> (threads c)) (enq_log c) (deq_count c) (returned c) (given c)) else None
  | CallDequeue t => s ← threads c !! t; if outside s then Some (mkC (queue c) (<[t := D_Load]> (threads c)) (enq_log c) (deq_count c) (returned c) (given c)) else None
  | Step t => s ← threads c !! t; if makes s then None else step_of 0 t s c
  | New t f => s ← threads c !! t; if makes s then step_of f t s c else None
  end.

Fixpoint run (c : config) (l : list action) : option config := match l with [] => Some c | a :: l' => c1 ← act c a; run c1 l' end.

Definition init_config (n : nat) : config := mkC queue_new (replicate n Idle) [] 0 [] [0%nat].

(** One thread: an operation from its call to its return. *)
Fixpoint solo (fuel f : nat) (q : Queue) (s : pc) : option (Queue * pc) :=
  match fuel with O => Some (q, s) | S fuel' => '(q1, s1, _) ← thread_step f 0 q s; solo fuel' f q1 s1 end.
Definition Enqueue (f : nat) (x : T) (q : Queue) : option Queue := '(q1, _) ← solo 7 f q (E_New x); Some q1.
Definition Dequeue (q : Queue) : option (option (option T) * Queue) :=
  '(q1, s) ← solo 7 0 q D_Load; match s with D_Done r => Some (r, q1) | _ => None end.

(** ** Any number of threads: first in, first out *)

(** The nodes in the order in which they were swapped in: those that were dequeued, with the first dummy, then those in the queue. *)
Record nodes_ok (ns : list nat) (c : config) : Prop := {
  no_distinct : NoDup ns;
  no_length : length ns = S (length (enq_log c));
  no_head : ns !! deq_count c = Some (head_ (queue c));
  no_tail : ns !! length (enq_log c) = Some (tail_ (queue c));
  no_given : ns ⊆ given c;
  no_data : forall i a n, ns !! S i = Some a -> heap (queue c) !! a = Some n -> data n = enq_log c !! i;
  no_next : forall i a n m, ns !! i = Some a -> heap (queue c) !! a = Some n -> next n = Some m -> ns !! S i = Some m;
  no_unused : forall a, is_Some (heap (queue c) !! a) -> a ∈ given c;
}.

(** A node that is made and not swapped in is its thread's. *)
Definition own (s : pc) : option nat := match s with E_Load n | E_Cas n _ => Some n | _ => None end.

Definition thread_ok (ns : list nat) (c : config) (s : pc) : Prop :=
  match s with
  | E_Load n | E_Cas n _ => n ∉ ns /\ n ∈ given c /\ exists x, heap (queue c) !! n = Some (mkNode (Some x) 2 None)
  | E_Link n old => exists i, ns !! i = Some old /\ ns !! S i = Some n
  | E_Drop old | E_Free old | D_Next old => old ∈ ns
  | D_Cas old m => exists i, ns !! i = Some old /\ ns !! S i = Some m
  | D_Read k old m => (k < deq_count c)%nat /\ ns !! k = Some old /\ ns !! S k = Some m
  | D_Size _ old _ | D_Drop _ old _ | D_Free _ old _ => old ∈ ns
  | _ => True
  end.

(** The number of a dequeue whose element is not read yet. *)
Definition reading (s : pc) : option nat := match s with D_Read k _ _ => Some k | _ => None end.

Record config_ok (ns : list nat) (c : config) : Prop := {
  co_nodes : nodes_ok ns c;
  co_threads : Forall (thread_ok ns c) (threads c);
  co_own : NoDup (omap own (threads c));
  co_numbers : NoDup (omap reading (threads c) ++ (fst <$> returned c));
  co_returned : forall k x, (k, x) ∈ returned c -> x = enq_log c !! k /\ (k < deq_count c)%nat;
}.

Lemma owned_lt ns c a : config_ok ns c -> a ∈ omap own (threads c) -> a ∉ ns /\ a ∈ given c.
Proof.
  intros Hc (s & Hs & Ha)%list_elem_of_omap. pose proof (co_threads _ _ Hc) as Ht. rewrite Forall_forall in Ht. specialize (Ht s Hs).
  destruct s; try done; injection Ha as ->; by destruct Ht as (? & ? & _).
Qed.

Lemma reading_lt ns c k : config_ok ns c -> k ∈ omap reading (threads c) -> (k < deq_count c)%nat.
Proof.
  intros Hc (s & Hs & Ha)%list_elem_of_omap. pose proof (co_threads _ _ Hc) as Ht. rewrite Forall_forall in Ht. specialize (Ht s Hs).
  destruct s; try done. injection Ha as ->. by destruct Ht as (? & _).
Qed.

Lemma thread_ok_mono ns ns' c c' s : ns `prefix_of` ns' -> given c ⊆ given c' -> (deq_count c <= deq_count c')%nat ->
  (forall n, own s = Some n -> n ∉ ns' /\ heap (queue c') !! n = heap (queue c) !! n) -> thread_ok ns c s -> thread_ok ns' c' s.
Proof.
  intros Hp Hf Hd Ho. assert (Hl : forall i a, ns !! i = Some a -> ns' !! i = Some a) by (intros i a H; by eapply prefix_lookup_Some).
  assert (Hi : forall a, a ∈ ns -> a ∈ ns') by (intros a [i H]%list_elem_of_lookup; by eapply list_elem_of_lookup_2, Hl).
  destruct s as [|x|n|n old|n old|old|old| | | |old|old m|k old m|k old x|k old x|k old x|r]; cbn; try done.
  - intros (_ & H2 & H3). destruct (Ho n eq_refl) as [Hn ->]. split; [done|]. split; [by apply Hf|done].
  - intros (_ & H2 & H3). destruct (Ho n eq_refl) as [Hn ->]. split; [done|]. split; [by apply Hf|done].
  - intros (i & H1 & H2). exists i. split; by apply Hl.
  - apply Hi.
  - apply Hi.
  - apply Hi.
  - intros (i & H1 & H2). exists i. split; by apply Hl.
  - intros (H1 & H2 & H3). split; [lia|]. split; by apply Hl.
  - apply Hi.
  - apply Hi.
  - apply Hi.
Qed.

(** A thread goes on; of the others, the nodes that they own stay. *)
Lemma config_step ns ns' c c' t s s' : config_ok ns c -> threads c !! t = Some s -> threads c' = <[t := s']> (threads c) ->
  ns `prefix_of` ns' -> given c ⊆ given c' -> (deq_count c <= deq_count c')%nat -> enq_log c `prefix_of` enq_log c' ->
  nodes_ok ns' c' -> thread_ok ns' c' s' ->
  (forall n, n ∈ omap own (threads c) -> own s <> Some n -> n ∉ ns' /\ heap (queue c') !! n = heap (queue c) !! n) ->
  (own s' = None \/ own s' = own s \/ exists f, own s' = Some f /\ f ∉ given c) ->
  (reading s' = None \/ reading s = None /\ reading s' = Some (deq_count c)) ->
  (returned c' = returned c \/ exists k x, reading s = Some k /\ reading s' = None /\ returned c' = returned c ++ [(k, x)] /\ x = enq_log c !! k) ->
  config_ok ns' c'.
Proof.
  intros Hc Hs Et Hp Hf Hd Hpe Hn Ht Hown Ho Hr Hret. destruct (omap_insert own (threads c) t s Hs) as (ro & Ero & Ero').
  destruct (omap_insert reading (threads c) t s Hs) as (rr & Err & Err'). pose proof (co_own _ _ Hc) as Hno. pose proof (co_numbers _ _ Hc) as Hnr.
  assert (Hk : forall k, k ∈ rr ++ (fst <$> returned c) -> (k < deq_count c)%nat).
  { intros k [Hk|(p & -> & Hin)%list_elem_of_fmap]%elem_of_app; [apply (reading_lt ns c k Hc); rewrite Err; apply elem_of_app; by right|].
    destruct p as [j x]. by destruct (co_returned _ _ Hc j x Hin). }
  split.
  - done.
  - rewrite Et. apply Forall_lookup. intros u su Hu. destruct (decide (u = t)) as [->|Hne].
    + rewrite list_lookup_insert_eq in Hu by by eapply lookup_lt_Some. by injection Hu as <-.
    + rewrite list_lookup_insert_ne in Hu by done. apply (thread_ok_mono ns ns' c c'); try done; [|by apply (Forall_lookup_1 _ _ _ _ (co_threads _ _ Hc) Hu)].
      intros n En. apply Hown; [apply list_elem_of_omap; exists su; split; [by eapply list_elem_of_lookup_2|done]|]. intros Es. apply Hne.
      destruct (omap_insert own (threads c) u su Hu) as (r & Er & Er'). rewrite Er, En in Hno. apply NoDup_cons in Hno as [Hx _]. destruct (decide (u = t)) as [|Hut]; [done|].
      exfalso. apply Hx. assert (Hin : n ∈ omap own (<[u := Idle]> (threads c))).
      { apply list_elem_of_omap. exists s. split; [|done]. eapply list_elem_of_lookup_2. by rewrite list_lookup_insert_ne. }
      by rewrite Er' in Hin.
  - rewrite Et, Ero'. rewrite Ero in Hno. apply NoDup_app in Hno as (_ & _ & Hro). destruct Ho as [Eo|[Eo|(f & Eo & Hnew)]]; rewrite Eo; cbn; [done| |].
    + pose proof (co_own _ _ Hc) as H. by rewrite Ero in H.
    + constructor; [|done]. intros Hin. apply Hnew. apply (owned_lt ns c f Hc). rewrite Ero. apply elem_of_app. by right.
  - rewrite Et, Err'. rewrite Err, <- app_assoc in Hnr. pose proof Hnr as (_ & _ & Hnr')%NoDup_app.
    destruct Hret as [->|(k & x & Ek & Ek' & -> & _)].
    + destruct Hr as [->|[_ ->]]; cbn; [done|]. constructor; [|done]. intros Hin%Hk. lia.
    + rewrite Ek', fmap_app. rewrite Ek in Hnr. cbn in *. by rewrite (Permutation_app_comm (fst <$> returned c)), Permutation_app_swap_app.
  - intros k x. destruct Hret as [->|(j & y & Ej & _ & -> & Ey)].
    + intros Hin. destruct (co_returned _ _ Hc k x Hin) as [-> Hlt]. split; [|lia]. eapply prefix_lookup_lt; [|done].
      pose proof (no_length _ _ (co_nodes _ _ Hc)) as E. pose proof (no_head _ _ (co_nodes _ _ Hc)) as H%lookup_lt_Some. lia.
    + pose proof (no_length _ _ (co_nodes _ _ Hc)) as E. pose proof (no_head _ _ (co_nodes _ _ Hc)) as H%lookup_lt_Some.
      assert (Hall : forall j, (j < deq_count c)%nat -> enq_log c !! j = enq_log c' !! j) by (intros i Hi; eapply prefix_lookup_lt; [lia|done]).
      intros [Hin|Hin%list_elem_of_singleton]%elem_of_app.
      * destruct (co_returned _ _ Hc k x Hin) as [-> Hlt]. split; [by apply Hall|lia].
      * injection Hin as -> ->. assert (Hlt : (j < deq_count c)%nat) by (apply (reading_lt ns c j Hc); rewrite Err, Ej; by left). split; [rewrite Ey; by apply Hall|lia].
Qed.

(** The nodes when some are linked, counted down or deleted. *)
Lemma nodes_update ns c c' : nodes_ok ns c -> head_ (queue c') = head_ (queue c) -> tail_ (queue c') = tail_ (queue c) ->
  given c' = given c -> enq_log c' = enq_log c -> deq_count c' = deq_count c ->
  (forall a n', heap (queue c') !! a = Some n' -> exists n, heap (queue c) !! a = Some n /\ data n' = data n /\
     (next n' = next n \/ exists i m, ns !! i = Some a /\ ns !! S i = Some m /\ next n' = Some m)) -> nodes_ok ns c'.
Proof.
  intros [H1 H2 H3 H4 H5 H6 H7 H8] E1 E2 E3 E4 E5 Hh. split; rewrite ?E1, ?E2, ?E3, ?E4, ?E5; try done.
  - intros i a n Hi Ha. destruct (Hh a n Ha) as (n0 & Ha0 & -> & _). by apply (H6 i a).
  - intros i a n m Hi Ha Hm. destruct (Hh a n Ha) as (n0 & Ha0 & _ & [E|(j & m' & Hj & Hm' & E)]); [rewrite E in Hm; by apply (H7 i a n0)|].
    rewrite E in Hm. injection Hm as ->. assert (i = j) as -> by by eapply NoDup_lookup. done.
  - intros a [n Ha]. destruct (Hh a n Ha) as (n0 & Ha0 & _). apply H8. by exists n0.
Qed.

(** What a release does to the heap. *)
Lemma released_heap (h : gmap nat Node) old o a n' : h !! old = Some o -> (<[old := drop_ref o]> h) !! a = Some n' ->
  exists n, h !! a = Some n /\ data n' = data n /\ next n' = next n.
Proof.
  intros Ho Ha. apply lookup_insert_Some in Ha as [[<- <-]|[_ Ha]]; [by exists o|by exists n'].
Qed.

Lemma old_not_owned ns c old n : config_ok ns c -> old ∈ ns -> n ∈ omap own (threads c) -> n <> old.
Proof. intros Hc Ho Hn ->. by destruct (owned_lt ns c old Hc Hn). Qed.

Lemma in_queue ns c i : config_ok ns c -> ns !! i = Some (head_ (queue c)) -> i = deq_count c.
Proof. intros Hc Hi. eapply NoDup_lookup; [apply (co_nodes _ _ Hc)|exact Hi|apply (co_nodes _ _ Hc)]. Qed.

(** A step that reads, or changes the heap at a node that was swapped in. *)
Lemma quiet_step ns c t s s' q' : config_ok ns c -> threads c !! t = Some s ->
  head_ q' = head_ (queue c) -> tail_ q' = tail_ (queue c) ->
  (forall a n', heap q' !! a = Some n' -> exists n, heap (queue c) !! a = Some n /\ data n' = data n /\
     (next n' = next n \/ exists i m, ns !! i = Some a /\ ns !! S i = Some m /\ next n' = Some m)) ->
  (forall n, n ∈ omap own (threads c) -> heap q' !! n = heap (queue c) !! n) ->
  (own s' = None \/ own s' = own s) -> reading s' = None -> thread_ok ns c s' ->
  forall ret, (ret = [] \/ exists k x, reading s = Some k /\ ret = [(k, x)] /\ x = enq_log c !! k) ->
  config_ok ns (mkC q' (<[t := s']> (threads c)) (enq_log c ++ []) (deq_count c + 0) (returned c ++ ret) (given c ++ [])).
Proof.
  intros Hc Hs E1 E2 Hh Hown Ho Hr Ht ret Hret. rewrite (app_nil_r (enq_log c)), (app_nil_r (given c)), Nat.add_0_r.
  apply (config_step ns ns c _ t s s'); cbn [queue threads enq_log deq_count returned given]; try done.
  - by apply (nodes_update ns c); [apply Hc|..].
  - apply (thread_ok_mono ns ns c); cbn [queue deq_count given]; try done. intros n En. destruct Ho as [Eo|Eo]; [congruence|]. rewrite Eo in En.
    assert (Hin : n ∈ omap own (threads c)) by (apply list_elem_of_omap; exists s; split; [by eapply list_elem_of_lookup_2|done]).
    split; [by apply (owned_lt ns c)|by apply Hown].
  - intros n Hn _. split; [by apply (owned_lt ns c)|by apply Hown].
  - destruct Ho as [Ho|Ho]; [by left|by right; left].
  - by left.
  - destruct Hret as [->|(k & x & Ek & -> & Ex)]; [left; apply app_nil_r|right; by exists k, x].
Qed.

Lemma same_step ns c t s s' : config_ok ns c -> threads c !! t = Some s -> (own s' = None \/ own s' = own s) -> reading s' = None -> thread_ok ns c s' ->
  forall ret, (ret = [] \/ exists k x, reading s = Some k /\ ret = [(k, x)] /\ x = enq_log c !! k) ->
  config_ok ns (mkC (queue c) (<[t := s']> (threads c)) (enq_log c ++ []) (deq_count c + 0) (returned c ++ ret) (given c ++ [])).
Proof.
  intros Hc Hs Ho Hr Ht ret Hret. apply (quiet_step ns c t s s'); try done. intros a n' Ha. exists n'. split; [done|]. split; [done|]. by left.
Qed.

Lemma drop_step ns c t s s' old o : config_ok ns c -> threads c !! t = Some s -> old ∈ ns -> heap (queue c) !! old = Some o ->
  own s' = None -> reading s' = None -> thread_ok ns c s' ->
  config_ok ns (mkC (with_heap (<[old := drop_ref o]> (heap (queue c))) (queue c)) (<[t := s']> (threads c)) (enq_log c ++ []) (deq_count c + 0) (returned c ++ []) (given c ++ [])).
Proof.
  intros Hc Hs Hold Ho Eo Er Ht. apply (quiet_step ns c t s s'); try done; [|intros n Hn; cbn; by rewrite lookup_insert_ne by by apply not_eq_sym, (old_not_owned ns c)|by left|by left].
  intros a n' Ha. destruct (released_heap _ _ _ _ _ Ho Ha) as (n & Hn & Hd & Hx). exists n. split; [done|]. split; [done|]. by left.
Qed.

Lemma free_step ns c t s s' old (b : bool) : config_ok ns c -> threads c !! t = Some s -> old ∈ ns ->
  own s' = None -> reading s' = None -> thread_ok ns c s' ->
  config_ok ns (mkC (if b then with_heap (delete old (heap (queue c))) (queue c) else queue c) (<[t := s']> (threads c)) (enq_log c ++ []) (deq_count c + 0) (returned c ++ []) (given c ++ [])).
Proof.
  intros Hc Hs Hold Eo Er Ht. destruct b; [|apply (same_step ns c t s s'); try done; by left].
  apply (quiet_step ns c t s s'); try done; [|intros n Hn; cbn; by rewrite lookup_delete_ne by by apply not_eq_sym, (old_not_owned ns c)|by left|by left].
  cbn [with_heap heap]. intros a n' [_ Ha]%lookup_delete_Some. exists n'. split; [done|]. split; [done|]. by left.
Qed.

(** A node is swapped in behind the tail. *)
Lemma enqueue_step ns c t n : config_ok ns c -> threads c !! t = Some (E_Cas n (tail_ (queue c))) ->
  config_ok (ns ++ [n]) (mkC (with_tail n (queue c)) (<[t := E_Link n (tail_ (queue c))]> (threads c)) (enq_log c ++ enqueued (Some (EvEnq n)) (queue c))
    (deq_count c + 0) (returned c ++ []) (given c ++ [])).
Proof.
  intros Hc Hs. destruct (Forall_lookup_1 _ _ _ _ (co_threads _ _ Hc) Hs) as (Hn & Hlt & x & Hx). rewrite !app_nil_r, Nat.add_0_r.
  cbn [enqueued]. rewrite Hx. cbn [mbind option_bind data option_list]. pose proof (co_nodes _ _ Hc) as [H1 H2 H3 H4 H5 H6 H7 H8].
  assert (Hnext : (ns ++ [n]) !! S (length (enq_log c)) = Some n) by (rewrite <- H2; apply list_lookup_middle; done).
  assert (Hnodes : nodes_ok (ns ++ [n]) (mkC (with_tail n (queue c)) (<[t := E_Link n (tail_ (queue c))]> (threads c)) (enq_log c ++ [x]) (deq_count c) (returned c) (given c))).
  { split; cbn [queue threads enq_log deq_count returned given with_tail head_ tail_ heap].
    - apply NoDup_app. split; [done|]. split; [|by apply NoDup_singleton]. by intros a Ha ->%list_elem_of_singleton.
    - rewrite !length_app. cbn. lia.
    - by apply lookup_app_l_Some.
    - rewrite length_app, Nat.add_1_r. exact Hnext.
    - intros a [Ha|Ha]%elem_of_app; [by apply H5|]. by apply list_elem_of_singleton in Ha as ->.
    - intros i a m Hi Ha. apply lookup_app_Some in Hi as [Hi|[Hle Hi]].
      + rewrite (H6 i a m Hi Ha). apply lookup_lt_Some in Hi. by rewrite lookup_app_l by lia.
      + apply list_lookup_singleton_Some in Hi as [Hi <-]. rewrite Hx in Ha. injection Ha as <-. cbn. replace i with (length (enq_log c)) by lia. by rewrite list_lookup_middle.
    - intros i a m y Hi Ha Hy. apply lookup_app_Some in Hi as [Hi|[Hle Hi]]; [by eapply lookup_app_l_Some, H7|].
      apply list_lookup_singleton_Some in Hi as [_ <-]. rewrite Hx in Ha. by injection Ha as <-.
    - done. }
  apply (config_step ns (ns ++ [n]) c _ t _ (E_Link n (tail_ (queue c))) Hc Hs); cbn [queue threads enq_log deq_count returned given with_tail heap]; try done.
  - by eexists.
  - by eexists.
  - exists (length (enq_log c)). split; [by apply lookup_app_l_Some|exact Hnext].
  - intros m Hm Hne. split; [|done]. rewrite elem_of_app, list_elem_of_singleton. intros [Hin| ->]; [by apply (owned_lt ns c m)|]. by apply Hne.
  - by left.
  - by left.
  - by left.
Qed.

(** The head goes to the next node. *)
Lemma dequeue_step ns c t m : config_ok ns c -> threads c !! t = Some (D_Cas (head_ (queue c)) m) ->
  config_ok ns (mkC (with_head m (queue c)) (<[t := D_Read (deq_count c) (head_ (queue c)) m]> (threads c)) (enq_log c ++ []) (deq_count c + 1) (returned c ++ []) (given c ++ [])).
Proof.
  intros Hc Hs. destruct (Forall_lookup_1 _ _ _ _ (co_threads _ _ Hc) Hs) as (i & Hi & Hm). rewrite !app_nil_r. pose proof (in_queue ns c i Hc Hi) as ->.
  apply (config_step ns ns c _ t _ (D_Read (deq_count c) (head_ (queue c)) m) Hc Hs); cbn [queue threads enq_log deq_count returned given with_head heap]; try done; [lia| | | |by left|by right|by left].
  - destruct (co_nodes _ _ Hc) as [H1 H2 H3 H4 H5 H6 H7 H8]. split; try done. cbn. by rewrite Nat.add_1_r.
  - split; [cbn; lia|done].
  - intros n Hn _. split; [by apply (owned_lt ns c)|done].
Qed.

(** A new node. *)
Lemma new_step ns c t x f : config_ok ns c -> threads c !! t = Some (E_New x) -> f ∉ given c ->
  config_ok ns (mkC (with_heap (<[f := mkNode (Some x) 2 None]> (heap (queue c))) (queue c))
    (<[t := E_Load f]> (threads c)) (enq_log c ++ []) (deq_count c + 0) (returned c ++ []) (given c ++ [f])).
Proof.
  intros Hc Hs Hf. rewrite !app_nil_r, Nat.add_0_r. pose proof (co_nodes _ _ Hc) as [H1 H2 H3 H4 H5 H6 H7 H8].
  assert (Hns : forall a, a ∈ ns -> a <> f) by (intros a Ha ->; by apply Hf, H5).
  assert (Hg : given c ⊆ given c ++ [f]) by (intros a Ha; apply elem_of_app; by left).
  apply (config_step ns ns c _ t _ (E_Load f) Hc Hs); cbn [queue threads enq_log deq_count returned given with_heap heap]; try done; [| | |by right; right; exists f|by left|by left].
  - split; cbn [queue threads enq_log deq_count returned given with_heap head_ tail_ heap]; try done.
    + intros a Ha. by apply Hg, H5.
    + intros i a n Hi Ha. rewrite lookup_insert_ne in Ha by by apply not_eq_sym, Hns; eapply list_elem_of_lookup_2. by apply (H6 i a).
    + intros i a n m Hi Ha. rewrite lookup_insert_ne in Ha by by apply not_eq_sym, Hns; eapply list_elem_of_lookup_2. by apply (H7 i a n m).
    + intros a [n Ha]. apply lookup_insert_Some in Ha as [[<- _]|[_ Ha]]; [apply elem_of_app; right; by left|]. apply Hg, H8. by eexists.
  - cbn. split; [intros Hin; by apply (Hns f)|]. split; [apply elem_of_app; right; by left|]. exists x. apply lookup_insert_eq.
  - intros n Hn _. destruct (owned_lt ns c n Hc Hn) as [Hnn Hlt]. split; [done|]. apply lookup_insert_ne. intros ->. by apply Hf.
Qed.

Lemma access_ok ns c t s f c' : config_ok ns c -> threads c !! t = Some s -> step_of f t s c = Some c' -> NoDup (given c ++ new_address f s) ->
  exists ns', config_ok ns' c'.
Proof.
  intros Hc Hs. pose proof (Forall_lookup_1 _ _ _ _ (co_threads _ _ Hc) Hs) as Ht. pose proof (co_nodes _ _ Hc) as Hn.
  assert (Hin : forall i b, ns !! i = Some b -> b ∈ ns) by (intros i b Hi; by eapply list_elem_of_lookup_2).
  unfold step_of. intros E Hd. revert E.
  destruct s as [|x|n|n old|n old|old|old| | | |old|old m|k old m|k old x|k old x|k old x|r]; cbn [thread_step new_address] in *.
  - intros [= <-]. exists ns. apply (same_step ns c t Idle); try done; by left.
  - case_decide; [|done]. intros [= <-]. exists ns. apply (new_step ns c t x); [done..|]. apply NoDup_app in Hd as (_ & Hd & _). intros Hin'. apply (Hd f Hin'). by left.
  - intros [= <-]. exists ns. apply (same_step ns c t (E_Load n)); try done; [by right|by left].
  - case_decide as Eo; intros [= <-]; [subst old; exists (ns ++ [n]); by apply enqueue_step|]. exists ns. apply (same_step ns c t (E_Cas n old)); try done; [by right|by left].
  - destruct (heap (queue c) !! old) as [o|] eqn:Ho; [|done]. intros [= <-]. destruct Ht as (i & Hi & Hm). exists ns.
    apply (quiet_step ns c t (E_Link n old)); try done; [| |by left|by eapply Hin|by left].
    + cbn [with_heap heap]. intros a n' Ha. apply lookup_insert_Some in Ha as [[<- <-]|[_ Ha]]; [|exists n'; split_and!; [done..|by left]]. exists o. split; [done|]. split; [done|]. right. by exists i, n.
    + intros b Hb. cbn. apply lookup_insert_ne, not_eq_sym. by eapply (old_not_owned ns c), Hb; [|eapply Hin].
  - destruct (heap (queue c) !! old) as [o|] eqn:Ho; [|done]. intros [= <-]. exists ns. by apply (drop_step ns c t (E_Drop old)).
  - destruct (heap (queue c) !! old) as [o|] eqn:Ho; [|done]. intros [= <-]. exists ns. by apply (free_step ns c t (E_Free old) _ old (ref_count o =? 0)).
  - intros [= <-]. exists ns. apply (quiet_step ns c t E_Size); try done; [|by left|by left]. intros a n' Ha. exists n'. split_and!; [done..|by left].
  - intros [= <-]. exists ns. apply (same_step ns c t E_Done); try done; by left.
  - intros [= <-]. exists ns. apply (same_step ns c t D_Load); try done; [by left| |by left]. eapply Hin, (no_head _ _ Hn).
  - destruct (heap (queue c) !! old) as [o|] eqn:Ho; [|done]. cbn [mbind option_bind]. apply list_elem_of_lookup in Ht as [i Hi].
    destruct (next o) as [m|] eqn:Em; intros [= <-]; exists ns; apply (same_step ns c t (D_Next old)); try done; try by left.
    exists i. split; [done|]. by eapply (no_next _ _ Hn).
  - case_decide as Eo; intros [= <-]; exists ns; [subst old; by apply dequeue_step|].
    apply (same_step ns c t (D_Cas old m)); try done; [by left| |by left]. eapply Hin, (no_head _ _ Hn).
  - destruct (heap (queue c) !! m) as [o|] eqn:Ho; [|done]. intros [= <-]. destruct Ht as (H1 & H2 & H3). exists ns.
    apply (same_step ns c t (D_Read k old m)); try done; [by left|by eapply Hin|]. right. exists k, (data o). split; [done|]. split; [done|]. by apply (no_data _ _ Hn k m).
  - intros [= <-]. exists ns. apply (quiet_step ns c t (D_Size k old x)); try done; [|by left|by left]. intros a n' Ha. exists n'. split_and!; [done..|by left].
  - destruct (heap (queue c) !! old) as [o|] eqn:Ho; [|done]. intros [= <-]. exists ns. by apply (drop_step ns c t (D_Drop k old x)).
  - destruct (heap (queue c) !! old) as [o|] eqn:Ho; [|done]. intros [= <-]. exists ns. by apply (free_step ns c t (D_Free k old x) _ old (ref_count o =? 0)).
  - intros [= <-]. exists ns. apply (same_step ns c t (D_Done r)); try done; by left.
Qed.

(** The addresses that were given out so far come first. *)
Lemma act_given c a c' : act c a = Some c' -> exists l, given c' = given c ++ l.
Proof.
  destruct a as [t x|t|t|t f]; cbn [act]; destruct (threads c !! t) as [s|]; try done; cbn [mbind option_bind].
  1,2: destruct (outside s); [|done]; intros [= <-]; exists []; by rewrite app_nil_r.
  all: destruct (makes s); [|]; try done; unfold step_of; intros ([[q1 s1] e] & _ & [= <-])%bind_Some; by eexists.
Qed.

Lemma run_given l : forall c c', run c l = Some c' -> exists r, given c' = given c ++ r.
Proof.
  induction l as [|a l IH]; intros c c'; cbn; [intros [= <-]; exists []; by rewrite app_nil_r|]. intros (c1 & E1 & E2)%bind_Some.
  destruct (act_given _ _ _ E1) as [r1 G1]. destruct (IH _ _ E2) as [r2 ->]. exists (r1 ++ r2). by rewrite G1, app_assoc.
Qed.

Lemma act_ok ns c a c' : config_ok ns c -> act c a = Some c' -> NoDup (given c') -> exists ns', config_ok ns' c'.
Proof.
  intros Hc E Hd. destruct a as [t x|t|t|t f]; cbn [act] in E; destruct (threads c !! t) as [s|] eqn:Hs; try done; cbn [mbind option_bind] in E.
  1,2: destruct (outside s) eqn:Eo; [|done]; injection E as <-; exists ns;
    rewrite <- (app_nil_r (enq_log c)), <- (Nat.add_0_r (deq_count c)), <- (app_nil_r (returned c)), <- (app_nil_r (given c)).
  1: apply (same_step ns c t s (E_New x)); try done; by left.
  1: apply (same_step ns c t s D_Load); try done; by left.
  all: destruct (makes s) eqn:Em; [|]; try done; eapply (access_ok ns c t s); [done|done|exact E|];
    revert E; unfold step_of; intros ([[q1 s1] e] & _ & [= <-])%bind_Some; exact Hd.
Qed.

Lemma init_ok n : config_ok [0%nat] (init_config n).
Proof.
  assert (Hnil : forall B (f : pc -> option B), f Idle = None -> omap f (replicate n Idle) = []) by (intros B f Hf; induction n as [|m IH]; [done|]; cbn; by rewrite Hf).
  split; cbn [init_config threads returned fmap list_fmap].
  - split; try done; cbn.
    + apply NoDup_singleton.
    + intros [|i] a m y Hi Ha Hy; [|done]. injection Hi as <-. rewrite lookup_insert_eq in Ha. injection Ha as <-. done.
    + intros a [m Ha]. apply lookup_insert_Some in Ha as [[<- _]|[_ Ha]]; [by left|]. by rewrite lookup_empty in Ha.
  - by apply Forall_replicate.
  - rewrite (Hnil _ own) by done. constructor.
  - rewrite (Hnil _ reading) by done. constructor.
  - by intros k x ?%not_elem_of_nil.
Qed.

(** C31: However the threads interleave, as long as none of them uses memory that was deleted and the allocator does not give the address of a node out again: the
    dequeues that have read their element have read the elements of the enqueues in the order in which the enqueues took effect, each once.
    (With an address that is given out again, which an allocator may do once the node is deleted, this fails: [reused_address_skips].) *)
Theorem unbounded_queue_fifo n l c : run (init_config n) l = Some c -> NoDup (given c) ->
  NoDup (fst <$> returned c) /\ (deq_count c <= length (enq_log c))%nat /\ forall k x, (k, x) ∈ returned c -> is_Some x /\ enq_log c !! k = x.
Proof.
  intros Hr Hd. assert (H : exists ns, config_ok ns c).
  { revert Hr. assert (H0 : exists ns, config_ok ns (init_config n)) by (eexists; apply init_ok). revert H0. generalize (init_config n).
    induction l as [|a l IH]; intros c0 [ns H0]; cbn [run]; [intros [= <-]; by exists ns|]. destruct (act c0 a) as [c1|] eqn:E; [|done]. cbn [mbind option_bind].
    intros Er. destruct (run_given _ _ _ Er) as [r G]. apply (IH c1); [|done]. eapply act_ok; [done|done|]. rewrite G in Hd. by apply NoDup_app in Hd as (? & _ & _). }
  destruct H as [ns Hc]. pose proof (no_length _ _ (co_nodes _ _ Hc)) as El. pose proof (no_head _ _ (co_nodes _ _ Hc)) as Hlt%lookup_lt_Some.
  split; [by pose proof (co_numbers _ _ Hc) as (_ & _ & ?)%NoDup_app|]. split; [lia|]. intros k x Hin. destruct (co_returned _ _ Hc k x Hin) as [-> Hk]. split; [|done].
  apply lookup_lt_is_Some. lia.
Qed.

(** ** One thread: a list, and no node is left behind *)

(** The nodes from [a] on, with the elements [l] behind it; the last one still has both its references. *)
Fixpoint segment (h : gmap nat Node) (a : nat) (d : option T) (l : list T) (tail : nat) : Prop :=
  match l with
  | [] => a = tail /\ h !! a = Some (mkNode d 2 None)
  | x :: l' => exists m, (a < m)%nat /\ h !! a = Some (mkNode d 1 (Some m)) /\ segment h m (Some x) l' tail
  end.

Record list_ok (q : Queue) (l : list T) : Prop := {
  lo_segment : exists d, segment (heap q) (head_ q) d l (tail_ q);
  lo_heap : size (heap q) = S (length l);
  lo_size : size_ q = Z.of_nat (length l);
  lo_small : Z.of_nat (length l) < two64;
}.

Lemma segment_le h l : forall a d tail, segment h a d l tail -> (a <= tail)%nat.
Proof. induction l as [|x l IH]; intros a d tail; cbn; [by intros [-> _]|]. intros (m & Hlt & _ & H). specialize (IH _ _ _ H). lia. Qed.

Lemma segment_insert h l b n : forall a d tail, (tail < b \/ b < a)%nat -> segment h a d l tail -> segment (<[b := n]> h) a d l tail.
Proof.
  induction l as [|x l IH]; intros a d tail Hb; cbn.
  - intros [-> Ha]. split; [done|]. rewrite lookup_insert_ne; [done|lia].
  - intros (m & Hlt & Ha & H). pose proof (segment_le _ _ _ _ _ H). exists m. split; [done|]. split; [rewrite lookup_insert_ne; [done|lia]|]. apply IH; [lia|done].
Qed.

Lemma segment_delete h l b : forall a d tail, (b < a)%nat -> segment h a d l tail -> segment (delete b h) a d l tail.
Proof.
  induction l as [|x l IH]; intros a d tail Hb; cbn.
  - intros [-> Ha]. split; [done|]. rewrite lookup_delete_ne; [done|lia].
  - intros (m & Hlt & Ha & H). exists m. split; [done|]. split; [rewrite lookup_delete_ne; [done|lia]|]. apply IH; [lia|done].
Qed.

Lemma segment_tail h l : forall a d tail, segment h a d l tail -> exists d', h !! tail = Some (mkNode d' 2 None).
Proof. induction l as [|x l IH]; intros a d tail; cbn; [intros [-> H]; by exists d|]. intros (m & _ & _ & H). by eapply IH. Qed.

(** The last node is linked to a new one. *)
Lemma segment_snoc h l x n : forall a d tail d', (tail < n)%nat -> segment h a d l tail -> h !! tail = Some (mkNode d' 2 None) ->
  segment (<[tail := mkNode d' 1 (Some n)]> (<[n := mkNode (Some x) 2 None]> h)) a d (l ++ [x]) n.
Proof.
  induction l as [|y l IH]; intros a d tail d' Hn; cbn.
  - intros [-> Ha] Ht. rewrite Ha in Ht. injection Ht as ->. exists n. split; [done|]. split; [apply lookup_insert_eq|]. split; [done|].
    rewrite lookup_insert_ne by lia. apply lookup_insert_eq.
  - intros (m & Hlt & Ha & H) Ht. pose proof (segment_le _ _ _ _ _ H). exists m. split; [done|]. split; [|by apply IH].
    rewrite !lookup_insert_ne by lia. done.
Qed.

Lemma enqueue_list f q l x : list_ok q l -> (forall a, is_Some (heap q !! a) -> a < f)%nat -> Z.of_nat (length l) + 1 < two64 ->
  exists q', Enqueue f x q = Some q' /\ list_ok q' (l ++ [x]).
Proof.
  intros [(d & Hs) Hh Hz _] Hf Hl. destruct (segment_tail _ _ _ _ _ Hs) as [d' Ht]. assert (Hf1 : (tail_ q < f)%nat) by (apply Hf; by eexists).
  assert (Hf2 : heap q !! f = None) by (apply eq_None_not_Some; intros H%Hf; lia). unfold Enqueue.
  exists (mkQueue (head_ q) f (wrap_u64 (size_ q + 1)) (<[tail_ q := mkNode d' 1 (Some f)]> (<[f := mkNode (Some x) 2 None]> (heap q)))).
  split.
  { cbn [solo thread_step]. rewrite (decide_True _ _ Hf2).
    cbn [solo thread_step mbind option_bind tail_ head_ size_ heap with_tail with_heap with_size]. rewrite decide_True by done.
    cbn [solo thread_step mbind option_bind tail_ head_ size_ heap with_tail with_heap with_size]. rewrite (lookup_insert_ne (heap q)), Ht by lia.
    cbn [solo thread_step mbind option_bind tail_ head_ size_ heap with_tail with_heap with_size set_next data ref_count next]. rewrite lookup_insert_eq.
    cbn [solo thread_step mbind option_bind tail_ head_ size_ heap with_tail with_heap with_size drop_ref data ref_count next]. by rewrite insert_insert_eq, lookup_insert_eq. }
  split; cbn [head_ tail_ size_ heap].
  - exists d. by apply segment_snoc.
  - rewrite map_size_insert_Some by (rewrite lookup_insert_ne by lia; by eexists). rewrite map_size_insert_None by done. rewrite Hh, length_app. cbn. lia.
  - rewrite Hz, wrap_u64_small by lia. rewrite length_app. cbn. lia.
  - rewrite length_app. cbn. lia.
Qed.

Lemma dequeue_list q l : list_ok q l ->
  match l with
  | [] => Dequeue q = Some (None, q)
  | x :: l' => exists q', Dequeue q = Some (Some (Some x), q') /\ list_ok q' l'
  end.
Proof.
  intros [(d & Hs) Hh Hz Hl]. destruct l as [|x l]; cbn in Hs.
  - destruct Hs as [_ Ha]. unfold Dequeue. cbn [solo thread_step mbind option_bind]. by rewrite Ha.
  - destruct Hs as (m & Hlt & Ha & Hs). assert (Hm : exists n, heap q !! m = Some (mkNode (Some x) n (match l with [] => None | _ => next (default (mkNode None 0 None) (heap q !! m)) end))).
    { destruct l as [|y l]; cbn in Hs; [destruct Hs as [_ Hs]; by exists 2|]. destruct Hs as (m' & _ & Hm & _). exists 1. by rewrite Hm. }
    destruct Hm as [nm Hm]. unfold Dequeue.
    exists (mkQueue m (tail_ q) (wrap_u64 (size_ q - 1)) (delete (head_ q) (heap q))). split.
    + cbn [solo thread_step mbind option_bind tail_ head_ size_ heap with_head with_heap with_size]. rewrite Ha. cbn [solo thread_step mbind option_bind next]. rewrite decide_True by done.
      cbn [solo thread_step mbind option_bind tail_ head_ size_ heap with_head with_heap with_size]. rewrite Hm.
      cbn [solo thread_step mbind option_bind tail_ head_ size_ heap with_head with_heap with_size data]. rewrite Ha.
      cbn [solo thread_step mbind option_bind tail_ head_ size_ heap with_head with_heap with_size drop_ref data ref_count next]. rewrite lookup_insert_eq.
      cbn [solo mbind option_bind]. change (wrap_u32 (1 - 1) =? 0) with true. cbn [solo thread_step mbind option_bind with_heap heap head_ tail_ size_]. by rewrite delete_insert_eq.
    + split; cbn [head_ tail_ size_ heap].
      * exists (Some x). by apply segment_delete.
      * rewrite map_size_delete_Some by by eexists. by rewrite Hh.
      * rewrite Hz, wrap_u64_small; cbn in *; lia.
      * cbn in Hl. lia.
Qed.

Lemma destroy_list l : forall h a d tail fuel, segment h a d l tail -> size h = S (length l) -> (length l < fuel)%nat -> destroy_from fuel (Some a) h = Some ∅.
Proof.
  induction l as [|x l IH]; intros h a d tail fuel Hs Hh Hf; (destruct fuel as [|fuel]; [cbn in Hf; lia|]); cbn [destroy_from].
  - destruct Hs as [_ Ha]. rewrite Ha. cbn [mbind option_bind next]. enough (E : delete a h = ∅) by (rewrite E; by destruct fuel).
    apply map_size_empty_iff. rewrite map_size_delete_Some by by eexists. by rewrite Hh.
  - destruct Hs as (m & Hlt & Ha & Hs). rewrite Ha. cbn [mbind option_bind next]. apply (IH _ _ (Some x) tail); [by apply segment_delete| |cbn in Hf; lia].
    rewrite map_size_delete_Some by by eexists. by rewrite Hh.
Qed.

Lemma reset_list h f : size h = 0%nat -> list_ok (Reset h f) [].
Proof.
  intros Hh. apply map_size_empty_iff in Hh as ->. split; cbn.
  - exists None. split; [done|]. apply lookup_insert_eq.
  - by rewrite map_size_insert_None by apply lookup_empty.
  - done.
  - done.
Qed.

(** Used by one thread, with new nodes behind the old ones in memory, the queue is a list: what is put in comes out in order, nothing comes out when it is empty, the size is that of the list, and
    the nodes in memory are one more than its elements, also after it is cleared. *)
Theorem unbounded_queue_refines_list :
  list_ok queue_new [] /\
  forall q l, list_ok q l ->
    Size q = Z.of_nat (length l) /\ Empty q = bool_decide (l = []) /\ size (heap q) = S (length l) /\
    (forall f x, (forall a, is_Some (heap q !! a) -> a < f)%nat -> Z.of_nat (length l) + 1 < two64 -> exists q', Enqueue f x q = Some q' /\ list_ok q' (l ++ [x])) /\
    match l with [] => Dequeue q = Some (None, q) | x :: l' => exists q', Dequeue q = Some (Some (Some x), q') /\ list_ok q' l' end /\
    forall f, exists q', Clear f q = Some q' /\ list_ok q' [].
Proof.
  split; [by apply reset_list|]. intros q l Hq. split; [apply Hq|]. split; [|split; [apply Hq|]].
  - unfold Empty. rewrite (lo_size _ _ Hq). by destruct l.
  - split; [intros f x Hf Hx; by apply enqueue_list|]. split; [by apply dequeue_list|]. intros f. unfold Clear, Destroy. destruct (lo_segment _ _ Hq) as [d Hs].
    rewrite (destroy_list l _ _ d (tail_ q)); [|done|apply Hq|rewrite (lo_heap _ _ Hq); lia]. eexists. split; [done|]. by apply reset_list.
Qed.
End queue.

(** ** Two threads *)

(** One thread puts in and one takes out, which is what such a queue is for.  Both count down the node that the second was to leave, both find
    its count at zero, and the second to look deletes what is deleted. *)
Definition double_free : list (@action nat) :=
  [CallEnqueue 0 7%nat; New 0 1; Step 0; Step 0; Step 0; CallDequeue 1; Step 1; Step 1; Step 1; Step 1; Step 1; Step 0; Step 1; Step 0].
Theorem release_deletes_twice : exists c, run (T := nat) (init_config 2) double_free = Some c /\ threads c !! 1%nat = Some (D_Free 0 0 (Some 7%nat)) /\
  act c (Step 1) = None.
Proof. eexists. split; [vm_compute; reflexivity|]. by split. Qed.

(** A thread that has read the head and not its link uses a node that another has dequeued and deleted. *)
Definition late_dequeue : list (@action nat) :=
  [CallEnqueue 0 7%nat; New 0 1; Step 0; Step 0; Step 0; Step 0; Step 0; Step 0; CallDequeue 1; Step 1;
   CallDequeue 2; Step 2; Step 2; Step 2; Step 2; Step 2; Step 2; Step 2].
Theorem dequeue_uses_deleted : exists c, run (T := nat) (init_config 3) late_dequeue = Some c /\ threads c !! 1%nat = Some (D_Next 0) /\ act c (Step 1) = None.
Proof. eexists. split; [vm_compute; reflexivity|]. by split. Qed.

(** An element can be taken out before it is counted: the size is then the largest number. *)
Definition early_dequeue : list (@action nat) :=
  [CallEnqueue 0 7%nat; New 0 1; Step 0; Step 0; Step 0; CallDequeue 1; Step 1; Step 1; Step 1; Step 1; Step 1].
Theorem size_wraps : exists c, run (T := nat) (init_config 2) early_dequeue = Some c /\ Size (queue c) = 18446744073709551615.
Proof. eexists. split; [vm_compute; reflexivity|]. done. Qed.

(** An address that is given out again: a thread is about to swap the head from node 0 to node 1; meanwhile another one takes both elements out, and puts three in whose
    nodes are again those of the deleted ones, node 0 first and node 1 last.  When the head is node 0 again the swap succeeds and skips an element. *)
Definition put (x f : nat) : list (@action nat) := [CallEnqueue 1 x; New 1 f; Step 1; Step 1; Step 1; Step 1; Step 1; Step 1].
Definition take : list (@action nat) := CallDequeue 1 :: replicate 7 (Step 1).
Definition reuse : list (@action nat) :=
  put 10 1 ++ put 11 2 ++ [CallDequeue 0; Step 0; Step 0] ++ take ++ put 12 0 ++ take ++ take ++ put 13 5 ++ put 14 1 ++ [Step 0; Step 0].
Theorem reused_address_skips : exists c, run (T := nat) (init_config 2) reuse = Some c /\ enq_log c = [10; 11; 12; 13; 14]%nat /\
  returned c = [(0, Some 10); (1, Some 11); (2, Some 12); (3, Some 14)]%nat.
Proof. eexists. split; [vm_compute; reflexivity|]. done. Qed.

Lemma unbounded_queue_fifo_witness : exists c, run (T := nat) (init_config 2) early_dequeue = Some c /\ returned c = [(0%nat, Some 7%nat)] /\ enq_log c !! 0%nat = Some 7%nat.
Proof.
  eexists. split; [vm_compute; reflexivity|]. split; [reflexivity|].
  refine (proj2 (proj2 (proj2 (unbounded_queue_fifo 2 early_dequeue _ _ _)) 0%nat (Some 7%nat) _)); [vm_compute; reflexivity| |by left].
  apply (bool_decide_unpack _). vm_compute. exact I.
Defined.
