(* ===== verification/GlobalData.v ===== *)
(** * GlobalData: names and their identifiers

    Models the registries of [cyber/common/global_data.{h,cc}]: the four static maps
    from an identifier to a name, and [RegisterNode], [RegisterChannel],
    [RegisterService] and [RegisterTaskName], which probe from the hash of the name
    for an identifier that is free or already its own.  [std::hash] is a parameter. *)

From S2P Require Import Prelude AtomicHashMap.

Section registry.
Context (hash : string -> Z) (TableSize : Z).

(** The probing loop; [None] when the fuel runs out. *)
Fixpoint probe (fuel : nat) (name : string) (id : Z) (m : AtomicHashMap string) : option Z :=
  match fuel with
  | O => None
  | S fuel' =>
      if Has TableSize id m then
        match Get TableSize id m with
        | Some name' =>
            if bool_decide (name = name') then Some id
            else probe fuel' name (wrap_u64 (id + 1)) m
        | None => None
        end
      else Some id
  end.

(** The identifiers in the table; one probe more than there are finds a free one. *)
Definition table_keys (m : AtomicHashMap string) : list Z := (concat m).*1.

Definition Register (name : string) (m : AtomicHashMap string)
    : option (Z * AtomicHashMap string) :=
  match probe (S (length (table_keys m))) name (hash name) m with
  | Some id => Some (id, Set_ TableSize id name m)
  | None => None
  end.

Definition GetById (id : Z) (m : AtomicHashMap string) : string :=
  match Get TableSize id m with Some name => name | None => "" end.

End registry.

Record GlobalData := mkGD {
  node_id_map_ : AtomicHashMap string;
  channel_id_map_ : AtomicHashMap string;
  service_id_map_ : AtomicHashMap string;
  task_id_map_ : AtomicHashMap string;
}.

Definition gd_new : GlobalData := mkGD (ahm_new 512) (ahm_new 256) (ahm_new 256) (ahm_new 256).

Section operations.
Context (hash : string -> Z).

Definition RegisterNode (node_name : string) (gd : GlobalData) : option (Z * GlobalData) :=
  match Register hash 512 node_name (node_id_map_ gd) with
  | Some (id, m) =>
      Some (id, mkGD m (channel_id_map_ gd) (service_id_map_ gd) (task_id_map_ gd))
  | None => None
  end.

Definition GetNodeById (id : Z) (gd : GlobalData) : string := GetById 512 id (node_id_map_ gd).

Definition RegisterChannel (channel : string) (gd : GlobalData) : option (Z * GlobalData) :=
  match Register hash 256 channel (channel_id_map_ gd) with
  | Some (id, m) =>
      Some (id, mkGD (node_id_map_ gd) m (service_id_map_ gd) (task_id_map_ gd))
  | None => None
  end.

Definition GetChannelById (id : Z) (gd : GlobalData) : string :=
  GetById 256 id (channel_id_map_ gd).

Definition RegisterService (service : string) (gd : GlobalData) : option (Z * GlobalData) :=
  match Register hash 256 service (service_id_map_ gd) with
  | Some (id, m) =>
      Some (id, mkGD (node_id_map_ gd) (channel_id_map_ gd) m (task_id_map_ gd))
  | None => None
  end.

Definition GetServiceById (id : Z) (gd : GlobalData) : string :=
  GetById 256 id (service_id_map_ gd).

Definition RegisterTaskName (task_name : string) (gd : GlobalData) : option (Z * GlobalData) :=
  match Register hash 256 task_name (task_id_map_ gd) with
  | Some (id, m) =>
      Some (id, mkGD (node_id_map_ gd) (channel_id_map_ gd) (service_id_map_ gd) m)
  | None => None
  end.

Definition GetTaskNameById (id : Z) (gd : GlobalData) : string := GetById 256 id (task_id_map_ gd).

End operations.

(** ** One registry *)

Section registry_lemmas.
Context (hash : string -> Z) (TableSize : Z).
Hypothesis hash_range : forall s, is_u64 (hash s).
Hypothesis table_size : 0 < TableSize < two64.

Abbreviation map := (AtomicHashMap string).
Abbreviation get i m := (Get TableSize i m).

(** The [j]-th identifier probed for a name. *)
Definition probed (name : string) (j : nat) : Z := wrap_u64 (hash name + Z.of_nat j).

Lemma probed_u64 name j : is_u64 (probed name j).
Proof. apply wrap_u64_range. Qed.

Lemma probed_0 name : probed name 0 = hash name.
Proof. unfold probed. rewrite Z.add_0_r. apply wrap_u64_small, hash_range. Qed.

Lemma probed_S name j : wrap_u64 (probed name j + 1) = probed name (S j).
Proof.
  unfold probed, wrap_u64. rewrite Zplus_mod_idemp_l. f_equal. lia.
Qed.

Lemma probed_inj name j j' :
  Z.of_nat j < two64 -> Z.of_nat j' < two64 -> probed name j = probed name j' -> j = j'.
Proof.
  intros Hj Hj' He. unfold probed, wrap_u64 in He.
  apply (mod_close_inj _ _ two64) in He; [lia|done|lia].
Qed.

(** The identifier at which a name is found or goes: the first one that is free or its own. *)
Definition home (name : string) (m : map) (j : nat) : Prop :=
  (get (probed name j) m = None \/ get (probed name j) m = Some name) /\
  forall j', (j' < j)%nat -> exists name', get (probed name j') m = Some name' /\ name' <> name.

Lemma Has_Get i (m : map) : ahm_wf TableSize m -> Has TableSize i m = bool_decide (is_Some (get i m)).
Proof. intros Hm. apply bucket_Has_Get, bucket_of_wf, Hm. Qed.

(** One probe. *)
Lemma probe_unfold fuel name i (m : map) :
  ahm_wf TableSize m ->
  probe TableSize (S fuel) name i m =
    match get i m with
    | Some name' => if bool_decide (name = name') then Some i
                    else probe TableSize fuel name (wrap_u64 (i + 1)) m
    | None => Some i
    end.
Proof. intros Hm. cbn [probe]. rewrite Has_Get by done. by destruct (get i m). Qed.

Lemma probe_home fuel name j m i :
  ahm_wf TableSize m ->
  (forall j', (j' < j)%nat -> exists name', get (probed name j') m = Some name' /\ name' <> name) ->
  probe TableSize fuel name (probed name j) m = Some i ->
  exists j', i = probed name j' /\ home name m j'.
Proof.
  intros Hm. revert j. induction fuel as [|fuel IH]; intros j Hb Hp; [done|].
  rewrite probe_unfold in Hp by done. destruct (get (probed name j) m) as [name'|] eqn:E.
  - case_bool_decide; [injection Hp as <-; exists j; by subst; repeat split; auto|].
    rewrite probed_S in Hp. apply (IH (S j)); [|done]. intros j' Hj'.
    destruct (decide (j' = j)) as [->|]; [by exists name'|apply Hb; lia].
  - injection Hp as <-. exists j. repeat split; auto.
Qed.

Lemma probe_None fuel name j m k :
  ahm_wf TableSize m -> probe TableSize fuel name (probed name j) m = None ->
  (k < fuel)%nat -> is_Some (get (probed name (j + k)) m).
Proof.
  intros Hm. revert j k. induction fuel as [|fuel IH]; intros j k Hp Hk; [lia|].
  rewrite probe_unfold in Hp by done. destruct (get (probed name j) m) as [name'|] eqn:E; [|done].
  case_bool_decide; [done|]. rewrite probed_S in Hp. destruct k as [|k].
  - rewrite Nat.add_0_r, E. by eexists.
  - replace (j + S k)%nat with (S j + k)%nat by lia. apply IH; [done|lia].
Qed.

Lemma get_table_keys i (m : map) : ahm_wf TableSize m -> is_Some (get i m) -> i ∈ table_keys m.
Proof.
  intros Hm [s Hs]. apply bucket_Get_iff in Hs; [|by apply bucket_of_wf].
  unfold bucket_of, table_keys in *.
  destruct (m !! _) as [b|] eqn:E; cbn in Hs; [|by apply elem_of_nil in Hs].
  apply list_elem_of_fmap. exists (i, s). split; [done|].
  apply list_elem_of_In, in_concat. exists b.
  split; [by apply list_elem_of_In, (list_elem_of_lookup_2 _ _ _ E)|by apply list_elem_of_In].
Qed.

(** As many probes as entries, and one, end at the home of the name. *)
Lemma Register_home name (m : map) :
  ahm_wf TableSize m -> Z.of_nat (length (table_keys m)) < two64 ->
  exists j, home name m j /\
    Register hash TableSize name m = Some (probed name j, Set_ TableSize (probed name j) name m).
Proof.
  intros Hm Hlen. unfold Register. rewrite <- (probed_0 name).
  destruct (probe _ _ _ _ _) as [i|] eqn:E.
  - apply probe_home in E as (j & -> & Hj); [|done|lia]. by exists j.
  - exfalso. pose proof (fun k => probe_None _ _ _ _ k Hm E) as Hall.
    set (n := S (length (table_keys m))) in *.
    assert (Hsub : (length (probed name <$> seq 0 n) <= length (table_keys m))%nat).
    { apply submseteq_length, NoDup_submseteq.
      - apply NoDup_fmap_2_strong; [|apply NoDup_seq]. intros x y Hx%elem_of_seq Hy%elem_of_seq.
        apply probed_inj; lia.
      - intros x Hx. apply list_elem_of_fmap in Hx as (k & -> & Hk%elem_of_seq).
        apply get_table_keys; [done|]. apply (Hall k). lia. }
    rewrite length_fmap, length_seq in Hsub. lia.
Qed.

Lemma length_bucket_Insert i (s : string) b :
  (length (bucket_Insert i s b) <= S (length b))%nat.
Proof.
  assert (HF : forall f pre post, Find i b = (f, pre, post) -> length b = (length pre + length post)%nat).
  { induction b as [|[k v] b IH]; intros f pre post; cbn; [by intros [= <- <- <-]|].
    destruct (k =? i); [by intros [= <- <- <-]|]. destruct (i <? k); [by intros [= <- <- <-]|].
    destruct (Find i b) as [[f' pre'] post'] eqn:E. intros [= <- <- <-]. cbn.
    by rewrite (IH _ _ _ eq_refl). }
  unfold bucket_Insert. destruct (Find i b) as [[f pre] post] eqn:E. rewrite (HF _ _ _ eq_refl).
  destruct f; [destruct post as [|[k v] post]|]; rewrite ?length_app; cbn; lia.
Qed.

Lemma table_keys_Set i s (m : map) :
  (length (table_keys (Set_ TableSize i s m)) <= S (length (table_keys m)))%nat.
Proof.
  unfold table_keys, Set_, bucket_of, AtomicHashMap in *. rewrite !length_fmap.
  set (n := Z.to_nat _). clearbody n.
  destruct (m !! n) as [b|] eqn:E; cbn [default].
  - rewrite (insert_take_drop _ _ _ (lookup_lt_Some _ _ _ E)). rewrite <- (take_drop_middle _ _ _ E) at 3.
    rewrite !concat_app, !length_app. cbn. rewrite !length_app.
    pose proof (length_bucket_Insert i s b). lia.
  - rewrite list_insert_ge; [lia|]. by apply lookup_ge_None.
Qed.

(** The names registered so far, each at its home. *)
Record reg_ok (m : map) (log : list (string * Z)) : Prop := {
  ro_wf : ahm_wf TableSize m;
  ro_len : (length (table_keys m) <= length log)%nat;
  ro_home : forall name i, (name, i) ∈ log ->
    get i m = Some name /\ exists j, i = probed name j /\ home name m j;
}.

Lemma home_unique name m j j' : home name m j -> home name m j' -> j = j'.
Proof.
  intros [H1 H2] [H3 H4]. destruct (lt_eq_lt_dec j j') as [[Hlt| ->]|Hlt]; [|done|].
  - destruct (H4 j Hlt) as (n & Hn & Hne). naive_solver.
  - destruct (H2 j' Hlt) as (n & Hn & Hne). naive_solver.
Qed.

Lemma reg_ok_new : reg_ok (ahm_new TableSize) [].
Proof.
  split.
  - by apply ahm_new_wf.
  - unfold table_keys, ahm_new. rewrite length_fmap.
    induction (Z.to_nat TableSize) as [|n IH]; cbn; [lia|done].
  - by intros name i ?%elem_of_nil.
Qed.

(** Registering gives the name's home, and moves nobody. *)
Lemma Register_ok name m log :
  reg_ok m log -> Z.of_nat (length log) < two64 ->
  exists i m', Register hash TableSize name m = Some (i, m') /\
    reg_ok m' ((name, i) :: log) /\ (forall i', (name, i') ∈ log -> i' = i).
Proof.
  intros [Hwf Hl Hh] Hlt. destruct (Register_home name m Hwf ltac:(lia)) as (j & Hj & ->).
  eexists _, _. split; [done|]. split.
  2:{ intros i' Hin. destruct (Hh _ _ Hin) as (_ & j' & -> & Hj'). f_equal. by eapply home_unique. }
  assert (Hget : forall i, get i (Set_ TableSize (probed name j) name m) =
            if decide (probed name j = i) then Some name else get i m).
  { intros i. apply Get_Set; [done|apply probed_u64|done]. }
  assert (Hkeep : forall n k, home n m k -> n = name \/ get (probed n k) m = Some n ->
            home n (Set_ TableSize (probed name j) name m) k).
  { intros n k [H1 H2] Hn. split; [|intros k' Hk'; destruct (H2 k' Hk') as (n' & Hn' & Hne)];
      rewrite Hget; case_decide as Hd.
    - destruct Hn as [->|Hn]; [by right|]. right. destruct Hj as [[Hj|Hj] _]; rewrite Hd in Hj; congruence.
    - done.
    - exists name. split; [done|]. destruct Hj as [[Hj|Hj] _]; rewrite Hd in Hj; congruence.
    - by exists n'. }
  split.
  - by apply Set_wf.
  - pose proof (table_keys_Set (probed name j) name m). cbn [length]. lia.
  - intros n i [[= -> ->]|Hin]%elem_of_cons.
    + split; [rewrite Hget; by rewrite decide_True|]. exists j. split; [done|]. apply Hkeep; auto.
    + destruct (Hh n i Hin) as (Hg & k & -> & Hk). split; [|exists k; split; [done|]; apply Hkeep; auto].
      rewrite Hget. case_decide as Hd; [|done].
      destruct Hj as [[Hj|Hj] _]; rewrite Hd in Hj; congruence.
Qed.

End registry_lemmas.

(** ** The four registries *)

Inductive NameKind := KNode | KChannel | KService | KTask.

#[export] Instance NameKind_eq_dec : EqDecision NameKind.
Proof. solve_decision. Defined.

Definition table_size_of (k : NameKind) : Z := match k with KNode => 512 | _ => 256 end.

Definition map_of (k : NameKind) (gd : GlobalData) : AtomicHashMap string :=
  match k with
  | KNode => node_id_map_ gd
  | KChannel => channel_id_map_ gd
  | KService => service_id_map_ gd
  | KTask => task_id_map_ gd
  end.

Section sequences.
Context (hash : string -> Z).
Hypothesis hash_range : forall s, is_u64 (hash s).

Definition register_op (k : NameKind) : string -> GlobalData -> option (Z * GlobalData) :=
  match k with
  | KNode => RegisterNode hash
  | KChannel => RegisterChannel hash
  | KService => RegisterService hash
  | KTask => RegisterTaskName hash
  end.

Definition name_by_id (k : NameKind) : Z -> GlobalData -> string :=
  match k with
  | KNode => GetNodeById
  | KChannel => GetChannelById
  | KService => GetServiceById
  | KTask => GetTaskNameById
  end.

(** A sequence of registrations, with the identifiers they returned. *)
Fixpoint register_all (os : list (NameKind * string)) (gd : GlobalData)
    : option (list Z * GlobalData) :=
  match os with
  | [] => Some ([], gd)
  | (k, name) :: os' =>
      '(i, gd1) ← register_op k name gd;
      '(is_, gd2) ← register_all os' gd1;
      Some (i :: is_, gd2)
  end.

Definition log_of (k : NameKind) (log : list (NameKind * string * Z)) : list (string * Z) :=
  (fun e => (e.1.2, e.2)) <$> filter (fun e => e.1.1 = k) log.

Lemma length_log_of k log : (length (log_of k log) <= length log)%nat.
Proof. unfold log_of. rewrite length_fmap. apply length_filter. Qed.

Lemma elem_log_of k log name i : (name, i) ∈ log_of k log <-> (k, name, i) ∈ log.
Proof.
  unfold log_of. rewrite list_elem_of_fmap. setoid_rewrite list_elem_of_filter. split.
  - intros ([[k' n] i'] & [= -> ->] & He & Hin). cbn in He. by subst.
  - intros Hin. by exists (k, name, i).
Qed.

Definition gd_ok (gd : GlobalData) (log : list (NameKind * string * Z)) : Prop :=
  forall k, reg_ok hash (table_size_of k) (map_of k gd) (log_of k log).

Lemma table_size_ok k : 0 < table_size_of k < two64.
Proof. by destruct k. Qed.

Lemma gd_ok_new : gd_ok gd_new [].
Proof. intros k. pose proof (reg_ok_new hash _ (table_size_ok k)). by destruct k. Qed.

Lemma register_op_spec k name gd :
  match Register hash (table_size_of k) name (map_of k gd) with
  | Some (i, m) => exists gd', register_op k name gd = Some (i, gd') /\ map_of k gd' = m /\
      forall k', k' <> k -> map_of k' gd' = map_of k' gd
  | None => True
  end.
Proof.
  destruct (Register _ _ _ _) as [[i m]|] eqn:E; [|done].
  destruct k; cbn [register_op table_size_of map_of] in *;
    unfold RegisterNode, RegisterChannel, RegisterService, RegisterTaskName; rewrite E;
    (eexists; split; [done|]; split; [done|]; by intros []).
Qed.

Lemma register_op_ok k name gd log :
  gd_ok gd log -> Z.of_nat (length log) < two64 ->
  exists i gd', register_op k name gd = Some (i, gd') /\ gd_ok gd' ((k, name, i) :: log) /\
    forall i', (k, name, i') ∈ log -> i' = i.
Proof.
  intros Hok Hlt. 
  assert (Hlt' : Z.of_nat (length (log_of k log)) < two64) by (pose proof (length_log_of k log); lia).
  destruct (Register_ok hash _ hash_range (table_size_ok k) name _ _ (Hok k) Hlt')
    as (i & m' & HR & Hm' & Huniq).
  pose proof (register_op_spec k name gd) as Hs. rewrite HR in Hs.
  destruct Hs as (gd' & -> & <- & Hother). exists i, gd'. split; [done|]. split.
  - intros k'. unfold log_of. rewrite filter_cons. cbn [fst snd]. case_decide as Hd; [by subst|].
    rewrite Hother by congruence. apply Hok.
  - intros i' Hin. apply Huniq. by apply elem_log_of.
Qed.

Lemma name_by_id_ok k name i gd log :
  gd_ok gd log -> (k, name, i) ∈ log -> name_by_id k i gd = name.
Proof.
  intros Hok Hin. apply elem_log_of in Hin. destruct (ro_home _ _ _ _ (Hok k) _ _ Hin) as [Hg _].
  destruct k; cbn in *; unfold GetNodeById, GetChannelById, GetServiceById, GetTaskNameById, GetById;
    by rewrite Hg.
Qed.

Lemma register_all_ok os gd log :
  gd_ok gd log -> Z.of_nat (length log + length os) < two64 ->
  exists ids gd' log', register_all os gd = Some (ids, gd') /\ gd_ok gd' (log' ++ log) /\
    log' = reverse (zip_with pair os ids) /\ length ids = length os /\
    forall k name i, (k, name, i) ∈ zip_with pair os ids ->
      (forall i', (k, name, i') ∈ log -> i' = i) /\
      (forall i', (k, name, i') ∈ zip_with pair os ids -> i' = i).
Proof.
  revert gd log. induction os as [|[k name] os IH]; intros gd log Hok Hlt.
  { exists [], gd, []. split_and!; try done. by intros k name i ?%elem_of_nil. }
  cbn [length] in Hlt. destruct (register_op_ok k name gd log Hok ltac:(lia)) as (i & gd1 & HR & Hok1 & Hu).
  destruct (IH gd1 _ Hok1) as (ids & gd2 & log' & Hall & Hok2 & Hlog & Hlen & Huniq); [cbn; lia|].
  exists (i :: ids), gd2, (log' ++ [(k, name, i)]). cbn [register_all]. rewrite HR. cbn.
  rewrite Hall. cbn. split_and!; [done| | |lia|].
  - by rewrite <- app_assoc.
  - rewrite Hlog. symmetry. apply (reverse_cons (zip_with pair os ids)).
  - intros k0 name0 i0 [[= -> -> ->]|Hin]%elem_of_cons.
    + split; [done|]. intros i' [[= <-]|Hin']%elem_of_cons; [done|].
      symmetry. apply (Huniq _ _ _ Hin'). set_solver.
    + destruct (Huniq _ _ _ Hin) as [H1 H2]. split; [intros; apply H1; set_solver|].
      intros i' [[= -> -> ->]|Hin']%elem_of_cons; [apply H1; set_solver|auto].
Qed.

(** C40: any sequence of fewer than 2^64 registrations, one after the other, ends with an identifier for each; afterwards
    each identifier still names what it was registered for, and two registrations of one
    kind got the same identifier exactly when they were of the same name, whatever the
    collisions of the hash. *)
Theorem registry_roundtrip (os : list (NameKind * string)) :
  Z.of_nat (length os) < two64 ->
  exists ids gd, register_all os gd_new = Some (ids, gd) /\ length ids = length os /\
    (forall n k name i, os !! n = Some (k, name) -> ids !! n = Some i -> name_by_id k i gd = name) /\
    (forall n n' k name name' i i', os !! n = Some (k, name) -> ids !! n = Some i ->
       os !! n' = Some (k, name') -> ids !! n' = Some i' -> (i = i' <-> name = name')).
Proof.
  intros Hlt. destruct (register_all_ok os gd_new [] gd_ok_new Hlt)
    as (ids & gd & log & Hall & Hok & -> & Hlen & Hu).
  rewrite app_nil_r in Hok.
  assert (Hz : forall n k name i, os !! n = Some (k, name) -> ids !! n = Some i ->
            (k, name, i) ∈ zip_with pair os ids).
  { intros n k name i H1 H2. apply elem_of_lookup_zip_with. by exists n, (k, name), i. }
  assert (Hn : forall n k name i, os !! n = Some (k, name) -> ids !! n = Some i ->
            name_by_id k i gd = name).
  { intros n k name i H1 H2. eapply name_by_id_ok; [exact Hok|].
    rewrite elem_of_reverse. by eapply Hz. }
  exists ids, gd. split_and!; try done.
  intros n n' k name name' i i' H1 H2 H3 H4. split.
  - intros <-. rewrite <- (Hn _ _ _ _ H1 H2). by eapply Hn.
  - intros <-. symmetry. eapply (Hu _ _ _ (Hz _ _ _ _ H1 H2)). by eapply Hz.
Qed.

End sequences.

(** A hash under which every name collides. *)
Definition worst_hash (s : string) : Z := two64 - 1.

Definition four_names : list (NameKind * string) :=
  [(KChannel, "/a"); (KChannel, "/b"); (KChannel, "/a"); (KNode, "/a")].

Lemma registry_roundtrip_witness :
  exists ids gd, register_all worst_hash four_names gd_new = Some (ids, gd) /\
    (forall i, ids !! 1%nat = Some i -> name_by_id KChannel i gd = "/b").
Proof.
  destruct (registry_roundtrip worst_hash ltac:(done) four_names ltac:(done))
    as (ids & gd & Hr & _ & Hn & _).
  exists ids, gd. split; [exact Hr|]. intros i. exact (Hn 1%nat KChannel "/b" i eq_refl).
Defined.

Example four_ids :
  fst <$> register_all worst_hash four_names gd_new = Some [two64 - 1; 0; two64 - 1; two64 - 1].
Proof. vm_compute. reflexivity. Qed.
