(* ===== verification/DataFlow.v ===== *)
(** * DataFlow: from a dispatched message to the visitors

    Models [cyber/data/data_notifier.h], [cyber/data/data_dispatcher.h],
    [cyber/data/fusion/all_latest.h] and the constructors and [TryFetch] of
    [cyber/data/data_visitor.h].  Buffers and notifiers are shared objects in the
    source; here they live in a store under numbers, and the maps of the two
    singletons hold the numbers.  A weak pointer whose object is gone is a number
    without an entry.  [DataDispatcher<T>] is one singleton for each message type
    [T]: [dispatchers] has one map for each type number.  The specialisations of
    [AllLatest] and [DataVisitor] for two, three and four message types differ only
    in the number of secondary channels, which is a list here. *)

From S2P Require Import Prelude Interfaces CacheBuffer.

Section data_flow.
Context {M : Type} `{!Inhabited M}.
Context {Map : Type -> Type} `{!KeyMap Map, !KeyMapLaws Map}.

(** The tuple [FusionDataType]: the primary message and the secondary ones. *)
Definition fused : Type := M * list M.
#[local] Instance fused_inhabited : Inhabited fused := populate (inhabitant, []).

(** An [AllLatest] object: its secondary buffers and its own buffer of tuples. *)
Record AllLatest := mkAL { secondary : list nat; buffer_fusion_ : CacheBuffer fused }.

Record world := mkW {
  buffers : gmap nat (CacheBuffer M);
  fusions : gmap nat AllLatest;             (* by the number of the primary buffer *)
  dispatchers : gmap nat (Map (list nat));  (* DataDispatcher<T>::buffers_map_ *)
  notifies_map_ : Map (list nat);           (* DataNotifier::notifies_map_ *)
  callbacks : gset nat;                     (* notifiers whose callback is set *)
  next_id : nat;                            (* numbers handed out so far *)
  is_shutdown : bool;
}.

Definition world_init : world := mkW ∅ ∅ ∅ km_empty ∅ 0 false.

(** ** DataNotifier *)

Definition AddNotifier (channel_id : Z) (notifier : nat) (w : world) : world :=
  let old := match km_get channel_id (notifies_map_ w) with Some l => l | None => [] end in
  mkW (buffers w) (fusions w) (dispatchers w)
      (km_set channel_id (old ++ [notifier]) (notifies_map_ w))
      (callbacks w) (next_id w) (is_shutdown w).

(** [Notify]: the result and the notifiers whose callback is called, in order. *)
Definition Notify (channel_id : Z) (w : world) : bool * list nat :=
  match km_get channel_id (notifies_map_ w) with
  | Some l => (true, filter (fun n => n ∈ callbacks w) l)
  | None => (false, [])
  end.

(** [DataVisitorBase::RegisterNotifyCallback]. *)
Definition RegisterNotifyCallback (notifier : nat) (w : world) : world :=
  mkW (buffers w) (fusions w) (dispatchers w) (notifies_map_ w)
      ({[notifier]} ∪ callbacks w) (next_id w) (is_shutdown w).

(** ** DataDispatcher *)

Definition dispatcher (ty : nat) (w : world) : Map (list nat) :=
  default km_empty (dispatchers w !! ty).

Definition AddBuffer (ty : nat) (channel_id : Z) (buffer : nat) (w : world) : world :=
  let old := match km_get channel_id (dispatcher ty w) with Some l => l | None => [] end in
  mkW (buffers w) (fusions w)
      (<[ty := km_set channel_id (old ++ [buffer]) (dispatcher ty w)]> (dispatchers w))
      (notifies_map_ w) (callbacks w) (next_id w) (is_shutdown w).

Definition set_buffer (id : nat) (b : CacheBuffer M) (w : world) : world :=
  mkW (<[id := b]> (buffers w)) (fusions w) (dispatchers w) (notifies_map_ w)
      (callbacks w) (next_id w) (is_shutdown w).
Definition set_fusion (id : nat) (a : AllLatest) (w : world) : world :=
  mkW (buffers w) (<[id := a]> (fusions w)) (dispatchers w) (notifies_map_ w)
      (callbacks w) (next_id w) (is_shutdown w).

(** The newest message of each secondary buffer, or nothing if one has none. *)
Definition latest_all (ids : list nat) (w : world) : option (list M) :=
  mapM (fun id => buffers w !! id ≫= Latest) ids.

(** The callback [AllLatest] sets on its primary buffer. *)
Definition fusion_callback (id : nat) (m0 : M) (w : world) : world :=
  match fusions w !! id with
  | Some a =>
      match latest_all (secondary a) w with
      | Some ms => set_fusion id (mkAL (secondary a) (fst (Fill (m0, ms) (buffer_fusion_ a)))) w
      | None => w
      end
  | None => w
  end.

(** The body of the loop of [Dispatch]. *)
Definition fill_buffer (msg : M) (w : world) (id : nat) : world :=
  match buffers w !! id with
  | Some b =>
      match Fill msg b with
      | (b', None) => set_buffer id b' w
      | (_, Some m0) => fusion_callback id m0 w
      end
  | None => w
  end.

(** [Dispatch]: the result, the notifiers called and the new world. *)
Definition Dispatch (ty : nat) (channel_id : Z) (msg : M) (w : world) : bool * list nat * world :=
  if is_shutdown w then (false, [], w)
  else match km_get channel_id (dispatcher ty w) with
       | Some ids =>
           let w' := fold_left (fill_buffer msg) ids w in
           (Notify channel_id w', w')
       | None => (false, [], w)
       end.

(** ** DataVisitor *)

Record VisitorConfig := mkVC { vc_type : nat; vc_channel : Z; vc_queue_size : Z }.

(** [v_ids] are the visitor's buffers, the primary one first. *)
Record DataVisitor := mkDV { v_ids : list nat; v_notifier : nat; v_next : Z }.

(** Construct one [ChannelBuffer] and register it. *)
Definition add_channel (c : VisitorConfig) (w : world) : nat * world :=
  let id := next_id w in
  let w := mkW (<[id := cb_new (vc_queue_size c)]> (buffers w)) (fusions w) (dispatchers w)
               (notifies_map_ w) (callbacks w) (S id) (is_shutdown w) in
  (id, AddBuffer (vc_type c) (vc_channel c) id w).

Fixpoint add_channels (cs : list VisitorConfig) (w : world) : list nat * world :=
  match cs with
  | [] => ([], w)
  | c :: cs' =>
      let '(id, w) := add_channel c w in
      let '(ids, w) := add_channels cs' w in (id :: ids, w)
  end.

(** The constructor of [AllLatest]: its buffer is as large as the primary one. *)
Definition make_fusion (id0 : nat) (others : list nat) (w : world) : world :=
  match buffers w !! id0 with
  | Some b =>
      set_fusion id0 (mkAL others (cb_new (wrap_u64 (capacity_ b - 1))))
        (set_buffer id0 (SetFusionCallback b) w)
  | None => w
  end.

(** The constructors: the buffers, one notifier on the primary channel, and the
    fusion when there is more than one channel. *)
Definition make_visitor (c0 : VisitorConfig) (cs : list VisitorConfig) (w : world)
    : DataVisitor * world :=
  let '(ids, w) := add_channels (c0 :: cs) w in
  let n := next_id w in
  let w := mkW (buffers w) (fusions w) (dispatchers w) (notifies_map_ w)
               (callbacks w) (S n) (is_shutdown w) in
  let w := AddNotifier (vc_channel c0) n w in
  let w := match ids with
           | id0 :: ((_ :: _) as others) => make_fusion id0 others w
           | _ => w
           end in
  (mkDV ids n 0, w).

(** [TryFetch] of a visitor on one channel, and of one on several. *)
Definition visitor_fetch (v : DataVisitor) (w : world) : option (M * list M * DataVisitor) :=
  match v_ids v with
  | [] => None
  | [id] =>
      match buffers w !! id ≫= TryFetch (v_next v) with
      | Some (m, n) => Some (m, [], mkDV (v_ids v) (v_notifier v) n)
      | None => None
      end
  | id0 :: _ =>
      match fusions w !! id0 ≫= fun a => TryFetch (v_next v) (buffer_fusion_ a) with
      | Some ((m0, ms), n) => Some (m0, ms, mkDV (v_ids v) (v_notifier v) n)
      | None => None
      end
  end.

(** ** Invariant: every registered number was handed out, and once *)

Record world_wf (w : world) : Prop := {
  ww_maps : forall ty, km_wf (dispatcher ty w);
  ww_notif : km_wf (notifies_map_ w);
  ww_ids : forall ty ch l, is_u64 ch -> km_get ch (dispatcher ty w) = Some l ->
    NoDup l /\ Forall (fun id => (id < next_id w)%nat) l;
}.

(** ** The loop of Dispatch *)

(** What a step of the loop leaves alone. *)
Record same_registry (w w' : world) : Prop := {
  sr_dispatchers : dispatchers w' = dispatchers w;
  sr_notifies : notifies_map_ w' = notifies_map_ w;
  sr_callbacks : callbacks w' = callbacks w;
  sr_next : next_id w' = next_id w;
}.

#[local] Instance same_registry_po : PreOrder same_registry.
Proof. split; [intros w; by split|intros w1 w2 w3 [] []; split; congruence]. Qed.

Lemma fill_buffer_registry msg w id : same_registry w (fill_buffer msg w id).
Proof. unfold fill_buffer, fusion_callback. repeat case_match; by split. Qed.

Lemma fill_buffer_lookup msg w id j :
  buffers (fill_buffer msg w id) !! j =
    if decide (j = id) then (fun b => fst (Fill msg b)) <$> buffers w !! j else buffers w !! j.
Proof.
  unfold fill_buffer, fusion_callback. case_decide as Hj.
  - subst j. destruct (buffers w !! id) as [b|] eqn:Hb; [|by rewrite Hb].
    assert (Hf : match snd (Fill msg b) with Some _ => fst (Fill msg b) = b | None => True end)
      by (unfold Fill; by repeat case_if).
    cbn [fmap option_fmap option_map]. destruct (Fill msg b) as [b' [m0|]]; simpl in *.
    + subst b'. by repeat case_match.
    + by rewrite lookup_insert_eq.
  - destruct (buffers w !! id) as [b|]; [|done]. destruct (Fill msg b) as [b' [m0|]].
    + destruct (fusions w !! id) as [a|]; [|done]. by destruct (latest_all _ _).
    + simpl. by rewrite lookup_insert_ne.
Qed.

Lemma fill_buffer_fusions_ne msg w id j :
  j <> id -> fusions (fill_buffer msg w id) !! j = fusions w !! j.
Proof.
  intros Hj. unfold fill_buffer, fusion_callback. destruct (buffers w !! id) as [b|]; [|done].
  destruct (Fill msg b) as [b' [m0|]]; [|done].
  destruct (fusions w !! id) as [a|]; [|done]. destruct (latest_all _ _); [|done].
  simpl. by rewrite lookup_insert_ne.
Qed.

Lemma fill_loop_registry msg ids w : same_registry w (fold_left (fill_buffer msg) ids w).
Proof.
  revert w. induction ids as [|id ids IH]; intros w; simpl; [done|].
  etrans; [apply fill_buffer_registry|apply IH].
Qed.

Lemma fill_loop_lookup msg ids w j :
  NoDup ids ->
  buffers (fold_left (fill_buffer msg) ids w) !! j =
    if decide (j ∈ ids) then (fun b => fst (Fill msg b)) <$> buffers w !! j else buffers w !! j.
Proof.
  revert w. induction ids as [|id ids IH]; intros w Hnd; cbn [fold_left].
  - rewrite decide_False; [done|]. by intros ?%elem_of_nil.
  - apply NoDup_cons in Hnd as [Hid Hnd]. rewrite IH by done. rewrite fill_buffer_lookup.
    destruct (decide (j = id)) as [->|].
    + rewrite decide_False by done. rewrite decide_True by set_solver. done.
    + destruct (decide (j ∈ ids)); [rewrite decide_True by set_solver|rewrite decide_False by set_solver]; done.
Qed.

Lemma fill_loop_fusions_ne msg ids w j :
  j ∉ ids -> fusions (fold_left (fill_buffer msg) ids w) !! j = fusions w !! j.
Proof.
  revert w. induction ids as [|id ids IH]; intros w Hj; simpl; [done|].
  rewrite IH by set_solver. apply fill_buffer_fusions_ne. set_solver.
Qed.

Lemma latest_all_ext ids w w' :
  (forall id, id ∈ ids -> buffers w' !! id = buffers w !! id) ->
  latest_all ids w' = latest_all ids w.
Proof.
  intros H. unfold latest_all. induction ids as [|id ids IH]; [done|]. simpl.
  rewrite H by set_solver. rewrite IH; [done|]. intros; apply H; set_solver.
Qed.

(** The fusion of a primary buffer of the channel: run exactly once, on the
    secondary buffers as they were. *)
Lemma fill_loop_fusion msg ids w id0 b a :
  NoDup ids -> id0 ∈ ids -> buffers w !! id0 = Some b -> fusion_callback_ b = true ->
  fusions w !! id0 = Some a -> (forall s, s ∈ secondary a -> s ∉ ids) ->
  fusions (fold_left (fill_buffer msg) ids w) !! id0 =
    match latest_all (secondary a) w with
    | Some ms => Some (mkAL (secondary a) (fst (Fill (msg, ms) (buffer_fusion_ a))))
    | None => Some a
    end.
Proof.
  intros Hnd Hin Hb Hcb Ha Hsec. apply list_elem_of_split in Hin as (l1 & l2 & ->).
  apply NoDup_app in Hnd as (Hnd1 & Hdisj & [Hni Hnd2]%NoDup_cons).
  assert (Hn1 : id0 ∉ l1) by (intros ?; eapply Hdisj; [done|set_solver]).
  rewrite fold_left_app. simpl. set (w1 := fold_left (fill_buffer msg) l1 w).
  rewrite fill_loop_fusions_ne by done.
  assert (Hb1 : buffers w1 !! id0 = Some b) by (subst w1; rewrite fill_loop_lookup, decide_False by done; done).
  assert (Ha1 : fusions w1 !! id0 = Some a) by (subst w1; rewrite fill_loop_fusions_ne by done; done).
  unfold fill_buffer. rewrite Hb1. unfold Fill at 1. rewrite Hcb. unfold fusion_callback. rewrite Ha1.
  rewrite (latest_all_ext _ w w1).
  - destruct (latest_all (secondary a) w); [simpl; by rewrite lookup_insert_eq|done].
  - intros s Hs. subst w1. rewrite fill_loop_lookup, decide_False; [done| |done].
    intros ?. apply (Hsec s Hs). set_solver.
Qed.

(** C19: [Dispatch] puts the message into every live buffer registered for the channel
    and type, exactly once, touches no other buffer, and reports and calls what
    [Notify] does for the channel; it does nothing and reports false when the process
    is shutting down or nobody registered. *)
Theorem dispatch_delivers (ty : nat) (ch : Z) (msg : M) (w : world)
    (Hw : world_wf w) (Hch : is_u64 ch) :
  match is_shutdown w, km_get ch (dispatcher ty w) with
  | false, Some ids =>
      let '(ok, called, w') := Dispatch ty ch msg w in
      (ok, called) = Notify ch w /\
      forall id, buffers w' !! id =
        (fun b => if decide (id ∈ ids) then fst (Fill msg b) else b) <$> buffers w !! id
  | _, _ => Dispatch ty ch msg w = (false, [], w)
  end.
Proof.
  unfold Dispatch. destruct (is_shutdown w); [done|].
  destruct (km_get ch (dispatcher ty w)) as [ids|] eqn:Hg; [|done].
  destruct (ww_ids _ Hw ty ch ids Hch Hg) as [Hnd _].
  pose proof (fill_loop_registry msg ids w) as [_ Hn Hc _].
  destruct (Notify ch _) as [ok called] eqn:HN. split.
  - rewrite <- HN. unfold Notify. by rewrite Hn, Hc.
  - intros id. rewrite fill_loop_lookup by done.
    destruct (decide (id ∈ ids)); by destruct (buffers w !! id).
Qed.

(** A buffer of the store after the messages [h]. *)
Definition holds_id (w : world) (id : nat) (h : list M) : Prop :=
  exists size b, buffers w !! id = Some b /\ holds size h b.

Lemma holds_Latest size (h : list M) b : holds size h b -> Latest b = last h.
Proof.
  intros Hb. unfold Latest. rewrite (held_Empty size h b Hb).
  destruct (decide (h = [])) as [->|Hne]; [done|]. rewrite bool_decide_eq_false_2 by done.
  rewrite last_lookup. rewrite <- Nat.sub_1_r. symmetry. by apply (held_last size).
Qed.

Lemma latest_all_holds w ids hs :
  Forall2 (holds_id w) ids hs -> latest_all ids w = mapM last hs.
Proof.
  unfold latest_all. induction 1 as [|id h ids hs (size & b & Hb & Hh) _ IH]; [done|].
  simpl. rewrite Hb. simpl. rewrite (holds_Latest size h b Hh). by rewrite IH.
Qed.

(** A message on the primary channel of a fused visitor is fused with the newest
    message of every secondary channel, and with nothing when one of them has none
    yet. *)
Theorem fusion_all_latest (ty : nat) (ch : Z) (msg : M) (w : world)
    (ids : list nat) (id0 : nat) (b : CacheBuffer M) (a : AllLatest)
    (size : Z) (fh : list fused) (hs : list (list M))
    (Hw : world_wf w) (Hch : is_u64 ch) (Hup : is_shutdown w = false)
    (Hreg : km_get ch (dispatcher ty w) = Some ids) (Hin : id0 ∈ ids)
    (Hb : buffers w !! id0 = Some b) (Hcb : fusion_callback_ b = true)
    (Ha : fusions w !! id0 = Some a) (Hsec : forall s, s ∈ secondary a -> s ∉ ids)
    (Hf : holds size fh (buffer_fusion_ a)) (Hroom : Z.of_nat (length fh) + 1 < two64 - 1)
    (Hhs : Forall2 (holds_id w) (secondary a) hs) :
  exists a', fusions (Dispatch ty ch msg w).2 !! id0 = Some a' /\ secondary a' = secondary a /\
    holds size (match mapM last hs with Some ms => fh ++ [(msg, ms)] | None => fh end)
          (buffer_fusion_ a').
Proof.
  destruct (ww_ids _ Hw ty ch ids Hch Hreg) as [Hnd _].
  unfold Dispatch. rewrite Hup, Hreg. cbn [snd].
  rewrite (fill_loop_fusion msg ids w id0 b a) by done.
  rewrite (latest_all_holds w _ hs Hhs).
  destruct (mapM last hs) as [ms|]; eexists; (split; [reflexivity|]); (split; [done|]); simpl; [|done].
  by apply holds_fill.
Qed.

(** ** Constructing visitors *)

Lemma world_init_wf : world_wf world_init.
Proof.
  split; simpl; unfold dispatcher; simpl.
  - intros ty. rewrite lookup_empty. apply km_empty_wf.
  - apply km_empty_wf.
  - intros ty ch l Hch. rewrite lookup_empty. simpl. by rewrite km_get_empty.
Qed.

Lemma dispatcher_AddBuffer ty ch id w ty' ch' :
  world_wf w -> is_u64 ch -> is_u64 ch' ->
  km_get ch' (dispatcher ty' (AddBuffer ty ch id w)) =
    if decide (ty' = ty /\ ch' = ch) then Some (default [] (km_get ch (dispatcher ty w)) ++ [id])
    else km_get ch' (dispatcher ty' w).
Proof.
  intros Hw Hch Hch'. unfold AddBuffer, dispatcher at 1. cbn [dispatchers].
  rewrite lookup_insert. case_decide as Ht; simpl.
  - subst ty'. rewrite km_get_set by (done || apply Hw). case_decide; case_decide; naive_solver.
  - rewrite decide_False by naive_solver. done.
Qed.

Lemma AddBuffer_wf ty ch id w :
  world_wf w -> is_u64 ch -> (id < next_id w)%nat ->
  (forall ty ch l, is_u64 ch -> km_get ch (dispatcher ty w) = Some l -> id ∉ l) ->
  world_wf (AddBuffer ty ch id w).
Proof.
  intros Hw Hch Hid Hfresh. split; cbn [AddBuffer notifies_map_ next_id].
  - intros ty'. unfold AddBuffer, dispatcher at 1. cbn [dispatchers]. rewrite lookup_insert.
    case_decide; [|apply Hw]. apply km_set_wf; [done|apply Hw].
  - apply Hw.
  - intros ty' ch' l Hch'. rewrite dispatcher_AddBuffer by done. case_decide; [|by apply Hw].
    intros [= <-]. destruct (km_get ch (dispatcher ty w)) as [l|] eqn:Hl; simpl.
    + destruct (ww_ids _ Hw ty ch l Hch Hl). specialize (Hfresh ty ch l Hch Hl). split.
      * apply NoDup_app. split_and!; [done|set_solver|apply NoDup_singleton].
      * apply Forall_app. split; [done|]. by constructor.
    + split; [apply NoDup_singleton|by constructor].
Qed.

(** A number not handed out yet is registered nowhere. *)
Lemma next_id_fresh w ty ch l :
  world_wf w -> is_u64 ch -> km_get ch (dispatcher ty w) = Some l -> next_id w ∉ l.
Proof.
  intros Hw Hch Hl Hin. destruct (ww_ids _ Hw ty ch l Hch Hl) as [_ Hf].
  rewrite Forall_forall in Hf. specialize (Hf _ Hin). lia.
Qed.

Lemma same_dispatchers_wf w w' :
  world_wf w -> dispatchers w' = dispatchers w -> (next_id w <= next_id w')%nat ->
  km_wf (notifies_map_ w') -> world_wf w'.
Proof.
  intros Hw Hd Hn Hm. assert (He : forall ty, dispatcher ty w' = dispatcher ty w)
    by (intros; unfold dispatcher; by rewrite Hd).
  split; [intros; rewrite He; apply Hw|done|]. intros ty ch l Hch. rewrite He. intros Hl.
  destruct (ww_ids _ Hw ty ch l Hch Hl) as [? Hf]. split; [done|].
  eapply Forall_impl; [exact Hf|]. simpl. lia.
Qed.

Lemma add_channel_wf c w : is_u64 (vc_channel c) -> world_wf w -> world_wf (add_channel c w).2.
Proof.
  intros Hch Hw. unfold add_channel. cbn [snd].
  match goal with |- world_wf (AddBuffer _ _ _ ?w1) => set (w1' := w1) end.
  assert (world_wf w1') by (apply (same_dispatchers_wf w); [done|done|simpl; lia|apply Hw]).
  apply AddBuffer_wf; [done|done|simpl; lia|].
  intros ty ch l Hc Hl. by apply (next_id_fresh w ty ch l).
Qed.

Lemma add_channels_wf cs w :
  Forall (fun c => is_u64 (vc_channel c)) cs -> world_wf w -> world_wf (add_channels cs w).2.
Proof.
  intros Hcs. revert w. induction Hcs as [|c cs Hc _ IH]; intros w Hw; [done|]. cbn [add_channels].
  destruct (add_channel c w) as [id w1] eqn:H1. pose proof (add_channel_wf c w Hc Hw) as Hw1.
  rewrite H1 in Hw1. specialize (IH w1 Hw1). by destruct (add_channels cs w1).
Qed.

Lemma make_visitor_wf c0 cs w :
  Forall (fun c => is_u64 (vc_channel c)) (c0 :: cs) -> world_wf w ->
  world_wf (make_visitor c0 cs w).2.
Proof.
  intros Hcs Hw. pose proof (add_channels_wf (c0 :: cs) w Hcs Hw) as Hw1.
  apply Forall_cons in Hcs as [Hc0 _]. unfold make_visitor.
  destruct (add_channels (c0 :: cs) w) as [ids w1]. cbn [snd] in *.
  assert (Hw2 : world_wf (AddNotifier (vc_channel c0) (next_id w1)
     (mkW (buffers w1) (fusions w1) (dispatchers w1) (notifies_map_ w1) (callbacks w1)
          (S (next_id w1)) (is_shutdown w1)))).
  { apply (same_dispatchers_wf w1); [done|done|simpl; lia|]. apply km_set_wf; [done|apply Hw1]. }
  destruct ids as [|id0 [|id1 ids]]; [done|done|]. unfold make_fusion.
  case_match; [|done]. apply (same_dispatchers_wf _ _ Hw2); [done|simpl; lia|apply Hw2].
Qed.

(** What constructing a reader of one channel registers. *)
Lemma make_visitor_single c w :
  world_wf w -> is_u64 (vc_channel c) ->
  let id := next_id w in
  let w1 := (make_visitor c [] w).2 in
  (make_visitor c [] w).1 = mkDV [id] (S id) 0 /\
  buffers w1 !! id = Some (cb_new (vc_queue_size c)) /\ is_shutdown w1 = is_shutdown w /\
  (exists l, km_get (vc_channel c) (dispatcher (vc_type c) w1) = Some (l ++ [id])) /\
  (exists l, km_get (vc_channel c) (notifies_map_ w1) = Some (l ++ [S id])).
Proof.
  intros Hw Hch. unfold make_visitor, add_channels, add_channel. cbn -[AddBuffer].
  match goal with |- context [AddBuffer _ _ _ ?w1] => set (w1' := w1) end.
  assert (world_wf w1') by (apply (same_dispatchers_wf w); [done|done|simpl; lia|apply Hw]).
  split_and!; [done|apply lookup_insert_eq|done| |].
  - exists (default [] (km_get (vc_channel c) (dispatcher (vc_type c) w1'))).
    pose proof (dispatcher_AddBuffer (vc_type c) (vc_channel c) (next_id w) w1' (vc_type c) (vc_channel c)) as Hd.
    rewrite decide_True in Hd by done. by apply Hd.
  - eexists. rewrite km_get_set_eq by (done || apply Hw). reflexivity.
Qed.

(** C28: End to end: a reader created on a channel, with any queue size, fetches the next
    message dispatched on that channel and type, and its notifier is among those called
    once its callback is set. *)
Theorem publish_then_fetch (c : VisitorConfig) (w : world) (msg : M)
    (Hw : world_wf w) (Hup : is_shutdown w = false) (Hch : is_u64 (vc_channel c))
    (Hq : 0 <= vc_queue_size c < two64 - 1) :
  let '(v, w1) := make_visitor c [] w in
  let w2 := RegisterNotifyCallback (v_notifier v) w1 in
  let '(ok, called, w3) := Dispatch (vc_type c) (vc_channel c) msg w2 in
  ok = true /\ v_notifier v ∈ called /\
  exists v', visitor_fetch v w3 = Some (msg, [], v').
Proof.
  pose proof (make_visitor_wf c [] w ltac:(by constructor) Hw) as Hw1.
  destruct (make_visitor_single c w Hw Hch) as (Hv & Hb & Hs & [l Hd] & [ln Hn]).
  destruct (make_visitor c [] w) as [v w1]. cbn [fst snd] in *. subst v. cbn [v_notifier].
  set (w2 := RegisterNotifyCallback _ _).
  assert (Hd2 : km_get (vc_channel c) (dispatcher (vc_type c) w2) = Some (l ++ [next_id w])) by done.
  destruct (ww_ids _ Hw1 _ _ _ Hch Hd) as [Hnd _].
  unfold Dispatch. change (is_shutdown w2) with (is_shutdown w1). rewrite Hs, Hup, Hd2.
  pose proof (fill_loop_registry msg (l ++ [next_id w]) w2) as [_ Hn3 Hc3 _].
  unfold Notify. rewrite Hn3, Hc3. change (notifies_map_ w2) with (notifies_map_ w1). rewrite Hn.
  split; [done|]. split.
  { apply list_elem_of_filter. split; [simpl; set_solver|set_solver]. }
  unfold visitor_fetch. cbn [v_ids v_next]. rewrite fill_loop_lookup, decide_True by (done || set_solver).
  change (buffers w2) with (buffers w1). rewrite Hb. simpl.
  pose proof (holds_fill (vc_queue_size c) [] _ (holds_new _ Hq) msg ltac:(done)) as Hh.
  unfold TryFetch. rewrite (held_Fetch _ _ _ Hh) by (simpl; lia).
  rewrite decide_False by (intros [?|?]; [simpl in *; lia|done]).
  rewrite decide_True by lia. eexists. do 3 f_equal.
  pose proof (held_last _ _ _ Hh ltac:(done)) as Hl. rewrite (h_tail _ _ _ Hh) in Hl.
  simpl in Hl. by injection Hl.
Qed.

End data_flow.
Arguments world _ _ : clear implicits.
Arguments fused : clear implicits.
Arguments AllLatest : clear implicits.

(** ** Witnesses, on the hash map of cyber/base *)

From S2P Require Import AtomicHashMap.

(** A reader of channel 5 fused with channel 9, both of type 0; message 3 is on
    channel 9. *)
Definition demo_world : world nat AtomicHashMap :=
  (Dispatch 0 9 3%nat (make_visitor (mkVC 0 5 2) [mkVC 0 9 2] world_init).2).2.

Lemma demo_world_wf : world_wf demo_world.
Proof.
  assert (Hw : world_wf (make_visitor (mkVC 0 5 2) [mkVC 0 9 2] (world_init : world nat AtomicHashMap)).2).
  { apply make_visitor_wf; [repeat constructor; vm_compute; congruence|apply world_init_wf]. }
  apply (same_dispatchers_wf _ _ Hw); vm_compute; try reflexivity.
  split; [reflexivity|]. repeat constructor.
Qed.

Lemma dispatch_delivers_witness :
  let '(ok, called, w') := Dispatch 0 5 4%nat demo_world in
  (ok, called) = Notify 5 demo_world /\
  forall id, buffers w' !! id =
    (fun b => if decide (id ∈ [0%nat]) then fst (Fill 4%nat b) else b) <$> buffers demo_world !! id.
Proof.
  exact (dispatch_delivers 0 5 4%nat demo_world demo_world_wf ltac:(done)).
Defined.

Lemma publish_then_fetch_witness :
  let '(v, w1) := make_visitor (mkVC 0 5 2) [] demo_world in
  let '(ok, called, w3) := Dispatch 0 5 4%nat (RegisterNotifyCallback (v_notifier v) w1) in
  ok = true /\ v_notifier v ∈ called /\ exists v', visitor_fetch v w3 = Some (4%nat, [], v').
Proof.
  exact (publish_then_fetch (mkVC 0 5 2) demo_world 4%nat demo_world_wf eq_refl ltac:(done) ltac:(done)).
Defined.

Lemma fusion_all_latest_witness :
  exists a', fusions (Dispatch 0 5 4%nat demo_world).2 !! 0%nat = Some a' /\ secondary a' = [1%nat] /\
    holds 2 [(4%nat, [3%nat])] (buffer_fusion_ a').
Proof.
  apply (fusion_all_latest 0 5 4%nat demo_world [0%nat] 0 (SetFusionCallback (cb_new 2))
    (mkAL [1%nat] (cb_new 2)) 2 [] [[3%nat]]).
  - exact demo_world_wf.
  - done.
  - done.
  - vm_compute; reflexivity.
  - set_solver.
  - vm_compute; reflexivity.
  - done.
  - vm_compute; reflexivity.
  - set_solver.
  - by apply holds_new.
  - done.
  - constructor; [|constructor]. exists 2, (fst (Fill 3%nat (cb_new 2))).
    split; [vm_compute; reflexivity|].
    apply (holds_fill 2 [] (cb_new 2)); [by apply holds_new|done].
Defined.
