(* ===== verification/Role.v ===== *)
(** * Role: the roles of the topology, their quality of service and their matching

    Models [cyber/service_discovery/role/role.{h,cc}] and the part of
    [proto::RoleAttributes] that is read anywhere (its [socket_addr] and
    [communication_priority] are not).  An optional proto
    field is an [option]; its getter returns the proto default when it is absent. *)

From S2P Require Import Prelude.

(** ** The quality of service, [cyber/proto/qos_profile.proto] and [cyber/transport/qos/qos_profile_conf.{h,cc}] *)

Inductive QosHistoryPolicy := HISTORY_SYSTEM_DEFAULT | HISTORY_KEEP_LAST | HISTORY_KEEP_ALL.
Inductive QosReliabilityPolicy := RELIABILITY_SYSTEM_DEFAULT | RELIABILITY_RELIABLE | RELIABILITY_BEST_EFFORT.
Inductive QosDurabilityPolicy := DURABILITY_SYSTEM_DEFAULT | DURABILITY_TRANSIENT_LOCAL | DURABILITY_VOLATILE.

#[export] Instance QosHistoryPolicy_eq_dec : EqDecision QosHistoryPolicy.
Proof. solve_decision. Defined.
#[export] Instance QosReliabilityPolicy_eq_dec : EqDecision QosReliabilityPolicy.
Proof. solve_decision. Defined.
#[export] Instance QosDurabilityPolicy_eq_dec : EqDecision QosDurabilityPolicy.
Proof. solve_decision. Defined.

(** The fields are optional; the getters below give the defaults of the message. *)
Record QosProfile := mkQos {
  q_history : option QosHistoryPolicy;
  q_depth : option Z;
  q_mps : option Z;
  q_reliability : option QosReliabilityPolicy;
  q_durability : option QosDurabilityPolicy;
}.

#[export] Instance QosProfile_eq_dec : EqDecision QosProfile.
Proof. solve_decision. Defined.

(** A profile with nothing set, which is what the getter of an absent one returns. *)
Definition no_qos : QosProfile := mkQos None None None None None.

Definition qos_history (q : QosProfile) : QosHistoryPolicy := default HISTORY_KEEP_LAST (q_history q).
Definition qos_depth (q : QosProfile) : Z := default 1 (q_depth q).
Definition qos_durability (q : QosProfile) : QosDurabilityPolicy := default DURABILITY_VOLATILE (q_durability q).

Definition CreateQosProfile (history : QosHistoryPolicy) (depth mps : Z) (reliability : QosReliabilityPolicy)
    (durability : QosDurabilityPolicy) : QosProfile :=
  mkQos (Some history) (Some depth) (Some mps) (Some reliability) (Some durability).

Definition QOS_HISTORY_DEPTH_SYSTEM_DEFAULT : Z := 0.
Definition QOS_MPS_SYSTEM_DEFAULT : Z := 0.

Definition QOS_PROFILE_DEFAULT : QosProfile :=
  CreateQosProfile HISTORY_KEEP_LAST 1 QOS_MPS_SYSTEM_DEFAULT RELIABILITY_RELIABLE DURABILITY_VOLATILE.
Definition QOS_PROFILE_SENSOR_DATA : QosProfile :=
  CreateQosProfile HISTORY_KEEP_LAST 5 QOS_MPS_SYSTEM_DEFAULT RELIABILITY_BEST_EFFORT DURABILITY_VOLATILE.
Definition QOS_PROFILE_PARAMETERS : QosProfile :=
  CreateQosProfile HISTORY_KEEP_LAST 1000 QOS_MPS_SYSTEM_DEFAULT RELIABILITY_RELIABLE DURABILITY_VOLATILE.
Definition QOS_PROFILE_SERVICES_DEFAULT : QosProfile :=
  CreateQosProfile HISTORY_KEEP_LAST 10 QOS_MPS_SYSTEM_DEFAULT RELIABILITY_RELIABLE DURABILITY_TRANSIENT_LOCAL.
Definition QOS_PROFILE_PARAM_EVENT : QosProfile :=
  CreateQosProfile HISTORY_KEEP_LAST 1000 QOS_MPS_SYSTEM_DEFAULT RELIABILITY_RELIABLE DURABILITY_VOLATILE.
Definition QOS_PROFILE_SYSTEM_DEFAULT : QosProfile :=
  CreateQosProfile HISTORY_SYSTEM_DEFAULT QOS_HISTORY_DEPTH_SYSTEM_DEFAULT QOS_MPS_SYSTEM_DEFAULT
    RELIABILITY_RELIABLE DURABILITY_TRANSIENT_LOCAL.
Definition QOS_PROFILE_TF_STATIC : QosProfile :=
  CreateQosProfile HISTORY_KEEP_ALL 10 QOS_MPS_SYSTEM_DEFAULT RELIABILITY_RELIABLE DURABILITY_TRANSIENT_LOCAL.
Definition QOS_PROFILE_TOPO_CHANGE : QosProfile :=
  CreateQosProfile HISTORY_KEEP_ALL 10 QOS_MPS_SYSTEM_DEFAULT RELIABILITY_RELIABLE DURABILITY_TRANSIENT_LOCAL.

(** ** Roles *)

Record RoleAttributes := mkRoleAttr {
  host_name : option string;
  process_id : option Z;
  node_name : option string;
  node_id : option Z;
  channel_name : option string;
  channel_id : option Z;
  message_type : option string;
  proto_desc : option string;
  id : option Z;
  service_name : option string;
  service_id : option Z;
  host_ip : option string;
  qos_profile : option QosProfile;
}.

(** Attributes without an address and a profile. *)
Abbreviation mkAttr host pid node nid chan cid mtype desc i srv sid :=
  (mkRoleAttr host pid node nid chan cid mtype desc i srv sid None None).

Definition no_attr : RoleAttributes :=
  mkAttr None None None None None None None None None None None.

#[export] Instance RoleAttributes_eq_dec : EqDecision RoleAttributes.
Proof. solve_decision. Defined.

(** The proto getters. *)
Definition str_of (f : option string) : string := default "" f.
Definition int_of (f : option Z) : Z := default 0 f.

(** [RoleNode] is [RoleBase], [RoleReader] is [RoleWriter] and [RoleClient] is
    [RoleServer]. *)
Inductive RoleKind := RoleBase | RoleWriter | RoleServer.

#[export] Instance RoleKind_eq_dec : EqDecision RoleKind.
Proof. solve_decision. Defined.

Record Role := mkRole {
  kind : RoleKind;
  attributes_ : RoleAttributes;
  timestamp_ns_ : Z;
}.

#[export] Instance Role_eq_dec : EqDecision Role.
Proof. solve_decision. Defined.

(** [target.has_f() && target.f() != mine.f()] *)
Definition field_differs {A} `{!EqDecision A} (dflt : A) (target mine : option A) : bool :=
  match target with
  | Some t => negb (bool_decide (t = default dflt mine))
  | None => false
  end.

Definition RoleBase_Match (target mine : RoleAttributes) : bool :=
  if field_differs 0 (node_id target) (node_id mine) then false
  else if field_differs 0 (process_id target) (process_id mine) then false
  else if field_differs "" (host_name target) (host_name mine) then false
  else true.

Definition RoleWriter_Match (target mine : RoleAttributes) : bool :=
  if field_differs 0 (channel_id target) (channel_id mine) then false
  else if field_differs 0 (id target) (id mine) then false
  else RoleBase_Match target mine.

Definition RoleServer_Match (target mine : RoleAttributes) : bool :=
  if field_differs 0 (service_id target) (service_id mine) then false
  else RoleBase_Match target mine.

(** [role->Match(target_attr)], the virtual method. *)
Definition Match (r : Role) (target : RoleAttributes) : bool :=
  match kind r with
  | RoleBase => RoleBase_Match target (attributes_ r)
  | RoleWriter => RoleWriter_Match target (attributes_ r)
  | RoleServer => RoleServer_Match target (attributes_ r)
  end.

Definition IsEarlierThan (r other : Role) : bool := timestamp_ns_ r <? timestamp_ns_ other.

(** ** Facts *)

(** A role whose own fields are all set matches itself only on equal fields; any
    role matches its own attributes. *)
Lemma field_differs_self {A} `{!EqDecision A} (d : A) f : field_differs d f f = false.
Proof. destruct f; simpl; [|done]. by rewrite bool_decide_eq_true_2. Qed.

Lemma Match_self r : Match r (attributes_ r) = true.
Proof.
  unfold Match, RoleWriter_Match, RoleServer_Match, RoleBase_Match.
  destruct (kind r); by rewrite !field_differs_self.
Qed.

#[export] Hint Resolve Match_self : cyber.

Lemma field_differs_false {A} `{!EqDecision A} (d : A) t f :
  field_differs d (Some t) f = false <-> default d f = t.
Proof.
  simpl. rewrite negb_false_iff, bool_decide_eq_true. naive_solver.
Qed.

(** A target of a process (host name and process number only) matches exactly the
    roles of that process. *)
Lemma Match_process r h p :
  Match r (mkAttr (Some h) (Some p) None None None None None None None None None) = true <->
  str_of (host_name (attributes_ r)) = h /\ int_of (process_id (attributes_ r)) = p.
Proof.
  unfold Match, RoleWriter_Match, RoleServer_Match, RoleBase_Match, str_of, int_of.
  cbn [node_id process_id host_name channel_id id service_id].
  rewrite <- !field_differs_false. cbn [field_differs].
  destruct (kind r); repeat case_if; naive_solver.
Qed.

(** Whoever matches a target with a host name and a process number is of that process. *)
Lemma Match_host_pid r a h p :
  host_name a = Some h -> process_id a = Some p -> Match r a = true ->
  str_of (host_name (attributes_ r)) = h /\ int_of (process_id (attributes_ r)) = p.
Proof.
  unfold Match, RoleWriter_Match, RoleServer_Match, RoleBase_Match, str_of, int_of.
  intros -> -> Hm. rewrite <- !field_differs_false.
  destruct (kind r); repeat case_if; naive_solver.
Qed.
