(* ===== verification/Warehouse.v ===== *)
(** * Warehouse: what the role containers promise

    The interface [cyber/service_discovery/container/warehouse_base.h] as a class:
    the operations, an abstract content (a bag of keyed roles) and the laws by
    which the operations act on it.  [multi] tells a container that keeps several
    roles under a key from one that keeps the last.  The iteration order of the
    unordered containers is not part of the promise: contents are compared up to
    permutation.  Output pointers are never null here. *)

From S2P Require Import Prelude Role.

Abbreviation entry := (Z * Role)%type.

(** ** The abstract container: a bag of entries *)

Definition has_key (k : Z) (l : list entry) : bool := existsb (fun e => fst e =? k) l.
Definition keep_other (k : Z) (l : list entry) : list entry := filter (fun e => fst e <> k) l.

(** [Add]: without [ignore_if_exist] an existing key is refused. *)
Definition spec_Add (multi ignore_if_exist : bool) (k : Z) (r : Role) (l : list entry)
    : bool * list entry :=
  if negb ignore_if_exist && has_key k l then (false, l)
  else (true, (k, r) :: if multi then l else keep_other k l).

Definition spec_Remove_key (k : Z) (l : list entry) : list entry := keep_other k l.

Definition spec_Remove_role (k : Z) (target : RoleAttributes) (l : list entry) : list entry :=
  filter (fun e => ~ (fst e = k /\ Match (snd e) target = true)) l.

Definition spec_Remove_attr (target : RoleAttributes) (l : list entry) : list entry :=
  filter (fun e => Match (snd e) target = false) l.

Definition spec_Search_key (k : Z) (l : list entry) : list Role :=
  (filter (fun e => fst e = k) l).*2.

Definition spec_Search_attr (target : RoleAttributes) (l : list entry) : list Role :=
  (filter (fun e => Match (snd e) target = true) l).*2.

Definition nonempty {A} (l : list A) : bool := match l with [] => false | _ => true end.

(** The virtual methods of [WarehouseBase], its overloads told apart by what they
    search by and what they write. *)
Class Warehouse (W : Type) := {
  multi : bool;
  entries : W -> list entry;
  w_empty : W;
  w_Add : Z -> Role -> bool -> W -> bool * W;
  w_Clear : W -> W;
  w_Size : W -> nat;
  w_Remove_key : Z -> W -> W;
  w_Remove_role : Z -> Role -> W -> W;
  w_Remove_attr : RoleAttributes -> W -> W;
  w_Search_key : Z -> W -> bool;
  w_Search_key_role : Z -> W -> option Role;
  w_Search_key_role_attr : Z -> W -> option RoleAttributes;
  w_Search_key_roles : Z -> list Role -> W -> bool * list Role;
  w_Search_key_roles_attr : Z -> list RoleAttributes -> W -> bool * list RoleAttributes;
  w_Search_attr : RoleAttributes -> W -> bool;
  w_Search_attr_role : RoleAttributes -> W -> option Role;
  w_Search_attr_role_attr : RoleAttributes -> W -> option RoleAttributes;
  w_Search_attr_roles : RoleAttributes -> list Role -> W -> bool * list Role;
  w_Search_attr_roles_attr :
    RoleAttributes -> list RoleAttributes -> W -> bool * list RoleAttributes;
  w_GetAllRoles : list Role -> W -> list Role;
  w_GetAllRoles_attr : list RoleAttributes -> W -> list RoleAttributes;
}.

(** A family of [Search] overloads finds [found]: the answer, the first role, and the
    vectors extended by the found roles. *)
Definition finds (found : list Role) (ok : bool) (first : option Role)
    (first_attr : option RoleAttributes) (roles : list Role -> bool * list Role)
    (attrs : list RoleAttributes -> bool * list RoleAttributes) : Prop :=
  ok = nonempty found /\
  match first with Some r => r ∈ found | None => found = [] end /\
  first_attr = attributes_ <$> first /\
  exists m, m ≡ₚ found /\ forall out aout,
    roles out = (nonempty m, out ++ m) /\
    attrs aout = (nonempty m, aout ++ (attributes_ <$> m)).

Class WarehouseLaws (W : Type) `{!Warehouse W} := {
  wl_empty : entries (w_empty : W) = [];
  wl_single : multi = false -> forall w : W, NoDup (entries w).*1;
  wl_Add : forall k r ign (w : W),
    (w_Add k r ign w).1 = (spec_Add multi ign k r (entries w)).1 /\
    entries (w_Add k r ign w).2 ≡ₚ (spec_Add multi ign k r (entries w)).2;
  wl_Clear : forall w : W, entries (w_Clear w) = [];
  wl_Size : forall w : W, w_Size w = length (entries w);
  wl_Remove_key : forall k (w : W), entries (w_Remove_key k w) ≡ₚ spec_Remove_key k (entries w);
  wl_Remove_role : forall k r (w : W),
    entries (w_Remove_role k r w) ≡ₚ spec_Remove_role k (attributes_ r) (entries w);
  wl_Remove_attr : forall a (w : W), entries (w_Remove_attr a w) ≡ₚ spec_Remove_attr a (entries w);
  wl_Search_key : forall k (w : W),
    finds (spec_Search_key k (entries w)) (w_Search_key k w) (w_Search_key_role k w)
      (w_Search_key_role_attr k w) (fun out => w_Search_key_roles k out w)
      (fun out => w_Search_key_roles_attr k out w);
  wl_Search_attr : forall a (w : W),
    finds (spec_Search_attr a (entries w)) (w_Search_attr a w) (w_Search_attr_role a w)
      (w_Search_attr_role_attr a w) (fun out => w_Search_attr_roles a out w)
      (fun out => w_Search_attr_roles_attr a out w);
  wl_GetAllRoles : forall w : W, exists m, m ≡ₚ (entries w).*2 /\ forall out aout,
    w_GetAllRoles out w = out ++ m /\ w_GetAllRoles_attr aout w = aout ++ (attributes_ <$> m);
}.

(** ** The loops over the entries

    The loops [for (auto& item : roles_)] of the two containers, over their entries
    in iteration order. *)

(** The first matching role. *)
Fixpoint first_match (target : RoleAttributes) (items : list entry) : option Role :=
  match items with
  | [] => None
  | item :: items' => if Match (snd item) target then Some (snd item) else first_match target items'
  end.

(** The matching roles, each passed through [get] and appended to [out]; [find] tells
    whether there was one. *)
Fixpoint collect {A} (get : Role -> A) (keep : entry -> bool) (items : list entry)
    (find : bool) (out : list A) : bool * list A :=
  match items with
  | [] => (find, out)
  | item :: items' =>
      if keep item then collect get keep items' true (out ++ [get (snd item)])
      else collect get keep items' find out
  end.

Lemma collect_spec {A} (get : Role -> A) keep items find out :
  collect get keep items find out =
  (let found := (filter (fun e => keep e = true) items).*2 in
   (find || nonempty found, out ++ (get <$> found))).
Proof.
  revert find out. induction items as [|i items IH]; intros find out; cbn [collect].
  - by rewrite orb_false_r, app_nil_r.
  - rewrite !IH, filter_cons. cbv zeta. destruct (keep i) eqn:E.
    + rewrite decide_True by done. cbn. rewrite orb_true_r. by rewrite <- app_assoc.
    + by rewrite decide_False.
Qed.

Lemma filter_true {A} (l : list A) : filter (fun _ => true = true) l = l.
Proof. induction l as [|x l IH]; [done|]. by rewrite filter_cons, IH. Qed.

Lemma collect_all {A} (get : Role -> A) l out :
  (collect get (fun _ => true) l false out).2 = out ++ (get <$> l.*2).
Proof. rewrite collect_spec. cbn [snd]. by rewrite filter_true. Qed.
Lemma first_match_Some a items r :
  first_match a items = Some r -> r ∈ items.*2 /\ Match r a = true.
Proof.
  induction items as [|i items IH]; cbn; [done|]. case_if; [|set_solver].
  intros [= <-]. set_solver.
Qed.

Lemma first_match_None a items : first_match a items = None -> spec_Search_attr a items = [].
Proof.
  unfold spec_Search_attr. induction items as [|i items IH]; cbn [first_match]; [done|].
  case_if; [done|]. intros. rewrite filter_cons, decide_False by congruence. auto.
Qed.

Lemma nonempty_perm {A} (l l' : list A) : l ≡ₚ l' -> nonempty l = nonempty l'.
Proof.
  intros Hp. destruct l, l'; [done| | |done].
  - by apply Permutation_nil_cons in Hp.
  - by apply Permutation_sym, Permutation_nil_cons in Hp.
Qed.

(** The loops of a family of overloads. *)
Lemma collect_finds found ok first first_attr keep items :
  (filter (fun e => keep e = true) items).*2 ≡ₚ found ->
  match first with Some r => r ∈ found | None => found = [] end ->
  ok = match first with Some _ => true | None => false end ->
  first_attr = attributes_ <$> first ->
  finds found ok first first_attr (collect (fun r => r) keep items false)
    (collect attributes_ keep items false).
Proof.
  intros Hp Hf -> ->. split; [|split; [done|split; [done|]]].
  { destruct first; [|by subst]. destruct found; [set_solver|done]. }
  exists ((filter (fun e => keep e = true) items).*2). split; [done|].
  intros out aout. rewrite !collect_spec. cbn. by rewrite list_fmap_id.
Qed.

Lemma first_match_finds a items :
  match first_match a items with
  | Some r => r ∈ spec_Search_attr a items
  | None => spec_Search_attr a items = []
  end.
Proof.
  destruct (first_match a items) as [r|] eqn:E.
  - apply first_match_Some in E. unfold spec_Search_attr. rewrite list_elem_of_fmap.
    destruct E as [Hin Hm]. apply list_elem_of_fmap in Hin as (e & -> & Hin).
    exists e. split; [done|]. by apply list_elem_of_filter.
  - by apply first_match_None.
Qed.

(** ** Membership in the abstract results *)

Lemma elem_spec_Search_key k l r : r ∈ spec_Search_key k l <-> (k, r) ∈ l.
Proof.
  unfold spec_Search_key. rewrite list_elem_of_fmap. setoid_rewrite list_elem_of_filter.
  split; [intros ([k' r'] & -> & Hk & Hin); simpl in *; by subst|intros; by exists (k, r)].
Qed.

Lemma elem_spec_Search_attr a l r :
  r ∈ spec_Search_attr a l <-> r ∈ l.*2 /\ Match r a = true.
Proof.
  unfold spec_Search_attr. rewrite !list_elem_of_fmap. setoid_rewrite list_elem_of_filter.
  naive_solver.
Qed.

Lemma has_key_spec k l : has_key k l = true <-> exists r, (k, r) ∈ l.
Proof.
  unfold has_key. rewrite existsb_exists. setoid_rewrite Z.eqb_eq. setoid_rewrite list_elem_of_In.
  split; [intros ([k' r] & Hin & <-); by exists r|intros [r Hin]; by exists (k, r)].
Qed.

(** The abstract operations do not depend on the order of the entries. *)
#[export] Instance has_key_perm k : Proper ((≡ₚ) ==> (=)) (has_key k).
Proof.
  intros l l' Hp. apply Bool.eq_true_iff_eq. rewrite !has_key_spec. by setoid_rewrite Hp.
Qed.

#[export] Instance spec_Search_key_perm k : Proper ((≡ₚ) ==> (≡ₚ)) (spec_Search_key k).
Proof. intros l l' Hp. unfold spec_Search_key. by rewrite Hp. Qed.

#[export] Instance spec_Search_attr_perm a : Proper ((≡ₚ) ==> (≡ₚ)) (spec_Search_attr a).
Proof. intros l l' Hp. unfold spec_Search_attr. by rewrite Hp. Qed.

#[export] Instance spec_Remove_key_perm k : Proper ((≡ₚ) ==> (≡ₚ)) (spec_Remove_key k).
Proof. intros l l' Hp. unfold spec_Remove_key, keep_other. by rewrite Hp. Qed.

#[export] Instance spec_Remove_role_perm k a : Proper ((≡ₚ) ==> (≡ₚ)) (spec_Remove_role k a).
Proof. intros l l' Hp. unfold spec_Remove_role. by rewrite Hp. Qed.

Lemma elem_keep_other k l e : e ∈ keep_other k l <-> e ∈ l /\ fst e <> k.
Proof. unfold keep_other. rewrite list_elem_of_filter. tauto. Qed.

Lemma elem_spec_Remove_role k a l e :
  e ∈ spec_Remove_role k a l <-> e ∈ l /\ ~ (fst e = k /\ Match (snd e) a = true).
Proof. unfold spec_Remove_role. rewrite list_elem_of_filter. tauto. Qed.

Lemma spec_Search_key_nil k l : has_key k l = false -> spec_Search_key k l = [].
Proof.
  intros H. destruct (spec_Search_key k l) as [|r l'] eqn:E; [done|].
  assert (has_key k l = true); [|congruence].
  apply has_key_spec. exists r. apply elem_spec_Search_key. rewrite E. set_solver.
Qed.

Lemma filter_iff_perm {A} (P Q : A -> Prop) `{!forall x, Decision (P x), !forall x, Decision (Q x)}
    (l : list A) : (forall x, P x <-> Q x) -> filter P l ≡ₚ filter Q l.
Proof. intros HPQ. by rewrite (list_filter_iff P Q l HPQ). Qed.

#[export] Instance spec_Remove_attr_perm a : Proper ((≡ₚ) ==> (≡ₚ)) (spec_Remove_attr a).
Proof. intros l l' Hp. unfold spec_Remove_attr. by rewrite Hp. Qed.

#[export] Instance keep_other_perm k : Proper ((≡ₚ) ==> (≡ₚ)) (keep_other k).
Proof. intros l l' Hp. unfold keep_other. by rewrite Hp. Qed.

Lemma spec_Add_perm m ign k r l l' :
  l ≡ₚ l' ->
  (spec_Add m ign k r l).1 = (spec_Add m ign k r l').1 /\
  (spec_Add m ign k r l).2 ≡ₚ (spec_Add m ign k r l').2.
Proof.
  intros Hp. unfold spec_Add. rewrite (has_key_perm k l l' Hp).
  case_if; [done|]. split; [done|]. cbn. destruct m; by rewrite Hp.
Qed.

(** ** Sequences of operations *)

Inductive wop :=
| OAdd (k : Z) (r : Role) (ignore_if_exist : bool)
| ORemove_key (k : Z)
| ORemove_role (k : Z) (r : Role)
| ORemove_attr (a : RoleAttributes)
| OClear.

(** One operation on the bag, with the answer of an [Add]. *)
Definition spec_step (m : bool) (o : wop) (l : list entry) : bool * list entry :=
  match o with
  | OAdd k r ign => spec_Add m ign k r l
  | ORemove_key k => (true, spec_Remove_key k l)
  | ORemove_role k r => (true, spec_Remove_role k (attributes_ r) l)
  | ORemove_attr a => (true, spec_Remove_attr a l)
  | OClear => (true, [])
  end.

Fixpoint spec_run (m : bool) (os : list wop) (l : list entry) : list bool * list entry :=
  match os with
  | [] => ([], l)
  | o :: os' =>
      let '(b, l1) := spec_step m o l in
      let '(bs, l2) := spec_run m os' l1 in (b :: bs, l2)
  end.

(** Filtering by conditions that agree on the elements. *)
Lemma filter_iff_in {A} (P Q : A -> Prop) `{!forall x, Decision (P x), !forall x, Decision (Q x)}
    (l : list A) : (forall x, x ∈ l -> P x <-> Q x) -> filter P l = filter Q l.
Proof.
  induction l as [|x l IH]; intros HPQ; [done|]. rewrite !filter_cons.
  destruct (decide (P x)) as [HP|HP]; destruct (decide (Q x)) as [HQ|HQ].
  - f_equal. apply IH. set_solver.
  - destruct HQ. apply HPQ; [set_solver|done].
  - destruct HP. apply HPQ; [set_solver|done].
  - apply IH. set_solver.
Qed.

Section refine.
Context {W : Type} `{!Warehouse W, !WarehouseLaws W}.

Definition w_step (o : wop) (w : W) : bool * W :=
  match o with
  | OAdd k r ign => w_Add k r ign w
  | ORemove_key k => (true, w_Remove_key k w)
  | ORemove_role k r => (true, w_Remove_role k r w)
  | ORemove_attr a => (true, w_Remove_attr a w)
  | OClear => (true, w_Clear w)
  end.

Fixpoint w_run (os : list wop) (w : W) : list bool * W :=
  match os with
  | [] => ([], w)
  | o :: os' =>
      let '(b, w1) := w_step o w in
      let '(bs, w2) := w_run os' w1 in (b :: bs, w2)
  end.

Lemma w_step_refines o w l :
  entries w ≡ₚ l ->
  (w_step o w).1 = (spec_step multi o l).1 /\
  entries (w_step o w).2 ≡ₚ (spec_step multi o l).2.
Proof.
  intros Hp. destruct o as [k r ign|k|k r|a|]; cbn.
  - destruct (wl_Add k r ign w) as [H1 H2], (spec_Add_perm multi ign k r _ _ Hp) as [H3 H4].
    by rewrite H1, H2.
  - by rewrite wl_Remove_key, Hp.
  - by rewrite wl_Remove_role, Hp.
  - by rewrite wl_Remove_attr, Hp.
  - by rewrite wl_Clear.
Qed.

(** Any sequence of operations gives the answers and the content of the bag. *)
Lemma w_run_refines os w l :
  entries w ≡ₚ l ->
  (w_run os w).1 = (spec_run multi os l).1 /\
  entries (w_run os w).2 ≡ₚ (spec_run multi os l).2.
Proof.
  revert w l. induction os as [|o os IH]; intros w l Hp; [done|]. cbn.
  destruct (w_step_refines o w l Hp) as [H1 H2].
  destruct (w_step o w) as [b w1], (spec_step multi o l) as [b' l1]. cbn in H1, H2.
  destruct (IH w1 l1 H2) as [H3 H4].
  destruct (w_run os w1), (spec_run multi os l1). cbn in *. by subst.
Qed.

Lemma finds_perm found found' ok first first_attr roles attrs :
  found ≡ₚ found' ->
  finds found ok first first_attr roles attrs -> finds found' ok first first_attr roles attrs.
Proof.
  intros Hp (Hok & Hf & Ha & m & Hm & Hv). split; [|split; [|split]]; [| |done|].
  - rewrite Hok. apply nonempty_perm, Hp.
  - destruct first; [by rewrite <- Hp|]. subst. by apply Permutation_nil_l in Hp.
  - exists m. by rewrite Hm.
Qed.

(** After any sequence of operations every method answers as on the bag. *)
Lemma warehouse_refines os :
  let w := (w_run os w_empty).2 in
  let l := (spec_run multi os []).2 in
  (w_run os w_empty).1 = (spec_run multi os []).1 /\
  w_Size w = length l /\
  (forall k, finds (spec_Search_key k l) (w_Search_key k w) (w_Search_key_role k w)
      (w_Search_key_role_attr k w) (fun out => w_Search_key_roles k out w)
      (fun out => w_Search_key_roles_attr k out w)) /\
  (forall a, finds (spec_Search_attr a l) (w_Search_attr a w) (w_Search_attr_role a w)
      (w_Search_attr_role_attr a w) (fun out => w_Search_attr_roles a out w)
      (fun out => w_Search_attr_roles_attr a out w)) /\
  (exists m, m ≡ₚ l.*2 /\ forall out aout,
    w_GetAllRoles out w = out ++ m /\ w_GetAllRoles_attr aout w = aout ++ (attributes_ <$> m)).
Proof.
  intros w l.
  assert (He : entries (w_empty : W) ≡ₚ []) by by rewrite wl_empty.
  destruct (w_run_refines os w_empty [] He) as [H1 H2]. fold w l in H2.
  split; [done|]. split; [by rewrite wl_Size, H2|]. split; [|split].
  - intros k. eapply finds_perm; [|apply wl_Search_key]. by rewrite H2.
  - intros a. eapply finds_perm; [|apply wl_Search_attr]. by rewrite H2.
  - destruct (wl_GetAllRoles w) as (m & Hm & Ho). exists m. by rewrite Hm, H2.
Qed.

(** Removing the keys of all roles that satisfy a condition, where a key has one role. *)
Lemma remove_keys (key : Role -> Z) (p : Role -> bool) (w : W) (L : list Role) :
  NoDup (entries w).*1 -> (forall k r, (k, r) ∈ entries w -> key r = k) ->
  L ≡ₚ filter (fun r => p r = true) (entries w).*2 ->
  entries (foldl (fun w r => w_Remove_key (key r) w) w L) ≡ₚ filter (fun e => p e.2 = false) (entries w).
Proof.
  intros Hnd Hkey HL.
  assert (Hfold : forall (w' : W), entries (foldl (fun w r => w_Remove_key (key r) w) w' L) ≡ₚ
            filter (fun e => e.1 ∉ key <$> L) (entries w')).
  { clear HL. induction L as [|r L IH]; intros w'; cbn [foldl].
    - rewrite (filter_iff_in _ (fun _ => true = true)); [by rewrite filter_true|].
      intros e _. split; [done|]. intros _. apply not_elem_of_nil.
    - rewrite IH, wl_Remove_key. unfold spec_Remove_key, keep_other. rewrite list_filter_filter.
      apply filter_iff_perm. intros e. rewrite fmap_cons, not_elem_of_cons. tauto. }
  rewrite Hfold. rewrite (filter_iff_in _ (fun e => p e.2 = false)); [done|]. intros [k r] Hin. cbn. split.
  - intros Hn. apply not_true_is_false. intros Hp. apply Hn. apply list_elem_of_fmap.
    exists r. split; [symmetry; by apply Hkey|]. rewrite HL, list_elem_of_filter. split; [done|].
    apply list_elem_of_fmap. by exists (k, r).
  - intros Hp [r' [-> Hr']]%list_elem_of_fmap. rewrite HL in Hr'. apply list_elem_of_filter in Hr' as [Hp' Hr'].
    apply list_elem_of_fmap in Hr' as ([k'' r''] & -> & Hin'). cbn in *.
    rewrite (Hkey _ _ Hin') in Hin. assert (r = r'') as ->; [|congruence].
    apply list_elem_of_lookup in Hin as [i Hi]. apply list_elem_of_lookup in Hin' as [j Hj].
    assert (i = j) as <-; [|congruence].
    eapply (NoDup_lookup _ _ _ k'' Hnd); rewrite list_lookup_fmap; by rewrite ?Hi, ?Hj.
Qed.

(** The search by the attributes of a process. *)
Lemma search_attr_perm a (w : W) :
  (w_Search_attr_roles a [] w).2 ≡ₚ filter (fun r => Match r a = true) (entries w).*2.
Proof.
  destruct (wl_Search_attr a w) as (_ & _ & _ & m & Hm & Ho). destruct (Ho [] []) as [-> _]. cbn.
  rewrite Hm. unfold spec_Search_attr. clear. induction (entries w) as [|e l IH]; [done|].
  rewrite fmap_cons, !filter_cons. case_decide; [|done]. rewrite fmap_cons. by constructor.
Qed.

End refine.
