(* ===== verification/MultiValueWarehouse.v ===== *)
(** * MultiValueWarehouse: several roles under a key

    Models [cyber/service_discovery/container/multi_value_warehouse.{h,cc}].  The
    [unordered_multimap] is the list of its entries in iteration order, in which the
    entries of a key are adjacent; where a new key goes is unspecified, and nothing
    below depends on it beyond the order of the results.  An overload that returns
    [true] and writes one role returns it as [Some]. *)

From S2P Require Import Prelude Role Warehouse.

Module MultiValue.

Record MultiValueWarehouse := mkMV { roles_ : list entry }.

(** [roles_.insert]: behind the last entry of its key. *)
Fixpoint multimap_insert (k : Z) (r : Role) (l : list entry) : list entry :=
  match l with
  | [] => [(k, r)]
  | e :: l' =>
      if (fst e =? k) && negb (has_key k l') then e :: (k, r) :: l'
      else e :: multimap_insert k r l'
  end.

Fixpoint multimap_find (k : Z) (l : list entry) : option Role :=
  match l with
  | [] => None
  | e :: l' => if fst e =? k then Some (snd e) else multimap_find k l'
  end.

(** The loop of the erasing [Remove]s: [erase(it)] or [++it]. *)
Fixpoint erase_if (p : entry -> bool) (l : list entry) : list entry :=
  match l with
  | [] => []
  | e :: l' => if p e then erase_if p l' else e :: erase_if p l'
  end.

Definition in_range (k : Z) (e : entry) : bool := fst e =? k.

Definition Add (key : Z) (role : Role) (ignore_if_exist : bool) (w : MultiValueWarehouse)
    : bool * MultiValueWarehouse :=
  if negb ignore_if_exist && bool_decide (is_Some (multimap_find key (roles_ w))) then (false, w)
  else (true, mkMV (multimap_insert key role (roles_ w))).

Definition Clear (w : MultiValueWarehouse) : MultiValueWarehouse := mkMV [].
Definition Size (w : MultiValueWarehouse) : nat := length (roles_ w).

Definition Remove_key (key : Z) (w : MultiValueWarehouse) : MultiValueWarehouse :=
  mkMV (erase_if (in_range key) (roles_ w)).

Definition Remove_role (key : Z) (role : Role) (w : MultiValueWarehouse) : MultiValueWarehouse :=
  mkMV (erase_if (fun it => in_range key it && Match (snd it) (attributes_ role)) (roles_ w)).

Definition Remove_attr (target_attr : RoleAttributes) (w : MultiValueWarehouse)
    : MultiValueWarehouse :=
  mkMV (erase_if (fun it => Match (snd it) target_attr) (roles_ w)).

Definition Search_key_role (key : Z) (w : MultiValueWarehouse) : option Role :=
  multimap_find key (roles_ w).

Definition Search_key (key : Z) (w : MultiValueWarehouse) : bool :=
  match Search_key_role key w with Some _ => true | None => false end.

Definition Search_key_role_attr (key : Z) (w : MultiValueWarehouse) : option RoleAttributes :=
  match Search_key_role key w with
  | Some role => Some (attributes_ role)
  | None => None
  end.

Definition Search_key_roles (key : Z) (matched_roles : list Role) (w : MultiValueWarehouse)
    : bool * list Role :=
  collect (fun r => r) (in_range key) (roles_ w) false matched_roles.

Definition Search_key_roles_attr (key : Z) (matched_roles_attr : list RoleAttributes)
    (w : MultiValueWarehouse) : bool * list RoleAttributes :=
  collect attributes_ (in_range key) (roles_ w) false matched_roles_attr.

Definition Search_attr_role (target_attr : RoleAttributes) (w : MultiValueWarehouse)
    : option Role :=
  first_match target_attr (roles_ w).

Definition Search_attr (target_attr : RoleAttributes) (w : MultiValueWarehouse) : bool :=
  match Search_attr_role target_attr w with Some _ => true | None => false end.

Definition Search_attr_role_attr (target_attr : RoleAttributes) (w : MultiValueWarehouse)
    : option RoleAttributes :=
  match Search_attr_role target_attr w with
  | Some role => Some (attributes_ role)
  | None => None
  end.

Definition Search_attr_roles (target_attr : RoleAttributes) (matched_roles : list Role)
    (w : MultiValueWarehouse) : bool * list Role :=
  collect (fun r => r) (fun item => Match (snd item) target_attr) (roles_ w) false matched_roles.

Definition Search_attr_roles_attr (target_attr : RoleAttributes)
    (matched_roles_attr : list RoleAttributes) (w : MultiValueWarehouse)
    : bool * list RoleAttributes :=
  collect attributes_ (fun item => Match (snd item) target_attr) (roles_ w) false
    matched_roles_attr.

Definition GetAllRoles (roles : list Role) (w : MultiValueWarehouse) : list Role :=
  (collect (fun r => r) (fun _ => true) (roles_ w) false roles).2.

Definition GetAllRoles_attr (roles_attr : list RoleAttributes) (w : MultiValueWarehouse)
    : list RoleAttributes :=
  (collect attributes_ (fun _ => true) (roles_ w) false roles_attr).2.

(** ** The multimap *)

Lemma multimap_insert_perm k r l : multimap_insert k r l ≡ₚ (k, r) :: l.
Proof.
  induction l as [|e l IH]; cbn; [done|].
  case_if; [apply Permutation_swap|]. rewrite IH. apply Permutation_swap.
Qed.

Lemma multimap_find_Some k l r : multimap_find k l = Some r -> (k, r) ∈ l.
Proof.
  induction l as [|[k' r'] l IH]; cbn; [done|]. case_if; [|set_solver].
  intros [= <-]. subst. set_solver.
Qed.

Lemma multimap_find_None k l : multimap_find k l = None <-> has_key k l = false.
Proof.
  unfold has_key. induction l as [|[k' r'] l IH]; cbn; [done|]. by case_if.
Qed.

Lemma multimap_find_is_Some k l :
  bool_decide (is_Some (multimap_find k l)) = has_key k l.
Proof.
  destruct (has_key k l) eqn:E.
  - apply bool_decide_eq_true. destruct (multimap_find k l) eqn:F; [by eexists|].
    apply multimap_find_None in F. congruence.
  - apply multimap_find_None in E. by rewrite E.
Qed.

Lemma erase_if_filter p l : erase_if p l = filter (fun e => p e = false) l.
Proof.
  induction l as [|e l IH]; cbn [erase_if]; [done|]. rewrite filter_cons, IH.
  destruct (p e) eqn:E; [by rewrite decide_False|by rewrite decide_True].
Qed.

#[global] Instance MultiValue_Warehouse : Warehouse MultiValueWarehouse := {|
  multi := true;
  entries := roles_;
  w_empty := mkMV [];
  w_Add := Add;
  w_Clear := Clear;
  w_Size := Size;
  w_Remove_key := Remove_key;
  w_Remove_role := Remove_role;
  w_Remove_attr := Remove_attr;
  w_Search_key := Search_key;
  w_Search_key_role := Search_key_role;
  w_Search_key_role_attr := Search_key_role_attr;
  w_Search_key_roles := Search_key_roles;
  w_Search_key_roles_attr := Search_key_roles_attr;
  w_Search_attr := Search_attr;
  w_Search_attr_role := Search_attr_role;
  w_Search_attr_role_attr := Search_attr_role_attr;
  w_Search_attr_roles := Search_attr_roles;
  w_Search_attr_roles_attr := Search_attr_roles_attr;
  w_GetAllRoles := GetAllRoles;
  w_GetAllRoles_attr := GetAllRoles_attr;
|}.

Lemma multi_Search_key k w :
  finds (spec_Search_key k (roles_ w)) (Search_key k w) (Search_key_role k w)
    (Search_key_role_attr k w) (fun out => Search_key_roles k out w)
    (fun out => Search_key_roles_attr k out w).
Proof.
  apply collect_finds.
  - apply fmap_Permutation, filter_iff_perm. intros e. apply Z.eqb_eq.
  - unfold Search_key_role. destruct (multimap_find k (roles_ w)) as [r|] eqn:E.
    + by apply elem_spec_Search_key, multimap_find_Some.
    + by apply spec_Search_key_nil, multimap_find_None.
  - done.
  - unfold Search_key_role_attr. by destruct (Search_key_role k w).
Qed.

Lemma multi_Search_attr a w :
  finds (spec_Search_attr a (roles_ w)) (Search_attr a w) (Search_attr_role a w)
    (Search_attr_role_attr a w) (fun out => Search_attr_roles a out w)
    (fun out => Search_attr_roles_attr a out w).
Proof.
  apply collect_finds; [done|apply first_match_finds|done|].
  unfold Search_attr_role_attr. by destruct (Search_attr_role a w).
Qed.

#[global] Instance MultiValue_laws : WarehouseLaws MultiValueWarehouse.
Proof.
  constructor; cbn [entries w_empty w_Add w_Clear w_Size w_Remove_key w_Remove_role w_Remove_attr
    multi MultiValue_Warehouse].
  - done.
  - done.
  - intros k r ign w. unfold Add, spec_Add. rewrite multimap_find_is_Some.
    case_if; split; cbn; auto using multimap_insert_perm.
  - done.
  - done.
  - intros k w. unfold spec_Remove_key, keep_other, Remove_key. cbn. rewrite erase_if_filter.
    apply filter_iff_perm. intros e. unfold in_range. by rewrite Z.eqb_neq.
  - intros k r w. unfold spec_Remove_role, Remove_role. cbn. rewrite erase_if_filter.
    apply filter_iff_perm. intros e. unfold in_range.
    rewrite andb_false_iff, Z.eqb_neq, <- not_true_iff_false.
    destruct (decide (fst e = k)); tauto.
  - intros a w. cbn. by rewrite erase_if_filter.
  - apply multi_Search_key.
  - apply multi_Search_attr.
  - intros w. exists ((roles_ w).*2). split; [done|]. intros out aout.
    cbn. unfold GetAllRoles, GetAllRoles_attr. by rewrite !collect_all, list_fmap_id.
Qed.

(** After any sequence of additions and removals a multi-value container holds
    exactly the bag of entries of the abstract container and every [Add] answered as
    there; and every overload of [Search] and [GetAllRoles] finds exactly the entries
    that the bag has for the key or the attributes, appending to the given vector. *)
Theorem multi_value_refines_bag (os : list wop) :
  let w := (w_run os (mkMV [])).2 in
  let l := (spec_run true os []).2 in
  (w_run os (mkMV [])).1 = (spec_run true os []).1 /\
  Size w = length l /\
  (forall k, finds (spec_Search_key k l) (Search_key k w) (Search_key_role k w)
      (Search_key_role_attr k w) (fun out => Search_key_roles k out w)
      (fun out => Search_key_roles_attr k out w)) /\
  (forall a, finds (spec_Search_attr a l) (Search_attr a w) (Search_attr_role a w)
      (Search_attr_role_attr a w) (fun out => Search_attr_roles a out w)
      (fun out => Search_attr_roles_attr a out w)) /\
  (exists m, m ≡ₚ l.*2 /\ forall out aout,
    GetAllRoles out w = out ++ m /\ GetAllRoles_attr aout w = aout ++ (attributes_ <$> m)).
Proof. exact (warehouse_refines os). Qed.

End MultiValue.
