(* ===== verification/SingleValueWarehouse.v ===== *)
(** * SingleValueWarehouse: one role under a key

    Models [cyber/service_discovery/container/single_value_warehouse.{h,cc}].  The
    [unordered_map] is a finite map; its iteration order, which C++ leaves
    unspecified, is that of [map_to_list]. *)

From S2P Require Import Prelude Role Warehouse.

Module SingleValue.

Record SingleValueWarehouse := mkSV { roles_ : gmap Z Role }.

Definition items (w : SingleValueWarehouse) : list entry := map_to_list (roles_ w).

Definition Add (key : Z) (role : Role) (ignore_if_exist : bool) (w : SingleValueWarehouse)
    : bool * SingleValueWarehouse :=
  if negb ignore_if_exist && bool_decide (is_Some (roles_ w !! key)) then (false, w)
  else (true, mkSV (<[key := role]> (roles_ w))).

Definition Clear (w : SingleValueWarehouse) : SingleValueWarehouse := mkSV ∅.
Definition Size (w : SingleValueWarehouse) : nat := size (roles_ w).

Definition Remove_key (key : Z) (w : SingleValueWarehouse) : SingleValueWarehouse :=
  mkSV (delete key (roles_ w)).

Definition Remove_role (key : Z) (role : Role) (w : SingleValueWarehouse) : SingleValueWarehouse :=
  match roles_ w !! key with
  | None => w
  | Some search =>
      if negb (Match search (attributes_ role)) then w else mkSV (delete key (roles_ w))
  end.

(** The loop of [Remove(target_attr)] over the entries still to be visited. *)
Fixpoint remove_loop (target_attr : RoleAttributes) (its : list entry) (m : gmap Z Role)
    : gmap Z Role :=
  match its with
  | [] => m
  | (k, curr_role) :: its' =>
      remove_loop target_attr its' (if Match curr_role target_attr then delete k m else m)
  end.

Definition Remove_attr (target_attr : RoleAttributes) (w : SingleValueWarehouse)
    : SingleValueWarehouse :=
  mkSV (remove_loop target_attr (items w) (roles_ w)).

Definition Search_key_role (key : Z) (w : SingleValueWarehouse) : option Role := roles_ w !! key.

Definition Search_key (key : Z) (w : SingleValueWarehouse) : bool :=
  match Search_key_role key w with Some _ => true | None => false end.

Definition Search_key_role_attr (key : Z) (w : SingleValueWarehouse) : option RoleAttributes :=
  match Search_key_role key w with
  | Some role => Some (attributes_ role)
  | None => None
  end.

Definition Search_key_roles (key : Z) (matched_roles : list Role) (w : SingleValueWarehouse)
    : bool * list Role :=
  match Search_key_role key w with
  | Some role => (true, matched_roles ++ [role])
  | None => (false, matched_roles)
  end.

Definition Search_key_roles_attr (key : Z) (matched_roles_attr : list RoleAttributes)
    (w : SingleValueWarehouse) : bool * list RoleAttributes :=
  match Search_key_role key w with
  | Some role => (true, matched_roles_attr ++ [attributes_ role])
  | None => (false, matched_roles_attr)
  end.

Definition Search_attr_role (target_attr : RoleAttributes) (w : SingleValueWarehouse)
    : option Role :=
  first_match target_attr (items w).

Definition Search_attr (target_attr : RoleAttributes) (w : SingleValueWarehouse) : bool :=
  match Search_attr_role target_attr w with Some _ => true | None => false end.

Definition Search_attr_role_attr (target_attr : RoleAttributes) (w : SingleValueWarehouse)
    : option RoleAttributes :=
  match Search_attr_role target_attr w with
  | Some role => Some (attributes_ role)
  | None => None
  end.

Definition Search_attr_roles (target_attr : RoleAttributes) (matched_roles : list Role)
    (w : SingleValueWarehouse) : bool * list Role :=
  collect (fun r => r) (fun item => Match (snd item) target_attr) (items w) false matched_roles.

Definition Search_attr_roles_attr (target_attr : RoleAttributes)
    (matched_roles_attr : list RoleAttributes) (w : SingleValueWarehouse)
    : bool * list RoleAttributes :=
  collect attributes_ (fun item => Match (snd item) target_attr) (items w) false
    matched_roles_attr.

Definition GetAllRoles (roles : list Role) (w : SingleValueWarehouse) : list Role :=
  (collect (fun r => r) (fun _ => true) (items w) false roles).2.

Definition GetAllRoles_attr (roles_attr : list RoleAttributes) (w : SingleValueWarehouse)
    : list RoleAttributes :=
  (collect attributes_ (fun _ => true) (items w) false roles_attr).2.

#[global] Instance SingleValue_Warehouse : Warehouse SingleValueWarehouse := {|
  multi := false;
  entries := items;
  w_empty := mkSV ∅;
  w_Add := Add;
  w_Clear := Clear;
  w_Size := Size;
  w_Remove_key := Remove_key;
  w_Remove_role := Remove_role;
  w_Remove_attr := Remove_attr;
  w_Search_key := Search_key;
  w_Search_key_role := Search_key_role;
  w_Search_key_role_attr := Search_key_role_attr;
  w_Search_key_roles := Search_key_roles;
  w_Search_key_roles_attr := Search_key_roles_attr;
  w_Search_attr := Search_attr;
  w_Search_attr_role := Search_attr_role;
  w_Search_attr_role_attr := Search_attr_role_attr;
  w_Search_attr_roles := Search_attr_roles;
  w_Search_attr_roles_attr := Search_attr_roles_attr;
  w_GetAllRoles := GetAllRoles;
  w_GetAllRoles_attr := GetAllRoles_attr;
|}.

(** ** The map as a bag *)

(** Two maps whose entries pass the same filter have the same filtered lists. *)
Lemma items_filter_perm (P : entry -> Prop) `{!forall e, Decision (P e)} (m m' : gmap Z Role) :
  (forall k r, m' !! k = Some r <-> m !! k = Some r /\ P (k, r)) ->
  map_to_list m' ≡ₚ filter P (map_to_list m).
Proof.
  intros Hm. apply NoDup_Permutation.
  - apply NoDup_map_to_list.
  - apply NoDup_filter, NoDup_map_to_list.
  - intros [k r]. rewrite list_elem_of_filter, !elem_of_map_to_list, Hm. tauto.
Qed.

Lemma remove_loop_lookup a its m k r :
  remove_loop a its m !! k = Some r <->
  m !! k = Some r /\ forall r', (k, r') ∈ its -> Match r' a = false.
Proof.
  revert m. induction its as [|[k' r'] its IH]; intros m; cbn [remove_loop].
  - split; [|tauto]. intros; split; [done|]. intros ?; by rewrite elem_of_nil.
  - rewrite IH. setoid_rewrite elem_of_cons. case_if.
    + rewrite lookup_delete_Some. split.
      * intros [[Hk Hm] Ha]. split; [done|]. intros r1 [[= -> ->]|Hin]; [done|auto].
      * intros [Hm Ha]. split; [|auto]. split; [|done]. intros <-.
        specialize (Ha r'). rewrite Ha in Heqb; [done|by left].
    + split; [|intros [Hm Ha]; split; [done|auto]].
      intros [Hm Ha]. split; [done|]. intros r1 [[= -> ->]|Hin]; auto.
Qed.

Lemma single_has_key k w : bool_decide (is_Some (roles_ w !! k)) = has_key k (items w).
Proof.
  apply Bool.eq_true_iff_eq. rewrite bool_decide_eq_true, has_key_spec.
  setoid_rewrite elem_of_map_to_list. done.
Qed.

Lemma single_Add k r w : items (mkSV (<[k := r]> (roles_ w))) ≡ₚ (k, r) :: keep_other k (items w).
Proof.
  unfold items, keep_other. cbn [roles_]. rewrite <- insert_delete_eq.
  rewrite map_to_list_insert by apply lookup_delete_eq. apply Permutation_skip.
  apply items_filter_perm. intros k' r'. cbn. rewrite lookup_delete_Some. naive_solver.
Qed.

Lemma single_Remove_role k r w :
  items (Remove_role k r w) ≡ₚ spec_Remove_role k (attributes_ r) (items w).
Proof.
  apply items_filter_perm. intros k' r'. cbn. unfold Remove_role.
  destruct (decide (k' = k)) as [->|Hk].
  - destruct (roles_ w !! k) as [s|] eqn:E; [|rewrite E; split; [done|by intros []]].
    destruct (Match s (attributes_ r)) eqn:Em; cbn [negb roles_]; rewrite ?lookup_delete_eq, ?E.
    + split; [done|]. intros [[= <-] []]. done.
    + split; [|by intros []]. intros [= <-]. split; [done|]. by intros [_ ?]; congruence.
  - destruct (roles_ w !! k) as [s|]; [|tauto].
    destruct (Match s (attributes_ r)); cbn [negb roles_]; rewrite ?lookup_delete_ne by done; tauto.
Qed.

Lemma single_spec_Search_key k w :
  spec_Search_key k (items w) ≡ₚ match roles_ w !! k with Some r => [r] | None => [] end.
Proof.
  destruct (roles_ w !! k) as [r|] eqn:E.
  - assert (Hs : map_to_list ({[k := r]} : gmap Z Role) ≡ₚ
                 filter (fun e => fst e = k) (items w)).
    { apply items_filter_perm. intros k' r'. cbn. rewrite lookup_singleton_Some.
      split; [intros [<- <-]; done|]. intros [Hr ->]. split; congruence. }
    unfold spec_Search_key. by rewrite <- Hs, map_to_list_singleton.
  - rewrite spec_Search_key_nil; [done|]. by rewrite <- single_has_key, E.
Qed.

Lemma single_Search_key k w :
  finds (spec_Search_key k (items w)) (Search_key k w) (Search_key_role k w)
    (Search_key_role_attr k w) (fun out => Search_key_roles k out w)
    (fun out => Search_key_roles_attr k out w).
Proof.
  apply (finds_perm _ _ _ _ _ _ _ (symmetry (single_spec_Search_key k w))).
  unfold Search_key, Search_key_role_attr, Search_key_roles, Search_key_roles_attr, Search_key_role.
  destruct (roles_ w !! k) as [r|]; split_and!; try done; [set_solver|exists [r]|exists []];
    split; try done.
  intros. by rewrite !app_nil_r.
Qed.

Lemma single_Search_attr a w :
  finds (spec_Search_attr a (items w)) (Search_attr a w) (Search_attr_role a w)
    (Search_attr_role_attr a w) (fun out => Search_attr_roles a out w)
    (fun out => Search_attr_roles_attr a out w).
Proof.
  apply collect_finds; [done|apply first_match_finds|done|].
  unfold Search_attr_role_attr. by destruct (Search_attr_role a w).
Qed.

#[global] Instance SingleValue_laws : WarehouseLaws SingleValueWarehouse.
Proof.
  constructor; cbn [entries w_empty w_Add w_Clear w_Size w_Remove_key w_Remove_role w_Remove_attr
    multi SingleValue_Warehouse].
  - done.
  - intros _ w. apply NoDup_fst_map_to_list.
  - intros k r ign w. unfold Add, spec_Add. rewrite single_has_key.
    destruct (negb ign && _); split; try done. apply single_Add.
  - done.
  - intros w. unfold Size, items. by rewrite length_map_to_list.
  - intros k w. apply items_filter_perm. intros k' r'. cbn.
    rewrite lookup_delete_Some. naive_solver.
  - intros. apply single_Remove_role.
  - intros a w. apply items_filter_perm. intros k r. cbn.
    rewrite remove_loop_lookup. unfold items. setoid_rewrite elem_of_map_to_list. naive_solver.
  - apply single_Search_key.
  - apply single_Search_attr.
  - intros w. exists ((items w).*2). split; [done|]. intros out aout.
    cbn. unfold GetAllRoles, GetAllRoles_attr. by rewrite !collect_all, list_fmap_id.
Qed.

(** After any sequence of additions and removals a single-value container holds
    exactly the entries of the abstract container that keeps the last role of a key,
    every [Add] answered as there, and every overload of [Search] and [GetAllRoles]
    finds exactly those entries. *)
Theorem single_value_refines_bag (os : list wop) :
  let w := (w_run os (mkSV ∅)).2 in
  let l := (spec_run false os []).2 in
  (w_run os (mkSV ∅)).1 = (spec_run false os []).1 /\
  Size w = length l /\
  (forall k, finds (spec_Search_key k l) (Search_key k w) (Search_key_role k w)
      (Search_key_role_attr k w) (fun out => Search_key_roles k out w)
      (fun out => Search_key_roles_attr k out w)) /\
  (forall a, finds (spec_Search_attr a l) (Search_attr a w) (Search_attr_role a w)
      (Search_attr_role_attr a w) (fun out => Search_attr_roles a out w)
      (fun out => Search_attr_roles_attr a out w)) /\
  (exists m, m ≡ₚ l.*2 /\ forall out aout,
    GetAllRoles out w = out ++ m /\ GetAllRoles_attr aout w = aout ++ (attributes_ <$> m)).
Proof. exact (warehouse_refines os). Qed.

End SingleValue.
