(* ===== verification/Graph.v ===== *)
(** * Graph: who is upstream of whom

    Models [cyber/service_discovery/container/graph.{h,cc}]: the adjacency lists the
    channel manager keeps between nodes, an edge for every channel that one node
    writes and another reads.  The unordered maps are finite maps iterated in the
    order of [map_to_list]; [operator[]] of a map inserts the default value. *)

From S2P Require Import Prelude.

Inductive FlowDirection := UNREACHABLE | UPSTREAM | DOWNSTREAM.

#[export] Instance FlowDirection_eq_dec : EqDecision FlowDirection.
Proof. solve_decision. Defined.

(** ** Vertices and edges *)

Record Vertice := mkVertice { v_value : string }.

#[export] Instance Vertice_eq_dec : EqDecision Vertice.
Proof. solve_decision. Defined.

Definition IsDummy (v : Vertice) : bool := bool_decide (v_value v = "").
Definition V_GetKey (v : Vertice) : string := v_value v.

Record Edge := mkEdge { src_ : Vertice; dst_ : Vertice; e_value : string }.

Definition IsValid (e : Edge) : bool :=
  if bool_decide (e_value e = "") then false
  else if IsDummy (src_ e) && IsDummy (dst_ e) then false
  else true.

Definition E_GetKey (e : Edge) : string := e_value e +:+ "_" +:+ V_GetKey (dst_ e).

(** ** The graph *)

Abbreviation VerticeSet := (gmap string Vertice).
Abbreviation AdjacencyList := (gmap string VerticeSet).

Record RelatedVertices := mkRelated { rv_src : VerticeSet; rv_dst : VerticeSet }.

Definition no_related : RelatedVertices := mkRelated ∅ ∅.

Record Graph := mkGraph {
  edges_ : gmap string RelatedVertices;
  list_ : AdjacencyList;
}.

Definition graph_new : Graph := mkGraph ∅ ∅.

(** [list_[k]] and [edges_[k]] as values. *)
Definition out (l : AdjacencyList) (k : string) : VerticeSet := default ∅ (l !! k).
Definition related (es : gmap string RelatedVertices) (c : string) : RelatedVertices :=
  default no_related (es !! c).

(** [if (list_.find(k) == list_.end()) list_[k] = VerticeSet();] *)
Definition ensure (k : string) (l : AdjacencyList) : AdjacencyList :=
  match l !! k with None => <[k := ∅]> l | Some _ => l end.

Definition InsertCompleteEdge (e : Edge) (l : AdjacencyList) : AdjacencyList :=
  let src_v_k := V_GetKey (src_ e) in
  let l1 := ensure src_v_k l in
  let dst_v_k := V_GetKey (dst_ e) in
  let l2 := ensure dst_v_k l1 in
  <[src_v_k := <[E_GetKey e := dst_ e]> (out l2 src_v_k)]> l2.

Definition DeleteCompleteEdge (e : Edge) (l : AdjacencyList) : AdjacencyList :=
  let src_v_k := V_GetKey (src_ e) in
  <[src_v_k := delete (E_GetKey e) (out l src_v_k)]> l.

Definition InsertOutgoingEdge (e : Edge) (g : Graph) : Graph :=
  let e_v := e_value e in
  let rv := related (edges_ g) e_v in
  let v_k := V_GetKey (src_ e) in
  match rv_src rv !! v_k with
  | Some _ => g
  | None =>
      mkGraph (<[e_v := mkRelated (<[v_k := src_ e]> (rv_src rv)) (rv_dst rv)]> (edges_ g))
        (foldl (fun l item => InsertCompleteEdge (mkEdge (src_ e) (snd item) e_v) l) (list_ g)
           (map_to_list (rv_dst rv)))
  end.

Definition InsertIncomingEdge (e : Edge) (g : Graph) : Graph :=
  let e_v := e_value e in
  let rv := related (edges_ g) e_v in
  let v_k := V_GetKey (dst_ e) in
  match rv_dst rv !! v_k with
  | Some _ => g
  | None =>
      mkGraph (<[e_v := mkRelated (rv_src rv) (<[v_k := dst_ e]> (rv_dst rv))]> (edges_ g))
        (foldl (fun l item => InsertCompleteEdge (mkEdge (snd item) (dst_ e) e_v) l) (list_ g)
           (map_to_list (rv_src rv)))
  end.

Definition DeleteOutgoingEdge (e : Edge) (g : Graph) : Graph :=
  let e_v := e_value e in
  let rv := related (edges_ g) e_v in
  let v_k := V_GetKey (src_ e) in
  match rv_src rv !! v_k with
  | None => g
  | Some _ =>
      mkGraph (<[e_v := mkRelated (delete v_k (rv_src rv)) (rv_dst rv)]> (edges_ g))
        (foldl (fun l item => DeleteCompleteEdge (mkEdge (src_ e) (snd item) e_v) l) (list_ g)
           (map_to_list (rv_dst rv)))
  end.

Definition DeleteIncomingEdge (e : Edge) (g : Graph) : Graph :=
  let e_v := e_value e in
  let rv := related (edges_ g) e_v in
  let v_k := V_GetKey (dst_ e) in
  match rv_dst rv !! v_k with
  | None => g
  | Some _ =>
      mkGraph (<[e_v := mkRelated (rv_src rv) (delete v_k (rv_dst rv))]> (edges_ g))
        (foldl (fun l item => DeleteCompleteEdge (mkEdge (snd item) (dst_ e) e_v) l) (list_ g)
           (map_to_list (rv_src rv)))
  end.

Definition Insert (e : Edge) (g : Graph) : Graph :=
  if negb (IsValid e) then g
  else
    let e_v := e_value e in
    let g1 := match edges_ g !! e_v with
              | None => mkGraph (<[e_v := no_related]> (edges_ g)) (list_ g)
              | Some _ => g
              end in
    let g2 := if negb (IsDummy (src_ e)) then InsertOutgoingEdge e g1 else g1 in
    if negb (IsDummy (dst_ e)) then InsertIncomingEdge e g2 else g2.

Definition Delete (e : Edge) (g : Graph) : Graph :=
  if negb (IsValid e) then g
  else
    match edges_ g !! e_value e with
    | None => g
    | Some _ =>
        let g1 := if negb (IsDummy (src_ e)) then DeleteOutgoingEdge e g else g in
        if negb (IsDummy (dst_ e)) then DeleteIncomingEdge e g1 else g1
    end.

Definition GetNumOfEdge (g : Graph) : Z :=
  foldl (fun num item => wrap_u32 (num + wrap_i32 (Z.of_nat (size (snd item))))) 0
    (map_to_list (list_ g)).

(** ** The breadth-first search *)

(** [visited[k]]; the [false] that [operator[]] may insert cannot be told from no entry. *)
Definition seen (visited : gmap string bool) (k : string) : bool := default false (visited !! k).

(** The loop of [LevelTraverse], [None] when the fuel runs out. *)
Fixpoint traverse (fuel : nat) (end_ : Vertice) (l : AdjacencyList) (visited : gmap string bool)
    (unvisited : list Vertice) : option (gmap string bool * AdjacencyList) :=
  match fuel with
  | O => None
  | S fuel' =>
      match unvisited with
      | [] => Some (visited, l)
      | curr :: rest =>
          if seen visited (V_GetKey curr) then traverse fuel' end_ l visited rest
          else
            let visited1 := <[V_GetKey curr := true]> visited in
            if bool_decide (curr = end_) then Some (visited1, l)
            else
              let l1 := ensure (V_GetKey curr) l in
              traverse fuel' end_ l1 visited1
                (rest ++ (map_to_list (out l1 (V_GetKey curr))).*2)
      end
  end.

(** An iteration takes one vertex off the queue, and every list is pushed at most once:
    as many iterations as there are entries, and one for the start and one for the exit. *)
Definition traverse_fuel (l : AdjacencyList) : nat :=
  S (S (sum_list_with (fun item => size (snd item)) (map_to_list l))).

Definition LevelTraverse (start end_ : Vertice) (l : AdjacencyList)
    : option (bool * AdjacencyList) :=
  match traverse (traverse_fuel l) end_ l {[V_GetKey end_ := false]} [start] with
  | Some (visited, l') => Some (seen visited (V_GetKey end_), l')
  | None => None
  end.

Definition GetDirectionOf (lhs rhs : Vertice) (g : Graph) : option (FlowDirection * Graph) :=
  if IsDummy lhs || IsDummy rhs then Some (UNREACHABLE, g)
  else
    match list_ g !! V_GetKey lhs, list_ g !! V_GetKey rhs with
    | Some _, Some _ =>
        match LevelTraverse lhs rhs (list_ g) with
        | None => None
        | Some (true, l1) => Some (UPSTREAM, mkGraph (edges_ g) l1)
        | Some (false, l1) =>
            match LevelTraverse rhs lhs l1 with
            | None => None
            | Some (true, l2) => Some (DOWNSTREAM, mkGraph (edges_ g) l2)
            | Some (false, l2) => Some (UNREACHABLE, mkGraph (edges_ g) l2)
            end
        end
    | _, _ => Some (UNREACHABLE, g)
    end.

(** ** Termination of the search *)

(** The entries still to be pushed. *)
Definition pending (visited : gmap string bool) (item : string * VerticeSet) : nat :=
  if seen visited (fst item) then 0%nat else size (snd item).

Definition work (l : AdjacencyList) (visited : gmap string bool) (q : list Vertice) : nat :=
  (length q + sum_list_with (pending visited) (map_to_list l))%nat.

Lemma sum_list_with_ext {A} (f h : A -> nat) l :
  (forall x, x ∈ l -> f x = h x) -> sum_list_with f l = sum_list_with h l.
Proof.
  induction l as [|x l IH]; intros Hfh; [done|]. cbn.
  rewrite Hfh, IH; [done| |]; set_solver.
Qed.

Lemma sum_list_with_perm {A} (f : A -> nat) l l' :
  l ≡ₚ l' -> sum_list_with f l = sum_list_with f l'.
Proof. induction 1; cbn; lia. Qed.

(** One entry of a map taken out of a sum over the map. *)
Lemma sum_map_split (f : string * VerticeSet -> nat) (l : AdjacencyList) k s :
  l !! k = Some s ->
  sum_list_with f (map_to_list l) =
    (f (k, s) + sum_list_with f (map_to_list (delete k l)))%nat.
Proof.
  intros Hk. rewrite <- (insert_delete_id _ _ _ Hk) at 1.
  rewrite (sum_list_with_perm _ _ _ (map_to_list_insert _ _ _ (lookup_delete_eq _ _))). done.
Qed.

Lemma pending_other visited k item :
  fst item <> k -> pending (<[k := true]> visited) item = pending visited item.
Proof. intros Hk. unfold pending, seen. by rewrite lookup_insert_ne. Qed.

Lemma pending_visit (l : AdjacencyList) visited k :
  seen visited k = false ->
  (sum_list_with (pending (<[k := true]> visited)) (map_to_list l) + size (out l k) =
   sum_list_with (pending visited) (map_to_list l))%nat.
Proof.
  intros Hs. destruct (l !! k) as [s|] eqn:Hk; unfold out; rewrite Hk; cbn [default].
  - rewrite !(sum_map_split _ _ _ _ Hk). unfold pending at 1 3. cbn [fst snd]. rewrite Hs.
    unfold seen. rewrite lookup_insert_eq. cbn.
    rewrite (sum_list_with_ext (pending (<[k:=true]> visited)) (pending visited)); [lia|].
    intros [k' s'] Hin. apply pending_other. apply elem_of_map_to_list in Hin.
    apply lookup_delete_Some in Hin. cbn. naive_solver.
  - rewrite map_size_empty. rewrite Nat.add_0_r. apply sum_list_with_ext.
    intros [k' s'] Hin. apply pending_other. apply elem_of_map_to_list in Hin. cbn. congruence.
Qed.

Lemma out_ensure k l a : out (ensure k l) a = out l a.
Proof.
  unfold ensure. destruct (l !! k) eqn:E; [done|]. unfold out.
  destruct (decide (a = k)) as [->|]; [by rewrite lookup_insert_eq, E|by rewrite lookup_insert_ne].
Qed.

Lemma ensure_id k l : is_Some (l !! k) -> ensure k l = l.
Proof. unfold ensure. intros [s ->]. done. Qed.

Lemma pending_ensure visited k l :
  sum_list_with (pending visited) (map_to_list (ensure k l)) =
  sum_list_with (pending visited) (map_to_list l).
Proof.
  unfold ensure. destruct (l !! k) eqn:E; [done|].
  rewrite (sum_list_with_perm _ _ _ (map_to_list_insert _ _ _ E)). cbn.
  unfold pending at 1. cbn [snd]. rewrite map_size_empty. by destruct (seen _ _).
Qed.

Lemma traverse_total fuel end_ l visited q :
  (work l visited q < fuel)%nat -> is_Some (traverse fuel end_ l visited q).
Proof.
  revert l visited q. induction fuel as [|fuel IH]; intros l visited q Hf; [lia|].
  destruct q as [|curr rest]; cbn [traverse]; [by eexists|].
  unfold work in Hf. cbn [length] in Hf. case_if; [apply IH; unfold work; lia|].
  case_if; [by eexists|]. apply IH. unfold work.
  rewrite length_app, length_fmap, length_map_to_list, pending_ensure, out_ensure.
  pose proof (pending_visit l visited (V_GetKey curr) Heqb). lia.
Qed.

Lemma pending_none l end_ :
  sum_list_with (pending {[end_ := false]}) (map_to_list l) =
  sum_list_with (fun item => size (snd item)) (map_to_list l).
Proof.
  apply sum_list_with_ext. intros [k s] _. unfold pending, seen. cbn [fst snd].
  destruct (decide (k = end_)) as [->|];
    [by rewrite lookup_singleton_eq|by rewrite lookup_singleton_ne].
Qed.

Lemma LevelTraverse_total start end_ l : is_Some (LevelTraverse start end_ l).
Proof.
  unfold LevelTraverse.
  destruct (traverse_total (traverse_fuel l) end_ l {[V_GetKey end_ := false]} [start])
    as [[v l'] ->]; [|by eexists].
  unfold work, traverse_fuel. rewrite pending_none. cbn [length]. lia.
Qed.

(** ** Correctness of the search *)

(** [b] is in an adjacency list of [a]. *)
Definition adjacent (l : AdjacencyList) (a b : string) : Prop :=
  exists k v, out l a !! k = Some v /\ v_value v = b.

Lemma adjacent_pushed l a b :
  adjacent l a b <-> mkVertice b ∈ (map_to_list (out l a)).*2.
Proof.
  unfold adjacent. rewrite list_elem_of_fmap. split.
  - intros (k & [v] & Hk & <-). exists (k, mkVertice v). by rewrite elem_of_map_to_list.
  - intros ([k v] & Hb & Hin). apply elem_of_map_to_list in Hin. cbn in Hb. subst v. eauto.
Qed.

Lemma adjacent_ext l l' : (forall a, out l a = out l' a) -> forall a b, adjacent l a b <-> adjacent l' a b.
Proof. intros Ho a b. unfold adjacent. by setoid_rewrite Ho. Qed.

Section search.
Context (start end_ : string) (l0 : AdjacencyList).

Record search_inv (l : AdjacencyList) (visited : gmap string bool) (q : list Vertice) : Prop := {
  si_out : forall a, out l a = out l0 a;
  si_seen : forall a, seen visited a = true -> rtc (adjacent l0) start a;
  si_queue : forall v, v ∈ q -> rtc (adjacent l0) start (v_value v);
  si_closed : forall a b, seen visited a = true -> adjacent l0 a b ->
    seen visited b = true \/ mkVertice b ∈ q;
  si_start : seen visited start = true \/ mkVertice start ∈ q;
  si_end : seen visited end_ = false;
}.

Lemma seen_visit visited k a :
  seen (<[k := true]> visited) a = true <-> a = k \/ seen visited a = true.
Proof.
  unfold seen. destruct (decide (a = k)) as [->|]; [rewrite lookup_insert_eq|rewrite lookup_insert_ne by done];
    naive_solver.
Qed.

Lemma search_skip l visited curr rest :
  search_inv l visited (curr :: rest) -> seen visited (v_value curr) = true ->
  search_inv l visited rest.
Proof.
  destruct curr as [c]. intros [Ho Hs Hq Hc Hst He] Hseen. constructor; auto.
  - set_solver.
  - intros a b Ha Hb. destruct (Hc a b Ha Hb) as [|Hin]; [by left|].
    apply elem_of_cons in Hin as [[= ->]|]; auto.
  - destruct Hst as [|Hin]; [by left|]. apply elem_of_cons in Hin as [[= ->]|]; auto.
Qed.

Lemma search_visit l visited curr rest :
  search_inv l visited (curr :: rest) -> v_value curr <> end_ ->
  search_inv (ensure (v_value curr) l) (<[v_value curr := true]> visited)
    (rest ++ (map_to_list (out (ensure (v_value curr) l) (v_value curr))).*2).
Proof.
  destruct curr as [c]. cbn [v_value]. intros [Ho Hs Hq Hc Hst He] Hne.
  assert (Hreach : rtc (adjacent l0) start c) by (apply (Hq (mkVertice c)); set_solver).
  rewrite out_ensure, Ho. constructor.
  - intros a. by rewrite out_ensure.
  - intros a [->|Ha]%seen_visit; auto.
  - intros [v] [Hin|Hin]%elem_of_app; [apply Hq; set_solver|].
    apply adjacent_pushed in Hin. by eapply rtc_r.
  - intros a b [->|Ha]%seen_visit Hb; rewrite seen_visit, elem_of_app.
    + right. right. by apply adjacent_pushed.
    + destruct (Hc a b Ha Hb) as [|Hin]; [tauto|]. apply elem_of_cons in Hin as [[= ->]|]; auto.
  - rewrite seen_visit, elem_of_app. destruct Hst as [|Hin]; [tauto|].
    apply elem_of_cons in Hin as [[= ->]|]; auto.
  - apply not_true_iff_false. rewrite seen_visit. intros [->|?]; congruence.
Qed.

(** The search stops with the end visited exactly when it can be reached. *)
Lemma traverse_correct fuel l visited q visited' l' :
  search_inv l visited q ->
  traverse fuel (mkVertice end_) l visited q = Some (visited', l') ->
  (forall a, out l' a = out l0 a) /\
  (seen visited' end_ = true <-> rtc (adjacent l0) start end_).
Proof.
  revert l visited q. induction fuel as [|fuel IH]; intros l visited q Hi Ht; [done|].
  destruct q as [|curr rest]; cbn [traverse] in Ht.
  - injection Ht as <- <-. destruct Hi as [Ho Hs Hq Hc Hst He]. split; [done|].
    split; [apply Hs|]. intros Hr. exfalso.
    assert (seen visited end_ = true); [|congruence].
    destruct Hst as [Hst|]; [|set_solver]. clear -Hc Hst Hr.
    induction Hr as [|x y z Hxy Hyz IH']; [done|]. apply IH'.
    destruct (Hc x y Hst Hxy); [done|set_solver].
  - unfold V_GetKey in Ht. destruct (seen visited (v_value curr)) eqn:Hseen.
    { eapply IH; [by eapply search_skip|done]. }
    destruct (bool_decide (curr = mkVertice end_)) eqn:Hd.
    + injection Ht as <- <-. apply bool_decide_eq_true in Hd as ->. cbn [v_value].
      destruct Hi as [Ho Hs Hq Hc Hst He]. split; [done|].
      rewrite seen_visit. split; [|auto]. intros _. apply (Hq (mkVertice end_)). set_solver.
    + apply bool_decide_eq_false in Hd. eapply IH; [|done].
      apply search_visit; [done|]. destruct curr. cbn. congruence.
Qed.

End search.

(** [LevelTraverse] decides reachability, and leaves the adjacency as it is. *)
Lemma LevelTraverse_correct start end_ l :
  exists b l', LevelTraverse (mkVertice start) (mkVertice end_) l = Some (b, l') /\
    (forall a, out l' a = out l a) /\
    (b = true <-> rtc (adjacent l) start end_).
Proof.
  destruct (LevelTraverse_total (mkVertice start) (mkVertice end_) l) as [[b l'] H].
  exists b, l'. split; [done|]. unfold LevelTraverse in H.
  destruct (traverse _ _ _ _ _) as [[visited l'']|] eqn:E; [|done].
  injection H as <- <-.
  assert (Hs : forall a, seen {[end_ := false]} a = false).
  { intros a. unfold seen. destruct (decide (a = end_)) as [->|];
      [by rewrite lookup_singleton_eq|by rewrite lookup_singleton_ne]. }
  eapply traverse_correct; [|exact E]. constructor; cbn [V_GetKey v_value]; auto.
  - intros a. rewrite Hs. done.
  - intros v Hv%list_elem_of_singleton. subst. apply rtc_refl.
  - intros a b. rewrite Hs. done.
  - right. set_solver.
Qed.

(** ** The adjacency lists hold the channels *)

(** What the lists stand for: who writes and who reads which channel, as pairs of a
    channel and a node. *)
Record channels := mkChannels { writers : gset (string * string); readers : gset (string * string) }.

Definition chan_Insert (e : Edge) (s : channels) : channels :=
  if negb (IsValid e) then s
  else mkChannels
    (if negb (IsDummy (src_ e)) then {[(e_value e, v_value (src_ e))]} ∪ writers s else writers s)
    (if negb (IsDummy (dst_ e)) then {[(e_value e, v_value (dst_ e))]} ∪ readers s else readers s).

Definition chan_Delete (e : Edge) (s : channels) : channels :=
  if negb (IsValid e) then s
  else mkChannels
    (if negb (IsDummy (src_ e)) then writers s ∖ {[(e_value e, v_value (src_ e))]} else writers s)
    (if negb (IsDummy (dst_ e)) then readers s ∖ {[(e_value e, v_value (dst_ e))]} else readers s).

(** [a] writes a channel that [b] reads. *)
Definition feeds (s : channels) (a b : string) : Prop :=
  exists c, (c, a) ∈ writers s /\ (c, b) ∈ readers s.

Inductive gop :=
| GInsert (e : Edge)
| GDelete (e : Edge)
| GDirection (lhs rhs : Vertice).

Definition g_step (o : gop) (g : Graph) : option Graph :=
  match o with
  | GInsert e => Some (Insert e g)
  | GDelete e => Some (Delete e g)
  | GDirection lhs rhs => snd <$> GetDirectionOf lhs rhs g
  end.

Fixpoint g_run (os : list gop) (g : Graph) : option Graph :=
  match os with
  | [] => Some g
  | o :: os' => g_step o g ≫= g_run os'
  end.

Definition chan_step (o : gop) (s : channels) : channels :=
  match o with
  | GInsert e => chan_Insert e s
  | GDelete e => chan_Delete e s
  | GDirection _ _ => s
  end.

Definition chan_run (os : list gop) : channels := foldl (fun s o => chan_step o s) (mkChannels ∅ ∅) os.

Section adjacency.
(** The channels that a node may read, such that the key [value + "_" + node] of an
    adjacency list tells its channel and its node. *)
Context (allowed : string -> string -> Prop).
Hypothesis key_inj : forall c b c' b', allowed c b -> allowed c' b' ->
  c +:+ "_" +:+ b = c' +:+ "_" +:+ b' -> c = c' /\ b = b'.

(** The lists hold an entry for every channel of [P c a b]. *)
Definition rep (l : AdjacencyList) (P : string -> string -> string -> Prop) : Prop :=
  forall a k v, out l a !! k = Some v <->
    exists c, k = c +:+ "_" +:+ v_value v /\ P c a (v_value v).

Definition endpoints (l : AdjacencyList) : Prop :=
  forall a k v, out l a !! k = Some v -> is_Some (l !! v_value v).

Lemma rep_ext l P Q : (forall c a b, P c a b <-> Q c a b) -> rep l P -> rep l Q.
Proof. intros HPQ Hr a k v. rewrite (Hr a k v). by setoid_rewrite HPQ. Qed.

Lemma out_insert l a s a' : out (<[a := s]> l) a' = if decide (a' = a) then s else out l a'.
Proof.
  unfold out. case_decide; [subst; by rewrite lookup_insert_eq|by rewrite lookup_insert_ne].
Qed.

Lemma rep_InsertCompleteEdge l P c a b :
  (forall c' a' b', P c' a' b' -> allowed c' b') -> allowed c b ->
  rep l P ->
  rep (InsertCompleteEdge (mkEdge (mkVertice a) (mkVertice b) c) l)
    (fun c' a' b' => (c', a', b') = (c, a, b) \/ P c' a' b').
Proof.
  intros Hall Hcb Hr a' k v. unfold InsertCompleteEdge, E_GetKey. cbn.
  rewrite out_insert, !out_ensure. case_decide as Ha; [subst a'|].
  2:{ rewrite (Hr a' k v). naive_solver. }
  rewrite lookup_insert_Some, (Hr a k v). split.
  - intros [[<- <-]|[_ (c' & Hk & HP)]]; [exists c; auto|eauto].
  - intros (c' & Hk & [[= -> Hb]|HP]).
    + left. destruct v; cbn in *. by subst.
    + destruct (decide (c +:+ "_" +:+ b = k)) as [Hk'|]; [|right; eauto].
      left. split; [done|]. subst k. apply key_inj in Hk' as [_ ->]; [|done|by eapply Hall].
      by destruct v.
Qed.

Lemma rep_DeleteCompleteEdge l P c a b :
  (forall c' a' b', P c' a' b' -> allowed c' b') -> allowed c b ->
  rep l P ->
  rep (DeleteCompleteEdge (mkEdge (mkVertice a) (mkVertice b) c) l)
    (fun c' a' b' => (c', a', b') <> (c, a, b) /\ P c' a' b').
Proof.
  intros Hall Hcb Hr a' k v. unfold DeleteCompleteEdge, E_GetKey. cbn.
  rewrite out_insert. case_decide as Ha; [subst a'|].
  2:{ rewrite (Hr a' k v). naive_solver. }
  rewrite lookup_delete_Some, (Hr a k v). split.
  - intros [Hne (c' & -> & HP)]. exists c'. split; [done|]. split; [|done].
    intros [= -> Hb]. rewrite Hb in Hne. done.
  - intros (c' & -> & Hne & HP). split; [|eauto]. intros Hk.
    apply key_inj in Hk as [-> ->]; [done|done|by eapply Hall].
Qed.

(** The loops of the four operations on sets of complete edges. *)
Lemma rep_insert_all es l P :
  (forall c a b, P c a b -> allowed c b) ->
  (forall e, e ∈ es -> allowed (e_value e) (v_value (dst_ e))) ->
  rep l P ->
  rep (foldl (fun l e => InsertCompleteEdge e l) l es)
    (fun c a b => mkEdge (mkVertice a) (mkVertice b) c ∈ es \/ P c a b).
Proof.
  revert l P. induction es as [|[[a0] [b0] c0] es IH]; intros l P Hall Hes Hr; cbn [foldl].
  { eapply rep_ext; [|exact Hr]. intros. rewrite elem_of_nil. tauto. }
  assert (Hcb : allowed c0 b0) by (apply (Hes (mkEdge (mkVertice a0) (mkVertice b0) c0)); set_solver).
  eapply rep_ext; [|apply IH; [|set_solver|by apply rep_InsertCompleteEdge]].
  - intros c a b. cbn beta. rewrite elem_of_cons. naive_solver.
  - naive_solver.
Qed.

Lemma rep_delete_all es l P :
  (forall c a b, P c a b -> allowed c b) ->
  (forall e, e ∈ es -> allowed (e_value e) (v_value (dst_ e))) ->
  rep l P ->
  rep (foldl (fun l e => DeleteCompleteEdge e l) l es)
    (fun c a b => (mkEdge (mkVertice a) (mkVertice b) c ∉ es) /\ P c a b).
Proof.
  revert l P. induction es as [|[[a0] [b0] c0] es IH]; intros l P Hall Hes Hr; cbn [foldl].
  { eapply rep_ext; [|exact Hr]. intros. rewrite elem_of_nil. tauto. }
  assert (Hcb : allowed c0 b0) by (apply (Hes (mkEdge (mkVertice a0) (mkVertice b0) c0)); set_solver).
  eapply rep_ext; [|apply IH; [|set_solver|by apply rep_DeleteCompleteEdge]].
  - intros c a b. cbn beta. rewrite elem_of_cons. naive_solver.
  - naive_solver.
Qed.

Lemma lookup_insert_mono (l : AdjacencyList) k s x :
  is_Some (l !! x) \/ x = k -> is_Some (<[k := s]> l !! x).
Proof.
  destruct (decide (x = k)) as [->|]; [rewrite lookup_insert_eq|rewrite lookup_insert_ne by done];
    naive_solver.
Qed.

Lemma lookup_ensure_mono l k x : is_Some (l !! x) \/ x = k -> is_Some (ensure k l !! x).
Proof.
  unfold ensure. destruct (l !! k) eqn:E; [|apply lookup_insert_mono]. intros [ | -> ]; [done|by eexists].
Qed.

Lemma endpoints_InsertCompleteEdge e l : endpoints l -> endpoints (InsertCompleteEdge e l).
Proof.
  intros He a k v Hv. unfold InsertCompleteEdge in *. rewrite out_insert, !out_ensure in Hv.
  apply lookup_insert_mono. left. apply lookup_ensure_mono.
  case_decide; [apply lookup_insert_Some in Hv as [[_ <-]|[_ Hv]]; [by right|]|];
    left; apply lookup_ensure_mono; left; by eapply He.
Qed.

Lemma endpoints_DeleteCompleteEdge e l : endpoints l -> endpoints (DeleteCompleteEdge e l).
Proof.
  intros He a k v Hv. unfold DeleteCompleteEdge in *. rewrite out_insert in Hv.
  apply lookup_insert_mono. left.
  case_decide; [apply lookup_delete_Some in Hv as [_ Hv]|]; by eapply He.
Qed.

Lemma foldl_preserves {A B} (f : A -> B -> A) (P : A -> Prop) bs a :
  (forall a b, P a -> P (f a b)) -> P a -> P (foldl f a bs).
Proof. intros Hf. revert a. induction bs as [|b bs IH]; intros a Ha; cbn; auto. Qed.

Lemma foldl_mk {A B C} (f : A -> B -> A) (mk : C -> B) a (cs : list C) :
  foldl (fun x c => f x (mk c)) a cs = foldl f a (mk <$> cs).
Proof. revert a. induction cs as [|c cs IH]; intros a; cbn; auto. Qed.

(** ** The invariant *)

Record g_inv (g : Graph) (s : channels) : Prop := {
  gi_src : forall c k v, rv_src (related (edges_ g) c) !! k = Some v <->
    v = mkVertice k /\ (c, k) ∈ writers s;
  gi_dst : forall c k v, rv_dst (related (edges_ g) c) !! k = Some v <->
    v = mkVertice k /\ (c, k) ∈ readers s;
  gi_rep : rep (list_ g) (fun c a b => (c, a) ∈ writers s /\ (c, b) ∈ readers s);
  gi_end : endpoints (list_ g);
  gi_allowed : forall c b, (c, b) ∈ readers s -> allowed c b;
}.

Lemma g_inv_ext g s s' : writers s ≡ writers s' -> readers s ≡ readers s' -> g_inv g s -> g_inv g s'.
Proof.
  intros Hw Hr [H1 H2 H3 H4 H5]. constructor; [| | |done|].
  - intros. by rewrite H1, Hw.
  - intros. by rewrite H2, Hr.
  - eapply rep_ext; [|exact H3]. intros. cbn. by rewrite Hw, Hr.
  - intros. apply H5. by rewrite Hr.
Qed.

Lemma related_insert es c rv c' :
  related (<[c := rv]> es) c' = if decide (c' = c) then rv else related es c'.
Proof.
  unfold related. case_decide; [subst; by rewrite lookup_insert_eq|by rewrite lookup_insert_ne].
Qed.

Lemma g_inv_InsertOutgoingEdge a d c g s :
  g_inv g s ->
  g_inv (InsertOutgoingEdge (mkEdge (mkVertice a) d c) g)
    (mkChannels ({[(c, a)]} ∪ writers s) (readers s)).
Proof.
  intros Hi. pose proof Hi as [Hs Hd Hr He Ha]. unfold InsertOutgoingEdge, V_GetKey.
  cbn [e_value src_ v_value].
  destruct (rv_src (related (edges_ g) c) !! a) as [v|] eqn:E.
  { apply Hs in E as [_ E]. eapply g_inv_ext; [| |exact Hi]; set_solver. }
  constructor; cbn [edges_ list_ writers readers]; [| | | |done].
  - intros c' k v. rewrite related_insert. case_decide as Hc; [subst|]; cbn [rv_src].
    + rewrite lookup_insert_Some, Hs, elem_of_union, elem_of_singleton.
      destruct (decide (a = k)); naive_solver.
    + rewrite Hs, elem_of_union, elem_of_singleton. naive_solver.
  - intros c' k v. rewrite related_insert. case_decide as Hc; [subst|]; apply Hd.
  - rewrite (foldl_mk (fun l e => InsertCompleteEdge e l) (fun item => mkEdge (mkVertice a) (snd item) c)).
    eapply rep_ext; [|apply rep_insert_all; [| |exact Hr]].
    + intros c' a' b. cbn beta. rewrite elem_of_union, elem_of_singleton, list_elem_of_fmap. split.
      * intros [([k v] & [= -> <- ->] & Hin)|]; [|tauto].
        apply elem_of_map_to_list, Hd in Hin as [[= ->] Hin]. tauto.
      * intros [[[= -> ->]|] Hb]; [left|tauto]. exists (b, mkVertice b).
        split; [done|]. by apply elem_of_map_to_list, Hd.
    + naive_solver.
    + intros e Hin. apply list_elem_of_fmap in Hin as ([k v] & -> & Hin).
      apply elem_of_map_to_list, Hd in Hin as [-> Hin]. cbn. auto.
  - apply foldl_preserves; [|done]. intros. by apply endpoints_InsertCompleteEdge.
Qed.

Lemma g_inv_InsertIncomingEdge b a0 c g s :
  allowed c b -> g_inv g s ->
  g_inv (InsertIncomingEdge (mkEdge a0 (mkVertice b) c) g)
    (mkChannels (writers s) ({[(c, b)]} ∪ readers s)).
Proof.
  intros Hcb Hi. pose proof Hi as [Hs Hd Hr He Ha]. unfold InsertIncomingEdge, V_GetKey.
  cbn [e_value dst_ v_value].
  destruct (rv_dst (related (edges_ g) c) !! b) as [v|] eqn:E.
  { apply Hd in E as [_ E]. eapply g_inv_ext; [| |exact Hi]; set_solver. }
  constructor; cbn [edges_ list_ writers readers].
  - intros c' k v. rewrite related_insert. case_decide as Hc; [subst|]; apply Hs.
  - intros c' k v. rewrite related_insert. case_decide as Hc; [subst|]; cbn [rv_dst].
    + rewrite lookup_insert_Some, Hd, elem_of_union, elem_of_singleton.
      destruct (decide (b = k)); naive_solver.
    + rewrite Hd, elem_of_union, elem_of_singleton. naive_solver.
  - rewrite (foldl_mk (fun l e => InsertCompleteEdge e l) (fun item => mkEdge (snd item) (mkVertice b) c)).
    eapply rep_ext; [|apply rep_insert_all; [| |exact Hr]].
    + intros c' a b'. cbn beta. rewrite elem_of_union, elem_of_singleton, list_elem_of_fmap. split.
      * intros [([k v] & [= <- -> ->] & Hin)|]; [|tauto].
        apply elem_of_map_to_list, Hs in Hin as [[= ->] Hin]. tauto.
      * intros [Hw [[= -> ->]|]]; [left|tauto]. exists (a, mkVertice a).
        split; [done|]. by apply elem_of_map_to_list, Hs.
    + naive_solver.
    + intros e Hin. apply list_elem_of_fmap in Hin as ([k v] & -> & Hin). done.
  - apply foldl_preserves; [|done]. intros. by apply endpoints_InsertCompleteEdge.
  - intros c' b' [[= -> ->]%elem_of_singleton|]%elem_of_union; auto.
Qed.

Lemma g_inv_DeleteOutgoingEdge a d c g s :
  g_inv g s ->
  g_inv (DeleteOutgoingEdge (mkEdge (mkVertice a) d c) g)
    (mkChannels (writers s ∖ {[(c, a)]}) (readers s)).
Proof.
  intros Hi. pose proof Hi as [Hs Hd Hr He Ha]. unfold DeleteOutgoingEdge, V_GetKey.
  cbn [e_value src_ v_value].
  destruct (rv_src (related (edges_ g) c) !! a) as [v|] eqn:E.
  2:{ assert ((c, a) ∉ writers s).
      { intros Hin. assert (rv_src (related (edges_ g) c) !! a = Some (mkVertice a)) by by apply Hs.
        congruence. }
      eapply g_inv_ext; [| |exact Hi]; set_solver. }
  clear E. constructor; cbn [edges_ list_ writers readers]; [| | | |done].
  - intros c' k v'. rewrite related_insert. case_decide as Hc; [subst|]; cbn [rv_src].
    + rewrite lookup_delete_Some, Hs, elem_of_difference, elem_of_singleton. naive_solver.
    + rewrite Hs, elem_of_difference, elem_of_singleton. naive_solver.
  - intros c' k v'. rewrite related_insert. case_decide as Hc; [subst|]; apply Hd.
  - rewrite (foldl_mk (fun l e => DeleteCompleteEdge e l) (fun item => mkEdge (mkVertice a) (snd item) c)).
    eapply rep_ext; [|apply rep_delete_all; [| |exact Hr]].
    + intros c' a' b. cbn beta. rewrite elem_of_difference, elem_of_singleton, list_elem_of_fmap. split.
      * intros [Hn [Hw Hb]]. split; [|done]. split; [done|]. intros [= -> ->]. apply Hn.
        exists (b, mkVertice b). split; [done|]. by apply elem_of_map_to_list, Hd.
      * intros [[Hw Hn] Hb]. split; [|done]. intros ([k v'] & [= -> _ ->] & _). done.
    + naive_solver.
    + intros e Hin. apply list_elem_of_fmap in Hin as ([k v'] & -> & Hin).
      apply elem_of_map_to_list, Hd in Hin as [-> Hin]. cbn. auto.
  - apply foldl_preserves; [|done]. intros. by apply endpoints_DeleteCompleteEdge.
Qed.

Lemma g_inv_DeleteIncomingEdge b a0 c g s :
  allowed c b -> g_inv g s ->
  g_inv (DeleteIncomingEdge (mkEdge a0 (mkVertice b) c) g)
    (mkChannels (writers s) (readers s ∖ {[(c, b)]})).
Proof.
  intros Hcb Hi. pose proof Hi as [Hs Hd Hr He Ha]. unfold DeleteIncomingEdge, V_GetKey.
  cbn [e_value dst_ v_value].
  destruct (rv_dst (related (edges_ g) c) !! b) as [v|] eqn:E.
  2:{ assert ((c, b) ∉ readers s).
      { intros Hin. assert (rv_dst (related (edges_ g) c) !! b = Some (mkVertice b)) by by apply Hd.
        congruence. }
      eapply g_inv_ext; [| |exact Hi]; set_solver. }
  clear E. constructor; cbn [edges_ list_ writers readers].
  - intros c' k v'. rewrite related_insert. case_decide as Hc; [subst|]; apply Hs.
  - intros c' k v'. rewrite related_insert. case_decide as Hc; [subst|]; cbn [rv_dst].
    + rewrite lookup_delete_Some, Hd, elem_of_difference, elem_of_singleton. naive_solver.
    + rewrite Hd, elem_of_difference, elem_of_singleton. naive_solver.
  - rewrite (foldl_mk (fun l e => DeleteCompleteEdge e l) (fun item => mkEdge (snd item) (mkVertice b) c)).
    eapply rep_ext; [|apply rep_delete_all; [| |exact Hr]].
    + intros c' a b'. cbn beta. rewrite elem_of_difference, elem_of_singleton, list_elem_of_fmap. split.
      * intros [Hn [Hw Hb]]. split; [done|]. split; [done|]. intros [= -> ->]. apply Hn.
        exists (a, mkVertice a). split; [done|]. by apply elem_of_map_to_list, Hs.
      * intros [Hw [Hb Hn]]. split; [|done]. intros ([k v'] & [= _ -> ->] & _). done.
    + naive_solver.
    + intros e Hin. apply list_elem_of_fmap in Hin as ([k v'] & -> & Hin). done.
  - apply foldl_preserves; [|done]. intros. by apply endpoints_DeleteCompleteEdge.
  - intros c' b' [Hin _]%elem_of_difference. auto.
Qed.

Definition op_allowed (o : gop) : Prop :=
  match o with
  | GInsert e | GDelete e => v_value (dst_ e) <> "" -> allowed (e_value e) (v_value (dst_ e))
  | GDirection _ _ => True
  end.

Lemma g_inv_Insert e g s : op_allowed (GInsert e) -> g_inv g s -> g_inv (Insert e g) (chan_Insert e s).
Proof.
  destruct e as [[a] [b] c]. intros Hal Hi. unfold Insert, chan_Insert.
  destruct (IsValid _); cbn [negb]; [|done]. cbn [e_value src_ dst_ v_value]. cbv zeta.
  set (g1 := match edges_ g !! c with None => _ | Some _ => g end).
  assert (H1 : g_inv g1 s).
  { subst g1. destruct (edges_ g !! c) eqn:E; [done|]. destruct Hi as [Hs Hd Hr He Ha].
    assert (Hrel : forall c', related (<[c := no_related]> (edges_ g)) c' = related (edges_ g) c').
    { intros c'. rewrite related_insert. case_decide; [subst|done]. unfold related. by rewrite E. }
    constructor; cbn [edges_ list_]; auto; intros c' k v; rewrite Hrel; auto. }
  set (w' := if negb (IsDummy _) then {[(c, a)]} ∪ _ else _).
  set (g2 := if negb (IsDummy (mkVertice a)) then _ else _).
  assert (H2 : g_inv g2 (mkChannels w' (readers s))).
  { subst g2 w'. destruct (IsDummy _); cbn [negb]; [by destruct s|by apply g_inv_InsertOutgoingEdge]. }
  destruct (IsDummy (mkVertice b)) eqn:Eb; cbn [negb]; [done|].
  apply (g_inv_InsertIncomingEdge b _ _ _ (mkChannels w' (readers s))); [|done].
  apply Hal. by apply bool_decide_eq_false in Eb.
Qed.

Lemma g_inv_Delete e g s : op_allowed (GDelete e) -> g_inv g s -> g_inv (Delete e g) (chan_Delete e s).
Proof.
  destruct e as [[a] [b] c]. intros Hal Hi. unfold Delete, chan_Delete.
  destruct (IsValid _); cbn [negb]; [|done]. cbn [e_value src_ dst_ v_value]. cbv zeta.
  destruct (edges_ g !! c) as [rv|] eqn:E.
  2:{ assert (Hn : forall k, ((c, k) ∉ writers s) /\ ((c, k) ∉ readers s)).
      { intros k. pose proof (gi_src _ _ Hi c k (mkVertice k)) as H1.
        pose proof (gi_dst _ _ Hi c k (mkVertice k)) as H2. unfold related in H1, H2.
        rewrite E in H1, H2. cbn in H1, H2. rewrite lookup_empty in H1, H2. naive_solver. }
      pose proof (Hn a). pose proof (Hn b).
      eapply g_inv_ext; [| |exact Hi]; cbn [writers readers]; destruct (IsDummy _); cbn [negb];
        set_solver. }
  set (w' := if negb (IsDummy _) then writers s ∖ {[(c, a)]} else _).
  set (g2 := if negb (IsDummy (mkVertice a)) then _ else _).
  assert (H2 : g_inv g2 (mkChannels w' (readers s))).
  { subst g2 w'. destruct (IsDummy _); cbn [negb]; [by destruct s|by apply g_inv_DeleteOutgoingEdge]. }
  destruct (IsDummy (mkVertice b)) eqn:Eb; cbn [negb]; [done|].
  apply (g_inv_DeleteIncomingEdge b _ _ _ (mkChannels w' (readers s))); [|done].
  apply Hal. by apply bool_decide_eq_false in Eb.
Qed.

(** ** Questions *)

Lemma traverse_dom fuel end_ l visited q visited' l' x :
  traverse fuel end_ l visited q = Some (visited', l') -> is_Some (l !! x) -> is_Some (l' !! x).
Proof.
  revert l visited q. induction fuel as [|fuel IH]; intros l visited q Ht Hx; [done|].
  destruct q as [|curr rest]; cbn [traverse] in Ht; [congruence|]. cbv zeta in Ht.
  destruct (seen _ _); [by eapply IH|]. destruct (bool_decide _); [congruence|].
  eapply IH; [exact Ht|]. apply lookup_ensure_mono. by left.
Qed.

(** A list with the same adjacency and more keys. *)
Definition grown (l l' : AdjacencyList) : Prop :=
  (forall a, out l' a = out l a) /\ (forall x, is_Some (l !! x) -> is_Some (l' !! x)).

#[local] Instance grown_preorder : PreOrder grown.
Proof.
  split; [by intros l|]. intros l1 l2 l3 [H1 H2] [H3 H4]. split; [|by auto].
  intros a. by rewrite H3.
Qed.

Lemma LevelTraverse_spec start end_ l :
  exists b l', LevelTraverse (mkVertice start) (mkVertice end_) l = Some (b, l') /\
    grown l l' /\ (b = true <-> rtc (adjacent l) start end_).
Proof.
  destruct (LevelTraverse_correct start end_ l) as (b & l' & He & Ho & Hb).
  exists b, l'. split; [done|]. split; [|done]. split; [done|]. intros x Hx.
  unfold LevelTraverse in He.
  destruct (traverse _ _ _ _ _) as [[visited l'']|] eqn:E; [|done].
  injection He as _ <-. by eapply traverse_dom.
Qed.

Lemma rtc_adjacent_ext l l' a b : grown l l' -> rtc (adjacent l') a b <-> rtc (adjacent l) a b.
Proof.
  intros [Ho _]. pose proof (adjacent_ext l' l Ho) as Ha.
  split; apply rtc_subrel; intros x y; apply Ha.
Qed.

(** The answer for two vertices that are both in the lists. *)
Lemma GetDirectionOf_spec a b g :
  exists d l', GetDirectionOf (mkVertice a) (mkVertice b) g = Some (d, mkGraph (edges_ g) l') /\
    grown (list_ g) l' /\
    (a <> "" -> b <> "" -> is_Some (list_ g !! a) -> is_Some (list_ g !! b) ->
     (d = UPSTREAM <-> rtc (adjacent (list_ g)) a b) /\
     (d = DOWNSTREAM <-> ~ rtc (adjacent (list_ g)) a b /\ rtc (adjacent (list_ g)) b a)) /\
    (list_ g !! a = None \/ list_ g !! b = None -> d = UNREACHABLE).
Proof.
  unfold GetDirectionOf, IsDummy, V_GetKey. cbn [v_value].
  destruct (bool_decide (a = "") || bool_decide (b = "")) eqn:E.
  { exists UNREACHABLE, (list_ g). split; [by destruct g|]. split; [done|]. split; [|done].
    intros Ha Hb. rewrite !bool_decide_eq_false_2 in E by done. done. }
  destruct (list_ g !! a) eqn:Ea; [|exists UNREACHABLE, (list_ g);
    split; [by destruct g|split; [done|split; [by intros ?? []|done]]]].
  destruct (list_ g !! b) eqn:Eb; [|exists UNREACHABLE, (list_ g);
    split; [by destruct g|split; [done|split; [by intros ??? []|done]]]].
  destruct (LevelTraverse_spec a b (list_ g)) as (r1 & l1 & -> & Hg1 & Hr1).
  destruct r1.
  - exists UPSTREAM, l1. split; [done|]. split; [done|]. split; [|by intros []]. naive_solver.
  - destruct (LevelTraverse_spec b a l1) as (r2 & l2 & -> & Hg2 & Hr2).
    rewrite (rtc_adjacent_ext _ _ _ _ Hg1) in Hr2. exists (if r2 then DOWNSTREAM else UNREACHABLE), l2.
    split; [by destruct r2|]. split; [by transitivity l1|]. split; [|by intros []].
    destruct r2; naive_solver.
Qed.

Lemma g_inv_grown g s l' : grown (list_ g) l' -> g_inv g s -> g_inv (mkGraph (edges_ g) l') s.
Proof.
  intros [Ho Hk] [Hs Hd Hr He Ha]. constructor; auto; cbn [list_].
  - intros a k v. rewrite Ho. apply Hr.
  - intros a k v. rewrite Ho. intros. apply Hk. by eapply He.
Qed.

Lemma g_run_inv os g s :
  Forall op_allowed os -> g_inv g s ->
  exists g', g_run os g = Some g' /\ g_inv g' (foldl (fun s o => chan_step o s) s os).
Proof.
  revert g s. induction os as [|o os IH]; intros g s Hal Hi; [by exists g|].
  apply Forall_cons in Hal as [Ho Hal]. cbn [g_run foldl].
  destruct o as [e|e|[a] [b]]; cbn [g_step chan_step].
  - apply IH; [done|]. by apply g_inv_Insert.
  - apply IH; [done|]. by apply g_inv_Delete.
  - destruct (GetDirectionOf_spec a b g) as (d & l' & -> & Hg & _). cbn.
    apply IH; [done|]. by apply g_inv_grown.
Qed.

Lemma g_inv_new : g_inv graph_new (mkChannels ∅ ∅).
Proof.
  constructor.
  - intros c k v. unfold related. cbn. rewrite !lookup_empty. cbn. set_solver.
  - intros c k v. unfold related. cbn. rewrite !lookup_empty. cbn. set_solver.
  - intros a k v. unfold out. cbn. rewrite lookup_empty. cbn. rewrite lookup_empty. set_solver.
  - intros a k v. unfold out. cbn. rewrite lookup_empty. cbn. by rewrite lookup_empty.
  - set_solver.
Qed.

Lemma adjacent_feeds g s a b : g_inv g s -> adjacent (list_ g) a b <-> feeds s a b.
Proof.
  intros Hi. unfold adjacent, feeds. split.
  - intros (k & v & Hv & <-). apply (gi_rep _ _ Hi) in Hv. naive_solver.
  - intros (c & Hw & Hr). exists (c +:+ "_" +:+ b), (mkVertice b). split; [|done].
    apply (gi_rep _ _ Hi). by exists c.
Qed.

(** Both ends of a path of two different nodes are in the lists. *)
Lemma path_in_lists g s a b :
  g_inv g s -> a <> b -> rtc (feeds s) a b -> is_Some (list_ g !! a) /\ is_Some (list_ g !! b).
Proof.
  intros Hi Hab Hp.
  assert (Hn : forall x y, feeds s x y -> is_Some (list_ g !! x) /\ is_Some (list_ g !! y)).
  { intros x y Hxy. apply (adjacent_feeds g s x y Hi) in Hxy as (k & v & Hv & <-). split.
    - unfold out in Hv. destruct (list_ g !! x) eqn:E; [by eexists|]. cbn in Hv. by rewrite lookup_empty in Hv.
    - by eapply (gi_end _ _ Hi). }
  apply rtc_inv in Hp as [|(y & Hay & Hyb)]; [done|]. split; [apply (Hn _ _ Hay)|].
  apply rtc_inv_r in Hyb as [->|(z & _ & Hzb)]; [apply (Hn _ _ Hay)|apply (Hn _ _ Hzb)].
Qed.

Lemma rtc_feeds_adjacent g s a b :
  g_inv g s -> rtc (adjacent (list_ g)) a b <-> rtc (feeds s) a b.
Proof.
  intros Hi. split; apply rtc_subrel; intros x y; by apply adjacent_feeds.
Qed.

(** The answer of [GetDirectionOf], by the channels. *)
Lemma GetDirectionOf_feeds os a b :
  Forall op_allowed os -> a <> b -> a <> "" -> b <> "" ->
  exists g d g', g_run os graph_new = Some g /\
    GetDirectionOf (mkVertice a) (mkVertice b) g = Some (d, g') /\
    (d = UPSTREAM <-> rtc (feeds (chan_run os)) a b) /\
    (d = DOWNSTREAM <-> ~ rtc (feeds (chan_run os)) a b /\ rtc (feeds (chan_run os)) b a) /\
    (d = UNREACHABLE <-> ~ rtc (feeds (chan_run os)) a b /\ ~ rtc (feeds (chan_run os)) b a).
Proof.
  intros Hal Hab Ha Hb.
  destruct (g_run_inv os graph_new _ Hal g_inv_new) as (g & Hg & Hi). fold (chan_run os) in Hi.
  destruct (GetDirectionOf_spec a b g) as (d & l' & Hd & _ & Hin & Hout).
  exists g, d, (mkGraph (edges_ g) l'). split; [done|]. split; [done|].
  rewrite !(rtc_feeds_adjacent _ _ _ _ Hi) in Hin.
  pose proof (path_in_lists _ _ a b Hi Hab) as Hp1.
  pose proof (path_in_lists _ _ b a Hi (not_eq_sym Hab)) as Hp2.
  destruct (list_ g !! a) eqn:Ea; [destruct (list_ g !! b) eqn:Eb|].
  - destruct Hin as [Hu Hdn]; eauto. destruct d; naive_solver.
  - rewrite (Hout (or_intror eq_refl)). split_and!; naive_solver (eauto using is_Some_None).
  - rewrite (Hout (or_introl eq_refl)). split_and!; naive_solver (eauto using is_Some_None).
Qed.

(** After any sequence of edge insertions, deletions and questions, the search of
    [GetDirectionOf] ends and answers for two different nodes by reachability along the
    channels that one node writes and the next reads: upstream when the second can be
    reached from the first, else downstream when the first can be reached from the
    second, else unreachable; provided that the key [channel_node] of an adjacency entry
    tells its channel and its node. *)
Theorem graph_direction_correct os a b :
  Forall op_allowed os -> a <> b -> a <> "" -> b <> "" ->
  exists g d g', g_run os graph_new = Some g /\
    GetDirectionOf (mkVertice a) (mkVertice b) g = Some (d, g') /\
    (d = UPSTREAM <-> rtc (feeds (chan_run os)) a b) /\
    (d = DOWNSTREAM <-> ~ rtc (feeds (chan_run os)) a b /\ rtc (feeds (chan_run os)) b a) /\
    (d = UNREACHABLE <-> ~ rtc (feeds (chan_run os)) a b /\ ~ rtc (feeds (chan_run os)) b a).
Proof. apply GetDirectionOf_feeds. Qed.

End adjacency.

(** ** Node names without an underscore *)

Definition underscore : Ascii.ascii := Ascii.ascii_of_nat 95.

Fixpoint no_underscore (s : string) : bool :=
  match s with
  | EmptyString => true
  | String ch s' => negb (Ascii.eqb ch underscore) && no_underscore s'
  end.

Lemma no_underscore_app s t : no_underscore (s +:+ "_" +:+ t) = false.
Proof.
  induction s as [|ch s IH]; [done|].
  change (negb (Ascii.eqb ch underscore) && no_underscore (s +:+ "_" +:+ t) = false).
  by rewrite IH, andb_false_r.
Qed.

Lemma key_inj_no_underscore c b c' b' :
  no_underscore b = true -> no_underscore b' = true ->
  c +:+ "_" +:+ b = c' +:+ "_" +:+ b' -> c = c' /\ b = b'.
Proof.
  intros Hb Hb'. revert c'. induction c as [|ch c IH]; intros [|ch' c'] Hk.
  - change (String underscore b = String underscore b') in Hk. by injection Hk as ->.
  - change (String underscore b = String ch' (c' +:+ "_" +:+ b')) in Hk.
    injection Hk as _ ->. by rewrite no_underscore_app in Hb.
  - change (String ch (c +:+ "_" +:+ b) = String underscore b') in Hk.
    injection Hk as _ <-. by rewrite no_underscore_app in Hb'.
  - change (String ch (c +:+ "_" +:+ b) = String ch' (c' +:+ "_" +:+ b')) in Hk.
    injection Hk as -> Hk. destruct (IH c' Hk) as [-> ->]. done.
Qed.

Definition chain : list gop :=
  [GInsert (mkEdge (mkVertice "camera") (mkVertice "") "/image");
   GInsert (mkEdge (mkVertice "") (mkVertice "detector") "/image");
   GInsert (mkEdge (mkVertice "detector") (mkVertice "") "/objects");
   GInsert (mkEdge (mkVertice "") (mkVertice "planner") "/objects");
   GDirection (mkVertice "camera") (mkVertice "detector")].

Lemma graph_direction_correct_witness :
  exists g d g', g_run chain graph_new = Some g /\
    GetDirectionOf (mkVertice "planner") (mkVertice "camera") g = Some (d, g') /\
    (d = UPSTREAM <-> rtc (feeds (chan_run chain)) "planner" "camera").
Proof.
  destruct (graph_direction_correct (fun _ b => no_underscore b = true)
    key_inj_no_underscore chain "planner" "camera")
    as (g & d & g' & Hg & Hd & Hu & _); [| done..|].
  - repeat constructor.
  - exists g, d, g'. split; [exact Hg|]. split; [exact Hd|exact Hu].
Defined.

Example chain_direction :
  (GetDirectionOf (mkVertice "planner") (mkVertice "camera") <$> g_run chain graph_new)
    ≫= (fun r => fst <$> r) = Some DOWNSTREAM.
Proof. vm_compute. reflexivity. Qed.

(** Without that proviso an entry can replace another: the key [a_b_c] is both that of
    channel [a] to node [b_c] and that of channel [a_b] to node [c]. *)
Definition collision : list gop :=
  [GInsert (mkEdge (mkVertice "w") (mkVertice "") "a");
   GInsert (mkEdge (mkVertice "") (mkVertice "b_c") "a");
   GInsert (mkEdge (mkVertice "w") (mkVertice "") "a_b");
   GInsert (mkEdge (mkVertice "") (mkVertice "c") "a_b")].

(** Node [w] writes channel [a], node [b_c] reads it, and yet [GetDirectionOf] finds
    no path once the same writer has a channel [a_b] read by a node [c]. *)
Theorem graph_key_collision :
  feeds (chan_run collision) "w" "b_c" /\
  (g_run collision graph_new ≫= fun g =>
     fst <$> GetDirectionOf (mkVertice "w") (mkVertice "b_c") g) = Some UNREACHABLE.
Proof.
  split; [exists "a"; split; vm_compute; reflexivity|]. vm_compute. reflexivity.
Qed.
