(* ===== verification/Manager.v ===== *)
(** * Manager: joining and leaving the topology

    Models [cyber/service_discovery/specific_manager/manager.{h,cc}], the base class of
    the node, channel and service managers.  The derived class is a parameter: its
    state, with the base part in it, and its virtual [Check] and [Dispose].  Of the
    Fast-RTPS publisher and subscriber only whether they exist is kept; whether
    creating them, serializing a message and writing it succeed are arguments.  The
    messages handed to the listeners and to the publisher are logs. *)

From S2P Require Import Prelude Role.

Inductive ChangeType := CHANGE_NODE | CHANGE_CHANNEL | CHANGE_SERVICE | CHANGE_PARTICIPANT.
Inductive OperateType := OPT_JOIN | OPT_LEAVE.
Inductive RoleType :=
  ROLE_NODE | ROLE_WRITER | ROLE_READER | ROLE_SERVER | ROLE_CLIENT | ROLE_PARTICIPANT.

#[export] Instance ChangeType_eq_dec : EqDecision ChangeType.
Proof. solve_decision. Defined.
#[export] Instance OperateType_eq_dec : EqDecision OperateType.
Proof. solve_decision. Defined.
#[export] Instance RoleType_eq_dec : EqDecision RoleType.
Proof. solve_decision. Defined.

Definition role_num (r : RoleType) : Z :=
  match r with
  | ROLE_NODE => 1 | ROLE_WRITER => 2 | ROLE_READER => 3
  | ROLE_SERVER => 4 | ROLE_CLIENT => 5 | ROLE_PARTICIPANT => 6
  end.

(** [proto::ChangeMsg] as its getters read it. *)
Record ChangeMsg := mkMsg {
  timestamp : Z;
  change_type : ChangeType;
  operate_type : OperateType;
  role_type : RoleType;
  role_attr : RoleAttributes;
}.

#[export] Instance ChangeMsg_eq_dec : EqDecision ChangeMsg.
Proof. solve_decision. Defined.

Record Manager := mkManager {
  is_shutdown_ : bool;
  is_discovery_started_ : bool;
  allowed_role_ : Z;
  change_type_ : ChangeType;
  host_name_ : string;
  process_id_ : Z;
  channel_name_ : string;
  publisher_ : bool;
  subscriber_ : bool;
  listener_ : bool;
  notified : list ChangeMsg;
  published : list ChangeMsg;
}.

(** The constructor, with what the derived constructors set. *)
Definition manager_new (allowed : Z) (change : ChangeType) (channel host : string) (pid : Z) : Manager :=
  mkManager false false allowed change host pid channel false false false [] [].

Definition set_flags (shut started pub sub lis : bool) (m : Manager) : Manager :=
  mkManager shut started (allowed_role_ m) (change_type_ m) (host_name_ m) (process_id_ m)
    (channel_name_ m) pub sub lis (notified m) (published m).

Definition CreatePublisher (filled created : bool) (m : Manager) : bool * Manager :=
  if negb filled then (false, m)
  else (created, set_flags (is_shutdown_ m) (is_discovery_started_ m) created (subscriber_ m) (listener_ m) m).

Definition CreateSubscriber (filled created : bool) (m : Manager) : bool * Manager :=
  if negb filled then (false, m)
  else (created, set_flags (is_shutdown_ m) (is_discovery_started_ m) (publisher_ m) created true m).

Definition StopDiscovery (m : Manager) : Manager :=
  if negb (is_discovery_started_ m) then m
  else set_flags (is_shutdown_ m) false false false false m.

(** [pub] and [sub]: whether the attributes were filled in and the object created. *)
Definition StartDiscovery (participant : bool) (pub sub : bool * bool) (m : Manager)
    : bool * Manager :=
  if negb participant then (false, m)
  else if is_discovery_started_ m then (true, m)
  else
    let m1 := set_flags (is_shutdown_ m) true (publisher_ m) (subscriber_ m) (listener_ m) m in
    let '(ok1, m2) := CreatePublisher pub.1 pub.2 m1 in
    if negb ok1 then (false, StopDiscovery m2)
    else
      let '(ok2, m3) := CreateSubscriber sub.1 sub.2 m2 in
      if negb ok2 then (false, StopDiscovery m3) else (true, m3).

(** [signal_.DisconnectAllSlots()] leaves nobody to be notified. *)
Definition Shutdown (m : Manager) : Manager :=
  if is_shutdown_ m then m
  else StopDiscovery
    (set_flags true (is_discovery_started_ m) (publisher_ m) (subscriber_ m) (listener_ m) m).

Definition Convert (now : Z) (attr : RoleAttributes) (role : RoleType) (opt : OperateType)
    (m : Manager) : ChangeMsg :=
  mkMsg now (change_type_ m) opt role
    (mkRoleAttr (match host_name attr with None => Some (host_name_ m) | h => h end)
       (match process_id attr with None => Some (process_id_ m) | p => p end)
       (node_name attr) (node_id attr) (channel_name attr) (channel_id attr)
       (message_type attr) (proto_desc attr) (id attr) (service_name attr) (service_id attr)
       (host_ip attr) (qos_profile attr)).

Definition Notify (msg : ChangeMsg) (m : Manager) : Manager :=
  mkManager (is_shutdown_ m) (is_discovery_started_ m) (allowed_role_ m) (change_type_ m)
    (host_name_ m) (process_id_ m) (channel_name_ m) (publisher_ m) (subscriber_ m) (listener_ m)
    (notified m ++ [msg]) (published m).

Definition log_published (msg : ChangeMsg) (m : Manager) : Manager :=
  mkManager (is_shutdown_ m) (is_discovery_started_ m) (allowed_role_ m) (change_type_ m)
    (host_name_ m) (process_id_ m) (channel_name_ m) (publisher_ m) (subscriber_ m) (listener_ m)
    (notified m) (published m ++ [msg]).

Definition Publish (serialize write : ChangeMsg -> bool) (msg : ChangeMsg) (m : Manager)
    : bool * Manager :=
  if negb (is_discovery_started_ m) then (false, m)
  else if negb (serialize msg) then (false, m)
  else if publisher_ m then (write msg, log_published msg m)
  else (true, m).

Definition NeedPublish (msg : ChangeMsg) : bool := true.

Definition IsFromSameProcess (msg : ChangeMsg) (m : Manager) : bool :=
  let h := str_of (host_name (role_attr msg)) in
  let p := int_of (process_id (role_attr msg)) in
  if negb (p =? process_id_ m) || negb (bool_decide (h = host_name_ m)) then false else true.

(** ** The operations that call the derived class *)

Class Derived (S : Type) := {
  base : S -> Manager;
  set_base : Manager -> S -> S;
  Check_ : RoleAttributes -> bool;
  Dispose_ : ChangeMsg -> S -> S;
}.

Section derived.
Context {S : Type} `{!Derived S} (serialize write : ChangeMsg -> bool).

Definition role_allowed (role : RoleType) (m : Manager) : bool :=
  negb (Z.land (Z.shiftl 1 (role_num role)) (allowed_role_ m) =? 0).

Definition Join (now : Z) (attr : RoleAttributes) (role : RoleType) (need_publish : bool) (s : S)
    : bool * S :=
  if is_shutdown_ (base s) then (false, s)
  else if negb (role_allowed role (base s)) then (false, s)
  else if negb (Check_ attr) then (false, s)
  else
    let msg := Convert now attr role OPT_JOIN (base s) in
    let s1 := Dispose_ msg s in
    if need_publish then
      let '(ok, m) := Publish serialize write msg (base s1) in (ok, set_base m s1)
    else (true, s1).

Definition Leave (now : Z) (attr : RoleAttributes) (role : RoleType) (s : S) : bool * S :=
  if is_shutdown_ (base s) then (false, s)
  else if negb (role_allowed role (base s)) then (false, s)
  else if negb (Check_ attr) then (false, s)
  else
    let msg := Convert now attr role OPT_LEAVE (base s) in
    let s1 := Dispose_ msg s in
    if NeedPublish msg then
      let '(ok, m) := Publish serialize write msg (base s1) in (ok, set_base m s1)
    else (true, s1).

(** [parsed] is what [message::ParseFromString] makes of the received string. *)
Definition OnRemoteChange (parsed : option ChangeMsg) (s : S) : S :=
  if is_shutdown_ (base s) then s
  else match parsed with
       | None => s
       | Some msg =>
           if IsFromSameProcess msg (base s) then s
           else if negb (Check_ (role_attr msg)) then s
           else Dispose_ msg s
       end.

End derived.

(** ** Facts *)

Lemma Convert_own now attr role opt m :
  host_name attr = None -> process_id attr = None ->
  host_name (role_attr (Convert now attr role opt m)) = Some (host_name_ m) /\
  process_id (role_attr (Convert now attr role opt m)) = Some (process_id_ m).
Proof. intros Hh Hp. unfold Convert. cbn. by rewrite Hh, Hp. Qed.

Lemma IsFromSameProcess_spec msg m :
  IsFromSameProcess msg m = true <->
  str_of (host_name (role_attr msg)) = host_name_ m /\
  int_of (process_id (role_attr msg)) = process_id_ m.
Proof.
  unfold IsFromSameProcess.
  destruct (Z.eqb_spec (int_of (process_id (role_attr msg))) (process_id_ m)); cbn [negb orb];
    [case_bool_decide|]; cbn [negb]; naive_solver.
Qed.
