(* ===== verification/ChannelManager.v ===== *)
(** * ChannelManager: the writers and readers of the topology

    Models [cyber/service_discovery/specific_manager/channel_manager.{h,cc}]: the
    writers and readers by node and by channel, the graph between nodes, the handling
    of joins, leaves and departed processes, and the queries.  The containers are any
    that keep the promise of the warehouse interface with several roles under a key;
    the source uses [MultiValueWarehouse] for all four.  [ScanMessageType] only writes
    error lines: the attributes it complains about are a log.  The queries register
    the name they ask for with [GlobalData]. *)

From S2P Require Import Prelude Role Warehouse MultiValueWarehouse Graph AtomicHashMap GlobalData Manager.

Record ChannelManager (W : Type) := mkCM {
  cm_base : Manager;
  exempted_msg_types_ : list string;
  node_graph_ : Graph;
  node_writers_ : W;
  node_readers_ : W;
  channel_writers_ : W;
  channel_readers_ : W;
  registered_protos : list string;
  mismatches : list RoleAttributes;
}.
Arguments mkCM {W}.
Arguments cm_base {W}.
Arguments exempted_msg_types_ {W}.
Arguments node_graph_ {W}.
Arguments node_writers_ {W}.
Arguments node_readers_ {W}.
Arguments channel_writers_ {W}.
Arguments channel_readers_ {W}.
Arguments registered_protos {W}.
Arguments mismatches {W}.

Section channel_manager.
Context {W : Type} `{!Warehouse W}.
Implicit Types cm : ChannelManager W.

(** The constructor; [raw] and [py] are the type names of [RawMessage] and [PyMessageWrap]. *)
Definition cm_new (raw py host : string) (pid : Z) : ChannelManager W :=
  mkCM (manager_new (Z.lor (Z.shiftl 1 (role_num ROLE_WRITER)) (Z.shiftl 1 (role_num ROLE_READER)))
          CHANGE_CHANNEL "channel_change_broadcast" host pid)
    [raw; py] graph_new w_empty w_empty w_empty w_empty [] [].

Definition cm_set_base (m : Manager) cm : ChannelManager W :=
  mkCM m (exempted_msg_types_ cm) (node_graph_ cm) (node_writers_ cm) (node_readers_ cm)
    (channel_writers_ cm) (channel_readers_ cm) (registered_protos cm) (mismatches cm).

Definition cm_set_writers (nw cw : W) cm : ChannelManager W :=
  mkCM (cm_base cm) (exempted_msg_types_ cm) (node_graph_ cm) nw (node_readers_ cm)
    cw (channel_readers_ cm) (registered_protos cm) (mismatches cm).

Definition cm_set_readers (nr cr : W) cm : ChannelManager W :=
  mkCM (cm_base cm) (exempted_msg_types_ cm) (node_graph_ cm) (node_writers_ cm) nr
    (channel_writers_ cm) cr (registered_protos cm) (mismatches cm).

Definition cm_set_graph (g : Graph) cm : ChannelManager W :=
  mkCM (cm_base cm) (exempted_msg_types_ cm) g (node_writers_ cm) (node_readers_ cm)
    (channel_writers_ cm) (channel_readers_ cm) (registered_protos cm) (mismatches cm).

Definition cm_set_logs (ps : list string) (ms : list RoleAttributes) cm : ChannelManager W :=
  mkCM (cm_base cm) (exempted_msg_types_ cm) (node_graph_ cm) (node_writers_ cm) (node_readers_ cm)
    (channel_writers_ cm) (channel_readers_ cm) ps ms.

(** ** Joins and leaves *)

Definition Check (attr : RoleAttributes) : bool :=
  if negb (bool_decide (is_Some (channel_name attr))) then false
  else if negb (bool_decide (is_Some (channel_id attr))) then false
  else if negb (bool_decide (is_Some (id attr))) then false
  else true.

Definition IsMessageTypeMatching (lhs rhs : string) cm : bool :=
  if bool_decide (lhs = rhs) then true
  else if bool_decide (lhs ∈ exempted_msg_types_ cm) then true
  else if bool_decide (rhs ∈ exempted_msg_types_ cm) then true
  else false.

Definition ScanMessageType (msg : ChangeMsg) cm : ChannelManager W :=
  let key := int_of (channel_id (role_attr msg)) in
  let mine := str_of (message_type (role_attr msg)) in
  let bad (a : RoleAttributes) := negb (IsMessageTypeMatching mine (str_of (message_type a)) cm) in
  let existed_writers := (w_Search_key_roles_attr key [] (channel_writers_ cm)).2 in
  let existed_readers := (w_Search_key_roles_attr key [] (channel_readers_ cm)).2 in
  cm_set_logs (registered_protos cm)
    (mismatches cm ++ List.filter bad existed_writers ++ List.filter bad existed_readers) cm.

Definition DisposeJoin (msg : ChangeMsg) cm : ChannelManager W :=
  let cm := ScanMessageType msg cm in
  let a := role_attr msg in
  let v := mkVertice (str_of (node_name a)) in
  let none := mkVertice "" in
  let c := str_of (channel_name a) in
  let role := mkRole RoleWriter a (timestamp msg) in
  match role_type msg with
  | ROLE_WRITER =>
      let cm := if bool_decide (is_Some (proto_desc a)) && negb (bool_decide (str_of (proto_desc a) = ""))
                then cm_set_logs (registered_protos cm ++ [str_of (proto_desc a)]) (mismatches cm) cm
                else cm in
      let cm := cm_set_writers (w_Add (int_of (node_id a)) role true (node_writers_ cm)).2
                  (w_Add (int_of (channel_id a)) role true (channel_writers_ cm)).2 cm in
      cm_set_graph (Insert (mkEdge v none c) (node_graph_ cm)) cm
  | _ =>
      let cm := cm_set_readers (w_Add (int_of (node_id a)) role true (node_readers_ cm)).2
                  (w_Add (int_of (channel_id a)) role true (channel_readers_ cm)).2 cm in
      cm_set_graph (Insert (mkEdge none v c) (node_graph_ cm)) cm
  end.

Definition DisposeLeave (msg : ChangeMsg) cm : ChannelManager W :=
  let a := role_attr msg in
  let v := mkVertice (str_of (node_name a)) in
  let none := mkVertice "" in
  let c := str_of (channel_name a) in
  let role := mkRole RoleWriter a 0 in
  match role_type msg with
  | ROLE_WRITER =>
      let cm := cm_set_writers (w_Remove_role (int_of (node_id a)) role (node_writers_ cm))
                  (w_Remove_role (int_of (channel_id a)) role (channel_writers_ cm)) cm in
      cm_set_graph (Delete (mkEdge v none c) (node_graph_ cm)) cm
  | _ =>
      let cm := cm_set_readers (w_Remove_role (int_of (node_id a)) role (node_readers_ cm))
                  (w_Remove_role (int_of (channel_id a)) role (channel_readers_ cm)) cm in
      cm_set_graph (Delete (mkEdge none v c) (node_graph_ cm)) cm
  end.

Definition Dispose (msg : ChangeMsg) cm : ChannelManager W :=
  let cm := match operate_type msg with
            | OPT_JOIN => DisposeJoin msg cm
            | OPT_LEAVE => DisposeLeave msg cm
            end in
  cm_set_base (Notify msg (cm_base cm)) cm.

#[global] Instance cm_Derived : Derived (ChannelManager W) := {|
  base := cm_base;
  set_base := cm_set_base;
  Check_ := Check;
  Dispose_ := Dispose;
|}.

(** The attributes of a process. *)
Definition process_attr (host : string) (pid : Z) : RoleAttributes :=
  mkAttr (Some host) (Some pid) None None None None None None None None None.

(** One iteration of the loops of [OnTopoModuleLeave]. *)
Definition leave_one (now : Z) (rt : RoleType) cm (r : Role) : ChannelManager W :=
  let msg := Convert now (attributes_ r) rt OPT_LEAVE (cm_base cm) in
  let cm := DisposeLeave msg cm in
  cm_set_base (Notify msg (cm_base cm)) cm.

Definition OnTopoModuleLeave (now : Z) (host : string) (pid : Z) cm : ChannelManager W :=
  if negb (is_discovery_started_ (cm_base cm)) then cm
  else
    let attr := process_attr host pid in
    let writers_to_remove := (w_Search_attr_roles attr [] (channel_writers_ cm)).2 in
    let readers_to_remove := (w_Search_attr_roles attr [] (channel_readers_ cm)).2 in
    let cm := foldl (leave_one now ROLE_WRITER) cm writers_to_remove in
    foldl (leave_one now ROLE_READER) cm readers_to_remove.

(** ** Queries *)

Section queries.
Context (hash : string -> Z).
Abbreviation RoleAttrVec := (list RoleAttributes).

Definition GetChannelNames (channels : list string) cm : list string :=
  let roles := w_GetAllRoles (w_GetAllRoles [] (channel_writers_ cm)) (channel_readers_ cm) in
  let local_channels : gset string :=
    foldl (fun s role => {[str_of (channel_name (attributes_ role))]} ∪ s) ∅ roles in
  channels ++ elements local_channels.

Definition GetProtoDesc (name proto_desc_ : string) (gd : GlobalData) cm
    : option (string * GlobalData) :=
  '(key, gd) ← RegisterChannel hash name gd;
  Some (match w_Search_key_role key (channel_writers_ cm) with
        | None => proto_desc_
        | Some writer => default proto_desc_ (proto_desc (attributes_ writer))
        end, gd).

Definition GetMsgType (name msg_type : string) (gd : GlobalData) cm : option (string * GlobalData) :=
  '(key, gd) ← RegisterChannel hash name gd;
  Some (match w_Search_key_role key (channel_writers_ cm) with
        | None => msg_type
        | Some writer => default msg_type (message_type (attributes_ writer))
        end, gd).

Definition HasWriter (name : string) (gd : GlobalData) cm : option (bool * GlobalData) :=
  '(key, gd) ← RegisterChannel hash name gd;
  Some (w_Search_key key (channel_writers_ cm), gd).

Definition GetWriters (writers : RoleAttrVec) cm : RoleAttrVec :=
  w_GetAllRoles_attr writers (channel_writers_ cm).

Definition GetWritersOfNode (name : string) (writers : RoleAttrVec) (gd : GlobalData) cm
    : option (RoleAttrVec * GlobalData) :=
  '(key, gd) ← RegisterNode hash name gd;
  Some ((w_Search_key_roles_attr key writers (node_writers_ cm)).2, gd).

Definition GetWritersOfChannel (name : string) (writers : RoleAttrVec) (gd : GlobalData) cm
    : option (RoleAttrVec * GlobalData) :=
  '(key, gd) ← RegisterChannel hash name gd;
  Some ((w_Search_key_roles_attr key writers (channel_writers_ cm)).2, gd).

Definition HasReader (name : string) (gd : GlobalData) cm : option (bool * GlobalData) :=
  '(key, gd) ← RegisterChannel hash name gd;
  Some (w_Search_key key (channel_readers_ cm), gd).

Definition GetReaders (readers : RoleAttrVec) cm : RoleAttrVec :=
  w_GetAllRoles_attr readers (channel_readers_ cm).

Definition GetReadersOfNode (name : string) (readers : RoleAttrVec) (gd : GlobalData) cm
    : option (RoleAttrVec * GlobalData) :=
  '(key, gd) ← RegisterNode hash name gd;
  Some ((w_Search_key_roles_attr key readers (node_readers_ cm)).2, gd).

Definition GetReadersOfChannel (name : string) (readers : RoleAttrVec) (gd : GlobalData) cm
    : option (RoleAttrVec * GlobalData) :=
  '(key, gd) ← RegisterChannel hash name gd;
  Some ((w_Search_key_roles_attr key readers (channel_readers_ cm)).2, gd).

(** [for (auto& channel : channels) get(channel, &out)] *)
Fixpoint over_channels (get : string -> RoleAttrVec -> GlobalData -> option (RoleAttrVec * GlobalData))
    (channels : list string) (out : RoleAttrVec) (gd : GlobalData)
    : option (RoleAttrVec * GlobalData) :=
  match channels with
  | [] => Some (out, gd)
  | c :: channels' => '(out, gd) ← get c out gd; over_channels get channels' out gd
  end.

(** The attributes of a role's node. *)
Definition node_attr (a : RoleAttributes) : RoleAttributes :=
  mkAttr (Some (str_of (host_name a))) (Some (int_of (process_id a)))
    (Some (str_of (node_name a))) (Some (int_of (node_id a)))
    None None None None None None None.

Definition distinct_nodes (found : RoleAttrVec) : gmap string RoleAttributes :=
  foldl (fun nodes a => <[str_of (node_name a) := node_attr a]> nodes) ∅ found.

Definition channel_set (roles : RoleAttrVec) : gset string :=
  foldl (fun s a => {[str_of (channel_name a)]} ∪ s) ∅ roles.

Definition GetUpstreamOfNode (name : string) (upstream_nodes : RoleAttrVec) (gd : GlobalData) cm
    : option (RoleAttrVec * GlobalData) :=
  '(readers, gd) ← GetReadersOfNode name [] gd cm;
  if bool_decide (readers = []) then Some (upstream_nodes, gd)
  else
    '(writers, gd) ← over_channels (fun c out gd => GetWritersOfChannel c out gd cm)
                       (elements (channel_set readers)) [] gd;
    Some (upstream_nodes ++ (map_to_list (distinct_nodes writers)).*2, gd).

Definition GetDownstreamOfNode (name : string) (downstream_nodes : RoleAttrVec) (gd : GlobalData) cm
    : option (RoleAttrVec * GlobalData) :=
  '(writers, gd) ← GetWritersOfNode name [] gd cm;
  if bool_decide (writers = []) then Some (downstream_nodes, gd)
  else
    '(readers, gd) ← over_channels (fun c out gd => GetReadersOfChannel c out gd cm)
                       (elements (channel_set writers)) [] gd;
    Some (downstream_nodes ++ (map_to_list (distinct_nodes readers)).*2, gd).

Definition GetFlowDirection (lhs_node_name rhs_node_name : string) cm
    : option (FlowDirection * ChannelManager W) :=
  '(d, g) ← GetDirectionOf (mkVertice lhs_node_name) (mkVertice rhs_node_name) (node_graph_ cm);
  Some (d, cm_set_graph g cm).

End queries.

(** ** The roles the manager stands for *)

(** The writers and the readers, as bags of roles. *)
Record members := mkMembers { writers_of : list Role; readers_of : list Role }.

Definition leave_roles (a : RoleAttributes) (l : list Role) : list Role :=
  filter (fun r => Match r a = false) l.

Definition spec_Dispose (msg : ChangeMsg) (s : members) : members :=
  match operate_type msg, role_type msg with
  | OPT_JOIN, ROLE_WRITER =>
      mkMembers (mkRole RoleWriter (role_attr msg) (timestamp msg) :: writers_of s) (readers_of s)
  | OPT_JOIN, _ =>
      mkMembers (writers_of s) (mkRole RoleWriter (role_attr msg) (timestamp msg) :: readers_of s)
  | OPT_LEAVE, ROLE_WRITER => mkMembers (leave_roles (role_attr msg) (writers_of s)) (readers_of s)
  | OPT_LEAVE, _ => mkMembers (writers_of s) (leave_roles (role_attr msg) (readers_of s))
  end.

(** The entries of a container keyed by [key]. *)
Definition keyed (key : RoleAttributes -> option Z) (l : list Role) : list entry :=
  (fun r => (int_of (key (attributes_ r)), r)) <$> l.

Record view (cm : ChannelManager W) (s : members) : Prop := {
  vw_node_writers : entries (node_writers_ cm) ≡ₚ keyed node_id (writers_of s);
  vw_channel_writers : entries (channel_writers_ cm) ≡ₚ keyed channel_id (writers_of s);
  vw_node_readers : entries (node_readers_ cm) ≡ₚ keyed node_id (readers_of s);
  vw_channel_readers : entries (channel_readers_ cm) ≡ₚ keyed channel_id (readers_of s);
  vw_writer : Forall (fun r => kind r = RoleWriter) (writers_of s ++ readers_of s);
}.

(** A message names the node and the channel of its role. *)
Definition msg_ok (msg : ChangeMsg) : Prop :=
  is_Some (node_id (role_attr msg)) /\ is_Some (channel_id (role_attr msg)).

Context `{!WarehouseLaws W}.
Hypothesis several : multi = true.

Lemma Match_writer_keys r a :
  kind r = RoleWriter -> Match r a = true ->
  (forall n, node_id a = Some n -> int_of (node_id (attributes_ r)) = n) /\
  (forall c, channel_id a = Some c -> int_of (channel_id (attributes_ r)) = c).
Proof.
  unfold Match, RoleWriter_Match, RoleBase_Match, int_of. intros ->.
  repeat case_if; try done. intros _. split; intros x Hx; rewrite Hx in *;
    by apply field_differs_false.
Qed.

Lemma keyed_filter key k a l :
  Forall (fun r => kind r = RoleWriter) l ->
  (forall r, kind r = RoleWriter -> Match r a = true -> int_of (key (attributes_ r)) = k) ->
  spec_Remove_role k a (keyed key l) = keyed key (leave_roles a l).
Proof.
  intros Hl Hk. unfold spec_Remove_role, keyed, leave_roles.
  induction Hl as [|r l Hr Hl IH]; [done|]. rewrite fmap_cons, !filter_cons, IH. cbn [fst snd].
  destruct (Match r a) eqn:E.
  - rewrite decide_False, decide_False; [done|done|]. intros Hn. by apply Hn, conj; [apply Hk|].
  - rewrite decide_True, decide_True; [done|done|]. by intros [_ ?].
Qed.

Lemma Forall_leave P a l : Forall P l -> Forall P (leave_roles a l).
Proof.
  rewrite !Forall_forall. intros Hl r Hr. apply Hl. by apply list_elem_of_filter in Hr as [_ ?].
Qed.

Lemma view_ext cm cm' s :
  node_writers_ cm = node_writers_ cm' -> node_readers_ cm = node_readers_ cm' ->
  channel_writers_ cm = channel_writers_ cm' -> channel_readers_ cm = channel_readers_ cm' ->
  view cm s -> view cm' s.
Proof. intros H1 H2 H3 H4 [V1 V2 V3 V4 V5]. constructor; congruence. Qed.

Lemma add_entries k r (w : W) : entries (w_Add k r true w).2 ≡ₚ (k, r) :: entries w.
Proof. destruct (wl_Add k r true w) as [_ ->]. unfold spec_Add. cbn. by rewrite several. Qed.

Lemma view_DisposeJoin msg cm s :
  view cm s -> operate_type msg = OPT_JOIN -> view (DisposeJoin msg cm) (spec_Dispose msg s).
Proof.
  intros [V1 V2 V3 V4 V5] Ho. unfold spec_Dispose, DisposeJoin. rewrite Ho.
  apply Forall_app in V5 as [V5 V6].
  destruct (role_type msg); [|destruct (bool_decide _ && _)|..];
    constructor; cbn; rewrite ?add_entries, ?V1, ?V2, ?V3, ?V4;
    first [done | repeat first [apply Forall_cons; split|apply Forall_app; split]; done].
Qed.

Lemma view_DisposeLeave msg cm s :
  view cm s -> operate_type msg = OPT_LEAVE -> msg_ok msg ->
  view (DisposeLeave msg cm) (spec_Dispose msg s).
Proof.
  intros [V1 V2 V3 V4 V5] Ho [[n Hn] [c Hc]]. unfold spec_Dispose, DisposeLeave. rewrite Ho.
  apply Forall_app in V5 as [V5 V6].
  assert (Hrm : forall l (w : W), Forall (fun r => kind r = RoleWriter) l ->
    (entries w ≡ₚ keyed node_id l ->
     entries (w_Remove_role (int_of (node_id (role_attr msg))) (mkRole RoleWriter (role_attr msg) 0) w)
       ≡ₚ keyed node_id (leave_roles (role_attr msg) l)) /\
    (entries w ≡ₚ keyed channel_id l ->
     entries (w_Remove_role (int_of (channel_id (role_attr msg))) (mkRole RoleWriter (role_attr msg) 0) w)
       ≡ₚ keyed channel_id (leave_roles (role_attr msg) l))).
  { intros l w Hl. rewrite !wl_Remove_role. cbn [attributes_].
    split; intros ->; rewrite keyed_filter; try done;
      intros r Hk Hm; destruct (Match_writer_keys r _ Hk Hm) as [H1 H2];
      [rewrite Hn; by apply H1|rewrite Hc; by apply H2]. }
  destruct (role_type msg); constructor; cbn; try done;
    first [by apply (fun w => proj1 (Hrm _ w V5)) | by apply (fun w => proj2 (Hrm _ w V5))
      | by apply (fun w => proj1 (Hrm _ w V6)) | by apply (fun w => proj2 (Hrm _ w V6))
      | apply Forall_app; split; try done; by apply Forall_leave].
Qed.

Lemma view_Dispose msg cm s : view cm s -> msg_ok msg -> view (Dispose msg cm) (spec_Dispose msg s).
Proof.
  intros Hv Hm. unfold Dispose. destruct (operate_type msg) eqn:Ho.
  - eapply view_ext; [..|by apply view_DisposeJoin]; done.
  - eapply view_ext; [..|by apply view_DisposeLeave]; done.
Qed.

Lemma view_run msgs cm s :
  view cm s -> Forall msg_ok msgs ->
  view (foldl (fun cm msg => Dispose msg cm) cm msgs) (foldl (fun s msg => spec_Dispose msg s) s msgs).
Proof.
  intros Hv Hms. revert cm s Hv. induction Hms as [|msg msgs Hm Hms IH]; intros cm s Hv; [done|].
  cbn. by apply IH, view_Dispose.
Qed.

Lemma view_new raw py host pid : view (cm_new raw py host pid) (mkMembers [] []).
Proof. constructor; cbn; rewrite ?wl_empty; by try constructor. Qed.

(** ** What the queries answer *)

Definition of_key (key : RoleAttributes -> option Z) (k : Z) (l : list Role) : list Role :=
  filter (fun r => int_of (key (attributes_ r)) = k) l.

Lemma spec_Search_keyed key k l : spec_Search_key k (keyed key l) = of_key key k l.
Proof.
  unfold spec_Search_key, keyed, of_key. induction l as [|r l IH]; [done|].
  rewrite fmap_cons, !filter_cons. cbn [fst]. case_decide; [rewrite fmap_cons; cbn; by f_equal|done].
Qed.

Lemma keyed_roles key l : (keyed key l).*2 = l.
Proof. unfold keyed. rewrite <- list_fmap_compose. apply list_fmap_id. Qed.

(** The search of a container for a key. *)
Lemma search_key_view (w : W) key l k :
  entries w ≡ₚ keyed key l ->
  exists m, m ≡ₚ of_key key k l /\ w_Search_key k w = nonempty m /\
    forall out, (w_Search_key_roles_attr k out w).2 = out ++ (attributes_ <$> m).
Proof.
  intros He. destruct (wl_Search_key k w) as (Hok & _ & _ & m & Hm & Ho).
  exists m. split_and!.
  - by rewrite Hm, He, spec_Search_keyed.
  - rewrite Hok. apply nonempty_perm. by symmetry.
  - intros out. by destruct (Ho [] out) as [_ ->].
Qed.

Lemma all_roles_view (w : W) key l :
  entries w ≡ₚ keyed key l ->
  exists m, m ≡ₚ l /\ forall out, w_GetAllRoles_attr out w = out ++ (attributes_ <$> m).
Proof.
  intros He. destruct (wl_GetAllRoles w) as (m & Hm & Ho). exists m. split.
  - by rewrite Hm, He, keyed_roles.
  - intros out. by destruct (Ho [] out) as [_ ->].
Qed.

(** ** A process that departs *)

Definition role_ok (r : Role) : Prop :=
  is_Some (host_name (attributes_ r)) /\ is_Some (process_id (attributes_ r)) /\
  is_Some (node_id (attributes_ r)) /\ is_Some (channel_id (attributes_ r)).

Definition in_process (host : string) (pid : Z) (r : Role) : bool :=
  Match r (process_attr host pid).

Definition leave_process (host : string) (pid : Z) (l : list Role) : list Role :=
  filter (fun r => in_process host pid r = false) l.

Lemma Convert_id now a rt opt m :
  is_Some (host_name a) -> is_Some (process_id a) -> role_attr (Convert now a rt opt m) = a.
Proof. intros [h Hh] [p Hp]. unfold Convert. cbn. rewrite Hh, Hp. by destruct a; cbn in *; subst. Qed.

Lemma leave_all L l :
  foldl (fun l r => leave_roles (attributes_ r) l) l L =
  filter (fun r => Forall (fun r' => Match r (attributes_ r') = false) L) l.
Proof.
  revert l. induction L as [|r' L IH]; intros l; cbn [foldl].
  - induction l as [|r l IHl]; [done|]. rewrite filter_cons, decide_True by done. by f_equal.
  - rewrite IH. unfold leave_roles. rewrite list_filter_filter. apply list_filter_iff.
    intros r. rewrite Forall_cons. tauto.
Qed.

(** Every role of the process matches itself, and whoever matches one is of the process. *)
Lemma leave_all_process host pid L l :
  Forall role_ok L -> L ≡ₚ filter (fun r => in_process host pid r = true) l ->
  foldl (fun l r => leave_roles (attributes_ r) l) l L = leave_process host pid l.
Proof.
  intros Hok HL. rewrite leave_all. unfold leave_process.
  assert (HinL : forall r, r ∈ L <-> in_process host pid r = true /\ r ∈ l).
  { intros r. by rewrite HL, list_elem_of_filter. }
  clear HL. assert (Hsub : l ⊆ l) by done. revert Hsub. generalize l at 1 3 4 as l'.
  induction l' as [|r l' IH]; intros Hsub; [done|]. rewrite !filter_cons.
  destruct (in_process host pid r) eqn:E.
  - rewrite (decide_False (P := true = false)) by done. rewrite decide_False; [apply IH; set_solver|].
    rewrite Forall_forall. intros Hf. assert (Hr : r ∈ L) by (apply HinL; split; [done|set_solver]).
    specialize (Hf r Hr). by rewrite Match_self in Hf.
  - rewrite (decide_True (P := false = false)) by done. rewrite decide_True; [f_equal; apply IH; set_solver|].
    rewrite Forall_forall. intros r' Hr'. apply not_true_is_false. intros Hm.
    assert (in_process host pid r = true); [|congruence].
    destruct (proj1 (HinL r') Hr') as [Hp' _]. unfold in_process in *.
    apply Match_process in Hp' as [Hh' Hpid']. apply Match_process.
    rewrite Forall_forall in Hok. destruct (Hok r' Hr') as ([h Hh] & [p Hp] & _).
    unfold str_of, int_of in Hh', Hpid'. rewrite Hh in Hh'. rewrite Hp in Hpid'. cbn in Hh', Hpid'. subst.
    by apply (Match_host_pid r (attributes_ r')).
Qed.

(** The message that tells of a departed role. *)
Definition leave_msg (now : Z) (rt : RoleType) (cm : ChannelManager W) (r : Role) : ChangeMsg :=
  mkMsg now (change_type_ (cm_base cm)) OPT_LEAVE rt (attributes_ r).

Lemma Convert_leave now rt cm r :
  role_ok r -> Convert now (attributes_ r) rt OPT_LEAVE (cm_base cm) = leave_msg now rt cm r.
Proof.
  intros (Hh & Hp & _). pose proof (Convert_id now (attributes_ r) rt OPT_LEAVE (cm_base cm) Hh Hp) as Ha.
  unfold leave_msg, Convert in *. cbn [role_attr] in Ha. by rewrite Ha.
Qed.

Lemma base_DisposeLeave msg cm : cm_base (DisposeLeave msg cm) = cm_base cm.
Proof. unfold DisposeLeave. by destruct (role_type msg). Qed.

(** The loop over the departed roles [L] of one type. *)
Lemma leave_loop now rt L cm s :
  view cm s -> Forall role_ok L ->
  let cm' := foldl (leave_one now rt) cm L in
  let gone l := foldl (fun l r => leave_roles (attributes_ r) l) l L in
  view cm' (match rt with
            | ROLE_WRITER => mkMembers (gone (writers_of s)) (readers_of s)
            | _ => mkMembers (writers_of s) (gone (readers_of s))
            end) /\
  notified (cm_base cm') = notified (cm_base cm) ++ (leave_msg now rt cm <$> L) /\
  change_type_ (cm_base cm') = change_type_ (cm_base cm).
Proof.
  intros Hv HL. revert cm s Hv. induction HL as [|r L Hr HL IH]; intros cm s Hv cm' gone.
  { cbn in *. rewrite app_nil_r. destruct s. by destruct rt. }
  assert (Hv1 : view (leave_one now rt cm r) (spec_Dispose (leave_msg now rt cm r) s)).
  { unfold leave_one. rewrite (Convert_leave now rt cm r Hr).
    eapply view_ext; [..|apply (view_DisposeLeave (leave_msg now rt cm r) cm s Hv)]; try done.
    destruct Hr as (_ & _ & Hn & Hc). exact (conj Hn Hc). }
  assert (Hb : cm_base (leave_one now rt cm r) = Notify (leave_msg now rt cm r) (cm_base cm)).
  { unfold leave_one. rewrite (Convert_leave now rt cm r Hr). cbn. by rewrite base_DisposeLeave. }
  destruct (IH _ _ Hv1) as (H1 & H2 & H3). subst cm' gone. cbn [foldl fmap list_fmap].
  split; [|split].
  - by destruct rt.
  - rewrite H2, Hb. cbn [notified Notify]. rewrite <- app_assoc. cbn. f_equal. f_equal.
    apply list_fmap_ext. intros i r' _. unfold leave_msg. by rewrite Hb.
  - by rewrite H3, Hb.
Qed.

Lemma spec_Search_attr_keyed key a l :
  spec_Search_attr a (keyed key l) = filter (fun r => Match r a = true) l.
Proof.
  unfold spec_Search_attr, keyed. induction l as [|r l IH]; [done|].
  rewrite fmap_cons, !filter_cons. cbn [snd].
  case_decide; [rewrite fmap_cons; cbn; by f_equal|done].
Qed.

Lemma search_process (w : W) key l host pid :
  entries w ≡ₚ keyed key l ->
  (w_Search_attr_roles (process_attr host pid) [] w).2 ≡ₚ
    filter (fun r => in_process host pid r = true) l.
Proof.
  intros He. destruct (wl_Search_attr (process_attr host pid) w) as (_ & _ & _ & m & Hm & Ho).
  destruct (Ho [] []) as [-> _]. cbn. by rewrite Hm, He, spec_Search_attr_keyed.
Qed.

Lemma Forall_perm_filter (P : Role -> Prop) host pid l L :
  Forall P l -> L ≡ₚ filter (fun r => in_process host pid r = true) l -> Forall P L.
Proof.
  rewrite !Forall_forall. intros Hl HL r Hr. apply Hl. rewrite HL in Hr.
  by apply list_elem_of_filter in Hr as [_ ?].
Qed.

Lemma topo_leave now host pid cm s :
  view cm s -> is_discovery_started_ (cm_base cm) = true ->
  Forall role_ok (writers_of s) -> Forall role_ok (readers_of s) ->
  let cm' := OnTopoModuleLeave now host pid cm in
  view cm' (mkMembers (leave_process host pid (writers_of s)) (leave_process host pid (readers_of s))) /\
  exists Lw Lr,
    Lw ≡ₚ filter (fun r => in_process host pid r = true) (writers_of s) /\
    Lr ≡ₚ filter (fun r => in_process host pid r = true) (readers_of s) /\
    notified (cm_base cm') = notified (cm_base cm) ++
      (leave_msg now ROLE_WRITER cm <$> Lw) ++ (leave_msg now ROLE_READER cm <$> Lr).
Proof.
  intros Hv Hd Hw Hr cm'. subst cm'. unfold OnTopoModuleLeave. rewrite Hd. cbn [negb].
  pose proof (search_process _ _ _ host pid (vw_channel_writers _ _ Hv)) as Sw.
  pose proof (search_process _ _ _ host pid (vw_channel_readers _ _ Hv)) as Sr.
  cbv zeta. set (Lw := (w_Search_attr_roles _ [] (channel_writers_ cm)).2) in *.
  set (Lr := (w_Search_attr_roles _ [] (channel_readers_ cm)).2) in *.
  pose proof (Forall_perm_filter _ host pid _ _ Hw Sw) as Hw'.
  pose proof (Forall_perm_filter _ host pid _ _ Hr Sr) as Hr'.
  destruct (leave_loop now ROLE_WRITER Lw cm s Hv Hw') as (V1 & N1 & C1).
  destruct (leave_loop now ROLE_READER Lr _ _ V1 Hr') as (V2 & N2 & C2).
  cbn [writers_of readers_of] in V2.
  rewrite (leave_all_process host pid Lw (writers_of s) Hw' Sw) in V2.
  rewrite (leave_all_process host pid Lr (readers_of s) Hr' Sr) in V2.
  split; [exact V2|]. exists Lw, Lr. split; [done|]. split; [done|].
  rewrite N2, N1, <- app_assoc. f_equal. f_equal. apply list_fmap_ext.
  intros i r _. unfold leave_msg. by rewrite C1.
Qed.

(** ** The graph *)

Definition names (a : RoleAttributes) : string * string :=
  (str_of (channel_name a), str_of (node_name a)).

Definition graph_op (msg : ChangeMsg) : gop :=
  let a := role_attr msg in
  let v := mkVertice (names a).2 in
  let none := mkVertice "" in
  let e := match role_type msg with
           | ROLE_WRITER => mkEdge v none (names a).1
           | _ => mkEdge none v (names a).1
           end in
  match operate_type msg with OPT_JOIN => GInsert e | OPT_LEAVE => GDelete e end.

Lemma graph_Dispose msg cm : g_step (graph_op msg) (node_graph_ cm) = Some (node_graph_ (Dispose msg cm)).
Proof.
  unfold graph_op, Dispose, DisposeJoin, DisposeLeave, names.
  by destruct (operate_type msg), (role_type msg); cbn; try destruct (bool_decide _ && _).
Qed.

Lemma graph_run msgs cm :
  g_run (graph_op <$> msgs) (node_graph_ cm) =
  Some (node_graph_ (foldl (fun cm msg => Dispose msg cm) cm msgs)).
Proof.
  revert cm. induction msgs as [|msg msgs IH]; intros cm; [done|]. cbn [fmap list_fmap g_run foldl].
  rewrite (graph_Dispose msg cm). apply IH.
Qed.

Definition roles_of (rt : RoleType) (s : members) : list Role :=
  match rt with ROLE_WRITER => writers_of s | _ => readers_of s end.

(** The names are there, and a leave takes away every role of its node and channel: it
    has no other writer (or reader) there. *)
Definition tidy_msg (msg : ChangeMsg) (s : members) : Prop :=
  let a := role_attr msg in
  (names a).1 <> "" /\ (names a).2 <> "" /\
  (operate_type msg = OPT_LEAVE ->
   forall r, r ∈ roles_of (role_type msg) s -> (Match r a = true <-> names (attributes_ r) = names a)).

Fixpoint tidy (msgs : list ChangeMsg) (s : members) : Prop :=
  match msgs with
  | [] => True
  | msg :: msgs' => tidy_msg msg s /\ tidy msgs' (spec_Dispose msg s)
  end.

(** The channels of the graph are those of the roles. *)
Definition graph_view (ch : channels) (s : members) : Prop :=
  (forall x, x ∈ writers ch <-> exists r, r ∈ writers_of s /\ names (attributes_ r) = x) /\
  (forall x, x ∈ readers ch <-> exists r, r ∈ readers_of s /\ names (attributes_ r) = x).

Lemma joined_names (R : gset (string * string)) l r :
  (forall x, x ∈ R <-> exists r, r ∈ l /\ names (attributes_ r) = x) ->
  forall x, x ∈ {[names (attributes_ r)]} ∪ R <-> exists r', r' ∈ r :: l /\ names (attributes_ r') = x.
Proof.
  intros HR x. rewrite elem_of_union, elem_of_singleton, HR. setoid_rewrite elem_of_cons. naive_solver.
Qed.

Lemma departed_names (R : gset (string * string)) l a :
  (forall x, x ∈ R <-> exists r, r ∈ l /\ names (attributes_ r) = x) ->
  (forall r, r ∈ l -> (Match r a = true <-> names (attributes_ r) = names a)) ->
  forall x, x ∈ R ∖ {[names a]} <-> exists r, r ∈ leave_roles a l /\ names (attributes_ r) = x.
Proof.
  intros HR Hm x. rewrite elem_of_difference, elem_of_singleton, HR. unfold leave_roles.
  setoid_rewrite list_elem_of_filter. split.
  - intros [(r & Hr & <-) Hn]. exists r. split; [|done]. split; [|done].
    apply not_true_is_false. by rewrite Hm.
  - intros (r & [Hf Hr] & <-). split; [by exists r|]. rewrite <- Hm by done. congruence.
Qed.

Lemma graph_view_step msg ch s :
  tidy_msg msg s -> graph_view ch s -> graph_view (chan_step (graph_op msg) ch) (spec_Dispose msg s).
Proof.
  intros (Hc & Hn & Hl) [Hw Hr]. unfold graph_op, spec_Dispose. cbv zeta.
  set (a := role_attr msg) in *.
  assert (Hd : IsDummy (mkVertice (names a).2) = false).
  { unfold IsDummy. by apply bool_decide_eq_false. }
  assert (Hv : forall e, e = mkEdge (mkVertice (names a).2) (mkVertice "") (names a).1 \/
             e = mkEdge (mkVertice "") (mkVertice (names a).2) (names a).1 -> IsValid e = true).
  { intros e [->| ->]; unfold IsValid; cbn [e_value src_ dst_];
      rewrite Hd, bool_decide_eq_false_2 by done; cbn; by rewrite ?andb_false_r. }
  destruct (operate_type msg); destruct (role_type msg);
    cbn [chan_step]; unfold chan_Insert, chan_Delete; rewrite Hv by eauto; cbn [negb src_ dst_ e_value];
    rewrite Hd; cbn [negb IsDummy v_value]; split; cbn [writers readers writers_of readers_of]; try done;
    try (apply (joined_names _ _ (mkRole RoleWriter a (timestamp msg))); done);
    apply departed_names; auto.
Qed.

Lemma graph_view_run msgs ch s :
  tidy msgs s -> graph_view ch s ->
  graph_view (foldl (fun ch o => chan_step o ch) ch (graph_op <$> msgs))
    (foldl (fun s msg => spec_Dispose msg s) s msgs).
Proof.
  revert ch s. induction msgs as [|msg msgs IH]; intros ch s; [done|].
  intros [Ht Hts] Hg. cbn. by apply IH, graph_view_step.
Qed.

(** A node feeds another through the roles. *)
Definition role_feeds (s : members) (a b : string) : Prop :=
  exists w r, w ∈ writers_of s /\ r ∈ readers_of s /\
    str_of (channel_name (attributes_ w)) = str_of (channel_name (attributes_ r)) /\
    str_of (node_name (attributes_ w)) = a /\ str_of (node_name (attributes_ r)) = b.

Lemma graph_view_feeds ch s a b : graph_view ch s -> feeds ch a b <-> role_feeds s a b.
Proof.
  intros [Hw Hr]. unfold feeds, role_feeds. setoid_rewrite Hw. setoid_rewrite Hr.
  unfold names. split.
  - intros (c & (w & Hw' & [= H1 H2]) & (r & Hr' & [= H3 H4])). exists w, r. by rewrite H1, H3.
  - intros (w & r & Hw' & Hr' & Hc & <- & <-). eexists. split; [by exists w|]. exists r. by rewrite Hc.
Qed.

End channel_manager.

(** ** The channel manager of the source *)

Abbreviation CM := (ChannelManager MultiValue.MultiValueWarehouse).

Definition dispose_all (msgs : list ChangeMsg) (cm : CM) : CM :=
  foldl (fun cm msg => Dispose msg cm) cm msgs.
Definition members_after (msgs : list ChangeMsg) : members :=
  foldl (fun s msg => spec_Dispose msg s) (mkMembers [] []) msgs.

Lemma several_roles : @multi MultiValue.MultiValueWarehouse _ = true.
Proof. reflexivity. Qed.

(** The state of a manager after a sequence of messages. *)
Lemma dispose_all_view msgs raw py host pid :
  Forall msg_ok msgs -> view (dispose_all msgs (cm_new raw py host pid)) (members_after msgs).
Proof. intros. apply view_run; auto using several_roles. apply view_new. Qed.

(** C30: after any sequence of joins and leaves, the lists of writers and readers, by channel
    and by node, are those of the roles that joined and did not leave; a leave takes away
    exactly the roles that match it. *)
Theorem channel_manager_refines msgs raw py host pid hash (Hms : Forall msg_ok msgs) :
  let cm := dispose_all msgs (cm_new raw py host pid) in
  let s := members_after msgs in
  (exists m, m ≡ₚ writers_of s /\ forall out, GetWriters out cm = out ++ (attributes_ <$> m)) /\
  (exists m, m ≡ₚ readers_of s /\ forall out, GetReaders out cm = out ++ (attributes_ <$> m)) /\
  (forall name gd k gd', RegisterChannel hash name gd = Some (k, gd') ->
     (exists m, m ≡ₚ of_key channel_id k (writers_of s) /\
        HasWriter hash name gd cm = Some (nonempty m, gd') /\
        forall out, GetWritersOfChannel hash name out gd cm = Some (out ++ (attributes_ <$> m), gd')) /\
     (exists m, m ≡ₚ of_key channel_id k (readers_of s) /\
        HasReader hash name gd cm = Some (nonempty m, gd') /\
        forall out, GetReadersOfChannel hash name out gd cm = Some (out ++ (attributes_ <$> m), gd'))) /\
  (forall name gd k gd', RegisterNode hash name gd = Some (k, gd') ->
     (exists m, m ≡ₚ of_key node_id k (writers_of s) /\
        forall out, GetWritersOfNode hash name out gd cm = Some (out ++ (attributes_ <$> m), gd')) /\
     (exists m, m ≡ₚ of_key node_id k (readers_of s) /\
        forall out, GetReadersOfNode hash name out gd cm = Some (out ++ (attributes_ <$> m), gd'))).
Proof.
  intros cm s. pose proof (dispose_all_view msgs raw py host pid Hms) as [V1 V2 V3 V4 _].
  fold cm s in V1, V2, V3, V4. split; [|split; [|split]].
  - exact (all_roles_view _ _ _ V2).
  - exact (all_roles_view _ _ _ V4).
  - intros name gd k gd' HR.
    destruct (search_key_view _ _ _ k V2) as (m & Hm & Hn & Ho).
    destruct (search_key_view _ _ _ k V4) as (m' & Hm' & Hn' & Ho').
    unfold HasWriter, HasReader, GetWritersOfChannel, GetReadersOfChannel. rewrite HR. cbn [mbind option_bind].
    split; [exists m|exists m']; (split; [done|split; [congruence|intros; congruence]]).
  - intros name gd k gd' HR.
    destruct (search_key_view _ _ _ k V1) as (m & Hm & _ & Ho).
    destruct (search_key_view _ _ _ k V3) as (m' & Hm' & _ & Ho').
    unfold GetWritersOfNode, GetReadersOfNode. rewrite HR. cbn [mbind option_bind].
    split; [exists m|exists m']; (split; [done|intros; congruence]).
Qed.

(** When a process departs, the manager drops exactly the writers and readers of that
    process, from the lists by node and by channel alike, keeps all others, and tells its
    listeners of every dropped role once. *)
Theorem departed_process_is_dropped msgs raw py host pid now host' pid'
    (Hms : Forall msg_ok msgs)
    (Hw : Forall role_ok (writers_of (members_after msgs)))
    (Hr : Forall role_ok (readers_of (members_after msgs))) :
  let s := members_after msgs in
  let cm0 := dispose_all msgs (cm_new raw py host pid) in
  let cm := cm_set_base (StartDiscovery true (true, true) (true, true) (cm_base cm0)).2 cm0 in
  let cm' := OnTopoModuleLeave now host' pid' cm in
  view cm' (mkMembers (leave_process host' pid' (writers_of s)) (leave_process host' pid' (readers_of s))) /\
  exists Lw Lr,
    Lw ≡ₚ filter (fun r => in_process host' pid' r = true) (writers_of s) /\
    Lr ≡ₚ filter (fun r => in_process host' pid' r = true) (readers_of s) /\
    notified (cm_base cm') = notified (cm_base cm) ++
      (leave_msg now ROLE_WRITER cm <$> Lw) ++ (leave_msg now ROLE_READER cm <$> Lr).
Proof.
  intros s cm0 cm cm'. apply topo_leave; auto.
  - eapply view_ext; [..|exact (dispose_all_view msgs raw py host pid Hms)]; done.
  - subst cm. cbn [cm_base cm_set_base]. unfold StartDiscovery. cbn [negb].
    by destruct (is_discovery_started_ (cm_base cm0)) eqn:E.
Qed.

(** ** The direction of flow *)

Section flow.
Context (allowed : string -> string -> Prop).
Hypothesis key_inj : forall c b c' b', allowed c b -> allowed c' b' ->
  c +:+ "_" +:+ b = c' +:+ "_" +:+ b' -> c = c' /\ b = b'.

(** C32: [GetFlowDirection] answers by the writers and readers that are there: a node is
    upstream of another when a chain of channels leads from it to the other, provided that
    a leave takes away every writer (or reader) of its node on its channel and that the keys
    of the adjacency lists tell channel and node. *)
Theorem flow_direction_correct msgs raw py host pid a b
    (Htidy : tidy msgs (mkMembers [] []))
    (Hal : Forall (op_allowed allowed) (graph_op <$> msgs))
    (Hab : a <> b) (Ha : a <> "") (Hb : b <> "") :
  let cm := dispose_all msgs (cm_new raw py host pid) in
  let up := rtc (role_feeds (members_after msgs)) in
  exists d cm', GetFlowDirection a b cm = Some (d, cm') /\
    (d = UPSTREAM <-> up a b) /\
    (d = DOWNSTREAM <-> ~ up a b /\ up b a) /\
    (d = UNREACHABLE <-> ~ up a b /\ ~ up b a).
Proof.
  intros cm up.
  destruct (GetDirectionOf_feeds allowed key_inj (graph_op <$> msgs) a b Hal Hab Ha Hb)
    as (g & d & g' & Hg & Hd & H1 & H2 & H3).
  pose proof (graph_run msgs (cm_new raw py host pid)) as Hrun. cbn [node_graph_ cm_new] in Hrun.
  fold (dispose_all msgs (cm_new raw py host pid)) in Hrun. fold cm in Hrun.
  assert (g = node_graph_ cm) as -> by congruence.
  assert (Hgv : graph_view (chan_run (graph_op <$> msgs)) (members_after msgs)).
  { apply graph_view_run; [done|]. split; intros x; cbn; set_solver. }
  assert (Hup : forall x y, rtc (feeds (chan_run (graph_op <$> msgs))) x y <-> up x y).
  { intros x y. subst up. split; apply rtc_subrel; intros u v; by apply graph_view_feeds. }
  rewrite !Hup in H1. rewrite !Hup in H2. rewrite !Hup in H3.
  exists d, (cm_set_graph g' cm). split; [unfold GetFlowDirection; by rewrite Hd|].
  split; [exact H1|]. split; [exact H2|exact H3].
Qed.
End flow.

(** ** Two processes *)

(** A request of a node to its manager; [rq_publish] is the third argument of [Join], by
    which writers and readers of types without a serializer keep themselves to the process. *)
Record request := mkRequest {
  rq_join : bool;
  rq_now : Z;
  rq_attr : RoleAttributes;
  rq_role : RoleType;
  rq_publish : bool;
}.

(** The attributes name their node; they leave host and process to the manager, or name its own. *)
Definition request_ok (host : string) (pid : Z) (q : request) : Prop :=
  (host_name (rq_attr q) = None \/ host_name (rq_attr q) = Some host) /\
  (process_id (rq_attr q) = None \/ process_id (rq_attr q) = Some pid) /\
  is_Some (node_id (rq_attr q)).

Definition serve (q : request) (cm : CM) : CM :=
  if rq_join q
  then (Join (fun _ => true) (fun _ => true) (rq_now q) (rq_attr q) (rq_role q) (rq_publish q) cm).2
  else (Leave (fun _ => true) (fun _ => true) (rq_now q) (rq_attr q) (rq_role q) cm).2.

Definition started (cm : CM) : CM :=
  cm_set_base (StartDiscovery true (true, true) (true, true) (cm_base cm)).2 cm.

Definition at_process (host : string) (pid : Z) (a : RoleAttributes) : RoleAttributes :=
  mkRoleAttr (Some host) (Some pid) (node_name a) (node_id a) (channel_name a) (channel_id a)
    (message_type a) (proto_desc a) (id a) (service_name a) (service_id a) (host_ip a) (qos_profile a).

(** What the requests say, without any manager: a request of a writer or reader that names
    its channel and itself is a change of the topology; every leave is told to the other
    processes, and the joins that are to be published. *)
Definition valid (q : request) : bool :=
  match rq_role q with ROLE_WRITER | ROLE_READER => Check (rq_attr q) | _ => false end.

Definition change (host : string) (pid : Z) (q : request) : ChangeMsg :=
  mkMsg (rq_now q) CHANGE_CHANNEL (if rq_join q then OPT_JOIN else OPT_LEAVE) (rq_role q)
    (at_process host pid (rq_attr q)).

Definition changes (host : string) (pid : Z) (qs : list request) : list ChangeMsg :=
  change host pid <$> filter (fun q => valid q = true) qs.

Definition public (qs : list request) : list request :=
  filter (fun q => rq_join q = false \/ rq_publish q = true) qs.

Lemma base_Dispose msg (cm : CM) : cm_base (Dispose msg cm) = Notify msg (cm_base cm).
Proof.
  unfold Dispose, DisposeJoin, DisposeLeave. cbn [cm_base cm_set_base].
  destruct (operate_type msg), (role_type msg); try done. by destruct (bool_decide _ && _).
Qed.

(** The manager of [host] and [pid] after the requests [qs]. *)
Record sender (host : string) (pid : Z) (qs : list request) (cm : CM) : Prop := {
  sd_run : is_shutdown_ (cm_base cm) = false;
  sd_disc : is_discovery_started_ (cm_base cm) = true;
  sd_publisher : publisher_ (cm_base cm) = true;
  sd_type : change_type_ (cm_base cm) = CHANGE_CHANNEL;
  sd_allowed : allowed_role_ (cm_base cm) =
    Z.lor (Z.shiftl 1 (role_num ROLE_WRITER)) (Z.shiftl 1 (role_num ROLE_READER));
  sd_host : host_name_ (cm_base cm) = host;
  sd_pid : process_id_ (cm_base cm) = pid;
  sd_published : published (cm_base cm) = changes host pid (public qs);
  sd_view : view cm (members_after (changes host pid qs));
}.

Lemma members_after_snoc msgs msg :
  members_after (msgs ++ [msg]) = spec_Dispose msg (members_after msgs).
Proof. unfold members_after. by rewrite foldl_app. Qed.

Lemma changes_snoc host pid qs q :
  changes host pid (qs ++ [q]) =
  changes host pid qs ++ (if valid q then [change host pid q] else []).
Proof.
  unfold changes. rewrite filter_app, fmap_app. f_equal. rewrite filter_cons, filter_nil.
  destruct (valid q); by case_decide.
Qed.

Lemma public_snoc qs q :
  public (qs ++ [q]) = public qs ++ (if negb (rq_join q) || rq_publish q then [q] else []).
Proof.
  unfold public. rewrite filter_app. f_equal. rewrite filter_cons, filter_nil.
  destruct (rq_join q), (rq_publish q); case_decide; naive_solver.
Qed.

Lemma public_all qs : Forall (fun q => rq_publish q = true) qs -> public qs = qs.
Proof.
  induction 1 as [|q qs Hq Hqs IH]; [done|]. unfold public in *.
  rewrite filter_cons_True by (by right). by rewrite IH.
Qed.

Lemma changes_ok host pid qs :
  Forall (request_ok host pid) qs ->
  Forall (fun msg => msg_ok msg /\ Check (role_attr msg) = true /\
    host_name (role_attr msg) = Some host /\ process_id (role_attr msg) = Some pid)
    (changes host pid qs).
Proof.
  intros Hqs. apply Forall_fmap, Forall_forall. intros q [Hv Hq]%list_elem_of_filter.
  rewrite Forall_forall in Hqs. destruct (Hqs q Hq) as (_ & _ & Hn).
  assert (Hc : Check (rq_attr q) = true) by (unfold valid in Hv; by destruct (rq_role q)).
  cbn. split; [|done]. split; [done|]. unfold Check in Hc. cbn. repeat case_if; try done.
  by apply bool_decide_eq_true in Heqb0.
Qed.

Lemma public_ok host pid qs :
  Forall (request_ok host pid) qs -> Forall (request_ok host pid) (public qs).
Proof.
  rewrite !Forall_forall. intros H q [_ Hq]%list_elem_of_filter. by apply H.
Qed.

Lemma sender_convert host pid qs cm q :
  sender host pid qs cm -> request_ok host pid q ->
  Convert (rq_now q) (rq_attr q) (rq_role q) (if rq_join q then OPT_JOIN else OPT_LEAVE) (cm_base cm) =
  change host pid q.
Proof.
  intros [_ _ _ S4 _ S6 S7 _ _] (Hh & Hp & _). unfold Convert, change, at_process.
  rewrite S4, S6, S7. by destruct Hh as [-> | ->], Hp as [-> | ->].
Qed.

Lemma role_allowed_valid host pid qs cm q :
  sender host pid qs cm ->
  valid q = role_allowed (rq_role q) (cm_base cm) && Check (rq_attr q).
Proof.
  intros [_ _ _ _ S5 _ _ _ _]. unfold role_allowed, valid. rewrite S5. by destruct (rq_role q).
Qed.

(** An accepted request is disposed of, and published or not. *)
Lemma sender_accepts host pid qs cm q :
  sender host pid qs cm -> request_ok host pid q -> valid q = true ->
  let cm1 := Dispose (change host pid q) cm in
  sender host pid (qs ++ [q])
    (if negb (rq_join q) || rq_publish q
     then cm_set_base (log_published (change host pid q) (cm_base cm1)) cm1 else cm1).
Proof.
  intros HS Hq Hv cm1. pose proof HS as [S1 S2 S3 S4 S5 S6 S7 S8 S9].
  assert (Hb : cm_base cm1 = Notify (change host pid q) (cm_base cm)) by apply base_Dispose.
  assert (Hok : msg_ok (change host pid q)).
  { pose proof (changes_ok host pid [q] (proj2 (Forall_singleton _ _) Hq)) as H. unfold changes in H.
    rewrite filter_cons_True, filter_nil in H by done. by apply Forall_singleton in H as [? _]. }
  assert (HV : view cm1 (members_after (changes host pid (qs ++ [q])))).
  { rewrite changes_snoc, Hv, members_after_snoc. by apply (view_Dispose several_roles). }
  destruct (negb (rq_join q) || rq_publish q) eqn:Ep; constructor;
    cbn [cm_base cm_set_base log_published is_shutdown_ is_discovery_started_ publisher_ change_type_
         allowed_role_ host_name_ process_id_ published]; rewrite ?Hb; try done.
  - cbn. rewrite public_snoc, Ep, changes_snoc, Hv. by rewrite S8.
  - by apply (view_ext cm1).
  - cbn. rewrite public_snoc, Ep, app_nil_r. done.
Qed.

Lemma sender_refuses host pid qs cm q :
  sender host pid qs cm -> valid q = false -> sender host pid (qs ++ [q]) cm.
Proof.
  intros [S1 S2 S3 S4 S5 S6 S7 S8 S9] Hv. constructor; try done.
  - rewrite public_snoc. destruct (_ || _); [by rewrite changes_snoc, Hv, app_nil_r|by rewrite app_nil_r].
  - by rewrite changes_snoc, Hv, app_nil_r.
Qed.

Lemma sender_Publish_logs host pid qs cm msg msg' :
  sender host pid qs cm ->
  Publish (fun _ => true) (fun _ => true) msg (cm_base (Dispose msg' cm)) =
  (true, log_published msg (cm_base (Dispose msg' cm))).
Proof. intros [_ S2 S3 _ _ _ _ _ _]. unfold Publish. rewrite base_Dispose. cbn. by rewrite S2, S3. Qed.

Lemma sender_serve host pid qs q cm :
  sender host pid qs cm -> request_ok host pid q -> sender host pid (qs ++ [q]) (serve q cm).
Proof.
  intros HS Hq. pose proof HS as [S1 _ _ _ _ _ _ _ _].
  pose proof (role_allowed_valid host pid qs cm q HS) as Hv.
  pose proof (sender_convert host pid qs cm q HS Hq) as Hc.
  pose proof (sender_accepts host pid qs cm q HS Hq) as Ha. cbv zeta in Ha.
  unfold serve, Join, Leave. cbn [base set_base Check_ Dispose_ cm_Derived NeedPublish].
  rewrite S1.
  destruct (role_allowed _ _); cbn [negb andb] in *; [|destruct (rq_join q); by apply sender_refuses].
  destruct (Check (rq_attr q)); cbn [negb] in *; [|destruct (rq_join q); by apply sender_refuses].
  specialize (Ha Hv). destruct (rq_join q); cbn [negb orb] in *; rewrite Hc;
    rewrite (sender_Publish_logs host pid qs cm _ _ HS); [|exact Ha].
  by destruct (rq_publish q).
Qed.

Lemma sender_new raw py host pid : sender host pid [] (started (cm_new raw py host pid)).
Proof. by constructor. Qed.

Lemma sender_run host pid raw py qs :
  Forall (request_ok host pid) qs ->
  sender host pid qs (foldl (fun cm q => serve q cm) (started (cm_new raw py host pid)) qs).
Proof.
  induction qs as [|q qs IH] using rev_ind; intros Hqs; [apply sender_new|].
  apply Forall_app in Hqs as [Hqs Hq]. rewrite foldl_app. cbn.
  apply sender_serve; [by apply IH|by inversion Hq].
Qed.

(** A message of another process is disposed of. *)
Lemma receive msgs host pid host' pid' cm s :
  (host, pid) <> (host', pid') ->
  host_name_ (cm_base cm) = host' -> process_id_ (cm_base cm) = pid' ->
  is_shutdown_ (cm_base cm) = false -> view cm s ->
  Forall (fun msg => msg_ok msg /\ Check (role_attr msg) = true /\
    host_name (role_attr msg) = Some host /\ process_id (role_attr msg) = Some pid) msgs ->
  view (foldl (fun (cm : CM) msg => OnRemoteChange (Some msg) cm) cm msgs)
    (foldl (fun s msg => spec_Dispose msg s) s msgs).
Proof.
  intros Hne Hh Hp Hs Hv Hms. revert cm s Hh Hp Hs Hv.
  induction Hms as [|msg msgs (Hok & Hc & Hmh & Hmp) Hms IH]; intros cm s Hh Hp Hs Hv; [done|].
  cbn [foldl].
  assert (HD : OnRemoteChange (Some msg) cm = Dispose msg cm).
  { unfold OnRemoteChange. cbn [base cm_Derived Check_ Dispose_]. rewrite Hs.
    destruct (IsFromSameProcess msg (cm_base cm)) eqn:E; [|by rewrite Hc].
    apply IsFromSameProcess_spec in E as [E1 E2]. rewrite Hmh in E1. rewrite Hmp in E2.
    exfalso. apply Hne. unfold str_of, int_of in *. cbn in *. congruence. }
  rewrite HD. apply IH; rewrite ?base_Dispose; try done.
  by apply (view_Dispose several_roles).
Qed.

(** C25: two processes agree. Discovery has been started, serialization succeeds and the
    middleware brings the published messages in order: whatever joins and leaves a process asks of its manager, with
    attributes that name its own host and process or leave them unset, the manager knows the
    writers and readers of the valid requests; it publishes the leaves and the joins that are
    to be published, in order; a manager of another process that receives these messages ends
    with the writers and readers of exactly the published requests - the same as the first one
    when every join is published; and the first manager ignores its own messages when they
    come back to it. *)
Theorem topology_converges raw py host pid host' pid' qs
    (Hne : (host, pid) <> (host', pid')) (Hqs : Forall (request_ok host pid) qs) :
  let A := foldl (fun cm q => serve q cm) (started (cm_new raw py host pid)) qs in
  let sent := published (cm_base A) in
  let B := foldl (fun (cm : CM) msg => OnRemoteChange (Some msg) cm)
             (started (cm_new raw py host' pid')) sent in
  view A (members_after (changes host pid qs)) /\
  sent = changes host pid (public qs) /\
  view B (members_after (changes host pid (public qs))) /\
  (Forall (fun q => rq_publish q = true) qs -> view B (members_after (changes host pid qs))) /\
  foldl (fun (cm : CM) msg => OnRemoteChange (Some msg) cm) A sent = A.
Proof.
  intros A sent B.
  pose proof (sender_run host pid raw py qs Hqs) as [S1 S2 S3 S4 S5 S6 S7 S8 S9].
  fold A in S1, S2, S3, S4, S5, S6, S7, S8, S9. fold sent in S8.
  pose proof (changes_ok host pid _ (public_ok host pid qs Hqs)) as Hms. rewrite <- S8 in Hms.
  assert (HB : view B (members_after (changes host pid (public qs)))).
  { rewrite <- S8. by apply (receive sent host pid host' pid'). }
  split; [done|]. split; [done|]. split; [done|]. split.
  - intros Hall. by rewrite <- (public_all qs Hall).
  - clear B HB S8 S9. clearbody sent. induction Hms as [|msg msgs (_ & _ & Hh & Hp) Hms IH]; [done|].
    cbn [foldl]. assert (OnRemoteChange (Some msg) A = A) as ->; [|exact IH].
    unfold OnRemoteChange. cbn [base cm_Derived]. rewrite S1.
    assert (IsFromSameProcess msg (cm_base A) = true) as ->; [|done].
    apply IsFromSameProcess_spec. rewrite Hh, Hp. by rewrite S6, S7.
Qed.

(** ** Concrete topologies *)

Definition role_attrs (node : string) (nid : Z) (chan : string) (cid rid : Z) : RoleAttributes :=
  mkAttr None None (Some node) (Some nid) (Some chan) (Some cid) None None (Some rid) None None.

Definition join (rt : RoleType) (a : RoleAttributes) : ChangeMsg :=
  mkMsg 1 CHANGE_CHANNEL OPT_JOIN rt (at_process "host" 7 a).
Definition leave (rt : RoleType) (a : RoleAttributes) : ChangeMsg :=
  mkMsg 2 CHANGE_CHANNEL OPT_LEAVE rt (at_process "host" 7 a).

Definition two_roles : list ChangeMsg :=
  [join ROLE_WRITER (role_attrs "camera" 1 "/image" 10 100);
   join ROLE_READER (role_attrs "detector" 2 "/image" 10 101);
   join ROLE_READER (role_attrs "display" 3 "/image" 10 102);
   leave ROLE_READER (role_attrs "display" 3 "/image" 10 102)].

Lemma channel_manager_refines_witness :
  let cm := dispose_all two_roles (cm_new "raw" "py" "host" 7) in
  exists m, m ≡ₚ readers_of (members_after two_roles) /\
    forall out, GetReaders out cm = out ++ (attributes_ <$> m).
Proof.
  refine (proj1 (proj2 (channel_manager_refines two_roles "raw" "py" "host" 7 worst_hash _))).
  repeat constructor; by eexists.
Defined.

Lemma departed_process_is_dropped_witness :
  let cm := started (dispose_all two_roles (cm_new "raw" "py" "host" 7)) in
  view (OnTopoModuleLeave 3 "host" 7 cm) (mkMembers [] []).
Proof.
  refine (proj1 (departed_process_is_dropped two_roles "raw" "py" "host" 7 3 "host" 7 _ _ _));
    repeat constructor; by eexists.
Defined.

Lemma two_roles_tidy : tidy two_roles (mkMembers [] []).
Proof.
  cbn [tidy two_roles].
  repeat (split; [split; [done|split; [done|try (intros Hd; discriminate Hd)]]|]); try done.
  intros _ r Hr. cbn in Hr.
  repeat (apply elem_of_cons in Hr as [->|Hr]); [..|by apply elem_of_nil in Hr];
    split; vm_compute; congruence.
Qed.

Lemma flow_direction_correct_witness :
  let cm := dispose_all two_roles (cm_new "raw" "py" "host" 7) in
  exists d cm', GetFlowDirection "camera" "detector" cm = Some (d, cm') /\
    (d = UPSTREAM <-> rtc (role_feeds (members_after two_roles)) "camera" "detector").
Proof.
  intros cm.
  destruct (flow_direction_correct (fun _ b => no_underscore b = true) key_inj_no_underscore
    two_roles "raw" "py" "host" 7 "camera" "detector" two_roles_tidy) as (d & cm' & H1 & H2 & _);
    [repeat constructor|done..|].
  exists d, cm'. split; [exact H1|exact H2].
Defined.

Lemma topology_converges_witness :
  let qs :=
    [mkRequest true 1 (role_attrs "camera" 1 "/image" 10 100) ROLE_WRITER true;
     mkRequest true 2 (at_process "host" 7 (role_attrs "display" 3 "/image" 10 102)) ROLE_READER false;
     mkRequest true 2 (role_attrs "detector" 2 "/image" 10 101) ROLE_READER true;
     mkRequest false 3 (role_attrs "camera" 1 "/image" 10 100) ROLE_WRITER true] in
  let A := foldl (fun cm q => serve q cm) (started (cm_new "raw" "py" "host" 7)) qs in
  length (published (cm_base A)) = 3%nat /\
  view A (members_after (changes "host" 7 qs)) /\
  length (readers_of (members_after (changes "host" 7 qs))) = 2%nat /\
  length (readers_of (members_after (published (cm_base A)))) = 1%nat.
Proof.
  intros qs A. split; [vm_compute; reflexivity|].
  split; [|split; vm_compute; reflexivity].
  refine (proj1 (topology_converges "raw" "py" "host" 7 "other" 7 qs _ _)); [done|].
  repeat constructor; first [by eexists|by left|by right].
Defined.

(** ** A node with two writers of one channel *)

Definition second_writer : list ChangeMsg :=
  [join ROLE_WRITER (role_attrs "camera" 1 "/image" 10 100);
   join ROLE_WRITER (role_attrs "camera" 1 "/image" 10 200);
   join ROLE_READER (role_attrs "detector" 2 "/image" 10 101);
   leave ROLE_WRITER (role_attrs "camera" 1 "/image" 10 100)].

(** When one of two writers of a node on a channel leaves, the graph forgets the edge
    although the other writer is still there: the node feeds the reader, and
    [GetFlowDirection] says unreachable. *)
Theorem second_writer_forgotten :
  let cm := dispose_all second_writer (cm_new "raw" "py" "host" 7) in
  role_feeds (members_after second_writer) "camera" "detector" /\
  length (GetWriters [] cm) = 1%nat /\
  (fst <$> GetFlowDirection "camera" "detector" cm) = Some UNREACHABLE.
Proof.
  intros cm. split; [|split; vm_compute; reflexivity].
  exists (mkRole RoleWriter (at_process "host" 7 (role_attrs "camera" 1 "/image" 10 200)) 1),
    (mkRole RoleWriter (at_process "host" 7 (role_attrs "detector" 2 "/image" 10 101)) 1).
  split; [|split; [|done]]; vm_compute; apply elem_of_cons; by left.
Qed.
