(* ===== verification/NodeManager.v ===== *)
(** * NodeManager: the nodes of the topology

    Models [cyber/service_discovery/specific_manager/node_manager.{h,cc}].  The container
    keeps one role under a key; the source uses [SingleValueWarehouse].
    [AsyncShutdown] is a flag. *)

From S2P Require Import Prelude Role Warehouse SingleValueWarehouse AtomicHashMap GlobalData Manager.

Record NodeManager (W : Type) := mkNM {
  nm_base : Manager;
  nodes_ : W;
  async_shutdown : bool;
}.
Arguments mkNM {W}.
Arguments nm_base {W}.
Arguments nodes_ {W}.
Arguments async_shutdown {W}.

Module Node.
Section node_manager.
Context {W : Type} `{!Warehouse W}.
Implicit Types nm : NodeManager W.

Definition nm_new (host : string) (pid : Z) : NodeManager W :=
  mkNM (manager_new (Z.shiftl 1 (role_num ROLE_NODE)) CHANGE_NODE "node_change_broadcast" host pid)
    w_empty false.

Definition HasNode (hash : string -> Z) (node_name : string) (gd : GlobalData) nm
    : option (bool * GlobalData) :=
  '(key, gd) ← RegisterNode hash node_name gd;
  Some (w_Search_key key (nodes_ nm), gd).

Definition GetNodes (nodes : list RoleAttributes) nm : list RoleAttributes :=
  w_GetAllRoles_attr nodes (nodes_ nm).

Definition Check (attr : RoleAttributes) : bool :=
  if negb (bool_decide (is_Some (node_name attr))) then false
  else if negb (bool_decide (is_Some (node_id attr))) then false
  else true.

Definition own (m : Manager) (r : Role) : bool :=
  (int_of (process_id (attributes_ r)) =? process_id_ m) &&
  bool_decide (str_of (host_name (attributes_ r)) = host_name_ m).

Definition DisposeJoin (msg : ChangeMsg) nm : NodeManager W :=
  let node := mkRole RoleBase (role_attr msg) (timestamp msg) in
  let key := int_of (node_id (attributes_ node)) in
  let '(added, w) := w_Add key node false (nodes_ nm) in
  if added then mkNM (nm_base nm) w (async_shutdown nm)
  else
    match w_Search_key_role key w with
    | None => mkNM (nm_base nm) (w_Add key node true w).2 (async_shutdown nm)
    | Some existing_node =>
        let earlier := IsEarlierThan node existing_node in
        let w' := if earlier then (w_Add key node true w).2 else w in
        let newer_node := if earlier then existing_node else node in
        mkNM (nm_base nm) w' (async_shutdown nm || own (nm_base nm) newer_node)
    end.

Definition DisposeLeave (msg : ChangeMsg) nm : NodeManager W :=
  let node := mkRole RoleBase (role_attr msg) (timestamp msg) in
  mkNM (nm_base nm) (w_Remove_key (int_of (node_id (attributes_ node))) (nodes_ nm)) (async_shutdown nm).

Definition nm_set_base (m : Manager) nm : NodeManager W := mkNM m (nodes_ nm) (async_shutdown nm).

Definition Dispose (msg : ChangeMsg) nm : NodeManager W :=
  let nm := match operate_type msg with
            | OPT_JOIN => DisposeJoin msg nm
            | OPT_LEAVE => DisposeLeave msg nm
            end in
  nm_set_base (Notify msg (nm_base nm)) nm.

#[global] Instance nm_Derived : Derived (NodeManager W) := {|
  base := nm_base;
  set_base := nm_set_base;
  Check_ := Check;
  Dispose_ := Dispose;
|}.

Definition OnTopoModuleLeave (now : Z) (host : string) (pid : Z) nm : NodeManager W :=
  if negb (is_discovery_started_ (nm_base nm)) then nm
  else
    let attr := mkAttr (Some host) (Some pid) None None None None None None None None None in
    let nodes_to_remove := (w_Search_attr_roles attr [] (nodes_ nm)).2 in
    let w := foldl (fun w node => w_Remove_key (int_of (node_id (attributes_ node))) w) (nodes_ nm)
               nodes_to_remove in
    let m := foldl (fun m node => Notify (Convert now (attributes_ node) ROLE_NODE OPT_LEAVE m) m)
               (nm_base nm) nodes_to_remove in
    mkNM m w (async_shutdown nm).

(** ** Duplicated nodes *)

Context `{!WarehouseLaws W}.
Hypothesis single : multi = false.

Definition node_of (msg : ChangeMsg) : Role := mkRole RoleBase (role_attr msg) (timestamp msg).
Definition node_key (r : Role) : Z := int_of (node_id (attributes_ r)).

(** The nodes that joined are those stored, one under its key, and the later ones. *)
Record resolved (joined : list Role) nm (losers : list Role) : Prop := {
  rs_perm : joined ≡ₚ (entries (nodes_ nm)).*2 ++ losers;
  rs_keys : NoDup (entries (nodes_ nm)).*1;
  rs_key : forall k r, (k, r) ∈ entries (nodes_ nm) -> node_key r = k;
  rs_later : forall l, l ∈ losers ->
    exists r, (node_key l, r) ∈ entries (nodes_ nm) /\ timestamp_ns_ r <= timestamp_ns_ l;
  rs_flag : async_shutdown nm = existsb (own (nm_base nm)) losers;
}.

(** Taking one entry out of a bag with one entry under a key. *)
Lemma keep_other_nodup k r l :
  NoDup l.*1 -> (k, r) ∈ l -> l ≡ₚ (k, r) :: keep_other k l.
Proof.
  unfold keep_other. induction l as [|[k' r'] l IH]; intros Hnd Hin; [by apply elem_of_nil in Hin|].
  apply NoDup_cons in Hnd as [Hn Hnd]. rewrite filter_cons. cbn [fst].
  apply elem_of_cons in Hin as [[= -> ->]|Hin].
  - rewrite decide_False by tauto. constructor. clear IH. induction l as [|[k1 r1] l IHl]; [done|].
    cbn in Hn, Hnd. apply NoDup_cons in Hnd as [_ Hnd]. rewrite filter_cons. cbn [fst].
    rewrite decide_True by set_solver. constructor. apply IHl; [set_solver|done].
  - rewrite decide_True; [|intros <-; apply Hn; apply list_elem_of_fmap; by exists (k', r)].
    rewrite IH at 1 by done. apply Permutation_swap.
Qed.

Lemma keep_other_absent k l : has_key k l = false -> keep_other k l = l.
Proof.
  intros Hk. assert (Hno : forall r, (k, r) ∉ l).
  { intros r Hr. assert (has_key k l = true) by (apply has_key_spec; by exists r). congruence. }
  clear Hk. unfold keep_other. induction l as [|[k' r'] l IH]; [done|]. rewrite filter_cons. cbn [fst].
  rewrite decide_True; [f_equal; apply IH; intros r Hr; apply (Hno r); set_solver|].
  intros ->. apply (Hno r'). set_solver.
Qed.

(** The invariant from the entries up to their order. *)
Lemma resolved_intro joined nm losers E :
  entries (nodes_ nm) ≡ₚ E ->
  joined ≡ₚ E.*2 ++ losers -> NoDup E.*1 -> (forall k r, (k, r) ∈ E -> node_key r = k) ->
  (forall l, l ∈ losers -> exists r, (node_key l, r) ∈ E /\ timestamp_ns_ r <= timestamp_ns_ l) ->
  async_shutdown nm = existsb (own (nm_base nm)) losers ->
  resolved joined nm losers.
Proof.
  intros HE H1 H2 H3 H4 H5. constructor.
  - by rewrite HE.
  - by rewrite HE.
  - intros k r. rewrite HE. apply H3.
  - intros l Hl. destruct (H4 l Hl) as (r & Hr & Ht). exists r. by rewrite HE.
  - done.
Qed.

Lemma resolved_stored joined nm losers k r r' :
  resolved joined nm losers -> (k, r) ∈ entries (nodes_ nm) -> (k, r') ∈ entries (nodes_ nm) -> r = r'.
Proof.
  intros Hr H1 H2. apply list_elem_of_lookup in H1 as [i Hi]. apply list_elem_of_lookup in H2 as [j Hj].
  assert (i = j) as <-; [|congruence].
  eapply (NoDup_lookup _ _ _ k (rs_keys _ _ _ Hr)); rewrite list_lookup_fmap; by rewrite ?Hi, ?Hj.
Qed.

Lemma resolved_join joined nm losers msg :
  resolved joined nm losers ->
  exists losers', resolved (node_of msg :: joined) (DisposeJoin msg nm) losers'.
Proof.
  intros Hr. pose proof Hr as [P1 P2 P3 P4 P5]. unfold DisposeJoin. fold (node_of msg).
  fold (node_key (node_of msg)). set (node := node_of msg). set (k := node_key node).
  destruct (wl_Add k node false (nodes_ nm)) as [Ha He]. rewrite single in Ha, He.
  unfold spec_Add in Ha, He. cbn [negb andb] in Ha, He.
  destruct (w_Add k node false (nodes_ nm)) as [added w]. cbn [fst snd] in Ha, He.
  destruct (has_key k (entries (nodes_ nm))) eqn:Hk; cbn in Ha, He; subst added.
  2:{ rewrite keep_other_absent in He by done. exists losers.
      apply (resolved_intro _ (mkNM _ w _) _ _ He); cbn [fmap list_fmap fst snd]; try done.
      - by rewrite P1.
      - apply NoDup_cons. split; [|done]. intros Hin. apply list_elem_of_fmap in Hin as ([k' r'] & Hk' & Hin).
        cbn in Hk'. subst k'. assert (has_key k (entries (nodes_ nm)) = true); [|congruence].
        apply has_key_spec. by exists r'.
      - intros k' r' [[= -> ->]|Hin]%elem_of_cons; [done|by apply P3].
      - intros l Hl. destruct (P4 l Hl) as (r & Hin & Ht). exists r. set_solver. }
  apply has_key_spec in Hk as [e0 He0]. rewrite <- He in He0.
  destruct (wl_Search_key k w) as (_ & Hfirst & _).
  destruct (w_Search_key_role k w) as [e|] eqn:Es.
  2:{ exfalso. assert (e0 ∈ spec_Search_key k (entries w)) by by apply elem_spec_Search_key.
      rewrite Hfirst in *. set_solver. }
  apply elem_spec_Search_key in Hfirst. rewrite He in Hfirst. clear He0.
  destruct (IsEarlierThan node e) eqn:Et; unfold IsEarlierThan in Et; to_prop.
  - exists (e :: losers). destruct (wl_Add k node true w) as [_ He2]. rewrite single in He2.
    unfold spec_Add in He2. cbn in He2. rewrite He in He2.
    pose proof (keep_other_nodup k e _ P2 Hfirst) as Hsplit.
    apply (resolved_intro _ (mkNM _ (w_Add k node true w).2 _) _ _ He2); cbn [fmap list_fmap fst snd].
    + rewrite P1. rewrite Hsplit at 1. cbn. constructor. by rewrite Permutation_middle.
    + apply NoDup_cons. split.
      * intros Hin. apply list_elem_of_fmap in Hin as ([k' r'] & Hk' & Hin).
        apply elem_keep_other in Hin as [_ Hn]. cbn in *. congruence.
      * rewrite Hsplit in P2. cbn in P2. by apply NoDup_cons in P2 as [_ ?].
    + intros k' r' [[= -> ->]|Hin]%elem_of_cons; [done|]. apply elem_keep_other in Hin as [Hin _]. auto.
    + intros l [->|Hl]%elem_of_cons.
      * exists node. rewrite (P3 _ _ Hfirst). split; [set_solver|lia].
      * destruct (P4 l Hl) as (r & Hin & Ht). destruct (decide (node_key l = k)) as [Hlk|Hlk].
        -- rewrite Hlk in *. rewrite (resolved_stored _ _ _ _ _ _ Hr Hin Hfirst) in Ht.
           exists node. split; [set_solver|lia].
        -- exists r. split; [|done]. apply elem_of_cons. right. by apply elem_keep_other.
    + cbn [async_shutdown existsb nm_base]. by rewrite P5, orb_comm.
  - exists (node :: losers). apply (resolved_intro _ (mkNM _ w _) _ _ He); try done.
    + rewrite P1. apply Permutation_middle.
    + intros l [->|Hl]%elem_of_cons; [by exists e|auto].
    + cbn [async_shutdown existsb nm_base]. by rewrite P5, orb_comm.
Qed.

Lemma base_DisposeJoin msg nm : nm_base (DisposeJoin msg nm) = nm_base nm.
Proof.
  unfold DisposeJoin. destruct (w_Add _ _ _ _) as [[] w]; [done|]. by destruct (w_Search_key_role _ _).
Qed.

Lemma resolved_run msgs joined nm losers :
  Forall (fun msg => operate_type msg = OPT_JOIN) msgs -> resolved joined nm losers ->
  exists losers', resolved (reverse (node_of <$> msgs) ++ joined)
    (foldl (fun nm msg => Dispose msg nm) nm msgs) losers'.
Proof.
  intros Hms. revert joined nm losers. induction Hms as [|msg msgs Hm Hms IH]; intros joined nm losers Hr.
  { by exists losers. }
  destruct (resolved_join _ _ _ msg Hr) as [losers1 H1].
  assert (H2 : resolved (node_of msg :: joined) (Dispose msg nm) losers1).
  { unfold Dispose. rewrite Hm. destruct H1 as [Q1 Q2 Q3 Q4 Q5].
    constructor; cbn [nodes_ nm_set_base async_shutdown]; try done. }
  destruct (IH _ _ _ H2) as [losers2 H3]. exists losers2. cbn [foldl fmap list_fmap].
  rewrite reverse_cons, <- app_assoc. exact H3.
Qed.

Lemma resolved_new host pid : resolved [] (nm_new host pid) [].
Proof.
  apply (resolved_intro _ _ _ []); cbn; try done; rewrite ?wl_empty; try done; [constructor|set_solver..].
Qed.

(** Who is stored, and who was told to stop. *)
Lemma resolved_earliest joined nm losers k r :
  resolved joined nm losers ->
  (forall x y, x ∈ joined -> y ∈ joined -> timestamp_ns_ x = timestamp_ns_ y -> x = y) ->
  (k, r) ∈ entries (nodes_ nm) <->
  r ∈ joined /\ node_key r = k /\
  forall r', r' ∈ joined -> node_key r' = k -> timestamp_ns_ r <= timestamp_ns_ r'.
Proof.
  intros Hr Hinj. pose proof Hr as [P1 P2 P3 P4 P5].
  assert (Hj : forall x, x ∈ joined <-> (exists k', (k', x) ∈ entries (nodes_ nm)) \/ x ∈ losers).
  { intros x. rewrite P1, elem_of_app, list_elem_of_fmap. split.
    - intros [([k' x'] & -> & Hin)|]; [left; by exists k'|by right].
    - intros [[k' Hin]|]; [left; by exists (k', x)|by right]. }
  assert (Hmin : forall x, x ∈ joined -> exists s, (node_key x, s) ∈ entries (nodes_ nm) /\
            timestamp_ns_ s <= timestamp_ns_ x).
  { intros x [[k' Hin]|Hl]%Hj; [|auto]. exists x. by rewrite (P3 _ _ Hin). }
  split.
  - intros Hin. split; [apply Hj; eauto|]. split; [auto|]. intros r' Hr' Hk.
    destruct (Hmin r' Hr') as (s & Hs & Ht). rewrite Hk in Hs.
    by rewrite (resolved_stored _ _ _ _ _ _ Hr Hin Hs).
  - intros (Hin & <- & Hle). destruct (Hmin r Hin) as (s & Hs & Ht).
    assert (s ∈ joined) by (apply Hj; eauto).
    assert (r = s) as <-; [|done].
    apply Hinj; [done..|]. specialize (Hle s ltac:(done) (P3 _ _ Hs)). lia.
Qed.

Lemma resolved_stopped joined nm losers :
  resolved joined nm losers -> NoDup joined ->
  (forall x y, x ∈ joined -> y ∈ joined -> timestamp_ns_ x = timestamp_ns_ y -> x = y) ->
  async_shutdown nm = true <->
  exists r r', r ∈ joined /\ r' ∈ joined /\ own (nm_base nm) r = true /\
    node_key r' = node_key r /\ timestamp_ns_ r' < timestamp_ns_ r.
Proof.
  intros Hr Hnd Hinj. pose proof Hr as [P1 P2 P3 P4 P5]. rewrite P5, existsb_exists.
  assert (Hj : forall x, x ∈ joined <-> x ∈ (entries (nodes_ nm)).*2 \/ x ∈ losers).
  { intros x. by rewrite P1, elem_of_app. }
  setoid_rewrite <- list_elem_of_In. split.
  - intros (l & Hl & Ho). destruct (P4 l Hl) as (s & Hs & Ht).
    assert (Hs' : s ∈ (entries (nodes_ nm)).*2) by (apply list_elem_of_fmap; by exists (node_key l, s)).
    assert (s <> l).
    { intros ->. rewrite P1 in Hnd. apply NoDup_app in Hnd as (_ & Hd & _). by apply (Hd l). }
    exists l, s. split_and!; try done; [apply Hj; auto..|by apply P3|].
    assert (timestamp_ns_ s <> timestamp_ns_ l); [|lia].
    intros He. apply Hinj in He; [done|apply Hj; auto..].
  - intros (r & r' & H1 & H2 & Ho & Hk & Ht). exists r. split; [|done].
    apply Hj in H1 as [Hs|]; [|done]. exfalso.
    apply list_elem_of_fmap in Hs as ([k x] & -> & Hs). cbn in *.
    pose proof (proj1 (resolved_earliest _ _ _ _ _ Hr Hinj) Hs) as (_ & Hkx & Hle).
    specialize (Hle r' H2 ltac:(congruence)). lia.
Qed.

End node_manager.
Section process.
Context {W : Type} `{!Warehouse W, !WarehouseLaws W}.
Hypothesis single : multi = false.

(** Every node is stored under its own identifier. *)
Definition keys_ok (nm : NodeManager W) : Prop :=
  forall k r, (k, r) ∈ entries (nodes_ nm) -> node_key r = k.

Lemma keys_ok_Dispose msg (nm : NodeManager W) : keys_ok nm -> keys_ok (Dispose msg nm).
Proof.
  intros Hk k r. unfold Dispose. cbn [nodes_ nm_set_base].
  assert (Hadd : forall ign (w : W), (forall k r, (k, r) ∈ entries w -> node_key r = k) ->
    forall k r, (k, r) ∈ entries (w_Add (node_key (node_of msg)) (node_of msg) ign w).2 -> node_key r = k).
  { intros ign w Hw k' r'. destruct (wl_Add (node_key (node_of msg)) (node_of msg) ign w) as [_ ->].
    unfold spec_Add. rewrite single. case_if; cbn [snd]; [by apply Hw|].
    intros [[= -> ->]|[Hin _]%elem_keep_other]%elem_of_cons; auto. }
  destruct (operate_type msg).
  - unfold DisposeJoin. fold (node_of msg). fold (node_key (node_of msg)).
    pose proof (Hadd false (nodes_ nm) Hk) as H1. destruct (w_Add _ _ false _) as [added w].
    destruct added; [by apply H1|]. destruct (w_Search_key_role _ _); cbn [nodes_]; [|by apply Hadd].
    destruct (IsEarlierThan _ _); [by apply Hadd|by apply H1].
  - cbn [nodes_ DisposeLeave]. rewrite wl_Remove_key. intros [Hin _]%elem_keep_other. auto.
Qed.

(** The nodes of a departed process are removed, and only they. *)
Lemma node_topo_leave now host pid (nm : NodeManager W) :
  keys_ok nm -> is_discovery_started_ (nm_base nm) = true ->
  entries (nodes_ (OnTopoModuleLeave now host pid nm)) ≡ₚ
    filter (fun e => Match e.2 (mkAttr (Some host) (Some pid) None None None None None None None None None)
                     = false) (entries (nodes_ nm)).
Proof.
  intros Hk Hd. unfold OnTopoModuleLeave. rewrite Hd. cbn [negb nodes_].
  apply (remove_keys node_key (fun r => Match r _)); [by apply wl_single|exact Hk|].
  apply search_attr_perm.
Qed.
End process.

(** ** The node manager of the source *)

Abbreviation NM := (NodeManager SingleValue.SingleValueWarehouse).

Definition dispose_all (msgs : list ChangeMsg) (nm : NM) : NM :=
  foldl (fun nm msg => Dispose msg nm) nm msgs.

Lemma single_role : @multi SingleValue.SingleValueWarehouse _ = false.
Proof. reflexivity. Qed.

Lemma own_run msgs (nm : NM) r : own (nm_base (dispose_all msgs nm)) r = own (nm_base nm) r.
Proof.
  unfold dispose_all. revert nm. induction msgs as [|msg msgs IH]; intros nm; [done|]. cbn [foldl].
  rewrite IH. unfold Dispose. destruct (operate_type msg); [|done].
  cbn [nm_base nm_set_base]. by rewrite base_DisposeJoin.
Qed.

Lemma stored_entries k (nm : NM) r :
  SingleValue.Search_key_role k (nodes_ nm) = Some r <-> (k, r) ∈ entries (nodes_ nm).
Proof. symmetry. apply elem_of_map_to_list. Qed.

(** C23: nodes join and none leaves, with different time stamps. Of several that join under one identifier the one with the earliest time stamp
    is kept, in whatever order the joins arrive; and the process is told to stop exactly
    when one of its own nodes is later than another node of the same identifier. *)
Theorem earliest_node_wins msgs host pid
    (Hjoin : Forall (fun msg => operate_type msg = OPT_JOIN) msgs)
    (Htime : NoDup (timestamp <$> msgs)) :
  let nm := dispose_all msgs (nm_new host pid) in
  let joined := node_of <$> msgs in
  (forall k r, SingleValue.Search_key_role k (nodes_ nm) = Some r <->
     r ∈ joined /\ node_key r = k /\
     forall r', r' ∈ joined -> node_key r' = k -> timestamp_ns_ r <= timestamp_ns_ r') /\
  (async_shutdown nm = true <->
     exists r r', r ∈ joined /\ r' ∈ joined /\ own (nm_base (nm_new host pid : NM)) r = true /\
       node_key r' = node_key r /\ timestamp_ns_ r' < timestamp_ns_ r).
Proof.
  intros nm joined.
  destruct (resolved_run single_role msgs [] (nm_new host pid) [] Hjoin (resolved_new single_role host pid)) as [losers Hr].
  rewrite app_nil_r in Hr. fold (dispose_all msgs (nm_new host pid)) in Hr. fold nm joined in Hr.
  assert (Hts : NoDup (timestamp_ns_ <$> joined)).
  { subst joined. rewrite <- list_fmap_compose. exact Htime. }
  assert (Hinj : forall x y, x ∈ reverse joined -> y ∈ reverse joined ->
            timestamp_ns_ x = timestamp_ns_ y -> x = y).
  { intros x y. rewrite !elem_of_reverse. intros [i Hi]%list_elem_of_lookup [j Hj]%list_elem_of_lookup He.
    assert (i = j) as <-; [|congruence].
    eapply (NoDup_lookup _ _ _ (timestamp_ns_ x) Hts); rewrite list_lookup_fmap, ?Hi, ?Hj; cbn; congruence. }
  split.
  - intros k r. rewrite stored_entries, (resolved_earliest _ _ _ _ _ Hr Hinj).
    setoid_rewrite elem_of_reverse. done.
  - assert (Hnd : NoDup (reverse joined)) by (rewrite reverse_Permutation; by eapply NoDup_fmap_1).
    rewrite (resolved_stopped _ _ _ Hr Hnd Hinj). setoid_rewrite elem_of_reverse.
    subst nm. by setoid_rewrite own_run.
Qed.

Definition node_join (host : string) (pid t : Z) : ChangeMsg :=
  mkMsg t CHANGE_NODE OPT_JOIN ROLE_NODE
    (mkAttr (Some host) (Some pid) (Some "talker") (Some 5) None None None None None None None).
Definition node_leave (host : string) (pid t : Z) : ChangeMsg :=
  mkMsg t CHANGE_NODE OPT_LEAVE ROLE_NODE
    (mkAttr (Some host) (Some pid) (Some "talker") (Some 5) None None None None None None None).

Lemma earliest_node_wins_witness :
  SingleValue.Search_key_role 5 (nodes_ (dispose_all [node_join "b" 2 20; node_join "a" 1 10] (nm_new "b" 2)))
    = Some (node_of (node_join "a" 1 10)).
Proof.
  apply (proj1 (earliest_node_wins [node_join "b" 2 20; node_join "a" 1 10] "b" 2
    ltac:(repeat constructor) ltac:(by apply (bool_decide_unpack _)))).
  split; [set_solver|]. split; [done|].
  intros r' Hr' _. apply elem_of_cons in Hr' as [->|Hr']; [vm_compute; congruence|].
  apply list_elem_of_singleton in Hr' as ->. done.
Defined.

(** A leave takes away whatever node is stored under its identifier: when the later of two
    nodes of one name leaves (its process is told to stop), the earlier one disappears from
    the topology although it never left. *)
Theorem duplicate_leave_drops_survivor :
  let joined := dispose_all [node_join "a" 1 10; node_join "b" 2 20] (nm_new "c" 3) in
  GetNodes [] joined = [role_attr (node_join "a" 1 10)] /\
  GetNodes [] (dispose_all [node_leave "b" 2 30] joined) = [].
Proof. split; vm_compute; reflexivity. Qed.

End Node.
