(* ===== verification/ServiceManager.v ===== *)
(** * ServiceManager: the servers and clients of the topology

    Models [cyber/service_discovery/specific_manager/service_manager.{h,cc}].  Servers are
    in a container with one role under a key, clients in one with several; the source
    uses [SingleValueWarehouse] and [MultiValueWarehouse].  The queries by name use
    [common::Hash], a parameter. *)

From S2P Require Import Prelude Role Warehouse Manager.

Record ServiceManager (W1 W2 : Type) := mkSM {
  sm_base : Manager;
  servers_ : W1;
  clients_ : W2;
}.
Arguments mkSM {W1 W2}.
Arguments sm_base {W1 W2}.
Arguments servers_ {W1 W2}.
Arguments clients_ {W1 W2}.

Module Service.
Section service_manager.
Context {W1 W2 : Type} `{!Warehouse W1, !Warehouse W2}.
Implicit Types sm : ServiceManager W1 W2.

Definition sm_new (host : string) (pid : Z) : ServiceManager W1 W2 :=
  mkSM (manager_new (Z.lor (Z.shiftl 1 (role_num ROLE_SERVER)) (Z.shiftl 1 (role_num ROLE_CLIENT)))
          CHANGE_SERVICE "service_change_broadcast" host pid) w_empty w_empty.

Definition HasService (hash : string -> Z) (service_name : string) sm : bool :=
  w_Search_key (hash service_name) (servers_ sm).

Definition GetServers (servers : list RoleAttributes) sm : list RoleAttributes :=
  w_GetAllRoles_attr servers (servers_ sm).

Definition GetClients (hash : string -> Z) (service_name : string) (clients : list RoleAttributes) sm
    : list RoleAttributes :=
  (w_Search_key_roles_attr (hash service_name) clients (clients_ sm)).2.

Definition Check (attr : RoleAttributes) : bool :=
  if negb (bool_decide (is_Some (service_name attr))) then false
  else if negb (bool_decide (is_Some (service_id attr))) then false
  else true.

Definition service_key (r : Role) : Z := int_of (service_id (attributes_ r)).

Definition DisposeJoin (msg : ChangeMsg) sm : ServiceManager W1 W2 :=
  let role := mkRole RoleServer (role_attr msg) 0 in
  match role_type msg with
  | ROLE_SERVER => mkSM (sm_base sm) (w_Add (service_key role) role true (servers_ sm)).2 (clients_ sm)
  | _ => mkSM (sm_base sm) (servers_ sm) (w_Add (service_key role) role true (clients_ sm)).2
  end.

Definition DisposeLeave (msg : ChangeMsg) sm : ServiceManager W1 W2 :=
  let role := mkRole RoleServer (role_attr msg) 0 in
  match role_type msg with
  | ROLE_SERVER => mkSM (sm_base sm) (w_Remove_key (service_key role) (servers_ sm)) (clients_ sm)
  | _ => mkSM (sm_base sm) (servers_ sm) (w_Remove_role (service_key role) role (clients_ sm))
  end.

Definition sm_set_base (m : Manager) sm : ServiceManager W1 W2 := mkSM m (servers_ sm) (clients_ sm).

Definition Dispose (msg : ChangeMsg) sm : ServiceManager W1 W2 :=
  let sm := match operate_type msg with
            | OPT_JOIN => DisposeJoin msg sm
            | OPT_LEAVE => DisposeLeave msg sm
            end in
  sm_set_base (Notify msg (sm_base sm)) sm.

#[global] Instance sm_Derived : Derived (ServiceManager W1 W2) := {|
  base := sm_base;
  set_base := sm_set_base;
  Check_ := Check;
  Dispose_ := Dispose;
|}.

Definition OnTopoModuleLeave (now : Z) (host : string) (pid : Z) sm : ServiceManager W1 W2 :=
  if negb (is_discovery_started_ (sm_base sm)) then sm
  else
    let attr := mkAttr (Some host) (Some pid) None None None None None None None None None in
    let servers_to_remove := (w_Search_attr_roles attr [] (servers_ sm)).2 in
    let servers := foldl (fun w server => w_Remove_key (service_key server) w) (servers_ sm)
                     servers_to_remove in
    let clients_to_remove := (w_Search_attr_roles attr [] (clients_ sm)).2 in
    let clients := foldl (fun w client => w_Remove_role (service_key client) client w) (clients_ sm)
                     clients_to_remove in
    let m := foldl (fun m server => Notify (Convert now (attributes_ server) ROLE_SERVER OPT_LEAVE m) m)
               (sm_base sm) servers_to_remove in
    let m := foldl (fun m client => Notify (Convert now (attributes_ client) ROLE_CLIENT OPT_LEAVE m) m)
               m clients_to_remove in
    mkSM m servers clients.

(** ** Invariant *)

Context `{!WarehouseLaws W1, !WarehouseLaws W2}.
Hypothesis one_server : @multi W1 _ = false.
Hypothesis many_clients : @multi W2 _ = true.

(** Every role is under its service; a client has its process set. *)
Record sm_ok sm : Prop := {
  sk_servers : forall k r, (k, r) ∈ entries (servers_ sm) -> service_key r = k;
  sk_clients : forall k r, (k, r) ∈ entries (clients_ sm) -> service_key r = k;
  sk_process : forall k r, (k, r) ∈ entries (clients_ sm) ->
    is_Some (host_name (attributes_ r)) /\ is_Some (process_id (attributes_ r));
}.

Definition has_process (msg : ChangeMsg) : Prop :=
  is_Some (host_name (role_attr msg)) /\ is_Some (process_id (role_attr msg)).

Lemma entries_add1 k r (w : W1) : entries (w_Add k r true w).2 ≡ₚ (k, r) :: keep_other k (entries w).
Proof. destruct (wl_Add k r true w) as [_ ->]. unfold spec_Add. cbn. by rewrite one_server. Qed.

Lemma entries_add2 k r (w : W2) : entries (w_Add k r true w).2 ≡ₚ (k, r) :: entries w.
Proof. destruct (wl_Add k r true w) as [_ ->]. unfold spec_Add. cbn. by rewrite many_clients. Qed.

Lemma sm_ok_new host pid : sm_ok (sm_new host pid).
Proof. split; cbn; intros k r; rewrite wl_empty; set_solver. Qed.

Lemma sm_ok_Dispose msg sm : has_process msg -> sm_ok sm -> sm_ok (Dispose msg sm).
Proof.
  intros Hp [K1 K2 K3]. unfold Dispose, DisposeJoin, DisposeLeave.
  destruct (operate_type msg), (role_type msg);
    split; cbn [servers_ clients_ sm_set_base]; try done; intros k r;
    rewrite ?entries_add1, ?entries_add2, ?wl_Remove_key, ?wl_Remove_role.
  all: first
    [ by intros [[= -> ->]|Hin%elem_keep_other]%elem_of_cons; [|destruct Hin; eauto]
    | by intros [[= -> ->]|Hin]%elem_of_cons; [|eauto]
    | intros Hin%elem_keep_other; destruct Hin; by eauto
    | intros Hin%elem_spec_Remove_role; destruct Hin; by eauto ].
Qed.

(** Removing roles one by one. *)
Lemma remove_roles L (w : W2) :
  entries (foldl (fun w r => w_Remove_role (service_key r) r w) w L) ≡ₚ
  filter (fun e => Forall (fun r => ~ (e.1 = service_key r /\ Match e.2 (attributes_ r) = true)) L)
    (entries w).
Proof.
  revert w. induction L as [|r L IH]; intros w; cbn [foldl].
  - rewrite (filter_iff_in _ (fun _ => true = true)); [by rewrite filter_true|]. intros e _. split; done.
  - rewrite IH, wl_Remove_role. unfold spec_Remove_role. rewrite list_filter_filter.
    apply filter_iff_perm. intros e. rewrite Forall_cons. tauto.
Qed.

Definition process_target (host : string) (pid : Z) : RoleAttributes :=
  mkAttr (Some host) (Some pid) None None None None None None None None None.

(** The servers and clients of a departed process are removed, and only they. *)
Lemma service_topo_leave now host pid sm :
  sm_ok sm -> is_discovery_started_ (sm_base sm) = true ->
  entries (servers_ (OnTopoModuleLeave now host pid sm)) ≡ₚ
    filter (fun e => Match e.2 (process_target host pid) = false) (entries (servers_ sm)) /\
  entries (clients_ (OnTopoModuleLeave now host pid sm)) ≡ₚ
    filter (fun e => Match e.2 (process_target host pid) = false) (entries (clients_ sm)).
Proof.
  intros [K1 K2 K3] Hd. unfold OnTopoModuleLeave. rewrite Hd. cbn [negb servers_ clients_]. split.
  { apply (remove_keys service_key (fun r => Match r _)); [by apply wl_single|exact K1|].
    apply search_attr_perm. }
  rewrite remove_roles. fold (process_target host pid).
  pose proof (search_attr_perm (process_target host pid) (clients_ sm)) as HL.
  set (L := (w_Search_attr_roles _ [] (clients_ sm)).2) in *. clearbody L.
  rewrite (filter_iff_in _ (fun e => Match e.2 (process_target host pid) = false)); [done|].
  intros [k r] Hin. cbn. rewrite Forall_forall. split.
  - intros Hall. apply not_true_is_false. intros Hm. apply (Hall r).
    + rewrite HL, list_elem_of_filter. split; [done|]. apply list_elem_of_fmap. by exists (k, r).
    + split; [symmetry; by apply K2|apply Match_self].
  - intros Hn r' Hr' [_ Hm]. rewrite HL in Hr'. apply list_elem_of_filter in Hr' as [Hp Hr'].
    apply list_elem_of_fmap in Hr' as ([k' r''] & -> & Hin'). cbn in *.
    destruct (K3 _ _ Hin') as [[h Hh] [p Hpp]].
    apply Match_process in Hp as [Hh' Hp']. unfold str_of, int_of in Hh', Hp'.
    rewrite Hh in Hh'. rewrite Hpp in Hp'. cbn in Hh', Hp'. subst.
    assert (Match r (process_target host pid) = true); [|congruence].
    apply Match_process. by apply (Match_host_pid r (attributes_ r'')).
Qed.

End service_manager.
End Service.
