(* ===== verification/TopologyManager.v ===== *)
(** * TopologyManager: processes that come and go

    Models [cyber/service_discovery/topology_manager.{h,cc}]: the three managers behind
    one participant, the names of the participants by their identifier, and what happens
    when one is discovered or lost.  A participant's identifier is a number; the
    participant itself belongs to Fast-RTPS.  [std::to_string] and [std::stoi] are
    modelled on decimal strings. *)

From S2P Require Import Prelude Role Warehouse SingleValueWarehouse MultiValueWarehouse.
From S2P Require Import Manager NodeManager ChannelManager ServiceManager.

(** ** Decimal strings *)

Definition digit (d : Z) : Ascii.ascii := Ascii.ascii_of_N (Z.to_N (48 + d)).

Definition digit_value (c : Ascii.ascii) : option Z :=
  let v := Z.of_N (Ascii.N_of_ascii c) - 48 in
  if (0 <=? v) && (v <=? 9) then Some v else None.

(** The digits of a number, most significant first, in front of [acc]; the fuel bounds
    their number. *)
Fixpoint digits (fuel : nat) (n : Z) (acc : string) : string :=
  match fuel with
  | O => acc
  | S fuel' =>
      let acc' := String (digit (n mod 10)) acc in
      if n <? 10 then acc' else digits fuel' (n / 10) acc'
  end.

(** [std::to_string(int)]: an [int] has at most ten digits. *)
Definition to_string (n : Z) : string :=
  if n <? 0 then "-" +:+ digits 10 (- n) "" else digits 10 n "".

Definition is_space (c : Ascii.ascii) : bool :=
  let v := Z.of_N (Ascii.N_of_ascii c) in (v =? 32) || ((9 <=? v) && (v <=? 13)).

Fixpoint skip_space (s : string) : string :=
  match s with
  | String c s' => if is_space c then skip_space s' else s
  | EmptyString => s
  end.

(** The leading digits as a number, and how many there are. *)
Fixpoint take_digits (s : string) (acc : Z) (count : nat) : Z * nat :=
  match s with
  | String c s' =>
      match digit_value c with
      | Some d => take_digits s' (acc * 10 + d) (S count)
      | None => (acc, count)
      end
  | EmptyString => (acc, count)
  end.

Definition in_int (v : Z) : bool := (-2147483648 <=? v) && (v <=? 2147483647).

(** [std::stoi]: [None] for [invalid_argument] and [out_of_range]; what follows the number
    is ignored. *)
Definition stoi (s : string) : option Z :=
  let s := skip_space s in
  let '(sign, s) := match s with
                    | String c s' =>
                        if Ascii.eqb c (Ascii.ascii_of_nat 45) then (-1, s')
                        else if Ascii.eqb c (Ascii.ascii_of_nat 43) then (1, s') else (1, s)
                    | EmptyString => (1, s)
                    end in
  let '(v, count) := take_digits s 0 0%nat in
  match count with
  | O => None
  | _ => if in_int (sign * v) then Some (sign * v) else None
  end.

(** ** Participants *)

Definition plus_sign : Ascii.ascii := Ascii.ascii_of_nat 43.

(** [find('+')], [substr(0, pos)] and [substr(pos + 1)]. *)
Fixpoint split_plus (s : string) : option (string * string) :=
  match s with
  | EmptyString => None
  | String c s' =>
      if Ascii.eqb c plus_sign then Some (EmptyString, s')
      else match split_plus s' with
           | Some (h, p) => Some (String c h, p)
           | None => None
           end
  end.

Definition ParseParticipantName (participant_name : string) : option (string * Z) :=
  match split_plus participant_name with
  | None => None
  | Some (host_name, pid_str) =>
      match stoi pid_str with
      | Some process_id => Some (host_name, process_id)
      | None => None
      end
  end.

(** The name given to the participant in [CreateParticipant]. *)
Definition participant_name (host : string) (pid : Z) : string := host +:+ "+" +:+ to_string pid.

Inductive DISCOVERY_STATUS :=
| DISCOVERED_RTPSPARTICIPANT | CHANGED_QOS_RTPSPARTICIPANT
| REMOVED_RTPSPARTICIPANT | DROPPED_RTPSPARTICIPANT.

Record PartInfo := mkPart { m_guid : Z; m_status : DISCOVERY_STATUS; m_name : string }.

Record TopologyManager := mkTopo {
  init_ : bool;
  node_manager_ : Node.NM;
  channel_manager_ : CM;
  service_manager_ : ServiceManager SingleValue.SingleValueWarehouse MultiValue.MultiValueWarehouse;
  participant_names_ : gmap Z string;
  change_log : list ChangeMsg;
}.

Definition Convert (now : Z) (info : PartInfo) (names : gmap Z string)
    : option ChangeMsg * gmap Z string :=
  let guid := m_guid info in
  let '(name, names', opt) :=
    match m_status info with
    | DISCOVERED_RTPSPARTICIPANT => (m_name info, <[guid := m_name info]> names, OPT_JOIN)
    | REMOVED_RTPSPARTICIPANT | DROPPED_RTPSPARTICIPANT =>
        match names !! guid with
        | Some n => (n, delete guid names, OPT_LEAVE)
        | None => ("", names, OPT_LEAVE)
        end
    | CHANGED_QOS_RTPSPARTICIPANT => ("", names, OPT_JOIN)
    end in
  match ParseParticipantName name with
  | None => (None, names')
  | Some (host, pid) =>
      (Some (mkMsg now CHANGE_PARTICIPANT opt ROLE_PARTICIPANT
               (mkAttr (Some host) (Some pid) None None None None None None None None None)), names')
  end.

Definition OnParticipantChange (now : Z) (info : PartInfo) (t : TopologyManager) : TopologyManager :=
  let '(msg, names) := Convert now info (participant_names_ t) in
  let t := mkTopo (init_ t) (node_manager_ t) (channel_manager_ t) (service_manager_ t) names (change_log t) in
  match msg with
  | None => t
  | Some msg =>
      if negb (init_ t) then t
      else
        let h := str_of (host_name (role_attr msg)) in
        let p := int_of (process_id (role_attr msg)) in
        let t := match operate_type msg with
                 | OPT_LEAVE =>
                     mkTopo (init_ t) (Node.OnTopoModuleLeave now h p (node_manager_ t))
                       (OnTopoModuleLeave now h p (channel_manager_ t))
                       (Service.OnTopoModuleLeave now h p (service_manager_ t))
                       (participant_names_ t) (change_log t)
                 | OPT_JOIN => t
                 end in
        mkTopo (init_ t) (node_manager_ t) (channel_manager_ t) (service_manager_ t)
          (participant_names_ t) (change_log t ++ [msg])
  end.

(** ** Names of participants *)

Lemma digit_cases (P : Z -> Prop) d :
  0 <= d < 10 -> P 0 -> P 1 -> P 2 -> P 3 -> P 4 -> P 5 -> P 6 -> P 7 -> P 8 -> P 9 -> P d.
Proof.
  intros Hd. intros.
  assert (d = 0 \/ d = 1 \/ d = 2 \/ d = 3 \/ d = 4 \/ d = 5 \/ d = 6 \/ d = 7 \/ d = 8 \/ d = 9) by lia.
  naive_solver.
Qed.

Lemma digit_value_digit d : 0 <= d < 10 -> digit_value (digit d) = Some d.
Proof. intros Hd. by apply (digit_cases (fun d => digit_value (digit d) = Some d)). Qed.

(** Reading the digits of [n] multiplies what was read before and adds [n]. *)
Lemma take_digits_digits fuel n acc a c :
  0 <= n < 10 ^ Z.of_nat fuel -> (0 < fuel)%nat ->
  exists k, (0 < k)%nat /\
    take_digits (digits fuel n acc) a c = take_digits acc (a * 10 ^ Z.of_nat k + n) (c + k)%nat.
Proof.
  revert n acc. induction fuel as [|fuel IH]; intros n acc Hn Hf; [lia|]. cbn [digits].
  destruct (Z.ltb_spec n 10).
  - exists 1%nat. split; [lia|]. rewrite Z.mod_small by lia. cbn [take_digits].
    rewrite digit_value_digit by lia. f_equal; lia.
  - destruct (decide (fuel = 0%nat)) as [->|]; [cbn in Hn; lia|].
    rewrite Nat2Z.inj_succ, Z.pow_succ_r in Hn by lia.
    destruct (IH (n / 10) (String (digit (n mod 10)) acc)) as (k & Hk & ->); [|lia|].
    { split; [apply Z.div_pos; lia|]. apply Z.div_lt_upper_bound; lia. }
    exists (S k). split; [lia|]. cbn [take_digits]. rewrite digit_value_digit by (apply Z.mod_pos_bound; lia).
    f_equal; [|lia]. rewrite Nat2Z.inj_succ, Z.pow_succ_r by lia.
    pose proof (Z.div_mod n 10). lia.
Qed.

Lemma digits_head fuel n acc :
  0 <= n -> exists d s, digits (S fuel) n acc = String (digit d) s /\ 0 <= d < 10.
Proof.
  revert n acc. induction fuel as [|fuel IH]; intros n acc Hn.
  - exists (n mod 10), acc. cbn [digits]. split; [by destruct (n <? 10)|apply Z.mod_pos_bound; lia].
  - cbn [digits]. destruct (n <? 10); [|apply IH, Z.div_pos; lia].
    exists (n mod 10), acc. pose proof (Z.mod_pos_bound n 10). split; [done|lia].
Qed.

Lemma stoi_digits n : 0 <= n <= 2147483647 -> stoi (digits 10 n "") = Some n.
Proof.
  intros Hn. destruct (digits_head 9 n "" ltac:(lia)) as (d & s & Hs & Hd).
  assert (Hskip : skip_space (String (digit d) s) = String (digit d) s).
  { by apply (digit_cases (fun d => skip_space (String (digit d) s) = String (digit d) s)). }
  assert (Hm : Ascii.eqb (digit d) (Ascii.ascii_of_nat 45) = false /\
               Ascii.eqb (digit d) (Ascii.ascii_of_nat 43) = false).
  { by apply (digit_cases (fun d => Ascii.eqb (digit d) (Ascii.ascii_of_nat 45) = false /\
               Ascii.eqb (digit d) (Ascii.ascii_of_nat 43) = false)). }
  destruct Hm as [H1 H2]. unfold stoi. rewrite Hs, Hskip, H1, H2, <- Hs.
  destruct (take_digits_digits 10 n "" 0 0) as (k & Hk & ->); [cbn; lia|lia|]. cbn [take_digits].
  destruct k as [|k]; [lia|]. cbn [Nat.add]. rewrite Z.mul_0_l, Z.add_0_l, Z.mul_1_l.
  unfold in_int. rewrite (proj2 (Z.leb_le _ _)), (proj2 (Z.leb_le _ _)) by lia. done.
Qed.

Fixpoint no_plus (s : string) : bool :=
  match s with
  | EmptyString => true
  | String c s' => negb (Ascii.eqb c plus_sign) && no_plus s'
  end.

Lemma split_plus_host host s : no_plus host = true -> split_plus (host +:+ "+" +:+ s) = Some (host, s).
Proof.
  induction host as [|c host IH]; intros Hn; [done|]. cbn in Hn. to_prop.
  change (split_plus (String c host +:+ "+" +:+ s)) with
    (if Ascii.eqb c plus_sign then Some (EmptyString, host +:+ "+" +:+ s)
     else match split_plus (host +:+ "+" +:+ s) with Some (h, p) => Some (String c h, p) | None => None end).
  rewrite IH by done. by destruct (Ascii.eqb c plus_sign).
Qed.

Lemma parse_participant_name host pid :
  no_plus host = true -> 0 <= pid <= 2147483647 ->
  ParseParticipantName (participant_name host pid) = Some (host, pid).
Proof.
  intros Hh Hp. unfold ParseParticipantName, participant_name. rewrite split_plus_host by done.
  unfold to_string. destruct (Z.ltb_spec pid 0); [lia|]. by rewrite stoi_digits.
Qed.

(** The name that a process gives to its participant is parsed back to its host and
    process number, when the host name has no plus sign. *)
Theorem participant_name_roundtrip host pid (Hh : no_plus host = true) (Hp : 0 <= pid <= 2147483647) :
  ParseParticipantName (participant_name host pid) = Some (host, pid).
Proof. by apply parse_participant_name. Qed.

Lemma participant_name_roundtrip_witness :
  ParseParticipantName (participant_name "in-dev-docker" 30421) = Some ("in-dev-docker", 30421).
Proof. exact (participant_name_roundtrip "in-dev-docker" 30421 eq_refl ltac:(lia)). Defined.

Section departure.
Context (t : TopologyManager) (s : members).

(** The three managers are up and keep their invariants. *)
Record topo_ok : Prop := {
  tk_init : init_ t = true;
  tk_node : Node.keys_ok (node_manager_ t);
  tk_node_on : is_discovery_started_ (nm_base (node_manager_ t)) = true;
  tk_channel : view (channel_manager_ t) s;
  tk_channel_on : is_discovery_started_ (cm_base (channel_manager_ t)) = true;
  tk_writers : Forall role_ok (writers_of s);
  tk_readers : Forall role_ok (readers_of s);
  tk_service : Service.sm_ok (service_manager_ t);
  tk_service_on : is_discovery_started_ (sm_base (service_manager_ t)) = true;
}.

(** When the participant of a process is lost, its nodes, writers, readers, servers and
    clients disappear from the topology, those of every other process stay, and the
    change is announced. *)
Theorem lost_participant_is_dropped now guid host pid (status : DISCOVERY_STATUS)
    (Hok : topo_ok)
    (Hst : status = REMOVED_RTPSPARTICIPANT \/ status = DROPPED_RTPSPARTICIPANT)
    (Hname : participant_names_ t !! guid = Some (participant_name host pid))
    (Hh : no_plus host = true) (Hp : 0 <= pid <= 2147483647) :
  let t' := OnParticipantChange now (mkPart guid status "") t in
  let stays (e : entry) := Match e.2 (process_attr host pid) = false in
  entries (nodes_ (node_manager_ t')) ≡ₚ filter stays (entries (nodes_ (node_manager_ t))) /\
  view (channel_manager_ t')
    (mkMembers (leave_process host pid (writers_of s)) (leave_process host pid (readers_of s))) /\
  entries (servers_ (service_manager_ t')) ≡ₚ filter stays (entries (servers_ (service_manager_ t))) /\
  entries (clients_ (service_manager_ t')) ≡ₚ filter stays (entries (clients_ (service_manager_ t))) /\
  participant_names_ t' !! guid = None /\
  operate_type <$> last (change_log t') = Some OPT_LEAVE.
Proof.
  intros t' stays. destruct Hok as [K1 K2 K3 K4 K5 K6 K7 K8 K9].
  assert (HC : Convert now (mkPart guid status "") (participant_names_ t) =
    (Some (mkMsg now CHANGE_PARTICIPANT OPT_LEAVE ROLE_PARTICIPANT (process_attr host pid)),
     delete guid (participant_names_ t))).
  { unfold Convert. destruct Hst as [-> | ->]; cbn [m_status m_guid]; rewrite Hname;
      by rewrite parse_participant_name. }
  subst t'. unfold OnParticipantChange. rewrite HC, K1. cbn.
  split; [by apply (Node.node_topo_leave Node.single_role)|]. split; [by apply topo_leave; auto|].
  destruct (Service.service_topo_leave Node.single_role now host pid (service_manager_ t) K8 K9) as [S1 S2].
  split; [exact S1|]. split; [exact S2|].
  split; [apply lookup_delete_eq|]. by rewrite last_snoc.
Qed.
End departure.

(** A topology with roles of two processes. *)
Definition up (m : Manager) : Manager := (StartDiscovery true (true, true) (true, true) m).2.

Definition service_join (host : string) (pid : Z) (rt : RoleType) : ChangeMsg :=
  mkMsg 4 CHANGE_SERVICE OPT_JOIN rt
    (mkAttr (Some host) (Some pid) None None None None None None None (Some "/srv") (Some 9)).

Definition small_topology : TopologyManager :=
  let nm := Node.dispose_all [Node.node_join "host" 7 10] (Node.nm_new "host" 8) in
  let cm := dispose_all two_roles (cm_new "raw" "py" "host" 8) in
  let sm := Service.Dispose (service_join "host" 7 ROLE_SERVER)
              (Service.Dispose (service_join "host" 8 ROLE_CLIENT) (Service.sm_new "host" 8)) in
  mkTopo true (Node.nm_set_base (up (nm_base nm)) nm) (started cm) (Service.sm_set_base (up (sm_base sm)) sm)
    {[3 := participant_name "host" 7]} [].

Lemma small_topology_ok : topo_ok small_topology (members_after two_roles).
Proof.
  constructor; try done.
  - apply (Node.keys_ok_Dispose Node.single_role). intros k r Hin. by apply elem_of_nil in Hin.
  - eapply view_ext; [..|apply (dispose_all_view two_roles "raw" "py" "host" 8)]; try done.
    repeat constructor; by eexists.
  - repeat constructor; by eexists.
  - repeat constructor; by eexists.
  - assert (Hok : Service.sm_ok (Service.Dispose (service_join "host" 7 ROLE_SERVER)
      (Service.Dispose (service_join "host" 8 ROLE_CLIENT) (Service.sm_new "host" 8)) :
      ServiceManager SingleValue.SingleValueWarehouse MultiValue.MultiValueWarehouse)).
    { apply (Service.sm_ok_Dispose Node.single_role several_roles); [by split; eexists|].
      apply (Service.sm_ok_Dispose Node.single_role several_roles); [by split; eexists|].
      apply (Service.sm_ok_new Node.single_role several_roles). }
    destruct Hok as [H1 H2 H3]. constructor; [exact H1|exact H2|exact H3].
Qed.

Lemma lost_participant_is_dropped_witness :
  let t' := OnParticipantChange 5 (mkPart 3 DROPPED_RTPSPARTICIPANT "") small_topology in
  view (channel_manager_ t') (mkMembers [] []) /\
  length (Node.GetNodes [] (node_manager_ t')) = 0%nat /\
  length (Service.GetServers [] (service_manager_ t')) = 0%nat /\
  length (Service.GetClients (fun _ => 9) "/srv" [] (service_manager_ t')) = 1%nat.
Proof.
  split; [|split; [|split]; vm_compute; reflexivity].
  exact (proj1 (proj2 (lost_participant_is_dropped small_topology (members_after two_roles) 5 3 "host" 7
    DROPPED_RTPSPARTICIPANT small_topology_ok (or_intror eq_refl) eq_refl eq_refl ltac:(lia)))).
Defined.
