(* ===== verification/Time.v ===== *)
(** * Time: instants, durations, the rate of a loop and the clock

    Models [time/time.{h,cc}], [time/duration.{h,cc}], [time/rate.{h,cc}], [time/clock.{h,cc}] and the conversions between UNIX and GPS time of
    [common/time_conversion.h].  An instant is a number of nanoseconds in 64 bits without sign, a duration one with sign; a double is a number of
    Stdlib's [SpecFloat], rounded to nearest.  [None] is what C++ leaves undefined: a signed sum, or the conversion of a double, that does not fit.
    What the system's clocks say is an argument. *)

From Stdlib Require Import SpecFloat.
From S2P Require Import Prelude.

(** ** Doubles *)

Definition prec : Z := 53.
Definition emax : Z := 1024.
Definition double_of (z : Z) : spec_float := binary_normalize prec emax z 0 false.
Definition double_mul : spec_float -> spec_float -> spec_float := SFmul prec emax.
Definition double_div : spec_float -> spec_float -> spec_float := SFdiv prec emax.

(** A double as an integer, its fraction cut off. *)
Definition truncate (x : spec_float) : option Z :=
  match x with
  | S754_zero _ => Some 0
  | S754_finite s m e => let n := if 0 <=? e then Z.pos m * 2 ^ e else Z.pos m / 2 ^ (- e) in Some (if s then - n else n)
  | _ => None
  end.

Definition in_i64 (z : Z) : bool := (- 9223372036854775808 <=? z) && (z <? 9223372036854775808).
Definition checked (ok : Z -> bool) (z : option Z) : option Z := z ≫= fun n => if ok n then Some n else None.
Definition to_u64 (x : spec_float) : option Z := checked (fun z => (0 <=? z) && (z <? two64)) (truncate x).
Definition to_i64 (x : spec_float) : option Z := checked in_i64 (truncate x).

Definition billion : Z := 1000000000.

(** ** Duration *)

Module Duration.

Definition of_double (seconds : spec_float) : option Z := to_i64 (double_mul seconds (double_of billion)).
Definition of_parts (seconds nanoseconds : Z) : Z := wrap_i64 (wrap_u64 (seconds * billion + nanoseconds)).
Definition ToSecond (d : Z) : spec_float := double_div (double_of d) (double_of billion).
Definition ToNanosecond (d : Z) : Z := d.
Definition IsZero (d : Z) : bool := d =? 0.
Definition add (a b : Z) : option Z := checked in_i64 (Some (a + b)).
Definition sub (a b : Z) : option Z := checked in_i64 (Some (a - b)).
Definition neg (a : Z) : option Z := checked in_i64 (Some (- a)).
Definition scale (a : Z) (s : spec_float) : option Z := to_i64 (double_mul (double_of a) s).

End Duration.

(** ** Time *)

Module Time.

Definition MAX : Z := two64 - 1.
Definition MIN : Z := 0.
Definition of_int (nanoseconds : Z) : Z := wrap_u64 nanoseconds.
Definition of_double (seconds : spec_float) : option Z := to_u64 (double_mul seconds (double_of billion)).
Definition of_parts (seconds nanoseconds : Z) : Z := wrap_u64 (seconds * billion + nanoseconds).
Definition ToSecond (t : Z) : spec_float := double_div (double_of t) (double_of billion).
Definition ToMicrosecond (t : Z) : option Z := to_u64 (double_div (double_of t) (double_of 1000)).
Definition ToNanosecond (t : Z) : Z := t.
Definition IsZero (t : Z) : bool := t =? 0.
Definition diff (a b : Z) : Z := wrap_i64 (wrap_u64 (a - b)).
Definition plus (t d : Z) : Z := wrap_u64 (t + Duration.ToNanosecond d).
Definition minus (t d : Z) : Z := wrap_u64 (t - Duration.ToNanosecond d).

End Time.

(** ** Rate *)

Module Rate.

Record Rate := mkRate { start_ : Z; expected_cycle_time_ : Z; actual_cycle_time_ : Z }.

Definition of_frequency (now : Z) (frequency : spec_float) : option Rate :=
  c ← Duration.of_double (double_div (double_of 1) frequency); Some (mkRate now c 0).
Definition of_nanoseconds (now nanoseconds : Z) : Rate := mkRate now (wrap_i64 nanoseconds) 0.
Definition of_duration (now d : Z) : Rate := mkRate now d 0.

(** [Sleep], when the clock says [actual_end]: until when it sleeps, if it does. *)
Definition Sleep (actual_end : Z) (r : Rate) : option Z * Rate :=
  let cycle := expected_cycle_time_ r in
  let expected_end := if actual_end <? start_ r then Time.plus actual_end cycle else Time.plus (start_ r) cycle in
  let sleep_time := Time.diff expected_end actual_end in
  let actual_cycle := Time.diff actual_end (start_ r) in
  if sleep_time <? 0 then
    (None, mkRate (if Time.plus expected_end cycle <? actual_end then actual_end else expected_end) cycle actual_cycle)
  else (Some expected_end, mkRate expected_end cycle actual_cycle).

Definition Reset (now : Z) (r : Rate) : Rate := mkRate now (expected_cycle_time_ r) (actual_cycle_time_ r).
Definition CycleTime (r : Rate) : Z := actual_cycle_time_ r.

(** The loop: at each time of the list its work is done. *)
Fixpoint loop (ends : list Z) (r : Rate) : list (option Z) * Rate :=
  match ends with
  | [] => ([], r)
  | e :: ends' => let '(s, r1) := Sleep e r in let '(ss, r2) := loop ends' r1 in (s :: ss, r2)
  end.

End Rate.

(** ** Clock *)

Module Clock.

Inductive ClockMode := MODE_CYBER | MODE_MOCK | MODE_OTHER (n : Z).
Record Clock := mkClock { mode_ : ClockMode; mock_now_ : Z }.

Definition clock_new (configured : ClockMode) : Clock := mkClock configured 0.

(** [Now]; [None]: the process is ended ([AFATAL]). *)
Definition Now (system : Z) (c : Clock) : option Z :=
  match mode_ c with MODE_CYBER => Some system | MODE_MOCK => Some (mock_now_ c) | MODE_OTHER _ => None end.

Definition SetMode (mode : ClockMode) (c : Clock) : Clock := mkClock (match mode with MODE_OTHER _ => mode_ c | _ => mode end) 0.
Definition SetNow (now : Z) (c : Clock) : Clock := match mode_ c with MODE_MOCK => mkClock MODE_MOCK now | _ => c end.
Definition NowInSeconds (system : Z) (c : Clock) : option spec_float := Time.ToSecond <$> Now system c.
Definition SetNowInSeconds (seconds : spec_float) (c : Clock) : option Clock := t ← Time.of_double seconds; Some (SetNow t c).

Inductive op := OSetMode (m : ClockMode) | OSetNow (t : Z).
Definition run_op (c : Clock) (o : op) : Clock := match o with OSetMode m => SetMode m c | OSetNow t => SetNow t c end.
Definition run (c : Clock) (l : list op) : Clock := fold_left run_op l c.

End Clock.

(** ** UNIX and GPS time *)

Module TimeConversion.

Definition LEAP_SECONDS : list (Z * Z) :=
  [(1483228800, 18); (1435708800, 17); (1341100800, 16); (1230768000, 15); (1136073600, 14)].
Definition UNIX_GPS_DIFF : Z := 315964800.
Definition ONE_MILLION : Z := 1000000.
Definition ONE_BILLION : Z := 1000000000.

Fixpoint unix_to_gps (leaps : list (Z * Z)) (unix_seconds : Z) : Z :=
  match leaps with
  | [] => 0
  | (first, second) :: leaps' => if first <=? unix_seconds then unix_seconds - (UNIX_GPS_DIFF - second) else unix_to_gps leaps' unix_seconds
  end.
Definition UnixToGpsSeconds : Z -> Z := unix_to_gps LEAP_SECONDS.

Fixpoint gps_to_unix (leaps : list (Z * Z)) (gps_seconds : Z) : Z :=
  match leaps with
  | [] => 0
  | (first, second) :: leaps' =>
      let result := gps_seconds + (UNIX_GPS_DIFF - second) in
      if first <=? wrap_i32 result then result else gps_to_unix leaps' gps_seconds
  end.
Definition GpsToUnixSeconds : Z -> Z := gps_to_unix LEAP_SECONDS.

(** C++ rounds a quotient towards zero. *)
Definition UnixToGpsMicroseconds (us : Z) : Z := UnixToGpsSeconds (Z.quot us ONE_MILLION) * ONE_MILLION + Z.rem us ONE_MILLION.
Definition UnixToGpsNanoseconds (ns : Z) : Z := UnixToGpsSeconds (Z.quot ns ONE_BILLION) * ONE_BILLION + Z.rem ns ONE_BILLION.
Definition GpsToUnixMicroseconds (us : Z) : Z := GpsToUnixSeconds (Z.quot us ONE_MILLION) * ONE_MILLION + Z.rem us ONE_MILLION.
Definition GpsToUnixNanoseconds (ns : Z) : Z := GpsToUnixSeconds (Z.quot ns ONE_BILLION) * ONE_BILLION + Z.rem ns ONE_BILLION.

End TimeConversion.

(** ** Properties *)

Module TimeFacts.
Import Rate.

(** An instant plus the difference to another one is the other one, however far apart they are. *)
Theorem difference_back t1 t2 : is_u64 t1 -> is_u64 t2 -> Time.plus t2 (Time.diff t1 t2) = t1 /\ Time.minus t1 (Time.diff t1 t2) = t2.
Proof. unfold is_u64, Time.plus, Time.minus, Time.diff, Duration.ToNanosecond, wrap_i64, wrap_u64, two64. intros H1 H2. split; case_if; div_lia. Qed.

(** Times that leave room for a cycle or two. *)
Definition early (z : Z) : Prop := 0 <= z < 2 ^ 62.

Lemma plus_early a b : early a -> early b -> Time.plus a b = a + b.
Proof. unfold early, Time.plus, Duration.ToNanosecond. intros. rewrite wrap_u64_small; [done|]. unfold two64. lia. Qed.

Lemma diff_early a b : 0 <= a < 2 ^ 63 -> 0 <= b < 2 ^ 63 -> Time.diff a b = a - b.
Proof. unfold Time.diff, wrap_i64, wrap_u64, two64. intros. case_if; div_lia. Qed.

(** [Sleep] in plain numbers, on every branch. *)
Lemma sleep_cases e r : early e -> early (start_ r) -> 0 < expected_cycle_time_ r -> early (expected_cycle_time_ r) ->
  let c := expected_cycle_time_ r in let x := (if e <? start_ r then e else start_ r) + c in
  Sleep e r = if x <? e then (None, mkRate (if x + c <? e then e else x) c (e - start_ r)) else (Some x, mkRate x c (e - start_ r)).
Proof.
  intros He Hs Hc Hc'. unfold Sleep. rewrite (plus_early e), (plus_early (start_ r)) by done.
  set (x := if e <? start_ r then e + expected_cycle_time_ r else start_ r + expected_cycle_time_ r).
  assert (Ex : x = (if e <? start_ r then e else start_ r) + expected_cycle_time_ r) by (subst x; by case_if).
  rewrite <- Ex. assert (0 <= x < 2 ^ 63) by (subst x; unfold early in *; case_if; lia).
  rewrite !diff_early by (unfold early in *; lia). destruct (Z.ltb_spec x e) as [Hx|Hx].
  - replace (x - e <? 0) with true by lia. assert (Hp : Time.plus x (expected_cycle_time_ r) = x + expected_cycle_time_ r); [|by rewrite Hp].
    apply plus_early; [unfold early in *; lia|done].
  - replace (x - e <? 0) with false by lia. done.
Qed.

(** The loop does not drift: if every round of its work ends after it began and at most one cycle late, the start of the [n]-th round is
    [n] cycles after the first one, and every round that is not late sleeps until exactly its end. *)
Theorem rate_no_drift ends start c a : 0 < c -> 0 <= start -> start + (Z.of_nat (length ends) + 2) * c < 2 ^ 62 ->
  (forall k e, ends !! k = Some e -> start + Z.of_nat k * c <= e <= start + (Z.of_nat k + 2) * c) ->
  start_ (loop ends (mkRate start c a)).2 = start + Z.of_nat (length ends) * c /\
  forall k e, ends !! k = Some e -> (loop ends (mkRate start c a)).1 !! k =
    Some (if e <=? start + (Z.of_nat k + 1) * c then Some (start + (Z.of_nat k + 1) * c) else None).
Proof.
  intros Hc. revert start a. induction ends as [|e ends IH]; intros start a Hs Hb He; [split; [cbn; lia|done]|]. cbn [length] in *.
  pose proof (He 0%nat e eq_refl) as He0. cbn [loop].
  rewrite sleep_cases by (unfold early; cbn [start_ expected_cycle_time_]; lia). cbn [start_ expected_cycle_time_].
  replace (e <? start) with false by lia. set (o := if e <=? start + c then Some (start + c) else None).
  assert (Hr : exists a', (if start + c <? e then (None, mkRate (if start + c + c <? e then e else start + c) c (e - start)) else (Some (start + c), mkRate (start + c) c (e - start)))
    = (o, mkRate (start + c) c a')).
  { subst o. exists (e - start). replace (start + c + c <? e) with false by lia. destruct (Z.ltb_spec (start + c) e); [replace (e <=? start + c) with false by lia|replace (e <=? start + c) with true by lia]; done. }
  destruct Hr as [a' ->]. destruct (IH (start + c) a') as [H1 H2]; [lia|lia| |].
  { intros k x Hk. specialize (He (S k) x Hk). lia. }
  destruct (loop ends (mkRate (start + c) c a')) as [ss r2]. cbn [fst snd] in *. split; [rewrite H1; lia|].
  intros [|k] x Hk; cbn in Hk.
  - injection Hk as <-. cbn. subst o. by replace (start + (Z.of_nat 0 + 1) * c) with (start + c) by lia.
  - etrans; [exact (H2 k x Hk)|]. by replace (start + c + (Z.of_nat k + 1) * c) with (start + (Z.of_nat (S k) + 1) * c) by lia.
Qed.

(** Whatever the clock did, after one [Sleep] the round starts within a cycle of what the clock says. *)
Theorem rate_recovers e r : early e -> early (start_ r) -> 0 < expected_cycle_time_ r -> early (expected_cycle_time_ r) ->
  Z.abs (start_ (Sleep e r).2 - e) <= expected_cycle_time_ r.
Proof. intros He Hs Hc Hc'. rewrite sleep_cases by done. cbv zeta. repeat case_if; cbn [fst snd start_]; lia. Qed.

(** The mock clock says what was last set since its mode was last set, also if that was to the mode it had; the system's clock cannot be
    set. *)
Theorem clock_says c0 l1 m l2 system : Forall (fun o => match o with Clock.OSetNow _ => True | _ => False end) l2 ->
  let c := Clock.run c0 (l1 ++ Clock.OSetMode m :: l2) in
  match m with
  | Clock.MODE_CYBER => Clock.Now system c = Some system
  | Clock.MODE_MOCK => Clock.Now system c = Some (match last l2 with Some (Clock.OSetNow t) => t | _ => 0 end)
  | Clock.MODE_OTHER _ => Clock.mode_ c = Clock.mode_ (Clock.run c0 l1)
  end.
Proof.
  intros Hl. unfold Clock.run. rewrite fold_left_app. cbn [fold_left Clock.run_op]. set (c1 := fold_left _ l1 c0).
  assert (H : forall c, Clock.mode_ (fold_left Clock.run_op l2 c) = Clock.mode_ c).
  { induction Hl as [|[|t] l2 Ho _ IH]; intros c; [done|done|]. cbn. rewrite IH. by destruct c as [[] t0]. }
  destruct m as [| |n]; unfold Clock.Now; cbn; rewrite ?H; [done| |done]. f_equal. clear H. revert Hl.
  induction l2 as [|o l2 IH] using rev_ind; intros Hl; [done|]. apply Forall_app in Hl as [Hl Ho]. rewrite Forall_singleton in Ho.
  rewrite fold_left_app, last_snoc. cbn. destruct o as [|t]; [done|]. cbn. unfold Clock.SetNow.
  assert (Hm : Clock.mode_ (fold_left Clock.run_op l2 (Clock.SetMode Clock.MODE_MOCK c1)) = Clock.MODE_MOCK).
  { clear -Hl. generalize (Clock.SetMode Clock.MODE_MOCK c1) as c, (eq_refl : Clock.mode_ (Clock.SetMode Clock.MODE_MOCK c1) = Clock.MODE_MOCK). revert Hl.
    induction l2 as [|[|t] l2 IH]; intros Hl c Hc; [done| |]; apply Forall_cons in Hl as [Ho Hl]; [done|]. cbn. apply IH; [done|]. unfold Clock.SetNow. by rewrite Hc. }
  by rewrite Hm.
Qed.

(** *** UNIX and GPS seconds *)

Import TimeConversion.

Definition two31 : Z := 2147483648.

Lemma gps_step first second leaps g : 0 <= g + (UNIX_GPS_DIFF - second) < two31 ->
  gps_to_unix ((first, second) :: leaps) g = if first <=? g + (UNIX_GPS_DIFF - second) then g + (UNIX_GPS_DIFF - second) else gps_to_unix leaps g.
Proof. intros H. cbn [gps_to_unix]. unfold two31 in H. by rewrite wrap_i32_small by lia. Qed.

Lemma gps_seconds_back u : 1136073600 <= u < two31 -> GpsToUnixSeconds (UnixToGpsSeconds u) = u.
Proof.
  intros Hu. unfold UnixToGpsSeconds, GpsToUnixSeconds, LEAP_SECONDS. cbn [unix_to_gps].
  repeat match goal with |- context [?a <=? u] => destruct (Z.leb_spec a u) end; try lia; unfold two31 in Hu;
    repeat (rewrite gps_step by (unfold two31, UNIX_GPS_DIFF; lia);
      match goal with |- context [?a <=? ?b] => destruct (Z.leb_spec a b) end; unfold UNIX_GPS_DIFF in *; [lia|try lia]).
Qed.

(** From 2006 on, and as long as the seconds fit into 31 bits, UNIX seconds are found back from the GPS seconds they were turned into, in
    spite of the leap seconds in between. *)
Theorem gps_roundtrip u : 1136073600 <= u < two31 -> GpsToUnixSeconds (UnixToGpsSeconds u) = u.
Proof. apply gps_seconds_back. Qed.

Lemma gps_roundtrip_witness : GpsToUnixSeconds (UnixToGpsSeconds 1483228799) = 1483228799 /\ UnixToGpsSeconds 1483228799 = 1167264016 /\ UnixToGpsSeconds 1483228800 = 1167264018.
Proof. split; [apply gps_roundtrip; unfold two31; lia|by vm_compute]. Defined.

(** The same for nanoseconds. *)
Theorem gps_roundtrip_nanoseconds ns : 1136073600 * ONE_BILLION <= ns < two31 * ONE_BILLION -> GpsToUnixNanoseconds (UnixToGpsNanoseconds ns) = ns.
Proof.
  unfold GpsToUnixNanoseconds, UnixToGpsNanoseconds. intros Hn. set (q := Z.quot ns ONE_BILLION). set (r := Z.rem ns ONE_BILLION).
  assert (Hq : ns = q * ONE_BILLION + r /\ 0 <= r < ONE_BILLION /\ 1136073600 <= q < two31) by (subst q r; unfold ONE_BILLION, two31 in *; div_lia).
  destruct Hq as (E & Hr & Hq). assert (Hg : 0 <= UnixToGpsSeconds q).
  { unfold UnixToGpsSeconds, LEAP_SECONDS. cbn [unix_to_gps]. unfold UNIX_GPS_DIFF. repeat case_if; lia. }
  set (g := UnixToGpsSeconds q) in *.
  assert (Hd : Z.quot (g * ONE_BILLION + r) ONE_BILLION = g /\ Z.rem (g * ONE_BILLION + r) ONE_BILLION = r) by (unfold ONE_BILLION in *; div_lia).
  destruct Hd as [-> ->]. subst g. rewrite gps_seconds_back by done. lia.
Qed.

(** From 2038-01-19 on [(int32_t)result] is negative, no row of the table is taken, and the GPS seconds turn into 0. *)
Theorem gps_ends_in_2038 u : two31 <= u < two32 - 4 -> GpsToUnixSeconds (UnixToGpsSeconds u) = 0.
Proof.
  unfold two31, two32. intros Hu. assert (Hw : forall z, 2147483648 <= z < 4294967296 -> wrap_i32 z < 0) by (unfold wrap_i32, two32; intros; case_if; div_lia).
  assert (E : UnixToGpsSeconds u = u - (UNIX_GPS_DIFF - 18)) by (unfold UnixToGpsSeconds, LEAP_SECONDS; cbn [unix_to_gps]; case_if; [done|lia]).
  rewrite E. unfold GpsToUnixSeconds, LEAP_SECONDS. cbn [gps_to_unix].
  repeat match goal with |- context [?a <=? wrap_i32 ?x] =>
    destruct (Z.leb_spec a (wrap_i32 x)); [exfalso; assert (wrap_i32 x < 0) by (apply Hw; unfold UNIX_GPS_DIFF; lia); lia|] end. done.
Qed.

(** A leap second itself has no UNIX second: two GPS seconds are one UNIX second. *)
Theorem leap_second_twice : GpsToUnixSeconds 1167264017 = 1483228800 /\ GpsToUnixSeconds 1167264018 = 1483228800.
Proof. by vm_compute. Qed.

(** *** Doubles *)

(** A time of 2023: its microseconds, which go through doubles, are one more than the whole ones. *)
Theorem microseconds_rounded : Time.ToMicrosecond 1700000000123458998 = Some 1700000000123459 /\ 1700000000123458998 / 1000 = 1700000000123458.
Proof. by vm_compute. Qed.

(** Half a second, and a rate of 10 a second. *)
Theorem doubles_exact : Duration.of_double (double_div (double_of 1) (double_of 2)) = Some 500000000 /\
  Rate.of_frequency 5 (double_of 10) = Some (mkRate 5 100000000 0) /\ Rate.of_frequency 5 (double_of 0) = None.
Proof. by vm_compute. Qed.

(** *** Witnesses *)

Lemma difference_back_witness : Time.plus 10 (Time.diff 3 10) = 3 /\ Time.minus 3 (Time.diff 3 10) = 10.
Proof. apply (difference_back 3 10); unfold is_u64, two64; lia. Defined.

Lemma rate_no_drift_witness : start_ (loop [15; 25; 38; 50]%Z (mkRate 10 10 0)).2 = 50 /\
  (loop [15; 25; 38; 50]%Z (mkRate 10 10 0)).1 !! 2%nat = Some (Some 40).
Proof.
  destruct (rate_no_drift [15; 25; 38; 50] 10 10 0) as [H1 H2]; [lia|lia|cbn; lia| |].
  - intros k e Hk. do 4 (destruct k as [|k]; [injection Hk as <-; lia|]). done.
  - split; [exact H1|]. exact (H2 2%nat 38 eq_refl).
Defined.
End TimeFacts.
