(* ===== verification/TimingWheel.v ===== *)
(** * TimingWheel: when a timer fires

    Models [cyber/timer/timing_wheel.{h,cc}] and [timer_bucket.h]: a wheel of 512 buckets
    that advances by one every two milliseconds, and an assistant wheel of 64 buckets, one
    of which is emptied into the first wheel at every turn of it.  Tasks are shared
    objects: buckets hold their identifiers (the weak pointers), the store the live
    tasks.  The loop body of the tick thread is cut into the pieces between which other
    threads may add tasks.  [fired] logs the callbacks handed to [cyber::Async]. *)

From S2P Require Import Prelude.

Definition WORK_WHEEL_SIZE : Z := 512.
Definition ASSISTANT_WHEEL_SIZE : Z := 64.
Definition TIMER_RESOLUTION_MS : Z := 2.
Definition TIMER_MAX_INTERVAL_MS : Z := WORK_WHEEL_SIZE * ASSISTANT_WHEEL_SIZE * TIMER_RESOLUTION_MS.

(** The fields of [TimerTask] that the wheel uses. *)
Record TimerTask := mkTask {
  remainder_interval_ms : Z;
  next_fire_duration_ms : Z;
}.

Abbreviation bucket := (list nat).

Record TimingWheel := mkTW {
  running_ : bool;
  tick_count_ : Z;
  work_wheel_ : list bucket;
  assistant_wheel_ : list bucket;
  current_work_wheel_index_ : Z;
  current_assistant_wheel_index_ : Z;
  tasks : gmap nat TimerTask;
  fired : list nat;
}.

Definition tw_new : TimingWheel :=
  mkTW false 0 (replicate (Z.to_nat WORK_WHEEL_SIZE) []) (replicate (Z.to_nat ASSISTANT_WHEEL_SIZE) [])
    0 0 ∅ [].

Definition GetWorkWheelIndex (index : Z) : Z := Z.land index (wrap_u64 (WORK_WHEEL_SIZE - 1)).
Definition GetAssistantWheelIndex (index : Z) : Z := Z.land index (wrap_u64 (ASSISTANT_WHEEL_SIZE - 1)).

(** [std::ceil(static_cast<double>(d) / TIMER_RESOLUTION_MS)]; exact below 2^53. *)
Definition ticks_of (d : Z) : Z := (d + TIMER_RESOLUTION_MS - 1) / TIMER_RESOLUTION_MS.

(** [TimerBucket::AddTask] on a bucket of a wheel. *)
Definition push (i : Z) (id : nat) (ws : list bucket) : list bucket :=
  alter (fun b => b ++ [id]) (Z.to_nat i) ws.

Definition bucket_at (i : Z) (ws : list bucket) : bucket := default [] (ws !! Z.to_nat i).

Definition Start (w : TimingWheel) : TimingWheel :=
  mkTW true (tick_count_ w) (work_wheel_ w) (assistant_wheel_ w) (current_work_wheel_index_ w)
    (current_assistant_wheel_index_ w) (tasks w) (fired w).

Definition Shutdown (w : TimingWheel) : TimingWheel :=
  mkTW false (tick_count_ w) (work_wheel_ w) (assistant_wheel_ w) (current_work_wheel_index_ w)
    (current_assistant_wheel_index_ w) (tasks w) (fired w).

Definition alive (w : TimingWheel) (id : nat) : bool := bool_decide (is_Some (tasks w !! id)).

(** The callbacks of the live tasks of the current bucket; a callback does nothing once the
    wheel is shut down. *)
Definition Tick (w : TimingWheel) : TimingWheel :=
  let i := current_work_wheel_index_ w in
  let b := bucket_at i (work_wheel_ w) in
  mkTW (running_ w) (tick_count_ w) (<[Z.to_nat i := []]> (work_wheel_ w)) (assistant_wheel_ w) i
    (current_assistant_wheel_index_ w) (tasks w)
    (if running_ w then fired w ++ List.filter (alive w) b else fired w).

Definition set_wheels (work assistant : list bucket) (ts : gmap nat TimerTask) (w : TimingWheel)
    : TimingWheel :=
  mkTW (running_ w) (tick_count_ w) work assistant (current_work_wheel_index_ w)
    (current_assistant_wheel_index_ w) ts (fired w).

(** [AddTask(task, current_work_wheel_index)] for the task [id] of the store. *)
Definition AddTask_at (id : nat) (task : TimerTask) (current_work_wheel_index : Z) (w : TimingWheel)
    : TimingWheel :=
  let w := if negb (running_ w) then Start w else w in
  let work_wheel_index := wrap_u64 (current_work_wheel_index + ticks_of (next_fire_duration_ms task)) in
  if WORK_WHEEL_SIZE <=? work_wheel_index then
    let real_work_wheel_index := GetWorkWheelIndex work_wheel_index in
    let ts := <[id := mkTask real_work_wheel_index (next_fire_duration_ms task)]> (tasks w) in
    let assistant_ticks := work_wheel_index / WORK_WHEEL_SIZE in
    if (assistant_ticks =? 1) && (real_work_wheel_index <? current_work_wheel_index_ w) then
      set_wheels (push real_work_wheel_index id (work_wheel_ w)) (assistant_wheel_ w) ts w
    else
      let assistant_wheel_index :=
        GetAssistantWheelIndex (wrap_u64 (current_assistant_wheel_index_ w + assistant_ticks)) in
      set_wheels (work_wheel_ w) (push assistant_wheel_index id (assistant_wheel_ w)) ts w
  else
    set_wheels (push work_wheel_index id (work_wheel_ w)) (assistant_wheel_ w) (<[id := task]> (tasks w)) w.

Definition AddTask (id : nat) (task : TimerTask) (w : TimingWheel) : TimingWheel :=
  AddTask_at id task (current_work_wheel_index_ w) w.

(** The owner drops the task ([task_.reset()]). *)
Definition DropTask (id : nat) (w : TimingWheel) : TimingWheel :=
  set_wheels (work_wheel_ w) (assistant_wheel_ w) (delete id (tasks w)) w.

Definition Cascade (assistant_wheel_index : Z) (w : TimingWheel) : TimingWheel :=
  let b := bucket_at assistant_wheel_index (assistant_wheel_ w) in
  set_wheels
    (foldl (fun ws id => match tasks w !! id with
                         | Some task => push (remainder_interval_ms task) id ws
                         | None => ws
                         end) (work_wheel_ w) b)
    (<[Z.to_nat assistant_wheel_index := []]> (assistant_wheel_ w)) (tasks w) w.

(** The pieces of the loop body of [TickFunc] after [Tick()]. *)
Definition advance_work (w : TimingWheel) : TimingWheel :=
  mkTW (running_ w) (tick_count_ w) (work_wheel_ w) (assistant_wheel_ w)
    (GetWorkWheelIndex (wrap_u64 (current_work_wheel_index_ w + 1)))
    (current_assistant_wheel_index_ w) (tasks w) (fired w).

Definition advance_assistant (w : TimingWheel) : TimingWheel :=
  mkTW (running_ w) (tick_count_ w) (work_wheel_ w) (assistant_wheel_ w) (current_work_wheel_index_ w)
    (GetAssistantWheelIndex (wrap_u64 (current_assistant_wheel_index_ w + 1))) (tasks w) (fired w).

Definition count_tick (w : TimingWheel) : TimingWheel :=
  mkTW (running_ w) (wrap_u64 (tick_count_ w + 1)) (work_wheel_ w) (assistant_wheel_ w)
    (current_work_wheel_index_ w) (current_assistant_wheel_index_ w) (tasks w) (fired w).

(** From the sleep of one iteration to the sleep of the next: advance, cascade at a turn of
    the work wheel, and tick. *)
Definition turn (w : TimingWheel) : TimingWheel :=
  let w1 := advance_work w in
  let w2 := if current_work_wheel_index_ w1 =? 0 then
              let w' := advance_assistant w1 in Cascade (current_assistant_wheel_index_ w') w'
            else w1 in
  count_tick (Tick w2).

(** ** Where a task is *)

Definition cnt (t : nat) (b : bucket) : nat := length (filter (fun x => x = t) b).

Inductive place := InWork (i : Z) | InAssistant (a : Z) | Nowhere.

#[export] Instance place_eq_dec : EqDecision place.
Proof. solve_decision. Defined.

(** The task is once in the bucket [at], and in no other bucket of the wheel. *)
Definition occurs (ws : list bucket) (t : nat) (at_ : option Z) : Prop :=
  forall j, 0 <= j -> cnt t (bucket_at j ws) = if decide (at_ = Some j) then 1%nat else 0%nat.

Definition placed (w : TimingWheel) (t : nat) (p : place) : Prop :=
  match p with
  | InWork i => 0 <= i < 512 /\ occurs (work_wheel_ w) t (Some i) /\ occurs (assistant_wheel_ w) t None
  | InAssistant a => 0 <= a < 64 /\ occurs (work_wheel_ w) t None /\ occurs (assistant_wheel_ w) t (Some a)
  | Nowhere => occurs (work_wheel_ w) t None /\ occurs (assistant_wheel_ w) t None
  end.

Record wheel_wf (w : TimingWheel) : Prop := {
  wf_work : length (work_wheel_ w) = 512%nat;
  wf_assistant : length (assistant_wheel_ w) = 64%nat;
  wf_cw : 0 <= current_work_wheel_index_ w < 512;
  wf_ca : 0 <= current_assistant_wheel_index_ w < 64;
}.

(** The ticks until the task fires. *)
Definition remaining (w : TimingWheel) (rem : Z) (p : place) : Z :=
  let cw := current_work_wheel_index_ w in
  let ca := current_assistant_wheel_index_ w in
  match p with
  | InWork i => (i - cw - 1) mod 512 + 1
  | InAssistant a => (512 - cw) + ((a - ca - 1) mod 64) * 512 + rem
  | Nowhere => 0
  end.

Lemma land_511 x : Z.land x (wrap_u64 (WORK_WHEEL_SIZE - 1)) = x mod 512.
Proof. change (wrap_u64 (WORK_WHEEL_SIZE - 1)) with (Z.ones 9). by rewrite Z.land_ones. Qed.

Lemma land_63 x : Z.land x (wrap_u64 (ASSISTANT_WHEEL_SIZE - 1)) = x mod 64.
Proof. change (wrap_u64 (ASSISTANT_WHEEL_SIZE - 1)) with (Z.ones 6). by rewrite Z.land_ones. Qed.

Lemma cnt_app t b b' : cnt t (b ++ b') = (cnt t b + cnt t b')%nat.
Proof. unfold cnt. by rewrite filter_app, length_app. Qed.

Lemma cnt_single t x : cnt t [x] = if decide (x = t) then 1%nat else 0%nat.
Proof. unfold cnt. rewrite filter_cons. by case_decide. Qed.

Lemma cnt_filter t (p : nat -> bool) b : p t = true -> cnt t (List.filter p b) = cnt t b.
Proof.
  intros Hp. induction b as [|x b IH]; [done|]. cbn [List.filter].
  change (x :: b) with ([x] ++ b). rewrite cnt_app, cnt_single.
  destruct (p x) eqn:E.
  - change (x :: List.filter p b) with ([x] ++ List.filter p b). by rewrite cnt_app, cnt_single, IH.
  - rewrite IH, decide_False; [done|]. intros ->. congruence.
Qed.

Lemma bucket_at_push j i id ws :
  0 <= j -> 0 <= i < Z.of_nat (length ws) ->
  bucket_at j (push i id ws) = if decide (i = j) then bucket_at j ws ++ [id] else bucket_at j ws.
Proof.
  intros Hj Hi. unfold bucket_at, push. case_decide as Hd.
  - subst j. rewrite list_lookup_alter_eq.
    destruct (lookup_lt_is_Some_2 ws (Z.to_nat i)) as [b ->]; [lia|]. done.
  - rewrite list_lookup_alter_ne by lia. done.
Qed.

Lemma length_push i id ws : length (push i id ws) = length ws.
Proof. apply length_alter. Qed.

(** Pushing another task does not move this one. *)
Lemma occurs_push_other ws t i id at_ : id <> t -> occurs ws t at_ -> occurs (push i id ws) t at_.
Proof.
  intros Hne Ho j Hj. rewrite <- (Ho j Hj). unfold push, bucket_at.
  destruct (decide (Z.to_nat i = Z.to_nat j)) as [->|Hn].
  - rewrite list_lookup_alter_eq. destruct (ws !! Z.to_nat j) as [b|]; [|done].
    change (cnt t (b ++ [id]) = cnt t b). by rewrite cnt_app, cnt_single, decide_False, Nat.add_0_r.
  - by rewrite list_lookup_alter_ne.
Qed.

Lemma occurs_push_self ws t i :
  0 <= i < Z.of_nat (length ws) -> occurs ws t None -> occurs (push i t ws) t (Some i).
Proof.
  intros Hi Ho j Hj. rewrite bucket_at_push by done. specialize (Ho j Hj). rewrite decide_False in Ho by done.
  destruct (decide (i = j)) as [->|Hd].
  - rewrite (decide_True (P := Some j = Some j)) by done. by rewrite cnt_app, cnt_single, decide_True, Ho.
  - rewrite decide_False; [done|]. congruence.
Qed.

Lemma bucket_at_clear j i ws :
  0 <= j -> 0 <= i -> bucket_at j (<[Z.to_nat i := []]> ws) = if decide (i = j) then [] else bucket_at j ws.
Proof.
  intros Hj Hi. unfold bucket_at. rewrite list_lookup_insert.
  destruct (decide (i = j)) as [->|Hd].
  - destruct (decide (Z.to_nat j < length ws)%nat).
    + by rewrite decide_True by tauto.
    + rewrite decide_False by tauto. by rewrite lookup_ge_None_2 by lia.
  - rewrite decide_False by lia. done.
Qed.

Lemma occurs_clear ws t i at_ :
  0 <= i -> occurs ws t at_ -> at_ <> Some i -> occurs (<[Z.to_nat i := []]> ws) t at_.
Proof.
  intros Hi Ho Hne j Hj. rewrite bucket_at_clear by done. case_decide as Hd; [subst|by apply Ho].
  by rewrite decide_False.
Qed.

Lemma occurs_clear_self ws t i :
  0 <= i -> occurs ws t (Some i) -> occurs (<[Z.to_nat i := []]> ws) t None.
Proof.
  intros Hi Ho j Hj. rewrite bucket_at_clear by done. rewrite (decide_False (P := None = Some j)) by done.
  destruct (decide (i = j)) as [->|Hd]; [done|].
  rewrite (Ho j Hj). rewrite decide_False; [done|]. congruence.
Qed.

(** ** Ticking and cascading *)

Lemma Tick_stays w t p :
  wheel_wf w -> placed w t p -> p <> InWork (current_work_wheel_index_ w) ->
  placed (Tick w) t p /\ cnt t (fired (Tick w)) = cnt t (fired w).
Proof.
  intros [H1 H2 H3 H4] Hp Hne. unfold Tick. cbn [fired].
  assert (Hc : cnt t (bucket_at (current_work_wheel_index_ w) (work_wheel_ w)) = 0%nat).
  { destruct p as [i|a|]; destruct Hp as (_ & Ho & _) || destruct Hp as [Ho _];
      rewrite Ho by lia; rewrite decide_False; congruence. }
  split.
  - destruct p as [i|a|]; cbn [placed work_wheel_ assistant_wheel_] in *.
    + destruct Hp as (Hi & Ho & Ha). split; [done|]. split; [|done].
      apply occurs_clear; [lia|done|congruence].
    + destruct Hp as (Hi & Ho & Ha). split; [done|]. split; [|done]. apply occurs_clear; [lia|done|done].
    + destruct Hp as (Ho & Ha). split; [|done]. apply occurs_clear; [lia|done|done].
  - destruct (running_ w); [|done]. rewrite cnt_app.
    assert (cnt t (List.filter (alive w) (bucket_at (current_work_wheel_index_ w) (work_wheel_ w))) = 0%nat);
      [|lia].
    destruct (alive w t) eqn:E; [by rewrite cnt_filter|].
    revert Hc. generalize (bucket_at (current_work_wheel_index_ w) (work_wheel_ w)) as b. intros b Hc.
    induction b as [|x b IH]; [done|]. change (x :: b) with ([x] ++ b) in Hc. rewrite cnt_app in Hc.
    cbn [List.filter]. destruct (alive w x) eqn:Ex; [|apply IH; lia].
    change (x :: List.filter (alive w) b) with ([x] ++ List.filter (alive w) b). rewrite cnt_app, IH by lia. lia.
Qed.

Lemma Tick_fires w t :
  wheel_wf w -> running_ w = true -> alive w t = true ->
  placed w t (InWork (current_work_wheel_index_ w)) ->
  placed (Tick w) t Nowhere /\ cnt t (fired (Tick w)) = S (cnt t (fired w)).
Proof.
  intros [H1 H2 H3 H4] Hr Ha (Hi & Ho & Hx). unfold Tick. cbn [fired placed work_wheel_ assistant_wheel_].
  rewrite Hr. split.
  - split; [|done]. apply occurs_clear_self; [lia|done].
  - rewrite cnt_app, cnt_filter by done. rewrite (Ho (current_work_wheel_index_ w)) by lia.
    rewrite decide_True by done. lia.
Qed.

(** The loop of [Cascade] over a bucket. *)
Definition cascade_loop (ts : gmap nat TimerTask) (ws : list bucket) (b : bucket) : list bucket :=
  foldl (fun ws id => match ts !! id with
                      | Some task => push (remainder_interval_ms task) id ws
                      | None => ws
                      end) ws b.

Lemma length_cascade ts ws b : length (cascade_loop ts ws b) = length ws.
Proof.
  unfold cascade_loop. revert ws. induction b as [|x b IH]; intros ws; [done|]. cbn [foldl]. rewrite IH.
  destruct (ts !! x); [apply length_push|done].
Qed.

Lemma cascade_other ts ws b t at_ :
  cnt t b = 0%nat -> occurs ws t at_ -> occurs (cascade_loop ts ws b) t at_.
Proof.
  unfold cascade_loop. revert ws. induction b as [|x b IH]; intros ws Hc Ho; [done|].
  change (x :: b) with ([x] ++ b) in Hc. rewrite cnt_app, cnt_single in Hc.
  destruct (decide (x = t)); [lia|]. cbn [foldl]. apply IH; [lia|].
  destruct (ts !! x); [by apply occurs_push_other|done].
Qed.

Lemma cascade_self ts ws b t task :
  cnt t b = 1%nat -> ts !! t = Some task ->
  0 <= remainder_interval_ms task < Z.of_nat (length ws) ->
  occurs ws t None -> occurs (cascade_loop ts ws b) t (Some (remainder_interval_ms task)).
Proof.
  unfold cascade_loop. revert ws. induction b as [|x b IH]; intros ws Hc Ht Hr Ho; [done|].
  change (x :: b) with ([x] ++ b) in Hc. rewrite cnt_app, cnt_single in Hc. cbn [foldl].
  destruct (decide (x = t)) as [->|].
  - rewrite Ht. apply (cascade_other ts); [lia|]. by apply occurs_push_self.
  - apply IH; try done.
    + destruct (ts !! x); [by rewrite length_push|done].
    + destruct (ts !! x); [by apply occurs_push_other|done].
Qed.

Definition cascade_place (rem ca : Z) (p : place) : place :=
  match p with
  | InAssistant a => if a =? ca then InWork rem else p
  | _ => p
  end.

Lemma Cascade_placed w t p task ca :
  wheel_wf w -> 0 <= ca < 64 -> tasks w !! t = Some task -> 0 <= remainder_interval_ms task < 512 ->
  placed w t p -> placed (Cascade ca w) t (cascade_place (remainder_interval_ms task) ca p).
Proof.
  intros [H1 H2 H3 H4] Hca Ht Hr Hp. unfold Cascade.
  change (foldl _ (work_wheel_ w) ?b) with (cascade_loop (tasks w) (work_wheel_ w) b).
  set (b := bucket_at ca (assistant_wheel_ w)).
  assert (Hb : forall at_, occurs (assistant_wheel_ w) t at_ ->
            cnt t b = if decide (at_ = Some ca) then 1%nat else 0%nat).
  { intros at_ Ho. apply Ho. lia. }
  destruct p as [i|a|]; cbn [cascade_place].
  - destruct Hp as (Hi & Ho & Ha). split; [done|]. specialize (Hb None Ha). rewrite decide_False in Hb by done.
    split; [by apply cascade_other|]. apply occurs_clear; [lia|done|done].
  - destruct Hp as (Hi & Ho & Ha). specialize (Hb _ Ha). destruct (Z.eqb_spec a ca) as [->|Hne].
    + rewrite decide_True in Hb by done. split; [done|]. split.
      * apply cascade_self; try done. by rewrite H1.
      * apply occurs_clear_self; [lia|done].
    + rewrite decide_False in Hb by congruence. split; [done|]. split; [by apply cascade_other|].
      apply occurs_clear; [lia|done|congruence].
  - destruct Hp as (Ho & Ha). specialize (Hb None Ha). rewrite decide_False in Hb by done.
    split; [by apply cascade_other|]. apply occurs_clear; [lia|done|done].
Qed.

(** ** One turn *)

(** The state just before the tick of a turn. *)
Definition before_tick (w : TimingWheel) : TimingWheel :=
  let w1 := advance_work w in
  if current_work_wheel_index_ w1 =? 0 then
    let w' := advance_assistant w1 in Cascade (current_assistant_wheel_index_ w') w'
  else w1.

Lemma advance_index w : wheel_wf w -> current_work_wheel_index_ (advance_work w) = (current_work_wheel_index_ w + 1) mod 512.
Proof.
  intros [H1 H2 H3 H4]. cbn. unfold GetWorkWheelIndex. rewrite land_511.
  by rewrite wrap_u64_small by (unfold two64; lia).
Qed.

Lemma advance_assistant_index w :
  wheel_wf w ->
  current_assistant_wheel_index_ (advance_assistant w) = (current_assistant_wheel_index_ w + 1) mod 64.
Proof.
  intros [H1 H2 H3 H4]. cbn. unfold GetAssistantWheelIndex. rewrite land_63.
  by rewrite wrap_u64_small by (unfold two64; lia).
Qed.

(** The ticks until the task fires, counted just before a tick. *)
Definition remaining0 (w : TimingWheel) (rem : Z) (p : place) : Z :=
  match p with
  | InWork i => (i - current_work_wheel_index_ w) mod 512 + 1
  | _ => remaining w rem p + 1
  end.

Lemma before_tick_spec w t p task :
  wheel_wf w -> tasks w !! t = Some task -> 0 <= remainder_interval_ms task < 512 -> placed w t p ->
  let rem := remainder_interval_ms task in
  let w2 := before_tick w in
  wheel_wf w2 /\ running_ w2 = running_ w /\ tasks w2 = tasks w /\ fired w2 = fired w /\
  exists p2, placed w2 t p2 /\ (p = Nowhere -> p2 = Nowhere) /\
    (p <> Nowhere -> p2 <> Nowhere /\ remaining0 w2 rem p2 = remaining w rem p).
Proof.
  intros Hwf Ht Hr Hp rem w2. pose proof Hwf as [H1 H2 H3 H4]. subst w2. unfold before_tick.
  pose proof (advance_index w Hwf) as Hcw. set (w1 := advance_work w) in *.
  assert (Hwf1 : wheel_wf w1).
  { constructor; try done. rewrite Hcw. apply Z.mod_pos_bound. lia. }
  assert (Hp1 : placed w1 t p) by (destruct p; exact Hp).
  destruct (Z.eqb_spec (current_work_wheel_index_ w1) 0) as [Hz|Hz].
  - pose proof (advance_assistant_index w1 Hwf1) as Hca. set (w' := advance_assistant w1) in *.
    assert (Hcw0 : current_work_wheel_index_ w = 511) by (rewrite Hcw in Hz; div_lia).
    assert (Hwf' : wheel_wf w').
    { constructor; try done; [apply Hwf1|]. rewrite Hca. apply Z.mod_pos_bound. lia. }
    assert (Hca' : 0 <= current_assistant_wheel_index_ w' < 64) by apply Hwf'.
    pose proof (Cascade_placed w' t p task (current_assistant_wheel_index_ w') Hwf' Hca' Ht Hr) as Hc.
    split; [|split; [done|split; [done|split; [done|]]]].
    { destruct Hwf' as [G1 G2 G3 G4]. constructor; cbn [Cascade set_wheels work_wheel_ assistant_wheel_]; try done.
      - rewrite <- G1. apply (length_cascade (tasks w')).
      - by rewrite length_insert. }
    exists (cascade_place rem (current_assistant_wheel_index_ w') p).
    split; [apply Hc; destruct p; exact Hp|]. split; [by intros ->|].
    intros Hn. change (current_assistant_wheel_index_ w1) with (current_assistant_wheel_index_ w) in Hca.
    assert (E1 : current_work_wheel_index_ (Cascade (current_assistant_wheel_index_ w') w') = 0) by exact Hz.
    assert (E2 : current_assistant_wheel_index_ (Cascade (current_assistant_wheel_index_ w') w') =
                 (current_assistant_wheel_index_ w + 1) mod 64) by exact Hca.
    destruct p as [i|a|]; cbn [cascade_place]; [|rewrite Hca; destruct (Z.eqb_spec a ((current_assistant_wheel_index_ w + 1) mod 64)) as [->|Hne]|done].
    + split; [done|]. unfold remaining0, remaining. rewrite E1, Hcw0. destruct Hp as [Hi _]. div_lia.
    + split; [done|]. unfold remaining0, remaining. rewrite <- Hca at 1. rewrite E1, Hcw0. subst rem. div_lia.
    + split; [done|]. unfold remaining0, remaining. rewrite <- Hca at 1 2. rewrite E1, E2, Hcw0.
      destruct Hp as [Hi _]. div_lia.
  - split; [done|]. split; [done|]. split; [done|]. split; [done|]. exists p. split; [exact Hp1|]. split; [done|].
    intros Hn. split; [done|]. unfold remaining0, remaining.
    change (current_assistant_wheel_index_ w1) with (current_assistant_wheel_index_ w).
    rewrite Hcw in Hz |- *. destruct p as [i|a|]; [| |done]; [|div_lia].
    destruct Hp as [Hi _]. div_lia.
Qed.

Lemma turn_spec w t p task :
  wheel_wf w -> running_ w = true -> tasks w !! t = Some task ->
  0 <= remainder_interval_ms task < 512 -> placed w t p ->
  let rem := remainder_interval_ms task in
  wheel_wf (turn w) /\ running_ (turn w) = true /\ tasks (turn w) = tasks w /\
  (p = Nowhere \/ remaining w rem p = 1 -> placed (turn w) t Nowhere) /\
  (p <> Nowhere -> remaining w rem p <> 1 ->
     exists p', p' <> Nowhere /\ placed (turn w) t p' /\ remaining (turn w) rem p' = remaining w rem p - 1) /\
  cnt t (fired (turn w)) =
    (cnt t (fired w) + if decide (p <> Nowhere /\ remaining w rem p = 1%Z) then 1 else 0)%nat.
Proof.
  intros Hwf Hrun Ht Hr Hp rem.
  destruct (before_tick_spec w t p task Hwf Ht Hr Hp) as (Hwf2 & Hrun2 & Ht2 & Hf2 & p2 & Hp2 & Hn0 & Hrem).
  fold rem in Hrem. change (turn w) with (count_tick (Tick (before_tick w))).
  set (w2 := before_tick w) in *.
  assert (Hwf3 : wheel_wf (count_tick (Tick w2))).
  { destruct Hwf2 as [G1 G2 G3 G4]. constructor; cbn; try done. by rewrite length_insert. }
  split; [done|]. split; [cbn; congruence|]. split; [exact Ht2|].
  assert (Hpl : forall q, placed (Tick w2) t q -> placed (count_tick (Tick w2)) t q).
  { intros q Hq. destruct q; exact Hq. }
  destruct (decide (p2 = InWork (current_work_wheel_index_ w2))) as [->|Hne].
  - assert (Hpn : p <> Nowhere) by (intros E; by specialize (Hn0 E)).
    destruct (Hrem Hpn) as [_ Hr1]. unfold remaining0 in Hr1. rewrite Z.sub_diag, Z.mod_0_l in Hr1 by lia.
    destruct (Tick_fires w2 t Hwf2) as [Q1 Q2]; [congruence|unfold alive; rewrite Ht2, Ht; done|done|].
    split; [intros _; by apply Hpl|]. split; [intros _ H1; lia|].
    cbn [fired count_tick]. rewrite Q2, Hf2, decide_True by (split; [done|lia]). lia.
  - destruct (Tick_stays w2 t p2 Hwf2 Hp2 Hne) as [Q1 Q2].
    assert (Hge : p <> Nowhere -> remaining w rem p <> 1 /\ p2 <> Nowhere /\
              remaining (count_tick (Tick w2)) rem p2 = remaining w rem p - 1).
    { intros Hpn. destruct (Hrem Hpn) as [Hp2n Hr0]. rewrite <- Hr0.
      assert (E1 : current_work_wheel_index_ (count_tick (Tick w2)) = current_work_wheel_index_ w2) by done.
      assert (E2 : current_assistant_wheel_index_ (count_tick (Tick w2)) = current_assistant_wheel_index_ w2) by done.
      destruct Hwf2 as [_ _ G3 G4].
      destruct p2 as [i|a|]; [| |done]; unfold remaining0, remaining; rewrite ?E1, ?E2;
        destruct Hp2 as [Hi _].
      - assert (i <> current_work_wheel_index_ w2) by congruence. split; [div_lia|]. split; [done|]. div_lia.
      - split; [subst rem; div_lia|]. split; [done|]. lia. }
    split; [|split].
    + intros [->|H1]; [|destruct (decide (p = Nowhere)) as [->|Hpn]; [|by destruct (Hge Hpn)]];
        rewrite (Hn0 eq_refl) in Q1; by apply Hpl.
    + intros Hpn _. destruct (Hge Hpn) as (_ & Hp2n & Hx). exists p2. split; [done|]. split; [by apply Hpl|done].
    + cbn [fired count_tick]. rewrite Q2, Hf2, decide_False; [lia|]. intros [Hpn H1]. by destruct (Hge Hpn).
Qed.

(** ** Adding a task *)

Lemma AddTask_placed w t task :
  wheel_wf w -> placed w t Nowhere -> 0 <= remainder_interval_ms task < 512 ->
  1 <= ticks_of (next_fire_duration_ms task) <= 32768 ->
  let w' := AddTask t task w in
  wheel_wf w' /\ running_ w' = true /\ fired w' = fired w /\
  exists p task', p <> Nowhere /\ placed w' t p /\ tasks w' !! t = Some task' /\
    0 <= remainder_interval_ms task' < 512 /\
    remaining w' (remainder_interval_ms task') p = ticks_of (next_fire_duration_ms task).
Proof.
  intros [H1 H2 H3 H4] [Ho Ha] Hrem Hn w'. subst w'. unfold AddTask, AddTask_at.
  set (n := ticks_of _) in *. rewrite wrap_u64_small by (unfold two64; lia).
  set (w0 := if negb (running_ w) then Start w else w).
  assert (E : work_wheel_ w0 = work_wheel_ w /\ assistant_wheel_ w0 = assistant_wheel_ w /\
    current_work_wheel_index_ w0 = current_work_wheel_index_ w /\ running_ w0 = true /\ fired w0 = fired w /\
    current_assistant_wheel_index_ w0 = current_assistant_wheel_index_ w).
  { subst w0. by destruct (running_ w) eqn:E. }
  destruct E as (E1 & E2 & E3 & E4 & E5 & E6). clearbody w0.
  set (cw := current_work_wheel_index_ w) in *. set (ca := current_assistant_wheel_index_ w) in *.
  unfold GetWorkWheelIndex, GetAssistantWheelIndex, WORK_WHEEL_SIZE. rewrite land_511, land_63.
  destruct (Z.leb_spec 512 (cw + n)).
  2:{ cbn [set_wheels running_ fired]. split; [|split; [done|split; [done|]]].
      { constructor; cbn; rewrite ?length_push, ?E1, ?E2, ?E3, ?E6; done. }
      exists (InWork (cw + n)), task. split; [done|]. split; [|split; [apply lookup_insert_eq|split; [done|]]].
      - split; [lia|]. cbn [set_wheels work_wheel_ assistant_wheel_]. rewrite E1, E2. split; [|done].
        apply occurs_push_self; [lia|done].
      - unfold remaining. cbn. rewrite E3. fold cw. div_lia. }
  assert (Hreal : 0 <= (cw + n) mod 512 < 512) by (apply Z.mod_pos_bound; lia).
  destruct (((cw + n) / 512 =? 1) && _) eqn:Ec; to_prop; cbn [set_wheels running_ fired].
  - split; [|split; [done|split; [done|]]].
    { constructor; cbn; rewrite ?length_push, ?E1, ?E2, ?E3, ?E6; done. }
    eexists (InWork ((cw + n) mod 512)), _. split; [done|].
    split; [|split; [apply lookup_insert_eq|split; [done|]]].
    + split; [lia|]. cbn [set_wheels work_wheel_ assistant_wheel_]. rewrite E1, E2. split; [|done].
      apply occurs_push_self; [lia|done].
    + unfold remaining. cbn. rewrite E3 in *. fold cw. div_lia.
  - apply andb_false_iff in Ec. rewrite Z.eqb_neq, Z.ltb_ge in Ec.
    rewrite wrap_u64_small by (unfold two64; div_lia).
    split; [|split; [done|split; [done|]]].
    { constructor; cbn; rewrite ?length_push, ?E1, ?E2, ?E3, ?E6; done. }
    eexists (InAssistant ((current_assistant_wheel_index_ w0 + (cw + n) / 512) mod 64)), _. split; [done|].
    split; [|split; [apply lookup_insert_eq|split; [done|]]].
    + split; [apply Z.mod_pos_bound; lia|]. cbn [set_wheels work_wheel_ assistant_wheel_]. rewrite E1, E2.
      split; [done|]. apply occurs_push_self; [|done]. rewrite H2. apply Z.mod_pos_bound. lia.
    + unfold remaining. cbn. rewrite E6, E3 in *. fold cw ca. div_lia.
Qed.

(** ** Sequences of operations *)

(** What other threads and the tick thread do between two sleeps. *)
Inductive wop := OTurn | OAdd (id : nat) (task : TimerTask) | ODrop (id : nat).

#[export] Instance TimerTask_eq_dec : EqDecision TimerTask.
Proof. solve_decision. Defined.
#[export] Instance wop_eq_dec : EqDecision wop.
Proof. solve_decision. Defined.

Definition w_step (w : TimingWheel) (o : wop) : TimingWheel :=
  match o with
  | OTurn => turn w
  | OAdd id task => AddTask id task w
  | ODrop id => DropTask id w
  end.

Definition w_run (os : list wop) (w : TimingWheel) : TimingWheel := foldl w_step w os.

Definition not_about (t : nat) (o : wop) : Prop :=
  match o with OTurn => True | OAdd id _ | ODrop id => id <> t end.

Fixpoint turns (os : list wop) : nat :=
  match os with
  | [] => 0
  | OTurn :: os' => S (turns os')
  | _ :: os' => turns os'
  end.

(** An operation on another task. *)
Lemma other_op w t o :
  wheel_wf w -> not_about t o -> o <> OTurn ->
  let w' := w_step w o in
  wheel_wf w' /\ (running_ w = true -> running_ w' = true) /\ tasks w' !! t = tasks w !! t /\ fired w' = fired w /\
  current_work_wheel_index_ w' = current_work_wheel_index_ w /\
  current_assistant_wheel_index_ w' = current_assistant_wheel_index_ w /\
  forall p, placed w t p -> placed w' t p.
Proof.
  intros [H1 H2 H3 H4] Hne Hnt w'. subst w'. destruct o as [|id task|id]; [done| |]; cbn [w_step not_about] in *.
  - unfold AddTask, AddTask_at. set (w0 := if negb (running_ w) then Start w else w).
    assert (E : work_wheel_ w0 = work_wheel_ w /\ assistant_wheel_ w0 = assistant_wheel_ w /\
      current_work_wheel_index_ w0 = current_work_wheel_index_ w /\ running_ w0 = true /\ fired w0 = fired w /\
      current_assistant_wheel_index_ w0 = current_assistant_wheel_index_ w /\ tasks w0 = tasks w).
    { subst w0. by destruct (running_ w) eqn:E. }
    destruct E as (E1 & E2 & E3 & E4 & E5 & E6 & E7). clearbody w0.
    destruct (WORK_WHEEL_SIZE <=? _); [destruct (_ && _)|]; cbn [set_wheels tasks fired running_
      current_work_wheel_index_ current_assistant_wheel_index_];
      rewrite ?E7, ?E1, ?E2; (split; [constructor; cbn; rewrite ?length_push, ?E3, ?E6; done|]);
      rewrite lookup_insert_ne by done; (do 5 (split; [done|])); intros p Hp;
      (destruct p; cbn [placed set_wheels work_wheel_ assistant_wheel_] in *; destruct_and?; split_and?; auto using occurs_push_other).
  - split; [by constructor|]. cbn [DropTask set_wheels tasks]. rewrite lookup_delete_ne by done.
    do 5 (split; [done|]). intros p Hp. by destruct p.
Qed.

(** A task in no bucket stays there. *)
Lemma turn_nowhere w t :
  wheel_wf w -> placed w t Nowhere ->
  wheel_wf (turn w) /\ placed (turn w) t Nowhere /\ cnt t (fired (turn w)) = cnt t (fired w).
Proof.
  intros Hwf Hp.
  assert (H : wheel_wf (before_tick w) /\ placed (before_tick w) t Nowhere /\ fired (before_tick w) = fired w).
  { pose proof Hwf as [H1 H2 H3 H4]. unfold before_tick. pose proof (advance_index w Hwf) as Hcw.
    set (w1 := advance_work w) in *.
    assert (Hwf1 : wheel_wf w1) by (constructor; try done; rewrite Hcw; apply Z.mod_pos_bound; lia).
    destruct (_ =? 0); [|done]. pose proof (advance_assistant_index w1 Hwf1) as Hca.
    set (w' := advance_assistant w1) in *. destruct Hp as [Ho Ha].
    assert (Hca' : 0 <= current_assistant_wheel_index_ w' < 64) by (rewrite Hca; apply Z.mod_pos_bound; lia).
    split; [|split; [|done]].
    - constructor; cbn [Cascade set_wheels work_wheel_ assistant_wheel_]; try done; [|by rewrite length_insert|apply Hwf1].
      rewrite <- H1. apply (length_cascade (tasks w')).
    - split; [|apply occurs_clear; [lia|done|done]]. apply (cascade_other (tasks w')); [|done].
      change (assistant_wheel_ w') with (assistant_wheel_ w). by rewrite (Ha _ (proj1 Hca')). }
  destruct H as (Hwf2 & Hp2 & Hf2). change (turn w) with (count_tick (Tick (before_tick w))).
  destruct (Tick_stays _ t Nowhere Hwf2 Hp2 ltac:(done)) as [Q1 Q2].
  split; [|split; [exact Q1|exact (eq_trans Q2 (f_equal (cnt t) Hf2))]].
  destruct Hwf2 as [G1 G2 G3 G4]. constructor; cbn; try done. by rewrite length_insert.
Qed.

Lemma run_nowhere os w t :
  wheel_wf w -> placed w t Nowhere -> Forall (not_about t) os ->
  wheel_wf (w_run os w) /\ placed (w_run os w) t Nowhere /\ cnt t (fired (w_run os w)) = cnt t (fired w).
Proof.
  intros Hwf Hp Hos. revert w Hwf Hp. induction Hos as [|o os Ho Hos IH]; intros w Hwf Hp; [done|].
  cbn [w_run foldl]. fold (w_run os (w_step w o)).
  assert (H : wheel_wf (w_step w o) /\ placed (w_step w o) t Nowhere /\
              cnt t (fired (w_step w o)) = cnt t (fired w)).
  { destruct (decide (turns [o] = 0%nat)) as [Hz|Hz].
    - destruct (other_op w t o Hwf Ho) as (H1 & _ & _ & H2 & _ & _ & H3); [by intros ->|].
      rewrite H2. auto.
    - destruct o; [by apply turn_nowhere|done..]. }
  destruct H as (H1 & H2 & H3). destruct (IH _ H1 H2) as (Q1 & Q2 & Q3). by rewrite Q3, H3.
Qed.

Lemma run_placed os w t p task :
  wheel_wf w -> running_ w = true -> tasks w !! t = Some task -> 0 <= remainder_interval_ms task < 512 ->
  placed w t p -> p <> Nowhere -> Forall (not_about t) os ->
  let r := remaining w (remainder_interval_ms task) p in
  cnt t (fired (w_run os w)) =
    (cnt t (fired w) + if decide (r <= Z.of_nat (turns os))%Z then 1 else 0)%nat.
Proof.
  intros Hwf Hrun Ht Hrem Hp Hpn Hos. revert w p Hwf Hrun Ht Hp Hpn.
  assert (Hpos : forall w p, wheel_wf w -> placed w t p -> p <> Nowhere ->
            1 <= remaining w (remainder_interval_ms task) p).
  { intros w [i|a|] [_ _ G3 G4] Hp Hn; [| |done]; destruct Hp as [Hi _]; unfold remaining; div_lia. }
  induction Hos as [|o os Ho Hos IH]; intros w p Hwf Hrun Ht Hp Hpn r; subst r.
  { cbn [w_run foldl turns]. pose proof (Hpos w p Hwf Hp Hpn). rewrite decide_False by lia. lia. }
  cbn [w_run foldl]. fold (w_run os (w_step w o)). destruct (decide (o = OTurn)) as [->|Hno].
  - cbn [w_step turns].
    destruct (turn_spec w t p task Hwf Hrun Ht Hrem Hp) as (T1 & T2 & T3 & T4 & T5 & T6).
    rewrite <- T3 in Ht. pose proof (Hpos w p Hwf Hp Hpn).
    destruct (decide (remaining w (remainder_interval_ms task) p = 1)) as [H1|H1].
    + destruct (run_nowhere os (turn w) t T1 (T4 (or_intror H1)) Hos) as (_ & _ & ->).
      rewrite T6, !decide_True; [done| |]; [lia|done].
    + destruct (T5 Hpn H1) as (p' & Hp'n & Hp' & Hr'). rewrite (IH (turn w) p') by done.
      rewrite T6, Hr'. rewrite (decide_False (P := p <> Nowhere /\ _)) by tauto.
      rewrite Nat.add_0_r. f_equal. repeat case_decide; lia.
  - destruct (other_op w t o Hwf Ho Hno) as (Q1 & Q2 & Q3 & Q4 & Q5 & Q6 & Q7).
    rewrite <- Q3 in Ht. rewrite (IH (w_step w o) p) by auto. rewrite Q4.
    assert (turns (o :: os) = turns os) as -> by (by destruct o).
    assert (remaining (w_step w o) (remainder_interval_ms task) p = remaining w (remainder_interval_ms task) p) as ->;
      [|done].
    unfold remaining. by rewrite Q5, Q6.
Qed.

(** After its tick the task is in no bucket. *)
Lemma run_gone os w t p task :
  wheel_wf w -> running_ w = true -> tasks w !! t = Some task -> 0 <= remainder_interval_ms task < 512 ->
  placed w t p -> p <> Nowhere -> Forall (not_about t) os ->
  remaining w (remainder_interval_ms task) p <= Z.of_nat (turns os) ->
  wheel_wf (w_run os w) /\ placed (w_run os w) t Nowhere /\ tasks (w_run os w) !! t = Some task.
Proof.
  intros Hwf Hrun Ht Hrem Hp Hpn Hos. revert w p Hwf Hrun Ht Hp Hpn.
  assert (Hkeep : forall os w, Forall (not_about t) os -> wheel_wf w -> running_ w = true -> placed w t Nowhere ->
            tasks w !! t = Some task ->
            wheel_wf (w_run os w) /\ placed (w_run os w) t Nowhere /\ tasks (w_run os w) !! t = Some task).
  { clear os Hos. intros os w Hos Hwf Hr Hp Ht. destruct (run_nowhere os w t Hwf Hp Hos) as (K1 & K2 & _).
    split; [done|]. split; [done|]. clear K1 K2. revert w Hwf Hr Hp Ht.
    induction Hos as [|o os Ho Hos IH]; intros w Hwf Hr Hp Ht; [done|].
    cbn [w_run foldl]. fold (w_run os (w_step w o)). destruct (decide (o = OTurn)) as [->|Hno].
    - destruct (turn_spec w t Nowhere task Hwf Hr Ht Hrem Hp) as (T1 & T2 & T3 & T4 & _).
      apply IH; [done|done|by apply T4; left|cbn [w_step]; by rewrite T3].
    - destruct (other_op w t o Hwf Ho Hno) as (Q1 & Q2 & Q3 & _ & _ & _ & Q7).
      apply IH; [done|auto|auto|by rewrite Q3]. }
  induction Hos as [|o os Ho Hos IH]; intros w p Hwf Hrun Ht Hp Hpn Hr.
  { exfalso. cbn in Hr. destruct Hwf as [_ _ G3 G4]. destruct p as [i|a|]; [| |done]; destruct Hp as [Hi _];
      unfold remaining in Hr; revert Hr; div_lia. }
  cbn [w_run foldl]. fold (w_run os (w_step w o)). destruct (decide (o = OTurn)) as [->|Hno].
  - cbn [w_step turns] in *.
    destruct (turn_spec w t p task Hwf Hrun Ht Hrem Hp) as (T1 & T2 & T3 & T4 & T5 & _).
    rewrite <- T3 in Ht. destruct (decide (remaining w (remainder_interval_ms task) p = 1)) as [H1|H1].
    + apply Hkeep; auto.
    + destruct (T5 Hpn H1) as (p' & Hp'n & Hp' & Hr'). apply (IH (turn w) p'); try done. lia.
  - destruct (other_op w t o Hwf Ho Hno) as (Q1 & Q2 & Q3 & Q4 & Q5 & Q6 & Q7).
    rewrite <- Q3 in Ht. apply (IH (w_step w o) p); auto.
    replace (turns os) with (turns (o :: os)) by (by destruct o). unfold remaining in *. by rewrite Q5, Q6.
Qed.

Lemma wf_new : wheel_wf tw_new.
Proof. by constructor. Qed.

Lemma nowhere_new t : placed tw_new t Nowhere.
Proof.
  assert (H : forall n, occurs (replicate n []) t None).
  { intros n j Hj. unfold bucket_at. rewrite decide_False by done.
    destruct (decide (Z.to_nat j < n)%nat); [by rewrite lookup_replicate_2|].
    rewrite lookup_ge_None_2; [done|]. rewrite length_replicate. lia. }
  split; apply H.
Qed.

Lemma fires_at (t : nat) (task : TimerTask) (os0 os1 : list wop)
    (H0 : Forall (not_about t) os0) (H1 : Forall (not_about t) os1)
    (Hd : 0 < next_fire_duration_ms task < TIMER_MAX_INTERVAL_MS)
    (Hrem : 0 <= remainder_interval_ms task < 512) :
  let w := w_run os1 (AddTask t task (w_run os0 tw_new)) in
  cnt t (fired w) = if ticks_of (next_fire_duration_ms task) <=? Z.of_nat (turns os1) then 1%nat else 0%nat.
Proof.
  intros w. subst w.
  destruct (run_nowhere os0 tw_new t wf_new (nowhere_new t) H0) as (Hwf & Hp & Hc).
  assert (Hn : 1 <= ticks_of (next_fire_duration_ms task) <= 32768).
  { change TIMER_MAX_INTERVAL_MS with 65536 in Hd. unfold ticks_of, TIMER_RESOLUTION_MS. div_lia. }
  destruct (AddTask_placed _ t task Hwf Hp Hrem Hn) as (Q1 & Q2 & Q3 & p & task' & Q4 & Q5 & Q6 & Q7 & Q8).
  rewrite (run_placed os1 _ t p task' Q1 Q2 Q6 Q7 Q5 Q4 H1). rewrite Q8, Q3, Hc.
  change (cnt t (fired tw_new)) with 0%nat.
  destruct (Z.leb_spec (ticks_of (next_fire_duration_ms task)) (Z.of_nat (turns os1)));
    case_decide; lia.
Qed.

(** C24: a task added to the wheel with a delay of d milliseconds, 0 < d < 65536, fires exactly
    once, at the tick number ceil(d/2) after it was added: not before and not again; whatever
    other tasks were, are and will be in the wheel, wherever the two hands stand, as long as
    it is added between two turns and is neither added again nor dropped. *)
Theorem timer_fires_exactly (t : nat) (task : TimerTask) (os0 os1 : list wop)
    (H0 : Forall (not_about t) os0) (H1 : Forall (not_about t) os1)
    (Hd : 0 < next_fire_duration_ms task < TIMER_MAX_INTERVAL_MS)
    (Hrem : 0 <= remainder_interval_ms task < 512) :
  let w := w_run os1 (AddTask t task (w_run os0 tw_new)) in
  cnt t (fired w) = if ticks_of (next_fire_duration_ms task) <=? Z.of_nat (turns os1) then 1%nat else 0%nat.
Proof. by apply fires_at. Qed.

Lemma timer_fires_exactly_witness :
  let w0 := w_run (OAdd 1 (mkTask 0 4) :: replicate 300 OTurn) tw_new in
  cnt 7 (fired (w_run (replicate 4 OTurn) (AddTask 7 (mkTask 0 9) w0))) = 0%nat /\
  cnt 7 (fired (w_run (replicate 5 OTurn) (AddTask 7 (mkTask 0 9) w0))) = 1%nat.
Proof.
  split.
  - refine (timer_fires_exactly 7 (mkTask 0 9) (OAdd 1 (mkTask 0 4) :: replicate 300 OTurn) (replicate 4 OTurn) _ _ _ _);
      [constructor; [done|by apply Forall_replicate]|by apply Forall_replicate|done|done].
  - refine (timer_fires_exactly 7 (mkTask 0 9) (OAdd 1 (mkTask 0 4) :: replicate 300 OTurn) (replicate 5 OTurn) _ _ _ _);
      [constructor; [done|by apply Forall_replicate]|by apply Forall_replicate|done|done].
Defined.

(** ** A task added while the wheel turns over *)

(** The tick thread has set the work index back to 0 but not yet advanced the assistant
    wheel when another thread adds a task of 1026 milliseconds, 513 ticks. *)
Definition turned_over : TimingWheel := advance_work (w_run (replicate 511 OTurn) tw_new).

Definition finish_turn (w : TimingWheel) : TimingWheel :=
  let w' := advance_assistant w in
  count_tick (Tick (Cascade (current_assistant_wheel_index_ w') w')).

(** A task that is added between the two updates of the indices fires a whole turn of the
    work wheel too early: a delay of 1026 milliseconds ends at the second tick. *)
Theorem turnover_race :
  let w := AddTask 7 (mkTask 0 1026) turned_over in
  ticks_of 1026 = 513 /\ cnt 7 (fired (turn (finish_turn w))) = 1%nat.
Proof. split; vm_compute; reflexivity. Qed.
