(* ===== verification/Timer.v ===== *)
(** * Timer: periodic and one-shot timers

    Models [cyber/timer/timer.{h,cc}] on the timing wheel: [InitTimerTask], [Start],
    [Stop] and the callback of a periodic timer, which computes the delay until its next
    run from the time the user's callback took and the error accumulated so far.  The
    identifier of the task object that [Start] creates is an argument.  [llround] of a
    number of nanoseconds divided by 1e6 in doubles is the exact rounding, half away from
    zero, for numbers below 2^52. *)

From S2P Require Import Prelude TimingWheel.

Record TimerOption := mkOpt { period : Z; oneshot : bool }.

Record Timer := mkTimer {
  timer_opt_ : TimerOption;
  task_ : option nat;
  started_ : bool;
}.

Definition timer_new (opt : TimerOption) : Timer := mkTimer opt None false.
Definition SetTimerOption (opt : TimerOption) (t : Timer) : Timer := mkTimer opt (task_ t) (started_ t).

(** The checks of [InitTimerTask], and the task it makes. *)
Definition InitTimerTask (t : Timer) : option TimerTask :=
  if period (timer_opt_ t) =? 0 then None
  else if TIMER_MAX_INTERVAL_MS <=? period (timer_opt_ t) then None
  else Some (mkTask 0 (period (timer_opt_ t))).

Definition Start (reality_mode : bool) (id : nat) (t : Timer) (w : TimingWheel) : Timer * TimingWheel :=
  if negb reality_mode then (t, w)
  else if started_ t then (t, w)
  else
    match InitTimerTask t with
    | Some task => (mkTimer (timer_opt_ t) (Some id) true, AddTask id task w)
    | None => (mkTimer (timer_opt_ t) (task_ t) true, w)
    end.

Definition Stop (t : Timer) (w : TimingWheel) : Timer * TimingWheel :=
  match started_ t, task_ t with
  | true, Some id => (mkTimer (timer_opt_ t) None false, DropTask id w)
  | _, _ => (mkTimer (timer_opt_ t) (task_ t) false, w)
  end.

(** ** The callback of a periodic timer *)

Record PeriodicTask := mkPeriodic {
  interval_ms : Z;
  next_fire_ms : Z;
  accumulated_error_ns : Z;
  last_execute_time_ns : Z;
}.

Definition periodic_new (interval : Z) : PeriodicTask := mkPeriodic interval interval 0 0.

Definition llround_ms (ns : Z) : Z := Z.sgn ns * ((2 * Z.abs ns + 1000000) / 2000000).

(** The new values of the task's fields, with the times before and after the user's function. *)
Definition on_fire (start_ end_ : Z) (task : PeriodicTask) : PeriodicTask :=
  let execute_time_ns := wrap_u64 (end_ - start_) in
  let execute_time_ms := wrap_u64 (llround_ms execute_time_ns) in
  let error :=
    if last_execute_time_ns task =? 0 then accumulated_error_ns task
    else wrap_i64 (accumulated_error_ns task + (start_ - last_execute_time_ns task - interval_ms task * 1000000)) in
  let next :=
    if interval_ms task <=? execute_time_ms then TIMER_RESOLUTION_MS
    else
      let accumulated_error_ms := llround_ms error in
      if accumulated_error_ms <=? wrap_i64 (interval_ms task - execute_time_ms - TIMER_RESOLUTION_MS) then
        wrap_u64 (interval_ms task - execute_time_ms - accumulated_error_ms)
      else TIMER_RESOLUTION_MS in
  mkPeriodic (interval_ms task) next error start_.

(** The whole callback of the task [id]: nothing once its owner has dropped it; else the task is
    added to the wheel again with its new delay. *)
Definition PeriodicCallback (id : nat) (start_ end_ : Z) (task : PeriodicTask) (w : TimingWheel)
    : PeriodicTask * TimingWheel :=
  match tasks w !! id with
  | None => (task, w)
  | Some shared =>
      let task' := on_fire start_ end_ task in
      (task', AddTask id (mkTask (remainder_interval_ms shared) (next_fire_ms task')) w)
  end.

Definition on_fires (runs : list (Z * Z)) (task : PeriodicTask) : PeriodicTask :=
  foldl (fun task r => on_fire (fst r) (snd r) task) task runs.

(** ** No drift *)

Definition max_ns : Z := 2 ^ 51.

Lemma llround_ms_close ns : Z.abs (llround_ms ns * 1000000 - ns) <= 500000.
Proof.
  unfold llround_ms. destruct (Z.sgn_spec ns) as [[H ->]|[[H ->]|[H ->]]]; div_lia.
Qed.

Lemma llround_ms_bound ns : Z.abs ns < 4 * max_ns -> Z.abs (llround_ms ns) < 4 * max_ns.
Proof. intros H. pose proof (llround_ms_close ns). unfold max_ns in *. lia. Qed.

Lemma llround_ms_nonneg ns : 0 <= ns -> 0 <= llround_ms ns.
Proof.
  intros H. unfold llround_ms. destruct (Z.sgn_spec ns) as [[H1 ->]|[[H1 ->]|[H1 ->]]]; div_lia.
Qed.

(** The runs begin and end at sensible times. *)
Definition runs_ok (runs : list (Z * Z)) : Prop :=
  Forall (fun r => 0 < fst r <= snd r /\ snd r < max_ns) runs.

Lemma on_fires_snoc runs r task :
  on_fires (runs ++ [r]) task = on_fire (fst r) (snd r) (on_fires runs task).
Proof. unfold on_fires. by rewrite foldl_app. Qed.

(** After the runs, the error is the last start against the ideal one. *)
Lemma on_fires_error first runs interval :
  0 < interval < 65536 -> runs_ok (first :: runs) ->
  Z.of_nat (length runs) * interval * 1000000 < max_ns ->
  let task := on_fires (first :: runs) (periodic_new interval) in
  let last_run := default first (last runs) in
  interval_ms task = interval /\
  last_execute_time_ns task = fst last_run /\
  accumulated_error_ns task = fst last_run - fst first - Z.of_nat (length runs) * interval * 1000000.
Proof.
  intros Hi Hok. induction runs as [|r runs IH] using rev_ind; intros Hlen task last_run.
  { subst task last_run. cbn. split; [done|]. split; [done|]. lia. }
  rewrite length_app in Hlen. cbn [length] in Hlen.
  assert (Hok' : runs_ok (first :: runs) /\ 0 < fst r <= snd r /\ snd r < max_ns).
  { unfold runs_ok in *. rewrite app_comm_cons in Hok. apply Forall_app in Hok as [? Hr].
    split; [done|]. by apply Forall_cons in Hr as [Hr _]. }
  destruct Hok' as [Hok1 Hr]. destruct (IH Hok1 ltac:(lia)) as (I1 & I2 & I3).
  subst task last_run. rewrite app_comm_cons, on_fires_snoc.
  set (task := on_fires (first :: runs) _) in *. rewrite last_snoc. cbn [default].
  unfold on_fire. cbn [interval_ms last_execute_time_ns accumulated_error_ns]. split; [done|]. split; [done|].
  assert (Hlast : 0 < fst (default first (last runs)) < max_ns).
  { unfold runs_ok in Hok1. rewrite Forall_forall in Hok1.
    destruct (last runs) as [x|] eqn:E; cbn.
    - apply last_Some_elem_of in E. destruct (Hok1 x) as [? ?]; [set_solver|]. lia.
    - destruct (Hok1 first) as [? ?]; [set_solver|]. lia. }
  rewrite I1, I2, I3. destruct (Z.eqb_spec (fst (default first (last runs))) 0); [lia|].
  assert (Hfirst : 0 < fst first < max_ns).
  { unfold runs_ok in Hok1. apply Forall_cons in Hok1 as [? _]. lia. }
  rewrite wrap_i64_small by (unfold max_ns in *; lia). rewrite length_app, Nat2Z.inj_add.
  cbn [length Z.of_nat]. ring_simplify. reflexivity.
Qed.

(** The delay computed by one run. *)
Lemma on_fire_next start_ end_ task :
  0 < interval_ms task < 65536 -> 0 < start_ <= end_ -> end_ < max_ns ->
  let task' := on_fire start_ end_ task in
  Z.abs (accumulated_error_ns task') < 2 * max_ns ->
  TIMER_RESOLUTION_MS <= next_fire_ms task' /\
  (next_fire_ms task' = TIMER_RESOLUTION_MS \/
   Z.abs (end_ + next_fire_ms task' * 1000000 -
          (start_ + interval_ms task * 1000000 - accumulated_error_ns task')) <= 1000000).
Proof.
  intros Hi Hs He. unfold on_fire. cbv zeta. cbn [next_fire_ms accumulated_error_ns].
  set (e := if last_execute_time_ns task =? 0 then _ else _). intros Hab. clearbody e.
  rewrite (wrap_u64_small (end_ - start_)) by (unfold max_ns, two64 in *; lia).
  pose proof (llround_ms_close (end_ - start_)) as Hx. pose proof (llround_ms_nonneg (end_ - start_) ltac:(lia)) as Hx0.
  pose proof (llround_ms_close e) as Hy.
  set (x := llround_ms (end_ - start_)) in *. set (y := llround_ms e) in *. clearbody x y.
  unfold max_ns, TIMER_RESOLUTION_MS in *.
  rewrite (wrap_u64_small x) by (unfold two64; lia).
  destruct (Z.leb_spec (interval_ms task) x); [split; [lia|by left]|].
  rewrite wrap_i64_small by lia. destruct (Z.leb_spec y (interval_ms task - x - 2)); [|split; [lia|by left]].
  rewrite wrap_u64_small by (unfold two64; lia). split; [lia|]. right. lia.
Qed.

Lemma runs_ok_last first runs :
  runs_ok (first :: runs) ->
  let r := default first (last runs) in 0 < fst r <= snd r /\ snd r < max_ns.
Proof.
  unfold runs_ok. rewrite Forall_forall. intros Hok. cbv zeta. apply Hok.
  destruct (last runs) as [x|] eqn:E; cbn; [|set_solver]. apply last_Some_elem_of in E. set_solver.
Qed.

(** The last run is one application of the callback. *)
Lemma on_fires_last first runs interval :
  exists task, on_fires (first :: runs) (periodic_new interval) =
    on_fire (fst (default first (last runs))) (snd (default first (last runs))) task /\
    interval_ms task = interval.
Proof.
  unfold on_fires.
  assert (Hint : forall rs t, interval_ms (foldl (fun task r => on_fire (fst r) (snd r) task) t rs) = interval_ms t).
  { induction rs as [|x rs IH]; intros t; [done|]. cbn. by rewrite IH. }
  destruct runs as [|r runs _] using rev_ind.
  - by exists (periodic_new interval).
  - exists (foldl (fun task r => on_fire (fst r) (snd r) task) (periodic_new interval) (first :: runs)).
    rewrite app_comm_cons, foldl_app, last_snoc. split; [done|]. by rewrite Hint.
Qed.

(** A periodic timer does not drift: after any number of runs the next one is due within
    one millisecond of the ideal time (the first start plus a whole number of periods),
    unless the callback ran late or long, and then it is due as soon as the wheel can do;
    the delay is never below the resolution of the wheel. *)
Theorem timer_no_drift first runs interval
    (Hi : 0 < interval < 65536) (Hok : runs_ok (first :: runs))
    (Hlen : Z.of_nat (length runs) * interval * 1000000 < max_ns) :
  let task := on_fires (first :: runs) (periodic_new interval) in
  let end_ := snd (default first (last runs)) in
  let ideal := fst first + (Z.of_nat (length runs) + 1) * interval * 1000000 in
  TIMER_RESOLUTION_MS <= next_fire_ms task /\
  (next_fire_ms task = TIMER_RESOLUTION_MS \/
   Z.abs (end_ + next_fire_ms task * 1000000 - ideal) <= 1000000).
Proof.
  intros task end_ ideal.
  destruct (on_fires_error first runs interval Hi Hok Hlen) as (_ & _ & He). fold task in He.
  destruct (on_fires_last first runs interval) as (t0 & Ht & Hint). fold task in Ht.
  destruct (runs_ok_last first runs Hok) as [Hr1 Hr2].
  assert (Hf : 0 < fst first < max_ns) by (apply Forall_cons in Hok as [? _]; lia).
  assert (He' : Z.abs (accumulated_error_ns task) < 2 * max_ns) by (rewrite He; lia).
  rewrite Ht in He' |- *.
  destruct (on_fire_next _ _ t0 ltac:(lia) Hr1 Hr2 He') as [H1 H2]. split; [done|].
  destruct H2 as [H2|H2]; [by left|right]. rewrite <- Ht in H2 |- *. rewrite He, Hint in H2.
  subst end_ ideal. revert H2. clear. intros H2. lia.
Qed.

Lemma timer_no_drift_witness :
  let task := on_fires [(1000, 3001000); (101500000, 102000000); (199900000, 205900000)] (periodic_new 100) in
  next_fire_ms task = 94 /\ TIMER_RESOLUTION_MS <= next_fire_ms task.
Proof.
  split; [vm_compute; reflexivity|].
  refine (proj1 (timer_no_drift (1000, 3001000) [(101500000, 102000000); (199900000, 205900000)] 100 _ _ _));
    [done| |done].
  unfold runs_ok, max_ns. repeat (apply Forall_cons; split; [cbn [fst snd]; lia|]). constructor.
Defined.

(** ** Starting and stopping *)

(** A task that its owner dropped does not fire. *)
Lemma turn_dead w t : tasks w !! t = None -> tasks (turn w) !! t = None /\ cnt t (fired (turn w)) = cnt t (fired w).
Proof.
  intros Ht. change (turn w) with (count_tick (Tick (before_tick w))).
  assert (H : tasks (before_tick w) = tasks w /\ fired (before_tick w) = fired w).
  { unfold before_tick. by destruct (_ =? 0). }
  destruct H as [H1 H2]. cbn [count_tick tasks fired]. unfold Tick. cbn [tasks fired]. rewrite H1, H2.
  split; [done|]. destruct (running_ (before_tick w)); [|done]. rewrite cnt_app.
  assert (Hz : forall b, cnt t (List.filter (alive (before_tick w)) b) = 0%nat); [|rewrite Hz; lia].
  intros b. unfold cnt. induction b as [|x b IH]; [done|]. cbn [List.filter].
  destruct (alive (before_tick w) x) eqn:Ex; [|done]. rewrite filter_cons, decide_False; [done|].
  intros ->. unfold alive in Ex. rewrite H1, Ht in Ex. done.
Qed.

Lemma run_dead os w t :
  tasks w !! t = None -> Forall (not_about t) os -> cnt t (fired (w_run os w)) = cnt t (fired w).
Proof.
  intros Ht Hos. revert w Ht. induction Hos as [|o os Ho Hos IH]; intros w Ht; [done|].
  cbn [w_run foldl]. fold (w_run os (w_step w o)). destruct o as [|id task|id]; cbn [w_step not_about] in *.
  - destruct (turn_dead w t Ht) as [H1 H2]. by rewrite IH, H2.
  - assert (H : tasks (AddTask id task w) !! t = None /\ fired (AddTask id task w) = fired w).
    { unfold AddTask, AddTask_at. destruct (negb (running_ w)); (destruct (_ <=? _); [destruct (_ && _)|]);
        cbn; by rewrite lookup_insert_ne. }
    destruct H as [H1 H2]. by rewrite IH, H2.
  - rewrite IH; [done|]. cbn. by rewrite lookup_delete_ne.
Qed.

(** [Start] of a fresh timer of a valid period adds the task. *)
Lemma Start_adds t id w :
  started_ t = false -> 0 < period (timer_opt_ t) < TIMER_MAX_INTERVAL_MS ->
  Start true id t w =
    (mkTimer (timer_opt_ t) (Some id) true, AddTask id (mkTask 0 (period (timer_opt_ t))) w).
Proof.
  intros Hs Hp. unfold Start, InitTimerTask. rewrite Hs. cbn [negb].
  destruct (Z.eqb_spec (period (timer_opt_ t)) 0); [lia|].
  destruct (Z.leb_spec TIMER_MAX_INTERVAL_MS (period (timer_opt_ t))); [lia|done].
Qed.

Lemma ticks_bounds d : 0 < d < TIMER_MAX_INTERVAL_MS -> 1 <= ticks_of d <= 32768.
Proof.
  change TIMER_MAX_INTERVAL_MS with 65536. unfold ticks_of, TIMER_RESOLUTION_MS. intros. div_lia.
Qed.

(** A one-shot timer of a valid period fires exactly once, ceil(period/2) ticks after [Start],
    whatever other timers do; and if it is stopped before that tick it never fires. *)
Theorem timer_start_stop (t : Timer) (id : nat) (os0 os1 os2 : list wop)
    (Hfresh : started_ t = false) (Hone : oneshot (timer_opt_ t) = true)
    (Hp : 0 < period (timer_opt_ t) < TIMER_MAX_INTERVAL_MS)
    (H0 : Forall (not_about id) os0) (H1 : Forall (not_about id) os1) (H2 : Forall (not_about id) os2) :
  let '(t1, w1) := Start true id t (w_run os0 tw_new) in
  let w2 := w_run os1 w1 in
  let '(t2, w3) := Stop t1 w2 in
  let due := ticks_of (period (timer_opt_ t)) <=? Z.of_nat (turns os1) in
  cnt id (fired w2) = (if due then 1%nat else 0%nat) /\
  cnt id (fired (w_run os2 w3)) = (if due then 1%nat else 0%nat) /\ started_ t2 = false.
Proof.
  rewrite Start_adds by done. cbn [Stop started_ task_].
  pose proof (fires_at id (mkTask 0 (period (timer_opt_ t))) os0 os1 H0 H1 Hp ltac:(cbn; lia)) as Hf.
  split; [exact Hf|]. split; [|done].
  rewrite run_dead; [exact Hf|apply lookup_delete_eq|done].
Qed.

Lemma timer_start_stop_witness :
  let '(t1, w1) := Start true 3 (timer_new (mkOpt 10 true)) (w_run [] tw_new) in
  cnt 3 (fired (w_run (replicate 5 OTurn) w1)) = 1%nat.
Proof.
  exact (proj1 (timer_start_stop (timer_new (mkOpt 10 true)) 3 [] (replicate 5 OTurn) [] eq_refl eq_refl ltac:(done)
    ltac:(constructor) ltac:(by apply Forall_replicate) ltac:(constructor))).
Defined.

(** The delay of a periodic task stays one that the wheel can hold when its error is not a
    large advance. *)
Lemma on_fire_first start_ end_ interval :
  0 < interval < TIMER_MAX_INTERVAL_MS -> 0 < start_ <= end_ -> end_ < max_ns ->
  0 < next_fire_ms (on_fire start_ end_ (periodic_new interval)) < TIMER_MAX_INTERVAL_MS.
Proof.
  change TIMER_MAX_INTERVAL_MS with 65536. intros Hi Hs He. unfold on_fire, periodic_new. cbv zeta.
  cbn [next_fire_ms interval_ms accumulated_error_ns last_execute_time_ns].
  change (0 =? 0) with true. cbv iota. change (llround_ms 0) with 0.
  pose proof (llround_ms_nonneg (wrap_u64 (end_ - start_)) (proj1 (wrap_u64_range _))) as Hx.
  pose proof (proj1 (wrap_u64_range (llround_ms (wrap_u64 (end_ - start_))))) as Hy.
  set (x := wrap_u64 (llround_ms _)) in *. clearbody x. unfold TIMER_RESOLUTION_MS.
  destruct (Z.leb_spec interval x); [lia|]. rewrite wrap_i64_small by lia.
  destruct (Z.leb_spec 0 (interval - x - 2)); [|lia]. rewrite wrap_u64_small by (unfold two64; lia). lia.
Qed.

(** A periodic timer fires again: when its tick has passed and its callback has run, it fires
    once more, exactly as many ticks later as the callback computed; but if the timer was
    stopped while the callback was on its way, the callback does nothing. *)
Theorem periodic_timer_refires (t : Timer) (id : nat) (os0 os1 os2 : list wop) (start_ end_ : Z)
    (Hfresh : started_ t = false)
    (Hp : 0 < period (timer_opt_ t) < TIMER_MAX_INTERVAL_MS)
    (Htime : 0 < start_ <= end_ /\ end_ < max_ns)
    (H0 : Forall (not_about id) os0) (H1 : Forall (not_about id) os1) (H2 : Forall (not_about id) os2)
    (Hdue : ticks_of (period (timer_opt_ t)) <= Z.of_nat (turns os1)) :
  let '(t1, w1) := Start true id t (w_run os0 tw_new) in
  let w2 := w_run os1 w1 in
  let '(task, w3) := PeriodicCallback id start_ end_ (periodic_new (period (timer_opt_ t))) w2 in
  cnt id (fired w2) = 1%nat /\
  cnt id (fired (w_run os2 w3)) =
    (if ticks_of (next_fire_ms task) <=? Z.of_nat (turns os2) then 2%nat else 1%nat) /\
  (let w4 := snd (Stop t1 w2) in
   PeriodicCallback id start_ end_ (periodic_new (period (timer_opt_ t))) w4 =
     (periodic_new (period (timer_opt_ t)), w4)).
Proof.
  rewrite Start_adds by done. set (w1 := AddTask _ _ _).
  destruct (run_nowhere os0 tw_new id wf_new (nowhere_new id) H0) as (Hwf & Hpl & Hc).
  destruct (AddTask_placed _ id (mkTask 0 (period (timer_opt_ t))) Hwf Hpl ltac:(cbn; lia) (ticks_bounds _ Hp))
    as (Q1 & Q2 & Q3 & p & task' & Q4 & Q5 & Q6 & Q7 & Q8). fold w1 in Q1, Q2, Q3, Q5, Q6, Q8.
  assert (Hr : remaining w1 (remainder_interval_ms task') p <= Z.of_nat (turns os1)) by (rewrite Q8; exact Hdue).
  destruct (run_gone os1 w1 id p task' Q1 Q2 Q6 Q7 Q5 Q4 H1 Hr) as (G1 & G2 & G3).
  assert (Hf : cnt id (fired (w_run os1 w1)) = 1%nat).
  { rewrite (run_placed os1 w1 id p task' Q1 Q2 Q6 Q7 Q5 Q4 H1), Q3, Hc, decide_True by done. done. }
  cbv zeta. unfold PeriodicCallback at 1. rewrite G3.
  pose proof (on_fire_first start_ end_ _ Hp (proj1 Htime) (proj2 Htime)) as Hn.
  set (next := next_fire_ms _) in *.
  destruct (AddTask_placed _ id (mkTask (remainder_interval_ms task') next) G1 G2 Q7 (ticks_bounds _ Hn))
    as (R1 & R2 & R3 & p2 & task2 & R4 & R5 & R6 & R7 & R8).
  split; [done|]. split.
  - rewrite (run_placed os2 _ id p2 task2 R1 R2 R6 R7 R5 R4 H2), R3, Hf, R8.
    cbn [next_fire_duration_ms]. destruct (Z.leb_spec (ticks_of next) (Z.of_nat (turns os2))); case_decide; lia.
  - cbn [Stop started_ task_ snd]. unfold PeriodicCallback.
    cbn [DropTask set_wheels tasks]. by rewrite lookup_delete_eq.
Qed.

Lemma periodic_timer_refires_witness :
  let t := timer_new (mkOpt 10 false) in
  next_fire_ms (on_fire 1000 2001000 (periodic_new 10)) = 8 /\
  let '(t1, w1) := Start true 3 t (w_run [] tw_new) in
  let w2 := w_run (replicate 5 OTurn) w1 in
  let '(task, w3) := PeriodicCallback 3 1000 2001000 (periodic_new (period (timer_opt_ t))) w2 in
  cnt 3 (fired w2) = 1%nat /\
  cnt 3 (fired (w_run (replicate 4 OTurn) w3)) =
    (if ticks_of (next_fire_ms task) <=? Z.of_nat (turns (replicate 4 OTurn)) then 2%nat else 1%nat) /\
  (let w4 := snd (Stop t1 w2) in
   PeriodicCallback 3 1000 2001000 (periodic_new (period (timer_opt_ t))) w4 =
     (periodic_new (period (timer_opt_ t)), w4)).
Proof.
  split; [vm_compute; reflexivity|].
  exact (periodic_timer_refires (timer_new (mkOpt 10 false)) 3 [] (replicate 5 OTurn) (replicate 4 OTurn)
    1000 2001000 eq_refl ltac:(done) ltac:(done) ltac:(constructor) ltac:(by apply Forall_replicate)
    ltac:(by apply Forall_replicate) ltac:(done)).
Defined.
