(* ===== verification/RWLock.v ===== *)
(** * RWLock: the reader-writer locks of cyber/base

    Models [cyber/base/atomic_rw_lock.h], [reentrant_rw_lock.h] and [rw_lock_guard.h]: the
    atomic accesses of any number of threads, interleaved.  A thread's program counter
    is where it is in [ReadLock], [WriteLock], [ReadUnlock] or [WriteUnlock], or in the
    section it guards; the counting of retries and [yield] have no effect on the lock. *)

From S2P Require Import Prelude.

Definition RW_LOCK_FREE : Z := 0.
Definition WRITE_EXCLUSIVE : Z := -1.

Module AtomicRWLock.

(** Where a thread is. *)
Inductive pc :=
| Idle
| RCheck (lock_num : Z)   (* in ReadLock, lock_num loaded *)
| RWait (lock_num : Z)    (* lock_num is not negative; write_lock_wait_num_ is read next *)
| RCas (lock_num : Z)     (* about to exchange lock_num for lock_num + 1 *)
| Reading
| WTry                    (* in WriteLock, counted as waiting *)
| WGot                    (* holds the lock, still counted as waiting *)
| Writing.

Record lock := mkLock {
  write_lock_wait_num_ : Z;
  lock_num_ : Z;
  write_first_ : bool;
}.

(** One atomic access of a thread, and what it leads to. *)
Inductive thread_step : lock -> pc -> lock -> pc -> Prop :=
| read_load l : thread_step l Idle l (RCheck (lock_num_ l))
| read_reload l n : n < RW_LOCK_FREE -> thread_step l (RCheck n) l (RCheck (lock_num_ l))
| read_free l n : RW_LOCK_FREE <= n ->
    thread_step l (RCheck n) l (if write_first_ l then RWait n else RCas n)
| read_waiting l n : 0 < write_lock_wait_num_ l -> thread_step l (RWait n) l (RCheck (lock_num_ l))
| read_go l n : write_lock_wait_num_ l <= 0 -> thread_step l (RWait n) l (RCas n)
| read_cas l n : lock_num_ l = n ->
    thread_step l (RCas n) (mkLock (write_lock_wait_num_ l) (wrap_i32 (n + 1)) (write_first_ l)) Reading
| read_cas_fails l n : thread_step l (RCas n) l (RCheck (lock_num_ l))
| read_unlock l :
    thread_step l Reading (mkLock (write_lock_wait_num_ l) (wrap_i32 (lock_num_ l - 1)) (write_first_ l)) Idle
| write_wait l :
    thread_step l Idle (mkLock (wrap_u32 (write_lock_wait_num_ l + 1)) (lock_num_ l) (write_first_ l)) WTry
| write_cas l : lock_num_ l = RW_LOCK_FREE ->
    thread_step l WTry (mkLock (write_lock_wait_num_ l) WRITE_EXCLUSIVE (write_first_ l)) WGot
| write_cas_fails l : thread_step l WTry l WTry
| write_got l :
    thread_step l WGot (mkLock (wrap_u32 (write_lock_wait_num_ l - 1)) (lock_num_ l) (write_first_ l)) Writing
| write_unlock l :
    thread_step l Writing (mkLock (write_lock_wait_num_ l) (wrap_i32 (lock_num_ l + 1)) (write_first_ l)) Idle.

Record config := mkConfig { the_lock : lock; threads : list pc }.

Inductive step : config -> config -> Prop :=
| step_thread l ts i p l' p' :
    ts !! i = Some p -> thread_step l p l' p' ->
    step (mkConfig l ts) (mkConfig l' (<[i := p']> ts)).

Definition start (write_first : bool) (n : nat) : config :=
  mkConfig (mkLock 0 0 write_first) (replicate n Idle).

Definition reading (p : pc) : bool := match p with Reading => true | _ => false end.
Definition holds_write (p : pc) : bool := match p with WGot | Writing => true | _ => false end.
Definition waiting (p : pc) : bool := match p with WTry | WGot => true | _ => false end.

(** A read number that is about to be exchanged is not negative. *)
Definition pc_ok (p : pc) : Prop :=
  match p with RWait n | RCas n => 0 <= n | _ => True end.

Record inv (n : nat) (c : config) : Prop := {
  iv_len : length (threads c) = n;
  iv_lock : lock_num_ (the_lock c) = count reading (threads c) - count holds_write (threads c);
  iv_excl : count holds_write (threads c) = 0 \/
            (count holds_write (threads c) = 1 /\ count reading (threads c) = 0);
  iv_wait : write_lock_wait_num_ (the_lock c) = count waiting (threads c);
  iv_pc : Forall pc_ok (threads c);
}.

Lemma inv_step n c c' : Z.of_nat n < 2147483647 -> inv n c -> step c c' -> inv n c'.
Proof.
  intros Hn [I1 I2 I3 I4 I5] Hs. inversion Hs as [l ts i p l' p' Hi Ht]; subst. cbn in *.
  pose proof (count_insert reading ts i p p' Hi) as Hr.
  pose proof (count_insert holds_write ts i p p' Hi) as Hw.
  pose proof (count_insert waiting ts i p p' Hi) as Hz.
  pose proof (count_le_length reading ts). pose proof (count_le_length holds_write ts).
  pose proof (count_le_length waiting ts).
  pose proof (count_nonneg reading ts). pose proof (count_nonneg holds_write ts).
  pose proof (count_nonneg waiting ts).
  assert (Hpi : pc_ok p) by (rewrite Forall_forall in I5; apply I5; by eapply list_elem_of_lookup_2).
  assert (Hpok : pc_ok p' -> Forall pc_ok (<[i := p']> ts)) by (intros; by apply Forall_insert).
  assert (Hone : holds_write p = true -> count holds_write ts = 1 /\ count reading ts = 0).
  { intros Hh. pose proof (count_one holds_write ts i p Hi Hh). lia. }
  assert (Hrd : reading p = true -> 1 <= count reading ts) by (intros; by eapply count_one).
  assert (Hwd : waiting p = true -> 1 <= count waiting ts) by (intros; by eapply count_one).
  constructor; cbn; [by rewrite length_insert|..];
    inversion Ht; subst; cbn in *; try (specialize (Hone eq_refl)); try (specialize (Hrd eq_refl));
    try (specialize (Hwd eq_refl)); unfold RW_LOCK_FREE, WRITE_EXCLUSIVE in *;
    rewrite ?wrap_i32_small, ?wrap_u32_small by (unfold two32; lia);
    try (apply Hpok; cbn; first [done|lia|destruct (write_first_ l); cbn; lia]);
    rewrite ?Hr, ?Hw, ?Hz; try destruct (write_first_ _); cbn; first [lia|apply Hpok; cbn; lia].
Qed.

Lemma inv_start w n : inv n (start w n).
Proof.
  assert (Hc : forall p, p Idle = false -> count p (replicate n Idle) = 0).
  { intros p Hp. unfold count. induction n as [|n IH]; cbn; [done|]. by rewrite Hp. }
  constructor; cbn.
  - apply length_replicate.
  - by rewrite !Hc.
  - left. by apply Hc.
  - by rewrite Hc.
  - by apply Forall_replicate.
Qed.

(** C32: the lock excludes: whatever the interleaving of any number of threads (below 2^31 - 1)
    and the spurious failures of the weak exchanges, at most one thread holds the lock for
    writing, none reads while one does, and the two counters of the lock are the numbers of
    readers (or -1 for a writer) and of waiting writers; when nobody holds the lock, the
    exchange of a waiting writer succeeds. *)
Theorem rwlock_mutual_exclusion (write_first : bool) (n : nat) (c : config)
    (Hn : Z.of_nat n < 2147483647) (Hc : rtc step (start write_first n) c) :
  (forall i j p q, threads c !! i = Some p -> threads c !! j = Some q -> i <> j ->
     holds_write p = true -> holds_write q = false /\ q <> Reading) /\
  lock_num_ (the_lock c) = count reading (threads c) - count holds_write (threads c) /\
  write_lock_wait_num_ (the_lock c) = count waiting (threads c) /\
  (forall i, threads c !! i = Some WTry -> count reading (threads c) = 0 -> count holds_write (threads c) = 0 ->
     exists c', step c c' /\ threads c' !! i = Some WGot).
Proof.
  assert (Hi : inv n c).
  { apply (rtc_invariant step (inv n) (start write_first n)); [apply inv_start| |done].
    intros y z Hy Hyz. by eapply inv_step. }
  destruct Hi as [I1 I2 I3 I4 I5]. split; [|split; [done|split; [done|]]].
  - intros i j p q Hi Hj Hne Hp. pose proof (count_one holds_write _ _ _ Hi Hp). split.
    + apply not_true_is_false. intros Hq. pose proof (count_two holds_write _ _ _ _ _ Hi Hj Hne Hp Hq). lia.
    + intros ->. pose proof (count_one reading _ _ _ Hj eq_refl). lia.
  - intros i Hi Hr Hw. destruct c as [l ts]. cbn in *.
    eexists. split; [apply (step_thread _ _ i WTry); [done|apply write_cas; unfold RW_LOCK_FREE; lia]|].
    cbn. apply list_lookup_insert_eq. by eapply lookup_lt_Some.
Qed.

Lemma rwlock_mutual_exclusion_witness :
  exists c, rtc step (start true 2) c /\ threads c = [Writing; WTry] /\
    lock_num_ (the_lock c) = count reading (threads c) - count holds_write (threads c).
Proof.
  assert (Hc : rtc step (start true 2) (mkConfig (mkLock 1 (-1) true) [Writing; WTry])).
  { eapply rtc_l; [eapply (step_thread _ _ 0%nat); [reflexivity|apply write_wait]|].
    eapply rtc_l; [eapply (step_thread _ _ 1%nat); [reflexivity|apply write_wait]|].
    eapply rtc_l; [eapply (step_thread _ _ 0%nat); [reflexivity|apply write_cas; reflexivity]|].
    eapply rtc_l; [eapply (step_thread _ _ 0%nat); [reflexivity|apply write_got]|]. apply rtc_refl. }
  eexists. split; [exact Hc|]. split; [reflexivity|].
  exact (proj1 (proj2 (rwlock_mutual_exclusion true 2 _ ltac:(done) Hc))).
Defined.
End AtomicRWLock.

Module ReentrantRWLock.

(** The guards a thread holds, innermost first. *)
Inductive guard := GRead | GWrite.

Inductive pc :=
| Run (held : list guard)
| RCheck (n : Z) (held : list guard)
| RWait (n : Z) (held : list guard)
| RCas (n : Z) (held : list guard)
| WTry (held : list guard)
| WGot (held : list guard)     (* exchanged, write_thread_id_ not yet set *)
| WSet (held : list guard)     (* write_thread_id_ set, still counted as waiting *)
| UClear (held : list guard).  (* released by fetch_add, write_thread_id_ not yet cleared *)

Record lock := mkLock {
  write_thread_id_ : option nat;
  write_lock_wait_num_ : Z;
  lock_num_ : Z;
  write_first_ : bool;
}.

Definition set_num (n : Z) (l : lock) : lock :=
  mkLock (write_thread_id_ l) (write_lock_wait_num_ l) n (write_first_ l).
Definition set_wait (n : Z) (l : lock) : lock :=
  mkLock (write_thread_id_ l) n (lock_num_ l) (write_first_ l).
Definition set_id (o : option nat) (l : lock) : lock :=
  mkLock o (write_lock_wait_num_ l) (lock_num_ l) (write_first_ l).

(** One atomic access of the thread [self]. *)
Inductive thread_step (self : nat) : lock -> pc -> lock -> pc -> Prop :=
| read_in l h : write_thread_id_ l = Some self -> thread_step self l (Run h) l (Run (GRead :: h))
| read_load l h : write_thread_id_ l <> Some self -> thread_step self l (Run h) l (RCheck (lock_num_ l) h)
| read_reload l n h : n < RW_LOCK_FREE -> thread_step self l (RCheck n h) l (RCheck (lock_num_ l) h)
| read_free l n h : RW_LOCK_FREE <= n ->
    thread_step self l (RCheck n h) l (if write_first_ l then RWait n h else RCas n h)
| read_waiting l n h : 0 < write_lock_wait_num_ l ->
    thread_step self l (RWait n h) l (RCheck (lock_num_ l) h)
| read_go l n h : write_lock_wait_num_ l <= 0 -> thread_step self l (RWait n h) l (RCas n h)
| read_cas l n h : lock_num_ l = n ->
    thread_step self l (RCas n h) (set_num (wrap_i32 (n + 1)) l) (Run (GRead :: h))
| read_cas_fails l n h : thread_step self l (RCas n h) l (RCheck (lock_num_ l) h)
| read_out_in l h : write_thread_id_ l = Some self -> thread_step self l (Run (GRead :: h)) l (Run h)
| read_out l h : write_thread_id_ l <> Some self ->
    thread_step self l (Run (GRead :: h)) (set_num (wrap_i32 (lock_num_ l - 1)) l) (Run h)
| write_in l h : write_thread_id_ l = Some self ->
    thread_step self l (Run h) (set_num (wrap_i32 (lock_num_ l - 1)) l) (Run (GWrite :: h))
| write_wait l h : write_thread_id_ l <> Some self ->
    thread_step self l (Run h) (set_wait (wrap_u32 (write_lock_wait_num_ l + 1)) l) (WTry h)
| write_cas l h : lock_num_ l = RW_LOCK_FREE ->
    thread_step self l (WTry h) (set_num WRITE_EXCLUSIVE l) (WGot h)
| write_cas_fails l h : thread_step self l (WTry h) l (WTry h)
| write_set l h : thread_step self l (WGot h) (set_id (Some self) l) (WSet h)
| write_got l h :
    thread_step self l (WSet h) (set_wait (wrap_u32 (write_lock_wait_num_ l - 1)) l) (Run (GWrite :: h))
| write_out_last l h : lock_num_ l = WRITE_EXCLUSIVE ->
    thread_step self l (Run (GWrite :: h)) (set_num (wrap_i32 (lock_num_ l + 1)) l) (UClear h)
| write_out l h : lock_num_ l <> WRITE_EXCLUSIVE ->
    thread_step self l (Run (GWrite :: h)) (set_num (wrap_i32 (lock_num_ l + 1)) l) (Run h)
| write_clear l h : thread_step self l (UClear h) (set_id None l) (Run h).

Record config := mkConfig { the_lock : lock; threads : list pc }.

Inductive step : config -> config -> Prop :=
| step_thread l ts i p l' p' :
    ts !! i = Some p -> thread_step i l p l' p' ->
    step (mkConfig l ts) (mkConfig l' (<[i := p']> ts)).

Definition start (write_first : bool) (n : nat) : config :=
  mkConfig (mkLock None 0 0 write_first) (replicate n (Run [])).

(** ** Re-entry of a writer *)

(** A thread with nothing to release. *)
Definition empty_handed (p : pc) : Prop :=
  match p with
  | Run h => h = []
  | RCheck n h | RWait n h | RCas n h => h = []
  | WTry h => h = []
  | WGot _ | WSet _ | UClear _ => False
  end.

(** The writer [b] waits for itself: it holds the lock, its name is gone, nobody else has
    anything to release, and a number that another thread is about to exchange is not the
    negative number of the lock. *)
Record self_wait (b : nat) (c : config) : Prop := {
  sw_num : lock_num_ (the_lock c) = WRITE_EXCLUSIVE;
  sw_id : write_thread_id_ (the_lock c) = None;
  sw_b : threads c !! b = Some (WTry [GWrite]);
  sw_others : forall j p, threads c !! j = Some p -> j <> b -> empty_handed p;
  sw_read : forall j n h, threads c !! j = Some (RWait n h) \/ threads c !! j = Some (RCas n h) -> 0 <= n;
}.

Lemma self_wait_step b c c' : self_wait b c -> step c c' -> self_wait b c'.
Proof.
  intros [S1 S2 S3 S4 S5] Hs. inversion Hs as [l ts i p l' p' Hi Ht]; subst. cbn in *.
  assert (Hlt : (i < length ts)%nat) by by eapply lookup_lt_Some.
  assert (Hother : i <> b -> empty_handed p) by (intros; by eapply S4).
  assert (Hsame : i = b -> p = WTry [GWrite]) by (intros ->; congruence).
  assert (Hread : forall n h, p = RWait n h \/ p = RCas n h -> 0 <= n) by (intros n h [-> | ->]; eauto).
  assert (Hl : lock_num_ l' = WRITE_EXCLUSIVE /\ write_thread_id_ l' = None /\
               (i = b -> p' = WTry [GWrite]) /\ (i <> b -> empty_handed p') /\
               forall n h, p' = RWait n h \/ p' = RCas n h -> 0 <= n).
  { destruct (decide (i = b)) as [->|Hne].
    - rewrite (Hsame eq_refl) in Ht. inversion Ht; subst; cbn; try done.
      + unfold WRITE_EXCLUSIVE, RW_LOCK_FREE in *. lia.
      + split_and!; try done. by intros n h [|].
    - specialize (Hother Hne). unfold WRITE_EXCLUSIVE, RW_LOCK_FREE in *.
      inversion Ht; subst; cbn in *; try done; try congruence; try lia;
        try (split_and!; try done; intros ?n ?h [|]; by simplify_eq).
      + destruct (write_first_ l'); split_and!; try done; intros ?n ?h [|]; by simplify_eq.
      + split_and!; try done. intros ?n ?h [|]; simplify_eq. by eapply Hread; left.
      + exfalso. pose proof (Hread _ _ (or_intror eq_refl)). lia.
      + unfold RW_LOCK_FREE in *. lia. }
  destruct Hl as (L1 & L2 & L3 & L4 & L5). constructor; cbn; try done.
  - destruct (decide (i = b)) as [->|]; [rewrite list_lookup_insert_eq by done; by rewrite L3|].
    by rewrite list_lookup_insert_ne.
  - intros j q Hj Hne. destruct (decide (i = j)) as [->|].
    + rewrite list_lookup_insert_eq in Hj by done. injection Hj as <-. auto.
    + rewrite list_lookup_insert_ne in Hj by done. by eapply S4.
  - intros j n h Hj. destruct (decide (i = j)) as [->|].
    + rewrite list_lookup_insert_eq in Hj by done. apply (L5 n h). naive_solver.
    + rewrite list_lookup_insert_ne in Hj by done. by eapply S5.
Qed.

(** Thread 0 writes and releases; thread 1 gets the lock between the release and the clearing
    of the name, and then asks for the lock again. *)
Definition overtaken (wf : bool) : config :=
  mkConfig (mkLock None 1 (-1) wf) [Run []; WTry [GWrite]].

Lemma overtaken_reachable wf : rtc step (start wf 2) (overtaken wf).
Proof.
  eapply rtc_l; [eapply (step_thread _ _ 0%nat); [reflexivity|by apply write_wait]|].
  eapply rtc_l; [eapply (step_thread _ _ 0%nat); [reflexivity|by apply write_cas]|].
  eapply rtc_l; [eapply (step_thread _ _ 0%nat); [reflexivity|apply write_set]|].
  eapply rtc_l; [eapply (step_thread _ _ 0%nat); [reflexivity|apply write_got]|].
  eapply rtc_l; [eapply (step_thread _ _ 1%nat); [reflexivity|by apply write_wait]|].
  eapply rtc_l; [eapply (step_thread _ _ 0%nat); [reflexivity|by apply write_out_last]|].
  eapply rtc_l; [eapply (step_thread _ _ 1%nat); [reflexivity|by apply write_cas]|].
  eapply rtc_l; [eapply (step_thread _ _ 1%nat); [reflexivity|apply write_set]|].
  eapply rtc_l; [eapply (step_thread _ _ 1%nat); [reflexivity|apply write_got]|].
  eapply rtc_l; [eapply (step_thread _ _ 0%nat); [reflexivity|apply write_clear]|].
  eapply rtc_l; [eapply (step_thread _ _ 1%nat); [reflexivity|by apply write_wait]|].
  apply rtc_refl.
Qed.

(** The re-entrant lock can lock itself out: there is an interleaving of two threads after which
    the thread that holds the lock for writing asks for it again and waits for ever, whatever
    anybody does; for [WriteUnlock] clears the name of the writer after it has released the
    lock, and then clears that of the next one. *)
Theorem reentrant_writer_deadlocks (wf : bool) :
  exists c, rtc step (start wf 2) c /\
    (forall c', rtc step c c' -> threads c' !! 1%nat = Some (WTry [GWrite])).
Proof.
  exists (overtaken wf). split; [apply overtaken_reachable|]. intros c' Hc.
  assert (Hs : self_wait 1 c').
  { apply (rtc_invariant step (self_wait 1) (overtaken wf)); [|intros y z; apply self_wait_step|done].
    constructor; cbn; try done.
    - intros [|[|j]] p Hj Hne; cbn in Hj; by simplify_eq.
    - intros [|[|j]] n h [Hj|Hj]; cbn in Hj; by simplify_eq. }
  apply (sw_b _ _ Hs).
Qed.
End ReentrantRWLock.
