(* ===== verification/ShmConf.v ===== *)
(** * ShmConf: the layout of a shared-memory segment

    Models [cyber/transport/shm/shm_conf.{h,cc}] and the addresses that
    [cyber/transport/shm/{posix,xsi}_segment.cc] compute from it: the state, the blocks and the
    buffers of the blocks one after the other.  [sizeof(State)] and [sizeof(Block)] are those of
    the 64-bit ABI: a pointer to the virtual table and the fields, aligned. *)

From S2P Require Import Prelude.

Definition EXTRA_SIZE : Z := 1024 * 4.
Definition STATE_SIZE : Z := 1024.
Definition BLOCK_SIZE : Z := 1024.
Definition MESSAGE_INFO_SIZE : Z := 1024.
Definition BLOCK_NUM_16K : Z := 512.
Definition MESSAGE_SIZE_16K : Z := 1024 * 16.
Definition BLOCK_NUM_128K : Z := 128.
Definition MESSAGE_SIZE_128K : Z := 1024 * 128.
Definition BLOCK_NUM_1M : Z := 64.
Definition MESSAGE_SIZE_1M : Z := 1024 * 1024.
Definition BLOCK_NUM_8M : Z := 32.
Definition MESSAGE_SIZE_8M : Z := 1024 * 1024 * 8.
Definition BLOCK_NUM_16M : Z := 16.
Definition MESSAGE_SIZE_16M : Z := 1024 * 1024 * 16.
Definition BLOCK_NUM_MORE : Z := 8.
Definition MESSAGE_SIZE_MORE : Z := 1024 * 1024 * 32.

Definition GetCeilingMessageSize (real_msg_size : Z) : Z :=
  if real_msg_size <=? MESSAGE_SIZE_16K then MESSAGE_SIZE_16K
  else if real_msg_size <=? MESSAGE_SIZE_128K then MESSAGE_SIZE_128K
  else if real_msg_size <=? MESSAGE_SIZE_1M then MESSAGE_SIZE_1M
  else if real_msg_size <=? MESSAGE_SIZE_8M then MESSAGE_SIZE_8M
  else if real_msg_size <=? MESSAGE_SIZE_16M then MESSAGE_SIZE_16M
  else MESSAGE_SIZE_MORE.

Definition GetBlockBufSize (ceiling_msg_size : Z) : Z := wrap_u64 (ceiling_msg_size + MESSAGE_INFO_SIZE).

Definition GetBlockNum (ceiling_msg_size : Z) : Z :=
  if ceiling_msg_size =? MESSAGE_SIZE_16K then BLOCK_NUM_16K
  else if ceiling_msg_size =? MESSAGE_SIZE_128K then BLOCK_NUM_128K
  else if ceiling_msg_size =? MESSAGE_SIZE_1M then BLOCK_NUM_1M
  else if ceiling_msg_size =? MESSAGE_SIZE_8M then BLOCK_NUM_8M
  else if ceiling_msg_size =? MESSAGE_SIZE_16M then BLOCK_NUM_16M
  else if ceiling_msg_size =? MESSAGE_SIZE_MORE then BLOCK_NUM_MORE
  else 0.

Record ShmConf := mkConf {
  ceiling_msg_size_ : Z;
  block_buf_size_ : Z;
  block_num_ : Z;
  managed_shm_size_ : Z;
}.

Definition Update (real_msg_size : Z) : ShmConf :=
  let c := GetCeilingMessageSize real_msg_size in
  let b := GetBlockBufSize c in
  let n := GetBlockNum c in
  mkConf c b n (wrap_u64 (EXTRA_SIZE + STATE_SIZE + (BLOCK_SIZE + b) * n)).

(** [ShmConf()]. *)
Definition conf_new : ShmConf := Update MESSAGE_SIZE_16K.

Definition sizeof_State : Z := 32.
Definition sizeof_Block : Z := 32.

(** Where a block and its buffer are, from the beginning of the segment. *)
Definition block_addr (i : Z) : Z := sizeof_State + i * sizeof_Block.
Definition buf_addr (c : ShmConf) (i : Z) : Z :=
  sizeof_State + block_num_ c * sizeof_Block + i * block_buf_size_ c.

(** ** The layout *)

(** The six layouts. *)
Lemma Update_cases n :
  Update n = Update MESSAGE_SIZE_16K \/ Update n = Update MESSAGE_SIZE_128K \/ Update n = Update MESSAGE_SIZE_1M \/
  Update n = Update MESSAGE_SIZE_8M \/ Update n = Update MESSAGE_SIZE_16M \/ Update n = Update MESSAGE_SIZE_MORE.
Proof.
  assert (H : GetCeilingMessageSize n = MESSAGE_SIZE_16K \/ GetCeilingMessageSize n = MESSAGE_SIZE_128K \/
    GetCeilingMessageSize n = MESSAGE_SIZE_1M \/ GetCeilingMessageSize n = MESSAGE_SIZE_8M \/
    GetCeilingMessageSize n = MESSAGE_SIZE_16M \/ GetCeilingMessageSize n = MESSAGE_SIZE_MORE).
  { unfold GetCeilingMessageSize. repeat (destruct (n <=? _); [tauto|]). tauto. }
  assert (Hu : forall c, GetCeilingMessageSize n = c -> GetCeilingMessageSize c = c -> Update n = Update c).
  { intros c H1 H2. unfold Update. by rewrite H1, H2. }
  destruct H as [H|[H|[H|[H|[H|H]]]]]; apply Hu in H; try reflexivity; tauto.
Qed.

Ltac six_layouts n := destruct (Update_cases n) as [E|[E|[E|[E|[E|E]]]]].

Lemma Update_ceiling n : Update (ceiling_msg_size_ (Update n)) = Update n.
Proof. six_layouts n; rewrite E; reflexivity. Qed.

Lemma block_num_pos n : 0 < block_num_ (Update n) <= 512.
Proof. six_layouts n; rewrite E; split; vm_compute; done. Qed.

Lemma block_num_divides n : (block_num_ (Update n) | two32).
Proof.
  six_layouts n; rewrite E;
    [exists 8388608|exists 33554432|exists 67108864|exists 134217728|exists 268435456|exists 536870912]; reflexivity.
Qed.

Lemma ceiling_le n : ceiling_msg_size_ (Update n) <= MESSAGE_SIZE_MORE.
Proof. six_layouts n; rewrite E; vm_compute; done. Qed.

Lemma ceiling_mono n m : n <= m -> ceiling_msg_size_ (Update n) <= ceiling_msg_size_ (Update m).
Proof.
  intros H. cbn [ceiling_msg_size_ Update]. unfold GetCeilingMessageSize.
  change MESSAGE_SIZE_16K with 16384. change MESSAGE_SIZE_128K with 131072. change MESSAGE_SIZE_1M with 1048576.
  change MESSAGE_SIZE_8M with 8388608. change MESSAGE_SIZE_16M with 16777216. change MESSAGE_SIZE_MORE with 33554432.
  repeat case_if; lia.
Qed.

Lemma ceiling_covers n : n <= MESSAGE_SIZE_MORE -> n <= ceiling_msg_size_ (Update n).
Proof.
  cbn [ceiling_msg_size_ Update]. unfold GetCeilingMessageSize. intros H. repeat case_if; lia.
Qed.

Lemma buf_size n : block_buf_size_ (Update n) = ceiling_msg_size_ (Update n) + MESSAGE_INFO_SIZE.
Proof. six_layouts n; rewrite E; reflexivity. Qed.

(** The buffers end before the segment does. *)
Lemma layout_fits n :
  buf_addr (Update n) (block_num_ (Update n)) + EXTRA_SIZE <= managed_shm_size_ (Update n).
Proof. six_layouts n; rewrite E; vm_compute; done. Qed.

Lemma buf_inside n i :
  0 <= i < block_num_ (Update n) ->
  0 < buf_addr (Update n) i /\
  buf_addr (Update n) i + block_buf_size_ (Update n) <= managed_shm_size_ (Update n).
Proof.
  intros Hi. pose proof (layout_fits n) as Hf. pose proof (block_num_pos n) as Hb.
  assert (Hs : 0 < block_buf_size_ (Update n)) by (six_layouts n; rewrite E; vm_compute; done).
  unfold buf_addr, EXTRA_SIZE, sizeof_State, sizeof_Block in *. nia.
Qed.

Lemma buf_apart n i j :
  0 <= i -> i < j -> buf_addr (Update n) i + block_buf_size_ (Update n) <= buf_addr (Update n) j.
Proof.
  intros Hi Hj.
  assert (Hs : 0 < block_buf_size_ (Update n)) by (six_layouts n; rewrite E; vm_compute; done).
  unfold buf_addr. nia.
Qed.

(** C36: the layout is sound for every size of message: the state, the blocks and the buffers do not
    overlap and end inside the segment, no 64-bit computation wraps around, and a block holds
    the message and its 24-byte information exactly when the message is at most 32 MB and 1000
    bytes, a larger one being given a buffer that is too small for it. *)
Theorem layout_sound (n : Z) (Hn : is_u64 n) :
  let c := Update n in
  (forall i, 0 <= i < block_num_ c ->
     sizeof_State <= block_addr i /\ block_addr i + sizeof_Block <= buf_addr c 0 /\
     buf_addr c 0 <= buf_addr c i /\ buf_addr c i + block_buf_size_ c <= managed_shm_size_ c) /\
  (forall i j, 0 <= i -> i < j -> block_addr i + sizeof_Block <= block_addr j /\
     buf_addr c i + block_buf_size_ c <= buf_addr c j) /\
  managed_shm_size_ c = EXTRA_SIZE + STATE_SIZE + (BLOCK_SIZE + block_buf_size_ c) * block_num_ c /\
  (n + 24 <= block_buf_size_ c <-> n <= MESSAGE_SIZE_MORE + 1000).
Proof.
  intros c. split; [|split; [|split]].
  - intros i Hi. destruct (buf_inside n i Hi) as [_ H2].
    assert (0 < block_buf_size_ c) by (subst c; six_layouts n; rewrite E; vm_compute; done).
    unfold block_addr, buf_addr, sizeof_State, sizeof_Block in *. subst c. nia.
  - intros i j Hi Hj. split; [unfold block_addr, sizeof_Block; lia|by apply buf_apart].
  - subst c. six_layouts n; rewrite E; reflexivity.
  - subst c. rewrite buf_size. pose proof (ceiling_le n). pose proof (ceiling_covers n) as Hc.
    change MESSAGE_INFO_SIZE with 1024. split; [lia|]. intros H1.
    destruct (Z.le_gt_cases n MESSAGE_SIZE_MORE) as [H2|H2]; [lia|].
    assert (ceiling_msg_size_ (Update MESSAGE_SIZE_MORE) <= ceiling_msg_size_ (Update n)) by (apply ceiling_mono; lia).
    change (ceiling_msg_size_ (Update MESSAGE_SIZE_MORE)) with MESSAGE_SIZE_MORE in *. lia.
Qed.

Lemma layout_sound_witness :
  block_buf_size_ (Update 40000000) < 40000000 /\
  ~ (40000000 + 24 <= block_buf_size_ (Update 40000000)).
Proof.
  split; [vm_compute; reflexivity|].
  destruct (layout_sound 40000000 ltac:(by vm_compute)) as (_ & _ & _ & [H _]).
  intros Hc. apply H in Hc. vm_compute in Hc. by apply Hc.
Defined.
