(* ===== verification/ShmMessage.v ===== *)
(** * ShmMessage: the headers that travel with a message in shared memory

    Models [cyber/transport/shm/readable_info.{h,cc}], [cyber/transport/common/identity.{h,cc}]
    and [cyber/transport/message/message_info.{h,cc}].  A [char] is a [Z] below 256; copying an
    integer into bytes with [memcpy] stores the low byte first, as the supported processors
    do.  [common::Hash], the standard library's hash of a string, is a variable. *)

From S2P Require Import Prelude.

Abbreviation byte := Z.
Abbreviation bytes := (list byte).

Definition is_byte (b : byte) : Prop := 0 <= b < 256.

(** The [n] bytes of an unsigned integer. *)
Fixpoint to_bytes (n : nat) (z : Z) : bytes :=
  match n with
  | O => []
  | S n' => z mod 256 :: to_bytes n' (z / 256)
  end.

Fixpoint of_bytes (l : bytes) : Z :=
  match l with
  | [] => 0
  | b :: l' => b + 256 * of_bytes l'
  end.

(** [memcpy(&x, ptr + off, n)]. *)
Definition slice (off n : nat) (l : bytes) : bytes := take n (drop off l).

Lemma length_to_bytes n z : length (to_bytes n z) = n.
Proof. revert z. induction n as [|n IH]; intros z; [done|]. cbn. by rewrite IH. Qed.

Lemma of_to_bytes n z : 0 <= z < 256 ^ Z.of_nat n -> of_bytes (to_bytes n z) = z.
Proof.
  revert z. induction n as [|n IH]; intros z Hz; [cbn in *; lia|]. cbn [to_bytes of_bytes].
  rewrite Nat2Z.inj_succ, Z.pow_succ_r in Hz by lia. rewrite IH; [div_lia|].
  split; [div_lia|]. apply Z.div_lt_upper_bound; lia.
Qed.

Lemma to_bytes_bytes n z : Forall is_byte (to_bytes n z).
Proof.
  revert z. induction n as [|n IH]; intros z; constructor; [|apply IH].
  apply Z.mod_pos_bound. lia.
Qed.

Lemma slice_here (a b : bytes) n : n = length a -> slice 0 n (a ++ b) = a.
Proof. intros ->. unfold slice. cbn. apply take_app_length. Qed.

Lemma slice_skip off (a b : bytes) m n :
  m = (length a + off)%nat -> slice m n (a ++ b) = slice off n b.
Proof. intros ->. unfold slice. by rewrite drop_app_add. Qed.

(** ** Which block to read: [ReadableInfo] *)

Record ReadableInfo := mkReadable { host_id_ : Z; block_index_ : Z; channel_id_ : Z }.

Module Readable.

Definition kSize : nat := 8 * 2 + 4.

Definition readable_new : ReadableInfo := mkReadable 0 0 0.

Definition SerializeTo (r : ReadableInfo) : bytes :=
  to_bytes 8 (host_id_ r) ++ to_bytes 4 (block_index_ r) ++ to_bytes 8 (channel_id_ r).

(** Whether the bytes are accepted, and the object after. *)
Definition DeserializeFrom (src : bytes) (r : ReadableInfo) : bool * ReadableInfo :=
  if negb (length src =? kSize)%nat then (false, r)
  else (true, mkReadable (of_bytes (slice 0 8 src)) (of_bytes (slice 8 4 src)) (of_bytes (slice 12 8 src))).

Definition valid (r : ReadableInfo) : Prop :=
  is_u64 (host_id_ r) /\ is_u32 (block_index_ r) /\ is_u64 (channel_id_ r).

Lemma deserialize_serialize r r0 : valid r -> DeserializeFrom (SerializeTo r) r0 = (true, r).
Proof.
  intros (H1 & H2 & H3). unfold DeserializeFrom, SerializeTo.
  rewrite !length_app, !length_to_bytes. change (negb _) with false. cbv iota.
  destruct r as [h i c]. cbn [host_id_ block_index_ channel_id_] in *. do 2 f_equal.
  - rewrite slice_here by (by rewrite length_to_bytes). by apply of_to_bytes.
  - rewrite (slice_skip 0), slice_here by (by rewrite length_to_bytes). by apply of_to_bytes.
  - rewrite (slice_skip 4), (slice_skip 0) by (by rewrite length_to_bytes).
    rewrite <- (app_nil_r (to_bytes 8 c)), slice_here by (by rewrite length_to_bytes). by apply of_to_bytes.
Qed.

End Readable.

(** ** Who sent it: [Identity] and [MessageInfo] *)

Definition ID_SIZE : nat := 8.

Record Identity := mkIdentity { data_ : bytes; hash_value_ : Z }.

Record MessageInfo := mkInfo {
  sender_id_ : Identity;
  info_channel_id_ : Z;
  seq_num_ : Z;
  spare_id_ : Identity;
}.

(** [Identity::operator==] compares the data and not the hash values. *)
Definition Identity_eqb (a b : Identity) : bool := bool_decide (data_ a = data_ b).

Definition MessageInfo_eqb (a b : MessageInfo) : bool :=
  Identity_eqb (sender_id_ a) (sender_id_ b) && (info_channel_id_ a =? info_channel_id_ b) &&
  (seq_num_ a =? seq_num_ b) && Identity_eqb (spare_id_ a) (spare_id_ b).

(** [Identity(false)]. *)
Definition identity_zero : Identity := mkIdentity (replicate ID_SIZE 0) 0.

Definition info_new : MessageInfo := mkInfo identity_zero 0 0 identity_zero.

Module Info.
Section info.
Context (Hash : bytes -> Z).

(** [Identity(true)], with the first bytes of the generated uuid. *)
Definition identity_new (uuid : bytes) : Identity := mkIdentity (take ID_SIZE uuid) (Hash (take ID_SIZE uuid)).

(** [set_data], which calls [Update]. *)
Definition set_data (data : bytes) : Identity := mkIdentity data (Hash data).

Definition kSize : nat := 2 * ID_SIZE + 8.

Definition info_bytes (i : MessageInfo) : bytes :=
  data_ (sender_id_ i) ++ to_bytes 8 (seq_num_ i) ++ data_ (spare_id_ i).

(** [SerializeTo(dst, len)]: the bytes to store at [dst], if they fit. *)
Definition SerializeTo (len : nat) (i : MessageInfo) : option bytes :=
  if (len <? kSize)%nat then None else Some (info_bytes i).

Definition DeserializeFrom (src : bytes) (i : MessageInfo) : bool * MessageInfo :=
  if negb (length src =? kSize)%nat then (false, i)
  else (true, mkInfo (set_data (slice 0 ID_SIZE src)) (info_channel_id_ i)
                (of_bytes (slice ID_SIZE 8 src)) (set_data (slice (ID_SIZE + 8) ID_SIZE src))).

Definition valid (i : MessageInfo) : Prop :=
  length (data_ (sender_id_ i)) = ID_SIZE /\ length (data_ (spare_id_ i)) = ID_SIZE /\ is_u64 (seq_num_ i).

Lemma length_info_bytes i : valid i -> length (info_bytes i) = kSize.
Proof. intros (H1 & H2 & _). unfold info_bytes. by rewrite !length_app, length_to_bytes, H1, H2. Qed.

(** What the receiver gets: the same data, the hash values computed again, and the channel
    of the object it reads into. *)
Definition received (i i0 : MessageInfo) : MessageInfo :=
  mkInfo (set_data (data_ (sender_id_ i))) (info_channel_id_ i0) (seq_num_ i) (set_data (data_ (spare_id_ i))).

Lemma deserialize_info i i0 : valid i -> DeserializeFrom (info_bytes i) i0 = (true, received i i0).
Proof.
  intros Hv. pose proof (length_info_bytes i Hv) as Hl. destruct Hv as (H1 & H2 & H3).
  unfold DeserializeFrom. rewrite Hl. change (negb _) with false. cbv iota.
  unfold received, info_bytes. f_equal. f_equal.
  - by rewrite slice_here.
  - rewrite (slice_skip 0), slice_here by (by rewrite ?H1, ?length_to_bytes). by apply of_to_bytes.
  - rewrite (slice_skip 8), (slice_skip 0) by (by rewrite ?H1, ?length_to_bytes). 
    f_equal. unfold slice. cbn [drop]. rewrite <- H2. apply firstn_all.
Qed.

(** C37: the headers survive the trip: what [SerializeTo] writes, [DeserializeFrom] reads back, for the
    [ReadableInfo] exactly and for the [MessageInfo] up to [operator==] when both sides name
    the same channel, the hash values being computed again from the data; a buffer of any other
    size is refused and the object left alone. *)
Theorem headers_roundtrip (i i0 : MessageInfo) (r r0 : ReadableInfo) (src : bytes) (len : nat)
    (Hi : valid i) (Hch : info_channel_id_ i0 = info_channel_id_ i) (Hr : Readable.valid r) :
  (forall b, SerializeTo len i = Some b ->
     exists i1, DeserializeFrom b i0 = (true, i1) /\ MessageInfo_eqb i1 i = true /\
                hash_value_ (sender_id_ i1) = Hash (data_ (sender_id_ i))) /\
  (is_Some (SerializeTo len i) <-> (kSize <= len)%nat) /\
  (length src <> kSize -> DeserializeFrom src i0 = (false, i0)) /\
  Readable.DeserializeFrom (Readable.SerializeTo r) r0 = (true, r) /\
  (length src <> Readable.kSize -> Readable.DeserializeFrom src r0 = (false, r0)).
Proof.
  split; [|split; [|split; [|split]]].
  - unfold SerializeTo. intros b Hb. destruct (_ <? _)%nat; [done|]. injection Hb as <-.
    exists (received i i0). split; [by apply deserialize_info|]. split; [|done].
    unfold MessageInfo_eqb, Identity_eqb, received. cbn.
    rewrite !bool_decide_eq_true_2, Hch, !Z.eqb_refl by done. done.
  - unfold SerializeTo. destruct (Nat.ltb_spec len kSize); split; intros H'; [by apply is_Some_None in H'|lia|lia|by eexists].
  - intros Hne. unfold DeserializeFrom. by rewrite (proj2 (Nat.eqb_neq _ _) Hne).
  - by apply Readable.deserialize_serialize.
  - intros Hne. unfold Readable.DeserializeFrom. by rewrite (proj2 (Nat.eqb_neq _ _) Hne).
Qed.
End info.

Lemma headers_roundtrip_witness :
  exists i1, DeserializeFrom of_bytes (info_bytes (mkInfo (mkIdentity (to_bytes 8 77) 0) 5 1000000 identity_zero))
               (mkInfo identity_zero 5 0 identity_zero) = (true, i1) /\ seq_num_ i1 = 1000000.
Proof.
  pose (i := mkInfo (mkIdentity (to_bytes 8 77) 0) 5 1000000 identity_zero).
  destruct (headers_roundtrip of_bytes i (mkInfo identity_zero 5 0 identity_zero) (mkReadable 1 2 3) Readable.readable_new [] 24
    ltac:(repeat split; done) eq_refl ltac:(repeat split; done)) as [H _].
  destruct (H (info_bytes i) eq_refl) as (i1 & H1 & H2 & _). exists i1. split; [exact H1|].
  unfold MessageInfo_eqb in H2. apply andb_true_iff in H2 as [H2 _]. apply andb_true_iff in H2 as [_ H2].
  by apply Z.eqb_eq in H2.
Defined.
End Info.
