(* ===== verification/ShmSegment.v ===== *)
(** * ShmSegment: the shared-memory segment of a channel

    Models [cyber/transport/shm/state.{h,cc}], [block.{h,cc}] and [segment.{h,cc}]; the virtual
    methods that the POSIX and the System V segments implement are the class [SegmentKind],
    with the laws that the proofs about every segment rely on.  The kernel's side is the set of named memory objects; an object is
    its size, the [State] and the [Block]s that were constructed at its beginning, and the bytes
    of the rest, by offset.  A pointer into a mapping is the object's number and an offset, so
    that several handles of several processes share what they map.  System calls fail when
    their argument [Sys] says so, and for the reasons the model can see.  Dereferencing a null
    pointer or leaving the mapping is the outcome [Crash]. *)

From S2P Require Import Prelude ShmConf ShmMessage.

(** ** The shared objects *)

Record State := mkState {
  need_remap_ : bool;
  seq_ : Z;
  reference_count_ : Z;
  st_ceiling_msg_size_ : Z;
}.

Definition state_new (ceiling_msg_size : Z) : State := mkState false 0 0 ceiling_msg_size.

Definition DecreaseReferenceCounts (s : State) : State :=
  if reference_count_ s =? 0 then s
  else mkState (need_remap_ s) (seq_ s) (reference_count_ s - 1) (st_ceiling_msg_size_ s).

Definition IncreaseReferenceCounts (s : State) : State :=
  mkState (need_remap_ s) (seq_ s) (wrap_u32 (reference_count_ s + 1)) (st_ceiling_msg_size_ s).

(** The value before, and the state after. *)
Definition FetchAddSeq (diff : Z) (s : State) : Z * State :=
  (seq_ s, mkState (need_remap_ s) (wrap_u32 (seq_ s + diff)) (reference_count_ s) (st_ceiling_msg_size_ s)).

Definition set_need_remap (need : bool) (s : State) : State :=
  mkState need (seq_ s) (reference_count_ s) (st_ceiling_msg_size_ s).

Definition kRWLockFree : Z := 0.
Definition kWriteExclusive : Z := -1.
Definition kMaxTryLockTimes : nat := 5.

Record Block := mkBlock { lock_num_ : Z; msg_size_ : Z; msg_info_size_ : Z }.

Definition block_new : Block := mkBlock 0 0 0.

Definition set_lock (n : Z) (b : Block) : Block := mkBlock n (msg_size_ b) (msg_info_size_ b).
Definition set_msg_size (n : Z) (b : Block) : Block := mkBlock (lock_num_ b) n (msg_info_size_ b).
Definition set_msg_info_size (n : Z) (b : Block) : Block := mkBlock (lock_num_ b) (msg_size_ b) n.

Definition TryLockForWrite (b : Block) : bool * Block :=
  if lock_num_ b =? kRWLockFree then (true, set_lock kWriteExclusive b) else (false, b).

(** [fails] is the number of times the exchange fails, because of other readers, before it
    can succeed. *)
Definition TryLockForRead (fails : nat) (b : Block) : bool * Block :=
  if lock_num_ b <? kRWLockFree then (false, b)
  else if (kMaxTryLockTimes <=? fails)%nat then (false, b)
  else (true, set_lock (wrap_i32 (lock_num_ b + 1)) b).

Definition ReleaseWriteLock (b : Block) : Block := set_lock (wrap_i32 (lock_num_ b + 1)) b.
Definition ReleaseReadLock (b : Block) : Block := set_lock (wrap_i32 (lock_num_ b - 1)) b.

(** [obj_key] is the name under which the object was created. *)
Record Object := mkObject {
  obj_key : Z;
  obj_size : Z;
  state : State;
  blocks : list Block;
  mem : gmap Z byte;
}.

Record Shm := mkShm { names : gmap Z nat; objects : list Object }.

Definition shm_new : Shm := mkShm ∅ [].

Definition with_object (o : nat) (f : Object -> Object) (m : Shm) : Shm :=
  mkShm (names m) (alter f o (objects m)).

Definition on_state (f : State -> State) (ob : Object) : Object :=
  mkObject (obj_key ob) (obj_size ob) (f (state ob)) (blocks ob) (mem ob).

Definition on_block (k : Z) (f : Block -> Block) (ob : Object) : Object :=
  mkObject (obj_key ob) (obj_size ob) (state ob) (alter f (Z.to_nat k) (blocks ob)) (mem ob).

Definition on_mem (f : gmap Z byte -> gmap Z byte) (ob : Object) : Object :=
  mkObject (obj_key ob) (obj_size ob) (state ob) (blocks ob) (f (mem ob)).

Fixpoint store (off : Z) (bs : bytes) (m : gmap Z byte) : gmap Z byte :=
  match bs with
  | [] => m
  | b :: bs' => store (off + 1) bs' (<[off := b]> m)
  end.

Fixpoint load (off : Z) (n : nat) (m : gmap Z byte) : bytes :=
  match n with
  | O => []
  | S n' => default 0 (m !! off) :: load (off + 1) n' m
  end.

(** ** Outcomes *)

Inductive outcome (A : Type) := Ret (a : A) | Crash | Spin.
Arguments Ret {A} a.
Arguments Crash {A}.
Arguments Spin {A}.

Definition bind {A B} (x : outcome A) (f : A -> outcome B) : outcome B :=
  match x with Ret a => f a | Crash => Crash | Spin => Spin end.

(** Which system calls fail for reasons outside the model. *)
Record Sys := mkSys {
  open_fails : bool;        (* shm_open, shmget *)
  ftruncate_fails : bool;
  fstat_fails : bool;
  mmap_fails : bool;        (* mmap, shmat *)
  einval_times : nat;       (* how often shmget refuses the size *)
}.

Definition sys_ok : Sys := mkSys false false false false 0.

(** ** A handle *)

Inductive mapping := Null | Mapped (o : nat) | MapFailed.

Record Segment := mkSegment {
  init_ : bool;
  conf_ : ShmConf;
  channel_id_ : Z;
  state_ : option nat;
  blocks_ : option nat;
  managed_shm_ : mapping;
  block_buf_addrs_ : gmap Z Z;
}.

Definition segment_new (channel_id : Z) : Segment :=
  mkSegment false conf_new channel_id None None Null ∅.

Definition set_init (b : bool) (s : Segment) : Segment :=
  mkSegment b (conf_ s) (channel_id_ s) (state_ s) (blocks_ s) (managed_shm_ s) (block_buf_addrs_ s).
Definition set_conf (c : ShmConf) (s : Segment) : Segment :=
  mkSegment (init_ s) c (channel_id_ s) (state_ s) (blocks_ s) (managed_shm_ s) (block_buf_addrs_ s).
Definition set_managed (p : mapping) (s : Segment) : Segment :=
  mkSegment (init_ s) (conf_ s) (channel_id_ s) (state_ s) (blocks_ s) p (block_buf_addrs_ s).

(** The addresses of the first [n] buffers, entered into the map. *)
Fixpoint add_addrs (c : ShmConf) (n : nat) (addrs : gmap Z Z) : gmap Z Z :=
  match n with
  | O => addrs
  | S n' => <[Z.of_nat n' := buf_addr c (Z.of_nat n')]> (add_addrs c n' addrs)
  end.

(** The fields of a handle that has mapped the object [o]. *)
Definition attach (o : nat) (ceiling : Z) (s : Segment) : Segment :=
  let c := Update ceiling in
  mkSegment true c (channel_id_ s) (Some o) (Some o) (Mapped o)
    (add_addrs c (Z.to_nat (block_num_ c)) (block_buf_addrs_ s)).

(** A new object of the given size, zeroed, under the name. *)
Definition create (name size : Z) (m : Shm) : nat * Shm :=
  let o := length (objects m) in
  (o, mkShm (<[name := o]> (names m)) (objects m ++ [mkObject name size (mkState false 0 0 0) [] ∅])).

Definition shm_unlink (name : Z) (m : Shm) : Shm := mkShm (delete name (names m)) (objects m).

(** [new (managed_shm_) State(...)] and [new (...) Block[n]]. *)
Definition construct (c : ShmConf) (ob : Object) : Object :=
  mkObject (obj_key ob) (obj_size ob) (state_new (ceiling_msg_size_ c))
    (replicate (Z.to_nat (block_num_ (Update (ceiling_msg_size_ c)))) block_new) (mem ob).

(** [Reset] of either kind: both only differ in the call that unmaps. *)
Definition Reset (s : Segment) : Segment :=
  mkSegment (init_ s) (conf_ s) (channel_id_ s) None None Null ∅.

(** The object that [state_] points to. *)
Definition object_of (p : option nat) (m : Shm) : outcome (nat * Object) :=
  match p with
  | None => Crash
  | Some o => match objects m !! o with Some ob => Ret (o, ob) | None => Crash end
  end.

(** ** The kinds of segments *)

(** How far [OpenOrCreate] comes before it constructs anything: it is done, or it has made the
    object [o], which others can find and which has no state and no blocks yet. *)
Inductive opening := Opened (r : bool) (s : Segment) (m : Shm) | Made (o : nat) (s : Segment) (m : Shm).

(** The virtual methods, and the name of the memory of a channel.  [OpenOrCreate] is in two
    halves, [OpenOrMake] and [Finish]; [Discard] gives up an object that cannot be mapped. *)
Class SegmentKind := {
  shm_key : Z -> Z;
  OpenOnly : Sys -> Segment -> Shm -> bool * Segment * Shm;
  OpenOrMake : Sys -> Segment -> Shm -> opening;
  Discard : nat -> Segment -> Shm -> Shm;
  Remove : Segment -> Shm -> bool * Shm;
}.

Section segment.
Context `{K : SegmentKind}.

(** Mapping the new object and constructing its state and its blocks. *)
Definition Finish (e : Sys) (o : nat) (s : Segment) (m : Shm) : bool * Segment * Shm :=
  if mmap_fails e then (false, set_managed MapFailed s, Discard o s m)
  else
    (true, attach o (ceiling_msg_size_ (conf_ s)) s,
     with_object o (fun ob => on_state IncreaseReferenceCounts (construct (conf_ s) ob)) m).

Definition OpenOrCreate (e : Sys) (s : Segment) (m : Shm) : bool * Segment * Shm :=
  match OpenOrMake e s m with
  | Opened r s m => (r, s, m)
  | Made o s m => Finish e o s m
  end.

Definition Destroy (s : Segment) (m : Shm) : outcome (bool * Segment * Shm) :=
  if negb (init_ s) then Ret (true, s, m)
  else
    bind (object_of (state_ s) m) (fun '(o, ob) =>
      let st := DecreaseReferenceCounts (state ob) in
      let m1 := with_object o (on_state (fun _ => st)) m in
      if reference_count_ st =? 0 then
        let '(r, m2) := Remove s m1 in Ret (r, set_init false s, m2)
      else Ret (true, set_init false s, m1)).

Definition Remap (e : Sys) (s : Segment) (m : Shm) : bool * Segment * Shm :=
  OpenOnly e (Reset (set_init false s)) m.

(** [Recreate] in pieces: marking the old memory, leaving it and removing its name, and making
    the new one. *)
Definition Recreate_mark (s : Segment) (m : Shm) : outcome (Segment * Shm) :=
  bind (object_of (state_ s) m) (fun '(o, _) =>
    Ret (Reset (set_init false s), with_object o (on_state (set_need_remap true)) m)).

Definition Recreate_drop (s : Segment) (m : Shm) : outcome (Segment * Shm) :=
  bind (Recreate_mark s m) (fun '(s1, m1) => Ret (s1, snd (Remove s1 m1))).

Definition Recreate_make (e : Sys) (msg_size : Z) (s : Segment) (m : Shm) : bool * Segment * Shm :=
  OpenOrCreate e (set_conf (Update msg_size) s) m.

Definition Recreate (e : Sys) (msg_size : Z) (s : Segment) (m : Shm) : outcome (bool * Segment * Shm) :=
  bind (Recreate_drop s m) (fun '(s1, m1) => Ret (Recreate_make e msg_size s1 m1)).

(** ** Blocks to write *)

(** [WritableBlock], which is [ReadableBlock] too: the block pointer is its object. *)
Record WritableBlock := mkWB { index : Z; block : nat; buf : option Z }.

(** The first line of [AcquireBlockToWrite], up to the construction of what it makes, and that of
    [AcquireBlockToRead]. *)
Definition open_to_write (e : Sys) (s : Segment) (m : Shm) : opening :=
  if init_ s then Opened true s m else OpenOrMake e s m.

Definition open_to_read (e : Sys) (s : Segment) (m : Shm) : bool * Segment * Shm :=
  if init_ s then (true, s, m) else OpenOnly e s m.

(** Whether the handle must be mapped again. *)
Definition stale (s : Segment) (m : Shm) : outcome bool :=
  bind (object_of (state_ s) m) (fun '(_, ob) => Ret (need_remap_ (state ob))).

(** Whether the blocks of the handle are too small. *)
Definition too_small (msg_size : Z) (s : Segment) : bool := ceiling_msg_size_ (conf_ s) <? msg_size.

(** [AcquireBlockToWrite] before it looks for a block: the first opening, the remapping and
    the recreation have their own system calls. *)
Definition prepare_write (e1 e2 e3 : Sys) (msg_size : Z) (s : Segment) (m : Shm)
    : outcome (bool * Segment * Shm) :=
  let '(ok, s, m) := match open_to_write e1 s m with Opened r s m => (r, s, m) | Made o s m => Finish e1 o s m end in
  if negb ok then Ret (false, s, m)
  else
    bind (stale s m) (fun remap =>
      let '(result, s, m) := if remap : bool then Remap e2 s m else (true, s, m) in
      if too_small msg_size s then Recreate e3 msg_size s m else Ret (result, s, m)).

(** The two halves of an iteration of [GetNextWritableBlockIndex]. *)
Definition next_index (s : Segment) (m : Shm) : outcome (Z * Shm) :=
  bind (object_of (state_ s) m) (fun '(o, ob) =>
    let '(seq, st) := FetchAddSeq 1 (state ob) in
    Ret (seq mod block_num_ (conf_ s), with_object o (on_state (fun _ => st)) m)).

Definition try_write (try_idx : Z) (s : Segment) (m : Shm) : outcome (bool * Shm) :=
  bind (object_of (blocks_ s) m) (fun '(o, ob) =>
    match blocks ob !! Z.to_nat try_idx with
    | None => Crash
    | Some b => let '(ok, b') := TryLockForWrite b in Ret (ok, with_object o (on_block try_idx (fun _ => b')) m)
    end).

Fixpoint GetNextWritableBlockIndex (fuel : nat) (s : Segment) (m : Shm) : outcome (Z * Shm) :=
  match fuel with
  | O => Spin
  | S fuel' =>
      bind (next_index s m) (fun '(try_idx, m1) =>
      bind (try_write try_idx s m1) (fun '(ok, m2) =>
        if ok : bool then Ret (try_idx, m2) else GetNextWritableBlockIndex fuel' s m2))
  end.

(** The [WritableBlock] for an index: [block_buf_addrs_[index]] is null when there is none. *)
Definition block_at (i : Z) (s : Segment) : WritableBlock :=
  mkWB i (default O (blocks_ s)) (block_buf_addrs_ s !! i).

Definition AcquireBlockToWrite (e1 e2 e3 : Sys) (fuel : nat) (msg_size : Z) (s : Segment) (m : Shm)
    : outcome (option WritableBlock * Segment * Shm) :=
  bind (prepare_write e1 e2 e3 msg_size s m) (fun '(result, s, m) =>
    if negb result then Ret (None, s, m)
    else bind (GetNextWritableBlockIndex fuel s m) (fun '(i, m) => Ret (Some (block_at i s), s, m))).

(** A change of the block of an index, [blocks_[index]]. *)
Definition change_block (i : Z) (f : Block -> Block) (s : Segment) (m : Shm) : outcome Shm :=
  bind (object_of (blocks_ s) m) (fun '(o, ob) =>
    match blocks ob !! Z.to_nat i with
    | None => Crash
    | Some _ => Ret (with_object o (on_block i f) m)
    end).

Definition ReleaseWrittenBlock (wb : WritableBlock) (s : Segment) (m : Shm) : outcome Shm :=
  if block_num_ (conf_ s) <=? index wb then Ret m else change_block (index wb) ReleaseWriteLock s m.

(** ** Blocks to read *)

(** Whether the handle has no block of this index. *)
Definition no_block (i : Z) (s : Segment) : bool := block_num_ (conf_ s) <=? i.

(** [AcquireBlockToRead] before it locks the block. *)
Definition prepare_read (e1 e2 : Sys) (i : Z) (s : Segment) (m : Shm) : outcome (bool * Segment * Shm) :=
  let '(ok, s, m) := open_to_read e1 s m in
  if negb ok then Ret (false, s, m)
  else if no_block i s then Ret (false, s, m)
  else bind (stale s m) (fun remap => if remap : bool then Ret (Remap e2 s m) else Ret (true, s, m)).

Definition try_read (fails : nat) (i : Z) (s : Segment) (m : Shm) : outcome (option WritableBlock * Shm) :=
  bind (object_of (blocks_ s) m) (fun '(o, ob) =>
    match blocks ob !! Z.to_nat i with
    | None => Crash
    | Some b =>
        let '(ok, b') := TryLockForRead fails b in
        if negb ok then Ret (None, m) else Ret (Some (block_at i s), with_object o (on_block i (fun _ => b')) m)
    end).

Definition AcquireBlockToRead (e1 e2 : Sys) (fails : nat) (i : Z) (s : Segment) (m : Shm)
    : outcome (option WritableBlock * Segment * Shm) :=
  bind (prepare_read e1 e2 i s m) (fun '(result, s, m) =>
    if negb result then Ret (None, s, m)
    else bind (try_read fails i s m) (fun '(rb, m) => Ret (rb, s, m))).

Definition ReleaseReadBlock (rb : WritableBlock) (s : Segment) (m : Shm) : outcome Shm :=
  if block_num_ (conf_ s) <=? index rb then Ret m else change_block (index rb) ReleaseReadLock s m.
End segment.

(** ** What the methods promise *)

Definition conf_of (ob : Object) : ShmConf := Update (st_ceiling_msg_size_ (state ob)).

(** An object whose state and blocks were constructed. *)
Record built (ob : Object) : Prop := {
  built_ceiling : ceiling_msg_size_ (conf_of ob) = st_ceiling_msg_size_ (state ob);
  built_blocks : length (blocks ob) = Z.to_nat (block_num_ (conf_of ob));
  built_size : obj_size ob = managed_shm_size_ (conf_of ob);
}.

(** Names lead to objects made under them; an object that is not built, because it is being made
    or was abandoned, has no blocks. *)
Record world_ok (m : Shm) : Prop := {
  wo_names : forall n o, names m !! n = Some o -> exists ob, objects m !! o = Some ob /\ obj_key ob = n;
  wo_objects : forall o ob, objects m !! o = Some ob -> built ob \/ blocks ob = [];
}.

(** Two versions of an object that only differ in the counters and flags of the state. *)
Record same_data (ob ob' : Object) : Prop := {
  sd_key : obj_key ob' = obj_key ob;
  sd_size : obj_size ob' = obj_size ob;
  sd_ceiling : st_ceiling_msg_size_ (state ob') = st_ceiling_msg_size_ (state ob);
  sd_blocks : blocks ob' = blocks ob;
  sd_mem : mem ob' = mem ob;
}.

Definition fresh (ob : Object) : Prop := Forall (eq block_new) (blocks ob).

(** The objects that were there keep their data, and the others are new. *)
Record grows (m m' : Shm) : Prop := {
  gr_old : forall o ob, objects m !! o = Some ob -> exists ob', objects m' !! o = Some ob' /\ same_data ob ob';
  gr_new : forall o ob', objects m !! o = None -> objects m' !! o = Some ob' -> fresh ob';
}.

(** A handle that is initialised has mapped an object of its name and knows its layout. *)
Definition mapped (key : Z) (s : Segment) (m : Shm) : Prop :=
  exists o ob, state_ s = Some o /\ blocks_ s = Some o /\ objects m !! o = Some ob /\
    built ob /\ obj_key ob = key /\ conf_ s = conf_of ob /\
    (forall i, 0 <= i < block_num_ (conf_ s) -> block_buf_addrs_ s !! i = Some (buf_addr (conf_ s) i)).

Definition handle_ok (key : Z) (s : Segment) (m : Shm) : Prop :=
  (exists n, conf_ s = Update n) /\ (init_ s = true -> mapped key s m).

(** What the handle has mapped was constructed: its creator had finished. *)
Definition finished (s : Segment) (m : Shm) : Prop :=
  init_ s = true -> forall o ob, state_ s = Some o -> objects m !! o = Some ob -> blocks ob <> [].

Record evolves (key : Z) (s : Segment) (m : Shm) (s' : Segment) (m' : Shm) : Prop := {
  ev_channel : channel_id_ s' = channel_id_ s;
  ev_world : world_ok m';
  ev_grows : grows m m';
  ev_conf : exists n, conf_ s' = Update n;
  ev_handle : finished s' m' -> handle_ok key s' m';
}.

(** The object a handle is making. *)
Definition made (key : Z) (o : nat) (s : Segment) (m : Shm) : Prop :=
  init_ s = false /\ exists ob, objects m !! o = Some ob /\ blocks ob = [] /\ obj_key ob = key /\
    obj_size ob = managed_shm_size_ (conf_ s).

Class SegmentLaws (K : SegmentKind) : Prop := {
  open_only_law : forall e s m r s' m',
    world_ok m -> handle_ok (shm_key (channel_id_ s)) s m -> OpenOnly e s m = (r, s', m') ->
    evolves (shm_key (channel_id_ s)) s m s' m' /\ (r = true -> init_ s' = true) /\
    (r = false -> state_ s' = state_ s);
  open_or_make_law : forall e s m,
    world_ok m -> handle_ok (shm_key (channel_id_ s)) s m ->
    match OpenOrMake e s m with
    | Opened r s' m' => evolves (shm_key (channel_id_ s)) s m s' m' /\ (r = true -> init_ s' = true)
    | Made o s' m' => evolves (shm_key (channel_id_ s)) s m s' m' /\ made (shm_key (channel_id_ s)) o s' m' /\
        objects m !! o = None
    end;
  discard_law : forall o s m,
    world_ok m -> objects (Discard o s m) = objects m /\
    (forall n o', names (Discard o s m) !! n = Some o' -> names m !! n = Some o');
  remove_law : forall s m r m',
    world_ok m -> Remove s m = (r, m') ->
    objects m' = objects m /\ (forall n o, names m' !! n = Some o -> names m !! n = Some o);
}.

(** ** Consequences for every kind *)

Lemma same_data_refl ob : same_data ob ob.
Proof. by constructor. Qed.

Lemma same_data_built ob ob' : same_data ob ob' -> built ob -> built ob'.
Proof.
  intros [H1 H2 H3 H4 H5] [B1 B2 B3]. constructor; unfold conf_of in *; rewrite ?H2, ?H3, ?H4; done.
Qed.

Lemma same_data_conf ob ob' : same_data ob ob' -> conf_of ob' = conf_of ob.
Proof. intros [? ? H3 ? ?]. unfold conf_of. by rewrite H3. Qed.

Lemma grows_refl m : grows m m.
Proof. constructor; [eauto using same_data_refl|congruence]. Qed.

Lemma same_data_fresh ob ob' : same_data ob ob' -> fresh ob -> fresh ob'.
Proof. intros [? ? ? H ?]. unfold fresh. by rewrite H. Qed.

Lemma grows_trans m1 m2 m3 : grows m1 m2 -> grows m2 m3 -> grows m1 m3.
Proof.
  intros [O1 N1] [O2 N2]. constructor.
  - intros o ob H1. destruct (O1 _ _ H1) as (ob2 & H2 & S2). destruct (O2 _ _ H2) as (ob3 & H3 & S3).
    exists ob3. split; [done|]. destruct S2, S3. constructor; congruence.
  - intros o ob' H1 H3. destruct (objects m2 !! o) as [ob2|] eqn:H2; [|by eapply N2].
    destruct (O2 _ _ H2) as (ob3 & H3' & S3). assert (ob3 = ob') as -> by congruence.
    eapply same_data_fresh; [done|]. by eapply N1.
Qed.

(** Changing the counters and flags of one object. *)
Lemma on_state_same f ob :
  st_ceiling_msg_size_ (f (state ob)) = st_ceiling_msg_size_ (state ob) -> same_data ob (on_state f ob).
Proof. intros H. by constructor. Qed.

Lemma with_object_lookup o f m o' :
  objects (with_object o f m) !! o' = if decide (o = o') then f <$> objects m !! o' else objects m !! o'.
Proof.
  cbn. case_decide as H; [subst; apply list_lookup_alter_eq|by apply list_lookup_alter_ne].
Qed.

Lemma with_state_grows o f m :
  (forall st, st_ceiling_msg_size_ (f st) = st_ceiling_msg_size_ st) -> grows m (with_object o (on_state f) m).
Proof.
  intros Hf. constructor; intros o' ob.
  - intros H. rewrite with_object_lookup, H. case_decide; [|eauto using same_data_refl].
    exists (on_state f ob). split; [done|]. by apply on_state_same.
  - rewrite with_object_lookup. intros -> H. by case_decide.
Qed.

(** Growth that gives no new names keeps the world in order. *)
Lemma grows_world m m' :
  world_ok m -> grows m m' -> length (objects m') = length (objects m) ->
  (forall n o, names m' !! n = Some o -> names m !! n = Some o) -> world_ok m'.
Proof.
  intros [W1 W2] [O N] Hlen Hn. constructor.
  - intros n o H. destruct (W1 n o (Hn _ _ H)) as (ob & H1 & H2). destruct (O _ _ H1) as (ob' & H1' & S).
    exists ob'. split; [done|]. destruct S; congruence.
  - intros o ob' H'. destruct (objects m !! o) as [ob|] eqn:H.
    + destruct (O _ _ H) as (ob2 & H2 & S). assert (ob2 = ob') as -> by congruence.
      destruct (W2 _ _ H) as [B|B]; [left; by eapply same_data_built|right]. destruct S; congruence.
    + apply lookup_lt_Some in H'. apply lookup_ge_None_1 in H. lia.
Qed.

Lemma mapped_grows key s m m' : mapped key s m -> grows m m' -> mapped key s m'.
Proof.
  intros (o & ob & H1 & H2 & H3 & H4 & H5 & H6 & H7) [O _]. destruct (O _ _ H3) as (ob' & H3' & S).
  exists o, ob'. do 3 (split; [done|]). split; [by eapply same_data_built|].
  split; [destruct S; congruence|]. split; [|done]. by rewrite (same_data_conf _ _ S).
Qed.

Lemma handle_grows key s m m' : handle_ok key s m -> grows m m' -> handle_ok key s m'.
Proof. intros [H1 H2] Hg. split; [done|]. eauto using mapped_grows. Qed.

Lemma evolves_trans key s1 m1 s2 m2 s3 m3 :
  evolves key s1 m1 s2 m2 -> evolves key s2 m2 s3 m3 -> evolves key s1 m1 s3 m3.
Proof. intros [] []. constructor; [congruence|done|by eapply grows_trans|done|done]. Qed.

Lemma evolves_refl key s m : world_ok m -> handle_ok key s m -> evolves key s m s m.
Proof. intros W H. constructor; eauto using grows_refl. apply H. Qed.

(** The handle that opens, remaps or recreates need not be the one that began. *)
Lemma evolves_from key s0 s m s' m' :
  channel_id_ s = channel_id_ s0 -> evolves key s m s' m' -> evolves key s0 m s' m'.
Proof. intros H []. constructor; [congruence|done..]. Qed.

(** The state of an initialised handle can be dereferenced. *)
Lemma object_of_mapped key s m :
  mapped key s m -> exists o ob, object_of (state_ s) m = Ret (o, ob) /\ object_of (blocks_ s) m = Ret (o, ob) /\
    objects m !! o = Some ob /\ built ob /\ conf_ s = conf_of ob /\ state_ s = Some o /\ blocks_ s = Some o /\ obj_key ob = key.
Proof.
  intros (o & ob & H1 & H2 & H3 & H4 & H5 & H6 & H7). exists o, ob. unfold object_of. by rewrite H1, H2, H3.
Qed.

Section laws.
Context `{K : SegmentKind} `{L : !SegmentLaws K}.

Abbreviation key s := (shm_key (channel_id_ s)).

Lemma same_objects_grow m m' :
  world_ok m -> objects m' = objects m -> (forall n o, names m' !! n = Some o -> names m !! n = Some o) ->
  grows m m' /\ world_ok m'.
Proof.
  intros W H1 H2. assert (G : grows m m') by (constructor; rewrite H1; [eauto using same_data_refl|congruence]).
  split; [done|]. eapply grows_world; [done|done|by rewrite H1|done].
Qed.

Lemma Remove_grows s m : world_ok m -> grows m (snd (Remove s m)) /\ world_ok (snd (Remove s m)).
Proof.
  intros W. destruct (Remove s m) as [r m'] eqn:E. destruct (remove_law s m r m' W E). by apply same_objects_grow.
Qed.

Lemma Reset_ok k s m : handle_ok k s m -> handle_ok k (Reset (set_init false s)) m.
Proof. intros [H _]. split; [exact H|done]. Qed.

Lemma Remap_evolves e s m r s' m' :
  world_ok m -> handle_ok (key s) s m -> Remap e s m = (r, s', m') ->
  evolves (key s) s m s' m' /\ (r = true -> init_ s' = true).
Proof.
  intros W H E. unfold Remap in E.
  destruct (open_only_law e (Reset (set_init false s)) m r s' m' W (Reset_ok _ _ _ H) E) as (V & Hi & _).
  split; [|done]. by apply (evolves_from _ _ (Reset (set_init false s))).
Qed.

Lemma Recreate_mark_evolves s m s' m' :
  world_ok m -> handle_ok (key s) s m -> Recreate_mark s m = Ret (s', m') -> evolves (key s) s m s' m' /\ init_ s' = false.
Proof.
  intros W H E. unfold Recreate_mark in E. destruct (object_of _ m) as [[o ob]| |]; [|done..]. injection E as <- <-.
  split; [|done]. assert (G : grows m (with_object o (on_state (set_need_remap true)) m)) by (by apply with_state_grows).
  constructor; [done| |done|apply H|intros _; split; [apply H|done]].
  eapply grows_world; [done|done| |done]. cbn. by rewrite length_alter.
Qed.

Lemma open_to_write_evolves e s m :
  world_ok m -> handle_ok (key s) s m ->
  match open_to_write e s m with
  | Opened r s' m' => evolves (key s) s m s' m' /\ (r = true -> init_ s' = true)
  | Made o s' m' => evolves (key s) s m s' m' /\ made (key s) o s' m' /\ objects m !! o = None
  end.
Proof.
  intros W H. unfold open_to_write. destruct (init_ s) eqn:Hi; [by split; [apply evolves_refl|]|]. by apply open_or_make_law.
Qed.

Lemma open_to_read_evolves e s m r s' m' :
  world_ok m -> handle_ok (key s) s m -> open_to_read e s m = (r, s', m') ->
  evolves (key s) s m s' m' /\ (r = true -> init_ s' = true).
Proof.
  intros W H. unfold open_to_read. destruct (init_ s) eqn:Hi; [intros [= <- <- <-]; by split; [apply evolves_refl|]|].
  intros E. by destruct (open_only_law e s m r s' m' W H E) as (? & ? & _).
Qed.

(** Constructing what was made: nobody had mapped it. *)
Lemma Finish_fails e o s m :
  world_ok m -> handle_ok (key s) s m -> init_ s = false -> mmap_fails e = true ->
  exists s' m', Finish e o s m = (false, s', m') /\ evolves (key s) s m s' m' /\ init_ s' = false.
Proof.
  intros W H Hi Hf. unfold Finish. rewrite Hf. eexists _, _. split; [done|]. split; [|done].
  destruct (discard_law o s m W) as [D1 D2]. destruct (same_objects_grow _ _ W D1 D2) as [G W'].
  constructor; [done|done|done|apply H|]. intros _. split; [apply H|]. cbn. congruence.
Qed.

(** A state that changes its counters and flags only. *)
Lemma with_state_evolves o st s m :
  world_ok m -> handle_ok (key s) s m ->
  (forall ob, objects m !! o = Some ob -> st_ceiling_msg_size_ st = st_ceiling_msg_size_ (state ob)) ->
  let m' := with_object o (on_state (fun _ => st)) m in grows m m' /\ world_ok m' /\ handle_ok (key s) s m'.
Proof.
  intros W H Hst m'. assert (G : grows m m').
  { constructor; intros o' ob; subst m'; rewrite with_object_lookup.
    - intros Ho. rewrite Ho. case_decide; [subst|eauto using same_data_refl].
      exists (on_state (fun _ => st) ob). split; [done|]. apply on_state_same. by apply Hst.
    - intros -> Ho. by case_decide. }
  split; [done|]. split; [|by eapply handle_grows].
  eapply grows_world; [done|done| |done]. subst m'. cbn. by rewrite length_alter.
Qed.

Lemma Destroy_evolves s m :
  world_ok m -> handle_ok (key s) s m ->
  exists r s' m', Destroy s m = Ret (r, s', m') /\ grows m m' /\ world_ok m'.
Proof.
  intros W H. unfold Destroy. destruct (init_ s) eqn:Hi; cbn [negb].
  2: { exists true, s, m. split; [done|]. split; [apply grows_refl|done]. }
  destruct (object_of_mapped _ _ _ (proj2 H Hi)) as (o & ob & -> & _ & Ho & _). cbn [bind].
  set (st := DecreaseReferenceCounts (state ob)).
  destruct (with_state_evolves o st s m W H) as (G1 & W1 & H1).
  { intros ob' Ho'. assert (ob' = ob) as -> by congruence. subst st. unfold DecreaseReferenceCounts.
    by destruct (_ =? 0). }
  set (m1 := with_object o (on_state (fun _ => st)) m) in *.
  destruct (reference_count_ st =? 0).
  - destruct (Remove_grows s m1 W1) as (G2 & W2). destruct (Remove s m1) as [r m2]. cbn in *.
    exists r, (set_init false s), m2. split; [done|]. split; [by eapply grows_trans|done].
  - exists true, (set_init false s), m1. done.
Qed.

Lemma next_index_evolves s m :
  world_ok m -> handle_ok (key s) s m -> init_ s = true ->
  exists i m', next_index s m = Ret (i, m') /\ 0 <= i < block_num_ (conf_ s) /\
    grows m m' /\ world_ok m' /\ handle_ok (key s) s m'.
Proof.
  intros W H Hi. unfold next_index.
  destruct (object_of_mapped _ _ _ (proj2 H Hi)) as (o & ob & -> & _ & Ho & _). cbn [bind FetchAddSeq].
  eexists _, _. split; [reflexivity|]. split.
  { destruct H as [[n ->] _]. apply Z.mod_pos_bound. apply block_num_pos. }
  apply with_state_evolves; [done|done|]. intros ob' Ho'. by assert (ob' = ob) as -> by congruence.
Qed.
End laws.
