(* ===== verification/ShmKinds.v ===== *)
(** * ShmKinds: POSIX and System V shared memory

    Models [cyber/transport/shm/posix_segment.{h,cc}] and [xsi_segment.{h,cc}]: opening, creating
    and removing the memory of a channel.  A POSIX object is named by the decimal channel
    identifier, which the model identifies with the number; a System V segment by the
    identifier truncated to [key_t], 32 bits (the key 0, [IPC_PRIVATE], apart). *)

From S2P Require Import Prelude ShmConf ShmMessage ShmSegment.

Module Posix.

Definition shm_key (channel_id : Z) : Z := channel_id.

Definition OpenOnly (e : Sys) (s : Segment) (m : Shm) : bool * Segment * Shm :=
  if init_ s then (true, s, m)
  else if open_fails e then (false, s, m)
  else
    match names m !! shm_key (channel_id_ s) with
    | None => (false, s, m)
    | Some o =>
        if fstat_fails e then (false, s, m)
        else
          match objects m !! o with
          | None => (false, s, m)
          | Some ob =>
              if mmap_fails e || (obj_size ob =? 0) then (false, set_managed MapFailed s, m)
              else (true, attach o (st_ceiling_msg_size_ (state ob)) s,
                    with_object o (on_state IncreaseReferenceCounts) m)
          end
    end.

(** [shm_open] and [ftruncate]. *)
Definition OpenOrMake (e : Sys) (s : Segment) (m : Shm) : opening :=
  if init_ s then Opened true s m
  else if open_fails e then Opened false s m
  else
    match names m !! shm_key (channel_id_ s) with
    | Some _ => let '(r, s, m) := OpenOnly e s m in Opened r s m
    | None =>
        if ftruncate_fails e then Opened false s (snd (create (shm_key (channel_id_ s)) 0 m))
        else let '(o, m1) := create (shm_key (channel_id_ s)) (managed_shm_size_ (conf_ s)) m in Made o s m1
    end.

(** The name is removed, whatever it leads to. *)
Definition Discard (_ : nat) (s : Segment) (m : Shm) : Shm := shm_unlink (shm_key (channel_id_ s)) m.

Definition Remove (s : Segment) (m : Shm) : bool * Shm :=
  match names m !! shm_key (channel_id_ s) with
  | None => (false, m)
  | Some _ => (true, shm_unlink (shm_key (channel_id_ s)) m)
  end.

End Posix.

#[export] Instance PosixSegment : SegmentKind := {|
  ShmSegment.shm_key := Posix.shm_key;
  ShmSegment.OpenOnly := Posix.OpenOnly;
  ShmSegment.OpenOrMake := Posix.OpenOrMake;
  ShmSegment.Discard := Posix.Discard;
  ShmSegment.Remove := Posix.Remove;
|}.

Module Xsi.

(** [static_cast<key_t>(channel_id)]. *)
Definition shm_key (channel_id : Z) : Z := wrap_i32 channel_id.

(** ([shmget] makes no segment of size 0, so that there is none to attach.) *)
Definition OpenOnly (e : Sys) (s : Segment) (m : Shm) : bool * Segment * Shm :=
  if init_ s then (true, s, m)
  else if open_fails e then (false, s, m)
  else
    match names m !! shm_key (channel_id_ s) with
    | None => (false, s, m)
    | Some o =>
        match objects m !! o with
        | None => (false, s, m)
        | Some ob =>
            if mmap_fails e || (obj_size ob =? 0) then (false, set_managed MapFailed s, m)
            else (true, attach o (st_ceiling_msg_size_ (state ob)) s,
                  with_object o (on_state IncreaseReferenceCounts) m)
        end
    end.

Definition Remove (s : Segment) (m : Shm) : bool * Shm :=
  match names m !! shm_key (channel_id_ s) with
  | None => (false, m)
  | Some _ => (true, shm_unlink (shm_key (channel_id_ s)) m)
  end.

(** The loop around [shmget]: at most two attempts; when the size is refused the handle is reset
    and the memory removed.  [retry] counts down; the result is what to do next. *)
Inductive get_result := Created | Exists | Failed.

Fixpoint shmget_loop (retry einval : nat) (e : Sys) (s : Segment) (m : Shm) : get_result * Segment * Shm :=
  match retry with
  | O => (Failed, s, m)
  | S retry' =>
      match einval with
      | S einval' => shmget_loop retry' einval' e (Reset s) (snd (Remove (Reset s) m))
      | O =>
          match names m !! shm_key (channel_id_ s) with
          | Some _ => (Exists, s, m)
          | None => if open_fails e then (Failed, s, m) else (Created, s, m)
          end
      end
  end.

Definition OpenOrMake (e : Sys) (s : Segment) (m : Shm) : opening :=
  if init_ s then Opened true s m
  else
    match shmget_loop 2 (einval_times e) e s m with
    | (Failed, s, m) => Opened false s m
    | (Exists, s, m) => let '(r, s, m) := OpenOnly e s m in Opened r s m
    | (Created, s, m) =>
        let '(o, m1) := create (shm_key (channel_id_ s)) (managed_shm_size_ (conf_ s)) m in Made o s m1
    end.

(** The segment itself is removed. *)
Definition Discard (o : nat) (s : Segment) (m : Shm) : Shm :=
  if bool_decide (names m !! shm_key (channel_id_ s) = Some o) then shm_unlink (shm_key (channel_id_ s)) m else m.

End Xsi.

#[export] Instance XsiSegment : SegmentKind := {|
  ShmSegment.shm_key := Xsi.shm_key;
  ShmSegment.OpenOnly := Xsi.OpenOnly;
  ShmSegment.OpenOrMake := Xsi.OpenOrMake;
  ShmSegment.Discard := Xsi.Discard;
  ShmSegment.Remove := Xsi.Remove;
|}.

(** ** The laws *)

Lemma add_addrs_lookup c n addrs i :
  0 <= i < Z.of_nat n -> add_addrs c n addrs !! i = Some (buf_addr c i).
Proof.
  induction n as [|n IH]; intros Hi; [lia|]. cbn. destruct (decide (i = Z.of_nat n)) as [->|Hne].
  - by rewrite lookup_insert_eq.
  - rewrite lookup_insert_ne by done. apply IH. lia.
Qed.

(** Mapping an object that is there. *)
Lemma attach_existing o ob s m k :
  world_ok m -> names m !! k = Some o -> objects m !! o = Some ob ->
  evolves k s m (attach o (st_ceiling_msg_size_ (state ob)) s) (with_object o (on_state IncreaseReferenceCounts) m).
Proof.
  intros W Hn Ho. set (m' := with_object _ _ m).
  assert (G : grows m m') by (by apply with_state_grows). constructor; [done| |done|by eexists|].
  - eapply grows_world; [done|done| |done]. subst m'. cbn. by rewrite length_alter.
  - intros Hf. split; [by eexists|]. intros _. eapply (mapped_grows _ _ m m'); [|done]. exists o, ob.
    assert (Ho' : objects m' !! o = Some (on_state IncreaseReferenceCounts ob)).
    { subst m'. by rewrite with_object_lookup, decide_True, Ho. }
    pose proof (Hf eq_refl o _ eq_refl Ho') as Hne. cbn in Hne.
    do 3 (split; [done|]). split; [by destruct (wo_objects _ W _ _ Ho)|]. split.
    + destruct (wo_names _ W _ _ Hn) as (ob' & Ho1 & Hk). congruence.
    + split; [done|]. cbn [attach conf_ block_buf_addrs_]. intros i Hi. apply add_addrs_lookup.
      pose proof (block_num_pos (st_ceiling_msg_size_ (state ob))). lia.
Qed.

(** Changing the last of the objects, which is new, leaves the others alone. *)
Lemma grows_app m ob nm : fresh ob -> grows m (mkShm nm (objects m ++ [ob])).
Proof.
  intros Hf. constructor; cbn; intros o ob' H.
  - exists ob'. split; [by apply lookup_app_l_Some|apply same_data_refl].
  - intros H'. apply lookup_ge_None_1 in H. rewrite lookup_app_r in H' by done.
    apply list_lookup_singleton_Some in H' as [_ <-]. done.
Qed.

Lemma world_app m ob k :
  world_ok m -> obj_key ob = k -> blocks ob = [] ->
  world_ok (mkShm (<[k := length (objects m)]> (names m)) (objects m ++ [ob])).
Proof.
  intros [W1 W2] Hk Hb. constructor; cbn.
  - intros n o H. apply lookup_insert_Some in H as [[<- <-]|[_ H]].
    + exists ob. by rewrite lookup_snoc_eq.
    + destruct (W1 _ _ H) as (ob' & H1 & H2). exists ob'. split; [by apply lookup_app_l_Some|done].
  - intros o ob' H. apply lookup_app_Some in H as [H|[_ H]]; [by eapply W2|].
    apply list_lookup_singleton_Some in H as [_ <-]. by right.
Qed.

Definition new_object (k : Z) (c : ShmConf) : Object :=
  on_state IncreaseReferenceCounts (construct c (mkObject k (managed_shm_size_ c) (mkState false 0 0 0) [] ∅)).

Lemma new_object_built k n : built (new_object k (Update n)) /\ fresh (new_object k (Update n)).
Proof.
  split.
  - constructor; unfold conf_of; cbn [new_object on_state construct state blocks obj_size state_new
      IncreaseReferenceCounts st_ceiling_msg_size_]; rewrite ?Update_ceiling; [done|by rewrite length_replicate|done].
  - unfold fresh. cbn. by apply Forall_replicate.
Qed.

Lemma create_eq k c m :
  let '(o, m1) := create k (managed_shm_size_ c) m in
  with_object o (fun ob => on_state IncreaseReferenceCounts (construct c ob)) m1 =
    mkShm (<[k := length (objects m)]> (names m)) (objects m ++ [new_object k c]).
Proof.
  unfold create, with_object. cbn. f_equal. unfold alter.
  induction (objects m) as [|x l IH]; [done|]. cbn. by rewrite IH.
Qed.

(** An operation that leaves the handle closed. *)
Lemma closed_evolves k s s' m m' :
  (exists n, conf_ s = Update n) -> conf_ s' = conf_ s -> init_ s' = false -> channel_id_ s' = channel_id_ s ->
  world_ok m' -> grows m m' -> evolves k s m s' m'.
Proof.
  intros [n Hc] Hc' Hi Hch W G. assert (H : exists n, conf_ s' = Update n) by (exists n; congruence).
  constructor; [done..|]. intros _. split; [done|congruence].
Qed.

(** Making an object. *)
Lemma create_made k size s m :
  world_ok m -> handle_ok k s m -> init_ s = false ->
  let '(o, m1) := create k size m in
  evolves k s m s m1 /\ objects m !! o = None /\
  exists ob, objects m1 !! o = Some ob /\ blocks ob = [] /\ obj_key ob = k /\ obj_size ob = size.
Proof.
  intros W H Hi. unfold create. split; [|split].
  - apply closed_evolves; try done; [apply H|by apply world_app|apply grows_app; by constructor].
  - by apply lookup_ge_None_2.
  - eexists. split; [by apply lookup_snoc_eq|done].
Qed.

(** Unlinking a name. *)
Lemma unlink_spec k m :
  objects (shm_unlink k m) = objects m /\ (forall n o, names (shm_unlink k m) !! n = Some o -> names m !! n = Some o).
Proof. cbn. split; [done|]. intros n o H. by apply lookup_delete_Some in H as [_ H]. Qed.

(** A handle that is already initialised, and one whose opening fails at once. *)
Ltac law_init :=
  lazymatch goal with H : _ = (_, _, _) |- _ => injection H as <- <- <- end;
  split; [by apply evolves_refl|by split].

Lemma Posix_open_only e s m r s' m' :
  world_ok m -> handle_ok (Posix.shm_key (channel_id_ s)) s m -> Posix.OpenOnly e s m = (r, s', m') ->
  evolves (Posix.shm_key (channel_id_ s)) s m s' m' /\ (r = true -> init_ s' = true) /\ (r = false -> state_ s' = state_ s).
Proof.
  intros W H E. unfold Posix.OpenOnly in E. destruct (init_ s) eqn:Hi; [law_init|]. destruct (open_fails e); [law_init|].
  destruct (names m !! _) as [o|] eqn:Hn; [|law_init]. destruct (fstat_fails e); [law_init|].
  destruct (objects m !! o) as [ob|] eqn:Ho; [|law_init].
  destruct (mmap_fails e || (obj_size ob =? 0)) eqn:Hz; injection E as <- <- <-; split; try done.
  - apply closed_evolves; try done; [apply H|apply grows_refl].
  - by apply attach_existing.
Qed.

#[export] Instance PosixLaws : SegmentLaws PosixSegment.
Proof.
  constructor; cbn [ShmSegment.shm_key ShmSegment.OpenOnly ShmSegment.OpenOrMake ShmSegment.Discard ShmSegment.Remove PosixSegment].
  - exact Posix_open_only.
  - intros e s m W H. unfold Posix.OpenOrMake.
    destruct (init_ s) eqn:Hi; [by split; [apply evolves_refl|]|]. destruct (open_fails e); [by split; [apply evolves_refl|]|].
    destruct (names m !! _) as [o|] eqn:Hn.
    { destruct (Posix.OpenOnly e s m) as [[r s'] m'] eqn:E.
      destruct (Posix_open_only e s m r s' m' W H E) as (V & V1 & _). by split. }
    destruct (ftruncate_fails e).
    { split; [|done]. by destruct (create_made _ 0 s m W H Hi) as (V & _). }
    pose proof (create_made _ (managed_shm_size_ (conf_ s)) s m W H Hi) as V. destruct (create _ _ m) as [o m1].
    destruct V as (V & Vo & Vob). by split.
  - intros o s m _. apply unlink_spec.
  - intros s m r m' W E. unfold Posix.Remove in E. destruct (names m !! _) eqn:Hn; injection E as <- <-; [apply unlink_spec|done].
Qed.

Lemma Xsi_open_only e s m r s' m' :
  world_ok m -> handle_ok (Xsi.shm_key (channel_id_ s)) s m -> Xsi.OpenOnly e s m = (r, s', m') ->
  evolves (Xsi.shm_key (channel_id_ s)) s m s' m' /\ (r = true -> init_ s' = true) /\ (r = false -> state_ s' = state_ s).
Proof.
  intros W H E. unfold Xsi.OpenOnly in E. destruct (init_ s) eqn:Hi; [law_init|]. destruct (open_fails e); [law_init|].
  destruct (names m !! _) as [o|] eqn:Hn; [|law_init].
  destruct (objects m !! o) as [ob|] eqn:Ho; [|law_init].
  destruct (mmap_fails e || (obj_size ob =? 0)) eqn:Hz; injection E as <- <- <-; split; try done.
  - apply closed_evolves; try done; [apply H|apply grows_refl].
  - by apply attach_existing.
Qed.

Lemma Xsi_remove s m r m' :
  Xsi.Remove s m = (r, m') -> objects m' = objects m /\ (forall n o, names m' !! n = Some o -> names m !! n = Some o).
Proof.
  unfold Xsi.Remove. destruct (names m !! _) eqn:Hn; intros [= <- <-]; [apply unlink_spec|done].
Qed.

(** The loop around [shmget] only resets the handle and unlinks the name. *)
Lemma shmget_loop_spec retry einval e s m g s' m' :
  world_ok m -> Xsi.shmget_loop retry einval e s m = (g, s', m') ->
  conf_ s' = conf_ s /\ init_ s' = init_ s /\ channel_id_ s' = channel_id_ s /\ world_ok m' /\ grows m m' /\ objects m' = objects m.
Proof.
  revert einval s m. induction retry as [|retry IH]; intros einval s m W E; cbn in E.
  { injection E as <- <- <-. split_and!; eauto using grows_refl. }
  destruct einval as [|einval].
  - destruct (names m !! _) eqn:Hn; [|destruct (open_fails e)]; injection E as <- <- <-;
      split_and!; try done; apply grows_refl.
  - destruct (Xsi.Remove (Reset s) m) as [r1 m1] eqn:Er. cbn [snd] in E.
    destruct (Xsi_remove _ _ _ _ Er) as (R1 & R2). destruct (same_objects_grow _ _ W R1 R2) as [G W1].
    destruct (IH einval (Reset s) m1 W1 E) as (I1 & I2 & I3 & I4 & I5 & I6).
    split_and!; try done; [by eapply grows_trans|congruence].
Qed.

#[export] Instance XsiLaws : SegmentLaws XsiSegment.
Proof.
  constructor; cbn [ShmSegment.shm_key ShmSegment.OpenOnly ShmSegment.OpenOrMake ShmSegment.Discard ShmSegment.Remove XsiSegment].
  - exact Xsi_open_only.
  - intros e s m W H. unfold Xsi.OpenOrMake. destruct (init_ s) eqn:Hi; [by split; [apply evolves_refl|]|].
    destruct (Xsi.shmget_loop 2 (einval_times e) e s m) as [[g s1] m1] eqn:El.
    destruct (shmget_loop_spec _ _ _ _ _ _ _ _ W El) as (L1 & L2 & L3 & L4 & L5 & L6).
    assert (V0 : evolves (Xsi.shm_key (channel_id_ s)) s m s1 m1).
    { apply closed_evolves; try done; [apply H|congruence]. }
    assert (H1 : handle_ok (Xsi.shm_key (channel_id_ s1)) s1 m1) by (split; [apply V0|congruence]).
    destruct g.
    + pose proof (create_made _ (managed_shm_size_ (conf_ s1)) s1 m1 L4 H1 ltac:(congruence)) as V.
      destruct (create _ _ m1) as [o m2]. destruct V as (V & Vo & Vob). rewrite <- L6. rewrite L3 in V, Vob.
      split; [by eapply evolves_trans|]. split; [|done]. by split; [congruence|].
    + destruct (Xsi.OpenOnly e s1 m1) as [[r s'] m'] eqn:E.
      destruct (Xsi_open_only e s1 m1 r s' m' L4 H1 E) as (V & V1 & _). rewrite L3 in V.
      split; [by eapply evolves_trans|done].
    + by split.
  - intros o s m _. unfold Xsi.Discard. case_bool_decide; [apply unlink_spec|done].
  - intros s m r m' W E. by eapply Xsi_remove.
Qed.
