(* ===== verification/ShmTransport.v ===== *)
(** * ShmTransport: sending and receiving through shared memory

    Models [cyber/transport/transmitter/shm_transmitter.h] and
    [cyber/transport/dispatcher/shm_dispatcher.{h,cc}] on the segments.  The messages and
    their serialization ([message::ByteSize], [message::SerializeToArray], protobuf's in the
    end) are variables.  What [Transmit] hands to the notifier is its result. *)

From S2P Require Import Prelude ShmConf ShmMessage ShmSegment.

(** Bytes written to and read from a mapped object. *)
Definition store_at (o : nat) (off : Z) (bs : bytes) (m : Shm) : outcome Shm :=
  match objects m !! o with
  | None => Crash
  | Some ob =>
      if off + Z.of_nat (length bs) <=? obj_size ob then Ret (with_object o (on_mem (store off bs)) m) else Crash
  end.

Definition load_at (o : nat) (off : Z) (n : Z) (m : Shm) : outcome bytes :=
  match objects m !! o with
  | None => Crash
  | Some ob => if off + n <=? obj_size ob then Ret (load off (Z.to_nat n) (mem ob)) else Crash
  end.

(** A change through [wb.block]. *)
Definition set_block (wb : WritableBlock) (f : Block -> Block) (m : Shm) : Shm :=
  with_object (block wb) (on_block (index wb) f) m.

(** [SerializeToArray] into [wb.buf] and [set_msg_size]. *)
Definition put_message (bs : bytes) (wb : WritableBlock) (m : Shm) : outcome Shm :=
  match buf wb with
  | None => Crash
  | Some a => bind (store_at (block wb) a bs m) (fun m => Ret (set_block wb (set_msg_size (Z.of_nat (length bs))) m))
  end.

(** [msg_info.SerializeTo] after the message and [set_msg_info_size]. *)
Definition put_info (msg_size : Z) (info : MessageInfo) (wb : WritableBlock) (m : Shm) : outcome (bool * Shm) :=
  match buf wb with
  | None => Crash
  | Some a =>
      match Info.SerializeTo Info.kSize info with
      | None => Ret (false, m)
      | Some bs =>
          bind (store_at (block wb) (a + msg_size) bs m) (fun m =>
            Ret (true, set_block wb (set_msg_info_size (Z.of_nat Info.kSize)) m))
      end
  end.

(** What a reader of a block gets: the bytes of the message and the information, if it has the
    right size. *)
Definition get_message (Hash : bytes -> Z) (rb : WritableBlock) (m : Shm)
    : outcome (option (bytes * MessageInfo)) :=
  match buf rb, objects m !! block rb ≫= (fun ob => blocks ob !! Z.to_nat (index rb)) with
  | Some a, Some b =>
      bind (load_at (block rb) (a + msg_size_ b) (msg_info_size_ b) m) (fun src =>
        match Info.DeserializeFrom Hash src info_new with
        | (true, info) => bind (load_at (block rb) a (msg_size_ b) m) (fun msg => Ret (Some (msg, info)))
        | (false, _) => Ret None
        end)
  | _, _ => Crash
  end.

Section transport.
Context `{K : SegmentKind}.

(** ** The transmitter *)

Record ShmTransmitter := mkTransmitter {
  enabled_ : bool;
  segment_ : option Segment;
  t_channel_id_ : Z;
  t_host_id_ : Z;
}.

Definition transmitter_new (channel_id host_id : Z) : ShmTransmitter :=
  mkTransmitter false None channel_id host_id.

Definition Enable (t : ShmTransmitter) : ShmTransmitter :=
  if enabled_ t then t
  else mkTransmitter true (Some (segment_new (t_channel_id_ t))) (t_channel_id_ t) (t_host_id_ t).

(** Giving up the segment destroys it. *)
Definition Disable (t : ShmTransmitter) (m : Shm) : outcome (ShmTransmitter * Shm) :=
  match enabled_ t, segment_ t with
  | true, Some s =>
      bind (Destroy s m) (fun '(_, _, m) => Ret (mkTransmitter false None (t_channel_id_ t) (t_host_id_ t), m))
  | _, _ => Ret (t, m)
  end.

Section transmit.
Context {M : Type} (ByteSize : M -> Z) (SerializeToArray : M -> Z -> option bytes).

(** The transmitter and the memory after, and what is notified; nothing when the
    transmission failed. *)
Definition Transmit (e1 e2 e3 : Sys) (fuel : nat) (msg : M) (msg_info : MessageInfo)
    (t : ShmTransmitter) (m : Shm) : outcome (option ReadableInfo * ShmTransmitter * Shm) :=
  match enabled_ t, segment_ t with
  | false, _ => Ret (None, t, m)
  | true, None => Crash
  | true, Some s =>
      let msg_size := ByteSize msg in
      bind (AcquireBlockToWrite e1 e2 e3 fuel msg_size s m) (fun '(acquired, s, m) =>
        let t := mkTransmitter (enabled_ t) (Some s) (t_channel_id_ t) (t_host_id_ t) in
        match acquired with
        | None => Ret (None, t, m)
        | Some wb =>
            match SerializeToArray msg msg_size with
            | None => bind (ReleaseWrittenBlock wb s m) (fun m => Ret (None, t, m))
            | Some bs =>
                bind (put_message bs wb m) (fun m =>
                bind (put_info msg_size msg_info wb m) (fun '(ok, m) =>
                bind (ReleaseWrittenBlock wb s m) (fun m =>
                  if ok then Ret (Some (mkReadable (t_host_id_ t) (index wb) (t_channel_id_ t)), t, m)
                  else Ret (None, t, m))))
            end
        end)
  end.
End transmit.

(** ** The dispatcher *)

Definition UINT32_MAX : Z := 4294967295.

Record ShmDispatcher := mkDispatcher {
  d_host_id_ : Z;
  is_shutdown_ : bool;
  segments_ : gmap Z Segment;
  previous_indexes_ : gmap Z Z;
  msg_listeners_ : gset Z;
}.

Definition dispatcher_new (host_id : Z) : ShmDispatcher := mkDispatcher host_id false ∅ ∅ ∅.

Definition AddSegment (channel_id : Z) (d : ShmDispatcher) : ShmDispatcher :=
  match segments_ d !! channel_id with
  | Some _ => d
  | None =>
      mkDispatcher (d_host_id_ d) (is_shutdown_ d) (<[channel_id := segment_new channel_id]> (segments_ d))
        (<[channel_id := UINT32_MAX]> (previous_indexes_ d)) (msg_listeners_ d)
  end.

(** A listener of the channel. *)
Definition AddListener (channel_id : Z) (d : ShmDispatcher) : ShmDispatcher :=
  let d := mkDispatcher (d_host_id_ d) (is_shutdown_ d) (segments_ d) (previous_indexes_ d)
             ({[channel_id]} ∪ msg_listeners_ d) in
  AddSegment channel_id d.

(** The segments are given up, each being destroyed. *)
Fixpoint destroy_all (ss : list Segment) (m : Shm) : outcome Shm :=
  match ss with
  | [] => Ret m
  | s :: ss' => bind (Destroy s m) (fun '(_, _, m) => destroy_all ss' m)
  end.

Definition Shutdown (d : ShmDispatcher) (m : Shm) : outcome (ShmDispatcher * Shm) :=
  if is_shutdown_ d then Ret (d, m)
  else
    bind (destroy_all (snd <$> map_to_list (segments_ d)) m) (fun m =>
      Ret (mkDispatcher (d_host_id_ d) true ∅ (previous_indexes_ d) (msg_listeners_ d), m)).

Section dispatch.
Context (Hash : bytes -> Z).

(** What the handler of the channel is run with. *)
Definition OnMessage (channel_id : Z) (got : bytes * MessageInfo) (d : ShmDispatcher) : option (bytes * MessageInfo) :=
  if is_shutdown_ d then None
  else if decide (channel_id ∈ msg_listeners_ d) then Some got else None.

Definition ReadMessage (e1 e2 : Sys) (fails : nat) (channel_id block_index : Z) (d : ShmDispatcher) (m : Shm)
    : outcome (option (bytes * MessageInfo) * ShmDispatcher * Shm) :=
  match segments_ d !! channel_id with
  | None => Crash
  | Some s =>
      bind (AcquireBlockToRead e1 e2 fails block_index s m) (fun '(acquired, s, m) =>
        let d := mkDispatcher (d_host_id_ d) (is_shutdown_ d) (<[channel_id := s]> (segments_ d))
                   (previous_indexes_ d) (msg_listeners_ d) in
        match acquired with
        | None => Ret (None, d, m)
        | Some rb =>
            bind (get_message Hash rb m) (fun got =>
            bind (ReleaseReadBlock rb s m) (fun m =>
              Ret (got ≫= (fun g => OnMessage channel_id g d), d, m)))
        end)
  end.

(** The body of the loop of [ThreadFunc] after a successful [Listen]. *)
Definition on_readable (e1 e2 : Sys) (fails : nat) (r : ReadableInfo) (d : ShmDispatcher) (m : Shm)
    : outcome (option (bytes * MessageInfo) * ShmDispatcher * Shm) :=
  if negb (host_id_ r =? d_host_id_ d) then Ret (None, d, m)
  else
    match segments_ d !! ShmMessage.channel_id_ r with
    | None => Ret (None, d, m)
    | Some _ =>
        let d := mkDispatcher (d_host_id_ d) (is_shutdown_ d) (segments_ d)
                   (<[ShmMessage.channel_id_ r := block_index_ r]> (previous_indexes_ d)) (msg_listeners_ d) in
        ReadMessage e1 e2 fails (ShmMessage.channel_id_ r) (block_index_ r) d m
    end.
End dispatch.
End transport.
