(* ===== verification/ShmSafety.v ===== *)
(** * ShmSafety: no reader sees a torn message

    Any number of threads, each with its own handle of a segment, write and read blocks in any
    interleaving of the pieces of [ShmTransmitter::Transmit] and of
    [ShmDispatcher::ReadMessage]: opening the memory or making it; constructing what was made;
    testing whether to remap, and remapping; marking the old memory, removing its name, making
    the new one and constructing it; drawing an index, locking a block, copying the message,
    copying the information, releasing; and any system call may fail.  ([OpenOnly] and [Destroy] are one step each.)
    Two races make the code break its promise, and the runs considered are [undisturbed] by
    them: nobody maps memory that its creator has not constructed yet (whose locks the creator
    would reset), and nobody gets out of a recreation with blocks too small for its message
    (which [ShmDelivery.resize_races] shows to happen).  The proofs are against the laws of
    [SegmentKind], and hold for both kinds. *)

From S2P Require Import Prelude ShmConf ShmMessage ShmSegment ShmKinds ShmTransport.

(** ** Bytes *)

Lemma length_load off n m : length (load off n m) = n.
Proof. revert off. induction n as [|n IH]; intros off; [done|]. cbn. by rewrite IH. Qed.

Lemma store_outside off bs m a :
  a < off \/ off + Z.of_nat (length bs) <= a -> store off bs m !! a = m !! a.
Proof.
  revert off m. induction bs as [|b bs IH]; intros off m Ha; [done|]. cbn [store length] in *.
  rewrite IH by lia. apply lookup_insert_ne. lia.
Qed.

Lemma load_ext off n m m' :
  (forall a, off <= a < off + Z.of_nat n -> m !! a = m' !! a) -> load off n m = load off n m'.
Proof.
  revert off. induction n as [|n IH]; intros off H; [done|]. cbn. rewrite (H off) by lia. f_equal.
  apply IH. intros a Ha. apply H. lia.
Qed.

Lemma load_store off bs m : load off (length bs) (store off bs m) = bs.
Proof.
  revert off m. induction bs as [|b bs IH]; intros off m; [done|]. cbn [store length load].
  rewrite IH. rewrite store_outside by lia. by rewrite lookup_insert_eq.
Qed.

(** ** The system *)

Inductive pc :=
| Idle
| Creating (o : nat) (msg : bytes) (info : MessageInfo) (* ready to construct what the first opening made *)
| Ready (msg : bytes) (info : MessageInfo)              (* open *)
| Outdated (msg : bytes) (info : MessageInfo)           (* saw that it must remap *)
| Remapped (msg : bytes) (info : MessageInfo)           (* with the current memory, its blocks maybe too small *)
| Marked (msg : bytes) (info : MessageInfo)             (* the old memory is marked, and left *)
| Dropped (msg : bytes) (info : MessageInfo)            (* the old name is removed *)
| Recreating (o : nat) (msg : bytes) (info : MessageInfo)
| Seeking (msg : bytes) (info : MessageInfo)            (* ready to write, no block yet *)
| Trying (i : Z) (msg : bytes) (info : MessageInfo)     (* an index was drawn *)
| Acquired (wb : WritableBlock) (msg : bytes) (info : MessageInfo)
| Half (wb : WritableBlock) (msg : bytes) (info : MessageInfo)      (* the message is copied *)
| Filled (wb : WritableBlock) (msg : bytes) (info : MessageInfo)    (* the information too *)
| Looking (i : Z)                                       (* open, the index is that of a block *)
| Behind (i : Z)                                        (* saw that it must remap *)
| Locking (i : Z)                                       (* ready to read, block not yet locked *)
| Reading (rb : WritableBlock).

Record Thread := mkThread { seg : Segment; at_ : pc }.

(** [sent] and [got] log what was put into blocks and what readers were given, by channel. *)
Record Config := mkConfig {
  shm : Shm;
  threads : list Thread;
  sent : list (Z * bytes * MessageInfo);
  got : list (Z * bytes * MessageInfo);
}.

Abbreviation len l := (Z.of_nat (length l)).

Section safety.
Context `{K : SegmentKind} `{L : !SegmentLaws K} (Hash : bytes -> Z).

Inductive step : Config -> Config -> Prop :=
| write_open m ts st gt i s e msg info r s' m' :
    ts !! i = Some (mkThread s Idle) -> len msg <= MESSAGE_SIZE_MORE -> Info.valid info ->
    open_to_write e s m = Opened r s' m' ->
    step (mkConfig m ts st gt) (mkConfig m' (<[i := mkThread s' (if r : bool then Ready msg info else Idle)]> ts) st gt)
| write_make m ts st gt i s e msg info o s' m' :
    ts !! i = Some (mkThread s Idle) -> len msg <= MESSAGE_SIZE_MORE -> Info.valid info ->
    open_to_write e s m = Made o s' m' ->
    step (mkConfig m ts st gt) (mkConfig m' (<[i := mkThread s' (Creating o msg info)]> ts) st gt)
| write_finish m ts st gt i s e o msg info r s' m' :
    ts !! i = Some (mkThread s (Creating o msg info)) -> Finish e o s m = (r, s', m') ->
    step (mkConfig m ts st gt) (mkConfig m' (<[i := mkThread s' (if r : bool then Ready msg info else Idle)]> ts) st gt)
| write_test m ts st gt i s msg info b :
    ts !! i = Some (mkThread s (Ready msg info)) -> stale s m = Ret b ->
    step (mkConfig m ts st gt)
      (mkConfig m (<[i := mkThread s (if b : bool then Outdated msg info else Remapped msg info)]> ts) st gt)
| write_remap m ts st gt i s e msg info r s' m' :
    ts !! i = Some (mkThread s (Outdated msg info)) -> Remap e s m = (r, s', m') ->
    step (mkConfig m ts st gt)
      (mkConfig m' (<[i := mkThread s' (if r || too_small (len msg) s' then Remapped msg info else Idle)]> ts) st gt)
| write_large_enough m ts st gt i s msg info :
    ts !! i = Some (mkThread s (Remapped msg info)) -> too_small (len msg) s = false ->
    step (mkConfig m ts st gt) (mkConfig m (<[i := mkThread s (Seeking msg info)]> ts) st gt)
| write_mark m ts st gt i s msg info s' m' :
    ts !! i = Some (mkThread s (Remapped msg info)) -> too_small (len msg) s = true -> Recreate_mark s m = Ret (s', m') ->
    step (mkConfig m ts st gt) (mkConfig m' (<[i := mkThread s' (Marked msg info)]> ts) st gt)
| write_drop m ts st gt i s msg info :
    ts !! i = Some (mkThread s (Marked msg info)) ->
    step (mkConfig m ts st gt) (mkConfig (snd (Remove s m)) (<[i := mkThread s (Dropped msg info)]> ts) st gt)
| write_reopen m ts st gt i s e msg info r s' m' :
    ts !! i = Some (mkThread s (Dropped msg info)) -> OpenOrMake e (set_conf (Update (len msg)) s) m = Opened r s' m' ->
    step (mkConfig m ts st gt) (mkConfig m' (<[i := mkThread s' (if r : bool then Seeking msg info else Idle)]> ts) st gt)
| write_remake m ts st gt i s e msg info o s' m' :
    ts !! i = Some (mkThread s (Dropped msg info)) -> OpenOrMake e (set_conf (Update (len msg)) s) m = Made o s' m' ->
    step (mkConfig m ts st gt) (mkConfig m' (<[i := mkThread s' (Recreating o msg info)]> ts) st gt)
| write_refinish m ts st gt i s e o msg info r s' m' :
    ts !! i = Some (mkThread s (Recreating o msg info)) -> Finish e o s m = (r, s', m') ->
    step (mkConfig m ts st gt) (mkConfig m' (<[i := mkThread s' (if r : bool then Seeking msg info else Idle)]> ts) st gt)
| write_next m ts st gt i s msg info k m' :
    ts !! i = Some (mkThread s (Seeking msg info)) -> next_index s m = Ret (k, m') ->
    step (mkConfig m ts st gt) (mkConfig m' (<[i := mkThread s (Trying k msg info)]> ts) st gt)
| write_try m ts st gt i s k msg info ok m' :
    ts !! i = Some (mkThread s (Trying k msg info)) -> try_write k s m = Ret (ok, m') ->
    step (mkConfig m ts st gt)
      (mkConfig m' (<[i := mkThread s (if ok : bool then Acquired (block_at k s) msg info
                                       else Seeking msg info)]> ts) st gt)
| write_refused m ts st gt i s wb msg info m' :
    ts !! i = Some (mkThread s (Acquired wb msg info)) -> ReleaseWrittenBlock wb s m = Ret m' ->
    step (mkConfig m ts st gt) (mkConfig m' (<[i := mkThread s Idle]> ts) st gt)
| write_message m ts st gt i s wb msg info m' :
    ts !! i = Some (mkThread s (Acquired wb msg info)) -> put_message msg wb m = Ret m' ->
    step (mkConfig m ts st gt) (mkConfig m' (<[i := mkThread s (Half wb msg info)]> ts) st gt)
| write_info m ts st gt i s wb msg info m' :
    ts !! i = Some (mkThread s (Half wb msg info)) -> put_info (len msg) info wb m = Ret (true, m') ->
    step (mkConfig m ts st gt)
      (mkConfig m' (<[i := mkThread s (Filled wb msg info)]> ts) (st ++ [(channel_id_ s, msg, info)]) gt)
| write_end m ts st gt i s wb msg info m' :
    ts !! i = Some (mkThread s (Filled wb msg info)) -> ReleaseWrittenBlock wb s m = Ret m' ->
    step (mkConfig m ts st gt) (mkConfig m' (<[i := mkThread s Idle]> ts) st gt)
| read_open m ts st gt i s e k r s' m' :
    ts !! i = Some (mkThread s Idle) -> 0 <= k -> open_to_read e s m = (r, s', m') ->
    step (mkConfig m ts st gt)
      (mkConfig m' (<[i := mkThread s' (if negb r || no_block k s' then Idle else Looking k)]> ts) st gt)
| read_test m ts st gt i s k b :
    ts !! i = Some (mkThread s (Looking k)) -> stale s m = Ret b ->
    step (mkConfig m ts st gt) (mkConfig m (<[i := mkThread s (if b : bool then Behind k else Locking k)]> ts) st gt)
| read_remap m ts st gt i s e k r s' m' :
    ts !! i = Some (mkThread s (Behind k)) -> Remap e s m = (r, s', m') ->
    step (mkConfig m ts st gt) (mkConfig m' (<[i := mkThread s' (if r : bool then Locking k else Idle)]> ts) st gt)
| read_lock m ts st gt i s fails k rb m' :
    ts !! i = Some (mkThread s (Locking k)) -> try_read fails k s m = Ret (rb, m') ->
    step (mkConfig m ts st gt)
      (mkConfig m' (<[i := mkThread s (match rb with Some rb => Reading rb | None => Idle end)]> ts) st gt)
| read_get m ts st gt i s rb g :
    ts !! i = Some (mkThread s (Reading rb)) -> get_message Hash rb m = Ret g ->
    step (mkConfig m ts st gt)
      (mkConfig m ts st (gt ++ match g with Some (msg, info) => [(channel_id_ s, msg, info)] | None => [] end))
| read_end m ts st gt i s rb m' :
    ts !! i = Some (mkThread s (Reading rb)) -> ReleaseReadBlock rb s m = Ret m' ->
    step (mkConfig m ts st gt) (mkConfig m' (<[i := mkThread s Idle]> ts) st gt)
| close m ts st gt i s r s' m' :
    ts !! i = Some (mkThread s Idle) -> Destroy s m = Ret (r, s', m') ->
    step (mkConfig m ts st gt) (mkConfig m' (<[i := mkThread (segment_new (channel_id_ s)) Idle]> ts) st gt).

(** Whatever is mapped was constructed, and who looks for a block has large enough ones. *)
Definition undisturbed (c : Config) : Prop :=
  forall i t, threads c !! i = Some t -> finished (seg t) (shm c) /\
    forall msg info, at_ t = Seeking msg info -> too_small (len msg) (seg t) = false.

Definition calm_step (c c' : Config) : Prop := step c c' /\ undisturbed c'.

(** Every thread has a new handle of the channel it uses. *)
Definition start (channels : list Z) : Config :=
  mkConfig shm_new ((fun ch => mkThread (segment_new ch) Idle) <$> channels) [] [].

(** ** The invariant *)

(** The block a thread has locked: for writing or not, object, index. *)
Definition grip (t : Thread) : option (bool * nat * nat) :=
  match at_ t with
  | Acquired wb _ _ | Half wb _ _ | Filled wb _ _ => Some (true, block wb, Z.to_nat (index wb))
  | Reading rb => Some (false, block rb, Z.to_nat (index rb))
  | _ => None
  end.

Definition has_grip (w : bool) (o k : nat) (t : Thread) : bool := bool_decide (grip t = Some (w, o, k)).

(** The object a thread is making. *)
Definition maker (t : Thread) : option nat :=
  match at_ t with Creating o _ _ | Recreating o _ _ => Some o | _ => None end.

(** Where the handle is open for sure. *)
Definition ready (p : pc) : bool :=
  match p with
  | Idle | Creating _ _ _ | Remapped _ _ | Marked _ _ | Dropped _ _ | Recreating _ _ _ => false
  | _ => true
  end.

Definition halfway (o k : nat) (t : Thread) : Prop :=
  match at_ t with Half wb _ _ => block wb = o /\ Z.to_nat (index wb) = k | _ => False end.

Definition wb_ok (wb : WritableBlock) (s : Segment) : Prop :=
  0 <= index wb < block_num_ (conf_ s) /\ blocks_ s = Some (block wb) /\
  buf wb = Some (buf_addr (conf_ s) (index wb)).

Definition fits (msg : bytes) (info : MessageInfo) (s : Segment) : Prop :=
  len msg <= ceiling_msg_size_ (conf_ s) /\ Info.valid info.

Definition sendable (msg : bytes) (info : MessageInfo) : Prop := len msg <= MESSAGE_SIZE_MORE /\ Info.valid info.

(** The message is in the block. *)
Definition has_message (msg : bytes) (wb : WritableBlock) (m : Shm) : Prop :=
  forall ob b, objects m !! block wb = Some ob -> blocks ob !! Z.to_nat (index wb) = Some b ->
    msg_size_ b = len msg /\ load (buf_addr (conf_of ob) (index wb)) (length msg) (mem ob) = msg.

Definition pc_ok (s : Segment) (m : Shm) (p : pc) : Prop :=
  match p with
  | Idle => True
  | Creating o msg info | Recreating o msg info => sendable msg info /\ made (shm_key (channel_id_ s)) o s m
  | Ready msg info | Outdated msg info => sendable msg info
  | Remapped msg info => sendable msg info /\ (too_small (len msg) s = false -> init_ s = true)
  | Marked msg info | Dropped msg info => sendable msg info /\ init_ s = false
  | Seeking msg info => fits msg info s
  | Trying k msg info => 0 <= k < block_num_ (conf_ s) /\ fits msg info s
  | Acquired wb msg info | Filled wb msg info => wb_ok wb s /\ fits msg info s
  | Half wb msg info => wb_ok wb s /\ fits msg info s /\ has_message msg wb m
  | Looking k | Behind k | Locking k => 0 <= k
  | Reading rb => wb_ok rb s
  end.

Definition thread_ok (m : Shm) (t : Thread) : Prop :=
  handle_ok (shm_key (channel_id_ (seg t))) (seg t) m /\
  (ready (at_ t) = true -> init_ (seg t) = true) /\ pc_ok (seg t) m (at_ t).

(** A block holds nothing yet, or a message that was sent under the object's name. *)
Definition holds_sent (st : list (Z * bytes * MessageInfo)) (ob : Object) (k : nat) (b : Block) : Prop :=
  msg_info_size_ b = 0 \/
  exists ch msg info, (ch, msg, info) ∈ st /\ shm_key ch = obj_key ob /\ Info.valid info /\
    msg_size_ b = len msg /\ msg_info_size_ b = Z.of_nat Info.kSize /\
    len msg <= ceiling_msg_size_ (conf_of ob) /\
    load (buf_addr (conf_of ob) (Z.of_nat k)) (length msg) (mem ob) = msg /\
    load (buf_addr (conf_of ob) (Z.of_nat k) + len msg) Info.kSize (mem ob) = Info.info_bytes info.

Definition lock_ok (l readers writers : Z) : Prop :=
  (writers = 0 /\ l = readers) \/ (writers = 1 /\ readers = 0 /\ l = -1).

Record inv (c : Config) : Prop := {
  i_world : world_ok (shm c);
  i_threads : forall i t, threads c !! i = Some t -> thread_ok (shm c) t;
  i_makers : forall i j t u o, i <> j -> threads c !! i = Some t -> threads c !! j = Some u ->
    maker t = Some o -> maker u <> Some o;
  i_locks : forall o ob k b, objects (shm c) !! o = Some ob -> blocks ob !! k = Some b ->
    lock_ok (lock_num_ b) (count (has_grip false o k) (threads c)) (count (has_grip true o k) (threads c));
  i_blocks : forall o ob k b, objects (shm c) !! o = Some ob -> blocks ob !! k = Some b ->
    (forall i t, threads c !! i = Some t -> ~ halfway o k t) -> holds_sent (sent c) ob k b;
  i_got : forall ch msg info, (ch, msg, info) ∈ got c ->
    exists ch0 info0, (ch0, msg, info0) ∈ sent c /\ shm_key ch0 = shm_key ch /\
      info = Info.received Hash info0 info_new;
}.

(** ** Steps that lock nothing *)

(** A locked block exists. *)
Lemma grip_exists m t w o k :
  thread_ok m t -> grip t = Some (w, o, k) ->
  exists ob b, objects m !! o = Some ob /\ blocks ob !! k = Some b /\ built ob /\ conf_ (seg t) = conf_of ob /\
    obj_key ob = shm_key (channel_id_ (seg t)) /\ blocks_ (seg t) = Some o.
Proof.
  intros ([_ Hm] & Hi & Hp) Hg. unfold grip in Hg.
  assert (Hwb : exists wb, wb_ok wb (seg t) /\ o = block wb /\ k = Z.to_nat (index wb) /\ init_ (seg t) = true).
  { destruct (at_ t) eqn:E; try done; injection Hg as <- <- <-; eexists; (split; [|by split_and!; try apply Hi]);
      cbn in Hp; tauto. }
  destruct Hwb as (wb & (W1 & W2 & W3) & -> & -> & Hi1).
  destruct (Hm Hi1) as (o & ob & H1 & H2 & H3 & H4 & H5 & H6 & H7).
  assert (o = block wb) as -> by congruence. exists ob.
  destruct (lookup_lt_is_Some_2 (blocks ob) (Z.to_nat (index wb))) as [b Hb].
  { rewrite (built_blocks _ H4), <- H6. lia. }
  exists b. split_and!; done.
Qed.

Lemma has_message_grows msg wb m m' ob :
  objects m !! block wb = Some ob -> grows m m' -> has_message msg wb m -> has_message msg wb m'.
Proof.
  intros Ho [O _] H ob' b Ho' Hb. destruct (O _ _ Ho) as (ob2 & Ho2 & S). assert (ob2 = ob') as -> by congruence.
  rewrite (same_data_conf _ _ S), (sd_mem _ _ S). apply H; [done|]. by rewrite <- (sd_blocks _ _ S).
Qed.

Lemma made_grows k o s m m' : grows m m' -> made k o s m -> made k o s m'.
Proof.
  intros [O _] (Hi & ob & H1 & H2 & H3 & H4). split; [done|]. destruct (O _ _ H1) as (ob' & H1' & []). exists ob'.
  split_and!; congruence.
Qed.

Lemma thread_ok_grows m m' t : grows m m' -> thread_ok m t -> thread_ok m' t.
Proof.
  intros Hg Ht. pose proof Ht as (H1 & H2 & H3). split; [by eapply handle_grows|]. split; [done|].
  destruct (at_ t) as [| | | | | | | | | | |wb msg info| | | | |] eqn:E; cbn in *; try done;
    try (destruct H3 as [? Hm]; split; [done|]; by eapply made_grows).
  destruct H3 as (W & F & Hm). split; [done|]. split; [done|].
  destruct (grip_exists m t true (block wb) (Z.to_nat (index wb)) Ht) as (ob & b & Ho & _); [unfold grip; by rewrite E|].
  by eapply has_message_grows.
Qed.

Lemma holds_sent_same st ob ob' k b : same_data ob ob' -> holds_sent st ob k b -> holds_sent st ob' k b.
Proof.
  intros S [H|(ch & msg & info & H1 & H2 & H3 & H4 & H5 & H6 & H7 & H8)]; [by left|right].
  exists ch, msg, info. rewrite (same_data_conf _ _ S), (sd_mem _ _ S), (sd_key _ _ S). by split_and!.
Qed.

(** Replacing a thread that has no grip by another. *)
Lemma count_no_grip w o k ts i t t' :
  ts !! i = Some t -> grip t = None -> grip t' = None ->
  count (has_grip w o k) (<[i := t']> ts) = count (has_grip w o k) ts.
Proof.
  intros Hi H1 H2. rewrite (count_insert _ _ _ t) by done. unfold has_grip. rewrite H1, H2. cbn. lia.
Qed.

Lemma no_grip_not_half o k t : grip t = None -> ~ halfway o k t.
Proof. unfold grip, halfway. intros H1 H2. by destruct (at_ t). Qed.

(** A thread that is making an object makes an object that exists. *)
Lemma maker_exists m t o : thread_ok m t -> maker t = Some o -> is_Some (objects m !! o).
Proof.
  intros (_ & _ & H) Hm. unfold maker in Hm. destruct (at_ t); try done; injection Hm as ->;
    destruct H as (_ & _ & ob & Ho & _); by exists ob.
Qed.

Lemma makers_insert m (ts : list Thread) (i : nat) t t' :
  (forall (j : nat) u, ts !! j = Some u -> thread_ok m u) -> ts !! i = Some t ->
  (forall (i j : nat) t u o, i <> j -> ts !! i = Some t -> ts !! j = Some u -> maker t = Some o -> maker u <> Some o) ->
  (forall o, maker t' = Some o -> maker t = Some o \/ objects m !! o = None) ->
  forall (j k : nat) u v o, j <> k -> <[i := t']> ts !! j = Some u -> <[i := t']> ts !! k = Some v -> maker u = Some o -> maker v <> Some o.
Proof.
  intros Hts Hi IM Hmk j k u v o Hne Hj Hk Hu Hv.
  apply list_lookup_insert_Some in Hj as [(<- & <- & _)|[Hij Hj]];
    apply list_lookup_insert_Some in Hk as [(<- & <- & _)|[Hik Hk]]; [done| | |by eapply (IM j k)].
  - destruct (Hmk _ Hu) as [Ht|Hn]; [by eapply (IM i k)|].
    destruct (maker_exists m v o (Hts _ _ Hk) Hv). congruence.
  - destruct (Hmk _ Hv) as [Ht|Hn]; [by eapply (IM j i)|].
    destruct (maker_exists m u o (Hts _ _ Hj) Hu). congruence.
Qed.

Lemma inv_grow m ts st gt i t t' m' :
  inv (mkConfig m ts st gt) -> ts !! i = Some t -> grip t = None -> grip t' = None ->
  (forall o, maker t' = Some o -> maker t = Some o \/ objects m !! o = None) ->
  grows m m' -> world_ok m' -> thread_ok m' t' -> inv (mkConfig m' (<[i := t']> ts) st gt).
Proof.
  intros [I1 I2 IM I3 I4 I5] Hi Hg Hg' Hmk HG HW Ht'. cbn in *. constructor; cbn; [done| | | | |done].
  - intros j u Hj. apply list_lookup_insert_Some in Hj as [(<- & <- & _)|[_ Hj]]; [done|].
    eapply thread_ok_grows; eauto.
  - by eapply makers_insert.
  - intros o ob' k b Ho Hb. rewrite !(count_no_grip _ _ _ _ _ t) by done.
    destruct (objects m !! o) as [ob|] eqn:Hm.
    + destruct (gr_old _ _ HG _ _ Hm) as (ob2 & Ho2 & S). assert (ob2 = ob') as -> by congruence.
      eapply I3; [done|]. by rewrite <- (sd_blocks _ _ S).
    + pose proof (gr_new _ _ HG _ _ Hm Ho) as Hf. unfold fresh in Hf. rewrite Forall_lookup in Hf.
      rewrite <- (Hf _ _ Hb). left.
      assert (Hz : forall w, count (has_grip w o k) ts = 0); [|by rewrite !Hz].
      intros w. apply count_zero. intros j u Hj. apply bool_decide_eq_false_2. intros Hgr.
      destruct (grip_exists m u w o k (I2 _ _ Hj) Hgr) as (ob & _ & Ho' & _). congruence.
  - intros o ob' k b Ho Hb Hh. destruct (objects m !! o) as [ob|] eqn:Hm.
    + destruct (gr_old _ _ HG _ _ Hm) as (ob2 & Ho2 & S). assert (ob2 = ob') as -> by congruence.
      eapply holds_sent_same; [done|]. eapply I4; [done|by rewrite <- (sd_blocks _ _ S)|].
      intros j u Hj. destruct (decide (j = i)) as [->|Hne].
      * assert (u = t) as -> by congruence. by apply no_grip_not_half.
      * apply (Hh j u). by rewrite list_lookup_insert_ne.
    + pose proof (gr_new _ _ HG _ _ Hm Ho) as Hf. unfold fresh in Hf. rewrite Forall_lookup in Hf.
      rewrite <- (Hf _ _ Hb). by left.
Qed.

(** ** Steps that change one block *)

(** Only the block [k] of the object [o] and its buffer change. *)
Record touches (o k : nat) (m m' : Shm) (ob ob' : Object) (b b' : Block) : Prop := {
  to_names : names m' = names m;
  to_others : forall o', o' <> o -> objects m' !! o' = objects m !! o';
  to_ob : objects m !! o = Some ob;
  to_ob' : objects m' !! o = Some ob';
  to_b : blocks ob !! k = Some b;
  to_blocks : blocks ob' = <[k := b']> (blocks ob);
  to_key : obj_key ob' = obj_key ob;
  to_size : obj_size ob' = obj_size ob;
  to_state : state ob' = state ob;
  to_mem : forall a, a < buf_addr (conf_of ob) (Z.of_nat k) \/
    buf_addr (conf_of ob) (Z.of_nat k) + block_buf_size_ (conf_of ob) <= a -> mem ob' !! a = mem ob !! a;
}.

Section touch.
Context (o k : nat) (m m' : Shm) (ob ob' : Object) (b b' : Block) (T : touches o k m m' ob ob' b b').

Lemma touches_conf : conf_of ob' = conf_of ob.
Proof. unfold conf_of. by rewrite (to_state _ _ _ _ _ _ _ _ T). Qed.

Lemma touches_built : built ob -> built ob'.
Proof.
  intros [B1 B2 B3]. constructor; rewrite ?touches_conf; [by rewrite (to_state _ _ _ _ _ _ _ _ T)| |].
  - by rewrite (to_blocks _ _ _ _ _ _ _ _ T), length_insert.
  - by rewrite (to_size _ _ _ _ _ _ _ _ T).
Qed.

(** An object before corresponds to one after. *)
Lemma touches_lookup o' ob1 :
  objects m !! o' = Some ob1 ->
  exists ob2, objects m' !! o' = Some ob2 /\ obj_key ob2 = obj_key ob1 /\ obj_size ob2 = obj_size ob1 /\
    conf_of ob2 = conf_of ob1 /\ (built ob1 -> built ob2) /\ (o' <> o -> ob2 = ob1).
Proof.
  intros H. destruct (decide (o' = o)) as [->|Hne].
  - rewrite (to_ob _ _ _ _ _ _ _ _ T) in H. injection H as <-. exists ob'.
    split; [apply (to_ob' _ _ _ _ _ _ _ _ T)|]. split; [apply (to_key _ _ _ _ _ _ _ _ T)|].
    split; [apply (to_size _ _ _ _ _ _ _ _ T)|]. split; [apply touches_conf|]. split; [apply touches_built|done].
  - exists ob1. rewrite (to_others _ _ _ _ _ _ _ _ T) by done. by split_and!.
Qed.

Lemma touches_lookup_back o' ob2 :
  objects m' !! o' = Some ob2 -> o' <> o -> objects m !! o' = Some ob2.
Proof. intros H Hne. by rewrite <- (to_others _ _ _ _ _ _ _ _ T). Qed.

Lemma touches_world : world_ok m -> world_ok m'.
Proof.
  intros [W1 W2]. constructor.
  - rewrite (to_names _ _ _ _ _ _ _ _ T). intros n o' Hn. destruct (W1 _ _ Hn) as (ob1 & H1 & H2).
    destruct (touches_lookup _ _ H1) as (ob2 & Q1 & Q2 & Q3 & Q4 & Q5 & Q6). exists ob2.
    split; [done|congruence].
  - intros o' ob2 H. destruct (decide (o' = o)) as [->|Hne]; [|eapply W2, touches_lookup_back; done].
    rewrite (to_ob' _ _ _ _ _ _ _ _ T) in H. injection H as <-.
    destruct (W2 _ _ (to_ob _ _ _ _ _ _ _ _ T)) as [H|H]; [left; by apply touches_built|].
    pose proof (to_b _ _ _ _ _ _ _ _ T) as Hb. by rewrite H in Hb.
Qed.

Lemma touches_handle key s : handle_ok key s m -> handle_ok key s m'.
Proof.
  intros [H1 H2]. split; [done|]. intros Hi. destruct (H2 Hi) as (o1 & ob1 & M1 & M2 & M3 & M4 & M5 & M6 & M7).
  destruct (touches_lookup _ _ M3) as (ob2 & Q1 & Q2 & Q3 & Q4 & Q5 & Q6).
  exists o1, ob2. split_and!; try done; [auto|congruence|congruence].
Qed.

(** What another block of the object holds stays. *)
Lemma touches_load k1 off n :
  k1 <> k -> 0 <= off -> off + Z.of_nat n <= block_buf_size_ (conf_of ob) ->
  load (buf_addr (conf_of ob) (Z.of_nat k1) + off) n (mem ob') = load (buf_addr (conf_of ob) (Z.of_nat k1) + off) n (mem ob).
Proof.
  intros Hne H0 H1. apply load_ext. intros a Ha. apply (to_mem _ _ _ _ _ _ _ _ T).
  unfold conf_of in *. destruct (Nat.lt_gt_cases k1 k) as [Hc _]. destruct (Hc Hne) as [Hlt|Hgt].
  - left. pose proof (buf_apart (st_ceiling_msg_size_ (state ob)) (Z.of_nat k1) (Z.of_nat k)). lia.
  - right. pose proof (buf_apart (st_ceiling_msg_size_ (state ob)) (Z.of_nat k) (Z.of_nat k1)). lia.
Qed.

Lemma touches_load0 k1 n :
  k1 <> k -> Z.of_nat n <= block_buf_size_ (conf_of ob) ->
  load (buf_addr (conf_of ob) (Z.of_nat k1)) n (mem ob') = load (buf_addr (conf_of ob) (Z.of_nat k1)) n (mem ob).
Proof. intros Hne Hn. pose proof (touches_load k1 0 n Hne) as H. rewrite Z.add_0_r in H. apply H; lia. Qed.

Lemma touches_blocks k1 : k1 <> k -> blocks ob' !! k1 = blocks ob !! k1.
Proof. intros Hne. rewrite (to_blocks _ _ _ _ _ _ _ _ T). by apply list_lookup_insert_ne. Qed.

Lemma touches_holds st k1 b1 :
  k1 <> k -> holds_sent st ob k1 b1 -> holds_sent st ob' k1 b1.
Proof.
  intros Hne [H|(ch & msg & info & H1 & H2 & H3 & H4 & H5 & H6 & H7 & H8)]; [by left|right].
  exists ch, msg, info. rewrite touches_conf, (to_key _ _ _ _ _ _ _ _ T).
  assert (Hs : block_buf_size_ (conf_of ob) = ceiling_msg_size_ (conf_of ob) + MESSAGE_INFO_SIZE) by apply buf_size.
  unfold MESSAGE_INFO_SIZE in Hs. change (Z.of_nat Info.kSize) with 24 in *.
  split_and!; try done.
  - by rewrite touches_load0 by (done || lia).
  - rewrite touches_load; [done|done|lia|]. change (Z.of_nat Info.kSize) with 24. lia.
Qed.

Lemma touches_made key o1 s : made key o1 s m -> made key o1 s m'.
Proof.
  intros (Hi & ob1 & M1 & M2 & M3 & M4). split; [done|]. destruct (decide (o1 = o)) as [->|Hne].
  - rewrite (to_ob _ _ _ _ _ _ _ _ T) in M1. injection M1 as <-. pose proof (to_b _ _ _ _ _ _ _ _ T) as Hb. by rewrite M2 in Hb.
  - exists ob1. by rewrite (to_others _ _ _ _ _ _ _ _ T).
Qed.

(** A thread that is not half way through this block is not disturbed. *)
Lemma touches_thread t : ~ halfway o k t -> thread_ok m t -> thread_ok m' t.
Proof.
  intros Hh Ht. pose proof Ht as (H1 & H2 & H3). split; [by apply touches_handle|]. split; [done|].
  unfold halfway in Hh. destruct (at_ t) as [| | | | | | | | | | |wb msg info| | | | |] eqn:E; cbn in *; try done;
    try (destruct H3 as [? Hm]; split; [done|]; by apply touches_made).
  destruct H3 as ([W1 W2] & [F1 F2] & Hm). split; [done|]. split; [done|].
  destruct (grip_exists m t true (block wb) (Z.to_nat (index wb)) Ht) as (ob1 & b1 & Ho & Hb1 & _ & Hc & _);
    [unfold grip; by rewrite E|].
  intros ob2 b2 Ho2 Hb2. destruct (decide (block wb = o)) as [He|Hne].
  - rewrite He in *. rewrite (to_ob _ _ _ _ _ _ _ _ T) in Ho. injection Ho as <-.
    rewrite (to_ob' _ _ _ _ _ _ _ _ T) in Ho2. injection Ho2 as <-.
    assert (Hk : Z.to_nat (index wb) <> k) by (intros Hk; by apply Hh). rewrite touches_blocks in Hb2 by done.
    destruct (Hm ob b2) as [P1 P2]; [by rewrite He; apply (to_ob _ _ _ _ _ _ _ _ T)|done|]. split; [done|].
    rewrite touches_conf. rewrite <- P2 at 2. rewrite <- (Z2Nat.id (index wb)) by lia.
    assert (Hs : block_buf_size_ (conf_of ob) = ceiling_msg_size_ (conf_of ob) + MESSAGE_INFO_SIZE) by apply buf_size.
    unfold MESSAGE_INFO_SIZE in Hs. rewrite Hc in F1.
    by rewrite touches_load0 by (done || lia).
  - apply (Hm ob2 b2); [|done]. by apply touches_lookup_back.
Qed.
End touch.

(** A thread's grip is this block or none. *)
Definition grips_only (o k : nat) (t : Thread) : Prop :=
  forall w o' k', grip t = Some (w, o', k') -> o' = o /\ k' = k.

Lemma count_grip_other w o k o' k' ts i t t' :
  ts !! i = Some t -> grips_only o k t -> grips_only o k t' -> (o', k') <> (o, k) ->
  count (has_grip w o' k') (<[i := t']> ts) = count (has_grip w o' k') ts.
Proof.
  intros Hi Ht Ht' Hne. rewrite (count_insert _ _ _ t) by done.
  assert (Hz : forall u, grips_only o k u -> has_grip w o' k' u = false).
  { intros u Hu. apply bool_decide_eq_false_2. intros Hg. destruct (Hu _ _ _ Hg) as [-> ->]. done. }
  rewrite !Hz by done. lia.
Qed.

Lemma halfway_grip o k t : halfway o k t -> grip t = Some (true, o, k).
Proof. unfold halfway, grip. destruct (at_ t); try done. by intros [-> ->]. Qed.

Lemma holds_sent_more st st' ob k b : st ⊆ st' -> holds_sent st ob k b -> holds_sent st' ob k b.
Proof.
  intros Hs [H|(ch & msg & info & H1 & H2)]; [by left|right]. exists ch, msg, info. split; [by apply Hs|done].
Qed.

Lemma inv_touch m ts st gt i t t' m' st' o k ob ob' b b' :
  inv (mkConfig m ts st gt) -> ts !! i = Some t -> touches o k m m' ob ob' b b' ->
  grips_only o k t -> grips_only o k t' ->
  (forall j u, j <> i -> ts !! j = Some u -> grip u <> Some (true, o, k)) ->
  maker t' = None -> thread_ok m' t' -> st ⊆ st' ->
  lock_ok (lock_num_ b') (count (has_grip false o k) (<[i := t']> ts)) (count (has_grip true o k) (<[i := t']> ts)) ->
  (~ halfway o k t' -> holds_sent st' ob' k b') ->
  inv (mkConfig m' (<[i := t']> ts) st' gt).
Proof.
  intros [I1 I2 IM I3 I4 I5] Hi T Hg Hg' Hno Hmk Ht' Hst Hl Hh. cbn in *.
  assert (Hlt : (i < length ts)%nat) by by eapply lookup_lt_Some.
  constructor; cbn; [by eapply touches_world| | | | |].
  - intros j u Hj. apply list_lookup_insert_Some in Hj as [(<- & <- & _)|[Hne Hj]]; [done|].
    eapply touches_thread; [done| |by eauto]. intros Hu. by apply (Hno j u (not_eq_sym Hne) Hj), halfway_grip.
  - eapply makers_insert; [exact I2|done|done|]. intros o1. by rewrite Hmk.
  - intros o1 ob1 k1 b1 Ho1 Hb1. destruct (decide ((o1, k1) = (o, k))) as [[= -> ->]|Hne].
    + rewrite (to_ob' _ _ _ _ _ _ _ _ T) in Ho1. injection Ho1 as <-.
      rewrite (to_blocks _ _ _ _ _ _ _ _ T), list_lookup_insert_eq in Hb1; [by injection Hb1 as <-|].
      eapply lookup_lt_Some, (to_b _ _ _ _ _ _ _ _ T).
    + rewrite !(count_grip_other _ o k _ _ _ _ t) by done.
      destruct (decide (o1 = o)) as [->|Hno1]; [|eapply I3; [by eapply touches_lookup_back|done]].
      rewrite (to_ob' _ _ _ _ _ _ _ _ T) in Ho1. injection Ho1 as <-.
      eapply I3; [apply (to_ob _ _ _ _ _ _ _ _ T)|]. rewrite <- Hb1. symmetry. eapply touches_blocks; [done|congruence].
  - intros o1 ob1 k1 b1 Ho1 Hb1 Hhalf. destruct (decide ((o1, k1) = (o, k))) as [[= -> ->]|Hne].
    + rewrite (to_ob' _ _ _ _ _ _ _ _ T) in Ho1. injection Ho1 as <-.
      rewrite (to_blocks _ _ _ _ _ _ _ _ T), list_lookup_insert_eq in Hb1.
      2: { eapply lookup_lt_Some, (to_b _ _ _ _ _ _ _ _ T). }
      injection Hb1 as <-. apply Hh. apply (Hhalf i). by apply list_lookup_insert_eq.
    + assert (Hhalf' : forall j u, ts !! j = Some u -> ~ halfway o1 k1 u).
      { intros j u Hj Hu. destruct (decide (j = i)) as [->|Hji].
        - assert (u = t) as -> by congruence. apply halfway_grip, Hg in Hu as [-> ->]. done.
        - apply (Hhalf j u); [by rewrite list_lookup_insert_ne|done]. }
      eapply holds_sent_more; [done|].
      destruct (decide (o1 = o)) as [->|Hno1]; [|eapply I4; [by eapply touches_lookup_back|done|done]].
      rewrite (to_ob' _ _ _ _ _ _ _ _ T) in Ho1. injection Ho1 as <-.
      assert (k1 <> k) by congruence. eapply touches_holds; [done|done|].
      eapply I4; [apply (to_ob _ _ _ _ _ _ _ _ T)| |done]. rewrite <- Hb1. symmetry. by eapply touches_blocks.
  - intros ch msg info Hgot. destruct (I5 _ _ _ Hgot) as (ch0 & info0 & H1 & H2). exists ch0, info0. split; [by apply Hst|done].
Qed.

(** ** Each step *)

Lemma alter_insert {A} (f : A -> A) (l : list A) n x : l !! n = Some x -> alter f n l = <[n := f x]> l.
Proof.
  intros H. apply list_eq. intros j. destruct (decide (j = n)) as [->|Hne].
  - rewrite list_lookup_alter_eq, H, list_lookup_insert_eq; [done|]. by eapply lookup_lt_Some.
  - by rewrite list_lookup_alter_ne, list_lookup_insert_ne.
Qed.

(** A block changed, and bytes of its buffer. *)
Lemma changed_touches o i f g m ob b :
  0 <= i -> objects m !! o = Some ob -> blocks ob !! Z.to_nat i = Some b ->
  (forall a, a < buf_addr (conf_of ob) i \/ buf_addr (conf_of ob) i + block_buf_size_ (conf_of ob) <= a ->
     g (mem ob) !! a = mem ob !! a) ->
  touches o (Z.to_nat i) m (with_object o (on_block i f) (with_object o (on_mem g) m)) ob
    (on_block i f (on_mem g ob)) b (f b).
Proof.
  intros Hi Ho Hb Hg. constructor; try done.
  - intros o' Hne. rewrite !with_object_lookup, decide_False by done. by rewrite decide_False by done.
  - rewrite !with_object_lookup, !decide_True, Ho by done. done.
  - cbn. by apply alter_insert.
  - rewrite Z2Nat.id by done. done.
Qed.

Lemma with_object_id o m : with_object o (on_mem id) m = m.
Proof.
  destruct m as [ns os]. unfold with_object. cbn. f_equal. apply list_eq. intros j.
  destruct (decide (j = o)) as [->|Hne]; [rewrite list_lookup_alter_eq|by rewrite list_lookup_alter_ne].
  destruct (os !! o) as [[]|]; done.
Qed.

Lemma block_touches o i f m ob b :
  0 <= i -> objects m !! o = Some ob -> blocks ob !! Z.to_nat i = Some b ->
  touches o (Z.to_nat i) m (with_object o (on_block i f) m) ob (on_block i f ob) b (f b).
Proof.
  intros Hi Ho Hb. pose proof (changed_touches o i f id m ob b Hi Ho Hb ltac:(done)) as H.
  rewrite with_object_id in H. by destruct ob.
Qed.

(** Locks and grips. *)
Lemma writer_alone m ts st gt i t o k :
  inv (mkConfig m ts st gt) -> ts !! i = Some t -> grip t = Some (true, o, k) ->
  exists ob b, objects m !! o = Some ob /\ blocks ob !! k = Some b /\ lock_num_ b = -1 /\
    count (has_grip false o k) ts = 0 /\ count (has_grip true o k) ts = 1 /\
    forall j u, j <> i -> ts !! j = Some u -> grip u <> Some (true, o, k).
Proof.
  intros I Hi Hg. destruct (grip_exists m t true o k (i_threads _ I _ _ Hi) Hg) as (ob & b & Ho & Hb & _).
  exists ob, b. split; [done|]. split; [done|].
  assert (H1 : 1 <= count (has_grip true o k) ts) by (eapply count_one; [done|by apply bool_decide_eq_true_2]).
  pose proof (i_locks _ I _ _ _ _ Ho Hb) as Hl. cbn in Hl. destruct Hl as [[Hw _]|(Hw & Hr & Hl)]; [lia|].
  split; [done|]. split; [done|]. split; [done|]. intros j u Hne Hj Hgu.
  assert (2 <= count (has_grip true o k) ts); [|lia].
  eapply (count_two _ _ i j); [done|done|done|by apply bool_decide_eq_true_2..].
Qed.

Lemma no_writer m ts st gt o k ob b :
  inv (mkConfig m ts st gt) -> objects m !! o = Some ob -> blocks ob !! k = Some b -> 0 <= lock_num_ b ->
  lock_num_ b = count (has_grip false o k) ts /\ count (has_grip true o k) ts = 0 /\
  forall j u, ts !! j = Some u -> grip u <> Some (true, o, k).
Proof.
  intros I Ho Hb H0. pose proof (i_locks _ I _ _ _ _ Ho Hb) as Hl. cbn in Hl.
  destruct Hl as [[Hw Hl]|(_ & _ & Hl)]; [|lia]. split; [done|]. split; [done|]. intros j u Hj Hg.
  assert (1 <= count (has_grip true o k) ts) by (eapply count_one; [done|by apply bool_decide_eq_true_2]). lia.
Qed.

Lemma count_gain w w' o k ts i t t' :
  ts !! i = Some t -> grip t = None -> grip t' = Some (w, o, k) ->
  count (has_grip w' o k) (<[i := t']> ts) = count (has_grip w' o k) ts + (if Bool.eqb w w' then 1 else 0).
Proof.
  intros Hi H1 H2. rewrite (count_insert _ _ _ t) by done. unfold has_grip. rewrite H1, H2.
  rewrite (bool_decide_eq_false_2 (None = _)) by done. destruct w, w'; cbn [Bool.eqb];
    rewrite ?bool_decide_eq_true_2 by done; rewrite ?bool_decide_eq_false_2 by done; lia.
Qed.

Lemma count_loss w w' o k ts i t t' :
  ts !! i = Some t -> grip t = Some (w, o, k) -> grip t' = None ->
  count (has_grip w' o k) (<[i := t']> ts) = count (has_grip w' o k) ts - (if Bool.eqb w w' then 1 else 0).
Proof.
  intros Hi H1 H2. rewrite (count_insert _ _ _ t) by done. unfold has_grip. rewrite H1, H2.
  rewrite (bool_decide_eq_false_2 (None = _)) by done. destruct w, w'; cbn [Bool.eqb];
    rewrite ?bool_decide_eq_true_2 by done; rewrite ?bool_decide_eq_false_2 by done; lia.
Qed.

Lemma count_keep w o k ts i t t' :
  ts !! i = Some t -> grip t' = grip t -> count (has_grip w o k) (<[i := t']> ts) = count (has_grip w o k) ts.
Proof. intros Hi H. rewrite (count_insert _ _ _ t) by done. unfold has_grip. rewrite H. lia. Qed.

(** The object of an initialised handle. *)
Lemma thread_object m s p :
  thread_ok m (mkThread s p) -> ready p = true ->
  exists o ob, object_of (state_ s) m = Ret (o, ob) /\ object_of (blocks_ s) m = Ret (o, ob) /\ objects m !! o = Some ob /\
    built ob /\ conf_ s = conf_of ob /\ blocks_ s = Some o /\ obj_key ob = shm_key (channel_id_ s) /\
    forall i, 0 <= i < block_num_ (conf_ s) -> wb_ok (block_at i s) s /\ block (block_at i s) = o.
Proof.
  intros ([_ Hm] & Hi & _) Hp. specialize (Hm (Hi Hp)). destruct Hm as (o & ob & M1 & M2 & M3 & M4 & M5 & M6 & M7).
  cbn in *. exists o, ob. unfold object_of. rewrite M1, M2, M3. split_and!; try done.
  intros i Hir. split; [|done]. unfold wb_ok, block_at. cbn. rewrite M2, (M7 i Hir). done.
Qed.

Lemma evolved_thread s m s' m' p :
  evolves (shm_key (channel_id_ s)) s m s' m' -> finished s' m' -> (ready p = true -> init_ s' = true) -> pc_ok s' m' p ->
  thread_ok m' (mkThread s' p).
Proof. intros [E1 E2 E3 E4 E5] Hf Hi Hp. split; [|by split]. cbn. rewrite E1. by apply E5. Qed.

Lemma touched_thread o k m m' ob ob' b b' s p p' :
  touches o k m m' ob ob' b b' -> thread_ok m (mkThread s p) -> ready p = true -> pc_ok s m' p' ->
  thread_ok m' (mkThread s p').
Proof.
  intros T (H1 & H2 & _) Hp Hp'. split; [by eapply touches_handle|]. split; [|done]. intros _. by apply H2.
Qed.

Lemma holds_sent_lock st ob k b n i f : holds_sent st ob k b -> holds_sent st (on_block i f ob) k (set_lock n b).
Proof. done. Qed.

(** A step that only changes the lock of a block. *)
Lemma inv_lock m ts st gt i s p p' o idx ob b n f :
  inv (mkConfig m ts st gt) -> ts !! i = Some (mkThread s p) -> ready p = true -> maker (mkThread s p') = None -> 0 <= idx ->
  objects m !! o = Some ob -> blocks ob !! Z.to_nat idx = Some b -> f b = set_lock n b ->
  let k := Z.to_nat idx in
  grips_only o k (mkThread s p) -> grips_only o k (mkThread s p') -> ~ halfway o k (mkThread s p) ->
  (forall j u, j <> i -> ts !! j = Some u -> grip u <> Some (true, o, k)) ->
  pc_ok s (with_object o (on_block idx f) m) p' ->
  lock_ok n (count (has_grip false o k) (<[i := mkThread s p']> ts)) (count (has_grip true o k) (<[i := mkThread s p']> ts)) ->
  inv (mkConfig (with_object o (on_block idx f) m) (<[i := mkThread s p']> ts) st gt).
Proof.
  intros I Hi Hp Hmk H0 Ho Hb Hf k Hg Hg' Hh Hno Hpc Hl.
  pose proof (block_touches o idx f m ob b H0 Ho Hb) as T. rewrite Hf in T.
  eapply inv_touch; [done|done|exact T|done|done|done|done| |done|done|].
  - eapply touched_thread; [exact T|by eapply (i_threads _ I)|done|done].
  - intros _. apply holds_sent_lock. eapply (i_blocks _ I); [done|done|]. cbn. intros j u Hj Hu.
    destruct (decide (j = i)) as [->|Hne]; [assert (u = mkThread s p) as -> by congruence; done|].
    by apply (Hno j u Hne Hj), halfway_grip.
Qed.

Lemma inv_write_try m ts st gt i s idx msg info ok m' :
  inv (mkConfig m ts st gt) -> ts !! i = Some (mkThread s (Trying idx msg info)) -> try_write idx s m = Ret (ok, m') ->
  inv (mkConfig m' (<[i := mkThread s (if ok : bool then Acquired (block_at idx s) msg info else Seeking msg info)]> ts) st gt).
Proof.
  intros I Hi E. pose proof (i_threads _ I _ _ Hi) as Ht. cbn in Ht.
  destruct (thread_object m s _ Ht ltac:(done)) as (o & ob & _ & Eo & Ho & Hb & Hc & Hbl & _ & Hwb).
  unfold try_write in E. rewrite Eo in E. cbn [bind] in E.
  destruct Ht as (H1 & H2 & [Hidx Hfit]). cbn in H1, H2.
  destruct (blocks ob !! Z.to_nat idx) as [b|] eqn:Hbk; [|done].
  unfold TryLockForWrite in E. destruct (Z.eqb_spec (lock_num_ b) kRWLockFree) as [Hz|Hz]; injection E as <- <-.
  - unfold kRWLockFree in Hz. destruct (no_writer m ts st gt o _ ob b I Ho Hbk ltac:(lia)) as (N1 & N2 & N3).
    destruct (Hwb idx Hidx) as [W1 W2].
    assert (Hg' : grip (mkThread s (Acquired (block_at idx s) msg info)) = Some (true, o, Z.to_nat idx)).
    { unfold grip. cbn [at_]. by rewrite W2. }
    eapply (inv_lock m ts st gt i s _ _ o idx ob b kWriteExclusive); [done|done|done|done|lia|done|done|done|by intros ???| | | | |].
    + intros w o' k' Hg. rewrite Hg' in Hg. by injection Hg as <- <- <-.
    + intros [].
    + intros j u _. apply N3.
    + by split.
    + right. rewrite !(count_gain _ _ _ _ _ _ _ _ Hi eq_refl Hg'), N2. unfold kWriteExclusive. cbn. lia.
  - assert (with_object o (on_block idx (fun _ => b)) m = m) as ->.
    { destruct m as [ns os]. unfold with_object. cbn in *. f_equal. rewrite (alter_insert _ _ _ ob Ho).
      rewrite list_insert_id; [done|]. rewrite Ho. f_equal. destruct ob as [? ? ? bl ?]. unfold on_block. cbn in *. f_equal.
      rewrite (alter_insert _ _ _ b Hbk). symmetry. by apply list_insert_id. }
    eapply inv_grow; [done|done|done|done|done|apply grows_refl|apply (i_world _ I)|]. split; [done|]. split; [|done].
    intros _. by apply H2.
Qed.

(** Releasing the block of the thread's grip. *)
Lemma release_block m ts st gt i s p w wb n f m' :
  inv (mkConfig m ts st gt) -> ts !! i = Some (mkThread s p) -> ready p = true -> wb_ok wb s ->
  grip (mkThread s p) = Some (w, block wb, Z.to_nat (index wb)) ->
  ~ halfway (block wb) (Z.to_nat (index wb)) (mkThread s p) ->
  (forall ob b, objects m !! block wb = Some ob -> blocks ob !! Z.to_nat (index wb) = Some b ->
     f b = set_lock (n b) b /\
     (forall j u, j <> i -> ts !! j = Some u -> grip u <> Some (true, block wb, Z.to_nat (index wb))) /\
     lock_ok (n b) (count (has_grip false (block wb) (Z.to_nat (index wb))) ts - (if Bool.eqb w false then 1 else 0))
       (count (has_grip true (block wb) (Z.to_nat (index wb))) ts - (if Bool.eqb w true then 1 else 0))) ->
  (if block_num_ (conf_ s) <=? index wb then Ret m else change_block (index wb) f s m) = Ret m' ->
  inv (mkConfig m' (<[i := mkThread s Idle]> ts) st gt).
Proof.
  intros I Hi Hp (W1 & W2 & W3) Hg Hh Hf E.
  destruct (Z.leb_spec (block_num_ (conf_ s)) (index wb)); [lia|].
  pose proof (i_threads _ I _ _ Hi) as Ht. cbn in Ht.
  destruct (thread_object m s _ Ht Hp) as (o & ob & _ & Eo & Ho & Hb & Hc & Hbl & _ & _).
  assert (o = block wb) as -> by congruence. unfold change_block in E. rewrite Eo in E. cbn [bind] in E.
  destruct (blocks ob !! Z.to_nat (index wb)) as [b|] eqn:Hbk; [|done]. injection E as <-.
  destruct (Hf ob b Ho Hbk) as (F1 & F2 & F3).
  eapply (inv_lock m ts st gt i s p Idle _ _ ob b (n b)); [done|done|done|done|lia|done|done|done| | |done|done|done|].
  - intros w' o' k' Hg'. rewrite Hg in Hg'. by injection Hg' as <- <- <-.
  - by intros ???.
  - by rewrite !(count_loss _ _ _ _ _ _ _ _ Hi Hg).
Qed.

Lemma inv_release_write m ts st gt i s p wb m' :
  inv (mkConfig m ts st gt) -> ts !! i = Some (mkThread s p) ->
  (exists msg info, p = Acquired wb msg info \/ p = Filled wb msg info) -> ReleaseWrittenBlock wb s m = Ret m' ->
  inv (mkConfig m' (<[i := mkThread s Idle]> ts) st gt).
Proof.
  intros I Hi (msg & info & Hp) E. pose proof (i_threads _ I _ _ Hi) as (_ & _ & Hpc). cbn in Hpc.
  assert (Hg : grip (mkThread s p) = Some (true, block wb, Z.to_nat (index wb))) by (by destruct Hp as [-> | ->]).
  destruct (writer_alone m ts st gt i _ _ _ I Hi Hg) as (ob & b & Ho & Hb & Hl & Hr & Hw & Hno).
  eapply (release_block m ts st gt i s p true wb (fun b => wrap_i32 (lock_num_ b + 1)) ReleaseWriteLock);
    [done|done|by destruct Hp as [-> | ->]|destruct Hp as [-> | ->]; apply Hpc|done|destruct Hp as [-> | ->]; by intros []| |done].
  intros ob' b' Ho' Hb'. assert (ob' = ob) as -> by congruence. assert (b' = b) as -> by congruence.
  split; [done|]. split; [done|]. left. rewrite Hr, Hw, Hl. done.
Qed.

Lemma inv_release_read m ts st gt i s rb m' :
  inv (mkConfig m ts st gt) -> len ts < 2147483648 -> ts !! i = Some (mkThread s (Reading rb)) ->
  ReleaseReadBlock rb s m = Ret m' -> inv (mkConfig m' (<[i := mkThread s Idle]> ts) st gt).
Proof.
  intros I Hn Hi E. pose proof (i_threads _ I _ _ Hi) as (_ & _ & Hpc). cbn in Hpc.
  eapply (release_block m ts st gt i s (Reading rb) false rb (fun b => wrap_i32 (lock_num_ b - 1)) ReleaseReadLock);
    [done|done|done|done|done|by intros []| |done].
  intros ob b Ho Hb. split; [done|].
  assert (H1 : 1 <= count (has_grip false (block rb) (Z.to_nat (index rb))) ts)
    by (eapply count_one; [done|by apply bool_decide_eq_true_2]).
  pose proof (i_locks _ I _ _ _ _ Ho Hb) as Hl. cbn in Hl. destruct Hl as [[Hw Hl]|(Hw & Hr & Hl)]; [|lia].
  destruct (no_writer m ts st gt _ _ ob b I Ho Hb ltac:(lia)) as (_ & _ & N3).
  pose proof (count_le_length (has_grip false (block rb) (Z.to_nat (index rb))) ts).
  split; [intros j u _; apply N3|]. left. rewrite Hl, Hw, wrap_i32_small by lia. cbn. lia.
Qed.

Lemma inv_read_lock m ts st gt i s fails idx rb m' :
  inv (mkConfig m ts st gt) -> len ts < 2147483648 -> ts !! i = Some (mkThread s (Locking idx)) ->
  try_read fails idx s m = Ret (rb, m') ->
  inv (mkConfig m' (<[i := mkThread s (match rb with Some rb => Reading rb | None => Idle end)]> ts) st gt).
Proof.
  intros I Hn Hi E. pose proof (i_threads _ I _ _ Hi) as Ht. cbn in Ht.
  destruct (thread_object m s _ Ht ltac:(done)) as (o & ob & _ & Eo & Ho & Hb & Hc & Hbl & _ & Hwb).
  unfold try_read in E. rewrite Eo in E. cbn [bind] in E. destruct Ht as (H1 & H2 & H0). cbn in H0, H1, H2.
  destruct (blocks ob !! Z.to_nat idx) as [b|] eqn:Hbk; [|done].
  assert (Hidx : 0 <= idx < block_num_ (conf_ s)).
  { split; [done|]. apply lookup_lt_Some in Hbk. rewrite (built_blocks _ Hb), <- Hc in Hbk. lia. }
  assert (Hidle : inv (mkConfig m (<[i := mkThread s Idle]> ts) st gt)).
  { eapply inv_grow; [done|done|done|done|done|apply grows_refl|apply (i_world _ I)|]. by split. }
  unfold TryLockForRead in E. destruct (Z.ltb_spec (lock_num_ b) kRWLockFree) as [Hz|Hz]; [by injection E as <- <-|].
  destruct (_ <=? fails)%nat; [by injection E as <- <-|]. injection E as <- <-. unfold kRWLockFree in Hz.
  destruct (no_writer m ts st gt o _ ob b I Ho Hbk ltac:(lia)) as (N1 & N2 & N3). destruct (Hwb idx Hidx) as [W1 W2].
  assert (Hg' : grip (mkThread s (Reading (block_at idx s))) = Some (false, o, Z.to_nat idx)).
  { unfold grip. cbn [at_]. by rewrite W2. }
  eapply (inv_lock m ts st gt i s _ _ o idx ob b (wrap_i32 (lock_num_ b + 1))); [done|done|done|done|lia|done|done|done|by intros ???| | | |done|].
  - intros w o' k' Hg. rewrite Hg' in Hg. by injection Hg as <- <- <-.
  - intros [].
  - intros j u _. apply N3.
  - left. rewrite !(count_gain _ _ _ _ _ _ _ _ Hi eq_refl Hg'), N2.
    assert (Hle : count (has_grip false o (Z.to_nat idx)) (<[i := mkThread s (Reading (block_at idx s))]> ts) <= len ts).
    { rewrite <- (length_insert ts i (mkThread s (Reading (block_at idx s)))). apply count_le_length. }
    rewrite (count_gain _ _ _ _ _ _ _ _ Hi eq_refl Hg') in Hle. cbn in Hle |- *. rewrite wrap_i32_small by lia. lia.
Qed.

(** Writing inside the buffer of a block. *)
Lemma store_touches m ob o idx off bs f b :
  0 <= idx -> objects m !! o = Some ob -> blocks ob !! Z.to_nat idx = Some b ->
  0 <= off -> off + len bs <= block_buf_size_ (conf_of ob) ->
  touches o (Z.to_nat idx) m
    (with_object o (on_block idx f) (with_object o (on_mem (store (buf_addr (conf_of ob) idx + off) bs)) m)) ob
    (on_block idx f (on_mem (store (buf_addr (conf_of ob) idx + off) bs) ob)) b (f b).
Proof.
  intros H0 Ho Hb Hoff Hlen. apply changed_touches; [done..|]. intros a Ha. apply store_outside. lia.
Qed.

(** The block of a writer, and the room in it. *)
Lemma writer_room m ts st gt i s p wb msg info :
  inv (mkConfig m ts st gt) -> ts !! i = Some (mkThread s p) -> ready p = true -> wb_ok wb s -> fits msg info s ->
  grip (mkThread s p) = Some (true, block wb, Z.to_nat (index wb)) ->
  exists ob b, objects m !! block wb = Some ob /\ blocks ob !! Z.to_nat (index wb) = Some b /\ conf_ s = conf_of ob /\
    obj_key ob = shm_key (channel_id_ s) /\
    len msg + 24 <= block_buf_size_ (conf_of ob) /\ len msg <= ceiling_msg_size_ (conf_of ob) /\
    lock_num_ b = -1 /\ count (has_grip false (block wb) (Z.to_nat (index wb))) ts = 0 /\
    count (has_grip true (block wb) (Z.to_nat (index wb))) ts = 1 /\
    forall j u, j <> i -> ts !! j = Some u -> grip u <> Some (true, block wb, Z.to_nat (index wb)).
Proof.
  intros I Hi Hp (W1 & W2 & W3) [F1 F2] Hg.
  destruct (writer_alone m ts st gt i _ _ _ I Hi Hg) as (ob & b & Ho & Hb & Hl & Hr & Hw & Hno).
  destruct (grip_exists m _ _ _ _ (i_threads _ I _ _ Hi) Hg) as (ob1 & b1 & Ho1 & _ & _ & Hc & Hk & _).
  assert (ob1 = ob) as -> by congruence. cbn in Hc, Hk. exists ob, b. rewrite <- Hc.
  assert (Hs : block_buf_size_ (conf_ s) = ceiling_msg_size_ (conf_ s) + MESSAGE_INFO_SIZE).
  { rewrite Hc. apply buf_size. }
  unfold MESSAGE_INFO_SIZE in Hs. by split_and!; try lia.
Qed.

Lemma inv_write_message m ts st gt i s wb msg info m' :
  inv (mkConfig m ts st gt) -> ts !! i = Some (mkThread s (Acquired wb msg info)) -> put_message msg wb m = Ret m' ->
  inv (mkConfig m' (<[i := mkThread s (Half wb msg info)]> ts) st gt).
Proof.
  intros I Hi E. pose proof (i_threads _ I _ _ Hi) as Ht. pose proof Ht as (_ & _ & Hwb & Hfit). cbn in Hwb, Hfit.
  destruct (writer_room m ts st gt i s _ wb msg info I Hi ltac:(done) Hwb Hfit eq_refl)
    as (ob & b & Ho & Hb & Hc & Hk & Hroom & Hceil & Hl & Hr & Hw & Hno).
  pose proof Hwb as (W1 & W2 & W3). unfold put_message, store_at in E. rewrite W3, Ho in E.
  destruct (_ <=? obj_size ob); [|done]. cbn [bind] in E. injection E as <-. unfold set_block. rewrite Hc.
  pose proof (store_touches m ob _ (index wb) 0 msg (set_msg_size (len msg)) b (proj1 W1) Ho Hb (Z.le_refl 0)
    ltac:(lia)) as T. rewrite Z.add_0_r in T.
  assert (Hg : forall p, (p = Acquired wb msg info \/ p = Half wb msg info) -> grips_only (block wb) (Z.to_nat (index wb)) (mkThread s p)).
  { intros p [-> | ->] w o' k' Hg; injection Hg as <- <- <-; done. }
  eapply inv_touch; [done|done|exact T|by apply Hg; left|by apply Hg; right|done|done| |done| |].
  - eapply touched_thread; [exact T|exact Ht|done|]. split; [done|]. split; [done|]. intros ob2 b2 Ho2 Hb2.
    rewrite (to_ob' _ _ _ _ _ _ _ _ T) in Ho2. injection Ho2 as <-. rewrite (to_blocks _ _ _ _ _ _ _ _ T) in Hb2.
    rewrite list_lookup_insert_eq in Hb2 by (by eapply lookup_lt_Some). injection Hb2 as <-. split; [done|].
    rewrite (touches_conf _ _ _ _ _ _ _ _ T). cbn [on_block on_mem mem]. apply load_store.
  - rewrite !(count_keep _ _ _ _ _ _ _ Hi) by done. right. done.
  - intros Hh. exfalso. by apply Hh.
Qed.

Lemma inv_write_info m ts st gt i s wb msg info m' :
  inv (mkConfig m ts st gt) -> ts !! i = Some (mkThread s (Half wb msg info)) -> put_info (len msg) info wb m = Ret (true, m') ->
  inv (mkConfig m' (<[i := mkThread s (Filled wb msg info)]> ts) (st ++ [(channel_id_ s, msg, info)]) gt).
Proof.
  intros I Hi E. pose proof (i_threads _ I _ _ Hi) as Ht. pose proof Ht as (_ & _ & Hwb & Hfit & Hmsg). cbn in Hwb, Hfit, Hmsg.
  destruct (writer_room m ts st gt i s _ wb msg info I Hi ltac:(done) Hwb Hfit eq_refl)
    as (ob & b & Ho & Hb & Hc & Hk & Hroom & Hceil & Hl & Hr & Hw & Hno).
  pose proof Hwb as (W1 & W2 & W3). unfold put_info, store_at in E. rewrite W3 in E.
  change (Info.SerializeTo Info.kSize info) with (Some (Info.info_bytes info)) in E. cbv iota in E. rewrite Ho in E.
  destruct (_ <=? obj_size ob); [|done]. cbn [bind] in E. injection E as <-. unfold set_block. rewrite Hc.
  destruct Hfit as [F1 F2]. pose proof (Info.length_info_bytes info F2) as Hi24. change Info.kSize with 24%nat in Hi24.
  pose proof (store_touches m ob _ (index wb) (len msg) (Info.info_bytes info) (set_msg_info_size (Z.of_nat Info.kSize)) b
    (proj1 W1) Ho Hb (Nat2Z.is_nonneg _) ltac:(rewrite Hi24; exact Hroom)) as T.
  assert (Hg : forall p, (p = Half wb msg info \/ p = Filled wb msg info) -> grips_only (block wb) (Z.to_nat (index wb)) (mkThread s p)).
  { intros p [-> | ->] w o' k' Hg; injection Hg as <- <- <-; done. }
  destruct (Hmsg ob b Ho Hb) as [M1 M2].
  eapply inv_touch; [done|done|exact T|by apply Hg; left|by apply Hg; right|done|done| | | |].
  - eapply touched_thread; [exact T|exact Ht|done|]. by split.
  - intros x Hx. apply elem_of_app. by left.
  - rewrite !(count_keep _ _ _ _ _ _ _ Hi) by done. right. done.
  - intros _. right. exists (channel_id_ s), msg, info. rewrite (touches_conf _ _ _ _ _ _ _ _ T), Z2Nat.id by lia.
    cbn [on_block on_mem mem obj_key set_msg_info_size msg_size_ msg_info_size_]. split_and!; try done.
    + apply elem_of_app. right. by apply list_elem_of_singleton.
    + rewrite <- M2 at 3. apply load_ext. intros a Ha. apply store_outside. lia.
    + change Info.kSize with 24%nat. rewrite <- Hi24. apply load_store.
Qed.

(** A reader is given what was sent. *)
Lemma reader_gets m ts st gt i s rb g :
  inv (mkConfig m ts st gt) -> ts !! i = Some (mkThread s (Reading rb)) -> get_message Hash rb m = Ret (Some g) ->
  exists ch0 info0, (ch0, fst g, info0) ∈ st /\ shm_key ch0 = shm_key (channel_id_ s) /\
    snd g = Info.received Hash info0 info_new.
Proof.
  intros I Hi E. pose proof (i_threads _ I _ _ Hi) as Ht. pose proof Ht as (_ & _ & W1 & W2 & W3). cbn in W1, W2, W3.
  destruct (grip_exists m _ false _ _ Ht eq_refl) as (ob & b & Ho & Hb & _ & Hc & Hk & _). cbn in Hc, Hk.
  assert (H1 : 1 <= count (has_grip false (block rb) (Z.to_nat (index rb))) ts)
    by (eapply count_one; [done|by apply bool_decide_eq_true_2]).
  pose proof (i_locks _ I _ _ _ _ Ho Hb) as Hl. cbn in Hl. destruct Hl as [[Hw Hl]|(Hw & Hr & Hl)]; [|lia].
  destruct (no_writer m ts st gt _ _ ob b I Ho Hb ltac:(lia)) as (_ & _ & N3).
  assert (Hs : holds_sent st ob (Z.to_nat (index rb)) b).
  { eapply (i_blocks _ I); [done|done|]. cbn. intros j u Hj Hu. by apply (N3 j u Hj), halfway_grip. }
  unfold get_message, load_at in E. rewrite W3, Ho in E. cbn [mbind option_bind] in E. rewrite Hb in E. rewrite Hc in E.
  destruct (_ <=? obj_size ob); [|done]. cbn [bind] in E.
  destruct Hs as [Hs|(ch & msg & info & S1 & S2 & S3 & S4 & S5 & S6 & S7 & S8)].
  - rewrite Hs in E. by destruct (_ <=? obj_size ob).
  - rewrite Z2Nat.id in S7, S8 by lia. rewrite S4, S5, Nat2Z.id, S8, (Info.deserialize_info Hash info info_new S3) in E.
    destruct (_ <=? obj_size ob); [|done]. cbn [bind] in E. injection E as <-. rewrite Nat2Z.id, S7.
    exists ch, info. cbn. split_and!; try done. congruence.
Qed.

(** ** Constructing what was made *)

Definition constructed (c : ShmConf) (o : nat) (m : Shm) : Shm :=
  with_object o (fun ob => on_state IncreaseReferenceCounts (construct c ob)) m.

Section finish.
Context (o : nat) (m : Shm) (ob : Object) (n : Z) (Ho : objects m !! o = Some ob) (Hb : blocks ob = [])
  (Hsz : obj_size ob = managed_shm_size_ (Update n)).

Abbreviation m' := (constructed (Update n) o m).

Lemma constructed_new : exists ob', objects m' !! o = Some ob' /\ built ob' /\ fresh ob' /\ obj_key ob' = obj_key ob /\
  conf_of ob' = Update n.
Proof.
  assert (Hc : forall ob', st_ceiling_msg_size_ (state ob') = ceiling_msg_size_ (Update n) -> conf_of ob' = Update n).
  { intros ob' E. unfold conf_of. rewrite E. apply Update_ceiling. }
  eexists. split; [unfold constructed; by rewrite with_object_lookup, decide_True, Ho|].
  split; [|split; [by apply Forall_replicate|by split; [|apply Hc]]].
  constructor; rewrite Hc by done; cbn [on_state construct state blocks obj_size state_new IncreaseReferenceCounts
    st_ceiling_msg_size_]; rewrite ?Update_ceiling; [done|by rewrite length_replicate|done].
Qed.

Lemma constructed_other o1 : o1 <> o -> objects m' !! o1 = objects m !! o1.
Proof. intros Hne. unfold constructed. by rewrite with_object_lookup, decide_False. Qed.

(** What has blocks stays what it is. *)
Lemma constructed_keeps o1 ob1 : objects m !! o1 = Some ob1 -> blocks ob1 <> [] -> objects m' !! o1 = Some ob1.
Proof. intros H Hne. rewrite constructed_other; [done|]. intros ->. congruence. Qed.

Lemma constructed_world : world_ok m -> world_ok m'.
Proof.
  intros [W1 W2]. destruct constructed_new as (ob' & N1 & N2 & N3 & N4 & N5). constructor.
  - intros k o1 Hk. destruct (W1 k o1 Hk) as (ob1 & Ho1 & E1). destruct (decide (o1 = o)) as [->|Hne].
    + exists ob'. split; [done|]. congruence.
    + exists ob1. by rewrite constructed_other.
  - intros o1 ob1. destruct (decide (o1 = o)) as [->|Hne]; [rewrite N1; intros [= <-]; by left|].
    rewrite constructed_other by done. apply W2.
Qed.

Lemma constructed_thread t :
  maker t <> Some o -> thread_ok m t -> thread_ok m' t.
Proof.
  intros Hne Ht. pose proof Ht as ([H1 H1'] & H2 & H3).
  assert (Hmade : forall k o1 s, o1 <> o -> made k o1 s m -> made k o1 s m').
  { intros k o1 s Ho1 (Hi & ob1 & E & M). split; [done|]. exists ob1. by rewrite constructed_other. }
  split; [split; [done|]|split; [done|]].
  - intros Hi. destruct (H1' Hi) as (o1 & ob1 & M1 & M2 & M3 & M4 & M5 & M6 & M7). exists o1, ob1.
    split_and!; try done. apply constructed_keeps; [done|]. intros E. pose proof (built_blocks _ M4) as L1. rewrite E in L1.
    pose proof (block_num_pos (st_ceiling_msg_size_ (state ob1))) as Hp. unfold conf_of in L1. cbn [length] in L1. lia.
  - unfold maker in Hne. destruct (at_ t) as [| | | | | | | | | | |wb msg info| | | | |] eqn:E; cbn in *; try done;
      try (destruct H3 as [? Hm]; split; [done|]; apply Hmade; [congruence|done]).
    destruct H3 as (W & F & Hm). split; [done|]. split; [done|].
    destruct (grip_exists m t true (block wb) (Z.to_nat (index wb)) Ht) as (ob1 & b & Ho1 & Hb1 & _); [unfold grip; by rewrite E|].
    intros ob2 b2 Ho2 Hb2. assert (Hne1 : blocks ob1 <> []) by (intros E1; by rewrite E1 in Hb1).
    rewrite (constructed_keeps _ _ Ho1 Hne1) in Ho2. injection Ho2 as <-. by apply Hm.
Qed.
End finish.

Lemma inv_finish m ts st gt i s p t' o n :
  inv (mkConfig m ts st gt) -> ts !! i = Some (mkThread s p) -> maker (mkThread s p) = Some o ->
  conf_ s = Update n -> made (shm_key (channel_id_ s)) o s m ->
  grip t' = None -> maker t' = None -> seg t' = attach o (ceiling_msg_size_ (conf_ s)) s ->
  pc_ok (seg t') (constructed (conf_ s) o m) (at_ t') ->
  inv (mkConfig (constructed (conf_ s) o m) (<[i := t']> ts) st gt).
Proof.
  intros I Hi Hmk Hc (_ & ob & Ho & Hb & Hk & Hsz) Hg' Hmk' Hseg Hpc. rewrite Hc in *.
  assert (Hg : grip (mkThread s p) = None) by (unfold maker, grip in *; cbn in *; by destruct p).
  destruct I as [I1 I2 IM I3 I4 I5]. cbn [shm threads sent got] in *.
  destruct (constructed_new o m ob n Ho Hsz) as (ob' & N1 & N2 & N3 & N4 & N5).
  constructor; cbn [shm threads sent got]; [by eapply constructed_world| | | | |done].
  - intros j u Hj. apply list_lookup_insert_Some in Hj as [(<- & <- & _)|[Hne Hj]].
    + split; [|split; [by rewrite Hseg|done]]. rewrite Hseg. split; [by eexists|]. intros _.
      exists o, ob'. do 3 (split; [done|]). split; [done|]. split; [cbn [attach channel_id_]; congruence|]. rewrite N5. cbn [attach conf_].
      split; [apply Update_ceiling|]. cbn [block_buf_addrs_]. intros k Hkr. apply add_addrs_lookup.
      pose proof (block_num_pos (ceiling_msg_size_ (Update n))). lia.
    + eapply constructed_thread; [done|done| |by eauto]. by eapply (IM i j).
  - eapply makers_insert; [exact I2|done|done|]. intros o1. by rewrite Hmk'.
  - intros o1 ob1 k b Ho1 Hb1. rewrite !(count_no_grip _ _ _ _ _ (mkThread s p)) by done.
    destruct (decide (o1 = o)) as [->|Hne]; [|rewrite constructed_other in Ho1 by done; by eapply I3].
    assert (ob1 = ob') as -> by congruence. unfold fresh in N3. rewrite Forall_lookup in N3.
    rewrite <- (N3 _ _ Hb1). left.
    assert (Hz : forall w, count (has_grip w o k) ts = 0); [|by rewrite !Hz].
    intros w. apply count_zero. intros j u Hj. apply bool_decide_eq_false_2. intros Hgr.
    destruct (grip_exists m u w o k (I2 _ _ Hj) Hgr) as (ob2 & b2 & Ho2 & Hb2 & _). assert (ob2 = ob) as -> by congruence.
    by rewrite Hb in Hb2.
  - intros o1 ob1 k b Ho1 Hb1 Hh. destruct (decide (o1 = o)) as [->|Hne].
    + assert (ob1 = ob') as -> by congruence. unfold fresh in N3. rewrite Forall_lookup in N3. rewrite <- (N3 _ _ Hb1). by left.
    + rewrite constructed_other in Ho1 by done. eapply I4; [done|done|]. intros j u Hj. destruct (decide (j = i)) as [->|Hji].
      * assert (u = mkThread s p) as -> by congruence. by apply no_grip_not_half.
      * apply (Hh j u). by rewrite list_lookup_insert_ne.
Qed.

(** Either outcome of [Finish], for the opening and for the recreation. *)
Lemma inv_Finish m ts st gt i s p p' e o r s' m' :
  inv (mkConfig m ts st gt) -> ts !! i = Some (mkThread s p) -> maker (mkThread s p) = Some o ->
  made (shm_key (channel_id_ s)) o s m -> Finish e o s m = (r, s', m') ->
  grip (mkThread s' p') = None -> maker (mkThread s' p') = None -> (r = true -> pc_ok s' m' p') ->
  inv (mkConfig m' (<[i := mkThread s' (if r : bool then p' else Idle)]> ts) st gt).
Proof.
  intros I Hi Hmk Hmade E Hg Hmk' Hp. pose proof (i_threads _ I _ _ Hi) as (H1 & _). cbn in H1.
  destruct (mmap_fails e) eqn:Hf.
  - destruct (Finish_fails e o s m (i_world _ I) H1 (proj1 Hmade) Hf) as (s1 & m1 & E1 & V & Hi1).
    rewrite E in E1. injection E1 as -> -> ->.
    eapply inv_grow; [done|done| |done|done|apply V|apply V|].
    + unfold maker, grip in *. cbn in *. by destruct p.
    + eapply evolved_thread; [done| |done|done]. intros H. congruence.
  - unfold Finish in E. rewrite Hf in E. injection E as <- <- <-. destruct (proj1 H1) as [n Hn].
    eapply inv_finish; try done. by apply Hp.
Qed.

Lemma shm_inv_step c c' : inv c -> len (threads c) < 2147483648 -> step c c' -> undisturbed c' -> inv c'.
Proof.
  intros I Hn Hs U. pose proof (i_world _ I) as W. destruct Hs as
    [m ts st gt i s e msg info r s' m' Hi Hm Hv E | m ts st gt i s e msg info o s' m' Hi Hm Hv E
    | m ts st gt i s e o msg info r s' m' Hi E | m ts st gt i s msg info b Hi E
    | m ts st gt i s e msg info r s' m' Hi E | m ts st gt i s msg info Hi E | m ts st gt i s msg info s' m' Hi E1 E
    | m ts st gt i s msg info Hi | m ts st gt i s e msg info r s' m' Hi E | m ts st gt i s e msg info o s' m' Hi E
    | m ts st gt i s e o msg info r s' m' Hi E
    | m ts st gt i s msg info k m' Hi E
    | m ts st gt i s k msg info ok m' Hi E | m ts st gt i s wb msg info m' Hi E
    | m ts st gt i s wb msg info m' Hi E | m ts st gt i s wb msg info m' Hi E
    | m ts st gt i s wb msg info m' Hi E | m ts st gt i s e k r s' m' Hi Hk E
    | m ts st gt i s k b Hi E | m ts st gt i s e k r s' m' Hi E
    | m ts st gt i s fails k rb m' Hi E | m ts st gt i s rb g Hi E | m ts st gt i s rb m' Hi E
    | m ts st gt i s r s' m' Hi E]; cbn in W, Hn; pose proof (i_threads _ I _ _ Hi) as Ht; cbn in Ht;
    pose proof Ht as (H1 & H2 & H3); cbn in H1, H2, H3;
    pose proof (lookup_lt_Some _ _ _ Hi) as Hlt;
    try (pose proof (U i _ (list_lookup_insert_eq _ _ _ Hlt)) as [Uf Us]; cbn in Uf, Us).
  - pose proof (open_to_write_evolves e s m W H1) as V. rewrite E in V. destruct V as [V P].
    eapply inv_grow; [done|done|done|by destruct r|by destruct r|apply V|apply V|].
    eapply evolved_thread; [done|done|by destruct r|by destruct r].
  - pose proof (open_to_write_evolves e s m W H1) as V. rewrite E in V. destruct V as (V & P & Hnew).
    eapply inv_grow; [done|done|done|done|by intros ? [= <-]; right|apply V|apply V|].
    eapply evolved_thread; [done|done|done|]. cbn [pc_ok]. rewrite (ev_channel _ _ _ _ _ V). done.
  - eapply (inv_Finish m ts st gt i s _ (Ready msg info) e o); try done. apply H3. intros _. apply H3.
  - eapply inv_grow; [done|done|done|by destruct b|by destruct b|apply grows_refl|done|].
    split; [done|]. split; destruct b; cbn; [by intros _; apply H2|done|done|]. split; [done|]. intros _. by apply H2.
  - destruct (Remap_evolves e s m r s' m' W H1 E) as [V P].
    eapply inv_grow; [done|done|done|by destruct (r || _)|by destruct (r || _)|apply V|apply V|].
    eapply evolved_thread; [done|done|by destruct (r || _)|]. destruct r; cbn [orb]; [by split; [|intros _; apply P]|].
    destruct (too_small _ _) eqn:Ez; [|done]. split; [done|]. by rewrite Ez.
  - eapply inv_grow; [done|done|done|done|done|apply grows_refl|done|]. split; [done|]. split; [intros _; by apply H3|].
    split; [|apply H3]. apply Z.ltb_ge in E. exact E.
  - destruct (Recreate_mark_evolves s m s' m' W H1 E) as [V P].
    eapply inv_grow; [done|done|done|done|done|apply V|apply V|]. eapply evolved_thread; [done|done|done|]. by split; [apply H3|].
  - destruct (Remove_grows s m W) as [G W1]. eapply inv_grow; [done|done|done|done|done|done|done|].
    split; [by eapply handle_grows|done].
  - assert (H1' : handle_ok (shm_key (channel_id_ s)) (set_conf (Update (len msg)) s) m).
    { split; [by eexists|]. intros Hi'. cbn in Hi'. destruct H3 as [_ H3]. congruence. }
    pose proof (open_or_make_law e (set_conf (Update (len msg)) s) m W H1') as V. rewrite E in V. destruct V as [V P].
    apply (evolves_from _ s) in V; [|done]. change (channel_id_ (set_conf (Update (len msg)) s)) with (channel_id_ s) in V.
    eapply inv_grow; [done|done|done|by destruct r|by destruct r|apply V|apply V|].
    eapply evolved_thread; [done|done|by destruct r|]. destruct r; [|done]. split; [|apply H3].
    pose proof (Us _ _ eq_refl) as Hsm. by apply Z.ltb_ge in Hsm.
  - assert (H1' : handle_ok (shm_key (channel_id_ s)) (set_conf (Update (len msg)) s) m).
    { split; [by eexists|]. intros Hi'. cbn in Hi'. destruct H3 as [_ H3]. congruence. }
    pose proof (open_or_make_law e (set_conf (Update (len msg)) s) m W H1') as V. rewrite E in V. destruct V as (V & P & Hnew).
    apply (evolves_from _ s) in V; [|done]. change (channel_id_ (set_conf (Update (len msg)) s)) with (channel_id_ s) in V.
    eapply inv_grow; [done|done|done|done|by intros ? [= <-]; right|apply V|apply V|].
    eapply evolved_thread; [done|done|done|]. cbn [pc_ok]. rewrite (ev_channel _ _ _ _ _ V). by split; [apply H3|].
  - eapply (inv_Finish m ts st gt i s _ (Seeking msg info) e o); try done; [apply H3|]. intros ->.
    split; [|apply H3]. pose proof (Us _ _ eq_refl) as Hsm. by apply Z.ltb_ge in Hsm.
  - destruct (next_index_evolves s m W H1 ltac:(by apply H2)) as (k1 & m1 & E1 & Q1 & Q2 & Q3 & Q4).
    rewrite E in E1. injection E1 as <- <-. eapply inv_grow; [done|done|done|done|done|done|done|]. split; [done|]. split; [|by split].
    intros _. by apply H2.
  - by apply (inv_write_try m ts st gt i s k msg info ok m').
  - eapply inv_release_write; eauto.
  - by apply (inv_write_message m).
  - by apply (inv_write_info m).
  - eapply inv_release_write; eauto.
  - destruct (open_to_read_evolves e s m r s' m' W H1 E) as [V P].
    eapply inv_grow; [done|done|done|by destruct (negb r || _)|by destruct (negb r || _)|apply V|apply V|].
    eapply evolved_thread; [done|done| |by destruct (negb r || _)]. destruct r; cbn [negb orb]; [by intros _; apply P|done].
  - eapply inv_grow; [done|done|done|by destruct b|by destruct b|apply grows_refl|done|].
    split; [done|]. by split; destruct b.
  - destruct (Remap_evolves e s m r s' m' W H1 E) as [V P].
    eapply inv_grow; [done|done|done|by destruct r|by destruct r|apply V|apply V|].
    eapply evolved_thread; [done|done|by destruct r|by destruct r].
  - by eapply inv_read_lock.
  - destruct g as [[msg info]|]; [|by rewrite app_nil_r].
    destruct (reader_gets m ts st gt i s rb (msg, info) I Hi E) as (ch0 & info0 & G1 & G2 & G3).
    destruct I as [I1 I2 IM I3 I4 I5]. constructor; cbn in *; [done..|]. intros ch msg1 info1 Hin.
    apply elem_of_app in Hin as [Hin|Hin]; [by apply I5|]. apply list_elem_of_singleton in Hin. injection Hin as -> -> ->.
    exists ch0, info0. done.
  - by eapply inv_release_read.
  - destruct (Destroy_evolves s m W H1) as (r1 & s1 & m1 & E1 & G & W1). rewrite E in E1. injection E1 as <- <- <-.
    eapply inv_grow; [done|done|done|done|done|done|done|]. split; [|done]. split; [by eexists|done].
Qed.

Lemma step_length c c' : step c c' -> length (threads c') = length (threads c).
Proof. intros Hs. destruct Hs; cbn; by rewrite ?length_insert. Qed.

Lemma start_inv channels : inv (start channels).
Proof.
  assert (H : forall i t, threads (start channels) !! i = Some t -> exists ch, t = mkThread (segment_new ch) Idle).
  { intros i t Hi. apply list_lookup_fmap_Some in Hi as (ch & -> & _). by exists ch. }
  constructor; cbn [shm sent got start]; try done.
  - intros i t Hi. destruct (H i t Hi) as [ch ->]. split; [|done]. split; [by eexists|done].
  - intros i j t u o _ Hi _ Hm. by destruct (H i t Hi) as [ch ->].
  - intros ch msg info Hin. by apply elem_of_nil in Hin.
Qed.

Lemma shm_reachable_inv channels c : len channels < 2147483648 -> rtc calm_step (start channels) c -> inv c.
Proof.
  intros Hn Hr.
  assert (H : inv c /\ len (threads c) < 2147483648); [|apply H].
  apply (rtc_invariant calm_step (fun c => inv c /\ len (threads c) < 2147483648) (start channels)); [| |done].
  - split; [apply start_inv|]. cbn. by rewrite length_fmap.
  - intros y z [I Hl] [Hs U]. split; [by eapply shm_inv_step|]. by rewrite (step_length _ _ Hs).
Qed.

(** C2: any number of writers and readers of any channels run in any interleaving of their pieces:
    opening, making and constructing memory, testing for and doing a remapping, marking,
    unlinking and making anew in a recreation, drawing an index, locking, copying, releasing,
    closing; any system call may fail.  As long as nobody maps memory that its creator has not
    constructed, and nobody begins to look for a block with blocks too small for its message
    ([undisturbed], in every state of the run), a reader is only ever given whole
    messages that were sent under the name of its channel, with the information they were sent
    with; and no two threads hold a block of which one of them writes. *)
Theorem no_torn_read (channels : list Z) (c : Config) (Hn : len channels < 2147483648)
    (Hr : rtc calm_step (start channels) c) :
  (forall ch msg info, (ch, msg, info) ∈ got c ->
     exists ch0 info0, (ch0, msg, info0) ∈ sent c /\ shm_key ch0 = shm_key ch /\
       info = Info.received Hash info0 info_new) /\
  (forall i j ti tj o k w, i <> j -> threads c !! i = Some ti -> threads c !! j = Some tj ->
     grip ti = Some (true, o, k) -> grip tj <> Some (w, o, k)).
Proof.
  pose proof (shm_reachable_inv channels c Hn Hr) as I. split; [apply (i_got _ I)|].
  intros i j ti tj o k w Hne Hi Hj Hg Hg'. destruct c as [m ts st gt].
  destruct (writer_alone m ts st gt i ti o k I Hi Hg) as (ob & b & Ho & Hb & Hl & Hr0 & Hw & Hno).
  destruct w; [by apply (Hno j tj)|].
  assert (1 <= count (has_grip false o k) ts) by (eapply count_one; [done|by apply bool_decide_eq_true_2]). lia.
Qed.

(** ** Running the system *)

(** What thread [i] does next, with the system calls of [e] and, for a reader, the lost exchanges. *)
Inductive action :=
| AWrite (i : nat) (e : Sys) (msg : bytes) (info : MessageInfo)
| ARead (i : nat) (e : Sys) (k : Z)
| ANext (i : nat) (e : Sys) (fails : nat)
| AGet (i : nat)
| AClose (i : nat).

(** The next piece of a thread that is in the middle of a transmission or of a reception. *)
Definition next_piece (e : Sys) (fails : nat) (s : Segment) (p : pc) (m : Shm)
    : option (Segment * pc * Shm * list (Z * bytes * MessageInfo)) :=
  let go r := Some (r, []) in
  match p with
  | Creating o msg info =>
      let '(r, s', m') := Finish e o s m in go (s', if r : bool then Ready msg info else Idle, m')
  | Ready msg info =>
      match stale s m with Ret b => go (s, if b : bool then Outdated msg info else Remapped msg info, m) | _ => None end
  | Outdated msg info =>
      let '(r, s', m') := Remap e s m in
      go (s', if r || too_small (len msg) s' then Remapped msg info else Idle, m')
  | Remapped msg info =>
      if too_small (len msg) s then
        match Recreate_mark s m with Ret (s', m') => go (s', Marked msg info, m') | _ => None end
      else go (s, Seeking msg info, m)
  | Marked msg info => go (s, Dropped msg info, snd (Remove s m))
  | Dropped msg info =>
      match OpenOrMake e (set_conf (Update (len msg)) s) m with
      | Opened r s' m' => go (s', if r : bool then Seeking msg info else Idle, m')
      | Made o s' m' => go (s', Recreating o msg info, m')
      end
  | Recreating o msg info =>
      let '(r, s', m') := Finish e o s m in go (s', if r : bool then Seeking msg info else Idle, m')
  | Seeking msg info => match next_index s m with Ret (k, m') => go (s, Trying k msg info, m') | _ => None end
  | Trying k msg info =>
      match try_write k s m with
      | Ret (ok, m') => go (s, if ok : bool then Acquired (block_at k s) msg info else Seeking msg info, m')
      | _ => None
      end
  | Acquired wb msg info => match put_message msg wb m with Ret m' => go (s, Half wb msg info, m') | _ => None end
  | Half wb msg info =>
      match put_info (len msg) info wb m with
      | Ret (true, m') => Some (s, Filled wb msg info, m', [(channel_id_ s, msg, info)])
      | _ => None
      end
  | Filled wb msg info => match ReleaseWrittenBlock wb s m with Ret m' => go (s, Idle, m') | _ => None end
  | Looking k => match stale s m with Ret b => go (s, if b : bool then Behind k else Locking k, m) | _ => None end
  | Behind k => let '(r, s', m') := Remap e s m in go (s', if r : bool then Locking k else Idle, m')
  | Locking k =>
      match try_read fails k s m with
      | Ret (rb, m') => go (s, match rb with Some rb => Reading rb | None => Idle end, m')
      | _ => None
      end
  | Reading rb => match ReleaseReadBlock rb s m with Ret m' => go (s, Idle, m') | _ => None end
  | Idle => None
  end.

Definition act (a : action) (c : Config) : option Config :=
  let m := shm c in let ts := threads c in let st := sent c in let gt := got c in
  let upd i m' t := Some (mkConfig m' (<[i := t]> ts) st gt) in
  match a with
  | AWrite i e msg info =>
      match ts !! i with
      | Some (mkThread s Idle) =>
          if (len msg <=? MESSAGE_SIZE_MORE) && bool_decide (Info.valid info) then
            match open_to_write e s m with
            | Opened r s' m' => upd i m' (mkThread s' (if r : bool then Ready msg info else Idle))
            | Made o s' m' => upd i m' (mkThread s' (Creating o msg info))
            end
          else None
      | _ => None
      end
  | ARead i e k =>
      match ts !! i with
      | Some (mkThread s Idle) =>
          if 0 <=? k then
            let '(r, s', m') := open_to_read e s m in
            upd i m' (mkThread s' (if negb r || no_block k s' then Idle else Looking k))
          else None
      | _ => None
      end
  | ANext i e fails =>
      match ts !! i with
      | Some (mkThread s p) =>
          '(s', p', m', more) ← next_piece e fails s p m;
          Some (mkConfig m' (<[i := mkThread s' p']> ts) (st ++ more) gt)
      | None => None
      end
  | AGet i =>
      match ts !! i with
      | Some (mkThread s (Reading rb)) =>
          match get_message Hash rb m with
          | Ret g => Some (mkConfig m ts st (gt ++ match g with
                                                   | Some (msg, info) => [(channel_id_ s, msg, info)]
                                                   | None => [] end))
          | _ => None
          end
      | _ => None
      end
  | AClose i =>
      match ts !! i with
      | Some (mkThread s Idle) =>
          match Destroy s m with
          | Ret (r, s', m') => upd i m' (mkThread (segment_new (channel_id_ s)) Idle)
          | _ => None
          end
      | _ => None
      end
  end.

(** The test of [undisturbed]. *)
Definition undisturbed_thread (m : Shm) (t : Thread) : bool :=
  negb (init_ (seg t) && match state_ (seg t) ≫= fun o => objects m !! o with
                         | Some ob => match blocks ob with [] => true | _ => false end
                         | None => false end) &&
  match at_ t with Seeking msg _ => negb (too_small (len msg) (seg t)) | _ => true end.

Fixpoint acts (l : list action) (c : Config) : option Config :=
  match l with
  | [] => Some c
  | a :: l' => c' ← act a c; if forallb (undisturbed_thread (shm c')) (threads c') then acts l' c' else None
  end.

Lemma next_piece_step e fails m ts st gt i s p s' p' m' more :
  ts !! i = Some (mkThread s p) -> next_piece e fails s p m = Some (s', p', m', more) ->
  step (mkConfig m ts st gt) (mkConfig m' (<[i := mkThread s' p']> ts) (st ++ more) gt).
Proof.
  intros Hi E. destruct p; cbn [next_piece] in E; try done;
    repeat match type of E with
    | context [Finish ?e ?o ?s ?m] => destruct (Finish e o s m) as [[??]?] eqn:?
    | context [Remap ?e ?s ?m] => destruct (Remap e s m) as [[??]?] eqn:?
    | context [OpenOrMake ?e ?s ?m] => destruct (OpenOrMake e s m) as [???|???] eqn:?
    | (match ?x with Ret _ => _ | Crash => _ | Spin => _ end) = _ => destruct x as [?| |] eqn:?; try done
    | (let '(_, _) := ?x in _) = _ => destruct x as [? ?]
    | (if too_small ?n ?s then _ else _) = _ => destruct (too_small n s) eqn:?
    | (if ?b then Some _ else None) = _ => destruct b eqn:?; try done
    end; simplify_eq; rewrite ?app_nil_r; solve [by econstructor | by eapply write_refinish | by eapply write_end].
Qed.

Lemma act_step a c c' : act a c = Some c' -> step c c'.
Proof.
  destruct c as [m ts st gt]. unfold act. cbn [shm threads sent got]. intros E.
  destruct a; destruct (ts !! i) as [[s p]|] eqn:Hi; try done.
  - destruct p; try done. destruct (_ && _) eqn:Hc; [|done]. to_prop. apply bool_decide_eq_true_1 in H0.
    destruct (open_to_write _ _ _) as [r s' m'|o s' m'] eqn:Ep; injection E as <-; by econstructor.
  - destruct p; try done. destruct (0 <=? k) eqn:Hk; [|done]. to_prop.
    destruct (open_to_read _ _ _) as [[r s'] m'] eqn:Ep. injection E as <-. by econstructor.
  - apply bind_Some in E as ([[[s' p'] m'] more] & Ep & [= <-]). by eapply next_piece_step.
  - destruct p; try done. destruct (get_message Hash rb m) as [g| |] eqn:Ep; try done. injection E as <-. by econstructor.
  - destruct p; try done. destruct (Destroy s m) as [[[r s'] m']| |] eqn:Ep; try done. injection E as <-. by econstructor.
Qed.

Lemma undisturbed_thread_ok m t :
  undisturbed_thread m t = true -> finished (seg t) m /\ forall msg info, at_ t = Seeking msg info -> too_small (len msg) (seg t) = false.
Proof.
  unfold undisturbed_thread. intros H. apply andb_true_iff in H as [H1 H2]. split.
  - intros Hi o ob Hs Ho Hb. rewrite Hi, Hs in H1. cbn in H1. rewrite Ho, Hb in H1. done.
  - intros msg info E. rewrite E in H2. by apply negb_true_iff in H2.
Qed.

Lemma acts_steps l c c' : acts l c = Some c' -> rtc calm_step c c'.
Proof.
  revert c. induction l as [|a l IH]; intros c E; cbn in E; [injection E as <-; apply rtc_refl|].
  apply bind_Some in E as (c1 & E1 & E2). destruct (forallb _ _) eqn:Hu; [|done].
  eapply rtc_l; [|by apply IH]. split; [by eapply act_step|]. intros i t Hi. apply undisturbed_thread_ok.
  rewrite forallb_forall in Hu. apply Hu. apply list_elem_of_In. by eapply list_elem_of_lookup_2.
Qed.
End safety.

(** Thread 0 sends two messages, the second, for which it recreates the memory with larger blocks,
    while thread 1 holds the block of the first; then thread 1 remaps and reads the second. *)
Definition example_info (n : Z) : MessageInfo := mkInfo (mkIdentity (to_bytes 8 77) 0) 0 n identity_zero.

Definition large_message : bytes := replicate (Z.to_nat 17000) 4.

Definition example_run : list action :=
  let next i := ANext i sys_ok 0 in
  [AWrite 0 sys_ok [1; 2; 3] (example_info 1)] ++ replicate 8 (next 0%nat) ++
  [ARead 1 sys_ok 0; next 1%nat; next 1%nat; AWrite 0 sys_ok large_message (example_info 2)] ++ replicate 4 (next 0%nat) ++
  [AGet 1] ++ replicate 2 (next 0%nat) ++ [next 1%nat] ++ replicate 4 (next 0%nat) ++
  [ARead 1 sys_ok 0; next 1%nat; next 1%nat; next 1%nat; AGet 1].

Definition example_end : option Config := acts (K := PosixSegment) of_bytes example_run (start [5; 5]).

Lemma no_torn_read_witness :
  exists c, example_end = Some c /\ map (fun g => snd (fst g)) (got c) = [[1; 2; 3]; large_message] /\
    forall ch msg info, (ch, msg, info) ∈ got c -> exists ch0 info0, (ch0, msg, info0) ∈ sent c /\ ch0 = ch.
Proof.
  assert (H : match example_end with
              | Some c => map (fun g => snd (fst g)) (got c) = [[1; 2; 3]; large_message]
              | None => False
              end) by (vm_compute; reflexivity).
  destruct example_end as [c|] eqn:E; [|destruct H]. exists c. split; [reflexivity|]. split; [exact H|].
  intros ch msg info Hg.
  destruct (proj1 (no_torn_read (K := PosixSegment) of_bytes [5; 5] c ltac:(done) (acts_steps of_bytes _ _ _ E)) ch msg info Hg)
    as (ch0 & info0 & H1 & H2 & _).
  exists ch0, info0. split; [exact H1|exact H2].
Defined.
