(* ===== verification/ShmDelivery.v ===== *)
(** * ShmDelivery: messages sent through shared memory arrive

    A transmitter and a dispatcher on one host, of either kind of segment, that take turns, with
    system calls that succeed: every message that [Transmit] sends is delivered by [on_readable], through the
    first opening, and through every change to larger blocks.  Then the interleavings of
    several processes in which the code does not keep this promise. *)

From S2P Require Import Prelude ShmConf ShmMessage ShmSegment ShmKinds ShmTransport ShmSafety.

(** ** What the system calls do when they succeed *)

Class SegmentLive (K : SegmentKind) : Prop := {
  open_live : forall s m o ob,
    init_ s = false -> names m !! shm_key (channel_id_ s) = Some o -> objects m !! o = Some ob -> obj_size ob <> 0 ->
    OpenOnly sys_ok s m = (true, attach o (st_ceiling_msg_size_ (state ob)) s, with_object o (on_state IncreaseReferenceCounts) m);
  create_live : forall s m,
    init_ s = false -> names m !! shm_key (channel_id_ s) = None ->
    OpenOrCreate sys_ok s m =
      (let '(o, m1) := create (shm_key (channel_id_ s)) (managed_shm_size_ (conf_ s)) m in
       (true, attach o (ceiling_msg_size_ (conf_ s)) s,
        with_object o (fun ob => on_state IncreaseReferenceCounts (construct (conf_ s) ob)) m1));
  open_missing_live : forall s m,
    init_ s = false -> names m !! shm_key (channel_id_ s) = None -> OpenOnly sys_ok s m = (false, s, m);
  open_existing_live : forall s m,
    init_ s = false -> is_Some (names m !! shm_key (channel_id_ s)) -> OpenOrCreate sys_ok s m = OpenOnly sys_ok s m;
  remove_live : forall s m, snd (Remove s m) = shm_unlink (shm_key (channel_id_ s)) m;
}.

Lemma unlink_absent k m : names m !! k = None -> shm_unlink k m = m.
Proof. intros H. unfold shm_unlink. rewrite delete_id by done. by destruct m. Qed.

#[export] Instance PosixLive : SegmentLive PosixSegment.
Proof.
  constructor; cbn [shm_key OpenOnly OpenOrMake Remove PosixSegment].
  - intros s m o ob Hi Hn Ho Hz. unfold Posix.OpenOnly. rewrite Hi. cbn. rewrite Hn, Ho.
    by rewrite (proj2 (Z.eqb_neq _ _) Hz).
  - intros s m Hi Hn. unfold OpenOrCreate. cbn [OpenOrMake PosixSegment]. unfold Posix.OpenOrMake. rewrite Hi.
    cbn [open_fails ftruncate_fails sys_ok]. by rewrite Hn.
  - intros s m Hi Hn. unfold Posix.OpenOnly. rewrite Hi. cbn [open_fails sys_ok]. by rewrite Hn.
  - intros s m Hi [o Hn]. unfold OpenOrCreate. cbn [OpenOrMake PosixSegment]. unfold Posix.OpenOrMake. rewrite Hi.
    cbn [open_fails sys_ok]. rewrite Hn. by destruct (Posix.OpenOnly _ _ _) as [[??]?].
  - intros s m. unfold Posix.Remove. destruct (names m !! _) eqn:E; [done|]. cbn. by rewrite unlink_absent.
Qed.

#[export] Instance XsiLive : SegmentLive XsiSegment.
Proof.
  constructor; cbn [shm_key OpenOnly OpenOrMake Remove XsiSegment].
  - intros s m o ob Hi Hn Ho Hz. unfold Xsi.OpenOnly. rewrite Hi. cbn. rewrite Hn, Ho.
    by rewrite (proj2 (Z.eqb_neq _ _) Hz).
  - intros s m Hi Hn. unfold OpenOrCreate. cbn [OpenOrMake XsiSegment]. unfold Xsi.OpenOrMake. rewrite Hi.
    cbn [einval_times sys_ok Xsi.shmget_loop]. by rewrite Hn.
  - intros s m Hi Hn. unfold Xsi.OpenOnly. rewrite Hi. cbn [open_fails sys_ok]. by rewrite Hn.
  - intros s m Hi [o Hn]. unfold OpenOrCreate. cbn [OpenOrMake XsiSegment]. unfold Xsi.OpenOrMake. rewrite Hi.
    cbn [einval_times sys_ok Xsi.shmget_loop]. rewrite Hn. by destruct (Xsi.OpenOnly _ _ _) as [[??]?].
  - intros s m. unfold Xsi.Remove. destruct (names m !! _) eqn:E; [done|]. cbn. by rewrite unlink_absent.
Qed.

(** ** Operations on one object *)

Lemma with_object_compose o f g m : with_object o f (with_object o g m) = with_object o (f ∘ g) m.
Proof.
  unfold with_object. cbn. f_equal. apply list_eq. intros j. destruct (decide (j = o)) as [->|Hne].
  - rewrite !list_lookup_alter_eq. by destruct (objects m !! o).
  - by rewrite !list_lookup_alter_ne.
Qed.

Lemma object_of_with o f m ob :
  objects m !! o = Some ob -> object_of (Some o) (with_object o f m) = Ret (o, f ob).
Proof. intros H. unfold object_of. rewrite with_object_lookup, decide_True, H by done. done. Qed.

Lemma lookup_with o f m ob : objects m !! o = Some ob -> objects (with_object o f m) !! o = Some (f ob).
Proof. intros H. by rewrite with_object_lookup, decide_True, H. Qed.

Lemma block_num_antitone a b :
  ceiling_msg_size_ (Update a) <= ceiling_msg_size_ (Update b) -> block_num_ (Update b) <= block_num_ (Update a).
Proof.
  destruct (Update_cases a) as [Ea|[Ea|[Ea|[Ea|[Ea|Ea]]]]]; destruct (Update_cases b) as [Eb|[Eb|[Eb|[Eb|[Eb|Eb]]]]];
    rewrite Ea, Eb; vm_compute; intros H; first [done | exfalso; by apply H | congruence].
Qed.

(** Opening before writing, whole. *)
Lemma open_to_write_eq `{K : SegmentKind} e s m :
  match open_to_write e s m with Opened r s m => (r, s, m) | Made o s m => Finish e o s m end =
  (if init_ s then (true, s, m) else OpenOrCreate e s m).
Proof. unfold open_to_write. by destruct (init_ s). Qed.

Section delivery.
Context `{K : SegmentKind} `{L : !SegmentLive K} (Hash : bytes -> Z).

Abbreviation key s := (shm_key (channel_id_ s)).

(** All blocks are free. *)
Definition all_free (ob : Object) : Prop := forall k b, blocks ob !! k = Some b -> lock_num_ b = 0.

(** The handle has mapped the object [o] that bears its name, and it need not be remapped. *)
Definition current (o : nat) (ob : Object) (s : Segment) (m : Shm) : Prop :=
  init_ s = true /\ state_ s = Some o /\ blocks_ s = Some o /\ objects m !! o = Some ob /\ names m !! key s = Some o /\
  built ob /\ need_remap_ (state ob) = false /\ all_free ob /\ conf_ s = conf_of ob /\
  (forall i, 0 <= i < block_num_ (conf_ s) -> block_buf_addrs_ s !! i = Some (buf_addr (conf_ s) i)).

(** A handle that must open or remap before it reads: it never opened, or what it mapped is
    obsolete and had at least as many blocks. *)
Definition behind (o : nat) (ob : Object) (s : Segment) (m : Shm) : Prop :=
  (init_ s = false \/
   exists o2 ob2, init_ s = true /\ state_ s = Some o2 /\ o2 <> o /\ objects m !! o2 = Some ob2 /\
     need_remap_ (state ob2) = true /\ block_num_ (conf_of ob) <= block_num_ (conf_ s)).

(** What the new object of a handle is like. *)
Lemma create_current s m n s' m' :
  init_ s = false -> names m !! key s = None -> conf_ s = Update n -> OpenOrCreate sys_ok s m = (true, s', m') ->
  let ob := new_object (key s) (Update n) in
  current (length (objects m)) ob s' m' /\ channel_id_ s' = channel_id_ s /\
  objects m' = objects m ++ [ob] /\ conf_of ob = Update n.
Proof.
  intros Hi Hn Hc E ob. rewrite (create_live s m Hi Hn), Hc in E. pose proof (create_eq (key s) (Update n) m) as Ec.
  unfold create in *. rewrite Ec in E. apply pair_equal_spec in E as [E <-]. apply pair_equal_spec in E as [_ <-].
  destruct (new_object_built (key s) n) as [Hb Hf].
  assert (Hcf : conf_of ob = Update n) by (unfold conf_of; cbn; apply Update_ceiling).
  split; [|done]. split; [done|]. split; [done|]. split; [done|]. split; [by apply lookup_snoc_eq|].
  split; [apply lookup_insert_eq|]. split; [done|]. split; [done|]. split.
  { intros k b Hbk. unfold fresh in Hf. rewrite Forall_lookup in Hf. by rewrite <- (Hf _ _ Hbk). }
  split; [done|]. cbn [attach conf_ block_buf_addrs_]. intros i Hir. apply add_addrs_lookup.
  pose proof (block_num_pos (ceiling_msg_size_ (Update n))). lia.
Qed.

(** Larger blocks: a new object under the name, the old one being marked. *)
Lemma Recreate_current o ob s m n :
  current o ob s m -> exists s' m',
    Recreate sys_ok n s m = Ret (true, s', m') /\
    let ob' := new_object (key s) (Update n) in
    current (length (objects m)) ob' s' m' /\ channel_id_ s' = channel_id_ s /\ conf_of ob' = Update n /\
    objects m' = alter (on_state (set_need_remap true)) o (objects m) ++ [ob'].
Proof.
  intros (C1 & C2 & C3 & C4 & C5 & _). unfold Recreate, Recreate_drop, Recreate_mark, object_of. rewrite C2, C4. cbn [bind].
  rewrite remove_live. set (m1 := shm_unlink _ _). unfold Recreate_make.
  set (s1 := set_conf (Update n) (Reset (set_init false s))).
  assert (Hn : names m1 !! key s1 = None) by apply lookup_delete_eq.
  destruct (OpenOrCreate sys_ok s1 m1) as [[r s'] m'] eqn:E. exists s', m'.
  pose proof E as E'. rewrite (create_live s1 m1 eq_refl Hn) in E'. injection E' as Hr _ _. subst r.
  split; [done|]. destruct (create_current s1 m1 n s' m' eq_refl Hn eq_refl E) as (Q1 & Q2 & Q3 & Q4).
  assert (Hl : length (objects m1) = length (objects m)) by (cbn; apply length_alter). rewrite Hl in Q1. done.
Qed.

(** After [prepare_write] the writer is current on blocks that are large enough, and a reader
    that was current or had not opened yet still is, or knows that it is behind. *)
Lemma prepare_write_live s m n :
  (init_ s = false /\ names m !! key s = None /\ conf_ s = conf_new \/ exists o ob, current o ob s m) ->
  n <= MESSAGE_SIZE_MORE ->
  exists s' m' o' ob', prepare_write sys_ok sys_ok sys_ok n s m = Ret (true, s', m') /\ current o' ob' s' m' /\
    channel_id_ s' = channel_id_ s /\ n <= ceiling_msg_size_ (conf_of ob') /\
    forall s2, channel_id_ s2 = channel_id_ s -> (init_ s2 = false \/ exists o ob, current o ob s2 m) ->
      behind o' ob' s2 m' \/ current o' ob' s2 m'.
Proof.
  intros Hs Hn.
  assert (H1 : exists s1 m1 o1 ob1, (if init_ s then (true, s, m) else OpenOrCreate sys_ok s m) = (true, s1, m1) /\
    current o1 ob1 s1 m1 /\ channel_id_ s1 = channel_id_ s /\
    forall s2, channel_id_ s2 = channel_id_ s -> (init_ s2 = false \/ exists o ob, current o ob s2 m) ->
      init_ s2 = false \/ current o1 ob1 s2 m1).
  { destruct Hs as [(Hi & Hno & Hc)|(o & ob & Hcur)].
    - rewrite Hi. destruct (OpenOrCreate sys_ok s m) as [[r s1] m1] eqn:E. pose proof E as E'.
      rewrite (create_live s m Hi Hno) in E'. injection E' as Hr _ _. subst r.
      destruct (create_current s m _ s1 m1 Hi Hno Hc E) as (Q1 & Q2 & _ & _).
      eexists s1, m1, _, _. split; [done|]. split; [exact Q1|]. split; [done|]. intros s2 Hch [H2|(o & ob & H2)]; [by left|].
      destruct H2 as (_ & _ & _ & _ & H2 & _). rewrite Hch in H2. congruence.
    - pose proof Hcur as (C1 & C2 & C3 & C4 & C5 & _). rewrite C1. exists s, m, o, ob. split; [done|]. split; [done|].
      split; [done|]. intros s2 Hch [H2|(o2 & ob2 & H2)]; [by left|right].
      pose proof H2 as (_ & _ & _ & D4 & D5 & _). rewrite Hch, C5 in D5. injection D5 as <-.
      rewrite C4 in D4. injection D4 as <-. done. }
  destruct H1 as (s1 & m1 & o1 & ob1 & E1 & Hcur & Hch1 & Hrd). unfold prepare_write. rewrite open_to_write_eq, E1. cbn [negb].
  pose proof Hcur as (C1 & C2 & C3 & C4 & C5 & C6 & C7 & C8 & C9 & C10).
  unfold stale, object_of. rewrite C2, C4. cbn [bind]. rewrite C7. unfold too_small.
  destruct (Z.ltb_spec (ceiling_msg_size_ (conf_ s1)) n) as [Hlt|Hge].
  - destruct (Recreate_current o1 ob1 s1 m1 n Hcur) as (s' & m' & E & Q1 & Q2 & Q3 & Q4).
    eexists s', m', _, _. split; [exact E|]. split; [exact Q1|]. split; [congruence|]. split; [rewrite Q3; by apply ceiling_covers|].
    intros s2 Hch H2. left. destruct (Hrd s2 Hch H2) as [H3|H3]; [by left|right].
    pose proof H3 as (D1 & D2 & D3 & D4 & D5 & D6 & D7 & D8 & D9 & D10).
    assert (Ho1 : (o1 < length (objects m1))%nat) by by eapply lookup_lt_Some.
    exists o1, (on_state (set_need_remap true) ob1). split; [done|]. split; [done|]. split; [lia|]. split.
    + rewrite Q4, lookup_app_l by (by rewrite length_alter). by rewrite list_lookup_alter_eq, C4.
    + split; [done|]. rewrite Q3, D9. unfold conf_of. apply block_num_antitone.
      change (Update (st_ceiling_msg_size_ (state ob1))) with (conf_of ob1). rewrite <- C9.
      etrans; [by apply Z.lt_le_incl|]. by apply ceiling_covers.
  - exists s1, m1, o1, ob1. split; [done|]. split; [done|]. split; [done|]. split; [by rewrite <- C9|].
    intros s2 Hch H2. destruct (Hrd s2 Hch H2) as [H3|H3]; [left; by left|by right].
Qed.

(** Everything that a transmission does to the object of its block. *)
Definition fill (idx : Z) (st : State) (b1 : Block) (a : Z) (bs ibs : bytes) : Object -> Object :=
  on_block idx ReleaseWriteLock ∘ (on_block idx (set_msg_info_size (Z.of_nat Info.kSize)) ∘
  (on_mem (store (a + len bs) ibs) ∘ (on_block idx (set_msg_size (len bs)) ∘
  (on_mem (store a bs) ∘ (on_block idx (fun _ => b1) ∘ on_state (fun _ => st)))))).

Lemma fill_blocks idx st b1 a bs ibs ob k b :
  blocks ob !! Z.to_nat idx = Some b ->
  blocks (fill idx st b1 a bs ibs ob) !! k =
    if decide (k = Z.to_nat idx) then Some (mkBlock (wrap_i32 (lock_num_ b1 + 1)) (len bs) (Z.of_nat Info.kSize))
    else blocks ob !! k.
Proof.
  intros Hb. unfold fill, compose. cbn [on_block on_mem on_state blocks]. case_decide as Hk.
  - subst k. by rewrite !list_lookup_alter_eq, Hb.
  - by rewrite !list_lookup_alter_ne.
Qed.

Lemma fill_mem idx st b1 a bs ibs ob :
  load a (length bs) (mem (fill idx st b1 a bs ibs ob)) = bs /\
  load (a + len bs) (length ibs) (mem (fill idx st b1 a bs ibs ob)) = ibs.
Proof.
  unfold fill, compose. cbn [on_block on_mem on_state mem]. split; [|apply load_store].
  etrans; [|apply (load_store a bs (mem ob))]. apply load_ext. intros x Hx. apply store_outside. lia.
Qed.

(** The block holds the message and its information. *)
Definition delivered (bs : bytes) (info : MessageInfo) (i : Z) (ob : Object) : Prop :=
  0 <= i < block_num_ (conf_of ob) /\
  exists b, blocks ob !! Z.to_nat i = Some b /\ msg_size_ b = len bs /\ msg_info_size_ b = Z.of_nat Info.kSize /\
    len bs <= ceiling_msg_size_ (conf_of ob) /\
    load (buf_addr (conf_of ob) i) (length bs) (mem ob) = bs /\
    load (buf_addr (conf_of ob) i + len bs) Info.kSize (mem ob) = Info.info_bytes info.

Lemma fill_current o ob s m i b st b1 bs info :
  current o ob s m -> 0 <= i < block_num_ (conf_ s) -> blocks ob !! Z.to_nat i = Some b -> lock_num_ b1 = -1 ->
  st_ceiling_msg_size_ st = st_ceiling_msg_size_ (state ob) -> need_remap_ st = false ->
  len bs <= ceiling_msg_size_ (conf_of ob) -> Info.valid info ->
  let F := fill i st b1 (buf_addr (conf_ s) i) bs (Info.info_bytes info) in
  current o (F ob) s (with_object o F m) /\ delivered bs info i (F ob) /\ conf_of (F ob) = conf_of ob.
Proof.
  intros (C1 & C2 & C3 & C4 & C5 & [B1 B2 B3] & C7 & C8 & C9 & C10) Hi Hb Hl Hst Hnr Hlen Hv F.
  assert (Hcf : conf_of (F ob) = conf_of ob) by (unfold conf_of; cbn; by rewrite Hst).
  assert (Hbl : length (blocks (F ob)) = length (blocks ob)) by (cbn; by rewrite !length_alter).
  split; [|split; [|done]].
  - split_and!; try done; [by apply lookup_with| | |by rewrite Hcf].
    + constructor; rewrite Hcf, ?Hbl; [by cbn; rewrite Hst|done|done].
    + intros k b' Hb'. unfold F in Hb'. rewrite (fill_blocks _ _ _ _ _ _ _ _ b Hb) in Hb'.
      case_decide; [|by eapply C8]. injection Hb' as <-. cbn. by rewrite Hl.
  - split; [by rewrite Hcf, <- C9|]. rewrite Hcf. eexists.
    split; [unfold F; rewrite (fill_blocks _ _ _ _ _ _ _ _ b Hb), decide_True by done; reflexivity|].
    destruct (fill_mem i st b1 (buf_addr (conf_ s) i) bs (Info.info_bytes info) ob) as [M1 M2].
    rewrite (Info.length_info_bytes info Hv) in M2. rewrite <- C9. split_and!; try done. by rewrite C9.
Qed.

Section transmit.
Context {M : Type} (ByteSize : M -> Z) (SerializeToArray : M -> Z -> option bytes).

(** With a free block at the next index, [AcquireBlockToWrite] to [ReleaseWrittenBlock]. *)
Lemma Transmit_live msg bs info t s m :
  enabled_ t = true -> segment_ t = Some s ->
  (init_ s = false /\ names m !! key s = None /\ conf_ s = conf_new \/ exists o ob, current o ob s m) ->
  SerializeToArray msg (ByteSize msg) = Some bs -> ByteSize msg = len bs -> len bs <= MESSAGE_SIZE_MORE -> Info.valid info ->
  exists s' m' o' ob' i,
    Transmit ByteSize SerializeToArray sys_ok sys_ok sys_ok 1 msg info t m =
      Ret (Some (mkReadable (t_host_id_ t) i (t_channel_id_ t)),
           mkTransmitter true (Some s') (t_channel_id_ t) (t_host_id_ t), m') /\
    current o' ob' s' m' /\ channel_id_ s' = channel_id_ s /\ delivered bs info i ob' /\
    forall s2, channel_id_ s2 = channel_id_ s -> (init_ s2 = false \/ exists o ob, current o ob s2 m) ->
      behind o' ob' s2 m' \/ current o' ob' s2 m'.
Proof.
  intros Hen Hseg Hs Hser Hsz Hlen Hv.
  destruct (prepare_write_live s m (len bs) Hs Hlen) as (s1 & m1 & o & ob & E1 & Hcur & Hch & Hc & Hrd).
  pose proof Hcur as (C1 & C2 & C3 & C4 & C5 & C6 & C7 & C8 & C9 & C10).
  set (i := seq_ (state ob) mod block_num_ (conf_ s1)). set (st := snd (FetchAddSeq 1 (state ob))).
  assert (Hi : 0 <= i < block_num_ (conf_ s1)).
  { apply Z.mod_pos_bound. rewrite C9. apply block_num_pos. }
  destruct (lookup_lt_is_Some_2 (blocks ob) (Z.to_nat i)) as [b Hb].
  { rewrite (built_blocks _ C6), <- C9. lia. }
  pose proof (C8 _ _ Hb) as Hl0. set (b1 := set_lock kWriteExclusive b).
  destruct (fill_current o ob s1 m1 i b st b1 bs info Hcur Hi Hb eq_refl eq_refl C7 Hc Hv) as (F1 & F2 & F3).
  set (F := fill i st b1 (buf_addr (conf_ s1) i) bs (Info.info_bytes info)) in *.
  exists s1, (with_object o F m1), o, (F ob), i.
  assert (E : Transmit ByteSize SerializeToArray sys_ok sys_ok sys_ok 1 msg info t m =
    Ret (Some (mkReadable (t_host_id_ t) i (t_channel_id_ t)),
         mkTransmitter true (Some s1) (t_channel_id_ t) (t_host_id_ t), with_object o F m1)).
  { unfold Transmit. rewrite Hen, Hseg. unfold AcquireBlockToWrite. rewrite Hsz, E1. cbn [bind negb GetNextWritableBlockIndex].
    unfold next_index. rewrite C2. unfold object_of at 1. rewrite C4. cbn [bind FetchAddSeq]. fold i.
    change (mkState _ _ _ _) with st. unfold try_write. rewrite C3, (object_of_with _ _ _ _ C4). cbn [bind on_state blocks].
    rewrite Hb. unfold TryLockForWrite. rewrite Hl0. cbn [Z.eqb kRWLockFree bind]. fold b1. rewrite with_object_compose.
    rewrite <- Hsz, Hser. unfold put_message, block_at. cbn [buf block index]. rewrite C3, (C10 i Hi). cbn [default].
    unfold store_at at 1. rewrite (lookup_with _ _ _ _ C4).
    destruct (buf_inside (st_ceiling_msg_size_ (state ob)) i) as [_ Hin].
    { change (Update _) with (conf_of ob). by rewrite <- C9. }
    change (Update _) with (conf_of ob) in Hin. rewrite <- (built_size _ C6), <- C9 in Hin.
    assert (Hbuf : block_buf_size_ (conf_ s1) = ceiling_msg_size_ (conf_ s1) + 1024) by (rewrite C9; apply buf_size).
    rewrite <- C9 in Hc. unfold compose at 1. cbn [on_block on_state obj_size].
    rewrite (proj2 (Z.leb_le _ _)) by lia. cbn [bind]. unfold set_block at 1. cbn [block index].
    rewrite !with_object_compose. unfold put_info. cbn [buf block index].
    change (Info.SerializeTo Info.kSize info) with (Some (Info.info_bytes info)). cbv iota.
    unfold store_at. rewrite (lookup_with _ _ _ _ C4). unfold compose at 1 2 3. cbn [on_block on_state on_mem obj_size].
    pose proof (Info.length_info_bytes info Hv) as H24. change Info.kSize with 24%nat in H24. rewrite H24, Hsz.
    rewrite (proj2 (Z.leb_le _ _)) by lia. cbn [bind]. unfold set_block. cbn [block index]. rewrite !with_object_compose.
    unfold ReleaseWrittenBlock. cbn [index]. rewrite (proj2 (Z.leb_gt _ _)) by lia. unfold change_block.
    rewrite C3, (object_of_with _ _ _ _ C4). cbn [bind].
    match goal with |- context [blocks (?H ob) !! _] => set (G := H) end.
    assert (HG : exists b', blocks (G ob) !! Z.to_nat i = Some b').
    { apply lookup_lt_is_Some_2. unfold G, compose. cbn [on_block on_mem on_state blocks]. rewrite !length_alter.
      by eapply lookup_lt_Some. }
    destruct HG as [b' ->]. cbn [bind]. rewrite with_object_compose. done. }
  split; [exact E|]. split; [done|]. split; [done|]. split; [done|].
  intros s2 Hch2 H2. destruct (Hrd s2 Hch2 H2) as [[Hb2|(o2 & ob2 & B1 & B2 & B3 & B4 & B5 & B6)]|Hcu].
  - left. by left.
  - left. right. exists o2, ob2. rewrite F3. split_and!; try done. by rewrite with_object_lookup, decide_False.
  - right. destruct Hcu as (D1 & D2 & D3 & D4 & D5 & D6 & D7 & D8 & D9 & D10). destruct F1 as (_ & _ & _ & G4 & G5 & G6 & G7 & G8 & G9 & _).
    by split_and!; try done; congruence.
Qed.
End transmit.

(** A change of the object that keeps what [current] says of it. *)
Lemma current_upd o ob s m F :
  current o ob s m -> built (F ob) -> need_remap_ (state (F ob)) = false -> all_free (F ob) -> conf_of (F ob) = conf_of ob ->
  current o (F ob) s (with_object o F m).
Proof.
  intros (C1 & C2 & C3 & C4 & C5 & C6 & C7 & C8 & C9 & C10) H1 H2 H3 H4.
  split_and!; try done; [by apply lookup_with|by rewrite H4].
Qed.

(** Opening what the writer has mapped. *)
Lemma open_current o ob s m s2 :
  current o ob s m -> channel_id_ s2 = channel_id_ s -> init_ s2 = false ->
  let F := on_state IncreaseReferenceCounts in let m' := with_object o F m in
  exists s2', OpenOnly sys_ok s2 m = (true, s2', m') /\ channel_id_ s2' = channel_id_ s2 /\
    current o (F ob) s2' m' /\ current o (F ob) s m'.
Proof.
  intros Hcur Hch Hi F m'. pose proof Hcur as (C1 & C2 & C3 & C4 & C5 & C6 & C7 & C8 & C9 & C10).
  eexists. split; [apply (open_live s2 m o ob Hi)|]; [by rewrite Hch|done| |].
  { rewrite (built_size _ C6). destruct (buf_inside (st_ceiling_msg_size_ (state ob)) 0) as [H1 H2];
      [pose proof (block_num_pos (st_ceiling_msg_size_ (state ob))); lia|].
    unfold conf_of. pose proof (buf_size (st_ceiling_msg_size_ (state ob))) as H3. unfold MESSAGE_INFO_SIZE in H3.
    assert (0 <= ceiling_msg_size_ (Update (st_ceiling_msg_size_ (state ob)))).
    { destruct (Update_cases (st_ceiling_msg_size_ (state ob))) as [E|[E|[E|[E|[E|E]]]]]; rewrite E; by vm_compute. }
    lia. }
  split; [done|]. assert (Hb : built (F ob)) by (by destruct C6; constructor).
  split; [|by apply current_upd]. split_and!; try done; [by apply lookup_with|by cbn [attach channel_id_]; rewrite Hch|].
  cbn [attach conf_ block_buf_addrs_]. intros i Hir. apply add_addrs_lookup.
  pose proof (block_num_pos (st_ceiling_msg_size_ (state ob))). lia.
Qed.

Lemma delivered_incr bs info i ob : delivered bs info i ob -> delivered bs info i (on_state IncreaseReferenceCounts ob).
Proof. done. Qed.

(** Before it locks the block the reader is current. *)
Lemma prepare_read_live o ob s m s2 i bs info :
  current o ob s m -> channel_id_ s2 = channel_id_ s -> behind o ob s2 m \/ current o ob s2 m -> delivered bs info i ob ->
  exists s2' m' ob', prepare_read sys_ok sys_ok i s2 m = Ret (true, s2', m') /\ channel_id_ s2' = channel_id_ s2 /\
    current o ob' s2' m' /\ current o ob' s m' /\ delivered bs info i ob'.
Proof.
  intros Hcur Hch H2 Hd. pose proof Hd as [Hi _]. unfold prepare_read, open_to_read, no_block, stale.
  assert (Hnum : (block_num_ (conf_of ob) <=? i) = false) by (apply Z.leb_gt; lia).
  destruct H2 as [[H2|(o2 & ob2 & B1 & B2 & B3 & B4 & B5 & B6)]|H2].
  - rewrite H2. destruct (open_current o ob s m s2 Hcur Hch H2) as (s2' & E & Q1 & Q2 & Q3).
    rewrite E. cbn [negb]. pose proof Q2 as (D1 & D2 & D3 & D4 & D5 & D6 & D7 & D8 & D9 & D10).
    rewrite D9. change (conf_of (on_state IncreaseReferenceCounts ob)) with (conf_of ob). rewrite Hnum.
    unfold object_of. rewrite D2, D4. cbn [bind]. rewrite D7. eexists _, _, _. split; [done|]. done.
  - rewrite B1. cbn [negb]. rewrite (proj2 (Z.leb_gt _ _)) by lia. unfold object_of. rewrite B2, B4. cbn [bind]. rewrite B5.
    unfold Remap. destruct (open_current o ob s m (Reset (set_init false s2)) Hcur Hch eq_refl) as (s2' & E & Q1 & Q2 & Q3).
    rewrite E. eexists _, _, _. split; [done|]. done.
  - pose proof H2 as (D1 & D2 & D3 & D4 & D5 & D6 & D7 & D8 & D9 & D10). rewrite D1. cbn [negb]. rewrite D9, Hnum.
    unfold object_of. rewrite D2, D4. cbn [bind]. rewrite D7. eexists _, _, _. split; [done|]. done.
Qed.

(** The dispatcher is given the index and delivers the message. *)
Lemma on_readable_live o ob s m s2 i bs info d r :
  current o ob s m -> channel_id_ s2 = channel_id_ s -> behind o ob s2 m \/ current o ob s2 m -> delivered bs info i ob ->
  Info.valid info -> host_id_ r = d_host_id_ d -> block_index_ r = i -> ShmMessage.channel_id_ r = channel_id_ s2 ->
  segments_ d !! channel_id_ s2 = Some s2 -> is_shutdown_ d = false -> channel_id_ s2 ∈ msg_listeners_ d ->
  exists s2' m' ob' d', on_readable Hash sys_ok sys_ok 0 r d m = Ret (Some (bs, Info.received Hash info info_new), d', m') /\
    channel_id_ s2' = channel_id_ s2 /\ current o ob' s2' m' /\ current o ob' s m' /\
    d' = mkDispatcher (d_host_id_ d) false (<[channel_id_ s2 := s2']> (segments_ d))
           (<[channel_id_ s2 := i]> (previous_indexes_ d)) (msg_listeners_ d).
Proof.
  intros Hcur Hch H2 Hd Hv Hh Hri Hrc Hseg Hsd Hlis. unfold on_readable. rewrite Hh, Z.eqb_refl, Hrc, Hri. cbn [negb].
  rewrite Hseg. unfold ReadMessage. cbn [segments_ d_host_id_ is_shutdown_ previous_indexes_ msg_listeners_]. rewrite Hseg, Hsd.
  destruct (prepare_read_live o ob s m s2 i bs info Hcur Hch H2 Hd) as (s3 & m3 & ob3 & E & Q1 & Q2 & Q3 & Q4).
  unfold AcquireBlockToRead. rewrite E. cbn [bind negb].
  pose proof Q2 as (D1 & D2 & D3 & D4 & D5 & D6 & D7 & D8 & D9 & D10). destruct Q4 as (Hi & b & Hb & P1 & P2 & P3 & P4 & P5).
  unfold try_read, object_of. rewrite D3, D4. cbn [bind]. rewrite Hb. unfold TryLockForRead.
  pose proof (D8 _ _ Hb) as Hl. rewrite Hl. cbn [Z.ltb Z.compare kRWLockFree kMaxTryLockTimes Nat.leb negb bind].
  change (wrap_i32 (0 + 1)) with 1. set (m4 := with_object o _ m3). unfold get_message, block_at. cbn [buf block index].
  rewrite D3, (D10 i) by (by rewrite D9). change (default 0%nat (Some o)) with o. set (b4 := set_lock 1 b).
  assert (Hm4 : objects m4 !! o = Some (on_block i (fun _ => b4) ob3)) by (by apply lookup_with).
  assert (Hb4 : blocks (on_block i (fun _ => b4) ob3) !! Z.to_nat i = Some b4).
  { cbn. by rewrite list_lookup_alter_eq, Hb. }
  rewrite Hm4. cbn [mbind option_bind]. rewrite Hb4. unfold load_at. rewrite Hm4.
  cbn [obj_size on_block mem b4 set_lock msg_size_ msg_info_size_]. rewrite P1, P2, D9.
  assert (Hfit : buf_addr (conf_of ob3) i + len bs + 24 <= obj_size ob3).
  { destruct (buf_inside (st_ceiling_msg_size_ (state ob3)) i Hi) as [_ Hin]. change (Update _) with (conf_of ob3) in Hin.
    rewrite (built_size _ D6). pose proof (buf_size (st_ceiling_msg_size_ (state ob3))) as Hbs.
    change (Update _) with (conf_of ob3) in Hbs. unfold MESSAGE_INFO_SIZE in Hbs. lia. }
  change (Z.of_nat Info.kSize) with 24 at 1. rewrite (proj2 (Z.leb_le _ _)) by lia. cbn [bind]. rewrite Nat2Z.id, P5.
  rewrite (Info.deserialize_info Hash info info_new Hv). rewrite (proj2 (Z.leb_le _ _)) by lia. cbn [bind].
  rewrite Nat2Z.id, P4. unfold ReleaseReadBlock. cbn [index]. rewrite D9, (proj2 (Z.leb_gt _ _)) by lia.
  unfold change_block, object_of. rewrite D3, Hm4. cbn [bind]. rewrite Hb4. cbn [bind]. subst m4.
  rewrite with_object_compose. set (F := on_block i ReleaseReadLock ∘ on_block i (fun _ => b4)).
  assert (HF : current o (F ob3) s3 (with_object o F m3) /\ current o (F ob3) s (with_object o F m3)).
  { assert (Hbl : length (blocks (F ob3)) = length (blocks ob3)) by (cbn; by rewrite !length_alter).
    assert (Hbt : built (F ob3)) by (destruct D6 as [B1 B2 B3]; constructor; [done|by rewrite Hbl|done]).
    assert (Hfree : all_free (F ob3)).
    { intros k b' Hb'. unfold F, compose in Hb'. cbn [on_block blocks] in Hb'. destruct (decide (k = Z.to_nat i)) as [->|Hne].
      - rewrite !list_lookup_alter_eq, Hb in Hb'. by injection Hb' as <-.
      - rewrite !list_lookup_alter_ne in Hb' by done. by eapply D8. }
    split; by apply current_upd. }
  cbn [mbind option_bind]. unfold OnMessage. cbn [is_shutdown_ msg_listeners_]. rewrite decide_True by done.
  eexists s3, _, _, _. split; [reflexivity|]. split; [done|]. split; [apply HF|]. split; [apply HF|done].
Qed.

(** ** A stream of messages *)

Section stream.
Context {M : Type} (ByteSize : M -> Z) (SerializeToArray : M -> Z -> option bytes).

(** A message is sent and its notification handled; the results in order. *)
Fixpoint exchanges (l : list (M * MessageInfo)) (t : ShmTransmitter) (d : ShmDispatcher) (m : Shm)
    : outcome (list (option (bytes * MessageInfo)) * ShmTransmitter * ShmDispatcher * Shm) :=
  match l with
  | [] => Ret ([], t, d, m)
  | (msg, info) :: l' =>
      bind (Transmit ByteSize SerializeToArray sys_ok sys_ok sys_ok 1 msg info t m) (fun '(r, t, m) =>
        match r with
        | None => bind (exchanges l' t d m) (fun '(gs, t, d, m) => Ret (None :: gs, t, d, m))
        | Some r =>
            bind (on_readable Hash sys_ok sys_ok 0 r d m) (fun '(g, d, m) =>
            bind (exchanges l' t d m) (fun '(gs, t, d, m) => Ret (g :: gs, t, d, m)))
        end)
  end.

Record ready (ch host : Z) (t : ShmTransmitter) (d : ShmDispatcher) (m : Shm) : Prop := {
  rd_t : exists s, t = mkTransmitter true (Some s) ch host /\ channel_id_ s = ch /\
    exists s2, segments_ d !! ch = Some s2 /\ channel_id_ s2 = ch /\
      ((init_ s = false /\ names m !! shm_key ch = None /\ conf_ s = conf_new /\ init_ s2 = false) \/
       exists o ob, current o ob s m /\ current o ob s2 m);
  rd_host : d_host_id_ d = host;
  rd_up : is_shutdown_ d = false;
  rd_listens : ch ∈ msg_listeners_ d;
}.

Lemma exchange_one ch host t d m msg bs info :
  ready ch host t d m -> SerializeToArray msg (ByteSize msg) = Some bs -> ByteSize msg = len bs -> len bs <= MESSAGE_SIZE_MORE ->
  Info.valid info ->
  exists r t' m1 d' m',
    Transmit ByteSize SerializeToArray sys_ok sys_ok sys_ok 1 msg info t m = Ret (Some r, t', m1) /\
    on_readable Hash sys_ok sys_ok 0 r d m1 = Ret (Some (bs, Info.received Hash info info_new), d', m') /\
    ready ch host t' d' m'.
Proof.
  intros [(s & -> & Hch & s2 & Hseg & Hch2 & Hst) Rh Ru Rl] Hser Hsz Hlen Hv.
  assert (Hs : init_ s = false /\ names m !! key s = None /\ conf_ s = conf_new \/ exists o ob, current o ob s m).
  { destruct Hst as [(H1 & H2 & H3 & _)|(o & ob & H1 & _)]; [left; by rewrite Hch|right; by exists o, ob]. }
  destruct (Transmit_live ByteSize SerializeToArray msg bs info (mkTransmitter true (Some s) ch host) s m eq_refl eq_refl Hs Hser Hsz Hlen Hv)
    as (s' & m1 & o & ob & i & E & Hcur & Hch' & Hd & Hrd). cbn [t_host_id_ t_channel_id_] in E.
  assert (H2 : behind o ob s2 m1 \/ current o ob s2 m1).
  { apply Hrd; [congruence|]. destruct Hst as [(_ & _ & _ & H4)|(o1 & ob1 & _ & H1)]; [by left|right; by exists o1, ob1]. }
  destruct (on_readable_live o ob s' m1 s2 i bs info d (mkReadable host i ch) Hcur ltac:(congruence) H2 Hd Hv)
    as (s3 & m' & ob' & d' & E2 & Hch3 & Hc3 & Hc' & ->); [by rewrite Rh|done|by rewrite Hch2|by rewrite Hch2|done|by rewrite Hch2|].
  eexists _, _, m1, _, m'. split; [exact E|]. split; [exact E2|].
  constructor; cbn; [|done|done|done]. exists s'. split; [done|]. split; [congruence|]. exists s3.
  split; [rewrite Hch2; apply lookup_insert_eq|]. split; [congruence|]. right. by exists o, ob'.
Qed.

Lemma exchanges_ready ch host l bss t d m :
  ready ch host t d m ->
  Forall2 (fun '(msg, info) bs => SerializeToArray msg (ByteSize msg) = Some bs /\ ByteSize msg = len bs /\
             len bs <= MESSAGE_SIZE_MORE /\ Info.valid info) l bss ->
  exists t' d' m', exchanges l t d m =
    Ret (zip_with (fun bs p => Some (bs, Info.received Hash (snd p) info_new)) bss l, t', d', m').
Proof.
  intros Hr Hl. revert t d m Hr. induction Hl as [|[msg info] bs l bss (H1 & H2 & H3 & H4) Hl IH]; intros t d m Hr; [by exists t, d, m|].
  destruct (exchange_one ch host t d m msg bs info Hr H1 H2 H3 H4) as (r & t1 & m1 & d1 & m2 & E1 & E2 & Hr2).
  destruct (IH t1 d1 m2 Hr2) as (t' & d' & m' & E3). exists t', d', m'. cbn [exchanges]. rewrite E1. cbn [bind].
  rewrite E2. cbn [bind]. rewrite E3. done.
Qed.

(** C19: one writer and one reader take turns: the notification of each message is handled before the
    next message is sent, and all system calls succeed.  Then every message sent through shared
    memory is delivered, in order, unchanged and with the information it was sent with: for a
    new transmitter and a new dispatcher of one host, no memory of the name, and any sequence
    of messages of at most 32 MB, of any sizes, so that the memory is created, opened, recreated
    with larger blocks and remapped as needed; one draw of a block index is enough each time.
    (With a notification still to be handled when the memory is recreated the reader may
    crash: [stale_index_crash].) *)
Theorem stream_delivered (ch host : Z) (l : list (M * MessageInfo)) (bss : list bytes) (m : Shm)
    (Hname : names m !! shm_key ch = None)
    (Hl : Forall2 (fun '(msg, info) bs => SerializeToArray msg (ByteSize msg) = Some bs /\ ByteSize msg = len bs /\
             len bs <= MESSAGE_SIZE_MORE /\ Info.valid info) l bss) :
  exists t' d' m',
    exchanges l (Enable (transmitter_new ch host)) (AddListener ch (dispatcher_new host)) m =
      Ret (zip_with (fun bs p => Some (bs, Info.received Hash (snd p) info_new)) bss l, t', d', m').
Proof.
  apply (exchanges_ready ch host); [|done]. constructor; cbn; [|done|done|set_solver].
  exists (segment_new ch). split; [done|]. split; [done|]. exists (segment_new ch).
  split; [apply lookup_insert_eq|]. split; [done|]. left. done.
Qed.
End stream.
End delivery.

Lemma stream_delivered_witness :
  exists t d m, exchanges (K := XsiSegment) of_bytes (fun b => len b) (fun b _ => Some b)
    [([1; 2; 3], example_info 1); (replicate (Z.to_nat 20000) 7, example_info 2); ([4], example_info 3)]
    (Enable (transmitter_new 5 9)) (AddListener 5 (dispatcher_new 9)) shm_new =
    Ret ([Some ([1; 2; 3], Info.received of_bytes (example_info 1) info_new);
          Some (replicate (Z.to_nat 20000) 7, Info.received of_bytes (example_info 2) info_new);
          Some ([4], Info.received of_bytes (example_info 3) info_new)], t, d, m).
Proof.
  refine (stream_delivered (K := XsiSegment) of_bytes (fun b => len b) (fun b _ => Some b) 5 9
    [([1; 2; 3], example_info 1); (replicate (Z.to_nat 20000) 7, example_info 2); ([4], example_info 3)]
    [[1; 2; 3]; replicate (Z.to_nat 20000) 7; [4]] shm_new eq_refl _).
  repeat constructor; cbn; rewrite ?length_replicate; unfold MESSAGE_SIZE_MORE; by vm_compute.
Defined.

(** ** Where the promise is not kept *)

Section races.
Context `{K : SegmentKind} `{L : !SegmentLive K}.

(** A reader that learns of the index of a block just before the writer changes to larger, and
    fewer, blocks leaves the mapped memory: the index was valid when it was notified, it is
    checked against the old number of blocks, and used after the remapping. *)
Theorem stale_index_crash (o : nat) (ob : Object) (s s2 : Segment) (m : Shm) (n i : Z) (fails : nat)
    (Hs : current o ob s m) (Hs2 : current o ob s2 m) (Hch : channel_id_ s2 = channel_id_ s)
    (Hn : ceiling_msg_size_ (conf_of ob) < n)
    (Hi : block_num_ (Update n) <= i < block_num_ (conf_of ob)) :
  (exists rb m1, AcquireBlockToRead sys_ok sys_ok 0 i s2 m = Ret (Some rb, s2, m1)) /\
  exists s' m', prepare_write sys_ok sys_ok sys_ok n s m = Ret (true, s', m') /\
    AcquireBlockToRead sys_ok sys_ok fails i s2 m' = Crash.
Proof.
  pose proof (block_num_pos n) as Hpos.
  pose proof Hs as (C1 & C2 & C3 & C4 & C5 & C6 & C7 & C8 & C9 & C10).
  pose proof Hs2 as (D1 & D2 & D3 & D4 & D5 & D6 & D7 & D8 & D9 & D10). split.
  - unfold AcquireBlockToRead, prepare_read, open_to_read, no_block, stale. rewrite D1. cbn [negb]. rewrite D9, (proj2 (Z.leb_gt _ _)) by lia.
    unfold object_of at 1. rewrite D2, D4. cbn [bind]. rewrite D7. cbn [bind negb]. unfold try_read, object_of.
    rewrite D3, D4. cbn [bind].
    destruct (lookup_lt_is_Some_2 (blocks ob) (Z.to_nat i)) as [b Hb]; [rewrite (built_blocks _ D6); lia|].
    rewrite Hb. unfold TryLockForRead. rewrite (D8 _ _ Hb). eexists _, _. reflexivity.
  - destruct (Recreate_current o ob s m n Hs) as (s' & m' & E & Q1 & Q2 & Q3 & Q4). exists s', m'. split.
    { unfold prepare_write. rewrite open_to_write_eq, C1. cbn [negb]. unfold stale, too_small, object_of. rewrite C2, C4. cbn [bind]. rewrite C7, C9.
      by rewrite (proj2 (Z.ltb_lt _ _) Hn). }
    assert (Ho : objects m' !! o = Some (on_state (set_need_remap true) ob)).
    { rewrite Q4, lookup_app_l by (rewrite length_alter; by eapply lookup_lt_Some). by rewrite list_lookup_alter_eq, C4. }
    unfold AcquireBlockToRead, prepare_read, open_to_read, no_block, stale. rewrite D1. cbn [negb]. rewrite D9, (proj2 (Z.leb_gt _ _)) by lia.
    unfold object_of at 1. rewrite D2, Ho. cbn [bind on_state state set_need_remap need_remap_].
    destruct (open_current _ _ s' m' (Reset (set_init false s2)) Q1 ltac:(cbn; congruence) eq_refl) as (s3 & E3 & _ & P3 & _).
    unfold Remap. rewrite E3. cbn [bind negb]. destruct P3 as (_ & _ & P4 & P5 & _ & P6 & _).
    unfold try_read, object_of. rewrite P4, P5. cbn [bind].
    rewrite (lookup_ge_None_2 (blocks _)); [done|]. rewrite (built_blocks _ P6).
    change (conf_of (on_state IncreaseReferenceCounts (new_object (shm_key (channel_id_ s)) (Update n)))) with
      (conf_of (new_object (shm_key (channel_id_ s)) (Update n))). rewrite Q3. lia.
Qed.

(** C38: while a writer [s] recreates the memory its name is missing for a moment.  Another writer [s2]
    with a message that needs larger blocks dereferences a null pointer; and when a new writer
    creates the memory in that moment, the first one ends with the new writer's small blocks and
    writes its message, larger than 17 KB, into a buffer that cannot hold it. *)
Theorem resize_races (o : nat) (ob : Object) (s s2 : Segment) (m : Shm) (n : Z)
    (Hs : current o ob s m) (Hs2 : current o ob s2 m) (Hch : channel_id_ s2 = channel_id_ s)
    (Hn : ceiling_msg_size_ (conf_of ob) < n) (Hbig : 17384 < n) :
  exists s1 m1, Recreate_drop s m = Ret (s1, m1) /\
    prepare_write sys_ok sys_ok sys_ok n s2 m1 = Crash /\
    exists sc m2 s3 m3, OpenOrCreate sys_ok (segment_new (channel_id_ s)) m1 = (true, sc, m2) /\
      Recreate_make sys_ok n s1 m2 = (true, s3, m3) /\ block_buf_size_ (conf_ s3) < n + 24.
Proof.
  pose proof Hs as (C1 & C2 & C3 & C4 & C5 & C6 & C7 & C8 & C9 & C10).
  pose proof Hs2 as (D1 & D2 & D3 & D4 & D5 & D6 & D7 & D8 & D9 & D10).
  unfold Recreate_drop at 1, Recreate_mark at 1, object_of at 1. rewrite C2, C4. cbn [bind]. rewrite remove_live.
  set (s1 := Reset (set_init false s)). set (m1 := shm_unlink _ _). exists s1, m1. split; [done|].
  assert (Hno : names m1 !! shm_key (channel_id_ s) = None) by apply lookup_delete_eq. split.
  - unfold prepare_write. rewrite open_to_write_eq, D1. cbn [negb]. unfold stale, too_small, object_of at 1. rewrite D2.
    assert (Ho : objects m1 !! o = Some (on_state (set_need_remap true) ob)).
    { cbn. by rewrite list_lookup_alter_eq, C4. }
    rewrite Ho. cbn [bind on_state state set_need_remap need_remap_]. unfold Remap.
    rewrite open_missing_live; [|done|cbn; by rewrite Hch]. cbn [Reset conf_ set_init]. rewrite D9, (proj2 (Z.ltb_lt _ _) Hn). done.
  - set (c := segment_new (channel_id_ s)).
    destruct (OpenOrCreate sys_ok c m1) as [[r sc] m2] eqn:Ec. pose proof Ec as Ec'.
    rewrite (create_live c m1 eq_refl Hno) in Ec'. injection Ec' as Hr _ _. subst r.
    destruct (create_current c m1 MESSAGE_SIZE_16K sc m2 eq_refl Hno eq_refl Ec) as (Q1 & Q2 & Q3 & Q4).
    pose proof Q1 as (E1 & E2 & E3 & E4 & E5 & E6 & E7 & E8 & E9 & E10).
    destruct (open_current _ _ sc m2 (set_conf (Update n) s1) Q1) as (s3 & E & P1 & P2 & _); [by rewrite Q2|done|].
    exists sc, m2, s3, (with_object (length (objects m1)) (on_state IncreaseReferenceCounts) m2). split; [done|]. split.
    + unfold Recreate_make. rewrite open_existing_live; [exact E|done|]. cbn. rewrite Q2 in E5. by eexists.
    + destruct P2 as (_ & _ & _ & _ & _ & _ & _ & _ & P9 & _). rewrite P9.
      change (conf_of (on_state IncreaseReferenceCounts (new_object (shm_key (channel_id_ c)) (Update MESSAGE_SIZE_16K)))) with
        (conf_of (new_object (shm_key (channel_id_ c)) (Update MESSAGE_SIZE_16K))). rewrite Q4.
      change (block_buf_size_ (Update MESSAGE_SIZE_16K)) with 17408. lia.
Qed.

(** Two handles of one channel on a new memory. *)
Lemma two_handles (ch : Z) : exists o ob s s2 m,
  current o ob s m /\ current o ob s2 m /\ channel_id_ s2 = channel_id_ s /\ conf_of ob = Update MESSAGE_SIZE_16K.
Proof.
  set (s := segment_new ch). assert (Hno : names shm_new !! shm_key (channel_id_ s) = None) by apply lookup_empty.
  destruct (OpenOrCreate sys_ok s shm_new) as [[r s1] m1] eqn:E. pose proof E as E'.
  rewrite (create_live s shm_new eq_refl Hno) in E'. injection E' as Hr _ _. subst r.
  destruct (create_current s shm_new MESSAGE_SIZE_16K s1 m1 eq_refl Hno eq_refl E) as (Q1 & Q2 & Q3 & Q4).
  destruct (open_current _ _ s1 m1 (segment_new ch) Q1) as (s2 & E2 & P1 & P2 & P3); [by rewrite Q2|done|].
  eexists _, _, s1, s2, _. split; [exact P3|]. split; [exact P2|]. split; [by rewrite P1, Q2|exact Q4].
Qed.
End races.

Lemma stale_index_crash_witness :
  exists s2 m', AcquireBlockToRead (K := PosixSegment) sys_ok sys_ok 0 300 s2 m' = Crash.
Proof.
  destruct (two_handles (K := PosixSegment) 5) as (o & ob & s & s2 & m & H1 & H2 & H3 & H4).
  destruct (proj2 (stale_index_crash (K := PosixSegment) o ob s s2 m 20000 300 0 H1 H2 H3
    ltac:(rewrite H4; reflexivity) ltac:(rewrite H4; vm_compute; split; [discriminate|reflexivity]))) as (s' & m' & _ & E).
  exists s2, m'. exact E.
Defined.

Lemma resize_races_witness :
  exists s2 m1, prepare_write (K := XsiSegment) sys_ok sys_ok sys_ok 20000 s2 m1 = Crash.
Proof.
  destruct (two_handles (K := XsiSegment) 5) as (o & ob & s & s2 & m & H1 & H2 & H3 & H4).
  destruct (resize_races (K := XsiSegment) o ob s s2 m 20000 H1 H2 H3 ltac:(rewrite H4; reflexivity) ltac:(reflexivity))
    as (s1 & m1 & _ & E & _).
  exists s2, m1. exact E.
Defined.
