(* ===== verification/ConditionNotifier.v ===== *)
(** * ConditionNotifier: telling readers which block to read

    Models [cyber/transport/shm/condition_notifier.{h,cc}]: a ring of 4096 notifications in shared
    memory, written by any number of processes in three accesses each, and read by listeners
    that keep their own sequence number.  [Notify] and an iteration of the loop of [Listen] are
    given whole and as the accesses that interleave.  Sleeping between two iterations, until the
    timeout, changes nothing. *)

From S2P Require Import Prelude ShmMessage.

Definition kBufLength : Z := 4096.

Record Indicator := mkInd {
  next_seq : Z;
  infos : list ReadableInfo;
  seqs : list Z;
}.

(** [Indicator()]. *)
Definition indicator_new : Indicator :=
  mkInd 0 (replicate (Z.to_nat kBufLength) Readable.readable_new) (replicate (Z.to_nat kBufLength) 0).

Definition slot (seq : Z) : nat := Z.to_nat (seq mod kBufLength).

(** The three accesses of [Notify]. *)
Definition take_seq (n : Indicator) : Z * Indicator :=
  (next_seq n, mkInd (wrap_u64 (next_seq n + 1)) (infos n) (seqs n)).
Definition put_info (seq : Z) (info : ReadableInfo) (n : Indicator) : Indicator :=
  mkInd (next_seq n) (<[slot seq := info]> (infos n)) (seqs n).
Definition put_seq (seq : Z) (n : Indicator) : Indicator :=
  mkInd (next_seq n) (infos n) (<[slot seq := seq]> (seqs n)).

Definition Notify (is_shutdown_ : bool) (info : ReadableInfo) (n : Indicator) : bool * Indicator :=
  if is_shutdown_ then (false, n)
  else let '(seq, n1) := take_seq n in (true, put_seq seq (put_info seq info n1)).

(** An iteration of [Listen] for a listener at [next_seq_]: what it returns, if it returns, and
    the new [next_seq_]. *)
Definition Listen_once (is_shutdown_ : bool) (next_seq_ : Z) (n : Indicator) : option ReadableInfo * Z :=
  if is_shutdown_ then (None, next_seq_)
  else if next_seq n =? next_seq_ then (None, next_seq_)
  else
    let idx := slot next_seq_ in
    let actual_seq := default 0 (seqs n !! idx) in
    if next_seq_ <=? actual_seq then
      (Some (default Readable.readable_new (infos n !! idx)), wrap_u64 (actual_seq + 1))
    else (None, next_seq_).

(** ** Interleaving *)

Inductive wpc := WIdle | WGot (seq : Z) (info : ReadableInfo) | WPut (seq : Z) (info : ReadableInfo).
Inductive lpc := LIdle | LLoaded | LSeq (actual_seq : Z).

(** [notified] logs the notifications in the order of their numbers, [got] what the listener
    returned. *)
Record Config := mkConfig {
  ind : Indicator;
  writers : list wpc;
  next_seq_ : Z;
  lis : lpc;
  notified : list ReadableInfo;
  got : list ReadableInfo;
}.

Inductive step : Config -> Config -> Prop :=
| w_take n ws ns l nt g j info seq n' :
    ws !! j = Some WIdle -> take_seq n = (seq, n') ->
    step (mkConfig n ws ns l nt g) (mkConfig n' (<[j := WGot seq info]> ws) ns l (nt ++ [info]) g)
| w_info n ws ns l nt g j seq info :
    ws !! j = Some (WGot seq info) ->
    step (mkConfig n ws ns l nt g) (mkConfig (put_info seq info n) (<[j := WPut seq info]> ws) ns l nt g)
| w_seq n ws ns l nt g j seq info :
    ws !! j = Some (WPut seq info) ->
    step (mkConfig n ws ns l nt g) (mkConfig (put_seq seq n) (<[j := WIdle]> ws) ns l nt g)
| l_load n ws ns nt g :
    step (mkConfig n ws ns LIdle nt g)
      (mkConfig n ws ns (if next_seq n =? ns then LIdle else LLoaded) nt g)
| l_seq n ws ns nt g :
    let actual := default 0 (seqs n !! slot ns) in
    step (mkConfig n ws ns LLoaded nt g)
      (mkConfig n ws ns (if ns <=? actual then LSeq actual else LIdle) nt g)
| l_info n ws ns a nt g :
    step (mkConfig n ws ns (LSeq a) nt g)
      (mkConfig n ws (wrap_u64 (a + 1)) LIdle nt (g ++ [default Readable.readable_new (infos n !! slot ns)])).

(** The listener is at most a whole ring behind, and the numbers have not been used up. *)
Definition keeps_up (c : Config) : Prop :=
  next_seq (ind c) <= next_seq_ c + kBufLength /\ next_seq (ind c) < two64 - 1.

Definition calm_step (c c' : Config) : Prop := step c c' /\ keeps_up c'.

(** A listener that starts at the number [n0], when all earlier notifications are complete. *)
Record starts (n0 : Z) (c : Config) : Prop := {
  st_n0 : 1 <= n0 < two64 - 1;
  st_next : next_seq (ind c) = n0 /\ next_seq_ c = n0 /\ lis c = LIdle /\ notified c = [] /\ got c = [];
  st_len : length (infos (ind c)) = Z.to_nat kBufLength /\ length (seqs (ind c)) = Z.to_nat kBufLength;
  st_old : Forall (fun q => q < n0) (seqs (ind c));
  st_writers : Forall (eq WIdle) (writers c);
}.

(** ** The invariant *)

Definition seq_of (w : wpc) : option Z := match w with WIdle => None | WGot q _ | WPut q _ => Some q end.

Definition in_flight (q : Z) (ws : list wpc) : Prop := exists j w, ws !! j = Some w /\ seq_of w = Some q.

Section inv.
Context (n0 : Z).

(** The notification of a number. *)
Definition numbered (c : Config) (q : Z) (info : ReadableInfo) : Prop := notified c !! Z.to_nat (q - n0) = Some info.

Record inv (c : Config) : Prop := {
  i_pos : 1 <= n0;
  i_up : keeps_up c;
  i_next : next_seq (ind c) = n0 + Z.of_nat (length (notified c));
  i_lis : n0 <= next_seq_ c <= next_seq (ind c);
  i_len : length (infos (ind c)) = Z.to_nat kBufLength /\ length (seqs (ind c)) = Z.to_nat kBufLength;
  i_writers : forall j w q, writers c !! j = Some w -> seq_of w = Some q ->
    next_seq_ c <= q < next_seq (ind c) /\
    match w with
    | WIdle => True
    | WGot _ info => numbered c q info
    | WPut _ info => numbered c q info /\ infos (ind c) !! slot q = Some info
    end;
  i_distinct : forall i j wi wj q, writers c !! i = Some wi -> writers c !! j = Some wj ->
    seq_of wi = Some q -> seq_of wj = Some q -> i = j;
  i_seqs : forall k q, seqs (ind c) !! k = Some q -> next_seq_ c <= q ->
    q < next_seq (ind c) /\ k = slot q /\ ~ in_flight q (writers c) /\
    exists info, infos (ind c) !! k = Some info /\ numbered c q info;
  i_done : forall q, next_seq_ c <= q < next_seq (ind c) -> ~ in_flight q (writers c) ->
    seqs (ind c) !! slot q = Some q;
  i_lpc : match lis c with
    | LIdle => True
    | LLoaded => next_seq_ c < next_seq (ind c)
    | LSeq a => a = next_seq_ c /\ next_seq_ c < next_seq (ind c) /\ ~ in_flight a (writers c)
    end;
  i_got : got c = take (Z.to_nat (next_seq_ c - n0)) (notified c);
}.

(** Numbers of the window have their own slots. *)
Lemma slot_inj c q q' :
  inv c -> next_seq_ c <= q < next_seq (ind c) -> next_seq_ c <= q' < next_seq (ind c) -> slot q = slot q' -> q = q'.
Proof.
  intros I H1 H2 He. destruct (i_up _ I) as [Hu _]. pose proof (i_lis _ I). pose proof (i_pos _ I).
  unfold slot, kBufLength in *. apply (mod_close_inj q q' 4096); [lia| |lia].
  pose proof (Z.mod_pos_bound q 4096). pose proof (Z.mod_pos_bound q' 4096). lia.
Qed.

Lemma slot_lt q : (slot q < Z.to_nat kBufLength)%nat.
Proof. unfold slot, kBufLength. pose proof (Z.mod_pos_bound q 4096). lia. Qed.

Lemma in_flight_insert q ws j w w' :
  ws !! j = Some w -> in_flight q (<[j := w']> ws) <->
  seq_of w' = Some q \/ exists i u, i <> j /\ ws !! i = Some u /\ seq_of u = Some q.
Proof.
  intros Hj. assert (Hlt : (j < length ws)%nat) by by eapply lookup_lt_Some. split.
  - intros (i & u & Hi & Hq). destruct (decide (i = j)) as [->|Hne].
    + rewrite list_lookup_insert_eq in Hi by done. injection Hi as <-. by left.
    + rewrite list_lookup_insert_ne in Hi by done. right. by exists i, u.
  - intros [Hq|(i & u & Hne & Hi & Hq)].
    + exists j, w'. by rewrite list_lookup_insert_eq.
    + exists i, u. by rewrite list_lookup_insert_ne.
Qed.

(** A writer that keeps its number. *)
Lemma in_flight_same q ws j w w' :
  ws !! j = Some w -> seq_of w' = seq_of w -> in_flight q (<[j := w']> ws) <-> in_flight q ws.
Proof.
  intros Hj He. rewrite (in_flight_insert q ws j w w' Hj), He. split.
  - intros [Hq|(i & u & _ & Hi & Hq)]; [by exists j, w|by exists i, u].
  - intros (i & u & Hi & Hq). destruct (decide (i = j)) as [->|Hne]; [left; congruence|right; by exists i, u].
Qed.

Lemma inv_take n ws ns l nt g j info :
  inv (mkConfig n ws ns l nt g) -> ws !! j = Some WIdle ->
  let c' := mkConfig (snd (take_seq n)) (<[j := WGot (next_seq n) info]> ws) ns l (nt ++ [info]) g in
  keeps_up c' -> inv c'.
Proof.
  intros [I0 I1 I2 I3 I4 I5 I6 I7 I8 I9 I10] Hj c' Hup. subst c'. cbn in *.
  assert (Hw : wrap_u64 (next_seq n + 1) = next_seq n + 1) by (apply wrap_u64_small; unfold keeps_up in I1; cbn in I1; lia).
  unfold keeps_up in Hup. cbn in Hup. rewrite Hw in Hup.
  assert (Hlt : (j < length ws)%nat) by by eapply lookup_lt_Some.
  assert (Hnum : forall q x, n0 <= q < next_seq n -> nt !! Z.to_nat (q - n0) = Some x -> (nt ++ [info]) !! Z.to_nat (q - n0) = Some x).
  { intros q x Hq Hx. by apply lookup_app_l_Some. }
  assert (Hnew : ~ in_flight (next_seq n) ws).
  { intros (i & u & Hi & Hq). destruct (I5 _ _ _ Hi Hq) as [? _]. lia. }
  assert (Hfl : forall q, in_flight q (<[j := WGot (next_seq n) info]> ws) <-> q = next_seq n \/ in_flight q ws).
  { intros q. rewrite (in_flight_insert q ws j WIdle) by done. cbn [seq_of]. split.
    - intros [[= <-]|(i & u & _ & Hi & Hq)]; [by left|right; by exists i, u].
    - intros [->|(i & u & Hi & Hq)]; [by left|]. destruct (decide (i = j)) as [->|Hne]; [|right; by exists i, u].
      rewrite Hj in Hi. injection Hi as <-. done. }
  constructor; cbn; rewrite ?Hw; try done.
  - rewrite length_app. cbn. lia.
  - lia.
  - intros i w q Hi Hq. apply list_lookup_insert_Some in Hi as [(<- & <- & _)|[Hne Hi]].
    + injection Hq as <-. split; [lia|]. unfold numbered. cbn. apply lookup_snoc_eq. lia.
    + destruct (I5 _ _ _ Hi Hq) as [H1 H2]. split; [lia|]. destruct w; [done| |]; unfold numbered in *; cbn in *.
      * apply Hnum; [lia|done].
      * destruct H2 as [H2 H3]. split; [apply Hnum; [lia|done]|done].
  - intros i1 i2 w1 w2 q H1 H2 Q1 Q2.
    apply list_lookup_insert_Some in H1 as [(<- & <- & _)|[N1 H1]]; apply list_lookup_insert_Some in H2 as [(<- & <- & _)|[N2 H2]].
    + done.
    + injection Q1 as <-. exfalso. apply Hnew. by exists i2, w2.
    + injection Q2 as <-. exfalso. apply Hnew. by exists i1, w1.
    + by eapply I6.
  - intros k q Hk Hq. destruct (I7 k q Hk Hq) as (H1 & H2 & H3 & x & H4 & H5). split; [lia|]. split; [done|]. split.
    + rewrite Hfl. intros [->|H]; [lia|done].
    + exists x. split; [done|]. unfold numbered in *. cbn in *. apply Hnum; [lia|done].
  - intros q Hq Hno. rewrite Hfl in Hno. apply I8; [|tauto]. assert (q <> next_seq n) by tauto. lia.
  - destruct l; [done|lia|]. destruct I9 as (H1 & H2 & H3). split; [done|]. split; [lia|]. rewrite Hfl. intros [->|H]; [lia|done].
  - rewrite I10, take_app_le; [done|]. lia.
Qed.

Lemma inv_info n ws ns l nt g j q info :
  inv (mkConfig n ws ns l nt g) -> ws !! j = Some (WGot q info) ->
  inv (mkConfig (put_info q info n) (<[j := WPut q info]> ws) ns l nt g).
Proof.
  intros I Hj. pose proof I as [I0 I1 I2 I3 I4 I5 I6 I7 I8 I9 I10]. cbn in *.
  assert (Hlt : (j < length ws)%nat) by by eapply lookup_lt_Some.
  destruct (I5 _ _ q Hj eq_refl) as [Hq Hn].
  assert (Hsl : (slot q < length (infos n))%nat) by (rewrite (proj1 I4); apply slot_lt).
  assert (Hfl : forall q', in_flight q' (<[j := WPut q info]> ws) <-> in_flight q' ws).
  { intros q'. by apply (in_flight_same q' ws j (WGot q info)). }
  constructor; cbn; try done.
  - by rewrite length_insert.
  - intros i w q' Hi Hq'. apply list_lookup_insert_Some in Hi as [(<- & <- & _)|[Hne Hi]].
    + injection Hq' as <-. split; [done|]. split; [done|]. by apply list_lookup_insert_eq.
    + destruct (I5 _ _ _ Hi Hq') as [H1 H2]. split; [done|]. destruct w as [| |q2 x2]; [done|done|]. injection Hq' as ->.
      destruct H2 as [H2 H3]. split; [done|]. rewrite list_lookup_insert_ne; [done|]. intros He.
      apply (slot_inj _ _ _ I Hq H1) in He. subst q'. apply Hne. by eapply I6.
  - intros i1 i2 w1 w2 q' H1 H2 Q1 Q2.
    apply list_lookup_insert_Some in H1 as [(<- & <- & _)|[N1 H1]]; apply list_lookup_insert_Some in H2 as [(<- & <- & _)|[N2 H2]];
      [done|by eapply (I6 _ _ (WGot q info) w2)|by eapply (I6 _ _ w1 (WGot q info))|by eapply I6].
  - intros k q' Hk Hq'. destruct (I7 k q' Hk Hq') as (H1 & H2 & H3 & x & H4 & H5). split; [done|]. split; [done|].
    split; [by rewrite Hfl|]. exists x. split; [|done]. rewrite list_lookup_insert_ne; [done|]. intros He. subst k.
    apply (slot_inj _ _ _ I Hq) in He; [|done]. subst q'. apply H3. by exists j, (WGot q info).
  - intros q' Hq'. rewrite Hfl. by apply I8.
  - destruct l; [done|done|]. by rewrite Hfl.
Qed.

Lemma inv_seq n ws ns l nt g j q info :
  inv (mkConfig n ws ns l nt g) -> ws !! j = Some (WPut q info) ->
  inv (mkConfig (put_seq q n) (<[j := WIdle]> ws) ns l nt g).
Proof.
  intros I Hj. pose proof I as [I0 I1 I2 I3 I4 I5 I6 I7 I8 I9 I10]. cbn in *.
  assert (Hlt : (j < length ws)%nat) by by eapply lookup_lt_Some.
  destruct (I5 _ _ q Hj eq_refl) as [Hq [Hn Hin]].
  assert (Hsl : (slot q < length (seqs n))%nat) by (rewrite (proj2 I4); apply slot_lt).
  assert (Hfl : forall q', in_flight q' (<[j := WIdle]> ws) <-> in_flight q' ws /\ q' <> q).
  { intros q'. rewrite (in_flight_insert q' ws j (WPut q info)) by done. cbn [seq_of]. split.
    - intros [?|(i & u & Hne & Hi & Hq')]; [done|]. split; [by exists i, u|]. intros ->. apply Hne. by eapply I6.
    - intros [(i & u & Hi & Hq') Hne]. right. exists i, u. split; [|done]. intros ->. rewrite Hj in Hi. injection Hi as <-. cbn in Hq'. congruence. }
  constructor; cbn; try done.
  - by rewrite length_insert.
  - intros i w q' Hi Hq'. apply list_lookup_insert_Some in Hi as [(<- & <- & _)|[Hne Hi]]; [done|by eapply I5].
  - intros i1 i2 w1 w2 q' H1 H2 Q1 Q2.
    apply list_lookup_insert_Some in H1 as [(<- & <- & _)|[N1 H1]]; [done|].
    apply list_lookup_insert_Some in H2 as [(<- & <- & _)|[N2 H2]]; [done|by eapply I6].
  - intros k q' Hk Hq'. apply list_lookup_insert_Some in Hk as [(<- & <- & _)|[Hne Hk]].
    + split; [lia|]. split; [done|]. split; [rewrite Hfl; by intros [_ ?]|]. by exists info.
    + destruct (I7 k q' Hk Hq') as (H1 & H2 & H3 & x & H4 & H5). split; [done|]. split; [done|]. split; [rewrite Hfl; tauto|by exists x].
  - intros q' Hq' Hno. rewrite Hfl in Hno. destruct (decide (q' = q)) as [->|Hne]; [by apply list_lookup_insert_eq|].
    rewrite list_lookup_insert_ne; [apply I8; [done|tauto]|]. intros He. apply Hne. symmetry. by eapply (slot_inj _ _ _ I).
  - destruct l; [done|done|]. rewrite Hfl. destruct I9 as (? & ? & ?). tauto.
Qed.

Lemma inv_listen n ws ns l l' nt g :
  inv (mkConfig n ws ns l nt g) ->
  match l' with
  | LIdle => True
  | LLoaded => ns < next_seq n
  | LSeq a => a = ns /\ ns < next_seq n /\ ~ in_flight a ws
  end -> inv (mkConfig n ws ns l' nt g).
Proof. intros [I0 I1 I2 I3 I4 I5 I6 I7 I8 I9 I10] H. by constructor. Qed.

Lemma inv_deliver n ws ns nt g :
  inv (mkConfig n ws ns (LSeq ns) nt g) ->
  inv (mkConfig n ws (wrap_u64 (ns + 1)) LIdle nt (g ++ [default Readable.readable_new (infos n !! slot ns)])).
Proof.
  intros I. pose proof I as [I0 [U1 U2] I2 I3 I4 I5 I6 I7 I8 (_ & H1 & H2) I10]. cbn in *.
  rewrite wrap_u64_small by lia.
  destruct (I7 (slot ns) ns (I8 ns ltac:(lia) H2) ltac:(lia)) as (_ & _ & _ & x & Hx & Hnx). unfold numbered in Hnx. cbn in Hnx.
  constructor; cbn; try done.
  - unfold keeps_up. cbn. lia.
  - lia.
  - intros j w q Hj Hq. destruct (I5 _ _ _ Hj Hq) as [Q1 Q2]. split; [|done].
    assert (q <> ns) by (intros ->; apply H2; by exists j, w). lia.
  - intros k q Hk Hq. apply I7; [done|lia].
  - intros q Hq. apply I8. lia.
  - rewrite I10, Hx. cbn. replace (Z.to_nat (ns + 1 - n0)) with (S (Z.to_nat (ns - n0))) by lia.
    symmetry. by apply lookup_take_snoc.
Qed.

Lemma notifier_inv_step c c' : inv c -> calm_step c c' -> inv c'.
Proof.
  intros I [Hs Hup]. destruct Hs as [n ws ns l nt g j info q n' Hj Hq|n ws ns l nt g j q info Hj
    |n ws ns l nt g j q info Hj|n ws ns nt g|n ws ns nt g actual|n ws ns a nt g].
  - injection Hq as <- <-. by apply inv_take.
  - by eapply inv_info.
  - by eapply inv_seq.
  - eapply inv_listen; [done|]. destruct (Z.eqb_spec (next_seq n) ns); [done|]. pose proof (i_lis _ I). cbn in *. lia.
  - eapply inv_listen; [done|]. subst actual. destruct (Z.leb_spec ns (default 0 (seqs n !! slot ns))) as [Hle|]; [|done].
    pose proof (i_lpc _ I) as Hl. pose proof (i_lis _ I) as Hli. pose proof (i_pos _ I) as Hpos. cbn in Hl, Hli.
    destruct (seqs n !! slot ns) as [q|] eqn:Eq; cbn in *; [|lia].
    destruct (i_seqs _ I _ _ Eq Hle) as (H1 & H2 & H3 & _). cbn in *.
    assert (q = ns) as ->; [|done]. symmetry. apply (slot_inj _ _ _ I); cbn; [lia|lia|done].
  - pose proof (i_lpc _ I) as Ha. cbn in Ha. destruct Ha as [-> _]. by apply inv_deliver.
Qed.
End inv.

Lemma starts_inv n0 c : starts n0 c -> inv n0 c.
Proof.
  intros [S1 (S2 & S3 & S4 & S5 & S6) S7 S8 S9].
  assert (Hw : forall j w, writers c !! j = Some w -> w = WIdle).
  { intros j w Hj. rewrite Forall_lookup in S9. symmetry. by eapply S9. }
  constructor; rewrite ?S2, ?S3, ?S4, ?S5, ?S6; cbn; try done; try lia.
  - unfold keeps_up. rewrite S2, S3. unfold kBufLength. lia.
  - intros j w q Hj Hq. by rewrite (Hw _ _ Hj) in Hq.
  - intros i j wi wj q Hi _ Hq. by rewrite (Hw _ _ Hi) in Hq.
  - intros k q Hk Hq. rewrite Forall_lookup in S8. specialize (S8 _ _ Hk). cbn in S8. lia.
  - by rewrite take_nil.
Qed.

(** C26: a listener begins at the next number [n0 >= 1] of a ring, when the threads are between
    notifications and the slots hold older numbers - so not before the very first notification,
    which can be lost ([first_notification_lost]).  Then notifications are neither lost,
    duplicated nor reordered: whatever the interleaving of the accesses of any number of
    notifying threads and of the listener, as long as the listener is never more than a whole
    ring behind and the numbers stay below [2^64 - 1], it has returned exactly the notifications
    of the numbers it has passed, in the order of the numbers; and when no thread is in the
    middle of [Notify] the next iteration of [Listen] returns the next notification. *)
Theorem notifications_in_order (n0 : Z) (c0 c : Config) (Hs : starts n0 c0) (Hr : rtc calm_step c0 c) :
  got c = take (length (got c)) (notified c) /\
  next_seq_ c = n0 + Z.of_nat (length (got c)) /\ next_seq (ind c) = n0 + Z.of_nat (length (notified c)) /\
  (Forall (eq WIdle) (writers c) -> lis c = LIdle ->
   Listen_once false (next_seq_ c) (ind c) =
     match notified c !! length (got c) with
     | Some info => (Some info, next_seq_ c + 1)
     | None => (None, next_seq_ c)
     end).
Proof.
  assert (I : inv n0 c).
  { apply (rtc_invariant calm_step (inv n0) c0); [by apply starts_inv|intros y z; apply notifier_inv_step|done]. }
  pose proof (i_got _ _ I) as Hg. pose proof (i_lis _ _ I) as Hl. pose proof (i_next _ _ I) as Hn.
  assert (Hlen : Z.of_nat (length (got c)) = next_seq_ c - n0) by (rewrite Hg, length_take; lia).
  split; [rewrite Hg at 1; f_equal; lia|]. split; [lia|]. split; [done|]. intros Hidle _.
  unfold Listen_once. destruct (Z.eqb_spec (next_seq (ind c)) (next_seq_ c)) as [He|He].
  - rewrite lookup_ge_None_2 by lia. done.
  - assert (Hno : ~ in_flight (next_seq_ c) (writers c)).
    { intros (j & w & Hj & Hq). rewrite Forall_lookup in Hidle. by rewrite <- (Hidle _ _ Hj) in Hq. }
    pose proof (i_done _ _ I (next_seq_ c) ltac:(lia) Hno) as Hd.
    destruct (i_seqs _ _ I _ _ Hd ltac:(lia)) as (_ & _ & _ & x & Hx & Hnx). unfold numbered in Hnx.
    rewrite Hd, Hx. cbn. rewrite Z.leb_refl. replace (length (got c)) with (Z.to_nat (next_seq_ c - n0)) by lia. rewrite Hnx.
    destruct (i_up _ _ I) as [_ Hu]. pose proof (i_pos _ _ I). rewrite wrap_u64_small by lia. done.
Qed.

(** A ring on which one notification is complete, and two threads that notify out of order. *)
Definition after_one : Indicator := snd (Notify false (mkReadable 9 0 5) indicator_new).

Definition two_writers : Config := mkConfig after_one [WIdle; WIdle] 1 LIdle [] [].

Lemma two_writers_start : starts 1 two_writers.
Proof.
  constructor; [done|done|by split; vm_compute| |by repeat constructor].
  apply (bool_decide_unpack _). vm_compute. reflexivity.
Qed.

Lemma notifications_in_order_witness :
  exists c, rtc calm_step two_writers c /\ length (notified c) = 2%nat /\
    got c = take (length (got c)) (notified c).
Proof.
  pose (x := mkReadable 9 1 5). pose (y := mkReadable 9 2 5).
  assert (H : exists c, rtc calm_step two_writers c /\ length (notified c) = 2%nat).
  { eexists. split.
    - eapply rtc_l; [split; [eapply (w_take _ _ _ _ _ _ 0%nat x); reflexivity|by vm_compute]|].
      eapply rtc_l; [split; [eapply (w_take _ _ _ _ _ _ 1%nat y); reflexivity|by vm_compute]|].
      eapply rtc_l; [split; [eapply (w_info _ _ _ _ _ _ 1%nat); reflexivity|by vm_compute]|].
      apply rtc_refl.
    - reflexivity. }
  destruct H as (c & H1 & H2). exists c. split; [exact H1|]. split; [exact H2|].
  exact (proj1 (notifications_in_order 1 two_writers c two_writers_start H1)).
Defined.

(** ** The first notification *)

(** The notification number 0 can be lost: its slot looks complete before it is written, for a new
    ring holds the number 0 everywhere; a listener that looks between the accesses of the first
    [Notify] returns the blank notification of the ring, and is then past the real one. *)
Theorem first_notification_lost (info : ReadableInfo) :
  let '(seq, n1) := take_seq indicator_new in
  let '(r, next_seq_) := Listen_once false 0 n1 in
  let n2 := put_seq seq (put_info seq info n1) in
  r = Some Readable.readable_new /\ next_seq_ = 1 /\ Listen_once false next_seq_ n2 = (None, 1).
Proof. vm_compute. done. Qed.
