(* ===== verification/CRoutine.v ===== *)
(** * CRoutine: the coroutines and the scan of a run queue

    Models [cyber/croutine/croutine.{h,cc}] and [croutine/routine_factory.h]: the record of a
    coroutine, its lock and update flag, [UpdateState], [Resume], and the loop that
    [CreateRoutineFactory] builds around a visitor and a callback.  The switch of stacks
    ([detail/]) is the application of the code that runs up to the next [Yield].  The scan of a
    run queue, the loop that both [NextRoutine] contain, is here too. *)

From S2P Require Import Prelude.

Inductive RoutineState := READY | FINISHED | SLEEP | IO_WAIT | DATA_WAIT.

#[export] Instance RoutineState_eq_dec : EqDecision RoutineState.
Proof. solve_decision. Defined.

(** [updated_] is an [atomic_flag]: [false] (clear) when there is something to update. *)
Record CRoutine := mkCR {
  name_ : string;
  wake_time_ : Z;
  lock_ : bool;
  updated_ : bool;
  group_name_ : string;
  state_ : RoutineState;
  force_stop_ : bool;
  processor_id_ : Z;
  priority_ : Z;
  id_ : Z;
}.

(** The constructor, at time [now]. *)
Definition cr_new (now : Z) : CRoutine := mkCR "" now false true "" READY false (-1) 0 0.

Definition set_lock (b : bool) (cr : CRoutine) : CRoutine :=
  mkCR (name_ cr) (wake_time_ cr) b (updated_ cr) (group_name_ cr) (state_ cr) (force_stop_ cr)
    (processor_id_ cr) (priority_ cr) (id_ cr).
Definition set_updated (b : bool) (cr : CRoutine) : CRoutine :=
  mkCR (name_ cr) (wake_time_ cr) (lock_ cr) b (group_name_ cr) (state_ cr) (force_stop_ cr)
    (processor_id_ cr) (priority_ cr) (id_ cr).
Definition set_state (s : RoutineState) (cr : CRoutine) : CRoutine :=
  mkCR (name_ cr) (wake_time_ cr) (lock_ cr) (updated_ cr) (group_name_ cr) s (force_stop_ cr)
    (processor_id_ cr) (priority_ cr) (id_ cr).
Definition set_wake_time (t : Z) (cr : CRoutine) : CRoutine :=
  mkCR (name_ cr) t (lock_ cr) (updated_ cr) (group_name_ cr) (state_ cr) (force_stop_ cr)
    (processor_id_ cr) (priority_ cr) (id_ cr).
Definition set_group_name (g : string) (cr : CRoutine) : CRoutine :=
  mkCR (name_ cr) (wake_time_ cr) (lock_ cr) (updated_ cr) g (state_ cr) (force_stop_ cr)
    (processor_id_ cr) (priority_ cr) (id_ cr).
Definition set_priority (p : Z) (cr : CRoutine) : CRoutine :=
  mkCR (name_ cr) (wake_time_ cr) (lock_ cr) (updated_ cr) (group_name_ cr) (state_ cr)
    (force_stop_ cr) (processor_id_ cr) p (id_ cr).
Definition set_processor_id (p : Z) (cr : CRoutine) : CRoutine :=
  mkCR (name_ cr) (wake_time_ cr) (lock_ cr) (updated_ cr) (group_name_ cr) (state_ cr)
    (force_stop_ cr) p (priority_ cr) (id_ cr).
Definition set_id (i : Z) (cr : CRoutine) : CRoutine :=
  mkCR (name_ cr) (wake_time_ cr) (lock_ cr) (updated_ cr) (group_name_ cr) (state_ cr)
    (force_stop_ cr) (processor_id_ cr) (priority_ cr) i.
Definition set_name (n : string) (cr : CRoutine) : CRoutine :=
  mkCR n (wake_time_ cr) (lock_ cr) (updated_ cr) (group_name_ cr) (state_ cr)
    (force_stop_ cr) (processor_id_ cr) (priority_ cr) (id_ cr).
Definition Stop (cr : CRoutine) : CRoutine :=
  mkCR (name_ cr) (wake_time_ cr) (lock_ cr) (updated_ cr) (group_name_ cr) (state_ cr) true
    (processor_id_ cr) (priority_ cr) (id_ cr).

(** [Acquire]: [test_and_set] of the lock. *)
Definition Acquire (cr : CRoutine) : bool * CRoutine := (negb (lock_ cr), set_lock true cr).
Definition Release (cr : CRoutine) : CRoutine := set_lock false cr.

Definition SetUpdateFlag (cr : CRoutine) : CRoutine := set_updated false cr.

(** The test that the state waits for an event. *)
Definition waits (s : RoutineState) : bool :=
  match s with DATA_WAIT | IO_WAIT => true | _ => false end.

Definition UpdateState (now : Z) (cr : CRoutine) : RoutineState * CRoutine :=
  if bool_decide (state_ cr = SLEEP) && (wake_time_ cr <? now) then
    (READY, set_state READY cr)
  else
    let cr1 := set_updated true cr in
    let cr2 := if updated_ cr then cr1 else if waits (state_ cr1) then set_state READY cr1 else cr1 in
    (state_ cr2, cr2).

(** [if (state is DATA_WAIT or IO_WAIT) cr->SetUpdateFlag()]. *)
Definition flag_waiting (cr : CRoutine) : CRoutine :=
  if waits (state_ cr) then SetUpdateFlag cr else cr.

Definition Wake (cr : CRoutine) : CRoutine := set_state READY cr.

(** What is left of [HangUp] and [Sleep] once the stacks are switched. *)
Definition HangUp (cr : CRoutine) : CRoutine := set_state DATA_WAIT cr.
Definition Sleep (now sleep_duration : Z) (cr : CRoutine) : CRoutine :=
  set_state SLEEP (set_wake_time (now + sleep_duration) cr).

(** ** Running *)

Abbreviation heap := (gmap Z CRoutine).

Section resume.
Context {W : Type}.

(** [Resume] of the coroutine at [p]; [until_yield] is what its function does to the coroutines and
    to the rest of the program between the two switches. *)
Definition Resume (until_yield : heap * W -> heap * W) (p : Z) (x : heap * W) : heap * W :=
  match fst x !! p with
  | None => x
  | Some cr =>
      if force_stop_ cr then (alter (set_state FINISHED) p (fst x), snd x)
      else if negb (bool_decide (state_ cr = READY)) then x
      else until_yield x
  end.

(** [CRoutineEntry] for a function that does not yield: it runs once. *)
Definition run_once (func_ : heap * W -> heap * W) (p : Z) (x : heap * W) : heap * W :=
  let '(h, w) := func_ x in (alter (set_state FINISHED) p h, w).

(** One turn of the loop of [CreateRoutineFactory]: from the statement after a [Yield] to the
    next one. *)
Definition data_turn {M : Type} (TryFetch : W -> option (M * W)) (f : M -> heap * W -> heap * W)
    (p : Z) (x : heap * W) : heap * W :=
  let h1 := alter (set_state DATA_WAIT) p (fst x) in
  match TryFetch (snd x) with
  | Some (msg, w1) =>
      let '(h2, w2) := f msg (h1, w1) in (alter (set_state READY) p h2, w2)
  | None => (h1, snd x)
  end.
End resume.

(** ** Scanning a run queue *)

(** [for (cr : queue) { if (!Acquire) continue; if (UpdateState == READY) return cr; Release }];
    the queue holds pointers into the heap. *)
Fixpoint scan (now : Z) (q : list Z) (h : heap) : option Z * heap :=
  match q with
  | [] => (None, h)
  | p :: q' =>
      match h !! p with
      | None => scan now q' h
      | Some cr =>
          let '(ok, cr1) := Acquire cr in
          if negb ok then scan now q' (<[p := cr1]> h)
          else
            let '(s, cr2) := UpdateState now cr1 in
            if bool_decide (s = READY) then (Some p, <[p := cr2]> h)
            else scan now q' (<[p := Release cr2]> h)
      end
  end.

(** ** Specification of the scan *)

(** Would [UpdateState] make it ready? *)
Definition due (now : Z) (cr : CRoutine) : bool :=
  match state_ cr with
  | READY => true
  | FINISHED => false
  | SLEEP => wake_time_ cr <? now
  | IO_WAIT | DATA_WAIT => negb (updated_ cr)
  end.

Definition runnable (now : Z) (cr : CRoutine) : bool := negb (lock_ cr) && due now cr.

Definition runnable_at (now : Z) (h : heap) (p : Z) : bool :=
  match h !! p with Some cr => runnable now cr | None => false end.

(** What the scan leaves of a coroutine that it passes over. *)
Definition passed (now : Z) (cr : CRoutine) : CRoutine :=
  if lock_ cr then cr else if due now cr then cr else set_updated true cr.

Definition taken (now : Z) (cr : CRoutine) : CRoutine :=
  set_lock true (snd (UpdateState now cr)).

(** How a scan that returned [r] has changed the heap. *)
Definition scanned (now : Z) (r : option Z) (h h' : heap) : Prop :=
  forall p, match h !! p with
            | None => h' !! p = None
            | Some cr =>
                if decide (r = Some p) then runnable now cr = true /\ h' !! p = Some (taken now cr)
                else h' !! p = Some cr \/ h' !! p = Some (passed now cr)
            end.

(** ** Lemmas *)

Lemma set_lock_id b cr : lock_ cr = b -> set_lock b cr = cr.
Proof. destruct cr; cbn. by intros ->. Qed.

Lemma passed_lock now cr : lock_ (passed now cr) = lock_ cr.
Proof. unfold passed. by repeat case_if. Qed.
Lemma passed_state now cr : state_ (passed now cr) = state_ cr.
Proof. unfold passed. by repeat case_if. Qed.
Lemma passed_due now cr : due now (passed now cr) = due now cr.
Proof.
  unfold passed. case_if; [done|]. case_if; [done|].
  unfold due in *. cbn. by destruct (state_ cr).
Qed.
Lemma passed_runnable now cr : runnable now (passed now cr) = runnable now cr.
Proof. unfold runnable. by rewrite passed_lock, passed_due. Qed.
Lemma passed_idem now cr : passed now (passed now cr) = passed now cr.
Proof.
  unfold passed at 1. rewrite passed_lock, passed_due. unfold passed. case_if; [done|]. by case_if.
Qed.
Lemma passed_taken now cr : runnable now cr = true -> passed now cr = cr.
Proof. unfold runnable, passed. intros. to_prop. case_if; [done|]. case_if; [done|congruence]. Qed.

(** [UpdateState] returns [READY] when the coroutine is due, and otherwise only takes the flag. *)
Lemma UpdateState_due now cr :
  (bool_decide (fst (UpdateState now cr) = READY) = due now cr) /\
  (due now cr = true -> state_ (snd (UpdateState now cr)) = READY) /\
  (due now cr = false -> snd (UpdateState now cr) = set_updated true cr).
Proof.
  unfold UpdateState, due. destruct cr as [nm wt lk up gr st fs pi pr id]; cbn.
  destruct st; cbn; try (destruct up; cbn; done). destruct (wt <? now) eqn:?; cbn; [done|].
  by destruct up.
Qed.

Lemma UpdateState_set_lock now b cr :
  UpdateState now (set_lock b cr) =
  (fst (UpdateState now cr), set_lock b (snd (UpdateState now cr))).
Proof.
  unfold UpdateState. cbn [state_ wake_time_ updated_ set_lock set_updated].
  case_if; [done|]. destruct (updated_ cr); [done|]. by destruct (waits (state_ cr)).
Qed.

Lemma UpdateState_lock now cr : lock_ (snd (UpdateState now cr)) = lock_ cr.
Proof.
  unfold UpdateState. case_if; [done|]. destruct (updated_ cr); [done|]. cbn. by destruct (waits (state_ cr)).
Qed.

Lemma scanned_refl now h : scanned now None h h.
Proof. intros p. destruct (h !! p); [|done]. case_decide; [done|by left]. Qed.

Lemma scanned_trans now r h1 h2 h3 :
  scanned now None h1 h2 -> scanned now r h2 h3 -> scanned now r h1 h3.
Proof.
  intros H1 H2 p. specialize (H1 p). specialize (H2 p). destruct (h1 !! p) as [cr|].
  - destruct (decide (None = Some p)); [done|]. destruct H1 as [H1|H1]; rewrite H1 in H2; [done|].
    case_decide as Hr.
    + destruct H2 as [Hr2 ->]. rewrite passed_runnable in Hr2. by rewrite passed_taken.
    + rewrite passed_idem in H2. destruct H2; by right.
  - by rewrite H1 in H2.
Qed.

Lemma scanned_runnable now h h' :
  scanned now None h h' -> forall p, runnable_at now h' p = runnable_at now h p.
Proof.
  intros H p. specialize (H p). unfold runnable_at. destruct (h !! p) as [cr|]; [|by rewrite H].
  destruct (decide (None = Some p)); [done|]. destruct H as [-> | ->]; [done|apply passed_runnable].
Qed.

Lemma find_ext {A} (f g : A -> bool) l : (forall x, f x = g x) -> List.find f l = List.find g l.
Proof. intros H. induction l as [|x l IH]; cbn; [done|]. by rewrite H, IH. Qed.

Lemma find_none' {A} (f : A -> bool) l : List.find f l = None -> forall x, x ∈ l -> f x = false.
Proof. intros H x Hx. apply (find_none f l H). by apply list_elem_of_In. Qed.

(** One coroutine of the queue. *)
Lemma scan_one now p q h cr :
  h !! p = Some cr ->
  scan now (p :: q) h =
  if runnable now cr then (Some p, <[p := taken now cr]> h)
  else scan now q (<[p := passed now cr]> h).
Proof.
  intros Hp. cbn [scan]. rewrite Hp. cbn [Acquire]. unfold runnable, passed, taken.
  destruct (lock_ cr) eqn:Hl; cbn [negb andb].
  - by rewrite (set_lock_id true cr Hl).
  - rewrite UpdateState_set_lock. destruct (UpdateState_due now cr) as (Hd & Ht & Hf).
    pose proof (UpdateState_lock now cr) as Hlk. destruct (UpdateState now cr) as [s cr'].
    cbn [fst snd] in *. rewrite Hd. destruct (due now cr); [done|].
    rewrite Hf in * by done. f_equal. f_equal. by rewrite <- (set_lock_id false cr Hl) at 2.
Qed.

(** The scan returns the first coroutine of the queue that is runnable, acquired and made ready;
    it does not change whether the others are. *)
Lemma scan_spec now q h :
  fst (scan now q h) = List.find (runnable_at now h) q /\
  scanned now (fst (scan now q h)) h (snd (scan now q h)).
Proof.
  revert h. induction q as [|p q IH]; intros h; [split; [done|apply scanned_refl]|].
  destruct (h !! p) as [cr|] eqn:Hp.
  - rewrite (scan_one _ _ _ _ cr Hp). cbn [List.find]. unfold runnable_at at 1. rewrite Hp.
    destruct (runnable now cr) eqn:Hr.
    + split; [done|]. intros p'. cbn [fst snd].
      destruct (decide (p' = p)) as [->|Hne].
      * rewrite Hp, decide_True by done. by rewrite lookup_insert_eq.
      * rewrite lookup_insert_ne by done. destruct (h !! p'); [|done].
        rewrite decide_False by congruence. by left.
    + assert (Hs : scanned now None h (<[p := passed now cr]> h)).
      { intros p'. destruct (decide (p' = p)) as [->|Hne].
        - rewrite Hp, decide_False by done. rewrite lookup_insert_eq. by right.
        - rewrite lookup_insert_ne by done. destruct (h !! p'); [|done]. case_decide; [done|by left]. }
      destruct (IH (<[p := passed now cr]> h)) as [IH1 IH2]. split; [|by eapply scanned_trans].
      rewrite IH1. apply find_ext. by apply scanned_runnable.
  - cbn [scan List.find]. unfold runnable_at at 1. rewrite Hp. apply IH.
Qed.

Lemma taken_ready now cr :
  runnable now cr = true -> lock_ (taken now cr) = true /\ state_ (taken now cr) = READY.
Proof.
  unfold runnable, taken. intros H. to_prop. split; [done|]. cbn.
  by apply (UpdateState_due now cr).
Qed.

(** What of a coroutine the scans leave alone. *)
Record same_task (a b : CRoutine) : Prop := {
  st_name : name_ b = name_ a;
  st_group : group_name_ b = group_name_ a;
  st_processor : processor_id_ b = processor_id_ a;
  st_priority : priority_ b = priority_ a;
  st_id : id_ b = id_ a;
}.

#[export] Instance same_task_refl : Reflexive same_task.
Proof. by split. Qed.
#[export] Instance same_task_trans : Transitive same_task.
Proof. intros a b c [] []. split; congruence. Qed.

Lemma same_task_passed now cr : same_task cr (passed now cr).
Proof. unfold passed. by repeat case_if. Qed.

Lemma same_task_taken now cr : same_task cr (taken now cr).
Proof.
  unfold taken, UpdateState. case_if; [done|]. destruct (updated_ cr); [done|]. cbn. by destruct (waits (state_ cr)).
Qed.

Lemma scanned_lookup now r h h' p cr :
  scanned now r h h' -> h !! p = Some cr ->
  exists cr', h' !! p = Some cr' /\ same_task cr cr' /\
    lock_ cr' = (bool_decide (r = Some p) || lock_ cr).
Proof.
  intros H Hp. specialize (H p). rewrite Hp in H. case_decide as Hr.
  - destruct H as [Hrun ->]. eexists. split; [done|]. split; [apply same_task_taken|].
    rewrite bool_decide_eq_true_2 by done. done.
  - rewrite bool_decide_eq_false_2 by done. cbn.
    destruct H as [-> | ->]; eexists; (split; [done|]); split; auto using same_task_passed, passed_lock.
    done.
Qed.

Lemma scanned_lookup_inv now r h h' p cr' :
  scanned now r h h' -> h' !! p = Some cr' ->
  exists cr, h !! p = Some cr /\ same_task cr cr' /\
    lock_ cr' = (bool_decide (r = Some p) || lock_ cr).
Proof.
  intros H Hp. destruct (h !! p) as [cr|] eqn:E.
  - destruct (scanned_lookup _ _ _ _ _ _ H E) as (c & Hc & ?). rewrite Hp in Hc. injection Hc as <-.
    by exists cr.
  - specialize (H p). rewrite E in H. congruence.
Qed.
