(* ===== verification/RunQueue.v ===== *)
(** * RunQueue: the contexts that processors take coroutines from

    Models [cyber/scheduler/policy/classic_context.{h,cc}] and
    [policy/choreography_context.{h,cc}].  The classic contexts share static tables: for each
    group twenty queues, one per priority, and a counter of notifications.  A choreography
    context has a multimap ordered by decreasing priority and a counter of its own.  Queues hold
    pointers; the coroutines are in the heap.

    Locking: an operation on one queue is under the lock of the queue, so it is one function
    here; in [NextRoutine] the scan of each priority is a locked section of its own. *)

From S2P Require Import Prelude CRoutine.

Definition MAX_PRIO : Z := 20.
Definition DEFAULT_GROUP_NAME : string := "default_grp".

(** [std::numeric_limits<unsigned char>::max()]. *)
Definition uchar_max : Z := 255.

(** [MULTI_PRIO_QUEUE]. *)
Definition multi_prio_queue_new : list (list Z) := replicate (Z.to_nat MAX_PRIO) [].

(** The static members of [ClassicContext] (the locks and condition variables apart). *)
Record Statics := mkStatics {
  cr_group_ : gmap string (list (list Z));
  notify_grp_ : gmap string Z;
}.

Inductive Ctx :=
| Classic (current_grp : string) (stop_ : bool)
| Choreography (cr_queue_ : list (Z * Z)) (notify : Z) (stop_ : bool).

Definition ctx_stop (c : Ctx) : bool :=
  match c with Classic _ s => s | Choreography _ _ s => s end.

(** [cr_group_[g]] and [notify_grp_[g]] make the entry when it is missing. *)
Definition group_queues (g : string) (st : Statics) : list (list Z) :=
  default multi_prio_queue_new (cr_group_ st !! g).
Definition group_notify (g : string) (st : Statics) : Z := default 0 (notify_grp_ st !! g).

(** [cr_group_[g].at(prio)]: [None] is the exception. *)
Definition queue_at (g : string) (prio : Z) (st : Statics) : option (list Z) :=
  group_queues g st !! Z.to_nat prio.
Definition set_queue (g : string) (prio : Z) (q : list Z) (st : Statics) : Statics :=
  mkStatics (<[g := <[Z.to_nat prio := q]> (group_queues g st)]> (cr_group_ st)) (notify_grp_ st).
Definition set_notify (g : string) (n : Z) (st : Statics) : Statics :=
  mkStatics (cr_group_ st) (<[g := n]> (notify_grp_ st)).

Definition InitGroup (group_name : string) (st : Statics) : Ctx * Statics :=
  (Classic group_name false,
   set_notify group_name 0 (mkStatics (<[group_name := group_queues group_name st]> (cr_group_ st)) (notify_grp_ st))).

(** [static Notify(group_name)]. *)
Definition NotifyGroup (group_name : string) (st : Statics) : Statics :=
  set_notify group_name (group_notify group_name st + 1) st.

(** The loop of [ClassicContext::NextRoutine] over the priorities [qs], highest first. *)
Fixpoint scan_queues (now : Z) (qs : list (list Z)) (h : heap) : option Z * heap :=
  match qs with
  | [] => (None, h)
  | q :: qs' =>
      match scan now q h with
      | (Some p, h') => (Some p, h')
      | (None, h') => scan_queues now qs' h'
      end
  end.

Definition NextRoutine (now : Z) (c : Ctx) (st : Statics) (h : heap) : option Z * heap :=
  if ctx_stop c then (None, h)
  else match c with
       | Classic g _ => scan_queues now (rev (group_queues g st)) h
       | Choreography q _ _ => scan now (q.*2) h
       end.

(** [multimap::emplace] for [std::greater]: after the keys that are not less. *)
Fixpoint emplace (k v : Z) (l : list (Z * Z)) : list (Z * Z) :=
  match l with
  | [] => [(k, v)]
  | e :: l' => if fst e <? k then (k, v) :: l else e :: emplace k v l'
  end.

Definition Enqueue (p : Z) (cr : CRoutine) (c : Ctx) : Ctx :=
  match c with
  | Choreography q n s => Choreography (emplace (priority_ cr) p q) n s
  | Classic _ _ => c
  end.

Definition NotifyCtx (c : Ctx) : Ctx :=
  match c with
  | Choreography q n s => Choreography q (n + 1) s
  | Classic _ _ => c
  end.

(** What the end of [Wait] does, once the counter is positive or a second has passed. *)
Definition Wait (c : Ctx) (st : Statics) : Ctx * Statics :=
  match c with
  | Classic g s =>
      (c, if 0 <? group_notify g st then set_notify g (group_notify g st - 1) st else st)
  | Choreography q n s => (Choreography q (if 0 <? n then n - 1 else n) s, st)
  end.

Definition ctx_notify (c : Ctx) (st : Statics) : Z :=
  match c with Classic g _ => group_notify g st | Choreography _ n _ => n end.

Definition CtxShutdown (c : Ctx) (st : Statics) : Ctx * Statics :=
  match c with
  | Classic g _ => (Classic g true, set_notify g uchar_max st)
  | Choreography q _ _ => (Choreography q uchar_max true, st)
  end.

(** The search of the two [RemoveCRoutine]: the element with the identifier, and the queue
    without it. *)
Fixpoint find_id {A} (ptr : A -> Z) (crid : Z) (h : heap) (q : list A) : option (Z * list A) :=
  match q with
  | [] => None
  | e :: q' =>
      match h !! ptr e with
      | Some cr =>
          if id_ cr =? crid then Some (ptr e, q')
          else match find_id ptr crid h q' with
               | Some (p, q'') => Some (p, e :: q'')
               | None => None
               end
      | None => None
      end
  end.

(** How far a removal gets: the exception, waiting for the lock of the coroutine (which is told
    to stop), or returned. *)
Inductive removal (S : Type) :=
| Throws
| Waiting (h : heap)
| Returned (found : bool) (s : S) (h : heap).
Arguments Throws {S}.
Arguments Waiting {S} h.
Arguments Returned {S} found s h.

(** [Stop], the loop on [Acquire], the erasure and [Release], for the coroutine at [p]. *)
Definition take_out {S} (p : Z) (s : S) (h : heap) : removal S :=
  match h !! p with
  | None => Throws
  | Some cr =>
      let '(ok, cr1) := Acquire (Stop cr) in
      if ok then Returned true s (<[p := Release cr1]> h) else Waiting (<[p := cr1]> h)
  end.

(** [static ClassicContext::RemoveCRoutine(cr)]. *)
Definition RemoveFromGroup (cr : CRoutine) (st : Statics) (h : heap) : removal Statics :=
  match queue_at (group_name_ cr) (priority_ cr) st with
  | None => Throws
  | Some q =>
      match find_id id (id_ cr) h q with
      | None => Returned false st h
      | Some (p, q') => take_out p (set_queue (group_name_ cr) (priority_ cr) q' st) h
      end
  end.

(** [ChoreographyContext::RemoveCRoutine(crid)]. *)
Definition RemoveFromCtx (crid : Z) (c : Ctx) (h : heap) : removal Ctx :=
  match c with
  | Classic _ _ => Throws
  | Choreography q n s =>
      match find_id snd crid h q with
      | None => Returned false c h
      | Some (p, q') => take_out p (Choreography q' n s) h
      end
  end.

(** ** The order in which a context looks at its coroutines *)

Definition order (c : Ctx) (st : Statics) : list Z :=
  match c with
  | Classic g _ => concat (rev (group_queues g st))
  | Choreography q _ _ => q.*2
  end.

Lemma scan_queues_spec now qs h :
  fst (scan_queues now qs h) = List.find (runnable_at now h) (concat qs) /\
  scanned now (fst (scan_queues now qs h)) h (snd (scan_queues now qs h)).
Proof.
  revert h. induction qs as [|q qs IH]; intros h; [split; [done|apply scanned_refl]|].
  cbn [scan_queues concat]. destruct (scan_spec now q h) as [Hf Hs].
  destruct (scan now q h) as [[p|] h1]; cbn [fst snd] in *.
  - split; [|done]. clear -Hf. induction q as [|x q IH]; [done|]. cbn in *. by case_if; eauto.
  - destruct (IH h1) as [IH1 IH2]. split; [|by eapply scanned_trans].
    rewrite IH1, (find_ext _ (runnable_at now h)) by by apply scanned_runnable.
    clear -Hf. induction q as [|x q IH]; [done|]. cbn in *. by case_if; eauto.
Qed.

Lemma NextRoutine_spec now c st h :
  let r := NextRoutine now c st h in
  fst r = (if ctx_stop c then None else List.find (runnable_at now h) (order c st)) /\
  scanned now (fst r) h (snd r).
Proof.
  unfold NextRoutine, order. destruct (ctx_stop c); [split; [done|apply scanned_refl]|].
  destruct c; [apply scan_queues_spec|apply scan_spec].
Qed.

(** ** Queues *)

Lemma emplace_perm k v l : emplace k v l ≡ₚ (k, v) :: l.
Proof.
  induction l as [|e l IH]; cbn; [done|]. case_if; [done|]. rewrite IH. apply perm_swap.
Qed.

(** Keys in the order of [std::greater]. *)
Definition by_key (a b : Z * Z) : Prop := fst b <= fst a.

Lemma emplace_sorted k v l : StronglySorted by_key l -> StronglySorted by_key (emplace k v l).
Proof.
  induction 1 as [|e l Hs IH Hall]; cbn; [by repeat constructor|]. case_if.
  - constructor; [by constructor|]. constructor; [unfold by_key; cbn; lia|].
    eapply Forall_impl; [exact Hall|]. unfold by_key. cbn. lia.
  - constructor; [done|]. rewrite emplace_perm. constructor; [done|done].
Qed.

(** A new key is placed behind the ones that are equal to it. *)
Lemma emplace_fifo k v l k' :
  StronglySorted by_key l ->
  List.filter (fun e => fst e =? k') (emplace k v l) =
  List.filter (fun e => fst e =? k') l ++ (if k =? k' then [(k, v)] else []).
Proof.
  induction 1 as [|e l Hs IH Hall]; cbn [emplace List.filter]; [cbn; by case_if|]. case_if.
  - cbn [List.filter fst]. destruct (k =? k') eqn:E; to_prop; [|by rewrite app_nil_r].
    subst. assert (List.filter (fun e => fst e =? k') (e :: l) = []) as H0.
    { assert (Forall (fun e => fst e <> k') (e :: l)) as Hf.
      { constructor; [lia|]. eapply Forall_impl; [exact Hall|]. unfold by_key. cbn. lia. }
      clear -Hf. induction Hf as [|x l0 Hx Hf IH]; cbn; [done|]. by destruct (Z.eqb_spec (fst x) k'). }
    cbn [List.filter] in H0. by rewrite H0.
  - cbn [List.filter]. rewrite IH. by destruct (fst e =? k').
Qed.

Lemma find_id_split {A} (ptr : A -> Z) crid h q p q' :
  find_id ptr crid h q = Some (p, q') ->
  exists l e r cr, q = l ++ e :: r /\ q' = l ++ r /\ ptr e = p /\ h !! p = Some cr /\ id_ cr = crid.
Proof.
  revert q'. induction q as [|e q IH]; intros q'; cbn; [done|].
  destruct (h !! ptr e) as [cr|] eqn:E; [|done]. case_if.
  - intros [= <- <-]. by exists [], e, q, cr.
  - destruct (find_id ptr crid h q) as [[p' q'']|]; [|done]. intros [= <- <-].
    destruct (IH q'' eq_refl) as (l & e' & r & cr' & -> & -> & ? & ? & ?).
    by exists (e :: l), e', r, cr'.
Qed.

Lemma find_id_found {A} (ptr : A -> Z) crid h q p cr :
  (forall e, e ∈ q -> is_Some (h !! ptr e)) ->
  p ∈ ptr <$> q -> h !! p = Some cr -> id_ cr = crid ->
  is_Some (find_id ptr crid h q).
Proof.
  intros Hall Hin Hp Hid. induction q as [|e q IH]; cbn; [set_solver|].
  destruct (Hall e ltac:(set_solver)) as [cr' He]. rewrite He. case_if; [by eexists|].
  assert (p ∈ ptr <$> q) as Hin'.
  { rewrite fmap_cons, elem_of_cons in Hin. destruct Hin as [->|]; [congruence|done]. }
  destruct IH as [[? ?] ->]; [set_solver|done|by eexists].
Qed.
