(* ===== verification/Scheduler.v ===== *)
(** * Scheduler: registering, placing, notifying and removing tasks

    Models [cyber/scheduler/scheduler.{h,cc}] and the two policies,
    [policy/scheduler_classic.cc] and [policy/scheduler_choreography.cc].  The configuration
    files are read into the records below (the parsing of the files is generated code); thread
    affinities and the log are left out.

    [RemoveCRoutine] is given as its two critical sections, because between them it waits for
    the coroutine: [remove_begin] takes the coroutine out of [id_cr_], [remove_end] takes it out
    of its queue once no processor holds it.  [id_map_mutex_] is held over both. *)

From S2P Require Import Prelude AtomicHashMap GlobalData CRoutine RunQueue.

(** ** Configuration *)

Record ClassicTask := mkCT { ct_name : string; ct_prio : Z; ct_group_name : string }.
Record SchedGroup := mkSG { sg_name : string; sg_processor_num : Z; sg_tasks : list ClassicTask }.
Record ChoreographyTask := mkHT { ht_name : string; ht_processor : option Z; ht_prio : Z }.

Record ChoreographyConf := mkCC {
  cc_processor_num : Z;
  cc_pool_processor_num : Z;
  cc_tasks : list ChoreographyTask;
}.

(** The members of [SchedulerClassic] and of [SchedulerChoreography]. *)
Inductive Policy :=
| SchedulerClassic (classic_conf_ : list SchedGroup) (cr_confs_ : gmap string ClassicTask)
| SchedulerChoreography (proc_num_ task_pool_size_ : Z) (cr_confs_ : gmap string ChoreographyTask).

(** The constructor of [SchedulerClassic], from the group's file when it can be read. *)
Definition classic_policy (cfg : option (list SchedGroup)) (default_proc_num : option Z) : Policy :=
  match cfg with
  | Some groups =>
      let tasks := g ← groups; t ← sg_tasks g; [mkCT (ct_name t) (ct_prio t) (sg_name g)] in
      SchedulerClassic groups (fold_left (fun m t => <[ct_name t := t]> m) tasks ∅)
  | None => SchedulerClassic [mkSG DEFAULT_GROUP_NAME (default 2 default_proc_num) []] ∅
  end.

(** The constructor of [SchedulerChoreography]. *)
Definition choreography_policy (cfg : option ChoreographyConf) (default_proc_num : option Z) : Policy :=
  let '(n, pool, tasks) :=
    match cfg with
    | Some c => (cc_processor_num c, cc_pool_processor_num c, cc_tasks c)
    | None => (0, 0, [])
    end in
  let confs := fold_left (fun m t => <[ht_name t := t]> m) tasks ∅ in
  if n =? 0 then SchedulerChoreography (default 2 default_proc_num) (default 2 default_proc_num) confs
  else SchedulerChoreography n pool confs.

(** [Instance()]: the policy by its name; [cfg] is the file, when it can be read. *)
Definition Instance_ (cfg : option (string * list SchedGroup * ChoreographyConf))
    (default_proc_num : option Z) : Policy :=
  let policy := match cfg with Some (p, _, _) => p | None => "classic" end in
  if bool_decide (policy = "choreography")
  then choreography_policy (snd <$> cfg) default_proc_num
  else classic_policy (snd ∘ fst <$> cfg) default_proc_num.

(** ** State *)

Record Sched := mkS {
  crs : heap;
  next_cr : Z;
  statics : Statics;
  id_cr_ : gmap Z Z;
  pctxs_ : list Ctx;
  stop_ : bool;
}.

Definition with_crs (h : heap) (s : Sched) : Sched :=
  mkS h (next_cr s) (statics s) (id_cr_ s) (pctxs_ s) (stop_ s).
Definition with_statics (st : Statics) (s : Sched) : Sched :=
  mkS (crs s) (next_cr s) st (id_cr_ s) (pctxs_ s) (stop_ s).
Definition with_id_cr (m : gmap Z Z) (s : Sched) : Sched :=
  mkS (crs s) (next_cr s) (statics s) m (pctxs_ s) (stop_ s).
Definition with_ctx (i : nat) (c : Ctx) (s : Sched) : Sched :=
  mkS (crs s) (next_cr s) (statics s) (id_cr_ s) (<[i := c]> (pctxs_ s)) (stop_ s).
Definition with_pctxs (cs : list Ctx) (s : Sched) : Sched :=
  mkS (crs s) (next_cr s) (statics s) (id_cr_ s) cs (stop_ s).

Definition upd_cr (p : Z) (f : CRoutine -> CRoutine) (s : Sched) : Sched :=
  with_crs (alter f p (crs s)) s.

(** [n] classic contexts of a group. *)
Fixpoint classic_contexts (n : nat) (g : string) (st : Statics) : list Ctx * Statics :=
  match n with
  | O => ([], st)
  | S n' =>
      let '(c, st1) := InitGroup g st in
      let '(cs, st2) := classic_contexts n' g st1 in (c :: cs, st2)
  end.

(** [CreateProcessor()] of the two policies. *)
Fixpoint group_contexts (groups : list SchedGroup) (st : Statics) : list Ctx * Statics :=
  match groups with
  | [] => ([], st)
  | g :: gs =>
      let '(cs, st1) := classic_contexts (Z.to_nat (sg_processor_num g)) (sg_name g) st in
      let '(cs', st2) := group_contexts gs st1 in (cs ++ cs', st2)
  end.

Definition CreateProcessor (pol : Policy) (s : Sched) : Sched :=
  match pol with
  | SchedulerClassic groups _ =>
      let '(cs, st) := group_contexts groups (statics s) in with_pctxs (pctxs_ s ++ cs) (with_statics st s)
  | SchedulerChoreography proc_num_ task_pool_size_ _ =>
      let '(cs, st) := classic_contexts (Z.to_nat task_pool_size_) DEFAULT_GROUP_NAME (statics s) in
      with_pctxs (pctxs_ s ++ replicate (Z.to_nat proc_num_) (Choreography [] 0 false) ++ cs)
        (with_statics st s)
  end.

(** A scheduler just constructed. *)
Definition sched_new (pol : Policy) : Sched :=
  CreateProcessor pol (mkS ∅ 0 (mkStatics ∅ ∅) ∅ [] false).

(** ** Dispatching *)

(** [if (cr->priority() >= MAX_PRIO) cr->set_priority(MAX_PRIO - 1)]. *)
Definition clamp_priority (cr : CRoutine) : CRoutine :=
  if MAX_PRIO <=? priority_ cr then set_priority (MAX_PRIO - 1) cr else cr.

(** [uint32_t pid = cr->processor_id()]. *)
Definition pid_of (cr : CRoutine) : Z := wrap_u32 (processor_id_ cr).

(** [cr_group_[group].at(priority).emplace_back(cr)]. *)
Definition push_group (p : Z) (cr : CRoutine) (st : Statics) : option Statics :=
  match queue_at (group_name_ cr) (priority_ cr) st with
  | Some q => Some (set_queue (group_name_ cr) (priority_ cr) (q ++ [p]) st)
  | None => None
  end.

(** The attributes that [DispatchTask] gives a coroutine; [None] is [groups(0)] of no groups. *)
Definition assign (pol : Policy) (cr : CRoutine) : option CRoutine :=
  match pol with
  | SchedulerClassic groups confs =>
      match confs !! name_ cr with
      | Some t => Some (clamp_priority (set_group_name (ct_group_name t) (set_priority (ct_prio t) cr)))
      | None =>
          match groups with
          | [] => None
          | g :: _ => Some (clamp_priority (set_group_name (sg_name g) cr))
          end
      end
  | SchedulerChoreography proc_num_ _ confs =>
      let cr1 := match confs !! name_ cr with
                 | Some t =>
                     let cr' := set_priority (ht_prio t) cr in
                     match ht_processor t with Some i => set_processor_id i cr' | None => cr' end
                 | None => cr
                 end in
      Some (if pid_of cr1 <? proc_num_ then cr1
            else set_group_name DEFAULT_GROUP_NAME (clamp_priority cr1))
  end.

(** [DispatchTask(cr)] for the coroutine at [p]; [None] when the process dies. *)
Definition DispatchTask (pol : Policy) (p : Z) (s : Sched) : option (bool * Sched) :=
  match crs s !! p with
  | None => None
  | Some cr0 =>
      if bool_decide (is_Some (id_cr_ s !! id_ cr0)) then Some (false, s)
      else
        let s1 := with_id_cr (<[id_ cr0 := p]> (id_cr_ s)) s in
        match assign pol cr0 with
        | None => None
        | Some cr =>
            let s2 := with_crs (<[p := cr]> (crs s1)) s1 in
            match pol with
            | SchedulerClassic _ _ =>
                match push_group p cr (statics s2) with
                | Some st => Some (true, with_statics (NotifyGroup (group_name_ cr) st) s2)
                | None => None
                end
            | SchedulerChoreography proc_num_ _ _ =>
                if pid_of cr <? proc_num_ then
                  match pctxs_ s2 !! Z.to_nat (pid_of cr) with
                  | Some c => Some (true, with_ctx (Z.to_nat (pid_of cr)) (Enqueue p cr c) s2)
                  | None => None
                  end
                else
                  match push_group p cr (statics s2) with
                  | Some st => Some (true, with_statics st s2)
                  | None => None
                  end
            end
        end
  end.

(** [std::make_shared<CRoutine>(func)], [set_id] and [set_name]. *)
Definition make_cr (now task_id : Z) (name : string) (s : Sched) : Z * Sched :=
  (next_cr s,
   mkS (<[next_cr s := set_name name (set_id task_id (cr_new now))]> (crs s)) (next_cr s + 1)
     (statics s) (id_cr_ s) (pctxs_ s) (stop_ s)).

(** [CreateTask(func, name, visitor)]: the result, the identifier whose notification the visitor
    is given as callback, and the new states. *)
Definition CreateTask (hash : string -> Z) (pol : Policy) (now : Z) (name : string) (visitor : bool)
    (s : Sched) (gd : GlobalData) : option (bool * option Z * Sched * GlobalData) :=
  if stop_ s then Some (false, None, s, gd)
  else
    match RegisterTaskName hash name gd with
    | None => None
    | Some (task_id, gd1) =>
        let '(p, s1) := make_cr now task_id name s in
        match DispatchTask pol p s1 with
        | None => None
        | Some (false, s2) => Some (false, None, s2, gd1)
        | Some (true, s2) => Some (true, if visitor then Some task_id else None, s2, gd1)
        end
    end.

(** ** Notifying *)

Definition NotifyProcessor (pol : Policy) (crid : Z) (s : Sched) : bool * Sched :=
  if stop_ s then (true, s)
  else
    match id_cr_ s !! crid with
    | None => (false, s)
    | Some p =>
        match crs s !! p with
        | None => (false, s)
        | Some cr =>
            let s1 := upd_cr p flag_waiting s in
            match pol with
            | SchedulerClassic _ _ => (true, with_statics (NotifyGroup (group_name_ cr) (statics s1)) s1)
            | SchedulerChoreography proc_num_ _ _ =>
                if pid_of cr <? proc_num_ then
                  (true, with_pctxs (alter NotifyCtx (Z.to_nat (pid_of cr)) (pctxs_ s1)) s1)
                else (true, with_statics (NotifyGroup (group_name_ cr) (statics s1)) s1)
            end
        end
    end.

(** [NotifyTask(crid)], and the callback that [CreateTask] registers. *)
Definition NotifyTask (pol : Policy) (crid : Z) (s : Sched) : bool * Sched :=
  if stop_ s then (true, s) else NotifyProcessor pol crid s.

(** ** Removing *)

(** The first critical section: [None] is [return false]. *)
Definition remove_begin (crid : Z) (s : Sched) : option (Z * Sched) :=
  match id_cr_ s !! crid with
  | Some p => Some (p, upd_cr p Stop (with_id_cr (delete crid (id_cr_ s)) s))
  | None => None
  end.

Inductive outcome :=
| Crash
| Blocked (s : Sched)
| Done (found : bool) (s : Sched).

(** The second, for the coroutine at [p]. *)
Definition remove_end (pol : Policy) (crid p : Z) (s : Sched) : outcome :=
  match crs s !! p with
  | None => Crash
  | Some cr =>
      let from_group :=
        match RemoveFromGroup cr (statics s) (crs s) with
        | Throws => Crash
        | Waiting h => Blocked (with_crs h s)
        | Returned b st h => Done b (with_crs h (with_statics st s))
        end in
      match pol with
      | SchedulerClassic _ _ => from_group
      | SchedulerChoreography proc_num_ _ _ =>
          if pid_of cr <? proc_num_ then
            match pctxs_ s !! Z.to_nat (pid_of cr) with
            | None => Crash
            | Some c =>
                match RemoveFromCtx crid c (crs s) with
                | Throws => Crash
                | Waiting h => Blocked (with_crs h s)
                | Returned b c' h => Done b (with_crs h (with_ctx (Z.to_nat (pid_of cr)) c' s))
                end
            end
          else from_group
      end
  end.

Definition RemoveCRoutine (pol : Policy) (crid : Z) (s : Sched) : outcome :=
  match remove_begin crid s with
  | None => Done false s
  | Some (p, s1) => remove_end pol crid p s1
  end.

(** [RemoveTask(name)]. *)
Definition RemoveTask (hash : string -> Z) (pol : Policy) (name : string) (s : Sched) : outcome :=
  if stop_ s then Done true s else RemoveCRoutine pol (hash name) s.

(** ** Shutdown *)

Fixpoint shutdown_contexts (cs : list Ctx) (st : Statics) : list Ctx * Statics :=
  match cs with
  | [] => ([], st)
  | c :: cs' =>
      let '(c1, st1) := CtxShutdown c st in
      let '(cs1, st2) := shutdown_contexts cs' st1 in (c1 :: cs1, st2)
  end.

(** [Shutdown()] up to the removals: the state, and the identifiers [cr_list] to remove. *)
Definition shutdown_begin (s : Sched) : list Z * Sched :=
  if stop_ s then ([], s)
  else
    let '(cs, st) := shutdown_contexts (pctxs_ s) (statics s) in
    let s1 := mkS (crs s) (next_cr s) st (id_cr_ s) cs true in
    (omap (fun e => id_ <$> crs s !! snd e) (map_to_list (id_cr_ s)), s1).

Fixpoint remove_all (pol : Policy) (cr_list : list Z) (s : Sched) : outcome :=
  match cr_list with
  | [] => Done true s
  | crid :: l =>
      match RemoveCRoutine pol crid s with
      | Done _ s1 => remove_all pol l s1
      | o => o
      end
  end.

(** The whole of it when no processor holds a coroutine. *)
Definition Shutdown (pol : Policy) (s : Sched) : outcome :=
  let '(cr_list, s1) := shutdown_begin s in
  if stop_ s then Done true s
  else match remove_all pol cr_list s1 with
       | Done b s2 => Done b (with_pctxs [] s2)
       | o => o
       end.
