(* ===== verification/SchedulerSafety.v ===== *)
(** * SchedulerSafety: where the coroutines are, and who runs them

    The interleaving of the operations of a scheduler with its processors
    ([cyber/scheduler/processor.cc]).  The invariant: a coroutine is in exactly one queue, the one of its group
    or processor, from its dispatch to the end of its removal, and its lock is held by the
    processor that has taken it. *)

From S2P Require Import Prelude AtomicHashMap GlobalData CRoutine RunQueue Scheduler.

(** ** Interleaving *)

(** Where a processor is in the loop of [Processor::Run]: about to call [NextRoutine], with a
    coroutine about to [Resume] it, in it, about to [Release] it. *)
Inductive ppc := PNext | PResume (p : Z) | PIn (p : Z) | PRelease (p : Z).

Definition held (t : ppc) : option Z :=
  match t with PNext => None | PResume p | PIn p | PRelease p => Some p end.

(** [procs]: the index of the context of each processor, and where it is; [pend]: the removals
    that are between their critical sections; [removed]: the coroutines whose removal has
    returned. *)
Record Config := mkConfig {
  sched : Sched;
  procs : list (nat * ppc);
  pend : list (Z * Z);
  removed : list Z;
}.

Section steps.
Context (pol : Policy).

Inductive step : Config -> Config -> Prop :=
(** The dispatch of a new coroutine; the mutex of its identifier is free. *)
| s_dispatch s ts pe rm now id nm p s1 b s2 :
    id ∉ pe.*1 -> make_cr now id nm s = (p, s1) -> DispatchTask pol p s1 = Some (b, s2) ->
    step (mkConfig s ts pe rm) (mkConfig s2 ts pe rm)
| s_notify s ts pe rm id :
    step (mkConfig s ts pe rm) (mkConfig (snd (NotifyProcessor pol id s)) ts pe rm)
| s_remove_begin s ts pe rm id p s1 :
    id ∉ pe.*1 -> remove_begin id s = Some (p, s1) ->
    step (mkConfig s ts pe rm) (mkConfig s1 ts ((id, p) :: pe) rm)
| s_remove_wait s ts pe rm id p s1 :
    (id, p) ∈ pe -> remove_end pol id p s = Blocked s1 ->
    step (mkConfig s ts pe rm) (mkConfig s1 ts pe rm)
| s_remove_end s ts pe1 pe2 rm id p b s1 :
    remove_end pol id p s = Done b s1 ->
    step (mkConfig s ts (pe1 ++ (id, p) :: pe2) rm) (mkConfig s1 ts (pe1 ++ pe2) (p :: rm))
| s_shutdown s ts pe rm :
    step (mkConfig s ts pe rm) (mkConfig (snd (shutdown_begin s)) ts pe rm)
(** [NextRoutine], and [Wait] when it finds nothing. *)
| s_next s ts pe rm now j i c r h :
    ts !! j = Some (i, PNext) -> pctxs_ s !! i = Some c ->
    NextRoutine now c (statics s) (crs s) = (r, h) ->
    step (mkConfig s ts pe rm)
      (mkConfig (with_crs h s) (<[j := (i, match r with Some p => PResume p | None => PNext end)]> ts) pe rm)
| s_wait s ts pe rm j i c c' st' :
    ts !! j = Some (i, PNext) -> pctxs_ s !! i = Some c -> Wait c (statics s) = (c', st') ->
    step (mkConfig s ts pe rm) (mkConfig (with_ctx i c' (with_statics st' s)) ts pe rm)
(** [Resume]: its two early returns, the switch to the coroutine, what the coroutine does to its
    own state while it runs, and the switch back. *)
| s_resume s ts pe rm j i p cr :
    ts !! j = Some (i, PResume p) -> crs s !! p = Some cr ->
    step (mkConfig s ts pe rm)
      (mkConfig (if force_stop_ cr then upd_cr p (set_state FINISHED) s else s)
         (<[j := (i, if force_stop_ cr || negb (bool_decide (state_ cr = READY)) then PRelease p else PIn p)]> ts) pe rm)
| s_run s ts pe rm j i p st t :
    ts !! j = Some (i, PIn p) ->
    step (mkConfig s ts pe rm) (mkConfig (upd_cr p (set_state st ∘ set_wake_time t) s) ts pe rm)
| s_yield s ts pe rm j i p :
    ts !! j = Some (i, PIn p) ->
    step (mkConfig s ts pe rm) (mkConfig s (<[j := (i, PRelease p)]> ts) pe rm)
| s_release s ts pe rm j i p :
    ts !! j = Some (i, PRelease p) ->
    step (mkConfig s ts pe rm) (mkConfig (upd_cr p Release s) (<[j := (i, PNext)]> ts) pe rm).

(** ** Placement *)

Inductive place := InGroup (g : string) (prio : nat) | InCtx (pid : nat).

#[export] Instance place_eq_dec : EqDecision place.
Proof. solve_decision. Defined.

Definition place_of (cr : CRoutine) : place :=
  match pol with
  | SchedulerClassic _ _ => InGroup (group_name_ cr) (Z.to_nat (priority_ cr))
  | SchedulerChoreography proc_num_ _ _ =>
      if pid_of cr <? proc_num_ then InCtx (Z.to_nat (pid_of cr))
      else InGroup (group_name_ cr) (Z.to_nat (priority_ cr))
  end.

Definition ctx_queue (c : Ctx) : list (Z * Z) :=
  match c with Choreography q _ _ => q | Classic _ _ => [] end.

Definition queue (s : Sched) (pl : place) : list Z :=
  match pl with
  | InGroup g n => default [] (group_queues g (statics s) !! n)
  | InCtx i => match pctxs_ s !! i with Some c => (ctx_queue c).*2 | None => [] end
  end.

(** A coroutine that is registered, or whose removal has not finished. *)
Definition active (s : Sched) (pe : list (Z * Z)) (p : Z) (cr : CRoutine) : Prop :=
  id_cr_ s !! id_ cr = Some p \/ (id_ cr, p) ∈ pe.

Definition prio_ok (cr : CRoutine) : Prop :=
  match place_of cr with InGroup _ _ => 0 <= priority_ cr < MAX_PRIO | InCtx _ => True end.

Record placed (s : Sched) (pe : list (Z * Z)) : Prop := {
  pl_reg : forall i p, id_cr_ s !! i = Some p -> exists cr, crs s !! p = Some cr /\ id_ cr = i;
  pl_pend : forall i p, (i, p) ∈ pe ->
    id_cr_ s !! i = None /\ exists cr, crs s !! p = Some cr /\ id_ cr = i;
  pl_pend_nodup : NoDup pe.*1;
  pl_queue : forall pl p, p ∈ queue s pl <->
    exists cr, crs s !! p = Some cr /\ place_of cr = pl /\ active s pe p cr;
  pl_nodup : forall pl, NoDup (queue s pl);
  pl_prio : forall p cr, crs s !! p = Some cr -> active s pe p cr -> prio_ok cr;
  pl_keys : forall i c, pctxs_ s !! i = Some c -> StronglySorted by_key (ctx_queue c) /\
    forall k p, (k, p) ∈ ctx_queue c -> exists cr, crs s !! p = Some cr /\ priority_ cr = k;
  pl_fresh : forall p, next_cr s <= p -> crs s !! p = None;
  pl_twenty : forall g, length (group_queues g (statics s)) = Z.to_nat MAX_PRIO;
  pl_ctx : forall groups pool confs, pol = SchedulerChoreography groups pool confs ->
    forall i, 0 <= i < groups -> exists q n b, pctxs_ s !! Z.to_nat i = Some (Choreography q n b);
}.

(** Each held coroutine is locked, by one processor; the others are not locked. *)
Record locked (s : Sched) (ts : list (nat * ppc)) : Prop := {
  lk_held : forall j i t p, ts !! j = Some (i, t) -> held t = Some p ->
    exists cr, crs s !! p = Some cr /\ lock_ cr = true /\ (forall q, t = PResume q -> state_ cr = READY);
  lk_one : forall j j' i i' t t' p, ts !! j = Some (i, t) -> ts !! j' = Some (i', t') ->
    held t = Some p -> held t' = Some p -> j = j';
  lk_only : forall p cr, crs s !! p = Some cr -> lock_ cr = true ->
    exists j i t, ts !! j = Some (i, t) /\ held t = Some p;
}.

Record inv (c : Config) : Prop := {
  inv_placed : placed (sched c) (pend c);
  inv_locked : locked (sched c) (procs c);
  inv_removed : forall p, p ∈ removed c -> exists cr, crs (sched c) !! p = Some cr /\
    ~ active (sched c) (pend c) p cr /\ lock_ cr = false;
}.
End steps.

(** ** Lemmas on heaps *)

Definition pointwise (R : relation CRoutine) (h h' : heap) : Prop :=
  forall p, option_Forall2 R (h !! p) (h' !! p).

Lemma pointwise_refl R h : Reflexive R -> pointwise R h h.
Proof. intros HR p. destruct (h !! p); by constructor. Qed.

Lemma pointwise_alter R f p h :
  Reflexive R -> (forall cr, h !! p = Some cr -> R cr (f cr)) -> pointwise R h (alter f p h).
Proof.
  intros HR Hf p'. destruct (decide (p' = p)) as [->|Hne].
  - rewrite lookup_alter_eq. destruct (h !! p) eqn:E; constructor. by apply Hf.
  - rewrite lookup_alter_ne by done. destruct (h !! p'); by constructor.
Qed.

Lemma pointwise_insert R p cr cr' h :
  Reflexive R -> h !! p = Some cr -> R cr cr' -> pointwise R h (<[p := cr']> h).
Proof.
  intros HR Hp Hcr p'. destruct (decide (p' = p)) as [->|Hne].
  - rewrite lookup_insert_eq, Hp. by constructor.
  - rewrite lookup_insert_ne by done. destruct (h !! p'); by constructor.
Qed.

Lemma pointwise_fwd R h h' p cr :
  pointwise R h h' -> h !! p = Some cr -> exists cr', h' !! p = Some cr' /\ R cr cr'.
Proof. intros H Hp. specialize (H p). rewrite Hp in H. inversion H; subst. eauto. Qed.

Lemma pointwise_bwd R h h' p cr' :
  pointwise R h h' -> h' !! p = Some cr' -> exists cr, h !! p = Some cr /\ R cr cr'.
Proof. intros H Hp. specialize (H p). rewrite Hp in H. inversion H; subst. eauto. Qed.

Lemma scanned_same_task now r h h' : scanned now r h h' -> pointwise same_task h h'.
Proof.
  intros H p. destruct (h !! p) as [cr|] eqn:E.
  - destruct (scanned_lookup _ _ _ _ _ _ H E) as (cr' & -> & ? & _). by constructor.
  - specialize (H p). rewrite E in H. rewrite H. constructor.
Qed.

Lemma same_task_fields f :
  (forall cr, name_ (f cr) = name_ cr /\ group_name_ (f cr) = group_name_ cr /\
     processor_id_ (f cr) = processor_id_ cr /\ priority_ (f cr) = priority_ cr /\ id_ (f cr) = id_ cr) ->
  forall cr, same_task cr (f cr).
Proof. intros H cr. destruct (H cr) as (?&?&?&?&?). by split. Qed.

Lemma same_task_flag cr : same_task cr (flag_waiting cr).
Proof. unfold flag_waiting. by case_if. Qed.

(** A change that keeps the lock and the state. *)
Definition same_lock (a b : CRoutine) : Prop := lock_ b = lock_ a /\ state_ b = state_ a.

#[export] Instance same_lock_refl : Reflexive same_lock.
Proof. by split. Qed.

Lemma same_lock_flag cr : same_lock cr (flag_waiting cr).
Proof. unfold flag_waiting. by case_if. Qed.

(** ** What does not move a coroutine *)

Definition same_ctx (c c' : Ctx) : Prop :=
  match c, c' with
  | Classic g _, Classic g' _ => g = g'
  | Choreography q _ _, Choreography q' _ _ => q = q'
  | _, _ => False
  end.

#[export] Instance same_ctx_refl : Reflexive same_ctx.
Proof. by intros []. Qed.

Lemma same_ctx_queue c c' : same_ctx c c' -> ctx_queue c' = ctx_queue c.
Proof. by destruct c, c'; cbn; intros; subst. Qed.

Record unmoved (s s' : Sched) : Prop := {
  um_id : id_cr_ s' = id_cr_ s;
  um_next : next_cr s' = next_cr s;
  um_group : forall g, group_queues g (statics s') = group_queues g (statics s);
  um_ctx : Forall2 same_ctx (pctxs_ s) (pctxs_ s');
  um_crs : pointwise same_task (crs s) (crs s');
}.

Lemma unmoved_crs s h : pointwise same_task (crs s) h -> unmoved s (with_crs h s).
Proof. split; [done..|by apply Forall_Forall2_diag, Forall_true|done]. Qed.

Lemma unmoved_refl s : unmoved s s.
Proof. split; [done..|by apply Forall_Forall2_diag, Forall_true|by apply pointwise_refl, _]. Qed.

Lemma queue_unmoved s s' pl : unmoved s s' -> queue s' pl = queue s pl.
Proof.
  intros [_ _ Hg Hc _]. destruct pl as [g n|i]; cbn; [by rewrite Hg|].
  destruct (pctxs_ s !! i) as [c|] eqn:E.
  - destruct (Forall2_lookup_l _ _ _ _ _ Hc E) as (c' & -> & Hs). by rewrite (same_ctx_queue _ _ Hs).
  - apply lookup_ge_None in E. rewrite (proj2 (lookup_ge_None _ _)); [done|].
    by rewrite <- (Forall2_length _ _ _ Hc).
Qed.

Section placement.
Context (pol : Policy).

Lemma place_same a b : same_task a b -> place_of pol b = place_of pol a.
Proof. intros [_ Hg Hp Hq _]. unfold place_of, pid_of. by rewrite Hg, Hp, Hq. Qed.

Lemma prio_ok_same a b : same_task a b -> prio_ok pol a -> prio_ok pol b.
Proof. intros H. unfold prio_ok. rewrite (place_same _ _ H). by rewrite (st_priority _ _ H). Qed.

Lemma placed_unmoved s s' pe : unmoved s s' -> placed pol s pe -> placed pol s' pe.
Proof.
  intros Hu. pose proof (fun pl => queue_unmoved s s' pl Hu) as Hq.
  destruct Hu as [Hid Hn Hg Hc Hh]. intros [P1 P2 P3 P4 P5 P6 P7 P8 P9 P10].
  assert (Hact : forall p a b, same_task a b -> active s' pe p b <-> active s pe p a).
  { intros p a b [_ _ _ _ H]. unfold active. by rewrite Hid, H. }
  split.
  - intros i p. rewrite Hid. intros (cr & Hp & Hi)%P1.
    destruct (pointwise_fwd _ _ _ _ _ Hh Hp) as (cr' & ? & []). exists cr'. split; [done|congruence].
  - intros i p (Hi & cr & Hp & He)%P2. rewrite Hid. split; [done|].
    destruct (pointwise_fwd _ _ _ _ _ Hh Hp) as (cr' & ? & []). exists cr'. split; [done|congruence].
  - done.
  - intros pl p. rewrite Hq, P4. split.
    + intros (cr & Hp & Hpl & Ha). destruct (pointwise_fwd _ _ _ _ _ Hh Hp) as (cr' & ? & Hs).
      exists cr'. rewrite (place_same _ _ Hs), (Hact p _ _ Hs). done.
    + intros (cr' & Hp & Hpl & Ha). destruct (pointwise_bwd _ _ _ _ _ Hh Hp) as (cr & ? & Hs).
      exists cr. rewrite <- (place_same _ _ Hs), <- (Hact p _ _ Hs). done.
  - intros pl. by rewrite Hq.
  - intros p cr' Hp Ha. destruct (pointwise_bwd _ _ _ _ _ Hh Hp) as (cr & Hp' & Hs).
    eapply prio_ok_same; [done|]. eapply P6; [done|]. by apply (Hact p _ _ Hs).
  - intros i c' Hi. destruct (Forall2_lookup_r _ _ _ _ _ Hc Hi) as (c & Hi' & Hs).
    rewrite (same_ctx_queue _ _ Hs). destruct (P7 i c Hi') as [? Hk]. split; [done|].
    intros k p (cr & Hp & Hkey)%Hk. destruct (pointwise_fwd _ _ _ _ _ Hh Hp) as (cr' & ? & []).
    exists cr'. split; [done|congruence].
  - intros p Hp. rewrite Hn in Hp. apply P8 in Hp. specialize (Hh p). rewrite Hp in Hh. by inversion Hh.
  - intros g. by rewrite Hg.
  - intros n pool confs Hpol i Hi. destruct (P10 _ _ _ Hpol i Hi) as (q & m & b & Hl).
    destruct (Forall2_lookup_l _ _ _ _ _ Hc Hl) as (c' & Hl' & Hs).
    destruct c' as [|q' m' b']; [done|]. eauto.
Qed.

(** ** Dispatching *)

(** A coroutine that is new to the scheduler is in no queue. *)
Definition unknown (s : Sched) (pe : list (Z * Z)) (p : Z) : Prop :=
  (forall i, id_cr_ s !! i <> Some p) /\ (forall i, (i, p) ∉ pe).

Lemma unknown_queue s pe p pl : placed pol s pe -> unknown s pe p -> p ∉ queue s pl.
Proof. intros P [H1 H2]. rewrite (pl_queue _ _ _ P). intros (cr & _ & _ & [H|H]); [by eapply H1|by eapply H2]. Qed.

Lemma placed_make_cr s pe now id nm p s1 :
  make_cr now id nm s = (p, s1) -> placed pol s pe ->
  placed pol s1 pe /\ unknown s1 pe p /\ crs s !! p = None /\
  crs s1 = <[p := set_name nm (set_id id (cr_new now))]> (crs s) /\ id_cr_ s1 = id_cr_ s.
Proof.
  intros [= <- <-] P. pose proof (pl_fresh _ _ _ P (next_cr s) ltac:(lia)) as Hf.
  assert (Hu : unknown s pe (next_cr s)).
  { split; intros i Hi.
    - destruct (pl_reg _ _ _ P _ _ Hi) as (cr & Hc & _). congruence.
    - destruct (pl_pend _ _ _ P _ _ Hi) as (_ & cr & Hc & _). congruence. }
  split; [|done]. destruct P as [P1 P2 P3 P4 P5 P6 P7 P8 P9 P10].
  assert (Hne : forall p cr, crs s !! p = Some cr ->
    <[next_cr s := set_name nm (set_id id (cr_new now))]> (crs s) !! p = Some cr).
  { intros p cr Hp. rewrite lookup_insert_ne by congruence. done. }
  split; cbn [crs id_cr_ pctxs_ statics next_cr]; [..|done].
  - intros i p (cr & ? & ?)%P1. eauto.
  - intros i p (? & cr & ? & ?)%P2. eauto.
  - done.
  - intros pl p. change (queue (mkS _ _ _ _ _ _) pl) with (queue s pl). rewrite P4.
    unfold active. cbn [id_cr_]. split; intros (cr & Hp & Hpl & Ha); [eauto|].
    destruct (decide (p = next_cr s)) as [->|Hd]; [|rewrite lookup_insert_ne in Hp by done; eauto].
    exfalso. destruct Hu as [H1 H2], Ha as [Ha|Ha]; [by eapply H1|by eapply H2].
  - done.
  - intros p cr Hp Ha. unfold active in Ha. cbn [id_cr_] in Ha.
    destruct (decide (p = next_cr s)) as [->|Hd].
    + exfalso. destruct Hu as [H1 H2], Ha as [Ha|Ha]; [by eapply H1|by eapply H2].
    + rewrite lookup_insert_ne in Hp by done. by eapply P6.
  - intros i c Hi. destruct (P7 i c Hi) as [? Hk]. split; [done|].
    intros k p (cr & ? & ?)%Hk. eauto.
  - intros p Hp. rewrite lookup_insert_ne by lia. apply P8. lia.
  - done.
Qed.

(** A coroutine [cr], that was [cr0], enters the queue of its place and the table. *)
Record entered (s : Sched) (p : Z) (cr : CRoutine) (s' : Sched) : Prop := {
  en_id : id_cr_ s' = <[id_ cr := p]> (id_cr_ s);
  en_next : next_cr s' = next_cr s;
  en_crs : crs s' = <[p := cr]> (crs s);
  en_queue : forall pl, queue s' pl ≡ₚ (if decide (pl = place_of pol cr) then p :: queue s pl else queue s pl);
  en_prio : prio_ok pol cr;
  en_keys : forall i c', pctxs_ s' !! i = Some c' -> exists c, pctxs_ s !! i = Some c /\
    (ctx_queue c' = ctx_queue c \/ ctx_queue c' = emplace (priority_ cr) p (ctx_queue c));
  en_twenty : forall g, length (group_queues g (statics s')) = length (group_queues g (statics s));
  en_ctx : forall i q n b, pctxs_ s !! i = Some (Choreography q n b) ->
    exists q' n' b', pctxs_ s' !! i = Some (Choreography q' n' b');
}.

Lemma placed_entered s pe p cr0 cr s' :
  placed pol s pe -> unknown s pe p -> crs s !! p = Some cr0 ->
  id_cr_ s !! id_ cr = None -> id_ cr ∉ pe.*1 ->
  entered s p cr s' -> placed pol s' pe.
Proof.
  intros P Hu Hp0 Hid Hpe [E1 E2 E3 E4 E5 E6 E7 E8].
  pose proof (fun pl => unknown_queue _ _ _ pl P Hu) as Hnq. destruct Hu as [Hu1 Hu2].
  destruct P as [P1 P2 P3 P4 P5 P6 P7 P8 P9 P10].
  assert (Hold : forall q c, q <> p -> crs s !! q = Some c -> crs s' !! q = Some c).
  { intros q c Hd Hq. by rewrite E3, lookup_insert_ne. }
  assert (Hnew : crs s' !! p = Some cr) by by rewrite E3, lookup_insert_eq.
  assert (Hact : forall q c, q <> p -> active s' pe q c <-> active s pe q c).
  { intros q c Hd. unfold active. rewrite E1. rewrite lookup_insert.
    case_decide as He; [|done]. rewrite <- He, Hid. split; intros [H|H]; try done; try (by right).
    congruence. }
  split.
  - intros i q. rewrite E1, lookup_insert. case_decide as He.
    + intros [= <-]. eauto.
    + intros Hi. destruct (P1 i q Hi) as (c & ? & ?). exists c. split; [|done]. apply Hold; [|done].
      intros ->. by eapply Hu1.
  - intros i q Hi. destruct (P2 i q Hi) as (Hn & c & ? & ?). split.
    + rewrite E1, lookup_insert_ne; [done|]. intros <-. apply Hpe. apply list_elem_of_fmap. by exists (id_ cr, q).
    + exists c. split; [|done]. apply Hold; [|done]. intros ->. by eapply Hu2.
  - done.
  - intros pl q. rewrite E4.
    assert (H0 : q ∈ (if decide (pl = place_of pol cr) then p :: queue s pl else queue s pl) <->
      (q = p /\ pl = place_of pol cr) \/ (q <> p /\ q ∈ queue s pl)).
    { pose proof (Hnq pl). case_decide; [rewrite elem_of_cons|]; destruct (decide (q = p)); subst; tauto. }
    rewrite H0, P4. split.
    + intros [[-> ->]|[Hd (c & Hc & Hpl & Ha)]].
      * exists cr. split; [done|]. split; [done|]. left. by rewrite E1, lookup_insert_eq.
      * exists c. rewrite Hact by done. auto.
    + intros (c & Hc & Hpl & Ha). destruct (decide (q = p)) as [->|Hd]; [left|right].
      * split; [done|]. congruence.
      * split; [done|]. exists c. rewrite Hact in Ha by done. rewrite E3, lookup_insert_ne in Hc by done. done.
  - intros pl. rewrite E4. case_decide; [|done]. apply NoDup_cons. done.
  - intros q c Hq Ha. destruct (decide (q = p)) as [->|Hd]; [congruence|].
    rewrite Hact in Ha by done. rewrite E3, lookup_insert_ne in Hq by done. by eapply P6.
  - intros i c' Hi. destruct (E6 i c' Hi) as (c & Hc & Hqs). destruct (P7 i c Hc) as [Hs Hk].
    assert (Hk' : forall k q, (k, q) ∈ ctx_queue c -> exists cr', crs s' !! q = Some cr' /\ priority_ cr' = k).
    { intros k q Hin. destruct (Hk k q Hin) as (c1 & Hc1 & Hk1). exists c1. split; [|done]. apply Hold; [|done].
      intros ->. apply (Hnq (InCtx i)). cbn. rewrite Hc. apply list_elem_of_fmap. by exists (k, p). }
    destruct Hqs as [-> | ->]; [done|]. split; [by apply emplace_sorted|].
    intros k q. rewrite emplace_perm, elem_of_cons. intros [[= -> ->]|Hin]; eauto.
  - intros q Hq. rewrite E2 in Hq. rewrite E3, lookup_insert_ne; [by apply P8|].
    intros ->. apply P8 in Hq. congruence.
  - intros g. by rewrite E7.
  - intros n pool confs Hpol i Hi. destruct (P10 _ _ _ Hpol i Hi) as (? & ? & ? & Hl). by eapply E8.
Qed.
End placement.

(** Priorities of the configuration are [uint32]. *)
Definition policy_ok (pol : Policy) : Prop :=
  match pol with
  | SchedulerClassic _ confs => forall n t, confs !! n = Some t -> 0 <= ct_prio t
  | SchedulerChoreography _ _ confs => forall n t, confs !! n = Some t -> 0 <= ht_prio t
  end.

Lemma group_queues_set g g' prio q st :
  group_queues g' (set_queue g prio q st) =
  if decide (g' = g) then <[Z.to_nat prio := q]> (group_queues g st) else group_queues g' st.
Proof.
  unfold group_queues, set_queue. cbn [cr_group_]. case_decide as H; [subst; by rewrite lookup_insert_eq|].
  by rewrite lookup_insert_ne.
Qed.

Lemma queue_set_queue s g prio q q0 g' n :
  queue_at g prio (statics s) = Some q0 ->
  queue (with_statics (set_queue g prio q (statics s)) s) (InGroup g' n) =
  if decide (InGroup g' n = InGroup g (Z.to_nat prio)) then q else queue s (InGroup g' n).
Proof.
  intros H. cbn. rewrite group_queues_set. unfold queue_at in H. pose proof (lookup_lt_Some _ _ _ H) as Hl.
  destruct (decide (g' = g)) as [->|Hne]; [|by rewrite decide_False by congruence].
  destruct (decide (n = Z.to_nat prio)) as [->|Hn].
  - rewrite decide_True by done. by rewrite list_lookup_insert_eq.
  - rewrite decide_False by congruence. by rewrite list_lookup_insert_ne by done.
Qed.

Section dispatch.
Context (pol : Policy) (Hpol : policy_ok pol).

Lemma clamp_range cr : 0 <= priority_ cr -> 0 <= priority_ (clamp_priority cr) < MAX_PRIO.
Proof. unfold clamp_priority, MAX_PRIO. intros. case_if; cbn; lia. Qed.

Lemma clamp_id cr : id_ (clamp_priority cr) = id_ cr.
Proof. unfold clamp_priority. by case_if. Qed.
Lemma clamp_lock cr : lock_ (clamp_priority cr) = lock_ cr.
Proof. unfold clamp_priority. by case_if. Qed.
Lemma clamp_pid cr : pid_of (clamp_priority cr) = pid_of cr.
Proof. unfold clamp_priority. by case_if. Qed.

Lemma assign_ok cr0 cr :
  assign pol cr0 = Some cr -> 0 <= priority_ cr0 ->
  id_ cr = id_ cr0 /\ lock_ cr = lock_ cr0 /\ prio_ok pol cr.
Proof using Hpol.
  unfold assign, prio_ok, place_of. intros Ha H0. destruct pol as [groups confs|n pool confs].
  - destruct (confs !! name_ cr0) as [t|] eqn:E.
    + injection Ha as <-. rewrite clamp_id, clamp_lock. split; [done|]. split; [done|].
      apply clamp_range. by eapply Hpol.
    + destruct groups as [|g groups]; [done|]. injection Ha as <-.
      rewrite clamp_id, clamp_lock. split; [done|]. split; [done|]. by apply clamp_range.
  - set (cr1 := match confs !! name_ cr0 with Some _ => _ | None => _ end) in Ha.
    assert (H1 : id_ cr1 = id_ cr0 /\ lock_ cr1 = lock_ cr0 /\ 0 <= priority_ cr1).
    { subst cr1. destruct (confs !! name_ cr0) as [t|] eqn:E; [|done].
      assert (0 <= ht_prio t) by by eapply Hpol. by destruct (ht_processor t). }
    clearbody cr1. destruct H1 as (Hid & Hlk & Hpr). injection Ha as <-.
    destruct (pid_of cr1 <? n) eqn:En; [by rewrite En|].
    change (pid_of (set_group_name DEFAULT_GROUP_NAME (clamp_priority cr1))) with (pid_of (clamp_priority cr1)).
    cbn [id_ lock_ set_group_name priority_]. rewrite clamp_id, clamp_lock, clamp_pid, En.
    split; [done|]. split; [done|]. by apply clamp_range.
Qed.

(** What every branch of [DispatchTask] has in common. *)
Lemma entered_group s p cr st :
  prio_ok pol cr -> place_of pol cr = InGroup (group_name_ cr) (Z.to_nat (priority_ cr)) ->
  push_group p cr (statics s) = Some st ->
  forall st', (forall g, group_queues g st' = group_queues g st) ->
  entered pol s p cr (with_statics st' (with_crs (<[p := cr]> (crs s)) (with_id_cr (<[id_ cr := p]> (id_cr_ s)) s))).
Proof.
  intros Hpr Hpl Hpush st' Hst. unfold push_group in Hpush.
  destruct (queue_at (group_name_ cr) (priority_ cr) (statics s)) as [q|] eqn:Hq; [|done]. injection Hpush as <-.
  split; try done.
  - intros [g n|i]; [|rewrite decide_False by congruence; done].
    rewrite Hpl. pose proof (queue_set_queue s _ _ (q ++ [p]) q g n Hq) as Hs.
    cbn in Hs |- *. rewrite Hst, Hs.
    case_decide as Hd; [|done]. injection Hd as -> ->. unfold queue_at in Hq. rewrite Hq. cbn.
    by rewrite Permutation_app_comm.
  - intros i c' Hi. exists c'. split; [done|by left].
  - intros g. cbn. rewrite Hst, group_queues_set. case_decide; [subst; by rewrite length_insert|done].
  - eauto.
Qed.

Lemma entered_ctx s p cr q n b i :
  prio_ok pol cr -> place_of pol cr = InCtx i -> pctxs_ s !! i = Some (Choreography q n b) ->
  entered pol s p cr (with_ctx i (Enqueue p cr (Choreography q n b))
    (with_crs (<[p := cr]> (crs s)) (with_id_cr (<[id_ cr := p]> (id_cr_ s)) s))).
Proof.
  intros Hpr Hpl Hi. pose proof (lookup_lt_Some _ _ _ Hi) as Hlt. split; try done.
  - intros [g m|j]; [rewrite decide_False by congruence; done|]. rewrite Hpl. cbn.
    destruct (decide (j = i)) as [->|Hne].
    + rewrite decide_True by done. rewrite list_lookup_insert_eq by done. rewrite Hi. cbn. by rewrite emplace_perm.
    + rewrite decide_False by congruence. by rewrite list_lookup_insert_ne.
  - intros j c'. cbn. destruct (decide (j = i)) as [->|Hne].
    + rewrite list_lookup_insert_eq by done. intros [= <-]. eexists. split; [done|]. by right.
    + rewrite list_lookup_insert_ne by done. eauto.
  - intros j q' n' b'. cbn. destruct (decide (j = i)) as [->|Hne].
    + rewrite list_lookup_insert_eq by done. eauto.
    + rewrite list_lookup_insert_ne by done. eauto.
Qed.

End dispatch.

Lemma DispatchTask_placed pol s pe p cr0 b s' :
  policy_ok pol -> placed pol s pe -> unknown s pe p -> crs s !! p = Some cr0 -> 0 <= priority_ cr0 ->
  id_ cr0 ∉ pe.*1 -> DispatchTask pol p s = Some (b, s') ->
  placed pol s' pe /\ exists cr, crs s' = <[p := cr]> (crs s) /\ lock_ cr = lock_ cr0 /\
    (id_cr_ s' = id_cr_ s \/ id_cr_ s' = <[id_ cr := p]> (id_cr_ s)).
Proof.
  intros Hpol P Hu Hp H0 Hpe. unfold DispatchTask. rewrite Hp. case_bool_decide as Hid.
  { intros [= <- <-]. split; [done|]. exists cr0. split; [by rewrite insert_id|]. split; [done|by left]. }
  apply eq_None_not_Some in Hid.
  destruct (assign pol cr0) as [cr|] eqn:Ha; [|done].
  destruct (assign_ok pol Hpol _ _ Ha H0) as (Hi & Hl & Hpr).
  assert (Hgoal : entered pol s p cr s' -> placed pol s' pe /\ exists c, crs s' = <[p := c]> (crs s) /\
    lock_ c = lock_ cr0 /\ (id_cr_ s' = id_cr_ s \/ id_cr_ s' = <[id_ c := p]> (id_cr_ s))).
  { intros He. split; [by eapply placed_entered; rewrite ?Hi|]. exists cr.
    split; [by apply (en_crs _ _ _ _ _ He)|]. split; [done|]. right. apply (en_id _ _ _ _ _ He). }
  rewrite <- Hi. cbn [crs with_id_cr with_crs statics pctxs_]. intros HD. apply Hgoal. clear Hgoal Ha.
  destruct pol as [groups confs|n pool confs] eqn:Epol.
  - destruct (push_group p cr (statics s)) as [st|] eqn:Hg; [|done]. injection HD as <- <-.
    by eapply entered_group.
  - destruct (pid_of cr <? n) eqn:En.
    + assert (0 <= pid_of cr < n) as Hn by (to_prop; unfold pid_of in *; destruct (wrap_u32_range (processor_id_ cr)); lia).
      destruct (pl_ctx _ _ _ P _ _ _ eq_refl _ Hn) as (q & m & bb & Hc). rewrite Hc in HD.
      injection HD as <- <-. apply entered_ctx; [done|cbn; by rewrite En|done].
    + destruct (push_group p cr (statics s)) as [st|] eqn:Hg; [|done]. injection HD as <- <-.
      eapply entered_group; [done|cbn; by rewrite En|done|done].
Qed.

(** ** Removing *)

Section removing.
Context (pol : Policy).

Lemma placed_remove_begin s pe id p s' :
  placed pol s pe -> id ∉ pe.*1 -> remove_begin id s = Some (p, s') ->
  placed pol s' ((id, p) :: pe) /\ pointwise same_lock (crs s) (crs s').
Proof.
  intros P Hpe. unfold remove_begin. destruct (id_cr_ s !! id) as [q|] eqn:Hid; [|done]. intros [= -> <-].
  split; [|by apply pointwise_alter; [apply _|]].
  set (s1 := with_id_cr (delete id (id_cr_ s)) s).
  assert (P1 : placed pol s1 ((id, p) :: pe)).
  { assert (Hact : forall q c, crs s !! q = Some c -> active s1 ((id, p) :: pe) q c <-> active s pe q c).
    { intros q c Hq. unfold active. cbn [id_cr_ s1 with_id_cr]. rewrite elem_of_cons.
      rewrite lookup_delete. case_decide as He.
      - split; [intros [?|[[= -> ->]|?]]; [done|by left|by right]|].
        intros [H|H]; [|by auto]. right. left. congruence.
      - split; [intros [?|[[= ? ?]|?]]; [by left|congruence|by right]|]. intros [H|H]; auto. }
    destruct P as [P1 P2 P3 P4 P5 P6 P7 P8 P9 P10]. split; try done.
    - intros i r. cbn. rewrite lookup_delete. case_decide; [done|]. apply P1.
    - intros i r. rewrite elem_of_cons. cbn. intros [[= -> ->]|Hi].
      + rewrite lookup_delete_eq. split; [done|by apply P1].
      + destruct (P2 i r Hi) as [Hn ?]. split; [|done]. rewrite lookup_delete. by case_decide.
    - cbn. by apply NoDup_cons.
    - intros pl r. change (queue s1 pl) with (queue s pl). rewrite P4.
      split; intros (c & Hc & ? & Ha); exists c; (split; [done|]); (split; [done|]); by apply (Hact r c Hc).
    - intros r c Hr Ha. apply (P6 r c Hr). by apply (Hact r c Hr). }
  eapply placed_unmoved; [|exact P1]. apply unmoved_crs. apply pointwise_alter; [apply _|]. by intros cr _.
Qed.

(** A coroutine leaves its queue. *)
Record left_queue (s : Sched) (p : Z) (cr : CRoutine) (s' : Sched) : Prop := {
  lq_id : id_cr_ s' = id_cr_ s;
  lq_next : next_cr s' = next_cr s;
  lq_crs : pointwise same_task (crs s) (crs s');
  lq_queue : forall pl, queue s pl ≡ₚ (if decide (pl = place_of pol cr) then p :: queue s' pl else queue s' pl);
  lq_ctx : forall i c', pctxs_ s' !! i = Some c' -> exists c, pctxs_ s !! i = Some c /\
    sublist (ctx_queue c') (ctx_queue c);
  lq_twenty : forall g, length (group_queues g (statics s')) = length (group_queues g (statics s));
  lq_choreo : forall i q n b, pctxs_ s !! i = Some (Choreography q n b) ->
    exists q', pctxs_ s' !! i = Some (Choreography q' n b);
}.

Lemma sublist_sorted (l k : list (Z * Z)) :
  sublist l k -> StronglySorted by_key k -> StronglySorted by_key l.
Proof.
  induction 1 as [|x l k Hs IH|x l k Hs IH]; [done| |].
  - intros [Hk Hx]%StronglySorted_inv. constructor; [by apply IH|].
    rewrite Forall_forall in Hx |- *. intros y Hy. apply Hx. by eapply elem_of_sublist.
  - intros [Hk _]%StronglySorted_inv. by apply IH.
Qed.

Lemma placed_left s pe1 pe2 id p cr s' :
  placed pol s (pe1 ++ (id, p) :: pe2) -> crs s !! p = Some cr -> id_ cr = id ->
  left_queue s p cr s' -> placed pol s' (pe1 ++ pe2) /\ unknown s' (pe1 ++ pe2) p.
Proof.
  intros P Hp Hid [L1 L2 L3 L4 L5 L6 L7].
  assert (Hpend : (id, p) ∈ pe1 ++ (id, p) :: pe2) by set_solver.
  destruct P as [P1 P2 P3 P4 P5 P6 P7 P8 P9 P10].
  assert (Hnd : id ∉ (pe1 ++ pe2).*1).
  { rewrite fmap_app, fmap_cons in P3. apply NoDup_app in P3 as (_ & H1 & [H2 _]%NoDup_cons).
    rewrite fmap_app, elem_of_app. intros [H|H]; [|done]. apply (H1 _ H). cbn. set_solver. }
  assert (Hu : unknown s' (pe1 ++ pe2) p).
  { rewrite <- Hid in *. split.
    - intros i Hi. rewrite L1 in Hi. destruct (P1 i p Hi) as (c & Hc & He).
      destruct (P2 _ _ Hpend) as [Hn _]. congruence.
    - intros i Hi. destruct (P2 i p) as (_ & c & Hc & He); [set_solver|]. apply Hnd. apply list_elem_of_fmap.
      exists (i, p). split; [cbn; congruence|done]. }
  split; [|done].
  assert (Hact : forall q a b, same_task a b -> q <> p -> active s' (pe1 ++ pe2) q b <-> active s (pe1 ++ (id, p) :: pe2) q a).
  { intros q a b [_ _ _ _ Hi] Hq. unfold active. rewrite L1, Hi, !elem_of_app, elem_of_cons. naive_solver. }
  assert (Hnot : forall b, crs s' !! p = Some b -> ~ active s' (pe1 ++ pe2) p b).
  { intros b _ [Ha|Ha]; [by eapply (proj1 Hu)|by eapply (proj2 Hu)]. }
  split.
  - intros i q. rewrite L1. intros (c & Hc & Hi)%P1.
    destruct (pointwise_fwd _ _ _ _ _ L3 Hc) as (c' & ? & []). exists c'. split; [done|congruence].
  - intros i q Hi. destruct (P2 i q) as (Hn & c & Hc & He); [set_solver|]. rewrite L1. split; [done|].
    destruct (pointwise_fwd _ _ _ _ _ L3 Hc) as (c' & ? & []). exists c'. split; [done|congruence].
  - eapply sublist_NoDup; [exact P3|]. rewrite !fmap_app. apply sublist_app; [done|]. by constructor.
  - intros pl q. assert (Hq : q ∈ queue s' pl <-> q <> p /\ q ∈ queue s pl).
    { pose proof (P5 pl) as Hn. pose proof (P4 pl p) as H4. rewrite L4 in Hn |- *. rewrite L4 in H4.
      case_decide as Hpl.
      - apply NoDup_cons in Hn as [Hn _]. rewrite elem_of_cons. split; [|naive_solver].
        intros Hin. split; [by intros ->|by right].
      - split; [|by intros []]. intros Hin. split; [|done]. intros ->. apply H4 in Hin as (c & Hc & Hpl' & _).
        congruence. }
    rewrite Hq, P4. split.
    + intros (Hne & c & Hc & Hpl & Ha). destruct (pointwise_fwd _ _ _ _ _ L3 Hc) as (c' & ? & Hs).
      exists c'. rewrite (place_same _ _ _ Hs), (Hact q _ _ Hs Hne). done.
    + intros (c' & Hc & Hpl & Ha). assert (q <> p) by (intros ->; by eapply Hnot).
      split; [done|]. destruct (pointwise_bwd _ _ _ _ _ L3 Hc) as (c & ? & Hs).
      exists c. rewrite <- (place_same _ _ _ Hs), <- (Hact q _ _ Hs) by done. done.
  - intros pl. pose proof (P5 pl) as Hn. rewrite L4 in Hn. case_decide; [by apply NoDup_cons in Hn as []|done].
  - intros q c' Hq Ha. assert (q <> p) by (intros ->; by eapply Hnot).
    destruct (pointwise_bwd _ _ _ _ _ L3 Hq) as (c & Hc & Hs). eapply prio_ok_same; [done|].
    eapply P6; [done|]. by apply (Hact q _ _ Hs).
  - intros i c' Hi. destruct (L5 i c' Hi) as (c & Hc & Hsub). destruct (P7 i c Hc) as [Hs Hk].
    split; [by eapply sublist_sorted|]. intros k q Hin.
    destruct (Hk k q) as (a & Ha & Hp'); [by eapply elem_of_sublist|].
    destruct (pointwise_fwd _ _ _ _ _ L3 Ha) as (b & ? & []). exists b. split; [done|congruence].
  - intros q Hq. rewrite L2 in Hq. apply P8 in Hq. specialize (L3 q). rewrite Hq in L3. by inversion L3.
  - intros g. by rewrite L6.
  - intros n pool confs Hpol i Hi. destruct (P10 _ _ _ Hpol i Hi) as (? & ? & ? & Hl).
    destruct (L7 _ _ _ _ Hl). eauto.
Qed.

End removing.

(** The search for the identifier of a pending removal finds the coroutine. *)
Lemma find_pending pol {A} (ptr : A -> Z) s pe id p cr (q : list A) pl :
  placed pol s pe -> (id, p) ∈ pe -> crs s !! p = Some cr -> id_ cr = id ->
  place_of pol cr = pl -> ptr <$> q = queue s pl ->
  exists l e r, find_id ptr id (crs s) q = Some (p, l ++ r) /\ q = l ++ e :: r /\ ptr e = p.
Proof.
  intros P Hpe Hp Hid Hpl Hq.
  assert (Hin : p ∈ ptr <$> q) by (rewrite Hq, (pl_queue _ _ _ P); exists cr; rewrite <- Hid in Hpe; unfold active; auto).
  assert (Hall : forall e, e ∈ q -> is_Some (crs s !! ptr e)).
  { intros e He. assert (ptr e ∈ queue s pl) as Hm by (rewrite <- Hq; by apply list_elem_of_fmap_2).
    apply (pl_queue _ _ _ P) in Hm as (c & Hc & _). by exists c. }
  destruct (find_id_found ptr id (crs s) q p cr Hall Hin Hp Hid) as [[p' q'] Hf].
  destruct (find_id_split _ _ _ _ _ _ Hf) as (l & e & r & c & -> & -> & He & Hc & Hci).
  assert (p' = p) as ->.
  { assert (p' ∈ queue s pl) as Hm by (rewrite <- Hq, fmap_app, fmap_cons, He; set_solver).
    apply (pl_queue _ _ _ P) in Hm as (c' & Hc' & _ & Ha). replace c' with c in Ha by congruence.
    unfold active in Ha. rewrite Hci in Ha. destruct (pl_pend _ _ _ P _ _ Hpe) as [Hn _].
    destruct Ha as [Ha|Ha]; [congruence|]. pose proof (pl_pend_nodup _ _ _ P) as Hnd.
    apply list_elem_of_lookup in Ha as [i Hi]. apply list_elem_of_lookup in Hpe as [j Hj].
    assert (i = j) as -> by (eapply (NoDup_lookup _ i j id Hnd); rewrite list_lookup_fmap, ?Hi, ?Hj; done).
    congruence. }
  by exists l, e, r.
Qed.

(** [take_out] waits for the holder of the lock, and otherwise succeeds. *)
Lemma take_out_spec {S} p (x : S) h cr :
  h !! p = Some cr ->
  take_out p x h =
  if lock_ cr then Waiting (<[p := Stop cr]> h) else Returned true x (<[p := Stop cr]> h).
Proof.
  intros Hp. unfold take_out. rewrite Hp. cbn [Acquire lock_ Stop]. destruct (lock_ cr) eqn:Hl; cbn [negb].
  - f_equal. f_equal. by apply set_lock_id.
  - do 2 f_equal. by destruct cr; cbn in *; subst.
Qed.

Definition removal_outcome (pol : Policy) (s : Sched) (p : Z) (cr : CRoutine) (o : outcome) : Prop :=
  match o with
  | Crash => False
  | Blocked s' => lock_ cr = true /\ s' = with_crs (<[p := Stop cr]> (crs s)) s
  | Done b s' => b = true /\ lock_ cr = false /\ crs s' = <[p := Stop cr]> (crs s) /\ left_queue pol s p cr s'
  end.

Lemma stop_pointwise s p cr : crs s !! p = Some cr -> pointwise same_task (crs s) (<[p := Stop cr]> (crs s)).
Proof. intros. by eapply pointwise_insert; [apply _| |]. Qed.

Lemma remove_from_group pol s pe crid p cr :
  placed pol s pe -> (crid, p) ∈ pe -> crs s !! p = Some cr -> id_ cr = crid ->
  place_of pol cr = InGroup (group_name_ cr) (Z.to_nat (priority_ cr)) ->
  removal_outcome pol s p cr
    match RemoveFromGroup cr (statics s) (crs s) with
    | Throws => Crash
    | Waiting h => Blocked (with_crs h s)
    | Returned b st h => Done b (with_crs h (with_statics st s))
    end.
Proof.
  intros P Hpe Hp Hid Hpl. unfold RemoveFromGroup.
  assert (Hpr : 0 <= priority_ cr < MAX_PRIO).
  { pose proof (pl_prio _ _ _ P p cr Hp) as H. unfold prio_ok in H. rewrite Hpl in H. apply H.
    right. by rewrite Hid. }
  assert (exists q, queue_at (group_name_ cr) (priority_ cr) (statics s) = Some q) as [q Hq].
  { apply lookup_lt_is_Some. rewrite (pl_twenty _ _ _ P). lia. }
  rewrite Hq. destruct (find_pending _ id s pe crid p cr q _ P Hpe Hp Hid Hpl) as (l & e & r & Hf & Hqs & He).
  { rewrite list_fmap_id. cbn. unfold queue_at in Hq. by rewrite Hq. }
  rewrite Hid, Hf, (take_out_spec _ _ _ _ Hp). destruct (lock_ cr) eqn:Hl; cbn; [done|].
  split; [done|]. split; [done|]. split; [done|]. split; try done.
  - by apply stop_pointwise.
  - intros [g n|i]; [|rewrite decide_False by congruence; done].
    pose proof (queue_set_queue s _ _ (l ++ r) q g n Hq) as Hs. rewrite Hpl.
    cbn in Hs |- *. rewrite Hs. case_decide as Hd; [|done]. injection Hd as -> ->.
    unfold queue_at in Hq. rewrite Hq. cbn. rewrite Hqs, <- He. cbn. by rewrite Permutation_middle.
  - intros i c' Hi. exists c'. done.
  - intros g. cbn. rewrite group_queues_set. case_decide; [subst; by rewrite length_insert|done].
  - eauto.
Qed.

Lemma remove_end_spec pol s pe id p cr :
  placed pol s pe -> (id, p) ∈ pe -> crs s !! p = Some cr -> id_ cr = id ->
  removal_outcome pol s p cr (remove_end pol id p s).
Proof.
  intros P Hpe Hp Hid. pose proof (remove_from_group pol s pe id p cr P Hpe Hp Hid) as Hgrp.
  unfold remove_end. rewrite Hp. unfold place_of in Hgrp.
  destruct pol as [groups confs|n pool confs] eqn:Epol; [by apply Hgrp|].
  destruct (pid_of cr <? n) eqn:En; [|by apply Hgrp]. clear Hgrp.
  assert (0 <= pid_of cr < n) as Hn by (to_prop; unfold pid_of in *; destruct (wrap_u32_range (processor_id_ cr)); lia).
  destruct (pl_ctx _ _ _ P _ _ _ eq_refl _ Hn) as (q & m & b & Hc). rewrite Hc. cbn [RemoveFromCtx].
  assert (Hpl : place_of pol cr = InCtx (Z.to_nat (pid_of cr))) by (rewrite Epol; cbn; by rewrite En).
  rewrite Epol in Hpl.
  destruct (find_pending _ snd s pe id p cr q _ P Hpe Hp Hid Hpl) as (l & e & r & Hf & Hqs & He).
  { cbn. by rewrite Hc. }
  rewrite Hf, (take_out_spec _ _ _ _ Hp). pose proof (lookup_lt_Some _ _ _ Hc) as Hlt.
  destruct (lock_ cr) eqn:Hl; cbn; [done|].
  split; [done|]. split; [done|]. split; [done|]. split; try done.
  - by apply stop_pointwise.
  - intros [g k|i]; [rewrite decide_False by congruence; done|]. rewrite Hpl. cbn.
    destruct (decide (i = Z.to_nat (pid_of cr))) as [->|Hne].
    + rewrite decide_True by done. rewrite list_lookup_insert_eq, Hc by done. cbn.
      rewrite Hqs, !fmap_app, fmap_cons, He. by rewrite Permutation_middle.
    + rewrite decide_False by congruence. by rewrite list_lookup_insert_ne.
  - intros i c'. cbn. destruct (decide (i = Z.to_nat (pid_of cr))) as [->|Hne].
    + rewrite list_lookup_insert_eq by done. intros [= <-]. eexists. split; [done|]. cbn. rewrite Hqs.
      apply sublist_app; [done|]. by constructor.
    + rewrite list_lookup_insert_ne by done. eauto.
  - intros i q' n' b'. cbn. destruct (decide (i = Z.to_nat (pid_of cr))) as [->|Hne].
    + rewrite list_lookup_insert_eq by done. rewrite Hc. intros [= -> -> ->]. eauto.
    + rewrite list_lookup_insert_ne by done. eauto.
Qed.

(** ** The lock *)

Lemma locked_same s s' ts : pointwise same_lock (crs s) (crs s') -> locked s ts -> locked s' ts.
Proof.
  intros Hh [L1 L2 L3]. split.
  - intros j i t p Hj Ht. destruct (L1 j i t p Hj Ht) as (cr & Hp & Hl & Hst).
    destruct (pointwise_fwd _ _ _ _ _ Hh Hp) as (cr' & ? & [Hl' Hs']). exists cr'.
    split; [done|]. split; [congruence|]. intros q Hq. rewrite Hs'. by eapply Hst.
  - done.
  - intros p cr' Hp Hl. destruct (pointwise_bwd _ _ _ _ _ Hh Hp) as (cr & ? & [Hl' _]).
    eapply L3; [done|congruence].
Qed.

(** A processor goes on with its own coroutine. *)
Lemma locked_own s ts j i t t' p f :
  ts !! j = Some (i, t) -> held t = Some p -> held t' = Some p -> (forall q, t' <> PResume q) ->
  (forall cr, lock_ (f cr) = lock_ cr) ->
  locked s ts -> locked (upd_cr p f s) (<[j := (i, t')]> ts).
Proof.
  intros Hj Ht Ht' Hnr Hf [L1 L2 L3]. pose proof (lookup_lt_Some _ _ _ Hj) as Hlt.
  assert (Hback : forall j1 i1 t1 q, <[j := (i, t')]> ts !! j1 = Some (i1, t1) -> held t1 = Some q ->
    (j1 = j /\ q = p /\ t1 = t') \/ (j1 <> j /\ q <> p /\ ts !! j1 = Some (i1, t1))).
  { intros j1 i1 t1 q H1 H2. destruct (decide (j1 = j)) as [->|Hd].
    - rewrite list_lookup_insert_eq in H1 by done. injection H1 as <- <-. left. split; [done|]. split; [congruence|done].
    - rewrite list_lookup_insert_ne in H1 by done. right. split; [done|]. split; [|done].
      intros ->. apply Hd. by eapply (L2 _ _ _ _ _ _ p H1 Hj). }
  split.
  - intros j1 i1 t1 q H1 H2. destruct (Hback _ _ _ _ H1 H2) as [(-> & -> & ->)|(Hd & Hq & Hb)]; cbn.
    + destruct (L1 _ _ _ _ Hj Ht) as (cr & Hp & Hl & _). exists (f cr).
      rewrite lookup_alter_eq, Hp. split; [done|]. split; [by rewrite Hf|]. intros q' E. by destruct (Hnr q').
    + rewrite lookup_alter_ne by done. by eapply L1.
  - intros j1 j2 i1 i2 t1 t2 q H1 H2 H3 H4.
    destruct (Hback _ _ _ _ H1 H3) as [(-> & -> & ->)|(Hd & Hq & Hb)];
      destruct (Hback _ _ _ _ H2 H4) as [(? & ? & ?)|(Hd' & Hq' & Hb')]; try congruence.
    by eapply L2.
  - intros q cr Hq Hl. cbn in Hq. destruct (decide (q = p)) as [->|Hne].
    + exists j, i, t'. by rewrite list_lookup_insert_eq.
    + rewrite lookup_alter_ne in Hq by done. destruct (L3 _ _ Hq Hl) as (j1 & i1 & t1 & H1 & H2).
      exists j1, i1, t1. split; [|done]. rewrite list_lookup_insert_ne; [done|]. intros ->. congruence.
Qed.

Lemma locked_release s ts j i p :
  ts !! j = Some (i, PRelease p) -> locked s ts -> locked (upd_cr p Release s) (<[j := (i, PNext)]> ts).
Proof.
  intros Hj [L1 L2 L3]. pose proof (lookup_lt_Some _ _ _ Hj) as Hlt.
  assert (Hback : forall j1 i1 t1 q, <[j := (i, PNext)]> ts !! j1 = Some (i1, t1) -> held t1 = Some q ->
    j1 <> j /\ q <> p /\ ts !! j1 = Some (i1, t1)).
  { intros j1 i1 t1 q H1 H2. destruct (decide (j1 = j)) as [->|Hd].
    - rewrite list_lookup_insert_eq in H1 by done. by injection H1 as <- <-.
    - rewrite list_lookup_insert_ne in H1 by done. split; [done|]. split; [|done].
      intros ->. apply Hd. by eapply (L2 _ _ _ _ _ _ p H1 Hj). }
  split.
  - intros j1 i1 t1 q H1 H2. destruct (Hback _ _ _ _ H1 H2) as (Hd & Hq & Hb). cbn.
    rewrite lookup_alter_ne by done. by eapply L1.
  - intros j1 j2 i1 i2 t1 t2 q H1 H2 H3 H4.
    destruct (Hback _ _ _ _ H1 H3) as (? & ? & ?), (Hback _ _ _ _ H2 H4) as (? & ? & ?). by eapply L2.
  - intros q cr Hq Hl. cbn in Hq. destruct (decide (q = p)) as [->|Hne].
    + rewrite lookup_alter_eq in Hq. destruct (crs s !! p); [|done]. by injection Hq as <-.
    + rewrite lookup_alter_ne in Hq by done. destruct (L3 _ _ Hq Hl) as (j1 & i1 & t1 & H1 & H2).
      exists j1, i1, t1. split; [|done]. rewrite list_lookup_insert_ne; [done|].
      intros ->. rewrite Hj in H1. injection H1 as <- <-. cbn in H2. congruence.
Qed.

(** A scan, and the processor that made it. *)
Lemma locked_next now s ts j i r h :
  ts !! j = Some (i, PNext) -> scanned now r (crs s) h -> (forall p, r = Some p -> is_Some (crs s !! p)) ->
  locked s ts ->
  locked (with_crs h s) (<[j := (i, match r with Some p => PResume p | None => PNext end)]> ts).
Proof.
  intros Hj Hs Hr [L1 L2 L3]. pose proof (lookup_lt_Some _ _ _ Hj) as Hlt.
  set (t' := match r with Some p => PResume p | None => PNext end).
  assert (Ht' : held t' = r) by (subst t'; by destruct r).
  assert (Hnot : forall p j1 i1 t1, r = Some p -> ts !! j1 = Some (i1, t1) -> held t1 <> Some p).
  { intros p j1 i1 t1 -> H1 H2. destruct (L1 _ _ _ _ H1 H2) as (cr & Hp & Hl & _). specialize (Hs p).
    rewrite Hp, decide_True in Hs by done. destruct Hs as [Hrun _]. unfold runnable in Hrun. by rewrite Hl in Hrun. }
  assert (Hback : forall j1 i1 t1 q, <[j := (i, t')]> ts !! j1 = Some (i1, t1) -> held t1 = Some q ->
    (j1 = j /\ r = Some q /\ t1 = t') \/ (j1 <> j /\ r <> Some q /\ ts !! j1 = Some (i1, t1))).
  { intros j1 i1 t1 q H1 H2. destruct (decide (j1 = j)) as [->|Hd].
    - rewrite list_lookup_insert_eq in H1 by done. injection H1 as <- <-. left. split; [done|]. split; [congruence|done].
    - rewrite list_lookup_insert_ne in H1 by done. right. split; [done|]. split; [|done].
      intros ->. by eapply Hnot. }
  split.
  - intros j1 i1 t1 q H1 H2. cbn. destruct (Hback _ _ _ _ H1 H2) as [(-> & -> & ->)|(Hd & Hq & Hb)].
    + destruct (Hr q eq_refl) as [cr Hp]. specialize (Hs q). rewrite Hp, decide_True in Hs by done.
      destruct Hs as [Hrun ->]. destruct (taken_ready _ _ Hrun). eexists. eauto.
    + destruct (L1 _ _ _ _ Hb H2) as (cr & Hp & Hl & Hst). specialize (Hs q). rewrite Hp, decide_False in Hs by done.
      destruct Hs as [-> | ->]; [by eauto|]. eexists. split; [done|]. rewrite passed_lock, passed_state. done.
  - intros j1 j2 i1 i2 t1 t2 q H1 H2 H3 H4.
    destruct (Hback _ _ _ _ H1 H3) as [(? & ? & ?)|(? & ? & Hb)];
      destruct (Hback _ _ _ _ H2 H4) as [(? & ? & ?)|(? & ? & Hb')]; try congruence.
    by eapply L2.
  - intros q cr Hq Hl. cbn in Hq. destruct (scanned_lookup_inv _ _ _ _ _ _ Hs Hq) as (cr0 & H0 & _ & Hlk).
    rewrite Hl in Hlk. destruct (decide (r = Some q)) as [E|E].
    + exists j, i, t'. by rewrite list_lookup_insert_eq, Ht'.
    + rewrite bool_decide_eq_false_2 in Hlk by done. destruct (L3 _ _ H0 (eq_sym Hlk)) as (j1 & i1 & t1 & H1 & H2).
      exists j1, i1, t1. split; [|done]. rewrite list_lookup_insert_ne; [done|].
      intros ->. rewrite Hj in H1. by injection H1 as <- <-.
Qed.

(** A new coroutine is not locked. *)
Lemma locked_new s s' ts p cr :
  crs s !! p = None -> crs s' = <[p := cr]> (crs s) -> lock_ cr = false -> locked s ts -> locked s' ts.
Proof.
  intros Hp Hs Hl [L1 L2 L3]. split.
  - intros j i t q Hj Ht. destruct (L1 _ _ _ _ Hj Ht) as (c & Hq & ?). exists c.
    rewrite Hs, lookup_insert_ne by congruence. done.
  - done.
  - intros q c Hq Hlc. rewrite Hs in Hq. destruct (decide (q = p)) as [->|Hne].
    + rewrite lookup_insert_eq in Hq. congruence.
    + rewrite lookup_insert_ne in Hq by done. by eapply L3.
Qed.

(** ** The invariant holds *)

Definition removed_ok (s : Sched) (pe : list (Z * Z)) (rm : list Z) : Prop :=
  forall p, p ∈ rm -> exists cr, crs s !! p = Some cr /\ ~ active s pe p cr /\ lock_ cr = false.

Lemma removed_unmoved s s' pe rm :
  unmoved s s' ->
  (forall p cr cr', crs s !! p = Some cr -> crs s' !! p = Some cr' -> ~ active s pe p cr -> lock_ cr = false -> lock_ cr' = false) ->
  removed_ok s pe rm -> removed_ok s' pe rm.
Proof.
  intros U Hl R p Hp. destruct (R p Hp) as (cr & Hc & Ha & Hlk).
  destruct (pointwise_fwd _ _ _ _ _ (um_crs _ _ U) Hc) as (cr' & Hc' & Hs). exists cr'. split; [done|].
  split; [|by eapply Hl]. unfold active in *. rewrite (um_id _ _ U). destruct Hs as [_ _ _ _ ->]. done.
Qed.

Lemma lock_preserved s s' p (cr cr' : CRoutine) :
  pointwise same_lock (crs s) (crs s') -> crs s !! p = Some cr -> crs s' !! p = Some cr' ->
  lock_ cr = false -> lock_ cr' = false.
Proof. intros H Hc Hc' <-. destruct (pointwise_fwd _ _ _ _ _ H Hc) as (c & ? & [? _]). congruence. Qed.

Lemma order_queue s i c p :
  pctxs_ s !! i = Some c -> p ∈ order c (statics s) -> exists pl, p ∈ queue s pl.
Proof.
  intros Hi. destruct c as [g b|q n b]; cbn [order].
  - intros (q & Hq & Hp)%list_elem_of_In%in_concat. apply in_rev, list_elem_of_In in Hq. apply list_elem_of_In in Hp.
    apply list_elem_of_lookup in Hq as [k Hk]. exists (InGroup g k). cbn. by rewrite Hk.
  - intros Hp. exists (InCtx i). cbn. by rewrite Hi.
Qed.

Lemma next_active pol s pe i c now p :
  placed pol s pe -> pctxs_ s !! i = Some c -> fst (NextRoutine now c (statics s) (crs s)) = Some p ->
  exists cr, crs s !! p = Some cr /\ active s pe p cr.
Proof.
  intros P Hi Hn. destruct (NextRoutine_spec now c (statics s) (crs s)) as [Hf _]. rewrite Hn in Hf.
  destruct (ctx_stop c); [done|]. symmetry in Hf. apply find_some in Hf as [Hin _].
  apply list_elem_of_In, (order_queue s i c p Hi) in Hin as [pl Hp].
  apply (pl_queue _ _ _ P) in Hp as (cr & ? & _ & ?). eauto.
Qed.

Lemma shutdown_contexts_same cs st :
  Forall2 same_ctx cs (fst (shutdown_contexts cs st)) /\
  forall g, group_queues g (snd (shutdown_contexts cs st)) = group_queues g st.
Proof.
  revert st. induction cs as [|c cs IH]; intros st; [done|]. cbn [shutdown_contexts].
  destruct (CtxShutdown c st) as [c1 st1] eqn:E. specialize (IH st1).
  destruct (shutdown_contexts cs st1) as [cs1 st2]. destruct IH as [IH1 IH2]. cbn in *.
  destruct c; injection E as <- <-; split; try (intros g'; apply IH2); by constructor.
Qed.

Lemma unmoved_shutdown s : unmoved s (snd (shutdown_begin s)) /\ crs (snd (shutdown_begin s)) = crs s.
Proof.
  unfold shutdown_begin. destruct (stop_ s); [split; [apply unmoved_refl|done]|].
  destruct (shutdown_contexts_same (pctxs_ s) (statics s)) as [H1 H2].
  destruct (shutdown_contexts (pctxs_ s) (statics s)) as [cs st]. split; [|done].
  split; try done. by apply pointwise_refl, _.
Qed.

Lemma unmoved_notify pol id s :
  unmoved s (snd (NotifyProcessor pol id s)) /\ pointwise same_lock (crs s) (crs (snd (NotifyProcessor pol id s))).
Proof.
  assert (H0 : unmoved s s /\ pointwise same_lock (crs s) (crs s)).
  { split; [apply unmoved_refl|by apply pointwise_refl, _]. }
  unfold NotifyProcessor. destruct (stop_ s); [done|]. destruct (id_cr_ s !! id) as [p|]; [|done].
  destruct (crs s !! p) as [cr|]; [|done].
  assert (H1 : pointwise same_task (crs s) (alter flag_waiting p (crs s))).
  { apply pointwise_alter; [apply _|]. intros. apply same_task_flag. }
  assert (H2 : pointwise same_lock (crs s) (alter flag_waiting p (crs s))).
  { apply pointwise_alter; [apply _|]. intros. apply same_lock_flag. }
  assert (HF : Forall2 same_ctx (pctxs_ s) (pctxs_ s)) by (by apply Forall_Forall2_diag, Forall_true).
  destruct pol as [groups confs|n pool confs]; [|case_if]; cbn; split; try done; split; try done.
  cbn. apply Forall2_same_length_lookup. rewrite length_alter. split; [done|].
  intros i c c' Hc Hc'. destruct (decide (i = Z.to_nat (pid_of cr))) as [->|Hne].
  - rewrite list_lookup_alter_eq, Hc in Hc'. injection Hc' as <-. by destruct c.
  - rewrite list_lookup_alter_ne in Hc' by done. by replace c' with c by congruence.
Qed.

Lemma unmoved_wait s i c c' st' :
  pctxs_ s !! i = Some c -> Wait c (statics s) = (c', st') -> unmoved s (with_ctx i c' (with_statics st' s)).
Proof.
  intros Hi Hw.
  assert (Hc : same_ctx c c' /\ forall g, group_queues g st' = group_queues g (statics s)).
  { destruct c as [g b|q n b]; cbn in Hw; injection Hw as <- <-; [|done]. split; [done|]. intros g'. by case_if. }
  destruct Hc as [Hc Hg]. split; try done; [|by apply pointwise_refl, _].
  cbn. apply Forall2_same_length_lookup. rewrite length_insert. split; [done|].
  intros k x y Hx Hy. destruct (decide (k = i)) as [->|Hne].
  - rewrite list_lookup_insert_eq in Hy by (by eapply lookup_lt_Some). congruence.
  - rewrite list_lookup_insert_ne in Hy by done. by replace y with x by congruence.
Qed.

Section preservation.
Context (pol : Policy) (Hpol : policy_ok pol).

Lemma inv_dispatch s ts pe rm now id nm p s1 b s2 :
  inv pol (mkConfig s ts pe rm) -> id ∉ pe.*1 -> make_cr now id nm s = (p, s1) ->
  DispatchTask pol p s1 = Some (b, s2) -> inv pol (mkConfig s2 ts pe rm).
Proof using Hpol.
  intros [P L R] Hpe Hm HD. cbn in *.
  destruct (placed_make_cr pol _ _ _ _ _ _ _ Hm P) as (P1 & Hu & Hn & Hc & Hid).
  assert (Hp : crs s1 !! p = Some (set_name nm (set_id id (cr_new now)))) by by rewrite Hc, lookup_insert_eq.
  destruct (DispatchTask_placed pol s1 pe p _ b s2 Hpol P1 Hu Hp) as (P2 & cr & Hcr & Hl & Hids); [done|done|done|].
  rewrite Hc, insert_insert_eq in Hcr.
  split; cbn; [done|by eapply locked_new|].
  intros q Hq. destruct (R q Hq) as (c & Hqc & Ha & Hlk). exists c.
  assert (q <> p) by congruence. rewrite Hcr, lookup_insert_ne by done. split; [done|]. split; [|done].
  unfold active in *. destruct Hids as [-> | ->]; rewrite Hid; [done|]. rewrite lookup_insert.
  intros [H1|H1]; [|by auto]. case_decide; [congruence|]. by auto.
Qed.

Lemma inv_unmoved s s' ts pe rm :
  unmoved s s' -> pointwise same_lock (crs s) (crs s') ->
  inv pol (mkConfig s ts pe rm) -> inv pol (mkConfig s' ts pe rm).
Proof.
  intros U H [P L R]. split; cbn in *; [by eapply placed_unmoved|by eapply locked_same|].
  apply (removed_unmoved s _ pe rm U); [|done]. intros. by eapply lock_preserved.
Qed.

Lemma inv_remove_begin s ts pe rm id p s1 :
  id ∉ pe.*1 -> remove_begin id s = Some (p, s1) -> inv pol (mkConfig s ts pe rm) ->
  inv pol (mkConfig s1 ts ((id, p) :: pe) rm).
Proof.
  intros Hpe HB [P L R]. cbn in *. destruct (placed_remove_begin pol _ _ _ _ _ P Hpe HB) as [P1 Hl].
  split; cbn; [done|by eapply locked_same|]. intros q Hq. destruct (R q Hq) as (c & Hqc & Ha & Hlk).
  destruct (pointwise_fwd _ _ _ _ _ Hl Hqc) as (c' & Hc' & [Hl' _]). exists c'. split; [done|].
  split; [|congruence]. unfold remove_begin in HB. destruct (id_cr_ s !! id) as [r|] eqn:Hid; [|done].
  injection HB as -> <-. unfold active in *. cbn in *.
  assert (id_ c' = id_ c) as ->.
  { destruct (decide (q = p)) as [->|Hne].
    - rewrite lookup_alter_eq, Hqc in Hc'. by injection Hc' as <-.
    - rewrite lookup_alter_ne in Hc' by done. congruence. }
  intros [H1|H1].
  - apply lookup_delete_Some in H1 as [_ H1]. by auto.
  - apply elem_of_cons in H1 as [[= H1 H2]|H1]; [|by auto]. apply Ha. left. congruence.
Qed.

Lemma inv_remove_wait s ts pe rm id p s1 :
  (id, p) ∈ pe -> remove_end pol id p s = Blocked s1 -> inv pol (mkConfig s ts pe rm) ->
  inv pol (mkConfig s1 ts pe rm).
Proof.
  intros Hpe HE I. destruct (pl_pend _ _ _ (inv_placed _ _ I) _ _ Hpe) as (_ & cr & Hp & Hid). cbn in Hp.
  pose proof (remove_end_spec pol s pe id p cr (inv_placed _ _ I) Hpe Hp Hid) as H. rewrite HE in H.
  destruct H as [_ ->]. eapply inv_unmoved; [| |exact I].
  - apply unmoved_crs. by apply stop_pointwise.
  - by eapply pointwise_insert; [apply _| |].
Qed.

Lemma inv_remove_end s ts pe1 pe2 rm id p b s1 :
  remove_end pol id p s = Done b s1 -> inv pol (mkConfig s ts (pe1 ++ (id, p) :: pe2) rm) ->
  inv pol (mkConfig s1 ts (pe1 ++ pe2) (p :: rm)).
Proof.
  intros HE [P L R]. cbn in *. assert (Hpe : (id, p) ∈ pe1 ++ (id, p) :: pe2) by set_solver.
  destruct (pl_pend _ _ _ P _ _ Hpe) as (_ & cr & Hp & Hid).
  pose proof (remove_end_spec pol s _ id p cr P Hpe Hp Hid) as H. rewrite HE in H.
  destruct H as (_ & Hlk & Hcrs & Hlq). destruct (placed_left _ _ _ _ _ _ _ _ P Hp Hid Hlq) as [P1 [Hu1 Hu2]].
  assert (Hl : pointwise same_lock (crs s) (crs s1)) by (rewrite Hcrs; by eapply pointwise_insert; [apply _| |]).
  split; cbn; [done|by eapply locked_same|]. intros q. rewrite elem_of_cons. intros [->|Hq].
  - exists (Stop cr). rewrite Hcrs, lookup_insert_eq. split; [done|]. split; [|done].
    intros [H|H]; [by eapply Hu1|by eapply Hu2].
  - destruct (R q Hq) as (c & Hqc & Ha & Hlq').
    destruct (pointwise_fwd _ _ _ _ _ (lq_crs _ _ _ _ _ Hlq) Hqc) as (c' & Hc' & Hs). exists c'. split; [done|].
    split; [|by eapply lock_preserved]. unfold active in *. rewrite (lq_id _ _ _ _ _ Hlq), (st_id _ _ Hs). set_solver.
Qed.

Lemma inv_next s ts pe rm now j i c r h :
  ts !! j = Some (i, PNext) -> pctxs_ s !! i = Some c -> NextRoutine now c (statics s) (crs s) = (r, h) ->
  inv pol (mkConfig s ts pe rm) ->
  inv pol (mkConfig (with_crs h s) (<[j := (i, match r with Some p => PResume p | None => PNext end)]> ts) pe rm).
Proof.
  intros Hj Hi HN [P L R]. cbn in *. pose proof (next_active pol s pe i c now) as Hact.
  destruct (NextRoutine_spec now c (statics s) (crs s)) as [_ Hs]. rewrite HN in Hs, Hact. cbn in Hs, Hact.
  assert (U : unmoved s (with_crs h s)) by (apply unmoved_crs; by eapply scanned_same_task).
  split; cbn; [by eapply placed_unmoved| |].
  - eapply locked_next; [done..| |done]. intros p ->. destruct (Hact p P Hi eq_refl) as (cr & ? & _). by exists cr.
  - apply (removed_unmoved s _ pe rm U); [|done]. intros p cr cr' Hp Hp' Ha Hlk.
    destruct (scanned_lookup _ _ _ _ _ _ Hs Hp) as (c1 & Hc1 & _ & Hl1). cbn in Hp'. replace cr' with c1 by congruence.
    rewrite Hl1, Hlk. rewrite bool_decide_eq_false_2; [done|]. intros ->.
    destruct (Hact p P Hi eq_refl) as (c2 & Hc2 & Ha2). congruence.
Qed.

(** The steps of a processor on the coroutine that it holds. *)
Lemma inv_own s ts pe rm j i t t' p f :
  ts !! j = Some (i, t) -> held t = Some p -> held t' = Some p -> (forall q, t' <> PResume q) ->
  (forall cr, lock_ (f cr) = lock_ cr) -> (forall cr, same_task cr (f cr)) ->
  inv pol (mkConfig s ts pe rm) -> inv pol (mkConfig (upd_cr p f s) (<[j := (i, t')]> ts) pe rm).
Proof.
  intros Hj Ht Ht' Hnr Hf Hs [P L R].
  assert (U : unmoved s (upd_cr p f s)).
  { apply unmoved_crs. apply pointwise_alter; [apply _|]. intros. apply Hs. }
  split; cbn in *; [by eapply placed_unmoved|by eapply locked_own|].
  apply (removed_unmoved s _ pe rm U); [|done]. intros q cr cr' Hq Hq' _ Hlk. cbn in Hq'.
  destruct (decide (q = p)) as [->|Hne].
  - rewrite lookup_alter_eq, Hq in Hq'. injection Hq' as <-. by rewrite Hf.
  - rewrite lookup_alter_ne in Hq' by done. congruence.
Qed.

Lemma inv_release s ts pe rm j i p :
  ts !! j = Some (i, PRelease p) -> inv pol (mkConfig s ts pe rm) ->
  inv pol (mkConfig (upd_cr p Release s) (<[j := (i, PNext)]> ts) pe rm).
Proof.
  intros Hj [P L R].
  assert (U : unmoved s (upd_cr p Release s)) by (apply unmoved_crs; by apply pointwise_alter; [apply _|]).
  split; cbn in *; [by eapply placed_unmoved|by eapply locked_release|].
  apply (removed_unmoved s _ pe rm U); [|done]. intros q cr cr' Hq Hq' _ Hlk. cbn in Hq'.
  destruct (decide (q = p)) as [->|Hne].
  - rewrite lookup_alter_eq, Hq in Hq'. by injection Hq' as <-.
  - rewrite lookup_alter_ne in Hq' by done. congruence.
Qed.

Lemma upd_cr_id p s : upd_cr p (fun cr => cr) s = s.
Proof. unfold upd_cr, with_crs. rewrite alter_id by done. by destruct s. Qed.

Lemma sched_inv_step c c' : inv pol c -> step pol c c' -> inv pol c'.
Proof using Hpol.
  intros I H. destruct H.
  - by eapply inv_dispatch.
  - destruct (unmoved_notify pol id s) as [U Hl]. by eapply inv_unmoved.
  - by eapply inv_remove_begin.
  - by eapply inv_remove_wait.
  - by eapply inv_remove_end.
  - destruct (unmoved_shutdown s) as [U Hc]. eapply inv_unmoved; [done| |done]. rewrite Hc. by apply pointwise_refl, _.
  - by eapply inv_next.
  - eapply inv_unmoved; [by eapply unmoved_wait| |done]. by apply pointwise_refl, _.
  - set (t' := if _ || _ then _ else _). assert (held t' = Some p /\ forall q, t' <> PResume q) as [? ?].
    { subst t'. by case_if. }
    case_if.
    + by eapply inv_own.
    + rewrite <- (upd_cr_id p s). by eapply inv_own.
  - rewrite <- (list_insert_id ts j _ H). by eapply inv_own.
  - rewrite <- (upd_cr_id p s). by eapply inv_own.
  - by eapply inv_release.
Qed.
End preservation.

(** ** A scheduler just constructed *)

Definition start (pol : Policy) (idx : list nat) : Config :=
  mkConfig (sched_new pol) ((fun i => (i, PNext)) <$> idx) [] [].

Definition blank (st : Statics) : Prop := forall g, group_queues g st = multi_prio_queue_new.

Lemma classic_contexts_blank n g st :
  blank st -> blank (snd (classic_contexts n g st)) /\
  Forall (fun c => ctx_queue c = []) (fst (classic_contexts n g st)).
Proof.
  revert st. induction n as [|n IH]; intros st Hb; [by split|]. cbn [classic_contexts].
  destruct (InitGroup g st) as [c st1] eqn:E.
  assert (Hb1 : blank st1 /\ ctx_queue c = []).
  { injection E as <- <-. split; [|done]. intros g'. unfold group_queues, set_notify. cbn [cr_group_].
    rewrite lookup_insert. case_decide; [apply Hb|apply Hb]. }
  destruct Hb1 as [Hb1 Hc]. specialize (IH st1 Hb1). destruct (classic_contexts n g st1) as [cs st2].
  destruct IH. split; [done|by constructor].
Qed.

Lemma group_contexts_blank groups st :
  blank st -> blank (snd (group_contexts groups st)) /\
  Forall (fun c => ctx_queue c = []) (fst (group_contexts groups st)).
Proof.
  revert st. induction groups as [|g gs IH]; intros st Hb; [by split|]. cbn [group_contexts].
  destruct (classic_contexts_blank (Z.to_nat (sg_processor_num g)) (sg_name g) st Hb) as [H1 H2].
  destruct (classic_contexts (Z.to_nat (sg_processor_num g)) (sg_name g) st) as [cs st1]. cbn in H1, H2.
  destruct (IH st1 H1) as [H3 H4]. destruct (group_contexts gs st1) as [cs' st2].
  split; [done|]. by apply Forall_app.
Qed.

Lemma sched_new_blank pol :
  blank (statics (sched_new pol)) /\ Forall (fun c => ctx_queue c = []) (pctxs_ (sched_new pol)) /\
  crs (sched_new pol) = ∅ /\ id_cr_ (sched_new pol) = ∅.
Proof.
  assert (Hb : blank (mkStatics ∅ ∅)) by done.
  unfold sched_new, CreateProcessor. destruct pol as [groups confs|n pool confs]; cbn [statics].
  - destruct (group_contexts_blank groups _ Hb) as [H1 H2].
    by destruct (group_contexts groups (mkStatics ∅ ∅)) as [cs st].
  - destruct (classic_contexts_blank (Z.to_nat pool) DEFAULT_GROUP_NAME _ Hb) as [H1 H2].
    destruct (classic_contexts (Z.to_nat pool) DEFAULT_GROUP_NAME (mkStatics ∅ ∅)) as [cs st].
    split; [done|]. split; [|done]. cbn. apply Forall_app. split; [by apply Forall_replicate|done].
Qed.

Lemma placed_new pol : placed pol (sched_new pol) [].
Proof.
  destruct (sched_new_blank pol) as (Hb & Hq & Hc & Hi).
  assert (Hempty : forall pl, queue (sched_new pol) pl = []).
  { intros [g n|i]; cbn.
    - rewrite Hb. destruct (multi_prio_queue_new !! n) as [q|] eqn:E; [|done].
      by apply lookup_replicate in E as [-> _].
    - destruct (pctxs_ (sched_new pol) !! i) as [c|] eqn:E; [|done]. cbn.
      rewrite Forall_lookup in Hq. by rewrite (Hq _ _ E). }
  split.
  - intros i p. by rewrite Hi.
  - intros i p H. by apply elem_of_nil in H.
  - constructor.
  - intros pl p. rewrite Hempty, Hc. split; [intros H; by apply elem_of_nil in H|]. by intros (cr & H & _).
  - intros pl. rewrite Hempty. constructor.
  - intros p cr. by rewrite Hc.
  - intros i c E. rewrite Forall_lookup in Hq. rewrite (Hq _ _ E). split; [constructor|].
    intros k p H. by apply elem_of_nil in H.
  - intros p _. by rewrite Hc.
  - intros g. by rewrite Hb.
  - intros n pool confs -> i Hin. exists [], 0, false. unfold sched_new, CreateProcessor. cbn.
    destruct (classic_contexts _ _ _) as [cs st]. cbn. rewrite lookup_app_l by (rewrite length_replicate; lia).
    apply lookup_replicate. split; [done|lia].
Qed.

Lemma sched_start_inv pol idx : inv pol (start pol idx).
Proof.
  destruct (sched_new_blank pol) as (_ & _ & Hc & _). split.
  - apply placed_new.
  - assert (Hn : forall j i t, procs (start pol idx) !! j = Some (i, t) -> held t = None).
    { intros j i t H. cbn in H. rewrite list_lookup_fmap in H. destruct (idx !! j); [|done]. by injection H as <- <-. }
    split.
    + intros j i t p H Ht. apply Hn in H. congruence.
    + intros j j' i i' t t' p H _ Ht. apply Hn in H. congruence.
    + intros p cr H. cbn [sched start] in H. rewrite Hc in H. done.
  - intros p H. by apply elem_of_nil in H.
Qed.

Lemma sched_reachable_inv pol idx c :
  policy_ok pol -> rtc (step pol) (start pol idx) c -> inv pol c.
Proof. intros Hp. apply (rtc_invariant _ _ _ (sched_start_inv pol idx)). intros. by eapply sched_inv_step. Qed.

(** ** Executable runs *)

Inductive act :=
| ADispatch (now id : Z) (nm : string)
| ANotify (id : Z)
| ARemoveBegin (id : Z)
| ARemove
| ANext (now : Z) (j : nat)
| AResume (j : nat)
| ARun (j : nat) (st : RoutineState) (t : Z)
| AYield (j : nat)
| ARelease (j : nat).

Definition perform (pol : Policy) (a : act) (c : Config) : option Config :=
  let '(mkConfig s ts pe rm) := c in
  match a with
  | ADispatch now id nm =>
      if bool_decide (id ∈ pe.*1) then None
      else let '(p, s1) := make_cr now id nm s in
           match DispatchTask pol p s1 with Some (b, s2) => Some (mkConfig s2 ts pe rm) | None => None end
  | ANotify id => Some (mkConfig (snd (NotifyProcessor pol id s)) ts pe rm)
  | ARemoveBegin id =>
      if bool_decide (id ∈ pe.*1) then None
      else match remove_begin id s with Some (p, s1) => Some (mkConfig s1 ts ((id, p) :: pe) rm) | None => None end
  | ARemove =>
      match pe with
      | (id, p) :: pe' =>
          match remove_end pol id p s with
          | Done _ s1 => Some (mkConfig s1 ts pe' (p :: rm))
          | Blocked s1 => Some (mkConfig s1 ts pe rm)
          | Crash => None
          end
      | [] => None
      end
  | ANext now j =>
      match ts !! j with
      | Some (i, PNext) =>
          match pctxs_ s !! i with
          | Some ctx =>
              let '(r, h) := NextRoutine now ctx (statics s) (crs s) in
              Some (mkConfig (with_crs h s) (<[j := (i, match r with Some p => PResume p | None => PNext end)]> ts) pe rm)
          | None => None
          end
      | _ => None
      end
  | AResume j =>
      match ts !! j with
      | Some (i, PResume p) =>
          match crs s !! p with
          | Some cr =>
              Some (mkConfig (if force_stop_ cr then upd_cr p (set_state FINISHED) s else s)
                (<[j := (i, if force_stop_ cr || negb (bool_decide (state_ cr = READY)) then PRelease p else PIn p)]> ts) pe rm)
          | None => None
          end
      | _ => None
      end
  | ARun j st t =>
      match ts !! j with
      | Some (i, PIn p) => Some (mkConfig (upd_cr p (set_state st ∘ set_wake_time t) s) ts pe rm)
      | _ => None
      end
  | AYield j =>
      match ts !! j with
      | Some (i, PIn p) => Some (mkConfig s (<[j := (i, PRelease p)]> ts) pe rm)
      | _ => None
      end
  | ARelease j =>
      match ts !! j with
      | Some (i, PRelease p) => Some (mkConfig (upd_cr p Release s) (<[j := (i, PNext)]> ts) pe rm)
      | _ => None
      end
  end.

Definition performs (pol : Policy) (l : list act) (c : Config) : option Config :=
  foldl (fun o a => o ≫= perform pol a) (Some c) l.

Lemma perform_step pol a c c' : perform pol a c = Some c' -> step pol c c'.
Proof.
  destruct c as [s ts pe rm]. destruct a as [now id nm|id|id| |now j|j|j st t|j|j]; cbn [perform].
  - case_bool_decide; [done|]. destruct (make_cr now id nm s) as [p s1] eqn:?.
    destruct (DispatchTask pol p s1) as [[b s2]|] eqn:?; [|done]. intros [= <-]. by eapply s_dispatch.
  - intros [= <-]. apply s_notify.
  - case_bool_decide; [done|]. destruct (remove_begin id s) as [[p s1]|] eqn:?; [|done]. intros [= <-].
    by eapply s_remove_begin.
  - destruct pe as [|[id p] pe]; [done|]. destruct (remove_end pol id p s) as [|s1|b s1] eqn:?; [done| |]; intros [= <-].
    + eapply s_remove_wait; [by left|done].
    + by apply (s_remove_end pol s ts [] pe rm id p b s1).
  - destruct (ts !! j) as [[i []]|] eqn:?; try done. destruct (pctxs_ s !! i) as [ctx|] eqn:?; [|done].
    destruct (NextRoutine now ctx (statics s) (crs s)) as [r h] eqn:?. intros [= <-]. by eapply s_next.
  - destruct (ts !! j) as [[i [|p| |]]|] eqn:?; try done. destruct (crs s !! p) as [cr|] eqn:?; [|done].
    intros [= <-]. by eapply s_resume.
  - destruct (ts !! j) as [[i [| |p|]]|] eqn:?; try done. intros [= <-]. by eapply s_run.
  - destruct (ts !! j) as [[i [| |p|]]|] eqn:?; try done. intros [= <-]. by eapply s_yield.
  - destruct (ts !! j) as [[i [| | |p]]|] eqn:?; try done. intros [= <-]. by eapply s_release.
Qed.

Lemma performs_steps pol l c c' : performs pol l c = Some c' -> rtc (step pol) c c'.
Proof.
  unfold performs. revert c. induction l as [|a l IH]; cbn; intros c H; [by injection H as ->|].
  destruct (perform pol a c) as [c1|] eqn:E.
  - eapply rtc_l; [by apply perform_step in E|by apply IH].
  - exfalso. clear -H. induction l; [done|by apply IHl].
Qed.

(** ** The theorems *)

(** C3: In every interleaving of dispatches, notifications, removals and processors, for both
    policies: no coroutine is held by two processors; a processor that is about to resume a
    coroutine finds it locked and ready; a coroutine whose removal has returned is never held
    again; and a removal never fails to find its coroutine, and waits only for a processor that
    holds it. *)
Theorem scheduler_safety (pol : Policy) (idx : list nat) (c : Config)
    (Hpol : policy_ok pol) (Hrun : rtc (step pol) (start pol idx) c) :
  (forall j j' i i' t t' p, procs c !! j = Some (i, t) -> procs c !! j' = Some (i', t') ->
     held t = Some p -> held t' = Some p -> j = j') /\
  (forall j i p, procs c !! j = Some (i, PResume p) ->
     exists cr, crs (sched c) !! p = Some cr /\ lock_ cr = true /\ state_ cr = READY) /\
  (forall p j i t, p ∈ removed c -> procs c !! j = Some (i, t) -> held t <> Some p) /\
  (forall id p, (id, p) ∈ pend c ->
     match remove_end pol id p (sched c) with
     | Crash => False
     | Blocked _ => exists j i t, procs c !! j = Some (i, t) /\ held t = Some p
     | Done found _ => found = true
     end).
Proof.
  destruct (sched_reachable_inv pol idx c Hpol Hrun) as [P [L1 L2 L3] R]. split; [|split; [|split]].
  - exact L2.
  - intros j i p Hj. destruct (L1 j i _ p Hj eq_refl) as (cr & ? & ? & Hst). exists cr. eauto.
  - intros p j i t Hp Hj Ht. destruct (R p Hp) as (cr & Hc & _ & Hl).
    destruct (L1 j i t p Hj Ht) as (cr' & Hc' & Hl' & _). congruence.
  - intros id p Hpe. destruct (pl_pend _ _ _ P _ _ Hpe) as (_ & cr & Hp & Hid).
    pose proof (remove_end_spec pol _ _ id p cr P Hpe Hp Hid) as H.
    destruct (remove_end pol id p (sched c)) as [|s'|b s']; [done| |by destruct H].
    destruct H as [Hl _]. by eapply L3.
Qed.


(** The configuration at the end of a run of actions. *)
Definition after (pol : Policy) (l : list act) (c : Config) : Config := default c (performs pol l c).

Lemma after_steps pol l c : match performs pol l c with Some _ => true | None => false end = true ->
  rtc (step pol) c (after pol l c).
Proof.
  unfold after. destruct (performs pol l c) as [c'|] eqn:E; [|done]. intros _. by eapply performs_steps.
Qed.

(** Two processors of a group and two tasks, one of which is being removed while it runs. *)
Definition demo_policy : Policy :=
  classic_policy (Some [mkSG "compute" 2 [mkCT "planning" 7 ""]]) None.

Definition demo_acts : list act :=
  [ADispatch 0 11 "planning"; ADispatch 0 12 "logging"; ANext 5 0; ANext 5 1;
   AResume 0; ARemoveBegin 11; ARemove].

Definition demo_config : Config := after demo_policy demo_acts (start demo_policy [0%nat; 1%nat]).

Lemma demo_policy_ok : policy_ok demo_policy.
Proof.
  intros n t H. cbn in H. apply lookup_insert_Some in H as [[_ <-]|[_ H]]; [cbn; lia|done].
Qed.

Lemma demo_run : rtc (step demo_policy) (start demo_policy [0%nat; 1%nat]) demo_config.
Proof. apply after_steps. reflexivity. Qed.

Lemma scheduler_safety_witness :
  procs demo_config = [(0%nat, PIn 0); (1%nat, PResume 1)] /\ pend demo_config = [(11, 0)] /\
  exists cr, crs (sched demo_config) !! 1 = Some cr /\ lock_ cr = true /\ state_ cr = READY.
Proof.
  split; [reflexivity|]. split; [reflexivity|].
  apply (proj1 (proj2 (scheduler_safety demo_policy [0%nat; 1%nat] demo_config demo_policy_ok demo_run)) 1%nat 1%nat).
  reflexivity.
Defined.

