(* ===== verification/SchedulerPriority.v ===== *)
(** * SchedulerPriority: which coroutine a processor takes

    [NextRoutine] in the states that a scheduler can reach, for both policies: the runnable
    coroutine of the highest priority, the first to come among equals.  Also the totality of
    [DispatchTask], the effect of a notification, and [RemoveTask] on names that collide. *)

From S2P Require Import Prelude AtomicHashMap GlobalData CRoutine RunQueue Scheduler SchedulerSafety.

Definition prio_at (h : heap) (p : Z) : Z := default 0 (priority_ <$> h !! p).

Lemma concat_rev_sorted (f : Z -> Z) (qs : list (list Z)) :
  (forall n q p, qs !! n = Some q -> p ∈ q -> f p = Z.of_nat n) ->
  StronglySorted Z.ge (f <$> concat (rev qs)).
Proof.
  induction qs as [|q qs IH] using rev_ind; intros H; [constructor|].
  rewrite rev_app_distr. cbn. rewrite fmap_app.
  assert (Hq : forall p, p ∈ q -> f p = Z.of_nat (length qs)).
  { intros p Hp. apply (H _ q); [by apply list_lookup_middle|done]. }
  assert (Hrest : forall p, p ∈ concat (rev qs) -> f p < Z.of_nat (length qs)).
  { intros p (l & Hl & Hp)%list_elem_of_In%in_concat. apply in_rev, list_elem_of_In, list_elem_of_lookup in Hl as [n Hn].
    apply list_elem_of_In in Hp. rewrite (H n l p); [apply lookup_lt_Some in Hn; lia| |done].
    by apply lookup_app_l_Some. }
  assert (IHs : StronglySorted Z.ge (f <$> concat (rev qs))).
  { apply IH. intros n l p Hn. apply H. by apply lookup_app_l_Some. }
  clear H IH. induction q as [|p q IHq]; [done|]. cbn. constructor; [apply IHq; set_solver|].
  rewrite (Hq p) by set_solver. apply Forall_app. split; apply Forall_fmap, Forall_forall; intros x Hx; cbn.
  - rewrite (Hq x) by set_solver. lia.
  - specialize (Hrest x Hx). lia.
Qed.

Lemma order_sorted pol s pe i c :
  placed pol s pe -> pctxs_ s !! i = Some c ->
  StronglySorted Z.ge (prio_at (crs s) <$> order c (statics s)).
Proof.
  intros P Hi. destruct c as [g b|q n b]; cbn [order].
  - apply concat_rev_sorted. intros n q p Hn Hp.
    assert (Hin : p ∈ queue s (InGroup g n)) by (cbn; by rewrite Hn).
    apply (pl_queue _ _ _ P) in Hin as (cr & Hc & Hpl & Ha). pose proof (pl_prio _ _ _ P p cr Hc Ha) as Hpr.
    unfold prio_ok in Hpr. rewrite Hpl in Hpr. unfold prio_at. rewrite Hc. cbn.
    assert (n = Z.to_nat (priority_ cr)) as ->; [|lia].
    unfold place_of in Hpl. destruct pol; [congruence|]. case_if; congruence.
  - destruct (pl_keys _ _ _ P _ _ Hi) as [Hs Hk]. cbn in Hs, Hk. induction Hs as [|[k p] q Hs IH Hall]; [constructor|].
    assert (Hpk : forall k p, (k, p) ∈ q -> prio_at (crs s) p = k).
    { intros k' p' H. destruct (Hk k' p') as (cr & Hc & Hp); [set_solver|]. unfold prio_at. by rewrite Hc. }
    destruct (Hk k p) as (cr & Hc & Hp); [set_solver|]. cbn. constructor.
    + clear -Hs Hpk. induction Hs as [|[k p] q Hs IH Hall]; [constructor|]. cbn. constructor.
      * apply IH. intros. apply Hpk. set_solver.
      * rewrite (Hpk k p) by set_solver. rewrite Forall_forall in Hall. apply Forall_fmap, Forall_fmap, Forall_forall.
        intros [k' p'] H. cbn. rewrite (Hpk k' p') by set_solver. specialize (Hall _ H). unfold by_key in Hall. cbn in Hall. lia.
    + unfold prio_at at 1. rewrite Hc. cbn. rewrite Hp. apply Forall_fmap, Forall_fmap, Forall_forall.
      intros [k' p'] H. cbn. rewrite (Hpk k' p') by done. rewrite Forall_forall in Hall. specialize (Hall _ H).
      unfold by_key in Hall. cbn in Hall. lia.
Qed.

Lemma find_first {A} (f : A -> bool) l x :
  List.find f l = Some x -> exists l1 l2, l = l1 ++ x :: l2 /\ f x = true /\ forall y, y ∈ l1 -> f y = false.
Proof.
  induction l as [|y l IH]; cbn; [done|]. destruct (f y) eqn:E.
  - intros [= ->]. exists [], l. split; [done|]. split; [done|]. intros y H. by apply elem_of_nil in H.
  - intros (l1 & l2 & -> & ? & H)%IH. exists (y :: l1), l2. split; [done|]. split; [done|].
    intros z [->|?]%elem_of_cons; auto.
Qed.


Section priority.
Context (pol : Policy) (idx : list nat) (c : Config).
Context (Hpol : policy_ok pol) (Hrun : rtc (step pol) (start pol idx) c).

(** C29: Under both policies a processor takes the runnable coroutine of the highest priority in
    its context, and among equals the one that came first; it takes none only when none is
    runnable or the context is shut down.  The coroutine is handed over locked and ready.  Of
    every other coroutine, passed over or not, the scan changes at most the flag of the last update, which it may set; and that
    does not change whether it is runnable. *)
Theorem next_routine_priority (now : Z) (i : nat) (ctx : Ctx) (Hctx : pctxs_ (sched c) !! i = Some ctx) :
  let h := crs (sched c) in
  let ps := order ctx (statics (sched c)) in
  let '(r, h') := NextRoutine now ctx (statics (sched c)) h in
  StronglySorted Z.ge (prio_at h <$> ps) /\
  match r with
  | Some p =>
      ctx_stop ctx = false /\
      (exists l1 l2, ps = l1 ++ p :: l2 /\ runnable_at now h p = true /\ forall q, q ∈ l1 -> runnable_at now h q = false) /\
      (forall q, q ∈ ps -> runnable_at now h q = true -> prio_at h q <= prio_at h p) /\
      (exists cr, h' !! p = Some cr /\ lock_ cr = true /\ state_ cr = READY)
  | None => ctx_stop ctx = true \/ forall q, q ∈ ps -> runnable_at now h q = false
  end /\
  (forall q, r <> Some q -> runnable_at now h' q = runnable_at now h q /\
     (h' !! q = h !! q \/ exists cr, h !! q = Some cr /\ h' !! q = Some (set_updated true cr))).
Proof using Hpol Hrun.
  cbv zeta. destruct (sched_reachable_inv pol idx c Hpol Hrun) as [P _ _].
  pose proof (order_sorted pol _ _ _ _ P Hctx) as Hsort.
  destruct (NextRoutine_spec now ctx (statics (sched c)) (crs (sched c))) as [Hf Hs].
  destruct (NextRoutine now ctx (statics (sched c)) (crs (sched c))) as [r h']. cbn in Hf, Hs.
  split; [done|]. split.
  - destruct r as [p|].
    + destruct (ctx_stop ctx); [done|]. split; [done|]. symmetry in Hf.
      destruct (find_first _ _ _ Hf) as (l1 & l2 & Heq & Hp & Hl1). split; [by exists l1, l2|]. split.
      * intros q Hq Hrq. rewrite Heq in Hq, Hsort. apply elem_of_app in Hq as [Hq|Hq]; [by rewrite Hl1 in Hrq|].
        apply elem_of_cons in Hq as [->|Hq]; [done|]. rewrite fmap_app in Hsort. cbn in Hsort.
        clear -Hsort Hq. induction l1 as [|x l1 IH]; cbn in Hsort; apply StronglySorted_inv in Hsort as [Hs Hall].
        -- rewrite Forall_forall in Hall. specialize (Hall (prio_at (crs (sched c)) q)). apply Z.ge_le, Hall. by apply list_elem_of_fmap_2.
        -- by apply IH.
      * unfold runnable_at in Hp. destruct (crs (sched c) !! p) as [cr|] eqn:Hc; [|done]. specialize (Hs p).
        rewrite Hc, decide_True in Hs by done. destruct Hs as [Hr ->]. eexists. split; [done|]. by apply taken_ready.
    + destruct (ctx_stop ctx); [by left|]. right. by apply find_none'.
  - intros q Hq. specialize (Hs q). unfold runnable_at. destruct (crs (sched c) !! q) as [cr|]; [|rewrite Hs; by split; [|left]].
    rewrite decide_False in Hs by done. destruct Hs as [-> | ->]; [by split; [|left]|]. split; [apply passed_runnable|].
    unfold passed. case_if; [by left|]. case_if; [by left|]. right. by exists cr.
Qed.

End priority.

(** The branches of [DispatchTask] for a coroutine whose identifier is free. *)
Lemma dispatch_registers pol s p cr0 b s' :
  crs s !! p = Some cr0 -> id_cr_ s !! id_ cr0 = None -> DispatchTask pol p s = Some (b, s') ->
  b = true /\ id_cr_ s' = <[id_ cr0 := p]> (id_cr_ s) /\
  exists cr, assign pol cr0 = Some cr /\ crs s' !! p = Some cr.
Proof.
  intros Hp Hid. unfold DispatchTask. rewrite Hp, bool_decide_eq_false_2 by (rewrite Hid; by intros []).
  destruct (assign pol cr0) as [cr|] eqn:Ha; [|done]. intros HD.
  assert (H : b = true /\ id_cr_ s' = <[id_ cr0 := p]> (id_cr_ s) /\ crs s' !! p = Some cr).
  { destruct pol; cbn in HD; repeat case_match; try done; injection HD as <- <-; cbn;
      by rewrite lookup_insert_eq. }
  destruct H as (? & ? & ?). eauto.
Qed.

Lemma dispatch_dies pol s pe p cr0 :
  policy_ok pol -> placed pol s pe -> crs s !! p = Some cr0 -> 0 <= priority_ cr0 ->
  DispatchTask pol p s = None ->
  exists confs, pol = SchedulerClassic [] confs /\ confs !! name_ cr0 = None.
Proof.
  intros Hpol P Hp H0. unfold DispatchTask. rewrite Hp. case_bool_decide; [done|].
  destruct (assign pol cr0) as [cr|] eqn:Ha; intros HD.
  - exfalso. destruct (assign_ok pol Hpol _ _ Ha H0) as (_ & _ & Hpr).
    assert (Hpush : place_of pol cr = InGroup (group_name_ cr) (Z.to_nat (priority_ cr)) ->
      exists st, push_group p cr (statics s) = Some st).
    { intros Hpl. unfold prio_ok in Hpr. rewrite Hpl in Hpr. unfold push_group.
      destruct (queue_at (group_name_ cr) (priority_ cr) (statics s)) eqn:Hq; [eauto|].
      exfalso. apply lookup_ge_None in Hq. rewrite (pl_twenty _ _ _ P) in Hq. lia. }
    destruct pol as [groups confs|n pool confs]; cbn in HD, Hpush.
    + destruct (Hpush eq_refl) as [st Hst]. by rewrite Hst in HD.
    + destruct (pid_of cr <? n) eqn:En.
      * assert (0 <= pid_of cr < n) as Hnn by (to_prop; unfold pid_of in *; destruct (wrap_u32_range (processor_id_ cr)); lia).
        destruct (pl_ctx _ _ _ P _ _ _ eq_refl _ Hnn) as (? & ? & ? & Hl). by rewrite Hl in HD.
      * destruct (Hpush eq_refl) as [st Hst]. by rewrite Hst in HD.
  - destruct pol as [groups confs|n pool confs]; [|done]. cbn in Ha.
    destruct (confs !! name_ cr0) eqn:E; [done|]. destruct groups; [|done]. eauto.
Qed.

(** Dispatching a coroutine just made with an identifier that no removal holds kills the
    process only under the classic policy, for a task without configuration when there is no
    group; it returns false exactly when the identifier is registered, and otherwise the
    coroutine is registered and has a place. *)
Theorem dispatch_total (pol : Policy) (idx : list nat) (c : Config) (now id : Z) (nm : string)
    (Hpol : policy_ok pol) (Hrun : rtc (step pol) (start pol idx) c) (Hid : id ∉ (pend c).*1) :
  let '(p, s1) := make_cr now id nm (sched c) in
  match DispatchTask pol p s1 with
  | None => exists confs, pol = SchedulerClassic [] confs /\ confs !! nm = None
  | Some (false, s2) => is_Some (id_cr_ (sched c) !! id) /\ id_cr_ s2 = id_cr_ (sched c)
  | Some (true, s2) => id_cr_ (sched c) !! id = None /\ id_cr_ s2 = <[id := p]> (id_cr_ (sched c)) /\
      exists cr, crs s2 !! p = Some cr /\ p ∈ queue s2 (place_of pol cr)
  end.
Proof.
  destruct (sched_reachable_inv pol idx c Hpol Hrun) as [P _ _].
  destruct (make_cr now id nm (sched c)) as [p s1] eqn:Hm.
  destruct (placed_make_cr pol _ _ _ _ _ _ _ Hm P) as (P1 & Hu & Hn & Hc & Hids).
  assert (Hp : crs s1 !! p = Some (set_name nm (set_id id (cr_new now)))) by by rewrite Hc, lookup_insert_eq.
  rewrite <- Hids. destruct (DispatchTask pol p s1) as [[b s2]|] eqn:HD.
  - destruct (DispatchTask_placed pol s1 _ p _ b s2 Hpol P1 Hu Hp ltac:(done) Hid HD) as (P2 & _).
    destruct (id_cr_ s1 !! id) as [q|] eqn:Hr.
    + unfold DispatchTask in HD. rewrite Hp in HD. cbn [id_ set_name set_id] in HD.
      rewrite bool_decide_eq_true_2 in HD by (rewrite Hr; eauto). injection HD as <- <-. eauto.
    + destruct (dispatch_registers _ _ _ _ _ _ Hp Hr HD) as (-> & Hi2 & cr & Ha & Hcr).
      split; [done|]. split; [done|]. exists cr. split; [done|].
      apply (pl_queue _ _ _ P2). exists cr. split; [done|]. split; [done|]. left.
      destruct (assign_ok pol Hpol _ _ Ha ltac:(done)) as (Hi & _ & _). rewrite Hi, Hi2. cbn. by rewrite lookup_insert_eq.
  - by apply (dispatch_dies _ _ _ _ _ Hpol P1 Hp ltac:(done)).
Qed.

Lemma dispatch_total_witness :
  (12 ∉ (pend demo_config).*1) /\
  let '(p, s1) := make_cr 9 12 "logging" (sched demo_config) in
  match DispatchTask demo_policy p s1 with
  | None => exists confs, demo_policy = SchedulerClassic [] confs /\ confs !! "logging" = None
  | Some (false, s2) => is_Some (id_cr_ (sched demo_config) !! 12) /\ id_cr_ s2 = id_cr_ (sched demo_config)
  | Some (true, s2) => id_cr_ (sched demo_config) !! 12 = None /\ id_cr_ s2 = <[12 := p]> (id_cr_ (sched demo_config)) /\
      exists cr, crs s2 !! p = Some cr /\ p ∈ queue s2 (place_of demo_policy cr)
  end.
Proof.
  assert (Hid : 12 ∉ (pend demo_config).*1) by (apply (bool_decide_eq_true_1 _); reflexivity).
  split; [exact Hid|].
  exact (dispatch_total demo_policy [0%nat; 1%nat] demo_config 9 12 "logging" demo_policy_ok demo_run Hid).
Defined.

(** Both tasks of the group are ready: the one with the higher priority is taken, though it came
    second. *)
Definition ready_config : Config :=
  after demo_policy [ADispatch 0 12 "logging"; ADispatch 0 11 "planning"] (start demo_policy [0%nat; 1%nat]).

Lemma ready_run : rtc (step demo_policy) (start demo_policy [0%nat; 1%nat]) ready_config.
Proof. apply after_steps. reflexivity. Qed.

Lemma next_routine_priority_witness :
  fst (NextRoutine 5 (Classic "compute" false) (statics (sched ready_config)) (crs (sched ready_config))) = Some 1 /\
  StronglySorted Z.ge (prio_at (crs (sched ready_config)) <$> order (Classic "compute" false) (statics (sched ready_config))).
Proof.
  split; [reflexivity|].
  exact (proj1 (next_routine_priority demo_policy [0%nat; 1%nat] ready_config demo_policy_ok ready_run 5 0
           (Classic "compute" false) ltac:(reflexivity))).
Defined.

(** ** Names that collide *)

Definition same_hash (name : string) : Z := 7.

(** When two task names have the same hash, [RemoveTask] of the second removes the coroutine of the
    first: [CreateTask] registers the second name under the next free identifier, and [RemoveTask] looks
    for the hash itself. *)
Theorem remove_task_collision :
  match CreateTask same_hash demo_policy 0 "first" false (sched_new demo_policy) gd_new with
  | Some (true, _, s1, gd1) =>
      match CreateTask same_hash demo_policy 0 "second" false s1 gd1 with
      | Some (true, _, s2, _) =>
          match RemoveTask same_hash demo_policy "second" s2 with
          | Done true s3 =>
              id_cr_ s2 !! 7 = Some 0 /\ name_ <$> crs s2 !! 0 = Some "first" /\
              id_cr_ s3 !! 7 = None /\ id_cr_ s3 !! 8 = Some 1 /\ name_ <$> crs s3 !! 1 = Some "second"
          | _ => False
          end
      | _ => False
      end
  | _ => False
  end.
Proof.
  vm_compute. done.
Qed.
