(* ===== verification/Processor.v ===== *)
(** * Processor: the loop of a processor

    Models [Processor::Run] of [cyber/scheduler/processor.cc] for a context that no other processor
    shares (a choreography context, or a classic group with one processor), with the data
    coroutines of [croutine/routine_factory.h].  What the visitors and callbacks do is an
    interface; the pipeline at the end is one that fulfils it, on the buffers of [CacheBuffer.v]. *)

From S2P Require Import Prelude Interfaces CacheBuffer CRoutine RunQueue.

Section processor.
Context {W M : Type} `{!Visitors W M}.

(** What the callbacks do to the coroutines: [NotifyProcessor] for each task notified. *)
Definition flag_all (qs : list Z) (h : heap) : heap := fold_left (fun h q => alter flag_waiting q h) qs h.

(** The body of the coroutine at [p], up to the next [Yield]. *)
Definition body (p : Z) : heap * W -> heap * W :=
  data_turn (v_fetch p) (fun m x => let '(w2, qs) := v_call p m (snd x) in (flag_all qs (fst x), w2)) p.

(** One iteration of the loop of [Run]: [false] when it goes to [Wait]. *)
Definition iterate (now : Z) (c : Ctx) (st : Statics) (x : heap * W) : bool * (heap * W) :=
  match NextRoutine now c st (fst x) with
  | (Some p, h1) =>
      let '(h2, w2) := Resume (body p) p (h1, snd x) in (true, (alter Release p h2, w2))
  | (None, h1) => (false, (h1, snd x))
  end.

(** The loop until it waits; [clock] gives the time of each iteration. *)
Fixpoint run_until_wait (fuel : nat) (clock : nat -> Z) (c : Ctx) (st : Statics) (x : heap * W) : option (heap * W) :=
  match fuel with
  | O => None
  | S fuel' =>
      match iterate (clock fuel') c st x with
      | (true, x') => run_until_wait fuel' clock c st x'
      | (false, x') => Some x'
      end
  end.

(** A data coroutine between two turns, free, and either notified or without a message. *)
Record resting (w : W) (p : Z) (cr : CRoutine) : Prop := {
  rs_lock : lock_ cr = false;
  rs_state : state_ cr = READY \/ state_ cr = DATA_WAIT \/ state_ cr = FINISHED;
  rs_woken : state_ cr = DATA_WAIT -> updated_ cr = true -> v_fetch p w = None;
  rs_finished : state_ cr = FINISHED -> force_stop_ cr = true;
}.

Definition rested (ps : list Z) (h : heap) (w : W) : Prop :=
  forall p, p ∈ ps -> exists cr, h !! p = Some cr /\ resting w p cr.

(** How many of them have to be looked at. *)
Definition due_count (ps : list Z) (h : heap) : nat := length (List.filter (runnable_at 0 h) ps).

(** ** Lemmas *)

Lemma due_awake now w p cr : resting w p cr -> runnable now cr = runnable 0 cr.
Proof. intros [_ H _ _]. unfold runnable, due. by destruct H as [-> | [-> | ->]]. Qed.

Lemma runnable_awake now ps h w p : rested ps h w -> p ∈ ps -> runnable_at now h p = runnable_at 0 h p.
Proof.
  intros R Hp. destruct (R p Hp) as (cr & Hc & Hr). unfold runnable_at. rewrite Hc. by eapply due_awake.
Qed.

Lemma find_ext_in {A} (f g : A -> bool) l : (forall x, x ∈ l -> f x = g x) -> List.find f l = List.find g l.
Proof.
  induction l as [|x l IH]; intros H; cbn; [done|]. rewrite (H x) by set_solver. rewrite IH; [done|].
  intros; apply H. set_solver.
Qed.

Lemma filter_length_change {A} `{!EqDecision A} (f g : A -> bool) l q :
  NoDup l -> (forall x, x ∈ l -> x <> q -> f x = g x) ->
  (length (List.filter f l) <= length (List.filter g l) + 1)%nat /\
  (q ∈ l -> g q = true -> f q = false -> length (List.filter f l) + 1 = length (List.filter g l))%nat.
Proof.
  induction 1 as [|x l Hx Hnd IH]; intros H; cbn [List.filter].
  { split; [cbn; lia|]. intros Hq. by apply elem_of_nil in Hq. }
  destruct (decide (x = q)) as [->|Hne].
  - assert (List.filter f l = List.filter g l) as ->.
    { clear -Hx H. induction l as [|y l IH]; cbn [List.filter]; [done|]. rewrite (H y) by set_solver.
      rewrite IH; [done|set_solver|]. intros; apply H; set_solver. }
    split; [destruct (f q), (g q); cbn; lia|]. intros _ -> ->. cbn. lia.
  - rewrite (H x) by set_solver. destruct IH as [IH1 IH2]; [intros; apply H; set_solver|].
    destruct (g x); cbn [length]; (split; [lia|]); intros Hq ? ?;
      apply elem_of_cons in Hq as [->|Hq]; try done; specialize (IH2 Hq ltac:(done) ltac:(done)); lia.
Qed.

(** A notification makes at most one more coroutine due, and keeps what is. *)
Lemma flag_all_lookup qs h p cr :
  h !! p = Some cr -> flag_all qs h !! p = Some (if bool_decide (p ∈ qs) then flag_waiting cr else cr).
Proof.
  unfold flag_all. revert h cr. induction qs as [|q qs IH]; intros h cr Hp; cbn [fold_left]; [done|].
  assert (Hff : forall c, flag_waiting (flag_waiting c) = flag_waiting c).
  { intros c. unfold flag_waiting. destruct c as [? ? ? ? ? [] ? ? ? ?]; done. }
  destruct (decide (p = q)) as [->|Hne].
  - rewrite (IH _ (flag_waiting cr)) by by rewrite lookup_alter_eq, Hp. rewrite Hff.
    rewrite (bool_decide_eq_true_2 (q ∈ q :: qs)) by set_solver. by case_bool_decide.
  - rewrite (IH _ cr) by by rewrite lookup_alter_ne. f_equal.
    by rewrite (bool_decide_ext (p ∈ q :: qs) (p ∈ qs)) by set_solver.
Qed.

Lemma flag_all_none qs h p : h !! p = None -> flag_all qs h !! p = None.
Proof.
  unfold flag_all. revert h. induction qs as [|q qs IH]; intros h Hp; cbn [fold_left]; [done|].
  apply IH. destruct (decide (p = q)) as [->|Hne]; [by rewrite lookup_alter_eq, Hp|by rewrite lookup_alter_ne].
Qed.

Lemma flag_all_count ps qs h : NoDup ps -> (due_count ps (flag_all qs h) <= due_count ps h + length qs)%nat.
Proof.
  intros Hnd. unfold flag_all. revert h. induction qs as [|q qs IH]; intros h; cbn [fold_left length]; [lia|].
  specialize (IH (alter flag_waiting q h)).
  destruct (filter_length_change (runnable_at 0 (alter flag_waiting q h)) (runnable_at 0 h) ps q Hnd) as [H _].
  { intros x _ Hx. unfold runnable_at. by rewrite lookup_alter_ne. }
  unfold due_count in *. lia.
Qed.

Lemma count_ext ps h h' :
  (forall p, p ∈ ps -> runnable_at 0 h p = runnable_at 0 h' p) -> due_count ps h = due_count ps h'.
Proof.
  unfold due_count. induction ps as [|p ps IH]; intros H; cbn [List.filter]; [done|]. rewrite (H p) by set_solver.
  assert (length (List.filter (runnable_at 0 h) ps) = length (List.filter (runnable_at 0 h') ps)).
  { apply IH. intros; apply H; set_solver. }
  destruct (runnable_at 0 h' p); cbn [length]; lia.
Qed.

Lemma count_drop ps h h' p :
  NoDup ps -> p ∈ ps -> (forall q, q ∈ ps -> q <> p -> runnable_at 0 h' q = runnable_at 0 h q) ->
  runnable_at 0 h p = true -> runnable_at 0 h' p = false -> (due_count ps h' < due_count ps h)%nat.
Proof.
  intros Hnd Hp H Ht Hf. destruct (filter_length_change (runnable_at 0 h') (runnable_at 0 h) ps p Hnd H) as [_ H2].
  specialize (H2 Hp Ht Hf). unfold due_count. lia.
Qed.

Lemma resting_passed now w p cr : resting w p cr -> resting w p (passed now cr).
Proof.
  intros [R1 R2 R3 R4]. unfold passed. rewrite R1. destruct (due now cr) eqn:Hd; [done|].
  split; cbn; try done. intros Hs _. apply R3; [done|]. unfold due in Hd. rewrite Hs in Hd. by to_prop.
Qed.

(** Notifying one that rests: it may have got a message. *)
Lemma resting_flag w w2 q cr (flagged : bool) :
  resting w q cr -> (flagged = false -> v_fetch q w = None -> v_fetch q w2 = None) ->
  resting w2 q (if flagged then flag_waiting cr else cr).
Proof.
  intros [R1 R2 R3 R4] H. destruct flagged.
  - unfold flag_waiting. destruct (state_ cr) eqn:Hs; cbn; split; cbn; rewrite ?Hs; naive_solver.
  - split; naive_solver.
Qed.

Lemma runnable_flag now (b : bool) cr :
  runnable 0 (if b then flag_waiting (passed now cr) else passed now cr) =
  runnable 0 (if b then flag_waiting cr else cr) \/ state_ cr = SLEEP.
Proof.
  unfold passed, flag_waiting, runnable, due. destruct cr as [nm wt lk up gr st fs pi pr id]; cbn.
  destruct b, lk, st, up; cbn; auto.
Qed.

(** The coroutine that the scan hands over. *)
Record running (cr0 cr : CRoutine) : Prop := {
  rn_lock : lock_ cr = true;
  rn_state : state_ cr = READY;
  rn_updated : updated_ cr = true;
  rn_stop : force_stop_ cr = force_stop_ cr0;
}.

Lemma taken_running now w p cr : resting w p cr -> runnable now cr = true -> running cr (taken now cr).
Proof.
  intros [R1 R2 _ _] Hr. destruct (taken_ready now cr Hr) as [H1 H2]. split; [done|done| |].
  - unfold taken, UpdateState. destruct R2 as [Hs|[Hs|Hs]]; rewrite Hs; cbn;
      try (destruct (updated_ cr) eqn:Hu; cbn; rewrite ?Hs; cbn; done).
  - unfold taken, UpdateState. case_if; [done|]. destruct (updated_ cr); [done|]. cbn. by destruct (waits (state_ cr)).
Qed.

Definition stops_kept (ps : list Z) (h h' : heap) : Prop :=
  forall q c, q ∈ ps -> h !! q = Some c -> exists c', h' !! q = Some c' /\ force_stop_ c' = force_stop_ c.

(** A turn of the coroutine at [p], seen from the others. *)
Lemma turn_rests now ps h w w2 p qs cr cr' h1 h' :
  rested ps h w -> scanned now (Some p) h h1 -> h !! p = Some cr ->
  (forall q c, q <> p -> h1 !! q = Some c -> h' !! q = Some (if bool_decide (q ∈ qs) then flag_waiting c else c)) ->
  (forall q, q <> p -> q ∉ qs -> v_fetch q w = None -> v_fetch q w2 = None) ->
  h' !! p = Some cr' -> resting w2 p cr' -> force_stop_ cr' = force_stop_ cr ->
  rested ps h' w2 /\ stops_kept ps h h' /\
  (forall q, q ∈ ps -> q <> p -> runnable_at 0 h' q = runnable_at 0 (flag_all qs h) q).
Proof.
  intros R Hs Hp Hoth Hq Hp' Hr' Hst.
  assert (Hlook : forall q c, q <> p -> h !! q = Some c -> resting w q c ->
    exists c1, h' !! q = Some (if bool_decide (q ∈ qs) then flag_waiting c1 else c1) /\ (c1 = c \/ c1 = passed now c) /\ resting w q c1).
  { intros q c Hne Hc Hr. specialize (Hs q). rewrite Hc, decide_False in Hs by congruence.
    destruct Hs as [Hs|Hs]; eexists; (split; [by apply Hoth|]); (split; [auto|]); auto using resting_passed. }
  split; [|split].
  - intros q Hin. destruct (decide (q = p)) as [->|Hne]; [by exists cr'|].
    destruct (R q Hin) as (c & Hc & Hr). destruct (Hlook q c Hne Hc Hr) as (c1 & Hl & _ & Hr1).
    eexists. split; [exact Hl|]. eapply resting_flag; [done|]. intros Hb%bool_decide_eq_false. by apply Hq.
  - intros q c Hin Hc. destruct (decide (q = p)) as [->|Hne]; [exists cr'; split; [done|congruence]|].
    destruct (R q Hin) as (c0 & Hc0 & Hr). replace c0 with c in * by congruence.
    destruct (Hlook q c Hne Hc Hr) as (c1 & Hl & H1 & _). eexists. split; [exact Hl|].
    assert (force_stop_ (passed now c) = force_stop_ c) by (unfold passed; by repeat case_if).
    destruct (bool_decide (q ∈ qs)); [unfold flag_waiting; case_if|]; destruct H1; subst; done.
  - intros q Hin Hne. destruct (R q Hin) as (c & Hc & Hr). destruct (Hlook q c Hne Hc Hr) as (c1 & Hl & H1 & _).
    unfold runnable_at. rewrite Hl, (flag_all_lookup _ _ _ _ Hc).
    destruct H1 as [-> | ->]; [done|]. destruct (runnable_flag now (bool_decide (q ∈ qs)) c) as [H|H]; [done|].
    destruct Hr as [_ Hst0 _ _]. destruct Hst0 as [E|[E|E]]; congruence.
Qed.

(** The state in which the scan leaves the processor. *)
Record picked (now : Z) (ps : list Z) (h : heap) (w : W) (p : Z) (cr : CRoutine) (h1 : heap) : Prop := {
  pk_rested : rested ps h w;
  pk_nodup : NoDup ps;
  pk_scanned : scanned now (Some p) h h1;
  pk_in : p ∈ ps;
  pk_old : h !! p = Some cr;
  pk_due : runnable_at 0 h p = true;
  pk_new : h1 !! p = Some (taken now cr);
  pk_running : running cr (taken now cr);
}.

(** A turn that ends without a message: the coroutine stops or waits. *)
Lemma turn_ends now ps h w p cr h1 f :
  picked now ps h w p cr h1 ->
  resting w p (Release (f (taken now cr))) -> force_stop_ (f (taken now cr)) = force_stop_ cr ->
  runnable 0 (Release (f (taken now cr))) = false ->
  let h' := alter Release p (alter f p h1) in
  rested ps h' w /\ stops_kept ps h h' /\ (due_count ps h' < due_count ps h)%nat.
Proof.
  intros [R Hnd Hs Hin Hc Hrun H1 _] Hr Hst Hnr. cbv zeta.
  assert (Hp : alter Release p (alter f p h1) !! p = Some (Release (f (taken now cr)))) by by rewrite !lookup_alter_eq, H1.
  destruct (turn_rests now ps h w w p [] cr (Release (f (taken now cr))) h1 (alter Release p (alter f p h1)) R Hs Hc) as (A & B & C); try done.
  { intros q c0 Hne Hq. by rewrite !lookup_alter_ne. }
  split; [done|]. split; [done|]. apply (count_drop _ _ _ p Hnd Hin C Hrun). unfold runnable_at. by rewrite Hp.
Qed.

(** A turn that handles a message. *)
Lemma turn_handles `{!VisitorsLaws W M} now ps h w p cr h1 m w1 w2 qs :
  picked now ps h w p cr h1 -> v_ok w ->
  v_fetch p w = Some (m, w1) -> v_call p m w1 = (w2, qs) ->
  let h' := alter Release p (alter (set_state READY) p (flag_all qs (alter (set_state DATA_WAIT) p h1))) in
  rested ps h' w2 /\ stops_kept ps h h' /\ v_ok w2 /\ (v_work w2 + due_count ps h' < v_work w + due_count ps h)%nat.
Proof.
  intros [R Hnd Hs Hin Hc Hrun H1 [T1 T2 T3 T4]] Hok Hft Hcall. cbv zeta. set (h' := alter _ _ _).
  destruct (v_progress _ _ _ _ _ _ Hok Hft Hcall) as [Hwork Hok2].
  assert (Hoth : forall q c0, q <> p -> h1 !! q = Some c0 ->
    h' !! q = Some (if bool_decide (q ∈ qs) then flag_waiting c0 else c0)).
  { intros q c0 Hne Hq. subst h'. rewrite !lookup_alter_ne by done. apply flag_all_lookup. by rewrite lookup_alter_ne. }
  assert (Hpp : exists cr', h' !! p = Some cr' /\ lock_ cr' = false /\ state_ cr' = READY /\ force_stop_ cr' = force_stop_ cr).
  { subst h'. rewrite !lookup_alter_eq, (flag_all_lookup _ _ _ (set_state DATA_WAIT (taken now cr))) by by rewrite lookup_alter_eq, H1.
    eexists. split; [done|]. split; [done|]. split; [done|]. rewrite <- T4. by case_bool_decide. }
  destruct Hpp as (cr' & Hp' & L1 & L2 & L3).
  assert (Hrest : resting w2 p cr') by (split; [done|by left| |]; rewrite L2; done).
  destruct (turn_rests now ps h w w2 p qs cr cr' h1 h' R Hs Hc Hoth) as (A & B & C); try done.
  { intros q _ Hnq Hqn. exact (v_notified _ _ _ _ _ _ q Hok Hft Hcall Hqn Hnq). }
  split; [done|]. split; [done|]. split; [done|].
  pose proof (flag_all_count ps qs h Hnd) as Hcnt. rewrite (count_ext ps h' (flag_all qs h)); [lia|].
  intros q Hq. destruct (decide (q = p)) as [->|Hne]; [|by apply C].
  unfold runnable_at in Hrun |- *. rewrite Hp', (flag_all_lookup _ _ _ _ Hc). rewrite Hc in Hrun.
  unfold runnable in *. rewrite L1. unfold due. rewrite L2. cbn.
  unfold flag_waiting, due in *. destruct cr as [? ? [] ? ? [] ? ? ? ?]; cbn in *; try done; by destruct (bool_decide (p ∈ qs)).
Qed.

(** The iteration of a context that nobody else takes from makes progress, or finds nothing. *)
Lemma iterate_progress `{!VisitorsLaws W M} now c st h w :
  ctx_stop c = false -> NoDup (order c st) -> rested (order c st) h w -> v_ok w ->
  let '(b, (h', w')) := iterate now c st (h, w) in
  rested (order c st) h' w' /\ stops_kept (order c st) h h' /\ v_ok w' /\
  if b then (v_work w' + due_count (order c st) h' < v_work w + due_count (order c st) h)%nat
  else forall p, p ∈ order c st -> runnable_at 0 h' p = false.
Proof.
  intros Hstop Hnd R Hok. unfold iterate. cbn [fst snd].
  destruct (NextRoutine_spec now c st h) as [Hf Hs]. rewrite Hstop in Hf.
  destruct (NextRoutine now c st h) as [r h1]. cbn in Hf, Hs.
  rewrite (find_ext_in _ (runnable_at 0 h)) in Hf by (intros; by eapply runnable_awake).
  destruct r as [p|].
  - symmetry in Hf. apply find_some in Hf as [Hin Hrun]. apply list_elem_of_In in Hin.
    destruct (R p Hin) as (cr & Hc & Hr). pose proof (Hs p) as Hsp. rewrite Hc, decide_True in Hsp by done.
    destruct Hsp as [Hrn H1]. pose proof (taken_running now w p cr Hr Hrn) as T.
    assert (P : picked now (order c st) h w p cr h1) by done.
    destruct T as [T1 T2 T3 T4]. unfold Resume. cbn [fst snd]. rewrite H1, T4, T2.
    destruct (force_stop_ cr) eqn:Hfs.
    + destruct (turn_ends _ _ _ _ _ _ _ (set_state FINISHED) P) as (A & B & C); try done.
      { split; cbn; auto; done. }
      { change (force_stop_ (taken now cr) = force_stop_ cr). congruence. }
      split; [done|]. split; [done|]. split; [done|]. lia.
    + rewrite bool_decide_eq_true_2 by done. cbn [negb]. unfold body, data_turn. cbn [fst snd].
      destruct (v_fetch p w) as [[m w1]|] eqn:Hft.
      * destruct (v_call p m w1) as [w2 qs] eqn:Hcall. by eapply turn_handles.
      * destruct (turn_ends _ _ _ _ _ _ _ (set_state DATA_WAIT) P) as (A & B & C); try done.
        { split; cbn; auto; done. }
        { change (force_stop_ (taken now cr) = force_stop_ cr). congruence. }
        { unfold runnable, due. change (negb (updated_ (taken now cr)) = false). by rewrite T3. }
        split; [done|]. split; [done|]. split; [done|]. lia.
  - assert (Hlook : forall q cr, h !! q = Some cr -> h1 !! q = Some cr \/ h1 !! q = Some (passed now cr)).
    { intros q cr Hq. specialize (Hs q). by rewrite Hq, decide_False in Hs by done. }
    split; [|split; [|split; [done|]]].
    + intros q Hq. destruct (R q Hq) as (cr & Hc & Hr). destruct (Hlook q cr Hc); eauto using resting_passed.
    + intros q cr Hq Hc. destruct (Hlook q cr Hc); eexists; (split; [done|]); [done|]. unfold passed. by repeat case_if.
    + intros q Hq. pose proof (find_none' _ _ (eq_sym Hf) q Hq) as H0.
      rewrite <- (runnable_awake now _ h w) in H0 by done. destruct (R q Hq) as (cr & Hc & Hr).
      unfold runnable_at in *. rewrite Hc in H0. rewrite (due_awake now w q) in H0 by done.
      destruct (Hlook q cr Hc) as [-> | ->]; [done|].
      destruct (runnable_flag now false cr) as [E|E]; [by rewrite E|]. destruct Hr as [_ Hst0 _ _].
      destruct Hst0 as [E0|[E0|E0]]; congruence.
Qed.

(** C21: The loop of a processor that does not share its context reaches [Wait] after at most one
    iteration for each unit of work and each task to look at, whatever its callbacks publish, as long as
    what is published is notified and the work comes to an end; and when it waits, every task
    that has not been stopped has nothing left to fetch. *)
Theorem processor_drains `{!VisitorsLaws W M} (clock : nat -> Z) (c : Ctx) (st : Statics) (h : heap) (w : W) (fuel : nat)
    (Hstop : ctx_stop c = false) (Hnd : NoDup (order c st)) (Hrest : rested (order c st) h w) (Hok : v_ok w)
    (Hfuel : (v_work w + due_count (order c st) h < fuel)%nat) :
  exists h' w', run_until_wait fuel clock c st (h, w) = Some (h', w') /\
    forall p cr, p ∈ order c st -> h !! p = Some cr ->
      exists cr', h' !! p = Some cr' /\ lock_ cr' = false /\ force_stop_ cr' = force_stop_ cr /\
        (force_stop_ cr = true \/ state_ cr' = DATA_WAIT /\ v_fetch p w' = None).
Proof.
  revert h w Hrest Hok Hfuel. induction fuel as [|fuel IH]; intros h w R Hok Hf; [lia|]. cbn [run_until_wait].
  pose proof (iterate_progress (clock fuel) c st h w Hstop Hnd R Hok) as H.
  destruct (iterate (clock fuel) c st (h, w)) as [b [h1 w1]]. destruct H as (R1 & K1 & Hok1 & Hb). destruct b.
  - destruct (IH h1 w1 R1 Hok1 ltac:(lia)) as (h' & w' & Hrun & Hall). exists h', w'. split; [done|].
    intros p cr Hp Hc. destruct (K1 p cr Hp Hc) as (cr1 & Hc1 & Hs1). rewrite <- Hs1. eauto.
  - exists h1, w1. split; [done|]. intros p cr Hp Hc. destruct (K1 p cr Hp Hc) as (cr1 & Hc1 & Hs1).
    destruct (R1 p Hp) as (cr2 & Hc2 & [L S Wk F]). replace cr2 with cr1 in * by congruence.
    exists cr1. split; [done|]. split; [done|]. split; [done|]. specialize (Hb p Hp).
    unfold runnable_at in Hb. rewrite Hc1 in Hb. unfold runnable, due in Hb. rewrite L in Hb. cbn in Hb.
    destruct S as [E|[E|E]]; rewrite E in Hb; [done| |left; rewrite <- Hs1; auto]. right. split; [done|].
    apply Wk; [done|]. by to_prop.
Qed.
End processor.
