(* ===== verification/Pipeline.v ===== *)
(** * Pipeline: a chain of tasks on channel buffers

    An instance of the interface [Visitors]: task [i] reads the [i]-th [CacheBuffer] with the [TryFetch] of
    [DataVisitor<M0>], and its callback fills the result into the next buffer and notifies the next
    task, as a chain of components does.  The laws of the interface follow from the lemmas on the buffer. *)

From S2P Require Import Prelude Interfaces CacheBuffer CRoutine RunQueue Processor.

Section pipeline.
Context {T : Type} `{!Inhabited T} (f : T -> T).

(** For each task its buffer and the visitor's [next_msg_index_]. *)
Abbreviation stages := (list (CacheBuffer T * Z)).

(** The messages that the reader will still get. *)
Definition pending (s : CacheBuffer T * Z) : nat :=
  if Empty (fst s) then 0%nat
  else if snd s =? 0 then 1%nat
  else Z.to_nat (Tail (fst s) + 1 - snd s).

Definition stage_ok (bound : Z) (s : CacheBuffer T * Z) : Prop :=
  exists size hist, holds size hist (fst s) /\ 0 <= snd s <= Z.of_nat (length hist) + 1 /\
    Z.of_nat (length hist) + bound < two64 - 1.

(** A message of a stage is handled there, and then makes one for the next, and so on. *)
Fixpoint work (w : stages) : nat :=
  match w with
  | [] => 0
  | s :: w' => pending s * (2 * length w' + 1) + work w'
  end%nat.

Definition pipe_fetch (p : Z) (w : stages) : option (T * stages) :=
  if p <? 0 then None
  else match w !! Z.to_nat p with
       | None => None
       | Some (b, n) =>
           match TryFetch n b with
           | Some (m, n') => Some (m, <[Z.to_nat p := (b, n')]> w)
           | None => None
           end
       end.

Definition pipe_call (p : Z) (m : T) (w : stages) : stages * list Z :=
  match w !! S (Z.to_nat p) with
  | Some (b, n) => (<[S (Z.to_nat p) := (fst (Fill (f m) b), n)]> w, [p + 1])
  | None => (w, [])
  end.

#[export] Instance pipe_visitors : Visitors stages T := {|
  v_fetch := pipe_fetch;
  v_call := pipe_call;
  v_work := work;
  v_ok w := Forall (stage_ok (Z.of_nat (work w))) w;
|}.

Lemma fetch_pending bound b n m n' :
  stage_ok bound (b, n) -> TryFetch n b = Some (m, n') ->
  (pending (b, n') < pending (b, n))%nat /\ stage_ok bound (b, n').
Proof.
  intros (size & hist & Hb & Hn & Hl). cbn [fst snd] in *. unfold TryFetch.
  rewrite (held_Fetch size hist b Hb n Hn). case_decide as Hc; [done|]. cbv zeta. intros [= _ <-].
  assert (0 < length hist)%nat by (destruct hist; cbn; [tauto|lia]). pose proof (h_size _ _ _ Hb).
  assert (n <> Z.of_nat (length hist) + 1) by tauto. clear Hc.
  set (i := if decide _ then _ else _).
  assert (Hi : n <= i /\ 1 <= i <= Z.of_nat (length hist) /\ (n = 0 -> i = Z.of_nat (length hist))).
  { subst i. case_decide; lia. }
  pose proof (h_short _ _ _ Hb). rewrite wrap_u64_small by lia. split.
  - unfold pending. cbn [fst snd]. rewrite (held_Empty _ _ _ Hb), bool_decide_eq_false_2 by (intros E; rewrite E in *; cbn in *; lia).
    unfold Tail. rewrite (h_tail _ _ _ Hb). repeat case_if; lia.
  - exists size, hist. cbn [fst snd]. split; [done|]. lia.
Qed.

Lemma fill_pending bound b n m :
  1 <= bound -> stage_ok bound (b, n) ->
  (pending (fst (Fill m b), n) <= pending (b, n) + 1)%nat /\ stage_ok (bound - 1) (fst (Fill m b), n).
Proof.
  intros Hbd (size & hist & Hb & Hn & Hl). cbn [fst snd] in *.
  assert (Hf : holds size (hist ++ [m]) (fst (Fill m b))) by (apply holds_fill; [done|lia]).
  split.
  - unfold pending. cbn [fst snd]. rewrite (held_Empty _ _ _ Hf), (held_Empty _ _ _ Hb).
    rewrite bool_decide_eq_false_2 by (by destruct hist).
    unfold Tail. rewrite (h_tail _ _ _ Hf), (h_tail _ _ _ Hb), length_app. cbn [length].
    case_bool_decide; [subst; cbn [length] in *|]; repeat case_if; lia.
  - exists size, (hist ++ [m]). rewrite length_app. cbn [fst snd length]. split; [done|]. lia.
Qed.

Lemma stage_ok_mono a b s : b <= a -> stage_ok a s -> stage_ok b s.
Proof. intros Hab (size & hist & ? & ? & ?). exists size, hist. split; [done|]. lia. Qed.

(** Changing one stage. *)
Lemma work_insert (w : stages) i s s' :
  w !! i = Some s ->
  (work (<[i := s']> w) + pending s * (2 * (length w - i - 1) + 1) =
   work w + pending s' * (2 * (length w - i - 1) + 1))%nat.
Proof.
  revert i. induction w as [|x w IH]; intros [|i] Hi; try done.
  - injection Hi as ->. cbn. rewrite !Nat.sub_0_r. lia.
  - cbn in Hi. specialize (IH i Hi). change (<[S i := s']> (x :: w)) with (x :: <[i := s']> w).
    cbn [work length]. rewrite length_insert. replace (S (length w) - S i - 1)%nat with (length w - i - 1)%nat by lia.
    rewrite <- !Nat.add_assoc. f_equal. exact IH.
Qed.

Lemma stages_insert bound (w : stages) i s :
  Forall (stage_ok bound) w -> stage_ok bound s -> Forall (stage_ok bound) (<[i := s]> w).
Proof. intros. by apply Forall_insert. Qed.

Lemma stages_mono a b (w : stages) : b <= a -> Forall (stage_ok a) w -> Forall (stage_ok b) w.
Proof. intros Hab H. eapply Forall_impl; [exact H|]. intros. by eapply stage_ok_mono. Qed.

Lemma pipe_progress p w m w1 w2 qs :
  Forall (stage_ok (Z.of_nat (work w))) w -> pipe_fetch p w = Some (m, w1) -> pipe_call p m w1 = (w2, qs) ->
  (work w2 + length qs < work w)%nat /\ Forall (stage_ok (Z.of_nat (work w2))) w2.
Proof.
  intros Hok. unfold pipe_fetch. destruct (p <? 0) eqn:Hp; [done|].
  destruct (w !! Z.to_nat p) as [[b n]|] eqn:Hi; [|done]. destruct (TryFetch n b) as [[m' n']|] eqn:Hf; [|done].
  intros [= -> <-]. pose proof Hok as Hall. rewrite Forall_lookup in Hall.
  destruct (fetch_pending _ _ _ _ _ (Hall _ _ Hi) Hf) as [Hlt Hok1].
  pose proof (work_insert w _ _ (b, n') Hi) as Hw1. pose proof (lookup_lt_Some _ _ _ Hi) as Hlen.
  set (w1' := <[Z.to_nat p := (b, n')]> w) in *. set (k := (length w - Z.to_nat p - 1)%nat) in *.
  assert (Hs1 : Forall (stage_ok (Z.of_nat (work w))) w1') by by apply stages_insert.
  assert (Hw1' : (work w1' + (2 * k + 1) <= work w)%nat) by nia.
  unfold pipe_call. destruct (w1' !! S (Z.to_nat p)) as [[b2 n2]|] eqn:Hi2.
  - intros [= <- <-]. pose proof (work_insert w1' _ _ (fst (Fill (f m) b2), n2) Hi2) as Hw2.
    pose proof (lookup_lt_Some _ _ _ Hi2) as Hlen2. pose proof Hs1 as Hall1. rewrite Forall_lookup in Hall1.
    assert (length w1' = length w) as Hl1 by apply length_insert.
    destruct (fill_pending (Z.of_nat (work w)) _ _ (f m) ltac:(lia) (Hall1 _ _ Hi2)) as [Hle Hok2].
    set (w2' := <[S (Z.to_nat p) := (fst (Fill (f m) b2), n2)]> w1') in *.
    assert (Hk : (length w1' - S (Z.to_nat p) - 1 = k - 1)%nat) by lia. rewrite Hk in Hw2.
    assert (1 <= k)%nat by lia. assert (Hw2' : (work w2' <= work w1' + (2 * (k - 1) + 1))%nat) by nia.
    cbn [length]. split; [lia|]. apply (stages_mono (Z.of_nat (work w) - 1)); [lia|]. apply stages_insert; [|done].
    eapply stages_mono; [|done]. lia.
  - intros [= <- <-]. cbn [length]. split; [lia|]. eapply stages_mono; [|done]. lia.
Qed.

Lemma pipe_fetch_other q (w : stages) i x :
  i <> Z.to_nat q -> pipe_fetch q w = None -> pipe_fetch q (<[i := x]> w) = None.
Proof.
  unfold pipe_fetch. intros Hne. case_if; [done|]. rewrite list_lookup_insert_ne by done.
  destruct (w !! Z.to_nat q) as [[b n]|]; [|done]. by destruct (TryFetch n b) as [[]|].
Qed.

#[export] Instance pipe_laws : VisitorsLaws stages T.
Proof.
  split; [exact pipe_progress|]. cbn [v_fetch v_call pipe_visitors]. intros p w m w1 w2 qs q _ Hf Hc Hq Hn.
  assert (Hpq : p <> q) by congruence. pose proof Hq as Hq0.
  unfold pipe_fetch in Hf. destruct (p <? 0) eqn:Hp; [done|].
  destruct (w !! Z.to_nat p) as [[b n]|] eqn:Hi; [|done]. destruct (TryFetch n b) as [[m' n']|] eqn:Ht; [|done].
  injection Hf as -> <-. to_prop.
  destruct (Z.ltb_spec q 0) as [Hq1|Hq1].
  { unfold pipe_fetch. by rewrite (proj2 (Z.ltb_lt q 0) Hq1). }
  assert (H1 : pipe_fetch q (<[Z.to_nat p := (b, n')]> w) = None) by (apply pipe_fetch_other; [lia|done]).
  unfold pipe_call in Hc. destruct (<[Z.to_nat p := (b, n')]> w !! S (Z.to_nat p)) as [[b2 n2]|]; injection Hc as <- <-; [|done].
  apply pipe_fetch_other; [|done]. intros He. apply Hn. apply list_elem_of_singleton. lia.
Qed.
End pipeline.

(** Three stages on one choreography processor; the first has two messages, the second is stopped for
    having nothing to do, the third has not been notified of anything. *)
Definition demo_stages : list (CacheBuffer nat * Z) :=
  [(fst (Fill 5%nat (fst (Fill 4%nat (cb_new 2)))), 1); (cb_new 2, 0); (cb_new 2, 0)].

Definition demo_ctx : Ctx := Choreography [(3, 0); (2, 1); (1, 2)] 1 false.

Definition demo_heap : heap :=
  <[0 := cr_new 0]> (<[1 := set_state DATA_WAIT (cr_new 0)]> (<[2 := set_state DATA_WAIT (cr_new 0)]> ∅)).

Lemma demo_bounds (a b c d : Z) :
  (0 <=? a) = true -> (a <=? b) = true -> (c + d <? two64 - 1) = true -> 0 <= a <= b /\ c + d < two64 - 1.
Proof. intros. to_prop. lia. Qed.

Lemma demo_stages_ok : Forall (stage_ok (Z.of_nat (work demo_stages))) demo_stages.
Proof.
  assert (H0 : holds 2 [] (cb_new (T := nat) 2)) by (apply holds_new; unfold two64; lia).
  assert (H1 : holds 2 [4%nat] (fst (Fill 4%nat (cb_new 2)))) by (apply (holds_fill 2 [] _ H0); unfold two64; cbn; lia).
  assert (H2 : holds 2 [4%nat; 5%nat] (fst (Fill 5%nat (fst (Fill 4%nat (cb_new 2)))))) by (apply (holds_fill 2 [4%nat] _ H1); unfold two64; cbn; lia).
  repeat constructor.
  - exists 2, [4%nat; 5%nat]. split; [exact H2|]. apply demo_bounds; reflexivity.
  - exists 2, []. split; [exact H0|]. apply demo_bounds; reflexivity.
  - exists 2, []. split; [exact H0|]. apply demo_bounds; reflexivity.
Qed.

#[local] Instance demo_visitors : Visitors (list (CacheBuffer nat * Z)) nat := pipe_visitors S.
#[local] Instance demo_laws : VisitorsLaws (list (CacheBuffer nat * Z)) nat := pipe_laws S.

Lemma demo_rested : rested (order demo_ctx (mkStatics ∅ ∅)) demo_heap demo_stages.
Proof.
  intros p Hp. change (p ∈ [0; 1; 2]) in Hp. rewrite !elem_of_cons, elem_of_nil in Hp.
  destruct Hp as [->|[->|[->|[]]]]; eexists; (split; [reflexivity|]); split; cbn; auto; done.
Qed.

Lemma processor_drains_witness :
  exists h' w', run_until_wait 20 (fun _ => 0) demo_ctx (mkStatics ∅ ∅) (demo_heap, demo_stages) = Some (h', w') /\
    forall p cr, p ∈ order demo_ctx (mkStatics ∅ ∅) -> demo_heap !! p = Some cr ->
      exists cr', h' !! p = Some cr' /\ lock_ cr' = false /\ force_stop_ cr' = force_stop_ cr /\
        (force_stop_ cr = true \/ state_ cr' = DATA_WAIT /\ v_fetch p w' = None).
Proof.
  apply processor_drains.
  - reflexivity.
  - apply (bool_decide_unpack _). reflexivity.
  - exact demo_rested.
  - exact demo_stages_ok.
  - apply Nat.ltb_lt. reflexivity.
Defined.
