(* ===== verification/SchedulerWakeup.v ===== *)
(** * SchedulerWakeup: is a task run for every message?

    The accesses of a publication and of the processors to one data coroutine, interleaved: the
    buffer of its visitor, [state_], [updated_], [lock_] and the counter of notifications of the
    context ([croutine.h], [scheduler_classic.cc], [scheduler_choreography.cc], [classic_context.cc],
    [choreography_context.cc], [processor.cc], [routine_factory.h]).  Other coroutines of the context appear
    as events: one of them is run, or is notified.  Each event is a function of the
    configuration; a step is an event that is possible. *)

From S2P Require Import Prelude CRoutine.

(** A publication: [Fill]; then [NotifyProcessor] reads the state, clears the flag when the coroutine waits, and
    notifies the context. *)
Inductive npc := NIdle | NFilled | NSaw (waiting : bool) | NFlagged.

(** A processor.  [QScan]: about to [Acquire]; [QFlag], [QWake], [QState]: in [UpdateState], about to take the flag,
    to set [READY], to return the state; [QPass]: about to [Release] a coroutine that is not ready;
    [QEnd]: has seen no coroutine that is ready; [QWait]: in [Wait]; [QTurn], [QFetch], [QHandled]: in the
    coroutine, about to set [DATA_WAIT], to [TryFetch], to yield with [READY]; [QYield]: about to [Release]. *)
Inductive qpc :=
  QScan | QFlag | QWake | QState | QPass | QEnd | QWait | QTurn | QFetch | QHandled | QYield.

Record Config := mkConfig {
  state_ : RoutineState;
  updated_ : bool;
  lock_ : bool;
  unread : nat;
  notify : Z;
  procs : list qpc;
  pubs : list npc;
}.

Inductive event := Publish (j : nat) | Proc (j : nat) | RunOther (j : nat) | NotifyOther | Timeout (j : nat).

(** The next access of a publication. *)
Definition publish (j : nat) (c : Config) : option Config :=
  let '(mkConfig st up lk n no ps ns) := c in
  match ns !! j with
  | Some NIdle => Some (mkConfig st up lk (S n) no ps (<[j := NFilled]> ns))
  | Some NFilled => Some (mkConfig st up lk n no ps (<[j := NSaw (waits st)]> ns))
  | Some (NSaw w) => Some (mkConfig st (if w then false else up) lk n no ps (<[j := NFlagged]> ns))
  | Some NFlagged => Some (mkConfig st up lk n (no + 1) ps (<[j := NIdle]> ns))
  | None => None
  end.

(** The next access of a processor; [None] when it sleeps in [Wait]. *)
Definition proc (j : nat) (c : Config) : option Config :=
  let '(mkConfig st up lk n no ps ns) := c in
  let goto q := <[j := q]> ps in
  match ps !! j with
  | Some QScan => Some (mkConfig st up true n no (goto (if lk then QEnd else QFlag)) ns)
  | Some QFlag => Some (mkConfig st true lk n no (goto (if up then QState else QWake)) ns)
  | Some QWake => Some (mkConfig (if waits st then READY else st) up lk n no (goto QState) ns)
  | Some QState => Some (mkConfig st up lk n no (goto (if bool_decide (st = READY) then QTurn else QPass)) ns)
  | Some QPass => Some (mkConfig st up false n no (goto QEnd) ns)
  | Some QEnd => Some (mkConfig st up lk n no (goto QWait) ns)
  | Some QWait => if 0 <? no then Some (mkConfig st up lk n (no - 1) (goto QScan) ns) else None
  | Some QTurn => Some (mkConfig DATA_WAIT up lk n no (goto QFetch) ns)
  | Some QFetch =>
      match n with
      | O => Some (mkConfig st up lk n no (goto QYield) ns)
      | S n' => Some (mkConfig st up lk n' no (goto QHandled) ns)
      end
  | Some QHandled => Some (mkConfig READY up lk n no (goto QYield) ns)
  | Some QYield => Some (mkConfig st up false n no (goto QScan) ns)
  | None => None
  end.

(** Another coroutine is ready, before or after this one in the queue: the processor runs it and
    looks again. *)
Definition run_other (j : nat) (c : Config) : option Config :=
  let '(mkConfig st up lk n no ps ns) := c in
  match ps !! j with
  | Some QScan | Some QEnd => Some (mkConfig st up lk n no (<[j := QScan]> ps) ns)
  | _ => None
  end.

Definition notify_other (c : Config) : option Config :=
  let '(mkConfig st up lk n no ps ns) := c in Some (mkConfig st up lk n (no + 1) ps ns).

(** [wait_for] gives up after a second. *)
Definition timeout (j : nat) (c : Config) : option Config :=
  let '(mkConfig st up lk n no ps ns) := c in
  match ps !! j with
  | Some QWait => Some (mkConfig st up lk n (if 0 <? no then no - 1 else no) (<[j := QScan]> ps) ns)
  | _ => None
  end.

Definition happens (e : event) (c : Config) : option Config :=
  match e with
  | Publish j => publish j c
  | Proc j => proc j c
  | RunOther j => run_other j c
  | NotifyOther => notify_other c
  | Timeout j => timeout j c
  end.

Definition wstep (c c' : Config) : Prop := exists e, happens e c = Some c'.

Definition wake_start (processors publishers : nat) : Config :=
  mkConfig READY true false 0 0 (replicate processors QScan) (replicate publishers NIdle).

(** The coroutine will not be forgotten, with one processor at [q]. *)
Definition flagging (n : npc) : bool := match n with NFilled | NSaw true => true | _ => false end.
Definition notifying (n : npc) : bool := match n with NFlagged => true | _ => false end.

Definition holds_lock (q : qpc) : bool :=
  match q with QScan | QEnd | QWait => false | _ => true end.

(** Somebody is about to set the flag. *)
Definition flag_coming (c : Config) : Prop := 0 < count flagging (pubs c).

Definition remembered (q : qpc) (c : Config) : Prop :=
  match q with
  | QWake | QTurn | QFetch | QHandled => True
  | QScan | QFlag | QYield => unread c = O \/ state_ c = READY \/ updated_ c = false \/ flag_coming c
  | QState =>
      unread c = O \/ state_ c = READY \/ flag_coming c \/
      (updated_ c = false /\ (0 < notify c \/ 0 < count notifying (pubs c)))
  | QPass | QEnd | QWait =>
      unread c = O \/ flag_coming c \/
      (updated_ c = false /\ (0 < notify c \/ 0 < count notifying (pubs c)))
  end.

Record wake_inv (c : Config) : Prop := {
  wi_one : exists q, procs c = [q] /\ lock_ c = holds_lock q /\ remembered q c /\
    (match q with QPass | QEnd | QWait | QFetch => state_ c = DATA_WAIT | QTurn => state_ c = READY | _ => True end);
  wi_state : state_ c = READY \/ state_ c = DATA_WAIT;
  wi_notify : 0 <= notify c;
}.

Lemma count_flagging_pos j ns n : ns !! j = Some n -> flagging n = true -> 0 < count flagging ns.
Proof. intros H1 H2. pose proof (count_one _ _ _ _ H1 H2). lia. Qed.

(** A publication does not make the coroutine forgotten. *)
Lemma publish_inv j c c' : wake_inv c -> publish j c = Some c' -> wake_inv c'.
Proof.
  destruct c as [st up lk n no ps ns]. intros [(q & Hps & Hlk & Hr & Hq) Hst Hno]. cbn in *. subst ps.
  destruct (ns !! j) as [x|] eqn:Hj; [|done]. pose proof (count_nonneg flagging ns). pose proof (count_nonneg notifying ns).
  destruct x as [| |w|]; intros [= <-].
  all: match goal with H : ?l !! ?k = Some _ |- context [<[?k := ?y]> ?l] =>
         pose proof (count_insert flagging l k _ y H) as C1; pose proof (count_insert notifying l k _ y H) as C2 end.
  all: cbn [flagging notifying] in C1, C2; split; cbn; [|done|lia].
  all: exists q; (split; [done|]); (split; [done|]); (split; [|done]).
  all: unfold remembered, flag_coming in *; cbn in *.
  - destruct q; try done; lia.
  - destruct Hst as [-> | ->]; cbn in *; destruct q; try done; lia || intuition (discriminate || lia).
  - destruct w; destruct q; try done; intuition (congruence || lia).
  - destruct q; try done; intuition (congruence || lia).
Qed.

Lemma proc_inv j c c' : wake_inv c -> proc j c = Some c' -> wake_inv c'.
Proof.
  destruct c as [st up lk n no ps ns]. intros [(q & Hps & Hlk & Hr & Hq) Hst Hno]. cbn in *. subst ps lk.
  pose proof (count_nonneg flagging ns). pose proof (count_nonneg notifying ns).
  destruct j as [|j]; [cbn [lookup list_lookup]|done].
  unfold remembered, flag_coming in *; cbn in *.
  destruct q; try (intros [= <-]); try (destruct (0 <? no) eqn:E; [intros [= <-]|done]; to_prop);
    try (destruct n as [|n]; intros [= <-]);
    (split; cbn; [eexists; split; [reflexivity|]| |]); unfold remembered, flag_coming; cbn; try lia; try done.
  - destruct up; cbn; naive_solver.
  - destruct Hst as [-> | ->]; cbn; naive_solver.
  - destruct Hst as [-> | ->]; cbn; auto.
  - destruct Hst as [-> | ->]; cbn; naive_solver.
  - naive_solver.
  - by auto.
  - by auto 6.
  - by auto.
Qed.

Lemma other_inv e c c' :
  (forall j, e <> Publish j) -> (forall j, e <> Proc j) -> wake_inv c -> happens e c = Some c' -> wake_inv c'.
Proof.
  intros He1 He2. destruct c as [st up lk n no ps ns]. intros [(q & Hps & Hlk & Hr & Hq) Hst Hno]. cbn in *. subst ps lk.
  destruct e as [j|j|j| |j]; cbn [happens run_other notify_other timeout]; [by destruct (He1 j)|by destruct (He2 j)| | |].
  - destruct j as [|j]; [cbn|done]. destruct q; try done; intros [= <-];
      (split; cbn; [eexists; split; [reflexivity|]|done|done]); unfold remembered, flag_coming in *; cbn in *; intuition.
  - intros [= <-]. split; cbn; [exists q|done|lia]. unfold remembered, flag_coming in *; cbn in *.
    split; [done|]. split; [done|]. split; [|done]. destruct q; intuition lia.
  - destruct j as [|j]; [cbn|done]. destruct q; try done. intros [= <-].
    split; cbn; [eexists; split; [reflexivity|]|done|case_if; lia].
    unfold remembered, flag_coming in *; cbn in *; intuition.
Qed.

Lemma wake_start_inv k : wake_inv (wake_start 1 k).
Proof. split; cbn; [|by left|done]. exists QScan. cbn. auto. Qed.

(** C20: On a processor that does not share its context (choreography), in every interleaving with any
    number of publishers and other coroutines, and without the timeout of [Wait]: whenever the
    processor sleeps, nobody is in the middle of a publication and the context has no
    notification, every message of the task has been fetched. *)
Theorem no_lost_wakeup (k : nat) (c : Config) (Hrun : rtc wstep (wake_start 1 k) c)
    (Hidle : forall j n, pubs c !! j = Some n -> n = NIdle)
    (Hsleep : procs c = [QWait]) (Hnone : notify c = 0) :
  unread c = O.
Proof.
  assert (H : wake_inv c).
  { apply (rtc_invariant wstep wake_inv (wake_start 1 k)); [apply wake_start_inv| |done].
    intros x y Hx [e He]. destruct e; [by eapply publish_inv|by eapply proc_inv|..]; (eapply other_inv; [| |exact Hx|exact He]); done. }
  destruct H as [(q & Hq & _ & Hr & _) _ _]. rewrite Hsleep in Hq. injection Hq as <-.
  assert (Hf : count flagging (pubs c) = 0) by (apply count_zero; intros j n Hj; by rewrite (Hidle j n Hj)).
  assert (Hn : count notifying (pubs c) = 0) by (apply count_zero; intros j n Hj; by rewrite (Hidle j n Hj)).
  unfold remembered, flag_coming in Hr. destruct Hr as [?|[?|[_ [?|?]]]]; [done|lia..].
Qed.

Definition happen (l : list event) (c : Config) : option Config :=
  foldl (fun o e => o ≫= happens e) (Some c) l.

Lemma happen_steps l c c' : happen l c = Some c' -> rtc wstep c c'.
Proof.
  unfold happen. revert c. induction l as [|e l IH]; cbn; intros c H; [by injection H as ->|].
  destruct (happens e c) as [c1|] eqn:E.
  - eapply rtc_l; [by exists e|by apply IH].
  - exfalso. clear -H. induction l; [done|by apply IHl].
Qed.

(** The first turn, a publication while the processor sleeps, and its handling. *)
Definition one_message : list event := repeat (Proc 0) 11 ++ repeat (Publish 0) 4 ++ repeat (Proc 0) 20.

Definition one_handled : Config := default (wake_start 1 1) (happen one_message (wake_start 1 1)).

Lemma no_lost_wakeup_witness :
  rtc wstep (wake_start 1 1) one_handled /\ procs one_handled = [QWait] /\ unread one_handled = O.
Proof.
  assert (H : rtc wstep (wake_start 1 1) one_handled) by (apply (happen_steps one_message); reflexivity).
  split; [exact H|]. split; [reflexivity|].
  apply (no_lost_wakeup 1 one_handled H); [|reflexivity..].
  intros [|j] n Hn; cbn in Hn; [by injection Hn as <-|done].
Defined.

(** Two processors of one group.  The first has looked at the coroutine, found no flag, and still holds it; a
    message comes; the second is notified, fails to acquire the coroutine and sleeps again; the first lets it go
    and sleeps. *)
Definition lost_wakeup_run : list event :=
  repeat (Proc 0) 8 ++ repeat (Proc 1) 2 ++ repeat (Publish 0) 4 ++ repeat (Proc 1) 3 ++ repeat (Proc 0) 3.

(** C39: When two processors share the queue (classic), a notification can be lost: both sleep, the context has no
    notification and nobody is publishing, while the task has a message to fetch and its flag is
    set.  Only the timeout of [Wait], or another notification, gets it to run. *)
Theorem classic_lost_wakeup :
  exists c, rtc wstep (wake_start 2 1) c /\ procs c = [QWait; QWait] /\ pubs c = [NIdle] /\ notify c = 0 /\
    unread c = 1%nat /\ state_ c = DATA_WAIT /\ updated_ c = false /\ lock_ c = false /\
    (forall j, proc j c = None).
Proof.
  exists (mkConfig DATA_WAIT false false 1 0 [QWait; QWait] [NIdle]).
  split; [by apply (happen_steps lost_wakeup_run)|]. repeat (split; [done|]). by intros [|[|j]].
Qed.
