(* ===== verification/TaskPool.v ===== *)
(** * TaskPool: the workers of [ThreadPool] and of [TaskManager]

    Models [base/thread_pool.h] with the [BlockWaitStrategy] of [base/wait_strategy.h], and [task/task_manager.{h,cc}].  Both take tasks
    from a bounded queue, which is here the list that [BoundedQueue] refines; a task is a number.  A thread that asks for a task to be
    run, and a worker, go on one access at a time.  Tasks start once and in order; but a worker can go to sleep just when it should be
    told, and a task that does not fit is dropped. *)

From S2P Require Import Prelude BoundedQueue CRoutine.

(** ** The queue of tasks, and what became of them *)

Record TaskQueue := mkTasks { cap : nat; waiting : list nat; accepted : list nat; dropped : list nat; started : list nat }.

Definition tasks_new (cap : nat) : TaskQueue := mkTasks cap [] [] [] [].

Definition push (x : nat) (q : TaskQueue) : TaskQueue :=
  let '(ok, l) := spec_enqueue (cap q) x (waiting q) in
  if ok then mkTasks (cap q) l (accepted q ++ [x]) (dropped q) (started q) else mkTasks (cap q) l (accepted q) (dropped q ++ [x]) (started q).

Definition drop_task (x : nat) (q : TaskQueue) : TaskQueue := mkTasks (cap q) (waiting q) (accepted q) (dropped q ++ [x]) (started q).

Definition pop (q : TaskQueue) : option nat * TaskQueue :=
  let '(r, l) := spec_dequeue (waiting q) in (r, mkTasks (cap q) l (accepted q) (dropped q) (started q ++ option_list r)).

Definition in_order (q : TaskQueue) : Prop := started q ++ waiting q = accepted q.

Lemma push_in_order x q : in_order q -> in_order (push x q) /\ accepted (push x q) ++ dropped (push x q) ≡ₚ x :: accepted q ++ dropped q.
Proof.
  unfold in_order, push, spec_enqueue. intros H. case_decide; cbn.
  - split; [by rewrite app_assoc, H|]. by rewrite <- app_assoc, Permutation_middle.
  - split; [done|]. by rewrite app_assoc, Permutation_app_comm.
Qed.

Lemma drop_in_order x q : in_order q -> in_order (drop_task x q) /\ accepted (drop_task x q) ++ dropped (drop_task x q) ≡ₚ x :: accepted q ++ dropped q.
Proof. intros H. split; [done|]. cbn. by rewrite app_assoc, Permutation_app_comm. Qed.

Lemma pop_in_order q : in_order q -> in_order (pop q).2 /\ accepted (pop q).2 = accepted q /\ dropped (pop q).2 = dropped q.
Proof. unfold in_order, pop. intros <-. destruct (waiting q) as [|x l]; cbn; split_and!; try done; [by rewrite app_nil_r|by rewrite <- app_assoc]. Qed.

(** ** [ThreadPool] *)

Module ThreadPool.

(** A worker: at the test of [stop_]; in [WaitDequeue], at the test of [break_all_wait_], before [Dequeue], and before it blocks on the condition
    variable; blocked; in a task; returned. *)
Inductive worker := WLoop | WBreak | WTake | WEmpty | WSleep | WRun (x : nat) | WEnd.
#[export] Instance worker_eq_dec : EqDecision worker.
Proof. solve_decision. Defined.

(** A thread that is in [Enqueue]: at the test of [stop_]; before the queue; before [NotifyOne]. *)
Inductive caller := KIdle | KStop (x : nat) | KPush (x : nat) | KNotify.
(** The destructor: before [stop_.exchange], before [break_all_wait_] is set, before [notify_all], in [join]. *)
Inductive destroyer := KNew | KBreak | KAll | KJoin.

Record Pool := mkPool { queue : TaskQueue; break_all_wait_ : bool; stop_ : bool; workers : list worker; callers : list caller; destructor : destroyer; called : list nat }.

Definition pool_new (threads max_task_num : nat) (k : nat) : Pool :=
  mkPool (tasks_new max_task_num) false false (replicate threads WLoop) (replicate k KIdle) KNew [].

Definition with_workers (l : list worker) (p : Pool) : Pool := mkPool (queue p) (break_all_wait_ p) (stop_ p) l (callers p) (destructor p) (called p).
Definition with_callers (l : list caller) (p : Pool) : Pool := mkPool (queue p) (break_all_wait_ p) (stop_ p) (workers p) l (destructor p) (called p).
Definition with_queue (q : TaskQueue) (p : Pool) : Pool := mkPool q (break_all_wait_ p) (stop_ p) (workers p) (callers p) (destructor p) (called p).

Definition work (i : nat) (p : Pool) : option Pool :=
  let goto w := with_workers (<[i := w]> (workers p)) p in
  w ← workers p !! i;
  match w with
  | WLoop => Some (goto (if stop_ p then WEnd else WBreak))
  | WBreak => Some (goto (if break_all_wait_ p then WLoop else WTake))
  | WTake => let '(r, q) := pop (queue p) in Some (with_queue q (goto (match r with Some x => WRun x | None => WEmpty end)))
  | WEmpty => Some (goto WSleep)
  | WSleep | WEnd => None
  | WRun _ => Some (goto WLoop)
  end.

Definition wake (w : worker) : worker := match w with WSleep => WBreak | _ => w end.

(** [target]: the worker that is notified; a condition variable on which nobody waits forgets. *)
Definition call_step (k target : nat) (p : Pool) : option Pool :=
  let goto c := with_callers (<[k := c]> (callers p)) p in
  c ← callers p !! k;
  match c with
  | KIdle => None
  | KStop x => Some (if stop_ p then with_queue (drop_task x (queue p)) (goto KIdle) else goto (KPush x))
  | KPush x => Some (with_queue (push x (queue p)) (goto (if (spec_enqueue (cap (queue p)) x (waiting (queue p))).1 then KNotify else KIdle)))
  | KNotify =>
      if decide (WSleep ∈ workers p) then
        match workers p !! target with Some WSleep => Some (with_workers (alter wake target (workers p)) (goto KIdle)) | _ => None end
      else Some (goto KIdle)
  end.

Definition destroy_step (p : Pool) : option Pool :=
  match destructor p with
  | KNew => Some (mkPool (queue p) (break_all_wait_ p) true (workers p) (callers p) KBreak (called p))
  | KBreak => Some (mkPool (queue p) true (stop_ p) (workers p) (callers p) KAll (called p))
  | KAll => Some (mkPool (queue p) (break_all_wait_ p) (stop_ p) (wake <$> workers p) (callers p) KJoin (called p))
  | KJoin => None
  end.

Inductive event := EvEnqueue (k x : nat) | EvCall (k target : nat) | EvWork (i : nat) | EvDestroy.

Definition step (p : Pool) (e : event) : option Pool :=
  match e with
  | EvEnqueue k x =>
      match callers p !! k with
      | Some KIdle => Some (mkPool (queue p) (break_all_wait_ p) (stop_ p) (workers p) (<[k := KStop x]> (callers p)) (destructor p) (called p ++ [x]))
      | _ => None
      end
  | EvCall k target => call_step k target p
  | EvWork i => work i p
  | EvDestroy => destroy_step p
  end.

Fixpoint run (p : Pool) (l : list event) : option Pool := match l with [] => Some p | e :: l' => p1 ← step p e; run p1 l' end.

(** The task that a caller has still to put into the queue. *)
Definition asking (c : caller) : option nat := match c with KStop x | KPush x => Some x | _ => None end.

End ThreadPool.

(** ** [TaskManager] *)

Module TaskManager.

(** The coroutine of a task: about to test [stop_]; about to dequeue; has found nothing and is about to set its state; has yielded, to be resumed
    in the loop; in a task; returned. *)
Inductive routine_pc := RLoop | RTake | RHangUp | RYielded | RRun (x : nat) | REnd.
Record Routine := mkRoutine { state_ : RoutineState; updated_ : bool; rpc : routine_pc }.

(** A thread in [Enqueue]: at the test of [stop_]; before the queue; about to notify the routines from the [j]th on, which reads the state
    of the routine; about to clear its flag. *)
Inductive caller := KIdle | KStop (x : nat) | KPush (x : nat) | KNotify (j : nat) | KFlag (j : nat).

Record Manager := mkManager { queue : TaskQueue; stop_ : bool; tasks_ : list Routine; callers : list caller; called : list nat }.

Definition manager_new (num_threads k : nat) : Manager :=
  mkManager (tasks_new 1024) false (replicate num_threads (mkRoutine READY true RLoop)) (replicate k KIdle) [].

Definition with_tasks (l : list Routine) (m : Manager) : Manager := mkManager (queue m) (stop_ m) l (callers m) (called m).
Definition with_callers (l : list caller) (m : Manager) : Manager := mkManager (queue m) (stop_ m) (tasks_ m) l (called m).
Definition with_queue (q : TaskQueue) (m : Manager) : Manager := mkManager q (stop_ m) (tasks_ m) (callers m) (called m).

(** A processor looks at a routine that has yielded ([UpdateState]), or goes on with one that runs. *)
Definition work (i : nat) (m : Manager) : option Manager :=
  r ← tasks_ m !! i;
  let goto s u p := with_tasks (<[i := mkRoutine s u p]> (tasks_ m)) m in
  match rpc r with
  | RYielded =>
      let s := if negb (updated_ r) && waits (state_ r) then READY else state_ r in
      if bool_decide (s = READY) then Some (goto s true RLoop) else None
  | RLoop => Some (goto (state_ r) (updated_ r) (if stop_ m then REnd else RTake))
  | RTake => let '(t, q) := pop (queue m) in Some (with_queue q (goto (state_ r) (updated_ r) (match t with Some x => RRun x | None => RHangUp end)))
  | RHangUp => Some (goto DATA_WAIT (updated_ r) RYielded)
  | RRun _ => Some (goto (state_ r) (updated_ r) RLoop)
  | REnd => None
  end.

Definition call_step (k : nat) (m : Manager) : option Manager :=
  let goto c := with_callers (<[k := c]> (callers m)) m in
  c ← callers m !! k;
  match c with
  | KIdle => None
  | KStop x => Some (if stop_ m then with_queue (drop_task x (queue m)) (goto KIdle) else goto (KPush x))
  | KPush x => Some (with_queue (push x (queue m)) (goto (KNotify 0)))
  | KNotify j =>
      match tasks_ m !! j with
      | None => Some (goto KIdle)
      | Some r => Some (goto (if waits (state_ r) then KFlag j else KNotify (S j)))
      end
  | KFlag j => Some (with_tasks (alter (fun r => mkRoutine (state_ r) false (rpc r)) j (tasks_ m)) (goto (KNotify (S j))))
  end.

Inductive event := EvEnqueue (k x : nat) | EvCall (k : nat) | EvWork (i : nat) | EvShutdown.

Definition step (m : Manager) (e : event) : option Manager :=
  match e with
  | EvEnqueue k x =>
      match callers m !! k with
      | Some KIdle => Some (mkManager (queue m) (stop_ m) (tasks_ m) (<[k := KStop x]> (callers m)) (called m ++ [x]))
      | _ => None
      end
  | EvCall k => call_step k m
  | EvWork i => work i m
  | EvShutdown => Some (mkManager (queue m) true (tasks_ m) (callers m) (called m))
  end.

Fixpoint run (m : Manager) (l : list event) : option Manager := match l with [] => Some m | e :: l' => m1 ← step m e; run m1 l' end.

Definition asking (c : caller) : option nat := match c with KStop x | KPush x => Some x | _ => None end.

End TaskManager.

(** ** Every task once, and in order *)

Record tasks_ok (q : TaskQueue) (asking called : list nat) : Prop := {
  ok_order : in_order q;
  ok_all : accepted q ++ dropped q ++ asking ≡ₚ called;
}.

Lemma tasks_pop q l called : tasks_ok q l called -> tasks_ok (pop q).2 l called.
Proof. intros [H1 H2]. destruct (pop_in_order q H1) as (H3 & E1 & E2). split; [done|]. by rewrite E1, E2. Qed.

(** A caller puts its task into the queue, or gives it up. *)
Lemma tasks_given q q' x l l' called : tasks_ok q l called -> (l ≡ₚ x :: l') -> in_order q' /\ accepted q' ++ dropped q' ≡ₚ x :: accepted q ++ dropped q ->
  tasks_ok q' l' called.
Proof.
  intros [_ H] Hl [Hq Hp]. split; [done|]. rewrite (assoc_L (++)), Hp, <- H, Hl. cbn. by rewrite <- !Permutation_middle, (assoc_L (++)).
Qed.

Lemma tasks_asked q l l' x called : tasks_ok q l called -> l' ≡ₚ x :: l -> tasks_ok q l' (called ++ [x]).
Proof. intros [H1 H2] Hl. split; [done|]. rewrite Hl, (Permutation_app_comm called [x]); cbn. by rewrite <- H2, <- !Permutation_middle. Qed.

Lemma tasks_same q l l' called : tasks_ok q l called -> l' ≡ₚ l -> tasks_ok q l' called.
Proof. intros [H1 H2] Hl. split; [done|]. by rewrite Hl. Qed.

Lemma push_cap x q : cap (push x q) = cap q.
Proof. unfold push. by destruct (spec_enqueue _ _ _) as [[] ?]. Qed.

Lemma omap_idle {A B} (f : A -> option B) (a : A) k : f a = None -> omap f (replicate k a) = [].
Proof. intros H. induction k as [|k IH]; [done|]. cbn. by rewrite H. Qed.

(** *** The pool *)

Module ThreadPoolFacts.
Import ThreadPool.

Definition pool_ok (p : Pool) : Prop := tasks_ok (queue p) (omap asking (callers p)) (called p).

Lemma work_ok i p p' : pool_ok p -> work i p = Some p' -> pool_ok p'.
Proof.
  unfold pool_ok, work. intros H Hp. destruct (workers p !! i) as [w|]; cbn in Hp; [|done].
  destruct w; simplify_eq; cbn; try done. destruct (pop (queue p)) as [r q] eqn:E. simplify_eq; cbn.
  replace q with (pop (queue p)).2 by by rewrite E. by apply tasks_pop.
Qed.

Lemma call_ok k target p p' : pool_ok p -> call_step k target p = Some p' -> pool_ok p'.
Proof.
  unfold pool_ok, call_step. intros H Hp. destruct (callers p !! k) as [c|] eqn:Ec; cbn in Hp; [|done].
  destruct (omap_insert asking _ _ _ Ec) as (r & Hr & Hi). destruct c as [|x|x|].
  - done.
  - destruct (stop_ p); simplify_eq; cbn; [|by eapply tasks_same; [done|rewrite Hi, Hr]].
    eapply tasks_given; [done| |apply drop_in_order, H]. by rewrite Hr, Hi.
  - simplify_eq; cbn. eapply tasks_given; [done| |apply push_in_order, H]. rewrite Hr, Hi. by destruct (spec_enqueue _ _ _).1.
  - case_decide; [destruct (workers p !! target) as [[]|]; [done..| |done|done|done]|]; simplify_eq; cbn;
      (eapply tasks_same; [done|by rewrite Hi, Hr]).
Qed.

Lemma step_ok p e p' : pool_ok p -> step p e = Some p' -> pool_ok p'.
Proof.
  destruct e as [k x|k target|i|]; cbn; intros H Hp; [|by eapply call_ok|by eapply work_ok|by unfold destroy_step in Hp; destruct (destructor p); simplify_eq].
  destruct (callers p !! k) as [[]|] eqn:Ec; simplify_eq. destruct (omap_insert asking _ _ _ Ec) as (r & Hr & Hi).
  unfold pool_ok; cbn. eapply tasks_asked; [done|]. by rewrite Hi, Hr.
Qed.

Lemma run_ok l p p' : pool_ok p -> run p l = Some p' -> pool_ok p'.
Proof.
  revert p; induction l as [|e l IH]; intros p H Hp; cbn in Hp; simplify_eq; [done|].
  apply bind_Some in Hp as (p1 & H1 & Hp). eapply IH; [eapply step_ok|]; done.
Qed.

Lemma new_ok threads m k : pool_ok (pool_new threads m k).
Proof. split; [done|]. cbn. by rewrite omap_idle. Qed.

(** C0: [ThreadPool::Enqueue], its workers and its destructor, in any interleaving: what the workers have started, in the order they started,
    followed by what waits in the queue is what the queue has accepted, in its order; and the tasks of all the calls of [Enqueue] are, each
    once, the accepted, those given up because the pool had stopped or its queue was full, and those whose call is still on its way.  So no
    task starts twice, none overtakes another, and none is made up. *)
Theorem pool_tasks_once threads max_task_num k l p : run (pool_new threads max_task_num k) l = Some p ->
  started (queue p) ++ waiting (queue p) = accepted (queue p) /\
  accepted (queue p) ++ dropped (queue p) ++ omap asking (callers p) ≡ₚ called p.
Proof. intros H. by destruct (run_ok _ _ _ (new_ok _ _ _) H). Qed.

(** One worker, one caller: a task is run; the worker finds the queue empty, and is about to block when the next task comes. *)
Definition lost_notification : list event :=
  [EvEnqueue 0 7; EvCall 0 0; EvCall 0 0; EvWork 0; EvWork 0; EvWork 0; EvCall 0 0; EvWork 0;
   EvWork 0; EvWork 0; EvWork 0; EvEnqueue 0 8; EvCall 0 0; EvCall 0 0; EvCall 0 0; EvWork 0].

Definition asleep_with (p : Pool) : option (list nat * list nat * list worker * list caller) :=
  Some (started (queue p), waiting (queue p), workers p, callers p).

Lemma pool_tasks_once_witness :
  let p := default (pool_new 1 4 1) (run (pool_new 1 4 1) lost_notification) in
  run (pool_new 1 4 1) lost_notification = Some p /\ started (queue p) ++ waiting (queue p) = accepted (queue p).
Proof. split; [vm_compute; reflexivity|]. apply (pool_tasks_once 1 4 1 lost_notification). vm_compute. reflexivity. Defined.

(** The notification comes between the worker's look at the queue and its wait, and nobody keeps it: the task waits, the caller is done, and no
    worker can go on. *)
Theorem lost_notification_sleeps :
  (p ← run (pool_new 1 4 1) lost_notification; asleep_with p) = Some ([7%nat], [8%nat], [WSleep], [KIdle]) /\
  (p ← run (pool_new 1 4 1) lost_notification; work 0 p) = None.
Proof. by vm_compute. Qed.

(** The same with the destructor: [stop_], [break_all_wait_] and [notify_all] all come between the look and the wait, so the worker sleeps
    and [join] waits for it for ever. *)
Definition lost_stop : list event := [EvWork 0; EvWork 0; EvWork 0; EvDestroy; EvDestroy; EvDestroy; EvWork 0].

Theorem destructor_hangs : exists p, run (pool_new 1 4 1) lost_stop = Some p /\ stop_ p = true /\ destructor p = KJoin /\ workers p = [WSleep] /\
  forall e, e = EvDestroy \/ (exists i, e = EvWork i) \/ (exists k t, e = EvCall k t) -> step p e = None.
Proof.
  eexists. split; [vm_compute; reflexivity|]. split_and!; try done. intros e [->|[[i ->]|(k & t & ->)]]; [done| |]; cbn.
  - by destruct i as [|[|i]].
  - by destruct k as [|[|k]].
Qed.

(** A queue of one place: the second task is given up, and [Enqueue] does not say so. *)
Theorem full_pool_drops :
  (p ← run (pool_new 1 1 1) [EvEnqueue 0 7; EvCall 0 0; EvCall 0 0; EvCall 0 0; EvEnqueue 0 8; EvCall 0 0; EvCall 0 0]; Some (queue p, callers p))
  = Some (mkTasks 1 [7%nat] [7%nat] [8%nat] [], [KIdle]).
Proof. by vm_compute. Qed.

End ThreadPoolFacts.

(** *** The routines *)

Module TaskManagerFacts.
Import TaskManager.

Definition manager_ok (m : Manager) : Prop := tasks_ok (queue m) (omap asking (callers m)) (called m).

Lemma routine_ok i m m' : manager_ok m -> work i m = Some m' -> manager_ok m'.
Proof.
  unfold manager_ok, work. intros H Hm. destruct (tasks_ m !! i) as [r|]; cbn in Hm; [|done].
  destruct (rpc r); simplify_eq; cbn; try done; [|by case_bool_decide; simplify_eq].
  destruct (pop (queue m)) as [t q] eqn:E. simplify_eq; cbn. replace q with (pop (queue m)).2 by by rewrite E. by apply tasks_pop.
Qed.

Lemma asker_ok k m m' : manager_ok m -> call_step k m = Some m' -> manager_ok m'.
Proof.
  unfold manager_ok, call_step. intros H Hm. destruct (callers m !! k) as [c|] eqn:Ec; cbn in Hm; [|done].
  destruct (omap_insert asking _ _ _ Ec) as (r & Hr & Hi). destruct c as [|x|x|j|j].
  - done.
  - destruct (stop_ m); simplify_eq; cbn; [|by eapply tasks_same; [done|rewrite Hi, Hr]].
    eapply tasks_given; [done| |apply drop_in_order, H]. by rewrite Hr, Hi.
  - simplify_eq; cbn. eapply tasks_given; [done| |apply push_in_order, H]. by rewrite Hr, Hi.
  - destruct (tasks_ m !! j) as [t|]; [destruct (waits (state_ t))|]; simplify_eq; cbn; (eapply tasks_same; [done|by rewrite Hi, Hr]).
  - simplify_eq; cbn. eapply tasks_same; [done|]. by rewrite Hi, Hr.
Qed.

Lemma event_ok m e m' : manager_ok m -> step m e = Some m' -> manager_ok m'.
Proof.
  destruct e as [k x|k|i|]; cbn; intros H Hm; [|by eapply asker_ok|by eapply routine_ok|by simplify_eq].
  destruct (callers m !! k) as [[]|] eqn:Ec; simplify_eq. destruct (omap_insert asking _ _ _ Ec) as (r & Hr & Hi).
  unfold manager_ok; cbn. eapply tasks_asked; [done|]. by rewrite Hi, Hr.
Qed.

Lemma events_ok l m m' : manager_ok m -> run m l = Some m' -> manager_ok m'.
Proof.
  revert m; induction l as [|e l IH]; intros m H Hm; cbn in Hm; simplify_eq; [done|].
  apply bind_Some in Hm as (m1 & H1 & Hm). eapply IH; [eapply event_ok|]; done.
Qed.

(** C23: [TaskManager::Enqueue], [Shutdown] and the coroutines that take the tasks, in any interleaving: the tasks start in the order in which
    the queue accepted them, each once, and the tasks of all calls are, each once, those accepted, those given up (stopped, or no room) and
    those whose call is still on its way. *)
Theorem manager_tasks_once num_threads k l m : run (manager_new num_threads k) l = Some m ->
  started (queue m) ++ waiting (queue m) = accepted (queue m) /\
  accepted (queue m) ++ dropped (queue m) ++ omap asking (callers m) ≡ₚ called m.
Proof. intros H. apply (events_ok _ _ _) in H as [H1 H2]; [done|]. split; [done|]. cbn. by rewrite omap_idle. Qed.

(** A routine that has found nothing, and hangs up after the next task was put into the queue and announced. *)
Definition lost_wakeup : list event := [EvWork 0; EvWork 0; EvEnqueue 0 7; EvCall 0; EvCall 0; EvCall 0; EvCall 0; EvWork 0].

Lemma manager_tasks_once_witness :
  let m := default (manager_new 1 1) (run (manager_new 1 1) lost_wakeup) in
  run (manager_new 1 1) lost_wakeup = Some m /\ started (queue m) ++ waiting (queue m) = accepted (queue m).
Proof. split; [vm_compute; reflexivity|]. apply (manager_tasks_once 1 1 lost_wakeup). vm_compute. reflexivity. Defined.

(** The announcement sees a routine that is not waiting and does nothing; then the routine waits, with the task in the queue, and neither it nor
    the call of [Enqueue] has a step left. *)
Theorem wakeup_is_lost : exists m, run (manager_new 1 1) lost_wakeup = Some m /\ waiting (queue m) = [7%nat] /\ tasks_ m = [mkRoutine DATA_WAIT true RYielded] /\
  (forall i, work i m = None) /\ (forall k, call_step k m = None).
Proof.
  eexists. split; [vm_compute; reflexivity|]. split_and!; try done; [intros i; by destruct i as [|[|i]]|intros k; by destruct k as [|[|k]]].
Qed.

(** The next task announces to the waiting routine, which then does both. *)
Theorem next_task_wakes :
  (m ← run (manager_new 1 1) (lost_wakeup ++ [EvEnqueue 0 8; EvCall 0; EvCall 0; EvCall 0; EvCall 0; EvCall 0] ++ replicate 7 (EvWork 0)); Some (started (queue m), waiting (queue m)))
  = Some ([7%nat; 8%nat], []).
Proof. by vm_compute. Qed.

End TaskManagerFacts.
