(* ===== verification/Blocker.v ===== *)
(** * Blocker: messages inside one process

    Models [cyber/blocker/blocker.h], [blocker_manager.{h,cc}], [intra_reader.h] and [intra_writer.h]: for
    each channel a queue of published messages, a snapshot of it that the readers observe, and the callbacks
    of the subscribers.  Each operation of a blocker runs under its locks.

    Message types are numbers: a blocker made for one type is not found by users of another
    ([dynamic_pointer_cast]).  Messages are never changed once published, so a pointer to a message is
    the message.  A callback is the reader that it is bound to; what the users' callbacks received is a log. *)

From S2P Require Import Prelude.

Section blocker.
Context {T : Type}.

(** [published_callbacks_] maps an identifier to the reader that [OnMessage] is bound to. *)
Record Blocker := mkBlocker {
  type_of : nat;
  capacity_ : Z;
  observed_msg_queue_ : list T;
  published_msg_queue_ : list T;
  published_callbacks_ : gmap string nat;
}.

(** [BlockerAttr] without a capacity. *)
Definition default_capacity : Z := 10.

Definition blocker_new (ty : nat) (cap : Z) : Blocker := mkBlocker ty cap [] [] ∅.

Definition set_queues (obs pub : list T) (b : Blocker) : Blocker :=
  mkBlocker (type_of b) (capacity_ b) obs pub (published_callbacks_ b).
Definition set_callbacks (cbs : gmap string nat) (b : Blocker) : Blocker :=
  mkBlocker (type_of b) (capacity_ b) (observed_msg_queue_ b) (published_msg_queue_ b) cbs.

(** [while (size() > capacity) pop_back()]. *)
Fixpoint trim (fuel : nat) (cap : Z) (q : list T) : list T :=
  match fuel with
  | O => q
  | S fuel' => if cap <? Z.of_nat (length q) then trim fuel' cap (removelast q) else q
  end.

Definition Enqueue (msg : T) (b : Blocker) : Blocker :=
  if capacity_ b =? 0 then b
  else let q := msg :: published_msg_queue_ b in
       set_queues (observed_msg_queue_ b) (trim (length q) (capacity_ b) q) b.

(** [Notify]: the readers called, in the order of the table. *)
Definition Notify (b : Blocker) : list nat := (map_to_list (published_callbacks_ b)).*2.

Definition BPublish (msg : T) (b : Blocker) : list nat * Blocker :=
  let b1 := Enqueue msg b in (Notify b1, b1).

Definition BReset (b : Blocker) : Blocker := mkBlocker (type_of b) (capacity_ b) [] [] ∅.
Definition ClearObserved (b : Blocker) : Blocker := set_queues [] (published_msg_queue_ b) b.
Definition ClearPublished (b : Blocker) : Blocker := set_queues (observed_msg_queue_ b) [] b.
Definition BObserve (b : Blocker) : Blocker := set_queues (published_msg_queue_ b) (published_msg_queue_ b) b.
Definition IsObservedEmpty (b : Blocker) : bool := match observed_msg_queue_ b with [] => true | _ => false end.
Definition IsPublishedEmpty (b : Blocker) : bool := match published_msg_queue_ b with [] => true | _ => false end.

Definition BSubscribe (callback_id : string) (reader : nat) (b : Blocker) : bool * Blocker :=
  match published_callbacks_ b !! callback_id with
  | Some _ => (false, b)
  | None => (true, set_callbacks (<[callback_id := reader]> (published_callbacks_ b)) b)
  end.

Definition BUnsubscribe (callback_id : string) (b : Blocker) : bool * Blocker :=
  (bool_decide (is_Some (published_callbacks_ b !! callback_id)),
   set_callbacks (delete callback_id (published_callbacks_ b)) b).

Definition GetLatestObservedPtr (b : Blocker) : option T := head (observed_msg_queue_ b).
Definition GetOldestObservedPtr (b : Blocker) : option T := last (observed_msg_queue_ b).
Definition GetLatestPublishedPtr (b : Blocker) : option T := head (published_msg_queue_ b).

(** Iterators are positions in the observed queue. *)
Definition ObservedBegin (b : Blocker) : nat := 0.
Definition ObservedEnd (b : Blocker) : nat := length (observed_msg_queue_ b).

Definition set_capacity (cap : Z) (b : Blocker) : Blocker :=
  mkBlocker (type_of b) cap (observed_msg_queue_ b)
    (trim (length (published_msg_queue_ b)) cap (published_msg_queue_ b)) (published_callbacks_ b).

(** ** BlockerManager *)

Abbreviation Blockers := (gmap string Blocker).

Definition GetBlocker (ty : nat) (channel_name : string) (bs : Blockers) : option Blocker :=
  match bs !! channel_name with
  | Some b => if (type_of b =? ty)%nat then Some b else None
  | None => None
  end.

Definition GetOrCreateBlocker (ty : nat) (cap : Z) (channel_name : string) (bs : Blockers)
    : option Blocker * Blockers :=
  match bs !! channel_name with
  | Some b => (if (type_of b =? ty)%nat then Some b else None, bs)
  | None => let b := blocker_new ty cap in (Some b, <[channel_name := b]> bs)
  end.

Definition Publish (ty : nat) (channel_name : string) (msg : T) (bs : Blockers) : bool * list nat * Blockers :=
  match GetOrCreateBlocker ty default_capacity channel_name bs with
  | (None, bs1) => (false, [], bs1)
  | (Some b, bs1) => let '(called, b1) := BPublish msg b in (true, called, <[channel_name := b1]> bs1)
  end.

Definition Subscribe (ty : nat) (channel_name : string) (cap : Z) (callback_id : string) (reader : nat)
    (bs : Blockers) : bool * Blockers :=
  match GetOrCreateBlocker ty cap channel_name bs with
  | (None, bs1) => (false, bs1)
  | (Some b, bs1) => let '(ok, b1) := BSubscribe callback_id reader b in (ok, <[channel_name := b1]> bs1)
  end.

Definition Unsubscribe (ty : nat) (channel_name callback_id : string) (bs : Blockers) : bool * Blockers :=
  match GetBlocker ty channel_name bs with
  | None => (false, bs)
  | Some b => let '(ok, b1) := BUnsubscribe callback_id b in (ok, <[channel_name := b1]> bs)
  end.

Definition Observe (bs : Blockers) : Blockers := BObserve <$> bs.

(** The blockers are reset and dropped. *)
Definition Reset (bs : Blockers) : Blockers := ∅.

(** ** IntraReader and IntraWriter *)

(** The role attributes that are read, and the state. *)
Record IntraReader := mkReader {
  rd_type : nat;
  rd_channel : string;
  rd_depth : Z;
  rd_node : string;
  rd_init_ : bool;
  latest_recv_time_sec_ : Z;
  second_to_lastest_recv_time_sec_ : Z;
  msg_callback_ : bool;
}.

Record IntraWriter := mkWriter { wr_type : nat; wr_channel : string; wr_init_ : bool }.

(** [received]: what the users' callbacks got, reader and message. *)
Record world := mkW {
  blockers_ : Blockers;
  readers : gmap nat IntraReader;
  writers : gmap nat IntraWriter;
  received : list (nat * T);
}.

Definition with_blockers (bs : Blockers) (w : world) : world := mkW bs (readers w) (writers w) (received w).
Definition with_reader (r : nat) (rd : IntraReader) (w : world) : world :=
  mkW (blockers_ w) (<[r := rd]> (readers w)) (writers w) (received w).
Definition with_writer (i : nat) (wr : IntraWriter) (w : world) : world :=
  mkW (blockers_ w) (readers w) (<[i := wr]> (writers w)) (received w).

Definition set_init (b : bool) (rd : IntraReader) : IntraReader :=
  mkReader (rd_type rd) (rd_channel rd) (rd_depth rd) (rd_node rd) b (latest_recv_time_sec_ rd)
    (second_to_lastest_recv_time_sec_ rd) (msg_callback_ rd).

(** [Init()] of the reader at [r]; [init_] is set whether or not the subscription succeeds. *)
Definition ReaderInit (r : nat) (w : world) : bool * world :=
  match readers w !! r with
  | None => (false, w)
  | Some rd =>
      if rd_init_ rd then (true, w)
      else let '(ok, bs) := Subscribe (rd_type rd) (rd_channel rd) (rd_depth rd) (rd_node rd) r (blockers_ w) in
           (ok, with_blockers bs (with_reader r (set_init true rd) w))
  end.

Definition ReaderShutdown (r : nat) (w : world) : world :=
  match readers w !! r with
  | None => w
  | Some rd =>
      if negb (rd_init_ rd) then w
      else with_blockers (snd (Unsubscribe (rd_type rd) (rd_channel rd) (rd_node rd) (blockers_ w)))
             (with_reader r (set_init false rd) w)
  end.

(** [OnMessage] at time [now]. *)
Definition OnMessage (now : Z) (msg : T) (w : world) (r : nat) : world :=
  match readers w !! r with
  | None => w
  | Some rd =>
      mkW (blockers_ w)
        (<[r := mkReader (rd_type rd) (rd_channel rd) (rd_depth rd) (rd_node rd) (rd_init_ rd) now
                  (latest_recv_time_sec_ rd) (msg_callback_ rd)]> (readers w)) (writers w)
        (if msg_callback_ rd then received w ++ [(r, msg)] else received w)
  end.

(** Publishing, with the callbacks. *)
Definition publish_and_call (now : Z) (ty : nat) (channel_name : string) (msg : T) (w : world) : bool * world :=
  let '(ok, called, bs) := Publish ty channel_name msg (blockers_ w) in
  (ok, fold_left (OnMessage now msg) called (with_blockers bs w)).

(** [IntraReader::Enqueue]. *)
Definition ReaderEnqueue (now : Z) (r : nat) (msg : T) (w : world) : world :=
  match readers w !! r with
  | None => w
  | Some rd => snd (publish_and_call now (rd_type rd) (rd_channel rd) msg w)
  end.

Definition reader_blocker (rd : IntraReader) (w : world) : option Blocker :=
  GetBlocker (rd_type rd) (rd_channel rd) (blockers_ w).

Definition upd_blocker (f : Blocker -> Blocker) (rd : IntraReader) (w : world) : world :=
  match reader_blocker rd w with
  | Some b => with_blockers (<[rd_channel rd := f b]> (blockers_ w)) w
  | None => w
  end.

Definition ClearData (rd : IntraReader) (w : world) : world := upd_blocker (ClearPublished ∘ ClearObserved) rd w.
Definition ReaderObserve (rd : IntraReader) (w : world) : world := upd_blocker BObserve rd w.
Definition SetHistoryDepth (depth : Z) (rd : IntraReader) (w : world) : world := upd_blocker (set_capacity depth) rd w.

Definition ReaderEmpty (rd : IntraReader) (w : world) : bool :=
  match reader_blocker rd w with Some b => IsObservedEmpty b | None => true end.
Definition HasReceived (rd : IntraReader) (w : world) : bool :=
  match reader_blocker rd w with Some b => negb (IsPublishedEmpty b) | None => false end.
Definition GetHistoryDepth (rd : IntraReader) (w : world) : Z :=
  match reader_blocker rd w with Some b => wrap_u32 (capacity_ b) | None => 0 end.
Definition GetLatestObserved (rd : IntraReader) (w : world) : option T :=
  match reader_blocker rd w with Some b => GetLatestObservedPtr b | None => None end.
Definition GetOldestObserved (rd : IntraReader) (w : world) : option T :=
  match reader_blocker rd w with Some b => GetOldestObservedPtr b | None => None end.

(** [Begin()] and [End()]; [None] is the failing [ACHECK]. *)
Definition Begin (rd : IntraReader) (w : world) : option nat :=
  match reader_blocker rd w with Some b => Some (ObservedBegin b) | None => None end.
Definition End_ (rd : IntraReader) (w : world) : option nat :=
  match reader_blocker rd w with Some b => Some (ObservedBegin b) | None => None end.

(** What a loop from [Begin()] to [End()] visits. *)
Definition range (rd : IntraReader) (w : world) : option (list T) :=
  match reader_blocker rd w, Begin rd w, End_ rd w with
  | Some b, Some i, Some j => Some (take (j - i) (drop i (observed_msg_queue_ b)))
  | _, _, _ => None
  end.

Definition WriterInit (i : nat) (w : world) : bool * world :=
  match writers w !! i with
  | None => (false, w)
  | Some wr =>
      if wr_init_ wr then (true, w)
      else (true, with_blockers (snd (GetOrCreateBlocker (wr_type wr) default_capacity (wr_channel wr) (blockers_ w)))
                    (with_writer i (mkWriter (wr_type wr) (wr_channel wr) true) w))
  end.

Definition WriterShutdown (i : nat) (w : world) : world :=
  match writers w !! i with
  | None => w
  | Some wr => if negb (wr_init_ wr) then w else with_writer i (mkWriter (wr_type wr) (wr_channel wr) false) w
  end.

Definition Write (now : Z) (i : nat) (msg : T) (w : world) : bool * world :=
  match writers w !! i with
  | None => (false, w)
  | Some wr => if negb (wr_init_ wr) then (false, w) else publish_and_call now (wr_type wr) (wr_channel wr) msg w
  end.

End blocker.
Arguments Blocker : clear implicits.
Arguments world : clear implicits.

(** ** The history of a blocker *)

Section history.
Context {T : Type}.
Abbreviation Blocker := (Blocker T).

Inductive bop := OPublish (m : T) | OObserve | OClearObserved | OClearPublished | OSetCapacity (cap : Z)
  | OSubscribe (cb : string) (r : nat) | OUnsubscribe (cb : string).

Definition run_bop (b : Blocker) (o : bop) : Blocker :=
  match o with
  | OPublish m => snd (BPublish m b)
  | OObserve => BObserve b
  | OClearObserved => ClearObserved b
  | OClearPublished => ClearPublished b
  | OSetCapacity cap => set_capacity cap b
  | OSubscribe cb r => snd (BSubscribe cb r b)
  | OUnsubscribe cb => snd (BUnsubscribe cb b)
  end.

Definition run_bops (os : list bop) (b : Blocker) : Blocker := fold_left run_bop os b.

(** The messages published since the queue was last cleared, newest first. *)
Definition published_since (os : list bop) : list T :=
  fold_left (fun h o => match o with OPublish m => m :: h | OClearPublished => [] | _ => h end) os [].

Definition sizes_ok (o : bop) : Prop := match o with OSetCapacity cap => 0 <= cap | _ => True end.

Definition keeps_capacity (o : bop) : Prop := match o with OSetCapacity _ => False | _ => True end.

Lemma removelast_take {A} (q : list A) : removelast q = take (length q - 1) q.
Proof.
  induction q as [|x q IH]; [done|]. destruct q as [|y q]; [done|].
  change (removelast (x :: y :: q)) with (x :: removelast (y :: q)). rewrite IH. cbn [length].
  by replace (S (S (length q)) - 1)%nat with (S (S (length q) - 1))%nat by lia.
Qed.

Lemma trim_take {A} fuel cap (q : list A) :
  0 <= cap -> (length q <= fuel)%nat -> trim fuel cap q = take (Z.to_nat cap) q.
Proof.
  intros Hc. revert q. induction fuel as [|fuel IH]; intros q Hl; cbn [trim].
  - destruct q; [by rewrite take_nil|cbn in Hl; lia].
  - case_if; [|by rewrite take_ge by lia].
    rewrite IH; rewrite removelast_take; [|rewrite length_take; lia]. rewrite take_take. f_equal. lia.
Qed.

Lemma run_bops_snoc os o b : run_bops (os ++ [o]) b = run_bop (run_bops os b) o.
Proof. unfold run_bops. by rewrite fold_left_app. Qed.

Lemma published_since_snoc os o :
  published_since (os ++ [o]) =
  match o with OPublish m => m :: published_since os | OClearPublished => [] | _ => published_since os end.
Proof. unfold published_since. by rewrite fold_left_app. Qed.

(** What a run leaves in the queue. *)
Record history_inv (cap : Z) (os : list bop) (b : Blocker) : Prop := {
  hi_cap : 0 <= capacity_ b;
  hi_prefix : exists n, (n <= Z.to_nat (capacity_ b))%nat /\ published_msg_queue_ b = take n (published_since os);
  hi_fixed : Forall keeps_capacity os ->
    capacity_ b = cap /\ published_msg_queue_ b = take (Z.to_nat cap) (published_since os);
}.

Lemma enqueue_queue m (b : Blocker) :
  0 <= capacity_ b -> (length (published_msg_queue_ b) <= Z.to_nat (capacity_ b))%nat ->
  published_msg_queue_ (Enqueue m b) = take (Z.to_nat (capacity_ b)) (m :: published_msg_queue_ b) /\
  capacity_ (Enqueue m b) = capacity_ b.
Proof.
  intros H0 Hl. unfold Enqueue. case_if.
  - rewrite Heqb0 in *. split; [|done]. destruct (published_msg_queue_ b); [done|cbn in Hl; lia].
  - cbn [published_msg_queue_ set_queues capacity_]. by rewrite trim_take by lia.
Qed.

Lemma history_run ty cap os :
  0 <= cap -> Forall sizes_ok os -> history_inv cap os (run_bops os (blocker_new ty cap)).
Proof.
  intros Hc. induction os as [|o os IH] using rev_ind; intros Hs.
  { split; [done|by exists 0%nat; split; [lia|]|]. cbn. by rewrite take_nil. }
  apply Forall_app in Hs as [Hs [Ho _]%Forall_cons_1]. rewrite run_bops_snoc.
  destruct (IH Hs) as [I1 (n & Hn & I2) I3]. set (b := run_bops os (blocker_new ty cap)) in *.
  assert (Hlen : (length (published_msg_queue_ b) <= Z.to_nat (capacity_ b))%nat) by (rewrite I2, length_take; lia).
  assert (Hsame : forall b', published_msg_queue_ b' = published_msg_queue_ b -> capacity_ b' = capacity_ b ->
    published_since (os ++ [o]) = published_since os -> history_inv cap (os ++ [o]) b').
  { intros b' E1 E2 E3. split; rewrite ?E1, ?E2, ?E3; [done|by exists n|]. intros [H _]%Forall_app. by apply I3. }
  destruct o; try (apply Hsame; [|done|by rewrite published_since_snoc]); cbn [run_bop].
  - destruct (enqueue_queue m b I1 Hlen) as [E1 E2]. unfold BPublish. cbn [snd].
    split; rewrite ?E1, ?E2, ?published_since_snoc; [done| |].
    + exists (Nat.min (Z.to_nat (capacity_ b)) (S n)). split; [lia|]. rewrite I2.
      change (m :: take n (published_since os)) with (take (S n) (m :: published_since os)). by rewrite take_take.
    + intros [H _]%Forall_app. destruct (I3 H) as [-> ->]. split; [done|].
      destruct (Z.to_nat cap) as [|k]; [done|]. cbn. f_equal. rewrite take_take. f_equal. lia.
  - done.
  - done.
  - split; [done|exists 0%nat; split; [lia|by rewrite published_since_snoc]|].
    intros [H _]%Forall_app. rewrite published_since_snoc. destruct (I3 H) as [E _]. rewrite take_nil. by split.
  - cbn in Ho. split.
    + exact Ho.
    + exists (Nat.min (Z.to_nat cap0) n). cbn. split; [lia|]. rewrite trim_take by done.
      rewrite I2, take_take, published_since_snoc. done.
    + intros [_ H]%Forall_app. by apply Forall_cons_1 in H as [[] _].
  - apply Hsame; [| |by rewrite published_since_snoc]; unfold BSubscribe; by destruct (published_callbacks_ b !! cb).
  - done.
Qed.

(** Operations that leave the snapshot alone. *)
Definition keeps_observed (o : bop) : Prop :=
  match o with OObserve | OClearObserved => False | _ => True end.

Lemma observed_kept os b :
  Forall keeps_observed os -> observed_msg_queue_ (run_bops os b) = observed_msg_queue_ b.
Proof.
  induction os as [|o os IH] using rev_ind; intros H; [done|]. apply Forall_app in H as [H [Ho _]%Forall_cons_1].
  rewrite run_bops_snoc, <- (IH H). destruct o; try done; cbn [run_bop].
  - unfold BPublish, Enqueue. cbn. by case_if.
  - unfold BSubscribe. by destruct (published_callbacks_ _ !! cb).
Qed.

(** After any sequence of operations on a blocker its queue holds the newest messages published since it was
    last cleared, at most the capacity, and exactly as many as the capacity allows when it was never changed; and
    what is observed is the queue as it was at the last [Observe], whatever was published since. *)
Theorem blocker_history (ty : nat) (cap : Z) (os1 os2 : list bop)
    (Hcap : 0 <= cap) (Hsizes : Forall sizes_ok (os1 ++ OObserve :: os2)) (Hobs : Forall keeps_observed os2) :
  let b1 := run_bops os1 (blocker_new ty cap) in
  let b := run_bops (os1 ++ OObserve :: os2) (blocker_new ty cap) in
  observed_msg_queue_ b = published_msg_queue_ b1 /\
  (exists n, (n <= Z.to_nat (capacity_ b))%nat /\
     published_msg_queue_ b = take n (published_since (os1 ++ OObserve :: os2))) /\
  (Forall keeps_capacity (os1 ++ OObserve :: os2) ->
     published_msg_queue_ b = take (Z.to_nat cap) (published_since (os1 ++ OObserve :: os2))).
Proof.
  cbv zeta. split; [|split].
  - change (os1 ++ OObserve :: os2) with (os1 ++ [OObserve] ++ os2). rewrite app_assoc.
    unfold run_bops at 1. rewrite fold_left_app. fold (run_bops os2).
    change (fold_left run_bop os2 ?x) with (run_bops os2 x). rewrite observed_kept by done.
    fold (run_bops (os1 ++ [OObserve]) (blocker_new ty cap)). by rewrite run_bops_snoc.
  - by destruct (history_run ty cap _ Hcap Hsizes).
  - intros H. by destruct (history_run ty cap _ Hcap Hsizes) as [_ _ [_ ?]].
Qed.
End history.

Lemma blocker_history_witness :
  let b := run_bops [OPublish 1%nat; OPublish 2%nat; OPublish 3%nat; OObserve; OPublish 4%nat] (blocker_new 0 2) in
  observed_msg_queue_ b = [3%nat; 2%nat] /\ published_msg_queue_ b = [4%nat; 3%nat].
Proof.
  destruct (blocker_history 0 2 [OPublish 1%nat; OPublish 2%nat; OPublish 3%nat] [OPublish 4%nat]
              ltac:(lia) ltac:(by repeat constructor) ltac:(by repeat constructor)) as (H1 & _ & H3).
  cbv zeta. split; [exact H1|]. apply H3. by repeat constructor.
Defined.
