(* ===== verification/IntraDelivery.v ===== *)
(** * IntraDelivery: what readers inside the process receive

    Sequences of the operations of [IntraReader], [IntraWriter] and [BlockerManager]: a subscribed reader receives
    every message written to its channel, once and in order; and what goes wrong when a node has two readers of
    one channel. *)

From S2P Require Import Prelude Blocker.

Section delivery.
Context {T : Type}.
Abbreviation world := (world T).

Inductive wop :=
| WInitReader (r : nat)
| WShutdownReader (r : nat)
| WEnqueue (now : Z) (r : nat) (m : T)
| WObserve (r : nat)
| WClearData (r : nat)
| WSetDepth (r : nat) (depth : Z)
| WInitWriter (i : nat)
| WShutdownWriter (i : nat)
| WWrite (now : Z) (i : nat) (m : T)
| WObserveAll.

Definition on_reader (f : IntraReader -> world -> world) (r : nat) (w : world) : world :=
  match readers w !! r with Some rd => f rd w | None => w end.

Definition run_wop (w : world) (o : wop) : world :=
  match o with
  | WInitReader r => snd (ReaderInit r w)
  | WShutdownReader r => ReaderShutdown r w
  | WEnqueue now r m => ReaderEnqueue now r m w
  | WObserve r => on_reader ReaderObserve r w
  | WClearData r => on_reader ClearData r w
  | WSetDepth r d => on_reader (SetHistoryDepth d) r w
  | WInitWriter i => snd (WriterInit i w)
  | WShutdownWriter i => WriterShutdown i w
  | WWrite now i m => snd (Write now i m w)
  | WObserveAll => with_blockers (Observe (blockers_ w)) w
  end.

Definition run_wops (os : list wop) (w : world) : world := fold_left run_wop os w.

(** What of a reader never changes. *)
Definition attrs (rd : IntraReader) : nat * string * string * bool :=
  (rd_type rd, rd_channel rd, rd_node rd, msg_callback_ rd).
Definition attr_at (w : world) (r : nat) : option (nat * string * string * bool) := attrs <$> readers w !! r.

(** A callback in a blocker is that of a reader of its type and channel, under the reader's node. *)
Definition bound (w : world) : Prop :=
  forall ch b key r, blockers_ w !! ch = Some b -> published_callbacks_ b !! key = Some r ->
    exists c, attr_at w r = Some (type_of b, ch, key, c).

(** The reader [r] of this type, channel and node is called. *)
Definition subscribed (ty : nat) (ch node : string) (r : nat) (w : world) : Prop :=
  exists b, blockers_ w !! ch = Some b /\ type_of b = ty /\ published_callbacks_ b !! node = Some r.

(** The message that an operation publishes on a channel with a type. *)
Definition sent (ty : nat) (ch : string) (w : world) (o : wop) : list T :=
  match o with
  | WEnqueue _ r m =>
      match readers w !! r with
      | Some rd => if bool_decide (rd_channel rd = ch /\ rd_type rd = ty) then [m] else []
      | None => []
      end
  | WWrite _ i m =>
      match writers w !! i with
      | Some wr => if wr_init_ wr && bool_decide (wr_channel wr = ch /\ wr_type wr = ty) then [m] else []
      | None => []
      end
  | _ => []
  end.

Fixpoint sent_all (ty : nat) (ch : string) (w : world) (os : list wop) : list T :=
  match os with
  | [] => []
  | o :: os' => sent ty ch w o ++ sent_all ty ch (run_wop w o) os'
  end.

Definition received_by (r : nat) (w : world) : list T := (filter (fun e => e.1 = r) (received w)).*2.

(** No reader of this channel and node is shut down. *)
Definition undisturbed (w : world) (ch node : string) (o : wop) : Prop :=
  match o with
  | WShutdownReader r => forall ty c, attr_at w r <> Some (ty, ch, node, c)
  | _ => True
  end.

(** ** The callbacks of a publication *)

Lemma on_message_fold now m (called : list nat) w r ty ch node :
  NoDup called -> attr_at w r = Some (ty, ch, node, true) ->
  let w' := fold_left (OnMessage now m) called w in
  blockers_ w' = blockers_ w /\ (forall q, attr_at w' q = attr_at w q) /\
  received_by r w' = received_by r w ++ (if bool_decide (r ∈ called) then [m] else []).
Proof.
  intros Hnd. revert w. induction Hnd as [|q called Hq Hnd IH]; intros w Hr; cbn [fold_left].
  { rewrite bool_decide_eq_false_2 by (intros H; by apply elem_of_nil in H). by rewrite app_nil_r. }
  assert (Hstep : blockers_ (OnMessage now m w q) = blockers_ w /\
    (forall q', attr_at (OnMessage now m w q) q' = attr_at w q') /\
    received_by r (OnMessage now m w q) = received_by r w ++ (if decide (r = q) then [m] else [])).
  { unfold OnMessage. destruct (readers w !! q) as [rd|] eqn:Hrd.
    - cbn [blockers_]. split; [done|]. split.
      + intros q'. unfold attr_at. cbn [readers]. destruct (decide (q' = q)) as [->|Hne].
        * by rewrite lookup_insert_eq, Hrd.
        * by rewrite lookup_insert_ne.
      + unfold received_by. cbn [received]. destruct (decide (r = q)) as [->|Hne].
        * unfold attr_at in Hr. rewrite Hrd in Hr. injection Hr as _ _ _ ->.
          rewrite filter_app, fmap_app, filter_cons, decide_True by done. done.
        * rewrite app_nil_r. destruct (msg_callback_ rd); [|done].
          rewrite filter_app, fmap_app, filter_cons, decide_False by (cbn; congruence). cbn. by rewrite app_nil_r.
    - split; [done|]. split; [done|]. rewrite decide_False; [by rewrite app_nil_r|].
      intros ->. unfold attr_at in Hr. by rewrite Hrd in Hr. }
  destruct Hstep as (S1 & S2 & S3). destruct (IH (OnMessage now m w q)) as (I1 & I2 & I3); [by rewrite S2|].
  rewrite I1, I3, S1, S3. split; [done|]. split; [intros; by rewrite I2, S2|].
  rewrite <- app_assoc. f_equal. destruct (decide (r = q)) as [->|Hne].
  - rewrite bool_decide_eq_false_2, bool_decide_eq_true_2 by set_solver. done.
  - by rewrite (bool_decide_ext (r ∈ q :: called) (r ∈ called)) by set_solver.
Qed.

(** In a bound world no reader is called twice. *)
Lemma called_nodup w ch b :
  bound w -> blockers_ w !! ch = Some b -> NoDup (Notify b).
Proof.
  intros Hb Hch. unfold Notify. apply NoDup_fmap_2_strong; [|apply NoDup_map_to_list].
  intros [k1 r1] [k2 r2] H1 H2. cbn. intros <-. apply elem_of_map_to_list in H1, H2.
  destruct (Hb _ _ _ _ Hch H1) as [c1 E1]. destruct (Hb _ _ _ _ Hch H2) as [c2 E2]. congruence.
Qed.

Lemma called_elem (b : Blocker T) r : r ∈ Notify b <-> exists key, published_callbacks_ b !! key = Some r.
Proof.
  unfold Notify. rewrite list_elem_of_fmap. split.
  - intros ([k r'] & -> & H%elem_of_map_to_list). eauto.
  - intros [k H]. exists (k, r). split; [done|]. by apply elem_of_map_to_list.
Qed.

(** ** Changing one blocker *)

(** The blocker of a channel after a change keeps its type, and has only callbacks that it had or that are bound. *)
Lemma bound_insert w ch b' :
  bound w ->
  (forall key r, published_callbacks_ b' !! key = Some r -> exists c, attr_at w r = Some (type_of b', ch, key, c)) ->
  bound (with_blockers (<[ch := b']> (blockers_ w)) w).
Proof.
  intros Hb H ch1 b1 key r. cbn [blockers_ with_blockers]. destruct (decide (ch1 = ch)) as [->|Hne].
  - rewrite lookup_insert_eq. intros [= <-] Hk. by apply H.
  - rewrite lookup_insert_ne by done. intros H1 H2. by apply (Hb ch1 b1).
Qed.

Lemma bound_same_callbacks w ch b b' :
  bound w -> blockers_ w !! ch = Some b -> type_of b' = type_of b ->
  published_callbacks_ b' ⊆ published_callbacks_ b ->
  bound (with_blockers (<[ch := b']> (blockers_ w)) w).
Proof.
  intros Hb Hch Ht Hsub. apply bound_insert; [done|]. intros key r Hk. rewrite Ht.
  apply (Hb ch b); [done|]. by eapply lookup_weaken.
Qed.

Lemma subscribed_insert w ch b' ty ch1 node r :
  subscribed ty ch1 node r w ->
  (ch1 = ch -> type_of b' = ty /\ published_callbacks_ b' !! node = Some r) ->
  subscribed ty ch1 node r (with_blockers (<[ch := b']> (blockers_ w)) w).
Proof.
  intros (b & H1 & H2 & H3) H. unfold subscribed. cbn [blockers_ with_blockers].
  destruct (decide (ch1 = ch)) as [->|Hne].
  - exists b'. rewrite lookup_insert_eq. destruct (H eq_refl). done.
  - exists b. by rewrite lookup_insert_ne.
Qed.

(** What an operation has to do with a subscribed reader. *)
Record follows (ty : nat) (ch node : string) (r : nat) (w w' : world) (l : list T) : Prop := {
  fo_bound : bound w';
  fo_subscribed : subscribed ty ch node r w';
  fo_attrs : forall q, attr_at w' q = attr_at w q;
  fo_received : received_by r w' = received_by r w ++ l;
}.

Section reader.
Context (ty : nat) (ch node : string) (r : nat).

(** Operations that only touch blockers. *)
Lemma follows_blocker w ch1 b b' :
  bound w -> subscribed ty ch node r w -> blockers_ w !! ch1 = Some b -> type_of b' = type_of b ->
  published_callbacks_ b' ⊆ published_callbacks_ b ->
  (ch1 = ch -> published_callbacks_ b' !! node = published_callbacks_ b !! node) ->
  follows ty ch node r w (with_blockers (<[ch1 := b']> (blockers_ w)) w) [].
Proof.
  intros Hb Hs H1 Ht Hsub Hn. split.
  - by eapply bound_same_callbacks.
  - apply subscribed_insert; [done|]. intros E. destruct Hs as (b0 & E1 & E2 & E3).
    rewrite E, H1 in E1. injection E1 as <-. rewrite Ht, Hn by done. done.
  - done.
  - by rewrite app_nil_r.
Qed.

Lemma follows_refl w : bound w -> subscribed ty ch node r w -> follows ty ch node r w w [].
Proof. intros. split; try done. by rewrite app_nil_r. Qed.

Lemma follows_trans w1 w2 w3 l1 l2 :
  follows ty ch node r w1 w2 l1 -> follows ty ch node r w2 w3 l2 -> follows ty ch node r w1 w3 (l1 ++ l2).
Proof.
  intros [A1 A2 A3 A4] [B1 B2 B3 B4]. split; [done|done|intros; by rewrite B3|]. by rewrite B4, A4, app_assoc.
Qed.

Lemma enqueue_fields (m : T) b :
  type_of (Enqueue m b) = type_of b /\ published_callbacks_ (Enqueue m b) = published_callbacks_ b.
Proof. unfold Enqueue. by case_if. Qed.

(** A blocker that is not there yet. *)
Lemma follows_create w ch1 ty1 cap :
  bound w -> subscribed ty ch node r w -> blockers_ w !! ch1 = None ->
  follows ty ch node r w (with_blockers (<[ch1 := blocker_new ty1 cap]> (blockers_ w)) w) [].
Proof.
  intros Hb Hs H1. split; [|apply subscribed_insert; [done|]|done|by rewrite app_nil_r].
  - apply bound_insert; [done|]. intros key q Hk. cbn in Hk. by rewrite lookup_empty in Hk.
  - intros ->. destruct Hs as (b & Hb1 & _). congruence.
Qed.

Lemma with_blockers_id (w : world) : with_blockers (blockers_ w) w = w.
Proof. by destruct w. Qed.

(** Publishing with a type on a channel. *)
Lemma follows_publish now ty1 ch1 m w :
  bound w -> subscribed ty ch node r w -> attr_at w r = Some (ty, ch, node, true) ->
  follows ty ch node r w (snd (publish_and_call now ty1 ch1 m w))
    (if bool_decide (ch1 = ch /\ ty1 = ty) then [m] else []).
Proof.
  intros Hb Hs Hr. unfold publish_and_call, Publish, GetOrCreateBlocker.
  destruct (blockers_ w !! ch1) as [b|] eqn:H1.
  - destruct (Nat.eqb_spec (type_of b) ty1) as [Ht|Ht]; cbn [BPublish snd].
    + destruct (enqueue_fields m b) as [E1 E2].
      set (w1 := with_blockers (<[ch1 := Enqueue m b]> (blockers_ w)) w).
      assert (F1 : follows ty ch node r w w1 []).
      { apply (follows_blocker w ch1 b); rewrite ?E2; done. }
      destruct F1 as [B1 S1 A1 R1].
      assert (Hn : NoDup (Notify (Enqueue m b))).
      { apply (called_nodup w1 ch1); [done|]. apply lookup_insert_eq. }
      destruct (on_message_fold now m (Notify (Enqueue m b)) w1 r ty ch node Hn Hr) as (M1 & M2 & M3).
      split.
      * intros c0 b0 key q. rewrite M1, M2. apply B1.
      * destruct S1 as (b0 & ? & ? & ?). exists b0. by rewrite M1.
      * intros q. by rewrite M2.
      * rewrite M3. f_equal. rewrite (bool_decide_ext _ (ch1 = ch /\ ty1 = ty)); [done|].
        rewrite called_elem, E2. destruct Hs as (b0 & Hb0 & Ht0 & Hk0). split.
        -- intros [key Hk]. destruct (Hb _ _ _ _ H1 Hk) as [c Hc]. rewrite Hr in Hc. injection Hc as -> -> _ _. done.
        -- intros [-> ->]. exists node. replace b with b0 by congruence. done.
    + cbn [fold_left]. rewrite with_blockers_id, bool_decide_eq_false_2; [by apply follows_refl|]. intros [-> ->].
      destruct Hs as (b0 & Hb0 & Ht0 & _). congruence.
  - cbn [BPublish snd]. rewrite bool_decide_eq_false_2.
    2:{ intros [-> _]. destruct Hs as (b0 & Hb0 & _). congruence. }
    pose proof (enqueue_fields m (blocker_new ty1 default_capacity)) as [E1 E2].
    unfold Notify. rewrite E2. cbn. rewrite map_to_list_empty. cbn. rewrite insert_insert_eq.
    pose proof (follows_create w ch1 ty1 default_capacity Hb Hs H1) as [B1 S1 A1 R1].
    split; [|apply subscribed_insert; [done|]|done|by rewrite app_nil_r].
    + apply bound_insert; [done|]. intros key q Hk. cbn in Hk. by rewrite lookup_empty in Hk.
    + intros ->. destruct Hs as (b0 & Hb0 & _). congruence.
Qed.

Lemma follows_reader w q rd rd' :
  bound w -> subscribed ty ch node r w -> readers w !! q = Some rd -> attrs rd' = attrs rd ->
  follows ty ch node r w (with_reader q rd' w) [].
Proof.
  intros Hb Hs Hq Ha.
  assert (Hat : forall p, attr_at (with_reader q rd' w) p = attr_at w p).
  { intros p. unfold attr_at. cbn. destruct (decide (p = q)) as [->|Hne].
    - rewrite lookup_insert_eq, Hq. cbn. congruence.
    - by rewrite lookup_insert_ne. }
  split; [|done|done|by rewrite app_nil_r].
  intros c b key p. rewrite Hat. apply Hb.
Qed.

Lemma follows_writer w i wr :
  bound w -> subscribed ty ch node r w -> follows ty ch node r w (with_writer i wr w) [].
Proof. intros Hb Hs. split; [exact Hb|done|done|by rewrite app_nil_r]. Qed.

Lemma follows_subscribe w ty1 ch1 cap key q c :
  bound w -> subscribed ty ch node r w -> attr_at w q = Some (ty1, ch1, key, c) ->
  follows ty ch node r w (with_blockers (snd (Subscribe ty1 ch1 cap key q (blockers_ w))) w) [].
Proof.
  intros Hb Hs Hq. unfold Subscribe, GetOrCreateBlocker.
  destruct (blockers_ w !! ch1) as [b|] eqn:H1.
  - destruct (Nat.eqb_spec (type_of b) ty1) as [Ht|Ht]; [|cbn; rewrite with_blockers_id; by apply follows_refl].
    unfold BSubscribe. destruct (published_callbacks_ b !! key) as [q0|] eqn:Hk; cbn [snd].
    + by apply (follows_blocker w ch1 b).
    + split; [|apply subscribed_insert; [done|]|done|by rewrite app_nil_r].
      * apply bound_insert; [done|]. intros k p. cbn. rewrite lookup_insert. case_decide as E.
        -- intros [= <-]. subst k. rewrite Hq. exists c. congruence.
        -- intros Hp. by apply (Hb ch1 b).
      * intros ->. destruct Hs as (b0 & Hb0 & Ht0 & Hk0). replace b0 with b in * by congruence. split; [done|].
        cbn. rewrite lookup_insert_ne; [done|]. congruence.
  - unfold BSubscribe, blocker_new. cbn [published_callbacks_]. rewrite lookup_empty. cbn [snd]. rewrite insert_insert_eq.
    split; [|apply subscribed_insert; [done|]|done|by rewrite app_nil_r].
    + apply bound_insert; [done|]. intros k p. cbn. rewrite lookup_insert. case_decide as E.
      * intros [= <-]. subst k. rewrite Hq. by exists c.
      * by rewrite lookup_empty.
    + intros ->. destruct Hs as (b0 & Hb0 & _). congruence.
Qed.

Lemma follows_unsubscribe w ty1 ch1 key :
  bound w -> subscribed ty ch node r w -> (ty1, ch1, key) <> (ty, ch, node) ->
  follows ty ch node r w (with_blockers (snd (Unsubscribe ty1 ch1 key (blockers_ w))) w) [].
Proof.
  intros Hb Hs Hne. unfold Unsubscribe, GetBlocker.
  destruct (blockers_ w !! ch1) as [b|] eqn:H1; [|cbn; rewrite with_blockers_id; by apply follows_refl].
  destruct (Nat.eqb_spec (type_of b) ty1) as [Ht|Ht]; [|cbn; rewrite with_blockers_id; by apply follows_refl].
  cbn [BUnsubscribe snd]. apply (follows_blocker w ch1 b); try done; cbn.
  - apply delete_subseteq.
  - intros ->. apply lookup_delete_ne. intros ->. apply Hne. destruct Hs as (b0 & Hb0 & Ht0 & _).
    replace b0 with b in * by congruence. congruence.
Qed.

Lemma follows_upd w f rd :
  bound w -> subscribed ty ch node r w ->
  (forall b, type_of (f b) = type_of b /\ published_callbacks_ (f b) = published_callbacks_ b) ->
  follows ty ch node r w (upd_blocker f rd w) [].
Proof.
  intros Hb Hs Hf. unfold upd_blocker, reader_blocker, GetBlocker.
  destruct (blockers_ w !! rd_channel rd) as [b|] eqn:H1; [|by apply follows_refl].
  destruct (type_of b =? rd_type rd)%nat; [|by apply follows_refl].
  destruct (Hf b) as [E1 E2]. apply (follows_blocker w (rd_channel rd) b); rewrite ?E2; done.
Qed.

Lemma follows_step w o :
  bound w -> subscribed ty ch node r w -> attr_at w r = Some (ty, ch, node, true) -> undisturbed w ch node o ->
  follows ty ch node r w (run_wop w o) (sent ty ch w o).
Proof.
  intros Hb Hs Hr Hu. destruct o as [q|q|now q m|q|q|q d|i|i|now i m|]; cbn [run_wop sent].
  - unfold ReaderInit. destruct (readers w !! q) as [rd|] eqn:Hq; [|by apply follows_refl].
    destruct (rd_init_ rd); [by apply follows_refl|].
    destruct (follows_reader w q rd (set_init true rd) Hb Hs Hq eq_refl) as [B S A R].
    assert (Hat : attr_at (with_reader q (set_init true rd) w) q = Some (rd_type rd, rd_channel rd, rd_node rd, msg_callback_ rd)).
    { rewrite A. unfold attr_at. by rewrite Hq. }
    pose proof (follows_subscribe _ _ _ (rd_depth rd) _ _ _ B S Hat) as F.
    destruct (Subscribe (rd_type rd) (rd_channel rd) (rd_depth rd) (rd_node rd) q (blockers_ w)) as [ok bs] eqn:E.
    cbn [blockers_ with_reader] in F. rewrite E in F. apply (follows_trans w (with_reader q (set_init true rd) w) _ [] []); done.
  - unfold ReaderShutdown. destruct (readers w !! q) as [rd|] eqn:Hq; [|by apply follows_refl].
    destruct (rd_init_ rd); [cbn [negb]|by apply follows_refl].
    destruct (follows_reader w q rd (set_init false rd) Hb Hs Hq eq_refl) as [B S A R].
    apply (follows_trans w (with_reader q (set_init false rd) w) _ [] []); [done|].
    apply (follows_unsubscribe (with_reader q (set_init false rd) w)); [done|done|].
    intros [= E1 E2 E3]. apply (Hu (rd_type rd) (msg_callback_ rd)). unfold attr_at. rewrite Hq. cbn. unfold attrs. congruence.
  - unfold ReaderEnqueue. destruct (readers w !! q) as [rd|] eqn:Hq; [|by apply follows_refl]. by apply follows_publish.
  - unfold on_reader. destruct (readers w !! q); [|by apply follows_refl]. by apply follows_upd.
  - unfold on_reader. destruct (readers w !! q); [|by apply follows_refl]. by apply follows_upd.
  - unfold on_reader. destruct (readers w !! q); [|by apply follows_refl]. by apply follows_upd.
  - unfold WriterInit. destruct (writers w !! i) as [wr|]; [|by apply follows_refl].
    destruct (wr_init_ wr); [by apply follows_refl|]. cbn [snd].
    destruct (follows_writer w i (mkWriter (wr_type wr) (wr_channel wr) true) Hb Hs) as [B S A R].
    apply (follows_trans w (with_writer i (mkWriter (wr_type wr) (wr_channel wr) true) w) _ [] []); [done|].
    unfold GetOrCreateBlocker. destruct (blockers_ w !! wr_channel wr) as [b|] eqn:E.
    + cbn [snd]. by apply follows_refl.
    + exact (follows_create _ _ _ _ B S E).
  - unfold WriterShutdown. destruct (writers w !! i) as [wr|]; [|by apply follows_refl].
    destruct (wr_init_ wr); [by apply follows_writer|by apply follows_refl].
  - unfold Write. destruct (writers w !! i) as [wr|]; [|by apply follows_refl].
    destruct (wr_init_ wr); [|by apply follows_refl]. by apply follows_publish.
  - split; [| |done|by rewrite app_nil_r].
    + intros c b key q. cbn. unfold Observe. rewrite lookup_fmap.
      destruct (blockers_ w !! c) as [b0|] eqn:E; [|done]. intros [= <-]. cbn. by apply (Hb c b0).
    + destruct Hs as (b & H1 & H2 & H3). exists (BObserve b). cbn. unfold Observe. by rewrite lookup_fmap, H1.
Qed.

Lemma follows_run w os :
  bound w -> subscribed ty ch node r w -> attr_at w r = Some (ty, ch, node, true) ->
  Forall (undisturbed w ch node) os ->
  follows ty ch node r w (run_wops os w) (sent_all ty ch w os).
Proof.
  intros Hb Hs Hr Hu. revert w Hb Hs Hr Hu. induction os as [|o os IH]; intros w Hb Hs Hr Hu; [by apply follows_refl|].
  apply Forall_cons_1 in Hu as [Ho Hu]. pose proof (follows_step w o Hb Hs Hr Ho) as F. cbn [sent_all run_wops fold_left].
  eapply follows_trans; [exact F|]. destruct F as [B S A R]. apply IH; [done|done|by rewrite A|].
  eapply Forall_impl; [exact Hu|]. intros [] H; try done. cbn in *. intros. rewrite A. apply H.
Qed.
End reader.

(** A reader that is subscribed receives, in order and once each, exactly the messages that writers of its type
    publish on its channel, whatever is done with other readers and writers, observing and histories, as long as no
    reader of the same channel and node is shut down. *)
Theorem intra_delivers (w : world) (os : list wop) (ty : nat) (ch node : string) (r : nat)
    (Hbound : bound w) (Hsub : subscribed ty ch node r w) (Hr : attr_at w r = Some (ty, ch, node, true))
    (Hu : Forall (undisturbed w ch node) os) :
  received_by r (run_wops os w) = received_by r w ++ sent_all ty ch w os /\
  subscribed ty ch node r (run_wops os w).
Proof. by destruct (follows_run ty ch node r w os Hbound Hsub Hr Hu). Qed.

(** Once the callback of the node is gone, no publication reaches the reader. *)
Lemma silent_publish now ty ch m w r :
  (forall b key, blockers_ w !! ch = Some b -> published_callbacks_ b !! key <> Some r) ->
  received_by r (snd (publish_and_call now ty ch m w)) = received_by r w.
Proof.
  intros Hn. unfold publish_and_call, Publish, GetOrCreateBlocker.
  assert (Hfold : forall l x, r ∉ l -> received_by r (fold_left (OnMessage now m) l x) = received_by r x).
  { induction l as [|q l IH]; intros x Hq; [done|]. cbn. rewrite IH by set_solver. unfold OnMessage.
    destruct (readers x !! q) as [rd|]; [|done]. unfold received_by. cbn. destruct (msg_callback_ rd); [|done].
    rewrite filter_app, fmap_app, filter_cons, decide_False by (cbn; set_solver). cbn. by rewrite app_nil_r. }
  destruct (blockers_ w !! ch) as [b|] eqn:H1.
  - destruct (type_of b =? ty)%nat; cbn; [|done]. rewrite Hfold; [done|]. rewrite called_elem.
    destruct (enqueue_fields m b) as [_ E2]. rewrite E2. intros [key Hk]. by eapply Hn.
  - cbn. rewrite Hfold; [done|]. rewrite called_elem. intros [key Hk]. cbn in Hk. by rewrite lookup_empty in Hk.
Qed.

(** A second reader of the same channel in the same node is refused its subscription but counts as
    initialised; shutting it down removes the subscription of the first, which then receives nothing more. *)
Theorem second_reader_silences_first (w : world) (ty : nat) (ch node : string) (r1 r2 : nat) (rd2 : IntraReader)
    (Hbound : bound w) (H1 : subscribed ty ch node r1 w) (H2 : readers w !! r2 = Some rd2)
    (Ha : (rd_type rd2, rd_channel rd2, rd_node rd2) = (ty, ch, node)) (Hi : rd_init_ rd2 = false) :
  let '(ok, w1) := ReaderInit r2 w in
  let w2 := ReaderShutdown r2 w1 in
  ok = false /\ rd_init_ <$> readers w1 !! r2 = Some true /\
  forall now m, received_by r1 (snd (publish_and_call now ty ch m w2)) = received_by r1 w2.
Proof.
  destruct H1 as (b & Hb & Ht & Hk). injection Ha as E1 E2 E3.
  unfold ReaderInit, Subscribe, GetOrCreateBlocker. rewrite H2, Hi, E1, E2, E3, Hb, Ht, Nat.eqb_refl. unfold BSubscribe. rewrite Hk.
  cbn [snd]. split; [done|]. cbn [readers with_blockers with_reader]. rewrite lookup_insert_eq. split; [done|].
  intros now m. apply silent_publish. intros b2 key. unfold ReaderShutdown. cbn [readers with_blockers with_reader].
  rewrite lookup_insert_eq. cbn [rd_init_ set_init negb rd_type rd_channel rd_node blockers_ with_blockers].
  rewrite E1, E2, E3. unfold Unsubscribe, GetBlocker. rewrite lookup_insert_eq, Ht, Nat.eqb_refl.
  unfold BUnsubscribe. cbn [snd]. rewrite lookup_insert_eq. intros [= <-]. cbn. rewrite lookup_delete. case_decide as Hd; [done|].
  intros Hk'. destruct (Hbound _ _ _ _ Hb Hk) as [c1 A1]. destruct (Hbound _ _ _ _ Hb Hk') as [c2 A2]. congruence.
Qed.

(** A loop from [Begin()] to [End()] of a reader never visits a message, whatever is observed. *)
Theorem reader_range_empty (rd : IntraReader) (w : world) (l : list T) (Hl : range rd w = Some l) : l = [].
Proof.
  unfold range, Begin, End_ in Hl. destruct (reader_blocker rd w); [|done]. by injection Hl as <-.
Qed.
End delivery.

(** A writer, a reader of node "a" with its subscription, and a second one of the same node. *)
Definition demo_reader : IntraReader := mkReader 0 "chatter" 4 "a" false 0 0 true.

Definition demo_intra : world nat :=
  run_wops [WInitWriter 0; WInitReader 0]
    (mkW ∅ (<[0%nat := demo_reader]> (<[1%nat := demo_reader]> ∅)) (<[0%nat := mkWriter 0 "chatter" false]> ∅) []).

Lemma demo_bound : bound demo_intra.
Proof.
  intros ch b key r Hb Hk.
  change (blockers_ demo_intra) with
    (<["chatter" := mkBlocker (T := nat) 0 10 [] [] (<["a" := 0%nat]> ∅)]> (∅ : gmap string (Blocker nat))) in Hb.
  apply lookup_insert_Some in Hb as [[<- <-]|[_ Hb]]; [|by rewrite lookup_empty in Hb].
  cbn in Hk. apply lookup_insert_Some in Hk as [[<- <-]|[_ Hk]]; [|by rewrite lookup_empty in Hk].
  by exists true.
Qed.

Lemma demo_subscribed : subscribed 0 "chatter" "a" 0 demo_intra.
Proof. eexists. split; [reflexivity|]. split; reflexivity. Qed.

Lemma intra_delivers_witness :
  received_by 0 (run_wops [WWrite 1 0 7%nat; WInitReader 1; WWrite 2 0 8%nat] demo_intra) = [7%nat; 8%nat].
Proof.
  exact (proj1 (intra_delivers demo_intra [WWrite 1 0 7%nat; WInitReader 1; WWrite 2 0 8%nat] 0 "chatter" "a" 0
           demo_bound demo_subscribed ltac:(reflexivity) ltac:(repeat constructor))).
Defined.

Lemma second_reader_silences_first_witness :
  fst (ReaderInit 1 demo_intra) = false /\
  received_by 0 (snd (publish_and_call 5 0 "chatter" 9%nat (ReaderShutdown 1 (snd (ReaderInit 1 demo_intra))))) = [].
Proof.
  split; [reflexivity|].
  exact (proj2 (proj2 (second_reader_silences_first demo_intra 0 "chatter" "a" 0 1 demo_reader demo_bound demo_subscribed
           ltac:(reflexivity) ltac:(reflexivity) ltac:(reflexivity))) 5 9%nat).
Defined.

Lemma reader_range_empty_witness :
  reader_blocker demo_reader (run_wops [WWrite 1 0 7%nat; WObserveAll] demo_intra) =
    Some (mkBlocker 0 10 [7%nat] [7%nat] (<["a" := 0%nat]> ∅)) /\
  range demo_reader (run_wops [WWrite 1 0 7%nat; WObserveAll] demo_intra) = Some [] /\ @nil nat = [].
Proof.
  split; [reflexivity|]. split; [reflexivity|].
  apply (reader_range_empty demo_reader (run_wops [WWrite 1 0 7%nat; WObserveAll] demo_intra)). reflexivity.
Defined.
