(* ===== verification/Signal.v ===== *)
(** * Signal: callbacks that connect and disconnect

    Models [cyber/base/signal.h].  A slot is a heap object shared by the signal's list, the connections to it and
    the local list of an emission; it is found by its address.  A slot leaves [slots_] only after it was disconnected, and
    never comes back, so a slot that is not in [slots_] is a disconnected one: the slots are kept in the list itself, each with
    its address, and an emission looks them up there.  The operations run under the mutex of the signal; the callbacks of an
    emission run without it, and may connect and disconnect. *)

From S2P Require Import Prelude.

Section signal.
Context {C : Type}.

(** [cb_] is [None] for an empty [std::function]. *)
Record Slot := mkSlot { address : nat; cb_ : option C; connected_ : bool }.

(** [next_address]: where the next slot will be made. *)
Record Signal := mkSignal { slots_ : list Slot; next_address : nat }.

(** [Connection]: the slot; the signal is the one that the operation is applied to. *)
Definition Connection : Type := option nat.

Definition signal_new : Signal := mkSignal [] 0.

Definition Connect (cb : option C) (s : Signal) : Connection * Signal :=
  (Some (next_address s), mkSignal (slots_ s ++ [mkSlot (next_address s) cb true]) (S (next_address s))).

Definition HasSlot (conn : Connection) (slot : Slot) : bool :=
  match conn with Some a => (a =? address slot)%nat | None => false end.

Definition slot_disconnect (slot : Slot) : Slot := mkSlot (address slot) (cb_ slot) false.

Definition ClearDisconnectedSlots (s : Signal) : Signal :=
  mkSignal (filter (fun slot => connected_ slot = true) (slots_ s)) (next_address s).

Definition Disconnect (conn : Connection) (s : Signal) : bool * Signal :=
  let find := existsb (HasSlot conn) (slots_ s) in
  let s1 := mkSignal (map (fun slot => if HasSlot conn slot then slot_disconnect slot else slot) (slots_ s))
              (next_address s) in
  (find, if find then ClearDisconnectedSlots s1 else s1).

Definition DisconnectAllSlots (s : Signal) : Signal := mkSignal [] (next_address s).

(** The slot at an address. *)
Definition slot_at (a : nat) (s : Signal) : option Slot := find (fun slot => (address slot =? a)%nat) (slots_ s).

Definition IsConnected (conn : Connection) (s : Signal) : bool :=
  match conn with
  | Some a => match slot_at a s with Some slot => connected_ slot | None => false end
  | None => false
  end.

(** [operator()]: the slots of a copy of the list are called one after the other, each if it is connected
    when its turn comes.  [call] is what a callback does, to the signal too. *)
Section emission.
Context {W : Type} (call : C -> Signal * W -> Signal * W).

Definition call_slot (sw : Signal * W) (a : nat) : Signal * W :=
  match slot_at a (fst sw) with
  | Some slot => if connected_ slot then match cb_ slot with Some cb => call cb sw | None => sw end else sw
  | None => sw
  end.

Definition emit (sw : Signal * W) : Signal * W :=
  let '(s1, w1) := fold_left call_slot (map address (slots_ (fst sw))) sw in (ClearDisconnectedSlots s1, w1).
End emission.

(** ** What holds of every signal: the slots have their own addresses *)
Definition signal_wf (s : Signal) : Prop :=
  NoDup (map address (slots_ s)) /\ Forall (fun slot => (address slot < next_address s)%nat) (slots_ s).

Lemma signal_new_wf : signal_wf signal_new.
Proof. split; constructor. Qed.

Lemma filter_wf (P : Slot -> Prop) `{!forall x, Decision (P x)} l n :
  signal_wf (mkSignal l n) -> signal_wf (mkSignal (filter P l) n).
Proof.
  intros [H1 H2]. split; cbn [slots_ next_address] in *.
  - clear H2. induction l as [|x l IH]; [done|]. cbn [map] in H1. apply NoDup_cons in H1 as [Hx H1].
    rewrite filter_cons. case_decide; [|by apply IH]. cbn [map]. apply NoDup_cons. split; [|by apply IH].
    intros Hin. apply Hx. apply list_elem_of_fmap in Hin as (y & E & Hy%list_elem_of_filter).
    apply list_elem_of_fmap. exists y. tauto.
  - rewrite Forall_forall in *. intros x [_ Hx]%list_elem_of_filter. by apply H2.
Qed.

Lemma map_disconnect_address conn (l : list Slot) :
  map address (map (fun slot => if HasSlot conn slot then slot_disconnect slot else slot) l) = map address l.
Proof. rewrite map_map. apply map_ext. intros slot. by destruct (HasSlot conn slot). Qed.

Lemma connect_wf cb s : signal_wf s -> signal_wf (snd (Connect cb s)).
Proof.
  intros [H1 H2]. split; cbn [slots_ next_address Connect snd].
  - rewrite map_app. apply NoDup_app. split; [done|]. split; [|apply NoDup_singleton].
    cbn [map address]. intros a Ha ->%list_elem_of_singleton. apply list_elem_of_fmap in Ha as (slot & E & Hs).
    rewrite Forall_forall in H2. specialize (H2 _ Hs). cbn in *. lia.
  - apply Forall_app. split; [|repeat constructor]. eapply Forall_impl; [exact H2|]. cbn. lia.
Qed.

Lemma disconnect_wf conn s : signal_wf s -> signal_wf (snd (Disconnect conn s)).
Proof.
  intros [H1 H2]. unfold Disconnect. cbn [snd].
  set (s1 := mkSignal _ _). assert (Hs1 : signal_wf s1).
  { split; cbn [s1 slots_ next_address]; [by rewrite map_disconnect_address|].
    apply Forall_map. eapply Forall_impl; [exact H2|]. intros slot. by destruct (HasSlot conn slot). }
  destruct (existsb _ _); [|done]. unfold ClearDisconnectedSlots. cbn [slots_ next_address s1]. by apply filter_wf.
Qed.

Lemma clear_wf s : signal_wf s -> signal_wf (ClearDisconnectedSlots s).
Proof. destruct s. apply filter_wf. Qed.

Lemma find_unique (l : list Slot) slot :
  NoDup (map address l) -> slot ∈ l -> find (fun x => (address x =? address slot)%nat) l = Some slot.
Proof.
  induction l as [|x l IH]; intros Hn Hin; [by apply elem_of_nil in Hin|]. cbn [map] in Hn.
  apply NoDup_cons in Hn as [Hx Hn]. cbn [find]. apply elem_of_cons in Hin as [<-|Hin]; [by rewrite Nat.eqb_refl|].
  destruct (Nat.eqb_spec (address x) (address slot)) as [E|_]; [|by apply IH].
  destruct Hx. rewrite E. apply list_elem_of_fmap. by exists slot.
Qed.

Lemma slot_at_elem s a slot :
  signal_wf s -> slot_at a s = Some slot <-> slot ∈ slots_ s /\ address slot = a.
Proof.
  intros [Hn _]. unfold slot_at. split.
  - intros H. apply find_some in H as [H1 H2%Nat.eqb_eq]. split; [by apply list_elem_of_In|done].
  - intros [H1 <-]. by apply find_unique.
Qed.

(** The addresses of the connected slots, oldest first. *)
Definition live (s : Signal) : list nat := map address (filter (fun slot => connected_ slot = true) (slots_ s)).

Lemma live_elem s a : signal_wf s -> a ∈ live s <-> IsConnected (Some a) s = true.
Proof.
  intros Hwf. unfold live, IsConnected. split.
  - intros (slot & -> & [Hc Hin]%list_elem_of_filter)%list_elem_of_fmap.
    destruct (slot_at (address slot) s) as [slot'|] eqn:E.
    + apply slot_at_elem in E as [H1 H2]; [|done].
      assert (slot_at (address slot) s = Some slot) as E' by (by apply slot_at_elem).
      assert (slot_at (address slot) s = Some slot') as E'' by (by apply slot_at_elem). by simplify_eq.
    + assert (slot_at (address slot) s = Some slot) by (by apply slot_at_elem). congruence.
  - destruct (slot_at a s) as [slot|] eqn:E; [|done]. intros Hc. apply slot_at_elem in E as [H1 <-]; [|done].
    apply list_elem_of_fmap. exists slot. split; [done|]. by apply list_elem_of_filter.
Qed.

Lemma live_clear s : live (ClearDisconnectedSlots s) = live s.
Proof.
  unfold live, ClearDisconnectedSlots. cbn [slots_]. f_equal. induction (slots_ s) as [|x l IH]; [done|].
  rewrite !filter_cons. case_decide; [|done]. rewrite filter_cons, decide_True by done. by f_equal.
Qed.

Lemma live_connect cb s : live (snd (Connect cb s)) = live s ++ [next_address s].
Proof. unfold live. cbn [Connect snd slots_]. rewrite filter_app, filter_cons, decide_True by done. by rewrite map_app. Qed.

Lemma live_disconnect a s : live (snd (Disconnect (Some a) s)) = filter (fun x => x <> a) (live s).
Proof.
  assert (H : forall l : list Slot,
    map address (filter (fun slot => connected_ slot = true)
      (map (fun slot => if HasSlot (Some a) slot then slot_disconnect slot else slot) l)) =
    filter (fun x => x <> a) (map address (filter (fun slot => connected_ slot = true) l))).
  { induction l as [|x l IH]; [done|]. cbn [map HasSlot]. destruct (Nat.eqb_spec a (address x)) as [E|E].
    - rewrite filter_cons, decide_False by done. rewrite filter_cons. case_decide; [|done]. cbn [map].
      rewrite filter_cons, decide_False by (intros H'; by apply H'). done.
    - rewrite !filter_cons. case_decide; [|done]. cbn [map]. rewrite filter_cons, decide_True by congruence. by f_equal. }
  unfold Disconnect. cbn [snd]. destruct (existsb _ _); [rewrite live_clear|]; apply H.
Qed.

(** ** Emissions *)

(** What a callback does to the signal: connections and disconnections. *)
Inductive signal_step : relation Signal :=
| step_connect cb s : signal_step s (snd (Connect cb s))
| step_disconnect conn s : signal_step s (snd (Disconnect conn s)).

(** The slot at [a] is called when its turn comes in [s]. *)
Definition callable (s : Signal) (a : nat) : bool :=
  match slot_at a s with
  | Some slot => connected_ slot && match cb_ slot with Some _ => true | None => false end
  | None => false
  end.

Section calls.
Context {W : Type} (call : C -> Signal * W -> Signal * W).

(** The slots that an emission calls, in order. *)
Fixpoint called (sw : Signal * W) (l : list nat) : list nat :=
  match l with
  | [] => []
  | a :: l' => (if callable (fst sw) a then [a] else []) ++ called (call_slot call sw a) l'
  end.

Hypothesis call_steps : forall cb sw, rtc signal_step (fst sw) (fst (call cb sw)).

Lemma call_slot_steps sw a : rtc signal_step (fst sw) (fst (call_slot call sw a)).
Proof.
  unfold call_slot. destruct (slot_at a (fst sw)) as [slot|]; [|done].
  destruct (connected_ slot); [|done]. destruct (cb_ slot); [apply call_steps|done].
Qed.

Lemma step_wf s s' : signal_step s s' -> signal_wf s -> signal_wf s'.
Proof. intros [cb s0|conn s0]; [apply connect_wf|apply disconnect_wf]. Qed.

Lemma steps_wf s s' : rtc signal_step s s' -> signal_wf s -> signal_wf s'.
Proof. induction 1; [done|]. eauto using step_wf. Qed.

Lemma step_next s s' : signal_step s s' -> (next_address s <= next_address s')%nat.
Proof. intros [cb s0|conn s0]; cbn; [lia|]. by destruct (existsb _ _). Qed.

Lemma steps_next s s' : rtc signal_step s s' -> (next_address s <= next_address s')%nat.
Proof. induction 1 as [|x y z Hxy _ IH]; [done|]. pose proof (step_next _ _ Hxy). lia. Qed.

(** A slot that is disconnected stays so. *)
Lemma step_live s s' a :
  signal_step s s' -> signal_wf s -> (a < next_address s)%nat -> a ∈ live s' -> a ∈ live s.
Proof.
  intros [cb s0|[b|] s0] Hwf Ha.
  - rewrite live_connect, elem_of_app, list_elem_of_singleton. intros [?| ->]; [done|lia].
  - rewrite live_disconnect. by intros [_ ?]%list_elem_of_filter.
  - assert (E : existsb (HasSlot None) (slots_ s0) = false).
    { apply not_true_is_false. intros (x & _ & H)%existsb_exists. done. }
    unfold Disconnect. rewrite E. cbn [snd HasSlot]. unfold live. cbn [slots_].
    by rewrite map_id.
Qed.

Lemma steps_live s s' a :
  rtc signal_step s s' -> signal_wf s -> (a < next_address s)%nat -> a ∈ live s' -> a ∈ live s.
Proof.
  induction 1 as [|s1 s2 s3 H12 _ IH]; [done|]. intros Hwf Ha H3.
  pose proof (step_next _ _ H12). eapply step_live; [done..|]. apply IH; [by eapply step_wf|lia|done].
Qed.

Lemma callable_live s a : signal_wf s -> callable s a = true -> a ∈ live s.
Proof.
  intros Hwf H. apply live_elem; [done|]. unfold callable, IsConnected in *.
  destruct (slot_at a s); [|done]. by apply andb_prop in H as [].
Qed.

Lemma fold_steps sw l : rtc signal_step (fst sw) (fst (fold_left (call_slot call) l sw)).
Proof.
  revert sw. induction l as [|a l IH]; intros sw; [done|]. cbn [fold_left].
  etrans; [apply call_slot_steps|apply IH].
Qed.

Lemma called_live sw l a :
  signal_wf (fst sw) -> (a < next_address (fst sw))%nat -> a ∈ called sw l -> a ∈ live (fst sw).
Proof.
  revert sw. induction l as [|b l IH]; intros sw Hwf Ha; cbn [called]; [by intros ?%elem_of_nil|].
  rewrite elem_of_app. intros [H|H].
  - destruct (callable (fst sw) b) eqn:E; [|by apply elem_of_nil in H].
    apply list_elem_of_singleton in H as ->. by apply callable_live.
  - pose proof (call_slot_steps sw b) as Hs. eapply steps_live; [exact Hs|done|done|].
    apply IH; [by eapply steps_wf| |done]. pose proof (steps_next _ _ Hs). lia.
Qed.

Lemma called_sublist sw l : called sw l `sublist_of` l.
Proof.
  revert sw. induction l as [|a l IH]; intros sw; cbn [called]; [done|].
  destruct (callable (fst sw) a); cbn; [by apply sublist_skip|by apply sublist_cons].
Qed.

(** The callback of a slot never changes. *)
Definition has_cb (s : Signal) (a : nat) : Prop := exists slot, slot_at a s = Some slot /\ is_Some (cb_ slot).

Lemma lookup_slot_app (l1 l2 : list Slot) a :
  find (fun x => (address x =? a)%nat) (l1 ++ l2) =
  match find (fun x => (address x =? a)%nat) l1 with Some x => Some x | None => find (fun x => (address x =? a)%nat) l2 end.
Proof. induction l1 as [|x l1 IH]; [done|]. cbn. by destruct (address x =? a)%nat. Qed.

Lemma step_cb s s' a :
  signal_step s s' -> signal_wf s -> a ∈ live s' -> has_cb s a -> has_cb s' a.
Proof.
  intros Hst Hwf Hl (slot & Hat & Hcb). pose proof (step_wf _ _ Hst Hwf) as Hwf'.
  apply live_elem in Hl; [|done]. unfold IsConnected in Hl.
  destruct (slot_at a s') as [slot'|] eqn:E'; [|done]. exists slot'. split; [done|].
  enough (cb_ slot' = cb_ slot) as -> by done.
  destruct Hst as [cb s0|conn s0].
  - unfold slot_at in E'. cbn [Connect snd slots_] in E'. rewrite lookup_slot_app in E'. unfold slot_at in Hat.
    rewrite Hat in E'. congruence.
  - apply slot_at_elem in E' as [Hin Ha]; [|done]. apply slot_at_elem in Hat as [Hin0 Ha0]; [|done].
    assert (H : exists x, x ∈ slots_ s0 /\ address slot' = address x /\ cb_ slot' = cb_ x).
    { assert (H : slot' ∈ map (fun slot => if HasSlot conn slot then slot_disconnect slot else slot) (slots_ s0)).
      { unfold Disconnect in Hin. cbn [snd] in Hin. destruct (existsb _ _) in Hin; [|done].
        by apply list_elem_of_filter in Hin as [_ Hin]. }
      apply list_elem_of_fmap in H as (x & -> & Hx). exists x. split; [done|]. by destruct (HasSlot conn x). }
    destruct H as (x & Hx & E1 & E2). enough (x = slot) as -> by done.
    assert (F1 : slot_at (address x) s0 = Some x) by (by apply slot_at_elem).
    assert (F2 : slot_at (address x) s0 = Some slot) by (apply slot_at_elem; [done|]; split; [done|congruence]).
    congruence.
Qed.

Lemma steps_cb s s' a :
  rtc signal_step s s' -> signal_wf s -> (a < next_address s)%nat -> a ∈ live s' -> has_cb s a -> has_cb s' a.
Proof.
  induction 1 as [|s1 s2 s3 H12 H23 IH]; [done|]. intros Hwf Ha Hl Hcb.
  pose proof (step_next _ _ H12). pose proof (step_wf _ _ H12 Hwf) as Hwf2.
  apply IH; [done|lia|done|]. eapply step_cb; [done|done| |done]. eapply steps_live; [exact H23|done|lia|done].
Qed.

Lemma called_all sw l a :
  signal_wf (fst sw) -> (a < next_address (fst sw))%nat -> has_cb (fst sw) a -> a ∈ l ->
  a ∈ live (fst (fold_left (call_slot call) l sw)) -> a ∈ called sw l.
Proof.
  revert sw. induction l as [|b l IH]; intros sw Hwf Ha Hcb Hin Hl; [by apply elem_of_nil in Hin|].
  cbn [called fold_left] in *. apply elem_of_app. pose proof (call_slot_steps sw b) as Hs.
  pose proof (fold_steps (call_slot call sw b) l) as Hs2.
  assert (Ha2 : (a < next_address (fst (call_slot call sw b)))%nat).
  { pose proof (steps_next _ _ Hs). lia. }
  pose proof (steps_wf _ _ Hs Hwf) as Hwf2.
  assert (Hl2 : a ∈ live (fst (call_slot call sw b))) by (eapply steps_live; [exact Hs2|done|done|done]).
  apply elem_of_cons in Hin as [<-|Hin].
  - left. destruct (callable (fst sw) a) eqn:E; [by apply list_elem_of_singleton|].
    assert (Hl1 : a ∈ live (fst sw)) by (eapply steps_live; [exact Hs|done|done|done]).
    apply live_elem in Hl1; [|done]. destruct Hcb as (slot & Hat & [cb Hcb]).
    unfold callable, IsConnected in *. rewrite Hat in E, Hl1. by rewrite Hcb, Hl1 in E.
  - right. apply IH; try done. by eapply steps_cb.
Qed.

Lemma all_connected s : Forall (fun slot => connected_ slot = true) (slots_ (ClearDisconnectedSlots s)).
Proof. apply Forall_forall. by intros x [Hx _]%list_elem_of_filter. Qed.

Lemma live_next s a : signal_wf s -> a ∈ live s -> (a < next_address s)%nat.
Proof.
  intros [_ H] (slot & -> & [_ Hin]%list_elem_of_filter)%list_elem_of_fmap. rewrite Forall_forall in H. by apply H.
Qed.

(** In one emission a slot is called at most once and in the order of connection; only slots connected when it
    started are called, and every one of those with a callback that is still connected when it ends was; whatever the
    callbacks connect and disconnect meanwhile.  Afterwards no disconnected slot is left in the list. *)
Theorem emission_calls (s : Signal) (w : W) (Hwf : signal_wf s) :
  let tr := called (s, w) (map address (slots_ s)) in
  let s' := fst (emit call (s, w)) in
  sublist tr (map address (slots_ s)) /\ NoDup tr /\
  (forall a, a ∈ tr -> a ∈ live s) /\
  (forall a, a ∈ live s -> has_cb s a -> a ∈ live s' -> a ∈ tr) /\
  Forall (fun slot => connected_ slot = true) (slots_ s') /\ signal_wf s'.
Proof.
  cbv zeta. pose proof (called_sublist (s, w) (map address (slots_ s))) as Hsub.
  assert (E : fst (emit call (s, w)) =
    ClearDisconnectedSlots (fst (fold_left (call_slot call) (map address (slots_ s)) (s, w)))).
  { unfold emit. cbn [fst]. by destruct (fold_left _ _ _). }
  assert (Hadd : forall a, a ∈ map address (slots_ s) -> (a < next_address s)%nat).
  { destruct Hwf as [_ H]. rewrite Forall_forall in H. intros a (slot & -> & Hs)%list_elem_of_fmap. by apply H. }
  rewrite E, live_clear. split; [done|]. split; [by eapply sublist_NoDup; [apply Hwf|]|]. split; [|split].
  - intros a Ha. apply (called_live (s, w) (map address (slots_ s)) a); try done. apply Hadd. by eapply elem_of_sublist.
  - intros a Hl Hcb Hl'. apply called_all; try done; [by apply live_next|].
    apply list_elem_of_fmap in Hl as (slot & -> & [_ Hs]%list_elem_of_filter). apply list_elem_of_fmap. by exists slot.
  - split; [apply all_connected|]. apply clear_wf. eapply steps_wf; [apply fold_steps|done].
Qed.
End calls.

(** ** Callbacks that leave the signal alone *)

(** The callbacks of the connected slots, oldest first. *)
Definition callbacks (s : Signal) : list C :=
  omap cb_ (filter (fun slot => connected_ slot = true) (slots_ s)).

Lemma emit_passive {W} (f : C -> W -> W) (s : Signal) (w : W) :
  signal_wf s ->
  emit (fun cb sw => (fst sw, f cb (snd sw))) (s, w) =
    (ClearDisconnectedSlots s, fold_left (fun w cb => f cb w) (callbacks s) w).
Proof.
  intros Hwf. unfold emit. cbn [fst].
  enough (H : forall l, (forall x, x ∈ l -> x ∈ slots_ s) -> forall v,
    fold_left (call_slot (fun cb sw => (fst sw, f cb (snd sw)))) (map address l) (s, v) =
      (s, fold_left (fun v cb => f cb v) (omap cb_ (filter (fun slot => connected_ slot = true) l)) v)).
  { by rewrite H. }
  intros l. induction l as [|x l IH]; intros Hl v; [done|]. cbn [map fold_left].
  assert (Hx : slot_at (address x) s = Some x) by (apply slot_at_elem; [done|]; split; [apply Hl; by left|done]).
  unfold call_slot at 2. cbn [fst snd]. rewrite Hx, filter_cons.
  case_decide as Hc; [|destruct (connected_ x); [done|]; apply IH; by (intros; apply Hl; right)].
  rewrite Hc. cbn [omap list_omap]. destruct (cb_ x); cbn [fold_left]; apply IH; by (intros; apply Hl; right).
Qed.
End signal.
Arguments Slot : clear implicits.
Arguments Signal : clear implicits.

(** A signal with three slots; the first callback disconnects the second slot and connects a fourth. *)
Definition demo_signal : Signal nat :=
  snd (Connect (Some 30%nat) (snd (Connect (Some 20%nat) (snd (Connect (Some 10%nat) signal_new))))).

Definition demo_call (c : nat) (sw : Signal nat * list nat) : Signal nat * list nat :=
  if (c =? 10)%nat then (snd (Connect (Some 40%nat) (snd (Disconnect (Some 1%nat) (fst sw)))), snd sw ++ [c])
  else (fst sw, snd sw ++ [c]).

Lemma emission_calls_witness :
  called demo_call (demo_signal, []) [0%nat; 1%nat; 2%nat] = [0%nat; 2%nat] /\
  snd (emit demo_call (demo_signal, [])) = [10%nat; 30%nat] /\
  NoDup (called demo_call (demo_signal, []) [0%nat; 1%nat; 2%nat]).
Proof.
  split; [reflexivity|]. split; [reflexivity|].
  refine (proj1 (proj2 (emission_calls demo_call _ demo_signal [] _))).
  - intros c sw. unfold demo_call. destruct (c =? 10)%nat; [|reflexivity].
    eapply rtc_l; [apply (step_disconnect (Some 1%nat))|]. apply rtc_once. apply step_connect.
  - split; [repeat constructor; set_solver|repeat constructor].
Defined.
