(* ===== verification/MessageHeader.v ===== *)
(** * MessageHeader: messages of one type read as another

    Models [cyber/message/message_header.h], the header-and-content part of [message_traits.h] ([FullByteSize],
    [SerializeToHC], [ParseFromHC]) and [raw_message.h] with its traits.  The intra-process dispatcher uses them when a
    writer and a reader of a channel have different types.

    The size, the name and the serialization of a message class are variables, a record per class; [RawMessage], whose
    code is here, is one.  An [int] is a [Z]; the sums of sizes are not wrapped (an overflow is undefined in the code), and the theorems
    keep them below 2^31.  The processors are little-endian, so that [htonl] reverses bytes. *)

From S2P Require Import Prelude ShmMessage.

(** ** MessageHeader *)

Record MessageHeader := mkHeader {
  magic_num_ : bytes;
  seq_ : bytes;
  timestamp_ns_ : bytes;
  src_id_ : bytes;
  dst_id_ : bytes;
  msg_type_ : bytes;
  res_ : bytes;
  content_size_ : bytes;
}.

Definition type_capacity : nat := 129.

(** "BDACBDAC". *)
Definition magic : bytes := [66; 68; 65; 67; 66; 68; 65; 67].

Definition header_new : MessageHeader :=
  mkHeader magic (replicate 8 0) (replicate 8 0) (replicate 8 0) (replicate 8 0) (replicate type_capacity 0)
    (replicate 19 0) (replicate 4 0).

Definition is_magic_num_match (other : bytes) (h : MessageHeader) : bool :=
  (length other =? 8)%nat && bool_decide (magic_num_ h = other).

(** [htonl] and a copy of the four bytes. *)
Definition Convert32ToArray (input : Z) : bytes := rev (to_bytes 4 input).
Definition ConvertArrayTo32 (input : bytes) : Z := of_bytes (rev input).

Definition Convert64ToArray (input : Z) : bytes :=
  let h_high := wrap_u32 (Z.shiftr (Z.land input 18446744069414584320) 32) in
  let h_low := wrap_u32 (Z.land input 4294967295) in
  Convert32ToArray h_high ++ Convert32ToArray h_low.

Definition ConvertArrayTo64 (input : bytes) : Z :=
  let high := ConvertArrayTo32 (slice 0 4 input) in
  let low := ConvertArrayTo32 (slice 4 4 input) in
  Z.lor (wrap_u64 (Z.shiftl high 32)) low.

Definition seq (h : MessageHeader) : Z := ConvertArrayTo64 (seq_ h).
Definition set_seq (z : Z) (h : MessageHeader) : MessageHeader :=
  mkHeader (magic_num_ h) (Convert64ToArray z) (timestamp_ns_ h) (src_id_ h) (dst_id_ h) (msg_type_ h) (res_ h) (content_size_ h).
Definition timestamp_ns (h : MessageHeader) : Z := ConvertArrayTo64 (timestamp_ns_ h).
Definition set_timestamp_ns (z : Z) (h : MessageHeader) : MessageHeader :=
  mkHeader (magic_num_ h) (seq_ h) (Convert64ToArray z) (src_id_ h) (dst_id_ h) (msg_type_ h) (res_ h) (content_size_ h).
Definition src_id (h : MessageHeader) : Z := ConvertArrayTo64 (src_id_ h).
Definition set_src_id (z : Z) (h : MessageHeader) : MessageHeader :=
  mkHeader (magic_num_ h) (seq_ h) (timestamp_ns_ h) (Convert64ToArray z) (dst_id_ h) (msg_type_ h) (res_ h) (content_size_ h).
Definition dst_id (h : MessageHeader) : Z := ConvertArrayTo64 (dst_id_ h).
Definition set_dst_id (z : Z) (h : MessageHeader) : MessageHeader :=
  mkHeader (magic_num_ h) (seq_ h) (timestamp_ns_ h) (src_id_ h) (Convert64ToArray z) (msg_type_ h) (res_ h) (content_size_ h).
Definition content_size (h : MessageHeader) : Z := ConvertArrayTo32 (content_size_ h).
Definition set_content_size (z : Z) (h : MessageHeader) : MessageHeader :=
  mkHeader (magic_num_ h) (seq_ h) (timestamp_ns_ h) (src_id_ h) (dst_id_ h) (msg_type_ h) (res_ h) (Convert32ToArray (wrap_u32 z)).

(** At most 128 bytes of the name are kept, and the rest is zero. *)
Definition set_msg_type (ty : bytes) (h : MessageHeader) : MessageHeader :=
  if (length ty =? 0)%nat then h
  else
    let real_len := if (type_capacity <=? length ty)%nat then (type_capacity - 1)%nat else length ty in
    mkHeader (magic_num_ h) (seq_ h) (timestamp_ns_ h) (src_id_ h) (dst_id_ h)
      (take real_len ty ++ replicate (type_capacity - real_len) 0) (res_ h) (content_size_ h).

(** A string made of a [const char*] stops at the first zero. *)
Fixpoint c_string (l : bytes) : bytes :=
  match l with
  | [] => []
  | b :: l' => if b =? 0 then [] else b :: c_string l'
  end.

Definition msg_type (h : MessageHeader) : bytes := c_string (msg_type_ h).

(** The object in memory. *)
Definition header_bytes (h : MessageHeader) : bytes :=
  magic_num_ h ++ seq_ h ++ timestamp_ns_ h ++ src_id_ h ++ dst_id_ h ++ msg_type_ h ++ res_ h ++ content_size_ h.

Definition header_size : nat := 192.

Definition header_of (l : bytes) : MessageHeader :=
  mkHeader (slice 0 8 l) (slice 8 8 l) (slice 16 8 l) (slice 24 8 l) (slice 32 8 l) (slice 40 129 l) (slice 169 19 l)
    (slice 188 4 l).

(** ** Classes of messages *)

(** What [message_traits.h] finds of a class [M].  [mc_size] is negative when there is no size, [mc_to_array m n] are the
    bytes written into an array of [n], or [None] when it is refused. *)
Record MessageClass (M : Type) := mkClass {
  mc_name : bytes;
  mc_new : M;
  mc_size : M -> Z;
  mc_type : M -> bytes;
  mc_set_type : bytes -> M -> M;
  mc_to_array : M -> Z -> option bytes;
  mc_from_array : bytes -> M -> option M;
}.
Arguments mkClass {M}.
Arguments mc_name {M}. Arguments mc_new {M}. Arguments mc_size {M}. Arguments mc_type {M}. Arguments mc_set_type {M}.
Arguments mc_to_array {M}. Arguments mc_from_array {M}.

Section traits.
Context {M : Type} (c : MessageClass M).

Definition FullByteSize (m : M) : Z :=
  let content := mc_size c m in if content <? 0 then content else content + Z.of_nat header_size.

(** The bytes that are stored at [data], in an array of [size]. *)
Definition SerializeToHC (m : M) (size : Z) : option bytes :=
  let n := mc_size c m in
  if n <? 0 then None
  else
    let header := set_content_size n (set_msg_type (mc_type c m) header_new) in
    match mc_to_array c m (size - Z.of_nat header_size) with
    | Some l => Some (header_bytes header ++ l)
    | None => None
    end.

Definition ParseFromHC (data : bytes) (m : M) : option M :=
  if (length data <? header_size)%nat then None
  else
    let header := header_of data in
    if Z.of_nat (length data - header_size) <? content_size header then None
    else mc_from_array c (slice header_size (Z.to_nat (content_size header)) data) (mc_set_type c (msg_type header) m).

(** What the class promises: an array of the message's size is enough, and is filled. *)
Definition to_array_fills : Prop := forall m n,
  0 <= mc_size c m <= n -> exists l, mc_to_array c m n = Some l /\ Z.of_nat (length l) = mc_size c m.
End traits.

(** ** RawMessage *)

Record RawMessage := mkRaw { message : bytes; timestamp : Z }.

(** "apollo.cyber.message.RawMessage". *)
Definition raw_name : bytes :=
  [97; 112; 111; 108; 108; 111; 46; 99; 121; 98; 101; 114; 46; 109; 101; 115; 115; 97; 103; 101; 46; 82; 97; 119; 77; 101;
   115; 115; 97; 103; 101].

Definition raw_byte_size (m : RawMessage) : Z := Z.of_nat (length (message m)).

Definition raw_to_array (m : RawMessage) (size : Z) : option bytes :=
  if size <? raw_byte_size m then None else Some (message m).

Definition raw_from_array (data : bytes) (m : RawMessage) : option RawMessage :=
  if Z.of_nat (length data) <=? 0 then None else Some (mkRaw data (timestamp m)).

Definition RawMessageClass : MessageClass RawMessage :=
  mkClass raw_name (mkRaw [] 0) raw_byte_size (fun _ => raw_name) (fun _ m => m) raw_to_array raw_from_array.

Lemma raw_fills : to_array_fills RawMessageClass.
Proof.
  intros m n H. cbn in *. exists (message m). unfold raw_to_array. case_if; [lia|done].
Qed.

(** ** Round trips *)

Lemma array32 z : is_u32 z -> ConvertArrayTo32 (Convert32ToArray z) = z.
Proof.
  intros H. unfold ConvertArrayTo32, Convert32ToArray. rewrite rev_involutive. apply of_to_bytes. exact H.
Qed.

Lemma length_array32 z : length (Convert32ToArray z) = 4%nat.
Proof. unfold Convert32ToArray. by rewrite length_rev, length_to_bytes. Qed.

Lemma high_half z : is_u64 z -> wrap_u32 (Z.shiftr (Z.land z 18446744069414584320) 32) = z / two32.
Proof.
  intros H. change 18446744069414584320 with (Z.shiftl (Z.ones 32) 32).
  rewrite Z.shiftr_land, Z.shiftr_shiftl_l by lia. cbn [Z.sub]. change (Z.shiftl (Z.ones 32) (32 - 32)) with (Z.ones 32).
  rewrite Z.shiftr_div_pow2, Z.land_ones by lia. change (2 ^ 32) with two32.
  unfold is_u64, two64, wrap_u32, two32 in *. div_lia.
Qed.

Lemma low_half z : wrap_u32 (Z.land z 4294967295) = z mod two32.
Proof.
  change 4294967295 with (Z.ones 32). rewrite Z.land_ones by lia. unfold wrap_u32, two32. by rewrite Z.mod_mod.
Qed.

Lemma array64 z : is_u64 z -> ConvertArrayTo64 (Convert64ToArray z) = z.
Proof.
  intros H. unfold ConvertArrayTo64, Convert64ToArray. rewrite (high_half z H), low_half.
  rewrite slice_here by (by rewrite length_array32).
  rewrite (slice_skip 0) by (by rewrite length_array32).
  rewrite <- (app_nil_r (Convert32ToArray (z mod two32))), slice_here by (by rewrite length_array32).
  unfold is_u64, two64 in H.
  rewrite !array32 by (unfold is_u32, two32; div_lia).
  rewrite wrap_u64_small by (rewrite Z.shiftl_mul_pow2 by lia; unfold two64, two32; div_lia).
  rewrite lor_halves by (change (2 ^ 32) with two32; unfold two32; div_lia). change (2 ^ 32) with two32. unfold two32. div_lia.
Qed.

Lemma c_string_zeros n : c_string (replicate n 0) = [].
Proof. by destruct n. Qed.

Lemma c_string_padded l n : (0 < n)%nat -> c_string (l ++ replicate n 0) = c_string l.
Proof.
  intros Hn. induction l as [|b l IH]; cbn; [by rewrite c_string_zeros|]. by rewrite IH.
Qed.

Lemma set_type_keeps ty h : msg_type_ h = replicate type_capacity 0 ->
  length (msg_type_ (set_msg_type ty h)) = type_capacity /\
  msg_type (set_msg_type ty h) = c_string (take (type_capacity - 1) ty).
Proof.
  intros Hh. unfold set_msg_type, msg_type. destruct ty as [|b ty].
  { cbn [length Nat.eqb]. rewrite Hh, c_string_zeros. split; [apply length_replicate|done]. }
  set (l := b :: ty). change (length l =? 0)%nat with false. cbv iota.
  destruct (Nat.leb_spec type_capacity (length l)) as [Hle|Hlt]; cbn [msg_type_].
  - rewrite length_app, length_take, length_replicate. unfold type_capacity in *. split; [lia|].
    apply c_string_padded. lia.
  - rewrite length_app, length_take, length_replicate. split; [lia|].
    rewrite c_string_padded by lia. by rewrite !take_ge by lia.
Qed.

(** The parts of a header in its bytes. *)
Definition header_wf (h : MessageHeader) : Prop :=
  length (magic_num_ h) = 8%nat /\ length (seq_ h) = 8%nat /\ length (timestamp_ns_ h) = 8%nat /\
  length (src_id_ h) = 8%nat /\ length (dst_id_ h) = 8%nat /\ length (msg_type_ h) = type_capacity /\
  length (res_ h) = 19%nat /\ length (content_size_ h) = 4%nat.

Lemma length_header_bytes h : header_wf h -> length (header_bytes h) = header_size.
Proof.
  intros (H1 & H2 & H3 & H4 & H5 & H6 & H7 & H8). unfold header_bytes.
  rewrite !length_app, H1, H2, H3, H4, H5, H6, H7, H8. reflexivity.
Qed.

Lemma slice_after {n off m : nat} (a b : bytes) : length a = n -> slice (n + off) m (a ++ b) = slice off m b.
Proof. intros <-. by apply slice_skip. Qed.

Lemma header_of_bytes h l : header_wf h -> header_of (header_bytes h ++ l) = h.
Proof.
  intros (H1 & H2 & H3 & H4 & H5 & H6 & H7 & H8). unfold header_of, header_bytes, type_capacity in *.
  rewrite <- !app_assoc. destruct h as [f1 f2 f3 f4 f5 f6 f7 f8]. cbn [magic_num_ seq_ timestamp_ns_ src_id_ dst_id_
    msg_type_ res_ content_size_] in *.
  change 188%nat with (8 + (8 + (8 + (8 + (8 + (129 + (19 + 0)))))))%nat.
  change 169%nat with (8 + (8 + (8 + (8 + (8 + (129 + 0))))))%nat.
  change 40%nat with (8 + (8 + (8 + (8 + (8 + 0)))))%nat. change 32%nat with (8 + (8 + (8 + (8 + 0))))%nat.
  change 24%nat with (8 + (8 + (8 + 0)))%nat. change 16%nat with (8 + (8 + 0))%nat.
  change (slice 8 8) with (slice (8 + 0) 8).
  rewrite !(slice_after f1), !(slice_after f2), !(slice_after f3), !(slice_after f4), !(slice_after f5),
    !(slice_after f6), !(slice_after f7) by done.
  by rewrite !slice_here.
Qed.

Lemma header_new_wf : header_wf header_new.
Proof. repeat split. Qed.

Lemma set_msg_type_wf ty h : msg_type_ h = replicate type_capacity 0 -> header_wf h -> header_wf (set_msg_type ty h).
Proof.
  intros Hh (H1 & H2 & H3 & H4 & H5 & H6 & H7 & H8). destruct (set_type_keeps ty h Hh) as [E _].
  unfold header_wf. rewrite E. unfold set_msg_type. by destruct (length ty =? 0)%nat.
Qed.

Lemma set_content_size_wf z h : header_wf h -> header_wf (set_content_size z h).
Proof.
  intros (H1 & H2 & H3 & H4 & H5 & H6 & H7 & H8). unfold header_wf, set_content_size. cbn [content_size_].
  rewrite length_array32. done.
Qed.

(** The identifiers and times of a header are read as they were set. *)
Lemma header_fields (h : MessageHeader) (z : Z) :
  is_u64 z ->
  seq (set_seq z h) = z /\ timestamp_ns (set_timestamp_ns z h) = z /\ src_id (set_src_id z h) = z /\
  dst_id (set_dst_id z h) = z.
Proof. intros H. repeat split; by apply array64. Qed.

(** What a writer's class puts behind a header is what the reader's class gets to parse, with the name of the
    writer's type (its first 128 bytes): into an array of [FullByteSize] the message fits, and [ParseFromHC] on that array gives
    the reader's [ParseFromArray] of exactly the bytes that the writer's class serialized. *)
Theorem hc_roundtrip {M1 M2 : Type} (c1 : MessageClass M1) (c2 : MessageClass M2) (m : M1) (m0 : M2)
    (Hfills : to_array_fills c1) (Hsize : 0 <= mc_size c1 m) (Hfull : FullByteSize c1 m < 2147483648) :
  exists content l, mc_to_array c1 m (mc_size c1 m) = Some content /\
    SerializeToHC c1 m (FullByteSize c1 m) = Some l /\ Z.of_nat (length l) = FullByteSize c1 m /\
    ParseFromHC c2 l m0 = mc_from_array c2 content (mc_set_type c2 (c_string (take 128 (mc_type c1 m))) m0).
Proof.
  destruct (Hfills m (mc_size c1 m)) as (content & Hc & Hlen); [lia|]. exists content.
  unfold FullByteSize, SerializeToHC in *. destruct (Z.ltb_spec (mc_size c1 m) 0); [lia|].
  set (h := set_content_size _ _).
  assert (Hwf : header_wf h).
  { apply set_content_size_wf, set_msg_type_wf; [done|apply header_new_wf]. }
  pose proof (length_header_bytes h Hwf) as Hh.
  exists (header_bytes h ++ content). split; [done|].
  replace (mc_size c1 m + Z.of_nat header_size - Z.of_nat header_size) with (mc_size c1 m) by lia. rewrite Hc.
  split; [done|]. split; [rewrite length_app; lia|].
  unfold ParseFromHC. rewrite length_app, Hh, header_of_bytes by done.
  assert (Hcs : content_size h = mc_size c1 m).
  { unfold h, set_content_size, content_size. cbn [content_size_]. unfold header_size in *.
    rewrite wrap_u32_small by (unfold two32; lia). apply array32. unfold is_u32, two32. lia. }
  rewrite Hcs. destruct (Nat.ltb_spec (header_size + length content) header_size); [lia|].
  destruct (Z.ltb_spec (Z.of_nat (header_size + length content - header_size)) (mc_size c1 m)); [lia|].
  f_equal.
  - replace header_size with (header_size + 0)%nat by lia. rewrite slice_after by done.
    unfold slice. cbn [drop]. apply take_ge. lia.
  - f_equal. by apply set_type_keeps.
Qed.

(** A class of texts whose messages may be empty, as those of protobuf. *)
Definition text_class : MessageClass bytes :=
  mkClass [84] [] (fun m => Z.of_nat (length m)) (fun _ => [84]) (fun _ m => m)
    (fun m n => if n <? Z.of_nat (length m) then None else Some m) (fun data _ => Some data).

Lemma text_fills : to_array_fills text_class.
Proof.
  intros m n H. cbn in *. exists m. destruct (Z.ltb_spec n (Z.of_nat (length m))); [lia|done].
Qed.

Lemma hc_roundtrip_witness :
  exists content l, mc_to_array text_class [104; 105] 2 = Some content /\
    SerializeToHC text_class [104; 105] (FullByteSize text_class [104; 105]) = Some l /\
    Z.of_nat (length l) = FullByteSize text_class [104; 105] /\
    ParseFromHC RawMessageClass l (mkRaw [] 7) = raw_from_array content (mkRaw [] 7).
Proof.
  exact (hc_roundtrip text_class RawMessageClass [104; 105] (mkRaw [] 7) text_fills ltac:(vm_compute; discriminate)
           ltac:(reflexivity)).
Defined.
