(* ===== verification/ListenerHandler.v ===== *)
(** * ListenerHandler: the listeners of a channel

    Models [cyber/transport/message/listener_handler.h]: the listeners of a channel's messages, those that take the messages of
    every sender and those that take the messages of one sender, each known by the identifier of its reader.

    A listener is a value of [C]; running the handler gives the listeners that are called, in order.  [Run] holds the lock of the
    handler for reading while the listeners of a sender run, so these do not connect or disconnect.  [rw_lock_] makes the
    other operations atomic.  The specification is a list of the listeners with their readers and senders. *)

From S2P Require Import Prelude Signal.

Section handler.
Context {C : Type}.

Abbreviation ConnectionMap := (gmap Z Connection).

Record ListenerHandler := mkHandler {
  signal_ : Signal C;
  signal_conns_ : ConnectionMap;
  signals_ : gmap Z (Signal C);
  signals_conns_ : gmap Z ConnectionMap;
}.

Definition handler_new : ListenerHandler := mkHandler signal_new ∅ ∅ ∅.

(** A call of a signal whose callbacks leave it alone: what is called, and the signal after. *)
Definition fire (s : Signal C) : list C * Signal C :=
  let '(s', l) := emit (fun cb sw => (fst sw, snd sw ++ [cb])) (s, []) in (l, s').

Definition ConnectSelf (self_id : Z) (listener : C) (h : ListenerHandler) : ListenerHandler :=
  let '(connection, s) := Connect (Some listener) (signal_ h) in
  if negb (IsConnected connection s) then mkHandler s (signal_conns_ h) (signals_ h) (signals_conns_ h)
  else mkHandler s (<[self_id := connection]> (signal_conns_ h)) (signals_ h) (signals_conns_ h).

Definition ConnectOppo (self_id oppo_id : Z) (listener : C) (h : ListenerHandler) : ListenerHandler :=
  let sig := match signals_ h !! oppo_id with Some s => s | None => signal_new end in
  let '(connection, s) := Connect (Some listener) sig in
  let sigs := <[oppo_id := s]> (signals_ h) in
  if negb (IsConnected connection s) then mkHandler (signal_ h) (signal_conns_ h) sigs (signals_conns_ h)
  else
    let conns := match signals_conns_ h !! oppo_id with Some m => m | None => ∅ end in
    mkHandler (signal_ h) (signal_conns_ h) sigs (<[oppo_id := <[self_id := connection]> conns]> (signals_conns_ h)).

Definition DisconnectSelf (self_id : Z) (h : ListenerHandler) : ListenerHandler :=
  match signal_conns_ h !! self_id with
  | None => h
  | Some conn =>
      mkHandler (snd (Disconnect conn (signal_ h))) (delete self_id (signal_conns_ h)) (signals_ h) (signals_conns_ h)
  end.

Definition DisconnectOppo (self_id oppo_id : Z) (h : ListenerHandler) : ListenerHandler :=
  match signals_conns_ h !! oppo_id with
  | None => h
  | Some conns =>
      match conns !! self_id with
      | None => h
      | Some conn =>
          mkHandler (signal_ h) (signal_conns_ h) (alter (fun s => snd (Disconnect conn s)) oppo_id (signals_ h))
            (<[oppo_id := delete self_id conns]> (signals_conns_ h))
      end
  end.

(** [Run] for a message whose sender's identifier hashes to [oppo_id]. *)
Definition Run (oppo_id : Z) (h : ListenerHandler) : list C * ListenerHandler :=
  let '(l1, s1) := fire (signal_ h) in
  let h1 := mkHandler s1 (signal_conns_ h) (signals_ h) (signals_conns_ h) in
  match signals_ h1 !! oppo_id with
  | None => (l1, h1)
  | Some s =>
      let '(l2, s2) := fire s in
      (l1 ++ l2, mkHandler (signal_ h1) (signal_conns_ h1) (<[oppo_id := s2]> (signals_ h1)) (signals_conns_ h1))
  end.

(** ** One signal and its connections *)

(** The listeners [l], with their readers, are the slots of [s], and [conns] are their connections. *)
Definition attached (s : Signal C) (conns : ConnectionMap) (l : list (Z * C)) : Prop :=
  exists es : list (Z * C * nat),
    l = es.*1 /\ NoDup l.*1 /\ signal_wf s /\
    slots_ s = map (fun e => mkSlot (snd e) (Some (snd (fst e))) true) es /\
    conns = list_to_map (map (fun e => (fst (fst e), Some (snd e))) es).

Lemma attached_new : attached signal_new ∅ [].
Proof. exists []. repeat split; constructor. Qed.

Lemma attached_callbacks s conns l : attached s conns l -> callbacks s = l.*2.
Proof.
  intros (es & -> & _ & _ & Hs & _). unfold callbacks. rewrite Hs. clear Hs.
  induction es as [|e es IH]; [done|]. cbn [map]. rewrite filter_cons, decide_True by done. cbn. f_equal. apply IH.
Qed.

Lemma attached_clear s conns l : attached s conns l -> ClearDisconnectedSlots s = s.
Proof.
  intros (es & -> & _ & _ & Hs & _). unfold ClearDisconnectedSlots. destruct s as [sl n]. cbn [slots_ next_address] in *.
  f_equal. rewrite Hs. clear. induction es as [|e es IH]; [done|]. cbn [map]. rewrite filter_cons, decide_True by done.
  by f_equal.
Qed.

Lemma fold_snoc (l acc : list C) : fold_left (fun w cb => w ++ [cb]) l acc = acc ++ l.
Proof.
  revert acc. induction l as [|c l IH]; intros acc; cbn; [by rewrite app_nil_r|]. by rewrite IH, <- app_assoc.
Qed.

Lemma attached_fire s conns l : attached s conns l -> fire s = (l.*2, s).
Proof.
  intros H. unfold fire. rewrite (emit_passive (fun cb w => w ++ [cb])) by by (destruct H as (? & _ & _ & ? & _)).
  by rewrite fold_snoc, (attached_callbacks _ _ _ H), (attached_clear _ _ _ H).
Qed.

Lemma conns_keys (es : list (Z * C * nat)) : (map (fun e => (fst (fst e), Some (snd e))) es).*1 = (es.*1).*1.
Proof. induction es as [|e es IH]; [done|]. cbn. by f_equal. Qed.

Lemma connected_new s (cb : option C) : signal_wf s -> IsConnected (fst (Connect cb s)) (snd (Connect cb s)) = true.
Proof.
  intros Hwf. apply live_elem; [by apply connect_wf|]. rewrite live_connect. apply elem_of_app. right.
  by apply list_elem_of_singleton.
Qed.

Lemma attached_connect s conns l self c :
  attached s conns l -> self ∉ l.*1 ->
  let cs := Connect (Some c) s in attached (snd cs) (<[self := fst cs]> conns) (l ++ [(self, c)]).
Proof.
  intros (es & -> & Hn & Hwf & Hs & ->) Hself. cbv zeta. exists (es ++ [(self, c, next_address s)]).
  rewrite !fmap_app. cbn [fmap list_fmap fst]. split; [done|]. split; [|split; [by apply connect_wf|split]].
  - apply NoDup_app. split; [done|]. split; [|apply NoDup_singleton].
    intros x Hx ->%list_elem_of_singleton. done.
  - cbn [Connect snd slots_]. by rewrite Hs.
  - cbn [map fst snd Connect]. symmetry. apply list_to_map_snoc. by rewrite conns_keys.
Qed.

(** Entries with their own readers and their own slots: one is known by either. *)
Lemma entry_match (es : list (Z * C * nat)) e0 e :
  NoDup (es.*1).*1 -> NoDup (map snd es) -> e0 ∈ es -> e ∈ es ->
  (snd e0 =? snd e)%nat = bool_decide (fst (fst e) = fst (fst e0)).
Proof.
  intros Hn Ha [j Hj]%list_elem_of_lookup [i Hi]%list_elem_of_lookup.
  destruct (Nat.eqb_spec (snd e0) (snd e)) as [E|E]; symmetry.
  - apply bool_decide_eq_true. enough (i = j) by congruence. eapply (NoDup_lookup (map snd es)); [exact Ha| |];
      rewrite list_lookup_fmap; [by rewrite Hi|]. rewrite Hj. cbn. by f_equal.
  - apply bool_decide_eq_false. intros E'. apply E. enough (i = j) by congruence.
    eapply (NoDup_lookup (es.*1).*1); [exact Hn| |]; rewrite !list_lookup_fmap; [by rewrite Hi|]. rewrite Hj. cbn. by f_equal.
Qed.

Lemma attached_disconnect s conns l self conn :
  attached s conns l -> conns !! self = Some conn ->
  attached (snd (Disconnect conn s)) (delete self conns) (filter (fun e => fst e <> self) l).
Proof.
  intros (es & -> & Hn & Hwf & Hs & ->) Hconn. exists (filter (fun e => fst (fst e) <> self) es).
  apply elem_of_list_to_map_2 in Hconn as (e0 & [= -> ->] & Hin0)%list_elem_of_fmap.
  assert (Hfm : forall k : list (Z * C * nat), filter (fun e => fst e <> fst (fst e0)) k.*1 =
    (filter (fun e => fst (fst e) <> fst (fst e0)) k).*1).
  { induction k as [|e k IH]; [done|]. cbn [fmap list_fmap]. rewrite !filter_cons. case_decide; [|done]. cbn. by f_equal. }
  split; [apply Hfm|]. split; [|split; [by apply disconnect_wf|split]].
  - clear -Hn. induction es.*1 as [|e k IH]; [done|]. cbn [fmap list_fmap] in Hn. apply NoDup_cons in Hn as [He Hn].
    rewrite filter_cons. case_decide; [|by apply IH]. cbn [fmap list_fmap]. apply NoDup_cons. split; [|by apply IH].
    intros Hin. apply He. apply list_elem_of_fmap in Hin as (x & -> & [_ Hx]%list_elem_of_filter).
    apply list_elem_of_fmap. by exists x.
  - destruct Hwf as [Ha _]. rewrite Hs in Ha. unfold Disconnect. cbn [snd].
    assert (Hf : existsb (HasSlot (Some (snd e0))) (slots_ s) = true).
    { apply existsb_exists. exists (mkSlot (snd e0) (Some (snd (fst e0))) true). rewrite Hs. split; [|cbn; apply Nat.eqb_refl].
      apply list_elem_of_In, list_elem_of_fmap. by exists e0. }
    rewrite Hf. unfold ClearDisconnectedSlots. cbn [slots_]. rewrite Hs.
    rewrite map_map in Ha. cbn in Ha.
    assert (Hkey : forall e, e ∈ es -> (snd e0 =? snd e)%nat = bool_decide (fst (fst e) = fst (fst e0))).
    { intros e He. by apply (entry_match es). }
    clear Hs Hf Hfm.
    clear Ha Hn Hin0. induction es as [|e es IH]; [done|]. cbn [map].
    assert (He : (snd e0 =? snd e)%nat = bool_decide (fst (fst e) = fst (fst e0))) by (apply Hkey; by left).
    cbn [HasSlot address]. rewrite He, !filter_cons. case_bool_decide as E.
    + rewrite decide_False by done. rewrite decide_False by (intros H; by apply H). apply IH. intros; apply Hkey; by right.
    + rewrite !decide_True by done. cbn [map]. f_equal. apply IH. intros; apply Hkey; by right.
  - clear. induction es as [|e es IH]; [by apply delete_empty|]. cbn [map list_to_map foldr]. rewrite filter_cons.
    case_decide as E.
    + rewrite delete_insert_ne by done. cbn [map list_to_map foldr fst snd]. f_equal. exact IH.
    + assert (fst (fst e) = fst (fst e0)) as -> by (by destruct (decide (fst (fst e) = fst (fst e0)))).
      rewrite delete_insert_eq. exact IH.
Qed.

(** ** The specification *)

(** The listeners in the order of connection: the reader, the sender or every sender, the listener. *)
Abbreviation Registry := (list (Z * option Z * C)).

Inductive lop :=
| LConnect (self_id : Z) (oppo : option Z) (c : C)
| LDisconnect (self_id : Z) (oppo : option Z)
| LRun (sender : Z).

Definition run_lop (h : ListenerHandler) (o : lop) : ListenerHandler :=
  match o with
  | LConnect self None c => ConnectSelf self c h
  | LConnect self (Some oppo) c => ConnectOppo self oppo c h
  | LDisconnect self None => DisconnectSelf self h
  | LDisconnect self (Some oppo) => DisconnectOppo self oppo h
  | LRun sender => snd (Run sender h)
  end.

Definition spec_lop (reg : Registry) (o : lop) : Registry :=
  match o with
  | LConnect self oppo c => reg ++ [(self, oppo, c)]
  | LDisconnect self oppo => filter (fun e => fst e <> (self, oppo)) reg
  | LRun _ => reg
  end.

(** The listeners for a sender, or those for every sender. *)
Definition entries (key : option Z) (reg : Registry) : list (Z * C) :=
  map (fun e => (fst (fst e), snd e)) (filter (fun e => snd (fst e) = key) reg).

(** A reader does not connect again before it disconnects. *)
Definition fresh (reg : Registry) (o : lop) : Prop :=
  match o with LConnect self oppo _ => self ∉ (entries oppo reg).*1 | _ => True end.

Fixpoint all_fresh (reg : Registry) (os : list lop) : Prop :=
  match os with
  | [] => True
  | o :: os' => fresh reg o /\ all_fresh (spec_lop reg o) os'
  end.

Definition sig_of (key : option Z) (h : ListenerHandler) : Signal C :=
  match key with None => signal_ h | Some o => default signal_new (signals_ h !! o) end.
Definition conns_of (key : option Z) (h : ListenerHandler) : ConnectionMap :=
  match key with None => signal_conns_ h | Some o => default ∅ (signals_conns_ h !! o) end.

(** The handler implements the registry. *)
Definition implements (h : ListenerHandler) (reg : Registry) : Prop :=
  forall key, attached (sig_of key h) (conns_of key h) (entries key reg).

Lemma new_implements : implements handler_new [].
Proof. intros [o|]; apply attached_new. Qed.

(** An operation on the listeners of one key. *)
Lemma implements_update h h' reg reg' key :
  implements h reg -> (forall k, k <> key -> sig_of k h' = sig_of k h /\ conns_of k h' = conns_of k h) ->
  (forall k, k <> key -> entries k reg' = entries k reg) ->
  attached (sig_of key h') (conns_of key h') (entries key reg') -> implements h' reg'.
Proof.
  intros Hi Hh Hr Hk k. destruct (decide (k = key)) as [->|Hne]; [done|].
  destruct (Hh k Hne) as [-> ->]. rewrite (Hr k Hne). apply Hi.
Qed.

Lemma entries_connect self oppo c reg key :
  entries key (reg ++ [(self, oppo, c)]) = if decide (key = oppo) then entries key reg ++ [(self, c)] else entries key reg.
Proof.
  unfold entries. rewrite filter_app, filter_cons, filter_nil, map_app. cbn [fst snd].
  destruct (decide (oppo = key)); case_decide; try congruence; cbn; [done|by rewrite app_nil_r].
Qed.

Lemma entries_nil key : entries key [] = [].
Proof. done. Qed.

Lemma entries_cons self oppo c reg key :
  entries key ((self, oppo, c) :: reg) = if decide (key = oppo) then (self, c) :: entries key reg else entries key reg.
Proof.
  unfold entries. rewrite filter_cons. cbn [fst snd]. destruct (decide (oppo = key)); case_decide; try congruence; done.
Qed.

Lemma entries_disconnect self oppo reg key :
  entries key (filter (fun e => fst e <> (self, oppo)) reg) =
  if decide (key = oppo) then filter (fun e => fst e <> self) (entries key reg) else entries key reg.
Proof.
  unfold entries. induction reg as [|[[s o] c] reg IH]; [by case_decide|].
  destruct (decide (key = oppo)) as [->|Hk]; rewrite !filter_cons; cbn [fst snd];
    repeat first [case_decide; cbn [fst snd map] in * | rewrite filter_cons]; try congruence; naive_solver congruence.
Qed.

Lemma connect_implements h reg self oppo c :
  implements h reg -> self ∉ (entries oppo reg).*1 ->
  implements (run_lop h (LConnect self oppo c)) (reg ++ [(self, oppo, c)]).
Proof.
  intros Hi Hf. pose proof (Hi oppo) as Ha. pose proof (attached_connect _ _ _ _ c Ha Hf) as Hc.
  pose proof (connected_new (sig_of oppo h) (Some c)) as Hn.
  assert (Hwf : signal_wf (sig_of oppo h)) by by (destruct Ha as (? & _ & _ & ? & _)).
  specialize (Hn Hwf). cbv zeta in Hc. destruct oppo as [o|].
  - eapply (implements_update _ _ _ _ (Some o)); [exact Hi| | |].
    + intros [k|] Hk; [|cbn; unfold ConnectOppo; by case_match].
      cbn. unfold ConnectOppo. cbn [Connect]. destruct (negb _); cbn; rewrite ?lookup_insert_ne by congruence; done.
    + intros k Hk. rewrite entries_connect. by rewrite decide_False.
    + rewrite entries_connect, decide_True by done. cbn [run_lop]. unfold ConnectOppo.
      change (match signals_ h !! o with Some s => s | None => signal_new end) with (sig_of (Some o) h).
      rewrite (surjective_pairing (Connect _ _)). rewrite Hn. cbn [negb sig_of conns_of signals_ signals_conns_].
      rewrite !lookup_insert_eq. exact Hc.
  - eapply (implements_update _ _ _ _ None); [exact Hi| | |].
    + intros [k|] Hk; [|done]. cbn [run_lop]. unfold ConnectSelf, Connect. by destruct (negb _).
    + intros k Hk. rewrite entries_connect. by rewrite decide_False.
    + rewrite entries_connect, decide_True by done. cbn [run_lop]. unfold ConnectSelf.
      rewrite (surjective_pairing (Connect _ _)). cbn [sig_of] in Hn. rewrite Hn. exact Hc.
Qed.

(** Disconnecting a reader that is not connected changes nothing. *)
Lemma attached_absent s conns l self :
  attached s conns l -> conns !! self = None -> filter (fun e => fst e <> self) l = l.
Proof.
  intros (es & -> & _ & _ & _ & ->) Hn. apply not_elem_of_list_to_map_2 in Hn. rewrite conns_keys in Hn.
  induction es.*1 as [|e k IH]; [done|]. cbn [fmap list_fmap] in Hn. apply not_elem_of_cons in Hn as [H1 H2].
  rewrite filter_cons, decide_True by congruence. f_equal. by apply IH.
Qed.

Lemma disconnect_implements h reg self oppo :
  implements h reg ->
  implements (run_lop h (LDisconnect self oppo)) (filter (fun e => fst e <> (self, oppo)) reg).
Proof.
  intros Hi. pose proof (Hi oppo) as Ha. destruct (conns_of oppo h !! self) as [conn|] eqn:Hc.
  - pose proof (attached_disconnect _ _ _ _ _ Ha Hc) as Hd.
    eapply (implements_update _ _ _ _ oppo); [exact Hi| |intros k Hk; rewrite entries_disconnect; by rewrite decide_False|].
    + destruct oppo as [o|]; intros [k|] Hk; try done; cbn in *; unfold DisconnectOppo, DisconnectSelf;
        repeat case_match; cbn; rewrite ?lookup_alter_ne, ?lookup_insert_ne by congruence; done.
    + rewrite entries_disconnect, decide_True by done. destruct oppo as [o|]; cbn [run_lop conns_of sig_of] in *.
      * unfold DisconnectOppo. destruct (signals_conns_ h !! o) as [m|] eqn:Em; cbn in Hc, Hd; [|by rewrite lookup_empty in Hc].
        rewrite Hc. cbn [signals_ signals_conns_].
        rewrite lookup_alter_eq, lookup_insert_eq. by destruct (signals_ h !! o).
      * unfold DisconnectSelf. rewrite Hc. exact Hd.
  - assert (run_lop h (LDisconnect self oppo) = h) as ->.
    { destruct oppo as [o|]; cbn in *; unfold DisconnectOppo, DisconnectSelf; [|by rewrite Hc].
      destruct (signals_conns_ h !! o) as [m|]; [|done]. cbn in Hc. by rewrite Hc. }
    intros k. rewrite entries_disconnect. case_decide as E; [|apply Hi]. subst k.
    rewrite (attached_absent _ _ _ _ Ha Hc). exact Ha.
Qed.

(** What [Run] calls, and that it leaves the listeners. *)
Lemma run_calls h reg sender :
  implements h reg ->
  Run sender h = ((entries None reg).*2 ++ (entries (Some sender) reg).*2, h).
Proof.
  intros Hi. unfold Run. pose proof (attached_fire _ _ _ (Hi None)) as E1. cbn [sig_of] in E1. rewrite E1.
  cbn [signals_]. pose proof (Hi (Some sender)) as H2. pose proof (attached_fire _ _ _ H2) as E2. cbn [sig_of] in E2.
  destruct (signals_ h !! sender) as [s|] eqn:Es; cbn in E2.
  - rewrite E2. cbn [signal_ signal_conns_ signals_conns_]. rewrite insert_id by done. by destruct h.
  - destruct H2 as (es & He & _ & _ & Hs & _). cbn in Hs. rewrite Es in Hs. cbn in Hs. destruct es; [|done].
    rewrite He, app_nil_r. by destruct h.
Qed.

Lemma run_lops_implements os h reg :
  implements h reg -> all_fresh reg os -> implements (fold_left run_lop os h) (fold_left spec_lop os reg).
Proof.
  revert h reg. induction os as [|o os IH]; intros h reg Hi Hf; [done|]. destruct Hf as [Ho Hf]. cbn [fold_left].
  apply IH; [|done]. destruct o as [self oppo c|self oppo|sender].
  - by apply connect_implements.
  - by apply disconnect_implements.
  - cbn [run_lop]. by rewrite (run_calls _ _ _ Hi).
Qed.

(** After any connections, disconnections and messages, a message of a sender is handed to the listeners of every
    sender and then to the listeners of this sender, each once and in the order of their connection, and to no other; given that a
    reader does not connect twice for the same sender. *)
Theorem listener_handler_refines (os : list lop) (sender : Z) (Hfresh : all_fresh [] os) :
  let reg := fold_left spec_lop os [] in
  fst (Run sender (fold_left run_lop os handler_new)) =
    map snd (entries None reg) ++ map snd (entries (Some sender) reg).
Proof.
  cbv zeta. rewrite (run_calls _ _ _ (run_lops_implements _ _ _ new_implements Hfresh)). done.
Qed.

(** A reader that connects twice loses the first connection: that listener is called for ever. *)
Lemma reconnect_leaks (self : Z) (c1 c2 : C) :
  let h := fold_left run_lop [LConnect self None c1; LConnect self None c2; LDisconnect self None] handler_new in
  fst (Run 0 h) = [c1] /\ run_lop h (LDisconnect self None) = h.
Proof.
  cbv zeta. cbn [fold_left run_lop]. unfold ConnectSelf at 2. cbn.
  unfold DisconnectSelf, ConnectSelf. cbn. rewrite lookup_insert_eq. cbn. split; [done|].
  by rewrite lookup_delete_eq.
Qed.
End handler.
Arguments ListenerHandler : clear implicits.

Lemma listener_handler_refines_witness :
  fst (Run 5 (fold_left run_lop [LConnect 1 (Some 5) 10%nat; LConnect 2 None 20%nat; LConnect 3 (Some 6) 30%nat; LConnect 4 (Some 5) 40%nat;
    LDisconnect 1 (Some 5)] handler_new)) = [20%nat; 40%nat].
Proof.
  exact (listener_handler_refines [LConnect 1 (Some 5) 10%nat; LConnect 2 None 20%nat; LConnect 3 (Some 6) 30%nat;
    LConnect 4 (Some 5) 40%nat; LDisconnect 1 (Some 5)] 5 ltac:(cbn; repeat split; set_solver)).
Defined.
