(* ===== verification/FanOut.v ===== *)
(** * FanOut: what a dispatcher promises to the receivers

    The interface of the three dispatchers of a process (inside the process, shared memory, network) to the receivers that add and
    remove their listeners: as long as there is one reader for each channel and sender, a message is handed to the reader of
    every sender and to the reader of its sender, once each.  The dispatchers' files give the instances; the hybrid
    transport is proved against the class. *)

From S2P Require Import Prelude ShmMessage.

(** The readers, by channel and sender ([None]: every sender), with their identifiers and listeners. *)
Abbreviation Readers L := (gmap (Z * option Z) (Z * L)).

(** The readers that a message of a sender is for. *)
Definition addressed {L} (reg : Readers L) (ch sender : Z) : list L :=
  map snd (option_list (reg !! (ch, None)) ++ option_list (reg !! (ch, Some sender))).

(** The messages that are handed over; all operations name the channel by its identifier. *)
Class FanOut (D L V : Type) := {
  fo_new : D;
  fo_add : Z -> option Z -> Z -> L -> D -> D;
  fo_remove : Z -> option Z -> Z -> D -> D;
  fo_message : Z -> V -> MessageInfo -> D -> list (L * V) * D;
}.

Class FanOutLaws (D L V : Type) `{!FanOut D L V} := {
  fo_inv : Readers L -> D -> Prop;
  fo_new_inv : fo_inv ∅ fo_new;
  fo_add_inv : forall reg d self key ch l, fo_inv reg d -> is_u64 ch -> reg !! (ch, key) = None ->
    fo_inv (<[(ch, key) := (self, l)]> reg) (fo_add self key ch l d);
  fo_remove_inv : forall reg d self key ch, fo_inv reg d -> is_u64 ch ->
    (forall e, reg !! (ch, key) = Some e -> fst e = self) ->
    fo_inv (delete (ch, key) reg) (fo_remove self key ch d);
  fo_message_inv : forall reg d ch v info, fo_inv reg d -> is_u64 ch ->
    let '(log, d') := fo_message ch v info d in
    log = map (fun l => (l, v)) (addressed reg ch (hash_value_ (sender_id_ info))) /\ fo_inv reg d';
}.
