(* ===== verification/Dispatcher.v ===== *)
(** * Dispatcher: the listeners of messages from outside the process

    Models [cyber/transport/dispatcher/dispatcher.{h,cc}], and what [ShmDispatcher] and [RtpsDispatcher] do with it: their
    handlers are for blocks of memory ([ReadableBlock]) and for strings, and a reader's listener is wrapped in an adapter that parses the
    message.  How a message gets to the dispatcher, from a segment or from Fast-RTPS, is in [ShmTransport.v] or not under [src/].

    [parse] is the [ParseFromArray] or [ParseFromString] of the readers' class. *)

From S2P Require Import Prelude Interfaces ShmMessage Signal ListenerHandler FanOut.

Section dispatcher.
Context {KM : Type -> Type} `{!KeyMap KM} {V L : Type} (parse : bytes -> option V).

(** The handler of a channel, and the type that it was made for. *)
Record Dispatcher := mkDispatcher {
  is_shutdown_ : bool;
  msg_listeners_ : KM (string * ListenerHandler L);
}.

Definition dispatcher_new : Dispatcher := mkDispatcher false km_empty.

Definition Shutdown (d : Dispatcher) : Dispatcher := mkDispatcher true (msg_listeners_ d).

Definition HasChannel (channel_id : Z) (d : Dispatcher) : bool :=
  match km_get channel_id (msg_listeners_ d) with Some _ => true | None => false end.

(** The beginning of both [AddListener]: the handler of the channel, if it has the type of the listener's messages, and the
    dispatcher with a handler. *)
Definition find_handler (ty : string) (channel_id : Z) (d : Dispatcher) : option (ListenerHandler L) * Dispatcher :=
  match km_get channel_id (msg_listeners_ d) with
  | Some (ty', h) => (if String.eqb ty' ty then Some h else None, d)
  | None => (Some handler_new, mkDispatcher (is_shutdown_ d) (km_set channel_id (ty, handler_new) (msg_listeners_ d)))
  end.

Definition put (ty : string) (channel_id : Z) (h : ListenerHandler L) (d : Dispatcher) : Dispatcher :=
  mkDispatcher (is_shutdown_ d) (km_set channel_id (ty, h) (msg_listeners_ d)).

Definition AddListenerSelf (ty : string) (self_id channel_id : Z) (listener : L) (d : Dispatcher) : Dispatcher :=
  if is_shutdown_ d then d
  else match find_handler ty channel_id d with
       | (None, d1) => d1
       | (Some h, d1) => put ty channel_id (ConnectSelf self_id listener h) d1
       end.

Definition AddListenerOppo (ty : string) (self_id oppo_id channel_id : Z) (listener : L) (d : Dispatcher) : Dispatcher :=
  if is_shutdown_ d then d
  else match find_handler ty channel_id d with
       | (None, d1) => d1
       | (Some h, d1) => put ty channel_id (ConnectOppo self_id oppo_id listener h) d1
       end.

Definition RemoveListenerSelf (self_id channel_id : Z) (d : Dispatcher) : Dispatcher :=
  if is_shutdown_ d then d
  else match km_get channel_id (msg_listeners_ d) with
       | Some (ty, h) => put ty channel_id (DisconnectSelf self_id h) d
       | None => d
       end.

Definition RemoveListenerOppo (self_id oppo_id channel_id : Z) (d : Dispatcher) : Dispatcher :=
  if is_shutdown_ d then d
  else match km_get channel_id (msg_listeners_ d) with
       | Some (ty, h) => put ty channel_id (DisconnectOppo self_id oppo_id h) d
       | None => d
       end.

(** The adapter of a listener: called with the message if it can be parsed. *)
Definition listener_adapter (msg : bytes) (l : L) : list (L * V) :=
  match parse msg with Some v => [(l, v)] | None => [] end.

(** [OnMessage] of the two dispatchers. *)
Definition OnMessage (channel_id : Z) (msg : bytes) (info : MessageInfo) (d : Dispatcher) : list (L * V) * Dispatcher :=
  if is_shutdown_ d then ([], d)
  else match km_get channel_id (msg_listeners_ d) with
       | Some (ty, h) =>
           let '(ls, h') := Run (hash_value_ (sender_id_ info)) h in
           (concat (map (listener_adapter msg) ls), put ty channel_id h' d)
       | None => ([], d)
       end.
End dispatcher.
Arguments Dispatcher : clear implicits.

(** ** The promise, for messages that can be parsed *)

Section promise.
Context {KM : Type -> Type} `{!KeyMap KM, !KeyMapLaws KM} {V L : Type}.
Context (parse : bytes -> option V) (serialize : V -> bytes) (ty : string).
Hypothesis parse_serialize : forall v, parse (serialize v) = Some v.

Abbreviation Dispatcher := (Dispatcher KM L).

(** The two forms of each operation, by the sender that a reader wants. *)
Definition add (self : Z) (key : option Z) (ch : Z) (l : L) (d : Dispatcher) : Dispatcher :=
  match key with None => AddListenerSelf ty self ch l d | Some o => AddListenerOppo ty self o ch l d end.
Definition remove (self : Z) (key : option Z) (ch : Z) (d : Dispatcher) : Dispatcher :=
  match key with None => RemoveListenerSelf self ch d | Some o => RemoveListenerOppo self o ch d end.

Definition listens (reg : Readers L) (ch : Z) (h : ListenerHandler L) : Prop :=
  exists R, implements h R /\ forall key, entries key R = option_list (reg !! (ch, key)).

Record dispatcher_inv (reg : Readers L) (d : Dispatcher) : Prop := {
  di_live : is_shutdown_ d = false;
  di_wf : km_wf (msg_listeners_ d);
  di_handlers : forall ch, is_u64 ch ->
    match km_get ch (msg_listeners_ d) with
    | Some (ty', h) => ty' = ty /\ listens reg ch h
    | None => forall key, reg !! (ch, key) = None
    end;
}.

Lemma outer_new_inv : dispatcher_inv ∅ dispatcher_new.
Proof. split; [done|apply km_empty_wf|]. intros ch Hch. cbn. rewrite km_get_empty by done. intros. apply lookup_empty. Qed.

(** A change of the handler of one channel. *)
Lemma put_inv reg reg' d ch h :
  dispatcher_inv reg d -> is_u64 ch -> (forall ch' key, ch' <> ch -> reg' !! (ch', key) = reg !! (ch', key)) ->
  listens reg' ch h -> dispatcher_inv reg' (put ty ch h d).
Proof.
  intros [Hl Hwf Hd] Hch Ho Hh. split; cbn [put is_shutdown_ msg_listeners_]; [done|by apply km_set_wf|].
  intros ch' Hch'. rewrite km_get_set by done. case_decide as E; [by subst ch'|]. specialize (Hd ch' Hch').
  destruct (km_get ch' (msg_listeners_ d)) as [[ty' h']|].
  - destruct Hd as [-> (R & Hi & He)]. split; [done|]. exists R. split; [done|]. intros key. by rewrite He, Ho.
  - intros key. by rewrite Ho.
Qed.

Lemma outer_add_inv reg d self key ch l :
  dispatcher_inv reg d -> is_u64 ch -> reg !! (ch, key) = None ->
  dispatcher_inv (<[(ch, key) := (self, l)]> reg) (add self key ch l d).
Proof.
  intros Hd Hch Hn.
  assert (E : add self key ch l d = match find_handler ty ch d with
      | (None, d1) => d1 | (Some h, d1) => put ty ch (run_lop h (LConnect self key l)) d1 end).
  { destruct key; cbn [add]; [unfold AddListenerOppo|unfold AddListenerSelf]; by rewrite (di_live _ _ Hd). }
  assert (Hf : exists h d1, find_handler ty ch d = (Some h, d1) /\ dispatcher_inv reg d1 /\ listens reg ch h).
  { unfold find_handler. pose proof (di_handlers _ _ Hd ch Hch) as H.
    destruct (km_get ch (msg_listeners_ d)) as [[ty' h]|].
    - destruct H as [-> Hh]. rewrite String.eqb_refl. by exists h, d.
    - assert (Hh : listens reg ch handler_new).
      { exists []. split; [apply new_implements|]. intros k. by rewrite H. }
      eexists _, _. split; [done|]. split; [|done]. by apply (put_inv reg). }
  rewrite E. destruct Hf as (h & d1 & -> & Hd1 & R & Hi & He). apply (put_inv reg); [done|done| |].
  - intros ch' k Hne. by rewrite lookup_insert_ne by congruence.
  - exists (R ++ [(self, key, l)]). split.
    + apply connect_implements; [done|]. rewrite He, Hn. by intros ?%elem_of_nil.
    + intros k. rewrite entries_connect, He. case_decide as Ek.
      * subst k. by rewrite Hn, lookup_insert_eq.
      * by rewrite lookup_insert_ne by congruence.
Qed.

Lemma outer_remove_inv reg d self key ch :
  dispatcher_inv reg d -> is_u64 ch -> (forall e, reg !! (ch, key) = Some e -> fst e = self) ->
  dispatcher_inv (delete (ch, key) reg) (remove self key ch d).
Proof.
  intros Hd Hch Hs.
  assert (E : remove self key ch d = match km_get ch (msg_listeners_ d) with
      | Some (ty, h) => put ty ch (run_lop h (LDisconnect self key)) d | None => d end).
  { destruct key; cbn [remove]; [unfold RemoveListenerOppo|unfold RemoveListenerSelf]; by rewrite (di_live _ _ Hd). }
  rewrite E. pose proof (di_handlers _ _ Hd ch Hch) as H. destruct (km_get ch (msg_listeners_ d)) as [[ty' h]|].
  - destruct H as [-> (R & Hi & He)]. apply (put_inv reg); [done|done| |].
    + intros ch' k Hne. by rewrite lookup_delete_ne by congruence.
    + exists (filter (fun e => fst e <> (self, key)) R). split; [by apply disconnect_implements|].
      intros k. rewrite entries_disconnect, He. case_decide as Ek.
      * subst k. rewrite lookup_delete_eq. destruct (reg !! (ch, key)) as [e|]; [|done]. specialize (Hs e eq_refl).
        change (option_list (Some e)) with [e]. rewrite filter_cons, decide_False; [done|]. intros Hne. by apply Hne.
      * by rewrite lookup_delete_ne by congruence.
  - by rewrite delete_id by apply H.
Qed.

Lemma adapters_all v (ls : list L) :
  concat (map (listener_adapter parse (serialize v)) ls) = map (fun l => (l, v)) ls.
Proof. induction ls as [|l ls IH]; [done|]. cbn. unfold listener_adapter at 1. rewrite parse_serialize, IH. done. Qed.

Lemma outer_message_inv reg d ch v info :
  dispatcher_inv reg d -> is_u64 ch ->
  let '(log, d') := OnMessage parse ch (serialize v) info d in
  log = map (fun l => (l, v)) (addressed reg ch (hash_value_ (sender_id_ info))) /\ dispatcher_inv reg d'.
Proof.
  intros Hd Hch. unfold OnMessage, addressed. rewrite (di_live _ _ Hd).
  pose proof (di_handlers _ _ Hd ch Hch) as H. destruct (km_get ch (msg_listeners_ d)) as [[ty' h]|].
  - destruct H as [-> Hh]. pose proof Hh as (R & Hi & He). rewrite (run_calls _ _ _ Hi), adapters_all, !He.
    split; [f_equal; symmetry; apply map_app|]. by apply (put_inv reg).
  - rewrite !H. by split.
Qed.

(** The instance for messages that are serialized and parsed again. *)
Definition dispatcher_FanOut : FanOut Dispatcher L V := {|
  fo_new := dispatcher_new;
  fo_add := add;
  fo_remove := remove;
  fo_message ch v info d := OnMessage parse ch (serialize v) info d;
|}.

Definition dispatcher_FanOutLaws : FanOutLaws Dispatcher L V (FanOut0 := dispatcher_FanOut) :=
  Build_FanOutLaws Dispatcher L V dispatcher_FanOut dispatcher_inv outer_new_inv outer_add_inv outer_remove_inv outer_message_inv.
End promise.
