(* ===== verification/IntraDispatcher.v ===== *)
(** * IntraDispatcher: messages to the readers of the same process

    Models [cyber/transport/dispatcher/dispatcher.{h,cc}] and [intra_dispatcher.h] over [ListenerHandler.v].

    The dispatcher has one handler for each channel, made for the type of the first reader, whose listeners are wrappers that run the
    chain; and the chain has a handler for each channel and type of reader (and sender), whose listeners are the readers'.  A
    reader of another type than the message gets it serialized and parsed again ([MessageHeader.v]).

    A C++ class of messages is known by the name that [GetMessageName] gives; [class_of] gives its operations and
    [V] holds the messages of all the classes.  [msg_listeners_] is a map with 64-bit keys.  Listeners neither add nor
    remove listeners; the operations hold the locks of the maps.  What runs is the log of the readers'
    listeners that are called, with the message. *)

From stdpp Require Import sorting.
From S2P Require Import Prelude Interfaces ShmMessage MessageHeader Signal ListenerHandler.

(** The capture list of [listener_wrapper]. *)
Record Wrapper := mkWrapper { w_self_id : Z; w_oppo_id : option Z; w_channel_id : Z; w_message_type : string }.

Section dispatcher.
Context {KM : Type -> Type} `{!KeyMap KM} {V L : Type} (class_of : string -> MessageClass V).

(** [BaseHandlersType]: by channel, by type. *)
Abbreviation Handlers := (gmap Z (gmap string (ListenerHandler L))).

Record ChannelChain := mkChain { handlers_ : Handlers; oppo_handlers_ : gmap Z Handlers }.

(** The handler of a channel has the type of its messages. *)
Record IntraDispatcher := mkDispatcher {
  is_shutdown_ : bool;
  msg_listeners_ : KM (string * ListenerHandler Wrapper);
  chain_ : ChannelChain;
}.

Definition dispatcher_new : IntraDispatcher := mkDispatcher false km_empty (mkChain ∅ ∅).

Definition DispatcherShutdown (d : IntraDispatcher) : IntraDispatcher := mkDispatcher true (msg_listeners_ d) (chain_ d).

Definition HasChannel (channel_id : Z) (d : IntraDispatcher) : bool :=
  match km_get channel_id (msg_listeners_ d) with Some _ => true | None => false end.

(** ** The chain *)

(** The handler, whether it was made, and the map with it. *)
Definition GetHandler (channel_id : Z) (message_type : string) (hs : Handlers) : ListenerHandler L * bool * Handlers :=
  let types := match hs !! channel_id with Some m => m | None => ∅ end in
  match types !! message_type with
  | Some h => (h, false, <[channel_id := types]> hs)
  | None => (handler_new, true, <[channel_id := <[message_type := handler_new]> types]> hs)
  end.

Definition put_handler (channel_id : Z) (message_type : string) (h : ListenerHandler L) (hs : Handlers) : Handlers :=
  alter (insert message_type h) channel_id hs.

Definition ChainAddSelf (self_id channel_id : Z) (message_type : string) (listener : L) (c : ChannelChain)
    : bool * ChannelChain :=
  let '(h, created, hs) := GetHandler channel_id message_type (handlers_ c) in
  (created, mkChain (put_handler channel_id message_type (ConnectSelf self_id listener h) hs) (oppo_handlers_ c)).

Definition ChainAddOppo (self_id oppo_id channel_id : Z) (message_type : string) (listener : L) (c : ChannelChain)
    : bool * ChannelChain :=
  let handlers := match oppo_handlers_ c !! oppo_id with Some hs => hs | None => ∅ end in
  let '(h, created, hs) := GetHandler channel_id message_type handlers in
  (created, mkChain (handlers_ c)
     (<[oppo_id := put_handler channel_id message_type (ConnectOppo self_id oppo_id listener h) hs]> (oppo_handlers_ c))).

(** The handler of the channel and type is taken out, with the channel's entry when it was the last. *)
Definition RemoveHandler (channel_id : Z) (message_type : string) (hs : Handlers)
    : option (ListenerHandler L) * Handlers :=
  match hs !! channel_id with
  | None => (None, hs)
  | Some types =>
      let types' := delete message_type types in
      (types !! message_type,
       if bool_decide (types' = ∅) then delete channel_id hs else <[channel_id := types']> hs)
  end.

(** The handler that was taken out is disconnected and dropped. *)
Definition ChainRemoveSelf (self_id channel_id : Z) (message_type : string) (c : ChannelChain) : ChannelChain :=
  let '(h, hs) := RemoveHandler channel_id message_type (handlers_ c) in
  let _dropped := DisconnectSelf self_id <$> h in
  mkChain hs (oppo_handlers_ c).

Definition ChainRemoveOppo (self_id oppo_id channel_id : Z) (message_type : string) (c : ChannelChain) : ChannelChain :=
  match oppo_handlers_ c !! oppo_id with
  | None => c
  | Some handlers =>
      let '(h, hs) := RemoveHandler channel_id message_type handlers in
      let _dropped := DisconnectOppo self_id oppo_id <$> h in
      mkChain (handlers_ c)
        (if bool_decide (hs = ∅) then delete oppo_id (oppo_handlers_ c) else <[oppo_id := hs]> (oppo_handlers_ c))
  end.

(** What the readers' listeners are given. *)
Definition Log : Type := list (L * V).

(** [RunFromString] of a handler for messages of type [ty]; a message that cannot be parsed is dropped. *)
Definition RunFromString {C} (ty : string) (str : bytes) (sender : Z) (h : ListenerHandler C) : list (C * V) * ListenerHandler C :=
  match ParseFromHC (class_of ty) str (mc_new (class_of ty)) with
  | Some v => let '(ls, h') := Run sender h in (map (fun l => (l, v)) ls, h')
  | None => ([], h)
  end.

(** The message as a string, if it can be serialized. *)
Definition to_string (ty : string) (v : V) : option bytes :=
  let msg_size := FullByteSize (class_of ty) v in
  if msg_size <? 0 then None else SerializeToHC (class_of ty) v msg_size.

(** The types of a channel in the order of [std::map]. *)
Definition type_le (a b : string * ListenerHandler L) : Prop := String.leb (fst a) (fst b) = true.
#[local] Instance type_le_dec a b : Decision (type_le a b).
Proof. unfold type_le. apply _. Defined.

Definition channel_types (m : gmap string (ListenerHandler L)) : list (string * ListenerHandler L) :=
  merge_sort type_le (map_to_list m).

Definition run_type (message_type : string) (message : V) (sender : Z) (acc : Log * gmap string (ListenerHandler L))
    (ele : string * ListenerHandler L) : Log * gmap string (ListenerHandler L) :=
  let '(log, m) := acc in
  let '(ty, h) := ele in
  if String.eqb message_type ty then
    let '(ls, h') := Run sender h in (log ++ map (fun l => (l, message)) ls, <[ty := h']> m)
  else
    match to_string message_type message with
    | None => (log, m)
    | Some str => let '(ls, h') := RunFromString ty str sender h in (log ++ ls, <[ty := h']> m)
    end.

(** The private [Run]. *)
Definition run_handlers (channel_id : Z) (message_type : string) (message : V) (sender : Z) (hs : Handlers) : Log * Handlers :=
  match hs !! channel_id with
  | None => ([], hs)
  | Some types =>
      let '(log, types') := fold_left (run_type message_type message sender) (channel_types types) ([], types) in
      (log, <[channel_id := types']> hs)
  end.

Definition ChainRunSelf (channel_id : Z) (message_type : string) (message : V) (sender : Z) (c : ChannelChain)
    : Log * ChannelChain :=
  let '(log, hs) := run_handlers channel_id message_type message sender (handlers_ c) in
  (log, mkChain hs (oppo_handlers_ c)).

Definition ChainRunOppo (oppo_id channel_id : Z) (message_type : string) (message : V) (sender : Z) (c : ChannelChain)
    : Log * ChannelChain :=
  match oppo_handlers_ c !! oppo_id with
  | None => ([], c)
  | Some handlers =>
      let '(log, hs) := run_handlers channel_id message_type message sender handlers in
      (log, mkChain (handlers_ c) (<[oppo_id := hs]> (oppo_handlers_ c)))
  end.

(** ** The dispatcher *)

(** A wrapper is called with a message of the type of the channel's handler. *)
Definition call_wrapper (sender : Z) (acc : Log * ChannelChain) (wv : Wrapper * V) : Log * ChannelChain :=
  let '(log, c) := acc in
  let '(w, v) := wv in
  let '(log', c') :=
    match w_oppo_id w with
    | None => ChainRunSelf (w_channel_id w) (w_message_type w) v sender c
    | Some oppo => ChainRunOppo oppo (w_channel_id w) (w_message_type w) v sender c
    end in
  (log ++ log', c').

Definition OnMessage (channel_id : Z) (message_type : string) (message : V) (info : MessageInfo) (d : IntraDispatcher)
    : Log * IntraDispatcher :=
  let sender := hash_value_ (sender_id_ info) in
  if is_shutdown_ d then ([], d)
  else
    match km_get channel_id (msg_listeners_ d) with
    | None => ([], d)
    | Some (ty, h) =>
        let '(ws, h') :=
          if String.eqb ty message_type then
            let '(ws, h') := Run sender h in (map (fun w => (w, message)) ws, h')
          else
            match to_string message_type message with
            | None => ([], h)
            | Some str => RunFromString ty str sender h
            end in
        let '(log, c) := fold_left (call_wrapper sender) ws ([], chain_ d) in
        (log, mkDispatcher (is_shutdown_ d) (km_set channel_id (ty, h') (msg_listeners_ d)) c)
    end.

(** [IntraDispatcher::GetHandler]: the handler if it is for this type, and the map, with a new handler if there was none. *)
Definition DispatcherGetHandler (channel_id : Z) (message_type : string) (d : IntraDispatcher)
    : option (ListenerHandler Wrapper) * IntraDispatcher :=
  match km_get channel_id (msg_listeners_ d) with
  | Some (ty, h) => (if String.eqb ty message_type then Some h else None, d)
  | None =>
      (Some handler_new,
       mkDispatcher (is_shutdown_ d) (km_set channel_id (message_type, handler_new) (msg_listeners_ d)) (chain_ d))
  end.

Definition AddListenerSelf (self_id channel_id : Z) (message_type : string) (listener : L) (d : IntraDispatcher) : IntraDispatcher :=
  if is_shutdown_ d then d
  else
    let '(created, c) := ChainAddSelf self_id channel_id message_type listener (chain_ d) in
    let '(handler, d1) := DispatcherGetHandler channel_id message_type (mkDispatcher (is_shutdown_ d) (msg_listeners_ d) c) in
    match handler with
    | Some h =>
        if created then
          mkDispatcher (is_shutdown_ d1)
            (km_set channel_id (message_type, ConnectSelf self_id (mkWrapper self_id None channel_id message_type) h) (msg_listeners_ d1))
            (chain_ d1)
        else d1
    | None => d1
    end.

Definition AddListenerOppo (self_id oppo_id channel_id : Z) (message_type : string) (listener : L) (d : IntraDispatcher)
    : IntraDispatcher :=
  if is_shutdown_ d then d
  else
    let '(created, c) := ChainAddOppo self_id oppo_id channel_id message_type listener (chain_ d) in
    let '(handler, d1) := DispatcherGetHandler channel_id message_type (mkDispatcher (is_shutdown_ d) (msg_listeners_ d) c) in
    match handler with
    | Some h =>
        if created then
          mkDispatcher (is_shutdown_ d1)
            (km_set channel_id
               (message_type, ConnectOppo self_id oppo_id (mkWrapper self_id (Some oppo_id) channel_id message_type) h)
               (msg_listeners_ d1))
            (chain_ d1)
        else d1
    | None => d1
    end.

(** [Dispatcher::RemoveListener], on the wrappers. *)
Definition remove_wrapper (f : ListenerHandler Wrapper -> ListenerHandler Wrapper) (channel_id : Z) (d : IntraDispatcher)
    : IntraDispatcher :=
  match km_get channel_id (msg_listeners_ d) with
  | Some (ty, h) => mkDispatcher (is_shutdown_ d) (km_set channel_id (ty, f h) (msg_listeners_ d)) (chain_ d)
  | None => d
  end.

Definition RemoveListenerSelf (self_id channel_id : Z) (message_type : string) (d : IntraDispatcher) : IntraDispatcher :=
  if is_shutdown_ d then d
  else
    let d1 := remove_wrapper (DisconnectSelf self_id) channel_id d in
    mkDispatcher (is_shutdown_ d1) (msg_listeners_ d1) (ChainRemoveSelf self_id channel_id message_type (chain_ d1)).

Definition RemoveListenerOppo (self_id oppo_id channel_id : Z) (message_type : string) (d : IntraDispatcher) : IntraDispatcher :=
  if is_shutdown_ d then d
  else
    let d1 := remove_wrapper (DisconnectOppo self_id oppo_id) channel_id d in
    mkDispatcher (is_shutdown_ d1) (msg_listeners_ d1) (ChainRemoveOppo self_id oppo_id channel_id message_type (chain_ d1)).
End dispatcher.
Arguments IntraDispatcher : clear implicits.
