(* ===== verification/IntraFanOut.v ===== *)
(** * IntraFanOut: who gets a message inside a process

    Sequences of the operations of [IntraDispatcher]: with one reader for each channel and sender, which is what a process
    has, a message goes to the readers of every sender and to those of its sender, and to no other.  Then what
    happens with two readers, and with readers of two types. *)

From stdpp Require Import sorting.
From S2P Require Import Prelude Interfaces ShmMessage MessageHeader Signal ListenerHandler FanOut IntraDispatcher.

Section fan_out.
Context {KM : Type -> Type} `{!KeyMap KM, !KeyMapLaws KM} {V L : Type} (class_of : string -> MessageClass V).

Abbreviation Chain := (ChannelChain (L := L)).
Abbreviation Dispatcher := (IntraDispatcher KM L).

(** The two forms of each operation, by the sender that a reader wants. *)
Definition chain_add (self : Z) (key : option Z) (ch : Z) (ty : string) (l : L) (c : Chain) : bool * Chain :=
  match key with None => ChainAddSelf self ch ty l c | Some o => ChainAddOppo self o ch ty l c end.
Definition chain_remove (self : Z) (key : option Z) (ch : Z) (ty : string) (c : Chain) : Chain :=
  match key with None => ChainRemoveSelf self ch ty c | Some o => ChainRemoveOppo self o ch ty c end.
Definition chain_run (key : option Z) (ch : Z) (ty : string) (v : V) (sender : Z) (c : Chain) : list (L * V) * Chain :=
  match key with None => ChainRunSelf class_of ch ty v sender c | Some o => ChainRunOppo class_of o ch ty v sender c end.

(** The handlers of a channel for a sender. *)
Definition chain_types (key : option Z) (ch : Z) (c : Chain) : option (gmap string (ListenerHandler L)) :=
  match key with None => handlers_ c !! ch | Some o => oppo_handlers_ c !! o ≫= (fun hs => hs !! ch) end.

(** ** The chain *)

Lemma get_handler_none ch ty (hs : gmap Z (gmap string (ListenerHandler L))) :
  hs !! ch = None -> GetHandler ch ty hs = (handler_new, true, <[ch := {[ty := handler_new]}]> hs).
Proof. intros H. unfold GetHandler. rewrite H, lookup_empty. by rewrite insert_empty. Qed.

Lemma put_handler_new ch ty (h h0 : ListenerHandler L) hs :
  put_handler ch ty h (<[ch := {[ty := h0]}]> hs) = <[ch := {[ty := h]}]> hs.
Proof. unfold put_handler. rewrite alter_insert_eq. by rewrite insert_singleton_eq. Qed.

Lemma chain_add_new self key ch ty l (c : Chain) :
  chain_types key ch c = None ->
  let '(created, c') := chain_add self key ch ty l c in
  created = true /\
  chain_types key ch c' = Some {[ty := run_lop handler_new (LConnect self key l)]} /\
  (forall k ch', (k, ch') <> (key, ch) -> chain_types k ch' c' = chain_types k ch' c).
Proof.
  destruct key as [o|]; cbn [chain_types chain_add]; intros Hn.
  - unfold ChainAddOppo. set (hs := match oppo_handlers_ c !! o with Some hs => hs | None => ∅ end).
    assert (Hhs : hs !! ch = None) by (unfold hs; destruct (oppo_handlers_ c !! o); [done|apply lookup_empty]).
    rewrite (get_handler_none _ _ _ Hhs), put_handler_new. split; [done|]. cbn [oppo_handlers_ handlers_].
    rewrite lookup_insert_eq. cbn. rewrite lookup_insert_eq. split; [done|].
    intros [o'|] ch' Hne; [|done]. cbn. rewrite lookup_insert. case_decide as Ho; [|done]. subst o'. cbn.
    rewrite lookup_insert_ne by congruence. unfold hs. destruct (oppo_handlers_ c !! o); [done|apply lookup_empty].
  - unfold ChainAddSelf. rewrite (get_handler_none _ _ _ Hn), put_handler_new. split; [done|]. cbn [handlers_].
    rewrite lookup_insert_eq. split; [done|]. intros [o|] ch' Hne; [done|]. cbn. by rewrite lookup_insert_ne by congruence.
Qed.

Lemma remove_handler_one ch ty (h : ListenerHandler L) hs :
  hs !! ch = Some {[ty := h]} -> RemoveHandler ch ty hs = (Some h, delete ch hs).
Proof.
  intros H. unfold RemoveHandler. rewrite H, lookup_singleton_eq, delete_singleton_eq. by rewrite bool_decide_eq_true_2.
Qed.

Lemma chain_remove_one self key ch ty h (c : Chain) :
  chain_types key ch c = Some {[ty := h]} ->
  let c' := chain_remove self key ch ty c in
  chain_types key ch c' = None /\
  (forall k ch', (k, ch') <> (key, ch) -> chain_types k ch' c' = chain_types k ch' c).
Proof.
  destruct key as [o|]; cbn [chain_types chain_remove]; intros Hs.
  - unfold ChainRemoveOppo. destruct (oppo_handlers_ c !! o) as [hs|] eqn:Eo; [|done]. cbn in Hs.
    rewrite (remove_handler_one _ _ _ _ Hs). cbn [oppo_handlers_ handlers_].
    case_bool_decide as He.
    + rewrite lookup_delete_eq. split; [done|]. intros [o'|] ch' Hne; [|done]. cbn. rewrite lookup_delete.
      case_decide as Ho; [|done]. subst o'. rewrite Eo. cbn.
      assert (H : delete ch hs !! ch' = None) by (by rewrite He, lookup_empty).
      rewrite lookup_delete_ne in H by congruence. done.
    + rewrite lookup_insert_eq. cbn. rewrite lookup_delete_eq. split; [done|]. intros [o'|] ch' Hne; [|done]. cbn.
      rewrite lookup_insert. case_decide as Ho; [|done]. subst o'. rewrite Eo. cbn. by rewrite lookup_delete_ne by congruence.
  - unfold ChainRemoveSelf. rewrite (remove_handler_one _ _ _ _ Hs). cbn [handlers_]. rewrite lookup_delete_eq.
    split; [done|]. intros [o|] ch' Hne; [done|]. cbn. by rewrite lookup_delete_ne by congruence.
Qed.

Lemma chain_remove_none self key ch ty (c : Chain) :
  chain_types key ch c = None ->
  forall k ch', chain_types k ch' (chain_remove self key ch ty c) = chain_types k ch' c.
Proof.
  destruct key as [o|]; cbn [chain_types chain_remove]; intros Hn k ch'.
  - unfold ChainRemoveOppo, RemoveHandler. destruct (oppo_handlers_ c !! o) as [hs|] eqn:Eo; [|done]. cbn in Hn. rewrite Hn.
    destruct k as [o'|]; [|done]. cbn. case_bool_decide as He.
    + rewrite lookup_delete. case_decide as Ho; [|done]. subst o'. rewrite Eo, He. cbn. by rewrite lookup_empty.
    + rewrite lookup_insert. case_decide as Ho; [|done]. subst o'. by rewrite Eo.
  - unfold ChainRemoveSelf, RemoveHandler. by rewrite Hn.
Qed.

Lemma channel_types_singleton ty (h : ListenerHandler L) : channel_types {[ty := h]} = [(ty, h)].
Proof. unfold channel_types. by rewrite map_to_list_singleton. Qed.

Lemma run_handlers_one ch ty v sender (h : ListenerHandler L) ls hs :
  hs !! ch = Some {[ty := h]} -> Run sender h = (ls, h) ->
  run_handlers class_of ch ty v sender hs = (map (fun l => (l, v)) ls, hs).
Proof.
  intros H Hr. unfold run_handlers. rewrite H, channel_types_singleton. cbn [fold_left run_type].
  rewrite String.eqb_refl, Hr. cbn [app]. by rewrite insert_singleton_eq, insert_id.
Qed.

Lemma chain_run_one key ch ty v sender (h : ListenerHandler L) ls (c : Chain) :
  chain_types key ch c = Some {[ty := h]} -> Run sender h = (ls, h) ->
  chain_run key ch ty v sender c = (map (fun l => (l, v)) ls, c).
Proof.
  destruct key as [o|]; cbn [chain_types chain_run]; intros Hs Hr.
  - unfold ChainRunOppo. destruct (oppo_handlers_ c !! o) as [hs|] eqn:Eo; [|done]. cbn in Hs.
    rewrite (run_handlers_one _ _ _ _ _ _ _ Hs Hr). rewrite insert_id by done. by destruct c.
  - unfold ChainRunSelf. rewrite (run_handlers_one _ _ _ _ _ _ _ Hs Hr). by destruct c.
Qed.

Lemma chain_run_none key ch ty v sender (c : Chain) :
  chain_types key ch c = None -> chain_run key ch ty v sender c = ([], c).
Proof.
  destruct key as [o|]; cbn [chain_types chain_run]; intros Hs.
  - unfold ChainRunOppo, run_handlers. destruct (oppo_handlers_ c !! o) as [hs|] eqn:Eo; [|done]. cbn in Hs. rewrite Hs.
    rewrite insert_id by done. by destruct c.
  - unfold ChainRunSelf, run_handlers. rewrite Hs. by destruct c.
Qed.

(** ** The dispatcher *)

Definition add (self : Z) (key : option Z) (ch : Z) (ty : string) (l : L) (d : Dispatcher) : Dispatcher :=
  match key with None => AddListenerSelf self ch ty l d | Some o => AddListenerOppo self o ch ty l d end.
Definition remove (self : Z) (key : option Z) (ch : Z) (ty : string) (d : Dispatcher) : Dispatcher :=
  match key with None => RemoveListenerSelf self ch ty d | Some o => RemoveListenerOppo self o ch ty d end.

Lemma add_unfold self key ch ty l d :
  is_shutdown_ d = false ->
  add self key ch ty l d =
    let '(created, c) := chain_add self key ch ty l (chain_ d) in
    let '(handler, d1) := DispatcherGetHandler ch ty (mkDispatcher false (msg_listeners_ d) c) in
    match handler with
    | Some h =>
        if created : bool then
          mkDispatcher (is_shutdown_ d1)
            (km_set ch (ty, run_lop h (LConnect self key (mkWrapper self key ch ty))) (msg_listeners_ d1)) (chain_ d1)
        else d1
    | None => d1
    end.
Proof. intros H. destruct key as [o|]; cbn [add]; [unfold AddListenerOppo|unfold AddListenerSelf]; by rewrite H. Qed.

Lemma remove_unfold self key ch ty d :
  is_shutdown_ d = false ->
  let d1 := remove_wrapper (fun h => run_lop h (LDisconnect self key)) ch d in
  remove self key ch ty d =
    mkDispatcher (is_shutdown_ d1) (msg_listeners_ d1) (chain_remove self key ch ty (chain_ d1)).
Proof. intros H. destruct key as [o|]; cbn [remove]; [unfold RemoveListenerOppo|unfold RemoveListenerSelf]; by rewrite H. Qed.

(** [tyof] is the type of the messages of a channel. *)
Abbreviation Readers := (Readers L).
Context (tyof : Z -> string).

Definition serves {A} (key : option Z) (e : Z * A) (h : ListenerHandler A) : Prop :=
  exists R, implements h R /\ entries key R = [e] /\ forall k, k <> key -> entries k R = [].

Definition wrappers (reg : Readers) (ch : Z) (h : ListenerHandler Wrapper) : Prop :=
  exists R, implements h R /\ forall key, entries key R =
    match reg !! (ch, key) with
    | Some (self, _) => [(self, mkWrapper self key ch (tyof ch))]
    | None => []
    end.

Record dispatcher_inv (reg : Readers) (d : Dispatcher) : Prop := {
  di_live : is_shutdown_ d = false;
  di_wf : km_wf (msg_listeners_ d);
  di_msg : forall ch, is_u64 ch ->
    match km_get ch (msg_listeners_ d) with
    | Some (ty, h) => ty = tyof ch /\ wrappers reg ch h
    | None => forall key, reg !! (ch, key) = None
    end;
  di_chain : forall ch key,
    match reg !! (ch, key) with
    | Some e => exists h, chain_types key ch (chain_ d) = Some {[tyof ch := h]} /\ serves key e h
    | None => chain_types key ch (chain_ d) = None
    end;
}.

Lemma serves_new {A} self key (l : A) : serves key (self, l) (run_lop handler_new (LConnect self key l)).
Proof.
  exists ([] ++ [(self, key, l)]). split; [|split].
  - apply connect_implements; [apply new_implements|]. cbn. by intros ?%elem_of_nil.
  - by rewrite entries_connect, decide_True.
  - intros k Hk. by rewrite entries_connect, decide_False.
Qed.

Lemma run_serves {A} key self (l : A) sender h :
  serves key (self, l) h -> key = None \/ key = Some sender -> Run sender h = ([l], h).
Proof.
  intros (R & Hi & He & Hn) Hk. rewrite (run_calls _ _ _ Hi). destruct Hk as [-> | ->].
  - by rewrite He, Hn.
  - by rewrite He, (Hn None).
Qed.

Lemma intra_new_inv : dispatcher_inv ∅ dispatcher_new.
Proof.
  split; [done|apply km_empty_wf| |].
  - intros ch Hch. cbn. rewrite km_get_empty by done. intros key. apply lookup_empty.
  - intros ch key. rewrite lookup_empty. destruct key as [o|]; cbn; by rewrite lookup_empty.
Qed.

Lemma wrappers_other reg reg' ch h :
  wrappers reg ch h -> (forall key, reg' !! (ch, key) = reg !! (ch, key)) -> wrappers reg' ch h.
Proof. intros (R & Hi & He) H. exists R. split; [done|]. intros key. by rewrite H, He. Qed.

(** The chain's part, when one entry changes. *)
Lemma chain_update (reg : Readers) c c' ch key (e : option (Z * L)) :
  (forall ch key,
    match reg !! (ch, key) with
    | Some e => exists h, chain_types key ch c = Some {[tyof ch := h]} /\ serves key e h
    | None => chain_types key ch c = None
    end) ->
  (forall k ch', (k, ch') <> (key, ch) -> chain_types k ch' c' = chain_types k ch' c) ->
  match e with
  | Some e => exists h, chain_types key ch c' = Some {[tyof ch := h]} /\ serves key e h
  | None => chain_types key ch c' = None
  end ->
  forall ch' k,
    match partial_alter (fun _ => e) (ch, key) reg !! (ch', k) with
    | Some e => exists h, chain_types k ch' c' = Some {[tyof ch' := h]} /\ serves k e h
    | None => chain_types k ch' c' = None
    end.
Proof.
  intros Hc Ho He ch' k. destruct (decide ((ch, key) = (ch', k))) as [[= <- <-]|Hne].
  - rewrite lookup_partial_alter_eq. exact He.
  - rewrite lookup_partial_alter_ne by done. rewrite (Ho k ch') by congruence. apply Hc.
Qed.

Lemma intra_add_inv reg d self key ch l :
  dispatcher_inv reg d -> is_u64 ch -> reg !! (ch, key) = None ->
  dispatcher_inv (<[(ch, key) := (self, l)]> reg) (add self key ch (tyof ch) l d).
Proof.
  intros [Hl Hwf Hm Hc] Hch Hn. rewrite add_unfold by done.
  pose proof (Hc ch key) as Hkey. rewrite Hn in Hkey.
  pose proof (chain_add_new self key ch (tyof ch) l (chain_ d) Hkey) as Hadd.
  destruct (chain_add self key ch (tyof ch) l (chain_ d)) as [created c']. destruct Hadd as (-> & Hnew & Hother).
  pose proof (Hm ch Hch) as Hmsg.
  assert (Hw : exists h m, DispatcherGetHandler ch (tyof ch) (mkDispatcher false (msg_listeners_ d) c') =
      (Some h, mkDispatcher false m c') /\ wrappers reg ch h /\ km_wf m /\
      forall ch', is_u64 ch' -> ch <> ch' -> km_get ch' m = km_get ch' (msg_listeners_ d)).
  { unfold DispatcherGetHandler. cbn [msg_listeners_ is_shutdown_ chain_]. destruct (km_get ch (msg_listeners_ d)) as [[ty h]|].
    - destruct Hmsg as [-> Hw]. rewrite String.eqb_refl. by exists h, (msg_listeners_ d).
    - exists handler_new, (km_set ch (tyof ch, handler_new) (msg_listeners_ d)). split; [done|].
      split; [exists []; split; [apply new_implements|]; intros k; by rewrite Hmsg|].
      split; [by apply km_set_wf|]. intros ch' H1 H2. by apply km_get_set_ne. }
  destruct Hw as (h & m & -> & (R & Hi & He) & Hmwf & Hmo). cbn [is_shutdown_ msg_listeners_ chain_].
  split; cbn [is_shutdown_ msg_listeners_ chain_]; [done|by apply km_set_wf| |].
  - intros ch' Hch'. rewrite km_get_set by done. case_decide as E.
    + subst ch'. split; [done|]. exists (R ++ [(self, key, mkWrapper self key ch (tyof ch))]). split.
      * apply connect_implements; [done|]. rewrite He, Hn. by intros ?%elem_of_nil.
      * intros k. rewrite entries_connect, He. destruct (decide (k = key)) as [->|Hk].
        -- by rewrite lookup_insert_eq, Hn.
        -- by rewrite lookup_insert_ne by congruence.
    + rewrite Hmo by done. specialize (Hm ch' Hch'). destruct (km_get ch' (msg_listeners_ d)) as [[ty h']|].
      * destruct Hm as [-> Hw]. split; [done|]. eapply wrappers_other; [exact Hw|].
        intros k. by rewrite lookup_insert_ne by congruence.
      * intros k. rewrite lookup_insert_ne by congruence. apply Hm.
  - apply (chain_update reg (chain_ d) c' ch key (Some (self, l))); [done|done|].
    exists (run_lop handler_new (LConnect self key l)). split; [done|apply serves_new].
Qed.

Lemma remove_wrapper_chain f ch (d : Dispatcher) : chain_ (remove_wrapper f ch d) = chain_ d /\
  is_shutdown_ (remove_wrapper f ch d) = is_shutdown_ d.
Proof. unfold remove_wrapper. by destruct (km_get ch (msg_listeners_ d)) as [[ty h]|]. Qed.

(** The wrappers after a reader's was disconnected. *)
Lemma wrappers_remove reg ch h self key :
  wrappers reg ch h -> (forall e, reg !! (ch, key) = Some e -> fst e = self) ->
  wrappers (delete (ch, key) reg) ch (run_lop h (LDisconnect self key)).
Proof.
  intros (R & Hi & He) Hs. exists (filter (fun e => fst e <> (self, key)) R).
  split; [by apply disconnect_implements|]. intros k. rewrite entries_disconnect. case_decide as E.
  - subst k. rewrite lookup_delete_eq, He. destruct (reg !! (ch, key)) as [[s l]|] eqn:El; [|done].
    specialize (Hs _ eq_refl). cbn in Hs. subst s. rewrite filter_cons, decide_False; [done|]. intros H. by apply H.
  - rewrite lookup_delete_ne by congruence. apply He.
Qed.

Lemma intra_remove_inv reg d self key ch :
  dispatcher_inv reg d -> is_u64 ch -> (forall e, reg !! (ch, key) = Some e -> fst e = self) ->
  dispatcher_inv (delete (ch, key) reg) (remove self key ch (tyof ch) d).
Proof.
  intros [Hl Hwf Hm Hc] Hch Hs. rewrite remove_unfold by done. cbv zeta.
  set (f := fun h => run_lop h (LDisconnect self key)). destruct (remove_wrapper_chain f ch d) as [Ec El].
  split; cbn [is_shutdown_ msg_listeners_ chain_].
  - by rewrite El.
  - unfold remove_wrapper. destruct (km_get ch (msg_listeners_ d)) as [[ty h]|]; [by apply km_set_wf|done].
  - intros ch' Hch'. unfold remove_wrapper. pose proof (Hm ch Hch) as Hm0. pose proof (Hm ch' Hch') as Hm'.
    destruct (km_get ch (msg_listeners_ d)) as [[ty h]|] eqn:Eg; cbn [msg_listeners_].
    + rewrite km_get_set by done. case_decide as E.
      * subst ch'. destruct Hm0 as [-> Hw]. split; [done|]. by apply wrappers_remove.
      * destruct (km_get ch' (msg_listeners_ d)) as [[ty' h']|].
        -- destruct Hm' as [-> Hw]. split; [done|]. eapply wrappers_other; [exact Hw|].
           intros k. by rewrite lookup_delete_ne by congruence.
        -- intros k. by rewrite lookup_delete_ne by congruence.
    + rewrite delete_id by apply Hm0. exact Hm'.
  - rewrite Ec. pose proof (Hc ch key) as Hk. destruct (reg !! (ch, key)) as [e|] eqn:Er.
    + destruct Hk as (h & Ht & _). destruct (chain_remove_one self _ _ _ _ _ Ht) as [Hn Ho].
      apply (chain_update reg (chain_ d) _ ch key None); done.
    + rewrite delete_id by done. intros ch' k. rewrite chain_remove_none by done. apply Hc.
Qed.

Lemma call_wrapper_one reg d self key ch l v sender log :
  dispatcher_inv reg d -> reg !! (ch, key) = Some (self, l) -> key = None \/ key = Some sender ->
  call_wrapper class_of sender (log, chain_ d) (mkWrapper self key ch (tyof ch), v) = (log ++ [(l, v)], chain_ d).
Proof.
  intros Hd Hr Hk. pose proof (di_chain _ _ Hd ch key) as Hc. rewrite Hr in Hc. destruct Hc as (h & Ht & Hs).
  pose proof (chain_run_one key ch (tyof ch) v sender h [l] (chain_ d) Ht (run_serves _ _ _ _ _ Hs Hk)) as Hrun.
  unfold call_wrapper. cbn [w_oppo_id w_channel_id w_message_type].
  destruct key as [o|]; cbn [chain_run] in Hrun; by rewrite Hrun.
Qed.

Lemma intra_message_inv reg d ch v info :
  dispatcher_inv reg d -> is_u64 ch ->
  let '(log, d') := OnMessage class_of ch (tyof ch) v info d in
  log = map (fun l => (l, v)) (addressed reg ch (hash_value_ (sender_id_ info))) /\ dispatcher_inv reg d'.
Proof.
  intros Hd Hch. destruct Hd as [Hl Hwf Hm Hc] eqn:Ed. clear Ed. unfold OnMessage. rewrite Hl.
  set (sender := hash_value_ (sender_id_ info)).
  pose proof (Hm ch Hch) as Hmsg. destruct (km_get ch (msg_listeners_ d)) as [[ty h]|] eqn:Eg.
  2:{ unfold addressed. rewrite !Hmsg. by split. }
  destruct Hmsg as [-> (R & Hi & He)]. rewrite String.eqb_refl, (run_calls _ _ _ Hi), !He.
  assert (Hfold : fold_left (call_wrapper class_of sender)
      (map (fun w => (w, v))
        ((match reg !! (ch, None) with Some (self, _) => [(self, mkWrapper self None ch (tyof ch))] | None => [] end).*2 ++
         (match reg !! (ch, Some sender) with Some (self, _) => [(self, mkWrapper self (Some sender) ch (tyof ch))] | None => [] end).*2))
      ([], chain_ d) = (map (fun l => (l, v)) (addressed reg ch sender), chain_ d)).
  { unfold addressed. destruct (reg !! (ch, None)) as [[s1 l1]|] eqn:E1, (reg !! (ch, Some sender)) as [[s2 l2]|] eqn:E2;
      cbn [option_list fmap list_fmap app map snd fst fold_left];
      rewrite ?(call_wrapper_one reg d s1 None ch l1 v sender) by auto;
      rewrite ?(call_wrapper_one reg d s2 (Some sender) ch l2 v sender) by auto; done. }
  rewrite Hfold. split; [done|]. split; cbn [is_shutdown_ msg_listeners_ chain_]; [done|by apply km_set_wf| |done].
  intros ch' Hch'. rewrite km_get_set by done. case_decide as E; [|by apply Hm]. subst ch'. split; [done|]. by exists R.
Qed.

(** The promise to the receivers. *)
Definition intra_FanOut : FanOut Dispatcher L V := {|
  fo_new := dispatcher_new;
  fo_add self key ch l d := add self key ch (tyof ch) l d;
  fo_remove self key ch d := remove self key ch (tyof ch) d;
  fo_message ch v info d := OnMessage class_of ch (tyof ch) v info d;
|}.

Definition intra_FanOutLaws : FanOutLaws Dispatcher L V (FanOut0 := intra_FanOut) :=
  Build_FanOutLaws Dispatcher L V intra_FanOut dispatcher_inv intra_new_inv intra_add_inv intra_remove_inv intra_message_inv.

(** ** Sequences of operations *)

Inductive dop :=
| DAdd (self : Z) (key : option Z) (ch : Z) (l : L)
| DRemove (self : Z) (key : option Z) (ch : Z)
| DMessage (ch : Z) (v : V) (info : MessageInfo).

Definition run_dop (d : Dispatcher) (o : dop) : Dispatcher :=
  match o with
  | DAdd self key ch l => add self key ch (tyof ch) l d
  | DRemove self key ch => remove self key ch (tyof ch) d
  | DMessage ch v info => snd (OnMessage class_of ch (tyof ch) v info d)
  end.

Definition spec_dop (reg : Readers) (o : dop) : Readers :=
  match o with
  | DAdd self key ch l => <[(ch, key) := (self, l)]> reg
  | DRemove _ key ch => delete (ch, key) reg
  | DMessage _ _ _ => reg
  end.

(** One reader for each channel and sender; a reader removes only itself. *)
Definition allowed (reg : Readers) (o : dop) : Prop :=
  match o with
  | DAdd _ key ch _ => is_u64 ch /\ reg !! (ch, key) = None
  | DRemove self key ch => is_u64 ch /\ (forall e, reg !! (ch, key) = Some e -> fst e = self)
  | DMessage ch _ _ => is_u64 ch
  end.

Fixpoint all_allowed (reg : Readers) (os : list dop) : Prop :=
  match os with
  | [] => True
  | o :: os' => allowed reg o /\ all_allowed (spec_dop reg o) os'
  end.

Lemma run_dops_inv os reg d :
  dispatcher_inv reg d -> all_allowed reg os -> dispatcher_inv (fold_left spec_dop os reg) (fold_left run_dop os d).
Proof.
  revert reg d. induction os as [|o os IH]; intros reg d Hd Ha; [done|]. destruct Ha as [Ho Ha]. cbn [fold_left].
  apply IH; [|done]. destruct o as [self key ch l|self key ch|ch v info]; cbn [run_dop spec_dop allowed] in *.
  - destruct Ho. by apply intra_add_inv.
  - destruct Ho. by apply intra_remove_inv.
  - pose proof (intra_message_inv reg d ch v info Hd Ho) as H. destruct (OnMessage _ _ _ _ _ _). by destruct H.
Qed.

(** Inside a process, with one reader for each channel and sender, a message of a channel is handed to the
    reader of every sender and to the reader of its sender, each once, and to no other, after any additions, removals and messages. *)
Theorem intra_fan_out (os : list dop) (ch : Z) (v : V) (info : MessageInfo)
    (Hallowed : all_allowed ∅ os) (Hch : is_u64 ch) :
  fst (OnMessage class_of ch (tyof ch) v info (fold_left run_dop os dispatcher_new)) =
    map (fun l => (l, v)) (addressed (fold_left spec_dop os ∅) ch (hash_value_ (sender_id_ info))).
Proof.
  pose proof (intra_message_inv _ _ ch v info (run_dops_inv os _ _ intra_new_inv Hallowed) Hch) as H.
  destruct (OnMessage _ _ _ _ _ _) as [log d']. by destruct H.
Qed.
End fan_out.

(** ** Two readers of one sender *)

Section two_readers.
Context {KM : Type -> Type} `{!KeyMap KM, !KeyMapLaws KM} {V L : Type} (class_of : string -> MessageClass V).
Abbreviation Dispatcher := (IntraDispatcher KM L).
Context (s1 s2 o ch : Z) (l1 l2 : L) (Hch : is_u64 ch) (Hs : s1 <> s2).
Abbreviation key := (Some o).

(** One reader of this type. *)
Definition one_reader (ty : string) : Dispatcher := add s1 key ch ty l1 dispatcher_new.

Lemma one_reader_inv ty : dispatcher_inv (fun _ => ty) {[(ch, key) := (s1, l1)]} (one_reader ty).
Proof.
  unfold one_reader. change {[(ch, key) := (s1, l1)]} with (<[(ch, key) := (s1, l1)]> (∅ : gmap (Z * option Z) (Z * L))).
  apply (intra_add_inv (fun _ => ty)); [apply intra_new_inv|done|apply lookup_empty].
Qed.

(** What it looks like. *)
Lemma one_reader_parts ty :
  exists c h w, chain_types key ch (chain_ (one_reader ty)) = Some {[ty := h]} /\ implements h [(s1, key, l1)] /\
    one_reader ty = mkDispatcher false (km_set ch (ty, w) (km_set ch (ty, handler_new) km_empty)) c /\
    implements w [(s1, key, mkWrapper s1 key ch ty)].
Proof.
  unfold one_reader. rewrite add_unfold by done. unfold dispatcher_new. cbn [chain_ msg_listeners_].
  pose proof (chain_add_new s1 key ch ty l1 (mkChain (L := L) ∅ ∅)) as H.
  destruct (chain_add s1 key ch ty l1 (mkChain ∅ ∅)) as [created c]. destruct H as (-> & Ht & _); [by cbn; rewrite lookup_empty|].
  unfold DispatcherGetHandler. cbn [msg_listeners_ is_shutdown_ chain_]. rewrite km_get_empty by done.
  cbn [msg_listeners_ is_shutdown_ chain_]. eexists c, _, _. split; [exact Ht|]. split; [|split; [reflexivity|]].
  - apply (connect_implements _ [] s1 key l1); [apply new_implements|]. by intros ?%elem_of_nil.
  - apply (connect_implements _ [] s1 key); [apply new_implements|]. by intros ?%elem_of_nil.
Qed.

(** A message of the type of the channel's handler. *)
Lemma on_message_wrappers ty w R (m : KM (string * ListenerHandler Wrapper)) c v info :
  km_get ch m = Some (ty, w) -> implements w R ->
  fst (OnMessage (L := L) class_of ch ty v info (mkDispatcher false m c)) =
  fst (fold_left (call_wrapper class_of (hash_value_ (sender_id_ info)))
    (map (fun w => (w, v)) ((entries None R).*2 ++ (entries (Some (hash_value_ (sender_id_ info))) R).*2)) ([], c)).
Proof.
  intros Hg Hi. unfold OnMessage. cbn [is_shutdown_ msg_listeners_ chain_]. rewrite Hg, String.eqb_refl.
  rewrite (run_calls _ _ _ Hi). by destruct (fold_left _ _ _).
Qed.

Lemma call_oppo sender log c w v :
  w_oppo_id w = key ->
  call_wrapper class_of sender (log, c) (w, v) =
    (let '(log', c') := chain_run (L := L) class_of key (w_channel_id w) (w_message_type w) v sender c in (log ++ log', c')).
Proof. intros H. unfold call_wrapper. by rewrite H. Qed.

Lemma chain_add_again ty h (c : ChannelChain) :
  chain_types key ch c = Some {[ty := h]} ->
  let '(created, c') := chain_add s2 key ch ty l2 c in
  created = false /\ chain_types key ch c' = Some {[ty := run_lop h (LConnect s2 key l2)]}.
Proof.
  cbn [chain_types chain_add]. intros Ht. unfold ChainAddOppo, GetHandler.
  destruct (oppo_handlers_ c !! o) as [hs|] eqn:Eo; [|done]. cbn in Ht. rewrite Ht, lookup_singleton_eq.
  split; [done|]. cbn [oppo_handlers_]. rewrite lookup_insert_eq. cbn. unfold put_handler.
  by rewrite lookup_alter_eq, lookup_insert_eq; cbn; rewrite insert_singleton_eq.
Qed.

(** When two readers in a process want the messages of one sender on a channel, both get them; when either of them
    goes, the chain drops the handler that they share, and the other gets nothing either. *)
Theorem leaving_reader_silences_other (ty : string) (v : V) (info : MessageInfo)
    (Hsender : hash_value_ (sender_id_ info) = o) :
  let d := add s2 key ch ty l2 (one_reader ty) in
  fst (OnMessage class_of ch ty v info d) = [(l1, v); (l2, v)] /\
  forall s, s = s1 \/ s = s2 -> fst (OnMessage class_of ch ty v info (remove s key ch ty d)) = [].
Proof.
  cbv zeta. destruct (one_reader_parts ty) as (c & h & w & Ht & Hh & Ed & Hw). rewrite Ed in *. cbn [chain_] in Ht.
  rewrite add_unfold by done. cbn [chain_ msg_listeners_].
  pose proof (chain_add_again ty h c Ht) as Ha. destruct (chain_add s2 key ch ty l2 c) as [created c2].
  destruct Ha as [-> Ht2]. unfold DispatcherGetHandler. cbn [msg_listeners_ is_shutdown_].
  set (m := km_set ch (ty, w) _).
  assert (Hm : km_wf m /\ km_get ch m = Some (ty, w)).
  { unfold m. split; [auto 10 using km_set_wf, km_empty_wf|]. rewrite km_get_set by auto using km_set_wf, km_empty_wf.
    by rewrite decide_True. }
  destruct Hm as [Hmwf Hg]. rewrite Hg, String.eqb_refl.
  pose proof (connect_implements h [(s1, key, l1)] s2 key l2 Hh) as Hh2.
  assert (Hin : s2 ∉ (entries key [(s1, key, l1)]).*1).
  { rewrite entries_cons, decide_True by done. cbn. rewrite list_elem_of_singleton. congruence. }
  specialize (Hh2 Hin). pose proof (run_calls _ _ o Hh2) as Hrun. cbn [app] in Hrun. rewrite !entries_cons in Hrun.
  repeat (case_decide; try congruence). split.
  - rewrite (on_message_wrappers ty w _ m c2 v info Hg Hw), Hsender, !entries_cons, !entries_nil.
    repeat (case_decide; try congruence). cbn [map fmap list_fmap app fst snd fold_left].
    rewrite call_oppo by done. cbn [w_channel_id w_message_type].
    by rewrite (chain_run_one class_of key ch ty v o _ _ c2 Ht2 Hrun).
  - intros s Hs'. rewrite remove_unfold by done. unfold remove_wrapper. cbn [msg_listeners_ is_shutdown_ chain_].
    rewrite Hg. cbn [msg_listeners_ is_shutdown_ chain_]. destruct (chain_remove_one s _ _ _ _ _ Ht2) as [Hn _].
    rewrite (on_message_wrappers ty _ _ _ _ v info (km_get_set_eq _ _ _ _ Hch Hmwf) (disconnect_implements _ _ s key Hw)), Hsender.
    rewrite !entries_disconnect, !entries_cons, !entries_nil. repeat (case_decide; try congruence).
    rewrite filter_cons, filter_nil. cbn [map fmap list_fmap app fst snd].
    case_decide; cbn [map fold_left fmap list_fmap snd]; [|done]. rewrite call_oppo by done.
    cbn [w_channel_id w_message_type]. by rewrite (chain_run_none class_of key ch ty v o _ Hn).
Qed.

Lemma chain_add_type ty1 ty2 h (c : ChannelChain) :
  ty1 <> ty2 -> chain_types key ch c = Some {[ty1 := h]} ->
  let '(created, c') := chain_add s2 key ch ty2 l2 c in
  created = true /\
  chain_types key ch c' = Some (<[ty2 := run_lop handler_new (LConnect s2 key l2)]> {[ty1 := h]}).
Proof.
  cbn [chain_types chain_add]. intros Hne Ht. unfold ChainAddOppo, GetHandler.
  destruct (oppo_handlers_ c !! o) as [hs|] eqn:Eo; [|done]. cbn in Ht. rewrite Ht, lookup_singleton_ne by done.
  split; [done|]. cbn [oppo_handlers_]. rewrite lookup_insert_eq. cbn. unfold put_handler.
  by rewrite lookup_alter_eq, lookup_insert_eq; cbn; rewrite insert_insert_eq.
Qed.

Lemma chain_remove_type s ty1 ty2 h h2 (c : ChannelChain) :
  ty1 <> ty2 -> chain_types key ch c = Some (<[ty2 := h2]> {[ty1 := h]}) ->
  chain_types key ch (chain_remove s key ch ty1 c) = Some ({[ty2 := h2]} : gmap string (ListenerHandler L)).
Proof.
  cbn [chain_types chain_remove]. intros Hne Ht. unfold ChainRemoveOppo, RemoveHandler.
  destruct (oppo_handlers_ c !! o) as [hs|] eqn:Eo; [|done]. cbn in Ht. rewrite Ht.
  rewrite delete_insert_ne, delete_singleton_eq, insert_empty by done.
  rewrite (bool_decide_eq_false_2 ({[ty2 := h2]} = ∅)) by apply map_non_empty_singleton.
  rewrite (bool_decide_eq_false_2 (_ = ∅)) by apply insert_non_empty. cbn [oppo_handlers_].
  rewrite lookup_insert_eq. cbn. by rewrite lookup_insert_eq.
Qed.

(** A handler without listeners runs nothing. *)
Lemma on_message_silent ty ty' w (m : KM (string * ListenerHandler Wrapper)) c v info :
  km_get ch m = Some (ty, w) -> implements w [] ->
  fst (OnMessage (L := L) class_of ch ty' v info (mkDispatcher false m c)) = [].
Proof.
  intros Hg Hi. unfold OnMessage. cbn [is_shutdown_ msg_listeners_ chain_]. rewrite Hg.
  pose proof (run_calls _ _ (hash_value_ (sender_id_ info)) Hi) as Hr. cbn in Hr.
  destruct (String.eqb ty ty'); [by rewrite Hr|]. destruct (to_string class_of ty' v) as [str|]; [|done].
  unfold RunFromString. destruct (ParseFromHC _ _ _); [|done]. by rewrite Hr.
Qed.

(** The handler of a channel has the type of its first reader, and a reader of another type is reached only
    through the first one: once the first has gone, the other is still in the chain, and no message of any type reaches it. *)
Theorem second_type_deaf (ty1 ty2 : string) (Hty : ty1 <> ty2) :
  let d := remove s1 key ch ty1 (add s2 key ch ty2 l2 (one_reader ty1)) in
  chain_types key ch (chain_ d) = Some {[ty2 := run_lop handler_new (LConnect s2 key l2)]} /\
  forall ty v info, fst (OnMessage class_of ch ty v info d) = [].
Proof.
  cbv zeta. destruct (one_reader_parts ty1) as (c & h & w & Ht & Hh & Ed & Hw). rewrite Ed in *. cbn [chain_] in Ht.
  rewrite add_unfold by done. cbn [chain_ msg_listeners_].
  pose proof (chain_add_type ty1 ty2 h c Hty Ht) as Ha. destruct (chain_add s2 key ch ty2 l2 c) as [created c2].
  destruct Ha as [-> Ht2]. unfold DispatcherGetHandler. cbn [msg_listeners_ is_shutdown_].
  set (m := km_set ch (ty1, w) _).
  assert (Hm : km_wf m /\ km_get ch m = Some (ty1, w)).
  { unfold m. split; [auto 10 using km_set_wf, km_empty_wf|]. rewrite km_get_set by auto using km_set_wf, km_empty_wf.
    by rewrite decide_True. }
  destruct Hm as [Hmwf Hg]. rewrite Hg. destruct (String.eqb_spec ty1 ty2) as [|_]; [done|].
  rewrite remove_unfold by done. unfold remove_wrapper. cbn [msg_listeners_ is_shutdown_ chain_]. rewrite Hg.
  cbn [msg_listeners_ is_shutdown_ chain_]. split; [by eapply chain_remove_type|]. intros ty v info.
  apply (on_message_silent ty1 ty _ _ _ v info (km_get_set_eq _ _ _ _ Hch Hmwf)).
  pose proof (disconnect_implements _ _ s1 key Hw) as Hd. rewrite filter_cons, filter_nil, decide_False in Hd; [done|].
  intros H. by apply H.
Qed.
End two_readers.

(** ** Examples *)

From S2P Require Import AtomicHashMap.

Definition info_from (sender : Z) : MessageInfo := mkInfo (mkIdentity [] sender) 0 0 identity_zero.

Definition demo_classes (name : string) : MessageClass bytes := text_class.

Definition demo_ops : list (dop (V := bytes) (L := nat)) :=
  [DAdd 1 (Some 50) 7 10%nat; DAdd 2 None 7 20%nat; DAdd 3 (Some 60) 7 30%nat; DMessage 7 [1] (info_from 50); DRemove 3 (Some 60) 7].

Lemma intra_fan_out_witness :
  fst (OnMessage demo_classes 7 "t" [9] (info_from 50)
    (fold_left (run_dop demo_classes (fun _ => "t"%string)) demo_ops (dispatcher_new (KM := AtomicHashMap)))) =
  [(20%nat, [9]); (10%nat, [9])].
Proof.
  refine (intra_fan_out demo_classes (fun _ => "t"%string) demo_ops 7 [9] (info_from 50) _ _).
  - cbn. unfold is_u64, two64. repeat split; try lia; intros [s l] H; by simplify_map_eq.
  - unfold is_u64, two64. lia.
Defined.

Lemma leaving_reader_silences_other_witness :
  fst (OnMessage demo_classes 7 "t" [9] (info_from 50)
    (remove 1 (Some 50) 7 "t" (add 2 (Some 50) 7 "t" 20%nat (one_reader (KM := AtomicHashMap) 1 50 7 10%nat "t")))) = [].
Proof.
  refine (proj2 (leaving_reader_silences_other demo_classes 1 2 50 7 10%nat 20%nat _ _ "t" [9] (info_from 50) eq_refl) 1 (or_introl eq_refl)).
  - unfold is_u64, two64. lia.
  - lia.
Defined.

Lemma second_type_deaf_witness :
  fst (OnMessage demo_classes 7 "u" [9] (info_from 50)
    (remove 1 (Some 50) 7 "t" (add 2 (Some 50) 7 "u" 20%nat (one_reader (KM := AtomicHashMap) 1 50 7 10%nat "t")))) = [].
Proof.
  refine (proj2 (second_type_deaf demo_classes 1 2 50 7 10%nat 20%nat _ "t" "u" ltac:(done)) "u"%string [9] (info_from 50)).
  unfold is_u64, two64. lia.
Defined.
