(* ===== verification/Hybrid.v ===== *)
(** * Hybrid: writers and readers that choose the transport

    Models [cyber/transport/transmitter/hybrid_transmitter.h] with [transmitter.h], [receiver/hybrid_receiver.h], the switching on and off of
    the three transmitters and receivers that they own ([intra_], [shm_] and [rtps_transmitter.h], [_receiver.h]), and
    [common/endpoint.cc].  The operations hold the mutex of the object.

    A message that is sent on a medium is an output; what the medium does with it is in [HybridDelivery.v].  The dispatchers of the
    process are those of the interface [FanOut.v], one for each medium.  [can_publish] says whether Fast-RTPS makes a
    publisher.  The tasks that send and receive the history run later ([cyber::Async]) and are outputs too; [HybridDelivery.v] runs them. *)

From stdpp Require Import pretty.
From S2P Require Import Prelude ShmMessage Role FanOut.

(** ** The last messages of a writer, [cyber/transport/message/history.h] and [history_attributes.h]

    The operations hold the mutex of the messages.  [conf] is [max_history_depth] of the transport's configuration, when there is one. *)

Record HistoryAttributes := mkHistoryAttr { history_policy : QosHistoryPolicy; depth : Z }.

Section history.
Context {M : Type}.

Record History := mkHistory {
  enabled_ : bool;
  depth_ : Z;
  max_depth_ : Z;
  msgs_ : list (M * MessageInfo);
}.

Definition history_new (conf : option Z) (attr : HistoryAttributes) : History :=
  let max_depth := match conf with Some d => d | None => 1000 end in
  let d :=
    match history_policy attr with
    | HISTORY_KEEP_ALL => max_depth
    | _ => if max_depth <? depth attr then max_depth else depth attr
    end in
  mkHistory false d max_depth [].

Definition Enable (h : History) : History := mkHistory true (depth_ h) (max_depth_ h) (msgs_ h).
Definition Disable (h : History) : History := mkHistory false (depth_ h) (max_depth_ h) (msgs_ h).

(** [while (msgs_.size() > depth_) pop_front()]; each turn makes the list shorter. *)
Fixpoint pop_to (d : Z) (l : list (M * MessageInfo)) : list (M * MessageInfo) :=
  match l with
  | [] => []
  | _ :: l' => if d <? Z.of_nat (length l) then pop_to d l' else l
  end.

Definition Add (msg : M) (msg_info : MessageInfo) (h : History) : History :=
  if negb (enabled_ h) then h
  else mkHistory (enabled_ h) (depth_ h) (max_depth_ h) (pop_to (depth_ h) (msgs_ h ++ [(msg, msg_info)])).

Definition Clear (h : History) : History := mkHistory (enabled_ h) (depth_ h) (max_depth_ h) [].

(** The messages are put before those that the vector has. *)
Definition GetCachedMessage (msgs : list (M * MessageInfo)) (h : History) : list (M * MessageInfo) := msgs_ h ++ msgs.

Definition GetSize (h : History) : Z := Z.of_nat (length (msgs_ h)).

(** ** What it keeps *)

Inductive hop := HAdd (m : M) (i : MessageInfo) | HClear | HEnable | HDisable.

Definition run_hop (h : History) (o : hop) : History :=
  match o with HAdd m i => Add m i h | HClear => Clear h | HEnable => Enable h | HDisable => Disable h end.

(** Whether it is enabled, and the messages added while it was since it was last cleared. *)
Definition spec_hop (s : bool * list (M * MessageInfo)) (o : hop) : bool * list (M * MessageInfo) :=
  match o with
  | HAdd m i => (fst s, if fst s then snd s ++ [(m, i)] else snd s)
  | HClear => (fst s, [])
  | HEnable => (true, snd s)
  | HDisable => (false, snd s)
  end.

Definition last_n {A} (n : nat) (l : list A) : list A := drop (length l - n) l.

Lemma pop_to_last d l : 0 <= d -> pop_to d l = last_n (Z.to_nat d) l.
Proof.
  intros Hd. unfold last_n. induction l as [|x l IH]; [done|]. cbn [pop_to].
  destruct (Z.ltb_spec d (Z.of_nat (length (x :: l)))) as [H|H]; cbn [length] in *.
  - rewrite IH. by replace (S (length l) - Z.to_nat d)%nat with (S (length l - Z.to_nat d)) by lia.
  - by replace (S (length l) - Z.to_nat d)%nat with 0%nat by lia.
Qed.

Lemma last_n_0 {A} (l : list A) : last_n 0 l = [].
Proof. unfold last_n. by rewrite Nat.sub_0_r, drop_all. Qed.

Lemma last_n_snoc {A} n (l : list A) x : last_n n (last_n n l ++ [x]) = last_n n (l ++ [x]).
Proof.
  destruct n as [|n]; [by rewrite !last_n_0|].
  unfold last_n. rewrite !length_app, length_drop. cbn [length]. rewrite !drop_app_le by (rewrite ?length_drop; lia). rewrite drop_drop. do 2 f_equal. lia.
Qed.

Lemma History_run conf attr os :
  0 <= depth_ (history_new conf attr) ->
  let h := fold_left run_hop os (history_new conf attr) in
  let s := fold_left spec_hop os (false, []) in
  enabled_ h = fst s /\ depth_ h = depth_ (history_new conf attr) /\ max_depth_ h = max_depth_ (history_new conf attr) /\
  msgs_ h = last_n (Z.to_nat (depth_ h)) (snd s).
Proof.
  intros Hd. induction os as [|o os IH] using rev_ind; [done|]. rewrite !fold_left_app. cbn [fold_left].
  set (h := fold_left run_hop os (history_new conf attr)) in *. set (s := fold_left spec_hop os (false, [])) in *.
  destruct IH as (E1 & E2 & E3 & E4). destruct o as [m i| | |]; cbn [run_hop spec_hop fst snd]; try done.
  unfold Add. rewrite E1. destruct (fst s); cbn [negb enabled_ depth_ max_depth_ msgs_]; [|done].
  repeat split; try done. rewrite pop_to_last by (by rewrite E2). by rewrite E4, last_n_snoc.
Qed.

(** A history keeps, oldest first, the newest messages that were added while it was enabled since it was last cleared:
    as many as its depth, which never exceeds the configured limit. *)
Theorem history_newest (conf : option Z) (attr : HistoryAttributes) (os : list hop)
    (Hdepth : is_u32 (depth attr)) (Hconf : forall d, conf = Some d -> is_u32 d) :
  let h := fold_left run_hop os (history_new conf attr) in
  GetCachedMessage [] h = last_n (Z.to_nat (depth_ h)) (snd (fold_left spec_hop os (false, []))) /\
  GetSize h <= depth_ h <= default 1000 conf.
Proof.
  assert (Hd : 0 <= depth_ (history_new conf attr) <= default 1000 conf).
  { unfold history_new. cbn [depth_]. unfold is_u32 in *.
    assert (0 <= default 1000 conf) by (destruct conf as [d|]; [by apply Hconf|done]).
    change (match conf with Some d => d | None => 1000 end) with (default 1000 conf).
    destruct (history_policy attr); try lia; case_if; lia. }
  destruct (History_run conf attr os (proj1 Hd)) as (_ & E2 & _ & E4). cbv zeta.
  unfold GetCachedMessage, GetSize. rewrite app_nil_r. split; [done|]. rewrite E4. unfold last_n. rewrite length_drop. lia.
Qed.
End history.
Arguments History : clear implicits.

Lemma history_newest_witness :
  GetCachedMessage [] (fold_left run_hop [HEnable; HAdd 1%nat info_new; HAdd 2%nat info_new; HAdd 3%nat info_new]
    (history_new None (mkHistoryAttr HISTORY_KEEP_LAST 2))) = [(2%nat, info_new); (3%nat, info_new)].
Proof.
  refine (proj1 (history_newest None (mkHistoryAttr HISTORY_KEEP_LAST 2)
    [HEnable; HAdd 1%nat info_new; HAdd 2%nat info_new; HAdd 3%nat info_new] _ _)); [|done].
  unfold is_u32, two32. cbn. lia.
Defined.

(** ** Relations and modes *)

Inductive Relation := NO_RELATION | DIFF_HOST | DIFF_PROC | SAME_PROC.

#[export] Instance Relation_eq_dec : EqDecision Relation.
Proof. solve_decision. Defined.

Inductive OptionalMode := HYBRID | INTRA | SHM | RTPS.

#[export] Instance OptionalMode_eq_dec : EqDecision OptionalMode.
Proof. solve_decision. Defined.

#[export] Instance OptionalMode_countable : Countable OptionalMode.
Proof.
  refine (inj_countable' (fun m => match m with HYBRID => 0 | INTRA => 1 | SHM => 2 | RTPS => 3 end%nat)
            (fun n => match n with 0 => HYBRID | 1 => INTRA | 2 => SHM | _ => RTPS end%nat) _).
  by intros [].
Defined.

(** The classes of transmitters and receivers that the [switch] of [InitTransmitters] and [InitReceivers] chooses from. *)
Inductive Medium := Intra | Shm | Rtps.

#[export] Instance Medium_eq_dec : EqDecision Medium.
Proof. solve_decision. Defined.

Definition medium_of (mode : OptionalMode) : Medium :=
  match mode with INTRA => Intra | SHM => Shm | _ => Rtps end.

Record CommunicationMode := mkMode { same_proc : OptionalMode; diff_proc : OptionalMode; diff_host : OptionalMode }.

(** The defaults of the message. *)
Definition default_mode : CommunicationMode := mkMode INTRA SHM RTPS.

(** [InitMode] and [ObtainConfig]: the configuration's modes when it has them. *)
Definition ObtainConfig (conf : option CommunicationMode) : CommunicationMode :=
  match conf with Some m => m | None => default_mode end.

(** [mapping_table_]; an entry that was not set is zero. *)
Definition mapping_table_ (mode : CommunicationMode) (r : Relation) : OptionalMode :=
  match r with
  | SAME_PROC => same_proc mode
  | DIFF_PROC => diff_proc mode
  | DIFF_HOST => diff_host mode
  | NO_RELATION => HYBRID
  end.

(** What the transport reads of [RoleAttributes]; [transient] is a durability of [DURABILITY_TRANSIENT_LOCAL]. *)
Record Attributes := mkAttributes {
  channel_name : string;
  channel_id : Z;
  host_ip : string;
  process_id : Z;
  id : option Z;
  history : HistoryAttributes;
  transient : bool;
}.

Definition id_of (a : Attributes) : Z := default 0 (id a).

(** [Endpoint]: the identifier is given when there is none. *)
Definition Endpoint (identity : Identity) (a : Attributes) : Attributes :=
  match id a with
  | Some _ => a
  | None => mkAttributes (channel_name a) (channel_id a) (host_ip a) (process_id a) (Some (hash_value_ identity)) (history a) (transient a)
  end.

Definition GetRelation (attr opposite : Attributes) : Relation :=
  if negb (String.eqb (channel_name opposite) (channel_name attr)) then NO_RELATION
  else if negb (String.eqb (host_ip opposite) (host_ip attr)) then DIFF_HOST
  else if negb (process_id opposite =? process_id attr) then DIFF_PROC
  else SAME_PROC.

(** [std::set<OptionalMode> modes]: in the order of the enumeration. *)
Definition modes (mode : CommunicationMode) : list OptionalMode :=
  filter (fun m => m = same_proc mode \/ m = diff_proc mode \/ m = diff_host mode) [HYBRID; INTRA; SHM; RTPS].

(** The name of the channel that the history for a reader is sent on. *)
Definition history_channel (transmitter_id receiver_id : Z) : string :=
  pretty (Z.to_N transmitter_id) +:+ pretty (Z.to_N receiver_id).

(** ** HybridTransmitter *)

Section transmitter.
Context {M : Type} (can_publish : bool).

(** [transmitters_] says which of the owned transmitters are enabled. *)
Record HybridTransmitter := mkTransmitter {
  t_id : Identity;
  t_attr : Attributes;
  seq_num_ : Z;
  history_ : History M;
  transmitters_ : gmap OptionalMode bool;
  receivers_ : gmap OptionalMode (gset Z);
  t_mode : CommunicationMode;
}.

(** Of the configuration, the limit of the histories and the modes. *)
Definition transmitter_new (identity : Identity) (limit : option Z) (conf : option CommunicationMode) (a : Attributes) : HybridTransmitter :=
  let attr := Endpoint identity a in
  let mode := ObtainConfig conf in
  let hist := history_new limit (history attr) in
  mkTransmitter identity attr 0 (if transient attr then Enable hist else hist)
    (list_to_map (map (fun m => (m, false)) (modes mode)))
    (list_to_map (map (fun m => (m, ∅)) (modes mode))) mode.

Definition set_transmitters (ts : gmap OptionalMode bool) (rs : gmap OptionalMode (gset Z)) (t : HybridTransmitter) : HybridTransmitter :=
  mkTransmitter (t_id t) (t_attr t) (seq_num_ t) (history_ t) ts rs (t_mode t).

(** [Enable] of an owned transmitter; the one of Fast-RTPS needs a publisher. *)
Definition sub_enable (mode : OptionalMode) (enabled : bool) : bool :=
  match medium_of mode with Rtps => enabled || can_publish | _ => true end.

Definition EnableAll (t : HybridTransmitter) : HybridTransmitter :=
  set_transmitters (map_imap (fun m e => Some (sub_enable m e)) (transmitters_ t)) (receivers_ t) t.
Definition DisableAll (t : HybridTransmitter) : HybridTransmitter :=
  set_transmitters ((fun _ => false) <$> transmitters_ t) (receivers_ t) t.

(** The task of [TransmitHistoryMsg]: to whom, and what. *)
Definition TransmitHistoryMsg (opposite : Attributes) (t : HybridTransmitter) : option (Attributes * list (M * MessageInfo)) :=
  if negb (transient (t_attr t)) then None
  else match GetCachedMessage [] (history_ t) with
       | [] => None
       | msgs => Some (opposite, msgs)
       end.

(** [ThreadFunc]: on which channel what is transmitted, when the new transmitter can be enabled. *)
Definition ThreadFunc (opposite : Attributes) (msgs : list (M * MessageInfo)) (t : HybridTransmitter)
    : string * list (M * MessageInfo) :=
  (history_channel (id_of (t_attr t)) (id_of opposite), if can_publish then msgs else []).

Definition EnableFor (opposite : Attributes) (t : HybridTransmitter)
    : option (Attributes * list (M * MessageInfo)) * HybridTransmitter :=
  match GetRelation (t_attr t) opposite with
  | NO_RELATION => (None, t)
  | relation =>
      let m := mapping_table_ (t_mode t) relation in
      let t1 := set_transmitters (alter (sub_enable m) m (transmitters_ t))
                  (<[m := {[id_of opposite]} ∪ default ∅ (receivers_ t !! m)]> (receivers_ t)) t in
      (TransmitHistoryMsg opposite t1, t1)
  end.

Definition DisableFor (opposite : Attributes) (t : HybridTransmitter) : HybridTransmitter :=
  match GetRelation (t_attr t) opposite with
  | NO_RELATION => t
  | relation =>
      let m := mapping_table_ (t_mode t) relation in
      let ids := default ∅ (receivers_ t !! m) ∖ {[id_of opposite]} in
      set_transmitters (if bool_decide (ids = ∅) then alter (fun _ => false) m (transmitters_ t) else transmitters_ t)
        (<[m := ids]> (receivers_ t)) t
  end.

(** The media on which a message goes out. *)
Definition enabled_media (t : HybridTransmitter) : list Medium :=
  map (fun e => medium_of (fst e)) (filter (fun e => snd e = true) (map_to_list (transmitters_ t))).

(** [Transmit(msg, msg_info)]. *)
Definition TransmitInfo (msg : M) (info : MessageInfo) (t : HybridTransmitter) : bool * list Medium * HybridTransmitter :=
  (true, enabled_media t,
   mkTransmitter (t_id t) (t_attr t) (seq_num_ t) (Add msg info (history_ t)) (transmitters_ t) (receivers_ t) (t_mode t)).

(** [Transmit(msg)] of the base class, with [NextSeqNum]. *)
Definition Transmit (msg : M) (t : HybridTransmitter) : bool * list Medium * MessageInfo * HybridTransmitter :=
  let seq := wrap_u64 (seq_num_ t + 1) in
  let info := mkInfo (t_id t) 0 seq identity_zero in
  let '(ok, media, t1) :=
    TransmitInfo msg info (mkTransmitter (t_id t) (t_attr t) seq (history_ t) (transmitters_ t) (receivers_ t) (t_mode t)) in
  (ok, media, info, t1).
End transmitter.
Arguments HybridTransmitter : clear implicits.

(** ** HybridReceiver *)

(** The dispatchers of a process. *)
Record Dispatchers (DI DO : Type) := mkDispatchers { intra_dispatcher : DI; shm_dispatcher : DO; rtps_dispatcher : DO }.
Arguments mkDispatchers {DI DO}. Arguments intra_dispatcher {DI DO}. Arguments shm_dispatcher {DI DO}.
Arguments rtps_dispatcher {DI DO}.

Section receiver.
Context {DI DO L V : Type} `{!FanOut DI L V, !FanOut DO L V}.

Abbreviation Dispatchers := (Dispatchers DI DO).

(** The dispatcher of a medium. *)
Definition on_dispatcher (fi : DI -> DI) (fo : DO -> DO) (medium : Medium) (d : Dispatchers) : Dispatchers :=
  match medium with
  | Intra => mkDispatchers (fi (intra_dispatcher d)) (shm_dispatcher d) (rtps_dispatcher d)
  | Shm => mkDispatchers (intra_dispatcher d) (fo (shm_dispatcher d)) (rtps_dispatcher d)
  | Rtps => mkDispatchers (intra_dispatcher d) (shm_dispatcher d) (fo (rtps_dispatcher d))
  end.

(** [AddListener] and [RemoveListener] of the medium's dispatcher. *)
Definition add_listener (medium : Medium) (self : Z) (key : option Z) (ch : Z) (l : L) (d : Dispatchers) : Dispatchers :=
  on_dispatcher (fo_add self key ch l) (fo_add self key ch l) medium d.
Definition remove_listener (medium : Medium) (self : Z) (key : option Z) (ch : Z) (d : Dispatchers) : Dispatchers :=
  on_dispatcher (fo_remove self key ch) (fo_remove self key ch) medium d.

(** [r_receivers] says which of the owned receivers are enabled for all senders; [r_transmitters] are the senders that each is enabled for. *)
Record HybridReceiver := mkReceiver {
  r_attr : Attributes;
  r_listener : L;
  r_receivers : gmap OptionalMode bool;
  r_transmitters : gmap OptionalMode (gmap Z Attributes);
  r_mode : CommunicationMode;
}.

Definition receiver_new (identity : Identity) (conf : option CommunicationMode) (a : Attributes) (l : L) : HybridReceiver :=
  let mode := ObtainConfig conf in
  mkReceiver (Endpoint identity a) l (list_to_map (map (fun m => (m, false)) (modes mode)))
    (list_to_map (map (fun m => (m, ∅)) (modes mode))) mode.

Definition with_transmitters (ts : gmap OptionalMode (gmap Z Attributes)) (r : HybridReceiver) : HybridReceiver :=
  mkReceiver (r_attr r) (r_listener r) (r_receivers r) ts (r_mode r).

(** [Enable()] and [Disable()] of the owned receivers. *)
Definition ReceiverEnableAll (r : HybridReceiver) (d : Dispatchers) : HybridReceiver * Dispatchers :=
  (mkReceiver (r_attr r) (r_listener r) ((fun _ => true) <$> r_receivers r) (r_transmitters r) (r_mode r),
   fold_left (fun d e =>
     if snd e : bool then d
     else add_listener (medium_of (fst e)) (id_of (r_attr r)) None (channel_id (r_attr r)) (r_listener r) d)
     (map_to_list (r_receivers r)) d).
Definition ReceiverDisableAll (r : HybridReceiver) (d : Dispatchers) : HybridReceiver * Dispatchers :=
  (mkReceiver (r_attr r) (r_listener r) ((fun _ => false) <$> r_receivers r) (r_transmitters r) (r_mode r),
   fold_left (fun d e =>
     if snd e : bool then remove_listener (medium_of (fst e)) (id_of (r_attr r)) None (channel_id (r_attr r)) d else d)
     (map_to_list (r_receivers r)) d).

(** Whether the history of the sender is waited for, and on which channel. *)
Definition ReceiveHistoryMsg (opposite : Attributes) (r : HybridReceiver) : option string :=
  if transient opposite then Some (history_channel (id_of opposite) (id_of (r_attr r))) else None.

Definition ReceiverEnableFor (opposite : Attributes) (r : HybridReceiver) (d : Dispatchers)
    : option string * HybridReceiver * Dispatchers :=
  match GetRelation (r_attr r) opposite with
  | NO_RELATION => (None, r, d)
  | relation =>
      let m := mapping_table_ (r_mode r) relation in
      let ts := default ∅ (r_transmitters r !! m) in
      match ts !! id_of opposite with
      | Some _ => (None, r, d)
      | None =>
          (ReceiveHistoryMsg opposite r,
           with_transmitters (<[m := <[id_of opposite := opposite]> ts]> (r_transmitters r)) r,
           add_listener (medium_of m) (id_of (r_attr r)) (Some (id_of opposite)) (channel_id (r_attr r)) (r_listener r) d)
      end
  end.

Definition ReceiverDisableFor (opposite : Attributes) (r : HybridReceiver) (d : Dispatchers) : HybridReceiver * Dispatchers :=
  match GetRelation (r_attr r) opposite with
  | NO_RELATION => (r, d)
  | relation =>
      let m := mapping_table_ (r_mode r) relation in
      let ts := default ∅ (r_transmitters r !! m) in
      match ts !! id_of opposite with
      | None => (r, d)
      | Some _ =>
          (with_transmitters (<[m := delete (id_of opposite) ts]> (r_transmitters r)) r,
           remove_listener (medium_of m) (id_of (r_attr r)) (Some (id_of opposite)) (channel_id (r_attr r)) d)
      end
  end.

(** The destructor, with [ClearTransmitters]. *)
Definition receiver_destroy (r : HybridReceiver) (d : Dispatchers) : Dispatchers :=
  let d1 := fold_left (fun d e =>
      fold_left (fun d s => remove_listener (medium_of (fst e)) (id_of (r_attr r)) (Some (id_of (snd s))) (channel_id (r_attr r)) d)
        (map_to_list (snd e)) d)
    (map_to_list (r_transmitters r)) d in
  snd (ReceiverDisableAll r d1).

(** A message on a medium comes to the process. *)
Definition dispatch (m : Medium) (ch : Z) (v : V) (info : MessageInfo) (d : Dispatchers) : list (L * V) * Dispatchers :=
  match m with
  | Intra =>
      let '(l, x) := fo_message ch v info (intra_dispatcher d) in (l, mkDispatchers x (shm_dispatcher d) (rtps_dispatcher d))
  | Shm =>
      let '(l, x) := fo_message ch v info (shm_dispatcher d) in (l, mkDispatchers (intra_dispatcher d) x (rtps_dispatcher d))
  | Rtps =>
      let '(l, x) := fo_message ch v info (rtps_dispatcher d) in (l, mkDispatchers (intra_dispatcher d) (shm_dispatcher d) x)
  end.
End receiver.
Arguments HybridReceiver : clear implicits.
