(* ===== verification/HybridPeers.v ===== *)
(** * HybridPeers: the peers that a writer or a reader is switched on for

    What [Enable] and [Disable] of [Hybrid.v] do to the tables of a transmitter and of a receiver, stated against a list of peers:
    a transmitter [follows] a list of readers when its tables hold exactly those that are related to it; a receiver [hears] a
    list of writers when its tables hold at least those.  The lemmas are shared by the theorems about nodes. *)

From S2P Require Import Prelude ShmMessage Role FanOut Hybrid.

#[export] Instance HistoryAttributes_eq_dec : EqDecision HistoryAttributes.
Proof. solve_decision. Defined.
#[export] Instance Attributes_eq_dec : EqDecision Attributes.
Proof. solve_decision. Defined.

(** The mode that is chosen for a peer, if it is one. *)
Definition peer_mode (mode : CommunicationMode) (a b : Attributes) : option OptionalMode :=
  match GetRelation a b with NO_RELATION => None | relation => Some (mapping_table_ mode relation) end.

Lemma peer_mode_in mode a b m : peer_mode mode a b = Some m -> m ∈ modes mode.
Proof.
  unfold peer_mode, modes. intros H. apply list_elem_of_filter. split.
  - destruct (GetRelation a b); [done|..]; injection H as <-; cbn [mapping_table_]; auto.
  - apply list_elem_of_In. destruct m; cbn; auto.
Qed.

Lemma peer_mode_channel mode a b m : peer_mode mode a b = Some m -> channel_name b = channel_name a.
Proof. unfold peer_mode, GetRelation. by destruct (String.eqb_spec (channel_name b) (channel_name a)). Qed.

Lemma modes_NoDup mode : NoDup (modes mode).
Proof. apply NoDup_filter. repeat constructor; set_solver. Qed.

Lemma table_lookup {A} (x : A) mode m :
  (list_to_map (map (fun m => (m, x)) (modes mode)) : gmap OptionalMode A) !! m = if decide (m ∈ modes mode) then Some x else None.
Proof.
  case_decide as Hm.
  - apply elem_of_list_to_map_1.
    + change (map ?g ?l) with (g <$> l). rewrite <- list_fmap_compose. cbn. rewrite list_fmap_id. apply modes_NoDup.
    + apply list_elem_of_fmap. by exists m.
  - apply not_elem_of_list_to_map_1. change (map ?g ?l) with (g <$> l). rewrite <- list_fmap_compose. cbn. by rewrite list_fmap_id.
Qed.

(** ** Transmitters *)

Section transmitter.
Context {V : Type}.
Implicit Types (h : HybridTransmitter V) (X Y : list Attributes) (a b : Attributes).

Definition follows X h : Prop :=
  forall m, m ∈ modes (t_mode h) -> exists ids, receivers_ h !! m = Some ids /\
    (forall x, x ∈ ids <-> exists b, b ∈ X /\ peer_mode (t_mode h) (t_attr h) b = Some m /\ x = id_of b) /\
    transmitters_ h !! m = Some (bool_decide (ids <> ∅)).

(** What [Enable] and [Disable] leave alone. *)
Definition core h := (t_id h, t_attr h, t_mode h, dom (transmitters_ h)).

Lemma EnableFor_core can b h : core (snd (EnableFor can b h)) = core h.
Proof. unfold EnableFor. destruct (GetRelation (t_attr h) b); [done|..]; unfold core; cbn [snd set_transmitters t_id t_attr t_mode transmitters_]; by rewrite dom_alter_L. Qed.

Lemma DisableFor_core b h : core (DisableFor b h) = core h.
Proof.
  unfold DisableFor. destruct (GetRelation (t_attr h) b); [done|..]; unfold core; cbn [set_transmitters t_id t_attr t_mode transmitters_];
    case_bool_decide; by rewrite ?dom_alter_L.
Qed.

(** Only the peers that are related matter. *)
Lemma follows_related X Y h :
  (forall b m, peer_mode (t_mode h) (t_attr h) b = Some m -> b ∈ X <-> b ∈ Y) -> follows X h -> follows Y h.
Proof.
  intros HXY H m Hm. destruct (H m Hm) as (ids & E1 & E2 & E3). exists ids. split; [done|]. split; [|done].
  intros x. rewrite E2. split; intros (b & Hb & Hp & ->); exists b; split; try done; by eapply HXY.
Qed.

Lemma follows_ext X Y h : (forall b, b ∈ X <-> b ∈ Y) -> follows X h -> follows Y h.
Proof. intros H. by apply follows_related. Qed.

Lemma follows_new i limit conf a : follows [] (transmitter_new i limit conf a).
Proof.
  intros m Hm. cbn [transmitter_new t_mode t_attr receivers_ transmitters_] in *. exists ∅.
  rewrite !table_lookup, !decide_True by done. split; [done|]. split; [|done]. intros x. set_solver.
Qed.

(** One table after a peer is added or taken away. *)
Lemma EnableFor_eq b h m0 :
  peer_mode (t_mode h) (t_attr h) b = Some m0 ->
  snd (EnableFor true b h) = set_transmitters (alter (sub_enable true m0) m0 (transmitters_ h))
    (<[m0 := {[id_of b]} ∪ default ∅ (receivers_ h !! m0)]> (receivers_ h)) h.
Proof. unfold peer_mode, EnableFor. by destruct (GetRelation (t_attr h) b); intros [= <-]. Qed.

Lemma DisableFor_eq b h m0 :
  peer_mode (t_mode h) (t_attr h) b = Some m0 ->
  DisableFor b h =
    let ids := default ∅ (receivers_ h !! m0) ∖ {[id_of b]} in
    set_transmitters (if bool_decide (ids = ∅) then alter (fun _ => false) m0 (transmitters_ h) else transmitters_ h)
      (<[m0 := ids]> (receivers_ h)) h.
Proof. unfold peer_mode, DisableFor. by destruct (GetRelation (t_attr h) b); intros [= <-]. Qed.

Lemma unrelated_no_op b h :
  peer_mode (t_mode h) (t_attr h) b = None -> (forall can, snd (EnableFor can b h) = h) /\ DisableFor b h = h.
Proof. unfold peer_mode, EnableFor, DisableFor. by destruct (GetRelation (t_attr h) b). Qed.

Lemma follows_enable X b h : follows X h -> follows (b :: X) (snd (EnableFor true b h)).
Proof.
  intros H. destruct (peer_mode (t_mode h) (t_attr h) b) as [m0|] eqn:E0.
  2:{ rewrite (proj1 (unrelated_no_op b h E0)). intros m Hm. destruct (H m Hm) as (ids & E1 & E2 & E3).
      exists ids. split; [done|]. split; [|done]. intros x. rewrite E2. setoid_rewrite elem_of_cons. naive_solver. }
  rewrite (EnableFor_eq b h m0 E0). intros m Hm. cbn [set_transmitters t_mode t_attr receivers_ transmitters_] in *.
  destruct (H m Hm) as (ids & E1 & E2 & E3). destruct (decide (m = m0)) as [->|Hne].
  - exists ({[id_of b]} ∪ ids). rewrite lookup_insert_eq, lookup_alter_eq, E1, E3. split; [done|]. split.
    + intros x. rewrite elem_of_union, elem_of_singleton, E2. setoid_rewrite elem_of_cons. naive_solver.
    + cbn [fmap option_fmap option_map default]. f_equal. symmetry. rewrite bool_decide_eq_true_2.
      * unfold sub_enable. destruct (medium_of m0); [done|done|]. by rewrite orb_true_r.
      * intros E. assert (Hx : id_of b ∈ ({[id_of b]} ∪ ids : gset Z)) by (apply elem_of_union; left; by apply elem_of_singleton).
        rewrite E in Hx. by apply elem_of_empty in Hx.
  - exists ids. rewrite lookup_insert_ne, lookup_alter_ne by done. split; [done|]. split; [|done].
    intros x. rewrite E2. setoid_rewrite elem_of_cons. naive_solver.
Qed.

Lemma follows_disable X Y b h :
  (forall b', b' ∈ X -> id_of b' = id_of b -> b' = b) -> (forall b', b' ∈ Y <-> b' ∈ X /\ b' <> b) ->
  follows X h -> follows Y (DisableFor b h).
Proof.
  intros Hu HY H. destruct (peer_mode (t_mode h) (t_attr h) b) as [m0|] eqn:E0.
  2:{ rewrite (proj2 (unrelated_no_op b h E0)). intros m Hm. destruct (H m Hm) as (ids & E1 & E2 & E3).
      exists ids. split; [done|]. split; [|done]. intros x. rewrite E2. setoid_rewrite HY. split; [|naive_solver].
      intros (b' & Hb & Hm' & ->). exists b'. split; [|done]. split; [done|]. intros ->. congruence. }
  rewrite (DisableFor_eq b h m0 E0). intros m Hm. cbn [set_transmitters t_mode t_attr receivers_ transmitters_] in *.
  destruct (H m Hm) as (ids & E1 & E2 & E3). destruct (decide (m = m0)) as [->|Hne].
  - exists (ids ∖ {[id_of b]}). cbv zeta. rewrite lookup_insert_eq, E1. cbn [default]. split; [done|]. split.
    + intros x. rewrite elem_of_difference, elem_of_singleton, E2. setoid_rewrite HY. split.
      * intros [(b' & Hb & Hm' & ->) Hx]. exists b'. repeat split; try done. congruence.
      * intros (b' & [Hb Hne] & Hm' & ->). split; [by exists b'|]. intros Hid. by apply Hne, Hu.
    + change (default ∅ (Some ids)) with ids. destruct (decide (ids ∖ {[id_of b]} = ∅)) as [Hd|Hd].
      * rewrite (bool_decide_eq_true_2 (_ = ∅)) by done. rewrite (bool_decide_eq_false_2 (_ <> ∅)) by tauto.
        by rewrite lookup_alter_eq, E3.
      * rewrite (bool_decide_eq_false_2 (_ = ∅)) by done. rewrite (bool_decide_eq_true_2 (_ <> ∅)) by done.
        rewrite E3. f_equal. apply bool_decide_eq_true_2. intros ->. apply Hd. apply set_eq. intros x.
        rewrite elem_of_difference, elem_of_empty. tauto.
  - exists ids. cbv zeta. rewrite lookup_insert_ne by done. split; [done|]. split;
      [|destruct (bool_decide (default ∅ _ ∖ _ = ∅)); by rewrite ?lookup_alter_ne by done].
    intros x. rewrite E2. setoid_rewrite HY. split; [|naive_solver].
    intros (b' & Hb & Hm' & ->). exists b'. split; [|done]. split; [done|]. intros ->. congruence.
Qed.
End transmitter.

(** ** Receivers *)

Section receiver.
Context {DI DO L V : Type} `{!FanOut DI L V, !FanOut DO L V}.
Implicit Types (h : HybridReceiver L) (Y : list Attributes) (a b : Attributes) (d : Dispatchers DI DO).

Definition hears Y h : Prop :=
  forall m, m ∈ modes (r_mode h) -> exists ts, r_transmitters h !! m = Some ts /\
    forall b, b ∈ Y -> peer_mode (r_mode h) (r_attr h) b = Some m -> is_Some (ts !! id_of b).

Definition rcore h := (r_attr h, r_listener h, r_mode h).

(** Nothing happens, or the writer is put into the table of its mode and of the dispatcher. *)
Lemma enable_cases b h d :
  let '(_, h1, d1) := ReceiverEnableFor (V := V) b h d in
  (h1 = h /\ d1 = d /\ forall m, peer_mode (r_mode h) (r_attr h) b = Some m -> is_Some (default ∅ (r_transmitters h !! m) !! id_of b)) \/
  exists m, peer_mode (r_mode h) (r_attr h) b = Some m /\ default ∅ (r_transmitters h !! m) !! id_of b = None /\
    h1 = with_transmitters (<[m := <[id_of b := b]> (default ∅ (r_transmitters h !! m))]> (r_transmitters h)) h /\
    d1 = add_listener (V := V) (medium_of m) (id_of (r_attr h)) (Some (id_of b)) (channel_id (r_attr h)) (r_listener h) d.
Proof.
  unfold ReceiverEnableFor, peer_mode. destruct (GetRelation (r_attr h) b) as [| | |] eqn:Er; [by left|..];
    (destruct (default ∅ (r_transmitters h !! _) !! id_of b) as [x|] eqn:Ex;
      [left; split; [done|]; split; [done|]; intros m [= <-]; by exists x|right; eexists; by split_and!]).
Qed.

Lemma disable_cases b h d :
  let '(h1, d1) := ReceiverDisableFor (V := V) b h d in
  (h1 = h /\ d1 = d) \/
  exists m, peer_mode (r_mode h) (r_attr h) b = Some m /\ is_Some (default ∅ (r_transmitters h !! m) !! id_of b) /\
    h1 = with_transmitters (<[m := delete (id_of b) (default ∅ (r_transmitters h !! m))]> (r_transmitters h)) h /\
    d1 = remove_listener (V := V) (medium_of m) (id_of (r_attr h)) (Some (id_of b)) (channel_id (r_attr h)) d.
Proof.
  unfold ReceiverDisableFor, peer_mode. destruct (GetRelation (r_attr h) b) as [| | |] eqn:Er; [by left|..];
    (destruct (default ∅ (r_transmitters h !! _) !! id_of b) as [x|] eqn:Ex; [|by left]; right; eexists;
      split; [done|]; split; [by rewrite Ex|done]).
Qed.

Lemma hears_new i conf a (l : L) : hears [] (receiver_new i conf a l).
Proof.
  intros m Hm. cbn [receiver_new r_mode r_attr r_transmitters] in *. exists ∅. rewrite table_lookup, decide_True by done.
  split; [done|]. intros b Hb. by apply elem_of_nil in Hb.
Qed.

(** Only the writers that are related matter. *)
Lemma hears_related Y Y' h :
  (forall b m, peer_mode (r_mode h) (r_attr h) b = Some m -> b ∈ Y' -> b ∈ Y) -> hears Y h -> hears Y' h.
Proof.
  intros HY H m Hm. destruct (H m Hm) as (ts & E1 & E2). exists ts. split; [done|]. intros b Hb Hp. apply E2; [|done]. by eapply HY.
Qed.

Lemma hears_sub Y Y' h : (forall b, b ∈ Y' -> b ∈ Y) -> hears Y h -> hears Y' h.
Proof. intros H. by apply hears_related; auto. Qed.

Lemma hears_enable Y b h d : hears Y h -> hears (b :: Y) (snd (fst (ReceiverEnableFor (V := V) b h d))).
Proof.
  intros H. pose proof (enable_cases b h d) as Hc. destruct (ReceiverEnableFor b h d) as [[t h1] d1]. cbn [fst snd].
  destruct Hc as [(-> & _ & Hin) | (m0 & E0 & En & -> & _)]; intros m Hm.
  - destruct (H m Hm) as (ts & E1 & E2). exists ts. split; [done|]. intros b' [->|Hb]%elem_of_cons; [|by apply E2].
    intros Hp. specialize (Hin m Hp). by rewrite E1 in Hin.
  - cbn [with_transmitters r_mode r_attr r_transmitters] in *. destruct (H m Hm) as (ts & E1 & E2).
    destruct (decide (m = m0)) as [->|Hne].
    + rewrite lookup_insert_eq, E1. eexists. split; [done|]. cbn [default]. intros b' [->|Hb]%elem_of_cons Hp.
      * rewrite lookup_insert_eq. by eexists.
      * rewrite lookup_insert_is_Some'. right. by apply E2.
    + rewrite lookup_insert_ne by done. exists ts. split; [done|]. intros b' [->|Hb]%elem_of_cons Hp; [congruence|by apply E2].
Qed.

Lemma hears_disable Y Y' b h d :
  (forall b', b' ∈ Y' -> b' ∈ Y /\ id_of b' <> id_of b) -> hears Y h -> hears Y' (fst (ReceiverDisableFor (V := V) b h d)).
Proof.
  intros HY H. pose proof (disable_cases b h d) as Hc. destruct (ReceiverDisableFor b h d) as [h1 d1]. cbn [fst].
  destruct Hc as [(-> & _) | (m0 & E0 & _ & -> & _)]; [apply (hears_sub Y); [|done]; intros b' Hb; by apply HY|].
  intros m Hm. cbn [with_transmitters r_mode r_attr r_transmitters] in *. destruct (H m Hm) as (ts & E1 & E2).
  destruct (decide (m = m0)) as [->|Hne].
  - rewrite lookup_insert_eq, E1. eexists. split; [done|]. intros b' Hb Hp. destruct (HY b' Hb) as [Hb' Hid]. cbn [default].
    rewrite lookup_delete_ne by done. by apply E2.
  - rewrite lookup_insert_ne by done. exists ts. split; [done|]. intros b' Hb. apply E2. by apply HY.
Qed.
End receiver.

(** ** The dispatchers of a process *)

Section dispatchers.
Context {DI DO L V : Type} `{!FanOut DI L V, !FanOut DO L V, !FanOutLaws DI L V, !FanOutLaws DO L V}.

Definition disp_inv (reg : Medium -> Readers L) (d : Dispatchers DI DO) : Prop :=
  fo_inv (V := V) (reg Intra) (intra_dispatcher d) /\ fo_inv (V := V) (reg Shm) (shm_dispatcher d) /\
  fo_inv (V := V) (reg Rtps) (rtps_dispatcher d).

Lemma add_listener_inv reg m self key ch l d :
  disp_inv reg d -> reg m !! (ch, key) = None -> is_u64 ch ->
  disp_inv (fun m' => if decide (m' = m) then <[(ch, key) := (self, l)]> (reg m) else reg m')
    (add_listener (V := V) m self key ch l d).
Proof.
  intros (H1 & H2 & H3) Hn Hch. unfold disp_inv, add_listener.
  destruct m; cbn [on_dispatcher intra_dispatcher shm_dispatcher rtps_dispatcher];
    by split_and!; case_decide; try congruence; try done; apply fo_add_inv.
Qed.

Lemma remove_listener_inv reg m self key ch d :
  disp_inv reg d -> (forall e, reg m !! (ch, key) = Some e -> fst e = self) -> is_u64 ch ->
  disp_inv (fun m' => if decide (m' = m) then delete (ch, key) (reg m) else reg m') (remove_listener (V := V) m self key ch d).
Proof.
  intros (H1 & H2 & H3) Hn Hch. unfold disp_inv, remove_listener.
  destruct m; cbn [on_dispatcher intra_dispatcher shm_dispatcher rtps_dispatcher];
    by split_and!; case_decide; try congruence; try done; apply fo_remove_inv.
Qed.

Lemma dispatch_inv reg m ch v info d :
  disp_inv reg d -> is_u64 ch ->
  let '(l, d') := dispatch m ch v info d in
  l = map (fun l => (l, v)) (addressed (reg m) ch (hash_value_ (sender_id_ info))) /\ disp_inv reg d'.
Proof.
  intros (H1 & H2 & H3) Hch. unfold dispatch.
  destruct m; [pose proof (fo_message_inv _ _ ch v info H1 Hch) as H|pose proof (fo_message_inv _ _ ch v info H2 Hch) as H|
    pose proof (fo_message_inv _ _ ch v info H3 Hch) as H];
    destruct (fo_message ch v info _) as [l x]; unfold disp_inv; cbn [intra_dispatcher shm_dispatcher rtps_dispatcher]; tauto.
Qed.

End dispatchers.
