(* ===== verification/HybridDelivery.v ===== *)
(** * HybridDelivery: a message reaches each matched reader once

    Processes on hosts, writers ([HybridTransmitter]) and readers ([HybridReceiver]) in them, and the three media between
    them: a message sent inside the process reaches its own dispatcher, one sent by shared memory the dispatchers of the
    processes of the host, the writer's own included, and one sent by Fast-RTPS those of all processes.  The
    media lose nothing here; what shared memory does is proved in [ShmDelivery.v], and Fast-RTPS is not under [src/].

    A reader and a writer learn of each other from the service discovery, each at its own time: the steps enable and
    disable them for each other in any order.  All processes have the same configuration of modes.

    A writer whose durability is transient-local sends its history to each reader that it is enabled for, on a channel of the
    two, in a task that runs later; a reader listens on that channel in a task of its own.  The tasks are part of the network. *)

From S2P Require Import Prelude ShmMessage Role FanOut Hybrid HybridPeers.

(** ** Processes and steps *)

Section network.
Context {DI DO V : Type} `{!FanOut DI nat V, !FanOut DO nat V}.

Record process := mkProcess { p_host : string; p_pid : Z; p_dispatchers : Dispatchers DI DO }.

(** What [cyber::Async] was given: the messages of a writer's history that are still to be sent from a process, on a channel
    of that name; and a reader that is to listen on such a channel, or listens. *)
Inductive task :=
| TSend (p : nat) (host : string) (channel : string) (msgs : list (V * MessageInfo))
| TReceive (r : nat) (channel : string) (listening : bool).

(** The writers and the readers, each with its process; the listener of a reader is its key. *)
Record net := mkNet {
  procs : list process;
  trans : gmap nat (nat * HybridTransmitter V);
  recvs : gmap nat (nat * HybridReceiver nat);
  tasks : list task;
}.

(** Which processes a medium reaches, from the process at [p] on [host]: the one at [q] on [host']. *)
Definition reaches (m : Medium) (p : nat) (host : string) (q : nat) (host' : string) : bool :=
  match m with
  | Intra => (p =? q)%nat
  | Shm => String.eqb host' host
  | Rtps => true
  end.

Definition deliver_at (m : Medium) (p : nat) (host : string) (ch : Z) (v : V) (info : MessageInfo) (q : nat) (pr : process)
    : list (nat * V) * process :=
  if reaches m p host q (p_host pr) then
    let '(l, d) := dispatch m ch v info (p_dispatchers pr) in (l, mkProcess (p_host pr) (p_pid pr) d)
  else ([], pr).

Definition deliver (p : nat) (host : string) (ch : Z) (v : V) (info : MessageInfo)
    (acc : list (nat * V) * list process) (m : Medium) : list (nat * V) * list process :=
  let res := imap (deliver_at m p host ch v info) (snd acc) in
  (fst acc ++ concat (map fst res), map snd res).

Inductive nop :=
| NEnableWriter (t r : nat)
| NDisableWriter (t r : nat)
| NEnableReader (r t : nat)
| NDisableReader (r t : nat)
| NSend (t : nat) (v : V)
| NTask (k : nat).

(** The writer at [t] sends: what the readers get, and the network after. *)
Definition send (t : nat) (v : V) (n : net) : list (nat * V) * net :=
  match trans n !! t with
  | None => ([], n)
  | Some (p, h) =>
      let '(_, media, info, h') := Transmit v h in
      let '(log, ps) := fold_left (deliver p (host_ip (t_attr h)) (channel_id (t_attr h)) v info) media ([], procs n) in
      (log, mkNet ps (<[t := (p, h')]> (trans n)) (recvs n) (tasks n))
  end.

Definition on_writer (f : nat -> Attributes -> HybridTransmitter V -> list task * HybridTransmitter V) (t r : nat) (n : net) : net :=
  match trans n !! t, recvs n !! r with
  | Some (p, h), Some (_, hr) =>
      let '(ts, h') := f p (r_attr hr) h in mkNet (procs n) (<[t := (p, h')]> (trans n)) (recvs n) (tasks n ++ ts)
  | _, _ => n
  end.

Definition on_reader
    (f : Attributes -> HybridReceiver nat -> Dispatchers DI DO -> list task * HybridReceiver nat * Dispatchers DI DO) (r t : nat)
    (n : net) : net :=
  match recvs n !! r, trans n !! t with
  | Some (q, hr), Some (_, h) =>
      match procs n !! q with
      | Some pr =>
          let '(ts, hr', d) := f (t_attr h) hr (p_dispatchers pr) in
          mkNet (<[q := mkProcess (p_host pr) (p_pid pr) d]> (procs n)) (trans n) (<[r := (q, hr')]> (recvs n)) (tasks n ++ ts)
      | None => n
      end
  | _, _ => n
  end.

(** [Enable] of a writer for a reader, with the task of [TransmitHistoryMsg]. *)
Definition enable_writer_for (p : nat) (a : Attributes) (h : HybridTransmitter V) : list task * HybridTransmitter V :=
  let '(history, h') := EnableFor true a h in
  (match history with
   | Some (opposite, msgs) => let '(ch, sent) := ThreadFunc true opposite msgs h' in [TSend p (host_ip (t_attr h')) ch sent]
   | None => []
   end, h').

(** [Enable] of a reader for a writer, with the task of [ReceiveHistoryMsg]. *)
Definition enable_reader_for (r : nat) (a : Attributes) (hr : HybridReceiver nat) (d : Dispatchers DI DO)
    : list task * HybridReceiver nat * Dispatchers DI DO :=
  let '(channel, hr', d') := ReceiverEnableFor a hr d in
  (match channel with Some ch => [TReceive r ch false] | None => [] end, hr', d').

(** The identifier that [GlobalData::RegisterChannel] gives a name. *)
Context (RegisterChannel : string -> Z).

Definition set_tasks (ts : list task) (n : net) : net := mkNet (procs n) (trans n) (recvs n) ts.

(** The dispatchers of the process of a reader. *)
Definition at_reader (f : HybridReceiver nat -> Dispatchers DI DO -> Dispatchers DI DO) (r : nat) (n : net) : net :=
  match recvs n !! r with
  | Some (q, hr) =>
      mkNet (alter (fun pr => mkProcess (p_host pr) (p_pid pr) (f hr (p_dispatchers pr))) q (procs n)) (trans n) (recvs n) (tasks n)
  | None => n
  end.

(** The next step of a task, the [ThreadFunc] of a writer or a reader: what the readers get, and the network after.  A message
    of a history goes out by Fast-RTPS with the information it had; a reader listens on the channel to whatever sender, calls
    its own listener, and ends when no message came for a second: when that is, is left open. *)
Definition task_step (k : nat) (n : net) : list (nat * V) * net :=
  match tasks n !! k with
  | None => ([], n)
  | Some (TSend p host ch []) => ([], set_tasks (delete k (tasks n)) n)
  | Some (TSend p host ch ((v, info) :: msgs)) =>
      let '(log, ps) := deliver p host (RegisterChannel ch) v info ([], procs n) Rtps in
      (log, mkNet ps (trans n) (recvs n) (<[k := TSend p host ch msgs]> (tasks n)))
  | Some (TReceive r ch false) =>
      ([], set_tasks (<[k := TReceive r ch true]> (tasks n))
             (at_reader (fun hr => add_listener (V := V) Rtps (id_of (r_attr hr)) None (RegisterChannel ch) (r_listener hr)) r n))
  | Some (TReceive r ch true) =>
      ([], set_tasks (delete k (tasks n))
             (at_reader (fun hr => remove_listener (V := V) Rtps (id_of (r_attr hr)) None (RegisterChannel ch)) r n))
  end.

Definition run_nop (n : net) (o : nop) : net :=
  match o with
  | NEnableWriter t r => on_writer enable_writer_for t r n
  | NDisableWriter t r => on_writer (fun _ a h => ([], DisableFor a h)) t r n
  | NEnableReader r t => on_reader (enable_reader_for r) r t n
  | NDisableReader r t => on_reader (fun a hr d => let '(hr', d') := ReceiverDisableFor a hr d in ([], hr', d')) r t n
  | NSend t v => snd (send t v n)
  | NTask k => snd (task_step k n)
  end.

(** ** The set-up *)

(** The processes (host and number), and the writers and readers with their identities and the attributes they are made with. *)
Record setup := mkSetup {
  s_procs : list (string * Z);
  s_writers : gmap nat (nat * Identity * Attributes);
  s_readers : gmap nat (nat * Identity * Attributes);
  s_conf : option CommunicationMode;
  s_limit : option Z;
}.

Definition start (s : setup) : net :=
  mkNet (map (fun '(host, pid) => mkProcess host pid (mkDispatchers fo_new fo_new fo_new)) (s_procs s))
    ((fun '(p, i, a) => (p, transmitter_new i (s_limit s) (s_conf s) a)) <$> s_writers s)
    (map_imap (fun r '(p, i, a) => Some (p, receiver_new i (s_conf s) a r)) (s_readers s)) [].
End network.
Arguments process : clear implicits.
Arguments net : clear implicits.
Arguments task : clear implicits.

(** The process and the attributes of an endpoint. *)
Definition writer_of (s : setup) (t : nat) : option (nat * Attributes) :=
  (fun '(p, i, a) => (p, Endpoint i a)) <$> s_writers s !! t.
Definition reader_of (s : setup) (r : nat) : option (nat * Attributes) :=
  (fun '(p, i, a) => (p, Endpoint i a)) <$> s_readers s !! r.

(** The mode for a writer and a reader that are related. *)
Definition mode_of (s : setup) (ta ra : Attributes) : OptionalMode :=
  mapping_table_ (ObtainConfig (s_conf s)) (GetRelation ta ra).

(** What a process and the configuration give: the attributes say where the endpoint is; a channel is known by its name as by
    its identifier; endpoints have their own identifiers, none given beforehand; a process has one reader of a channel
    ([ReceiverManager]); the durability of the writers is volatile, as in all quality-of-service profiles but those of the
    static transforms and the changes of the topology; and the modes are those that their comments allow. *)
Record setup_ok (s : setup) : Prop := {
  ok_procs : NoDup (s_procs s);
  ok_writer : forall t p i a, s_writers s !! t = Some (p, i, a) ->
    id a = None /\ s_procs s !! p = Some (host_ip a, process_id a) /\ is_u64 (channel_id a);
  ok_volatile : forall t p i a, s_writers s !! t = Some (p, i, a) -> transient a = false;
  ok_reader : forall r p i a, s_readers s !! r = Some (p, i, a) ->
    s_procs s !! p = Some (host_ip a, process_id a) /\ is_u64 (channel_id a);
  ok_writer_ids : forall t1 t2 p1 p2 a1 a2, writer_of s t1 = Some (p1, a1) -> writer_of s t2 = Some (p2, a2) ->
    id_of a1 = id_of a2 -> t1 = t2;
  ok_reader_ids : forall r1 r2 p1 p2 a1 a2, reader_of s r1 = Some (p1, a1) -> reader_of s r2 = Some (p2, a2) ->
    id_of a1 = id_of a2 -> r1 = r2;
  ok_one_reader : forall r1 r2 p a1 a2, reader_of s r1 = Some (p, a1) -> reader_of s r2 = Some (p, a2) ->
    channel_id a1 = channel_id a2 -> r1 = r2;
  ok_channels : forall t r p q ta ra, writer_of s t = Some (p, ta) -> reader_of s r = Some (q, ra) ->
    channel_name ta = channel_name ra -> channel_id ta = channel_id ra;
  ok_modes : let m := ObtainConfig (s_conf s) in
    same_proc m <> HYBRID /\ (diff_proc m = SHM \/ diff_proc m = RTPS) /\ diff_host m = RTPS;
}.

(** Which writers are enabled for which readers, and the other way. *)
Definition related (s : setup) (t r : nat) : bool :=
  match writer_of s t, reader_of s r with
  | Some (_, ta), Some (_, ra) => match GetRelation ta ra with NO_RELATION => false | _ => true end
  | _, _ => false
  end.

Abbreviation Pairs := (gset (nat * nat)).

Definition spec_nop {V : Type} (s : setup) (st : Pairs * Pairs) (o : nop (V := V)) : Pairs * Pairs :=
  match o with
  | NEnableWriter t r => (if related s t r then {[(t, r)]} ∪ fst st else fst st, snd st)
  | NDisableWriter t r => (fst st ∖ {[(t, r)]}, snd st)
  | NEnableReader r t => (fst st, if related s t r then {[(t, r)]} ∪ snd st else snd st)
  | NDisableReader r t => (fst st, snd st ∖ {[(t, r)]})
  | NSend _ _ | NTask _ => st
  end.

(** ** Relations *)

Lemma relation_sym a b : GetRelation a b = GetRelation b a.
Proof.
  unfold GetRelation. rewrite (String.eqb_sym (channel_name b)), (String.eqb_sym (host_ip b)), (Z.eqb_sym (process_id b)). done.
Qed.

Lemma endpoint_fields i a :
  channel_name (Endpoint i a) = channel_name a /\ channel_id (Endpoint i a) = channel_id a /\
  host_ip (Endpoint i a) = host_ip a /\ process_id (Endpoint i a) = process_id a.
Proof. unfold Endpoint. by destruct (id a). Qed.

Lemma related_spec s t r :
  related s t r = true <-> exists p q ta ra, writer_of s t = Some (p, ta) /\ reader_of s r = Some (q, ra) /\
    GetRelation ta ra <> NO_RELATION.
Proof.
  unfold related. destruct (writer_of s t) as [[p ta]|], (reader_of s r) as [[q ra]|]; try (split; [done|naive_solver]).
  split; [|intros (? & ? & ? & ? & [= <- <-] & [= <- <-] & Hr); by destruct (GetRelation ta ra)].
  intros H. exists p, q, ta, ra. split; [done|]. split; [done|]. intros E. by rewrite E in H.
Qed.

Lemma relation_channel a b : GetRelation a b <> NO_RELATION -> channel_name a = channel_name b.
Proof.
  unfold GetRelation. destruct (String.eqb_spec (channel_name b) (channel_name a)); [done|]. by intros H.
Qed.

(** A volatile writer has no history to send. *)
Lemma writer_volatile s t p ta : setup_ok s -> writer_of s t = Some (p, ta) -> transient ta = false.
Proof.
  intros Hs Ht. unfold writer_of in Ht. destruct (s_writers s !! t) as [[[p' i] a]|] eqn:E; [|done]. cbn in Ht. injection Ht as <- <-.
  pose proof (ok_volatile _ Hs _ _ _ _ E) as Hv. unfold Endpoint. by destruct (id a).
Qed.

(** A medium that is chosen for a reader reaches its process. *)
Lemma medium_reaches s t r p q ta ra host pid :
  setup_ok s -> writer_of s t = Some (p, ta) -> reader_of s r = Some (q, ra) -> GetRelation ta ra <> NO_RELATION ->
  s_procs s !! q = Some (host, pid) ->
  reaches (medium_of (mode_of s ta ra)) p (host_ip ta) q host = true.
Proof.
  intros Hs Ht Hr Hrel Hpr. unfold writer_of, reader_of in *.
  destruct (s_writers s !! t) as [[[p' it] at_]|] eqn:Et; [|done]. destruct (s_readers s !! r) as [[[q' ir] ar]|] eqn:Er; [|done].
  cbn in Ht, Hr. injection Ht as -> <-. injection Hr as -> <-.
  destruct (ok_writer _ Hs _ _ _ _ Et) as (_ & Hp & _). destruct (ok_reader _ Hs _ _ _ _ Er) as [Hq _].
  destruct (ok_modes _ Hs) as (Hm1 & Hm2 & Hm3). rewrite Hq in Hpr. injection Hpr as Eh Ep.
  destruct (endpoint_fields it at_) as (_ & _ & E3 & E4). destruct (endpoint_fields ir ar) as (_ & _ & E3' & E4').
  unfold mode_of, mapping_table_. unfold GetRelation in *. rewrite E3, E3', E4, E4' in *.
  destruct (String.eqb _ _); cbn [negb] in *; [|done].
  destruct (String.eqb_spec (host_ip ar) (host_ip at_)) as [Ehost|]; cbn [negb] in *; [|by rewrite Hm3].
  assert (Hshm : String.eqb host (host_ip at_) = true) by (apply String.eqb_eq; congruence).
  destruct (Z.eqb_spec (process_id ar) (process_id at_)) as [Epid|]; cbn [negb] in *.
  - assert (p = q) as ->.
    { eapply NoDup_lookup; [apply (ok_procs _ Hs)| |exact Hq]. rewrite Hp. congruence. }
    destruct (same_proc (ObtainConfig (s_conf s))); cbn; try done. apply Nat.eqb_refl.
  - by destruct Hm2 as [-> | ->].
Qed.

(** Modes other than [HYBRID] are told apart by their media. *)
Lemma medium_inj m1 m2 : m1 <> HYBRID -> m2 <> HYBRID -> medium_of m1 = medium_of m2 -> m1 = m2.
Proof. by destruct m1, m2. Qed.

Lemma mode_allowed s ta ra :
  setup_ok s -> GetRelation ta ra <> NO_RELATION -> mode_of s ta ra <> HYBRID /\ mode_of s ta ra ∈ modes (ObtainConfig (s_conf s)).
Proof.
  intros Hs Hrel. destruct (ok_modes _ Hs) as (Hm1 & Hm2 & Hm3). unfold mode_of, mapping_table_, modes.
  destruct (GetRelation ta ra); [done|..]; rewrite list_elem_of_filter.
  - rewrite Hm3. split; [done|]. split; [auto|]. set_solver.
  - split; [by destruct Hm2 as [-> | ->]|]. split; [auto|]. destruct (diff_proc _); set_solver.
  - split; [done|]. split; [auto|]. destruct (same_proc _); set_solver.
Qed.

Lemma modes_not_hybrid s m : setup_ok s -> m ∈ modes (ObtainConfig (s_conf s)) -> m <> HYBRID.
Proof.
  intros Hs [Hm _]%list_elem_of_filter. destruct (ok_modes _ Hs) as (Hm1 & Hm2 & Hm3).
  destruct Hm as [-> | [-> | ->]]; [done| |by rewrite Hm3]. by destruct Hm2 as [-> | ->].
Qed.

(** ** The invariant *)

Lemma pair_new (x : nat * nat) (X : Pairs) : x ∈ {[x]} ∪ X.
Proof. apply elem_of_union. left. by apply elem_of_singleton. Qed.

Lemma non_empty_add (x : Z) (X : gset Z) : {[x]} ∪ X <> ∅.
Proof. intros H. apply (not_elem_of_empty (C := gset Z) x). rewrite <- H. apply elem_of_union. left. by apply elem_of_singleton. Qed.

Section invariant.
Context {DI DO V : Type} `{!FanOut DI nat V, !FanOut DO nat V, !FanOutLaws DI nat V, !FanOutLaws DO nat V}.
Context (s : setup) (Hs : setup_ok s) (RegisterChannel : string -> Z).

Abbreviation net := (net DI DO V).
Abbreviation mode := (ObtainConfig (s_conf s)).

(** The entries of the dispatcher of medium [m] in the process at [q]: one for each reader of the process and writer that it is
    enabled for. *)
Definition registered (RE : Pairs) (q : nat) (m : Medium) (ch : Z) (key : option Z) (e : Z * nat) : Prop :=
  exists t p ta ra, (t, snd e) ∈ RE /\ writer_of s t = Some (p, ta) /\ reader_of s (snd e) = Some (q, ra) /\
    key = Some (id_of ta) /\ ch = channel_id ra /\ fst e = id_of ra /\ medium_of (mode_of s ta ra) = m.

Record writer_inv (TE : Pairs) (t : nat) (h : HybridTransmitter V) : Prop := {
  wi_mode : t_mode h = mode;
  wi_id : id_of (t_attr h) = hash_value_ (t_id h);
  wi_modes : forall m, m ∈ modes mode -> exists ids, receivers_ h !! m = Some ids /\
    (forall x, x ∈ ids <-> exists r q ra, (t, r) ∈ TE /\ reader_of s r = Some (q, ra) /\ x = id_of ra /\ mode_of s (t_attr h) ra = m) /\
    transmitters_ h !! m = Some (bool_decide (ids <> ∅));
  wi_others : forall m, m ∉ modes mode -> transmitters_ h !! m = None;
}.

Record reader_inv (RE : Pairs) (r : nat) (hr : HybridReceiver nat) : Prop := {
  ri_mode : r_mode hr = mode;
  ri_listener : r_listener hr = r;
  ri_modes : forall m, m ∈ modes mode -> exists ts, r_transmitters hr !! m = Some ts /\
    (forall x, is_Some (ts !! x) <->
       exists t p ta, (t, r) ∈ RE /\ writer_of s t = Some (p, ta) /\ x = id_of ta /\ mode_of s ta (r_attr hr) = m);
}.

Record net_inv (TE RE : Pairs) (n : net) : Prop := {
  ni_related : forall t r, (t, r) ∈ TE \/ (t, r) ∈ RE -> related s t r = true;
  ni_writers : forall t, (fun e => (fst e, t_attr (snd e))) <$> trans n !! t = writer_of s t;
  ni_readers : forall r, (fun e => (fst e, r_attr (snd e))) <$> recvs n !! r = reader_of s r;
  ni_procs : map (fun pr => (p_host pr, p_pid pr)) (procs n) = s_procs s;
  ni_tasks : tasks n = [];
  ni_w : forall t p h, trans n !! t = Some (p, h) -> writer_inv TE t h;
  ni_r : forall r q hr, recvs n !! r = Some (q, hr) -> reader_inv RE r hr;
  ni_d : exists reg : nat -> Medium -> Readers nat,
    (forall q pr, procs n !! q = Some pr -> disp_inv (reg q) (p_dispatchers pr)) /\
    (forall q m ch key e, reg q m !! (ch, key) = Some e <-> registered RE q m ch key e);
}.

(** ** Writers *)

Lemma writer_inv_other TE TE' t h :
  writer_inv TE t h -> (forall r, (t, r) ∈ TE' <-> (t, r) ∈ TE) -> writer_inv TE' t h.
Proof.
  intros [H1 H2 H3 H4] Heq. split; try done. intros m Hm. destruct (H3 m Hm) as (ids & E1 & E2 & E3).
  exists ids. split; [done|]. split; [|done]. intros x. rewrite E2. by setoid_rewrite Heq.
Qed.

Lemma enable_writer TE t p q h r ra :
  writer_inv TE t h -> writer_of s t = Some (p, t_attr h) -> reader_of s r = Some (q, ra) ->
  let '(ts, h') := enable_writer_for p ra h in
  ts = [] /\ t_attr h' = t_attr h /\ writer_inv (if related s t r then {[(t, r)]} ∪ TE else TE) t h'.
Proof.
  intros Hw Ht Hr. pose proof (writer_volatile s t p _ Hs Ht) as Hv. unfold enable_writer_for.
  assert (Hno : fst (EnableFor true ra h) = None).
  { unfold EnableFor, TransmitHistoryMsg. destruct (GetRelation (t_attr h) ra); [done|..]; cbn [set_transmitters t_attr fst]; by rewrite Hv. }
  rewrite (surjective_pairing (EnableFor true ra h)), Hno. split; [done|].
  assert (Hrel : related s t r = match GetRelation (t_attr h) ra with NO_RELATION => false | _ => true end)
    by (unfold related; by rewrite Ht, Hr).
  rewrite Hrel. set (m0 := mode_of s (t_attr h) ra).
  assert (E : GetRelation (t_attr h) ra <> NO_RELATION -> snd (EnableFor true ra h) =
    set_transmitters (alter (sub_enable true m0) m0 (transmitters_ h))
      (<[m0 := {[id_of ra]} ∪ default ∅ (receivers_ h !! m0)]> (receivers_ h)) h).
  { unfold EnableFor, m0, mode_of. rewrite (wi_mode _ _ _ Hw). by destruct (GetRelation (t_attr h) ra). }
  destruct (decide (GetRelation (t_attr h) ra = NO_RELATION)) as [En|Hn].
  { unfold EnableFor. by rewrite En. }
  rewrite (E Hn). split; [done|].
  replace (match GetRelation (t_attr h) ra with NO_RELATION => false | _ => true end) with true by (by destruct (GetRelation _ _)).
  destruct (mode_allowed s (t_attr h) ra Hs Hn) as [Hm0 Hin]. fold m0 in Hm0, Hin.
  destruct Hw as [H1 H2 H3 H4]. split; cbn [set_transmitters t_mode t_attr t_id receivers_ transmitters_]; [done|done| |].
  - intros m Hm. destruct (H3 m Hm) as (ids & E1 & E2 & E3). destruct (decide (m = m0)) as [->|Hne].
    + exists ({[id_of ra]} ∪ ids). rewrite lookup_insert_eq, lookup_alter_eq, E1, E3. split; [done|]. split.
      * intros x. rewrite elem_of_union, elem_of_singleton, E2. split.
        -- intros [-> | (r' & q' & ra' & Hp & Hrest)]; [exists r, q, ra|exists r', q', ra'].
           ++ split; [apply pair_new|done].
           ++ split; [by apply elem_of_union; right|done].
        -- intros (r' & q' & ra' & Hp & Hr' & -> & Hm'). apply elem_of_union in Hp as [[= ->]%elem_of_singleton|Hp].
           ++ left. congruence.
           ++ right. by exists r', q', ra'.
      * cbn. rewrite (bool_decide_eq_true_2 ({[id_of ra]} ∪ ids <> ∅)) by apply non_empty_add. unfold sub_enable. by destruct (medium_of m0), (bool_decide _).
    + exists ids. rewrite lookup_insert_ne, lookup_alter_ne by done. split; [done|]. split; [|done].
      intros x. rewrite E2. split.
      * intros (r' & q' & ra' & Hp & Hrest). exists r', q', ra'. split; [by apply elem_of_union; right|done].
      * intros (r' & q' & ra' & Hp & Hr' & -> & Hm'). apply elem_of_union in Hp as [[= ->]%elem_of_singleton|Hp].
        -- rewrite Hr in Hr'. injection Hr' as <- <-. done.
        -- by exists r', q', ra'.
  - intros m Hm. rewrite lookup_alter_ne by congruence. by apply H4.
Qed.

(** Which other pairs there are after one is taken away. *)
Lemma disable_ids (TE : Pairs) t r q ra (ids : gset Z) (m : OptionalMode) (ta : Attributes) :
  reader_of s r = Some (q, ra) ->
  (forall x, x ∈ ids <-> exists r q ra, (t, r) ∈ TE /\ reader_of s r = Some (q, ra) /\ x = id_of ra /\ mode_of s ta ra = m) ->
  forall x, x ∈ ids ∖ {[id_of ra]} <->
    exists r' q' ra', (t, r') ∈ TE ∖ {[(t, r)]} /\ reader_of s r' = Some (q', ra') /\ x = id_of ra' /\ mode_of s ta ra' = m.
Proof.
  intros Hr Hids x. rewrite elem_of_difference, elem_of_singleton, Hids. split.
  - intros [(r' & q' & ra' & Hp & Hr' & -> & Hm) Hne]. exists r', q', ra'. split; [|done].
    apply elem_of_difference. split; [done|]. intros [= ->]%elem_of_singleton. apply Hne. congruence.
  - intros (r' & q' & ra' & [Hp Hne]%elem_of_difference & Hr' & -> & Hm). split; [by exists r', q', ra'|].
    intros E. apply Hne. apply elem_of_singleton. f_equal. by apply (ok_reader_ids _ Hs _ _ _ _ _ _ Hr' Hr).
Qed.

Lemma disable_writer TE t p q h r ra :
  writer_inv TE t h -> writer_of s t = Some (p, t_attr h) -> reader_of s r = Some (q, ra) ->
  ((t, r) ∈ TE -> related s t r = true) ->
  let h' := DisableFor ra h in
  t_attr h' = t_attr h /\ writer_inv (TE ∖ {[(t, r)]}) t h'.
Proof.
  intros Hw Ht Hr Hrel. cbv zeta. unfold related in Hrel. rewrite Ht, Hr in Hrel. set (m0 := mode_of s (t_attr h) ra).
  destruct (decide (GetRelation (t_attr h) ra = NO_RELATION)) as [En|Hn].
  { unfold DisableFor. rewrite En in *. split; [done|]. apply (writer_inv_other TE); [done|].
    intros r'. rewrite elem_of_difference, elem_of_singleton. split; [by intros []|]. intros H. split; [done|].
    intros [= ->]. by specialize (Hrel H). }
  destruct (mode_allowed s (t_attr h) ra Hs Hn) as [Hm0 Hin]. fold m0 in Hm0, Hin.
  set (ids0 := default ∅ (receivers_ h !! m0) ∖ {[id_of ra]}).
  assert (E : DisableFor ra h = set_transmitters
      (if bool_decide (ids0 = ∅) then alter (fun _ => false) m0 (transmitters_ h) else transmitters_ h)
      (<[m0 := ids0]> (receivers_ h)) h).
  { unfold DisableFor, ids0, m0, mode_of. rewrite (wi_mode _ _ _ Hw). by destruct (GetRelation (t_attr h) ra). }
  rewrite E. split; [done|]. destruct Hw as [H1 H2 H3 H4].
  split; cbn [set_transmitters t_mode t_attr t_id receivers_ transmitters_]; [done|done| |].
  - intros m Hm. destruct (H3 m Hm) as (ids & E1 & E2 & E3). destruct (decide (m = m0)) as [->|Hne].
    + exists ids0. rewrite lookup_insert_eq. split; [done|]. unfold ids0 in *. rewrite E1. cbn [default]. split.
      * by apply disable_ids with (q := q).
      * change (default ∅ (Some ids)) with ids. destruct (decide (ids ∖ {[id_of ra]} = ∅)) as [Hd|Hd].
        -- rewrite (bool_decide_eq_true_2 (_ = ∅)) by done. rewrite (bool_decide_eq_false_2 (_ <> ∅)) by (intros H; by apply H).
           by rewrite lookup_alter_eq, E3.
        -- rewrite (bool_decide_eq_false_2 (_ = ∅)) by done. rewrite (bool_decide_eq_true_2 (_ <> ∅)) by done.
           rewrite E3, bool_decide_eq_true_2; [done|]. intros ->. apply Hd, set_eq. intros x.
           rewrite elem_of_difference, elem_of_empty. tauto.
    + exists ids. rewrite lookup_insert_ne by done. split; [done|].
      split; [|destruct (bool_decide (ids0 = ∅)); [rewrite lookup_alter_ne by congruence|]; done].
      intros x. rewrite E2. split.
      * intros (r' & q' & ra' & Hp & Hr' & -> & Hm'). exists r', q', ra'. split; [|done].
        apply elem_of_difference. split; [done|]. intros [= ->]%elem_of_singleton. apply Hne. rewrite <- Hm'.
        unfold m0. congruence.
      * intros (r' & q' & ra' & [Hp _]%elem_of_difference & Hrest). by exists r', q', ra'.
  - intros m Hm. case_bool_decide; [rewrite lookup_alter_ne by congruence|]; by apply H4.
Qed.

(** ** Readers *)

Lemma reader_inv_other RE RE' r hr :
  reader_inv RE r hr -> (forall t, (t, r) ∈ RE' <-> (t, r) ∈ RE) -> reader_inv RE' r hr.
Proof.
  intros [H1 H2 H3] Heq. split; try done. intros m Hm. destruct (H3 m Hm) as (ts & E1 & E2).
  exists ts. split; [done|]. intros x. rewrite E2. by setoid_rewrite Heq.
Qed.

(** The entries after a pair is added or taken away. *)
Lemma registered_add (RE : Pairs) t r p q ta ra q' m ch key e :
  writer_of s t = Some (p, ta) -> reader_of s r = Some (q, ra) ->
  registered ({[(t, r)]} ∪ RE) q' m ch key e <->
  registered RE q' m ch key e \/
  (q' = q /\ m = medium_of (mode_of s ta ra) /\ ch = channel_id ra /\ key = Some (id_of ta) /\ e = (id_of ra, r)).
Proof.
  intros Ht Hr. unfold registered. split.
  - intros (t' & p' & ta' & ra' & Hp & Ht' & Hr' & -> & -> & He & <-).
    apply elem_of_union in Hp as [[= -> E]%elem_of_singleton|Hp]; [right|left].
    + rewrite E, Hr in Hr'. rewrite Ht in Ht'. simplify_eq. repeat split. destruct e. cbn in *. congruence.
    + by exists t', p', ta', ra'.
  - intros [(t' & p' & ta' & ra' & Hp & Hrest)|(-> & -> & -> & -> & ->)].
    + exists t', p', ta', ra'. split; [by apply elem_of_union; right|done].
    + exists t, p, ta, ra. cbn. split; [apply pair_new|done].
Qed.

Lemma registered_remove (RE : Pairs) t r p q ta ra q' m ch key e :
  writer_of s t = Some (p, ta) -> reader_of s r = Some (q, ra) ->
  registered (RE ∖ {[(t, r)]}) q' m ch key e <->
  registered RE q' m ch key e /\ ~ (key = Some (id_of ta) /\ snd e = r).
Proof.
  intros Ht Hr. unfold registered. split.
  - intros (t' & p' & ta' & ra' & [Hp Hne]%elem_of_difference & Ht' & Hr' & -> & -> & He & <-). split; [by exists t', p', ta', ra'|].
    intros [[= E] Er]. apply Hne, elem_of_singleton. rewrite Er. f_equal.
    by apply (ok_writer_ids _ Hs _ _ _ _ _ _ Ht' Ht).
  - intros [(t' & p' & ta' & ra' & Hp & Ht' & Hr' & -> & -> & He & <-) Hne].
    exists t', p', ta', ra'. split; [|done]. apply elem_of_difference. split; [done|].
    intros [= -> E]%elem_of_singleton. apply Hne. split; [|done]. congruence.
Qed.

(** A process has one reader for a channel and sender. *)
Lemma registered_new (RE : Pairs) t r p q ta ra m e :
  writer_of s t = Some (p, ta) -> reader_of s r = Some (q, ra) ->
  registered RE q m (channel_id ra) (Some (id_of ta)) e -> (t, r) ∈ RE /\ e = (id_of ra, r) /\ m = medium_of (mode_of s ta ra).
Proof.
  intros Ht Hr (t' & p' & ta' & ra' & Hp & Ht' & Hr' & [= Hk] & Hch & He & <-).
  assert (t' = t) as -> by by apply (ok_writer_ids _ Hs _ _ _ _ _ _ Ht' Ht).
  assert (snd e = r) as Er by (by apply (ok_one_reader _ Hs _ _ _ _ _ Hr' Hr)). rewrite Er in *.
  rewrite Hr in Hr'. rewrite Ht in Ht'. simplify_eq. split; [done|]. split; [|done]. destruct e. cbn in *. congruence.
Qed.

(** A step of a reader leaves its attributes, and what it and the dispatchers of its process are about. *)
Definition reader_steps (RE RE' : Pairs) (r q : nat) (hr hr' : HybridReceiver nat) (d' : Dispatchers DI DO) : Prop :=
  r_attr hr' = r_attr hr /\ reader_inv RE' r hr' /\
  exists regq, disp_inv regq d' /\ forall m ch key e, regq m !! (ch, key) = Some e <-> registered RE' q m ch key e.

Lemma reader_same (RE RE' : Pairs) (r q : nat) (hr : HybridReceiver nat) (reg : nat -> Medium -> Readers nat)
    (d : Dispatchers DI DO) :
  reader_inv RE r hr -> disp_inv (reg q) d -> (forall q m ch key e, reg q m !! (ch, key) = Some e <-> registered RE q m ch key e) ->
  RE' = RE -> reader_steps RE RE' r q hr hr d.
Proof. intros Hr Hd Hreg ->. split; [done|]. split; [done|]. by exists (reg q). Qed.

(** [Enable] for a related writer, and [Disable]. *)
Lemma receiver_enable_related ta (hr : HybridReceiver nat) (d : Dispatchers DI DO) :
  r_mode hr = mode -> GetRelation ta (r_attr hr) <> NO_RELATION ->
  let m := mode_of s ta (r_attr hr) in
  let ts := default ∅ (r_transmitters hr !! m) in
  ReceiverEnableFor (V := V) ta hr d =
    match ts !! id_of ta with
    | Some _ => (None, hr, d)
    | None =>
        (ReceiveHistoryMsg ta hr, with_transmitters (<[m := <[id_of ta := ta]> ts]> (r_transmitters hr)) hr,
         add_listener (V := V) (medium_of m) (id_of (r_attr hr)) (Some (id_of ta)) (channel_id (r_attr hr)) (r_listener hr) d)
    end.
Proof.
  intros Hm Hn. unfold ReceiverEnableFor, mode_of. rewrite (relation_sym (r_attr hr) ta), Hm.
  by destruct (GetRelation ta (r_attr hr)).
Qed.

Lemma receiver_disable_related ta (hr : HybridReceiver nat) (d : Dispatchers DI DO) :
  r_mode hr = mode -> GetRelation ta (r_attr hr) <> NO_RELATION ->
  let m := mode_of s ta (r_attr hr) in
  let ts := default ∅ (r_transmitters hr !! m) in
  ReceiverDisableFor (V := V) ta hr d =
    match ts !! id_of ta with
    | None => (hr, d)
    | Some _ =>
        (with_transmitters (<[m := delete (id_of ta) ts]> (r_transmitters hr)) hr,
         remove_listener (V := V) (medium_of m) (id_of (r_attr hr)) (Some (id_of ta)) (channel_id (r_attr hr)) d)
    end.
Proof.
  intros Hm Hn. unfold ReceiverDisableFor, mode_of. rewrite (relation_sym (r_attr hr) ta), Hm.
  by destruct (GetRelation ta (r_attr hr)).
Qed.

(** The table of a reader's writers. *)
Lemma reader_inv_add (RE : Pairs) (t p : nat) ta r (hr : HybridReceiver nat) m0 (ts : gmap Z Attributes) :
  reader_inv RE r hr -> writer_of s t = Some (p, ta) -> m0 = mode_of s ta (r_attr hr) -> m0 ∈ modes mode ->
  r_transmitters hr !! m0 = Some ts ->
  reader_inv ({[(t, r)]} ∪ RE) r (with_transmitters (<[m0 := <[id_of ta := ta]> ts]> (r_transmitters hr)) hr).
Proof.
  intros [H1 H2 H3] Ht Em Hin Ets. split; cbn [with_transmitters r_mode r_listener r_transmitters r_attr]; [done|done|].
  intros m Hm. destruct (H3 m Hm) as (ts' & E1 & E2). destruct (decide (m = m0)) as [->|Hne].
  - exists (<[id_of ta := ta]> ts). rewrite lookup_insert_eq. split; [done|]. intros x. replace ts' with ts in * by congruence.
    rewrite lookup_insert_is_Some, E2. split.
    + intros [<- | [_ (t' & p' & ta' & Hp & Hrest)]]; [exists t, p, ta; split; [apply pair_new|done]|].
      exists t', p', ta'. split; [by apply elem_of_union; right|done].
    + intros (t' & p' & ta' & Hp & Ht' & -> & Hm'). apply elem_of_union in Hp as [[= ->]%elem_of_singleton|Hp].
      * left. congruence.
      * destruct (decide (id_of ta = id_of ta')) as [|Hne]; [by left|]. right. split; [done|]. by exists t', p', ta'.
  - exists ts'. rewrite lookup_insert_ne by done. split; [done|]. intros x. rewrite E2. split.
    + intros (t' & p' & ta' & Hp & Hrest). exists t', p', ta'. split; [by apply elem_of_union; right|done].
    + intros (t' & p' & ta' & Hp & Ht' & -> & Hm'). apply elem_of_union in Hp as [[= ->]%elem_of_singleton|Hp].
      * destruct Hne. rewrite <- Hm', Em. congruence.
      * by exists t', p', ta'.
Qed.

Lemma reader_inv_remove (RE : Pairs) (t p : nat) ta r (hr : HybridReceiver nat) m0 (ts : gmap Z Attributes) :
  reader_inv RE r hr -> writer_of s t = Some (p, ta) -> m0 = mode_of s ta (r_attr hr) -> m0 ∈ modes mode ->
  r_transmitters hr !! m0 = Some ts ->
  reader_inv (RE ∖ {[(t, r)]}) r (with_transmitters (<[m0 := delete (id_of ta) ts]> (r_transmitters hr)) hr).
Proof.
  intros [H1 H2 H3] Ht Em Hin Ets. split; cbn [with_transmitters r_mode r_listener r_transmitters r_attr]; [done|done|].
  intros m Hm. destruct (H3 m Hm) as (ts' & E1 & E2).
  assert (Hset : forall x, x <> id_of ta \/ m <> m0 ->
    (exists t' p' ta', (t', r) ∈ RE ∖ {[(t, r)]} /\ writer_of s t' = Some (p', ta') /\ x = id_of ta' /\ mode_of s ta' (r_attr hr) = m) <->
    (exists t' p' ta', (t', r) ∈ RE /\ writer_of s t' = Some (p', ta') /\ x = id_of ta' /\ mode_of s ta' (r_attr hr) = m)).
  { intros x Hx. split; intros (t' & p' & ta' & Hp & Ht' & E & Hm'); exists t', p', ta'; (split; [|done]).
    - by apply elem_of_difference in Hp as [Hp _].
    - apply elem_of_difference. split; [done|]. intros [= ->]%elem_of_singleton. rewrite Ht in Ht'. simplify_eq.
      by destruct Hx as [Hx|Hx]; apply Hx. }
  destruct (decide (m = m0)) as [->|Hne].
  - exists (delete (id_of ta) ts). rewrite lookup_insert_eq. split; [done|]. intros x. replace ts' with ts in * by congruence.
    rewrite lookup_delete_is_Some, E2. split.
    + intros [Hx H]. apply Hset; auto.
    + intros H. assert (Hx : id_of ta <> x).
      { destruct H as (t' & p' & ta' & [_ Hne]%elem_of_difference & Ht' & -> & _). intros Hid. apply Hne, elem_of_singleton.
        f_equal. by apply (ok_writer_ids _ Hs _ _ _ _ _ _ Ht' Ht). }
      split; [done|]. apply Hset; auto.
  - exists ts'. rewrite lookup_insert_ne by done. split; [done|]. intros x. rewrite E2. symmetry. apply Hset. auto.
Qed.

Section one_reader.
Context (RE : Pairs) (reg : nat -> Medium -> Readers nat) (t p : nat) (ta : Attributes) (r q : nat).
Context (hr : HybridReceiver nat) (d : Dispatchers DI DO).
Hypothesis Hi : reader_inv RE r hr.
Hypothesis Hr : reader_of s r = Some (q, r_attr hr).
Hypothesis Ht : writer_of s t = Some (p, ta).
Hypothesis Hd : disp_inv (reg q) d.
Hypothesis Hreg : forall q m ch key e, reg q m !! (ch, key) = Some e <-> registered RE q m ch key e.
Hypothesis Hch : is_u64 (channel_id (r_attr hr)).

Lemma related_here :
  related s t r = match GetRelation ta (r_attr hr) with NO_RELATION => false | _ => true end.
Proof. unfold related. by rewrite Ht, Hr. Qed.

(** Whether the pair is there, by the reader's table. *)
Lemma in_table ts : r_transmitters hr !! mode_of s ta (r_attr hr) = Some ts -> mode_of s ta (r_attr hr) ∈ modes mode ->
  is_Some (ts !! id_of ta) <-> (t, r) ∈ RE.
Proof.
  intros Ets Hin. destruct (ri_modes _ _ _ Hi _ Hin) as (ts' & E & Hts). replace ts' with ts in * by congruence.
  rewrite Hts. split; [|intros Hp; by exists t, p, ta].
  intros (t' & p' & ta' & Hp & Ht' & Hid & _). by rewrite (ok_writer_ids _ Hs _ _ _ _ _ _ Ht Ht' Hid).
Qed.

Lemma enable_reader :
  let '(_, hr', d') := ReceiverEnableFor (V := V) ta hr d in
  reader_steps RE (if related s t r then {[(t, r)]} ∪ RE else RE) r q hr hr' d'.
Proof.
  rewrite related_here. destruct (decide (GetRelation ta (r_attr hr) = NO_RELATION)) as [En|Hn].
  { unfold ReceiverEnableFor. rewrite (relation_sym (r_attr hr) ta), En. by apply (reader_same RE _ r q hr reg). }
  destruct (mode_allowed s ta (r_attr hr) Hs Hn) as [Hm0 Hin]. set (m0 := mode_of s ta (r_attr hr)) in *.
  replace (match GetRelation ta (r_attr hr) with NO_RELATION => false | _ => true end) with true
    by (by destruct (GetRelation ta (r_attr hr))).
  rewrite (receiver_enable_related ta hr d (ri_mode _ _ _ Hi) Hn). fold m0.
  destruct (ri_modes _ _ _ Hi m0 Hin) as (ts & Ets & _). rewrite Ets. change (default ∅ (Some ts)) with ts.
  pose proof (in_table ts Ets Hin) as Hts. destruct (ts !! id_of ta) as [a|] eqn:Ea.
  - apply (reader_same RE _ r q hr reg); [done|done|done|]. apply set_eq. intros x. rewrite elem_of_union, elem_of_singleton.
    split; [|by right]. intros [->|]; [|done]. by apply Hts.
  - split; [done|]. split; [by apply (reader_inv_add RE t p)|].
    assert (Hnew : reg q (medium_of m0) !! (channel_id (r_attr hr), Some (id_of ta)) = None).
    { destruct (reg q (medium_of m0) !! _) as [e|] eqn:Ee; [|done]. apply Hreg in Ee.
      destruct (registered_new _ _ _ _ _ _ _ _ _ Ht Hr Ee) as (Hp & _). by apply Hts, is_Some_None in Hp. }
    eexists. split; [apply (add_listener_inv _ _ _ _ _ _ _ Hd Hnew Hch)|]. intros m ch key e. cbn beta.
    rewrite (ri_listener _ _ _ Hi), (registered_add RE t r p q ta (r_attr hr)) by done. fold m0. case_decide as Em'.
    + subst m. rewrite lookup_insert_Some, Hreg. split; [intros [[[= <- <-] <-]|[_ H]]; [right|left]; done|].
      intros [H|(_ & _ & -> & -> & ->)]; [|by left].
      destruct (decide ((channel_id (r_attr hr), Some (id_of ta)) = (ch, key))) as [[= <- <-]|Hne]; [|by right].
      apply Hreg in H. congruence.
    + rewrite Hreg. split; [by left|]. intros [H|(_ & Hm & _)]; [done|]. by destruct Em'.
Qed.

Lemma disable_reader (Hrel : (t, r) ∈ RE -> related s t r = true) :
  let '(hr', d') := ReceiverDisableFor (V := V) ta hr d in
  reader_steps RE (RE ∖ {[(t, r)]}) r q hr hr' d'.
Proof.
  rewrite related_here in Hrel.
  assert (Hgone : (t, r) ∉ RE -> RE ∖ {[(t, r)]} = RE).
  { intros Hp. apply set_eq. intros x. rewrite elem_of_difference, elem_of_singleton. split; [by intros []|].
    intros Hx. split; [done|]. by intros ->. }
  destruct (decide (GetRelation ta (r_attr hr) = NO_RELATION)) as [En|Hn].
  { unfold ReceiverDisableFor. rewrite (relation_sym (r_attr hr) ta), En in *. apply (reader_same RE _ r q hr reg); try done.
    apply Hgone. intros Hp. by specialize (Hrel Hp). }
  destruct (mode_allowed s ta (r_attr hr) Hs Hn) as [Hm0 Hin]. set (m0 := mode_of s ta (r_attr hr)) in *.
  rewrite (receiver_disable_related ta hr d (ri_mode _ _ _ Hi) Hn). fold m0.
  destruct (ri_modes _ _ _ Hi m0 Hin) as (ts & Ets & _). rewrite Ets. change (default ∅ (Some ts)) with ts.
  pose proof (in_table ts Ets Hin) as Hts. destruct (ts !! id_of ta) as [a|] eqn:Ea.
  2:{ apply (reader_same RE _ r q hr reg); try done. apply Hgone. intros Hp. by apply Hts, is_Some_None in Hp. }
  split; [done|]. split; [by apply (reader_inv_remove RE t p)|].
  eexists. split; [apply (remove_listener_inv _ _ _ _ _ _ Hd); [|done]|].
  { intros e He. apply Hreg in He. by destruct (registered_new _ _ _ _ _ _ _ _ _ Ht Hr He) as (_ & -> & _). }
  intros m ch key e. cbn beta. rewrite (registered_remove RE t r p q ta (r_attr hr)) by done. case_decide as Em'.
  - subst m. rewrite lookup_delete_Some, Hreg. split.
    + intros [Hne H]. split; [done|]. intros [-> Er]. apply Hne. f_equal.
      destruct H as (t' & p' & ta' & ra' & _ & _ & Hr' & _ & -> & _). rewrite Er, Hr in Hr'. congruence.
    + intros [H Hne]. split; [|done]. intros [= <- <-]. apply Hne.
      by destruct (registered_new _ _ _ _ _ _ _ _ _ Ht Hr H) as (_ & -> & _).
  - rewrite Hreg. split; [|by intros []]. intros H. split; [done|]. intros [-> Er]. apply Em'.
    destruct H as (t' & p' & ta' & ra' & _ & Ht' & Hr' & [= Hid] & _ & _ & <-). rewrite Er, Hr in Hr'.
    rewrite (ok_writer_ids _ Hs _ _ _ _ _ _ Ht' Ht (eq_sym Hid)) in Ht'. unfold m0. congruence.
Qed.
End one_reader.

(** ** Steps of the network *)

Lemma writer_at TE RE (n : net) t p h : net_inv TE RE n -> trans n !! t = Some (p, h) -> writer_of s t = Some (p, t_attr h).
Proof. intros Hn Ht. by rewrite <- (ni_writers _ _ _ Hn), Ht. Qed.

Lemma reader_at TE RE (n : net) r q hr : net_inv TE RE n -> recvs n !! r = Some (q, hr) -> reader_of s r = Some (q, r_attr hr).
Proof. intros Hn Hr. by rewrite <- (ni_readers _ _ _ Hn), Hr. Qed.

Lemma unrelated_absent TE RE (n : net) t r :
  net_inv TE RE n -> trans n !! t = None \/ recvs n !! r = None -> related s t r = false.
Proof.
  intros Hn H. unfold related. rewrite <- (ni_writers _ _ _ Hn), <- (ni_readers _ _ _ Hn).
  destruct H as [-> | ->]; [done|]. by destruct (trans n !! t) as [[p h]|].
Qed.

Lemma writer_step (TE TE' RE : Pairs) (n : net) (f : nat -> Attributes -> HybridTransmitter V -> list (task V) * HybridTransmitter V) t r :
  net_inv TE RE n -> (related s t r = false -> TE' = TE) ->
  (forall t' r', t' <> t -> (t', r') ∈ TE' <-> (t', r') ∈ TE) ->
  (forall t' r', (t', r') ∈ TE' -> related s t' r' = true) ->
  (forall p q h ra, writer_inv TE t h -> writer_of s t = Some (p, t_attr h) -> reader_of s r = Some (q, ra) ->
     let '(ts, h') := f p ra h in ts = [] /\ t_attr h' = t_attr h /\ writer_inv TE' t h') ->
  net_inv TE' RE (on_writer f t r n).
Proof.
  intros Hn Hsame Hother Hrel Hf. unfold on_writer.
  destruct (trans n !! t) as [[p h]|] eqn:Et; [|by rewrite (Hsame (unrelated_absent _ _ _ _ r Hn (or_introl Et)))].
  destruct (recvs n !! r) as [[q hr]|] eqn:Er; [|by rewrite (Hsame (unrelated_absent _ _ _ t _ Hn (or_intror Er)))].
  pose proof (Hf p q h (r_attr hr) (ni_w _ _ _ Hn _ _ _ Et) (writer_at _ _ _ _ _ _ Hn Et) (reader_at _ _ _ _ _ _ Hn Er)) as H1.
  destruct (f p (r_attr hr) h) as [ts h1]. destruct H1 as (-> & Ha & Hw).
  destruct Hn as [N1 N2 N3 N4 N0 N5 N6 N7]. split; cbn [trans recvs procs tasks]; try done.
  - intros t' r' [H|H]; [by apply Hrel|by apply N1; right].
  - intros t'. destruct (decide (t' = t)) as [->|Hne]; [|by rewrite lookup_insert_ne by done].
    rewrite lookup_insert_eq, <- N2, Et. cbn. by rewrite Ha.
  - by rewrite app_nil_r.
  - intros t' p' h'. destruct (decide (t' = t)) as [->|Hne].
    + rewrite lookup_insert_eq. by intros [= <- <-].
    + rewrite lookup_insert_ne by done. intros H. apply (writer_inv_other TE); [by apply (N5 t' p')|].
      intros r'. by apply Hother.
Qed.

Lemma reader_step (TE RE RE' : Pairs) (n : net)
    (f : Attributes -> HybridReceiver nat -> Dispatchers DI DO -> list (task V) * HybridReceiver nat * Dispatchers DI DO) t r :
  net_inv TE RE n -> (related s t r = false -> RE' = RE) ->
  (forall t' r', r' <> r -> (t', r') ∈ RE' <-> (t', r') ∈ RE) ->
  (forall t' r', (t', r') ∈ RE' -> related s t' r' = true) ->
  (forall reg p ta q hr d, reader_inv RE r hr -> reader_of s r = Some (q, r_attr hr) -> writer_of s t = Some (p, ta) ->
     disp_inv (reg q) d -> (forall q m ch key e, reg q m !! (ch, key) = Some e <-> registered RE q m ch key e) ->
     is_u64 (channel_id (r_attr hr)) ->
     let '(ts, hr', d') := f ta hr d in ts = [] /\ reader_steps RE RE' r q hr hr' d') ->
  net_inv TE RE' (on_reader f r t n).
Proof.
  intros Hn Hsame Hother Hrel Hf. unfold on_reader.
  destruct (recvs n !! r) as [[q hr]|] eqn:Er; [|by rewrite (Hsame (unrelated_absent _ _ _ t _ Hn (or_intror Er)))].
  destruct (trans n !! t) as [[p h]|] eqn:Et; [|by rewrite (Hsame (unrelated_absent _ _ _ _ r Hn (or_introl Et)))].
  pose proof (reader_at _ _ _ _ _ _ Hn Er) as Hr. pose proof (writer_at _ _ _ _ _ _ Hn Et) as Ht.
  assert (Hproc : exists pr, procs n !! q = Some pr /\ is_u64 (channel_id (r_attr hr))).
  { unfold reader_of in Hr. destruct (s_readers s !! r) as [[[q' i] a]|] eqn:Ea; [|done]. cbn in Hr. injection Hr as -> <-.
    destruct (ok_reader _ Hs _ _ _ _ Ea) as [Hq Hch]. destruct (endpoint_fields i a) as (_ & -> & _).
    rewrite <- (ni_procs _ _ _ Hn), list_lookup_fmap in Hq. destruct (procs n !! q) as [pr|]; [|done]. by exists pr. }
  destruct Hproc as (pr & Hpr & Hch). rewrite Hpr. destruct Hn as [N1 N2 N3 N4 N0 N5 N6 (reg & N7 & N8)].
  pose proof (Hf reg p _ q hr _ (N6 _ _ _ Er) Hr Ht (N7 _ _ Hpr) N8 Hch) as Hstep.
  destruct (f (t_attr h) hr (p_dispatchers pr)) as [[ts hr'] d']. destruct Hstep as (-> & Ha & Hi & regq & Hd & Hregq).
  split; cbn [trans recvs procs tasks].
  - intros t' r' [H|H]; [by apply N1; left|by apply Hrel].
  - done.
  - intros r'. destruct (decide (r' = r)) as [->|Hne]; [|by rewrite lookup_insert_ne by done].
    rewrite lookup_insert_eq, <- N3, Er. cbn. by rewrite Ha.
  - rewrite <- N4. change (map ?g ?l) with (g <$> l). rewrite list_fmap_insert. cbn. apply list_insert_id.
    by rewrite list_lookup_fmap, Hpr.
  - by rewrite N0.
  - done.
  - intros r' q' h'. destruct (decide (r' = r)) as [->|Hne].
    + rewrite lookup_insert_eq. by intros [= <- <-].
    + rewrite lookup_insert_ne by done. intros H. apply (reader_inv_other RE); [by apply (N6 r' q')|]. intros t'. by apply Hother.
  - exists (fun q' => if decide (q' = q) then regq else reg q'). split.
    + intros q' pr' Hq'. apply list_lookup_insert_Some in Hq' as [(<- & <- & _)|[Hne Hq']].
      * by rewrite decide_True.
      * rewrite decide_False by done. by apply N7.
    + intros q' m ch key e. case_decide as E; [by subst q'|]. rewrite N8.
      split; intros (t' & p' & ta' & ra' & Hp & Ht' & Hr' & Hrest); exists t', p', ta', ra';
        (split; [apply Hother; [congruence|done]|done]).
Qed.

(** ** Sending *)

(** What a medium brings to the readers of a process. *)
Definition outputs (reg : nat -> Medium -> Readers nat) (m : Medium) (p : nat) (host : string) (ch : Z) (v : V) (sender : Z)
    (q : nat) (hp : string * Z) : list (nat * V) :=
  if reaches m p host q (fst hp) then map (fun l => (l, v)) (addressed (reg q m) ch sender) else [].

Definition procs_ok (reg : nat -> Medium -> Readers nat) (ps : list (process DI DO)) : Prop :=
  (forall q pr, ps !! q = Some pr -> disp_inv (reg q) (p_dispatchers pr)) /\
  map (fun pr => (p_host pr, p_pid pr)) ps = s_procs s.

Lemma deliver_at_ok reg m p host ch v info q (pr : process DI DO) :
  disp_inv (reg q) (p_dispatchers pr) -> is_u64 ch ->
  let '(l, pr') := deliver_at m p host ch v info q pr in
  l = outputs reg m p host ch v (hash_value_ (sender_id_ info)) q (p_host pr, p_pid pr) /\
  disp_inv (reg q) (p_dispatchers pr') /\ p_host pr' = p_host pr /\ p_pid pr' = p_pid pr.
Proof.
  intros Hd Hch. unfold deliver_at, outputs. cbn [fst]. destruct (reaches m p host q (p_host pr)); [|done].
  pose proof (dispatch_inv (reg q) m ch v info _ Hd Hch). destruct (dispatch m ch v info _). cbn. tauto.
Qed.

Lemma deliver_ok reg p host ch v info acc ps m :
  procs_ok reg ps -> is_u64 ch ->
  let '(log, ps') := deliver p host ch v info (acc, ps) m in
  log = acc ++ concat (imap (outputs reg m p host ch v (hash_value_ (sender_id_ info))) (s_procs s)) /\ procs_ok reg ps'.
Proof.
  intros [Hd Hp] Hch. unfold deliver. cbn [fst snd].
  assert (Hat : forall q pr, ps !! q = Some pr ->
    fst (deliver_at m p host ch v info q pr) = outputs reg m p host ch v (hash_value_ (sender_id_ info)) q (p_host pr, p_pid pr) /\
    disp_inv (reg q) (p_dispatchers (snd (deliver_at m p host ch v info q pr))) /\
    (p_host (snd (deliver_at m p host ch v info q pr)), p_pid (snd (deliver_at m p host ch v info q pr))) = (p_host pr, p_pid pr)).
  { intros q pr Hq. pose proof (deliver_at_ok reg m p host ch v info q pr (Hd _ _ Hq) Hch) as H.
    destruct (deliver_at m p host ch v info q pr) as [l pr']. cbn [fst snd]. destruct H as (-> & H & -> & ->). done. }
  split.
  - do 2 f_equal. rewrite <- Hp. apply list_eq. intros q. change (map ?g ?l) with (g <$> l).
    rewrite list_lookup_fmap, !list_lookup_imap, list_lookup_fmap. destruct (ps !! q) as [pr|] eqn:Eq; [|done]. cbn.
    by destruct (Hat q pr Eq) as [-> _].
  - split.
    + intros q pr'. change (map ?g ?l) with (g <$> l). rewrite list_lookup_fmap, list_lookup_imap.
      destruct (ps !! q) as [pr|] eqn:Eq; [|done]. cbn. intros [= <-]. by apply Hat.
    + rewrite <- Hp. apply list_eq. intros q. change (map ?g ?l) with (g <$> l).
      rewrite !list_lookup_fmap, list_lookup_imap. destruct (ps !! q) as [pr|] eqn:Eq; [|done]. cbn. f_equal. by apply Hat.
Qed.

Lemma deliver_all reg p host ch v info media acc ps :
  procs_ok reg ps -> is_u64 ch ->
  let '(log, ps') := fold_left (deliver p host ch v info) media (acc, ps) in
  log = acc ++ concat (map (fun m => concat (imap (outputs reg m p host ch v (hash_value_ (sender_id_ info))) (s_procs s))) media) /\
  procs_ok reg ps'.
Proof.
  intros Hps Hch. revert acc ps Hps. induction media as [|m media IH]; intros acc ps Hps; cbn [fold_left map concat].
  { by rewrite app_nil_r. }
  pose proof (deliver_ok reg p host ch v info acc ps m Hps Hch) as H.
  destruct (deliver p host ch v info (acc, ps) m) as [log1 ps1]. destruct H as [-> Hps1].
  specialize (IH (acc ++ concat (imap (outputs reg m p host ch v (hash_value_ (sender_id_ info))) (s_procs s))) ps1 Hps1).
  destruct (fold_left _ media _) as [log ps']. destruct IH as [-> IH]. split; [|done]. by rewrite app_assoc.
Qed.

Lemma transmit_inv TE t v h : writer_inv TE t h ->
  let '(_, media, info, h') := Transmit v h in
  media = enabled_media h /\ hash_value_ (sender_id_ info) = id_of (t_attr h) /\ t_attr h' = t_attr h /\ writer_inv TE t h'.
Proof. intros [H1 H2 H3 H4]. cbn. split; [done|]. split; [by rewrite H2|]. split; [done|]. by split. Qed.

Lemma send_inv TE RE (n : net) t v : net_inv TE RE n -> net_inv TE RE (snd (send t v n)).
Proof.
  intros Hn. unfold send. destruct (trans n !! t) as [[p h]|] eqn:Et; [|done].
  pose proof (writer_at _ _ _ _ _ _ Hn Et) as Ht. pose proof (transmit_inv TE t v h (ni_w _ _ _ Hn _ _ _ Et)) as Htr.
  destruct (Transmit v h) as [[[ok media] info] h']. destruct Htr as (-> & Hid & Ha & Hw).
  destruct Hn as [N1 N2 N3 N4 N0 N5 N6 (reg & N7 & N8)].
  assert (Hch : is_u64 (channel_id (t_attr h))).
  { unfold writer_of in Ht. destruct (s_writers s !! t) as [[[p' i] a]|] eqn:Ea; [|done]. cbn in Ht. injection Ht as -> <-.
    destruct (endpoint_fields i a) as (_ & -> & _). by apply (ok_writer _ Hs _ _ _ _ Ea). }
  pose proof (deliver_all reg p (host_ip (t_attr h)) (channel_id (t_attr h)) v info (enabled_media h) [] (procs n)
                (conj N7 N4) Hch) as Hdel.
  destruct (fold_left _ _ _) as [log ps]. destruct Hdel as [_ [H1 H2]]. split; cbn [snd trans recvs procs tasks]; try done.
  - intros t'. destruct (decide (t' = t)) as [->|Hne]; [|by rewrite lookup_insert_ne by done].
    rewrite lookup_insert_eq, <- N2, Et. cbn. by rewrite Ha.
  - intros t' p' h0. destruct (decide (t' = t)) as [->|Hne].
    + rewrite lookup_insert_eq. by intros [= <- <-].
    + rewrite lookup_insert_ne by done. apply N5.
  - by exists reg.
Qed.

(** Nothing is asked for, and nothing is to be done, for the history of a volatile writer. *)
Lemma receiver_no_history ta (hr : HybridReceiver nat) (d : Dispatchers DI DO) : transient ta = false -> (ReceiverEnableFor (V := V) ta hr d).1.1 = None.
Proof.
  intros Hv. unfold ReceiverEnableFor, ReceiveHistoryMsg. rewrite Hv. destruct (GetRelation (r_attr hr) ta); [done|..]; by destruct (default ∅ _ !! id_of ta).
Qed.

Lemma no_tasks TE RE (n : net) k : net_inv TE RE n -> task_step RegisterChannel k n = ([], n).
Proof. intros Hn. unfold task_step. by rewrite (ni_tasks _ _ _ Hn), lookup_nil. Qed.

Lemma run_nop_inv TE RE (n : net) o :
  net_inv TE RE n -> net_inv (fst (spec_nop s (TE, RE) o)) (snd (spec_nop s (TE, RE) o)) (run_nop RegisterChannel n o).
Proof.
  intros Hn. pose proof (ni_related _ _ _ Hn) as Hrel. destruct o as [t r|t r|r t|r t|t v|k]; cbn [spec_nop run_nop fst snd].
  - apply (writer_step TE _ RE n _ t r Hn).
    + by intros ->.
    + intros t' r' Hne. destruct (related s t r); [|done]. rewrite elem_of_union, elem_of_singleton. split; [|by right].
      by intros [[= -> ->]|].
    + intros t' r'. destruct (related s t r) eqn:E; [|by auto].
      intros [[= -> ->]%elem_of_singleton|H]%elem_of_union; [done|by auto].
    + intros p q h ra Hw Ht Hr. by apply (enable_writer TE t p q).
  - apply (writer_step TE _ RE n _ t r Hn).
    + intros Hf. apply set_eq. intros x. rewrite elem_of_difference, elem_of_singleton. split; [by intros []|].
      intros Hx. split; [done|]. intros ->. specialize (Hrel t r (or_introl Hx)). congruence.
    + intros t' r' Hne. rewrite elem_of_difference, elem_of_singleton. split; [by intros []|]. intros H. split; [done|]. congruence.
    + intros t' r' [H _]%elem_of_difference. auto.
    + intros p q h ra Hw Ht Hr. split; [done|]. apply (disable_writer TE t p q h r ra Hw Ht Hr). auto.
  - apply (reader_step TE RE _ n _ t r Hn).
    + by intros ->.
    + intros t' r' Hne. destruct (related s t r); [|done]. rewrite elem_of_union, elem_of_singleton. split; [|by right].
      by intros [[= -> ->]|].
    + intros t' r'. destruct (related s t r) eqn:E; [|by auto].
      intros [[= -> ->]%elem_of_singleton|H]%elem_of_union; [done|by auto].
    + intros reg p ta q hr d Hi Hr Ht Hd Hreg Hch.
      pose proof (enable_reader RE reg t p ta r q hr d Hi Hr Ht Hd Hreg Hch) as H.
      pose proof (receiver_no_history ta hr d (writer_volatile s t p ta Hs Ht)) as Hno. unfold enable_reader_for.
      destruct (ReceiverEnableFor ta hr d) as [[ch ?] ?]. cbn in Hno. by subst ch.
  - apply (reader_step TE RE _ n _ t r Hn).
    + intros Hf. apply set_eq. intros x. rewrite elem_of_difference, elem_of_singleton. split; [by intros []|].
      intros Hx. split; [done|]. intros ->. specialize (Hrel t r (or_intror Hx)). congruence.
    + intros t' r' Hne. rewrite elem_of_difference, elem_of_singleton. split; [by intros []|]. intros H. split; [done|]. congruence.
    + intros t' r' [H _]%elem_of_difference. auto.
    + intros reg p ta q hr d Hi Hr Ht Hd Hreg Hch.
      pose proof (disable_reader RE reg t p ta r q hr d Hi Hr Ht Hd Hreg Hch) as H. destruct (ReceiverDisableFor ta hr d). split; [done|]. auto.
  - by apply send_inv.
  - by rewrite (no_tasks TE RE).
Qed.

Lemma list_to_map_modes {A} (x : A) (l : list OptionalMode) m :
  (list_to_map (map (fun m => (m, x)) l) : gmap OptionalMode A) !! m = if decide (m ∈ l) then Some x else None.
Proof.
  induction l as [|m' l IH]; cbn [map list_to_map foldr].
  - rewrite lookup_empty. case_decide as H; [by apply elem_of_nil in H|done].
  - cbn [fst snd]. destruct (decide (m = m')) as [->|Hne].
    + rewrite lookup_insert_eq. rewrite decide_True; [done|by left].
    + rewrite lookup_insert_ne by done. rewrite IH. case_decide as H1; case_decide as H2; try done.
      * destruct H2. by right.
      * by apply elem_of_cons in H2 as [|].
Qed.

Lemma network_start_inv : net_inv ∅ ∅ (start s : net).
Proof.
  split; cbn [start trans recvs procs tasks].
  - by intros t r [[]%elem_of_empty|[]%elem_of_empty].
  - intros t. rewrite lookup_fmap. unfold writer_of. by destruct (s_writers s !! t) as [[[p i] a]|].
  - intros r. rewrite map_lookup_imap. unfold reader_of. by destruct (s_readers s !! r) as [[[p i] a]|].
  - rewrite map_map. rewrite <- (map_id (s_procs s)) at 2. apply map_ext. by intros [host pid].
  - done.
  - intros t p h. rewrite lookup_fmap. destruct (s_writers s !! t) as [[[p' i] a]|] eqn:Ea; [|done]. intros [= <- <-].
    destruct (ok_writer _ Hs _ _ _ _ Ea) as [Hid _]. split; cbn [transmitter_new t_mode t_attr t_id receivers_ transmitters_].
    + done.
    + unfold Endpoint, id_of. by rewrite Hid.
    + intros m Hm. exists ∅. rewrite !list_to_map_modes, decide_True by done. split; [done|]. split.
      * intros x. split; [by intros []%elem_of_empty|]. by intros (? & ? & ? & []%elem_of_empty & _).
      * rewrite decide_True by done. by rewrite bool_decide_eq_false_2 by (intros H; by apply H).
    + intros m Hm. by rewrite list_to_map_modes, decide_False.
  - intros r q hr. rewrite map_lookup_imap. destruct (s_readers s !! r) as [[[q' i] a]|] eqn:Ea; [|done]. cbn.
    intros [= <- <-]. split; cbn [receiver_new r_mode r_listener r_transmitters]; [done|done|].
    intros m Hm. exists ∅. rewrite list_to_map_modes, decide_True by done. split; [done|]. intros x. rewrite lookup_empty.
    split; [by intros []|]. by intros (? & ? & ? & []%elem_of_empty & _).
  - exists (fun _ _ => ∅). split.
    + intros q pr. change (map ?g ?l) with (g <$> l). rewrite list_lookup_fmap.
      destruct (s_procs s !! q) as [[host pid]|]; [|done]. intros [= <-].
      split_and!; cbn; [apply (fo_new_inv (V := V))..].
    + intros q m ch key e. rewrite lookup_empty. split; [done|]. by intros (? & ? & ? & ? & []%elem_of_empty & _).
Qed.

Lemma run_inv os TE RE (n : net) :
  net_inv TE RE n ->
  net_inv (fst (fold_left (spec_nop s) os (TE, RE))) (snd (fold_left (spec_nop s) os (TE, RE))) (fold_left (run_nop RegisterChannel) os n).
Proof.
  revert TE RE n. induction os as [|o os IH]; intros TE RE n Hn; [done|]. cbn [fold_left].
  pose proof (run_nop_inv TE RE n o Hn) as H. destruct (spec_nop s (TE, RE) o) as [TE' RE']. by apply IH.
Qed.

(** The media on which a writer sends: those of the readers that it is enabled for. *)
Lemma enabled_media_spec TE t h m0 :
  writer_inv TE t h -> m0 ∈ modes mode ->
  NoDup (enabled_media h) /\
  (medium_of m0 ∈ enabled_media h <->
   exists r q ra, (t, r) ∈ TE /\ reader_of s r = Some (q, ra) /\ mode_of s (t_attr h) ra = m0).
Proof.
  intros [_ _ H3 H4] Hm0.
  assert (Hin : forall m b, (m, b) ∈ filter (fun e => snd e = true) (map_to_list (transmitters_ h)) <->
      transmitters_ h !! m = Some true /\ b = true).
  { intros m b. rewrite list_elem_of_filter, elem_of_map_to_list. cbn. split; [by intros [-> ?]|by intros [? ->]]. }
  assert (Hmodes : forall m, transmitters_ h !! m = Some true -> m <> HYBRID).
  { intros m Hm. apply (modes_not_hybrid s m Hs). destruct (decide (m ∈ modes mode)) as [|Hn]; [done|].
    apply H4 in Hn. congruence. }
  split.
  - apply NoDup_fmap_2_strong.
    + intros [m1 b1] [m2 b2] [H1 ->]%Hin [H2 ->]%Hin E. cbn in E. f_equal. apply medium_inj; auto.
    + apply NoDup_filter, NoDup_map_to_list.
  - destruct (H3 m0 Hm0) as (ids & E1 & E2 & E3). unfold enabled_media. change (map ?g ?l) with (g <$> l).
    rewrite list_elem_of_fmap. split.
    + intros ([m b] & E & [Hm ->]%Hin). cbn in E. apply medium_inj in E; [|by apply (modes_not_hybrid s)|by apply Hmodes].
      subst m. rewrite E3 in Hm. injection Hm as Hm. apply bool_decide_eq_true in Hm.
      apply set_choose_L in Hm as [x Hx]. apply E2 in Hx as (r & q & ra & ? & ? & _ & ?). by exists r, q, ra.
    + intros (r & q & ra & Hp & Hr & Hm). exists (m0, true). split; [done|]. apply Hin. split; [|done].
      rewrite E3. f_equal. apply bool_decide_eq_true. intros E. apply (not_elem_of_empty (C := gset Z) (id_of ra)).
      rewrite <- E. apply E2. by exists r, q, ra.
Qed.

(** ** Once each *)

Lemma concat_map_single {K B} `{EqDecision K} (ks : list K) (k0 : K) (x : list B) (f : K -> list B) :
  NoDup ks -> (forall k, k ∈ ks -> f k = if decide (k = k0) then x else []) ->
  concat (map f ks) = if decide (k0 ∈ ks) then x else [].
Proof.
  induction 1 as [|k ks Hk Hnd IH]; intros Hf; cbn [map concat].
  { case_decide as H; [by apply elem_of_nil in H|done]. }
  rewrite (Hf k) by by left. rewrite IH by (intros k' Hk'; apply Hf; by right).
  destruct (decide (k = k0)) as [->|Hne].
  - rewrite (decide_False (P := k0 ∈ ks)) by done. rewrite decide_True by by left. by rewrite app_nil_r.
  - cbn. case_decide as H1; case_decide as H2; try done.
    + destruct H2. by right.
    + apply elem_of_cons in H2 as [E|H2]; [by destruct Hne|done].
Qed.

Lemma concat_imap_single {A B} (l : list A) (q0 : nat) (x : list B) (f : nat -> A -> list B) :
  (forall q a, l !! q = Some a -> f q a = if decide (q = q0) then x else []) ->
  concat (imap f l) = if decide (q0 < length l)%nat then x else [].
Proof.
  intros Hf. assert (E : imap f l = imap (fun q _ => if decide (q = q0) then x else []) l) by (by apply imap_ext).
  rewrite E, (imap_seq_0 l (fun q => if decide (q = q0) then x else [])).
  rewrite (concat_map_single (seq 0 (length l)) q0 x) by (apply NoDup_seq || done).
  assert (H : q0 ∈ seq 0 (length l) <-> (q0 < length l)%nat) by (rewrite elem_of_seq; lia).
  by case_decide; case_decide; tauto.
Qed.

Lemma filter_concat {A} (P : A -> Prop) `{!forall x, Decision (P x)} (ls : list (list A)) :
  filter P (concat ls) = concat (map (filter P) ls).
Proof. induction ls as [|l ls IH]; [done|]. cbn. by rewrite filter_app, IH. Qed.

Section to_reader.
Context (RE : Pairs) (reg : nat -> Medium -> Readers nat) (t p : nat) (ta : Attributes) (r : nat) (v : V).
Hypothesis Hreg : forall q m ch key e, reg q m !! (ch, key) = Some e <-> registered RE q m ch key e.
Hypothesis Hrel : forall t r, (t, r) ∈ RE -> related s t r = true.
Hypothesis Ht : writer_of s t = Some (p, ta).

(** The reader's dispatcher and process. *)
Definition hit (q : nat) (m : Medium) : Prop :=
  exists ra, (t, r) ∈ RE /\ reader_of s r = Some (q, ra) /\ m = medium_of (mode_of s ta ra).

Lemma related_reader r' q ra : (t, r') ∈ RE -> reader_of s r' = Some (q, ra) ->
  GetRelation ta ra <> NO_RELATION /\ channel_id ta = channel_id ra.
Proof.
  intros Hp Hr. apply Hrel, related_spec in Hp as (p' & q' & ta' & ra' & Ht' & Hr' & Hn). rewrite Ht in Ht'. rewrite Hr in Hr'.
  simplify_eq. split; [done|]. apply (ok_channels _ Hs _ _ _ _ _ _ Ht Hr). by apply relation_channel.
Qed.

Lemma hit_entry q m ra : (t, r) ∈ RE -> reader_of s r = Some (q, ra) -> m = medium_of (mode_of s ta ra) ->
  reg q m !! (channel_id ta, Some (id_of ta)) = Some (id_of ra, r).
Proof.
  intros Hp Hr ->. apply Hreg. exists t, p, ta, ra. destruct (related_reader r q ra Hp Hr) as [_ ->]. done.
Qed.

Lemma no_key_none q m ch : reg q m !! (ch, None) = None.
Proof.
  destruct (reg q m !! (ch, None)) as [e|] eqn:E; [|done]. apply Hreg in E as (? & ? & ? & ? & _ & _ & _ & ? & _). done.
Qed.

Lemma outputs_reader q m host pid :
  s_procs s !! q = Some (host, pid) ->
  let out := filter (fun e => fst e = r) (outputs reg m p (host_ip ta) (channel_id ta) v (id_of ta) q (host, pid)) in
  (hit q m -> out = [(r, v)]) /\ (~ hit q m -> out = []).
Proof.
  intros Hq. cbv zeta. unfold outputs, addressed. cbn [fst]. rewrite no_key_none.
  destruct (reg q m !! (channel_id ta, Some (id_of ta))) as [[i r']|] eqn:Ee.
  - assert (Ee' := Ee). apply Hreg in Ee' as (t' & p' & ta' & ra' & Hp & Ht' & Hr' & [= Hid] & Hc & He & Hm). cbn in Hp, Hr', He.
    assert (t' = t) as -> by by apply (ok_writer_ids _ Hs _ _ _ _ _ _ Ht' Ht).
    assert (ta' = ta) as -> by congruence.
    destruct (related_reader r' q ra' Hp Hr') as [Hn _].
    pose proof (medium_reaches s t r' p q ta ra' host pid Hs Ht Hr' Hn Hq) as Hreach. rewrite Hm in Hreach. rewrite Hreach.
    change (map ?g (map snd _)) with [(r', v)]. rewrite filter_cons, filter_nil. cbn [fst].
    split; intros H.
    + destruct H as (ra & Hp1 & Hr1 & Hm1). rewrite (hit_entry q m ra Hp1 Hr1 Hm1) in Ee. injection Ee as _ <-.
      by rewrite decide_True.
    + case_decide as E; [|done]. subst r'. destruct H. by exists ra'.
  - cbn. assert (E : (if reaches m p (host_ip ta) q host then @nil (nat * V) else []) = []) by (by destruct (reaches _ _ _ _ _)).
    rewrite E. split; [|done]. intros (ra & Hp1 & Hr1 & Hm1). rewrite (hit_entry q m ra Hp1 Hr1 Hm1) in Ee. done.
Qed.

(** All media together. *)
Lemma outputs_all media :
  NoDup media ->
  let log := concat (map (fun m => concat (imap (outputs reg m p (host_ip ta) (channel_id ta) v (id_of ta)) (s_procs s))) media) in
  (forall q ra, (t, r) ∈ RE -> reader_of s r = Some (q, ra) ->
     filter (fun e => fst e = r) log = if decide (medium_of (mode_of s ta ra) ∈ media) then [(r, v)] else []) /\
  ((t, r) ∉ RE -> filter (fun e => fst e = r) log = []).
Proof.
  intros Hnd. cbv zeta. rewrite filter_concat, map_map.
  assert (Hm : forall m q0 x, (forall q host pid, s_procs s !! q = Some (host, pid) ->
      filter (fun e => fst e = r) (outputs reg m p (host_ip ta) (channel_id ta) v (id_of ta) q (host, pid)) =
        if decide (q = q0) then x else []) ->
      filter (fun e => fst e = r) (concat (imap (outputs reg m p (host_ip ta) (channel_id ta) v (id_of ta)) (s_procs s))) =
        if decide (q0 < length (s_procs s))%nat then x else []).
  { intros m q0 x Hx. rewrite filter_concat. change (map ?g ?l) with (g <$> l). rewrite fmap_imap.
    apply concat_imap_single. intros q [host pid] Hq. by apply Hx. }
  split.
  - intros q0 ra Hp Hr.
    assert (Hlen : (q0 < length (s_procs s))%nat).
    { unfold reader_of in Hr. destruct (s_readers s !! r) as [[[q' i] a]|] eqn:Ea; [|done]. cbn in Hr. injection Hr as -> <-.
      destruct (ok_reader _ Hs _ _ _ _ Ea) as [Hq _]. by apply lookup_lt_Some in Hq. }
    apply concat_map_single; [done|]. intros m _.
    rewrite (Hm m q0 (if decide (m = medium_of (mode_of s ta ra)) then [(r, v)] else [])); [by rewrite decide_True|].
    intros q host pid Hq. destruct (outputs_reader q m host pid Hq) as [H1 H2].
    case_decide as E1; [subst q; case_decide as E2|].
    + apply H1. by exists ra.
    + apply H2. intros (ra' & _ & Hr' & E). apply E2. congruence.
    + apply H2. intros (ra' & _ & Hr' & _). congruence.
  - intros Hp. transitivity (concat (map (fun _ : Medium => @nil (nat * V)) media)); [|clear; induction media; done].
    f_equal. apply map_ext. intros m. rewrite (Hm m 0%nat []); [by case_decide|].
    intros q host pid Hq. destruct (outputs_reader q m host pid Hq) as [_ H2]. rewrite H2; [by case_decide|]. by intros (ra & ? & _).
Qed.
End to_reader.

(** The readers [r] and [r'] are reached by the writer [t] in the same mode. *)
Definition same_mode (t r r' : nat) : Prop :=
  exists p q q' ta ra ra', writer_of s t = Some (p, ta) /\ reader_of s r = Some (q, ra) /\ reader_of s r' = Some (q', ra') /\
    mode_of s ta ra = mode_of s ta ra'.

(** C18: the writers are volatile, every endpoint has an identifier of its own, and a process has one reader of a channel.
    However writers and readers learn of each other and whatever was sent, a message reaches a reader exactly once when the
    reader has been enabled for the writer and the writer for a reader that it reaches in the same way (same process, same host or
    over the network), although it goes out on several media and a dispatcher serves several readers; it does not reach any
    other reader; and nothing is sent later for the histories.  A transient-local writer sends its history too, and a reader
    may get a message twice: [history_comes_twice]. *)
Theorem hybrid_delivers_once (os : list (nop (V := V))) (t r : nat) (v : V) :
  let st := fold_left (spec_nop s) os (∅, ∅) in
  let n := fold_left (run_nop RegisterChannel) os (start s : net) in
  let got := filter (fun e => fst e = r) (fst (send t v n)) in
  let matched := (t, r) ∈ snd st /\ exists r', (t, r') ∈ fst st /\ same_mode t r r' in
  (matched -> got = [(r, v)]) /\ (~ matched -> got = []) /\ (forall k, task_step RegisterChannel k n = ([], n)).
Proof.
  cbv zeta. pose proof (run_inv os ∅ ∅ _ network_start_inv) as Hn.
  destruct (fold_left (spec_nop s) os (∅, ∅)) as [TE RE]. cbn [fst snd] in *.
  set (n := fold_left (run_nop RegisterChannel) os (start s)) in *. clearbody n.
  apply and_assoc. split; [|intros k; by apply (no_tasks TE RE)]. unfold send.
  pose proof (ni_related _ _ _ Hn) as Hrel. destruct (trans n !! t) as [[p h]|] eqn:Et.
  2:{ split; [|intros _; reflexivity]. intros [Hp _]. specialize (Hrel t r (or_intror Hp)).
      by rewrite (unrelated_absent _ _ _ _ r Hn (or_introl Et)) in Hrel. }
  pose proof (writer_at _ _ _ _ _ _ Hn Et) as Ht. pose proof (transmit_inv TE t v h (ni_w _ _ _ Hn _ _ _ Et)) as Htr.
  destruct (Transmit v h) as [[[ok media] info] h']. destruct Htr as (-> & Hid & Ha & Hw).
  destruct (ni_d _ _ _ Hn) as (reg & Hd & Hreg).
  assert (Hch : is_u64 (channel_id (t_attr h))).
  { unfold writer_of in Ht. destruct (s_writers s !! t) as [[[p' i] a]|] eqn:Ea; [|done]. cbn in Ht. injection Ht as -> <-.
    destruct (endpoint_fields i a) as (_ & -> & _). by apply (ok_writer _ Hs _ _ _ _ Ea). }
  pose proof (deliver_all reg p (host_ip (t_attr h)) (channel_id (t_attr h)) v info (enabled_media h) [] (procs n)
                (conj Hd (ni_procs _ _ _ Hn)) Hch) as Hdel.
  destruct (fold_left _ _ _) as [log ps]. destruct Hdel as [-> _]. cbn [fst app]. rewrite Hid.
  pose proof (ni_w _ _ _ Hn _ _ _ Et) as Hwi.
  assert (Hnd : NoDup (enabled_media h)).
  { destruct (ok_modes _ Hs) as (Hm1 & Hm2 & Hm3). apply (enabled_media_spec TE t h (diff_host mode) Hwi).
    rewrite Hm3. apply list_elem_of_filter. split; [by right; right|]. set_solver. }
  destruct (outputs_all RE reg t p (t_attr h) r v Hreg (fun t r H => Hrel t r (or_intror H)) Ht (enabled_media h) Hnd) as [H1 H2].
  destruct (decide ((t, r) ∈ RE)) as [Hp|Hp]; [|split; [by intros []|]; by intros _; apply H2].
  assert (Hr := Hrel t r (or_intror Hp)). apply related_spec in Hr as (p' & q & ta' & ra & Ht' & Hr & Hnr).
  assert (ta' = t_attr h) as -> by congruence. rewrite (H1 q ra Hp Hr).
  destruct (mode_allowed s (t_attr h) ra Hs Hnr) as [_ Hin].
  destruct (enabled_media_spec TE t h _ Hwi Hin) as [_ Hmed].
  split; intros Hmatch.
  - rewrite decide_True; [done|]. apply Hmed. destruct Hmatch as [_ (r' & Hp' & p1 & q1 & q2 & ta & ra1 & ra2 & E1 & E2 & E3 & E4)].
    exists r', q2, ra2. split; [done|]. split; [done|]. congruence.
  - rewrite decide_False; [done|]. intros Hm. apply Hmed in Hm as (r' & q' & ra' & Hp' & Hr' & E). apply Hmatch.
    split; [done|]. exists r'. split; [done|]. by exists p, q, q', (t_attr h), ra, ra'.
Qed.
End invariant.

(** ** An example: a writer, and readers in its process, on its host and on another *)

From S2P Require Import Interfaces AtomicHashMap MessageHeader IntraDispatcher Dispatcher IntraFanOut.

Definition demo_attr (host : string) (pid : Z) : Attributes :=
  mkAttributes "c" 7 host pid None (mkHistoryAttr HISTORY_KEEP_LAST 1) false.

Definition demo_setup : setup :=
  mkSetup [("h1"%string, 1); ("h1"%string, 2); ("h2"%string, 1)]
    {[0%nat := (0%nat, mkIdentity [] 50, demo_attr "h1" 1)]}
    (<[0%nat := (0%nat, mkIdentity [] 61, demo_attr "h1" 1)]> (<[1%nat := (1%nat, mkIdentity [] 62, demo_attr "h1" 2)]>
      {[2%nat := (2%nat, mkIdentity [] 63, demo_attr "h2" 1)]}))
    None None.

(** The lookups in the maps of the example. *)
Ltac demo_lookup :=
  unfold writer_of, reader_of in *; cbn [demo_setup s_writers s_readers s_procs] in *;
  repeat match goal with
  | H : fmap _ (_ !! _) = Some _ |- _ => apply fmap_Some in H as ([[? ?] ?] & ? & ?)
  | H : (<[_ := _]> _) !! _ = Some _ |- _ => apply lookup_insert_Some in H as [[? ?]|[_ H]]
  | H : {[_ := _]} !! _ = Some _ |- _ => apply lookup_singleton_Some in H as [? ?]
  end; cbn in *; simplify_eq.

Lemma demo_setup_ok : setup_ok demo_setup.
Proof.
  split.
  - repeat constructor; set_solver.
  - intros t p i a H. demo_lookup. by split_and!.
  - intros t p i a H. by demo_lookup.
  - intros r p i a H. demo_lookup; by split_and!.
  - intros t1 t2 p1 p2 a1 a2 H1 H2 E. demo_lookup. done.
  - intros r1 r2 p1 p2 a1 a2 H1 H2 E. demo_lookup; done.
  - intros r1 r2 p a1 a2 H1 H2 E. demo_lookup; done.
  - intros t r p q ta ra H1 H2 E. demo_lookup; done.
  - cbn. split; [done|]. split; [by left|done].
Qed.

Definition demo_intra : FanOut (IntraDispatcher AtomicHashMap nat) nat bytes := intra_FanOut demo_classes (fun _ => "t"%string).
Definition demo_outer : FanOut (Dispatcher AtomicHashMap nat) nat bytes := dispatcher_FanOut Some (fun v => v) "b".

Definition demo_hybrid_ops : list (nop (V := bytes)) :=
  [NEnableReader 1 0; NEnableWriter 0 1; NEnableReader 0 0; NEnableWriter 0 2; NSend 0 [1]].

(** Names of channels are registered under a number read from them. *)
Definition demo_register (name : string) : Z := fold_left (fun n c => wrap_u64 (n * 256 + Z.of_N (Ascii.N_of_ascii c))) (String.list_ascii_of_string name) 0.

Abbreviation hybrid_run := (run_nop (FanOut0 := demo_intra) (FanOut1 := demo_outer) demo_register).
Abbreviation hybrid_send := (send (FanOut0 := demo_intra) (FanOut1 := demo_outer)).
Abbreviation hybrid_start := (start (FanOut0 := demo_intra) (FanOut1 := demo_outer)).

Lemma hybrid_delivers_once_witness :
  filter (fun e => fst e = 1%nat) (fst (hybrid_send 0 [9] (fold_left hybrid_run demo_hybrid_ops (hybrid_start demo_setup)))) = [(1%nat, [9])].
Proof.
  refine (proj1 (hybrid_delivers_once (FanOut0 := demo_intra) (FanOut1 := demo_outer)
    (FanOutLaws0 := intra_FanOutLaws demo_classes (fun _ => "t"%string))
    (FanOutLaws1 := dispatcher_FanOutLaws Some (fun v => v) "b" (fun v => eq_refl))
    demo_setup demo_setup_ok demo_register demo_hybrid_ops 0 1 [9]) _).
  split.
  - apply (bool_decide_unpack _). vm_compute. exact I.
  - exists 1%nat. split; [apply (bool_decide_unpack _); vm_compute; exact I|].
    do 6 eexists. split; [reflexivity|]. split; [reflexivity|]. split; reflexivity.
Defined.

(** The writer is transient-local, and there are two readers on its host, in other processes. *)
Definition transient_attr : Attributes :=
  mkAttributes "c" 7 "h1" 1 None (mkHistoryAttr HISTORY_KEEP_LAST 1) true.
Definition transient_setup : setup :=
  mkSetup [("h1"%string, 1); ("h1"%string, 2); ("h1"%string, 3)]
    {[0%nat := (0%nat, mkIdentity [] 50, transient_attr)]}
    (<[1%nat := (1%nat, mkIdentity [] 62, demo_attr "h1" 2)]> {[2%nat := (2%nat, mkIdentity [] 63, demo_attr "h1" 3)]})
    None None.

(** The writer knows the first reader, the second one knows the writer and listens for its history. *)
Definition history_ops : list (nop (V := bytes)) := [NEnableWriter 0 1; NEnableReader 2 0; NTask 0].

(** A message that a reader of a transient-local writer got by shared memory comes to it again, when the writer learns of the
    reader and sends its history. *)
Lemma history_comes_twice :
  let n1 := fold_left hybrid_run history_ops (hybrid_start transient_setup) in
  let '(log1, n2) := hybrid_send 0 [9] n1 in
  let '(log2, _) := task_step (FanOut0 := demo_intra) (FanOut1 := demo_outer) demo_register 1 (hybrid_run n2 (NEnableWriter 0 2)) in
  log1 = [(2%nat, [9])] /\ log2 = [(2%nat, [9])].
Proof. vm_compute. done. Qed.
