(* ===== verification/Node.v ===== *)
(** * Node: the readers and writers of a process

    Models [cyber/node]: [node.{h,cc}], [node_channel_impl.h], [reader_base.h] (with [ReceiverManager]), [reader.h], [writer_base.h],
    [writer.h], and the parts of [transport.h] that they use.  A process is one record: its channel manager with the signal of
    its changes, the objects that nodes made, the receivers, the dispatchers of its transports, the buffers of its channels and the
    tasks of its scheduler, each as in the file that models it.  Writers, readers and nodes are kept in stores under handles, as they
    are shared with the user and with the callbacks.

    An operation is one function: the mutexes of readers and nodes are held over it, and discovery calls the listeners
    before it returns.  [None] is a call through a null pointer (a reader made after the transport was shut down).  The
    times of arrival that [GetDelaySec] reads are left out.  In simulation mode nodes make the readers and writers of
    [IntraDelivery.v] instead; here [is_reality_mode_] is true. *)

From S2P Require Import Prelude Interfaces ShmMessage Role Warehouse Manager GlobalData ChannelManager Signal.
From S2P Require Import Blocker FanOut CacheBuffer DataFlow Hybrid.

(** ** Attributes *)

(** What the transport reads of the attributes. *)
Definition attributes_of (a : RoleAttributes) : Attributes :=
  let q := default no_qos (Role.qos_profile a) in
  mkAttributes (str_of (Role.channel_name a)) (int_of (Role.channel_id a)) (str_of (Role.host_ip a)) (int_of (Role.process_id a))
    (Role.id a) (mkHistoryAttr (qos_history q) (qos_depth q)) (bool_decide (qos_durability q = DURABILITY_TRANSIENT_LOCAL)).

Definition set_id (i : Z) (a : RoleAttributes) : RoleAttributes :=
  mkRoleAttr (Role.host_name a) (Role.process_id a) (node_name a) (node_id a) (Role.channel_name a) (Role.channel_id a)
    (message_type a) (proto_desc a) (Some i) (service_name a) (service_id a) (Role.host_ip a) (qos_profile a).

(** [modified_attr] of [CreateTransmitter] and [CreateReceiver], with the process number that [Endpoint] gives. *)
Definition modified_attr (pid : Z) (a : RoleAttributes) : RoleAttributes :=
  mkRoleAttr (Role.host_name a) (Some (default pid (Role.process_id a))) (node_name a) (node_id a) (Role.channel_name a)
    (Role.channel_id a) (message_type a) (proto_desc a) (Role.id a) (service_name a) (service_id a) (Role.host_ip a)
    (Some (default QOS_PROFILE_DEFAULT (qos_profile a))).

(** What the process runs with: the hash of names; the name, the descriptor and the serializability of the message types (the
    reflection of protobuf); whether a change can be serialized and written; the configuration of the transport; whether
    Fast-RTPS makes publishers. *)
Record Environment := mkEnv {
  e_hash : string -> Z;
  MessageType : nat -> string;
  GetDescriptorString : nat -> string -> string;
  HasSerializer : nat -> bool;
  e_serialize : ChangeMsg -> bool;
  e_write : ChangeMsg -> bool;
  e_modes : option CommunicationMode;
  e_limit : option Z;
  e_can_publish : bool;
  e_host : string;
  e_ip : string;
  e_pid : Z;
}.

(** The key of a receiver: [ReceiverManager<MessageT>] is one object for each message type. *)
Abbreviation rkey := (nat * string)%type.

(** Whom the signal of changes calls. *)
Inductive listener := WriterAt (t : nat) | ReaderAt (r : nat).

Record NodeChannelImpl := mkNode {
  n_attr : RoleAttributes;
  readers_ : gmap string nat;
}.

(** Tasks that are started for a history. *)
Inductive history_task (V : Type) :=
| SendHistory (t : nat) (opposite : Attributes) (msgs : list (V * MessageInfo))
| WaitForHistory (channel : string).
Arguments SendHistory {V}. Arguments WaitForHistory {V}.

Section node.
Context {W T DI DO V : Type} {Map : Type -> Type}.
Context `{!Warehouse W, !Tasks T, !FanOut DI rkey V, !FanOut DO rkey V, !KeyMap Map, !Inhabited V}.
Context (E : Environment).

Record Writer := mkWriter {
  w_type : nat;
  w_attr : RoleAttributes;
  w_init : bool;
  transmitter_ : option (HybridTransmitter V);
  w_conn : Connection;
}.

Record Reader := mkReader {
  rd_type : nat;
  rd_attr : RoleAttributes;
  rd_init : bool;
  pending_queue_size_ : Z;
  reader_func_ : bool;
  receiver_ : option rkey;
  croutine_name_ : string;
  rd_visitor : option DataVisitor;
  rd_conn : Connection;
  blocker_ : Blocker V;
}.

Record Process := mkProc {
  shut_down : bool;
  manager : ChannelManager W;
  signal : Signal listener;
  names : GlobalData;
  nodes : gmap nat NodeChannelImpl;
  writers : gmap nat Writer;
  readers : gmap nat Reader;
  receiver_map_ : gmap rkey (Identity * HybridReceiver rkey);
  dispatchers : Dispatchers DI DO;
  data : world V Map;
  tasks : T;
  next_handle : nat;
  history_tasks : list (history_task V);
}.

Definition with_manager (cm : ChannelManager W) (p : Process) : Process :=
  mkProc (shut_down p) cm (signal p) (names p) (nodes p) (writers p) (readers p) (receiver_map_ p) (dispatchers p) (data p) (tasks p) (next_handle p) (history_tasks p).
Definition with_signal (s : Signal listener) (p : Process) : Process :=
  mkProc (shut_down p) (manager p) s (names p) (nodes p) (writers p) (readers p) (receiver_map_ p) (dispatchers p) (data p) (tasks p) (next_handle p) (history_tasks p).
Definition with_names (gd : GlobalData) (p : Process) : Process :=
  mkProc (shut_down p) (manager p) (signal p) gd (nodes p) (writers p) (readers p) (receiver_map_ p) (dispatchers p) (data p) (tasks p) (next_handle p) (history_tasks p).
Definition with_nodes (ns : gmap nat NodeChannelImpl) (p : Process) : Process :=
  mkProc (shut_down p) (manager p) (signal p) (names p) ns (writers p) (readers p) (receiver_map_ p) (dispatchers p) (data p) (tasks p) (next_handle p) (history_tasks p).
Definition with_writer (t : nat) (w : Writer) (p : Process) : Process :=
  mkProc (shut_down p) (manager p) (signal p) (names p) (nodes p) (<[t := w]> (writers p)) (readers p) (receiver_map_ p) (dispatchers p) (data p) (tasks p) (next_handle p) (history_tasks p).
Definition with_reader (r : nat) (rd : Reader) (p : Process) : Process :=
  mkProc (shut_down p) (manager p) (signal p) (names p) (nodes p) (writers p) (<[r := rd]> (readers p)) (receiver_map_ p) (dispatchers p) (data p) (tasks p) (next_handle p) (history_tasks p).
Definition with_receiver (k : rkey) (h : Identity * HybridReceiver rkey) (d : Dispatchers DI DO) (p : Process) : Process :=
  mkProc (shut_down p) (manager p) (signal p) (names p) (nodes p) (writers p) (readers p) (<[k := h]> (receiver_map_ p)) d (data p) (tasks p) (next_handle p) (history_tasks p).
Definition with_dispatchers (d : Dispatchers DI DO) (p : Process) : Process :=
  mkProc (shut_down p) (manager p) (signal p) (names p) (nodes p) (writers p) (readers p) (receiver_map_ p) d (data p) (tasks p) (next_handle p) (history_tasks p).
Definition with_data (d : world V Map) (p : Process) : Process :=
  mkProc (shut_down p) (manager p) (signal p) (names p) (nodes p) (writers p) (readers p) (receiver_map_ p) (dispatchers p) d (tasks p) (next_handle p) (history_tasks p).
Definition with_tasks (t : T) (p : Process) : Process :=
  mkProc (shut_down p) (manager p) (signal p) (names p) (nodes p) (writers p) (readers p) (receiver_map_ p) (dispatchers p) (data p) t (next_handle p) (history_tasks p).
Definition with_handle (n : nat) (p : Process) : Process :=
  mkProc (shut_down p) (manager p) (signal p) (names p) (nodes p) (writers p) (readers p) (receiver_map_ p) (dispatchers p) (data p) (tasks p) n (history_tasks p).
Definition start_history (l : list (history_task V)) (p : Process) : Process :=
  mkProc (shut_down p) (manager p) (signal p) (names p) (nodes p) (writers p) (readers p) (receiver_map_ p) (dispatchers p) (data p) (tasks p) (next_handle p) (history_tasks p ++ l).

(** A process whose discovery has started and that has no nodes yet. *)
Definition process_new (raw py : string) (t0 : T) : Process :=
  let cm := cm_new raw py (e_host E) (e_pid E) in
  mkProc false (cm_set_base (snd (StartDiscovery true (true, true) (true, true) (cm_base cm))) cm) signal_new gd_new ∅ ∅ ∅ ∅ (mkDispatchers fo_new fo_new fo_new)
    world_init t0 0 [].

(** ** Peers *)

(** [transmitter_->Enable(attr)] and [Disable(attr)]. *)
Definition writer_enable (t : nat) (a : RoleAttributes) (p : Process) : Process :=
  match writers p !! t with
  | Some w =>
      match transmitter_ w with
      | Some h =>
          let '(task, h1) := EnableFor (e_can_publish E) (attributes_of a) h in
          let p1 := with_writer t (mkWriter (w_type w) (w_attr w) (w_init w) (Some h1) (w_conn w)) p in
          match task with Some (o, msgs) => start_history [SendHistory t o msgs] p1 | None => p1 end
      | None => p
      end
  | None => p
  end.

Definition writer_disable (t : nat) (a : RoleAttributes) (p : Process) : Process :=
  match writers p !! t with
  | Some w =>
      match transmitter_ w with
      | Some h => with_writer t (mkWriter (w_type w) (w_attr w) (w_init w) (Some (DisableFor (attributes_of a) h)) (w_conn w)) p
      | None => p
      end
  | None => p
  end.

(** [receiver_->Enable(attr)] and [Disable(attr)]. *)
Definition receiver_enable (k : rkey) (a : RoleAttributes) (p : Process) : Process :=
  match receiver_map_ p !! k with
  | Some (i, h) =>
      let '(task, h1, d) := ReceiverEnableFor (attributes_of a) h (dispatchers p) in
      let p1 := with_receiver k (i, h1) d p in
      match task with Some ch => start_history [WaitForHistory ch] p1 | None => p1 end
  | None => p
  end.

Definition receiver_disable (k : rkey) (a : RoleAttributes) (p : Process) : Process :=
  match receiver_map_ p !! k with
  | Some (i, h) => let '(h1, d) := ReceiverDisableFor (attributes_of a) h (dispatchers p) in with_receiver k (i, h1) d p
  | None => p
  end.

(** [Writer::OnChannelChange] and [Reader::OnChannelChange]. *)
Definition WriterOnChannelChange (t : nat) (msg : ChangeMsg) (p : Process) : Process :=
  match writers p !! t with
  | Some w =>
      if negb (bool_decide (role_type msg = ROLE_READER)) then p
      else if negb (bool_decide (str_of (Role.channel_name (role_attr msg)) = str_of (Role.channel_name (w_attr w)))) then p
      else match operate_type msg with
           | OPT_JOIN => writer_enable t (role_attr msg) p
           | OPT_LEAVE => writer_disable t (role_attr msg) p
           end
  | None => p
  end.

Definition ReaderOnChannelChange (r : nat) (msg : ChangeMsg) (p : Process) : Process :=
  match readers p !! r with
  | Some rd =>
      if negb (bool_decide (role_type msg = ROLE_WRITER)) then p
      else if negb (bool_decide (str_of (Role.channel_name (role_attr msg)) = str_of (Role.channel_name (rd_attr rd)))) then p
      else match receiver_ rd with
           | Some k => match operate_type msg with
                       | OPT_JOIN => receiver_enable k (role_attr msg) p
                       | OPT_LEAVE => receiver_disable k (role_attr msg) p
                       end
           | None => p
           end
  | None => p
  end.

Definition OnChannelChange (l : listener) (msg : ChangeMsg) (p : Process) : Process :=
  match l with WriterAt t => WriterOnChannelChange t msg p | ReaderAt r => ReaderOnChannelChange r msg p end.

(** [signal_(msg)]: the callbacks leave the signal alone. *)
Definition notify_listeners (p : Process) (msg : ChangeMsg) : Process :=
  let '(s, p1) := emit (fun l sp => (fst sp, OnChannelChange l msg (snd sp))) (signal p, p) in with_signal s p1.

(** An operation of the manager, with the notifications that it makes. *)
Definition manage (f : ChannelManager W -> ChannelManager W) (p : Process) : Process :=
  let cm := f (manager p) in
  fold_left notify_listeners (drop (length (notified (cm_base (manager p)))) (notified (cm_base cm))) (with_manager cm p).

(** ** Writer *)

Definition CreateTransmitter (identity : Identity) (a : RoleAttributes) (p : Process) : option (HybridTransmitter V) :=
  if shut_down p then None
  else Some (transmitter_new identity (e_limit E) (e_modes E) (attributes_of (modified_attr (e_pid E) a))).

Definition WriterJoinTheTopology (now : Z) (t : nat) (w : Writer) (p : Process) : option Process :=
  let '(conn, s) := Connect (Some (WriterAt t)) (signal p) in
  let p1 := with_signal s (with_writer t (mkWriter (w_type w) (w_attr w) (w_init w) (transmitter_ w) conn) p) in
  '(peers, gd) ← GetReadersOfChannel (e_hash E) (str_of (Role.channel_name (w_attr w))) [] (names p1) (manager p1);
  let p2 := fold_left (fun p a => writer_enable t a p) peers (with_names gd p1) in
  Some (manage (fun cm => snd (Join (e_serialize E) (e_write E) now (w_attr w) ROLE_WRITER (HasSerializer E (w_type w)) cm)) p2).

Definition WriterInit (now : Z) (identity : Identity) (t : nat) (p : Process) : option (bool * Process) :=
  match writers p !! t with
  | None => None
  | Some w =>
      if w_init w then Some (true, p)
      else match CreateTransmitter identity (w_attr w) p with
           | None => Some (false, p)
           | Some h =>
               let w1 := mkWriter (w_type w) (set_id (hash_value_ (t_id h)) (w_attr w)) true (Some h) (w_conn w) in
               p1 ← WriterJoinTheTopology now t w1 (with_writer t w1 p); Some (true, p1)
           end
  end.

Definition WriterLeaveTheTopology (now : Z) (w : Writer) (p : Process) : Process :=
  let '(_, s) := Disconnect (w_conn w) (signal p) in
  manage (fun cm => snd (Leave (e_serialize E) (e_write E) now (w_attr w) ROLE_WRITER cm)) (with_signal s p).

Definition WriterShutdown (now : Z) (t : nat) (p : Process) : Process :=
  match writers p !! t with
  | None => p
  | Some w =>
      if negb (w_init w) then p
      else
        let w1 := mkWriter (w_type w) (w_attr w) false (transmitter_ w) (w_conn w) in
        let p1 := WriterLeaveTheTopology now w1 (with_writer t w1 p) in
        with_writer t (mkWriter (w_type w) (w_attr w) false None (w_conn w)) p1
  end.

(** [Write]: whether it was written, and on which media what goes out. *)
Definition Write (t : nat) (msg : V) (p : Process) : bool * list Medium * option MessageInfo * Process :=
  match writers p !! t with
  | Some w =>
      if negb (w_init w) then (false, [], None, p)
      else match transmitter_ w with
           | Some h =>
               let '(ok, media, info, h1) := Transmit msg h in
               (ok, media, Some info, with_writer t (mkWriter (w_type w) (w_attr w) (w_init w) (Some h1) (w_conn w)) p)
           | None => (false, [], None, p)
           end
  | None => (false, [], None, p)
  end.

Definition HasReader (t : nat) (p : Process) : option (bool * Process) :=
  match writers p !! t with
  | Some w =>
      if negb (w_init w) then Some (false, p)
      else '(b, gd) ← ChannelManager.HasReader (e_hash E) (str_of (Role.channel_name (w_attr w))) (names p) (manager p);
           Some (b, with_names gd p)
  | None => None
  end.

Definition GetReaders (t : nat) (out : list RoleAttributes) (p : Process) : option (list RoleAttributes * Process) :=
  match writers p !! t with
  | Some w =>
      if negb (w_init w) then Some (out, p)
      else '(out, gd) ← GetReadersOfChannel (e_hash E) (str_of (Role.channel_name (w_attr w))) out (names p) (manager p);
           Some (out, with_names gd p)
  | None => None
  end.

(** ** Reader *)

(** [GetReceiver]: the receiver of the channel, made for the first reader with its attributes.  The callback of a receiver
    is known by the receiver's key. *)
Definition GetReceiver (identity : Identity) (ty : nat) (a : RoleAttributes) (p : Process) : option (rkey * Identity * Process) :=
  let k := (ty, str_of (Role.channel_name a)) in
  match receiver_map_ p !! k with
  | Some (i, _) => Some (k, i, p)
  | None =>
      if shut_down p then None
      else
        let h := receiver_new identity (e_modes E) (attributes_of (modified_attr (e_pid E) a)) k in
        Some (k, identity, with_receiver k (identity, h) (dispatchers p) p)
  end.

(** The data visitor of a task that is gone: its buffers are, and the registry has dangling entries. *)
Definition drop_visitor (v : DataVisitor) (d : world V Map) : world V Map :=
  mkW (foldr delete (buffers d) (v_ids v)) (foldr delete (fusions d) (v_ids v)) (DataFlow.dispatchers d) (notifies_map_ d)
    (callbacks d) (next_id d) (is_shutdown d).

Definition ReaderJoinTheTopology (now : Z) (r : nat) (rd : Reader) (k : rkey) (p : Process) : option Process :=
  let '(conn, s) := Connect (Some (ReaderAt r)) (signal p) in
  let rd1 := mkReader (rd_type rd) (rd_attr rd) (rd_init rd) (pending_queue_size_ rd) (reader_func_ rd) (receiver_ rd)
               (croutine_name_ rd) (rd_visitor rd) conn (blocker_ rd) in
  let p1 := with_signal s (with_reader r rd1 p) in
  '(peers, gd) ← GetWritersOfChannel (e_hash E) (str_of (Role.channel_name (rd_attr rd))) [] (names p1) (manager p1);
  let p2 := fold_left (fun p a => receiver_enable k a p) peers (with_names gd p1) in
  Some (manage (fun cm => snd (Join (e_serialize E) (e_write E) now (rd_attr rd) ROLE_READER (HasSerializer E (rd_type rd)) cm)) p2).

Definition ReaderInit (now : Z) (identity : Identity) (r : nat) (p : Process) : option (bool * Process) :=
  match readers p !! r with
  | None => None
  | Some rd =>
      if rd_init rd then Some (true, p)
      else
        let a := rd_attr rd in
        let name := str_of (node_name a) +:+ "_" +:+ str_of (Role.channel_name a) in
        let '(v, d) := make_visitor (mkVC (rd_type rd) (int_of (Role.channel_id a)) (pending_queue_size_ rd)) [] (data p) in
        let '(ok, ts) := t_create name (tasks p) in
        if negb ok then
          let rd1 := mkReader (rd_type rd) a false (pending_queue_size_ rd) (reader_func_ rd) (receiver_ rd) name None (rd_conn rd) (blocker_ rd) in
          Some (false, with_reader r rd1 (with_data (drop_visitor v d) (with_tasks ts p)))
        else
          let p1 := with_data (RegisterNotifyCallback (v_notifier v) d) (with_tasks ts p) in
          '(k, i, p2) ← GetReceiver identity (rd_type rd) a p1;
          let rd1 := mkReader (rd_type rd) (set_id (hash_value_ i) a) true (pending_queue_size_ rd) (reader_func_ rd) (Some k) name
                       (Some v) (rd_conn rd) (blocker_ rd) in
          p3 ← ReaderJoinTheTopology now r rd1 k (with_reader r rd1 p2); Some (true, p3)
  end.

Definition ReaderLeaveTheTopology (now : Z) (rd : Reader) (p : Process) : Process :=
  let '(_, s) := Disconnect (rd_conn rd) (signal p) in
  manage (fun cm => snd (Leave (e_serialize E) (e_write E) now (rd_attr rd) ROLE_READER cm)) (with_signal s p).

Definition ReaderShutdown (now : Z) (r : nat) (p : Process) : Process :=
  match readers p !! r with
  | None => p
  | Some rd =>
      if negb (rd_init rd) then p
      else
        let rd1 := mkReader (rd_type rd) (rd_attr rd) false (pending_queue_size_ rd) (reader_func_ rd) (receiver_ rd)
                     (croutine_name_ rd) (rd_visitor rd) (rd_conn rd) (blocker_ rd) in
        let p1 := ReaderLeaveTheTopology now rd1 (with_reader r rd1 p) in
        let rd2 := mkReader (rd_type rd) (rd_attr rd) false (pending_queue_size_ rd) (reader_func_ rd) None
                     (croutine_name_ rd) None (rd_conn rd) (blocker_ rd) in
        let p2 := with_reader r rd2 p1 in
        if bool_decide (croutine_name_ rd = "") then p2
        else with_data (match rd_visitor rd with Some v => drop_visitor v (data p2) | None => data p2 end)
               (with_tasks (t_remove (croutine_name_ rd) (tasks p2)) p2)
  end.

Definition HasWriter (r : nat) (p : Process) : option (bool * Process) :=
  match readers p !! r with
  | Some rd =>
      if negb (rd_init rd) then Some (false, p)
      else '(b, gd) ← ChannelManager.HasWriter (e_hash E) (str_of (Role.channel_name (rd_attr rd))) (names p) (manager p);
           Some (b, with_names gd p)
  | None => None
  end.

Definition GetWriters (r : nat) (out : list RoleAttributes) (p : Process) : option (list RoleAttributes * Process) :=
  match readers p !! r with
  | Some rd =>
      if negb (rd_init rd) then Some (out, p)
      else '(out, gd) ← GetWritersOfChannel (e_hash E) (str_of (Role.channel_name (rd_attr rd))) out (names p) (manager p);
           Some (out, with_names gd p)
  | None => None
  end.

(** The operations on the blocker of a reader. *)
Definition on_blocker (f : Blocker V -> Blocker V) (rd : Reader) : Reader :=
  mkReader (rd_type rd) (rd_attr rd) (rd_init rd) (pending_queue_size_ rd) (reader_func_ rd) (receiver_ rd) (croutine_name_ rd)
    (rd_visitor rd) (rd_conn rd) (f (blocker_ rd)).
Definition Enqueue (msg : V) : Reader -> Reader := on_blocker (fun b => snd (BPublish msg b)).
Definition Observe : Reader -> Reader := on_blocker BObserve.
Definition ClearData : Reader -> Reader := on_blocker (fun b => ClearObserved (ClearPublished b)).
Definition SetHistoryDepth (depth : Z) : Reader -> Reader := on_blocker (set_capacity depth).
Definition GetHistoryDepth (rd : Reader) : Z := wrap_u32 (Blocker.capacity_ (blocker_ rd)).
Definition HasReceived (rd : Reader) : bool := negb (IsPublishedEmpty (blocker_ rd)).
Definition Empty (rd : Reader) : bool := IsObservedEmpty (blocker_ rd).
Definition GetLatestObserved (rd : Reader) : option V := GetLatestObservedPtr (blocker_ rd).
Definition GetOldestObserved (rd : Reader) : option V := GetOldestObservedPtr (blocker_ rd).

(** ** Messages *)

(** The callback that [GetReceiver] gives a receiver: the notifiers that are called. *)
Definition receiver_callback (k : rkey) (msg : V) (p : Process) : list nat * Process :=
  match receiver_map_ p !! k with
  | Some (_, h) =>
      let '(_, called, d) := Dispatch (fst k) (Hybrid.channel_id (r_attr h)) msg (data p) in (called, with_data d p)
  | None => ([], p)
  end.

(** A message comes to the process on a medium: the dispatcher hands it to the receivers. *)
Definition arrive (m : Medium) (ch : Z) (msg : V) (info : MessageInfo) (p : Process) : list nat * Process :=
  let '(log, d1) := dispatch m ch msg info (dispatchers p) in
  fold_left (fun acc e => let '(called, p) := receiver_callback (fst e) (snd e) (snd acc) in (fst acc ++ called, p)) log
    ([], with_dispatchers d1 p).

(** The task of a reader runs once: the message it handles, and whether the user's function is called. *)
Definition run_task (r : nat) (p : Process) : option (V * bool) * Process :=
  match readers p !! r with
  | Some rd =>
      match rd_visitor rd ≫= fun v => visitor_fetch v (data p) with
      | Some (msg, _, v1) =>
          let rd1 := mkReader (rd_type rd) (rd_attr rd) (rd_init rd) (pending_queue_size_ rd) (reader_func_ rd) (receiver_ rd)
                       (croutine_name_ rd) (Some v1) (rd_conn rd) (blocker_ rd) in
          (Some (msg, reader_func_ rd), with_reader r (Enqueue msg rd1) p)
      | None => (None, p)
      end
  | None => (None, p)
  end.

(** ** Node *)

(** [NodeChannelImpl(node_name)], but for joining the manager of nodes. *)
Definition node_new (name : string) (p : Process) : option (nat * Process) :=
  '(i, gd) ← RegisterNode (e_hash E) name (names p);
  let a := mkRoleAttr (Some (e_host E)) (Some (e_pid E)) (Some name) (Some i) None None None None None None None (Some (e_ip E)) None in
  Some (next_handle p, with_handle (S (next_handle p)) (with_nodes (<[next_handle p := mkNode a ∅]> (nodes p)) (with_names gd p))).

Definition FillInAttr (ty : nat) (n : NodeChannelImpl) (attr : RoleAttributes) (p : Process) : option (RoleAttributes * Process) :=
  '(ch, gd) ← RegisterChannel (e_hash E) (str_of (Role.channel_name attr)) (names p);
  let a := n_attr n in
  let mt := default (MessageType E ty) (message_type attr) in
  Some (mkRoleAttr (Role.host_name a) (Role.process_id a) (node_name a) (node_id a) (Role.channel_name attr) (Some ch) (Some mt)
          (Some (default (GetDescriptorString E ty mt) (proto_desc attr))) (Role.id attr) (service_name attr) (service_id attr)
          (Role.host_ip a) (Some (default QOS_PROFILE_DEFAULT (qos_profile attr))), with_names gd p).

(** [CreateWriter(role_attr)]: the handle, or [nullptr]. *)
Definition CreateWriter (now : Z) (identity : Identity) (ty : nat) (n : nat) (role_attr : RoleAttributes) (p : Process)
    : option (option nat * Process) :=
  match nodes p !! n with
  | None => None
  | Some node =>
      if bool_decide (str_of (Role.channel_name role_attr) = "") then Some (None, p)
      else
        '(a, p1) ← FillInAttr ty node role_attr p;
        let t := next_handle p1 in
        let p2 := with_handle (S t) (with_writer t (mkWriter ty a false None None) p1) in
        '(ok, p3) ← WriterInit now identity t p2;
        Some (if ok : bool then Some t else None, p3)
  end.

(** [NodeChannelImpl::CreateReader(role_attr, reader_func, pending_queue_size)]. *)
Definition NodeCreateReader (now : Z) (identity : Identity) (ty : nat) (n : nat) (role_attr : RoleAttributes) (func : bool) (pending : Z)
    (p : Process) : option (option nat * Process) :=
  match nodes p !! n with
  | None => None
  | Some node =>
      if bool_decide (str_of (Role.channel_name role_attr) = "") then Some (None, p)
      else
        '(a, p1) ← FillInAttr ty node role_attr p;
        let r := next_handle p1 in
        let b := blocker_new ty (qos_depth (default no_qos (qos_profile a))) in
        let p2 := with_handle (S r) (with_reader r (mkReader ty a false pending func None "" None None b) p1) in
        '(ok, p3) ← ReaderInit now identity r p2;
        Some (if ok : bool then Some r else None, p3)
  end.

(** [Node::CreateReader]: a node has one reader of a channel. *)
Definition CreateReader (now : Z) (identity : Identity) (ty : nat) (n : nat) (role_attr : RoleAttributes) (func : bool) (pending : Z)
    (p : Process) : option (option nat * Process) :=
  match nodes p !! n with
  | None => None
  | Some node =>
      let ch := str_of (Role.channel_name role_attr) in
      match readers_ node !! ch with
      | Some _ => Some (None, p)
      | None =>
          '(made, p1) ← NodeCreateReader now identity ty n role_attr func pending p;
          match made with
          | None => Some (None, p1)
          | Some r =>
              Some (Some r, with_nodes (alter (fun nd => mkNode (n_attr nd) (<[ch := r]> (readers_ nd))) n (nodes p1)) p1)
          end
      end
  end.

(** [GetReader<MessageT>]: the cast fails for another type. *)
Definition GetReader (ty : nat) (n : nat) (name : string) (p : Process) : option nat :=
  node ← nodes p !! n;
  r ← readers_ node !! name;
  rd ← readers p !! r;
  if (rd_type rd =? ty)%nat then Some r else None.

(** [Node::Observe] and [Node::ClearData]. *)
Definition on_readers (f : Reader -> Reader) (n : nat) (p : Process) : Process :=
  match nodes p !! n with
  | Some node =>
      fold_left (fun p e => match readers p !! snd e with Some rd => with_reader (snd e) (f rd) p | None => p end)
        (map_to_list (readers_ node)) p
  | None => p
  end.
Definition NodeObserve : nat -> Process -> Process := on_readers Observe.
Definition NodeClearData : nat -> Process -> Process := on_readers ClearData.

(** ** Other processes *)

(** A change announced by another process, and one that left. *)
Definition remote_change (parsed : option ChangeMsg) (p : Process) : Process := manage (OnRemoteChange parsed) p.
Definition process_leaves (now : Z) (host : string) (pid : Z) (p : Process) : Process := manage (OnTopoModuleLeave now host pid) p.
End node.
Arguments Writer : clear implicits.
Arguments Reader : clear implicits.
Arguments Process : clear implicits.
