(* ===== verification/NodeParts.v ===== *)
(** * NodeParts: the invariants of the parts of a process

    What the operations of a node do to the parts that a process of [Node.v] composes: to the channel manager, to what readers and
    writers know of each other, and to the flow of data. *)

(** ** What joins and leaves do to the channel manager of a process

    A manager that runs, and what its containers stand for: each operation of [Manager.v] on the channel manager, as the nodes
    use it, makes one change to the roles and announces it; a process that left makes one for each of its roles. *)

From S2P Require Import Prelude Interfaces Role Warehouse Manager ChannelManager.

Section manager.
Context {W : Type} `{!Warehouse W, !WarehouseLaws W}.
Hypothesis several : multi = true.
Context (host : string) (pid : Z).

(** A manager that runs, and what its containers stand for. *)
Record cm_ok (cm : ChannelManager W) (s : members) : Prop := {
  ck_view : view cm s;
  ck_up : is_shutdown_ (cm_base cm) = false;
  ck_started : is_discovery_started_ (cm_base cm) = true;
  ck_roles : allowed_role_ (cm_base cm) = Z.lor (Z.shiftl 1 (role_num ROLE_WRITER)) (Z.shiftl 1 (role_num ROLE_READER));
  ck_host : host_name_ (cm_base cm) = host;
  ck_pid : process_id_ (cm_base cm) = pid;
}.

(** What the base keeps but for the two logs. *)
Definition settings (m : Manager) :=
  (is_shutdown_ m, is_discovery_started_ m, allowed_role_ m, host_name_ m, process_id_ m).

Lemma cm_ok_settings cm cm' s s' :
  cm_ok cm s -> view cm' s' -> settings (cm_base cm') = settings (cm_base cm) -> cm_ok cm' s'.
Proof. intros [_ H1 H2 H3 H4 H5] Hv [= E1 E2 E3 E4 E5]. split; [done|congruence..]. Qed.

Lemma base_dispose msg (cm : ChannelManager W) : cm_base (Dispose msg cm) = Manager.Notify msg (cm_base cm).
Proof.
  unfold Dispose, DisposeJoin, DisposeLeave. cbn [cm_base cm_set_base].
  destruct (operate_type msg), (role_type msg); try done. by destruct (bool_decide _ && _).
Qed.

Lemma Publish_logs ser wr msg m :
  settings (snd (Manager.Publish ser wr msg m)) = settings m /\ notified (snd (Manager.Publish ser wr msg m)) = notified m.
Proof. unfold Manager.Publish. destruct (is_discovery_started_ m), (ser msg), (publisher_ m); done. Qed.

(** A change that is disposed of, and may be published. *)
Lemma cm_dispose msg cm s (b : bool) ser wr :
  cm_ok cm s -> msg_ok msg ->
  let cm1 := Dispose msg cm in
  let cm' := if b then cm_set_base (snd (Manager.Publish ser wr msg (cm_base cm1))) cm1 else cm1 in
  cm_ok cm' (spec_Dispose msg s) /\ notified (cm_base cm') = notified (cm_base cm) ++ [msg].
Proof.
  intros Hc Hm. cbv zeta. destruct (Publish_logs ser wr msg (cm_base (Dispose msg cm))) as [E1 E2].
  pose proof (view_Dispose several msg cm s (ck_view _ _ Hc) Hm) as Hv. rewrite base_dispose in *. destruct b.
  - split; [|cbn [cm_base cm_set_base]; by rewrite E2].
    eapply cm_ok_settings; [exact Hc| |cbn [cm_base cm_set_base]; by rewrite E1].
    eapply view_ext; [..|exact Hv]; done.
  - split; [|by rewrite base_dispose]. eapply cm_ok_settings; [exact Hc|exact Hv|by rewrite base_dispose].
Qed.

Section attributes.
Context (a : RoleAttributes) (rt : RoleType) (now : Z).
Hypothesis Hch : is_Some (Role.channel_name a).
Hypothesis Hcid : is_Some (Role.channel_id a).
Hypothesis Hid : is_Some (Role.id a).
Hypothesis Hnode : is_Some (node_id a).
Hypothesis Hhost : is_Some (Role.host_name a).
Hypothesis Hpid : is_Some (Role.process_id a).
Hypothesis Hrole : rt = ROLE_WRITER \/ rt = ROLE_READER.

Lemma Check_attr : ChannelManager.Check a = true.
Proof. unfold ChannelManager.Check. by rewrite (bool_decide_eq_true_2 _ Hch), (bool_decide_eq_true_2 _ Hcid), (bool_decide_eq_true_2 _ Hid). Qed.

Lemma role_is_allowed cm s : cm_ok cm s -> role_allowed rt (cm_base cm) = true.
Proof. intros Hc. unfold role_allowed. rewrite (ck_roles _ _ Hc). destruct Hrole as [Er|Er]; rewrite Er; reflexivity. Qed.

Lemma msg_of_attr opt m : msg_ok (Convert now a rt opt m) /\ role_attr (Convert now a rt opt m) = a.
Proof. pose proof (Convert_id now a rt opt m Hhost Hpid) as Ea. split; [|done]. unfold msg_ok. by rewrite Ea. Qed.

Lemma cm_join ser wr b cm s : cm_ok cm s ->
  let msg := Convert now a rt OPT_JOIN (cm_base cm) in
  let cm' := snd (Join ser wr now a rt b cm) in
  cm_ok cm' (spec_Dispose msg s) /\ notified (cm_base cm') = notified (cm_base cm) ++ [msg].
Proof.
  intros Hc. cbv zeta. unfold Join. cbn [base Check_ Dispose_ set_base cm_Derived].
  rewrite (ck_up _ _ Hc), (role_is_allowed cm s Hc), Check_attr. cbn [negb].
  pose proof (cm_dispose (Convert now a rt OPT_JOIN (cm_base cm)) cm s b ser wr Hc (proj1 (msg_of_attr _ _))) as H.
  cbv zeta in H. destruct b; [|exact H]. by destruct (Manager.Publish _ _ _ _).
Qed.

Lemma cm_leave ser wr cm s : cm_ok cm s ->
  let msg := Convert now a rt OPT_LEAVE (cm_base cm) in
  let cm' := snd (Leave ser wr now a rt cm) in
  cm_ok cm' (spec_Dispose msg s) /\ notified (cm_base cm') = notified (cm_base cm) ++ [msg].
Proof.
  intros Hc. cbv zeta. unfold Leave. cbn [base Check_ Dispose_ set_base cm_Derived NeedPublish].
  rewrite (ck_up _ _ Hc), (role_is_allowed cm s Hc), Check_attr. cbn [negb].
  pose proof (cm_dispose (Convert now a rt OPT_LEAVE (cm_base cm)) cm s true ser wr Hc (proj1 (msg_of_attr _ _))) as H.
  cbv zeta in H. by destruct (Manager.Publish _ _ _ _).
Qed.
End attributes.

Lemma cm_remote msg cm s : cm_ok cm s -> msg_ok msg -> ChannelManager.Check (role_attr msg) = true ->
  ~ (str_of (Role.host_name (role_attr msg)) = host /\ int_of (Role.process_id (role_attr msg)) = pid) ->
  let cm' := OnRemoteChange (Some msg) cm in
  cm_ok cm' (spec_Dispose msg s) /\ notified (cm_base cm') = notified (cm_base cm) ++ [msg].
Proof.
  intros Hc Hm Hck Hne. unfold OnRemoteChange. cbn [base Check_ Dispose_ cm_Derived]. rewrite (ck_up _ _ Hc), Hck. cbn [negb].
  destruct (IsFromSameProcess msg (cm_base cm)) eqn:Es.
  - apply IsFromSameProcess_spec in Es. rewrite (ck_host _ _ Hc), (ck_pid _ _ Hc) in Es. tauto.
  - exact (cm_dispose msg cm s false (fun _ => true) (fun _ => true) Hc Hm).
Qed.

(** The changes that a departed process makes. *)
Lemma leave_loop_msgs now rt L cm s :
  cm_ok cm s -> Forall role_ok L ->
  let cm' := foldl (leave_one now rt) cm L in
  let msgs := leave_msg now rt cm <$> L in
  cm_ok cm' (foldl (fun s msg => spec_Dispose msg s) s msgs) /\ notified (cm_base cm') = notified (cm_base cm) ++ msgs /\
  change_type_ (cm_base cm') = change_type_ (cm_base cm).
Proof.
  intros Hc HL. revert cm s Hc. induction HL as [|r L Hr HL IH]; intros cm s Hc.
  { cbn. by rewrite app_nil_r. }
  assert (E1 : leave_one now rt cm r = Dispose (leave_msg now rt cm r) cm) by (unfold leave_one; by rewrite (Convert_leave now rt cm r Hr)).
  destruct Hr as (Hh & Hp & Hn & Hci).
  destruct (cm_dispose (leave_msg now rt cm r) cm s false (fun _ => true) (fun _ => true) Hc (conj Hn Hci)) as [Hc1 Hn1].
  cbn [foldl fmap list_fmap]. rewrite E1. destruct (IH _ _ Hc1) as (H1 & H2 & H3).
  assert (Em : leave_msg now rt (Dispose (leave_msg now rt cm r) cm) <$> L = leave_msg now rt cm <$> L).
  { apply list_fmap_ext. intros i r' _. unfold leave_msg. by rewrite base_dispose. }
  rewrite Em in *. split; [done|]. split; [|by rewrite H3, base_dispose]. rewrite H2, Hn1, <- app_assoc. done.
Qed.

Lemma cm_process_leaves now host' pid' cm s : cm_ok cm s ->
  Forall role_ok (writers_of s) -> Forall role_ok (readers_of s) ->
  exists Lw Lr, (forall r, r ∈ Lw <-> r ∈ writers_of s /\ in_process host' pid' r = true) /\
    (forall r, r ∈ Lr <-> r ∈ readers_of s /\ in_process host' pid' r = true) /\
    let msgs := (leave_msg now ROLE_WRITER cm <$> Lw) ++ (leave_msg now ROLE_READER cm <$> Lr) in
    let cm' := OnTopoModuleLeave now host' pid' cm in
    cm_ok cm' (foldl (fun s msg => spec_Dispose msg s) s msgs) /\ notified (cm_base cm') = notified (cm_base cm) ++ msgs.
Proof.
  intros Hc Hw Hr. unfold OnTopoModuleLeave. rewrite (ck_started _ _ Hc). cbn [negb]. cbv zeta.
  pose proof (search_process _ _ _ host' pid' (vw_channel_writers _ _ (ck_view _ _ Hc))) as Sw.
  pose proof (search_process _ _ _ host' pid' (vw_channel_readers _ _ (ck_view _ _ Hc))) as Sr.
  set (Lw := (w_Search_attr_roles _ [] (channel_writers_ cm)).2) in *.
  set (Lr := (w_Search_attr_roles _ [] (channel_readers_ cm)).2) in *. exists Lw, Lr.
  destruct (leave_loop_msgs now ROLE_WRITER Lw cm s Hc (Forall_perm_filter _ _ _ _ _ Hw Sw)) as (H1 & H2 & H3).
  destruct (leave_loop_msgs now ROLE_READER Lr _ _ H1 (Forall_perm_filter _ _ _ _ _ Hr Sr)) as (H4 & H5 & _).
  assert (Em : leave_msg now ROLE_READER (foldl (leave_one now ROLE_WRITER) cm Lw) <$> Lr = leave_msg now ROLE_READER cm <$> Lr).
  { apply list_fmap_ext. intros i r _. unfold leave_msg. by rewrite H3. }
  rewrite Em in *. split_and!.
  - intros r. rewrite Sw, list_elem_of_filter. tauto.
  - intros r. rewrite Sr, list_elem_of_filter. tauto.
  - by rewrite foldl_app.
  - by rewrite H5, H2, app_assoc.
Qed.
End manager.

(** ** What the readers and writers of a process know of each other

    The invariant of a process of [Node.v] against the roles of the topology, and what one notification of the channel manager
    does to it.  The roles whose identifiers are taken to be distinct are the parameter [rt]: the writers, for what the
    receivers hear, or the readers, for what the transmitters follow.  (Readers of one channel in one process share a receiver and
    its identifier.) *)

From S2P Require Import Prelude Interfaces ShmMessage Role Warehouse AtomicHashMap GlobalData Manager ChannelManager Signal.
From S2P Require Import FanOut CacheBuffer DataFlow Hybrid HybridPeers Node.

(** ** Roles *)

Section roles.
Context (hash : string -> Z) (allowed : gset string).

(** The attributes of an endpoint: its channel is a known one, with the identifier that its name hashes to. *)
Record attr_ok (a : RoleAttributes) : Prop := {
  ao_channel : exists c, Role.channel_name a = Some c /\ c ∈ allowed /\ Role.channel_id a = Some (hash c);
  ao_id : is_Some (Role.id a);
  ao_node : is_Some (node_id a);
  ao_host : is_Some (Role.host_name a);
  ao_pid : is_Some (Role.process_id a);
}.

Definition attrs (rt : RoleType) (s : members) : list RoleAttributes := attributes_ <$> roles_of rt s.

Record roles_ok (rt : RoleType) (s : members) : Prop := {
  ro_ok : forall t a, a ∈ attrs t s -> attr_ok a;
  ro_unique : forall a b, a ∈ attrs rt s -> b ∈ attrs rt s -> Role.id a = Role.id b -> a = b;
}.

(** A change that keeps the identifiers of the roles [rt] apart. *)
Record proper (rt : RoleType) (s : members) (msg : ChangeMsg) : Prop := {
  pr_role : role_type msg = ROLE_WRITER \/ role_type msg = ROLE_READER;
  pr_attr : attr_ok (role_attr msg);
  pr_join : role_type msg = rt -> operate_type msg = OPT_JOIN ->
    forall a, a ∈ attrs rt s -> Role.id a <> Role.id (role_attr msg);
  pr_leave : role_type msg = rt -> operate_type msg = OPT_LEAVE ->
    forall a, a ∈ attrs rt s -> Role.id a = Role.id (role_attr msg) -> a = role_attr msg;
}.

Definition kinds_ok (s : members) : Prop := Forall (fun r => kind r = RoleWriter) (writers_of s ++ readers_of s).

Lemma kinds_roles s t r : kinds_ok s -> r ∈ roles_of t s -> kind r = RoleWriter.
Proof.
  unfold kinds_ok. rewrite Forall_forall. intros H Hr. apply H, elem_of_app. destruct t; cbn in Hr; auto.
Qed.

Lemma Match_id r a : kind r = RoleWriter -> is_Some (Role.id a) -> is_Some (Role.id (attributes_ r)) ->
  Match r a = true -> Role.id (attributes_ r) = Role.id a.
Proof.
  intros Hk [i Hi] [j Hj]. unfold Match, RoleWriter_Match. rewrite Hk, Hi, Hj.
  destruct (field_differs 0 (Role.channel_id a) _); [done|].
  destruct (field_differs 0 (Some i) (Some j)) eqn:Ef; [done|]. intros _. apply field_differs_false in Ef. by cbn in Ef; subst.
Qed.

(** What a change does to the roles of a type. *)
Lemma attrs_other t s msg : (role_type msg = ROLE_WRITER \/ role_type msg = ROLE_READER) ->
  (t = ROLE_WRITER \/ t = ROLE_READER) -> role_type msg <> t -> attrs t (spec_Dispose msg s) = attrs t s.
Proof.
  unfold attrs, spec_Dispose. intros [-> | ->] [-> | ->] H; try done; by destruct (operate_type msg).
Qed.

Lemma attrs_join t s msg : (t = ROLE_WRITER \/ t = ROLE_READER) -> role_type msg = t -> operate_type msg = OPT_JOIN ->
  attrs t (spec_Dispose msg s) = role_attr msg :: attrs t s.
Proof. unfold attrs, spec_Dispose. by intros [-> | ->] -> ->. Qed.

Lemma attrs_leave_sub t s msg b : (t = ROLE_WRITER \/ t = ROLE_READER) -> role_type msg = t -> operate_type msg = OPT_LEAVE ->
  b ∈ attrs t (spec_Dispose msg s) -> b ∈ attrs t s.
Proof.
  unfold attrs, spec_Dispose, leave_roles. intros Ht -> ->. rewrite !list_elem_of_fmap.
  destruct Ht as [-> | ->]; cbn [roles_of writers_of readers_of]; intros (r & -> & [_ Hr]%list_elem_of_filter); by exists r.
Qed.

Lemma attrs_leave rt s msg b : (rt = ROLE_WRITER \/ rt = ROLE_READER) -> kinds_ok s -> roles_ok rt s -> proper rt s msg ->
  role_type msg = rt -> operate_type msg = OPT_LEAVE ->
  b ∈ attrs rt (spec_Dispose msg s) <-> b ∈ attrs rt s /\ b <> role_attr msg.
Proof.
  intros Hrt Hk Hok Hp Et Eo.
  assert (E : roles_of rt (spec_Dispose msg s) = leave_roles (role_attr msg) (roles_of rt s)).
  { unfold spec_Dispose. rewrite Eo, Et. by destruct Hrt as [-> | ->]. }
  unfold attrs. rewrite E. unfold leave_roles. rewrite !list_elem_of_fmap. split.
  - intros (r & -> & [Hm Hr]%list_elem_of_filter). split; [by exists r|]. intros Ea. rewrite <- Ea, Match_self in Hm. done.
  - intros [(r & -> & Hr) Hne]. exists r. split; [done|]. apply list_elem_of_filter. split; [|done].
    apply not_true_is_false. intros Hm. apply Hne.
    assert (Ha : attributes_ r ∈ attrs rt s) by (apply list_elem_of_fmap; by exists r).
    apply (pr_leave _ _ _ Hp Et Eo _ Ha). apply Match_id; [by apply (kinds_roles s rt)|apply (pr_attr _ _ _ Hp)| |done].
    apply (ro_ok _ _ Hok _ _ Ha).
Qed.

Lemma attrs_dispose_in t s msg b : (role_type msg = ROLE_WRITER \/ role_type msg = ROLE_READER) ->
  (t = ROLE_WRITER \/ t = ROLE_READER) -> b ∈ attrs t (spec_Dispose msg s) -> b = role_attr msg \/ b ∈ attrs t s.
Proof.
  intros Hm Ht. destruct (decide (role_type msg = t)) as [E|E]; [|rewrite attrs_other by done; auto].
  destruct (operate_type msg) eqn:Eo.
  - rewrite attrs_join by done. intros [->|H]%elem_of_cons; auto.
  - intros H. right. by apply (attrs_leave_sub t s msg).
Qed.

Lemma roles_other t s : t <> ROLE_WRITER -> attrs t s = attrs ROLE_READER s.
Proof. unfold attrs. by destruct t. Qed.

Lemma roles_ok_dispose rt s msg : (rt = ROLE_WRITER \/ rt = ROLE_READER) -> kinds_ok s -> roles_ok rt s -> proper rt s msg ->
  roles_ok rt (spec_Dispose msg s).
Proof.
  intros Hrt Hk Hok Hp. pose proof (pr_role _ _ _ Hp) as Hm. split.
  - intros t a Ha.
    assert (Hin : a = role_attr msg \/ a ∈ attrs t s).
    { destruct (decide (t = ROLE_WRITER)) as [->|Hne]; [by apply attrs_dispose_in; auto|].
      rewrite (roles_other t) in Ha |- * by done. by apply attrs_dispose_in; auto. }
    destruct Hin as [->|Hin]; [apply Hp|by apply (ro_ok _ _ Hok t)].
  - intros a b Ha Hb Hid.
    destruct (decide (role_type msg = rt)) as [E|E]; [|rewrite attrs_other in Ha, Hb by done; by apply (ro_unique _ _ Hok)].
    destruct (operate_type msg) eqn:Eo.
    + rewrite attrs_join in Ha, Hb by done. apply elem_of_cons in Ha as [->|Ha], Hb as [->|Hb]; [done|..].
      * by destruct (pr_join _ _ _ Hp E Eo _ Hb).
      * by destruct (pr_join _ _ _ Hp E Eo _ Ha).
      * by apply (ro_unique _ _ Hok).
    + apply (attrs_leave_sub rt s msg) in Ha, Hb; try done. by apply (ro_unique _ _ Hok).
Qed.

Lemma kinds_dispose s msg : kinds_ok s -> kinds_ok (spec_Dispose msg s).
Proof.
  unfold kinds_ok, spec_Dispose. rewrite !Forall_app. intros [H1 H2].
  destruct (operate_type msg), (role_type msg); cbn [writers_of readers_of];
    split; try done; solve [by apply Forall_cons | by apply Forall_leave].
Qed.

(** A sequence of proper changes. *)
Fixpoint proper_all (rt : RoleType) (s : members) (msgs : list ChangeMsg) : Prop :=
  match msgs with
  | [] => True
  | msg :: msgs' => proper rt s msg /\ proper_all rt (spec_Dispose msg s) msgs'
  end.

Lemma roles_ok_all rt msgs s : (rt = ROLE_WRITER \/ rt = ROLE_READER) -> kinds_ok s -> roles_ok rt s -> proper_all rt s msgs ->
  kinds_ok (foldl (fun s msg => spec_Dispose msg s) s msgs) /\ roles_ok rt (foldl (fun s msg => spec_Dispose msg s) s msgs).
Proof.
  intros Hrt. revert s. induction msgs as [|msg msgs IH]; intros s Hk Hok; [done|]. intros [Hp Hps]. cbn [foldl].
  apply IH; [by apply kinds_dispose|by apply roles_ok_dispose|done].
Qed.
End roles.

(** ** What readers that come and go do to the flow of data

    Registrations with the data dispatcher and the notifier only grow: making a visitor, setting its callback, a message and dropping a
    visitor keep those of everybody else. *)

From S2P Require Import Prelude Interfaces CacheBuffer DataFlow Node.

Section data.
Context {V : Type} `{!Inhabited V} {Map : Type -> Type} `{!KeyMap Map, !KeyMapLaws Map}.
Implicit Types w d : world V Map.

(** What was registered still is; the buffers in [keep] are still there. *)
Record extends (keep : nat -> Prop) w w' : Prop := {
  ex_next : (next_id w <= next_id w')%nat;
  ex_up : is_shutdown w' = is_shutdown w;
  ex_callbacks : forall n, n ∈ callbacks w -> n ∈ callbacks w';
  ex_buffers : forall id, keep id -> is_Some (buffers w !! id) -> is_Some (buffers w' !! id);
  ex_channels : forall ty ch l id, is_u64 ch -> km_get ch (DataFlow.dispatcher ty w) = Some l -> id ∈ l ->
    exists l', km_get ch (DataFlow.dispatcher ty w') = Some l' /\ id ∈ l';
  ex_notifies : forall ch l n, is_u64 ch -> km_get ch (notifies_map_ w) = Some l -> n ∈ l ->
    exists l', km_get ch (notifies_map_ w') = Some l' /\ n ∈ l';
}.

Lemma extends_trans keep w1 w2 w3 : extends keep w1 w2 -> extends keep w2 w3 -> extends keep w1 w3.
Proof.
  intros [A1 A2 A3 A4 A5 A6] [B1 B2 B3 B4 B5 B6]. split; [lia|congruence|auto|auto|..].
  - intros ty ch l id Hc H1 H2. destruct (A5 ty ch l id Hc H1 H2) as (l' & H3 & H4). eauto.
  - intros ch l n Hc H1 H2. destruct (A6 ch l n Hc H1 H2) as (l' & H3 & H4). eauto.
Qed.

Lemma make_visitor_extends c w : world_wf w -> is_u64 (vc_channel c) -> extends (fun _ => True) w (make_visitor c [] w).2.
Proof.
  intros Hw Hch. unfold make_visitor, add_channels, add_channel. cbn -[AddBuffer].
  set (w1 := mkW _ _ _ _ _ _ _). assert (Hw1 : world_wf w1) by (apply (same_dispatchers_wf w); [done|done|simpl; lia|apply Hw]).
  split; cbn -[AddBuffer]; [cbn; lia|done|done| | |].
  - intros id _ Hid. cbn. apply lookup_insert_is_Some'. by right.
  - intros ty ch l id Hc Hl Hin.
    change (DataFlow.dispatcher ty (AddNotifier _ _ ?x)) with (DataFlow.dispatcher ty (AddBuffer (vc_type c) (vc_channel c) (next_id w) w1)).
    rewrite dispatcher_AddBuffer by done. case_decide as Hd; [|by exists l].
    destruct Hd as [-> ->]. change (DataFlow.dispatcher (vc_type c) w1) with (DataFlow.dispatcher (vc_type c) w).
    rewrite Hl. eexists. split; [done|]. cbn. apply elem_of_app. by left.
  - intros ch l n Hc Hl Hin. cbn. rewrite km_get_set; [|done|done|apply Hw]. case_decide as Hd; [|by exists l].
    subst ch. rewrite Hl. eexists. split; [done|]. apply elem_of_app. by left.
Qed.

Lemma register_extends n w : extends (fun _ => True) w (RegisterNotifyCallback n w).
Proof. split; cbn; [lia|done|set_solver|done|eauto|eauto]. Qed.

Lemma register_wf n w : world_wf w -> world_wf (RegisterNotifyCallback n w).
Proof. intros Hw. apply (same_dispatchers_wf w); [done|done|simpl; lia|apply Hw]. Qed.

Lemma foldr_delete_lookup {A} (m : gmap nat A) l i : foldr delete m l !! i = if decide (i ∈ l) then None else m !! i.
Proof.
  induction l as [|j l IH]; cbn [foldr]; [by rewrite decide_False by apply not_elem_of_nil|].
  destruct (decide (i = j)) as [->|Hne].
  - rewrite lookup_delete_eq, decide_True; [done|by left].
  - rewrite lookup_delete_ne by done. rewrite IH. case_decide as H1; case_decide as H2; try done.
    + by destruct H2; right.
    + by apply elem_of_cons in H2 as [|].
Qed.

Lemma drop_extends v w : extends (fun id => id ∉ v_ids v) w (drop_visitor v w).
Proof.
  split; cbn; [lia|done|done| |eauto|eauto]. intros id Hid H. by rewrite foldr_delete_lookup, decide_False.
Qed.

Lemma drop_wf v w : world_wf w -> world_wf (drop_visitor v w).
Proof. intros Hw. apply (same_dispatchers_wf w); [done|done|simpl; lia|apply Hw]. Qed.

Lemma same_registry_dispatcher w w' ty : same_registry w w' -> DataFlow.dispatcher ty w' = DataFlow.dispatcher ty w.
Proof. intros Hs. unfold DataFlow.dispatcher. by rewrite (sr_dispatchers _ _ Hs). Qed.

Lemma fill_loop_up msg ids w : is_shutdown (fold_left (fill_buffer msg) ids w) = is_shutdown w.
Proof.
  revert w. induction ids as [|i ids IH]; intros w; [done|]. cbn [fold_left]. rewrite IH.
  unfold fill_buffer, fusion_callback. by repeat case_match.
Qed.

Lemma dispatch_extends ty ch msg w : extends (fun _ => True) w (Dispatch ty ch msg w).2 /\ (world_wf w -> world_wf (Dispatch ty ch msg w).2).
Proof.
  assert (Href : extends (fun _ => True) w w) by (split; eauto).
  unfold Dispatch. destruct (is_shutdown w) eqn:Eup; [done|]. destruct (km_get ch (DataFlow.dispatcher ty w)) as [ids|]; [|done]. cbn [snd].
  pose proof (fill_loop_registry msg ids w) as Hs. pose proof (fill_loop_up msg ids w) as Hup.
  assert (Hb : forall id, is_Some (buffers w !! id) -> is_Some (buffers (fold_left (fill_buffer msg) ids w) !! id)).
  { clear. revert w. induction ids as [|i ids IH]; intros w id H; [done|]. cbn [fold_left]. apply IH.
    rewrite fill_buffer_lookup. case_decide; [|done]. by apply fmap_is_Some. }
  set (w' := fold_left _ _ _) in *. split; [split|].
  - rewrite (sr_next _ _ Hs). lia.
  - done.
  - by rewrite (sr_callbacks _ _ Hs).
  - intros id _. apply Hb.
  - intros ty' ch' l id _. rewrite (same_registry_dispatcher w w') by done. by exists l.
  - intros ch' l n _. rewrite (sr_notifies _ _ Hs). by exists l.
  - intros Hw. apply (same_dispatchers_wf w); [done|apply Hs|by rewrite (sr_next _ _ Hs)|rewrite (sr_notifies _ _ Hs); apply Hw].
Qed.
End data.
