(* ===== verification/NodePeers.v ===== *)
(** * NodePeers: what a notification does to the writers and receivers of a process

    The callbacks of readers and writers change only the tables of transmitters and receivers and the dispatchers.  After a
    notification every listening writer follows the readers that there are then, every listening reader's receiver hears the
    writers, and the dispatchers hold exactly what is in the tables of the receivers. *)

From S2P Require Import Prelude Interfaces ShmMessage Role Warehouse Manager ChannelManager Signal.
From S2P Require Import FanOut CacheBuffer DataFlow Hybrid HybridPeers Node NodeParts.

(** A loop over [ls] that reaches a property at [l0], and keeps it. *)
Lemma fold_left_hit {S L} (f : S -> L -> S) (I Q R : S -> Prop) (l0 : L) ls s :
  (forall s l, I s -> I (f s l)) -> (forall s l, I s -> Q s -> Q (f s l) \/ R (f s l)) -> (forall s l, I s -> R s -> R (f s l)) ->
  (forall s, I s -> Q s \/ R s -> R (f s l0)) -> l0 ∈ ls -> I s -> Q s -> R (fold_left f ls s).
Proof.
  intros HI HQ HR H0 Hin Hi Hq.
  assert (Hkeep : forall ls s, I s -> R s -> R (fold_left f ls s)).
  { clear -HI HR. intros ls. induction ls as [|l ls IH]; intros s Hi Hr; [done|]. cbn [fold_left]. auto. }
  assert (Hqr : Q s \/ R s) by auto. clear Hq. revert s Hi Hqr.
  induction ls as [|l ls IH]; intros s Hi Hqr; [by apply elem_of_nil in Hin|]. cbn [fold_left].
  apply elem_of_cons in Hin as [->|Hin]; [apply Hkeep; auto|]. apply IH; [done|auto|]. destruct Hqr; eauto.
Qed.

#[export] Instance listener_eq_dec : EqDecision listener.
Proof. solve_decision. Defined.

Lemma attributes_of_id a b : is_Some (Role.id a) -> is_Some (Role.id b) ->
  id_of (attributes_of a) = id_of (attributes_of b) -> Role.id a = Role.id b.
Proof. unfold attributes_of, id_of. cbn. intros [i ->] [j ->]. cbn. by intros ->. Qed.

(** The roles of a type, as the transport reads them. *)
Definition peers_of (t : RoleType) (s : members) : list Attributes := attributes_of <$> attrs t s.

Lemma in_peers t s b : b ∈ peers_of t s <-> exists a, a ∈ attrs t s /\ b = attributes_of a.
Proof. unfold peers_of. rewrite list_elem_of_fmap. naive_solver. Qed.

Section peers.
Context {W T DI DO V : Type} {Map : Type -> Type}.
Context `{!Warehouse W, !Tasks T, !FanOut DI rkey V, !FanOut DO rkey V, !KeyMap Map, !Inhabited V}.
Context `{!FanOutLaws DI rkey V, !FanOutLaws DO rkey V}.
Context (E : Environment) (rt : RoleType) (allowed : gset string) (chan_type : string -> nat).
Abbreviation Process := (Process W T DI DO V Map).
Abbreviation mode := (ObtainConfig (e_modes E)).
Hypothesis rt_ok : rt = ROLE_WRITER \/ rt = ROLE_READER.
Hypothesis can_publish : e_can_publish E = true.
Hypothesis hash_u64 : forall c, is_u64 (e_hash E c).
Hypothesis hash_inj : forall c c', c ∈ allowed -> c' ∈ allowed -> e_hash E c = e_hash E c' -> c = c'.
Hypothesis no_hybrid : forall m, m ∈ modes mode -> m <> HYBRID.

(** ** What a callback leaves alone, besides the manager *)

Definition writer_core (w : Writer V) := (w_type w, w_attr w, w_init w, w_conn w, core <$> transmitter_ w).

Record same (p p' : Process) : Prop := {
  sm_shut : shut_down p' = shut_down p;
  sm_signal : signal p' = signal p;
  sm_names : names p' = names p;
  sm_nodes : nodes p' = nodes p;
  sm_readers : readers p' = readers p;
  sm_data : data p' = data p;
  sm_tasks : tasks p' = tasks p;
  sm_handle : next_handle p' = next_handle p;
  sm_writers : forall t, writer_core <$> writers p' !! t = writer_core <$> writers p !! t;
  sm_receivers : forall k, (fun e => (fst e, rcore (snd e))) <$> receiver_map_ p' !! k = (fun e => (fst e, rcore (snd e))) <$> receiver_map_ p !! k;
}.

#[global] Instance same_po : PreOrder same.
Proof. split; [intros p; by split|intros p1 p2 p3 [] []; split; congruence]. Qed.

Lemma with_writer_same t w w' (p : Process) :
  writers p !! t = Some w -> writer_core w' = writer_core w -> same p (with_writer t w' p).
Proof.
  intros Ht Hw. split; try done. intros t'. cbn [with_writer writers]. destruct (decide (t' = t)) as [->|Hne].
  - rewrite lookup_insert_eq, Ht. cbn. by rewrite Hw.
  - by rewrite lookup_insert_ne.
Qed.

Lemma start_history_same l (p : Process) : same p (start_history l p).
Proof. by split. Qed.

Lemma with_receiver_same k i h h' d (p : Process) :
  receiver_map_ p !! k = Some (i, h) -> rcore h' = rcore h -> same p (with_receiver k (i, h') d p).
Proof.
  intros Hk Hh. split; try done. intros k'. cbn [with_receiver receiver_map_]. destruct (decide (k' = k)) as [->|Hne].
  - rewrite lookup_insert_eq, Hk. cbn. by rewrite Hh.
  - by rewrite lookup_insert_ne.
Qed.

Lemma writer_enable_same t a (p : Process) : same p (writer_enable E t a p).
Proof.
  unfold writer_enable. destruct (writers p !! t) as [w|] eqn:Et; [|done]. destruct (transmitter_ w) as [h|] eqn:Eh; [|done].
  pose proof (EnableFor_core (e_can_publish E) (attributes_of a) h) as Hc. destruct (EnableFor _ _ h) as [task h1]. cbn in Hc.
  assert (H : same p (with_writer t (mkWriter (w_type w) (w_attr w) (w_init w) (Some h1) (w_conn w)) p)).
  { apply (with_writer_same t w); [done|]. unfold writer_core. cbn. by rewrite Eh; cbn; rewrite Hc. }
  destruct task as [[o msgs]|]; [|done]. etrans; [exact H|apply start_history_same].
Qed.

Lemma writer_disable_same t a (p : Process) : same p (writer_disable t a p).
Proof.
  unfold writer_disable. destruct (writers p !! t) as [w|] eqn:Et; [|done]. destruct (transmitter_ w) as [h|] eqn:Eh; [|done].
  apply (with_writer_same t w); [done|]. unfold writer_core. cbn. by rewrite Eh; cbn; rewrite DisableFor_core.
Qed.

Lemma receiver_enable_same k a (p : Process) : same p (receiver_enable k a p).
Proof.
  unfold receiver_enable. destruct (receiver_map_ p !! k) as [[i h]|] eqn:Ek; [|done].
  pose proof (enable_cases (V := V) (attributes_of a) h (dispatchers p)) as Hc.
  destruct (ReceiverEnableFor (attributes_of a) h (dispatchers p)) as [[task h1] d1].
  assert (H : same p (with_receiver k (i, h1) d1 p)).
  { apply (with_receiver_same k i h); [done|]. by destruct Hc as [(-> & _) | (m & _ & _ & -> & _)]. }
  destruct task as [ch|]; [|done]. etrans; [exact H|apply start_history_same].
Qed.

Lemma receiver_disable_same k a (p : Process) : same p (receiver_disable k a p).
Proof.
  unfold receiver_disable. destruct (receiver_map_ p !! k) as [[i h]|] eqn:Ek; [|done].
  pose proof (disable_cases (V := V) (attributes_of a) h (dispatchers p)) as Hc.
  destruct (ReceiverDisableFor (attributes_of a) h (dispatchers p)) as [h1 d1].
  apply (with_receiver_same k i h); [done|]. by destruct Hc as [(-> & _) | (m & _ & _ & -> & _)].
Qed.

Lemma OnChannelChange_same l msg (p : Process) : same p (OnChannelChange E l msg p).
Proof.
  destruct l as [t|r]; cbn [OnChannelChange].
  - unfold WriterOnChannelChange. repeat case_match; try done; [apply writer_enable_same|apply writer_disable_same].
  - unfold ReaderOnChannelChange. repeat case_match; try done; [apply receiver_enable_same|apply receiver_disable_same].
Qed.

Lemma callbacks_same msg ls (p : Process) : same p (fold_left (fun p l => OnChannelChange E l msg p) ls p).
Proof.
  revert p. induction ls as [|l ls IH]; intros p; [done|]. cbn [fold_left]. etrans; [apply OnChannelChange_same|apply IH].
Qed.

Lemma OnChannelChange_manager l msg (p : Process) : manager (OnChannelChange E l msg p) = manager p.
Proof.
  destruct l as [t|r]; cbn [OnChannelChange].
  - unfold WriterOnChannelChange, writer_enable, writer_disable. by repeat case_match.
  - unfold ReaderOnChannelChange, receiver_enable, receiver_disable. by repeat case_match.
Qed.

Lemma callbacks_manager msg ls (p : Process) : manager (fold_left (fun p l => OnChannelChange E l msg p) ls p) = manager p.
Proof.
  revert p. induction ls as [|l ls IH]; intros p; [done|]. cbn [fold_left]. by rewrite IH, OnChannelChange_manager.
Qed.

(** ** The signal *)

(** Between operations every slot of the signal is connected. *)
Definition signal_ok (s : Signal listener) : Prop := signal_wf s /\ Forall (fun slot => connected_ slot = true) (slots_ s).

Lemma clear_connected (s : Signal listener) : signal_ok s -> ClearDisconnectedSlots s = s.
Proof.
  intros [_ H]. destruct s as [l n]. unfold ClearDisconnectedSlots. cbn [slots_ next_address] in *. f_equal.
  induction H as [|x l Hx H IH]; [done|]. rewrite filter_cons, decide_True by done. by f_equal.
Qed.

(** The slot of a listener. *)
Definition heard (s : Signal listener) (conn : Connection) (l : listener) : Prop :=
  exists slot, slot ∈ slots_ s /\ conn = Some (address slot) /\ cb_ slot = Some l.

Lemma heard_callbacks s conn l : signal_ok s -> heard s conn l -> l ∈ Signal.callbacks s.
Proof.
  intros [_ Hc] (slot & Hin & _ & Hcb). unfold Signal.callbacks. apply list_elem_of_omap. exists slot. split; [|done].
  apply list_elem_of_filter. split; [|done]. rewrite Forall_forall in Hc. by apply Hc.
Qed.

Lemma notify_fold msg (p : Process) : signal_ok (signal p) ->
  notify_listeners E p msg = fold_left (fun p l => OnChannelChange E l msg p) (Signal.callbacks (signal p)) p.
Proof.
  intros Hs. unfold notify_listeners.
  rewrite (emit_passive (fun l p => OnChannelChange E l msg p) (signal p) p (proj1 Hs)), (clear_connected _ Hs).
  pose proof (sm_signal _ _ (callbacks_same msg (Signal.callbacks (signal p)) p)) as H. destruct (fold_left _ _ p). cbn in H. by subst.
Qed.

(** ** What stays true of the objects *)

(** The transmitters and receivers of the process are at its place. *)
Definition here (a : Attributes) : Prop := host_ip a = e_ip E /\ process_id a = e_pid E.

Record static (p : Process) : Prop := {
  st_writer : forall t w h, writers p !! t = Some w -> transmitter_ w = Some h ->
    t_mode h = mode /\ channel_name (t_attr h) = str_of (Role.channel_name (w_attr w)) /\ here (t_attr h) /\
    forall m, m ∈ dom (transmitters_ h) -> m ∈ modes mode;
  st_receiver : forall k i h, receiver_map_ p !! k = Some (i, h) ->
    r_mode h = mode /\ r_listener h = k /\ channel_name (r_attr h) = snd k /\ channel_id (r_attr h) = e_hash E (snd k) /\
    snd k ∈ allowed /\ fst k = chan_type (snd k) /\ here (r_attr h);
}.

Lemma same_static p p' : same p p' -> static p -> static p'.
Proof.
  intros Hs [H1 H2]. split.
  - intros t w h Ht Hh. pose proof (sm_writers _ _ Hs t) as Hw. rewrite Ht in Hw. cbn in Hw.
    destruct (writers p !! t) as [w0|] eqn:E0; [|done]. cbn in Hw. injection Hw as _ Ea _ _ Hc.
    rewrite Hh in Hc. destruct (transmitter_ w0) as [h0|] eqn:Eh0; [|done]. unfold core in Hc. cbn in Hc. injection Hc as _ Eta Em Ed.
    rewrite Ea, Eta, Em, Ed. by apply (H1 t w0 h0).
  - intros k i h Hk. pose proof (sm_receivers _ _ Hs k) as Hr. rewrite Hk in Hr. cbn in Hr.
    destruct (receiver_map_ p !! k) as [[i0 h0]|] eqn:E0; [|done]. cbn in Hr. injection Hr as _ Ea El Em.
    rewrite Ea, El, Em. by apply (H2 k i0 h0).
Qed.

(** ** Transmitters *)

(** The peers after a change, when the identifiers of their type are distinct. *)
Lemma peers_leave s msg b :
  kinds_ok s -> roles_ok (e_hash E) allowed rt s -> proper (e_hash E) allowed rt s msg -> role_type msg = rt -> operate_type msg = OPT_LEAVE ->
  b ∈ peers_of rt (spec_Dispose msg s) <-> b ∈ peers_of rt s /\ b <> attributes_of (role_attr msg).
Proof.
  intros Hk Hok Hp Et Eo. rewrite !in_peers. setoid_rewrite (attrs_leave (e_hash E) allowed rt s msg) at 1; try done.
  split.
  - intros (a & [Ha Hne] & ->). split; [by exists a|]. intros Ea. apply Hne. apply (pr_leave _ _ _ _ _ Hp Et Eo _ Ha).
    apply attributes_of_id; [apply (ro_ok _ _ _ _ Hok _ _ Ha)|apply (pr_attr _ _ _ _ _ Hp)|by rewrite Ea].
  - intros [(a & Ha & ->) Hne]. exists a. split; [|done]. split; [done|]. by intros ->.
Qed.

Lemma peers_same_id s msg b :
  roles_ok (e_hash E) allowed rt s -> proper (e_hash E) allowed rt s msg -> role_type msg = rt -> operate_type msg = OPT_LEAVE ->
  b ∈ peers_of rt s -> id_of b = id_of (attributes_of (role_attr msg)) -> b = attributes_of (role_attr msg).
Proof.
  intros Hok Hp Et Eo (a & Ha & ->)%in_peers Hid. f_equal. apply (pr_leave _ _ _ _ _ Hp Et Eo _ Ha).
  apply attributes_of_id; [apply (ro_ok _ _ _ _ Hok _ _ Ha)|apply (pr_attr _ _ _ _ _ Hp)|done].
Qed.

(** The transmitter of a writer follows a list of readers. *)
Definition tracks (t : nat) (X : list Attributes) (p : Process) : Prop :=
  forall w h, writers p !! t = Some w -> transmitter_ w = Some h -> follows X h.

Section writer_change.
Context (s : members) (msg : ChangeMsg).
Implicit Types (h : HybridTransmitter V) (p : Process).
Hypothesis Hrt : rt = ROLE_READER.
Hypothesis Hk : kinds_ok s.
Hypothesis Hok : roles_ok (e_hash E) allowed rt s.
Hypothesis Hp : proper (e_hash E) allowed rt s msg.
Abbreviation X := (peers_of rt s).
Abbreviation X' := (peers_of rt (spec_Dispose msg s)).

(** What the transmitter itself makes of the change, whether it saw it before or not. *)
Lemma follows_join h : role_type msg = rt -> operate_type msg = OPT_JOIN -> follows X h \/ follows X' h ->
  follows X' (snd (EnableFor true (attributes_of (role_attr msg)) h)).
Proof.
  intros Et Eo. assert (HX : forall b, b ∈ X' <-> b ∈ attributes_of (role_attr msg) :: X).
  { intros b. unfold peers_of. rewrite attrs_join by auto. by rewrite fmap_cons. }
  intros [H|H]; apply (follows_enable _ (attributes_of (role_attr msg))) in H.
  - eapply follows_ext; [|exact H]. intros b. by rewrite HX.
  - eapply follows_ext; [|exact H]. intros b. rewrite elem_of_cons, HX, elem_of_cons. tauto.
Qed.

Lemma follows_leave h : role_type msg = rt -> operate_type msg = OPT_LEAVE -> follows X h \/ follows X' h ->
  follows X' (DisableFor (attributes_of (role_attr msg)) h).
Proof.
  intros Et Eo. assert (HX : forall b, b ∈ X' <-> b ∈ X /\ b <> attributes_of (role_attr msg)) by (intros b; by apply peers_leave).
  assert (Hid : forall b, b ∈ X -> id_of b = id_of (attributes_of (role_attr msg)) -> b = attributes_of (role_attr msg))
    by (intros b Hb; by apply (peers_same_id s msg)).
  intros [H|H].
  - by apply (follows_disable X).
  - apply (follows_disable X'); [| |done].
    + intros b [Hb _]%HX. by apply Hid.
    + intros b. rewrite !HX. tauto.
Qed.

(** A change of another channel makes no difference to a transmitter. *)
Lemma follows_other h : role_type msg = rt ->
  str_of (Role.channel_name (role_attr msg)) <> channel_name (t_attr h) -> follows X h \/ follows X' h -> follows X' h.
Proof.
  intros Et Hne H. assert (En : peer_mode (t_mode h) (t_attr h) (attributes_of (role_attr msg)) = None).
  { destruct (peer_mode _ _ _) eqn:Em; [|done]. by apply peer_mode_channel in Em. }
  destruct (unrelated_no_op _ h En) as [H1 H2]. destruct (operate_type msg) eqn:Eo.
  - rewrite <- (H1 true). by apply follows_join.
  - rewrite <- H2. by apply follows_leave.
Qed.

Lemma writer_hit t p : static p -> (exists w, writers p !! t = Some w) -> tracks t X p \/ tracks t X' p ->
  tracks t X' (WriterOnChannelChange E t msg p).
Proof.
  intros Hst [w Ew] H. unfold WriterOnChannelChange. rewrite Ew.
  assert (Htr : forall h, transmitter_ w = Some h -> follows X h \/ follows X' h).
  { intros h Eh. destruct H as [H|H]; [left|right]; by apply (H w h). }
  destruct (decide (role_type msg = ROLE_READER)) as [Et|Et].
  2:{ rewrite (bool_decide_eq_false_2 _ Et). cbn [negb].
      assert (EX : X' = X) by (unfold peers_of; rewrite attrs_other; [done|apply (pr_role _ _ _ _ _ Hp)|done|congruence]).
      rewrite EX in *. by destruct H. }
  rewrite (bool_decide_eq_true_2 _ Et). cbn [negb]. rewrite <- Hrt in Et.
  destruct (decide (str_of (Role.channel_name (role_attr msg)) = str_of (Role.channel_name (w_attr w)))) as [Ec|Ec].
  - rewrite (bool_decide_eq_true_2 _ Ec). cbn [negb]. destruct (operate_type msg) eqn:Eo.
    + unfold writer_enable. rewrite Ew, can_publish. destruct (transmitter_ w) as [h|] eqn:Eh.
      2:{ intros w' h' Ew' Eh'. rewrite Ew in Ew'. injection Ew' as <-. congruence. }
      pose proof (follows_join h Et Eo (Htr h eq_refl)) as Hf. destruct (EnableFor _ _ h) as [task h1]. cbn [snd] in Hf.
      intros w' h' Ew' Eh'. assert (Ew2 : <[t := mkWriter (w_type w) (w_attr w) (w_init w) (Some h1) (w_conn w)]> (writers p) !! t = Some w')
        by (by destruct task as [[o msgs]|]). rewrite lookup_insert_eq in Ew2.
      injection Ew2 as <-. by injection Eh' as <-.
    + unfold writer_disable. rewrite Ew. destruct (transmitter_ w) as [h|] eqn:Eh.
      2:{ intros w' h' Ew' Eh'. rewrite Ew in Ew'. injection Ew' as <-. congruence. }
      intros w' h' Ew' Eh'. cbn [with_writer writers] in Ew'. rewrite lookup_insert_eq in Ew'.
      injection Ew' as <-. injection Eh' as <-.
      by apply follows_leave; auto.
  - rewrite (bool_decide_eq_false_2 _ Ec). cbn [negb]. intros w' h Ew' Eh. rewrite Ew in Ew'. injection Ew' as <-.
    apply follows_other; [done| |by apply Htr]. by destruct (st_writer _ Hst t w h Ew Eh) as (_ & -> & _).
Qed.
End writer_change.

(** Other callbacks leave a writer alone. *)
Lemma writers_other t l msg (p : Process) : l <> WriterAt t -> writers (OnChannelChange E l msg p) !! t = writers p !! t.
Proof.
  intros Hl. destruct l as [t'|r]; cbn [OnChannelChange].
  - unfold WriterOnChannelChange, writer_enable, writer_disable.
    assert (Hne : t <> t') by congruence.
    repeat case_match; try done; cbn [with_writer start_history writers]; by rewrite lookup_insert_ne.
  - unfold ReaderOnChannelChange, receiver_enable, receiver_disable. by repeat case_match.
Qed.

(** ** Receivers *)

(** The receiver of a channel hears a list of writers. *)
Definition listens (k : rkey) (Y : list Attributes) (p : Process) : Prop :=
  forall i h, receiver_map_ p !! k = Some (i, h) -> hears Y h.

Lemma listens_with k i h0 h d Y (p p' : Process) :
  receiver_map_ p !! k = Some (i, h0) -> receiver_map_ p' = receiver_map_ (with_receiver k (i, h) d p) -> hears Y h -> listens k Y p'.
Proof. intros Hk E1 Hh i' h' Hk'. rewrite E1 in Hk'. cbn in Hk'. rewrite lookup_insert_eq in Hk'. by injection Hk' as <- <-. Qed.

Lemma receiver_enable_listens k a Y (p : Process) : listens k Y p -> listens k (attributes_of a :: Y) (receiver_enable k a p).
Proof.
  intros H. unfold receiver_enable. destruct (receiver_map_ p !! k) as [[i h]|] eqn:Ek; [|by intros i h Hk; rewrite Ek in Hk].
  pose proof (hears_enable (V := V) Y (attributes_of a) h (dispatchers p) (H i h Ek)) as Hh.
  destruct (ReceiverEnableFor (attributes_of a) h (dispatchers p)) as [[task h1] d1]. cbn [fst snd] in Hh.
  apply (listens_with k i h h1 d1 _ p); [done| |done]. by destruct task.
Qed.

Lemma receiver_disable_listens k a Y Y' (p : Process) :
  (forall b, b ∈ Y' -> b ∈ Y /\ id_of b <> id_of (attributes_of a)) -> listens k Y p -> listens k Y' (receiver_disable k a p).
Proof.
  intros HY H. unfold receiver_disable. destruct (receiver_map_ p !! k) as [[i h]|] eqn:Ek; [|by intros i h Hk; rewrite Ek in Hk].
  pose proof (hears_disable (V := V) Y Y' (attributes_of a) h (dispatchers p) HY (H i h Ek)) as Hh.
  destruct (ReceiverDisableFor (attributes_of a) h (dispatchers p)) as [h1 d1]. cbn [fst] in Hh.
  by apply (listens_with k i h h1 d1 _ p).
Qed.

(** Only the receiver of a reader is changed by its callback. *)
Lemma receiver_enable_other k k' a (p : Process) : k' <> k -> receiver_map_ (receiver_enable k a p) !! k' = receiver_map_ p !! k'.
Proof.
  intros Hne. unfold receiver_enable. destruct (receiver_map_ p !! k) as [[i h]|]; [|done].
  destruct (ReceiverEnableFor _ h _) as [[task h1] d1]. destruct task; cbn [start_history with_receiver receiver_map_]; by rewrite lookup_insert_ne.
Qed.

Lemma receiver_disable_other k k' a (p : Process) : k' <> k -> receiver_map_ (receiver_disable k a p) !! k' = receiver_map_ p !! k'.
Proof.
  intros Hne. unfold receiver_disable. destruct (receiver_map_ p !! k) as [[i h]|]; [|done].
  destruct (ReceiverDisableFor _ h _) as [h1 d1]. cbn [with_receiver receiver_map_]. by rewrite lookup_insert_ne.
Qed.

Lemma listens_ext k Y Y' (p p' : Process) :
  receiver_map_ p' !! k = receiver_map_ p !! k -> (forall b, b ∈ Y' -> b ∈ Y) -> listens k Y p -> listens k Y' p'.
Proof. intros E1 HY H i h Hk. rewrite E1 in Hk. apply (hears_sub Y); [done|]. by apply (H i h). Qed.

Section reader_change.
Context (s : members) (msg : ChangeMsg).
Implicit Types (h : HybridReceiver rkey) (p : Process).
Hypothesis Hrt : rt = ROLE_WRITER.
Hypothesis Hk : kinds_ok s.
Hypothesis Hok : roles_ok (e_hash E) allowed rt s.
Hypothesis Hp : proper (e_hash E) allowed rt s msg.
Abbreviation Y := (peers_of rt s).
Abbreviation Y' := (peers_of rt (spec_Dispose msg s)).

Lemma peers_unchanged : role_type msg <> rt -> Y' = Y.
Proof. intros Hne. unfold peers_of. rewrite attrs_other; [done|apply (pr_role _ _ _ _ _ Hp)|done|done]. Qed.

(** A join adds to what is heard, and a leave takes one away. *)
Lemma peers_join b : role_type msg = rt -> operate_type msg = OPT_JOIN -> b ∈ Y' -> b ∈ attributes_of (role_attr msg) :: Y.
Proof. intros Et Eo. unfold peers_of. rewrite attrs_join by done. by rewrite fmap_cons. Qed.

Lemma peers_left b : role_type msg = rt -> operate_type msg = OPT_LEAVE -> b ∈ Y' ->
  b ∈ Y /\ id_of b <> id_of (attributes_of (role_attr msg)).
Proof.
  intros Et Eo Hb. apply (peers_leave s msg b Hk Hok Hp Et Eo) in Hb as [Hb Hne]. split; [done|].
  intros Hid. apply Hne. by apply (peers_same_id s msg).
Qed.

(** The writers that a reader of another channel is told of are not heard by this one's receiver, before or after. *)
Lemma hears_other h : r_mode h = mode -> role_type msg = rt ->
  str_of (Role.channel_name (role_attr msg)) <> channel_name (r_attr h) -> hears Y h -> hears Y' h.
Proof.
  intros Hm Et Hne H m Hin. destruct (H m Hin) as (ts & E1 & E2). exists ts. split; [done|]. intros b Hb Hpm. apply E2; [|done].
  destruct (operate_type msg) eqn:Eo; [|by apply (peers_left b Et Eo) in Hb as [Hb _]].
  apply (peers_join b Et Eo) in Hb. apply elem_of_cons in Hb as [->|Hb]; [|done].
  by apply peer_mode_channel in Hpm.
Qed.

Lemma reader_hit r rd k p : static p -> readers p !! r = Some rd -> receiver_ rd = Some k ->
  str_of (Role.channel_name (rd_attr rd)) = snd k -> listens k Y p \/ listens k Y' p -> listens k Y' (ReaderOnChannelChange r msg p).
Proof.
  intros Hst Er Ek Ech H. unfold ReaderOnChannelChange. rewrite Er, Ek, <- Hrt.
  destruct (decide (role_type msg = rt)) as [Et|Et].
  2:{ rewrite (bool_decide_eq_false_2 _ Et). cbn [negb]. rewrite (peers_unchanged Et) in *. by destruct H. }
  rewrite (bool_decide_eq_true_2 _ Et). cbn [negb]. rewrite Ech.
  destruct (decide (str_of (Role.channel_name (role_attr msg)) = snd k)) as [Ec|Ec].
  - rewrite (bool_decide_eq_true_2 _ Ec). cbn [negb]. destruct (operate_type msg) eqn:Eo.
    + destruct H as [H|H]; apply (receiver_enable_listens k (role_attr msg)) in H;
        (eapply (listens_ext k); [done| |exact H]); intros b Hb; [by apply peers_join|by right].
    + destruct H as [H|H]; (eapply (receiver_disable_listens k); [|exact H]); intros b Hb; [by apply peers_left|].
      split; [done|]. by apply peers_left.
  - rewrite (bool_decide_eq_false_2 _ Ec). cbn [negb]. destruct H as [H|H]; [|done].
    intros i h Hkh. destruct (st_receiver _ Hst k i h Hkh) as (Hm & _ & Hc & _). apply hears_other; [done|done|by rewrite Hc|by apply (H i h)].
Qed.

(** Any callback, of this reader's receiver or not. *)
Lemma listens_step l k p : static p ->
  (forall r rd k', readers p !! r = Some rd -> receiver_ rd = Some k' -> str_of (Role.channel_name (rd_attr rd)) = snd k') ->
  (listens k Y p -> listens k Y (OnChannelChange E l msg p) \/ listens k Y' (OnChannelChange E l msg p)) /\
  (listens k Y' p -> listens k Y' (OnChannelChange E l msg p)).
Proof.
  intros Hst Hch.
  assert (Hsame : receiver_map_ (OnChannelChange E l msg p) !! k = receiver_map_ p !! k ->
    (listens k Y p -> listens k Y (OnChannelChange E l msg p) \/ listens k Y' (OnChannelChange E l msg p)) /\
    (listens k Y' p -> listens k Y' (OnChannelChange E l msg p))).
  { intros Eq. split; [intros H; left|intros H]; by eapply listens_ext. }
  destruct l as [t|r]; cbn [OnChannelChange] in *.
  - apply Hsame. unfold WriterOnChannelChange, writer_enable, writer_disable. by repeat case_match.
  - destruct (readers p !! r) as [rd|] eqn:Er; [|by apply Hsame; unfold ReaderOnChannelChange; rewrite Er].
    destruct (receiver_ rd) as [k'|] eqn:Ek.
    2:{ apply Hsame. unfold ReaderOnChannelChange. rewrite Er, Ek. by repeat case_match. }
    pose proof (Hch r rd k' Er Ek) as Hc. destruct (decide (k' = k)) as [->|Hne].
    + split; [intros H; right|intros H]; apply (reader_hit r rd k); auto.
    + apply Hsame. unfold ReaderOnChannelChange. rewrite Er, Ek.
      repeat case_match; try done; [by apply receiver_enable_other|by apply receiver_disable_other].
Qed.
End reader_change.

(** ** The dispatchers *)

(** What the tables of the receivers say that the dispatchers have. *)
Definition registered (p : Process) (m : Medium) (ch : Z) (key : option Z) (e : Z * rkey) : Prop :=
  exists k i h om x, receiver_map_ p !! k = Some (i, h) /\ om ∈ modes mode /\ medium_of om = m /\
    is_Some (default ∅ (r_transmitters h !! om) !! x) /\ key = Some x /\ ch = channel_id (r_attr h) /\ e = (id_of (r_attr h), k).

Definition disp_ok (p : Process) : Prop :=
  exists reg, disp_inv (V := V) reg (dispatchers p) /\ forall m ch key e, reg m !! (ch, key) = Some e <-> registered p m ch key e.

Lemma medium_modes m1 m2 : m1 ∈ modes mode -> m2 ∈ modes mode -> medium_of m1 = medium_of m2 -> m1 = m2.
Proof. intros H1%no_hybrid H2%no_hybrid. by destruct m1, m2. Qed.

(** The receiver of a channel is determined by the channel. *)
Lemma receiver_of_channel k k' i i' h h' (p : Process) : static p ->
  receiver_map_ p !! k = Some (i, h) -> receiver_map_ p !! k' = Some (i', h') -> channel_id (r_attr h) = channel_id (r_attr h') ->
  k = k' /\ i = i' /\ h = h'.
Proof.
  intros Hst Hk Hk' Hc. destruct (st_receiver _ Hst k i h Hk) as (_ & _ & _ & Ec & Hin & Ht & _).
  destruct (st_receiver _ Hst k' i' h' Hk') as (_ & _ & _ & Ec' & Hin' & Ht' & _). rewrite Ec, Ec' in Hc.
  apply hash_inj in Hc; [|done|done]. assert (k = k') as -> by (destruct k, k'; cbn in *; congruence).
  rewrite Hk in Hk'. by injection Hk' as <- <-.
Qed.

(** The tables of one receiver are changed at one place. *)
Lemma registered_change k i h h1 om x d (p p' : Process) (present : bool) :
  static p -> receiver_map_ p !! k = Some (i, h) -> om ∈ modes mode -> rcore h1 = rcore h ->
  receiver_map_ p' = <[k := (i, h1)]> (receiver_map_ p) -> dispatchers p' = d ->
  (forall om' y, is_Some (default ∅ (r_transmitters h1 !! om') !! y) <->
     if decide (om' = om /\ y = x) then present = true else is_Some (default ∅ (r_transmitters h !! om') !! y)) ->
  forall m ch key e, registered p' m ch key e <->
    if decide (m = medium_of om /\ ch = channel_id (r_attr h) /\ key = Some x)
    then present = true /\ e = (id_of (r_attr h), k) else registered p m ch key e.
Proof.
  intros Hst Hk Hom Hc Em _ Ht m ch key e. injection Hc as Ea _ _. unfold registered. rewrite Em. case_decide as Hd.
  - destruct Hd as (-> & -> & ->). split.
    + intros (k' & i' & h' & om' & y & Hk' & Hin & Hmed & Hy & [= <-] & Hch & ->).
      assert (om' = om) as -> by by apply medium_modes.
      destruct (decide (k' = k)) as [->|Hne].
      * rewrite lookup_insert_eq in Hk'. injection Hk' as <- <-. apply Ht in Hy. rewrite decide_True in Hy by done. by rewrite Ea.
      * rewrite lookup_insert_ne in Hk' by done. by destruct (receiver_of_channel k k' i i' h h' p Hst Hk Hk' Hch) as [-> _].
    + intros [Hpr ->]. exists k, i, h1, om, x. rewrite lookup_insert_eq, Ea. split_and!; try done. apply Ht. by rewrite decide_True.
  - split.
    + intros (k' & i' & h' & om' & y & Hk' & Hin & Hmed & Hy & -> & Hch & ->). destruct (decide (k' = k)) as [->|Hne].
      * rewrite lookup_insert_eq in Hk'. injection Hk' as <- <-. rewrite Ea in *. exists k, i, h, om', y. split_and!; try done.
        apply Ht in Hy. case_decide as Hd'; [|done]. destruct Hd' as [-> ->]. by destruct Hd.
      * rewrite lookup_insert_ne in Hk' by done. by exists k', i', h', om', y.
    + intros (k' & i' & h' & om' & y & Hk' & Hin & Hmed & Hy & -> & Hch & ->). destruct (decide (k' = k)) as [->|Hne].
      * rewrite Hk in Hk'. injection Hk' as <- <-. exists k, i, h1, om', y. rewrite lookup_insert_eq, Ea. split_and!; try done.
        apply Ht. rewrite decide_False; [done|]. intros [-> ->]. by apply Hd.
      * exists k', i', h', om', y. by rewrite lookup_insert_ne by done.
Qed.

Lemma receiver_enable_disp k a (p : Process) : static p -> disp_ok p -> disp_ok (receiver_enable k a p).
Proof.
  intros Hst (reg & Hd & Hreg). unfold receiver_enable. destruct (receiver_map_ p !! k) as [[i h]|] eqn:Ek; [|by exists reg].
  destruct (st_receiver _ Hst k i h Ek) as (Hm & Hl & _ & Hcid & Hall & _).
  pose proof (enable_cases (V := V) (attributes_of a) h (dispatchers p)) as Hc.
  destruct (ReceiverEnableFor (attributes_of a) h (dispatchers p)) as [[task h1] d1].
  enough (H : disp_ok (with_receiver k (i, h1) d1 p)) by (by destruct task).
  destruct Hc as [(-> & -> & _) | (om & Hpm & Hnone & Eh & ->)].
  { exists reg. split; [done|]. intros m ch key e. rewrite Hreg. unfold registered. cbn [with_receiver receiver_map_].
    by rewrite (insert_id _ k). }
  assert (Hom : om ∈ modes mode) by (rewrite <- Hm; by apply (peer_mode_in _ _ _ _ Hpm)).
  set (x := id_of (attributes_of a)) in *.
  assert (Hnew : reg (medium_of om) !! (channel_id (r_attr h), Some x) = None).
  { destruct (reg _ !! _) as [e|] eqn:Ee; [|done]. apply Hreg in Ee as (k' & i' & h' & om' & y & Hk' & Hin & Hmed & Hy & [= <-] & Hch & _).
    destruct (receiver_of_channel k k' i i' h h' p Hst Ek Hk' Hch) as (<- & <- & <-).
    assert (om' = om) as -> by by apply medium_modes. rewrite Hnone in Hy. by apply is_Some_None in Hy. }
  pose proof (add_listener_inv reg (medium_of om) (id_of (r_attr h)) (Some x) (channel_id (r_attr h)) (r_listener h) _ Hd Hnew) as Hd1.
  eexists. split; [apply Hd1; rewrite Hcid; by apply hash_u64|]. intros m ch key e. cbn beta.
  rewrite (registered_change k i h h1 om x _ p (with_receiver k (i, h1) _ p) true Hst Ek Hom ltac:(by rewrite Eh) eq_refl eq_refl).
  2:{ rewrite Eh. intros om' y. cbn [with_transmitters r_transmitters]. destruct (decide (om' = om)) as [->|Hne].
      - rewrite lookup_insert_eq. cbn [default]. unfold Datatypes.id. destruct (decide (y = x)) as [->|Hy].
        + rewrite lookup_insert_eq, decide_True by done. split; [done|by eexists].
        + rewrite lookup_insert_ne, decide_False by naive_solver. done.
      - rewrite lookup_insert_ne, decide_False by naive_solver. done. }
  rewrite Hl. destruct (decide (m = medium_of om)) as [->|Hne].
  - destruct (decide ((channel_id (r_attr h), Some x) = (ch, key))) as [[= <- <-]|Hne].
    + rewrite lookup_insert_eq, decide_True by done. split; [by intros [= <-]|by intros [_ ->]].
    + rewrite lookup_insert_ne, decide_False by (naive_solver || done). apply Hreg.
  - rewrite decide_False by naive_solver. apply Hreg.
Qed.

Lemma receiver_disable_disp k a (p : Process) : static p -> disp_ok p -> disp_ok (receiver_disable k a p).
Proof.
  intros Hst (reg & Hd & Hreg). unfold receiver_disable. destruct (receiver_map_ p !! k) as [[i h]|] eqn:Ek; [|by exists reg].
  destruct (st_receiver _ Hst k i h Ek) as (Hm & Hl & _ & Hcid & Hall & _).
  pose proof (disable_cases (V := V) (attributes_of a) h (dispatchers p)) as Hc.
  destruct (ReceiverDisableFor (attributes_of a) h (dispatchers p)) as [h1 d1].
  destruct Hc as [(-> & ->) | (om & Hpm & Hsome & Eh & ->)].
  { exists reg. split; [done|]. intros m ch key e. rewrite Hreg. unfold registered. cbn [with_receiver receiver_map_].
    by rewrite (insert_id _ k). }
  assert (Hom : om ∈ modes mode) by (rewrite <- Hm; by apply (peer_mode_in _ _ _ _ Hpm)).
  set (x := id_of (attributes_of a)) in *.
  assert (Hself : forall e, reg (medium_of om) !! (channel_id (r_attr h), Some x) = Some e -> fst e = id_of (r_attr h)).
  { intros e Ee. apply Hreg in Ee as (k' & i' & h' & om' & y & Hk' & Hin & Hmed & Hy & [= <-] & Hch & ->).
    by destruct (receiver_of_channel k k' i i' h h' p Hst Ek Hk' Hch) as (_ & _ & <-). }
  pose proof (remove_listener_inv reg (medium_of om) (id_of (r_attr h)) (Some x) (channel_id (r_attr h)) _ Hd Hself) as Hd1.
  eexists. split; [apply Hd1; rewrite Hcid; by apply hash_u64|]. intros m ch key e. cbn beta.
  rewrite (registered_change k i h h1 om x _ p (with_receiver k (i, h1) _ p) false Hst Ek Hom ltac:(by rewrite Eh) eq_refl eq_refl).
  2:{ rewrite Eh. intros om' y. cbn [with_transmitters r_transmitters]. destruct (decide (om' = om)) as [->|Hne].
      - rewrite lookup_insert_eq. cbn [default]. unfold Datatypes.id. destruct (decide (y = x)) as [->|Hy].
        + rewrite lookup_delete_eq, decide_True by done. split; [by intros []|done].
        + rewrite lookup_delete_ne, decide_False by naive_solver. done.
      - rewrite lookup_insert_ne, decide_False by naive_solver. done. }
  destruct (decide (m = medium_of om)) as [->|Hne].
  - destruct (decide ((channel_id (r_attr h), Some x) = (ch, key))) as [[= <- <-]|Hne].
    + rewrite lookup_delete_eq, decide_True by done. split; [done|by intros []].
    + rewrite lookup_delete_ne, decide_False by (naive_solver || done). apply Hreg.
  - rewrite decide_False by naive_solver. apply Hreg.
Qed.

Lemma callback_disp l msg (p : Process) : static p -> disp_ok p -> disp_ok (OnChannelChange E l msg p).
Proof.
  intros Hst Hd. destruct l as [t|r]; cbn [OnChannelChange].
  - unfold WriterOnChannelChange, writer_enable, writer_disable. by repeat case_match.
  - unfold ReaderOnChannelChange. repeat case_match; try done; [by apply receiver_enable_disp|by apply receiver_disable_disp].
Qed.

(** Every receiver has its tables. *)
Definition tables_ok (p : Process) : Prop := forall k, listens k [] p.

Lemma callback_tables l msg (p : Process) : tables_ok p -> tables_ok (OnChannelChange E l msg p).
Proof.
  intros H k. destruct l as [t|r]; cbn [OnChannelChange].
  - assert (Hr : receiver_map_ (WriterOnChannelChange E t msg p) = receiver_map_ p)
      by (unfold WriterOnChannelChange, writer_enable, writer_disable; by repeat case_match).
    intros i h. rewrite Hr. apply H.
  - unfold ReaderOnChannelChange. repeat case_match; try apply H.
    + match goal with |- listens k [] (receiver_enable ?k' ?a p) => destruct (decide (k = k')) as [->|Hne];
        [eapply listens_ext; [done| |apply (receiver_enable_listens k' a []), H]; intros b Hb; by apply elem_of_nil in Hb|
         eapply listens_ext; [by apply receiver_enable_other|done|apply H]] end.
    + match goal with |- listens k [] (receiver_disable ?k' ?a p) => destruct (decide (k = k')) as [->|Hne];
        [eapply receiver_disable_listens; [|apply H]; intros b Hb; by apply elem_of_nil in Hb|
         eapply listens_ext; [by apply receiver_disable_other|done|apply H]] end.
Qed.
End peers.
