(* ===== verification/NodeRun.v ===== *)
(** * NodeRun: the invariant of a process, over any sequence of operations

    Nodes, readers and writers are created and shut down, other processes announce changes and leave, messages are written and
    arrive, and tasks run: every operation returns, and keeps the invariant of [NodePeers.v] with the parts here: the known names, the
    handles, the buffers and the tasks of the readers that are there. *)

From S2P Require Import Prelude Interfaces ShmMessage Role Warehouse AtomicHashMap GlobalData Manager ChannelManager Signal.
From S2P Require Import Blocker FanOut CacheBuffer DataFlow Hybrid HybridPeers Node NodeParts NodePeers.

(** ** The invariant *)

Section run.
Context {W T DI DO V : Type} {Map : Type -> Type}.
Context `{!Warehouse W, !Tasks T, !FanOut DI rkey V, !FanOut DO rkey V, !KeyMap Map, !Inhabited V}.
Context `{!WarehouseLaws W, !TasksLaws T, !FanOutLaws DI rkey V, !FanOutLaws DO rkey V, !KeyMapLaws Map}.
Context (E : Environment) (rt : RoleType) (allowed : gset string) (chan_type : string -> nat).
Abbreviation Process := (Process W T DI DO V Map).
Implicit Types (p : Process).
Abbreviation mode := (ObtainConfig (e_modes E)).
Hypothesis several : @multi W _ = true.
Hypothesis rt_ok : rt = ROLE_WRITER \/ rt = ROLE_READER.
Hypothesis can_publish : e_can_publish E = true.
Hypothesis hash_u64 : forall c, is_u64 (e_hash E c).
Hypothesis hash_inj : forall c c', c ∈ allowed -> c' ∈ allowed -> e_hash E c = e_hash E c' -> c = c'.
Hypothesis no_hybrid : forall m, m ∈ modes mode -> m <> HYBRID.

(** A table of names in which every known name is at its hash. *)
Definition names_tab (size : Z) (m : AtomicHashMap string) : Prop :=
  ahm_wf size m /\ forall i n, Get size i m = Some n -> n ∈ allowed /\ i = e_hash E n.

Definition names_ok (gd : GlobalData) : Prop := names_tab 512 (node_id_map_ gd) /\ names_tab 256 (channel_id_map_ gd).

(** An endpoint that is initialised, its attributes and its connection. *)
Definition role_of (l : listener) : RoleType := match l with WriterAt _ => ROLE_WRITER | ReaderAt _ => ROLE_READER end.

Definition endpoint (p : Process) (l : listener) (a : RoleAttributes) (c : Connection) : Prop :=
  match l with
  | WriterAt t => exists w, writers p !! t = Some w /\ w_init w = true /\ a = w_attr w /\ c = w_conn w
  | ReaderAt r => exists rd, readers p !! r = Some rd /\ rd_init rd = true /\ a = rd_attr rd /\ c = rd_conn rd
  end.

Definition own (a : RoleAttributes) : Prop := Role.host_name a = Some (e_host E) /\ Role.process_id a = Some (e_pid E).

(** The attributes that a node fills in, but for the identifier. *)
Record filled (a : RoleAttributes) : Prop := {
  fi_channel : exists c, Role.channel_name a = Some c /\ c ∈ allowed /\ Role.channel_id a = Some (e_hash E c);
  fi_node : is_Some (node_id a);
  fi_own : own a;
  fi_ip : Role.host_ip a = Some (e_ip E);
}.

(** What a node is made with, and what it makes the readers and writers with. *)
Definition node_made (node : NodeChannelImpl) : Prop :=
  own (n_attr node) /\ is_Some (node_id (n_attr node)) /\ Role.host_ip (n_attr node) = Some (e_ip E).
Definition writer_made (w : Writer V) : Prop := filled (w_attr w).
Definition reader_made (rd : Reader V) : Prop :=
  filled (rd_attr rd) /\ rd_type rd = chan_type (str_of (Role.channel_name (rd_attr rd))).

(** A reader's part of the flow of data: its buffer is registered for its channel, and its notifier is called. *)
Definition reads (d : world V Map) (rd : Reader V) (ch : string) (id : nat) (n : nat) : Prop :=
  (exists pos, rd_visitor rd = Some (mkDV [id] n pos)) /\ is_Some (buffers d !! id) /\ (id < next_id d)%nat /\ n ∈ callbacks d /\
  (exists l, km_get (e_hash E ch) (DataFlow.dispatcher (rd_type rd) d) = Some l /\ id ∈ l) /\
  (exists l, km_get (e_hash E ch) (notifies_map_ d) = Some l /\ n ∈ l).

Record data_ok (p : Process) : Prop := {
  do_wf : world_wf (data p);
  do_up : is_shutdown (data p) = false;
  do_reader : forall r rd, readers p !! r = Some rd -> rd_init rd = true -> exists ch id n,
    Role.channel_name (rd_attr rd) = Some ch /\ rd_type rd = chan_type ch /\ reads (data p) rd ch id n;
  do_own : forall r r' rd rd' v v', readers p !! r = Some rd -> readers p !! r' = Some rd' -> rd_init rd = true -> rd_init rd' = true ->
    rd_visitor rd = Some v -> rd_visitor rd' = Some v' -> v_ids v = v_ids v' -> r = r';
}.

Record base_inv (p : Process) : Prop := {
  bi_up : shut_down p = false;
  bi_static : static E allowed chan_type p;
  bi_signal : signal_ok (signal p);
  bi_end : forall l a c, endpoint p l a c -> attr_ok (e_hash E) allowed a /\ own a /\ heard (signal p) c l;
  bi_trans : forall t w, writers p !! t = Some w -> w_init w = true -> is_Some (transmitter_ w);
  bi_recv : forall r rd, readers p !! r = Some rd -> rd_init rd = true -> exists k i h,
    receiver_ rd = Some k /\ receiver_map_ p !! k = Some (i, h) /\ Role.id (rd_attr rd) = Some (hash_value_ i) /\ croutine_name_ rd <> "";
  bi_chan : forall r rd k, readers p !! r = Some rd -> receiver_ rd = Some k -> str_of (Role.channel_name (rd_attr rd)) = snd k;
  bi_ids : forall l l' a a' c c', endpoint p l a c -> endpoint p l' a' c' -> role_of l = rt -> role_of l' = rt ->
    Role.id a = Role.id a' -> l = l';
  bi_names : names_ok (names p);
  bi_nodes : forall n node, nodes p !! n = Some node -> node_made node /\ (n < next_handle p)%nat;
  bi_handles : forall h, (next_handle p <= h)%nat -> writers p !! h = None /\ readers p !! h = None;
  bi_data : data_ok p;
  bi_tasks : exists names, t_inv names (tasks p) /\
    (forall n, n ∈ names <-> exists r rd, readers p !! r = Some rd /\ rd_init rd = true /\ croutine_name_ rd = n) /\
    (forall r r' rd rd', readers p !! r = Some rd -> readers p !! r' = Some rd' -> rd_init rd = true -> rd_init rd' = true ->
       croutine_name_ rd = croutine_name_ rd' -> r = r');
  bi_writer : forall t w, writers p !! t = Some w -> writer_made w;
  bi_reader : forall r rd, readers p !! r = Some rd -> reader_made rd;
}.

(** What the process knows of the roles [s]; [x] is an endpoint whose own role is not yet among them. *)
Record peer_inv (x : option listener) (p : Process) (s : members) : Prop := {
  pi_kinds : kinds_ok s;
  pi_roles : roles_ok (e_hash E) allowed rt s;
  pi_disp : disp_ok E p;
  pi_tables : tables_ok p;
  pi_tracks : rt = ROLE_READER -> forall t a c, endpoint p (WriterAt t) a c -> tracks t (peers_of rt s) p;
  pi_listens : rt = ROLE_WRITER -> forall r rd k, readers p !! r = Some rd -> rd_init rd = true -> receiver_ rd = Some k ->
    listens k (peers_of rt s) p;
  pi_in : forall l a c, endpoint p l a c -> role_of l = rt -> x <> Some l -> a ∈ attrs rt s;
}.

Lemma same_endpoint p p' l a c : same p p' -> endpoint p' l a c -> endpoint p l a c.
Proof.
  intros Hs. destruct l as [t|r]; cbn [endpoint]; [|by rewrite (sm_readers _ _ Hs)].
  intros (w & Ew & Hi & -> & ->). pose proof (sm_writers _ _ Hs t) as H. rewrite Ew in H.
  destruct (writers p !! t) as [w0|]; [|done]. injection H as H1 H2 H3 H4 H5. exists w0. by rewrite H2, H3, H4 in *.
Qed.

Lemma same_base p p' : same p p' -> base_inv p -> base_inv p'.
Proof.
  intros Hs [B1 B2 B3 B4 B5 B6 B7 B8 B9 B10 B11 B12 B13 B14 B15].
  split; rewrite ?(sm_shut _ _ Hs), ?(sm_signal _ _ Hs), ?(sm_names _ _ Hs), ?(sm_nodes _ _ Hs), ?(sm_handle _ _ Hs), ?(sm_readers _ _ Hs),
    ?(sm_tasks _ _ Hs); try done.
  - by apply (same_static E allowed chan_type p).
  - intros l a c He. by apply B4, (same_endpoint p p').
  - intros t w Ew Hi. pose proof (sm_writers _ _ Hs t) as H. rewrite Ew in H.
    destruct (writers p !! t) as [w0|] eqn:E0; [|done]. injection H as _ _ H3 _ H5. rewrite H3 in Hi.
    destruct (B5 t w0 E0 Hi) as [h Eh]. rewrite Eh in H5. destruct (transmitter_ w); [by eexists|done].
  - intros r rd Er Hi. destruct (B6 r rd Er Hi) as (k & i & h & E1 & E2 & E3 & E4).
    pose proof (sm_receivers _ _ Hs k) as H. rewrite E2 in H. destruct (receiver_map_ p' !! k) as [[i' h']|] eqn:Ek; [|done].
    injection H as -> _. by exists k, i, h'.
  - intros l l' a a' c c' H1 H2. by apply (B8 l l' a a' c c'); apply (same_endpoint p p').
  - intros h Hh. destruct (B11 h Hh) as [H1 H2]. split; [|done]. pose proof (sm_writers _ _ Hs h) as H. rewrite H1 in H.
    by destruct (writers p' !! h).
  - destruct B12 as [D1 D2 D3 D4]. split; rewrite ?(sm_data _ _ Hs), ?(sm_readers _ _ Hs); done.
  - intros t w Ew. pose proof (sm_writers _ _ Hs t) as H. rewrite Ew in H. destruct (writers p !! t) as [w0|] eqn:E0; [|done].
    injection H as _ Ea _ _ _. unfold writer_made. rewrite Ea. by apply (B14 t w0).
Qed.

(** ** Notifications *)

(** A leave is not of an endpoint of the process that stays. *)
Definition spares (x : option listener) (p : Process) (msg : ChangeMsg) : Prop :=
  operate_type msg = OPT_LEAVE -> role_type msg = rt -> forall l a c, endpoint p l a c -> role_of l = rt -> x <> Some l -> a <> role_attr msg.

Lemma notify_inv x msg p s :
  base_inv p -> peer_inv x p s -> proper (e_hash E) allowed rt s msg -> spares x p msg ->
  let p' := notify_listeners E p msg in same p p' /\ manager p' = manager p /\ peer_inv x p' (spec_Dispose msg s).
Proof.
  intros HB HP Hp Hspare. cbv zeta. rewrite (notify_fold E msg p (bi_signal _ HB)).
  set (f := fun p l => OnChannelChange E l msg p). set (ls := Signal.callbacks (signal p)).
  assert (Hsame : same p (fold_left f ls p)) by apply callbacks_same. split; [done|]. split; [apply callbacks_manager|].
  destruct HP as [P1 P2 P3 P7 P4 P5 P6].
  assert (Hst : forall q, same p q -> static E allowed chan_type q) by (intros q Hq; apply (same_static E allowed chan_type p); [done|apply HB]).
  split.
  - by apply kinds_dispose.
  - by apply roles_ok_dispose.
  - assert (H : forall ls q, same p q -> disp_ok E q -> disp_ok E (fold_left f ls q)); [|by apply H].
    intros l. induction l as [|l ls' IH]; intros q Hq Hd; [done|]. cbn [fold_left].
    apply IH; [etrans; [exact Hq|apply OnChannelChange_same]|]. apply (callback_disp E allowed chan_type); auto.
  - assert (H : forall ls q, tables_ok q -> tables_ok (fold_left f ls q)); [|by apply H].
    intros l. induction l as [|l ls' IH]; intros q Hq; [done|]. cbn [fold_left]. by apply IH, callback_tables.
  - intros Hrt t a c He%(same_endpoint p); [|done]. pose proof (P4 Hrt t a c He) as Ht.
    destruct (bi_end _ HB _ _ _ He) as (_ & _ & Hheard). destruct He as (w & Ew & _).
    assert (Hex : forall q, same p q -> exists w', writers q !! t = Some w').
    { intros q Hq. pose proof (sm_writers _ _ Hq t) as H. rewrite Ew in H. destruct (writers q !! t) as [w1|]; [by exists w1|done]. }
    apply (fold_left_hit f (fun q => same p q) (tracks t (peers_of rt s)) (tracks t (peers_of rt (spec_Dispose msg s))) (WriterAt t)); try done.
    + intros q l Hq. etrans; [exact Hq|apply OnChannelChange_same].
    + intros q l Hq HQ. destruct (decide (l = WriterAt t)) as [->|Hne].
      * right. apply (writer_hit E rt allowed chan_type rt_ok can_publish s msg Hrt P1 P2 Hp); auto.
      * left. intros w' h. unfold f. rewrite (writers_other E t l msg q Hne). apply HQ.
    + intros q l Hq HR. destruct (decide (l = WriterAt t)) as [->|Hne].
      * apply (writer_hit E rt allowed chan_type rt_ok can_publish s msg Hrt P1 P2 Hp); auto.
      * intros w' h. unfold f. rewrite (writers_other E t l msg q Hne). apply HR.
    + intros q Hq HQR. apply (writer_hit E rt allowed chan_type rt_ok can_publish s msg Hrt P1 P2 Hp); auto.
    + by apply (heard_callbacks _ c); [apply HB|].
  - intros Hrt r rd k. rewrite (sm_readers _ _ Hsame). intros Er Hi Ek.
    assert (He : endpoint p (ReaderAt r) (rd_attr rd) (rd_conn rd)) by (by exists rd).
    destruct (bi_end _ HB _ _ _ He) as (_ & _ & Hheard).
    assert (Hch : forall q, same p q -> forall r rd k', readers q !! r = Some rd -> receiver_ rd = Some k' ->
      str_of (Role.channel_name (rd_attr rd)) = snd k') by (intros q Hq; rewrite (sm_readers _ _ Hq); apply HB).
    assert (Hstep : forall q l, same p q -> _) by (intros q l Hq;
      exact (listens_step E rt allowed chan_type rt_ok s msg Hrt P1 P2 Hp l k q (Hst q Hq) (Hch q Hq))).
    apply (fold_left_hit f (fun q => same p q) (listens k (peers_of rt s)) (listens k (peers_of rt (spec_Dispose msg s))) (ReaderAt r)); try done.
    + intros q l Hq. etrans; [exact Hq|apply OnChannelChange_same].
    + intros q l Hq. by apply Hstep.
    + intros q l Hq. by apply Hstep.
    + intros q Hq HQR. unfold f. cbn [OnChannelChange].
      apply (reader_hit E rt allowed chan_type rt_ok s msg Hrt P1 P2 Hp r rd k); try done; [by apply Hst|by rewrite (sm_readers _ _ Hq)|].
      by apply (bi_chan _ HB r).
    + by apply (heard_callbacks _ (rd_conn rd)); [apply HB|].
    + by apply (P5 Hrt r rd).
  - intros l a c He%(same_endpoint p) Hl Hx; [|done]. pose proof (P6 l a c He Hl Hx) as Ha.
    destruct (decide (role_type msg = rt)) as [Er|Er]; [|rewrite attrs_other; [done|apply Hp|done|congruence]].
    destruct (operate_type msg) eqn:Eo.
    + rewrite attrs_join by done. by apply elem_of_cons; right.
    + apply (attrs_leave (e_hash E) allowed rt s msg); try done. split; [done|]. by apply (Hspare Eo Er l a c).
Qed.

Lemma spares_same x msg p p' : same p p' -> spares x p msg -> spares x p' msg.
Proof. intros Hs H Eo Er l a c He. apply (H Eo Er l a c). by apply (same_endpoint p p'). Qed.

Lemma notify_all_inv x msgs p s :
  base_inv p -> peer_inv x p s -> proper_all (e_hash E) allowed rt s msgs -> Forall (spares x p) msgs ->
  let p' := fold_left (notify_listeners E) msgs p in
  same p p' /\ manager p' = manager p /\ peer_inv x p' (foldl (fun s msg => spec_Dispose msg s) s msgs).
Proof.
  revert p s. induction msgs as [|msg msgs IH]; intros p s HB HP Hps Hsp; [done|]. destruct Hps as [Hp Hps].
  apply Forall_cons in Hsp as [Hsp Hsps]. cbn [fold_left foldl].
  destruct (notify_inv x msg p s HB HP Hp Hsp) as (S1 & M1 & P1). set (p1 := notify_listeners E p msg) in *.
  destruct (IH p1 _ (same_base _ _ S1 HB) P1 Hps) as (S2 & M2 & P2).
  { eapply Forall_impl; [exact Hsps|]. intros m. by apply spares_same. }
  split; [by etrans|]. split; [congruence|done].
Qed.

(** An operation of the manager. *)
Lemma manage_inv x f msgs s s' p :
  base_inv p -> peer_inv x p s -> cm_ok (e_host E) (e_pid E) (f (manager p)) s' ->
  notified (cm_base (f (manager p))) = notified (cm_base (manager p)) ++ msgs ->
  s' = foldl (fun s msg => spec_Dispose msg s) s msgs ->
  proper_all (e_hash E) allowed rt s msgs -> Forall (spares x p) msgs ->
  let p' := manage E f p in
  same p p' /\ manager p' = f (manager p) /\ base_inv p' /\ peer_inv x p' s' /\ cm_ok (e_host E) (e_pid E) (manager p') s'.
Proof.
  intros HB HP Hcm Hn -> Hps Hsp. cbv zeta. unfold manage. rewrite Hn, drop_app_length. set (p0 := with_manager (f (manager p)) p).
  assert (S0 : same p p0) by by split.
  assert (P0 : peer_inv x p0 s) by (destruct HP; by split).
  destruct (notify_all_inv x msgs p0 s (same_base _ _ S0 HB) P0 Hps) as (S1 & M1 & P1); [done|].
  assert (S2 : same p (fold_left (notify_listeners E) msgs p0)) by by etrans.
  split; [done|]. split; [done|]. split; [by apply (same_base p)|]. split; [done|]. by rewrite M1.
Qed.

(** ** Names *)

Lemma register_known size name m : 0 < size < two64 -> names_tab size m -> name ∈ allowed ->
  exists m', Register (e_hash E) size name m = Some (e_hash E name, m') /\ names_tab size m'.
Proof.
  intros Hs [Hwf Hall] Hin. unfold Register.
  assert (Hp : probe size (S (length (table_keys m))) name (e_hash E name) m = Some (e_hash E name)).
  { rewrite probe_unfold by done. destruct (Get size (e_hash E name) m) as [n|] eqn:Eg; [|done].
    destruct (Hall _ _ Eg) as [Hn Eh]. apply hash_inj in Eh; [|done|done]. by rewrite bool_decide_eq_true_2. }
  rewrite Hp. eexists. split; [done|]. split; [by apply Set_wf|].
  intros i n. rewrite Get_Set by done. case_decide as Hd; [|apply Hall]. by intros [= <-].
Qed.

Lemma channel_known name gd : names_ok gd -> name ∈ allowed ->
  exists gd', RegisterChannel (e_hash E) name gd = Some (e_hash E name, gd') /\ names_ok gd'.
Proof.
  intros [H1 H2] Hin. destruct (register_known 256 name _ ltac:(done) H2 Hin) as (m & Em & Hm).
  unfold RegisterChannel. rewrite Em. eexists. split; [done|]. by split.
Qed.

Lemma node_known name gd : names_ok gd -> name ∈ allowed ->
  exists gd', RegisterNode (e_hash E) name gd = Some (e_hash E name, gd') /\ names_ok gd'.
Proof.
  intros [H1 H2] Hin. destruct (register_known 512 name _ ltac:(done) H1 Hin) as (m & Em & Hm).
  unfold RegisterNode. rewrite Em. eexists. split; [done|]. by split.
Qed.

Lemma gd_new_ok : names_ok gd_new.
Proof.
  assert (H : forall size, 0 < size < two64 -> names_tab size (ahm_new size)); [|by split; apply H].
  intros size Hs. split; [by apply ahm_new_wf|]. intros i n. unfold Get, bucket_of, ahm_new, AtomicHashMap.
  destruct (replicate _ _ !! _) as [b|] eqn:Eb; [|done]. by apply lookup_replicate in Eb as [-> _].
Qed.

(** The roles of a channel that a query answers. *)
Lemma peers_of_channel (get : string -> list RoleAttributes -> GlobalData -> ChannelManager W -> option (list RoleAttributes * GlobalData))
    (t : RoleType) (tab : ChannelManager W -> W) name gd cm s :
  (forall out, get name out gd cm =
     '(key, gd) ← RegisterChannel (e_hash E) name gd; Some ((w_Search_key_roles_attr key out (tab cm)).2, gd)) ->
  entries (tab cm) ≡ₚ keyed Role.channel_id (roles_of t s) -> roles_ok (e_hash E) allowed rt s -> names_ok gd -> name ∈ allowed ->
  exists l gd', get name [] gd cm = Some (l, gd') /\ names_ok gd' /\
    forall a, a ∈ l <-> a ∈ attrs t s /\ Role.channel_name a = Some name.
Proof.
  intros Hget Htab Hok Hgd Hin. rewrite Hget. destruct (channel_known name gd Hgd Hin) as (gd' & -> & Hgd'). cbn.
  destruct (search_key_view (tab cm) Role.channel_id (roles_of t s) (e_hash E name) Htab) as (m & Hm & _ & Hout).
  rewrite Hout. eexists _, gd'. split; [done|]. split; [done|]. intros a. cbn [app].
  rewrite list_elem_of_fmap. unfold attrs. rewrite list_elem_of_fmap.
  assert (Hc : forall r, r ∈ roles_of t s -> int_of (Role.channel_id (attributes_ r)) = e_hash E name <-> Role.channel_name (attributes_ r) = Some name).
  { intros r Hr. destruct (ao_channel _ _ _ (ro_ok _ _ _ _ Hok t (attributes_ r) ltac:(apply list_elem_of_fmap; by exists r))) as (c & E1 & E2 & E3).
    rewrite E1, E3. cbn. split; [|by intros [= ->]]. intros Eh. by rewrite (hash_inj _ _ E2 Hin Eh). }
  split.
  - intros (r & -> & Hr). rewrite Hm in Hr. apply list_elem_of_filter in Hr as [Hk Hr]. split; [by exists r|by apply Hc].
  - intros [(r & -> & Hr) Hn]. exists r. split; [done|]. rewrite Hm. apply list_elem_of_filter. split; [by apply Hc|done].
Qed.

(** ** Connections *)

Lemma heard_connect s cb conn l : heard s conn l -> heard (snd (Connect cb s)) conn l.
Proof. intros (slot & Hin & E1 & E2). exists slot. split; [|done]. cbn. apply elem_of_app. by left. Qed.

Lemma heard_new s l : heard (snd (Connect (Some l) s)) (fst (Connect (Some l) s)) l.
Proof. eexists. split; [apply elem_of_app; right; by left|done]. Qed.

Lemma connect_ok s cb : signal_ok s -> signal_ok (snd (Connect cb s)).
Proof. intros [H1 H2]. split; [by apply connect_wf|]. cbn. apply Forall_app. split; [done|]. by repeat constructor. Qed.

(** A slot is of one listener. *)
Lemma heard_unique s conn l l' : signal_ok s -> heard s conn l -> heard s conn l' -> l = l'.
Proof.
  intros [Hwf _] (x & Hx & -> & Ex) (y & Hy & Ey & Ey'). injection Ey as Ea.
  assert (E1 : slot_at (address x) s = Some x) by (by apply slot_at_elem).
  assert (E2 : slot_at (address x) s = Some y) by (by apply slot_at_elem). congruence.
Qed.

Lemma disconnect_all_ok s conn : signal_ok s -> signal_ok (snd (Disconnect conn s)).
Proof.
  intros [H1 H2]. split; [by apply disconnect_wf|]. unfold Disconnect. cbn [snd].
  destruct (existsb _ _) eqn:Ex; cbn [ClearDisconnectedSlots slots_].
  - apply Forall_forall. by intros x [Hx _]%list_elem_of_filter.
  - apply Forall_map. rewrite Forall_forall in H2. apply Forall_forall. intros x Hx. specialize (H2 x Hx).
    destruct (HasSlot conn x) eqn:Eh; [|done]. assert (existsb (HasSlot conn) (slots_ s) = true); [|congruence].
    apply existsb_exists. exists x. split; [by apply list_elem_of_In|done].
Qed.

Lemma heard_disconnect s c conn l : signal_ok s -> heard s conn l -> c <> conn -> heard (snd (Disconnect c s)) conn l.
Proof.
  intros [_ Hc] (slot & Hin & -> & Hcb) Hne. rewrite Forall_forall in Hc. specialize (Hc slot Hin). exists slot.
  assert (Hs : HasSlot c slot = false).
  { unfold HasSlot. destruct c as [a|]; [|done]. apply Nat.eqb_neq. congruence. }
  split; [|done]. unfold Disconnect. cbn [snd].
  assert (Hm : slot ∈ map (fun slot => if HasSlot c slot then slot_disconnect slot else slot) (slots_ s)).
  { apply list_elem_of_fmap. exists slot. by rewrite Hs. }
  destruct (existsb _ _); [|done]. cbn [ClearDisconnectedSlots slots_]. by apply list_elem_of_filter.
Qed.

(** ** Writers *)

Definition Inv (p : Process) (s : members) : Prop := base_inv p /\ peer_inv None p s /\ cm_ok (e_host E) (e_pid E) (manager p) s.

Lemma filled_again i a : filled a -> filled (set_id i a).
Proof. by intros []. Qed.

(** What a transmitter or a receiver reads of them. *)
Lemma filled_endpoint i a : filled a ->
  let x := Endpoint i (attributes_of (modified_attr (e_pid E) a)) in
  channel_name x = str_of (Role.channel_name a) /\ channel_id x = int_of (Role.channel_id a) /\ here E x.
Proof.
  intros [_ _ [_ Hp] Hip]. unfold here, Endpoint, attributes_of, modified_attr. cbn. rewrite Hp, Hip. by case_match.
Qed.

Lemma filled_set_id i a : filled a -> attr_ok (e_hash E) allowed (set_id i a) /\ own (set_id i a).
Proof. intros [H1 H2 [H3 H4]]. split; [|done]. split; cbn; try done; by eexists. Qed.

Lemma own_names a : own a -> is_Some (Role.host_name a) /\ is_Some (Role.process_id a).
Proof. by intros [-> ->]. Qed.

(** Switching a transmitter on for a list of peers. *)
Lemma enable_all t (l : list RoleAttributes) p :
  let p' := fold_left (fun p a => writer_enable E t a p) l p in
  same p p' /\ manager p' = manager p /\ receiver_map_ p' = receiver_map_ p /\ dispatchers p' = dispatchers p /\
  (forall t', t' <> t -> writers p' !! t' = writers p !! t') /\
  (forall X, tracks t X p -> tracks t (reverse (attributes_of <$> l) ++ X) p').
Proof.
  revert p. induction l as [|a l IH]; intros p; [done|]. cbn [fold_left].
  destruct (IH (writer_enable E t a p)) as (S2 & M2 & R2 & D2 & W2 & T2). clear IH.
  split; [etrans; [apply writer_enable_same|done]|].
  assert (H1 : manager (writer_enable E t a p) = manager p /\ receiver_map_ (writer_enable E t a p) = receiver_map_ p /\
    dispatchers (writer_enable E t a p) = dispatchers p /\ forall t', t' <> t -> writers (writer_enable E t a p) !! t' = writers p !! t').
  { unfold writer_enable. repeat case_match; try done; split_and!; try done; intros t' Ht; cbn [with_writer start_history writers];
      by rewrite lookup_insert_ne. }
  destruct H1 as (M1 & R1 & D1 & W1). split; [congruence|]. split; [congruence|]. split; [congruence|].
  split; [intros t' Ht; by rewrite W2, W1|]. intros X HX. rewrite fmap_cons, reverse_cons, <- app_assoc. apply T2.
  intros w h. unfold writer_enable. destruct (writers p !! t) as [w0|] eqn:Ew; [|by rewrite Ew].
  destruct (transmitter_ w0) as [h0|] eqn:Eh; [|rewrite Ew; intros [= <-]; congruence].
  pose proof (follows_enable X (attributes_of a) h0 (HX w0 h0 Ew Eh)) as Hf. rewrite can_publish.
  destruct (EnableFor true (attributes_of a) h0) as [task h1]. cbn [snd] in Hf.
  intros Ew1 Eh1. assert (H : <[t := mkWriter (w_type w0) (w_attr w0) (w_init w0) (Some h1) (w_conn w0)]> (writers p) !! t = Some w)
    by (by destruct task as [[o msgs]|]).
  rewrite lookup_insert_eq in H. injection H as <-. by injection Eh1 as <-.
Qed.

(** A writer object is put in place: initialised or not. *)
Lemma put_writer_base t w s' p :
  base_inv p -> (t < next_handle p)%nat ->
  signal_ok s' -> (forall l a c, endpoint p l a c -> l <> WriterAt t -> heard s' c l) ->
  (forall h, transmitter_ w = Some h ->
     t_mode h = mode /\ channel_name (t_attr h) = str_of (Role.channel_name (w_attr w)) /\ here E (t_attr h) /\
     forall m, m ∈ dom (transmitters_ h) -> m ∈ modes mode) ->
  writer_made w ->
  (w_init w = true -> is_Some (transmitter_ w) /\ attr_ok (e_hash E) allowed (w_attr w) /\ own (w_attr w) /\ heard s' (w_conn w) (WriterAt t) /\
     (rt = ROLE_WRITER -> forall l a c, endpoint p l a c -> role_of l = rt -> l <> WriterAt t -> Role.id a <> Role.id (w_attr w))) ->
  base_inv (with_signal s' (with_writer t w p)).
Proof.
  intros HB Hlt Hs' Hheard Hst Hmade Hw.
  assert (He : forall l a c, endpoint (with_signal s' (with_writer t w p)) l a c ->
    (l = WriterAt t /\ w_init w = true /\ a = w_attr w /\ c = w_conn w) \/ (l <> WriterAt t /\ endpoint p l a c)).
  { intros [t'|r] a c; cbn [endpoint with_signal with_writer writers readers]; [|by right].
    intros (w' & Ew & H). destruct (decide (t' = t)) as [->|Hne].
    - rewrite lookup_insert_eq in Ew. injection Ew as <-. by left.
    - rewrite lookup_insert_ne in Ew by done. right. split; [congruence|by exists w']. }
  destruct HB as [B1 B2 B3 B4 B5 B6 B7 B8 B9 B10 B11 B12 B13 B14 B15]. split; try done.
  - destruct B2 as [Q1 Q2]. split; [|done]. intros t' w' h. cbn [with_signal with_writer writers]. destruct (decide (t' = t)) as [->|Hne].
    + rewrite lookup_insert_eq. intros [= <-]. apply Hst.
    + rewrite lookup_insert_ne by done. apply Q1.
  - intros l a c Hl. apply He in Hl as [(-> & Hi & -> & ->)|[Hne Hl]].
    + by destruct (Hw Hi) as (_ & H1 & H2 & H3 & _).
    + destruct (B4 l a c Hl) as (H1 & H2 & _). split; [done|]. split; [done|]. by apply (Hheard l a c).
  - intros t' w'. cbn [with_signal with_writer writers]. destruct (decide (t' = t)) as [->|Hne].
    + rewrite lookup_insert_eq. intros [= <-] Hi. by apply Hw.
    + rewrite lookup_insert_ne by done. apply B5.
  - intros l l' a a' c c' Hl Hl' R1 R2 Hid. apply He in Hl as [(-> & Hi & -> & ->)|[Hne Hl]], Hl' as [(-> & Hi' & -> & ->)|[Hne' Hl']].
    + done.
    + destruct (Hw Hi) as (_ & _ & _ & _ & H). by destruct (H (eq_sym R1) _ _ _ Hl' R2 Hne').
    + destruct (Hw Hi') as (_ & _ & _ & _ & H). by destruct (H (eq_sym R2) _ _ _ Hl R1 Hne).
    + by apply (B8 l l' a a' c c').
  - intros h Hh. destruct (B11 h Hh) as [H1 H2]. cbn [with_signal with_writer writers readers next_handle] in *.
    rewrite lookup_insert_ne by lia. done.
  - destruct B12 as [D1 D2 D3 D4]. by split.
  - intros t' w'. cbn [with_signal with_writer writers]. destruct (decide (t' = t)) as [->|Hne].
    + rewrite lookup_insert_eq. by intros [= <-].
    + rewrite lookup_insert_ne by done. apply B14.
Qed.

Lemma base_names gd p : base_inv p -> names_ok gd -> base_inv (with_names gd p).
Proof.
  intros [B1 [] B3 B4 B5 B6 B7 B8 B9 B10 B11 [] B13 B14 B15] Hgd. split; try done; by split.
Qed.

Lemma disp_ok_ext p p' : receiver_map_ p' = receiver_map_ p -> dispatchers p' = dispatchers p -> disp_ok E p -> disp_ok E p'.
Proof.
  intros E1 E2 (reg & Hd & Hreg). exists reg. rewrite E2. split; [done|]. intros m ch key e. rewrite Hreg. unfold registered. by rewrite E1.
Qed.

Lemma peer_complete l p s : peer_inv (Some l) p s -> (forall a c, endpoint p l a c -> role_of l = rt -> a ∈ attrs rt s) -> peer_inv None p s.
Proof.
  intros [P1 P2 P3 P7 P4 P5 P6] H. split; try done. intros l' a c He Hr _.
  destruct (decide (Some l = Some l')) as [[= ->]|Hne]; [by apply (H a c)|by apply (P6 l' a c)].
Qed.

Lemma with_writer_twice t w w' p : with_writer t w' (with_writer t w p) = with_writer t w' p.
Proof. unfold with_writer. cbn. by rewrite insert_insert_eq. Qed.

(** A new transmitter that was switched on for the readers of its channel follows all readers. *)
Lemma follows_channel (h : HybridTransmitter V) s name l :
  roles_ok (e_hash E) allowed rt s -> channel_name (t_attr h) = name ->
  (forall a, a ∈ l <-> a ∈ attrs ROLE_READER s /\ Role.channel_name a = Some name) ->
  follows (reverse (attributes_of <$> l) ++ []) h -> follows (peers_of ROLE_READER s) h.
Proof.
  intros Hok Hc Hl. apply follows_related. intros b m Hm%peer_mode_channel. rewrite app_nil_r, elem_of_reverse.
  rewrite list_elem_of_fmap, in_peers. split; [intros (a & -> & [Ha _]%Hl); by exists a|].
  intros (a & Ha & ->). exists a. split; [done|]. apply Hl. split; [done|].
  destruct (ao_channel _ _ _ (ro_ok _ _ _ _ Hok _ _ Ha)) as (c & Ec & _). unfold attributes_of in Hm. cbn in Hm. rewrite Ec in *.
  cbn in Hm. congruence.
Qed.

Lemma writer_init now identity t w p s :
  Inv p s -> (t < next_handle p)%nat -> writers p !! t = Some w -> w_init w = false -> filled (w_attr w) ->
  (rt = ROLE_WRITER -> forall a, a ∈ attrs ROLE_WRITER s -> Role.id a <> Some (hash_value_ identity)) ->
  exists p' s', WriterInit E now identity t p = Some (true, p') /\ Inv p' s' /\ next_handle p' = next_handle p /\ nodes p' = nodes p.
Proof.
  intros (HB & HP & Hcm) Hlt Ew Hi Hf Hfresh. unfold WriterInit, CreateTransmitter. rewrite Ew, Hi, (bi_up _ HB).
  set (h := transmitter_new identity (e_limit E) (e_modes E) (attributes_of (modified_attr (e_pid E) (w_attr w)))).
  set (a := set_id (hash_value_ (t_id h)) (w_attr w)). destruct (filled_set_id (hash_value_ (t_id h)) _ Hf) as [Ha Hown]. fold a in Ha, Hown.
  destruct (fi_channel _ Hf) as (name & En & Hname & _).
  assert (Hh : t_mode h = mode /\ channel_name (t_attr h) = str_of (Role.channel_name a) /\ here E (t_attr h) /\
    forall m, m ∈ dom (transmitters_ h) -> m ∈ modes mode).
  { destruct (filled_endpoint identity _ Hf) as (H1 & _ & H2). split_and!; try done. intros m [e Em]%elem_of_dom. cbn [h transmitter_new transmitters_] in Em.
    rewrite table_lookup in Em. by case_decide. }
  unfold WriterJoinTheTopology. cbn [w_type w_attr w_init w_conn transmitter_].
  destruct (Connect (Some (WriterAt t)) (signal (with_writer t _ p))) as [c s1] eqn:Ec. cbn [signal with_writer] in Ec.
  rewrite with_writer_twice. set (w1 := mkWriter (w_type w) a true (Some h) c). set (p1 := with_signal s1 (with_writer t w1 p)).
  assert (Es : s1 = snd (Connect (Some (WriterAt t)) (signal p)) /\ c = fst (Connect (Some (WriterAt t)) (signal p))) by (by rewrite Ec).
  destruct Es as [Es Eco].
  assert (HB1 : base_inv p1).
  { apply put_writer_base; try done.
    - rewrite Es. apply connect_ok, HB.
    - intros l a' c' He _. rewrite Es. apply heard_connect. by apply (bi_end _ HB l a' c').
    - intros h' [= <-]. exact Hh.
    - by apply filled_again.
    - intros _. split; [by exists h|]. split; [done|]. split; [done|]. split; [cbn [w1 w_conn]; rewrite Eco, Es; apply heard_new|].
      intros Hrt l a' c' He Hr Hne Hid. apply (Hfresh Hrt a'); [|done]. rewrite <- Hrt. by apply (pi_in _ _ _ HP l a' c'). }
  destruct (peers_of_channel (GetReadersOfChannel (e_hash E)) ROLE_READER channel_readers_ name (names p1) (manager p1) s)
    as (l & gd & Eq & Hgd & Hl); [done|apply Hcm|apply HP|apply HB1|done|].
  change (Role.channel_name a) with (Role.channel_name (w_attr w)). rewrite En. change (str_of (Some name)) with name.
  rewrite Eq. cbn [mbind option_bind].
  destruct (enable_all t l (with_names gd p1)) as (S2 & M2 & R2 & D2 & W2 & T2). set (p2 := fold_left _ l (with_names gd p1)) in *.
  assert (HB2 : base_inv p2) by (apply (same_base (with_names gd p1)); [done|by apply base_names]).
  assert (Hother : forall l a' c', endpoint p2 l a' c' -> l <> WriterAt t -> endpoint p l a' c').
  { intros l' a' c' He%(same_endpoint (with_names gd p1)) Hne; [|done]. destruct l' as [t'|r']; [|done].
    destruct He as (w' & E' & He). cbn [with_names p1 with_signal with_writer writers] in E'. rewrite lookup_insert_ne in E' by congruence. by exists w'. }
  assert (HP2 : peer_inv (Some (WriterAt t)) p2 s).
  { destruct HP as [P1 P2 P3 P7 P4 P5 P6]. split; try done.
    - by apply (disp_ok_ext p).
    - intros k i h'. rewrite R2. apply P7.
    - intros Hrt t' a' c' He. destruct (decide (t' = t)) as [->|Hne].
      + intros w' h' E' Eh'. pose proof (sm_writers _ _ S2 t) as Hc. rewrite E' in Hc.
        cbn [with_names p1 with_signal with_writer writers] in Hc. rewrite lookup_insert_eq in Hc.
        apply (inj Some) in Hc. unfold writer_core in Hc. rewrite Eh' in Hc. injection Hc as _ _ _ _ _ Eta _ _.
        rewrite Hrt. apply (follows_channel h' s name l P2); [|done|].
        { rewrite Eta. etrans; [exact (proj1 (proj2 Hh))|]. unfold a. cbn. by rewrite En. }
        refine (T2 [] _ w' h' E' Eh'). intros w0 h0. cbn [with_names p1 with_signal with_writer writers]. rewrite lookup_insert_eq.
        intros [= <-] [= <-]. apply follows_new.
      + intros w' h'. rewrite W2 by done. cbn [with_names p1 with_signal with_writer writers]. rewrite lookup_insert_ne by done.
        apply (P4 Hrt t' a' c'). apply Hother; [done|congruence].
    - intros Hrt r rd k. rewrite (sm_readers _ _ S2). intros Er Hir Ek i' h'. rewrite R2. by apply (P5 Hrt r rd).
    - intros l' a' c' He Hr Hx. apply (P6 l' a' c'); [|done|done]. apply Hother; [done|congruence]. }
  set (f := fun cm => snd (Join (e_serialize E) (e_write E) now a ROLE_WRITER (HasSerializer E (w_type w)) cm)).
  destruct (own_names a Hown) as [Hho Hpi].
  destruct (cm_join several (e_host E) (e_pid E) a ROLE_WRITER now ltac:(by destruct (ao_channel _ _ _ Ha) as (? & -> & _))
    ltac:(by destruct (ao_channel _ _ _ Ha) as (? & _ & _ & ->)) ltac:(apply Ha) ltac:(apply Ha) Hho Hpi ltac:(by left)
    (e_serialize E) (e_write E) (HasSerializer E (w_type w)) (manager p2) s ltac:(by rewrite M2)) as [Hcm3 Hn3].
  fold f in Hcm3, Hn3. set (msg := Convert now a ROLE_WRITER OPT_JOIN (cm_base (manager p2))) in *.
  assert (Emsg : role_attr msg = a) by by apply Convert_id.
  destruct (manage_inv (Some (WriterAt t)) f [msg] s _ p2 HB2 HP2 Hcm3 Hn3 eq_refl) as (S3 & M3 & HB3 & HP3 & Hcm4).
  { split; [|done]. split; [by left|by rewrite Emsg| |done]. intros Hrt _ b Hb. rewrite Emsg. cbn. rewrite <- Hrt in Hb. by apply Hfresh. }
  { by repeat constructor. }
  eexists _, _. split; [reflexivity|]. split; [|by rewrite (sm_handle _ _ S3), (sm_nodes _ _ S3), (sm_handle _ _ S2), (sm_nodes _ _ S2)].
  split; [exact HB3|]. split; [|exact Hcm4]. apply (peer_complete (WriterAt t)); [exact HP3|].
  intros a' c' He%(same_endpoint p2) Hr; [|done]. apply (same_endpoint (with_names gd p1)) in He; [|done].
  destruct He as (w' & E' & _ & -> & _). cbn [with_names p1 with_signal with_writer writers] in E'. rewrite lookup_insert_eq in E'.
  injection E' as <-. cbn [w1 w_attr]. rewrite attrs_join; [|done|by rewrite <- Hr|done]. rewrite Emsg. by apply elem_of_cons; left.
Qed.

(** Changes that leave the manager's roles alone, of a writer that is not initialised. *)
Lemma put_writer_peer x t w s' p s : peer_inv x p s -> w_init w = false -> peer_inv x (with_signal s' (with_writer t w p)) s.
Proof.
  intros [P1 P2 P3 P7 P4 P5 P6] Hi.
  assert (He : forall l a c, endpoint (with_signal s' (with_writer t w p)) l a c -> l <> WriterAt t /\ endpoint p l a c).
  { intros [t'|r] a c; cbn [endpoint with_signal with_writer writers readers]; [|done]. intros (w' & Ew & H).
    destruct (decide (t' = t)) as [->|Hne]; [rewrite lookup_insert_eq in Ew; injection Ew as <-; rewrite Hi in H; by destruct H|].
    rewrite lookup_insert_ne in Ew by done. split; [congruence|by exists w']. }
  split; try done.
  - intros Hrt t' a c H. apply He in H as [Hne H]. intros w' h'. cbn [with_signal with_writer writers].
    rewrite lookup_insert_ne by congruence. by apply (P4 Hrt t' a c).
  - intros l a c H. apply He in H as [_ H]. by apply (P6 l a c).
Qed.

(** Whoever else is connected stays so. *)
Lemma others_heard l0 a0 c0 p : base_inv p -> endpoint p l0 a0 c0 ->
  forall l a c, endpoint p l a c -> l <> l0 -> heard (snd (Disconnect c0 (signal p))) c l.
Proof.
  intros HB H0 l a c He Hne. destruct (bi_end _ HB _ _ _ H0) as (_ & _ & Hh0). destruct (bi_end _ HB _ _ _ He) as (_ & _ & Hh).
  apply heard_disconnect; [apply HB|done|]. intros ->. by destruct (heard_unique _ _ _ _ (bi_signal _ HB) Hh Hh0).
Qed.

(** A leave of an endpoint of the process itself. *)
Lemma leave_manages x l0 a now s p :
  base_inv p -> peer_inv x p s -> cm_ok (e_host E) (e_pid E) (manager p) s ->
  attr_ok (e_hash E) allowed a -> own a -> role_of l0 = ROLE_WRITER \/ role_of l0 = ROLE_READER ->
  (role_of l0 = rt -> a ∈ attrs rt s) -> (role_of l0 = rt -> forall l b c, endpoint p l b c -> role_of l = rt -> Role.id b <> Role.id a) ->
  let f := fun cm => snd (Leave (e_serialize E) (e_write E) now a (role_of l0) cm) in
  let p' := manage E f p in
  exists s', same p p' /\ base_inv p' /\ peer_inv x p' s' /\ cm_ok (e_host E) (e_pid E) (manager p') s'.
Proof.
  intros HB HP Hcm Ha Hown Hr0 Hin Hids. cbv zeta. destruct (own_names a Hown) as [Hho Hpi].
  destruct (cm_leave several (e_host E) (e_pid E) a (role_of l0) now ltac:(by destruct (ao_channel _ _ _ Ha) as (? & -> & _))
    ltac:(by destruct (ao_channel _ _ _ Ha) as (? & _ & _ & ->)) ltac:(apply Ha) ltac:(apply Ha) Hho Hpi Hr0
    (e_serialize E) (e_write E) (manager p) s Hcm) as [Hcm1 Hn1].
  set (f := fun cm => snd (Leave (e_serialize E) (e_write E) now a (role_of l0) cm)) in *.
  set (msg := Convert now a (role_of l0) OPT_LEAVE (cm_base (manager p))) in *.
  assert (Emsg : role_attr msg = a) by by apply Convert_id.
  destruct (manage_inv x f [msg] s _ p HB HP Hcm1 Hn1 eq_refl) as (S1 & M1 & HB1 & HP1 & Hcm2).
  - split; [|done]. split; [done|by rewrite Emsg|done|]. intros Hrt _ b Hb. rewrite Emsg. intros Hid.
    by apply (ro_unique _ _ _ _ (pi_roles _ _ _ HP)); [|apply Hin|].
  - constructor; [|done]. intros _ Hrt l b c He Hr _. rewrite Emsg. intros ->. by apply (Hids Hrt l a c He Hr).
  - by eexists.
Qed.

Lemma with_signal_same p : with_signal (signal p) p = p.
Proof. by destruct p. Qed.

Lemma writer_shutdown now t p s : Inv p s ->
  exists s', Inv (WriterShutdown E now t p) s' /\ next_handle (WriterShutdown E now t p) = next_handle p /\ nodes (WriterShutdown E now t p) = nodes p.
Proof.
  intros (HB & HP & Hcm). unfold WriterShutdown. destruct (writers p !! t) as [w|] eqn:Ew; [|by exists s].
  destruct (w_init w) eqn:Hi; [|by exists s]. cbn [negb].
  assert (He0 : endpoint p (WriterAt t) (w_attr w) (w_conn w)) by (by exists w).
  destruct (bi_end _ HB _ _ _ He0) as (Ha & Hown & Hh).
  assert (Hlt : (t < next_handle p)%nat).
  { apply Nat.lt_nge. intros Hge. by destruct (bi_handles _ HB t Hge) as [Hn _]; rewrite Ew in Hn. }
  unfold WriterLeaveTheTopology. cbn [w_conn w_attr signal with_writer].
  destruct (Disconnect (w_conn w) (signal p)) as [b s1] eqn:Ed. set (w1 := mkWriter (w_type w) (w_attr w) false (transmitter_ w) (w_conn w)).
  assert (Es : s1 = snd (Disconnect (w_conn w) (signal p))) by by rewrite Ed.
  set (p1 := with_signal s1 (with_writer t w1 p)).
  assert (HB1 : base_inv p1).
  { apply put_writer_base; try done.
    - rewrite Es. apply disconnect_all_ok, HB.
    - intros l a c He Hne. rewrite Es. by apply (others_heard (WriterAt t) (w_attr w) _ p HB He0 l a c).
    - intros h Eh. by apply (st_writer _ _ _ _ (bi_static _ HB) t w).
    - by apply (bi_writer _ HB t w). }
  assert (HP1 : peer_inv None p1 s) by by apply put_writer_peer.
  assert (Hgone : forall l a c, endpoint p1 l a c -> l <> WriterAt t /\ endpoint p l a c).
  { intros [t'|r] a c; cbn [p1 endpoint with_signal with_writer writers readers]; [|done]. intros (w' & Ew' & H).
    destruct (decide (t' = t)) as [->|Hne]; [rewrite lookup_insert_eq in Ew'; injection Ew' as <-; by destruct H|].
    rewrite lookup_insert_ne in Ew' by done. split; [congruence|by exists w']. }
  destruct (leave_manages None (WriterAt t) (w_attr w) now s p1) as (s' & S2 & HB2 & HP2 & Hcm2); try done.
  { by left. }
  { intros Hrt. by apply (pi_in _ _ _ HP (WriterAt t) _ (w_conn w)). }
  { intros Hrt l b' c He Hr Hid. apply Hgone in He as [Hne He]. apply Hne. by apply (bi_ids _ HB l (WriterAt t) b' (w_attr w) c (w_conn w)). }
  cbn [role_of] in *. set (p2 := manage E _ p1) in *. exists s'.
  split; [|by cbn [with_writer next_handle nodes]; rewrite (sm_handle _ _ S2), (sm_nodes _ _ S2)].
  assert (Ef : forall (q : Process) w', with_writer t w' q = with_signal (signal q) (with_writer t w' q)) by (by intros []).
  rewrite Ef. split; [|split; [by apply put_writer_peer|done]].
  apply put_writer_base; try done; [by rewrite (sm_handle _ _ S2)|apply HB2|intros l a c He _; by apply (bi_end _ HB2 l a c)|].
  by apply (bi_writer _ HB t w).
Qed.

(** ** Readers *)

Lemma reads_extends keep d d' rd ch id n :
  extends keep d d' -> keep id -> reads d rd ch id n -> reads d' rd ch id n.
Proof.
  intros [X1 X2 X3 X4 X5 X6] Hk (H1 & H2 & H3 & H4 & (l & H5 & H6) & (l' & H7 & H8)). pose proof (hash_u64 ch) as Hc.
  split; [done|]. split; [by apply X4|]. split; [lia|]. split; [by apply X3|]. split; eauto.
Qed.

(** The data of the readers, when one of them and the world change. *)
Lemma data_put keep r rd d p :
  data_ok p -> world_wf d -> extends keep (data p) d ->
  (forall r' rd' v id, r' <> r -> readers p !! r' = Some rd' -> rd_init rd' = true -> rd_visitor rd' = Some v -> id ∈ v_ids v -> keep id) ->
  (rd_init rd = true -> exists ch id n, Role.channel_name (rd_attr rd) = Some ch /\ rd_type rd = chan_type ch /\ reads d rd ch id n /\
     forall r' rd' v, r' <> r -> readers p !! r' = Some rd' -> rd_init rd' = true -> rd_visitor rd' = Some v -> v_ids v <> [id]) ->
  data_ok (with_reader r rd (with_data d p)).
Proof.
  intros [D1 D2 D3 D4] Hwf Hex Hkeep Hnew.
  split; cbn [with_reader with_data data readers]; [done|by rewrite (ex_up _ _ _ Hex)| |].
  - intros r' rd'. destruct (decide (r' = r)) as [->|Hne].
    + rewrite lookup_insert_eq. intros [= <-] Hi. destruct (Hnew Hi) as (ch & id & n & H1 & H2 & H3 & _). by exists ch, id, n.
    + rewrite lookup_insert_ne by done. intros Er Hi. destruct (D3 r' rd' Er Hi) as (ch & id & n & H1 & H2 & H3). exists ch, id, n.
      split; [done|]. split; [done|]. apply (reads_extends keep (data p)); [done| |done].
      destruct H3 as ((pos & Ev) & _). apply (Hkeep r' rd' _ id Hne Er Hi Ev). by left.
  - assert (Hsep : forall r' rd' v v', r' <> r -> readers p !! r' = Some rd' -> rd_init rd' = true -> rd_init rd = true ->
      rd_visitor rd' = Some v -> rd_visitor rd = Some v' -> v_ids v = v_ids v' -> False).
    { intros r' rd' v v' Hne Er Hi Hi0 Ev Ev' Eq. destruct (Hnew Hi0) as (ch & id & n & _ & _ & ((pos & Ev0) & _) & Hd).
      rewrite Ev0 in Ev'. injection Ev' as <-. by apply (Hd r' rd' v Hne Er Hi Ev). }
    intros r1 r2 rd1 rd2 v1 v2. destruct (decide (r1 = r)) as [->|N1], (decide (r2 = r)) as [->|N2]; [done|..];
      rewrite ?lookup_insert_eq, ?lookup_insert_ne by done; intros E1 E2 I1 I2 V1 V2 Eq.
    + injection E1 as <-. by destruct (Hsep r2 rd2 v2 v1).
    + injection E2 as <-. by destruct (Hsep r1 rd1 v1 v2).
    + by apply (D4 r1 r2 rd1 rd2 v1 v2).
Qed.

(** The names of the tasks are those of the initialised readers. *)
Definition tasks_ok (rs : gmap nat (Reader V)) (ts : T) : Prop :=
  exists names, t_inv names ts /\
    (forall n, n ∈ names <-> exists r rd, rs !! r = Some rd /\ rd_init rd = true /\ croutine_name_ rd = n) /\
    (forall r r' rd rd', rs !! r = Some rd -> rs !! r' = Some rd' -> rd_init rd = true -> rd_init rd' = true ->
       croutine_name_ rd = croutine_name_ rd' -> r = r').

Lemma put_reader_base r rd s' d ts p :
  base_inv p -> (r < next_handle p)%nat -> signal_ok s' ->
  (forall l a c, endpoint p l a c -> l <> ReaderAt r -> heard s' c l) ->
  (forall k, receiver_ rd = Some k -> str_of (Role.channel_name (rd_attr rd)) = snd k) ->
  data_ok (with_reader r rd (with_data d p)) -> tasks_ok (<[r := rd]> (readers p)) ts -> reader_made rd ->
  (rd_init rd = true -> (exists k i h, receiver_ rd = Some k /\ receiver_map_ p !! k = Some (i, h) /\
       Role.id (rd_attr rd) = Some (hash_value_ i) /\ croutine_name_ rd <> "") /\
     attr_ok (e_hash E) allowed (rd_attr rd) /\ own (rd_attr rd) /\ heard s' (rd_conn rd) (ReaderAt r) /\
     (rt = ROLE_READER -> forall l a c, endpoint p l a c -> role_of l = rt -> l <> ReaderAt r -> Role.id a <> Role.id (rd_attr rd))) ->
  base_inv (with_signal s' (with_reader r rd (with_data d (with_tasks ts p)))).
Proof.
  intros HB Hlt Hs' Hheard Hk Hd Ht Hmade Hw. set (p' := with_signal _ _).
  assert (He : forall l a c, endpoint p' l a c ->
    (l = ReaderAt r /\ rd_init rd = true /\ a = rd_attr rd /\ c = rd_conn rd) \/ (l <> ReaderAt r /\ endpoint p l a c)).
  { intros [t|r'] a c; cbn [p' endpoint with_signal with_reader with_data with_tasks writers readers]; [by right|].
    intros (rd' & Ew & H). destruct (decide (r' = r)) as [->|Hne].
    - rewrite lookup_insert_eq in Ew. injection Ew as <-. by left.
    - rewrite lookup_insert_ne in Ew by done. right. split; [congruence|by exists rd']. }
  destruct HB as [B1 B2 B3 B4 B5 B6 B7 B8 B9 B10 B11 B12 B13 B14 B15]. split; try done.
  - by destruct B2 as [Q1 Q2].
  - intros l a c Hl. apply He in Hl as [(-> & Hi & -> & ->)|[Hne Hl]].
    + by destruct (Hw Hi) as (_ & H1 & H2 & H3 & _).
    + destruct (B4 l a c Hl) as (H1 & H2 & _). split; [done|]. split; [done|]. by apply (Hheard l a c).
  - intros r' rd'. cbn [p' with_signal with_reader with_data with_tasks readers]. destruct (decide (r' = r)) as [->|Hne].
    + rewrite lookup_insert_eq. intros [= <-] Hi. by apply Hw.
    + rewrite lookup_insert_ne by done. apply B6.
  - intros r' rd' k. cbn [p' with_signal with_reader with_data with_tasks readers]. destruct (decide (r' = r)) as [->|Hne].
    + rewrite lookup_insert_eq. intros [= <-]. apply Hk.
    + rewrite lookup_insert_ne by done. apply B7.
  - intros l l' a a' c c' Hl Hl' R1 R2 Hid. apply He in Hl as [(-> & Hi & -> & ->)|[Hne Hl]], Hl' as [(-> & Hi' & -> & ->)|[Hne' Hl']].
    + done.
    + destruct (Hw Hi) as (_ & _ & _ & _ & H). by destruct (H (eq_sym R1) _ _ _ Hl' R2 Hne').
    + destruct (Hw Hi') as (_ & _ & _ & _ & H). by destruct (H (eq_sym R2) _ _ _ Hl R1 Hne).
    + by apply (B8 l l' a a' c c').
  - intros h Hh. destruct (B11 h Hh) as [H1 H2]. cbn [p' with_signal with_reader with_data with_tasks writers readers next_handle] in *.
    rewrite lookup_insert_ne by lia. done.
  - destruct Hd as [D1 D2 D3 D4]. by split.
  - intros r' rd'. cbn [p' with_signal with_reader with_data with_tasks readers]. destruct (decide (r' = r)) as [->|Hne].
    + rewrite lookup_insert_eq. by intros [= <-].
    + rewrite lookup_insert_ne by done. apply B15.
Qed.

(** A name that is freed or taken. *)
Lemma tasks_put_idle r rd rs ts : tasks_ok rs ts -> rd_init rd = false -> (forall rd0, rs !! r = Some rd0 -> rd_init rd0 = false) ->
  tasks_ok (<[r := rd]> rs) ts.
Proof.
  intros (names & H1 & H2 & H3) Hi H0. exists names. split; [done|].
  assert (Hother : forall r' rd', (<[r := rd]> rs : gmap nat (Reader V)) !! r' = Some rd' -> rd_init rd' = true -> r' <> r /\ rs !! r' = Some rd').
  { intros r' rd'. destruct (decide (r' = r)) as [->|Hne]; [rewrite lookup_insert_eq; congruence|by rewrite lookup_insert_ne]. }
  split.
  - intros n. rewrite H2. split; intros (r' & rd' & E1 & I1 & En); exists r', rd'; (split; [|done]).
    + rewrite lookup_insert_ne; [done|]. intros ->. by rewrite (H0 rd' E1) in I1.
    + by apply Hother in E1 as [_ E1].
  - intros r1 r2 rd1 rd2 E1 E2 I1 I2. apply Hother in E1 as [_ E1]; [|done]. apply Hother in E2 as [_ E2]; [|done]. by apply (H3 r1 r2 rd1 rd2).
Qed.

Lemma enable_all_receivers k (l : list RoleAttributes) p :
  static E allowed chan_type p -> disp_ok E p -> tables_ok p ->
  let p' := fold_left (fun p a => receiver_enable k a p) l p in
  same p p' /\ manager p' = manager p /\ writers p' = writers p /\ disp_ok E p' /\ tables_ok p' /\
  (forall k', k' <> k -> receiver_map_ p' !! k' = receiver_map_ p !! k') /\
  (forall Y, listens k Y p -> listens k (reverse (attributes_of <$> l) ++ Y) p').
Proof.
  revert p. induction l as [|a l IH]; intros p Hst Hd Ht; [done|]. cbn [fold_left].
  assert (S1 : same p (receiver_enable k a p)) by apply receiver_enable_same.
  destruct (IH (receiver_enable k a p)) as (S2 & M2 & W2 & D2 & T2 & O2 & L2).
  { by apply (same_static E allowed chan_type p). }
  { by apply (receiver_enable_disp E allowed chan_type). }
  { intros k'. destruct (decide (k' = k)) as [->|Hne].
    - eapply listens_ext; [done| |apply (receiver_enable_listens k a []), Ht]. intros b Hb. by apply elem_of_nil in Hb.
    - eapply listens_ext; [by apply receiver_enable_other|done|apply Ht]. }
  assert (H1 : manager (receiver_enable k a p) = manager p /\ writers (receiver_enable k a p) = writers p)
    by (unfold receiver_enable; by repeat case_match).
  destruct H1 as [M1 W1]. split; [by etrans|]. split; [congruence|]. split; [congruence|]. split; [done|]. split; [done|]. split.
  - intros k' Hne. by rewrite O2, receiver_enable_other.
  - intros Y HY. rewrite fmap_cons, reverse_cons, <- app_assoc. by apply L2, receiver_enable_listens.
Qed.

(** ** The receiver of a channel *)

Lemma new_receiver_tables (i : Identity) a (l : rkey) m x : default ∅ (r_transmitters (receiver_new i (e_modes E) a l) !! m) !! x = None.
Proof. cbn [receiver_new r_transmitters]. rewrite table_lookup. by case_decide. Qed.

(** A receiver is put at a free key. *)
Lemma with_receiver_inv x k i h p s :
  base_inv p -> peer_inv x p s -> receiver_map_ p !! k = None ->
  r_mode h = mode -> r_listener h = k -> channel_name (r_attr h) = snd k -> channel_id (r_attr h) = e_hash E (snd k) ->
  snd k ∈ allowed -> fst k = chan_type (snd k) -> here E (r_attr h) -> hears [] h -> (forall m y, default ∅ (r_transmitters h !! m) !! y = None) ->
  let q := with_receiver k (i, h) (dispatchers p) p in base_inv q /\ peer_inv x q s.
Proof.
  intros HB HP Hk Hm Hl Hc Hcid Hin Hty Hhere Hh Hempty. cbv zeta.
  assert (Hlk : forall k', is_Some (receiver_map_ p !! k') -> receiver_map_ (with_receiver k (i, h) (dispatchers p) p) !! k' = receiver_map_ p !! k').
  { intros k' [e Ek']. cbn [with_receiver receiver_map_]. rewrite lookup_insert_ne; [done|]. intros ->. congruence. }
  split.
  - destruct HB as [B1 B2 B3 B4 B5 B6 B7 B8 B9 B10 B11 [] B13 B14 B15]. split; try done.
    + destruct B2 as [Q1 Q2]. split; [done|]. intros k' i' h'. cbn [with_receiver receiver_map_]. destruct (decide (k' = k)) as [->|Hne].
      * rewrite lookup_insert_eq. by intros [= <- <-].
      * rewrite lookup_insert_ne by done. apply Q2.
    + intros r rd Er Hi. destruct (B6 r rd Er Hi) as (k' & i' & h' & E1 & E2 & E3). exists k', i', h'. by rewrite Hlk.
  - destruct HP as [P1 P2 P3 P7 P4 P5 P6]. split; try done.
    + destruct P3 as (reg & Hd & Hreg). exists reg. split; [done|]. intros m ch key e. rewrite Hreg. unfold registered. split.
      * intros (k' & i' & h' & om & y & E1 & H). exists k', i', h', om, y. rewrite Hlk by done. done.
      * intros (k' & i' & h' & om & y & E1 & H1 & H2 & H3 & H). exists k', i', h', om, y. cbn [with_receiver receiver_map_] in E1.
        destruct (decide (k' = k)) as [->|Hne]; [|by rewrite lookup_insert_ne in E1].
        rewrite lookup_insert_eq in E1. injection E1 as <- <-. rewrite Hempty in H3. by apply is_Some_None in H3.
    + intros k' i' h'. cbn [with_receiver receiver_map_]. destruct (decide (k' = k)) as [->|Hne].
      * rewrite lookup_insert_eq. by intros [= <- <-].
      * rewrite lookup_insert_ne by done. apply P7.
    + intros Hrt r rd k' Er Hi Ek' i' h'. destruct (bi_recv _ HB r rd Er Hi) as (k2 & i2 & h2 & E1 & E2 & _). assert (k2 = k') as -> by congruence.
      rewrite Hlk by done. by apply (P5 Hrt r rd).
Qed.

(** The identity that a new reader of a channel has. *)
Definition receiver_identity (identity : Identity) (k : rkey) (p : Process) : Identity :=
  match receiver_map_ p !! k with Some (i, _) => i | None => identity end.

Lemma get_receiver x identity a name d ts p s :
  base_inv p -> peer_inv x p s -> filled a -> Role.channel_name a = Some name ->
  let k := (chan_type name, name) in let i := receiver_identity identity k p in
  exists q h, GetReceiver E identity (chan_type name) a (with_data d (with_tasks ts p)) = Some (k, i, with_data d (with_tasks ts q)) /\
    base_inv q /\ peer_inv x q s /\ receiver_map_ q !! k = Some (i, h) /\
    manager q = manager p /\ signal q = signal p /\ names q = names p /\ readers q = readers p /\ writers q = writers p /\ data q = data p /\
    tasks q = tasks p /\ next_handle q = next_handle p /\ nodes q = nodes p.
Proof.
  intros HB HP Hf En. cbv zeta. unfold GetReceiver, receiver_identity. rewrite En. change (str_of (Some name)) with name.
  cbn [with_data with_tasks receiver_map_ shut_down dispatchers].
  destruct (receiver_map_ p !! (chan_type name, name)) as [[i h]|] eqn:Ek; [by exists p, h|]. rewrite (bi_up _ HB).
  set (h := receiver_new identity (e_modes E) (attributes_of (modified_attr (e_pid E) a)) (chan_type name, name)).
  destruct (fi_channel _ Hf) as (c & Ec & Hin & Ecid). assert (c = name) as -> by congruence.
  assert (Ha : channel_name (r_attr h) = name /\ channel_id (r_attr h) = e_hash E name /\ here E (r_attr h)).
  { destruct (filled_endpoint identity _ Hf) as (H1 & H2 & H3). rewrite Ec, Ecid in *. by split. }
  destruct (with_receiver_inv x (chan_type name, name) identity h p s HB HP Ek) as [HB1 HP1]; try done; try apply Ha.
  { apply hears_new. }
  { intros m y. apply new_receiver_tables. }
  exists (with_receiver (chan_type name, name) (identity, h) (dispatchers p) p), h. split; [done|]. split; [done|]. split; [done|].
  split; [|done]. cbn [with_receiver receiver_map_]. by rewrite lookup_insert_eq.
Qed.

(** The visitor of a new reader. *)
Lemma new_reads ty name q rd d : 
  world_wf d -> rd_type rd = ty -> rd_visitor rd = Some (make_visitor (mkVC ty (e_hash E name) q) [] d).1 ->
  let d' := RegisterNotifyCallback (S (next_id d)) (make_visitor (mkVC ty (e_hash E name) q) [] d).2 in
  (make_visitor (mkVC ty (e_hash E name) q) [] d).1 = mkDV [next_id d] (S (next_id d)) 0 /\
  world_wf d' /\ extends (fun _ => True) d d' /\ reads d' rd name (next_id d) (S (next_id d)).
Proof.
  intros Hw Ety Ev. cbv zeta. set (c := mkVC ty (e_hash E name) q) in *.
  pose proof (make_visitor_wf c [] d ltac:(constructor; [apply hash_u64|constructor]) Hw) as Hw1.
  pose proof (make_visitor_extends c d Hw (hash_u64 name)) as Hex.
  destruct (make_visitor_single c d Hw (hash_u64 name)) as (Hv & Hb & Hs & [l Hd] & [ln Hn]).
  assert (Hn1 : next_id (make_visitor c [] d).2 = S (S (next_id d))) by done.
  split; [done|]. split; [by apply register_wf|]. split; [eapply extends_trans; [exact Hex|apply register_extends]|].
  rewrite Hv in Ev. split; [by eexists|]. split; [by eexists; exact Hb|]. split; [cbn [RegisterNotifyCallback next_id]; rewrite Hn1; lia|].
  split; [apply elem_of_union; left; by apply elem_of_singleton|]. rewrite Ety. split; eexists; (split; [eassumption|]); apply elem_of_app; right; by left.
Qed.

(** The names of the tasks when a reader gets one, or gives it up. *)
Definition task_taken (name : string) (p : Process) : Prop :=
  exists r rd, readers p !! r = Some rd /\ rd_init rd = true /\ croutine_name_ rd = name.

Lemma tasks_take r rd p :
  base_inv p -> rd_init rd = true -> (forall rd0, readers p !! r = Some rd0 -> rd_init rd0 = false) ->
  exists ok ts, t_create (croutine_name_ rd) (tasks p) = (ok, ts) /\ (ok = false <-> task_taken (croutine_name_ rd) p) /\
    if ok then tasks_ok (<[r := rd]> (readers p)) ts else tasks_ok (readers p) ts.
Proof.
  intros HB Hi H0. destruct (bi_tasks _ HB) as (names & H1 & H2 & H3). destruct (decide (croutine_name_ rd ∈ names)) as [Hin|Hin].
  - destruct (t_create_taken names (tasks p) _ H1 Hin) as (ts & Et & Ht). exists false, ts. split; [done|]. split.
    + split; [|done]. intros _. by apply H2.
    + by exists names.
  - destruct (t_create_new names (tasks p) _ H1 Hin) as (ts & Et & Ht). exists true, ts. split; [done|]. split.
    + split; [done|]. intros Hn. by destruct Hin; apply H2.
    + exists ({[croutine_name_ rd]} ∪ names). split; [done|].
      assert (Hold : forall r' rd', r' <> r -> readers p !! r' = Some rd' -> rd_init rd' = true -> croutine_name_ rd' <> croutine_name_ rd).
      { intros r' rd' _ Er Hi' En. apply Hin. apply H2. by exists r', rd'. }
      split.
      * intros n. rewrite elem_of_union, elem_of_singleton, H2. split.
        -- intros [->|(r' & rd' & Er & Hi' & En)]; [exists r, rd; by rewrite lookup_insert_eq|]. exists r', rd'. rewrite lookup_insert_ne; [done|].
           intros ->. by rewrite (H0 rd' Er) in Hi'.
        -- intros (r' & rd' & Er & Hi' & En). destruct (decide (r' = r)) as [->|Hne].
           ++ rewrite lookup_insert_eq in Er. injection Er as <-. by left.
           ++ rewrite lookup_insert_ne in Er by done. right. by exists r', rd'.
      * intros r1 r2 rd1 rd2. destruct (decide (r1 = r)) as [->|N1], (decide (r2 = r)) as [->|N2]; [done|..];
          rewrite ?lookup_insert_eq, ?lookup_insert_ne by done; intros E1 E2 I1 I2 Eq.
        -- injection E1 as <-. by destruct (Hold r2 rd2 N2 E2 I2).
        -- injection E2 as <-. by destruct (Hold r1 rd1 N1 E1 I1).
        -- by apply (H3 r1 r2 rd1 rd2).
Qed.

(** Only readers that are not initialised change. *)
Lemma put_reader_peer x r rd s' d ts p s :
  peer_inv x p s -> rd_init rd = false -> peer_inv x (with_signal s' (with_reader r rd (with_data d (with_tasks ts p)))) s.
Proof.
  intros [P1 P2 P3 P7 P4 P5 P6] Hi. split; try done.
  - intros Hrt r' rd' k. cbn [with_signal with_reader with_data with_tasks readers]. destruct (decide (r' = r)) as [->|Hne].
    + rewrite lookup_insert_eq. intros [= <-]. congruence.
    + rewrite lookup_insert_ne by done. apply (P5 Hrt).
  - intros [t|r'] a c; [apply (P6 (WriterAt t))|]. cbn [endpoint with_signal with_reader with_data with_tasks readers]. destruct (decide (r' = r)) as [->|Hne].
    + rewrite lookup_insert_eq. intros (rd' & [= <-] & H). rewrite Hi in H. by destruct H.
    + rewrite lookup_insert_ne by done. apply (P6 (ReaderAt r')).
Qed.

Definition task_name (a : RoleAttributes) : string := str_of (node_name a) +:+ "_" +:+ str_of (Role.channel_name a).

Lemma task_name_nonempty a : task_name a <> "".
Proof. unfold task_name. by destruct (str_of (node_name a)). Qed.

Lemma with_reader_twice r rd rd' p : with_reader r rd' (with_reader r rd p) = with_reader r rd' p.
Proof. unfold with_reader. cbn. by rewrite insert_insert_eq. Qed.

(** Registrations keep the buffers of the readers that are there. *)
Lemma readers_keep r d p : base_inv p -> (next_id (data p) <= d)%nat ->
  forall r' rd' v id, r' <> r -> readers p !! r' = Some rd' -> rd_init rd' = true -> rd_visitor rd' = Some v -> id ∈ v_ids v -> (id < d)%nat.
Proof.
  intros HB Hd r' rd' v id _ Er Hi Ev Hin. destruct (do_reader _ (bi_data _ HB) r' rd' Er Hi) as (ch & id' & n & _ & _ & (pos & Ev') & _ & Hlt & _).
  assert (v = mkDV [id'] n pos) as -> by congruence. cbn in Hin. apply list_elem_of_singleton in Hin as ->. lia.
Qed.

(** A reader whose task's name is taken stays as it was. *)
Lemma reader_refused r rd rd0 name v d1 ts p s :
  Inv p s -> (r < next_handle p)%nat -> readers p !! r = Some rd0 -> rd_init rd0 = false -> rd_init rd = false ->
  receiver_ rd = receiver_ rd0 -> rd_attr rd = rd_attr rd0 -> rd_type rd = rd_type rd0 ->
  make_visitor (mkVC (rd_type rd0) (e_hash E name) (pending_queue_size_ rd0)) [] (data p) = (v, d1) ->
  tasks_ok (readers p) ts -> Inv (with_reader r rd (with_data (drop_visitor v d1) (with_tasks ts p))) s.
Proof.
  intros (HB & HP & Hcm) Hlt Er Hi0 Hi Erec Ea Ety Ev Hts.
  pose proof (make_visitor_wf (mkVC (rd_type rd0) (e_hash E name) (pending_queue_size_ rd0)) [] (data p)
    ltac:(constructor; [apply hash_u64|constructor]) (do_wf _ (bi_data _ HB))) as Hwf.
  pose proof (make_visitor_extends (mkVC (rd_type rd0) (e_hash E name) (pending_queue_size_ rd0)) (data p)
    (do_wf _ (bi_data _ HB)) (hash_u64 name)) as Hex.
  destruct (make_visitor_single (mkVC (rd_type rd0) (e_hash E name) (pending_queue_size_ rd0)) (data p)
    (do_wf _ (bi_data _ HB)) (hash_u64 name)) as (Hv & _).
  rewrite Ev in Hv, Hwf, Hex. cbn [fst snd] in *. subst v.
  set (p' := with_reader r rd _). assert (Ep : p' = with_signal (signal p) p') by done. rewrite Ep. split; [|split].
  - apply put_reader_base; try done.
    + apply HB.
    + intros l a c He _. by apply (bi_end _ HB l a c).
    + intros k. rewrite Erec, Ea. by apply (bi_chan _ HB r rd0).
    + apply (data_put (fun id => (id < next_id (data p))%nat)); try apply HB; try congruence.
      * by apply drop_wf.
      * destruct Hex as [X1 X2 X3 X4 X5 X6]. split; cbn [drop_visitor next_id is_shutdown callbacks buffers notifies_map_ v_ids]; try done.
        intros id Hid H. rewrite foldr_delete_lookup, decide_False; [by apply X4|]. intros ->%list_elem_of_singleton. lia.
      * by apply readers_keep.
    + apply tasks_put_idle; [done|done|]. intros rd1 E1. congruence.
    + unfold reader_made. rewrite Ea, Ety. by apply (bi_reader _ HB r).
    + congruence.
  - by apply put_reader_peer.
  - done.
Qed.

(** The receiver of a channel that was switched on for the writers of its channel hears all writers. *)
Lemma hears_channel (h : HybridReceiver rkey) s name l :
  roles_ok (e_hash E) allowed rt s -> channel_name (r_attr h) = name ->
  (forall a, a ∈ l <-> a ∈ attrs ROLE_WRITER s /\ Role.channel_name a = Some name) ->
  hears (reverse (attributes_of <$> l) ++ []) h -> hears (peers_of ROLE_WRITER s) h.
Proof.
  intros Hok Hc Hl. apply hears_related. intros b m Hm%peer_mode_channel (a & Ha & ->)%in_peers. rewrite app_nil_r, elem_of_reverse.
  apply list_elem_of_fmap. exists a. split; [done|]. apply Hl. split; [done|].
  destruct (ao_channel _ _ _ (ro_ok _ _ _ _ Hok _ _ Ha)) as (c & Ec & _). unfold attributes_of in Hm. cbn in Hm. rewrite Ec in *.
  cbn in Hm. congruence.
Qed.

Definition with_conn (c : Connection) (rd : Reader V) : Reader V :=
  mkReader (rd_type rd) (rd_attr rd) (rd_init rd) (pending_queue_size_ rd) (reader_func_ rd) (receiver_ rd) (croutine_name_ rd)
    (rd_visitor rd) c (blocker_ rd).

Section joining.
Context (now : Z) (r : nat) (rd : Reader V) (name : string) (i : Identity) (h : HybridReceiver rkey) (d : world V Map) (ts : T) (s : members) (q : Process).
Abbreviation k := (chan_type name, name).
Hypothesis HB : base_inv q.
Hypothesis HP : peer_inv None q s.
Hypothesis Hcm : cm_ok (e_host E) (e_pid E) (manager q) s.
Hypothesis Hlt : (r < next_handle q)%nat.
Hypothesis Hk : receiver_ rd = Some k.
Hypothesis Hrec : receiver_map_ q !! k = Some (i, h).
Hypothesis Ha : attr_ok (e_hash E) allowed (rd_attr rd).
Hypothesis Hown : own (rd_attr rd).
Hypothesis Hname : Role.channel_name (rd_attr rd) = Some name.
Hypothesis Hid : Role.id (rd_attr rd) = Some (hash_value_ i).
Hypothesis Htask : croutine_name_ rd <> "".
Hypothesis Hmade : reader_made rd.
Hypothesis Hdata : data_ok (with_reader r rd (with_data d q)).
Hypothesis Htasks : tasks_ok (<[r := rd]> (readers q)) ts.
Hypothesis Hfresh : rt = ROLE_READER -> forall a, a ∈ attrs ROLE_READER s -> Role.id a <> Some (hash_value_ i).

Let c := fst (Connect (Some (ReaderAt r)) (signal q)).
Let s1 := snd (Connect (Some (ReaderAt r)) (signal q)).
Let p1 := with_signal s1 (with_reader r (with_conn c rd) (with_data d (with_tasks ts q))).

(** Only the connection is new. *)
Lemma put_conn_ok : data_ok (with_reader r (with_conn c rd) (with_data d q)) /\ tasks_ok (<[r := with_conn c rd]> (readers q)) ts.
Proof.
  assert (Hin : forall r' rd', (<[r := with_conn c rd]> (readers q) : gmap nat (Reader V)) !! r' = Some rd' -> exists rd1,
    (<[r := rd]> (readers q) : gmap nat (Reader V)) !! r' = Some rd1 /\ rd_init rd1 = rd_init rd' /\ croutine_name_ rd1 = croutine_name_ rd' /\
    rd_visitor rd1 = rd_visitor rd' /\ rd_attr rd1 = rd_attr rd' /\ rd_type rd1 = rd_type rd').
  { intros r' rd'. destruct (decide (r' = r)) as [->|Hne].
    - rewrite !lookup_insert_eq. intros [= <-]. by exists rd.
    - rewrite !lookup_insert_ne by done. intros E1. by exists rd'. }
  assert (Hin' : forall r' rd', (<[r := rd]> (readers q) : gmap nat (Reader V)) !! r' = Some rd' -> exists rd1,
    (<[r := with_conn c rd]> (readers q) : gmap nat (Reader V)) !! r' = Some rd1 /\ rd_init rd1 = rd_init rd' /\ croutine_name_ rd1 = croutine_name_ rd').
  { intros r' rd'. destruct (decide (r' = r)) as [->|Hne].
    - rewrite !lookup_insert_eq. intros [= <-]. by exists (with_conn c rd).
    - rewrite !lookup_insert_ne by done. intros E1. by exists rd'. }
  split.
  - destruct Hdata as [D1 D2 D3 D4]. split; [done|done|..]; cbn [with_reader with_data readers data] in *.
    + intros r' rd' Er I. destruct (Hin r' rd' Er) as (rd1 & E1 & E2 & E3 & E4 & E5 & E6).
      destruct (D3 r' rd1 E1 ltac:(congruence)) as (ch & id & n & H1 & H2 & H3 & H4). exists ch, id, n.
      split; [congruence|]. split; [congruence|]. split; [destruct H3 as [pos H3]; exists pos; congruence|]. by rewrite <- E6.
    + intros r1 r2 rd1 rd2 v1 v2 E1 E2 I1 I2 V1 V2 Eq.
      destruct (Hin r1 rd1 E1) as (rd1' & A1 & A2 & A3 & A4 & _), (Hin r2 rd2 E2) as (rd2' & B1 & B2 & B3 & B4 & _).
      apply (D4 r1 r2 rd1' rd2' v1 v2); congruence.
  - destruct Htasks as (names & T1 & T2 & T3). exists names. split; [done|]. split.
    + intros n. rewrite T2. split.
      * intros (r' & rd' & Er & I & En). destruct (Hin' r' rd' Er) as (rd1 & E1 & E2 & E3). exists r', rd1. split; [done|]. split; congruence.
      * intros (r' & rd' & Er & I & En). destruct (Hin r' rd' Er) as (rd1 & E1 & E2 & E3 & _). exists r', rd1. split; [done|]. split; congruence.
    + intros r1 r2 rd1 rd2 E1 E2 I1 I2 Eq. destruct (Hin r1 rd1 E1) as (rd1' & A1 & A2 & A3 & _), (Hin r2 rd2 E2) as (rd2' & B1 & B2 & B3 & _).
      apply (T3 r1 r2 rd1' rd2'); congruence.
Qed.

Lemma joined_base : base_inv p1.
Proof.
  destruct put_conn_ok as [Hd Ht]. apply put_reader_base; try done.
  - apply connect_ok, HB.
  - intros l a' c' He _. apply heard_connect. by apply (bi_end _ HB l a' c').
  - intros k'. cbn [with_conn receiver_]. rewrite Hk. intros [= <-]. cbn [with_conn rd_attr]. by rewrite Hname.
  - intros _. split; [exists k, i, h; by rewrite <- Hk|]. split; [done|]. split; [done|]. split; [apply heard_new|].
    intros Hrt l a' c' He Hr Hne. cbn [with_conn rd_attr]. rewrite Hid. apply (Hfresh Hrt). rewrite <- Hrt. by apply (pi_in _ _ _ HP l a' c').
Qed.

Lemma joined_others l a c' : endpoint p1 l a c' -> l <> ReaderAt r -> endpoint q l a c'.
Proof.
  intros He Hne. destruct l as [t|r']; [done|]. destruct He as (rd' & E' & He). cbn [p1 with_signal with_reader with_data with_tasks readers] in E'.
  rewrite lookup_insert_ne in E' by congruence. by exists rd'.
Qed.

(** The receiver is switched on for the writers of the channel. *)
Lemma joined_peers l gd :
  names_ok gd -> (forall a, a ∈ l <-> a ∈ attrs ROLE_WRITER s /\ Role.channel_name a = Some name) ->
  let p2 := fold_left (fun p a => receiver_enable k a p) l (with_names gd p1) in
  same (with_names gd p1) p2 /\ manager p2 = manager q /\ base_inv p2 /\ peer_inv (Some (ReaderAt r)) p2 s.
Proof.
  intros Hgd Hl. cbv zeta. pose proof joined_base as HB1. assert (HB1' : base_inv (with_names gd p1)) by by apply base_names.
  destruct HP as [P1 P2 P3 P7 P4 P5 P6].
  destruct (enable_all_receivers k l (with_names gd p1)) as (S2 & M2 & W2 & D2 & T2 & O2 & L2); [apply HB1'|by apply (disp_ok_ext q)|done|].
  set (p2 := fold_left _ l (with_names gd p1)) in *.
  split; [done|]. split; [done|]. split; [by apply (same_base (with_names gd p1))|]. split; try done.
  - intros Hrt t a c' He. apply (same_endpoint (with_names gd p1)) in He; [|done]. intros w' h'. rewrite W2.
    by apply (P4 Hrt t a c').
  - intros Hrt r' rd' k'. rewrite (sm_readers _ _ S2). cbn [with_names p1 with_signal with_reader with_data with_tasks readers].
    intros Er Hi' Ek'. destruct (decide (k' = k)) as [->|Hne].
    2:{ destruct (decide (r' = r)) as [->|Hr]; [rewrite lookup_insert_eq in Er; injection Er as <-; cbn [with_conn receiver_] in Ek'; congruence|].
        rewrite lookup_insert_ne in Er by done. eapply listens_ext; [by apply O2|done|]. by apply (P5 Hrt r' rd'). }
    intros i' h' Ek2. assert (Hc : channel_name (r_attr h') = name).
    { assert (Hst : static E allowed chan_type p2) by (apply (same_static E allowed chan_type (with_names gd p1)); [done|apply HB1']).
      by destruct (st_receiver _ _ _ _ Hst _ i' h' Ek2) as (_ & _ & -> & _). }
    rewrite Hrt. apply (hears_channel h' s name l); [done|done|done|]. apply (L2 [] (P7 _) i' h' Ek2).
  - intros l' a c' He Hr Hx. apply (same_endpoint (with_names gd p1)) in He; [|done]. apply (P6 l' a c'); [|done|done].
    apply joined_others; [done|congruence].
Qed.

Lemma reader_joins : exists p' s', ReaderJoinTheTopology E now r rd k (with_reader r rd (with_data d (with_tasks ts q))) = Some p' /\
  Inv p' s' /\ next_handle p' = next_handle q /\ nodes p' = nodes q.
Proof.
  unfold ReaderJoinTheTopology. rewrite (surjective_pairing (Connect (Some (ReaderAt r)) _)). cbv beta iota.
  change (signal (with_reader r rd (with_data d (with_tasks ts q)))) with (signal q). fold c s1.
  fold (with_conn c rd). rewrite with_reader_twice. fold p1.
  destruct (peers_of_channel (GetWritersOfChannel (e_hash E)) ROLE_WRITER channel_writers_ name (names p1) (manager p1) s)
    as (l & gd & Eq & Hgd & Hl); [done|apply Hcm|apply HP|apply HB|by destruct (ao_channel _ _ _ Ha) as (? & ? & ? & _); congruence|].
  rewrite Hname. change (str_of (Some name)) with name. rewrite Eq. cbn [mbind option_bind].
  destruct (joined_peers l gd Hgd Hl) as (S2 & M2 & HB2 & HP2). set (p2 := fold_left _ l (with_names gd p1)) in *.
  set (f := fun cm => snd (Join (e_serialize E) (e_write E) now (rd_attr rd) ROLE_READER (HasSerializer E (rd_type rd)) cm)).
  destruct (own_names _ Hown) as [Hho Hpi].
  destruct (cm_join several (e_host E) (e_pid E) (rd_attr rd) ROLE_READER now ltac:(by rewrite Hname)
    ltac:(by destruct (ao_channel _ _ _ Ha) as (? & _ & _ & ->)) ltac:(apply Ha) ltac:(apply Ha) Hho Hpi ltac:(by right)
    (e_serialize E) (e_write E) (HasSerializer E (rd_type rd)) (manager p2) s ltac:(by rewrite M2)) as [Hcm3 Hn3].
  fold f in Hcm3, Hn3. set (msg := Convert now (rd_attr rd) ROLE_READER OPT_JOIN (cm_base (manager p2))) in *.
  assert (Emsg : role_attr msg = rd_attr rd) by by apply Convert_id.
  destruct (manage_inv (Some (ReaderAt r)) f [msg] s _ p2 HB2 HP2 Hcm3 Hn3 eq_refl) as (S3 & M3 & HB3 & HP3 & Hcm4).
  { split; [|done]. split; [by right|by rewrite Emsg| |done]. intros Hrt _ b Hb. rewrite Emsg, Hid. apply Hfresh; [by rewrite <- Hrt|]. by rewrite <- Hrt in Hb. }
  { by repeat constructor. }
  eexists _, _. split; [reflexivity|]. split; [|by rewrite (sm_handle _ _ S3), (sm_nodes _ _ S3), (sm_handle _ _ S2), (sm_nodes _ _ S2)].
  split; [exact HB3|]. split; [|exact Hcm4]. apply (peer_complete (ReaderAt r)); [exact HP3|].
  intros a' c' He%(same_endpoint p2) Hr; [|done]. apply (same_endpoint (with_names gd p1)) in He; [|done].
  destruct He as (rd' & E' & _ & -> & _). cbn [with_names p1 with_signal with_reader with_data with_tasks readers] in E'.
  rewrite lookup_insert_eq in E'. injection E' as <-. cbn [with_conn rd_attr].
  rewrite attrs_join; [|done|by rewrite <- Hr|done]. rewrite Emsg. by apply elem_of_cons; left.
Qed.
End joining.

Lemma data_reader_new r rd rd0 name p :
  base_inv p -> readers p !! r = Some rd0 -> rd_type rd = chan_type name -> Role.channel_name (rd_attr rd) = Some name ->
  rd_visitor rd = Some (make_visitor (mkVC (chan_type name) (e_hash E name) (pending_queue_size_ rd0)) [] (data p)).1 ->
  data_ok (with_reader r rd (with_data
    (RegisterNotifyCallback (S (next_id (data p))) (make_visitor (mkVC (chan_type name) (e_hash E name) (pending_queue_size_ rd0)) [] (data p)).2) p)).
Proof.
  intros HB Er Ety En Ev. pose proof (bi_data _ HB) as Hd.
  destruct (new_reads (chan_type name) name (pending_queue_size_ rd0) rd (data p) (do_wf _ Hd) Ety Ev) as (Hv & Hwf & Hex & Hr).
  apply (data_put (fun _ => True)); try done. intros _. exists name, (next_id (data p)), (S (next_id (data p))).
  split; [done|]. split; [done|]. split; [done|]. intros r' rd' v Hne Er' Hi' Ev' Eq.
  pose proof (readers_keep r (next_id (data p)) p HB ltac:(lia) r' rd' v (next_id (data p)) Hne Er' Hi' Ev' ltac:(rewrite Eq; by left)). lia.
Qed.

Lemma reader_init now identity r rd name p s :
  Inv p s -> (r < next_handle p)%nat -> readers p !! r = Some rd -> rd_init rd = false -> filled (rd_attr rd) ->
  Role.channel_name (rd_attr rd) = Some name -> rd_type rd = chan_type name ->
  (rt = ROLE_READER -> forall a, a ∈ attrs ROLE_READER s ->
     Role.id a <> Some (hash_value_ (receiver_identity identity (chan_type name, name) p))) ->
  exists ok p' s', ReaderInit E now identity r p = Some (ok, p') /\ Inv p' s' /\ next_handle p' = next_handle p /\ nodes p' = nodes p /\
    (ok = false <-> task_taken (task_name (rd_attr rd)) p).
Proof.
  intros (HB & HP & Hcm) Hlt Er Hi Hf En Ety Hfresh. destruct (fi_channel _ Hf) as (name' & En' & Hin & Hch).
  assert (name' = name) as -> by congruence. unfold ReaderInit. rewrite Er, Hi. fold (task_name (rd_attr rd)).
  rewrite Hch, Ety. change (int_of (Some (e_hash E name))) with (e_hash E name).
  destruct (make_visitor _ [] (data p)) as [v d1] eqn:Ev.
  set (rd1 := fun i => mkReader (chan_type name) (set_id (hash_value_ i) (rd_attr rd)) true (pending_queue_size_ rd) (reader_func_ rd)
    (Some (chan_type name, name)) (task_name (rd_attr rd)) (Some v) (rd_conn rd) (blocker_ rd)).
  set (i := receiver_identity identity (chan_type name, name) p).
  destruct (tasks_take r (rd1 i) p HB eq_refl) as (ok & ts & Et & Hok & Hts); [by intros rd0; rewrite Er; intros [= <-]|].
  cbn [rd1 croutine_name_] in Et, Hok. rewrite Et. destruct ok; cbn [negb].
  2:{ eexists false, _, s. split; [reflexivity|]. split; [|done]. apply (reader_refused r _ rd name v d1 ts p s); try done; by rewrite Ety. }
  assert (Hv : v = (make_visitor (mkVC (chan_type name) (e_hash E name) (pending_queue_size_ rd)) [] (data p)).1 /\
    d1 = (make_visitor (mkVC (chan_type name) (e_hash E name) (pending_queue_size_ rd)) [] (data p)).2) by (by rewrite Ev).
  destruct Hv as [Hv Hd1]. pose proof (data_reader_new r (rd1 i) rd name p HB Er eq_refl En ltac:(cbn [rd1 rd_visitor]; f_equal; exact Hv)) as Hdata.
  assert (Hn : v_notifier v = S (next_id (data p))).
  { rewrite Hv. by destruct (make_visitor_single (mkVC (chan_type name) (e_hash E name) (pending_queue_size_ rd)) (data p)
      (do_wf _ (bi_data _ HB)) (hash_u64 name)) as (-> & _). }
  rewrite <- Hd1, <- Hn in Hdata. set (d := RegisterNotifyCallback (v_notifier v) d1) in *.
  destruct (get_receiver None identity (rd_attr rd) name d ts p s HB HP Hf En)
    as (q & h & Eq & HBq & HPq & Hrec & M1 & M2 & M3 & M4 & M5 & M6 & M7 & M8 & M9).
  fold i in Eq, Hrec. rewrite Eq. cbn [mbind option_bind]. fold (rd1 i). destruct (filled_set_id (hash_value_ i) _ Hf) as [Ha Hown].
  assert (Hj : exists p' s', ReaderJoinTheTopology E now r (rd1 i) (chan_type name, name) (with_reader r (rd1 i) (with_data d (with_tasks ts q))) = Some p' /\
    Inv p' s' /\ next_handle p' = next_handle q /\ nodes p' = nodes q).
  { apply (reader_joins now r (rd1 i) name i h d ts s q); try done; rewrite ?M1, ?M4, ?M8; try done.
    - apply task_name_nonempty.
    - split; [by apply filled_again|]. cbn [rd1 rd_type rd_attr set_id Role.channel_name]. by rewrite En.
    - destruct Hdata as [D1 D2 D3 D4]. by split; cbn [with_reader with_data readers data] in *; rewrite ?M4. }
  destruct Hj as (p' & s' & Ej & HI & Hh & Hnd). rewrite Ej. eexists true, p', s'. split; [reflexivity|]. split; [done|].
  split; [congruence|]. split; [congruence|]. tauto.
Qed.

(** The task of a reader is removed. *)
Lemma tasks_drop r rd1 rd rs ts :
  tasks_ok rs ts -> rs !! r = Some rd -> rd_init rd = true -> rd_init rd1 = false ->
  tasks_ok (<[r := rd1]> rs) (t_remove (croutine_name_ rd) ts).
Proof.
  intros (names & T1 & T2 & T3) Er Hi Hi1. exists (names ∖ {[croutine_name_ rd]}). split; [by apply t_remove_inv|].
  assert (Hin : forall r' rd', (<[r := rd1]> rs : gmap nat (Reader V)) !! r' = Some rd' -> rd_init rd' = true -> r' <> r /\ rs !! r' = Some rd').
  { intros r' rd'. destruct (decide (r' = r)) as [->|Hne]; [rewrite lookup_insert_eq; congruence|by rewrite lookup_insert_ne]. }
  split.
  - intros n. rewrite elem_of_difference, elem_of_singleton, T2. split.
    + intros [(r' & rd' & Er' & Hi' & En) Hne]. exists r', rd'. rewrite lookup_insert_ne; [done|]. intros ->. congruence.
    + intros (r' & rd' & Er' & Hi' & En). apply Hin in Er' as [Hne Er']; [|done]. split; [by exists r', rd'|].
      intros ->. apply Hne. by apply (T3 r' r rd' rd).
  - intros r1 r2 rd2 rd3 E1 E2 I1 I2. apply Hin in E1 as [_ E1]; [|done]. apply Hin in E2 as [_ E2]; [|done]. by apply (T3 r1 r2 rd2 rd3).
Qed.

(** Notifications do not read the data nor the tasks. *)
Definition put (d : world V Map) (ts : T) (p : Process) : Process := with_data d (with_tasks ts p).

Lemma callback_put l msg d ts p : OnChannelChange E l msg (put d ts p) = put d ts (OnChannelChange E l msg p).
Proof.
  destruct l as [t|r]; cbn [OnChannelChange].
  - unfold WriterOnChannelChange, writer_enable, writer_disable, put. cbn [with_data with_tasks writers]. by repeat case_match.
  - unfold ReaderOnChannelChange, receiver_enable, receiver_disable, put. cbn [with_data with_tasks readers receiver_map_ dispatchers].
    by repeat case_match.
Qed.

Lemma notify_put msg d ts p : signal_ok (signal p) -> notify_listeners E (put d ts p) msg = put d ts (notify_listeners E p msg).
Proof.
  intros Hs. rewrite !notify_fold by done. change (signal (put d ts p)) with (signal p). generalize (Signal.callbacks (signal p)) as ls.
  clear Hs. intros ls. revert p. induction ls as [|l ls IH]; intros p; [done|]. cbn [fold_left]. by rewrite callback_put, IH.
Qed.

Lemma manage_put f d ts p : signal_ok (signal p) -> manage E f (put d ts p) = put d ts (manage E f p).
Proof.
  intros Hs. unfold manage. change (manager (put d ts p)) with (manager p). generalize (drop (length (notified (cm_base (manager p))))
    (notified (cm_base (f (manager p))))) as msgs. intros msgs.
  change (with_manager (f (manager p)) (put d ts p)) with (put d ts (with_manager (f (manager p)) p)).
  assert (Hs' : signal_ok (signal (with_manager (f (manager p)) p))) by done. revert Hs'. generalize (with_manager (f (manager p)) p) as q.
  clear Hs. induction msgs as [|msg msgs IH]; intros q Hs; [done|]. cbn [fold_left]. rewrite notify_put by done. apply IH.
  rewrite notify_fold by done. by rewrite (sm_signal _ _ (callbacks_same E msg _ q)).
Qed.

Lemma manage_same f p : signal_ok (signal p) -> same p (manage E f p).
Proof.
  intros Hs. unfold manage. generalize (drop (length (notified (cm_base (manager p)))) (notified (cm_base (f (manager p))))) as msgs. intros msgs.
  assert (S0 : same p (with_manager (f (manager p)) p)) by by split. revert S0. generalize (with_manager (f (manager p)) p) as q.
  induction msgs as [|msg msgs IH]; intros q S0; [done|]. cbn [fold_left]. apply IH. etrans; [exact S0|].
  rewrite notify_fold by by rewrite (sm_signal _ _ S0). apply callbacks_same.
Qed.

Lemma put_same p : put (data p) (tasks p) p = p.
Proof. by destruct p. Qed.

(** A reader that is not initialised may be there or not. *)
Lemma put_idle_reader r rd p s :
  Inv p s -> (r < next_handle p)%nat -> rd_init rd = false -> receiver_ rd = None -> reader_made rd ->
  (forall rd0, readers p !! r = Some rd0 -> rd_init rd0 = false) -> Inv (with_reader r rd p) s.
Proof.
  intros (HB & HP & Hcm) Hlt Hi Hr Hmade Hi0.
  assert (Ep : with_reader r rd p = with_signal (signal p) (with_reader r rd (with_data (data p) (with_tasks (tasks p) p)))) by by destruct p.
  rewrite Ep. split; [|split; [by apply put_reader_peer|done]]. apply put_reader_base; try done.
  - apply HB.
  - intros l a c He _. by apply (bi_end _ HB l a c).
  - congruence.
  - pose proof (bi_data _ HB) as Hd. apply (data_put (fun _ => True)); try done; [apply Hd| |congruence]. split; eauto.
  - apply tasks_put_idle; [apply HB|done|done].
  - congruence.
Qed.

(** A reader gives up its connection, its visitor and its task. *)
Lemma reader_stops r rd rd1 p s :
  Inv p s -> (r < next_handle p)%nat -> readers p !! r = Some rd -> rd_init rd = true ->
  rd_init rd1 = false -> receiver_ rd1 = receiver_ rd -> rd_attr rd1 = rd_attr rd -> rd_type rd1 = rd_type rd ->
  let p1 := with_signal (snd (Disconnect (rd_conn rd) (signal p))) (with_reader r rd1
    (put (match rd_visitor rd with Some v => drop_visitor v (data p) | None => data p end) (t_remove (croutine_name_ rd) (tasks p)) p)) in
  base_inv p1 /\ peer_inv None p1 s.
Proof.
  intros (HB & HP & Hcm) Hlt Er Hi Hi1 Hr1 Ha1 Ht1. cbv zeta. pose proof (bi_data _ HB) as Hdata.
  destruct (do_reader _ Hdata r rd Er Hi) as (ch & id & n & _ & _ & (pos & Ev) & _). rewrite Ev.
  split; [|by apply put_reader_peer]. apply put_reader_base; try done.
  - apply disconnect_all_ok, HB.
  - apply (others_heard (ReaderAt r) (rd_attr rd) (rd_conn rd) p HB). by exists rd.
  - intros k. rewrite Hr1, Ha1. by apply (bi_chan _ HB r).
  - apply (data_put (fun j => j <> id)); try done; [by apply drop_wf, Hdata| | |congruence].
    + destruct (drop_extends (mkDV [id] n pos) (data p)) as [X1 X2 X3 X4 X5 X6]. split; try done.
      intros j Hj. apply X4. by intros ->%list_elem_of_singleton.
    + intros r' rd' v j Hne Er' Hi' Ev' Hj ->. destruct (do_reader _ Hdata r' rd' Er' Hi') as (ch' & id' & n' & _ & _ & (pos' & Ev2) & _).
      assert (v = mkDV [id'] n' pos') as -> by congruence. apply list_elem_of_singleton in Hj as ->.
      by apply Hne, (do_own _ Hdata r' r rd' rd _ _ Er' Er Hi' Hi Ev' Ev).
  - apply (tasks_drop r rd1 rd); try done. apply HB.
  - unfold reader_made. rewrite Ha1, Ht1. by apply (bi_reader _ HB r).
  - congruence.
Qed.

Lemma reader_shutdown now r p s : Inv p s ->
  exists s', Inv (ReaderShutdown E now r p) s' /\ next_handle (ReaderShutdown E now r p) = next_handle p /\ nodes (ReaderShutdown E now r p) = nodes p.
Proof.
  intros HI. pose proof HI as (HB & HP & Hcm). unfold ReaderShutdown. destruct (readers p !! r) as [rd|] eqn:Er; [|by exists s].
  destruct (rd_init rd) eqn:Hi; [|by exists s]. cbn [negb].
  assert (He0 : endpoint p (ReaderAt r) (rd_attr rd) (rd_conn rd)) by (by exists rd).
  destruct (bi_end _ HB _ _ _ He0) as (Ha & Hown & Hh).
  assert (Hlt : (r < next_handle p)%nat).
  { apply Nat.lt_nge. intros Hge. by destruct (bi_handles _ HB r Hge) as [_ Hn]; rewrite Er in Hn. }
  destruct (bi_recv _ HB r rd Er Hi) as (k & i & h & _ & _ & _ & Hne). rewrite (bool_decide_eq_false_2 _ Hne).
  unfold ReaderLeaveTheTopology. cbn [rd_conn rd_attr]. change (signal (with_reader r _ p)) with (signal p).
  rewrite (surjective_pairing (Disconnect (rd_conn rd) (signal p))). cbv beta iota.
  set (rd1 := mkReader (rd_type rd) (rd_attr rd) false (pending_queue_size_ rd) (reader_func_ rd) (receiver_ rd)
                     (croutine_name_ rd) (rd_visitor rd) (rd_conn rd) (blocker_ rd)).
  destruct (reader_stops r rd rd1 p s HI Hlt Er Hi eq_refl eq_refl eq_refl eq_refl) as [HB1 HP1].
  set (d := match rd_visitor rd with Some v => drop_visitor v (data p) | None => data p end) in *.
  set (ts := t_remove (croutine_name_ rd) (tasks p)) in *.
  set (p1 := with_signal (snd (Disconnect (rd_conn rd) (signal p))) (with_reader r rd1 p)).
  change (with_signal _ (with_reader r rd1 (put d ts p))) with (put d ts p1) in HB1, HP1.
  assert (Hgone : forall l a c, endpoint (put d ts p1) l a c -> l <> ReaderAt r /\ endpoint p l a c).
  { intros [t|r'] a c; [done|]. intros (rd' & Er' & H). cbn [put with_data with_tasks p1 with_signal with_reader readers] in Er'.
    destruct (decide (r' = r)) as [->|Hr]; [rewrite lookup_insert_eq in Er'; injection Er' as <-; by destruct H|].
    rewrite lookup_insert_ne in Er' by done. split; [congruence|by exists rd']. }
  destruct (leave_manages None (ReaderAt r) (rd_attr rd) now s (put d ts p1)) as (s' & S2 & HB2 & HP2 & Hcm2); try done.
  { by right. }
  { intros Hrt. by apply (pi_in _ _ _ HP (ReaderAt r) _ (rd_conn rd)). }
  { intros Hrt l b' c He Hr Hid. apply Hgone in He as [Hl He]. apply Hl. by apply (bi_ids _ HB l (ReaderAt r) b' (rd_attr rd) c (rd_conn rd)). }
  cbn [role_of] in *. exists s'. set (f := fun cm => snd (Leave _ _ now (rd_attr rd) ROLE_READER cm)) in *.
  assert (Hs1 : signal_ok (signal p1)) by apply HB1.
  pose proof (manage_put f d ts p1 Hs1) as Em. set (p2 := manage E f p1) in *.
  destruct (manage_same f p1 Hs1) as [Q1 Q2 Q3 Q4 Q5 Q6 Q7 Q8 Q9 Q10]. fold p2 in Q1, Q2, Q3, Q4, Q5, Q6, Q7, Q8, Q9, Q10.
  assert (Efin : forall rd2, with_data (match rd_visitor rd with Some v => drop_visitor v (data (with_reader r rd2 p2)) | None => data (with_reader r rd2 p2) end)
    (with_tasks (t_remove (croutine_name_ rd) (tasks (with_reader r rd2 p2))) (with_reader r rd2 p2)) = with_reader r rd2 (put d ts p2)).
  { intros rd2. change (data (with_reader r rd2 p2)) with (data p2). change (tasks (with_reader r rd2 p2)) with (tasks p2). by rewrite Q6, Q7. }
  rewrite Efin. rewrite <- Em.
  assert (Hnn : next_handle (manage E f (put d ts p1)) = next_handle p /\ nodes (manage E f (put d ts p1)) = nodes p).
  { by rewrite (sm_handle _ _ S2), (sm_nodes _ _ S2). }
  split; [|exact Hnn]. apply put_idle_reader; try done; [by rewrite (proj1 Hnn)|by apply (bi_reader _ HB r rd)|].
  intros rd3. rewrite (sm_readers _ _ S2). cbn [put with_data with_tasks p1 with_signal with_reader readers]. rewrite lookup_insert_eq. by intros [= <-].
Qed.
End run.
