(* ===== verification/NodeOps.v ===== *)
(** * NodeOps: the operations of a process, and that each of them keeps the invariant of [NodeRun.v]

    [op] are the operations that users, other processes and the scheduler make, and [op_ok] what they are taken to respect: names and
    types of channels are those that were agreed, and the identifiers of the roles [rt] are fresh.  Whatever is reached by
    such operations satisfies the invariant, and every operation returns. *)

From S2P Require Import Prelude Interfaces ShmMessage Role Warehouse AtomicHashMap GlobalData Manager ChannelManager Signal.
From S2P Require Import Blocker FanOut CacheBuffer DataFlow Hybrid HybridPeers Node NodeParts NodePeers NodeRun.

Inductive op (V : Type) :=
| ONode (name : string)
| OCreateWriter (now : Z) (identity : Identity) (ty n : nat) (attr : RoleAttributes)
| OCreateReader (now : Z) (identity : Identity) (ty n : nat) (attr : RoleAttributes) (func : bool) (pending : Z)
| OWriterInit (now : Z) (identity : Identity) (t : nat)
| OReaderInit (now : Z) (identity : Identity) (r : nat)
| OWriterShutdown (now : Z) (t : nat)
| OReaderShutdown (now : Z) (r : nat)
| OWrite (t : nat) (msg : V)
| OArrive (m : Medium) (ch : Z) (msg : V) (info : MessageInfo)
| OTask (r : nat)
| OObserve (n : nat)
| OClearData (n : nat)
| OHistoryDepth (r : nat) (depth : Z)
| ORemote (parsed : option ChangeMsg)
| OLeaves (now : Z) (host : string) (pid : Z).
Arguments ONode {V}. Arguments OCreateWriter {V}. Arguments OCreateReader {V}. Arguments OWriterInit {V}. Arguments OReaderInit {V}.
Arguments OWriterShutdown {V}. Arguments OReaderShutdown {V}. Arguments OWrite {V}. Arguments OArrive {V}. Arguments OTask {V}.
Arguments OObserve {V}. Arguments OClearData {V}. Arguments OHistoryDepth {V}. Arguments ORemote {V}. Arguments OLeaves {V}.

Section ops.
Context {W T DI DO V : Type} {Map : Type -> Type}.
Context `{!Warehouse W, !Tasks T, !FanOut DI rkey V, !FanOut DO rkey V, !KeyMap Map, !Inhabited V}.
Context (E : Environment) (rt : RoleType) (allowed : gset string) (chan_type : string -> nat).
Abbreviation Process := (Process W T DI DO V Map).
Implicit Types (p : Process).
Abbreviation mode := (ObtainConfig (e_modes E)).

Definition run_op (o : op V) (p : Process) : option Process :=
  match o with
  | ONode name => '(_, p1) ← node_new E name p; Some p1
  | OCreateWriter now identity ty n attr => '(_, p1) ← CreateWriter E now identity ty n attr p; Some p1
  | OCreateReader now identity ty n attr func pending => '(_, p1) ← CreateReader E now identity ty n attr func pending p; Some p1
  | OWriterInit now identity t => '(_, p1) ← WriterInit E now identity t p; Some p1
  | OReaderInit now identity r => '(_, p1) ← ReaderInit E now identity r p; Some p1
  | OWriterShutdown now t => Some (WriterShutdown E now t p)
  | OReaderShutdown now r => Some (ReaderShutdown E now r p)
  | OWrite t msg => Some (Write t msg p).2
  | OArrive m ch msg info => Some (arrive m ch msg info p).2
  | OTask r => Some (run_task r p).2
  | OObserve n => Some (NodeObserve n p)
  | OClearData n => Some (NodeClearData n p)
  | OHistoryDepth r depth => match readers p !! r with Some rd => Some (with_reader r (SetHistoryDepth depth rd) p) | None => None end
  | ORemote parsed => Some (remote_change E parsed p)
  | OLeaves now host pid => Some (process_leaves E now host pid p)
  end.

(** The roles of a type that the channel manager knows. *)
Definition known (t : RoleType) (p : Process) : list RoleAttributes :=
  attributes_ <$> (snd <$> entries (match t with ROLE_WRITER => channel_writers_ (manager p) | _ => channel_readers_ (manager p) end)).

(** An identifier that no role of the type [rt] has. *)
Definition fresh (t : RoleType) (i : Identity) (p : Process) : Prop :=
  rt = t -> forall a, a ∈ known t p -> Role.id a <> Some (hash_value_ i).

(** A change that another process announces: its role is well-formed, and new when it joins. *)
Record change_ok (msg : ChangeMsg) (p : Process) : Prop := {
  co_role : role_type msg = ROLE_WRITER \/ role_type msg = ROLE_READER;
  co_attr : attr_ok (e_hash E) allowed (role_attr msg);
  co_other : ~ own E (role_attr msg);
  co_join : role_type msg = rt -> operate_type msg = OPT_JOIN -> forall a, a ∈ known rt p -> Role.id a <> Role.id (role_attr msg);
  co_leave : role_type msg = rt -> operate_type msg = OPT_LEAVE ->
    forall a, a ∈ known rt p -> Role.id a = Role.id (role_attr msg) -> a = role_attr msg;
}.

(** A channel that is used as agreed; no name is refused. *)
Definition channel_ok (attr : RoleAttributes) : Prop :=
  str_of (Role.channel_name attr) <> "" -> str_of (Role.channel_name attr) ∈ allowed.

Definition op_ok (o : op V) (p : Process) : Prop :=
  match o with
  | ONode name => name ∈ allowed
  | OCreateWriter _ identity _ n attr => is_Some (nodes p !! n) /\ channel_ok attr /\ fresh ROLE_WRITER identity p
  | OCreateReader _ identity ty n attr _ _ => is_Some (nodes p !! n) /\ channel_ok attr /\ ty = chan_type (str_of (Role.channel_name attr)) /\
      fresh ROLE_READER (receiver_identity identity (ty, str_of (Role.channel_name attr)) p) p
  | OWriterInit _ identity t => exists w, writers p !! t = Some w /\ (w_init w = false -> fresh ROLE_WRITER identity p)
  | OReaderInit _ identity r => exists rd, readers p !! r = Some rd /\ (rd_init rd = false ->
      fresh ROLE_READER (receiver_identity identity (rd_type rd, str_of (Role.channel_name (rd_attr rd))) p) p)
  | OArrive _ ch _ _ => is_u64 ch
  | OHistoryDepth r _ => is_Some (readers p !! r)
  | ORemote (Some msg) => change_ok msg p
  | OLeaves _ host pid => ~ (host = e_host E /\ pid = e_pid E)
  | _ => True
  end.

Inductive reachable (raw py : string) (t0 : T) : Process -> Prop :=
| reach_start : reachable raw py t0 (process_new E raw py t0)
| reach_step o p p' : reachable raw py t0 p -> op_ok o p -> run_op o p = Some p' -> reachable raw py t0 p'.

(** The conditions are decidable. *)
Lemma dec_iff (P Q : Prop) : (P <-> Q) -> Decision P -> Decision Q.
Proof. intros H [HP|HP]; [left|right]; by rewrite <- H. Defined.

#[export] Instance attr_ok_dec a : Decision (attr_ok (e_hash E) allowed a).
Proof.
  apply (dec_iff ((match Role.channel_name a with Some c => c ∈ allowed /\ Role.channel_id a = Some (e_hash E c) | None => False end) /\
    is_Some (Role.id a) /\ is_Some (node_id a) /\ is_Some (Role.host_name a) /\ is_Some (Role.process_id a)));
    [|apply and_dec; [destruct (Role.channel_name a); apply _|apply _]].
  split.
  - intros (H1 & H2 & H3 & H4 & H5). split; try done. destruct (Role.channel_name a) as [c|]; [|done]. exists c. by destruct H1.
  - intros [(c & -> & H1 & H2) H3 H4 H5 H6]. by split_and!.
Defined.

#[export] Instance own_dec a : Decision (own E a).
Proof. unfold own. apply _. Defined.

Lemma known_dec (C : Prop) `{!Decision C} (P : RoleAttributes -> Prop) `{!forall a, Decision (P a)} (l : list RoleAttributes) : Decision (C -> forall a, a ∈ l -> P a).
Proof. apply (dec_iff (C -> Forall P l)); [|apply _]. by rewrite Forall_forall. Defined.

#[export] Instance fresh_dec t i p : Decision (fresh t i p).
Proof. unfold fresh. apply known_dec; apply _. Defined.

#[export] Instance change_ok_dec msg p : Decision (change_ok msg p).
Proof.
  apply (dec_iff ((role_type msg = ROLE_WRITER \/ role_type msg = ROLE_READER) /\ attr_ok (e_hash E) allowed (role_attr msg) /\ ~ own E (role_attr msg) /\
    (role_type msg = rt /\ operate_type msg = OPT_JOIN -> forall a, a ∈ known rt p -> Role.id a <> Role.id (role_attr msg)) /\
    (role_type msg = rt /\ operate_type msg = OPT_LEAVE -> forall a, a ∈ known rt p -> Role.id a = Role.id (role_attr msg) -> a = role_attr msg))).
  - split; [intros (H1 & H2 & H3 & H4 & H5); split; auto|intros [H1 H2 H3 H4 H5]; split_and!; try done; intros [A B]; auto].
  - apply and_dec; [apply _|]. apply and_dec; [apply _|]. apply and_dec; [apply _|]. apply and_dec; apply known_dec; apply _.
Defined.

#[export] Instance op_ok_dec o p : Decision (op_ok o p).
Proof.
  destruct o; cbn [op_ok]; try apply _.
  - apply (dec_iff (match writers p !! t with Some w => w_init w = false -> fresh ROLE_WRITER identity p | None => False end)); [|by destruct (writers p !! t); apply _].
    destruct (writers p !! t) as [w|]; [|by split; [|intros (? & ? & _)]]. split; [by exists w|by intros (w' & [= <-] & H)].
  - apply (dec_iff (match readers p !! r with Some rd => rd_init rd = false ->
      fresh ROLE_READER (receiver_identity identity (rd_type rd, str_of (Role.channel_name (rd_attr rd))) p) p | None => False end)); [|by destruct (readers p !! r); apply _].
    destruct (readers p !! r) as [rd|]; [|by split; [|intros (? & ? & _)]]. split; [by exists rd|by intros (rd' & [= <-] & H)].
  - destruct parsed; apply _.
Defined.

(** A sequence of operations that respect the conditions, and what it reaches. *)
Fixpoint run_ops (l : list (op V)) (p : Process) : option Process :=
  match l with
  | [] => Some p
  | o :: l' => if decide (op_ok o p) then p' ← run_op o p; run_ops l' p' else None
  end.

Lemma run_ops_reach l raw py t0 p p' : reachable raw py t0 p -> run_ops l p = Some p' -> reachable raw py t0 p'.
Proof.
  revert p. induction l as [|o l IH]; intros p Hp; cbn [run_ops]; [by intros [= <-]|]. case_decide as Ho; [|done].
  destruct (run_op o p) as [p1|] eqn:E1; [|done]. cbn [mbind option_bind]. apply IH. by eapply reach_step.
Qed.

(** ** Every operation returns and keeps the invariant *)

Context `{!WarehouseLaws W, !TasksLaws T, !FanOutLaws DI rkey V, !FanOutLaws DO rkey V, !KeyMapLaws Map}.
Hypothesis several : @multi W _ = true.
Hypothesis rt_ok : rt = ROLE_WRITER \/ rt = ROLE_READER.
Hypothesis can_publish : e_can_publish E = true.
Hypothesis hash_u64 : forall c, is_u64 (e_hash E c).
Hypothesis hash_inj : forall c c', c ∈ allowed -> c' ∈ allowed -> e_hash E c = e_hash E c' -> c = c'.
Hypothesis no_hybrid : forall m, m ∈ modes mode -> m <> HYBRID.

Abbreviation Inv := (Inv E rt allowed chan_type).
Abbreviation base_inv := (base_inv E rt allowed chan_type).
Abbreviation peer_inv := (peer_inv E rt allowed).
Definition good (p : Process) : Prop := exists s, Inv p s.

Lemma known_attrs t p s : view (manager p) s -> t = ROLE_WRITER \/ t = ROLE_READER -> forall a, a ∈ known t p <-> a ∈ attrs t s.
Proof.
  intros Hv Ht a.
  assert (H : forall (w : W) l, entries w ≡ₚ keyed Role.channel_id l -> a ∈ attributes_ <$> (snd <$> entries w) <-> a ∈ attributes_ <$> l).
  { intros w l Hl. rewrite Hl. unfold keyed. rewrite <- !list_fmap_compose. done. }
  unfold known, attrs. destruct Ht as [-> | ->]; apply H, Hv.
Qed.

Lemma Inv_view p s : Inv p s -> view (manager p) s.
Proof. intros (_ & _ & Hcm). apply Hcm. Qed.

Lemma fresh_attrs t i p s : Inv p s -> t = ROLE_WRITER \/ t = ROLE_READER -> fresh t i p ->
  rt = t -> forall a, a ∈ attrs t s -> Role.id a <> Some (hash_value_ i).
Proof. intros HI Ht Hf Hrt a Ha. apply (Hf Hrt). by apply (known_attrs t p s (Inv_view p s HI) Ht). Qed.

(** *** Nodes and the endpoints that they make *)

Lemma Inv_names gd p s : Inv p s -> names_ok E allowed gd -> Inv (with_names gd p) s.
Proof. intros (HB & HP & Hcm) Hgd. split; [by apply base_names|]. split; [|done]. destruct HP. by split. Qed.

Lemma Inv_nodes ns n p s :
  Inv p s -> (next_handle p <= n)%nat ->
  (forall i node, ns !! i = Some node -> node_made E node /\ (i < n)%nat) ->
  Inv (with_handle n (with_nodes ns p)) s.
Proof.
  intros (HB & HP & Hcm) Hle Hns. split; [|split; [|done]].
  - destruct HB as [B1 [] B3 B4 B5 B6 B7 B8 B9 B10 B11 [] B13 B14 B15]. split; try done; try by split.
    intros h Hh. apply B11. cbn [with_handle with_nodes next_handle] in Hh. lia.
  - destruct HP. by split.
Qed.

Lemma node_new_good name p : good p -> name ∈ allowed -> exists n p', node_new E name p = Some (n, p') /\ good p'.
Proof.
  intros (s & HI) Hin. pose proof HI as (HB & _). destruct (node_known E allowed hash_u64 hash_inj name (names p) (bi_names _ _ _ _ _ HB) Hin) as (gd & Eg & Hgd).
  unfold node_new. rewrite Eg. cbn [mbind option_bind]. eexists _, _. split; [reflexivity|]. exists s.
  apply (Inv_nodes _ _ (with_names gd p)); [by apply Inv_names|cbn; lia|].
  intros i node. destruct (decide (i = next_handle p)) as [->|Hne].
  - rewrite lookup_insert_eq. intros [= <-]. split; [|lia]. split; [done|]. split; [by eexists|done].
  - rewrite lookup_insert_ne by done. intros En. destruct (bi_nodes _ _ _ _ _ HB i node En) as [H1 H2]. split; [done|lia].
Qed.

(** A writer that is not initialised may be there or not. *)
Lemma put_idle_writer t w p s :
  Inv p s -> (t < next_handle p)%nat -> w_init w = false -> transmitter_ w = None -> writer_made E allowed w -> Inv (with_writer t w p) s.
Proof.
  intros (HB & HP & Hcm) Hlt Hi Ht Hmade. assert (Ep : with_writer t w p = with_signal (signal p) (with_writer t w p)) by by destruct p.
  rewrite Ep. split; [|split; [by apply put_writer_peer|done]]. apply put_writer_base; try done.
  - apply HB.
  - intros l a c He _. by apply (bi_end _ _ _ _ _ HB l a c).
  - congruence.
  - congruence.
Qed.

Lemma fill_in ty node attr p s :
  Inv p s -> node_made E node -> str_of (Role.channel_name attr) ∈ allowed ->
  str_of (Role.channel_name attr) <> "" ->
  exists a gd, FillInAttr E ty node attr p = Some (a, with_names gd p) /\ names_ok E allowed gd /\ filled E allowed a /\
    Role.channel_name a = Role.channel_name attr /\ node_name a = node_name (n_attr node).
Proof.
  intros (HB & _) ([Ho1 Ho2] & Hn & Hip) Hin Hne. unfold FillInAttr.
  destruct (channel_known E allowed hash_u64 hash_inj _ (names p) (bi_names _ _ _ _ _ HB) Hin) as (gd & Eg & Hgd). rewrite Eg. cbn [mbind option_bind].
  destruct (Role.channel_name attr) as [c|] eqn:Ec; [|done]. eexists _, gd. split; [reflexivity|]. split; [done|]. split; [|done].
  split; [by exists c|done|done|done].
Qed.

Lemma writer_init_good now identity t w p :
  good p -> writers p !! t = Some w -> (w_init w = false -> fresh ROLE_WRITER identity p) ->
  exists p', WriterInit E now identity t p = Some (true, p') /\ good p' /\ next_handle p' = next_handle p /\ nodes p' = nodes p.
Proof.
  intros (s & HI) Ew Hf. destruct (w_init w) eqn:Hi.
  { exists p. unfold WriterInit. rewrite Ew, Hi. split; [done|]. by split; [exists s|]. }
  pose proof HI as (HB & _). assert (Hlt : (t < next_handle p)%nat).
  { apply Nat.lt_nge. intros Hge. destruct (bi_handles _ _ _ _ _ HB t Hge) as [Hn _]. congruence. }
  destruct (writer_init E rt allowed chan_type several rt_ok can_publish hash_u64 hash_inj no_hybrid now identity t w p s)
    as (p' & s' & E1 & H1 & H2 & H3); try done.
  - by apply (bi_writer _ _ _ _ _ HB t).
  - apply (fresh_attrs ROLE_WRITER identity p s); auto.
  - exists p'. split; [done|]. by split; [exists s'|].
Qed.

Lemma reader_init_good now identity r rd p :
  good p -> readers p !! r = Some rd ->
  (rd_init rd = false -> fresh ROLE_READER (receiver_identity identity (rd_type rd, str_of (Role.channel_name (rd_attr rd))) p) p) ->
  exists ok p', ReaderInit E now identity r p = Some (ok, p') /\ good p' /\ next_handle p' = next_handle p /\ nodes p' = nodes p /\
    (ok = false <-> rd_init rd = false /\ task_taken (task_name (rd_attr rd)) p).
Proof.
  intros (s & HI) Er Hf. destruct (rd_init rd) eqn:Hi.
  { exists true, p. unfold ReaderInit. rewrite Er, Hi. split; [done|]. split; [by exists s|]. split; [done|]. split; [done|]. split; [done|by intros []]. }
  pose proof HI as (HB & _). assert (Hlt : (r < next_handle p)%nat).
  { apply Nat.lt_nge. intros Hge. destruct (bi_handles _ _ _ _ _ HB r Hge) as [_ Hn]. congruence. }
  destruct (bi_reader _ _ _ _ _ HB r rd Er) as [Hfil Hty]. destruct (fi_channel _ _ _ Hfil) as (name & En & _). rewrite En in Hty, Hf. cbn in Hty, Hf.
  destruct (reader_init E rt allowed chan_type several rt_ok can_publish hash_u64 hash_inj no_hybrid now identity r rd name p s)
    as (ok & p' & s' & E1 & H1 & H2 & H3 & H4); try done.
  - rewrite <- Hty. apply (fresh_attrs ROLE_READER _ p s); auto.
  - exists ok, p'. split; [done|]. split; [by exists s'|]. split; [done|]. split; [done|]. rewrite H4. tauto.
Qed.

Lemma known_same t p p' : manager p' = manager p -> known t p' = known t p.
Proof. unfold known. by intros ->. Qed.

Lemma create_writer_good now identity ty n attr p :
  good p -> op_ok (OCreateWriter now identity ty n attr) p ->
  exists made p', CreateWriter E now identity ty n attr p = Some (made, p') /\ good p' /\
    (made = None <-> str_of (Role.channel_name attr) = "").
Proof.
  intros (s & HI) ([node En] & Hch & Hf). unfold CreateWriter. rewrite En. case_bool_decide as Hc.
  { eexists None, p. split; [done|]. by split; [exists s|]. }
  pose proof HI as (HB & _). destruct (bi_nodes _ _ _ _ _ HB n node En) as (Hmade & _).
  destruct (fill_in ty node attr p s HI Hmade (Hch Hc) Hc) as (a & gd & Ea & Hgd & Hfil & Ecn & _). rewrite Ea. cbn [mbind option_bind].
  set (t := next_handle (with_names gd p)). set (w := mkWriter ty a false None None). set (p2 := with_handle (S t) (with_writer t w (with_names gd p))).
  assert (HI2 : Inv p2 s).
  { assert (Ep : p2 = with_writer t w (with_handle (S t) (with_nodes (nodes p) (with_names gd p)))) by by destruct p.
    rewrite Ep. apply put_idle_writer; [|cbn; lia|done..]. apply (Inv_nodes _ _ (with_names gd p)); [by apply Inv_names|cbn; lia|].
    intros i nd Ei. destruct (bi_nodes _ _ _ _ _ HB i nd Ei) as [? ?]. split; [done|]. cbn. lia. }
  destruct (writer_init_good now identity t w p2) as (p3 & E3 & HI3 & _); [by exists s|apply lookup_insert_eq|done|].
  rewrite E3. cbn [mbind option_bind]. eexists _, p3. split; [reflexivity|]. split; [done|]. split; [done|]. intros H. by destruct Hc.
Qed.

(** A reader object that was just made. *)
Lemma new_reader_Inv ty a b gd func pending p s :
  Inv p s -> names_ok E allowed gd -> filled E allowed a -> ty = chan_type (str_of (Role.channel_name a)) ->
  Inv (with_handle (S (next_handle p)) (with_reader (next_handle p) (mkReader ty a false pending func None "" None None b) (with_names gd p))) s.
Proof.
  intros HI Hgd Hfil Hty. set (r := next_handle p). set (rd := mkReader ty a false pending func None "" None None b). pose proof HI as (HB & _).
  assert (Ep : with_handle (S r) (with_reader r rd (with_names gd p)) =
    with_reader r rd (with_handle (S r) (with_nodes (nodes p) (with_names gd p)))) by by destruct p.
  rewrite Ep. apply put_idle_reader; try done; [|cbn; lia|].
  - apply (Inv_nodes _ _ (with_names gd p)); [by apply Inv_names|cbn; lia|].
    intros i nd Ei. destruct (bi_nodes _ _ _ _ _ HB i nd Ei) as [? ?]. split; [done|]. cbn. lia.
  - intros rd0 E0. destruct (bi_handles _ _ _ _ _ HB r) as [_ Hn]; [done|]. change (readers p !! r = Some rd0) in E0. congruence.
Qed.

Lemma create_reader_good now identity ty n attr func pending p :
  good p -> op_ok (OCreateReader now identity ty n attr func pending) p ->
  exists made p', CreateReader E now identity ty n attr func pending p = Some (made, p') /\ good p'.
Proof.
  intros (s & HI) ([node En] & Hch & Hty & Hf). unfold CreateReader. rewrite En.
  destruct (readers_ node !! str_of (Role.channel_name attr)); [eexists None, p; split; [done|]; by exists s|].
  unfold NodeCreateReader. rewrite En. case_bool_decide as Hc.
  { eexists None, p. split; [done|]. by exists s. }
  pose proof HI as (HB & _). destruct (bi_nodes _ _ _ _ _ HB n node En) as (Hmade & _).
  destruct (fill_in ty node attr p s HI Hmade (Hch Hc) Hc) as (a & gd & Ea & Hgd & Hfil & Ecn & _). rewrite Ea. cbn [mbind option_bind].
  set (r := next_handle (with_names gd p)). set (rd := mkReader ty a false pending func None "" None None _).
  set (p2 := with_handle (S r) (with_reader r rd (with_names gd p))).
  assert (HI2 : Inv p2 s) by exact (new_reader_Inv ty a _ gd func pending p s HI Hgd Hfil ltac:(by rewrite Ecn)).
  destruct (reader_init_good now identity r rd p2) as (ok & p3 & E3 & (s3 & HI3) & Hh & Hnd & _); [by exists s|apply lookup_insert_eq| |].
  { intros _. cbn [rd rd_type rd_attr]. rewrite Ecn. exact Hf. }
  rewrite E3. cbn [mbind option_bind]. destruct ok; [|eexists _, p3; split; [reflexivity|]; by exists s3].
  eexists _, _. split; [reflexivity|]. exists s3.
  set (ns := alter _ n (nodes p3)). assert (Ep : with_nodes ns p3 = with_handle (next_handle p3) (with_nodes ns p3)) by by destruct p3.
  rewrite Ep. apply Inv_nodes; [done|lia|]. intros i nd. subst ns. pose proof HI3 as (HB3 & _). destruct (decide (i = n)) as [->|Hne].
  - rewrite lookup_alter_eq. intros (nd0 & E0 & ->)%fmap_Some. by apply (bi_nodes _ _ _ _ _ HB3 n nd0).
  - rewrite lookup_alter_ne by done. apply HB3.
Qed.

(** *** Messages *)

Lemma Transmit_keeps msg (h : HybridTransmitter V) :
  let '(_, _, _, h1) := Transmit msg h in core h1 = core h /\ forall X, follows X h -> follows X h1.
Proof. cbn. split; [done|]. intros X H m Hm. exact (H m Hm). Qed.

Lemma write_good t msg p : good p -> good (Write t msg p).2.
Proof.
  intros (s & HI). exists s. unfold Write. destruct (writers p !! t) as [w|] eqn:Ew; [|done]. destruct (w_init w) eqn:Hi; [|done]. cbn [negb].
  destruct (transmitter_ w) as [h|] eqn:Eh; [|done]. pose proof (Transmit_keeps msg h) as Hk.
  destruct (Transmit msg h) as [[[ok media] info] h1]. cbn [snd]. destruct Hk as [Hc Hfol].
  set (p' := with_writer t _ p).
  assert (Hs : same p p') by (apply (with_writer_same t w); [done|]; unfold writer_core; cbn; by rewrite Hi, Eh; cbn; rewrite Hc).
  destruct HI as (HB & HP & Hcm). split; [by apply (same_base E rt allowed chan_type p)|]. split; [|done].
  destruct HP as [P1 P2 P3 P7 P4 P5 P6]. split; try done.
  - intros Hrt t' a c He. apply (same_endpoint p) in He; [|done]. intros w' h'. cbn [p' with_writer writers].
    destruct (decide (t' = t)) as [->|Hne]; [|rewrite lookup_insert_ne by done; by apply (P4 Hrt t' a c)].
    rewrite lookup_insert_eq. intros [= <-] [= <-]. apply Hfol. by apply (P4 Hrt t a c He w h).
  - intros l a c He. apply (P6 l a c). by apply (same_endpoint p p').
Qed.

Lemma world_inv d p s : Inv p s -> world_wf d -> extends (fun _ => True) (data p) d -> Inv (with_data d p) s.
Proof.
  intros (HB & HP & Hcm) Hwf Hex. split; [|split; [by destruct HP; split|done]].
  destruct HB as [B1 [] B3 B4 B5 B6 B7 B8 B9 B10 B11 [D1 D2 D3 D4] B13 B14 B15]. split; try done; split; try done.
  - cbn [with_data data]. by rewrite (ex_up _ _ _ Hex).
  - intros r rd Er Hi. destruct (D3 r rd Er Hi) as (ch & id & n & H1 & H2 & H3). exists ch, id, n. split; [done|]. split; [done|].
    by apply (reads_extends E hash_u64 (fun _ => True) (data p)).
Qed.

Lemma receiver_callback_inv k msg p s : Inv p s -> Inv (receiver_callback k msg p).2 s.
Proof.
  intros HI. unfold receiver_callback. destruct (receiver_map_ p !! k) as [[i h]|]; [|done].
  pose proof (dispatch_extends k.1 (channel_id (r_attr h)) msg (data p)) as [Hex Hwf].
  destruct (Dispatch _ _ _ _) as [[ok called] d]. cbn [snd] in *. apply world_inv; [done| |done]. apply Hwf, HI.
Qed.

Lemma callbacks_inv (log : list (rkey * V)) acc p s : Inv p s ->
  Inv (fold_left (fun acc e => let '(called, p) := receiver_callback (fst e) (snd e) (snd acc) in (fst acc ++ called, p)) log (acc, p)).2 s.
Proof.
  revert acc p. induction log as [|[k msg] log IH]; intros acc p HI; [done|]. cbn [fold_left fst snd].
  pose proof (receiver_callback_inv k msg p s HI) as H. destruct (receiver_callback k msg p) as [called p1]. by apply IH.
Qed.

Lemma dispatch_registered m ch msg info p s : Inv p s -> is_u64 ch ->
  let '(log, d1) := dispatch m ch msg info (dispatchers p) in Inv (with_dispatchers d1 p) s.
Proof.
  intros (HB & HP & Hcm) Hch. destruct (pi_disp _ _ _ _ _ _ HP) as (reg & Hd & Hreg).
  pose proof (dispatch_inv reg m ch msg info _ Hd Hch) as H. destruct (dispatch m ch msg info _) as [log d1]. destruct H as [_ Hd1].
  split; [|split; [|done]].
  - destruct HB as [B1 [] B3 B4 B5 B6 B7 B8 B9 B10 B11 [] B13 B14 B15]. by split; try done; split.
  - destruct HP as [P1 P2 P3 P7 P4 P5 P6]. split; try done. exists reg. by split.
Qed.

Lemma arrive_good m ch msg info p : good p -> is_u64 ch -> good (arrive m ch msg info p).2.
Proof.
  intros (s & HI) Hch. exists s. unfold arrive. pose proof (dispatch_registered m ch msg info p s HI Hch) as H.
  destruct (dispatch m ch msg info (dispatchers p)) as [log d1]. by apply callbacks_inv.
Qed.

(** A reader's blocker and position change. *)
Record touched (rd rd' : Reader V) : Prop := {
  to_type : rd_type rd' = rd_type rd;
  to_attr : rd_attr rd' = rd_attr rd;
  to_init : rd_init rd' = rd_init rd;
  to_receiver : receiver_ rd' = receiver_ rd;
  to_task : croutine_name_ rd' = croutine_name_ rd;
  to_conn : rd_conn rd' = rd_conn rd;
  to_visitor : (fun v => (v_ids v, v_notifier v)) <$> rd_visitor rd' = (fun v => (v_ids v, v_notifier v)) <$> rd_visitor rd;
}.

Lemma touch_inv r rd rd' p s : Inv p s -> readers p !! r = Some rd -> touched rd rd' -> Inv (with_reader r rd' p) s.
Proof.
  intros (HB & HP & Hcm) Er Hto. set (p' := with_reader r rd' p).
  assert (Hl : forall r1 rd1, readers p' !! r1 = Some rd1 -> exists rd0, readers p !! r1 = Some rd0 /\ touched rd0 rd1).
  { intros r1 rd1. cbn [p' with_reader readers]. destruct (decide (r1 = r)) as [->|Hne].
    - rewrite lookup_insert_eq. intros [= <-]. by exists rd.
    - rewrite lookup_insert_ne by done. intros E1. exists rd1. split; [done|by split]. }
  assert (Hl' : forall r1 rd1, readers p !! r1 = Some rd1 -> exists rd0, readers p' !! r1 = Some rd0 /\ touched rd1 rd0).
  { intros r1 rd1 E1. cbn [p' with_reader readers]. destruct (decide (r1 = r)) as [->|Hne].
    - rewrite lookup_insert_eq. exists rd'. split; [done|]. by assert (rd1 = rd) as -> by congruence.
    - rewrite lookup_insert_ne by done. exists rd1. split; [done|by split]. }
  assert (He : forall l a c, endpoint p' l a c -> endpoint p l a c).
  { intros [t|r1] a c; [done|]. intros (rd1 & E1 & H1 & -> & ->). destruct (Hl r1 rd1 E1) as (rd0 & E0 & [T1 T2 T3 T4 T5 T6 T7]).
    exists rd0. split; [done|]. split_and!; congruence. }
  destruct HB as [B1 [] B3 B4 B5 B6 B7 B8 B9 B10 B11 [D1 D2 D3 D4] (names & N1 & N2 & N3) B14 B15]. split; [|split; [|done]].
  - split; try done; try (by split).
    + intros l a c H. by apply B4, He.
    + intros r1 rd1 E1 Hi. destruct (Hl r1 rd1 E1) as (rd0 & E0 & [T1 T2 T3 T4 T5 T6 T7]). rewrite T2, T4, T5. apply (B6 r1 rd0 E0). congruence.
    + intros r1 rd1 k E1. destruct (Hl r1 rd1 E1) as (rd0 & E0 & [T1 T2 T3 T4 T5 T6 T7]). rewrite T2, T4. by apply (B7 r1 rd0).
    + intros l l' a a' c c' H1 H2. by apply (B8 l l' a a' c c'); apply He.
    + intros h Hh. destruct (B11 h Hh) as [H1 H2]. split; [done|]. destruct (readers p' !! h) as [rd1|] eqn:E1; [|done].
      destruct (Hl h rd1 E1) as (rd0 & E0 & _). congruence.
    + split; [done|done|..].
      * intros r1 rd1 E1 Hi. destruct (Hl r1 rd1 E1) as (rd0 & E0 & [T1 T2 T3 T4 T5 T6 T7]).
        destruct (D3 r1 rd0 E0 ltac:(congruence)) as (ch & id & n & A1 & A2 & (pos & A3) & A4 & A5 & A6 & A7 & A8).
        exists ch, id, n. split; [congruence|]. split; [congruence|]. rewrite A3 in T7. destruct (rd_visitor rd1) as [[ids nn pos']|] eqn:Ev; [|done].
        cbn in T7. injection T7 as -> ->. unfold reads. rewrite T1. split; [by exists pos'|done].
      * intros r1 r2 rd1 rd2 v1 v2 E1 E2 I1 I2 V1 V2 Eq.
        destruct (Hl r1 rd1 E1) as (rd3 & E3 & [S1 S2 S3 S4 S5 S6 S7]), (Hl r2 rd2 E2) as (rd4 & E4 & [T1 T2 T3 T4 T5 T6 T7]).
        rewrite V1 in S7. rewrite V2 in T7. destruct (rd_visitor rd3) as [v3|] eqn:V3; [|done]. destruct (rd_visitor rd4) as [v4|] eqn:V4; [|done].
        injection S7 as S7 _. injection T7 as T7 _. apply (D4 r1 r2 rd3 rd4 v3 v4); congruence.
    + exists names. split; [done|]. split.
      * intros n. rewrite N2. split.
        -- intros (r1 & rd1 & E1 & I1 & En). destruct (Hl' r1 rd1 E1) as (rd0 & E0 & [T1 T2 T3 T4 T5 T6 T7]). exists r1, rd0. split; [done|]. split; congruence.
        -- intros (r1 & rd1 & E1 & I1 & En). destruct (Hl r1 rd1 E1) as (rd0 & E0 & [T1 T2 T3 T4 T5 T6 T7]). exists r1, rd0. split; [done|]. split; congruence.
      * intros r1 r2 rd1 rd2 E1 E2 I1 I2 Eq.
        destruct (Hl r1 rd1 E1) as (rd3 & E3 & [S1 S2 S3 S4 S5 S6 S7]), (Hl r2 rd2 E2) as (rd4 & E4 & [T1 T2 T3 T4 T5 T6 T7]).
        apply (N3 r1 r2 rd3 rd4); congruence.
    + intros r1 rd1 E1. destruct (Hl r1 rd1 E1) as (rd0 & E0 & [T1 T2 T3 T4 T5 T6 T7]). unfold reader_made. rewrite T1, T2. by apply (B15 r1).
  - destruct HP as [P1 P2 P3 P7 P4 P5 P6]. split; try done.
    + intros Hrt r1 rd1 k E1 Hi Ek. destruct (Hl r1 rd1 E1) as (rd0 & E0 & [T1 T2 T3 T4 T5 T6 T7]). apply (P5 Hrt r1 rd0 k E0); congruence.
    + intros l a c H. apply (P6 l a c). by apply He.
Qed.

Lemma task_good r p : good p -> good (run_task r p).2.
Proof.
  intros (s & HI). exists s. unfold run_task. destruct (readers p !! r) as [rd|] eqn:Er; [|done].
  destruct (rd_visitor rd) as [v|] eqn:Ev; [|done]. cbn [mbind option_bind].
  destruct (visitor_fetch v (data p)) as [[[msg l] v1]|] eqn:Ef; [|done]. cbn [snd]. apply (touch_inv r rd); [done|done|].
  split; try done. cbn. rewrite Ev. cbn. unfold visitor_fetch in Ef. by repeat case_match; simplify_eq/=.
Qed.

Lemma on_blocker_touched (f : Blocker V -> Blocker V) rd : touched rd (on_blocker f rd).
Proof. by split. Qed.

Lemma on_readers_good f n p : (forall rd, touched rd (f rd)) -> good p -> good (on_readers f n p).
Proof.
  intros Hf (s & HI). exists s. unfold on_readers. destruct (nodes p !! n) as [node|]; [|done].
  generalize (map_to_list (readers_ node)) as l. intros l. revert p HI. induction l as [|[ch r] l IH]; intros p HI; [done|]. cbn [fold_left snd].
  apply IH. destruct (readers p !! r) as [rd|] eqn:Er; [|done]. by apply (touch_inv r rd).
Qed.

(** *** Other processes *)

Lemma manage_nothing f p : f (manager p) = manager p -> manage E f p = p.
Proof. intros Hf. unfold manage. rewrite Hf, drop_all. by destruct p. Qed.

Lemma change_proper msg p s : Inv p s -> change_ok msg p -> proper (e_hash E) allowed rt s msg.
Proof.
  intros HI [C1 C2 C3 C4 C5]. split; [done|done|..].
  - intros Er Eo a Ha. apply (C4 Er Eo). by apply (known_attrs rt p s (Inv_view p s HI) rt_ok).
  - intros Er Eo a Ha. apply (C5 Er Eo). by apply (known_attrs rt p s (Inv_view p s HI) rt_ok).
Qed.

Lemma remote_good parsed p : good p -> op_ok (ORemote parsed) p -> good (remote_change E parsed p).
Proof.
  intros (s & HI). pose proof HI as (HB & HP & Hcm). unfold remote_change. destruct parsed as [msg|]; cbn [op_ok].
  2:{ intros _. rewrite manage_nothing; [by exists s|]. unfold OnRemoteChange. by case_match. }
  intros Hok. pose proof (change_proper msg p s HI Hok) as Hp. destruct Hok as [C1 C2 C3 _ _]. pose proof C2 as [(c & Ec & _ & Ecid) Hid Hn [ho Hh] [pi Hpi]].
  destruct (cm_remote several (e_host E) (e_pid E) msg (manager p) s Hcm) as [Hcm1 Hn1].
  - split; [done|]. by rewrite Ecid.
  - apply Check_attr; [by rewrite Ec|by rewrite Ecid|done].
  - rewrite Hh, Hpi. cbn. intros [-> ->]. apply C3. by split.
  - destruct (manage_inv E rt allowed chan_type rt_ok can_publish hash_u64 hash_inj no_hybrid None (OnRemoteChange (Some msg)) [msg] s _ p HB HP Hcm1 Hn1 eq_refl)
      as (_ & _ & HB1 & HP1 & Hcm2); [by split| |by eexists].
    constructor; [|done]. intros _ _ l a c' He _ _ ->. apply C3. by apply (bi_end _ _ _ _ _ HB l _ c').
Qed.

(** A list of leaves of roles that were there. *)
Lemma proper_leaves s0 msgs s :
  kinds_ok s0 -> roles_ok (e_hash E) allowed rt s0 -> (forall a, a ∈ attrs rt s -> a ∈ attrs rt s0) ->
  Forall (fun msg => operate_type msg = OPT_LEAVE /\ (role_type msg = ROLE_WRITER \/ role_type msg = ROLE_READER) /\
    role_attr msg ∈ attrs (role_type msg) s0) msgs ->
  proper_all (e_hash E) allowed rt s msgs.
Proof.
  intros Hk Hok. revert s. induction msgs as [|msg msgs IH]; intros s Hsub Hall; [done|]. apply Forall_cons in Hall as [(Eo & Er & Hin) Hall]. split.
  - split; [done|by apply (ro_ok _ _ _ _ Hok (role_type msg))|congruence|]. intros Et _ a Ha Hid. apply (ro_unique _ _ _ _ Hok); [by apply Hsub| |done].
    by rewrite <- Et.
  - apply IH; [|done]. intros a Ha. apply Hsub. destruct (decide (role_type msg = rt)) as [Et|Et].
    + by apply (attrs_leave_sub rt s msg).
    + by rewrite attrs_other in Ha.
Qed.

Lemma leave_msgs_ok (cm : ChannelManager W) now t Lr (P : RoleAttributes -> Prop) : t = ROLE_WRITER \/ t = ROLE_READER ->
  (forall r, r ∈ Lr -> P (attributes_ r)) ->
  Forall (fun msg => operate_type msg = OPT_LEAVE /\ role_type msg = t /\ P (role_attr msg)) (leave_msg now t cm <$> Lr).
Proof. intros Ht HP. apply Forall_fmap, Forall_forall. intros r Hr. split; [done|]. split; [done|]. by apply HP. Qed.

Lemma leaves_good now host pid p : good p -> ~ (host = e_host E /\ pid = e_pid E) -> good (process_leaves E now host pid p).
Proof.
  intros (s & HI) Hne. pose proof HI as (HB & HP & Hcm). pose proof (pi_roles _ _ _ _ _ _ HP) as Hok. pose proof (pi_kinds _ _ _ _ _ _ HP) as Hk.
  assert (Hroles : forall t, Forall role_ok (roles_of t s)).
  { intros t. apply Forall_forall. intros r Hr. destruct (ro_ok _ _ _ _ Hok t (attributes_ r)) as [(c & _ & _ & Ec) _ Hn Hh Hp]; [apply list_elem_of_fmap; by exists r|].
    by repeat split; rewrite ?Ec. }
  destruct (cm_process_leaves several (e_host E) (e_pid E) now host pid (manager p) s Hcm (Hroles ROLE_WRITER) (Hroles ROLE_READER))
    as (Lw & Lr & HLw & HLr & Hcm1 & Hn1). unfold process_leaves.
  assert (Hw : forall r, r ∈ Lw -> attributes_ r ∈ attrs ROLE_WRITER s /\ ~ own E (attributes_ r)).
  { intros r [Hr Hin]%HLw. split; [apply list_elem_of_fmap; by exists r|]. intros [H1 H2]. apply Match_process in Hin as [A1 A2].
    rewrite H1 in A1. rewrite H2 in A2. apply Hne. by split. }
  assert (Hr : forall r, r ∈ Lr -> attributes_ r ∈ attrs ROLE_READER s /\ ~ own E (attributes_ r)).
  { intros r [Hr Hin]%HLr. split; [apply list_elem_of_fmap; by exists r|]. intros [H1 H2]. apply Match_process in Hin as [A1 A2].
    rewrite H1 in A1. rewrite H2 in A2. apply Hne. by split. }
  pose proof (leave_msgs_ok (manager p) now ROLE_WRITER Lw (fun a => a ∈ attrs ROLE_WRITER s /\ ~ own E a) ltac:(by left) Hw) as Fw.
  pose proof (leave_msgs_ok (manager p) now ROLE_READER Lr (fun a => a ∈ attrs ROLE_READER s /\ ~ own E a) ltac:(by right) Hr) as Fr.
  set (msgs := (leave_msg now ROLE_WRITER (manager p) <$> Lw) ++ (leave_msg now ROLE_READER (manager p) <$> Lr)) in *.
  assert (Hall : Forall (fun msg => (operate_type msg = OPT_LEAVE /\ (role_type msg = ROLE_WRITER \/ role_type msg = ROLE_READER) /\
    role_attr msg ∈ attrs (role_type msg) s) /\ ~ own E (role_attr msg)) msgs).
  { apply Forall_app. split; (eapply Forall_impl; [eassumption|]); intros msg (-> & -> & H1 & H2); cbn; auto. }
  apply Forall_and in Hall as [Hall Hown].
  destruct (manage_inv E rt allowed chan_type rt_ok can_publish hash_u64 hash_inj no_hybrid None _ msgs s _ p HB HP Hcm1 Hn1 eq_refl)
      as (_ & _ & HB1 & HP1 & Hcm2); [by apply (proper_leaves s)| |by eexists].
  eapply Forall_impl; [exact Hown|]. intros msg Hno _ _ l a c He _ _ ->. apply Hno. by apply (bi_end _ _ _ _ _ HB l _ c).
Qed.

(** *** The start *)

Lemma start_good raw py (t0 : T) : t_inv ∅ t0 -> good (process_new E raw py t0).
Proof.
  intros Ht. exists (mkMembers [] []). split; [|split].
  - split; try done.
    + split; [apply signal_new_wf|by constructor].
    + intros [t|r] a c; cbn; intros (w & Ew & _); cbn in Ew; by rewrite lookup_empty in Ew.
    + intros [t|r] l' a a' c c'; cbn; intros (w & Ew & _); cbn in Ew; by rewrite lookup_empty in Ew.
    + by apply gd_new_ok.
    + split; [apply world_init_wf|done|..]; intros r rd; cbn; by rewrite lookup_empty.
    + exists ∅. split; [done|]. split; [|done]. intros n. split; [by intros ?%elem_of_empty|]. intros (r & rd & Er & _). cbn in Er; by rewrite lookup_empty in Er.
  - split; try done.
    + by constructor.
    + assert (H0 : forall t a, a ∉ attrs t (mkMembers [] [])) by (intros [] a; by intros ?%elem_of_nil).
      split; [intros t a H|intros a b H]; by apply H0 in H.
    + exists (fun _ => ∅). split; [by split_and!; apply fo_new_inv|]. intros m ch key e. rewrite lookup_empty. split; [done|].
      intros (k & i & h & om & x & Ek & _). cbn in Ek; by rewrite lookup_empty in Ek.
    + intros [t|r] a c; cbn; intros (w & Ew & _); cbn in Ew; by rewrite lookup_empty in Ew.
  - split; try done. eapply view_ext; [..|apply (view_new raw py (e_host E) (e_pid E))]; done.
Qed.

Lemma op_good o p : good p -> op_ok o p -> exists p', run_op o p = Some p' /\ good p'.
Proof.
  intros Hg Hok. destruct o; cbn [run_op].
  - destruct (node_new_good name p Hg Hok) as (n & p' & -> & H). by exists p'.
  - destruct (create_writer_good now identity ty n attr p Hg Hok) as (made & p' & -> & H & _). by exists p'.
  - destruct (create_reader_good now identity ty n attr func pending p Hg Hok) as (made & p' & -> & H). by exists p'.
  - destruct Hok as (w & Ew & Hf). destruct (writer_init_good now identity t w p Hg Ew Hf) as (p' & -> & H & _). by exists p'.
  - destruct Hok as (rd & Er & Hf). destruct (reader_init_good now identity r rd p Hg Er Hf) as (ok & p' & -> & H & _). by exists p'.
  - eexists. split; [done|]. destruct Hg as (s & HI).
    destruct (writer_shutdown E rt allowed chan_type several rt_ok can_publish hash_u64 hash_inj no_hybrid now t p s HI) as (s' & H & _). by exists s'.
  - eexists. split; [done|]. destruct Hg as (s & HI).
    destruct (reader_shutdown E rt allowed chan_type several rt_ok can_publish hash_u64 hash_inj no_hybrid now r p s HI) as (s' & H & _). by exists s'.
  - eexists. split; [done|]. by apply write_good.
  - eexists. split; [done|]. by apply arrive_good.
  - eexists. split; [done|]. by apply task_good.
  - eexists. split; [done|]. apply on_readers_good; [|done]. intros rd. apply on_blocker_touched.
  - eexists. split; [done|]. apply on_readers_good; [|done]. intros rd. apply on_blocker_touched.
  - destruct Hok as [rd Er]. rewrite Er. eexists. split; [done|]. destruct Hg as (s & HI). exists s. apply (touch_inv r rd); [done|done|].
    apply on_blocker_touched.
  - eexists. split; [done|]. by apply remote_good.
  - eexists. split; [done|]. by apply leaves_good.
Qed.

Lemma reachable_good raw py t0 p : t_inv ∅ t0 -> reachable raw py t0 p -> good p.
Proof.
  intros Ht. induction 1 as [|o p p' _ IH Hok E1]; [by apply start_good|]. destruct (op_good o p IH Hok) as (p2 & E2 & H2). congruence.
Qed.
End ops.
