(* ===== verification/NodeDelivery.v ===== *)
(** * NodeDelivery: what the readers and writers of a process achieve

    For every process that is reached by the operations of [NodeOps.v]: operations return; what is written goes out on exactly the
    media of the readers that are known, and what arrives from a known writer is put once into the buffer of each reader of
    the channel.  Then what happens when two readers of a process share a receiver, and whose readers are refused. *)

From S2P Require Import Prelude Interfaces ShmMessage Role Warehouse AtomicHashMap GlobalData Manager ChannelManager Signal.
From S2P Require Import Blocker FanOut CacheBuffer DataFlow Hybrid HybridPeers Node NodeParts NodePeers NodeRun NodeOps.

(** What is taken of the environment: Fast-RTPS makes publishers, hashes are of 64 bits and differ for the names in use, and the modes
    are single media. *)
Record env_ok (E : Environment) (allowed : gset string) : Prop := {
  eo_publish : e_can_publish E = true;
  eo_hash : forall c, is_u64 (e_hash E c);
  eo_inj : forall c c', c ∈ allowed -> c' ∈ allowed -> e_hash E c = e_hash E c' -> c = c';
  eo_modes : forall m, m ∈ modes (ObtainConfig (e_modes E)) -> m <> HYBRID;
}.

(** An endpoint of a channel at the place of the process. *)
Definition place (E : Environment) (name : string) : Attributes :=
  mkAttributes name (e_hash E name) (e_ip E) (e_pid E) None (mkHistoryAttr HISTORY_KEEP_LAST 0) false.

(** The mode by which the process and an endpoint elsewhere reach each other on a channel, if it is of the channel. *)
Definition reached_by (E : Environment) (name : string) (a : RoleAttributes) : option OptionalMode :=
  peer_mode (ObtainConfig (e_modes E)) (place E name) (attributes_of a).

Lemma peer_mode_place E name (a : Attributes) mode b :
  channel_name a = name -> here E a -> peer_mode mode a b = peer_mode mode (place E name) b.
Proof. intros <- [E1 E2]. unfold peer_mode, GetRelation, place. cbn. by rewrite E1, E2. Qed.

Section delivery.
Context {W T DI DO V : Type} {Map : Type -> Type}.
Context `{!Warehouse W, !Tasks T, !FanOut DI rkey V, !FanOut DO rkey V, !KeyMap Map, !Inhabited V}.
Context `{!WarehouseLaws W, !TasksLaws T, !FanOutLaws DI rkey V, !FanOutLaws DO rkey V, !KeyMapLaws Map}.
Context (E : Environment) (allowed : gset string) (chan_type : string -> nat).
Abbreviation Process := (Process W T DI DO V Map).
Implicit Types (p : Process).
Abbreviation mode := (ObtainConfig (e_modes E)).

Section facts.
Context (rt : RoleType).
Hypothesis several : @multi W _ = true.
Hypothesis rt_ok : rt = ROLE_WRITER \/ rt = ROLE_READER.
Hypothesis Henv : env_ok E allowed.

Lemma reached raw py t0 p : t_inv ∅ t0 -> reachable E rt allowed chan_type raw py t0 p -> good E rt allowed chan_type p.
Proof. destruct Henv. by apply reachable_good. Qed.

Lemma peers_known t p s b : view (manager p) s -> t = ROLE_WRITER \/ t = ROLE_READER ->
  b ∈ peers_of t s <-> exists a, a ∈ known t p /\ b = attributes_of a.
Proof. intros Hv Ht. rewrite in_peers. by setoid_rewrite (known_attrs t p s Hv Ht). Qed.
End facts.

(** The media that a writer's message goes out on. *)
Lemma media_follows (h : HybridTransmitter V) X : follows X h -> t_mode h = mode -> (forall m, m ∈ dom (transmitters_ h) -> m ∈ modes mode) ->
  (forall m, m ∈ modes mode -> m <> HYBRID) ->
  forall m, m ∈ modes mode -> medium_of m ∈ enabled_media h <-> exists b, b ∈ X /\ peer_mode mode (t_attr h) b = Some m.
Proof.
  intros Hf Hm Hdom Hno m Hin. rewrite <- Hm in Hin. destruct (Hf m Hin) as (ids & _ & Hids & Ht). unfold enabled_media.
  rewrite list_elem_of_fmap. rewrite Hm in *. split.
  - intros ([m' e] & Em & [He Hel]%list_elem_of_filter). cbn in Em, He. subst e. apply elem_of_map_to_list in Hel.
    assert (m' = m) as ->. { assert (Hm' : m' ∈ modes mode) by (apply Hdom, elem_of_dom; by exists true). apply Hno in Hm', Hin. by destruct m, m'. }
    rewrite Ht in Hel. injection Hel as Hel. apply bool_decide_eq_true in Hel. destruct (set_choose_or_empty ids) as [[x Hx]|He]; [|set_solver].
    apply Hids in Hx as (b & H1 & H2 & _). by exists b.
  - intros (b & H1 & H2). exists (m, true). split; [done|]. apply list_elem_of_filter. split; [done|]. apply elem_of_map_to_list.
    rewrite Ht. f_equal. apply bool_decide_eq_true. intros He. assert (Hx : id_of b ∈ ids) by (apply Hids; by exists b). rewrite He in Hx. set_solver.
Qed.

(** ** The properties *)

(** Whatever nodes, readers and writers were made and shut down, whatever other processes announced and whatever was
    sent, every further operation that respects the conditions returns. *)
Theorem process_returns rt raw py t0 p o
  (Hseveral : @multi W _ = true) (Hrt : rt = ROLE_WRITER \/ rt = ROLE_READER) (Henv : env_ok E allowed) (Ht0 : t_inv ∅ t0)
  (Hp : reachable E rt allowed chan_type raw py t0 p) (Ho : op_ok E rt allowed chan_type o p) :
  exists p', run_op E o p = Some p' /\ reachable E rt allowed chan_type raw py t0 p'.
Proof.
  pose proof (reached rt Hseveral Hrt Henv raw py t0 p Ht0 Hp) as Hg. pose proof Henv as [H1 H2 H3 H4].
  destruct (op_good E rt allowed chan_type Hseveral Hrt H1 H2 H3 H4 o p Hg Ho) as (p' & E1 & _). exists p'. split; [done|]. by eapply reach_step.
Qed.

(** C5: in a process whose readers have each an identifier of its own - the readers of a channel in one process share a receiver and
    announce its identifier, so at most one reader of a channel joins from this process at a time, and other processes announce readers
    with identifiers that no known reader has - an initialised writer's message goes out on a medium exactly when the process knows a
    reader of the channel that is reached by it: no reader is left out, and nothing goes out for readers that left.  With two readers of
    a channel in the process it fails, as [leaving_reader_silences_process] shows. *)
Theorem write_reaches raw py t0 p t w name msg
  (Hseveral : @multi W _ = true) (Henv : env_ok E allowed) (Ht0 : t_inv ∅ t0)
  (Hp : reachable E ROLE_READER allowed chan_type raw py t0 p)
  (Ew : writers p !! t = Some w) (Hi : w_init w = true) (En : Role.channel_name (w_attr w) = Some name) :
  let '(ok, media, _, _) := Write t msg p in
  ok = true /\
  forall m, m ∈ modes mode -> medium_of m ∈ media <-> exists a, a ∈ known ROLE_READER p /\ reached_by E name a = Some m.
Proof.
  destruct (reached ROLE_READER Hseveral ltac:(by right) Henv raw py t0 p Ht0 Hp) as (s & HI). pose proof HI as (HB & HP & _).
  destruct (bi_trans _ _ _ _ _ HB t w Ew Hi) as [h Eh]. unfold Write. rewrite Ew, Hi, Eh. cbn [negb].
  destruct (st_writer _ _ _ _ (bi_static _ _ _ _ _ HB) t w h Ew Eh) as (Hm & Hc & Hhere & Hdom). rewrite En in Hc. cbn in Hc.
  pose proof (pi_tracks _ _ _ _ _ _ HP eq_refl t (w_attr w) (w_conn w) ltac:(by exists w) w h Ew Eh) as Hf.
  cbn. split; [done|]. intros m Hin.
  change (enabled_media _) with (enabled_media h). rewrite (media_follows h _ Hf Hm Hdom (eo_modes _ _ Henv) m Hin).
  unfold reached_by. split.
  - intros (b & Hb & Hpm). apply (peers_known ROLE_READER p s b (Inv_view _ _ _ _ p s HI) ltac:(by right)) in Hb as (a & Ha & ->).
    exists a. split; [done|]. by rewrite <- (peer_mode_place E name (t_attr h)).
  - intros (a & Ha & Hpm). exists (attributes_of a). split.
    + apply (peers_known ROLE_READER p s _ (Inv_view _ _ _ _ p s HI) ltac:(by right)). by exists a.
    + by rewrite (peer_mode_place E name (t_attr h)).
Qed.

(** The one callback that a message makes, when the receiver of the channel hears its writer. *)
Lemma arrive_one (k : rkey) (i : Identity) (h : HybridReceiver rkey) m b msg info p s :
  env_ok E allowed -> Inv E ROLE_WRITER allowed chan_type p s ->
  receiver_map_ p !! k = Some (i, h) -> listens k (peers_of ROLE_WRITER s) p -> attributes_of b ∈ peers_of ROLE_WRITER s ->
  reached_by E (snd k) b = Some m -> hash_value_ (sender_id_ info) = id_of (attributes_of b) ->
  exists d1, arrive (medium_of m) (e_hash E (snd k)) msg info p = receiver_callback k msg (with_dispatchers d1 p).
Proof.
  intros Henv (HB & HP & _) Ek Hl Hb Hm Hid.
  destruct (st_receiver _ _ _ _ (bi_static _ _ _ _ _ HB) k i h Ek) as (Emode & Elis & Ecn & Ecid & Hin & Hty & Hhere).
  unfold reached_by in Hm. rewrite <- (peer_mode_place E (snd k) (r_attr h)) in Hm by done.
  pose proof (peer_mode_in _ _ _ _ Hm) as Hmm. rewrite <- Emode in Hmm, Hm. destruct (Hl i h Ek m Hmm) as (ts & Ets & Hts).
  specialize (Hts _ Hb Hm). rewrite Emode in Hmm.
  destruct (pi_disp _ _ _ _ _ _ HP) as (reg & Hd & Hreg). unfold arrive.
  pose proof (dispatch_inv reg (medium_of m) (e_hash E (snd k)) msg info _ Hd (eo_hash _ _ Henv _)) as H.
  destruct (dispatch (medium_of m) _ msg info _) as [log d1]. destruct H as [-> _]. exists d1.
  assert (E1 : reg (medium_of m) !! (e_hash E (snd k), Some (id_of (attributes_of b))) = Some (id_of (r_attr h), k)).
  { apply Hreg. exists k, i, h, m, (id_of (attributes_of b)). rewrite Ets. by split_and!. }
  assert (E2 : reg (medium_of m) !! (e_hash E (snd k), None) = None).
  { destruct (reg (medium_of m) !! (e_hash E (snd k), None)) as [e|] eqn:Ee; [|done]. apply Hreg in Ee as (? & ? & ? & ? & ? & _ & _ & _ & _ & Hkey & _).
    done. }
  unfold addressed. rewrite E2, Hid, E1. cbn. by destruct (receiver_callback k msg _).
Qed.

(** C4: a message that arrives from a writer that the process knows, on the medium by which they reach each other, is put once into the
    buffer of each initialised reader of the channel, and the reader's notifier is called. *)
Theorem message_received raw py t0 p b name m msg info
  (Hseveral : @multi W _ = true) (Henv : env_ok E allowed) (Ht0 : t_inv ∅ t0)
  (Hp : reachable E ROLE_WRITER allowed chan_type raw py t0 p)
  (Hb : b ∈ known ROLE_WRITER p) (Hm : reached_by E name b = Some m)
  (Hid : hash_value_ (sender_id_ info) = id_of (attributes_of b)) :
  let '(called, p') := arrive (medium_of m) (e_hash E name) msg info p in
  forall r rd, readers p !! r = Some rd -> rd_init rd = true -> Role.channel_name (rd_attr rd) = Some name ->
    readers p' !! r = Some rd /\
    exists id n pos buf, rd_visitor rd = Some (mkDV [id] n pos) /\ buffers (data p) !! id = Some buf /\
      buffers (data p') !! id = Some (fst (Fill msg buf)) /\ n ∈ called.
Proof.
  destruct (reached ROLE_WRITER Hseveral ltac:(by left) Henv raw py t0 p Ht0 Hp) as (s & HI). pose proof HI as (HB & HP & _).
  destruct (arrive _ _ msg info p) as [called p'] eqn:Ea. intros r rd Er Hi En.
  destruct (bi_recv _ _ _ _ _ HB r rd Er Hi) as (k & i & h & Erec & Ek & _). pose proof (bi_chan _ _ _ _ _ HB r rd k Er Erec) as Hch.
  rewrite En in Hch. cbn in Hch. subst name.
  destruct (st_receiver _ _ _ _ (bi_static _ _ _ _ _ HB) k i h Ek) as (_ & _ & _ & Ecid & _ & Hty & _).
  assert (Hpb : attributes_of b ∈ peers_of ROLE_WRITER s).
  { apply (peers_known ROLE_WRITER p s _ (Inv_view _ _ _ _ p s HI) ltac:(by left)). by exists b. }
  destruct (arrive_one k i h m b msg info p s Henv HI Ek (pi_listens _ _ _ _ _ _ HP eq_refl r rd k Er Hi Erec) Hpb Hm Hid) as (d1 & Ea').
  rewrite Ea' in Ea. unfold receiver_callback in Ea. cbn [with_dispatchers receiver_map_ data] in Ea. rewrite Ek, Ecid in Ea.
  destruct (do_reader _ _ _ (bi_data _ _ _ _ _ HB) r rd Er Hi) as (ch & id & n & En' & Ety & (pos & Ev) & [buf Ebuf] & _ & Hcb & (l & El & Hl) & (ln & Eln & Hln)).
  assert (ch = snd k) as -> by congruence. rewrite Ety, <- Hty in El. unfold Dispatch in Ea.
  rewrite (do_up _ _ _ (bi_data _ _ _ _ _ HB)), El in Ea. destruct (ww_ids _ (do_wf _ _ _ (bi_data _ _ _ _ _ HB)) _ _ l (eo_hash _ _ Henv _) El) as [Hnd _].
  destruct (fill_loop_registry msg l (data p)) as [_ Hnot Hcbs _]. unfold Notify in Ea. rewrite Hnot, Hcbs, Eln in Ea. injection Ea as <- <-.
  split; [done|]. exists id, n, pos, buf. split; [done|]. split; [done|]. split.
  - cbn [with_data data]. rewrite fill_loop_lookup, decide_True by done. by rewrite Ebuf.
  - by apply list_elem_of_filter.
Qed.

(** A new reader is refused exactly when it has no channel name, when its node has a reader of the channel, or when the name of its
    task, the node's name and the channel's with an underscore between, is in use. *)
Theorem reader_refused_iff rt raw py t0 p now identity ty n node attr func pending
  (Hseveral : @multi W _ = true) (Hrt : rt = ROLE_WRITER \/ rt = ROLE_READER) (Henv : env_ok E allowed) (Ht0 : t_inv ∅ t0)
  (Hp : reachable E rt allowed chan_type raw py t0 p)
  (Ho : op_ok E rt allowed chan_type (OCreateReader now identity ty n attr func pending) p) (En : nodes p !! n = Some node) :
  let name := str_of (Role.channel_name attr) in
  exists made p', CreateReader E now identity ty n attr func pending p = Some (made, p') /\
    (made = None <-> name = "" \/ is_Some (readers_ node !! name) \/ task_taken (str_of (node_name (n_attr node)) +:+ "_" +:+ name) p).
Proof.
  destruct (reached rt Hseveral Hrt Henv raw py t0 p Ht0 Hp) as (s & HI). pose proof Henv as [E1 E2 E3 E4]. cbv zeta.
  destruct Ho as (_ & Hch & Hty & Hf). pose proof HI as (HB & _). destruct (bi_nodes _ _ _ _ _ HB n node En) as (Hmade & _).
  set (name := str_of (Role.channel_name attr)) in *. unfold CreateReader. rewrite En. fold name.
  destruct (readers_ node !! name) as [x|] eqn:Ex; [eexists None, p; split; [done|]; split; [right; left; by eexists|done]|].
  unfold NodeCreateReader. rewrite En. fold name. case_bool_decide as Hc; [eexists None, p; split; [done|]; split; [by left|done]|].
  destruct (fill_in E rt allowed chan_type E2 E3 ty node attr p s HI Hmade (Hch Hc) Hc) as (a & gd & Ea & Hgd & Hfil & Ecn & Enn).
  rewrite Ea. cbn [mbind option_bind]. set (r := next_handle (with_names gd p)). set (rd := mkReader ty a false pending func None "" None None _).
  set (p2 := with_handle (S r) (with_reader r rd (with_names gd p))).
  destruct (reader_init_good E rt allowed chan_type Hseveral Hrt E1 E2 E3 E4 now identity r rd p2) as (ok & p3 & -> & _ & _ & _ & Hok).
  { exists s. exact (new_reader_Inv E rt allowed chan_type Hseveral E1 E2 ty a _ gd func pending p s HI Hgd Hfil ltac:(by rewrite Ecn)). }
  { apply lookup_insert_eq. }
  { intros _. cbn [rd rd_type rd_attr]. rewrite Ecn. exact Hf. }
  assert (Htask : task_taken (task_name (rd_attr rd)) p2 <-> task_taken (str_of (node_name (n_attr node)) +:+ "_" +:+ name) p).
  { unfold task_name, task_taken. cbn [rd rd_attr]. rewrite Ecn, Enn. fold name. split; intros (r' & rd' & Er & Hi & Et); exists r', rd'.
    - split; [|done]. cbn [p2 with_handle with_reader with_names readers] in Er. destruct (decide (r' = r)) as [->|Hne].
      + rewrite lookup_insert_eq in Er. by injection Er as <-.
      + by rewrite lookup_insert_ne in Er.
    - split; [|done]. cbn [p2 with_handle with_reader with_names readers]. rewrite lookup_insert_ne; [done|]. intros <-.
      destruct (bi_handles _ _ _ _ _ HB r) as [_ Hn]; [done|]. congruence. }
  rewrite Htask in Hok. cbn [mbind option_bind]. destruct ok.
  - eexists _, _. split; [reflexivity|]. split; [done|]. intros [?|[[? ?]|Ht]]; [done|done|]. by assert (true = false) by by apply Hok.
  - eexists _, _. split; [reflexivity|]. split; [|done]. intros _. right. right. by apply Hok.
Qed.
End delivery.

(** ** A process that runs *)

From S2P Require Import MultiValueWarehouse MessageHeader Dispatcher IntraDispatcher IntraFanOut.

(** A table of tasks that is a set of names. *)
#[local] Instance set_Tasks : Tasks (gset string) := {|
  t_create n s := if decide (n ∈ s) then (false, s) else (true, {[n]} ∪ s);
  t_remove n s := s ∖ {[n]};
|}.

#[local] Instance set_TasksLaws : TasksLaws (gset string).
Proof.
  refine {| t_inv names t := t = names |}; cbn; intros names t name.
  - intros -> Hn. rewrite decide_False by done. by eexists.
  - intros -> Hn. rewrite decide_True by done. by eexists.
  - by intros ->.
Defined.

#[local] Instance demo_intra : FanOut (IntraDispatcher AtomicHashMap rkey) rkey bytes := intra_FanOut demo_classes (fun _ => "t"%string).
#[local] Instance demo_outer : FanOut (Dispatcher AtomicHashMap rkey) rkey bytes := dispatcher_FanOut Some (fun v => v) "b".
#[local] Instance demo_intra_laws : FanOutLaws (IntraDispatcher AtomicHashMap rkey) rkey bytes :=
  intra_FanOutLaws demo_classes (fun _ => "t"%string).
#[local] Instance demo_outer_laws : FanOutLaws (Dispatcher AtomicHashMap rkey) rkey bytes :=
  dispatcher_FanOutLaws Some (fun v => v) "b" (fun v => eq_refl).

Definition demo_env : Environment :=
  mkEnv (fun n => wrap_u64 (Z.of_nat (String.length n))) (fun _ => "t"%string) (fun _ _ => ""%string) (fun _ => true) (fun _ => true)
    (fun _ => true) None None true "host" "10.0.0.1" 7.
Definition demo_names : gset string := {["n"; "n_x"; "ch"; "x_ch"]}.

Lemma demo_env_ok : env_ok demo_env demo_names.
Proof.
  split.
  - done.
  - intros c. cbn. apply wrap_u64_range.
  - assert (H : forallb (fun c => forallb (fun c' => implb (e_hash demo_env c =? e_hash demo_env c') (String.eqb c c')) (elements demo_names)) (elements demo_names) = true) by (vm_compute; reflexivity).
    intros c c' Hc Hc' He. rewrite forallb_forall in H. setoid_rewrite forallb_forall in H.
    specialize (H c (proj1 (list_elem_of_In _ _) (proj2 (elem_of_elements _ _) Hc)) c' (proj1 (list_elem_of_In _ _) (proj2 (elem_of_elements _ _) Hc'))).
    rewrite He, Z.eqb_refl in H. by apply String.eqb_eq.
  - intros m H ->. apply list_elem_of_filter in H as [[H|[H|H]] _]; done.
Qed.

Definition demo_process : Type :=
  Process MultiValue.MultiValueWarehouse (gset string) (IntraDispatcher AtomicHashMap rkey) (Dispatcher AtomicHashMap rkey) bytes AtomicHashMap.
Definition demo_start : demo_process := process_new demo_env "raw" "py" ∅.
Definition demo_run (rt : RoleType) (l : list (op bytes)) : option demo_process := run_ops demo_env rt demo_names (fun _ => 0%nat) l demo_start.
Definition demo_channel (n : string) : RoleAttributes := mkAttr None None None None (Some n) None None None None None None.
Definition demo_identity (h : Z) : Identity := mkIdentity [] h.

(** A writer of another host. *)
Definition demo_remote : RoleAttributes :=
  mkRoleAttr (Some "host2"%string) (Some 3) (Some "x"%string) (Some 1) (Some "ch"%string) (Some 2) None None (Some 99) None None
    (Some "10.0.0.2"%string) None.

Lemma demo_reach rt l p : demo_run rt l = Some p -> reachable demo_env rt demo_names (fun _ => 0%nat) "raw" "py" ∅ p.
Proof. apply run_ops_reach. constructor. Qed.

Definition demo_reader : list (op bytes) :=
  [ONode "n"; OCreateReader 0 (demo_identity 50) 0 0 (demo_channel "ch") true 1; ORemote (Some (mkMsg 0 CHANGE_CHANNEL OPT_JOIN ROLE_WRITER demo_remote))].

(** The process of a run that is known to succeed. *)
Definition demo_end (rt : RoleType) (l : list (op bytes)) : demo_process := default demo_start (demo_run rt l).

Lemma demo_end_reach rt l : bool_decide (is_Some (demo_run rt l)) = true ->
  reachable demo_env rt demo_names (fun _ => 0%nat) "raw" "py" ∅ (demo_end rt l).
Proof. intros [p E1]%bool_decide_eq_true. unfold demo_end. rewrite E1. by apply (demo_reach rt l). Qed.

(** The reader of the run, when the message comes. *)
Definition demo_reader_end : Reader bytes :=
  Eval vm_compute in default (mkReader 0 demo_remote false 0 false None "" None None (blocker_new 0 0)) (readers (demo_end ROLE_WRITER demo_reader) !! 1%nat).

Lemma message_received_witness :
  let '(called, p') := arrive (medium_of RTPS) (e_hash demo_env "ch") [5] (mkInfo (demo_identity 99) 0 1 (demo_identity 0)) (demo_end ROLE_WRITER demo_reader) in
  exists n, n ∈ called.
Proof.
  pose proof (message_received demo_env demo_names (fun _ => 0%nat) "raw" "py" ∅ (demo_end ROLE_WRITER demo_reader) demo_remote "ch" RTPS [5]
    (mkInfo (demo_identity 99) 0 1 (demo_identity 0)) eq_refl demo_env_ok eq_refl (demo_end_reach ROLE_WRITER demo_reader ltac:(vm_compute; reflexivity))
    ltac:(apply (bool_decide_unpack _); vm_compute; exact I) eq_refl eq_refl) as H.
  destruct (arrive _ _ _ _ _) as [called p'].
  destruct (H 1%nat demo_reader_end ltac:(vm_compute; reflexivity) eq_refl eq_refl) as (_ & id & n & pos & buf & _ & _ & _ & Hn). by exists n.
Defined.

Definition demo_pair : list (op bytes) :=
  [ONode "n"; OCreateWriter 0 (demo_identity 40) 0 0 (demo_channel "ch"); OCreateReader 0 (demo_identity 50) 0 0 (demo_channel "ch") true 1].

Lemma process_returns_witness : exists p', run_op demo_env (OReaderShutdown 0 2) (demo_end ROLE_READER demo_pair) = Some p' /\
  reachable demo_env ROLE_READER demo_names (fun _ => 0%nat) "raw" "py" ∅ p'.
Proof.
  exact (process_returns demo_env demo_names (fun _ => 0%nat) ROLE_READER "raw" "py" ∅ (demo_end ROLE_READER demo_pair) (OReaderShutdown 0 2)
    eq_refl (or_intror eq_refl) demo_env_ok eq_refl (demo_end_reach ROLE_READER demo_pair ltac:(vm_compute; reflexivity)) I).
Defined.

(** The writer of the pair, as it is after the run. *)
Definition demo_writer : Writer bytes := Eval vm_compute in default (mkWriter 0 demo_remote false None None) (writers (demo_end ROLE_READER demo_pair) !! 1%nat).

Lemma write_reaches_witness :
  let '(ok, media, _, _) := Write 1 [5] (demo_end ROLE_READER demo_pair) in
  ok = true /\
  forall m, m ∈ modes (ObtainConfig (e_modes demo_env)) -> medium_of m ∈ media <->
    exists a, a ∈ known ROLE_READER (demo_end ROLE_READER demo_pair) /\ reached_by demo_env "ch" a = Some m.
Proof.
  exact (write_reaches demo_env demo_names (fun _ => 0%nat) "raw" "py" ∅ (demo_end ROLE_READER demo_pair) 1 demo_writer "ch" [5]
    eq_refl demo_env_ok eq_refl (demo_end_reach ROLE_READER demo_pair ltac:(vm_compute; reflexivity)) ltac:(vm_compute; reflexivity) eq_refl eq_refl).
Defined.

(** The name of a task does not determine the node and the channel: node [n] has a reader of [x_ch], and node [n_x] is refused one of [ch]. *)
Definition demo_names_clash : list (op bytes) :=
  [ONode "n"; OCreateReader 0 (demo_identity 50) 0 0 (demo_channel "x_ch") true 1; ONode "n_x"].

Lemma reader_refused_iff_witness : exists made p',
  CreateReader demo_env 0 (demo_identity 51) 0 2 (demo_channel "ch") true 1 (demo_end ROLE_WRITER demo_names_clash) = Some (made, p') /\
  (made = None <-> "ch"%string = "" \/ is_Some (readers_ (mkNode demo_remote ∅) !! "ch"%string) \/
     task_taken (str_of (Some "n_x"%string) +:+ "_" +:+ "ch") (demo_end ROLE_WRITER demo_names_clash)).
Proof.
  exact (reader_refused_iff demo_env demo_names (fun _ => 0%nat) ROLE_WRITER "raw" "py" ∅ (demo_end ROLE_WRITER demo_names_clash)
    0 (demo_identity 51) 0 2 (mkNode (mkRoleAttr (Some "host"%string) (Some 7) (Some "n_x"%string) (Some 3) None None None None None None None (Some "10.0.0.1"%string) None) ∅)
    (demo_channel "ch") true 1 eq_refl (or_introl eq_refl) demo_env_ok eq_refl
    (demo_end_reach ROLE_WRITER demo_names_clash ltac:(vm_compute; reflexivity)) ltac:(apply (bool_decide_unpack _); vm_compute; exact I) ltac:(vm_compute; reflexivity)).
Defined.

(** C0: a task's name joins the names of the node and of the channel with an underscore, so two different readers may be given one name: node [n] reads
    the channel [x_ch], and node [n_x] cannot read the channel [ch], which no reader of the process reads. *)
Theorem task_names_clash :
  exists p', CreateReader demo_env 0 (demo_identity 51) 0 2 (demo_channel "ch") true 1 (demo_end ROLE_WRITER demo_names_clash) = Some (None, p') /\
    (exists node, nodes (demo_end ROLE_WRITER demo_names_clash) !! 2%nat = Some node /\ readers_ node = ∅) /\
    forall a, a ∈ known ROLE_READER (demo_end ROLE_WRITER demo_names_clash) -> Role.channel_name a = Some "x_ch"%string.
Proof.
  eexists. split; [vm_compute; reflexivity|]. split; [eexists; split; [vm_compute; reflexivity|reflexivity]|].
  apply Forall_forall, (bool_decide_unpack _). vm_compute. exact I.
Qed.

(** C0: the readers of a channel in a process share a receiver, and its identifier: when one of two is shut down, the writer takes that
    identifier out, and writes to nobody, though the other reader is known and initialised. *)
Theorem leaving_reader_silences_process :
  let p := demo_end ROLE_WRITER (demo_pair ++ [ONode "n_x"; OCreateReader 0 (demo_identity 51) 0 3 (demo_channel "ch") true 1; OReaderShutdown 0 4]) in
  (exists rd, readers p !! 2%nat = Some rd /\ rd_init rd = true /\ Role.channel_name (rd_attr rd) = Some "ch"%string) /\
  (exists a, a ∈ known ROLE_READER p /\ reached_by demo_env "ch" a = Some INTRA) /\
  exists info p', Write 1 [5] p = (true, [], Some info, p').
Proof.
  cbv zeta. split; [|split].
  - eexists. split; [vm_compute; reflexivity|]. split; reflexivity.
  - apply Exists_exists, (bool_decide_unpack _). vm_compute. exact I.
  - do 2 eexists. vm_compute. reflexivity.
Qed.
