(* ===== verification/Component.v ===== *)
(** * Component: user code that is called with the messages of its channels

    Models [component/component.h] for any number of channels, [component/component_base.h] and [component/timer_component.{h,cc}].  The
    specialisations of [Component] differ in the number of channels: here the list of their types, the first one being the channel whose messages
    start [Proc].  A process runs in reality mode, over the nodes of [Node.v], or in simulation mode, over the blockers of [Blocker.v]; both
    are here.  [Init] and [Proc] are the user's: [Init] returns what it is given, and what [Proc] is called with is a log. *)

From S2P Require Import Prelude Interfaces ShmMessage Role Warehouse AtomicHashMap GlobalData Manager ChannelManager Signal.
From S2P Require Import TimingWheel Timer Blocker FanOut CacheBuffer DataFlow Hybrid HybridPeers Node.

(** [ReaderOption] and [ComponentConfig] of the configuration; the paths of files in it are not modelled. *)
Record ReaderOption := mkOption { channel : string; option_qos : QosProfile; pending_queue_size : Z }.
Record ComponentConfig := mkConfig { config_name : string; config_readers : list ReaderOption }.

(** [CreateReader(reader_cfg)]: the attributes that are set. *)
Definition option_attr (o : ReaderOption) : RoleAttributes :=
  mkRoleAttr None None None None (Some (channel o)) None None None None None None None (Some (option_qos o)).

(** ** A component *)

(** [task]: the coroutine and its visitor, in reality mode.  [blockers]: the blockers that the callback of simulation mode has kept, by type and
    channel.  [expired]: nobody holds the object any more, and the weak pointer of the callbacks finds nothing. *)
Record Component (V : Type) := mkComponent {
  is_shutdown_ : bool;
  node_ : option nat;
  readers_ : list nat;
  task : option DataVisitor;
  blockers : list (nat * string);
  expired : bool;
  processed : list (list V);
}.
Arguments mkComponent {V}. Arguments is_shutdown_ {V}. Arguments node_ {V}. Arguments readers_ {V}. Arguments task {V}.
Arguments blockers {V}. Arguments expired {V}. Arguments processed {V}.

Section component.
Context {V : Type}.
Abbreviation Component := (Component V).

Definition component_new : Component := mkComponent false None [] None [] false [].

(** [Process]: a component that was shut down does nothing. *)
Definition CProcess (msgs : list V) (c : Component) : Component :=
  if is_shutdown_ c then c
  else mkComponent false (node_ c) (readers_ c) (task c) (blockers c) (expired c) (processed c ++ [msgs]).

(** The callback, over a weak pointer. *)
Definition func (msgs : list V) (c : Component) : Component := if expired c then c else CProcess msgs c.

Definition with_node (n : nat) (c : Component) : Component :=
  mkComponent (is_shutdown_ c) (Some n) (readers_ c) (task c) (blockers c) (expired c) (processed c).
Definition with_readers (rs : list nat) (c : Component) : Component :=
  mkComponent (is_shutdown_ c) (node_ c) rs (task c) (blockers c) (expired c) (processed c).
Definition with_task (v : option DataVisitor) (c : Component) : Component :=
  mkComponent (is_shutdown_ c) (node_ c) (readers_ c) v (blockers c) (expired c) (processed c).
Definition with_blockers (l : list (nat * string)) (c : Component) : Component :=
  mkComponent (is_shutdown_ c) (node_ c) (readers_ c) (task c) l (expired c) (processed c).
Definition shut (c : Component) : Component := mkComponent true (node_ c) (readers_ c) (task c) (blockers c) (expired c) (processed c).
(** The last shared pointer is gone. *)
Definition expire (c : Component) : Component := mkComponent (is_shutdown_ c) (node_ c) (readers_ c) (task c) (blockers c) true (processed c).

(** The coroutine runs once. *)
Definition component_fetch `{!Inhabited V} {Map} (c : Component) (d : world V Map) : Component :=
  match task c ≫= fun v => visitor_fetch v d with
  | Some (m0, ms, v1) => func (m0 :: ms) (with_task (Some v1) c)
  | None => c
  end.
End component.

(** ** Reality mode *)

Section reality.
Context {W T DI DO V : Type} {Map : Type -> Type}.
Context `{!Warehouse W, !Tasks T, !FanOut DI rkey V, !FanOut DO rkey V, !KeyMap Map, !Inhabited V}.
Context (E : Environment).
Abbreviation Process := (Process W T DI DO V Map).
Abbreviation Component := (Component V).

(** The readers of the channels after the first, in turn; [j] counts the identities. *)
Fixpoint create_others (now : Z) (identity : nat -> Identity) (n j : nat) (l : list (nat * ReaderOption)) (p : Process) : option (list (option nat) * Process) :=
  match l with
  | [] => Some ([], p)
  | (ty, o) :: l' =>
      '(r, p1) ← CreateReader E now (identity j) ty n (option_attr o) false (pending_queue_size o) p;
      '(rs, p2) ← create_others now identity n (S j) l' p1;
      Some (r :: rs, p2)
  end.

(** What the visitor is made with: [ChannelId()] and [PendingQueueSize()] of a reader. *)
Definition visitor_config (p : Process) (r : nat) : option VisitorConfig :=
  rd ← readers p !! r; Some (mkVC (rd_type rd) (int_of (Role.channel_id (rd_attr rd))) (pending_queue_size_ rd)).

(** The end of [Initialize]: the visitor on all channels and the coroutine, under the name of the node. *)
Definition create_task (name : string) (c0 : VisitorConfig) (cs : list VisitorConfig) (c : Component) (p : Process) : bool * Component * Process :=
  let '(v, d) := make_visitor c0 cs (data p) in
  let '(ok, ts) := t_create name (tasks p) in
  if ok : bool then (true, with_task (Some v) c, with_data (RegisterNotifyCallback (v_notifier v) d) (with_tasks ts p))
  else (false, c, with_data (drop_visitor v d) (with_tasks ts p)).

(** [Initialize(config)] of a component on channels of the [types]; [init] is what the user's [Init] returns. *)
Definition Initialize (now : Z) (identity : nat -> Identity) (types : list nat) (init : bool) (config : ComponentConfig) (c : Component) (p : Process)
    : option (bool * Component * Process) :=
  '(n, p1) ← node_new E (config_name config) p;
  let c1 := with_node n c in
  if (length (config_readers config) <? length types)%nat then Some (false, c1, p1)
  else if negb init then Some (false, c1, p1)
  else match types, config_readers config with
  | t0 :: ts, o0 :: os =>
      '(others, p2) ← create_others now identity n 1 (zip ts os) p1;
      '(r0, p3) ← CreateReader E now (identity 0%nat) t0 n (option_attr o0) false (pending_queue_size o0) p2;
      match mapM (fun r => r) (r0 :: others) with
      | None => Some (false, c1, p3)
      | Some rs =>
          cs ← mapM (visitor_config p3) rs;
          match cs with
          | [] => None
          | k0 :: ks => Some (create_task (config_name config) k0 ks (with_readers rs c1) p3)
          end
      end
  | _, _ => Some (true, c1, p1)
  end.

(** The coroutine of the component in the process. *)
Definition run_component (c : Component) (p : Process) : Component := component_fetch c (data p).

(** [Shutdown]; [None]: the component has no node yet. *)
Definition Shutdown (now : Z) (c : Component) (p : Process) : option (Component * Process) :=
  if is_shutdown_ c then Some (c, p)
  else
    let p1 := fold_left (fun p r => ReaderShutdown E now r p) (readers_ c) p in
    n ← node_ c;
    node ← nodes p1 !! n;
    let ts := t_remove (str_of (node_name (n_attr node))) (tasks p1) in
    Some (with_task None (shut c), with_data (match task c with Some v => drop_visitor v (data p1) | None => data p1 end) (with_tasks ts p1)).
End reality.

(** ** Simulation mode *)

Section simulation.
Context {V : Type}.
Abbreviation Component := (Component V).
Abbreviation world := (Blocker.world V).

(** The node's [CreateReader] in simulation mode: the reader gets the number [r].  A reader that does not initialise is destroyed,
    which shuts it down. *)
Definition sim_create (node : string) (made : list string) (r ty : nat) (o : ReaderOption) (callback : bool) (w : world) : option nat * world :=
  if decide (channel o ∈ made \/ channel o = "") then (None, w)
  else
    let '(ok, w1) := Blocker.ReaderInit r (Blocker.with_reader r (Blocker.mkReader ty (channel o) (qos_depth (option_qos o)) node false 0 0 callback) w) in
    if ok : bool then (Some r, w1) else (None, Blocker.ReaderShutdown r w1).

Fixpoint sim_others (node : string) (made : list string) (r : nat) (l : list (nat * ReaderOption)) (w : world) : list (option nat) * list string * world :=
  match l with
  | [] => ([], made, w)
  | (ty, o) :: l' =>
      let '(x, w1) := sim_create node made r ty o false w in
      let '(xs, made', w2) := sim_others node (if x is Some _ then channel o :: made else made) (S r) l' w1 in
      (x :: xs, made', w2)
  end.

(** The readers get the numbers from [r] on, that of the first channel the first. *)
Definition SimInitialize (r : nat) (types : list nat) (init : bool) (config : ComponentConfig) (c : Component) (w : world) : bool * Component * world :=
  let c1 := with_node r c in
  if (length (config_readers config) <? length types)%nat then (false, c1, w)
  else if negb init then (false, c1, w)
  else match types, config_readers config with
  | t0 :: ts, o0 :: os =>
      let '(others, made, w1) := sim_others (config_name config) [] (S r) (zip ts os) w in
      let '(x0, w2) := sim_create (config_name config) made r t0 o0 true w1 in
      match mapM (fun x => x) (x0 :: others) with
      | None => (false, c1, w2)
      | Some rs => (true, with_blockers (zip ts (channel <$> os)) (with_readers rs c1), w2)
      end
  | _, _ => (true, c1, w)
  end.

(** The callback of the first reader: the newest message of every other channel, if each has one. *)
Definition sim_func (w : world) (msg : V) (c : Component) : Component :=
  match mapM (fun k => GetBlocker k.1 k.2 (blockers_ w) ≫= GetLatestPublishedPtr) (blockers c) with
  | Some ms => func (msg :: ms) c
  | None => c
  end.

(** A message is published; the component's callback is run for what its first reader received. *)
Definition sim_publish (now : Z) (ty : nat) (ch : string) (msg : V) (cw : Component * world) : Component * world :=
  let '(c, w) := cw in
  let w1 := snd (publish_and_call now ty ch msg w) in
  (fold_left (fun c e => if decide (Some e.1 = head (readers_ c)) then sim_func w1 e.2 c else c) (drop (length (received w)) (received w1)) c, w1).

(** [Shutdown] of a component of simulation mode; there is no task to remove. *)
Definition SimShutdown (c : Component) (w : world) : Component * world :=
  if is_shutdown_ c then (c, w) else (shut c, fold_left (fun w r => Blocker.ReaderShutdown r w) (readers_ c) w).
End simulation.

(** ** TimerComponent *)

(** The configuration may leave its name or its interval out. *)
Record TimerConfig := mkTimerConfig { timer_name : option string; interval : option Z }.

(** [calls]: how often [Proc] was called. *)
Record TimerComponent := mkTimerComponent { t_shutdown : bool; t_node : option string; interval_ : Z; timer_ : option Timer; calls : nat }.

Definition timer_component_new : TimerComponent := mkTimerComponent false None 0 None 0.

(** [id]: the number that the task of the timer gets. *)
Definition TimerInitialize (reality_mode init : bool) (id : nat) (config : TimerConfig) (t : TimerComponent) (w : TimingWheel) : bool * TimerComponent * TimingWheel :=
  match timer_name config, interval config with
  | Some name, Some i =>
      if negb init then (false, mkTimerComponent (t_shutdown t) (Some name) (interval_ t) (timer_ t) (calls t), w)
      else
        let '(tm, w1) := Start reality_mode id (timer_new (mkOpt i false)) w in
        (true, mkTimerComponent (t_shutdown t) (Some name) (interval_ t) (Some tm) (calls t), w1)
  | _, _ => (false, t, w)
  end.

Definition Proc (t : TimerComponent) : TimerComponent := mkTimerComponent (t_shutdown t) (t_node t) (interval_ t) (timer_ t) (S (calls t)).
Definition TProcess (t : TimerComponent) : TimerComponent := if t_shutdown t then t else Proc t.
Definition GetInterval (t : TimerComponent) : Z := interval_ t.

(** What the timer calls: [self->Proc()]. *)
Definition timer_callback : TimerComponent -> TimerComponent := Proc.

(** [timer_.reset()]. *)
Definition Clear (t : TimerComponent) (w : TimingWheel) : TimerComponent * TimingWheel :=
  (mkTimerComponent (t_shutdown t) (t_node t) (interval_ t) None (calls t), match timer_ t with Some tm => snd (Stop tm w) | None => w end).

(** [ComponentBase::Shutdown]; [None]: there is no node whose name could be taken. *)
Definition TimerShutdown (t : TimerComponent) (w : TimingWheel) : option (TimerComponent * TimingWheel) :=
  if t_shutdown t then Some (t, w)
  else _ ← t_node t; Some (Clear (mkTimerComponent true (t_node t) (interval_ t) (timer_ t) (calls t)) w).

(** ** Properties *)

Section reality_facts.
Context {W T DI DO V : Type} {Map : Type -> Type}.
Context `{!Warehouse W, !Tasks T, !FanOut DI rkey V, !FanOut DO rkey V, !KeyMap Map, !Inhabited V}.
Context (E : Environment).
Abbreviation Process := (Process W T DI DO V Map).
Implicit Types (p : Process) (c : Component V).

(** A configuration with too few readers, or a user's [Init] that fails: the node was made, and nothing else. *)
Theorem initialize_refuses now identity types init config c p n p1 :
  node_new E (config_name config) p = Some (n, p1) -> (length (config_readers config) < length types)%nat \/ init = false ->
  Initialize E now identity types init config c p = Some (false, with_node n c, p1).
Proof.
  intros Hn H. unfold Initialize. rewrite Hn. cbn [mbind option_bind]. destruct (Nat.ltb_spec (length (config_readers config)) (length types)); [done|].
  destruct H as [ | -> ]; [lia|done].
Qed.

(** What a component on channels has when [Initialize] says so: a reader for every type, and a coroutine whose visitor was made from these
    readers in their order and is told of messages; and it had not started anything before. *)
Theorem initialize_makes now identity types init config c p c' p' :
  Initialize E now identity types init config c p = Some (true, c', p') -> types <> [] ->
  init = true /\ (length types <= length (config_readers config))%nat /\ length (readers_ c') = length types /\
  exists p3 k0 ks, mapM (visitor_config p3) (readers_ c') = Some (k0 :: ks) /\ t_create (config_name config) (tasks p3) = (true, tasks p') /\
    let '(v, d) := make_visitor k0 ks (data p3) in task c' = Some v /\ data p' = RegisterNotifyCallback (v_notifier v) d /\ processed c' = processed c.
Proof.
  unfold Initialize. intros H Hne. apply bind_Some in H as ([n p1] & _ & H). destruct (Nat.ltb_spec (length (config_readers config)) (length types)) as [|Hlen]; [done|].
  destruct init; [|done]. cbn [negb] in H. destruct types as [|t0 ts]; [done|]. destruct (config_readers config) as [|o0 os]; [cbn in Hlen; lia|].
  apply bind_Some in H as ([others p2] & Eo & H). apply bind_Some in H as ([r0 p3] & _ & H).
  assert (Hl : length others = length ts).
  { revert Eo. replace (length ts) with (length (zip ts os)) by (rewrite length_zip_with; cbn in Hlen; lia). clear. generalize (zip ts os) as l, 1%nat as j. intros l. revert p1 others.
    induction l as [|[ty o] l IH]; intros p1 others j Eo; cbn in Eo; [by injection Eo as <- _|].
    apply bind_Some in Eo as ([r q1] & _ & Eo). apply bind_Some in Eo as ([rs q2] & E2 & Eo). injection Eo as <- ->. cbn. f_equal. by eapply IH. }
  destruct (mapM (fun r => r) (r0 :: others)) as [rs|] eqn:Em; [|done]. apply length_mapM in Em. cbn [length] in Em.
  apply bind_Some in H as (ks & Ek & H). destruct ks as [|k0 ks]; [done|]. injection H as H. unfold create_task in H.
  split; [done|]. split; [done|]. destruct (make_visitor k0 ks (data p3)) as [v d] eqn:Ev. destruct (t_create (config_name config) (tasks p3)) as [[] tk] eqn:Et; [|done].
  injection H as <- <-. cbn. split; [by rewrite <- Em, Hl|]. exists p3, k0, ks. split; [done|]. split; [done|]. by rewrite Ev.
Qed.
End reality_facts.

(** [TimerComponent::Initialize] succeeds whenever a name and an interval are given and [Init] succeeds; but in reality mode the timer runs only
    for some intervals, and for the others nothing is on the wheel and nobody is told.  And [GetInterval] is not the interval. *)
Theorem timer_component_initialize reality_mode init id config t w :
  let '(ok, t', w') := TimerInitialize reality_mode init id config t w in
  (ok = true <-> init = true /\ is_Some (timer_name config) /\ is_Some (interval config)) /\
  (forall i, ok = true -> reality_mode = true -> interval config = Some i ->
     (0 < i < TIMER_MAX_INTERVAL_MS -> w' = AddTask id (mkTask 0 i) w) /\ (i = 0 \/ TIMER_MAX_INTERVAL_MS <= i -> w' = w)) /\
  GetInterval t' = GetInterval t.
Proof.
  unfold TimerInitialize. destruct (timer_name config) as [name|], (interval config) as [i|];
    try (split; [split; [done|by intros (_ & [? [= ]] & [? [= ]])]|by split; [intros ? [= ]|]]).
  destruct init; cbn [negb]; [|split; [split; [done|by intros []]|by split; [intros ? [= ]|]]].
  destruct (Start reality_mode id (timer_new (mkOpt i false)) w) as [tm w'] eqn:Es. split; [split; [|done]; intros _; split_and!; by eauto|]. split; [|done].
  intros j _ -> [= <-]. revert Es. unfold Start, InitTimerTask. cbn [negb timer_new started_ timer_opt_ period].
  destruct (Z.eqb_spec i 0) as [->|Hi]; [intros [= _ <-]; split; [lia|done]|]. destruct (Z.leb_spec TIMER_MAX_INTERVAL_MS i); intros [= _ <-]; (split; [by lia || done|by lia || done]).
Qed.

(** The timer calls [Proc] itself, so a call that is under way when the component is shut down goes through; [Process], which would look at
    the flag, is called by nobody. *)
Theorem timer_calls_after_shutdown : forall t w t' w', TimerShutdown t w = Some (t', w') -> t_shutdown t = false ->
  calls (timer_callback t') = S (calls t') /\ calls (TProcess t') = calls t'.
Proof.
  unfold TimerShutdown. intros t w t' w' H Ht. rewrite Ht in H. apply bind_Some in H as (? & _ & H). injection H as <- _. done.
Qed.
