(* ===== verification/ComponentModes.v ===== *)
(** * ComponentModes: a component is called with the same messages in both modes

    In reality mode the messages of a component's channels go through the buffers and the fusion of its visitor, and in simulation mode through
    the blockers and a callback.  [fuse] says what the user's [Proc] is to be called with: each message of the first channel with the newest one of
    every other channel, once they all have one.  Simulation mode does that; in reality mode the scheduler decides when the component's
    coroutine runs, and the calls are those as long as it keeps up with the messages. *)

From S2P Require Import Prelude Interfaces Role CacheBuffer Blocker DataFlow NodeParts Component.

(** ** What a component is to be called with *)

Section fuse.
Context {V : Type}.
Implicit Types l seen : list (nat * V).

(** The messages of a channel in a sequence of messages of numbered channels. *)
Definition hist (i : nat) l : list V := omap (fun e => if decide (e.1 = i) then Some e.2 else None) l.

(** The newest messages of the channels after the first, of [n] channels. *)
Definition newest (n : nat) l : option (list V) := mapM (fun i => last (hist i l)) (seq 1 (n - 1)).

Definition fuse_step (n : nat) (acc : list (nat * V) * list (V * list V)) (e : nat * V) : list (nat * V) * list (V * list V) :=
  (acc.1 ++ [e], acc.2 ++ if decide (e.1 = 0%nat) then option_list (pair e.2 <$> newest n acc.1) else []).

Definition fuse (n : nat) l : list (V * list V) := (fold_left (fuse_step n) l ([], [])).2.

Lemma fuse_seen n l : (fold_left (fuse_step n) l ([], [])).1 = l.
Proof. induction l as [|e l IH] using rev_ind; [done|]. rewrite fold_left_app. cbn. by rewrite IH. Qed.

Lemma fuse_snoc n l e : fuse n (l ++ [e]) = fuse n l ++ if decide (e.1 = 0%nat) then option_list (pair e.2 <$> newest n l) else [].
Proof. unfold fuse. rewrite fold_left_app. cbn. by rewrite fuse_seen. Qed.

Lemma hist_snoc i l e : hist i (l ++ [e]) = hist i l ++ if decide (e.1 = i) then [e.2] else [].
Proof. unfold hist. rewrite omap_app. cbn. by case_decide. Qed.

Lemma newest_first n l m : newest n (l ++ [(0%nat, m)]) = newest n l.
Proof.
  unfold newest. assert (H : forall k s, mapM (fun i => last (hist i (l ++ [(0%nat, m)]))) (seq (S s) k) = mapM (fun i => last (hist i l)) (seq (S s) k)); [|apply H].
  induction k as [|k IH]; intros s; [done|]. cbn. rewrite IH, hist_snoc. cbn. by rewrite decide_False, app_nil_r by lia.
Qed.

Lemma length_hist i l : (length (hist i l) <= length l)%nat.
Proof. unfold hist. induction l as [|e l IH]; cbn; [lia|]. case_decide; cbn; lia. Qed.

Lemma length_fuse n l : (length (fuse n l) <= length l)%nat.
Proof.
  induction l as [|e l IH] using rev_ind; [done|]. rewrite fuse_snoc, !length_app. cbn. case_decide; [|cbn; lia].
  destruct (newest n l); cbn; lia.
Qed.

Lemma fuse_one l : fuse 1 l = (fun m => (m, [])) <$> hist 0 l.
Proof. induction l as [|e l IH] using rev_ind; [done|]. rewrite fuse_snoc, hist_snoc, fmap_app, IH. cbn. by case_decide. Qed.
End fuse.

(** ** Reality mode *)

Section reality.
Context {V : Type} `{!Inhabited V} {Map : Type -> Type} `{!KeyMap Map, !KeyMapLaws Map}.
Abbreviation world := (DataFlow.world V Map).
Implicit Types (w : world) (l : list (nat * V)) (cs : list VisitorConfig).

(** The buffer [id] is registered for one type and channel and no other. *)
Record at_only w (id : nat) (ty : nat) (ch : Z) : Prop := {
  ao_some : is_Some (km_get ch (dispatcher ty w));
  ao_iff : forall ty' ch' ids, is_u64 ch' -> km_get ch' (dispatcher ty' w) = Some ids -> id ∈ ids <-> ty' = ty /\ ch' = ch;
}.

Lemma at_only_new w id ty ch : world_wf w -> is_u64 ch -> (next_id w <= id)%nat -> at_only (AddBuffer ty ch id w) id ty ch.
Proof.
  intros Hw Hch Hid. split.
  - rewrite dispatcher_AddBuffer by done. by rewrite decide_True.
  - intros ty' ch' ids Hch'. rewrite dispatcher_AddBuffer by done. case_decide as Hk.
    + intros [= <-]. split; [done|]. intros _. apply elem_of_app. right. by left.
    + intros Hids. split; [|by intros H; destruct Hk]. intros Hin. destruct (ww_ids _ Hw ty' ch' ids Hch' Hids) as [_ Hall].
      rewrite Forall_forall in Hall. specialize (Hall _ Hin). lia.
Qed.

Lemma at_only_old w id id' ty ch ty' ch' : world_wf w -> is_u64 ch -> is_u64 ch' -> id' <> id -> at_only w id' ty' ch' -> at_only (AddBuffer ty ch id w) id' ty' ch'.
Proof.
  intros Hw Hch Hch' Hne [H1 H2]. split.
  - rewrite dispatcher_AddBuffer by done. by case_decide.
  - intros ty2 ch2 ids Hch2. rewrite dispatcher_AddBuffer by done. case_decide as Hk; [|by apply H2].
    destruct Hk as [-> ->]. intros [= <-]. rewrite elem_of_app, list_elem_of_singleton. destruct (km_get ch (dispatcher ty w)) as [ids|] eqn:Eg; cbn.
    + rewrite (H2 ty ch ids Hch Eg). naive_solver.
    + split; [by intros [[]%elem_of_nil|]|]. intros [-> ->]. rewrite Eg in H1. by destruct H1.
Qed.

Lemma at_only_same w w' id ty ch : dispatchers w' = dispatchers w -> at_only w id ty ch -> at_only w' id ty ch.
Proof. intros E [H1 H2]. split; unfold dispatcher in *; by rewrite E. Qed.

(** What making the buffers of some channels does. *)
Record added cs w (r : list nat * world) : Prop := {
  ad_ids : r.1 = seq (next_id w) (length cs);
  ad_next : next_id r.2 = (next_id w + length cs)%nat;
  ad_up : is_shutdown r.2 = is_shutdown w;
  ad_wf : world_wf r.2;
  ad_new : forall i c, cs !! i = Some c ->
    at_only r.2 (next_id w + i) (vc_type c) (vc_channel c) /\ buffers r.2 !! (next_id w + i)%nat = Some (cb_new (vc_queue_size c));
  ad_old : forall id, (id < next_id w)%nat -> buffers r.2 !! id = buffers w !! id /\ forall ty ch, is_u64 ch -> at_only w id ty ch -> at_only r.2 id ty ch;
}.

Lemma add_channels_added cs w : world_wf w -> Forall (fun c => is_u64 (vc_channel c)) cs -> added cs w (add_channels cs w).
Proof.
  intros Hw Hcs. revert w Hw. induction Hcs as [|c cs Hc Hcs IH]; intros w Hw; cbn [add_channels].
  - split; cbn; [done|lia|done|done|done|done].
  - pose proof (add_channel_wf c w Hc Hw) as Hw1. unfold add_channel in *. set (w0 := mkW _ _ _ _ _ _ _) in *.
    assert (Hw0 : world_wf w0) by (apply (same_dispatchers_wf w); [done|done|cbn; lia|apply Hw]).
    set (w1 := AddBuffer _ _ _ _) in *. cbn [snd] in Hw1. destruct (IH w1 Hw1) as [A1 A2 A3 A4 A5 A6]. destruct (add_channels cs w1) as [ids w2].
    cbn [fst snd] in *. change (next_id w1) with (S (next_id w)) in *. split; cbn [fst snd length]; [by rewrite A1|lia|done|done| |].
    + intros [|i] k Hi; cbn in Hi.
      * injection Hi as <-. rewrite Nat.add_0_r. destruct (A6 (next_id w)) as [B1 B2]; [lia|]. split; [|rewrite B1; apply lookup_insert_eq].
        apply B2; [done|]. subst w1. apply (at_only_same (AddBuffer (vc_type c) (vc_channel c) (next_id w) w)); [done|]. by apply at_only_new.
      * replace (next_id w + S i)%nat with (S (next_id w) + i)%nat by lia. by apply A5.
    + intros id Hid. destruct (A6 id) as [B1 B2]; [lia|]. split; [rewrite B1; cbn; apply lookup_insert_ne; lia|].
      intros ty ch Hch Hat. apply B2; [done|]. apply at_only_old; [done|done|done|lia|]. by apply (at_only_same w).
Qed.

(** The configuration of a channel by its number, and the buffer made for it. *)
Definition keys cs : list (nat * Z) := (fun c => (vc_type c, vc_channel c)) <$> cs.

(** A visitor on the channels [cs] with the buffers [ids], after the messages [l]. *)
Record visits cs (ids : list nat) l w : Prop := {
  vi_wf : world_wf w;
  vi_up : is_shutdown w = false;
  vi_nodup : NoDup ids;
  vi_length : length ids = length cs;
  vi_at : forall i c id, cs !! i = Some c -> ids !! i = Some id -> at_only w id (vc_type c) (vc_channel c);
  vi_others : forall i c id, cs !! i = Some c -> ids !! i = Some id -> i <> 0%nat \/ length cs = 1%nat ->
    exists b, buffers w !! id = Some b /\ holds (vc_queue_size c) (hist i l) b;
  vi_first : length cs <> 1%nat -> forall c id, cs !! 0%nat = Some c -> ids !! 0%nat = Some id -> exists b a, buffers w !! id = Some b /\ fusion_callback_ b = true /\
    fusions w !! id = Some a /\ secondary a = drop 1 ids /\ holds (vc_queue_size c) (fuse (length cs) l) (buffer_fusion_ a);
}.

Lemma lookup_seq_id start n i : (i < n)%nat -> seq start n !! i = Some (start + i)%nat.
Proof. intros H. by apply lookup_seq. Qed.

Lemma make_visitor_visits c0 cs w : world_wf w -> is_shutdown w = false ->
  Forall (fun c => is_u64 (vc_channel c) /\ 0 <= vc_queue_size c < two64 - 1) (c0 :: cs) ->
  let '(v, w') := make_visitor c0 cs w in v_next v = 0 /\ visits (c0 :: cs) (v_ids v) [] w'.
Proof.
  intros Hw Hup Hcs. pose proof (make_visitor_wf c0 cs w) as Hwf. assert (Hch : Forall (fun c => is_u64 (vc_channel c)) (c0 :: cs)) by (eapply Forall_impl; [exact Hcs|]; naive_solver).
  specialize (Hwf Hch Hw). pose proof (add_channels_added (c0 :: cs) w Hw Hch) as [A1 A2 A3 A4 A5 A6]. unfold make_visitor in *.
  destruct (add_channels (c0 :: cs) w) as [ids w1]. cbn [fst snd] in *. subst ids. cbn [length seq] in *.
  set (w2 := AddNotifier _ _ _) in *. assert (Hb : buffers w2 = buffers w1) by done. assert (Hd : dispatchers w2 = dispatchers w1) by done.
  rewrite Forall_forall in Hcs.
  assert (Hhold : forall i c w', (c0 :: cs) !! i = Some c -> buffers w' !! (next_id w + i)%nat = buffers w1 !! (next_id w + i)%nat ->
    exists b, buffers w' !! (next_id w + i)%nat = Some b /\ holds (vc_queue_size c) [] b).
  { intros i c w' Hi E. destruct (A5 i c Hi) as [_ B]. exists (cb_new (vc_queue_size c)). rewrite E. split; [done|].
    apply holds_new. by destruct (Hcs c (list_elem_of_lookup_2 _ _ _ Hi)). }
  assert (Hids : forall i c id, (c0 :: cs) !! i = Some c -> seq (next_id w) (S (length cs)) !! i = Some id -> id = (next_id w + i)%nat).
  { intros i c id Hi [-> _]%lookup_seq. done. }
  destruct cs as [|c1 cs]; cbn [v_ids v_next length seq] in *.
  - split; [done|]. split; [done|by rewrite <- Hup, <- A3|apply (NoDup_seq _ 1)|done| | |by intros []].
    + intros i c id Hi Hid. pose proof (Hids i c id Hi Hid) as ->. apply (at_only_same w1); [done|]. by apply A5.
    + intros i c id Hi Hid _. pose proof (Hids i c id Hi Hid) as ->. by eapply Hhold.
  - unfold make_fusion in *. destruct (A5 0%nat c0 eq_refl) as [B1 B2]. rewrite Nat.add_0_r in *. rewrite Hb, B2 in *.
    set (w3 := set_fusion _ _ _) in *. assert (Hd3 : dispatchers w3 = dispatchers w1) by done.
    split; [done|]. split; [done|by rewrite <- Hup, <- A3|apply (NoDup_seq _ (S (S (length cs))))|cbn; by rewrite length_seq| | |].
    + intros i c id Hi Hid. pose proof (Hids i c id Hi Hid) as ->. apply (at_only_same w1); [done|]. by apply A5.
    + intros i c id Hi Hid [Hne|]; [|done]. pose proof (Hids i c id Hi Hid) as ->. eapply Hhold; [done|].
      cbn [w3 set_fusion set_buffer buffers]. rewrite lookup_insert_ne by lia. done.
    + intros _ c id [= <-] [= <-]. eexists _, _.
      split; [cbn; apply lookup_insert_eq|]. split; [done|]. split; [cbn; apply lookup_insert_eq|]. split; [done|].
      destruct (Hcs c0) as [_ Hq]; [by left|]. cbn [buffer_fusion_].
      cbn [CacheBuffer.capacity_ cb_new]. rewrite (wrap_u64_small (vc_queue_size c0 + 1)) by lia. rewrite Z.add_simpl_r, wrap_u64_small by lia. by apply holds_new.
Qed.

(** *** A message *)

Lemma newest_hists n l : newest n l = mapM last ((fun i => hist i l) <$> seq 1 (n - 1)).
Proof. unfold newest. generalize (seq 1 (n - 1)). intros js. induction js as [|i js IH]; [done|]. cbn. by rewrite IH. Qed.

Lemma visits_secondary cs ids l w : visits cs ids l w -> length cs <> 1%nat ->
  Forall2 (holds_id w) (drop 1 ids) ((fun i => hist i l) <$> seq 1 (length cs - 1)).
Proof.
  intros Hv Hn. apply Forall2_same_length_lookup_2.
  - rewrite length_drop, length_fmap, length_seq, (vi_length _ _ _ _ Hv). done.
  - intros j id h. rewrite lookup_drop. intros Hid (i & -> & Hi)%list_lookup_fmap_Some_1. apply lookup_seq in Hi as [-> Hj].
    destruct (lookup_lt_is_Some_2 cs (1 + j)) as [c Hc]; [lia|]. destruct (vi_others _ _ _ _ Hv _ c _ Hc Hid) as (b & Hb & Hh); [left; lia|]. by exists (vc_queue_size c), b.
Qed.

Lemma keys_at cs ids l w i j ci cj idj K : visits cs ids l w -> NoDup (keys cs) -> Forall (fun c => is_u64 (vc_channel c)) cs ->
  cs !! i = Some ci -> cs !! j = Some cj -> ids !! j = Some idj -> km_get (vc_channel ci) (dispatcher (vc_type ci) w) = Some K -> idj ∈ K <-> j = i.
Proof.
  intros Hv Hnd Hch Hi Hj Hid HK. rewrite (ao_iff _ _ _ _ (vi_at _ _ _ _ Hv j cj idj Hj Hid) (vc_type ci) (vc_channel ci) K); [|by eapply Forall_lookup_1 in Hch|done].
  split; [|by intros ->; simplify_eq]. intros [E1 E2]. symmetry. apply (NoDup_lookup (keys cs) i j (vc_type ci, vc_channel ci)); [done|..];
    unfold keys; rewrite list_lookup_fmap; [by rewrite Hi|rewrite Hj; cbn; by rewrite E1, E2].
Qed.

Lemma visits_step cs ids l w i c m : visits cs ids l w -> NoDup (keys cs) -> Forall (fun c => is_u64 (vc_channel c)) cs -> cs !! i = Some c ->
  Z.of_nat (length l) + 1 < two64 - 1 -> visits cs ids (l ++ [(i, m)]) (Dispatch (vc_type c) (vc_channel c) m w).2.
Proof.
  intros Hv Hnd Hch Hi Hl. pose proof (dispatch_extends (vc_type c) (vc_channel c) m w) as [_ Hwf]. specialize (Hwf (vi_wf _ _ _ _ Hv)).
  destruct (lookup_lt_is_Some_2 ids i) as [idi Hidi]; [rewrite (vi_length _ _ _ _ Hv); by eapply lookup_lt_Some|].
  destruct (ao_some _ _ _ _ (vi_at _ _ _ _ Hv i c idi Hi Hidi)) as [K HK].
  pose proof (fun j cj idj Hj Hid => keys_at cs ids l w i j c cj idj K Hv Hnd Hch Hi Hj Hid HK) as Hin.
  destruct (ww_ids _ (vi_wf _ _ _ _ Hv) _ _ _ (proj1 (Forall_lookup _ _) Hch i c Hi) HK) as [HndK _].
  unfold Dispatch in *. rewrite (vi_up _ _ _ _ Hv), HK in *. cbn [snd] in *. pose proof (fill_loop_registry m K w) as Hreg.
  destruct Hv as [V1 V2 V3 V4 V5 V6 V7]. split; try done.
  - by rewrite fill_loop_up.
  - intros j cj idj Hj Hid. apply (at_only_same w); [apply Hreg|]. by eapply V5.
  - intros j cj idj Hj Hid Hne. destruct (V6 j cj idj Hj Hid Hne) as (b & Hb & Hh). rewrite hist_snoc. cbn [fst snd].
    rewrite fill_loop_lookup by done. specialize (Hin j cj idj Hj Hid). pose proof (length_hist j l). destruct (decide (i = j)) as [->|Hij].
    + rewrite decide_True, Hb by by apply Hin. eexists _. split; [done|]. apply holds_fill; [done|lia].
    + rewrite decide_False, app_nil_r by (rewrite Hin; congruence). by exists b.
  - intros Hn k0 id0 Hk0 Hid0. destruct (V7 Hn k0 id0 Hk0 Hid0) as (b & a & Hb & Hcb & Ha & Hsec & Hf). specialize (Hin 0%nat k0 id0 Hk0 Hid0) as Hin0.
    pose proof (length_fuse (length cs) l). rewrite fuse_snoc. cbn [fst snd]. rewrite fill_loop_lookup by done. destruct (decide (i = 0%nat)) as [->|Hi0].
    + rewrite decide_True, Hb by by apply Hin0. assert (Hbf : (Fill m b).1 = b) by (unfold Fill; by rewrite Hcb).
      exists b. cbn. rewrite Hbf. rewrite (fill_loop_fusion m K w id0 b a); try done; [|by apply Hin0|].
      * rewrite (latest_all_holds w (secondary a) ((fun i => hist i l) <$> seq 1 (length cs - 1))).
        2: { rewrite Hsec. apply (visits_secondary cs); [by split|done]. }
        rewrite <- newest_hists. destruct (newest (length cs) l) as [ms|]; eexists; (split; [done|]); (split; [done|]); (split; [done|]); (split; [done|]); cbn.
        -- apply holds_fill; [done|lia].
        -- by rewrite app_nil_r.
      * rewrite Hsec. intros s Hs HsK. apply list_elem_of_lookup_1 in Hs as [j Hj]. rewrite lookup_drop in Hj.
        destruct (lookup_lt_is_Some_2 cs (1 + j)) as [cj Hcj]; [rewrite <- V4; by eapply lookup_lt_Some|]. by apply (Hin (1 + j)%nat cj s Hcj Hj) in HsK.
    + rewrite decide_False by (rewrite Hin0; congruence). exists b, a. rewrite Hb. rewrite fill_loop_fusions_ne by (rewrite Hin0; congruence).
      rewrite app_nil_r. by split_and!.
Qed.

(** *** Messages and turns of the coroutine *)

(** The next index of a visitor that has fetched the first [k] messages. *)
Definition position (next : Z) (k : nat) : Prop := next = if decide (k = 0%nat) then 0 else Z.of_nat k + 1.

(** A reader that has fetched [k] of [n] messages finds the next one: it is at most a whole queue behind, and when it fetches for the first time
    there is only one. *)
Definition on_time (size : Z) (k n : nat) : Prop := Z.of_nat n - Z.of_nat k <= if decide (k = 0%nat) then 1 else Z.max 1 size.

#[export] Instance on_time_dec size k n : Decision (on_time size k n).
Proof. unfold on_time. apply _. Defined.

Lemma fetch_next {A} `{!Inhabited A} size (h : list A) b next k x : holds size h b -> position next k -> on_time size k (length h) -> h !! k = Some x ->
  TryFetch next b = Some (x, Z.of_nat k + 2).
Proof.
  intros Hb Hn Ht Hx. pose proof (h_short _ _ _ Hb) as Hs. pose proof (h_size _ _ _ Hb) as Hz. pose proof (h_tail _ _ _ Hb) as Hta. pose proof (h_cap _ _ _ Hb) as Hc.
  pose proof (lookup_lt_Some _ _ _ Hx) as Hlt. unfold position, on_time in *.
  assert (Hat : at_ b (Z.of_nat k + 1) = x).
  { pose proof (held_at size h b Hb (Z.of_nat k + 1)) as H. replace (Z.to_nat (Z.of_nat k + 1 - 1)) with k in H by lia. rewrite Hx in H.
    case_decide; (specialize (H ltac:(lia) ltac:(lia)); congruence). }
  unfold TryFetch. rewrite (held_Fetch _ _ _ Hb) by (case_decide; lia). rewrite (decide_False (P := _ \/ h = [])).
  2: { intros [H|H]; [case_decide; lia|by subst h]. }
  assert (Hi : (if decide (next = 0 \/ next + size <= Z.of_nat (length h)) then Z.of_nat (length h) else next) = Z.of_nat k + 1).
  { destruct (decide (k = 0%nat)); destruct (decide (next = 0 \/ next + size <= Z.of_nat (length h))); lia. }
  cbv zeta. rewrite Hi, Hat, wrap_u64_small by lia. do 2 f_equal. lia.
Qed.

Lemma fetch_none {A} `{!Inhabited A} size (h : list A) b next : holds size h b -> position next (length h) -> TryFetch next b = None.
Proof.
  intros Hb Hn. unfold position in Hn. pose proof (h_short _ _ _ Hb) as Hs. unfold TryFetch. case_decide as Hd.
  - apply length_zero_iff_nil in Hd. rewrite (held_Fetch _ _ _ Hb) by lia. rewrite decide_True; [done|by right].
  - rewrite (held_Fetch _ _ _ Hb) by lia. rewrite decide_True; [done|by left].
Qed.

(** The visitor of [visits] fetches what [fuse] says. *)
Lemma visits_fetch c0 cs v l w : visits (c0 :: cs) (v_ids v) l w ->
  (position (v_next v) (length (fuse (length (c0 :: cs)) l)) -> visitor_fetch v w = None) /\
  (forall k t, position (v_next v) k -> on_time (vc_queue_size c0) k (length (fuse (length (c0 :: cs)) l)) -> fuse (length (c0 :: cs)) l !! k = Some t ->
     visitor_fetch v w = Some (t.1, t.2, mkDV (v_ids v) (v_notifier v) (Z.of_nat k + 2))).
Proof.
  intros Hv. pose proof (vi_length _ _ _ _ Hv) as Hlen. destruct v as [ids nt next]. cbn [v_ids v_notifier v_next] in *.
  unfold visitor_fetch. cbn [v_ids v_notifier v_next]. destruct ids as [|id0 [|id1 ids]]; cbn [length] in *; [done| |].
  - assert (Hn1 : length cs = 0%nat) by lia. rewrite Hn1, fuse_one, length_fmap.
    destruct (vi_others _ _ _ _ Hv 0%nat c0 id0 eq_refl eq_refl) as (b & Hb & Hh); [right; cbn; lia|]. rewrite Hb. cbn [mbind option_bind]. split.
    + intros Hc. by rewrite (fetch_none (vc_queue_size c0) (hist 0 l)).
    + intros k t Hc Ht. rewrite list_lookup_fmap. destruct (hist 0 l !! k) as [x|] eqn:Ex; [|done]. intros [= <-].
      by rewrite (fetch_next (vc_queue_size c0) (hist 0 l) b next k x).
  - destruct (vi_first _ _ _ _ Hv ltac:(cbn; lia) c0 id0 eq_refl eq_refl) as (b & a & Hb & Hcb & Ha & Hsec & Hf). rewrite Ha. cbn [mbind option_bind length] in *.
    split.
    + intros Hc. by rewrite (fetch_none (vc_queue_size c0) (fuse (S (length cs)) l)).
    + intros k t Hc Ht Hk. rewrite (fetch_next (vc_queue_size c0) (fuse (S (length cs)) l) _ next k t) by done. by destruct t.
Qed.

(** A message is dispatched on a channel, or the scheduler lets the coroutine run once. *)
Inductive event := Message (e : nat * V) | Run.

Definition real_step cs (cw : Component V * world) (ev : event) : Component V * world :=
  match ev with
  | Message e => match cs !! e.1 with Some k => (cw.1, (Dispatch (vc_type k) (vc_channel k) e.2 cw.2).2) | None => cw end
  | Run => (component_fetch cw.1 cw.2, cw.2)
  end.

Definition real_run cs (evs : list event) (cw : Component V * world) : Component V * world := fold_left (real_step cs) evs cw.

(** What the component has been called with. *)
Definition calls_of (n : nat) l : list (list V) := (fun t => t.1 :: t.2) <$> fuse n l.

(** The messages of a schedule, and how many calls its turns are enough for. *)
Definition schedule_step (n : nat) (acc : list (nat * V) * nat) (ev : event) : list (nat * V) * nat :=
  match ev with
  | Message e => (acc.1 ++ [e], acc.2)
  | Run => (acc.1, if decide (acc.2 < length (fuse n acc.1))%nat then S acc.2 else acc.2)
  end.
Definition schedule (n : nat) (evs : list event) : list (nat * V) * nat := fold_left (schedule_step n) evs ([], 0%nat).

(** At each turn the coroutine is in time for its queue of [size]. *)
Definition keeps_up (n : nat) (size : Z) (evs : list event) : Prop :=
  forall evs1 evs2, evs = evs1 ++ Run :: evs2 -> let '(l, k) := schedule n evs1 in on_time size k (length (fuse n l)).

Lemma schedule_snoc n evs ev : schedule n (evs ++ [ev]) = schedule_step n (schedule n evs) ev.
Proof. unfold schedule. by rewrite fold_left_app. Qed.

Lemma schedule_le n evs : ((schedule n evs).2 <= length (fuse n (schedule n evs).1))%nat.
Proof.
  induction evs as [|ev evs IH] using rev_ind; [done|]. rewrite schedule_snoc. destruct ev as [e|]; cbn.
  - rewrite fuse_snoc, length_app. lia.
  - case_decide; lia.
Qed.

Lemma keeps_up_prefix n size evs ev : keeps_up n size (evs ++ [ev]) -> keeps_up n size evs.
Proof. intros H evs1 evs2 ->. apply (H evs1 (evs2 ++ [ev])). by rewrite <- app_assoc. Qed.

Record follows cs l (k : nat) (cw : Component V * world) : Prop := {
  fo_task : exists v, task cw.1 = Some v /\ visits cs (v_ids v) l cw.2 /\ position (v_next v) k;
  fo_up : is_shutdown_ cw.1 = false /\ expired cw.1 = false;
  fo_processed : processed cw.1 = take k (calls_of (length cs) l);
}.

Lemma message_follows cs l k cw e : follows cs l k cw -> NoDup (keys cs) -> Forall (fun c => is_u64 (vc_channel c)) cs -> (e.1 < length cs)%nat ->
  Z.of_nat (length l) + 1 < two64 - 1 -> (k <= length (fuse (length cs) l))%nat -> follows cs (l ++ [e]) k (real_step cs cw (Message e)).
Proof.
  intros [(v & Ht & Hv & Hc) Hup Hp] Hnd Hch He Hl Hk. destruct cw as [c w], e as [i m]. cbn [fst snd real_step] in *.
  destruct (lookup_lt_is_Some_2 cs i He) as [ci Hi]. rewrite Hi. pose proof (visits_step cs _ l w i ci m Hv Hnd Hch Hi Hl) as Hv'.
  split; cbn [fst snd]; [by exists v|done|]. unfold calls_of in *. rewrite fuse_snoc, fmap_app, take_app_le by (by rewrite length_fmap). done.
Qed.

Lemma run_follows c0 cs l k cw : follows (c0 :: cs) l k cw -> (k <= length (fuse (length (c0 :: cs)) l))%nat ->
  on_time (vc_queue_size c0) k (length (fuse (length (c0 :: cs)) l)) ->
  follows (c0 :: cs) l (if decide (k < length (fuse (length (c0 :: cs)) l))%nat then S k else k) (real_step (c0 :: cs) cw Run).
Proof.
  intros [(v & Ht & Hv & Hc) [Hs Hx] Hp] Hk Hot. destruct cw as [c w]. cbn [fst snd real_step] in *. destruct (visits_fetch c0 cs v l w Hv) as [F1 F2].
  unfold component_fetch. rewrite Ht. cbn [mbind option_bind]. set (n := length (c0 :: cs)) in *. case_decide as Hlt.
  - destruct (lookup_lt_is_Some_2 (fuse n l) k Hlt) as [t Hkt]. rewrite (F2 k t Hc Hot Hkt). unfold func, with_task, CProcess; cbn. rewrite Hx, Hs. split; cbn; [|done|].
    + eexists. split; [done|]. split; [done|]. unfold position. cbn [v_next]. rewrite decide_False by done. lia.
    + rewrite Hp. symmetry. apply take_S_r. unfold calls_of. by rewrite list_lookup_fmap, Hkt.
  - assert (k = length (fuse n l)) as -> by lia. rewrite F1 by done. split; cbn; [by exists v|done|done].
Qed.

Lemma real_run_follows c0 cs evs cw : follows (c0 :: cs) [] 0 cw -> NoDup (keys (c0 :: cs)) -> Forall (fun c => is_u64 (vc_channel c)) (c0 :: cs) ->
  let '(l, k) := schedule (length (c0 :: cs)) evs in
  Forall (fun e => (e.1 < length (c0 :: cs))%nat) l -> Z.of_nat (length l) < two64 - 1 -> keeps_up (length (c0 :: cs)) (vc_queue_size c0) evs ->
  follows (c0 :: cs) l k (real_run (c0 :: cs) evs cw).
Proof.
  intros H0 Hnd Hch. induction evs as [|ev evs IH] using rev_ind; [by intros _ _ _|]. unfold real_run. rewrite fold_left_app, schedule_snoc. cbn [fold_left].
  fold (real_run (c0 :: cs) evs cw). pose proof (schedule_le (length (c0 :: cs)) evs) as Hle. set (N := length (c0 :: cs)) in *.
  destruct (schedule N evs) as [l k] eqn:E. destruct ev as [e|]; cbn [schedule_step fst snd] in *.
  - rewrite Forall_app, length_app, Forall_singleton. cbn [length]. intros [Hl He] Hb Hup. apply message_follows; try done; [|lia].
    apply IH; [done|lia|by eapply keeps_up_prefix].
  - intros Hl Hb Hup. apply run_follows; [|done|].
    + apply IH; [done|done|by eapply keeps_up_prefix].
    + pose proof (Hup evs [] eq_refl) as H. by rewrite E in H.
Qed.

(** The schedule in which the coroutine runs after each message. *)
Definition prompt l : list event := l ≫= fun e => [Message e; Run].

Lemma prompt_snoc l e : prompt (l ++ [e]) = (prompt l ++ [Message e]) ++ [Run].
Proof. unfold prompt. by rewrite bind_app, <- app_assoc. Qed.

Lemma prompt_taken n l : schedule n (prompt l) = (l, length (fuse n l)).
Proof.
  induction l as [|e l IH] using rev_ind; [done|]. rewrite prompt_snoc, !schedule_snoc, IH. cbn. f_equal. rewrite fuse_snoc, length_app.
  destruct (if decide (e.1 = 0%nat) then _ else _) as [|t [|]] eqn:Et; [rewrite Nat.add_0_r; by rewrite decide_False by lia|change (length [t]) with 1%nat; rewrite decide_True by lia; lia|].
  exfalso. case_decide; [|done]. by destruct (newest n l).
Qed.

(** It keeps up with any queue. *)
Lemma prompt_keeps_up n size l : keeps_up n size (prompt l).
Proof.
  induction l as [|e l IH] using rev_ind; [by intros [|? ?] ? ?|]. rewrite prompt_snoc. intros evs1 evs2 E.
  destruct evs2 as [|ev evs2 _] using rev_ind.
  - apply app_inj_tail in E as [<- _]. rewrite schedule_snoc, prompt_taken. cbn. rewrite fuse_snoc, length_app. unfold on_time.
    assert (H : (length (if decide (e.1 = 0%nat) then option_list (pair e.2 <$> newest n l) else []) <= 1)%nat) by (case_decide; [destruct (newest n l); cbn; lia|cbn; lia]).
    set (x := length (if decide (e.1 = 0%nat) then _ else _)) in *. clearbody x. destruct (decide (_ = 0%nat)); lia.
  - rewrite app_comm_cons, app_assoc in E. apply app_inj_tail in E as [E _]. destruct evs2 as [|ev' evs2 _] using rev_ind.
    + by apply app_inj_tail in E as [_ ?].
    + rewrite app_comm_cons, app_assoc in E. apply app_inj_tail in E as [E _]. by apply (IH evs1 evs2).
Qed.

Lemma start_follows k0 ks c w : world_wf w -> is_shutdown w = false -> is_shutdown_ c = false -> expired c = false -> processed c = [] ->
  Forall (fun c => is_u64 (vc_channel c) /\ 0 <= vc_queue_size c < two64 - 1) (k0 :: ks) ->
  let '(v, d) := make_visitor k0 ks w in follows (k0 :: ks) [] 0 (with_task (Some v) c, RegisterNotifyCallback (v_notifier v) d).
Proof.
  intros Hw Hup Hs Hx Hp Hk. pose proof (make_visitor_visits k0 ks w Hw Hup Hk) as H. destruct (make_visitor k0 ks w) as [v d]. destruct H as [Hn Hv].
  split; cbn; [|done|by rewrite Hp]. exists v. split; [done|]. split; [|by rewrite Hn]. destruct Hv as [V1 V2 V3 V4 V5 V6 V7].
  split; try done; [by apply register_wf|]. intros i k id Hi Hid. apply (at_only_same d); [done|]. by apply (V5 i).
Qed.
End reality.

(** ** Simulation mode *)

Section simulation.
Context {V : Type}.
Abbreviation world := (Blocker.world V).
Implicit Types (w : world) (l : list (nat * V)) (ks : list (nat * string)) (c : Component V).

Definition has_callback w (r : nat) : Prop := msg_callback_ <$> readers w !! r = Some true.

#[local] Instance has_callback_dec w r : Decision (has_callback w r).
Proof. unfold has_callback. apply _. Defined.

(** What the callbacks of a published message do. *)
Record called_with (now : Z) (msg : V) (rs : list nat) w w' : Prop := {
  cw_blockers : blockers_ w' = blockers_ w;
  cw_callbacks : forall r, has_callback w' r <-> has_callback w r;
  cw_received : received w' = received w ++ ((fun r => (r, msg)) <$> filter (has_callback w) rs);
}.

Lemma on_messages now msg rs w : called_with now msg rs w (fold_left (OnMessage now msg) rs w).
Proof.
  revert w. induction rs as [|r rs IH]; intros w; cbn [fold_left]; [split; [done|done|by rewrite app_nil_r]|].
  assert (H : called_with now msg [r] w (OnMessage now msg w r)).
  { unfold OnMessage. destruct (readers w !! r) as [rd|] eqn:Er.
    - split; cbn; [done| |].
      + intros r'. unfold has_callback; cbn. destruct (decide (r' = r)) as [->|]; [by rewrite lookup_insert_eq, Er|by rewrite lookup_insert_ne].
      + assert (Hd : has_callback w r <-> msg_callback_ rd = true) by (unfold has_callback; rewrite Er; cbn; split; congruence).
        destruct (msg_callback_ rd); [by rewrite decide_True by by apply Hd|]. rewrite decide_False, app_nil_r by by rewrite Hd. done.
    - split; [done|done|]. cbn. rewrite decide_False, app_nil_r; [done|]. unfold has_callback. by rewrite Er. }
  destruct H as [A1 A2 A3]. destruct (IH (OnMessage now msg w r)) as [B1 B2 B3]. split; [by rewrite B1|by intros r'; rewrite B2|].
  rewrite B3, A3, <- app_assoc. f_equal. rewrite (filter_cons _ r rs), (filter_cons _ r []). cbn.
  rewrite (list_filter_iff (has_callback (OnMessage now msg w r)) (has_callback w)) by done. by case_decide.
Qed.

(** The component's callback is run for the one entry of its first reader. *)
Definition run_for (r : nat) (w1 : world) c (e : nat * V) : Component V := if decide (Some e.1 = head (readers_ c)) then sim_func w1 e.2 c else c.

Lemma sim_func_readers w msg c : readers_ (sim_func w msg c) = readers_ c.
Proof. unfold sim_func, func, CProcess. by repeat case_match. Qed.

Lemma run_none r w1 msg rs c : head (readers_ c) = Some r -> r ∉ rs -> fold_left (run_for r w1) ((fun r => (r, msg)) <$> rs) c = c.
Proof.
  intros Hr. induction rs as [|x rs IH]; intros Hn; [done|]. cbn. unfold run_for at 2; cbn. rewrite Hr, decide_False by (intros [= ->]; apply Hn; by left).
  apply IH. intros ?. apply Hn. by right.
Qed.

Lemma run_for_once r w1 msg rs1 rs2 c : head (readers_ c) = Some r -> r ∉ rs1 -> r ∉ rs2 ->
  fold_left (run_for r w1) ((fun r => (r, msg)) <$> (rs1 ++ r :: rs2)) c = sim_func w1 msg c.
Proof.
  intros Hr H1 H2. rewrite fmap_app, fold_left_app, (run_none r w1 msg rs1) by done. cbn. unfold run_for at 2; cbn. rewrite Hr, decide_True by done.
  apply run_none; [by rewrite sim_func_readers|done].
Qed.

(** A table of callbacks in which one reader is at one name, and the readers that are called. *)
Lemma values_split (m : gmap string nat) name r : m !! name = Some r -> (forall id, m !! id = Some r -> id = name) ->
  exists xs ys, snd <$> map_to_list m = xs ++ r :: ys /\ (r ∉ xs) /\ (r ∉ ys).
Proof.
  intros Hm Hu. pose proof (NoDup_fst_map_to_list m) as Hnd. apply elem_of_map_to_list in Hm as Hin. apply list_elem_of_split in Hin as (l1 & l2 & E).
  rewrite E in *. rewrite fmap_app in Hnd. cbn in Hnd. apply NoDup_app in Hnd as (_ & Hd & [Hn _]%NoDup_cons). exists (l1.*2), (l2.*2). split; [by rewrite fmap_app|].
  assert (Hk : forall k, (k, r) ∈ l1 ++ (name, r) :: l2 -> k = name) by (intros k Hk; apply Hu; apply elem_of_map_to_list; by rewrite E).
  split; intros ([k ?] & -> & Hkr)%list_elem_of_fmap; cbn in *.
  - assert (k = name) as -> by (apply Hk; apply elem_of_app; by left). apply (Hd name); [apply list_elem_of_fmap; by exists (name, n)|by left].
  - assert (k = name) as -> by (apply Hk; apply elem_of_app; right; by right). apply Hn. apply list_elem_of_fmap. by exists (name, n).
Qed.

Lemma values_none (m : gmap string nat) r : (forall id, m !! id <> Some r) -> r ∉ (map_to_list m).*2.
Proof. intros H ([k ?] & -> & Hk%elem_of_map_to_list)%list_elem_of_fmap. by apply (H k). Qed.

Lemma trim_head {A} fuel cap (q : list A) : 1 <= cap -> head (trim fuel cap q) = head q.
Proof.
  intros Hc. revert q. induction fuel as [|fuel IH]; intros q; cbn [trim]; [done|]. destruct (Z.ltb_spec cap (Z.of_nat (length q))) as [Hlt|_]; [|done]. rewrite IH.
  destruct q as [|x [|y q]]; [done| |done]. cbn [length] in Hlt. lia.
Qed.

(** A component in simulation mode after the messages [l]: its blockers hold the newest message of each channel, and the callback of the first
    reader, and no other, is with the first blocker. *)
Record simulates (node : string) (r : nat) ks l (cw : Component V * world) : Prop := {
  si_blockers : forall i k, ks !! i = Some k -> exists b, blockers_ cw.2 !! k.2 = Some b /\ type_of b = k.1 /\ 1 <= capacity_ b /\
    head (published_msg_queue_ b) = last (hist i l) /\ forall id, published_callbacks_ b !! id = Some r <-> i = 0%nat /\ id = node;
  si_callback : has_callback cw.2 r;
  si_reader : head (readers_ cw.1) = Some r;
  si_others : blockers cw.1 = drop 1 ks;
  si_up : is_shutdown_ cw.1 = false /\ expired cw.1 = false;
  si_processed : processed cw.1 = calls_of (length ks) l;
}.

Definition sim_step (now : Z) ks (cw : Component V * world) (e : nat * V) : Component V * world :=
  match ks !! e.1 with Some k => sim_publish now k.1 k.2 e.2 cw | None => cw end.
Definition sim_run (now : Z) ks l (cw : Component V * world) : Component V * world := fold_left (sim_step now ks) l cw.

Lemma mapM_newest (f : nat * string -> option V) ks l : (forall j k, ks !! S j = Some k -> f k = last (hist (S j) l)) ->
  mapM f (drop 1 ks) = newest (length ks) l.
Proof.
  intros H. destruct ks as [|k0 ks]; [done|]. unfold newest. cbn [drop length]. replace (S (length ks) - 1)%nat with (length ks) by lia.
  assert (Hs : forall s, (forall j k, ks !! j = Some k -> f k = last (hist (s + j) l)) -> mapM f ks = mapM (fun i => last (hist i l)) (seq s (length ks))).
  { clear. induction ks as [|k ks IH]; intros s H; [done|]. cbn. rewrite (H 0%nat k eq_refl), Nat.add_0_r. rewrite (IH (S s)); [done|].
    intros j k' Hj. rewrite (H (S j) k' Hj). do 2 f_equal. lia. }
  apply Hs. intros j k Hj. by apply (H j).
Qed.

(** *** A message *)

Lemma publish_known now ty ch msg w b : blockers_ w !! ch = Some b -> type_of b = ty ->
  publish_and_call now ty ch msg w =
    (true, fold_left (OnMessage now msg) (Blocker.Notify b) (Blocker.with_blockers (<[ch := Blocker.Enqueue msg b]> (blockers_ w)) w)).
Proof.
  intros Hb Ht. unfold publish_and_call, Publish, GetOrCreateBlocker. rewrite Hb, Ht, Nat.eqb_refl. unfold BPublish. cbn.
  assert (Hn : Blocker.Notify (Blocker.Enqueue msg b) = Blocker.Notify b) by (unfold Blocker.Enqueue; by case_if). by rewrite Hn.
Qed.

Lemma enqueue_facts msg (b : Blocker V) : 1 <= capacity_ b -> type_of (Blocker.Enqueue msg b) = type_of b /\ capacity_ (Blocker.Enqueue msg b) = capacity_ b /\
  published_callbacks_ (Blocker.Enqueue msg b) = published_callbacks_ b /\ head (published_msg_queue_ (Blocker.Enqueue msg b)) = Some msg.
Proof.
  intros Hc. unfold Blocker.Enqueue. destruct (Z.eqb_spec (capacity_ b) 0) as [E|_]; [lia|].
  split_and!; try done. cbn [set_queues published_msg_queue_]. by rewrite trim_head.
Qed.

Lemma sim_step_simulates now node r ks l cw e : simulates node r ks l cw -> NoDup (ks.*2) -> (e.1 < length ks)%nat ->
  simulates node r ks (l ++ [e]) (sim_step now ks cw e).
Proof.
  intros [S1 S2 S3 S4 [S5 S5'] S6] Hnd He. destruct cw as [c w], e as [i m]. cbn [fst snd] in *. unfold sim_step. cbn [fst snd].
  destruct (lookup_lt_is_Some_2 ks i He) as [k Hk]. rewrite Hk. destruct (S1 i k Hk) as (b & Hb & Hty & Hcap & Hlast & Hcb).
  unfold sim_publish. rewrite (publish_known now k.1 k.2 m w b Hb Hty). cbn [snd].
  set (w0 := Blocker.with_blockers _ w).
  pose proof (on_messages now m (Blocker.Notify b) w0) as [C1 C2 C3]. set (w1 := fold_left _ _ _) in *. cbn [received w0 Blocker.with_blockers] in C3.
  destruct (enqueue_facts m b Hcap) as (Q1 & Q2 & Q3 & Q4).
  assert (Hrec : drop (length (received w)) (received w1) = (fun r => (r, m)) <$> filter (has_callback w0) (Blocker.Notify b)) by (rewrite C3; apply drop_app_length).
  rewrite Hrec. clear C3 Hrec.
  assert (Hbl : forall j kj, ks !! j = Some kj -> exists b, blockers_ w1 !! kj.2 = Some b /\ type_of b = kj.1 /\ 1 <= capacity_ b /\
    head (published_msg_queue_ b) = last (hist j (l ++ [(i, m)])) /\ forall id, published_callbacks_ b !! id = Some r <-> j = 0%nat /\ id = node).
  { intros j kj Hj. rewrite C1. cbn [w0 Blocker.with_blockers blockers_]. rewrite hist_snoc. cbn [fst snd]. destruct (decide (i = j)) as [<-|Hne].
    - assert (kj = k) as -> by congruence. rewrite lookup_insert_eq. eexists. split; [done|]. rewrite Q1, Q2, Q3, Q4, last_snoc. done.
    - rewrite lookup_insert_ne, app_nil_r; [by apply S1|]. intros E2. apply Hne. apply (NoDup_lookup (ks.*2) i j k.2); [done|..]; rewrite list_lookup_fmap; [by rewrite Hk|by rewrite Hj, E2]. }
  change (fun (c : Component V) e => if decide (Some e.1 = head (readers_ c)) then sim_func w1 e.2 c else c) with (run_for r w1).
  assert (Hw0 : has_callback w0 r) by done.
  assert (Hrun : fold_left (run_for r w1) ((fun r => (r, m)) <$> filter (has_callback w0) (Blocker.Notify b)) c = if decide (i = 0%nat) then sim_func w1 m c else c).
  { destruct (decide (i = 0%nat)) as [->|Hi].
    - destruct (values_split (published_callbacks_ b) node r) as (xs & ys & E & Hx & Hy); [by apply Hcb|by intros id Hid; apply Hcb|].
      unfold Blocker.Notify. rewrite E, filter_app, filter_cons, decide_True by done. apply run_for_once; [done|by intros [_ ?]%list_elem_of_filter..].
    - apply run_none; [done|]. unfold Blocker.Notify. intros [_ Hin]%list_elem_of_filter. revert Hin. apply values_none. intros id Hid. by apply Hcb in Hid as [? _]. }
  rewrite Hrun. clear Hrun.
  assert (Hnew : mapM (fun k => GetBlocker k.1 k.2 (blockers_ w1) ≫= GetLatestPublishedPtr) (blockers c) = newest (length ks) (l ++ [(i, m)])).
  { rewrite S4. apply mapM_newest. intros j kj Hj. destruct (Hbl (S j) kj Hj) as (bj & E1 & E2 & _ & E3 & _). unfold GetBlocker. rewrite E1, E2, Nat.eqb_refl. done. }
  pose proof (fuse_snoc (length ks) l (i, m)) as Hf. cbn [fst snd] in Hf.
  assert (Hres : forall c', head (readers_ c') = Some r -> blockers c' = drop 1 ks -> is_shutdown_ c' = false /\ expired c' = false -> processed c' = calls_of (length ks) (l ++ [(i, m)]) ->
    simulates node r ks (l ++ [(i, m)]) (c', w1)) by (intros c' ????; split; try done; by apply C2).
  destruct (decide (i = 0%nat)) as [->|Hi].
  - unfold sim_func. rewrite Hnew, newest_first. destruct (newest (length ks) l) as [ms|]; cbn in Hf.
    + unfold func, CProcess. rewrite S5', S5. apply Hres; cbn; try done. rewrite S6. unfold calls_of. by rewrite Hf, fmap_app.
    + rewrite app_nil_r in Hf. apply Hres; try done. unfold calls_of. by rewrite Hf.
  - rewrite app_nil_r in Hf. apply Hres; try done. unfold calls_of. by rewrite Hf.
Qed.

Lemma sim_run_simulates now node r ks l cw : simulates node r ks [] cw -> NoDup (ks.*2) -> Forall (fun e => (e.1 < length ks)%nat) l ->
  simulates node r ks l (sim_run now ks l cw).
Proof.
  intros H0 Hnd. induction l as [|e l IH] using rev_ind; intros Hl; [done|]. apply Forall_app in Hl as [Hl He]. rewrite Forall_singleton in He.
  unfold sim_run. rewrite fold_left_app. cbn. apply sim_step_simulates; [by apply IH|done|done].
Qed.

(** *** Initialize *)

(** The blocker that a reader makes: nothing published, and its callback. *)
Definition reader_blocker_new (node : string) (r ty : nat) (o : ReaderOption) : Blocker V :=
  set_callbacks {[node := r]} (blocker_new ty (qos_depth (option_qos o))).

Lemma sim_create_new node made r ty o cb w : channel o ∉ made -> channel o <> "" -> blockers_ w !! channel o = None ->
  exists w', sim_create node made r ty o cb w = (Some r, w') /\ blockers_ w' = <[channel o := reader_blocker_new node r ty o]> (blockers_ w) /\
    (has_callback w' r <-> cb = true) /\ forall r', r' <> r -> readers w' !! r' = readers w !! r'.
Proof.
  intros Hm Hne Hb. unfold sim_create. rewrite decide_False by tauto. unfold Blocker.ReaderInit. cbn [Blocker.with_reader readers]. rewrite lookup_insert_eq. cbn.
  unfold Subscribe, GetOrCreateBlocker. cbn. rewrite Hb. unfold BSubscribe. cbn. eexists. split; [done|]. cbn. rewrite insert_insert_eq. split; [done|]. split.
  - unfold has_callback. cbn. rewrite insert_insert_eq, lookup_insert_eq. cbn. split; [by intros [= ->]|by intros ->].
  - intros r' Hr. by rewrite !lookup_insert_ne.
Qed.

Lemma sim_others_new node made r (os : list (nat * ReaderOption)) w : NoDup ((fun o => channel o.2) <$> os) ->
  Forall (fun o => (channel o.2 ∉ made) /\ channel o.2 <> "" /\ blockers_ w !! channel o.2 = None) os ->
  exists w' made', sim_others node made r os w = (Some <$> seq r (length os), made', w') /\
    (forall ch, (ch ∈ made') <-> (ch ∈ made) \/ ch ∈ ((fun o => channel o.2) <$> os)) /\
    (forall i o, os !! i = Some o -> blockers_ w' !! channel o.2 = Some (reader_blocker_new node (r + i) o.1 o.2)) /\
    forall ch, ch ∉ ((fun o => channel o.2) <$> os) -> blockers_ w' !! ch = blockers_ w !! ch.
Proof.
  revert made r w. induction os as [|[ty o] os IH]; intros made r w Hnd Hos; cbn [sim_others].
  { exists w, made. split; [done|]. split; [|done]. intros ch. cbn. rewrite elem_of_nil. tauto. }
  cbn in Hnd. apply NoDup_cons in Hnd as [Hni Hnd]. apply Forall_cons in Hos as [(Hm & Hne & Hb) Hos]. cbn in Hm, Hne, Hb.
  destruct (sim_create_new node made r ty o false w Hm Hne Hb) as (w1 & -> & Hb1 & _).
  destruct (IH (channel o :: made) (S r) w1 Hnd) as (w2 & made2 & -> & A1 & A2 & A3).
  { rewrite Forall_forall in *. intros [ty' o'] Hin. destruct (Hos _ Hin) as (H1 & H2 & H3). cbn in *.
    assert (channel o' <> channel o) by (intros E; apply Hni; rewrite <- E; apply list_elem_of_fmap; by exists (ty', o')).
    split; [|split; [done|by rewrite Hb1, lookup_insert_ne]]. intros [|]%elem_of_cons; done. }
  exists w2, made2. split; [done|]. cbn [fmap list_fmap]. split; [|split].
  - intros ch. rewrite A1, !elem_of_cons. cbn. tauto.
  - intros [|i] [ty' o'] Hi; cbn in Hi.
    + injection Hi as <- <-. cbn. rewrite Nat.add_0_r, A3, Hb1 by done. apply lookup_insert_eq.
    + rewrite (A2 i _ Hi). do 2 f_equal. lia.
  - intros ch Hch. cbn in Hch. rewrite A3 by (intros ?; apply Hch; by right). rewrite Hb1. apply lookup_insert_ne. intros <-. apply Hch. by left.
Qed.

(** The channels of a configuration with their types; as many as there are types. *)
Definition channels (types : list nat) (config : ComponentConfig) : list (nat * ReaderOption) := zip types (config_readers config).
Definition channel_names (types : list nat) (config : ComponentConfig) : list (nat * string) := (fun o => (o.1, channel o.2)) <$> channels types config.

Lemma mapM_somes {A} (l : list A) : mapM (fun x => x) (Some <$> l) = Some l.
Proof. induction l as [|x l IH]; [done|]. cbn. by rewrite IH. Qed.

Lemma zip_fmap_snd {A B C} (f : B -> C) (xs : list A) (ys : list B) : zip xs (f <$> ys) = (fun p => (p.1, f p.2)) <$> zip xs ys.
Proof. revert ys. induction xs as [|x xs IH]; intros [|y ys]; [done..|]. cbn. by rewrite IH. Qed.

Lemma sim_initialize_new r types config w : types <> [] -> (length types <= length (config_readers config))%nat ->
  NoDup ((fun o => channel o.2) <$> channels types config) ->
  Forall (fun o => 1 <= qos_depth (option_qos o.2) /\ channel o.2 <> "" /\ blockers_ w !! channel o.2 = None) (channels types config) ->
  exists c w', SimInitialize r types true config component_new w = (true, c, w') /\
    simulates (config_name config) r (channel_names types config) [] (c, w').
Proof.
  intros Hne Hlen Hnd Hos. unfold SimInitialize, channel_names, channels in *.
  destruct (Nat.ltb_spec (length (config_readers config)) (length types)) as [|_]; [lia|]. cbn [negb].
  destruct types as [|t0 ts]; [done|]. destruct (config_readers config) as [|o0 os]; [cbn in *; lia|]. cbn [zip zip_with] in *. cbn in Hnd.
  apply NoDup_cons in Hnd as [Hni Hnd]. apply Forall_cons in Hos as [(Hd & Hn0 & Hb) Hos]. cbn [snd] in *.
  destruct (sim_others_new (config_name config) [] (S r) (zip ts os) w Hnd) as (w1 & made & -> & A1 & A2 & A3).
  { eapply Forall_impl; [exact Hos|]. intros o (_ & H1 & H2). split; [apply not_elem_of_nil|done]. }
  destruct (sim_create_new (config_name config) made r t0 o0 true w1) as (w2 & -> & B1 & B2 & _); [|done|by rewrite A3|].
  { rewrite A1. intros [H|H]; [by apply not_elem_of_nil in H|done]. }
  change (Some r :: (Some <$> seq (S r) (length (zip ts os)))) with (Some <$> r :: seq (S r) (length (zip ts os))). rewrite mapM_somes.
  eexists _, w2. split; [reflexivity|]. split; cbn; [|by apply B2|done|by rewrite zip_fmap_snd|done|done].
  intros [|i] k Hk; cbn in Hk.
  - injection Hk as <-. cbn. rewrite B1, lookup_insert_eq. eexists. split; [done|]. cbn. split_and!; try done. intros id. rewrite lookup_singleton_Some. naive_solver.
  - apply list_lookup_fmap_Some_1 in Hk as ([ty o] & -> & Hi). cbn. pose proof (Forall_lookup_1 _ _ _ _ Hos Hi) as (Hdo & _ & _). cbn in Hdo.
    rewrite B1, lookup_insert_ne.
    + pose proof (A2 i _ Hi) as HA. cbn in HA. rewrite HA. eexists. split; [done|]. cbn. split_and!; try done. intros id. rewrite lookup_singleton_Some. split; [intros []; lia|naive_solver].
    + intros E. apply Hni. rewrite E. apply list_elem_of_fmap. exists (ty, o). split; [done|]. by eapply list_elem_of_lookup_2.
Qed.
End simulation.

(** ** Both modes *)

Section modes.
Context {V : Type} `{!Inhabited V} {Map : Type -> Type} `{!KeyMap Map, !KeyMapLaws Map}.
Implicit Types l : list (nat * V).

(** The visitor configurations that [Initialize] takes from its readers: the hash of each channel and the length of its queue. *)
Definition visitor_configs (hash : string -> Z) (types : list nat) (config : ComponentConfig) : list VisitorConfig :=
  (fun o => mkVC o.1 (hash (channel o.2)) (pending_queue_size o.2)) <$> channels types config.

(** C13: a component is called with the same messages in reality mode and in simulation mode.  Its channels are different, with histories of at
    least one message and no blockers before, and the process is up.  Whatever messages come, and whenever the scheduler lets the
    component's coroutine run, if it is never more than the first channel's queue behind and has made its first call before there is a second one to make
    ([keeps_up]), the calls so far are the first ones of those that simulation mode makes for the same messages: each message of the first
    channel with the newest one of every other channel, once they all have one; as many as the turns of the coroutine were enough for, and all of them when it runs after each
    message.  In reality mode the messages are dispatched into the buffers of the visitor, which the coroutine reads; in simulation mode they are
    published to the blockers, and the callback of the first reader looks at the other ones. *)
Theorem modes_agree (hash : string -> Z) (types : list nat) (config : ComponentConfig) (evs : list (event (V := V))) (d : DataFlow.world V Map) (w : Blocker.world V) (r : nat) (now : Z) k0 ks :
  (length types <= length (config_readers config))%nat -> visitor_configs hash types config = k0 :: ks ->
  NoDup ((fun o => channel o.2) <$> channels types config) ->
  (forall c c', c ∈ ((fun o => channel o.2) <$> channels types config) -> c' ∈ ((fun o => channel o.2) <$> channels types config) -> hash c = hash c' -> c = c') ->
  Forall (fun o => is_u64 (hash (channel o.2)) /\ 0 <= pending_queue_size o.2 < two64 - 1 /\ 1 <= qos_depth (option_qos o.2) /\ channel o.2 <> "" /\
    blockers_ w !! channel o.2 = None) (channels types config) ->
  world_wf d -> DataFlow.is_shutdown d = false ->
  let '(l, k) := schedule (length types) evs in
  Forall (fun e => (e.1 < length types)%nat) l -> Z.of_nat (length l) < two64 - 1 -> keeps_up (length types) (vc_queue_size k0) evs ->
  let '(v, d1) := make_visitor k0 ks d in
  let real := processed (real_run (k0 :: ks) evs (with_task (Some v) component_new, RegisterNotifyCallback (v_notifier v) d1)).1 in
  real = take k (calls_of (length types) l) /\ (evs = prompt l -> real = calls_of (length types) l) /\
  exists c w', SimInitialize r types true config component_new w = (true, c, w') /\
    processed (sim_run now (channel_names types config) l (c, w')).1 = calls_of (length types) l.
Proof.
  intros Hlen Hk Hnd Hinj Hos Hw Hup. destruct (schedule (length types) evs) as [l k] eqn:Esch. intros Hl Hb Hkeep.
  assert (Hn : length (channels types config) = length types) by (unfold channels; rewrite length_zip_with; lia).
  assert (Hks : length (k0 :: ks) = length types) by (rewrite <- Hk; unfold visitor_configs; by rewrite length_fmap).
  assert (Hcs : Forall (fun c => is_u64 (vc_channel c) /\ 0 <= vc_queue_size c < two64 - 1) (k0 :: ks)).
  { rewrite <- Hk. apply Forall_fmap. eapply Forall_impl; [exact Hos|]. cbn. tauto. }
  assert (Hkeys : NoDup (keys (k0 :: ks))).
  { rewrite <- Hk. unfold keys, visitor_configs. rewrite <- list_fmap_compose. apply NoDup_fmap_2_strong.
    - intros o o' Ho Ho' [= _ E]. apply Hinj in E; [|apply list_elem_of_fmap; by exists o|apply list_elem_of_fmap; by exists o']. apply list_elem_of_lookup in Ho as [i Hi]. apply list_elem_of_lookup in Ho' as [j Hj].
      assert (i = j) as ->; [|congruence]. apply (NoDup_lookup _ i j (channel o.2) Hnd); rewrite list_lookup_fmap; [by rewrite Hi|by rewrite Hj, E].
    - by eapply NoDup_fmap_1. }
  pose proof (start_follows k0 ks component_new d Hw Hup eq_refl eq_refl eq_refl Hcs) as H0. destruct (make_visitor k0 ks d) as [v d1].
  cbv zeta. match goal with |- processed ?x.1 = _ /\ _ => set (cw := x) end.
  assert (Hreal : processed cw.1 = take k (calls_of (length types) l)).
  { rewrite <- Hks in *. pose proof (real_run_follows k0 ks evs _ H0 Hkeys) as H. rewrite Esch in H.
    destruct H as [_ _ H]; [eapply Forall_impl; [exact Hcs|]; naive_solver|done|done|done|exact H]. }
  split; [done|]. split.
  - intros ->. rewrite prompt_taken in Esch. injection Esch as <-. rewrite Hreal. apply take_ge. unfold calls_of. by rewrite length_fmap.
  - destruct (sim_initialize_new r types config w) as (c & w' & E & Hs); [by intros ->|done|done|eapply Forall_impl; [exact Hos|]; cbn; tauto|].
    exists c, w'. split; [done|]. assert (Hcn : length (channel_names types config) = length types) by (unfold channel_names; by rewrite length_fmap).
    rewrite <- Hcn in *. eapply si_processed. apply (sim_run_simulates now); [exact Hs| |done].
    unfold channel_names. rewrite <- list_fmap_compose. exact Hnd.
Qed.
End modes.

(** ** Examples *)

From S2P Require Import AtomicHashMap.

Module ModesDemo.

(** A component on the channels a and b, and two more messages on a than b has before the end. *)
Definition qos : QosProfile := mkQos None (Some 1) None None None.
Definition config : ComponentConfig := mkConfig "fusion" [mkOption "a" qos 4; mkOption "b" qos 4].
Definition hash (c : string) : Z := if decide (c = "a") then 1 else 2.
Definition messages : list (nat * nat) := [(0, 9); (1, 10); (0, 20); (0, 30); (1, 11); (0, 40)]%nat.
Definition empty : Blocker.world nat := Blocker.mkW ∅ ∅ ∅ [].

Lemma hash_inj c c' : c ∈ ["a"; "b"] -> c' ∈ ["a"; "b"] -> hash c = hash c' -> c = c'.
Proof. set_unfold. by intros [->|[->|[]]] [->|[->|[]]]. Qed.

(** The coroutine has made the first call, and runs again when there are two more to make. *)
Definition late : list (event (V := nat)) := (Message <$> take 3 messages) ++ [Run; Run] ++ (Message <$> drop 3 messages) ++ [Run; Run].

Lemma late_keeps_up : keeps_up 2 4 late.
Proof.
  intros evs1 evs2 E. assert (Hi : exists i, (i < 10)%nat /\ evs1 = take i late /\ late !! i = Some Run).
  { exists (length evs1). split; [|split].
    - apply (f_equal length) in E. rewrite length_app in E. cbn in E. lia.
    - by rewrite E, take_app_length.
    - by rewrite E, list_lookup_middle. }
  destruct Hi as (i & Hi & -> & Hr). clear E. unfold on_time. do 10 (destruct i as [|i]; [vm_compute in Hr |- *; try discriminate|]); lia.
Defined.

Lemma modes_agree_witness :
  let '(v, d1) := make_visitor (mkVC 0 1 4) [mkVC 1 2 4] (world_init : DataFlow.world nat AtomicHashMap) in
  processed (real_run [mkVC 0 1 4; mkVC 1 2 4] late (with_task (Some v) component_new, RegisterNotifyCallback (v_notifier v) d1)).1 =
    [[20; 10]; [30; 10]; [40; 11]]%nat /\
  exists c w', SimInitialize 0 [0; 1]%nat true config component_new empty = (true, c, w') /\
    processed (sim_run 5 (channel_names [0; 1]%nat config) messages (c, w')).1 = [[20; 10]; [30; 10]; [40; 11]]%nat.
Proof.
  pose proof (modes_agree hash [0; 1]%nat config late world_init empty 0 5 (mkVC 0 1 4) [mkVC 1 2 4]
    ltac:(vm_compute; lia) ltac:(by vm_compute) ltac:(by apply (bool_decide_unpack _)) hash_inj ltac:(repeat constructor; by vm_compute)
    world_init_wf eq_refl) as H.
  change (schedule (length [0; 1]%nat) late) with (messages, 3%nat) in H. cbv beta iota zeta in H.
  specialize (H ltac:(repeat constructor; vm_compute; lia) ltac:(by vm_compute) late_keeps_up).
  destruct (make_visitor _ _ _) as [v d1]. destruct H as (H1 & _ & H2). split; [exact H1|exact H2].
Defined.

(** Two calls are due before the coroutine has its first turn: the first one is never made. *)
Theorem first_turn_skips :
  let '(v, d1) := make_visitor (mkVC 0 1 4) [mkVC 1 2 4] (world_init : DataFlow.world nat AtomicHashMap) in
  processed (real_run [mkVC 0 1 4; mkVC 1 2 4] ((Message <$> messages) ++ replicate 4 Run)
    (with_task (Some v) component_new, RegisterNotifyCallback (v_notifier v) d1)).1 = [[40; 11]]%nat.
Proof. by vm_compute. Qed.

(** After [Shutdown] nothing is processed, whatever still arrives. *)
Theorem shut_component_is_quiet : forall (w : Blocker.world nat) (msg : nat) (c : Component nat), is_shutdown_ c = true -> sim_func w msg c = c.
Proof. intros w msg c Hc. unfold sim_func, func, CProcess. rewrite Hc. by repeat case_match. Qed.

(** A component whose two channels are the same does not initialise: its node has a reader of the channel already; but the reader that was made is
    still subscribed. *)
Theorem same_channel_twice :
  let '(ok, c, w) := SimInitialize 0 [0; 0]%nat true (mkConfig "twice" [mkOption "a" qos 4; mkOption "a" qos 4]) (component_new (V := nat)) empty in
  ok = false /\ readers_ c = [] /\ published_callbacks_ <$> (blockers_ w !! "a") = Some {["twice" := 1%nat]}.
Proof. by vm_compute. Qed.

(** A queue of length 0 in the configuration: nothing is kept, so a component on two channels never starts in simulation mode. *)
Theorem depth_zero_starves :
  let cfg := mkConfig "fusion" [mkOption "a" qos 4; mkOption "b" (mkQos None (Some 0) None None None) 4] in
  let '(ok, c, w) := SimInitialize 0 [0; 1]%nat true cfg component_new empty in
  ok = true /\ processed (sim_run 5 (channel_names [0; 1]%nat cfg) messages (c, w)).1 = [].
Proof. by vm_compute. Qed.

End ModesDemo.
