(* ===== verification/Poller.v ===== *)
(** * Poller: waiting for sockets

    Models [cyber/io/poller.{h,cc}], [poll_data.h], [poll_handler.{h,cc}] and the transfers of [session.cc].  A coroutine that cannot read or write registers its
    descriptor and yields; the poller's thread tells the kernel what changed, waits, and calls back.  What [epoll] keeps is behind a class whose laws are those of its
    documentation, with an instance; what [epoll_wait] returns, and when, is an input.

    The unordered maps are walked in the order of [map_to_list]: each descriptor has one entry, and the entries do not touch each other. *)

From S2P Require Import Prelude CRoutine.

(** ** The kernel's part *)

Inductive Ctl := EPOLL_CTL_ADD | EPOLL_CTL_MOD | EPOLL_CTL_DEL.

#[export] Instance Ctl_eq_dec : EqDecision Ctl.
Proof. solve_decision. Defined.

Definition EPOLLIN : Z := 1.
Definition EPOLLOUT : Z := 4.
Definition EPOLLONESHOT : Z := 2 ^ 30.
Definition EPOLLET : Z := 2 ^ 31.

(** What the kernel keeps for a descriptor: the events of interest, and whether they are enabled. *)
Definition Interest : Type := Z * bool.

(** What one call does to the interest in its descriptor; adding what is there, and changing or deleting what is not, fails and does nothing;
    adding and changing enable it. *)
Definition settle (c : Ctl) (events : Z) (i : option Interest) : option Interest :=
  match c, i with
  | EPOLL_CTL_ADD, None => Some (events, true)
  | EPOLL_CTL_ADD, Some e => Some e
  | EPOLL_CTL_MOD, Some _ => Some (events, true)
  | EPOLL_CTL_MOD, None => None
  | EPOLL_CTL_DEL, _ => None
  end.

(** An interest with EPOLLONESHOT is disabled when a wait returns its descriptor; another one stays as it is. *)
Definition one_shot (events : Z) : bool := negb (Z.land events EPOLLONESHOT =? 0).
Definition fired (i : Interest) : Interest := (fst i, snd i && negb (one_shot (fst i))).

(** [epoll_ctl], [close], and what [epoll_wait] does to a descriptor that it returns. *)
Class Epoll (K : Type) := {
  ep_new : K;
  ep_ctl : Ctl -> Z -> Z -> K -> K;
  ep_close : Z -> K -> K;
  ep_return : Z -> K -> K;
  ep_interest : K -> Z -> option Interest;
}.

Class EpollLaws (K : Type) `{!Epoll K} := {
  ep_new_law : forall fd, ep_interest ep_new fd = None;
  ep_ctl_law : forall c fd events k fd', ep_interest (ep_ctl c fd events k) fd' = if decide (fd' = fd) then settle c events (ep_interest k fd) else ep_interest k fd';
  ep_close_law : forall fd k fd', ep_interest (ep_close fd k) fd' = if decide (fd' = fd) then None else ep_interest k fd';
  ep_return_law : forall fd k fd', ep_interest (ep_return fd k) fd' = if decide (fd' = fd) then fired <$> ep_interest k fd else ep_interest k fd';
}.

(** ** Poller *)

(** The poller's own callback, that empties the pipe, and those of the handlers. *)
Inductive Callback := CPipe | CHandler (h : nat).

#[export] Instance Callback_eq_dec : EqDecision Callback.
Proof. solve_decision. Defined.

Record PollRequest := mkRequest { fd : Z; events : Z; timeout_ms : Z; callback : option Callback }.
Record PollCtrlParam := mkParam { operation : Ctl; param_fd : Z; param_events : Z }.

Definition set_timeout (t : Z) (r : PollRequest) : PollRequest := mkRequest (fd r) (events r) t (callback r).

(** Where the thread of the poller is: at the head of its loop, applying changes, waiting, and calling the responses. *)
Inductive Pc := PHandle | PApply (local : list PollCtrlParam) | PWait | PCall (responses : list (Z * Z)) | PExit.

Section poller.
Context {K : Type} `{!Epoll K}.

Record Poller := mkPoller {
  is_shutdown_ : bool;
  requests_ : gmap Z PollRequest;
  ctrl_params_ : gmap Z PollCtrlParam;
  pipe : Z;
  kernel : K;
  pc : Pc;
}.

Definition with_requests (m : gmap Z PollRequest) (p : Poller) : Poller := mkPoller (is_shutdown_ p) m (ctrl_params_ p) (pipe p) (kernel p) (pc p).
Definition with_params (m : gmap Z PollCtrlParam) (p : Poller) : Poller := mkPoller (is_shutdown_ p) (requests_ p) m (pipe p) (kernel p) (pc p).
Definition with_pipe (n : Z) (p : Poller) : Poller := mkPoller (is_shutdown_ p) (requests_ p) (ctrl_params_ p) n (kernel p) (pc p).
Definition with_kernel (k : K) (p : Poller) : Poller := mkPoller (is_shutdown_ p) (requests_ p) (ctrl_params_ p) (pipe p) k (pc p).
Definition with_pc (c : Pc) (p : Poller) : Poller := mkPoller (is_shutdown_ p) (requests_ p) (ctrl_params_ p) (pipe p) (kernel p) c.

(** [Init], of the reading end of the pipe. *)
Definition Init (pipe_fd : Z) : Poller :=
  mkPoller false {[pipe_fd := mkRequest pipe_fd EPOLLIN (-1) (Some CPipe)]} {[pipe_fd := mkParam EPOLL_CTL_ADD pipe_fd EPOLLIN]} 0 ep_new PHandle.

(** A byte for the poller's thread; a thread that finds another one writing leaves it to that one. *)
Definition Notify (p : Poller) : Poller := with_pipe (pipe p + 1) p.

Definition invalid (req : PollRequest) : bool := (fd req <? 0) || match callback req with None => true | Some _ => false end.

Definition Register (req : PollRequest) (p : Poller) : bool * Poller :=
  if is_shutdown_ p then (false, p)
  else if invalid req then (false, p)
  else
    let op := match requests_ p !! fd req with None => EPOLL_CTL_ADD | Some _ => EPOLL_CTL_MOD end in
    (true, Notify (with_params (<[fd req := mkParam op (fd req) (events req)]> (ctrl_params_ p)) (with_requests (<[fd req := req]> (requests_ p)) p))).

(** The event of a deletion is not set; [epoll] does not read it. *)
Definition Unregister (req : PollRequest) (p : Poller) : bool * Poller :=
  if is_shutdown_ p then (false, p)
  else if invalid req then (false, p)
  else match requests_ p !! fd req with
       | None => (false, p)
       | Some _ => (true, Notify (with_params (<[fd req := mkParam EPOLL_CTL_DEL (fd req) 0]> (ctrl_params_ p)) (with_requests (delete (fd req) (requests_ p)) p)))
       end.

(** The thread is joined before the rest of [Shutdown], which clears the maps. *)
Definition Shutdown (p : Poller) : Poller := mkPoller true (requests_ p) (ctrl_params_ p) (pipe p) (kernel p) (pc p).
Definition Clear (p : Poller) : Poller := mkPoller (is_shutdown_ p) ∅ ∅ (pipe p) (kernel p) (pc p).

Definition kPollSize : nat := 32.
Definition kPollTimeoutMs : Z := 100.

Definition GetTimeoutMs (p : Poller) : Z :=
  foldr (fun r t => if (0 <=? timeout_ms r) && (timeout_ms r <? t) then timeout_ms r else t) kPollTimeoutMs (snd <$> map_to_list (requests_ p)).

(** *** The thread *)

(** What a wait gives: the time before and after it, and the descriptors that are ready. *)
Record Wait := mkWait { before_time_ns : Z; after_time_ns : Z; ready : list (Z * Z) }.

Definition interval_ms (w : Wait) : Z := let n := Z.quot (after_time_ns w - before_time_ns w) 1000000 in if n =? 0 then 1 else n.

(** The time that a request has left after an interval. *)
Definition remaining (interval t : Z) : Z := if 0 <? t then Z.max 0 (t - interval) else t.

Definition unchanged (p : Poller) (r : PollRequest) : bool := match ctrl_params_ p !! fd r with Some _ => false | None => true end.

(** A request that has not just been changed: its time goes by, and at its end it is taken off the clock. *)
Definition expire (interval : Z) (p : Poller) (r : PollRequest) : PollRequest :=
  if unchanged p r then let t := remaining interval (timeout_ms r) in set_timeout (if t =? 0 then -1 else t) r else r.
Definition expired (interval : Z) (p : Poller) (r : PollRequest) : bool := unchanged p r && (remaining interval (timeout_ms r) =? 0).

Definition timed_out (interval : Z) (p : Poller) : gmap Z Z := (fun _ => 0) <$> filter (fun e => expired interval p (snd e) = true) (requests_ p).
Definition responses (w : Wait) (p : Poller) : gmap Z Z :=
  fold_left (fun m e => <[fst e := snd e]> m) (ready w) (timed_out (interval_ms w) p).

(** The kernel after [epoll_wait] has returned what is ready. *)
Definition epoll_wait (w : Wait) (k : K) : K := fold_left (fun k e => ep_return (fst e) k) (ready w) k.

(** One step of the thread, under one lock or of one call; [w] is what the wait gives, when it waits; with the callbacks it calls and the events they get. *)
Definition thread_step (w : Wait) (p : Poller) : list (Z * Callback * Z) * Poller :=
  match pc p with
  | PHandle =>
      if is_shutdown_ p then ([], with_pc PExit p)
      else ([], with_pc (PApply (snd <$> map_to_list (ctrl_params_ p))) (with_params ∅ p))
  | PApply (c :: l) => ([], with_pc (PApply l) (with_kernel (ep_ctl (operation c) (param_fd c) (param_events c) (kernel p)) p))
  | PApply [] => ([], with_pc PWait p)
  | PWait => ([], with_pc (PCall (map_to_list (responses w p))) (with_kernel (epoll_wait w (kernel p)) (with_requests (expire (interval_ms w) p <$> requests_ p) p)))
  | PCall ((d, ev) :: l) =>
      match requests_ p !! d with
      | None => ([], with_pc (PCall l) p)
      | Some r =>
          let p1 := with_pc (PCall l) (with_requests (<[d := set_timeout (-1) r]> (requests_ p)) p) in
          match callback r with
          | Some CPipe => ([(d, CPipe, ev)], with_pipe 0 p1)
          | Some c => ([(d, c, ev)], p1)
          | None => ([], p1)
          end
      end
  | PCall [] => ([], with_pc PHandle p)
  | PExit => ([], p)
  end.

(** *** Interleavings *)

(** What other threads do, and a step of the poller's. *)
Inductive Ev := ERegister (r : PollRequest) | EUnregister (r : PollRequest) | EClose (d : Z) | EShutdown | EStep (w : Wait).

Definition run_ev (e : Ev) (p : Poller) : list (Z * Callback * Z) * Poller :=
  match e with
  | ERegister r => ([], snd (Register r p))
  | EUnregister r => ([], snd (Unregister r p))
  | EClose d => ([], with_kernel (ep_close d (kernel p)) p)
  | EShutdown => ([], Shutdown p)
  | EStep w => thread_step w p
  end.

Fixpoint run (es : list Ev) (p : Poller) : list (Z * Callback * Z) * Poller :=
  match es with [] => ([], p) | e :: es' => let '(o1, p1) := run_ev e p in let '(o2, p2) := run es' p1 in (o1 ++ o2, p2) end.

(** What is under way for a descriptor when the thread has taken it and not yet told the kernel. *)
Definition under_way (d : Z) (p : Poller) : list PollCtrlParam := match pc p with PApply l => filter (fun c => param_fd c = d) l | _ => [] end.
Definition told (d : Z) (p : Poller) : option Interest := fold_left (fun i c => settle (operation c) (param_events c) i) (under_way d p) (ep_interest (kernel p) d).

(** The kernel's interest once everything is told. *)
Definition settled (d : Z) (p : Poller) : option Interest :=
  match ctrl_params_ p !! d with Some c => settle (operation c) (param_events c) (told d p) | None => told d p end.

(** A change comes when the kernel knows the descriptor, or is being told, exactly if the poller has a request for it; a descriptor is closed after its request is gone. *)
Definition calm (e : Ev) (p : Poller) : Prop :=
  match e with
  | ERegister r => is_Some (requests_ p !! fd r) <-> is_Some (told (fd r) p)
  | EClose d => requests_ p !! d = None
  | EShutdown => False
  | _ => True
  end.
Fixpoint all_calm (es : list Ev) (p : Poller) : Prop :=
  match es with [] => True | e :: es' => calm e p /\ all_calm es' (snd (run_ev e p)) end.

(** *** Which requests are enabled *)

Definition waiting (p : Poller) : bool := match pc p with PWait => true | _ => false end.
Definition returned (d : Z) (w : Wait) : bool := bool_decide (d ∈ (ready w).*1).

(** A request is enabled from its registration on, until a wait that begins after the thread has taken the registration returns the descriptor of a one-shot request. *)
Definition enables (d : Z) (e : Ev) (p : Poller) (b : bool) : bool :=
  match e with
  | ERegister r => if bool_decide (fd r = d) && fst (Register r p) then true else b
  | EStep w =>
      if waiting p && returned d w && bool_decide (ctrl_params_ p !! d = None) then
        match requests_ p !! d with Some r => b && negb (one_shot (events r)) | None => b end
      else b
  | _ => b
  end.
Fixpoint enabled (d : Z) (es : list Ev) (p : Poller) (b : bool) : bool :=
  match es with [] => b | e :: es' => enabled d es' (snd (run_ev e p)) (enables d e p b) end.

(** *** The clock of one request *)

(** What the waits of a run were. *)
Fixpoint waits (es : list Ev) (p : Poller) : list Wait :=
  match es with
  | [] => []
  | e :: es' => match e, pc p with EStep w, PWait => [w] | _, _ => [] end ++ waits es' (snd (run_ev e p))
  end.

Definition last_ready (d : Z) (w : Wait) : option Z := fold_left (fun o e => if decide (fst e = d) then Some (snd e) else o) (ready w) None.

(** What a request with a time [t] is told, wait by wait: its event when it is ready, nothing ([0]) at the end of its time, and after either it has no time. *)
Fixpoint deadline (d t : Z) (ws : list Wait) : list Z :=
  match ws with
  | [] => []
  | w :: ws' =>
      match last_ready d w with
      | Some ev => ev :: deadline d (-1) ws'
      | None => let t' := remaining (interval_ms w) t in if t' =? 0 then 0 :: deadline d (-1) ws' else deadline d t' ws'
      end
  end.

Definition called (d : Z) (out : list (Z * Callback * Z)) : list (Callback * Z) := (fun o => (o.1.2, o.2)) <$> filter (fun o => o.1.1 = d) out.
(** The calls that are still to be made for a descriptor. *)
Definition due (d : Z) (p : Poller) : list Z := match pc p with PCall l => snd <$> filter (fun e => fst e = d) l | _ => [] end.

(** The event does not change the request of the descriptor. *)
Definition leaves (d : Z) (e : Ev) : Prop := match e with ERegister r | EUnregister r => fd r <> d | _ => True end.

(** ** PollHandler *)

(** A handler with its coroutine: its state, and whether it was notified. *)
Record Handler := mkHandler {
  fd_ : Z;
  is_read_ : bool;
  is_blocking_ : bool;
  request_ : PollRequest;
  response_ : Z;
  routine_state : RoutineState;
  notified : bool;
}.

Record IoWorld := mkIo { the_poller : Poller; handlers : gmap nat Handler }.

Definition handler_new (d : Z) : Handler := mkHandler d false false (mkRequest (-1) 0 (-1) None) 0 READY false.
Definition with_blocking (b : bool) (h : Handler) : Handler := mkHandler (fd_ h) (is_read_ h) b (request_ h) (response_ h) (routine_state h) (notified h).
Definition with_response (ev : Z) (h : Handler) : Handler := mkHandler (fd_ h) (is_read_ h) (is_blocking_ h) (request_ h) ev (routine_state h) (notified h).
Definition with_routine (s : RoutineState) (b : bool) (h : Handler) : Handler := mkHandler (fd_ h) (is_read_ h) (is_blocking_ h) (request_ h) (response_ h) s b.
Definition upd_handler (f : Handler -> Handler) (i : nat) (w : IoWorld) : IoWorld := mkIo (the_poller w) (alter f i (handlers w)).

(** [Check], called by a coroutine. *)
Definition Check_ (timeout : Z) (h : Handler) : bool := negb (timeout =? 0) && (0 <=? fd_ h).

Definition Fill (i : nat) (timeout : Z) (is_read : bool) (h : Handler) : Handler :=
  mkHandler (fd_ h) is_read (is_blocking_ h)
    (mkRequest (fd_ h) (Z.lor (Z.lor EPOLLET EPOLLONESHOT) (if is_read then EPOLLIN else EPOLLOUT)) timeout (Some (CHandler i)))
    (response_ h) (routine_state h) (notified h).

(** [Block] up to its yield: [true] when it goes on to yield, [false] when it returns false. *)
Definition block_start (i : nat) (timeout : Z) (is_read : bool) (w : IoWorld) : bool * IoWorld :=
  match handlers w !! i with
  | None => (false, w)
  | Some h =>
      if negb (Check_ timeout h) then (false, w)
      else if is_blocking_ h then (false, w)
      else
        let h1 := Fill i timeout is_read (with_blocking true h) in
        let '(ok, p) := Register (request_ h1) (the_poller w) in
        (ok, mkIo p (<[i := if ok then h1 else with_blocking false h1]> (handlers w)))
  end.

(** The yield: the coroutine waits until it is notified. *)
Definition block_yield (i : nat) (w : IoWorld) : IoWorld := upd_handler (with_routine IO_WAIT false) i w.

(** The rest of [Block], when the scheduler has found the coroutine notified; [None] while it waits. *)
Definition block_resume (i : nat) (w : IoWorld) : option (bool * IoWorld) :=
  match handlers w !! i with
  | Some h =>
      if bool_decide (routine_state h = IO_WAIT) && notified h then
        Some (negb (Z.land (response_ h) (if is_read_ h then EPOLLIN else EPOLLOUT) =? 0), upd_handler (fun h => with_blocking false (with_routine READY false h)) i w)
      else None
  | None => None
  end.

Definition Unblock (i : nat) (w : IoWorld) : bool * IoWorld :=
  match handlers w !! i with
  | None => (false, w)
  | Some h => let '(ok, p) := Unregister (request_ h) (the_poller w) in (ok, mkIo p (<[i := with_blocking false h]> (handlers w)))
  end.

Definition ResponseCallback (ev : Z) (h : Handler) : Handler :=
  if is_blocking_ h then
    let h1 := with_response ev h in if bool_decide (routine_state h1 = IO_WAIT) then with_routine IO_WAIT true h1 else h1
  else h.

Definition respond (c : Z * Callback * Z) (hs : gmap nat Handler) : gmap nat Handler :=
  match c.1.2 with CHandler i => alter (ResponseCallback c.2) i hs | CPipe => hs end.

(** An event of the poller, with its callbacks. *)
Definition io_ev (e : Ev) (w : IoWorld) : IoWorld :=
  let '(o, p) := run_ev e (the_poller w) in mkIo p (fold_left (fun hs c => respond c hs) o (handlers w)).
Definition io_run (es : list Ev) (w : IoWorld) : IoWorld := fold_left (fun w e => io_ev e w) es w.

(** ** Lemmas *)

Lemma filter_by_key {A} (d : Z) (m : gmap Z A) : filter (fun e => fst e = d) (map_to_list m) = match m !! d with Some x => [(d, x)] | None => [] end.
Proof.
  induction m as [|k x m Hk IH] using map_ind; [by rewrite map_to_list_empty, lookup_empty|].
  assert (Hp : filter (fun e => fst e = d) (map_to_list (<[k := x]> m)) ≡ₚ filter (fun e => fst e = d) ((k, x) :: map_to_list m)) by by rewrite map_to_list_insert.
  rewrite filter_cons in Hp. cbn in Hp. case_decide as Hd.
  - subst k. rewrite IH, Hk in Hp. rewrite lookup_insert_eq. by apply Permutation_singleton_r.
  - rewrite IH in Hp. rewrite lookup_insert_ne by done. destruct (m !! d); [by apply Permutation_singleton_r|by apply Permutation_nil_r].
Qed.

Lemma filter_params (d : Z) (m : gmap Z PollCtrlParam) : map_Forall (fun k c => param_fd c = k) m ->
  filter (fun c => param_fd c = d) (snd <$> map_to_list m) = option_list (m !! d).
Proof.
  intros Hm. assert (H : forall l : list (Z * PollCtrlParam), Forall (fun e => param_fd (snd e) = fst e) l ->
    filter (fun c => param_fd c = d) (snd <$> l) = snd <$> filter (fun e => fst e = d) l).
  { induction 1 as [|e l He Hl IH]; [done|]. rewrite fmap_cons, !filter_cons, IH, He. by case_decide. }
  rewrite H, filter_by_key; [by destruct (m !! d)|]. apply Forall_forall. intros [k c] Hin%elem_of_map_to_list. by apply Hm.
Qed.

(** Requests and changes are kept under their own descriptors. *)
Record keyed (p : Poller) : Prop := {
  ky_requests : map_Forall (fun d r => fd r = d) (requests_ p);
  ky_params : map_Forall (fun d c => param_fd c = d) (ctrl_params_ p);
}.

Lemma keyed_init d : keyed (Init d).
Proof. split; cbn; by apply map_Forall_singleton. Qed.

Lemma register_cases r p : Register r p = (false, p) \/ (is_shutdown_ p = false /\
  snd (Register r p) = Notify (with_params (<[fd r := mkParam (match requests_ p !! fd r with None => EPOLL_CTL_ADD | Some _ => EPOLL_CTL_MOD end) (fd r) (events r)]> (ctrl_params_ p))
    (with_requests (<[fd r := r]> (requests_ p)) p))).
Proof. unfold Register. destruct (is_shutdown_ p); [by left|]. destruct (invalid r); [by left|by right]. Qed.

Lemma unregister_cases r p : Unregister r p = (false, p) \/ (is_shutdown_ p = false /\
  snd (Unregister r p) = Notify (with_params (<[fd r := mkParam EPOLL_CTL_DEL (fd r) 0]> (ctrl_params_ p)) (with_requests (delete (fd r) (requests_ p)) p))).
Proof. unfold Unregister. destruct (is_shutdown_ p); [by left|]. destruct (invalid r); [by left|]. destruct (requests_ p !! fd r); [by right|by left]. Qed.

Lemma keyed_step e p : keyed p -> keyed (snd (run_ev e p)).
Proof.
  intros [H1 H2]. destruct e as [r|r|d| |w]; cbn [run_ev snd].
  - destruct (register_cases r p) as [->|[_ ->]]; [done|]. split; cbn; by apply map_Forall_insert_2.
  - destruct (unregister_cases r p) as [->|[_ ->]]; [done|]. split; cbn; [by apply map_Forall_delete|by apply map_Forall_insert_2].
  - done.
  - done.
  - unfold thread_step. destruct (pc p) as [|[|c l]| |[|[d ev] l]|] eqn:E; cbn; try done.
    + destruct (is_shutdown_ p); [done|]. split; cbn; [done|apply map_Forall_empty].
    + split; cbn; [|done]. intros d r. rewrite lookup_fmap. intros (r0 & E0 & ->)%fmap_Some. unfold expire. case_match; by apply (H1 d r0).
    + destruct (requests_ p !! d) as [r|] eqn:Er; [|done]. destruct (callback r) as [[|h]|]; (split; cbn; [|done]); apply map_Forall_insert_2; try done; by apply (H1 d r).
Qed.

Lemma keyed_run es p : keyed p -> keyed (snd (run es p)).
Proof.
  revert p. induction es as [|e es IH]; intros p Hp; [done|]. cbn. pose proof (keyed_step e p Hp) as H. destruct (run_ev e p) as [o1 p1]. cbn in H. specialize (IH p1 H).
  by destruct (run es p1).
Qed.

(** *** What the kernel is told *)

Context `{!EpollLaws K}.

Lemma epoll_wait_interest w k d : ep_interest (epoll_wait w k) d = if returned d w then fired <$> ep_interest k d else ep_interest k d.
Proof.
  unfold epoll_wait, returned. generalize (ready w). intros l. revert k. induction l as [|[d' ev] l IH]; intros k; [done|]. cbn [fold_left fst].
  rewrite IH, ep_return_law, fmap_cons. cbn [fst]. destruct (decide (d = d')) as [->|Hne].
  - rewrite (bool_decide_true (d' ∈ d' :: _)) by by left. case_bool_decide; [|done]. destruct (ep_interest k d') as [[e b]|]; [|done]. cbn. unfold fired. cbn.
    by destruct b, (one_shot e).
  - rewrite (bool_decide_ext (d ∈ d' :: l.*1) (d ∈ l.*1)); [done|]. rewrite elem_of_cons. naive_solver.
Qed.

Abbreviation tell := (fold_left (fun i c => settle (operation c) (param_events c) i)).

Lemma tell_none (l : list PollCtrlParam) i : tell l i = None -> tell l None = None.
Proof.
  assert (H : forall i j : option Interest, (i = None -> j = None) -> tell l i = None -> tell l j = None).
  { induction l as [|c l IH]; intros a b Hab; cbn; [done|]. apply IH. destruct (operation c), a, b; cbn; try done; by specialize (Hab eq_refl). }
  by apply H.
Qed.

(** A descriptor is told of, when nothing is left, as its request says, enabled or not; what is added is not there. *)
Record agrees (d : Z) (b : bool) (p : Poller) : Prop := {
  ag_settled : settled d p = (fun r => (events r, b)) <$> (requests_ p !! d);
  ag_added : forall c, ctrl_params_ p !! d = Some c -> operation c = EPOLL_CTL_ADD -> told d p = None;
}.

Lemma agrees_register d b r p : agrees d b p -> calm (ERegister r) p -> agrees d (enables d (ERegister r) p b) (snd (Register r p)).
Proof.
  intros [Ha Hn] Hc. cbn [calm enables] in *. destruct (register_cases r p) as [->|[Hs E]]; [cbn; by rewrite andb_false_r|].
  destruct (decide (fd r = d)) as [<-|Hne].
  - destruct (fst (Register r p)) eqn:Eok.
    + rewrite bool_decide_true by done. cbn [andb]. rewrite E. split.
      * unfold settled. cbn. rewrite !lookup_insert_eq. change (told (fd r) (Notify _)) with (told (fd r) p). cbn.
        destruct (requests_ p !! fd r) as [r0|], (told (fd r) p) as [i|]; cbn; try done; [by destruct Hc as [[] _]|by destruct Hc as [_ []]].
      * intros c. cbn. rewrite lookup_insert_eq. intros [= <-]. cbn. intros Eop. change (told (fd r) (Notify _)) with (told (fd r) p).
        destruct (requests_ p !! fd r) as [r0|]; [done|]. destruct (told (fd r) p); [|done]. by destruct Hc as [_ []].
    + assert (snd (Register r p) = p) as ->; [|by rewrite andb_false_r]. revert Eok. unfold Register. destruct (is_shutdown_ p); [done|]. by destruct (invalid r).
  - rewrite bool_decide_false by done. cbn [andb]. rewrite E. unfold settled in *. split.
    + unfold settled. cbn. rewrite !lookup_insert_ne by done. exact Ha.
    + intros c. cbn. rewrite lookup_insert_ne by done. apply Hn.
Qed.

Lemma agrees_unregister d b r p : agrees d b p -> agrees d b (snd (Unregister r p)).
Proof.
  intros [Ha Hn]. destruct (unregister_cases r p) as [->|[_ ->]]; [done|]. destruct (decide (fd r = d)) as [<-|Hne].
  - split; [unfold settled; cbn; by rewrite lookup_insert_eq, lookup_delete_eq|]. intros c. cbn. rewrite lookup_insert_eq. by intros [= <-].
  - split; [unfold settled in *; cbn; by rewrite lookup_insert_ne, lookup_delete_ne|]. intros c. cbn. rewrite lookup_insert_ne by done. apply Hn.
Qed.

Lemma agrees_close d b d' p : agrees d b p -> calm (EClose d') p -> agrees d b (with_kernel (ep_close d' (kernel p)) p).
Proof.
  intros [Ha Hn] Hc. cbn [calm] in Hc.
  assert (Ht : told d (with_kernel (ep_close d' (kernel p)) p) = if decide (d = d') then tell (under_way d p) None else told d p).
  { unfold told. cbn. rewrite ep_close_law. by case_decide. }
  unfold settled in *. cbn [requests_ with_kernel]. destruct (decide (d = d')) as [->|Hne]; split; unfold settled; cbn [ctrl_params_ with_kernel requests_]; rewrite Ht;
    rewrite ?(decide_True (P := d' = d')), ?(decide_False (P := d = d')) by done; [|intros c Ec Eo; by eapply tell_none, Hn|done|done].
  rewrite Hc in Ha |- *. cbn in Ha |- *. destruct (ctrl_params_ p !! d') as [c|]; [|by eapply tell_none].
  destruct (operation c) eqn:Eo; cbn in Ha |- *; [by destruct (told d' p)| |done]. unfold told in Ha. destruct (tell (under_way d' p) (ep_interest (kernel p) d')) eqn:E; [done|]. by rewrite (tell_none _ _ E).
Qed.

Lemma agrees_wait d b w p : keyed p -> agrees d b p -> pc p = PWait -> agrees d (enables d (EStep w) p b) (snd (thread_step w p)).
Proof.
  intros Hk [Ha Hn] E. unfold thread_step, enables, waiting. rewrite E. cbn [snd andb].
  set (p1 := with_pc _ _).
  assert (Hu : told d p = ep_interest (kernel p) d) by (unfold told, under_way; by rewrite E).
  assert (Ht : told d p1 = if returned d w then fired <$> told d p else told d p) by (rewrite Hu; apply epoll_wait_interest).
  assert (Hev : forall b' : bool, (fun r : PollRequest => (events r, b')) <$> (requests_ p1 !! d) = (fun r : PollRequest => (events r, b')) <$> (requests_ p !! d)).
  { intros b'. cbn. rewrite lookup_fmap. destruct (requests_ p !! d) as [r|]; [|done]. cbn. unfold expire. by destruct (unchanged p r). }
  split.
  - rewrite Hev. unfold settled in *. change (ctrl_params_ p1) with (ctrl_params_ p). rewrite Ht. destruct (ctrl_params_ p !! d) as [c|] eqn:Ec.
    + rewrite (bool_decide_false (Some c = None)), andb_false_r by done. rewrite <- Ha. destruct (returned d w); [|done].
      destruct (operation c) eqn:Eo; [by rewrite (Hn c eq_refl Eo)|by destruct (told d p)|done].
    + rewrite bool_decide_true, andb_true_r by done. destruct (returned d w); [|done]. rewrite Ha. by destruct (requests_ p !! d).
  - change (ctrl_params_ p1) with (ctrl_params_ p). intros c Ec Eo. rewrite Ht, (Hn c Ec Eo). by destruct (returned d w).
Qed.

Lemma agrees_thread d b w p : keyed p -> agrees d b p -> pc p <> PWait -> agrees d b (snd (thread_step w p)).
Proof.
  intros Hk [Ha Hn] Hpc. unfold thread_step. destruct (pc p) as [|[|c l]| |[|[d' ev] l]|] eqn:E; try done.
  - destruct (is_shutdown_ p); [by split; unfold settled, told, under_way in *; rewrite E in *|]. split; [|done].
    unfold settled, told, under_way in *. rewrite E in Ha. cbn in *. rewrite lookup_empty, filter_params by apply Hk. by destruct (ctrl_params_ p !! d).
  - by split; unfold settled, told, under_way in *; rewrite E in *.
  - assert (Ht : told d (with_pc (PApply l) (with_kernel (ep_ctl (operation c) (param_fd c) (param_events c) (kernel p)) p)) = told d p).
    { unfold told, under_way. rewrite E, filter_cons. cbn [pc with_pc kernel with_kernel]. rewrite ep_ctl_law.
      destruct (decide (param_fd c = d)) as [->|Hd]; [by rewrite decide_True|by rewrite decide_False by congruence]. }
    cbn [snd].
    split; [unfold settled in *; rewrite Ht; exact Ha|rewrite Ht; exact Hn].
  - by split; unfold settled, told, under_way in *; rewrite E in *.
  - destruct (requests_ p !! d') as [r|] eqn:Er; [|by split; unfold settled, told, under_way in *; rewrite E in *].
    assert (Hs : (fun r : PollRequest => (events r, b)) <$> (<[d' := set_timeout (-1) r]> (requests_ p) !! d) = (fun r : PollRequest => (events r, b)) <$> (requests_ p !! d)).
    { destruct (decide (d = d')) as [->|Hne]; [by rewrite lookup_insert_eq, Er|by rewrite lookup_insert_ne]. }
    by destruct (callback r) as [[|h]|]; split; unfold settled, told, under_way in *; rewrite E in *; cbn in *; rewrite ?Hs.
Qed.

Lemma agrees_step d b e p : keyed p -> agrees d b p -> calm e p -> agrees d (enables d e p b) (snd (run_ev e p)).
Proof.
  intros Hk Ha Hc. destruct e as [r|r|d'| |w]; cbn [run_ev snd].
  - by apply agrees_register.
  - by apply agrees_unregister.
  - by apply agrees_close.
  - done.
  - destruct (pc p) eqn:E; [| |by apply agrees_wait| |]; (unfold enables, waiting; rewrite E; cbn [andb]; apply agrees_thread; congruence).
Qed.

Lemma agrees_run d es b p : keyed p -> agrees d b p -> all_calm es p -> agrees d (enabled d es p b) (snd (run es p)).
Proof.
  revert b p. induction es as [|e es IH]; intros b p Hk Hp; [done|]. cbn [all_calm enabled run]. intros [He Hes].
  pose proof (keyed_step e p Hk) as Hk1. pose proof (agrees_step d b e p Hk Hp He) as Hp1.
  destruct (run_ev e p) as [o1 p1]. cbn [snd] in *. specialize (IH _ p1 Hk1 Hp1 Hes). by destruct (run es p1).
Qed.

(** C17: The kernel is told what the poller was asked.  In every interleaving of registrations, unregistrations, closings and the thread's steps in which a registration comes when the
    kernel knows the descriptor, or is being told, exactly if the poller has a request for it, and a descriptor is closed only after its request is gone, the changes that are
    left bring the kernel's interest to the request's events; a descriptor of which nothing is left to tell has its request's events, and none if it has no request.  The interest is
    enabled exactly from the registration on until a wait, after the thread has taken the registration, returns a one-shot descriptor. *)
Theorem interest_agrees pipe_fd es d : all_calm es (Init pipe_fd) -> let p := snd (run es (Init pipe_fd)) in
  let wanted := (fun r => (events r, enabled d es (Init pipe_fd) true)) <$> (requests_ p !! d) in
  settled d p = wanted /\
  (ctrl_params_ p !! d = None -> under_way d p = [] -> ep_interest (kernel p) d = wanted).
Proof.
  intros Hc p wanted. assert (Ha : settled d p = wanted).
  { apply (agrees_run d es true (Init pipe_fd)); [apply keyed_init| |done].
    assert (Ht : told d (Init pipe_fd) = None) by apply ep_new_law. split; [|done]. unfold settled. rewrite Ht. cbn.
    destruct (decide (d = pipe_fd)) as [->|Hne]; [by rewrite !lookup_singleton_eq|by rewrite !lookup_singleton_ne]. }
  split; [done|]. intros Hn Hu. rewrite <- Ha. unfold settled, told. by rewrite Hn, Hu.
Qed.

(** *** What a request is told *)

Lemma responses_lookup w p d : responses w p !! d = match last_ready d w with Some ev => Some ev | None => timed_out (interval_ms w) p !! d end.
Proof.
  unfold responses, last_ready.
  assert (H : forall (l : list (Z * Z)) (m0 m : gmap Z Z) o, m !! d = match o with Some ev => Some ev | None => m0 !! d end ->
    fold_left (fun m e => <[fst e := snd e]> m) l m !! d =
    match fold_left (fun o e => if decide (fst e = d) then Some (snd e) else o) l o with Some ev => Some ev | None => m0 !! d end).
  { induction l as [|[d' ev] l IH]; intros m0 m o E; cbn; [done|]. apply IH. case_decide as Hd; [subst d'; by rewrite lookup_insert_eq|by rewrite lookup_insert_ne]. }
  by apply (H _ _ _ None).
Qed.

(** The poller watches a request that has a time left, or whose response is still to be called. *)
Definition watches (d : Z) (cb : Callback) (t : Z) (p : Poller) : Prop :=
  (pc p = PHandle \/ pc p = PExit \/ ctrl_params_ p !! d = None) /\
  exists r, requests_ p !! d = Some r /\ callback r = Some cb /\ ((due d p = [] /\ timeout_ms r = t) \/ exists ev, due d p = [ev] /\ t = -1).

Definition told_calls (cb : Callback) (l : list Z) : list (Callback * Z) := (fun ev => (cb, ev)) <$> l.

Lemma watches_wait d cb t w p : keyed p -> watches d cb t p -> pc p = PWait -> let '(o, p1) := thread_step w p in
  exists t1, watches d cb t1 p1 /\ forall ws, called d o ++ told_calls cb (due d p1 ++ deadline d t1 ws) = told_calls cb (due d p ++ deadline d t (w :: ws)).
Proof.
  intros Hk (Hpc & r & Er & Ecb & Hr) E. unfold thread_step. rewrite E. destruct Hpc as [Hpc|[Hpc|Hpc]]; [congruence..|].
  assert (Hu : unchanged p r = true) by (unfold unchanged; by rewrite (ky_requests _ Hk d r Er), Hpc).
  assert (Hd : due d p = []) by (unfold due; by rewrite E). assert (Ht : timeout_ms r = t) by (destruct Hr as [[_ ?]|(ev & ? & _)]; [done|congruence]).
  set (i := interval_ms w). set (p1 := with_pc _ _).
  assert (Hdue : due d p1 = match last_ready d w with Some ev => [ev] | None => if remaining i t =? 0 then [0] else [] end).
  { unfold due, p1. cbn. rewrite filter_by_key, responses_lookup. destruct (last_ready d w) as [ev|]; [done|]. unfold timed_out. rewrite lookup_fmap.
    destruct (remaining i t =? 0) eqn:Ez.
    - rewrite (map_lookup_filter_Some_2 _ _ d r); [done..|]. cbn. unfold expired. by rewrite Hu, Ht.
    - rewrite map_lookup_filter_None_2; [done|]. right. intros r' Er'. assert (r' = r) as -> by congruence. cbn. unfold expired. rewrite Hu, Ht. fold i. by rewrite Ez. }
  assert (Hreq : requests_ p1 !! d = Some (set_timeout (if remaining i t =? 0 then -1 else remaining i t) r)).
  { unfold p1. cbn. rewrite lookup_fmap, Er. cbn. unfold expire. by rewrite Hu, Ht. }
  rewrite Hd. cbn [called filter list_filter fmap list_fmap app deadline]. fold i.
  exists (match last_ready d w with Some _ => -1 | None => if remaining i t =? 0 then -1 else remaining i t end). split.
  - split; [by right; right|]. eexists. split; [exact Hreq|]. split; [done|]. rewrite Hdue. destruct (last_ready d w) as [ev|]; [right; by exists ev|].
    destruct (remaining i t =? 0); [right; by exists 0|by left].
  - intros ws. rewrite Hdue. destruct (last_ready d w); [done|]. by destruct (remaining i t =? 0).
Qed.

Lemma watches_step d cb t w p : keyed p -> watches d cb t p -> pc p <> PWait -> let '(o, p1) := thread_step w p in
  watches d cb t p1 /\ called d o ++ told_calls cb (due d p1) = told_calls cb (due d p).
Proof.
  intros Hk (Hpc & r & Er & Ecb & Hr) E. unfold thread_step. destruct (pc p) as [|[|c l]| |[|[d' ev] l]|] eqn:Ep; try done.
  - assert (Ht : timeout_ms r = t) by (unfold due in Hr; rewrite Ep in Hr; by destruct Hr as [[_ ?]|(? & ? & _)]). unfold due at 2. rewrite Ep.
    destruct (is_shutdown_ p); (split; [|done]); (split; [cbn; auto|]); exists r; by repeat split; try left.
  - assert (Ht : timeout_ms r = t) by (unfold due in Hr; rewrite Ep in Hr; by destruct Hr as [[_ ?]|(? & ? & _)]). unfold due at 2. rewrite Ep.
    split; [|done]. split; [right; right; by destruct Hpc as [?|[?|?]]|]. exists r. by repeat split; try left.
  - assert (Ht : timeout_ms r = t) by (unfold due in Hr; rewrite Ep in Hr; by destruct Hr as [[_ ?]|(? & ? & _)]). unfold due at 2. rewrite Ep.
    split; [|done]. split; [right; right; by destruct Hpc as [?|[?|?]]|]. exists r. by repeat split; try left.
  - assert (Ht : timeout_ms r = t) by (unfold due in Hr; rewrite Ep in Hr; by destruct Hr as [[_ ?]|(? & ? & _)]). unfold due at 2. rewrite Ep.
    split; [|done]. split; [by left|]. exists r. by repeat split; try left.
  - assert (Hc : ctrl_params_ p !! d = None) by (by destruct Hpc as [?|[?|?]]). unfold due in Hr at 1 2. unfold due at 2. rewrite Ep in Hr |- *.
    rewrite filter_cons in Hr |- *. cbn [fst] in Hr |- *. destruct (decide (d' = d)) as [->|Hne].
    + destruct Hr as [[? _]|(ev' & El & ->)]; [done|]. rewrite fmap_cons in El |- *. injection El as <- El. rewrite Er, Ecb.
      assert (Hw : forall n, watches d cb (-1) (with_pipe n (with_pc (PCall l) (with_requests (<[d := set_timeout (-1) r]> (requests_ p)) p)))).
      { intros n. split; [by right; right|]. exists (set_timeout (-1) r). cbn. rewrite lookup_insert_eq. split; [done|]. split; [done|]. left. by unfold due. }
      destruct cb as [|h]; (split; [by apply (Hw _) || (by apply (Hw (pipe p)))|]); unfold due; cbn; rewrite El; cbn; rewrite decide_True by done; done.
    + assert (Hw : forall n (m : gmap Z PollRequest), m !! d = requests_ p !! d -> watches d cb t (with_pipe n (with_pc (PCall l) (with_requests m p)))).
      { intros n m Em. split; [by right; right|]. exists r. cbn. rewrite Em. by split. }
      destruct (requests_ p !! d') as [r'|] eqn:Er'; [|split; [by apply (Hw (pipe p) (requests_ p))|done]].
      pose proof (fun n => Hw n (<[d' := set_timeout (-1) r']> (requests_ p)) ltac:(by rewrite lookup_insert_ne)) as Hw'.
      destruct (callback r') as [[|h]|]; (split; [by apply (Hw' 0) || apply (Hw' (pipe p))|]); unfold due, called; cbn; rewrite ?decide_False by done; done.
  - assert (Ht : timeout_ms r = t) by (unfold due in Hr; rewrite Ep in Hr; by destruct Hr as [[_ ?]|(? & ? & _)]). unfold due. rewrite Ep.
    split; [|done]. split; [by rewrite Ep; auto|]. exists r. unfold due. rewrite Ep. by repeat split; try left.
Qed.

Lemma watches_other d cb t e p : leaves d e -> watches d cb t p -> (forall w, e <> EStep w) -> let '(o, p1) := run_ev e p in
  o = [] /\ watches d cb t p1 /\ due d p1 = due d p.
Proof.
  intros Hl Hw He. destruct e as [r|r|d'| |w]; cbn [run_ev leaves] in *; [| |done|done|by destruct (He w)]; (split; [done|]).
  - destruct (register_cases r p) as [->|[_ ->]]; [done|]. split; [|done]. destruct Hw as [Hpc Hw]. split; cbn; [by rewrite lookup_insert_ne|by rewrite lookup_insert_ne].
  - destruct (unregister_cases r p) as [->|[_ ->]]; [done|]. split; [|done]. destruct Hw as [Hpc Hw]. split; cbn; [by rewrite lookup_insert_ne|by rewrite lookup_delete_ne].
Qed.

Lemma called_app d o1 o2 : called d (o1 ++ o2) = called d o1 ++ called d o2.
Proof. unfold called. by rewrite filter_app, fmap_app. Qed.

(** What a request is told in a run is what the waits say. *)
Lemma watched_run d cb es t p : keyed p -> Forall (leaves d) es -> watches d cb t p -> let '(o, p1) := run es p in
  called d o ++ told_calls cb (due d p1) = told_calls cb (due d p ++ deadline d t (waits es p)).
Proof.
  revert t p. induction es as [|e es IH]; intros t p Hk Hes Hw; cbn [run waits]; [cbn; by rewrite app_nil_r|]. inversion_clear Hes as [|? ? He Hes'].
  pose proof (keyed_step e p Hk) as Hk1.
  assert (H : exists t1, let '(o, p1) := run_ev e p in watches d cb t1 p1 /\ forall ws, called d o ++ told_calls cb (due d p1 ++ deadline d t1 ws) =
    told_calls cb (due d p ++ deadline d t (match e, pc p with EStep w, PWait => [w] | _, _ => [] end ++ ws))).
  { assert (Hd : (forall w, e <> EStep w) \/ exists w, e = EStep w) by (destruct e as [| | | |w]; [by left..|right; by exists w]). destruct Hd as [Hno|[w ->]].
    - pose proof (watches_other d cb t e p He Hw Hno) as H. exists t. destruct (run_ev e p) as [o p1]. destruct H as (-> & Hw1 & Ed). split; [done|]. intros ws. rewrite Ed. by destruct e; [..|destruct (Hno w)].
    - cbn [run_ev].
      destruct (pc p) eqn:Ep; [| |pose proof (watches_wait d cb t w p Hk Hw Ep) as H; destruct (thread_step w p) as [o p1]; destruct H as (t1 & Hw1 & H); by exists t1| |];
        (pose proof (watches_step d cb t w p Hk Hw ltac:(congruence)) as H; exists t; destruct (thread_step w p) as [o p1]; destruct H as [Hw1 H]; split; [done|]; intros ws; cbn [app];
         unfold told_calls in *; rewrite !fmap_app, app_assoc; by rewrite H). }
  destruct H as [t1 H]. destruct (run_ev e p) as [o1 p1]. cbn [snd] in *. destruct H as [Hw1 H]. specialize (IH t1 p1 Hk1 Hes' Hw1). destruct (run es p1) as [o2 p2].
  rewrite called_app, <- app_assoc, IH. apply H.
Qed.

(** A time that goes by without an event. *)
Definition quiet (d : Z) (w : Wait) : Prop := last_ready d w = None /\ before_time_ns w <= after_time_ns w.
Definition total (ws : list Wait) : Z := foldr (fun w n => interval_ms w + n) 0 ws.

Lemma interval_pos w : before_time_ns w <= after_time_ns w -> 1 <= interval_ms w.
Proof.
  intros H. unfold interval_ms. pose proof (Z.quot_pos (after_time_ns w - before_time_ns w) 1000000 ltac:(lia) ltac:(lia)).
  destruct (Z.quot _ _ =? 0) eqn:E; lia.
Qed.

Lemma total_nonneg d ws : Forall (quiet d) ws -> 0 <= total ws.
Proof. induction 1 as [|w ws [_ Hw] _ IH]; cbn; [lia|]. fold (total ws). pose proof (interval_pos w Hw). lia. Qed.

Lemma total_length d ws : Forall (quiet d) ws -> Z.of_nat (length ws) <= total ws.
Proof. induction 1 as [|w ws [_ Hw] _ IH]; [done|]. cbn. fold (total ws). pose proof (interval_pos w Hw). lia. Qed.

Lemma deadline_off d ws : Forall (quiet d) ws -> deadline d (-1) ws = [].
Proof. induction 1 as [|w ws [Hw _] _ IH]; cbn; [done|]. by rewrite Hw. Qed.

Lemma deadline_quiet d t ws : 0 < t -> Forall (quiet d) ws -> deadline d t ws = if t <=? total ws then [0] else [].
Proof.
  intros Ht Hq. revert t Ht. induction Hq as [|w ws [Hw Hc] Hq IH]; intros t Ht; cbn [deadline total foldr]; [destruct (t <=? 0) eqn:E; [lia|done]|].
  rewrite Hw. pose proof (interval_pos w Hc). fold (total ws). pose proof (total_nonneg d ws Hq). unfold remaining. rewrite (proj2 (Z.ltb_lt 0 t) Ht).
  destruct (Z.max 0 (t - interval_ms w) =? 0) eqn:E.
  - rewrite deadline_off by done. by rewrite (proj2 (Z.leb_le _ _)) by lia.
  - rewrite IH by lia. rewrite Z.max_r by lia. destruct (t - interval_ms w <=? total ws) eqn:E1, (t <=? interval_ms w + total ws) eqn:E2; try done; lia.
Qed.

(** The request is on the clock: the thread is at the head of its loop, or it has taken the change and has no response for the descriptor in hand. *)
Definition on_clock (d : Z) (p : Poller) : Prop := pc p = PHandle \/ (ctrl_params_ p !! d = None /\ due d p = []).

Lemma watches_request d r cb p : requests_ p !! d = Some r -> callback r = Some cb -> on_clock d p -> watches d cb (timeout_ms r) p /\ due d p = [].
Proof.
  intros Er Ec Ep. assert (Hd : due d p = []) by (destruct Ep as [Ep|[_ ?]]; [unfold due; by rewrite Ep|done]). split; [|done].
  split; [destruct Ep as [Ep|[Ep _]]; auto|]. exists r. split; [done|]. split; [done|]. by left.
Qed.

Lemma request_told pipe_fd es0 es d r cb : let p := snd (run es0 (Init pipe_fd)) in
  on_clock d p -> requests_ p !! d = Some r -> callback r = Some cb -> Forall (leaves d) es ->
  called d (fst (run es p)) ++ told_calls cb (due d (snd (run es p))) = told_calls cb (deadline d (timeout_ms r) (waits es p)).
Proof.
  intros p Ep Er Ec Hes. destruct (watches_request d r cb p Er Ec Ep) as [Hw Hd]. pose proof (watched_run d cb es _ p (keyed_run es0 _ (keyed_init pipe_fd)) Hes Hw) as H.
  destruct (run es p) as [o p1]. by rewrite Hd in H.
Qed.

(** A request is told exactly what the waits say: from the time on that it is on the clock, whatever happens to other descriptors, its callback is called with its events each time it is
    ready, and once with none when its time is over, if it was not ready before; while it is not ready this is in the first wait at which the intervals, of at least a
    millisecond each, add up to its time, and never before. *)
Theorem request_deadline pipe_fd es0 es d r cb : let p := snd (run es0 (Init pipe_fd)) in
  on_clock d p -> requests_ p !! d = Some r -> callback r = Some cb -> Forall (leaves d) es ->
  let calls := called d (fst (run es p)) ++ told_calls cb (due d (snd (run es p))) in
  calls = told_calls cb (deadline d (timeout_ms r) (waits es p)) /\
  (0 < timeout_ms r -> Forall (quiet d) (waits es p) -> calls = (if timeout_ms r <=? total (waits es p) then [(cb, 0)] else []) /\ Z.of_nat (length (waits es p)) <= total (waits es p)).
Proof.
  intros p Ep Er Ec Hes calls. assert (H : calls = told_calls cb (deadline d (timeout_ms r) (waits es p))) by by apply request_told. split; [done|].
  intros Ht Hq. rewrite H, deadline_quiet by done. split; [by destruct (timeout_ms r <=? total (waits es p))|]. by apply (total_length d).
Qed.

(** *** A blocked coroutine *)

(** The handler's callback is only in the request of the descriptor. *)
Definition only (i : nat) (d : Z) (p : Poller) : Prop := map_Forall (fun d' r => callback r = Some (CHandler i) -> d' = d) (requests_ p).
Definition not_mine (i : nat) (d : Z) (e : Ev) : Prop := leaves d e /\ match e with ERegister r => callback r <> Some (CHandler i) | _ => True end.

(** The events that the handler is called with. *)
Definition answers (i : nat) (o : list (Z * Callback * Z)) : list Z := omap (fun c => match c.1.2 with CHandler j => if decide (j = i) then Some c.2 else None | CPipe => None end) o.

Lemma answers_fold i o hs : fold_left (fun hs c => respond c hs) o hs !! i = (fun h => fold_left (fun h ev => ResponseCallback ev h) (answers i o) h) <$> (hs !! i).
Proof.
  revert hs. induction o as [|[[d c] ev] o IH]; intros hs; cbn [fold_left answers omap list_omap]; [by destruct (hs !! i)|]. rewrite IH. unfold respond. cbn.
  destruct c as [|j]; [done|]. case_decide as Hj; cbn; [subst j; by rewrite lookup_alter_eq, <- option_fmap_compose|by rewrite lookup_alter_ne].
Qed.

Lemma answers_app i o1 o2 : answers i (o1 ++ o2) = answers i o1 ++ answers i o2.
Proof. apply omap_app. Qed.

Lemma io_run_facts es i w : the_poller (io_run es w) = snd (run es (the_poller w)) /\
  handlers (io_run es w) !! i = (fun h => fold_left (fun h ev => ResponseCallback ev h) (answers i (fst (run es (the_poller w)))) h) <$> (handlers w !! i).
Proof.
  revert w. induction es as [|e es IH]; intros w; cbn; [by destruct (handlers w !! i)|]. fold (io_run es (io_ev e w)). destruct (IH (io_ev e w)) as [-> ->]. unfold io_ev.
  destruct (run_ev e (the_poller w)) as [o1 p1]. cbn [the_poller handlers]. destruct (run es p1) as [o2 p2]. cbn [fst snd]. split; [done|].
  rewrite answers_fold, answers_app, <- option_fmap_compose. destruct (handlers w !! i); [|done]. cbn. by rewrite fold_left_app.
Qed.

Lemma only_step i d e p : only i d p -> not_mine i d e -> only i d (snd (run_ev e p)).
Proof.
  intros Ho [_ Hn]. destruct e as [r|r|d'| |w]; cbn [run_ev snd]; [| |done|done|].
  - destruct (register_cases r p) as [->|[_ ->]]; [done|]. by apply map_Forall_insert_2.
  - destruct (unregister_cases r p) as [->|[_ ->]]; [done|]. by apply map_Forall_delete.
  - unfold thread_step. destruct (pc p) as [|[|c l]| |[|[d' ev] l]|] eqn:E; cbn; try done.
    + by destruct (is_shutdown_ p).
    + intros d' r. cbn. rewrite lookup_fmap. intros (r0 & E0 & ->)%fmap_Some. unfold expire. case_match; by apply (Ho d' r0).
    + destruct (requests_ p !! d') as [r|] eqn:Er; [|done].
      destruct (callback r) as [[|h]|] eqn:Ec; apply map_Forall_insert_2; try done; cbn; rewrite Ec; try done; intros Eh; apply (Ho d' r Er); by rewrite Ec.
Qed.

Lemma answers_step i d e p r : only i d p -> requests_ p !! d = Some r -> callback r = Some (CHandler i) -> answers i (fst (run_ev e p)) = snd <$> called d (fst (run_ev e p)).
Proof.
  intros Ho Er Ec. destruct e as [| | | |w]; try done. cbn [run_ev]. unfold thread_step.
  destruct (pc p) as [|[|c l]| |[|[d' ev] l]|]; try done; [by destruct (is_shutdown_ p)|]. destruct (requests_ p !! d') as [r'|] eqn:Er'; [|done]. unfold called, answers.
  destruct (decide (d' = d)) as [->|Hne].
  - assert (r' = r) as -> by congruence. rewrite Ec. cbn. by rewrite !decide_True.
  - destruct (callback r') as [[|j]|] eqn:Ec'; cbn; rewrite ?(decide_False (P := d' = d)) by done; try done.
    case_decide as Hj; [subst j; by destruct Hne; apply (Ho d' r')|done].
Qed.

Lemma watches_some d cb t p : watches d cb t p -> exists r, requests_ p !! d = Some r /\ callback r = Some cb.
Proof. intros (_ & r & ? & ? & _). by exists r. Qed.

Lemma keeps_request d cb e p : leaves d e -> (exists r, requests_ p !! d = Some r /\ callback r = Some cb) -> exists r, requests_ (snd (run_ev e p)) !! d = Some r /\ callback r = Some cb.
Proof.
  intros Hl (r & Er & Ec). destruct e as [r'|r'|d'| |w]; cbn [run_ev snd leaves] in *; [| |by exists r|by exists r|].
  - destruct (register_cases r' p) as [->|[_ ->]]; exists r; [done|]. cbn. by rewrite lookup_insert_ne.
  - destruct (unregister_cases r' p) as [->|[_ ->]]; exists r; [done|]. cbn. by rewrite lookup_delete_ne.
  - unfold thread_step. destruct (pc p) as [|[|c l]| |[|[d' ev] l]|] eqn:E; cbn; try (by exists r).
    + destruct (is_shutdown_ p); by exists r.
    + rewrite lookup_fmap, Er. eexists. split; [done|]. unfold expire. by case_match.
    + destruct (requests_ p !! d') as [r'|] eqn:Er'; [|by exists r]. assert (H : exists r0, <[d' := set_timeout (-1) r']> (requests_ p) !! d = Some r0 /\ callback r0 = Some cb).
      { destruct (decide (d' = d)) as [->|Hne]; [rewrite lookup_insert_eq; eexists; split; [done|]; cbn; congruence|rewrite lookup_insert_ne by done; by exists r]. }
      by destruct (callback r') as [[|h]|].
Qed.

Lemma answers_run i d es p : only i d p -> (exists r, requests_ p !! d = Some r /\ callback r = Some (CHandler i)) -> Forall (not_mine i d) es ->
  answers i (fst (run es p)) = snd <$> called d (fst (run es p)).
Proof.
  revert p. induction es as [|e es IH]; intros p Ho Hr Hes; [done|]. inversion_clear Hes as [|? ? He Hes']. cbn [run]. pose proof (only_step i d e p Ho He) as Ho1.
  pose proof (keeps_request d _ e p (proj1 He) Hr) as Hr1. destruct Hr as (r & Er & Ec). pose proof (answers_step i d e p r Ho Er Ec) as Ha. destruct (run_ev e p) as [o1 p1]. cbn [fst snd] in *.
  specialize (IH p1 Ho1 Hr1 Hes'). destruct (run es p1) as [o2 p2]. cbn [fst snd] in *. by rewrite answers_app, called_app, fmap_app, Ha, IH.
Qed.

(** Callbacks of a coroutine that has yielded: the last event stays, and it is notified. *)
Lemma responses_fold evs h : is_blocking_ h = true -> routine_state h = IO_WAIT ->
  fold_left (fun h ev => ResponseCallback ev h) evs h = match last evs with Some ev => with_routine IO_WAIT true (with_response ev h) | None => h end.
Proof.
  revert h. induction evs as [|ev evs IH]; intros h Hb Hs; [done|]. cbn [fold_left]. assert (E : ResponseCallback ev h = with_routine IO_WAIT true (with_response ev h)).
  { unfold ResponseCallback. rewrite Hb. cbn. by rewrite bool_decide_true. }
  rewrite E, IH by done. destruct evs as [|ev' evs]; [done|]. destruct (last (ev' :: evs)) as [x|] eqn:El; [|by apply last_None in El]. by rewrite last_cons, El.
Qed.

Lemma block_told pipe_fd es0 es i h w : let p := the_poller w in
  p = snd (run es0 (Init pipe_fd)) -> on_clock (fd_ h) p -> handlers w !! i = Some h -> is_blocking_ h = true -> routine_state h = IO_WAIT -> notified h = false ->
  forall r, requests_ p !! fd_ h = Some r -> callback r = Some (CHandler i) -> only i (fd_ h) p -> Forall (not_mine i (fd_ h)) es -> due (fd_ h) (snd (run es p)) = [] ->
  match last (deadline (fd_ h) (timeout_ms r) (waits es p)) with
  | Some ev => exists w', block_resume i (io_run es w) = Some (negb (Z.land ev (if is_read_ h then EPOLLIN else EPOLLOUT) =? 0), w')
  | None => block_resume i (io_run es w) = None
  end.
Proof.
  intros p Ep Epc Eh Hb Hs Hn r Er Ec Ho Hes Hdue. assert (Hl : Forall (leaves (fd_ h)) es) by (apply (Forall_impl _ _ _ Hes); by intros e []).
  pose proof (request_told pipe_fd es0 es (fd_ h) r (CHandler i)) as H. cbv zeta in H. rewrite <- Ep in H. specialize (H Epc Er Ec Hl). rewrite Hdue, app_nil_r in H.
  destruct (io_run_facts es i w) as [_ Hh]. fold p in Hh. rewrite Eh, (answers_run i (fd_ h) es p Ho), H in Hh by (done || by exists r).
  assert (E : snd <$> told_calls (CHandler i) (deadline (fd_ h) (timeout_ms r) (waits es p)) = deadline (fd_ h) (timeout_ms r) (waits es p)).
  { unfold told_calls. rewrite <- list_fmap_compose. apply list_fmap_id. }
  rewrite E in Hh. cbn in Hh. rewrite responses_fold in Hh by done. unfold block_resume. rewrite Hh. destruct (last _) as [ev|]; [|by rewrite Hs, Hn].
  rewrite bool_decide_true by done. eexists. by cbn.
Qed.


(** The poller never waits longer than a request wants. *)
Lemma poll_timeout_bound p : 0 <= GetTimeoutMs p <= kPollTimeoutMs /\ map_Forall (fun _ r => 0 <= timeout_ms r -> GetTimeoutMs p <= timeout_ms r) (requests_ p).
Proof.
  unfold GetTimeoutMs. assert (H : forall l, let t := foldr (fun r t => if (0 <=? timeout_ms r) && (timeout_ms r <? t) then timeout_ms r else t) kPollTimeoutMs l in
    0 <= t <= kPollTimeoutMs /\ Forall (fun r => 0 <= timeout_ms r -> t <= timeout_ms r) l).
  { induction l as [|r l [IH1 IH2]]; cbn in *; [split; [unfold kPollTimeoutMs; lia|constructor]|]. set (t := foldr _ _ l) in *.
    destruct ((0 <=? timeout_ms r) && (timeout_ms r <? t)) eqn:E.
    - apply andb_true_iff in E as [E1 E2]. split; [lia|]. constructor; [lia|]. apply (Forall_impl _ _ _ IH2). intros r' Hr Hp. specialize (Hr Hp). lia.
    - split; [done|]. constructor; [|done]. intros Hp. apply andb_false_iff in E as [E|E]; lia. }
  destruct (H (snd <$> map_to_list (requests_ p))) as [H1 H2]. split; [done|]. intros d r Hr. rewrite Forall_forall in H2. apply H2, list_elem_of_fmap. exists (d, r). split; [done|]. by apply elem_of_map_to_list.
Qed.

End poller.
Arguments Poller : clear implicits.

(** ** Session *)

Section session.
(** The results of a system call, with whether it would block, and those of [Block] for reading and for writing, in the order of the calls; what [Block] does to [errno] is left out. *)
Context (sys : nat -> Z * bool) (block : bool -> nat -> bool).

Definition would_block (r : Z * bool) : bool := (fst r =? -1) && snd r.

(** The loop of the transfers, after [k] calls and [b] blocks. *)
Fixpoint retry (fuel : nat) (is_read : bool) (timeout : Z) (nbytes : Z * bool) (k b : nat) : option Z :=
  match fuel with
  | O => None
  | S fuel' =>
      if would_block nbytes then
        let '(n, k') := if block is_read b then (sys k, S k) else (nbytes, k) in
        if 0 <? timeout then Some (fst n) else retry fuel' is_read timeout n k' (S b)
      else Some (fst nbytes)
  end.

Definition transfer (fuel : nat) (is_read : bool) (timeout : Z) : option Z :=
  if timeout =? 0 then Some (fst (sys 0)) else retry fuel is_read timeout (sys 0) 1 0.

Definition Recv (fuel : nat) := transfer fuel true.
Definition RecvFrom (fuel : nat) := transfer fuel true.
Definition Send (fuel : nat) := transfer fuel false.
Definition SendTo (fuel : nat) := transfer fuel false.
Definition Read (fuel : nat) := transfer fuel true.
Definition Write (fuel : nat) := transfer fuel false.

(** [Accept]: the loop calls again whatever [Block] returned. *)
Fixpoint accept_loop (fuel : nat) (sock_fd : Z * bool) (k : nat) : option Z :=
  match fuel with
  | O => None
  | S fuel' => if would_block sock_fd then accept_loop fuel' (sys k) (S k) else Some (fst sock_fd)
  end.
Definition Accept (fuel : nat) : option Z := accept_loop fuel (sys 0) 1.

(** [Connect], of the result of [connect] and whether it is in progress, and of the pending error of the socket after the block. *)
Definition Connect (res : Z * bool) (so_error : Z) : Z := if (fst res =? -1) && snd res then if so_error =? 0 then 0 else fst res else fst res.

Lemma retry_waits n is_read timeout k b fuel : timeout < 0 -> (forall m, block is_read m = true) -> (n < fuel)%nat ->
  (forall m, (m < n)%nat -> would_block (sys (k + m)) = true) -> would_block (sys (k + n)) = false ->
  retry fuel is_read timeout (sys k) (S k) b = Some (fst (sys (k + n))).
Proof.
  intros Ht Hb. revert k b fuel. induction n as [|n IH]; intros k b [|fuel] Hf Hw Hn; try lia; cbn.
  - rewrite Nat.add_0_r in Hn |- *. by rewrite Hn.
  - pose proof (Hw 0%nat ltac:(lia)) as H0. rewrite Nat.add_0_r in H0. rewrite H0, Hb. rewrite (proj2 (Z.ltb_ge 0 timeout)) by lia.
    replace (k + S n)%nat with (S k + n)%nat in * by lia. apply IH; [lia| |done]. intros m Hm. replace (S k + m)%nat with (k + S m)%nat by lia. apply Hw. lia.
Qed.

(** A transfer makes one call with no time, at most two with a time; and without a limit, as long as blocking succeeds, it returns the first result that would not block. *)
Theorem transfer_returns is_read timeout fuel n : (forall m, block is_read m = true) -> (n < fuel)%nat -> (forall m, (m < n)%nat -> would_block (sys m) = true) -> would_block (sys n) = false ->
  transfer fuel is_read timeout = Some (fst (sys (if (timeout =? 0)%Z then 0 else if (0 <? timeout)%Z then n `min` 1 else n)%nat)).
Proof.
  intros Hb Hf Hw Hn. unfold transfer. destruct (timeout =? 0) eqn:E0; [done|]. destruct (0 <? timeout) eqn:E1.
  - destruct fuel as [|fuel]; [lia|]. cbn. rewrite E1, Hb. destruct n as [|n]; [by rewrite Hn|]. rewrite (Hw 0%nat) by lia. cbn. by rewrite Nat.min_0_r.
  - apply (retry_waits n is_read timeout 0 0 fuel); [lia|done..].
Qed.

(** When [Block] fails, as it does at once when the poller is shut down, a transfer without a limit spins: it makes no system call and never returns. *)
Lemma failed_block_spins is_read timeout fuel : timeout < 0 -> (forall m, block is_read m = false) -> would_block (sys 0) = true -> transfer fuel is_read timeout = None.
Proof.
  intros Ht Hb Hw. unfold transfer. rewrite (proj2 (Z.eqb_neq timeout 0)) by lia. assert (H : forall fuel b, retry fuel is_read timeout (sys 0) 1 b = None).
  { clear fuel. induction fuel as [|fuel IH]; intros b; [done|]. cbn. rewrite Hw, Hb. rewrite (proj2 (Z.ltb_ge 0 timeout)) by lia. apply IH. }
  apply H.
Qed.

(** [Connect] does not look whether it was woken: a connection still in progress, which has no error yet, counts as made. *)
Lemma connect_in_progress : Connect (-1, true) 0 = 0.
Proof. done. Qed.
End session.

(** ** An instance of the kernel's part, and traces *)

#[export] Instance gmap_epoll : Epoll (gmap Z Interest) := {
  ep_new := ∅;
  ep_ctl c d ev k := match settle c ev (k !! d) with Some e => <[d := e]> k | None => delete d k end;
  ep_close d k := delete d k;
  ep_return d k := alter fired d k;
  ep_interest k d := k !! d;
}.

#[export] Instance gmap_epoll_laws : EpollLaws (gmap Z Interest).
Proof.
  split; cbn.
  - intros d. apply lookup_empty.
  - intros c d ev k d'. case_decide as H; [subst d'|]; destruct (settle c ev (k !! d)); by rewrite ?lookup_insert_eq, ?lookup_delete_eq, ?lookup_insert_ne, ?lookup_delete_ne by done.
  - intros d k d'. case_decide as H; [subst d'; apply lookup_delete_eq|by apply lookup_delete_ne].
  - intros d k d'. case_decide as H; [subst d'; apply lookup_alter_eq|by apply lookup_alter_ne].
Qed.

Module PollerDemo.
(** A wait of some milliseconds, with what is ready. *)
Definition after (ms : Z) (l : list (Z * Z)) : Wait := mkWait 0 (ms * 1000000) l.
Definition idle : Ev := EStep (after 0 []).
(** One round of the thread, of [n] changes and [c] calls. *)
Definition round (n c : nat) (w : Wait) : list Ev := (replicate (n + 2) idle ++ EStep w :: replicate (c + 1) idle)%nat.

Definition request (d ev t : Z) : PollRequest := mkRequest d ev t (Some (CHandler 0)).
Definition start : Poller (gmap Z Interest) := Init 3.
Definition told_start : list Ev := round 1 0 (after 1 []).

(** A descriptor is registered, told, unregistered, told, closed, and its number comes back. *)
Definition reused : list Ev := told_start ++ [ERegister (request 7 EPOLLIN 50)] ++ round 1 0 (after 1 []) ++ [EUnregister (request 7 EPOLLIN 50); EClose 7; ERegister (request 7 EPOLLOUT 20)] ++ round 1 0 (after 1 []).

Fixpoint calmb (es : list Ev) (p : Poller (gmap Z Interest)) : bool :=
  match es with
  | [] => true
  | e :: es' =>
      match e with
      | ERegister r => bool_decide (is_Some (requests_ p !! fd r)) && bool_decide (is_Some (told (fd r) p)) || negb (bool_decide (is_Some (requests_ p !! fd r))) && negb (bool_decide (is_Some (told (fd r) p)))
      | EClose d => bool_decide (requests_ p !! d = None)
      | EShutdown => false
      | _ => true
      end && calmb es' (snd (run_ev e p))
  end.

Lemma calmb_calm es p : calmb es p = true -> all_calm es p.
Proof.
  revert p. induction es as [|e es IH]; intros p; cbn; [done|]. intros [He Hes]%andb_true_iff. split; [|by apply IH]. destruct e; cbn; try done; [|by apply bool_decide_eq_true in He].
  repeat case_bool_decide; done.
Qed.

(** A one-shot descriptor that a wait has returned. *)
Definition one_shot_read : Z := Z.lor EPOLLONESHOT EPOLLIN.
Definition used_up : list Ev := told_start ++ [ERegister (request 7 one_shot_read 50)] ++ round 1 1 (after 1 [(7, EPOLLIN)]).

Lemma interest_agrees_witness : let p := snd (run reused start) in let q := snd (run used_up start) in
  settled 7 p = (fun r => (events r, enabled 7 reused start true)) <$> (requests_ p !! 7) /\ ep_interest (kernel p) 7 = Some (EPOLLOUT, true) /\
  ep_interest (kernel q) 7 = (fun r => (events r, enabled 7 used_up start true)) <$> (requests_ q !! 7) /\ ep_interest (kernel q) 7 = Some (one_shot_read, false).
Proof.
  cbv zeta. split; [exact (proj1 (interest_agrees 3 reused 7 (calmb_calm reused start ltac:(vm_compute; reflexivity))))|]. split; [vm_compute; reflexivity|]. split; [|vm_compute; reflexivity].
  exact (proj2 (interest_agrees 3 used_up 7 (calmb_calm used_up start ltac:(vm_compute; reflexivity))) ltac:(vm_compute; reflexivity) ltac:(vm_compute; reflexivity)).
Defined.

(** Two changes of a descriptor before the thread has taken the first: the second replaces it.  The kernel never learns of a descriptor that was registered twice; and one
    that was unregistered and registered keeps its old events. *)
Lemma registered_twice_unknown : let p := snd (run (told_start ++ [ERegister (request 7 EPOLLIN 50); ERegister (request 7 EPOLLOUT 50)] ++ round 1 0 (after 1 [])) start) in
  (events <$> (requests_ p !! 7), ep_interest (kernel p) 7) = (Some EPOLLOUT, None).
Proof. vm_compute. reflexivity. Qed.
Lemma reregistered_keeps_events :
  let p := snd (run (told_start ++ [ERegister (request 7 EPOLLIN 50)] ++ round 1 0 (after 1 []) ++ [EUnregister (request 7 EPOLLIN 50); ERegister (request 7 EPOLLOUT 50)] ++ round 1 0 (after 1 [])) start) in
  (events <$> (requests_ p !! 7), ep_interest (kernel p) 7) = (Some EPOLLOUT, Some (EPOLLIN, true)).
Proof. vm_compute. reflexivity. Qed.

(** The response of a request whose time was over goes to the request that has replaced it, and takes that one off the clock. *)
Lemma stale_timeout_hits : let es := told_start ++ [ERegister (request 7 EPOLLIN 2)] ++ round 1 0 (after 1 []) ++ replicate 2 idle ++ [EStep (after 1 []); ERegister (request 7 EPOLLOUT 1000); idle] in
  let '(o, p) := run es start in (o, timeout_ms <$> (requests_ p !! 7)) = ([(7, CHandler 0, 0)], Some (-1)).
Proof. vm_compute. reflexivity. Qed.

(** A clock that is set back gives requests more time. *)
Lemma clock_back : remaining (interval_ms (mkWait 5000000 0 [])) 10 = 15.
Proof. vm_compute. reflexivity. Qed.

Definition blocked_request : PollRequest := mkRequest 7 (Z.lor (Z.lor EPOLLET EPOLLONESHOT) EPOLLIN) 20 (Some (CHandler 0)).


Definition two_rounds : list Ev := round 1 0 (after 15 []) ++ round 0 1 (after 5 []).

Lemma request_deadline_witness : let p := snd (run (told_start ++ [ERegister blocked_request]) start) in
  let calls := called 7 (fst (run two_rounds p)) ++ told_calls (CHandler 0) (due 7 (snd (run two_rounds p))) in
  calls = told_calls (CHandler 0) (deadline 7 (timeout_ms blocked_request) (waits two_rounds p)) /\
  (0 < timeout_ms blocked_request -> Forall (quiet 7) (waits two_rounds p) ->
    calls = (if timeout_ms blocked_request <=? total (waits two_rounds p) then [(CHandler 0, 0)] else []) /\ Z.of_nat (length (waits two_rounds p)) <= total (waits two_rounds p)).
Proof.
  refine (request_deadline 3 (told_start ++ [ERegister blocked_request]) two_rounds 7 blocked_request (CHandler 0) (or_introl _) _ _ _); [vm_compute; reflexivity..|]. repeat constructor.
Defined.


(** A response before the yield is lost: the coroutine was running when it was called, and its request is off the clock; it waits for as long as nothing more happens to
    the descriptor, with the data it asked for there to read. *)
Definition early : list Ev := replicate 3 idle ++ [EStep (after 1 [(7, EPOLLIN)]); idle; idle].
Definition missed : IoWorld := block_yield 0 (io_run early (snd (block_start 0 20 true (mkIo (snd (run told_start start)) {[0%nat := handler_new 7]})))).

Lemma missed_poller : the_poller missed = snd (run (told_start ++ [ERegister blocked_request] ++ early) start).
Proof. vm_compute. reflexivity. Qed.

Lemma early_response_sleeps es : Forall (not_mine 0 7) es -> Forall (quiet 7) (waits es (the_poller missed)) -> due 7 (snd (run es (the_poller missed))) = [] ->
  block_resume 0 (io_run es missed) = None /\ response_ <$> (handlers missed !! 0%nat) = Some EPOLLIN.
Proof.
  intros Hes Hq Hd. split; [|vm_compute; reflexivity]. assert (Ec : on_clock 7 (the_poller missed)) by (left; vm_compute; reflexivity).
  pose proof (block_told 3 _ es 0 (mkHandler 7 true true blocked_request EPOLLIN IO_WAIT false) missed missed_poller Ec ltac:(vm_compute; reflexivity)
    ltac:(done) ltac:(done) ltac:(done) (set_timeout (-1) blocked_request) ltac:(vm_compute; reflexivity) ltac:(done)) as H.
  cbn [fd_ timeout_ms set_timeout] in H. rewrite deadline_off in H by done. apply H; [|done..]. unfold only. apply (bool_decide_unpack _). vm_compute. exact I.
Qed.
End PollerDemo.
