(* ===== verification/Logger.v ===== *)
(** * Logger: log messages, written by a thread of their own

    Models [cyber/logger/async_logger.{h,cc}] and [FindModuleName] of [logger_util.h]: the two buffers, the threads that append to them, the thread that
    writes them to a file for each module, and the stop.  A thread's access to a buffer under the flag is one step, the writing of a message another.
    What a file does with a message is not modelled. *)

From Stdlib Require Import Ascii.
From S2P Require Import Prelude.

Record Msg := mkMsg { ts : Z; message : string; level : Z }.

(** What comes before and after the first occurrence of a character. *)
Fixpoint cut (c : ascii) (s : string) : option (string * string) :=
  match s with
  | EmptyString => None
  | String d s' => if decide (d = c) then Some (EmptyString, s') else '(a, b) ← cut c s'; Some (String d a, b)
  end.

Definition LEFT_BRACKET : ascii := "["%char.
Definition RIGHT_BRACKET : ascii := "]"%char.

(** The rest of the message and its module; a message without one leaves the name that was there. *)
Definition FindModuleName (process_group log_message module_name : string) : string * string :=
  let '(m, n) := match cut LEFT_BRACKET log_message with
                 | Some (a, b) => match cut RIGHT_BRACKET b with Some (n, c) => (a +:+ c, n) | None => (log_message, module_name) end
                 | None => (log_message, module_name)
                 end in
  (m, if decide (n = "") then process_group else n).

(** [log_level_map] of the first character. *)
Definition log_level (message : string) : Z :=
  match message with
  | String c _ => if decide (c = "F"%char) then 3 else if decide (c = "E"%char) then 2 else if decide (c = "W"%char) then 1 else 0
  | EmptyString => 0
  end.

Section logger.
Context (process_group : string).

(** What is written to a file: whether it is flushed at once, the time and the text. *)
Definition entry : Type := bool * Z * string.

Inductive State := INITTED | RUNNING | STOPPED.
#[local] Instance State_eq_dec : EqDecision State.
Proof. solve_decision. Defined.

(** The log thread: at the head of its loop, about to swap the buffers, writing the flushing buffer with a module's name, and at its end. *)
Inductive LogPc := LCheck | LSwap | LFlush (module_name : string) | LDone.
(** The thread that stops the logger: not yet, waiting for the log thread, writing the active buffer, checking that nothing is left, done, and ended by a failed check. *)
Inductive StopPc := SNone | SJoin | SFlush (module_name : string) | SCheck | SDone | SAborted.

Record AsyncLogger := mkLogger {
  state_ : State;
  active_buf_ : list Msg;
  flushing_buf_ : list Msg;
  moduleLoggerMap : gmap string (list entry);
  log_thread_ : LogPc;
  stopper : StopPc;
  (** The threads that have seen the logger running and have not yet appended. *)
  writers : gmap nat Msg;
  (** What was appended and what was written, in order. *)
  accepted : list Msg;
  written : list Msg;
}.

Definition logger_new : AsyncLogger := mkLogger INITTED [] [] ∅ LCheck SNone ∅ [] [].

Definition with_log (pc : LogPc) (l : AsyncLogger) : AsyncLogger := mkLogger (state_ l) (active_buf_ l) (flushing_buf_ l) (moduleLoggerMap l) pc (stopper l) (writers l) (accepted l) (written l).
Definition with_stop (pc : StopPc) (l : AsyncLogger) : AsyncLogger := mkLogger (state_ l) (active_buf_ l) (flushing_buf_ l) (moduleLoggerMap l) (log_thread_ l) pc (writers l) (accepted l) (written l).
Definition with_state (s : State) (l : AsyncLogger) : AsyncLogger := mkLogger s (active_buf_ l) (flushing_buf_ l) (moduleLoggerMap l) (log_thread_ l) (stopper l) (writers l) (accepted l) (written l).
Definition with_writers (w : gmap nat Msg) (l : AsyncLogger) : AsyncLogger := mkLogger (state_ l) (active_buf_ l) (flushing_buf_ l) (moduleLoggerMap l) (log_thread_ l) (stopper l) w (accepted l) (written l).
Definition with_buffers (a f : list Msg) (l : AsyncLogger) : AsyncLogger := mkLogger (state_ l) a f (moduleLoggerMap l) (log_thread_ l) (stopper l) (writers l) (accepted l) (written l).

(** [CHECK_EQ] ends the process. *)
Definition Start (l : AsyncLogger) : option AsyncLogger := if decide (state_ l = INITTED) then Some (with_state RUNNING l) else None.

(** The first access of [Write], and the rest under the flag. *)
Definition write_check (i : nat) (timestamp : Z) (text : string) (l : AsyncLogger) : AsyncLogger :=
  if decide (state_ l = RUNNING) then with_writers (<[i := mkMsg timestamp text (log_level text)]> (writers l)) l else l.
Definition write_append (i : nat) (l : AsyncLogger) : AsyncLogger :=
  match writers l !! i with
  | Some m => mkLogger (state_ l) (active_buf_ l ++ [m]) (flushing_buf_ l) (moduleLoggerMap l) (log_thread_ l) (stopper l) (delete i (writers l)) (accepted l ++ [m]) (written l)
  | None => l
  end.

(** One round of the loop of [FlushBuffer]: the message goes to the file of its module. *)
Definition write_entry (m : Msg) (module_name : string) (files : gmap string (list entry)) : string * gmap string (list entry) :=
  let '(text, n) := FindModuleName process_group (message m) module_name in
  (n, <[n := default [] (files !! n) ++ [(0 <? level m, ts m, text)]]> files).
Definition flush_one (m : Msg) (module_name : string) (l : AsyncLogger) : string * AsyncLogger :=
  let '(n, files) := write_entry m module_name (moduleLoggerMap l) in
  (n, mkLogger (state_ l) (active_buf_ l) (flushing_buf_ l) files (log_thread_ l) (stopper l) (writers l) (accepted l) (written l ++ [m])).

(** [RunThread]; the sleep is left out. *)
Definition log_step (l : AsyncLogger) : AsyncLogger :=
  match log_thread_ l with
  | LCheck => match state_ l with
              | RUNNING => with_log LSwap l
              | INITTED => l
              | STOPPED => with_log LDone l
              end
  | LSwap => with_log (LFlush "") (with_buffers (flushing_buf_ l) (active_buf_ l) l)
  | LFlush n =>
      match flushing_buf_ l with
      | [] => with_log LCheck l
      | m :: f => let '(n', l') := flush_one m n (with_buffers (active_buf_ l) f l) in with_log (LFlush n') l'
      end
  | LDone => l
  end.

(** [Stop]; it is called once. *)
Definition stop_step (l : AsyncLogger) : AsyncLogger :=
  match stopper l with
  | SNone => if decide (state_ l = RUNNING) then with_stop SJoin (with_state STOPPED l) else with_stop SAborted l
  | SJoin => match log_thread_ l with LDone => with_stop (SFlush "") l | _ => l end
  | SFlush n =>
      match active_buf_ l with
      | m :: a => let '(n', l') := flush_one m n (with_buffers a (flushing_buf_ l) l) in with_stop (SFlush n') l'
      | [] => with_stop SCheck l
      end
  | SCheck => with_stop (match active_buf_ l, flushing_buf_ l with [], [] => SDone | _, _ => SAborted end) l
  | SDone | SAborted => l
  end.

Inductive LogEv := ECheck (i : nat) (timestamp : Z) (text : string) | EAppend (i : nat) | ELog | EStop.

Definition log_ev (e : LogEv) (l : AsyncLogger) : AsyncLogger :=
  match e with
  | ECheck i t s => write_check i t s l
  | EAppend i => write_append i l
  | ELog => log_step l
  | EStop => stop_step l
  end.
Definition log_run (es : list LogEv) (l : AsyncLogger) : AsyncLogger := fold_left (fun l e => log_ev e l) es l.

(** A logger that was started. *)
Definition started : AsyncLogger := with_state RUNNING logger_new.

(** ** What is written *)

(** A message that names a module goes to its file whatever was written before. *)
Definition module_of (m : Msg) : option string :=
  '(_, b) ← cut LEFT_BRACKET (message m); '(n, _) ← cut RIGHT_BRACKET b; if decide (n = "") then None else Some n.
Definition entry_of (m : Msg) : entry := (0 <? level m, ts m, fst (FindModuleName process_group (message m) "")).

(** The reference: the messages of a module, in order. *)
Definition file_of (n : string) (ms : list Msg) : list entry := entry_of <$> filter (fun m => module_of m = Some n) ms.

(** What all the files hold together. *)
Definition all_entries (files : gmap string (list entry)) : list entry := map_to_list files ≫= snd.

(** ** Lemmas *)

Lemma entry_spec m name files n : module_of m = Some n -> write_entry m name files = (n, <[n := default [] (files !! n) ++ [entry_of m]]> files).
Proof.
  unfold module_of, write_entry, entry_of, FindModuleName. destruct (cut LEFT_BRACKET (message m)) as [[a b]|]; [|done]. cbn.
  destruct (cut RIGHT_BRACKET b) as [[n' c]|]; [|done]. cbn. case_decide as Hn; [done|]. by intros [= <-].
Qed.

(** A message that names no module changes the text no more than its module's name. *)
Lemma entry_any m name files : exists n, write_entry m name files = (n, <[n := default [] (files !! n) ++ [entry_of m]]> files) /\
  (forall n', module_of m = Some n' -> n = n').
Proof.
  destruct (module_of m) as [n|] eqn:Em; [exists n; split; [by apply entry_spec|by intros n' [= ->]]|].
  unfold write_entry, entry_of, FindModuleName. destruct (cut LEFT_BRACKET (message m)) as [[a b]|]; [|by eexists].
  destruct (cut RIGHT_BRACKET b) as [[n' c]|]; by eexists.
Qed.

Lemma all_entries_insert files n x e : default [] (files !! n) = x -> all_entries (<[n := x ++ [e]]> files) ≡ₚ all_entries files ++ [e].
Proof.
  intros <-. unfold all_entries. destruct (files !! n) as [y|] eqn:E; cbn [default].
  - rewrite <- (insert_delete_id files n y E) at 2. rewrite <- insert_delete_eq. rewrite !map_to_list_insert by apply lookup_delete_eq. cbn.
    rewrite <- !app_assoc. f_equiv. apply Permutation_app_comm.
  - rewrite map_to_list_insert by done. cbn. apply (Permutation_app_comm [e]).
Qed.

Record logger_ok (l : AsyncLogger) : Prop := {
  lg_order : written l ++ flushing_buf_ l ++ active_buf_ l = accepted l;
  lg_check : log_thread_ l = LCheck \/ log_thread_ l = LSwap \/ log_thread_ l = LDone -> flushing_buf_ l = [];
  lg_stop : (exists n, stopper l = SFlush n) \/ stopper l = SCheck \/ stopper l = SDone -> log_thread_ l = LDone;
  lg_done : log_thread_ l = LDone -> state_ l = STOPPED;
  lg_state : stopper l = SJoin \/ (exists n, stopper l = SFlush n) \/ stopper l = SCheck \/ stopper l = SDone -> state_ l = STOPPED;
  lg_running : stopper l = SNone -> state_ l = RUNNING;
  lg_all : all_entries (moduleLoggerMap l) ≡ₚ entry_of <$> written l;
  lg_sub : forall n, file_of n (written l) `sublist_of` default [] (moduleLoggerMap l !! n);
  lg_files : Forall (fun m => is_Some (module_of m)) (accepted l) -> forall n, default [] (moduleLoggerMap l !! n) = file_of n (written l);
}.

Lemma files_step m name l n0 files : write_entry m name (moduleLoggerMap l) = (n0, files) -> is_Some (module_of m) ->
  (forall n, default [] (moduleLoggerMap l !! n) = file_of n (written l)) -> forall n, default [] (files !! n) = file_of n (written l ++ [m]).
Proof.
  intros E [nm Hm] H n. rewrite (entry_spec m name _ nm Hm) in E. injection E as <- <-. unfold file_of. rewrite filter_app, fmap_app. fold (file_of n (written l)). rewrite <- H.
  rewrite filter_cons, filter_nil, Hm. destruct (decide (n = nm)) as [->|Hne].
  - rewrite lookup_insert_eq. by rewrite decide_True.
  - rewrite lookup_insert_ne by done. rewrite decide_False by congruence. cbn. by rewrite app_nil_r.
Qed.

Lemma all_step m name l n0 files : write_entry m name (moduleLoggerMap l) = (n0, files) ->
  all_entries (moduleLoggerMap l) ≡ₚ entry_of <$> written l -> all_entries files ≡ₚ entry_of <$> (written l ++ [m]).
Proof.
  intros E H. destruct (entry_any m name (moduleLoggerMap l)) as (n & E' & _). rewrite E in E'. injection E' as -> ->.
  rewrite all_entries_insert by done. by rewrite fmap_app, H.
Qed.

Lemma sub_step m name l n0 files : write_entry m name (moduleLoggerMap l) = (n0, files) ->
  (forall n, file_of n (written l) `sublist_of` default [] (moduleLoggerMap l !! n)) ->
  forall n, file_of n (written l ++ [m]) `sublist_of` default [] (files !! n).
Proof.
  intros E H n. destruct (entry_any m name (moduleLoggerMap l)) as (nm & E' & Hm). rewrite E in E'. injection E' as -> ->.
  unfold file_of. rewrite filter_app, fmap_app. fold (file_of n (written l)). rewrite filter_cons, filter_nil.
  destruct (decide (n = nm)) as [->|Hne]; [rewrite lookup_insert_eq|rewrite lookup_insert_ne by done]; cbn [default].
  - case_decide; cbn; [by apply sublist_app|rewrite app_nil_r; by apply sublist_inserts_r].
  - rewrite decide_False; [cbn; by rewrite app_nil_r|]. intros E'. by rewrite (Hm _ E') in Hne.
Qed.

Lemma log_ev_ok e l : logger_ok l -> logger_ok (log_ev e l).
Proof.
  intros [H1 H2 H3 H4 H5 H7 HA HS H6]. destruct e as [i t s|i| |]; cbn [log_ev].
  - unfold write_check. case_decide; by split.
  - unfold write_append. destruct (writers l !! i) as [m|]; [|by split]. split; cbn; try done; [by rewrite <- H1, !app_assoc|].
    intros [Hf _]%Forall_app. by apply H6.
  - unfold log_step. destruct (log_thread_ l) as [| |n|] eqn:El; [| |destruct (flushing_buf_ l) as [|m f] eqn:Ef|by split; rewrite ?El].
    + destruct (state_ l) eqn:Es; [by split; rewrite ?El, ?Es| |]; split; cbn; rewrite ?Es; try done; naive_solver.
    + assert (Hf : flushing_buf_ l = []) by auto. split; cbn; try done; [by rewrite <- H1, Hf, app_nil_r|naive_solver..].
    + split; cbn; rewrite ?Ef; try done; naive_solver.
    + unfold flush_one. destruct (write_entry _ _ _) as [n' files] eqn:Ew. split; cbn; try done; [by rewrite <- H1, <- !app_assoc|naive_solver..|by eapply all_step|by eapply sub_step|].
      intros Ht. eapply files_step; [exact Ew| |by apply H6]. rewrite <- H1 in Ht. by apply Forall_app in Ht as [_ [Hm _]%Forall_cons].
  - unfold stop_step. destruct (stopper l) as [| |n| | |] eqn:Es; [| |destruct (active_buf_ l) as [|m a] eqn:Ea| |by split; rewrite ?Es|by split; rewrite ?Es].
    + case_decide as Hr; split; cbn; try done; naive_solver.
    + destruct (log_thread_ l) eqn:El; [by split; rewrite ?El, ?Es..|]. split; cbn; rewrite ?El; try done; naive_solver.
    + assert (Hd : log_thread_ l = LDone) by (apply H3; left; by eexists). assert (Hf : flushing_buf_ l = []) by auto.
      split; cbn; rewrite ?Ea, ?Hf, ?Hd; try done; [by rewrite <- H1, Hf|naive_solver..].
    + assert (Hd : log_thread_ l = LDone) by (apply H3; left; by eexists). assert (Hf : flushing_buf_ l = []) by auto.
      unfold flush_one. destruct (write_entry _ _ _) as [n' files] eqn:Ew. split; cbn; rewrite ?Hf, ?Hd; try done; [by rewrite <- H1, Hf, <- app_assoc|naive_solver..|by eapply all_step|by eapply sub_step|].
      intros Ht. eapply files_step; [exact Ew| |by apply H6]. rewrite <- H1, Hf in Ht. by apply Forall_app in Ht as [_ [Hm _]%Forall_cons].
    + destruct (active_buf_ l) eqn:Ea, (flushing_buf_ l) eqn:Ef; split; cbn; rewrite ?Ea, ?Ef; try done; naive_solver.
Qed.

Lemma log_run_ok es l : logger_ok l -> logger_ok (log_run es l).
Proof. revert l. induction es as [|e es IH]; intros l Hl; [done|]. apply IH. by apply log_ev_ok. Qed.

Lemma started_ok : logger_ok started.
Proof. split; cbn; try done; try naive_solver; intros _ n; by rewrite lookup_empty. Qed.

(** No message is lost, written twice or out of order: in every interleaving of the threads that write, the log thread and the stop, what was written, what is being
    written and what waits are together what was appended; and the file of a module has that module's messages among those written, in order, if every message names one. *)
Theorem log_in_order es : let l := log_run es started in
  written l ++ flushing_buf_ l ++ active_buf_ l = accepted l /\
  (Forall (fun m => is_Some (module_of m)) (accepted l) -> forall n, default [] (moduleLoggerMap l !! n) = file_of n (written l)).
Proof. intros l. pose proof (log_run_ok es started started_ok) as [H1 _ _ _ _ _ _ _ H6]. by split. Qed.

(** *** The stop *)

Lemma log_run_app es1 es2 l : log_run (es1 ++ es2) l = log_run es2 (log_run es1 l).
Proof. apply fold_left_app. Qed.

(** The log thread comes to its end; it may take over the active buffer once more. *)
Lemma log_thread_ends n l : logger_ok l -> state_ l = STOPPED -> (length (flushing_buf_ l) + length (active_buf_ l) + 3 <= n)%nat -> let l' := log_run (replicate n ELog) l in
  log_thread_ l' = LDone /\ (length (active_buf_ l') <= length (active_buf_ l))%nat /\ stopper l' = stopper l /\ accepted l' = accepted l.
Proof.
  (* the steps that are left *)
  set (left l := match log_thread_ l with LCheck => 1 | LSwap => length (active_buf_ l) + 3 | LFlush _ => length (flushing_buf_ l) + 2 | LDone => 0 end%nat).
  intros Hok Hs Hn. assert (Hleft : (left l <= n)%nat) by (unfold left; destruct (log_thread_ l); lia). clear Hn. cbv zeta. revert l Hok Hs Hleft. induction n as [|n IH]; intros l Hok Hs Hn.
  - cbn. unfold left in Hn. destruct (log_thread_ l); by repeat split; lia.
  - change (log_run (replicate (S n) ELog) l) with (log_run (replicate n ELog) (log_step l)). pose proof (log_ev_ok ELog l Hok) as Hok1. cbn [log_ev] in Hok1.
    assert (H : state_ (log_step l) = STOPPED /\ (left (log_step l) <= n)%nat /\ (length (active_buf_ (log_step l)) <= length (active_buf_ l))%nat /\ stopper (log_step l) = stopper l /\ accepted (log_step l) = accepted l).
    { unfold left in *. unfold log_step. destruct (log_thread_ l) as [| |nm|] eqn:El.
      - rewrite Hs. cbn. repeat split; lia || done.
      - pose proof (lg_check _ Hok ltac:(auto)) as Hf. cbn. rewrite Hf. cbn. repeat split; lia || done.
      - destruct (flushing_buf_ l) as [|m f] eqn:Ef; [cbn in *; repeat split; lia || done|]. unfold flush_one. destruct (write_entry _ _ _) as [n' files]. cbn in *. repeat split; lia || done.
      - rewrite El. repeat split; lia || done. }
    destruct H as (Hs1 & Hn1 & Ha1 & Hst1 & Hac1). destruct (IH (log_step l) Hok1 Hs1 Hn1) as (Hd & Ha & Hst & Hac). repeat split; [done|lia|congruence..].
Qed.

Lemma stop_flushes k l nm : log_thread_ l = LDone -> stopper l = SFlush nm -> flushing_buf_ l = [] -> (length (active_buf_ l) + 2 <= k)%nat -> let l' := log_run (replicate k EStop) l in
  stopper l' = SDone /\ accepted l' = accepted l /\ active_buf_ l' = [] /\ flushing_buf_ l' = [].
Proof.
  cbv zeta. remember (active_buf_ l) as a eqn:Ea. revert k nm l Ea. induction a as [|m a IH]; intros [|[|k]] nm l Ea Hl Hs Hf Hk; cbn in Hk; try lia.
  - change (log_run (replicate (S (S k)) EStop) l) with (log_run (replicate k EStop) (stop_step (stop_step l))).
    assert (E : stop_step l = with_stop SCheck l) by (unfold stop_step; by rewrite Hs, <- Ea).
    assert (E2 : stop_step (with_stop SCheck l) = with_stop SDone l) by (unfold stop_step; cbn; by rewrite <- Ea, Hf).
    assert (E3 : forall k, log_run (replicate k EStop) (with_stop SDone l) = with_stop SDone l) by (clear; induction k as [|k IH]; [done|exact IH]). by rewrite E, E2, E3.
  - change (log_run (replicate (S (S k)) EStop) l) with (log_run (replicate (S k) EStop) (stop_step l)).
    unfold stop_step. rewrite Hs, <- Ea. unfold flush_one. destruct (write_entry _ _ _) as [n' files]. set (l1 := with_stop _ _). exact (IH (S k) n' l1 eq_refl Hl eq_refl Hf ltac:(lia)).
Qed.

(** C34: A stop writes everything: when no thread appends any more, the log thread and the stop come to their ends in as many steps as there are messages to write, no check
    fails, and every message that was appended is written.  The files hold together exactly one entry per message, and the file of each module has all the messages that name it, in order;
    it has nothing else if every message names a module (one that names none goes to a file that depends on what was written before it, as [untagged_follows] shows). *)
Theorem stop_writes_all es n k : let l := log_run es started in
  stopper l = SNone -> (length (flushing_buf_ l) + length (active_buf_ l) + 3 <= n)%nat -> (length (active_buf_ l) + 2 <= k)%nat ->
  let l' := log_run (EStop :: replicate n ELog ++ EStop :: replicate k EStop) l in
  stopper l' = SDone /\ written l' = accepted l /\ active_buf_ l' = [] /\ flushing_buf_ l' = [] /\
  all_entries (moduleLoggerMap l') ≡ₚ entry_of <$> accepted l /\
  (forall nm, file_of nm (accepted l) `sublist_of` default [] (moduleLoggerMap l' !! nm)) /\
  (Forall (fun m => is_Some (module_of m)) (accepted l) -> forall nm, default [] (moduleLoggerMap l' !! nm) = file_of nm (accepted l)).
Proof.
  intros l Hs Hn Hk l'. pose proof (log_run_ok es started started_ok) as Hok. fold l in Hok. pose proof (lg_running _ Hok Hs) as Hr.
  set (l1 := with_stop SJoin (with_state STOPPED l)). assert (E1 : log_ev EStop l = l1) by (cbn; unfold stop_step; by rewrite Hs, decide_True).
  pose proof (log_ev_ok EStop l Hok) as Hok1. rewrite E1 in Hok1. destruct (log_thread_ends n l1 Hok1 eq_refl Hn) as (Hd & Ha & Hst & Hac).
  set (l2 := log_run (replicate n ELog) l1) in *. pose proof (log_run_ok (replicate n ELog) l1 Hok1) as Hok2. fold l2 in Hok2.
  assert (E3 : log_ev EStop l2 = with_stop (SFlush "") l2) by (cbn; unfold stop_step; by rewrite Hst, Hd).
  assert (El' : l' = log_run (replicate k EStop) (with_stop (SFlush "") l2)).
  { unfold l'. change (log_run (?e :: ?t) l) with (log_run t (log_ev e l)). rewrite E1, log_run_app. fold l2. change (log_run (?e :: ?t) l2) with (log_run t (log_ev e l2)). by rewrite E3. }
  destruct (stop_flushes k (with_stop (SFlush "") l2) "" Hd eq_refl ltac:(apply (lg_check _ Hok2); auto)) as (F1 & F2 & F3 & F4).
  { change (active_buf_ (with_stop (SFlush "") l2)) with (active_buf_ l2). change (active_buf_ l1) with (active_buf_ l) in Ha. lia. }
  rewrite <- El' in F1, F2, F3, F4. assert (Hok' : logger_ok l') by (rewrite El', <- E3; by apply log_run_ok, log_ev_ok).
  assert (Hacc : accepted l' = accepted l) by (rewrite F2; exact Hac). assert (Hwr : written l' = accepted l).
  { rewrite <- Hacc, <- (lg_order _ Hok'), F3, F4. cbn. by rewrite app_nil_r. }
  do 4 (split; [done|]). split; [rewrite <- Hwr; apply (lg_all _ Hok')|]. split; [rewrite <- Hwr; apply (lg_sub _ Hok')|].
  intros Ht nm. rewrite <- Hwr. apply (lg_files _ Hok'). by rewrite Hacc.
Qed.

End logger.

Module LoggerDemo.
Definition go := log_run "mainboard".
Definition text_of (n : string) (l : AsyncLogger) : list string := (fun e => snd e) <$> default [] (moduleLoggerMap l !! n).

(** Two threads write for two modules, one of them also a message without a module, while the log thread works. *)
Definition busy : list LogEv := [ECheck 0 1 "I1 a.cc:3] [camera]one"; ECheck 1 2 "W1 b.cc:9] [lidar]two"; EAppend 1; ELog; EAppend 0; ELog; ECheck 0 3 "I2 a.cc:4] [camera]three"; EAppend 0; ELog; ELog; ECheck 1 4 "glog's own"; EAppend 1].

Lemma stop_writes_all_witness : let l := go busy started in
  let l' := go (EStop :: replicate 9 ELog ++ EStop :: replicate 5 EStop) l in
  (stopper l' = SDone /\ written l' = accepted l /\ active_buf_ l' = [] /\ flushing_buf_ l' = [] /\
   all_entries (moduleLoggerMap l') ≡ₚ entry_of "mainboard" <$> accepted l /\
   (forall nm, file_of "mainboard" nm (accepted l) `sublist_of` default [] (moduleLoggerMap l' !! nm)) /\
   (Forall (fun m => is_Some (module_of m)) (accepted l) -> forall nm, default [] (moduleLoggerMap l' !! nm) = file_of "mainboard" nm (accepted l))) /\
  (text_of "camera" l', text_of "lidar" l') = (["I1 a.cc:3] one"; "I2 a.cc:4] three"; "glog's own"], ["W1 b.cc:9] two"]).
Proof.
  cbv zeta. split; [|vm_compute; reflexivity].
  refine (stop_writes_all "mainboard" busy 9 5 _ _ _); [vm_compute; reflexivity|vm_compute; lia|vm_compute; lia].
Defined.

(** A thread that saw the logger running appends after the stop has written everything: its message is never written; or, if that is before the stop's checks, they end
    the process. *)
Lemma late_message_lost : let l := go [ECheck 0 1 "[camera]late"; EStop; ELog; EStop; EStop; EStop; EAppend 0; ELog; EStop] started in
  (stopper l, written l, message <$> active_buf_ l) = (SDone, [], ["[camera]late"]).
Proof. vm_compute. reflexivity. Qed.
Lemma late_message_aborts : stopper (go [ECheck 0 1 "[camera]late"; EStop; ELog; EStop; EStop; EAppend 0; EStop] started) = SAborted.
Proof. vm_compute. reflexivity. Qed.

(** A message without a module goes to the file of the one written before it, if the same pass over the buffer writes both, and to the process group's file otherwise. *)
Lemma untagged_follows : let es a := [ECheck 0 1 "[camera]one"; EAppend 0] ++ a ++ [ECheck 0 2 "glog's own"; EAppend 0] ++ replicate 9 ELog in
  let l := go (es []) started in let l' := go (es (replicate 4 ELog)) started in
  (text_of "camera" l, text_of "mainboard" l, text_of "camera" l', text_of "mainboard" l') = (["one"; "glog's own"], [], ["one"], ["glog's own"]).
Proof. vm_compute. reflexivity. Qed.

(** A second pair of brackets stays; empty brackets name the process group and are taken out. *)
Lemma brackets : (FindModuleName "mainboard" "[camera][DEBUG] x" "", FindModuleName "mainboard" "[]x" "camera", FindModuleName "mainboard" "a]b[c" "") =
  (("[DEBUG] x", "camera"), ("x", "mainboard"), ("a]b[c", "mainboard")).
Proof. vm_compute. reflexivity. Qed.
End LoggerDemo.
