(* ===== verification/ClassLoader.v ===== *)
(** * ClassLoader: shared libraries and the objects of their classes

    Models [class_loader/class_loader.{h,cc}], [class_loader_manager.{h,cc}] and [class_loader/utility].  What a library registers when the system loads it is a parameter; loaders and objects are numbers.
    A library must stay open as long as there are objects of its classes: closing it takes their code away. *)

From stdpp Require Import strings.
From S2P Require Import Prelude.

(** A class: the name of its base, and its own. *)
Abbreviation class := (string * string)%type.

Section class_loader.
(** The classes that a library registers while it is loaded; [None]: it cannot be loaded. *)
Context (registers : string -> option (list class)).

(** ** The factories, for all loaders of the process *)

Record Factory := mkFactory { relative_class_loaders_ : list nat; relative_library_path_ : string }.

Definition IsOwnedBy (l : nat) (f : Factory) : bool := bool_decide (l ∈ relative_class_loaders_ f).
Definition IsOwnedByAnybody (f : Factory) : bool := negb (bool_decide (relative_class_loaders_ f = [])).
Definition AddOwnedClassLoader (l : nat) (f : Factory) : Factory :=
  if IsOwnedBy l f then f else mkFactory (relative_class_loaders_ f ++ [l]) (relative_library_path_ f).

(** Take the first one out. *)
Fixpoint erase {A} `{!EqDecision A} (x : A) (l : list A) : list A :=
  match l with [] => [] | y :: l' => if decide (y = x) then l' else y :: erase x l' end.
Definition RemoveOwnedClassLoader (l : nat) (f : Factory) : Factory := mkFactory (erase l (relative_class_loaders_ f)) (relative_library_path_ f).

Record ClassLoader := mkLoader { library_path_ : string; loadlib_ref_count_ : Z; classobj_ref_count_ : Z }.

(** An object: who made it, its class, and the library that has its code. *)
Record object := mkObject { made_by : nat; class_of : class; code_in : string }.

Record world := mkW {
  factories : gmap class Factory;
  libraries : list string;
  loaders : gmap nat ClassLoader;
  libpath_loader_map_ : gmap string (option nat);
  objects : gmap nat object;
  fresh : nat;
}.

Definition world_new : world := mkW ∅ [] ∅ ∅ ∅ 0.

Definition with_factories (fs : gmap class Factory) (w : world) : world := mkW fs (libraries w) (loaders w) (libpath_loader_map_ w) (objects w) (fresh w).
Definition with_libraries (l : list string) (w : world) : world := mkW (factories w) l (loaders w) (libpath_loader_map_ w) (objects w) (fresh w).
Definition with_loaders (ls : gmap nat ClassLoader) (w : world) : world := mkW (factories w) (libraries w) ls (libpath_loader_map_ w) (objects w) (fresh w).
Definition with_map (m : gmap string (option nat)) (w : world) : world := mkW (factories w) (libraries w) (loaders w) m (objects w) (fresh w).
Definition with_objects (os : gmap nat object) (w : world) : world := mkW (factories w) (libraries w) (loaders w) (libpath_loader_map_ w) os (fresh w).
Definition with_fresh (n : nat) (w : world) : world := mkW (factories w) (libraries w) (loaders w) (libpath_loader_map_ w) (objects w) n.

(** [RegisterClass] by a library that [l] is loading. *)
Definition RegisterClass (l : nat) (path : string) (fs : gmap class Factory) (k : class) : gmap class Factory := <[k := mkFactory [l] path]> fs.

Definition of_library (path : string) (f : Factory) : bool := bool_decide (relative_library_path_ f = path).
(** [GetAllClassFactoryObjectsOfLibrary]. *)
Definition library_factories (path : string) (w : world) : list Factory := filter (fun f => of_library path f = true) (snd <$> map_to_list (factories w)).

Definition IsLibraryLoadedByAnybody (path : string) (w : world) : bool := bool_decide (path ∈ libraries w).

Definition utility_IsLibraryLoaded (path : string) (l : nat) (w : world) : bool :=
  let fs := library_factories path w in
  if IsLibraryLoadedByAnybody path w && (length fs =? 0)%nat then true
  else IsLibraryLoadedByAnybody path w && (length (filter (fun f => IsOwnedBy l f = true) fs) <=? length fs)%nat.

Definition utility_LoadLibrary (path : string) (l : nat) (w : world) : bool * world :=
  if IsLibraryLoadedByAnybody path w then
    (true, with_factories ((fun f => if of_library path f then AddOwnedClassLoader l f else f) <$> factories w) w)
  else
    match registers path with
    | None => (false, w)
    | Some ks => (true, with_libraries (libraries w ++ [path]) (with_factories (fold_left (RegisterClass l path) ks (factories w)) w))
    end.

(** [DestroyClassFactoryObjectsOfLibrary]. *)
Definition destroy_factory (path : string) (l : nat) (f : Factory) : option Factory :=
  if of_library path f && IsOwnedBy l f then
    let f' := RemoveOwnedClassLoader l f in if IsOwnedByAnybody f' then Some f' else None
  else Some f.

Definition utility_UnloadLibrary (path : string) (l : nat) (w : world) : world :=
  if IsLibraryLoadedByAnybody path w then
    let w1 := with_factories (omap (destroy_factory path l) (factories w)) w in
    match library_factories path w1 with
    | [] => with_libraries (erase path (libraries w1)) w1
    | _ => w1
    end
  else w.

(** ** ClassLoader *)

Definition upd_loader (f : ClassLoader -> ClassLoader) (l : nat) (w : world) : world := with_loaders (alter f l (loaders w)) w.
Definition set_loadlib (n : Z) (L : ClassLoader) : ClassLoader := mkLoader (library_path_ L) n (classobj_ref_count_ L).
Definition set_classobj (n : Z) (L : ClassLoader) : ClassLoader := mkLoader (library_path_ L) (loadlib_ref_count_ L) n.

(** A loader that is not there: [None], the memory of a deleted object is used. *)
Definition LoadLibrary (l : nat) (w : world) : option (bool * world) :=
  L ← loaders w !! l;
  Some (utility_LoadLibrary (library_path_ L) l (upd_loader (fun L => set_loadlib (loadlib_ref_count_ L + 1) L) l w)).

Definition UnloadLibrary (l : nat) (w : world) : option (Z * world) :=
  L ← loaders w !! l;
  if 0 <? classobj_ref_count_ L then Some (loadlib_ref_count_ L, w)
  else
    let n := loadlib_ref_count_ L - 1 in
    if n =? 0 then Some (0, utility_UnloadLibrary (library_path_ L) l (upd_loader (set_loadlib 0) l w))
    else let n' := if n <? 0 then 0 else n in Some (n', upd_loader (set_loadlib n') l w).

(** The constructor and the destructor. *)
Definition ClassLoader_new (path : string) (w : world) : nat * world :=
  let l := fresh w in
  let w1 := with_fresh (S l) (with_loaders (<[l := mkLoader path 1 0]> (loaders w)) w) in
  (l, snd (utility_LoadLibrary path l w1)).
Definition ClassLoader_delete (l : nat) (w : world) : option world :=
  '(_, w1) ← UnloadLibrary l w; Some (with_loaders (delete l (loaders w1)) w1).

Definition IsClassValid (k : class) (l : nat) (w : world) : bool :=
  match factories w !! k with Some f => IsOwnedBy l f | None => false end.

(** The object, if there is one. *)
Definition CreateClassObj (k : class) (l : nat) (w : world) : option (option nat * world) :=
  L ← loaders w !! l;
  '(_, w1) ← (if utility_IsLibraryLoaded (library_path_ L) l w then Some (true, w) else LoadLibrary l w);
  match factories w1 !! k with
  | Some f =>
      if IsOwnedBy l f then
        let o := fresh w1 in
        Some (Some o, with_fresh (S o) (with_objects (<[o := mkObject l k (relative_library_path_ f)]> (objects w1))
          (upd_loader (fun L => set_classobj (classobj_ref_count_ L + 1) L) l w1)))
      else Some (None, w1)
  | None => Some (None, w1)
  end.

(** The last pointer to an object is gone. *)
Definition OnClassObjDeleter (o : nat) (w : world) : option world :=
  x ← objects w !! o;
  _ ← loaders w !! made_by x;
  Some (upd_loader (fun L => set_classobj (classobj_ref_count_ L - 1) L) (made_by x) (with_objects (delete o (objects w)) w)).

(** ** ClassLoaderManager *)

Definition IsLibraryValid (path : string) (w : world) : bool := match libpath_loader_map_ w !! path with Some (Some _) => true | _ => false end.
Definition GetAllValidLibPath (w : world) : list string :=
  omap (fun e => match e.2 with Some _ => Some e.1 | None => None end) (map_to_list (libpath_loader_map_ w)).

Definition MLoadLibrary (path : string) (w : world) : bool * world :=
  let w1 := if IsLibraryValid path w then w
            else let '(l, w1) := ClassLoader_new path w in with_map (<[path := Some l]> (libpath_loader_map_ w1)) w1 in
  (IsLibraryValid path w1, w1).

Definition has_class (k : class) (w : world) (l : option nat) : bool := match l with Some l => IsClassValid k l w | None => false end.

(** [CreateClassObj(class_name)]: the first loader that has the class; a null pointer has none. *)
Definition MCreateClassObj (k : class) (w : world) : option (option nat * world) :=
  match list_find (fun e => has_class k w (snd e) = true) (map_to_list (libpath_loader_map_ w)) with
  | Some (_, (_, Some l)) => CreateClassObj k l w
  | _ => Some (None, w)
  end.

(** [CreateClassObj(class_name, library_path)]: looking the path up leaves a null pointer where there was nothing. *)
Definition MCreateClassObjIn (k : class) (path : string) (w : world) : option (option nat * world) :=
  match libpath_loader_map_ w !! path with
  | Some (Some l) => CreateClassObj k l w
  | Some None => Some (None, w)
  | None => Some (None, with_map (<[path := None]> (libpath_loader_map_ w)) w)
  end.

Definition MUnloadLibrary (path : string) (w : world) : option world :=
  match libpath_loader_map_ w !! path with
  | Some (Some l) =>
      '(n, w1) ← UnloadLibrary l w;
      if n =? 0 then ClassLoader_delete l (with_map (<[path := None]> (libpath_loader_map_ w1)) w1) else Some w1
  | _ => Some w
  end.

Fixpoint unload_each (paths : list string) (w : world) : option world :=
  match paths with [] => Some w | p :: ps => w1 ← MUnloadLibrary p w; unload_each ps w1 end.
Definition UnloadAllLibrary (w : world) : option world := unload_each (GetAllValidLibPath w) w.

(** ** What users do *)

(** The operations of a manager, those of loaders of one's own, and the end of an object. *)
Inductive op := OLoad (path : string) | OCreate (k : class) | OCreateIn (k : class) (path : string) | OUnloadAll | ODelete (o : nat)
  | ONew (path : string) | OLoaderLoad (l : nat) | OLoaderCreate (l : nat) (k : class) | OLoaderUnload (l : nat) | OLoaderDelete (l : nat).

(** Nobody touches the manager's loaders.  A loader may be deleted while there are objects that it made. *)
Definition own (l : nat) (w : world) : Prop := is_Some (loaders w !! l) /\ map_Forall (fun _ x => x <> Some l) (libpath_loader_map_ w).
Definition op_ok (o : op) (w : world) : Prop :=
  match o with
  | ODelete o => is_Some (objects w !! o)
  | OLoaderLoad l | OLoaderCreate l _ | OLoaderUnload l | OLoaderDelete l => own l w
  | _ => True
  end.

Definition run_op (o : op) (w : world) : option world :=
  match o with
  | OLoad path => Some (snd (MLoadLibrary path w))
  | OCreate k => '(_, w1) ← MCreateClassObj k w; Some w1
  | OCreateIn k path => '(_, w1) ← MCreateClassObjIn k path w; Some w1
  | OUnloadAll => UnloadAllLibrary w
  | ODelete o => OnClassObjDeleter o w
  | ONew path => Some (snd (ClassLoader_new path w))
  | OLoaderLoad l => '(_, w1) ← LoadLibrary l w; Some w1
  | OLoaderCreate l k => '(_, w1) ← CreateClassObj k l w; Some w1
  | OLoaderUnload l => '(_, w1) ← UnloadLibrary l w; Some w1
  | OLoaderDelete l => ClassLoader_delete l w
  end.

Inductive reachable : world -> Prop :=
| reach_start : reachable world_new
| reach_op o w w' : reachable w -> op_ok o w -> run_op o w = Some w' -> reachable w'.

(** ** The invariant *)

(** No class is in two libraries. *)
Definition distinct : Prop := forall p1 p2 ks1 ks2 k, registers p1 = Some ks1 -> registers p2 = Some ks2 -> k ∈ ks1 -> k ∈ ks2 -> p1 = p2.

(** The objects of a loader. *)
Definition made (l : nat) (w : world) : gmap nat object := filter (fun e => made_by e.2 = l) (objects w).

Record factory_ok (w : world) (k : class) (f : Factory) : Prop := {
  fa_open : relative_library_path_ f ∈ libraries w;
  fa_class : exists ks, registers (relative_library_path_ f) = Some ks /\ k ∈ ks;
  fa_nodup : NoDup (relative_class_loaders_ f);
  fa_owned : relative_class_loaders_ f <> [];
  fa_owners : forall l, l ∈ relative_class_loaders_ f -> (l < fresh w)%nat /\
    forall L, loaders w !! l = Some L -> library_path_ L = relative_library_path_ f /\ 1 <= loadlib_ref_count_ L;
}.

Record loaders_ok (w : world) : Prop := {
  lo_factory : forall k f, factories w !! k = Some f -> factory_ok w k f;
  lo_open : forall p, p ∈ libraries w -> exists ks os, registers p = Some ks /\ forall k, k ∈ ks -> factories w !! k = Some (mkFactory os p);
  lo_object : forall o x, objects w !! o = Some x ->
    exists f, factories w !! class_of x = Some f /\ made_by x ∈ relative_class_loaders_ f /\ relative_library_path_ f = code_in x;
  lo_count : forall l L, loaders w !! l = Some L -> classobj_ref_count_ L = Z.of_nat (size (made l w)) /\ 0 <= loadlib_ref_count_ L;
  lo_nodup : NoDup (libraries w);
  lo_fresh : forall i, (fresh w <= i)%nat -> loaders w !! i = None /\ objects w !! i = None;
  lo_map : forall p l, libpath_loader_map_ w !! p = Some (Some l) -> exists L, loaders w !! l = Some L /\ library_path_ L = p;
}.

(** What loading and unloading for a loader leaves alone. *)
Record same_users (w w' : world) : Prop := {
  su_loaders : loaders w' = loaders w;
  su_map : libpath_loader_map_ w' = libpath_loader_map_ w;
  su_objects : objects w' = objects w;
  su_fresh : fresh w' = fresh w;
}.

(** What an operation on a loader leaves alone. *)
Record same_world (w w' : world) : Prop := {
  sw_loaders : forall l, is_Some (loaders w' !! l) <-> is_Some (loaders w !! l);
  sw_path : forall l L, loaders w !! l = Some L -> exists L', loaders w' !! l = Some L' /\ library_path_ L' = library_path_ L;
  sw_map : libpath_loader_map_ w' = libpath_loader_map_ w;
  sw_objects : objects w' = objects w;
}.

(** *** A process with one manager *)

(** All the loaders are the manager's: each is loaded once, and alone owns its library's factories. *)
Record managed (w : world) : Prop := {
  mg_loader : forall l L, loaders w !! l = Some L -> libpath_loader_map_ w !! library_path_ L = Some (Some l) /\ loadlib_ref_count_ L = 1;
  mg_library : forall p, p ∈ libraries w -> exists l, libpath_loader_map_ w !! p = Some (Some l);
  mg_open : forall p l, libpath_loader_map_ w !! p = Some (Some l) -> is_Some (registers p) -> p ∈ libraries w;
  mg_owner : forall k f l, factories w !! k = Some f -> l ∈ relative_class_loaders_ f -> libpath_loader_map_ w !! relative_library_path_ f = Some (Some l);
}.

(** The library is open after that, if it can be opened. *)
Definition opens (path : string) (libs : list string) : list string :=
  if bool_decide (path ∈ libs) then libs else match registers path with Some _ => libs ++ [path] | None => libs end.

(** Some open library registers the class. *)
Definition offers (libs : list string) (k : class) : bool := existsb (fun p => match registers p with Some ks => bool_decide (k ∈ ks) | None => false end) libs.

(** ** Lemmas *)

Lemma erase_elem {A} `{!EqDecision A} (x y : A) l : NoDup l -> y ∈ erase x l <-> y ∈ l /\ y <> x.
Proof.
  induction 1 as [|z l Hz Hl IH]; cbn; [split; [by intros ?%elem_of_nil|by intros [?%elem_of_nil _]]|]. case_decide as Hd.
  - subst z. rewrite elem_of_cons. split; [intros Hy; split; [by right|by intros ->]|by intros [[->|] ?]].
  - rewrite !elem_of_cons, IH. split; [intros [->|[]]; auto|]. intros [[->|] ?]; auto.
Qed.

Lemma erase_nodup {A} `{!EqDecision A} (x : A) l : NoDup l -> NoDup (erase x l).
Proof.
  induction 1 as [|z l Hz Hl IH]; cbn; [constructor|]. case_decide; [done|]. constructor; [|done]. intros [Hin _]%erase_elem; done.
Qed.

Lemma erase_absent {A} `{!EqDecision A} (x : A) l : x ∉ l -> erase x l = l.
Proof. induction l as [|z l IH]; [done|]. cbn. intros Hn. rewrite decide_False by (intros ->; apply Hn; by left). f_equal. apply IH. intros ?. apply Hn. by right. Qed.

Lemma register_lookup l path ks fs k : fold_left (RegisterClass l path) ks fs !! k = if decide (k ∈ ks) then Some (mkFactory [l] path) else fs !! k.
Proof.
  revert fs. induction ks as [|k' ks IH]; intros fs; cbn; [by rewrite decide_False by apply not_elem_of_nil|]. rewrite IH. unfold RegisterClass.
  destruct (decide (k ∈ ks)) as [Hk|Hk]; [by rewrite decide_True by by right|]. destruct (decide (k = k')) as [->|Hne].
  - by rewrite decide_True, lookup_insert_eq by by left.
  - rewrite decide_False by by intros [|]%elem_of_cons. by rewrite lookup_insert_ne.
Qed.

Lemma library_factories_elem path w f : f ∈ library_factories path w <-> exists k, factories w !! k = Some f /\ relative_library_path_ f = path.
Proof.
  unfold library_factories, of_library. rewrite list_elem_of_filter, bool_decide_eq_true, list_elem_of_fmap. split.
  - intros (Hp & [k ?] & -> & Hk%elem_of_map_to_list). by exists k.
  - intros (k & Hk & Hp). split; [done|]. exists (k, f). split; [done|]. by apply elem_of_map_to_list.
Qed.

Lemma destroy_cases path l f :
  destroy_factory path l f = if decide (relative_library_path_ f = path /\ l ∈ relative_class_loaders_ f) then
    (if decide (erase l (relative_class_loaders_ f) = []) then None else Some (RemoveOwnedClassLoader l f)) else Some f.
Proof.
  unfold destroy_factory, of_library, IsOwnedBy, IsOwnedByAnybody. case_bool_decide; case_bool_decide; cbn.
  - rewrite decide_True by done. by case_bool_decide; case_decide.
  - by rewrite decide_False by tauto.
  - by rewrite decide_False by tauto.
  - by rewrite decide_False by tauto.
Qed.

Hypothesis classes_distinct : distinct.

Lemma start_ok : loaders_ok world_new.
Proof.
  split; cbn; try (intros *; rewrite lookup_empty; done); [by intros p ?%elem_of_nil|by apply NoDup_nil].
Qed.

(** *** The utilities *)

Lemma utility_load_same path l w : same_users w (snd (utility_LoadLibrary path l w)).
Proof. unfold utility_LoadLibrary. destruct (IsLibraryLoadedByAnybody path w); [done|]. by destruct (registers path). Qed.

Lemma utility_load_ok path l w L : loaders_ok w -> loaders w !! l = Some L -> library_path_ L = path -> 1 <= loadlib_ref_count_ L ->
  loaders_ok (snd (utility_LoadLibrary path l w)).
Proof.
  intros [H1 H2 H3 H4 H5 H6 H7] Hl Hp Hr. assert (Hlt : (l < fresh w)%nat).
  { apply Nat.lt_nge. intros Hge. destruct (H6 l Hge) as [E _]. congruence. }
  unfold utility_LoadLibrary, IsLibraryLoadedByAnybody. case_bool_decide as Hopen; cbn [snd].
  - split; cbn; try done.
    + intros k f. rewrite lookup_fmap. intros (f0 & E & ->)%fmap_Some. destruct (H1 k f0 E) as [F1 F2 F3 F4 F5]. unfold of_library. case_bool_decide as Hf; [|done].
      unfold AddOwnedClassLoader, IsOwnedBy. case_bool_decide as Hin; [done|]. split; cbn; try done.
      * apply NoDup_app. split; [done|]. split; [|apply NoDup_singleton]. by intros x Hx ->%list_elem_of_singleton.
      * by destruct (relative_class_loaders_ f0).
      * intros l' [Hl'|Hl']%elem_of_app; [by apply F5|]. apply list_elem_of_singleton in Hl' as ->. split; [done|]. intros L' HL'. assert (L' = L) as -> by congruence. by rewrite Hf.
    + intros p Hin. destruct (H2 p Hin) as (ks & os & Hks & Hos). destruct (decide (p = path)) as [->|Hne].
      * exists ks, (if decide (l ∈ os) then os else os ++ [l]). split; [done|]. intros k Hk. rewrite lookup_fmap, (Hos k Hk). cbn. unfold of_library; cbn. rewrite bool_decide_true by done.
        unfold AddOwnedClassLoader, IsOwnedBy; cbn. case_bool_decide; by case_decide.
      * exists ks, os. split; [done|]. intros k Hk. rewrite lookup_fmap, (Hos k Hk). cbn. unfold of_library; cbn. by rewrite bool_decide_false.
    + intros o x Ho. destruct (H3 o x Ho) as (f & E & Hin & Hc). rewrite lookup_fmap, E. cbn. eexists. split; [done|].
      case_match; [|done]. unfold AddOwnedClassLoader. case_match; [done|]. cbn. split; [|done]. apply elem_of_app. by left.
  - destruct (registers path) as [ks|] eqn:Eks; [|done]. split; cbn; try done.
    + intros k f. rewrite register_lookup. case_decide as Hk.
      * intros [= <-]. split; cbn; [apply elem_of_app; right; by left|by exists ks|apply NoDup_singleton|done|].
        intros l' ->%list_elem_of_singleton. split; [done|]. intros L' HL'. assert (L' = L) as -> by congruence. done.
      * intros E. destruct (H1 k f E) as [F1 F2 F3 F4 F5]. split; try done. apply elem_of_app. by left.
    + intros p [Hin|Hin]%elem_of_app.
      * destruct (H2 p Hin) as (ks' & os & Hks' & Hos). exists ks', os. split; [done|]. intros k Hk. rewrite register_lookup, decide_False; [by apply Hos|].
        intros Hk'. apply Hopen. by rewrite <- (classes_distinct p path ks' ks k).
      * apply list_elem_of_singleton in Hin as ->. exists ks, [l]. split; [done|]. intros k Hk. by rewrite register_lookup, decide_True.
    + intros o x Ho. destruct (H3 o x Ho) as (f & E & Hin & Hc). exists f. split; [|done].
      rewrite register_lookup, decide_False; [done|]. intros Hk. destruct (H1 _ f E) as [F1 (ks' & Hks' & Hk') _ _ _].
      apply Hopen. by rewrite <- (classes_distinct (relative_library_path_ f) path ks' ks (class_of x)).
    + apply NoDup_app. split; [done|]. split; [|apply NoDup_singleton]. by intros x Hx ->%list_elem_of_singleton.
Qed.

(** A loader whose library was loaded owns all its classes. *)
Lemma utility_load_owns path l w L ks : loaders_ok w -> loaders w !! l = Some L -> library_path_ L = path -> 1 <= loadlib_ref_count_ L ->
  fst (utility_LoadLibrary path l w) = true -> registers path = Some ks -> path ∈ libraries (snd (utility_LoadLibrary path l w)) /\
  forall k, k ∈ ks -> exists f, factories (snd (utility_LoadLibrary path l w)) !! k = Some f /\ l ∈ relative_class_loaders_ f /\ relative_library_path_ f = path.
Proof.
  intros Hw Hl Hp Hr. unfold utility_LoadLibrary, IsLibraryLoadedByAnybody. case_bool_decide as Hopen; cbn.
  - intros _ Hks. split; [done|]. intros k Hk. destruct (lo_open _ Hw path Hopen) as (ks' & os & Hks' & Hos). assert (ks' = ks) as -> by congruence.
    rewrite lookup_fmap, (Hos k Hk). cbn. eexists. split; [done|]. unfold of_library; cbn. rewrite bool_decide_true by done.
    unfold AddOwnedClassLoader, IsOwnedBy; cbn. case_bool_decide; cbn; [done|]. split; [|done]. apply elem_of_app. right. by left.
  - intros Ht Hks. rewrite Hks in *. cbn. split; [apply elem_of_app; right; by left|]. intros k Hk. rewrite register_lookup, decide_True by done. eexists. split; [done|]. split; [by left|done].
Qed.
Lemma count_made l L w : loaders_ok w -> loaders w !! l = Some L -> classobj_ref_count_ L <= 0 -> map_Forall (fun _ x => made_by x <> l) (objects w).
Proof.
  intros Hw Hl Hc o x Ho Hx. destruct (lo_count _ Hw l L Hl) as [E _]. assert (Hs : size (made l w) = 0%nat) by lia.
  apply map_size_empty_inv in Hs. assert (Hm : made l w !! o = Some x) by by apply map_lookup_filter_Some. rewrite Hs, lookup_empty in Hm. done.
Qed.

(** A loader's count of loads changes, of a loader that owns nothing or keeps at least one. *)
Lemma set_loadlib_ok n l L w : loaders_ok w -> loaders w !! l = Some L -> 0 <= n ->
  (1 <= n \/ forall k f, factories w !! k = Some f -> l ∉ relative_class_loaders_ f) -> loaders_ok (upd_loader (set_loadlib n) l w).
Proof.
  intros [H1 H2 H3 H4 H5 H6 H7] Hl Hn Hown. split; cbn; try done.
  - intros k f E. destruct (H1 k f E) as [F1 F2 F3 F4 F5]. split; try done. intros l' Hl'. destruct (F5 l' Hl') as [Hlt HL']. split; [done|]. intros L' E'.
    cbn in E'. destruct (decide (l' = l)) as [->|Hne]; [|rewrite lookup_alter_ne in E' by done; by apply HL'].
    rewrite lookup_alter_eq, Hl in E'. injection E' as <-. destruct (HL' L Hl). split; [done|]. cbn. destruct Hown as [|Ho]; [done|]. by destruct (Ho k f E).
  - intros l' L' E'. destruct (decide (l' = l)) as [->|Hne]; [|rewrite lookup_alter_ne in E' by done; by apply H4].
    rewrite lookup_alter_eq, Hl in E'. injection E' as <-. by destruct (H4 l L Hl).
  - intros i Hi. destruct (H6 i Hi) as [E ?]. split; [|done]. apply lookup_alter_None. done.
  - intros p l' E. destruct (H7 p l' E) as (L' & E' & <-). destruct (decide (l' = l)) as [->|Hne].
    + rewrite lookup_alter_eq, E'. by eexists.
    + rewrite lookup_alter_ne by done. by eexists.
Qed.

(** The last unload of a loader without objects: its factories are nobody's, or others', and the invariant holds; it owns nothing. *)
Lemma utility_unload_ok path l L w : loaders_ok w -> loaders w !! l = Some L -> library_path_ L = path -> map_Forall (fun _ x => made_by x <> l) (objects w) ->
  let w' := utility_UnloadLibrary path l w in
  loaders_ok w' /\ same_users w w' /\ (forall k f, factories w' !! k = Some f -> l ∉ relative_class_loaders_ f) /\ (forall p, p ∈ libraries w' -> p ∈ libraries w) /\
  ((forall k f, factories w !! k = Some f -> relative_library_path_ f = path -> relative_class_loaders_ f = [l]) -> path ∉ libraries w').
Proof.
  intros Hw Hl Hp Hobj. cbv zeta. pose proof Hw as [H1 H2 H3 H4 H5 H6 H7]. unfold utility_UnloadLibrary, IsLibraryLoadedByAnybody. case_bool_decide as Hopen.
  2: { split; [done|]. split; [done|]. split; [|done]. intros k f E Hin. destruct (H1 k f E) as [F1 _ _ _ F5]. destruct (F5 l Hin) as [_ HL].
    destruct (HL L Hl) as [E2 _]. apply Hopen. by rewrite <- Hp, E2. }
  set (w1 := with_factories _ w). assert (Hlk : forall k, factories w1 !! k = factories w !! k ≫= destroy_factory path l) by (intros k; apply lookup_omap).
  assert (Hsome : forall k f', factories w1 !! k = Some f' -> exists f, factories w !! k = Some f /\ relative_library_path_ f' = relative_library_path_ f /\
    relative_class_loaders_ f' = erase l (relative_class_loaders_ f) /\ relative_class_loaders_ f' <> []).
  { intros k f'. rewrite Hlk. intros (f & E & Hd)%bind_Some. exists f. split; [done|]. destruct (H1 k f E) as [F1 F2 F3 F4 F5]. rewrite destroy_cases in Hd.
    case_decide as Hc; [case_decide; [done|]; by injection Hd as <-|]. injection Hd as <-. split; [done|]. split; [|done]. symmetry. apply erase_absent.
    intros Hin. apply Hc. split; [|done]. destruct (F5 l Hin) as [_ HL]. destruct (HL L Hl) as [E2 _]. congruence. }
  assert (Hkeep : forall k f, factories w !! k = Some f -> erase l (relative_class_loaders_ f) <> [] ->
    factories w1 !! k = Some (mkFactory (erase l (relative_class_loaders_ f)) (relative_library_path_ f))).
  { intros k f E Hne. rewrite Hlk, E. cbn. rewrite destroy_cases. case_decide as Hc; [by rewrite decide_False by done|]. destruct (H1 k f E) as [F1 F2 F3 F4 F5].
    rewrite erase_absent; [by destruct f|]. intros Hin. apply Hc. split; [|done]. destruct (F5 l Hin) as [_ HL]. destruct (HL L Hl) as [E2 _]. congruence. }
  (* the factories that are left belong to libraries that stay open *)
  assert (Hmain : forall ls, (forall k f', factories w1 !! k = Some f' -> relative_library_path_ f' ∈ ls) -> (forall p, p ∈ ls -> p ∈ libraries w) -> NoDup ls ->
    (forall p ks os, p ∈ ls -> registers p = Some ks -> (forall k, k ∈ ks -> factories w !! k = Some (mkFactory os p)) -> ks = [] \/ erase l os <> []) ->
    loaders_ok (with_libraries ls w1)).
  { intros ls A1 A2 A3 A4. split; cbn; try done.
    - intros k f' E. destruct (Hsome k f' E) as (f & E0 & Ep & Eo & Hne). destruct (H1 k f E0) as [F1 F2 F3 F4 F5]. split; cbn; [by apply (A1 k)|by rewrite Ep|rewrite Eo; by apply erase_nodup|done|].
      intros l' Hl'. rewrite Ep. rewrite Eo in Hl'. apply F5. by apply erase_elem in Hl' as [].
    - intros p Hin. destruct (H2 p (A2 p Hin)) as (ks & os & Hks & Hos). exists ks, (erase l os). split; [done|]. intros k Hk.
      destruct (A4 p ks os Hin Hks Hos) as [->|Hne]; [by apply elem_of_nil in Hk|]. by apply (Hkeep k _ (Hos k Hk)).
    - intros o x Ho. destruct (H3 o x Ho) as (f & E & Hin & Hc). destruct (H1 _ f E) as [_ _ F3 _ _].
      assert (Hin' : made_by x ∈ erase l (relative_class_loaders_ f)) by (apply erase_elem; [done|]; split; [done|by apply (Hobj o)]).
      exists (mkFactory (erase l (relative_class_loaders_ f)) (relative_library_path_ f)). split; [|done]. apply Hkeep; [done|]. intros E0. rewrite E0 in Hin'. by apply elem_of_nil in Hin'. }
  assert (Hnot : forall k f', factories w1 !! k = Some f' -> l ∉ relative_class_loaders_ f').
  { intros k f' E. destruct (Hsome k f' E) as (f & E0 & _ & Eo & _). rewrite Eo. destruct (H1 k f E0) as [_ _ F3 _ _]. by intros [_ ?]%erase_elem. }
  destruct (library_factories path w1) as [|f0 fs] eqn:Efs.
  - split; [|split; [done|split; [exact Hnot|split; [|intros _; cbn; by intros [_ ?]%erase_elem]]]].
    + apply Hmain.
      * intros k f' E. destruct (Hsome k f' E) as (f & E0 & Ep & _ & _). destruct (H1 k f E0) as [F1 _ _ _ _]. cbn. apply erase_elem; [done|]. split; [by rewrite Ep|].
        intros E2. assert (Hin : f' ∈ library_factories path w1) by (apply library_factories_elem; by exists k). rewrite Efs in Hin. by apply elem_of_nil in Hin.
      * cbn. by intros p [? _]%erase_elem.
      * cbn. by apply erase_nodup.
      * cbn. intros p ks os [Hin Hne]%erase_elem Hks Hos; [|done]. destruct ks as [|k ks]; [by left|right]. pose proof (Hos k ltac:(by left)) as E. destruct (H1 k _ E) as [_ _ _ F4 F5].
        cbn in F4, F5. rewrite erase_absent; [done|]. intros Hl'. destruct (F5 l Hl') as [_ HL]. destruct (HL L Hl) as [E2 _]. congruence.
    + cbn. by intros p [? _]%erase_elem.
  - assert (Hf0 : f0 ∈ library_factories path w1) by (rewrite Efs; by left). apply library_factories_elem in Hf0 as (k0 & E0 & Ep0).
    destruct (Hsome k0 f0 E0) as (g0 & Eg0 & Epg & Eog & Hneg).
    split; [|split; [done|split; [exact Hnot|split; [done|]]]].
    + assert (Ew : w1 = with_libraries (libraries w) w1) by done. rewrite Ew. apply Hmain; [|done|done|].
      * intros k f' E. destruct (Hsome k f' E) as (f & E1 & Ep & _ & _). rewrite Ep. by destruct (H1 k f E1).
      * intros p ks os Hin Hks Hos. destruct (decide (p = path)) as [->|Hne].
        -- right. destruct (H1 k0 g0 Eg0) as [_ (ks' & Hks' & Hk0) _ _ _]. rewrite <- Epg, Ep0 in Hks'. assert (ks' = ks) as -> by congruence. pose proof (Hos k0 Hk0) as E2.
           assert (g0 = mkFactory os path) as -> by congruence. cbn in Eog. by rewrite <- Eog.
        -- destruct ks as [|k ks]; [by left|right]. pose proof (Hos k ltac:(by left)) as E. destruct (H1 k _ E) as [_ _ _ F4 F5].
           cbn in F4, F5. rewrite erase_absent; [done|]. intros Hl'. destruct (F5 l Hl') as [_ HL]. destruct (HL L Hl) as [E2 _]. congruence.
    + intros Hall _. apply Hneg. rewrite Eog, (Hall k0 g0 Eg0) by congruence. cbn. by rewrite decide_True.
Qed.

(** *** The loaders *)

(** The count of loads of an owner is at least one, so a loader with objects has some. *)
Lemma objects_loads l L w : loaders_ok w -> loaders w !! l = Some L -> loadlib_ref_count_ L <= 0 ->
  map_Forall (fun _ x => made_by x <> l) (objects w) /\ forall k f, factories w !! k = Some f -> l ∉ relative_class_loaders_ f.
Proof.
  intros Hw Hl Hn. assert (Hown : forall k f, factories w !! k = Some f -> l ∉ relative_class_loaders_ f).
  { intros k f E Hin. destruct (fa_owners _ _ _ (lo_factory _ Hw k f E) l Hin) as [_ HL]. destruct (HL L Hl). lia. }
  split; [|done]. intros o x Ho <-. destruct (lo_object _ Hw o x Ho) as (f & E & Hin & _). by apply (Hown _ f E).
Qed.

Lemma unload_commutes path l f w : utility_UnloadLibrary path l (upd_loader f l w) = upd_loader f l (utility_UnloadLibrary path l w).
Proof.
  unfold utility_UnloadLibrary, IsLibraryLoadedByAnybody. cbn [upd_loader with_loaders libraries]. case_bool_decide; [|done].
  unfold library_factories. cbn [upd_loader with_loaders with_factories factories]. by case_match.
Qed.

Lemma set_loadlib_same n l w : same_world w (upd_loader (set_loadlib n) l w).
Proof.
  split; cbn; try done; [intros; by rewrite lookup_alter_is_Some|]. intros l' L E. destruct (decide (l' = l)) as [->|Hne].
  - rewrite lookup_alter_eq, E. by eexists.
  - rewrite lookup_alter_ne by done. by eexists.
Qed.

Lemma same_users_trans w w1 w2 : same_world w w1 -> same_users w1 w2 -> same_world w w2.
Proof. intros [A1 A2 A3 A4] [B1 B2 B3 B4]. split; [by rewrite B1|by rewrite B1|congruence|congruence]. Qed.

Lemma same_users_world w w' : same_users w w' -> same_world w w'.
Proof. intros [B1 B2 B3 B4]. split; rewrite ?B1; try done. by eexists. Qed.

Lemma unload_some l w : is_Some (loaders w !! l) -> is_Some (UnloadLibrary l w).
Proof. intros [L Hl]. unfold UnloadLibrary. rewrite Hl. cbn. by repeat case_match; eexists. Qed.

Lemma unload_ok l w n w' : loaders_ok w -> UnloadLibrary l w = Some (n, w') ->
  loaders_ok w' /\ same_world w w' /\ (n <= 0 -> map_Forall (fun _ x => made_by x <> l) (objects w)).
Proof.
  intros Hw. unfold UnloadLibrary. intros (L & Hl & H)%bind_Some. destruct (lo_count _ Hw l L Hl) as [Hc Hn]. destruct (0 <? classobj_ref_count_ L) eqn:Eo.
  - injection H as <- <-. split; [done|]. split; [by apply same_users_world|]. intros Hz. by apply (objects_loads l L).
  - assert (Hno : map_Forall (fun _ x => made_by x <> l) (objects w)) by (apply (count_made l L); [done..|lia]).
    destruct (loadlib_ref_count_ L - 1 =? 0) eqn:En.
    + injection H as <- <-. rewrite unload_commutes. destruct (utility_unload_ok _ l L w Hw Hl eq_refl Hno) as (Hok & Hs & Hown & _ & _). split; [|split; [|done]].
      * apply (set_loadlib_ok 0 l L); [done|by rewrite (su_loaders _ _ Hs)|done|by right].
      * pose proof (set_loadlib_same 0 l (utility_UnloadLibrary (library_path_ L) l w)) as [A1 A2 A3 A4]. destruct Hs as [B1 B2 B3 B4]. rewrite B1 in A1, A2. split; congruence || done.
    + injection H as <- <-. split; [|split; [apply set_loadlib_same|done]]. apply (set_loadlib_ok _ l L); [done..| |]; destruct (loadlib_ref_count_ L - 1 <? 0) eqn:Eneg; try lia.
      right. apply (objects_loads l L); [done..|lia].
Qed.

(** The count goes up first. *)
Lemma count_load_ok l L w : loaders_ok w -> loaders w !! l = Some L -> let w1 := upd_loader (fun L => set_loadlib (loadlib_ref_count_ L + 1) L) l w in
  loaders_ok w1 /\ loaders w1 !! l = Some (set_loadlib (loadlib_ref_count_ L + 1) L) /\ same_world w w1 /\ 1 <= loadlib_ref_count_ L + 1.
Proof.
  intros Hw Hl w1. destruct (lo_count _ Hw l L Hl) as [_ Hn]. assert (E1 : w1 = upd_loader (set_loadlib (loadlib_ref_count_ L + 1)) l w).
  { unfold w1, upd_loader. f_equal. apply map_eq. intros i. destruct (decide (i = l)) as [->|Hne]; [by rewrite !lookup_alter_eq, Hl|by rewrite !lookup_alter_ne]. }
  rewrite E1. split; [apply (set_loadlib_ok _ l L); [done..|lia|left; lia]|]. split; [cbn; by rewrite lookup_alter_eq, Hl|]. split; [apply set_loadlib_same|lia].
Qed.

Lemma load_ok l w : loaders_ok w -> is_Some (loaders w !! l) -> exists b w', LoadLibrary l w = Some (b, w') /\ loaders_ok w' /\ same_world w w'.
Proof.
  intros Hw [L Hl]. unfold LoadLibrary. rewrite Hl. cbn [mbind option_bind]. destruct (count_load_ok l L w Hw Hl) as (Hw1 & Hl1 & S1 & Hn). revert Hw1 Hl1 S1. set (w1 := upd_loader _ l w). intros.
  pose proof (utility_load_ok (library_path_ L) l w1 _ Hw1 Hl1 eq_refl Hn) as Hok. pose proof (utility_load_same (library_path_ L) l w1) as Hs.
  destruct (utility_LoadLibrary _ _ _) as [b w2]. cbn in Hok, Hs. exists b, w2. split; [done|]. split; [done|]. by eapply same_users_trans.
Qed.

Lemma loaded_owns w l L ks w1 : loaders_ok w -> loaders w !! l = Some L -> registers (library_path_ L) = Some ks -> LoadLibrary l w = Some (true, w1) ->
  library_path_ L ∈ libraries w1 /\
  forall k, k ∈ ks -> exists f, factories w1 !! k = Some f /\ l ∈ relative_class_loaders_ f /\ relative_library_path_ f = library_path_ L.
Proof.
  intros Hw Hl Hks. unfold LoadLibrary. rewrite Hl. cbn [mbind option_bind]. destruct (count_load_ok l L w Hw Hl) as (Hw' & Hl' & _ & Hn). revert Hw' Hl'. set (w' := upd_loader _ l w). intros Hw' Hl' [= E].
  pose proof (utility_load_owns (library_path_ L) l w' _ ks Hw' Hl' eq_refl Hn) as H. rewrite E in H. by apply H.
Qed.

Lemma opened_is_loaded path l w : path ∈ libraries w -> utility_IsLibraryLoaded path l w = true.
Proof.
  intros Hin. unfold utility_IsLibraryLoaded, IsLibraryLoadedByAnybody. rewrite bool_decide_true by done. cbn. case_match; [done|]. apply Nat.leb_le, length_filter.
Qed.

Lemma made_fresh w : loaders_ok w -> map_Forall (fun _ x => made_by x <> fresh w) (objects w).
Proof.
  intros Hw o x Ho Hx. destruct (lo_object _ Hw o x Ho) as (f & E & Hin & _). destruct (fa_owners _ _ _ (lo_factory _ Hw _ f E) _ Hin). lia.
Qed.

Lemma made_none l w : map_Forall (fun _ x => made_by x <> l) (objects w) -> size (made l w) = 0%nat.
Proof.
  intros H. apply map_size_empty_iff, map_empty. intros o. destruct (made l w !! o) as [x|] eqn:E; [|done].
  apply map_lookup_filter_Some in E as [Ho Hx]. by destruct (H o x Ho).
Qed.

Lemma loader_new_ok path w : loaders_ok w -> let '(l, w') := ClassLoader_new path w in
  loaders_ok w' /\ loaders w !! l = None /\ libpath_loader_map_ w' = libpath_loader_map_ w /\ exists L, loaders w' !! l = Some L /\ library_path_ L = path.
Proof.
  intros Hw. unfold ClassLoader_new. set (w1 := with_fresh _ _). destruct (lo_fresh _ Hw (fresh w) ltac:(lia)) as [Hf Hfo].
  assert (Hl1 : loaders w1 !! fresh w = Some (mkLoader path 1 0)) by (cbn; by rewrite lookup_insert_eq).
  assert (Hw1 : loaders_ok w1).
  { pose proof Hw as [H1 H2 H3 H4 H5 H6 H7]. split; cbn; try done.
    - intros k f E. destruct (H1 k f E) as [F1 F2 F3 F4 F5]. split; try done. intros l Hl. destruct (F5 l Hl) as [Hlt HL]. split; [cbn; lia|]. cbn. rewrite lookup_insert_ne by lia. done.
    - intros l L E. destruct (decide (l = fresh w)) as [->|Hne]; [|rewrite lookup_insert_ne in E by done; by apply H4]. rewrite lookup_insert_eq in E. injection E as <-. cbn. split; [|done].
      pose proof (made_none (fresh w) w (made_fresh w Hw)) as E0. unfold made in *. cbn in *. by rewrite E0.
    - intros i Hi. rewrite lookup_insert_ne by lia. apply H6. lia.
    - intros p l E. destruct (H7 p l E) as (L & EL & Hp). exists L. split; [|done]. rewrite lookup_insert_ne; [done|congruence]. }
  pose proof (utility_load_ok path _ w1 _ Hw1 Hl1 eq_refl ltac:(cbn; lia)) as Hok. destruct (utility_load_same path (fresh w) w1) as [A1 A2 A3 A4].
  split; [done|]. split; [done|]. split; [by rewrite A2|]. rewrite A1. by eexists.
Qed.

Lemma delete_ok l w : loaders_ok w -> is_Some (loaders w !! l) -> map_Forall (fun _ x => x <> Some l) (libpath_loader_map_ w) ->
  exists w', ClassLoader_delete l w = Some w' /\ loaders_ok w' /\ libpath_loader_map_ w' = libpath_loader_map_ w.
Proof.
  intros Hw [L Hl] Hmap. unfold ClassLoader_delete. assert (Hu : is_Some (UnloadLibrary l w)).
  { by apply unload_some; exists L. }
  destruct Hu as [[n w1] Hu]. rewrite Hu. cbn [mbind option_bind]. eexists. split; [done|]. destruct (unload_ok l w n w1 Hw Hu) as (Hw1 & [S1 S2 S3 S4] & _).
  split; [|done]. rewrite <- S3 in Hmap. destruct Hw1 as [H1 H2 H3 H4 H5 H6 H7]. split; cbn; try done.
  - intros k f E. destruct (H1 k f E) as [F1 F2 F3 F4 F5]. split; try done. intros l' Hl'. destruct (F5 l' Hl') as [Hlt HL]. split; [done|].
    cbn. intros L' [_ E']%lookup_delete_Some. by apply HL.
  - intros l' L' [_ E']%lookup_delete_Some. by apply H4.
  - intros i Hi. destruct (H6 i Hi) as [E ?]. split; [|done]. by apply lookup_delete_None; right.
  - intros p l' E. destruct (H7 p l' E) as (L' & EL & Hp). exists L'. split; [|done]. rewrite lookup_delete_ne; [done|]. intros ->. by apply (Hmap p _ E).
Qed.

(** *** The objects *)

Lemma made_insert l o x w : objects w !! o = None -> size (made l (with_objects (<[o := x]> (objects w)) w)) = (size (made l w) + if decide (made_by x = l) then 1 else 0)%nat.
Proof.
  intros Ho. unfold made. cbn. case_decide as Hx.
  - rewrite map_filter_insert_True by done. rewrite map_size_insert_None; [lia|]. apply map_lookup_filter_None. by left.
  - rewrite map_filter_insert_False by done. rewrite delete_id by done. lia.
Qed.

Lemma made_delete l o x w : objects w !! o = Some x -> size (made l w) = (size (made l (with_objects (delete o (objects w)) w)) + if decide (made_by x = l) then 1 else 0)%nat.
Proof.
  intros Ho. rewrite <- (made_insert l o x (with_objects (delete o (objects w)) w)) by by apply lookup_delete_eq.
  unfold made. cbn. by rewrite insert_delete_id.
Qed.

(** The objects and a loader's count of them change together. *)
Lemma set_objects_ok os d l w n : loaders_ok w -> (fresh w <= n)%nat ->
  (forall o x, os !! o = Some x -> objects w !! o = Some x \/
    exists f, factories w !! class_of x = Some f /\ made_by x ∈ relative_class_loaders_ f /\ relative_library_path_ f = code_in x) ->
  (forall i, (n <= i)%nat -> os !! i = None) ->
  (forall l' L, loaders w !! l' = Some L -> Z.of_nat (size (made l' (with_objects os w))) = Z.of_nat (size (made l' w)) + if decide (l' = l) then d else 0) ->
  loaders_ok (with_fresh n (with_objects os (upd_loader (fun L => set_classobj (classobj_ref_count_ L + d) L) l w))).
Proof.
  intros [H1 H2 H3 H4 H5 H6 H7] Hn Hos Hfr Hcount. split; cbn; try done.
  - intros k f E. destruct (H1 k f E) as [F1 F2 F3 F4 F5]. split; try done. intros l' Hl'. destruct (F5 l' Hl') as [Hlt HL']. split; [cbn; lia|]. intros L' E'. cbn in E'.
    destruct (decide (l' = l)) as [->|Hne]; [|rewrite lookup_alter_ne in E' by done; by apply HL'].
    rewrite lookup_alter_eq in E'. apply fmap_Some in E' as (L & E' & ->). by destruct (HL' L E').
  - intros o x Ho. destruct (Hos o x Ho) as [Ho'|?]; [by apply (H3 o)|done].
  - intros l' L' E'. destruct (decide (l' = l)) as [->|Hne].
    + rewrite lookup_alter_eq in E'. apply fmap_Some in E' as (L & E' & ->). cbn. destruct (H4 l L E') as [Ec Hl]. split; [|done].
      pose proof (Hcount l L E') as E. rewrite decide_True in E by done. unfold made in *. cbn in *. lia.
    + rewrite lookup_alter_ne in E' by done. destruct (H4 l' L' E') as [Ec Hl]. split; [|done].
      pose proof (Hcount l' L' E') as E. rewrite decide_False in E by done. unfold made in *. cbn in *. lia.
  - intros i Hi. split; [|by apply Hfr]. apply lookup_alter_None. apply H6. lia.
  - intros p l' E. destruct (H7 p l' E) as (L' & E' & <-). destruct (decide (l' = l)) as [->|Hne].
    + rewrite lookup_alter_eq, E'. by eexists.
    + rewrite lookup_alter_ne by done. by eexists.
Qed.

Lemma create_ok k l w : loaders_ok w -> is_Some (loaders w !! l) -> exists o w', CreateClassObj k l w = Some (o, w') /\ loaders_ok w'.
Proof.
  intros Hw [L Hl]. unfold CreateClassObj. rewrite Hl. cbn [mbind option_bind].
  assert (H1 : exists b w1, (if utility_IsLibraryLoaded (library_path_ L) l w then Some (true, w) else LoadLibrary l w) = Some (b, w1) /\ loaders_ok w1 /\ is_Some (loaders w1 !! l)).
  { destruct (utility_IsLibraryLoaded _ _ _); [by eexists _, _|]. destruct (load_ok l w Hw ltac:(by eexists)) as (b & w1 & E & Hw1 & S1). exists b, w1. split; [done|]. split; [done|]. by rewrite (sw_loaders _ _ S1). }
  destruct H1 as (b & w1 & -> & Hw1 & [L1 Hl1]). cbn. destruct (factories w1 !! k) as [f|] eqn:Ef; [|by eexists _, _]. unfold IsOwnedBy. case_bool_decide as Hown; [|by eexists _, _].
  eexists _, _. split; [done|]. apply (set_objects_ok _ 1 l w1); [done|lia| | |].
  - intros o x Ho. destruct (decide (o = fresh w1)) as [->|Hne]; [|rewrite lookup_insert_ne in Ho by done; by left].
    rewrite lookup_insert_eq in Ho. injection Ho as <-. right. by exists f.
  - intros i Hi. rewrite lookup_insert_ne by lia. apply (lo_fresh _ Hw1). lia.
  - intros l' L' _. cbn [objects]. rewrite made_insert by (apply (lo_fresh _ Hw1); lia). cbn. destruct (decide (l' = l)), (decide (l = l')); try congruence; lia.
Qed.

Lemma deleter_ok o x w : loaders_ok w -> objects w !! o = Some x -> is_Some (loaders w !! made_by x) ->
  exists w', OnClassObjDeleter o w = Some w' /\ loaders_ok w'.
Proof.
  intros Hw Ho [L Hl]. unfold OnClassObjDeleter. rewrite Ho. cbn [mbind option_bind]. rewrite Hl. cbn [mbind option_bind]. eexists. split; [done|].
  apply (set_objects_ok (delete o (objects w)) (-1) (made_by x) w (fresh w)); [done|lia| | |].
  - intros o' x' [_ Ho']%lookup_delete_Some. by left.
  - intros i Hi. apply lookup_delete_None. right. by apply (lo_fresh _ Hw).
  - intros l' L' _. rewrite (made_delete l' o x w Ho). destruct (decide (l' = made_by x)), (decide (made_by x = l')); try congruence; lia.
Qed.

(** *** The manager *)

Lemma mload_ok path w : loaders_ok w -> loaders_ok (snd (MLoadLibrary path w)).
Proof.
  intros Hw. unfold MLoadLibrary. cbn [snd]. destruct (IsLibraryValid path w); [done|]. pose proof (loader_new_ok path w Hw) as Hn. destruct (ClassLoader_new path w) as [l w1].
  destruct Hn as (Hw1 & Hnone & Emap & L & Hl & Hp). destruct Hw1 as [H1 H2 H3 H4 H5 H6 H7]. split; cbn; try done.
  - intros k f E. by destruct (H1 k f E).
  - intros p l' E. destruct (decide (p = path)) as [->|Hne]; [|rewrite lookup_insert_ne in E by done; by apply H7]. rewrite lookup_insert_eq in E. injection E as <-. by exists L.
Qed.

Lemma mcreate_ok k w : loaders_ok w -> exists o w', MCreateClassObj k w = Some (o, w') /\ loaders_ok w'.
Proof.
  intros Hw. unfold MCreateClassObj. destruct (list_find _ _) as [[i [p [l|]]]|] eqn:Ef; [|by eexists _, _..]. apply list_find_Some in Ef as (Hin & _ & _).
  apply create_ok; [done|]. apply list_elem_of_lookup_2, elem_of_map_to_list in Hin. destruct (lo_map _ Hw p l Hin) as (L & HL & _). by exists L.
Qed.

Lemma null_ok path w : loaders_ok w -> loaders_ok (with_map (<[path := None]> (libpath_loader_map_ w)) w).
Proof.
  intros [H1 H2 H3 H4 H5 H6 H7]. split; cbn; try done; [intros k f E; by destruct (H1 k f E)|].
  intros p l' E. apply lookup_insert_Some in E as [[_ ?]|[_ E]]; [done|]. by apply H7.
Qed.

Lemma mcreate_in_ok k path w : loaders_ok w -> exists o w', MCreateClassObjIn k path w = Some (o, w') /\ loaders_ok w'.
Proof.
  intros Hw. unfold MCreateClassObjIn. destruct (libpath_loader_map_ w !! path) as [[l|]|] eqn:Em; [|by eexists _, _|eexists _, _; split; [done|by apply null_ok]].
  apply create_ok; [done|]. destruct (lo_map _ Hw path l Em) as (L & HL & _). by exists L.
Qed.

Lemma munload_ok path w : loaders_ok w -> exists w', MUnloadLibrary path w = Some w' /\ loaders_ok w'.
Proof.
  intros Hw. unfold MUnloadLibrary. destruct (libpath_loader_map_ w !! path) as [[l|]|] eqn:Em; [|by eexists..]. destruct (lo_map _ Hw path l Em) as (L & Hl & Hp).
  assert (Hu : is_Some (UnloadLibrary l w)) by (by apply unload_some; exists L).
  destruct Hu as [[n w1] Hu]. rewrite Hu. cbn [mbind option_bind]. destruct (unload_ok l w n w1 Hw Hu) as (Hw1 & S1 & Hno).
  clear Hno. destruct (n =? 0) eqn:En; [|by eexists]. set (w2 := with_map _ w1). assert (Hw2 : loaders_ok w2).
  { by apply null_ok. }
  destruct (delete_ok l w2) as (w' & E & Hw' & _); [done|..].
  - cbn. rewrite (sw_loaders _ _ S1). by exists L.
  - cbn. intros p x E ->. apply lookup_insert_Some in E as [[_ ?]|[Hne E]]; [done|]. rewrite (sw_map _ _ S1) in E. destruct (lo_map _ Hw p l E) as (L' & HL' & Hp'). congruence.
  - by exists w'.
Qed.

Lemma unload_each_ok paths w : loaders_ok w -> exists w', unload_each paths w = Some w' /\ loaders_ok w'.
Proof.
  revert w. induction paths as [|p ps IH]; intros w Hw; cbn; [by eexists|]. destruct (munload_ok p w Hw) as (w1 & -> & Hw1). cbn. by apply IH.
Qed.

Lemma op_keeps p w : loaders_ok w -> op_ok p w ->
  (exists w', run_op p w = Some w' /\ loaders_ok w') \/
  (run_op p w = None /\ exists o x, p = ODelete o /\ objects w !! o = Some x /\ loaders w !! made_by x = None).
Proof.
  intros Hw Hop. destruct p as [path|k|k path| |o|path|l|l k|l|l]; cbn in Hop |- *.
  - left. eexists. split; [done|]. by apply mload_ok.
  - left. destruct (mcreate_ok k w Hw) as (o & w' & -> & ?). cbn. by eexists.
  - left. destruct (mcreate_in_ok k path w Hw) as (o & w' & -> & ?). cbn. by eexists.
  - left. by apply unload_each_ok.
  - destruct Hop as [x Ho]. destruct (loaders w !! made_by x) as [L|] eqn:El; [left; by apply (deleter_ok o x)|right].
    split; [|by exists o, x]. unfold OnClassObjDeleter. rewrite Ho. cbn. by rewrite El.
  - left. exists (snd (ClassLoader_new path w)). split; [done|]. pose proof (loader_new_ok path w Hw) as Hn. destruct (ClassLoader_new path w) as [l w']. by destruct Hn as [Hw' _].
  - left. destruct Hop as [Hl _]. destruct (load_ok l w Hw Hl) as (b & w' & -> & ? & _). cbn. by eexists.
  - left. destruct Hop as [Hl _]. destruct (create_ok k l w Hw Hl) as (o & w' & -> & ?). cbn. by eexists.
  - left. destruct Hop as [[L Hl] _]. assert (Hu : is_Some (UnloadLibrary l w)) by (by apply unload_some; exists L).
    destruct Hu as [[n w1] Hu]. rewrite Hu. cbn. exists w1. split; [done|]. by eapply unload_ok.
  - left. destruct Hop as [Hl Hm]. destruct (delete_ok l w Hw Hl Hm) as (w' & ? & ? & _). by exists w'.
Qed.

Lemma reachable_ok w : reachable w -> loaders_ok w.
Proof.
  induction 1 as [|o w w' _ IH Hop E]; [apply start_ok|]. destruct (op_keeps o w IH Hop) as [(w1 & E1 & Hw1)|[E1 _]]; congruence.
Qed.

(** *** Who made an object *)

(** No object loses the loader that made it. *)
Definition keeps_makers (w w' : world) : Prop :=
  forall o x, objects w' !! o = Some x -> loaders w' !! made_by x = None -> objects w !! o = Some x /\ loaders w !! made_by x = None.

Lemma makers_refl w w' : objects w' = objects w -> (forall l, loaders w' !! l = None -> loaders w !! l = None) -> keeps_makers w w'.
Proof. intros Ho Hl o x. rewrite Ho. intros ? ?. split; [done|by apply Hl]. Qed.

Lemma makers_trans w1 w2 w3 : keeps_makers w1 w2 -> keeps_makers w2 w3 -> keeps_makers w1 w3.
Proof. intros H1 H2 o x Ho Hl. destruct (H2 o x Ho Hl). by apply H1. Qed.

Lemma utility_load_makers path l w : keeps_makers w (snd (utility_LoadLibrary path l w)).
Proof. destruct (utility_load_same path l w) as [A1 A2 A3 A4]. apply makers_refl; [done|]. intros l'. by rewrite A1. Qed.

Lemma upd_makers f l w : keeps_makers w (upd_loader f l w).
Proof. apply makers_refl; [done|]. intros l'. cbn. by intros ?%lookup_alter_None. Qed.

Lemma load_makers l w b w' : LoadLibrary l w = Some (b, w') -> keeps_makers w w'.
Proof.
  unfold LoadLibrary. intros (L & _ & [= E])%bind_Some. pose proof (f_equal snd E) as E'. cbn in E'. subst w'.
  eapply makers_trans; [|apply utility_load_makers]. apply upd_makers.
Qed.

Lemma create_makers k l w o w' : CreateClassObj k l w = Some (o, w') -> keeps_makers w w'.
Proof.
  unfold CreateClassObj. intros (L & HL & ([b w1] & E1 & E2)%bind_Some)%bind_Some.
  assert (H1 : keeps_makers w w1) by (destruct (utility_IsLibraryLoaded _ _ _); [injection E1 as _ <-; by apply makers_refl|by apply load_makers in E1]).
  assert (Hl : is_Some (loaders w1 !! l)).
  { destruct (utility_IsLibraryLoaded _ _ _); [injection E1 as _ <-; by exists L|]. revert E1. unfold LoadLibrary. intros (L1 & HL1 & [= E])%bind_Some.
    pose proof (f_equal snd E) as E'. cbn in E'. subst w1. rewrite (su_loaders _ _ (utility_load_same _ _ _)). cbn. rewrite lookup_alter_is_Some. by exists L1. }
  destruct (factories w1 !! k) as [f|]; [|by injection E2 as _ <-]. destruct (IsOwnedBy l f); [|by injection E2 as _ <-]. injection E2 as _ <-.
  eapply makers_trans; [exact H1|]. intros o' x. cbn. rewrite lookup_alter_None, lookup_insert_Some. intros [[<- <-]|[_ Ho]] Hn; [|done]. cbn in Hn. destruct Hl as [? Hl]. congruence.
Qed.

Lemma munload_makers path w w' : loaders_ok w -> MUnloadLibrary path w = Some w' -> keeps_makers w w'.
Proof.
  intros Hw. unfold MUnloadLibrary. destruct (libpath_loader_map_ w !! path) as [[l|]|] eqn:Em; [|intros [= <-]; by apply makers_refl..].
  intros ([n w1] & Hu & E)%bind_Some. destruct (unload_ok l w n w1 Hw Hu) as (Hw1 & [S1 S2 S3 S4] & Hno).
  assert (H1 : keeps_makers w w1) by (apply makers_refl; [done|]; intros l'; rewrite !eq_None_not_Some; by rewrite S1).
  destruct (n =? 0) eqn:En; [|by injection E as <-]. unfold ClassLoader_delete in E.
  apply bind_Some in E as ([n2 w3] & Hu2 & [= <-]). set (w2 := with_map _ w1) in *. assert (Hw2 : loaders_ok w2) by (by apply null_ok).
  destruct (unload_ok l w2 n2 w3 Hw2 Hu2) as (_ & [T1 T2 T3 T4] & _). eapply makers_trans; [exact H1|]. intros o x Ho Hl. cbn in Ho, Hl. rewrite T4 in Ho. cbn in Ho.
  split; [done|]. apply lookup_delete_None in Hl as [Hl|Hl].
  - exfalso. rewrite S4 in Ho. apply (Hno ltac:(lia) o x Ho). congruence.
  - apply eq_None_not_Some. apply eq_None_not_Some in Hl. by rewrite T1 in Hl.
Qed.

Lemma unload_each_makers paths w w' : loaders_ok w -> unload_each paths w = Some w' -> keeps_makers w w'.
Proof.
  revert w. induction paths as [|p ps IH]; intros w Hw; cbn; [intros [= <-]; by apply makers_refl|]. intros (w1 & E1 & E2)%bind_Some.
  destruct (munload_ok p w Hw) as (w2 & E & Hw1). assert (w2 = w1) as -> by congruence. eapply makers_trans; [by eapply munload_makers|by apply IH].
Qed.

(** Only the deletion of the loader itself takes it from its objects. *)
Lemma op_makers p w w' : loaders_ok w -> op_ok p w -> run_op p w = Some w' ->
  forall o x, objects w' !! o = Some x -> loaders w' !! made_by x = None ->
    (objects w !! o = Some x /\ loaders w !! made_by x = None) \/ p = OLoaderDelete (made_by x).
Proof.
  intros Hw Hop E. assert (H : keeps_makers w w' \/ exists l, p = OLoaderDelete l); [|destruct H as [H|[l ->]]].
  - destruct p as [path|k|k path| |o|path|l|l k|l|l]; cbn in Hop, E; [left..|by right; exists l].
    + injection E as <-. unfold MLoadLibrary. cbn [snd]. destruct (IsLibraryValid path w); [by apply makers_refl|]. unfold ClassLoader_new.
      eapply makers_trans; [|exact (utility_load_makers path (fresh w) _)]. apply makers_refl; [done|]. intros l. cbn. by intros [? _]%lookup_insert_None.
    + apply bind_Some in E as ([o w1] & E & [= <-]). revert E. unfold MCreateClassObj. destruct (list_find _ _) as [[i [q [l|]]]|]; [apply create_makers|intros [= _ <-]; by apply makers_refl..].
    + apply bind_Some in E as ([o w1] & E & [= <-]). revert E. unfold MCreateClassObjIn. destruct (_ !! path) as [[l|]|]; [apply create_makers|intros [= _ <-]; by apply makers_refl..].
    + by apply (unload_each_makers _ _ _ Hw E).
    + revert E. unfold OnClassObjDeleter. intros (x & Ho & (L & HL & [= <-])%bind_Some)%bind_Some. intros o' x'. cbn. rewrite lookup_alter_None. by intros [_ ?]%lookup_delete_Some ?.
    + injection E as <-. unfold ClassLoader_new. eapply makers_trans; [|exact (utility_load_makers path (fresh w) _)]. apply makers_refl; [done|]. intros l. cbn. by intros [? _]%lookup_insert_None.
    + apply bind_Some in E as ([b w1] & E & [= <-]). by apply load_makers in E.
    + apply bind_Some in E as ([o w1] & E & [= <-]). by apply create_makers in E.
    + apply bind_Some in E as ([n w1] & E & [= <-]). destruct (unload_ok l w n w1 Hw E) as (_ & [S1 S2 S3 S4] & _). apply makers_refl; [done|]. intros l'. rewrite !eq_None_not_Some. by rewrite S1.
  - intros o x Ho Hl. left. by apply H.
  - cbn in E. unfold ClassLoader_delete in E. apply bind_Some in E as ([n w1] & E & [= <-]). destruct (unload_ok l w n w1 Hw E) as (_ & [S1 S2 S3 S4] & _).
    cbn. intros o x Ho [->|Hl]%lookup_delete_None; [by right|left]. rewrite S4 in Ho. split; [done|]. apply eq_None_not_Some. apply eq_None_not_Some in Hl. by rewrite S1 in Hl.
Qed.

(** C14: Objects keep their library: after any operations of a manager, of loaders of one's own and of the users of the objects, also when a loader is deleted while objects that it made
    are alive, the library that has the code of every object that is alive is open.  No operation takes the loader that made it, which its deletion counts down, from an object that is alive, other than
    the deletion of that very loader by its owner; and an operation uses a deleted loader exactly if it deletes an object whose loader was deleted before it.
    (No class is in two libraries, nobody touches the manager's loaders, and the address of a deleted loader is not given to another one.) *)
Theorem objects_keep_library w : reachable w ->
  (forall o x, objects w !! o = Some x -> code_in x ∈ libraries w) /\
  (forall p w', op_ok p w -> run_op p w = Some w' -> forall o x, objects w' !! o = Some x -> loaders w' !! made_by x = None ->
     (objects w !! o = Some x /\ loaders w !! made_by x = None) \/ p = OLoaderDelete (made_by x)) /\
  forall p, op_ok p w -> run_op p w = None <-> exists o x, p = ODelete o /\ objects w !! o = Some x /\ loaders w !! made_by x = None.
Proof.
  intros Hw%reachable_ok. split; [|split].
  - intros o x Ho. destruct (lo_object _ Hw o x Ho) as (f & E & _ & <-). exact (fa_open _ _ _ (lo_factory _ Hw _ f E)).
  - intros p w' Hp E. by apply (op_makers p w w').
  - intros p Hp. split.
    + intros E. destruct (op_keeps p w Hw Hp) as [(w' & E' & _)|[_ H]]; [congruence|done].
    + intros (o & x & -> & Ho & Hl). cbn. unfold OnClassObjDeleter. rewrite Ho. cbn. by rewrite Hl.
Qed.

(** What a loader promises: once its library is loaded for it, it makes an object of every class that the library registers; the object's code is in that library,
    and while the object is there the loader's unloads change neither the factories nor the open libraries. *)
Theorem loaded_classes_create w l L ks w1 k : reachable w -> loaders w !! l = Some L -> registers (library_path_ L) = Some ks -> k ∈ ks ->
  LoadLibrary l w = Some (true, w1) ->
  exists o w2, CreateClassObj k l w1 = Some (Some o, w2) /\ objects w2 !! o = Some (mkObject l k (library_path_ L)) /\
    exists n w3, UnloadLibrary l w2 = Some (n, w3) /\ 1 <= n /\ w3 = w2.
Proof.
  intros Hw%reachable_ok Hl Hks Hk HL. destruct (load_ok l w Hw ltac:(by exists L)) as (b & w1' & E & Hw1 & S1). rewrite HL in E. injection E as <- <-.
  destruct (sw_path _ _ S1 l L Hl) as (L1 & Hl1 & Hp1). destruct (loaded_owns w l L ks w1 Hw Hl Hks HL) as [Hopen Hown]. destruct (Hown k Hk) as (f & Ef & Hf & Hpf).
  destruct (create_ok k l w1 Hw1 ltac:(by exists L1)) as (o & w2 & E2 & Hw2). revert E2. unfold CreateClassObj. rewrite Hl1. cbn [mbind option_bind].
  rewrite Hp1, opened_is_loaded by done. cbn [mbind option_bind]. rewrite Ef. unfold IsOwnedBy. rewrite bool_decide_true by done. intros [= <- <-].
  eexists _, _. split; [done|]. split; [cbn; by rewrite lookup_insert_eq, Hpf|]. revert Hw2. set (w2 := with_fresh _ _). intros Hw2.
  assert (Hl2 : exists L2, loaders w2 !! l = Some L2) by (cbn; rewrite lookup_alter_eq, Hl1; by eexists). destruct Hl2 as [L2 Hl2].
  assert (Ho2 : objects w2 !! fresh w1 = Some (mkObject l k (relative_library_path_ f))) by (cbn; by rewrite lookup_insert_eq).
  assert (Hpos : 0 < classobj_ref_count_ L2).
  { apply Z.lt_nge. intros Hc. by destruct (count_made l L2 w2 Hw2 Hl2 Hc _ _ Ho2). }
  assert (H1 : 1 <= loadlib_ref_count_ L2).
  { apply Z.nlt_ge. intros Hc. destruct (objects_loads l L2 w2 Hw2 Hl2 ltac:(lia)) as [Hno _]. by destruct (Hno _ _ Ho2). }
  exists (loadlib_ref_count_ L2), w2. unfold UnloadLibrary. rewrite Hl2. cbn [mbind option_bind]. by rewrite (proj2 (Z.ltb_lt _ _) Hpos).
Qed.

(** *** The process with one manager *)

Lemma managed_start : managed world_new.
Proof. split; cbn; try (intros *; rewrite lookup_empty; done). by intros p ?%elem_of_nil. Qed.

Lemma valid_iff path w : IsLibraryValid path w = true <-> exists l, libpath_loader_map_ w !! path = Some (Some l).
Proof. unfold IsLibraryValid. destruct (libpath_loader_map_ w !! path) as [[l|]|]; split; try done; [by exists l|by intros []..]. Qed.

Lemma managed_load path w : loaders_ok w -> managed w -> let w' := snd (MLoadLibrary path w) in managed w' /\ libraries w' = opens path (libraries w) /\ objects w' = objects w.
Proof.
  intros Hw [M1 M2 M3 M4]. unfold MLoadLibrary, opens. cbn [snd]. destruct (IsLibraryValid path w) eqn:Ev.
  - split; [done|]. split; [|done]. apply valid_iff in Ev as [l Em]. case_bool_decide as Hin; [done|]. destruct (registers path) eqn:Er; [|done]. by destruct Hin; apply (M3 path l).
  - assert (Hnv : forall l, libpath_loader_map_ w !! path <> Some (Some l)) by (intros l Em; assert (IsLibraryValid path w = true) by (apply valid_iff; by exists l); congruence).
    assert (Hcl : path ∉ libraries w) by (intros Hin; destruct (M2 path Hin) as [l Em]; by apply (Hnv l)).
    destruct (lo_fresh _ Hw (fresh w) ltac:(lia)) as [Hf _]. unfold ClassLoader_new, utility_LoadLibrary, IsLibraryLoadedByAnybody. cbn [libraries with_fresh with_loaders]. rewrite bool_decide_false by done. cbn [snd].
    assert (Hmap : forall p l, (libpath_loader_map_ w !! p = Some (Some l) -> <[path := Some (fresh w)]> (libpath_loader_map_ w) !! p = Some (Some l))).
    { intros p l E. rewrite lookup_insert_ne; [done|]. intros ->. by apply (Hnv l). }
    assert (Hld : forall l L, <[fresh w := mkLoader path 1 0]> (loaders w) !! l = Some L ->
      <[path := Some (fresh w)]> (libpath_loader_map_ w) !! library_path_ L = Some (Some l) /\ loadlib_ref_count_ L = 1).
    { intros l L [[<- <-]|[Hne E]]%lookup_insert_Some; [by rewrite lookup_insert_eq|]. destruct (M1 l L E). by split; [apply Hmap|]. }
    destruct (registers path) as [ks|] eqn:Er; cbn; (split; [|done]).
    + split; cbn; [done|..].
      * intros p [Hin|Hin]%elem_of_app; [destruct (M2 p Hin) as [l Em]; exists l; by apply Hmap|]. apply list_elem_of_singleton in Hin as ->. eexists. by rewrite lookup_insert_eq.
      * intros p l [[<- _]|[Hne E]]%lookup_insert_Some Hr; apply elem_of_app; [right; by left|left; by apply (M3 p l)].
      * intros k f l. rewrite register_lookup. case_decide; [|intros E Hl; by apply Hmap, (M4 k)]. intros [= <-] ->%list_elem_of_singleton. cbn. by rewrite lookup_insert_eq.
    + split; cbn; [done|..].
      * intros p Hin. destruct (M2 p Hin) as [l Em]; exists l; by apply Hmap.
      * intros p l [[<- _]|[Hne E]]%lookup_insert_Some Hr; [rewrite Er in Hr; by destruct Hr|by apply (M3 p l)].
      * intros k f l E Hl. by apply Hmap, (M4 k).
Qed.

Lemma managed_objects os d l n w : managed w -> managed (with_fresh n (with_objects os (upd_loader (fun L => set_classobj (classobj_ref_count_ L + d) L) l w))).
Proof.
  intros [M1 M2 M3 M4]. split; cbn; try done. intros l' L' E. destruct (decide (l' = l)) as [->|Hne]; [|rewrite lookup_alter_ne in E by done; by apply M1].
  rewrite lookup_alter_eq in E. apply fmap_Some in E as (L & E & ->). exact (M1 l L E).
Qed.

Lemma offers_iff libs k : offers libs k = true <-> exists p ks, p ∈ libs /\ registers p = Some ks /\ k ∈ ks.
Proof.
  unfold offers. rewrite existsb_exists. split.
  - intros (p & Hin%list_elem_of_In & H). destruct (registers p) as [ks|] eqn:E; [|done]. exists p, ks. by apply bool_decide_eq_true in H.
  - intros (p & ks & Hin & E & Hk). exists p. split; [by apply list_elem_of_In|]. rewrite E. by apply bool_decide_eq_true.
Qed.

(** The manager makes an object of every class of the open libraries, and of no other. *)
Lemma managed_create k w : loaders_ok w -> managed w ->
  (offers (libraries w) k = false /\ MCreateClassObj k w = Some (None, w)) \/
  (offers (libraries w) k = true /\ exists w' x, MCreateClassObj k w = Some (Some (fresh w), w') /\ managed w' /\ libraries w' = libraries w /\
    objects w' = <[fresh w := x]> (objects w) /\ class_of x = k).
Proof.
  intros Hw Hm. unfold MCreateClassObj. destruct (list_find _ _) as [[i [p [l|]]]|] eqn:Ef.
  - right. apply list_find_Some in Ef as (Hin & Hhas & _). apply list_elem_of_lookup_2, elem_of_map_to_list in Hin. cbn in Hhas. unfold IsClassValid in Hhas.
    destruct (factories w !! k) as [f|] eqn:E; [|done]. pose proof Hhas as Hown. unfold IsOwnedBy in Hown. apply bool_decide_eq_true in Hown.
    destruct (lo_factory _ Hw k f E) as [F1 (ks & Hks & Hk) _ _ F5]. destruct (lo_map _ Hw p l Hin) as (L & HL & Hp). destruct (F5 l Hown) as [_ HL']. destruct (HL' L HL) as [Epath _].
    split; [apply offers_iff; by exists (relative_library_path_ f), ks|].
    unfold CreateClassObj. rewrite HL. cbn [mbind option_bind]. rewrite Epath, opened_is_loaded by done. cbn [mbind option_bind]. rewrite E, Hhas. eexists _, _. split; [done|].
    split; [exact (managed_objects (<[fresh w := _]> (objects w)) 1 l (S (fresh w)) w Hm)|]. split; [done|]. split; [cbn; done|done].
  - apply list_find_Some in Ef as (_ & Hhas & _). done.
  - left. split; [|done]. apply not_true_is_false. intros (p & ks & Hin & Hks & Hk)%offers_iff. apply list_find_None in Ef. destruct (lo_open _ Hw p Hin) as (ks' & os & Hks' & Hos).
    assert (ks' = ks) as -> by congruence. specialize (Hos k Hk). destruct (lo_factory _ Hw k _ Hos) as [_ _ _ F4 _]. cbn in F4. destruct os as [|l os]; [done|].
    pose proof (mg_owner _ Hm k _ l Hos ltac:(by left)) as Em. cbn in Em. eapply Forall_forall in Ef; [|by apply elem_of_map_to_list]. apply Ef. cbn. unfold IsClassValid. rewrite Hos.
    unfold IsOwnedBy. apply bool_decide_eq_true. by left.
Qed.

Lemma managed_deleter o w : loaders_ok w -> managed w -> is_Some (objects w !! o) ->
  exists w', OnClassObjDeleter o w = Some w' /\ loaders_ok w' /\ managed w' /\ libraries w' = libraries w /\ objects w' = delete o (objects w).
Proof.
  intros Hw Hm [x Ho]. assert (Hl : is_Some (loaders w !! made_by x)).
  { destruct (lo_object _ Hw o x Ho) as (f & E & Hin & _). destruct (lo_map _ Hw _ _ (mg_owner _ Hm _ f _ E Hin)) as (L & HL & _). by exists L. }
  destruct (deleter_ok o x w Hw Ho Hl) as (w' & E & Hw'). exists w'. split; [done|]. split; [done|]. revert E. unfold OnClassObjDeleter.
  rewrite Ho. cbn. destruct (loaders w !! made_by x); [|done]. cbn. intros [= <-]. split; [|done].
  by apply (managed_objects (delete o (objects w)) (-1) (made_by x) (fresh w)).
Qed.

(** *** Unloading all *)

Lemma erase_sub {A} `{!EqDecision A} (x y : A) l : y ∈ erase x l -> y ∈ l.
Proof.
  induction l as [|z l IH]; cbn; [done|]. case_decide; [by right|]. intros [->|Hin]%elem_of_cons; [by left|right; by apply IH].
Qed.

Lemma erase_other {A} `{!EqDecision A} (x y : A) l : y <> x -> y ∈ l -> y ∈ erase x l.
Proof.
  intros Hne. induction l as [|z l IH]; cbn; [done|]. intros [->|Hin]%elem_of_cons; [rewrite decide_False by done; by left|]. case_decide; [done|]. right. by apply IH.
Qed.

Lemma sole_element {A} (x : A) l : NoDup l -> l <> [] -> (forall y, y ∈ l -> y = x) -> l = [x].
Proof.
  intros Hn Hne Hall. destruct l as [|y [|z l]]; [done|by rewrite (Hall y (list_elem_of_here _ _))|]. exfalso. inversion Hn as [|? ? Hin _]. apply Hin.
  rewrite (Hall y), (Hall z); [by left|right; by left|by left].
Qed.

Lemma unload_other path l w q : q <> path -> q ∈ libraries w -> q ∈ libraries (utility_UnloadLibrary path l w).
Proof.
  intros Hne Hin. unfold utility_UnloadLibrary. destruct (IsLibraryLoadedByAnybody path w); [|done]. destruct (library_factories _ _); [|done]. cbn. by apply erase_other.
Qed.

Lemma unload_shrinks path l w k f' : factories (utility_UnloadLibrary path l w) !! k = Some f' ->
  exists f, factories w !! k = Some f /\ relative_library_path_ f' = relative_library_path_ f /\ forall l', l' ∈ relative_class_loaders_ f' -> l' ∈ relative_class_loaders_ f.
Proof.
  unfold utility_UnloadLibrary. destruct (IsLibraryLoadedByAnybody path w); [|by exists f'].
  assert (H : omap (destroy_factory path l) (factories w) !! k = Some f' ->
    exists f, factories w !! k = Some f /\ relative_library_path_ f' = relative_library_path_ f /\ forall l', l' ∈ relative_class_loaders_ f' -> l' ∈ relative_class_loaders_ f).
  { rewrite lookup_omap. intros (f & E & Hd)%bind_Some. exists f. split; [done|]. rewrite destroy_cases in Hd. case_decide; [|by injection Hd as <-].
    case_decide; [done|]. injection Hd as <-. split; [done|]. cbn. intros l'. apply erase_sub. }
  by destruct (library_factories _ _).
Qed.

Lemma managed_unload p l w : loaders_ok w -> managed w -> objects w = ∅ -> libpath_loader_map_ w !! p = Some (Some l) ->
  exists w', MUnloadLibrary p w = Some w' /\ loaders_ok w' /\ managed w' /\ objects w' = ∅ /\ libpath_loader_map_ w' = <[p := None]> (libpath_loader_map_ w).
Proof.
  intros Hw Hm Hobj Em. destruct (munload_ok p w Hw) as (w' & E & Hw'). exists w'. split; [done|]. split; [done|].
  destruct (lo_map _ Hw p l Em) as (L & HL & Hp). destruct (mg_loader _ Hm l L HL) as [_ Hn]. destruct (lo_count _ Hw l L HL) as [Hc _].
  assert (Hno : map_Forall (fun _ x => made_by x <> l) (objects w)) by (rewrite Hobj; apply map_Forall_empty). rewrite (made_none l w Hno) in Hc.
  destruct (utility_unload_ok p l L w Hw HL Hp Hno) as (Hwu & [U1 U2 U3 U4] & Hun & Hsub & Hclose).
  pose proof (unload_shrinks p l w) as Hshr. revert E. unfold MUnloadLibrary. rewrite Em. unfold UnloadLibrary at 1. rewrite HL. cbn [mbind option_bind].
  rewrite Hc, Hn. change (0 <? Z.of_nat 0) with false. change (1 - 1 =? 0) with true. cbn. rewrite Hp, unload_commutes. pose proof (fun q => unload_other p l w q) as Hoth. set (wu := utility_UnloadLibrary p l w) in *. clearbody wu.
  unfold ClassLoader_delete, UnloadLibrary. cbn. rewrite U1, lookup_alter_eq, HL. cbn. rewrite Hc. change (0 <? Z.of_nat 0) with false. cbn. intros [= <-]. cbn. rewrite U2, U3. split; [|done].
  assert (Hgone : p ∉ libraries wu).
  { apply Hclose. intros k f E Hpf. destruct (lo_factory _ Hw k f E) as [_ _ F3 F4 _]. apply sole_element; [done|done|]. intros l' Hl'.
    pose proof (mg_owner _ Hm k f l' E Hl') as E'. congruence. }
  destruct Hm as [M1 M2 M3 M4]. split; cbn; rewrite ?U1, ?U2.
  - intros l' L' [Hne E]%lookup_delete_Some. rewrite !lookup_alter_ne in E by done. destruct (M1 l' L' E) as [E' ?]. split; [|done]. rewrite lookup_insert_ne; [done|]. intros E2. congruence.
  - intros q Hq. destruct (M2 q (Hsub q Hq)) as [l' E']. exists l'. rewrite lookup_insert_ne; [done|]. by intros <-.
  - intros q l' [[_ ?]|[Hne E]]%lookup_insert_Some Hr; [done|]. apply Hoth; [done|]. by apply (M3 q l').
  - intros k f l' E Hl'. destruct (Hshr k f E) as (f0 & E0 & Ep & Ho). rewrite Ep. pose proof (M4 k f0 l' E0 (Ho l' Hl')) as E'. rewrite lookup_insert_ne; [done|].
    intros E2. assert (l' = l) as -> by congruence. by apply (Hun k f E).
Qed.

Lemma managed_unload_each paths w : loaders_ok w -> managed w -> objects w = ∅ -> exists w', unload_each paths w = Some w' /\ loaders_ok w' /\ managed w' /\ objects w' = ∅ /\
  forall p l, libpath_loader_map_ w' !! p = Some (Some l) -> libpath_loader_map_ w !! p = Some (Some l) /\ p ∉ paths.
Proof.
  revert w. induction paths as [|q qs IH]; intros w Hw Hm Hobj; cbn [unload_each].
  - exists w. do 4 (split; [done|]). intros p l E. split; [done|apply not_elem_of_nil].
  - assert (H1 : exists w1, MUnloadLibrary q w = Some w1 /\ loaders_ok w1 /\ managed w1 /\ objects w1 = ∅ /\
      forall p l, libpath_loader_map_ w1 !! p = Some (Some l) -> libpath_loader_map_ w !! p = Some (Some l) /\ p <> q).
    { destruct (libpath_loader_map_ w !! q) as [[l|]|] eqn:Eq.
      - destruct (managed_unload q l w Hw Hm Hobj Eq) as (w1 & E & Hw1 & Hm1 & Ho1 & Em). exists w1. do 4 (split; [done|]). intros p l'. rewrite Em.
        intros [[_ ?]|[? ?]]%lookup_insert_Some; done.
      - exists w. unfold MUnloadLibrary. rewrite Eq. do 4 (split; [done|]). intros p l E. split; [done|]. intros ->. congruence.
      - exists w. unfold MUnloadLibrary. rewrite Eq. do 4 (split; [done|]). intros p l E. split; [done|]. intros ->. congruence. }
    destruct H1 as (w1 & E1 & Hw1 & Hm1 & Ho1 & Hs1). rewrite E1. cbn [mbind option_bind]. destruct (IH w1 Hw1 Hm1 Ho1) as (w2 & E2 & Hw2 & Hm2 & Ho2 & Hs2).
    exists w2. do 4 (split; [done|]). intros p l E. destruct (Hs2 p l E) as [E' Hn]. destruct (Hs1 p l E') as [E'' Hne]. split; [done|]. by intros [|]%elem_of_cons.
Qed.

(** When there are no more objects, unloading all of a process that has one manager closes every library and leaves no loader and no factory. *)
Lemma unload_all_closes w : loaders_ok w -> managed w -> objects w = ∅ ->
  exists w', UnloadAllLibrary w = Some w' /\ libraries w' = [] /\ loaders w' = ∅ /\ factories w' = ∅ /\ objects w' = ∅.
Proof.
  intros Hw Hm Hobj. destruct (managed_unload_each (GetAllValidLibPath w) w Hw Hm Hobj) as (w' & E & Hw' & Hm' & Ho' & Hs). exists w'. split; [done|].
  assert (Hnone : forall p l, libpath_loader_map_ w' !! p <> Some (Some l)).
  { intros p l Em. destruct (Hs p l Em) as [Em' Hn]. apply Hn. unfold GetAllValidLibPath. apply list_elem_of_omap. exists (p, Some l). split; [by apply elem_of_map_to_list|done]. }
  assert (Hlib : libraries w' = []).
  { destruct (libraries w') as [|p ps] eqn:El; [done|]. destruct (mg_library _ Hm' p) as [l Em]; [rewrite El; by left|]. by destruct (Hnone p l). }
  split; [done|]. split; [|split; [|done]].
  - apply map_empty. intros l. destruct (loaders w' !! l) as [L|] eqn:EL; [|done]. destruct (mg_loader _ Hm' l L EL) as [Em _]. by destruct (Hnone _ _ Em).
  - apply map_empty. intros k. destruct (factories w' !! k) as [f|] eqn:Ef; [|done]. destruct (lo_factory _ Hw' k f Ef) as [F1 _ _ _ _]. rewrite Hlib in F1. by apply elem_of_nil in F1.
Qed.
End class_loader.

(** ** Traces *)

Module LoaderDemo.
(** Two libraries, and one that has the same class as the first. *)
Definition registers (p : string) : option (list class) :=
  if bool_decide (p = "a.so") then Some [("Base", "A")]
  else if bool_decide (p = "b.so") then Some [("Base", "B"); ("Other", "A")]
  else None.
Definition clash (p : string) : option (list class) := if bool_decide (p = "c.so") then Some [("Base", "A")] else registers p.

Fixpoint run (reg : string -> option (list class)) (ops : list op) (w : world) : option world :=
  match ops with [] => Some w | o :: ops' => w1 ← run_op reg o w; run reg ops' w1 end.

Lemma registers_distinct : distinct registers.
Proof.
  intros p1 p2 ks1 ks2 k. unfold registers. repeat case_bool_decide; intros [= <-] [= <-] Hk1 Hk2; try congruence; exfalso; rewrite !elem_of_cons, elem_of_nil in Hk1; rewrite !elem_of_cons, elem_of_nil in Hk2; destruct_or?; simplify_eq.
Qed.

Instance own_dec l w : Decision (own l w).
Proof. unfold own. apply _. Defined.
Instance op_ok_dec o w : Decision (op_ok o w).
Proof. destruct o; cbn; apply _. Defined.

(** The run, if all its operations may be done. *)
Fixpoint checked (ops : list op) (w : world) : option world :=
  match ops with [] => Some w | o :: ops' => if decide (op_ok o w) then w1 ← run_op registers o w; checked ops' w1 else None end.

Lemma checked_reachable ops w w' : reachable registers w -> checked ops w = Some w' -> reachable registers w'.
Proof.
  revert w. induction ops as [|o ops IH]; intros w Hw; cbn; [by intros [= <-]|]. case_decide as Ho; [|done]. intros (w1 & E1 & E2)%bind_Some.
  apply (IH w1); [|done]. by apply (reach_op registers o w w1).
Qed.

(** A manager and a loader of one's own share a library: both make objects, the manager unloads, its loader stays for its object; then the other loader is deleted
    before its object. *)
Definition shared : list op := [OLoad "a.so"; OLoad "b.so"; ONew "a.so"; OCreate ("Base", "A"); OLoaderCreate 2 ("Base", "A"); OCreateIn ("Base", "A") "lost.so"; OUnloadAll; OLoaderDelete 2].
Definition shared_world : world := default world_new (checked shared world_new).

Lemma shared_reachable : reachable registers shared_world.
Proof. apply (checked_reachable shared world_new); [apply reach_start|]. vm_compute. reflexivity. Qed.

Lemma objects_keep_library_witness : let w := shared_world in
  ((forall o x, objects w !! o = Some x -> code_in x ∈ libraries w) /\
   (forall p w', op_ok p w -> run_op registers p w = Some w' -> forall o x, objects w' !! o = Some x -> loaders w' !! made_by x = None ->
      (objects w !! o = Some x /\ loaders w !! made_by x = None) \/ p = OLoaderDelete (made_by x)) /\
   forall p, op_ok p w -> run_op registers p w = None <-> exists o x, p = ODelete o /\ objects w !! o = Some x /\ loaders w !! made_by x = None) /\
  libraries w = ["a.so"] /\ size (objects w) = 2%nat /\ run_op registers (ODelete 4) w = None /\ is_Some (run_op registers (ODelete 3) w).
Proof.
  cbv zeta. split; [exact (objects_keep_library registers registers_distinct shared_world shared_reachable)|]. vm_compute. split_and!; try reflexivity. by eexists.
Defined.

(** A loader that was unloaded loads its library again. *)
Definition again_world : world := default world_new (checked [ONew "b.so"; OLoaderUnload 0] world_new).
Lemma again_reachable : reachable registers again_world.
Proof. apply (checked_reachable [ONew "b.so"; OLoaderUnload 0] world_new); [apply reach_start|]. vm_compute. reflexivity. Qed.

Lemma loaded_classes_create_witness :
  let w1 := default (false, world_new) (LoadLibrary registers 0 again_world) in
  exists o w2, CreateClassObj registers ("Other", "A") 0 w1.2 = Some (Some o, w2) /\ objects w2 !! o = Some (mkObject 0 ("Other", "A") "b.so") /\
    exists n w3, UnloadLibrary 0 w2 = Some (n, w3) /\ 1 <= n /\ w3 = w2.
Proof.
  cbv zeta. refine (loaded_classes_create registers registers_distinct again_world 0 (mkLoader "b.so" 0 0) [("Base", "B"); ("Other", "A")] _ ("Other", "A") again_reachable _ _ _ _).
  - vm_compute. reflexivity.
  - vm_compute. reflexivity.
  - right. left.
  - vm_compute. reflexivity.
Defined.

(** A library with a class of the same name takes the factory over: the first library is closed while its object is alive. *)
Lemma same_class_takes_over : (w ← run clash [ONew "a.so"; OLoaderCreate 0 ("Base", "A"); ONew "c.so"; ONew "a.so"; OLoaderDelete 3] world_new;
  Some (code_in <$> (objects w !! 1%nat), libraries w)) = Some (Some "a.so", ["c.so"]).
Proof. vm_compute. reflexivity. Qed.

(** [IsLibraryLoaded] holds for every loader while anybody has the library: one that gave its library back does not attach again, and makes no objects;
    without the other loader it loads the library again and does. *)
Lemma unloaded_never_attaches : (w ← run registers [ONew "a.so"; ONew "a.so"; OLoaderUnload 0; OLoaderCreate 0 ("Base", "A")] world_new; Some (size (objects w), libraries w)) = Some (0%nat, ["a.so"]) /\
  (w ← run registers [ONew "a.so"; OLoaderUnload 0; OLoaderCreate 0 ("Base", "A")] world_new; Some (size (objects w), libraries w)) = Some (1%nat, ["a.so"]).
Proof. vm_compute. split; reflexivity. Qed.

(** A loader that loads its library twice and is deleted stays the owner of the factories: the library is never closed. *)
Lemma deleted_loader_owns : (w ← run registers [ONew "a.so"; OLoaderLoad 0; OLoaderDelete 0; ONew "a.so"; OLoaderDelete 1] world_new;
  Some (size (loaders w), libraries w, relative_class_loaders_ <$> (factories w !! ("Base", "A")))) = Some (0%nat, ["a.so"], Some [0%nat]).
Proof. vm_compute. reflexivity. Qed.

(** A library that registers no class is closed by the first loader that leaves it. *)
Lemma empty_library_closes : (w ← run (fun _ => Some []) [ONew "d.so"; ONew "d.so"; OLoaderDelete 0] world_new; Some (size (loaders w), libraries w)) = Some (1%nat, []).
Proof. vm_compute. reflexivity. Qed.
End LoaderDemo.
