(* ===== verification/MainBoard.v ===== *)
(** * MainBoard: the modules of a process

    Models [mainboard/module_controller.{h,cc}] over the loaders of ClassLoader.v: which files of the configuration are read, which libraries are opened and
    which components are made from them, and how all of it is given back. *)

From Stdlib Require Import Ascii.
From stdpp Require Import strings.
From S2P Require Import Prelude ClassLoader.

(** ** Paths: [common/file.cc] *)

Definition front_is_slash (s : string) : bool := match s with String c _ => bool_decide (c = "/"%char) | EmptyString => false end.
Fixpoint back_is_slash (s : string) : bool :=
  match s with EmptyString => false | String c EmptyString => bool_decide (c = "/"%char) | String _ s' => back_is_slash s' end.

Definition GetAbsolutePath (prefix relative_path : string) : string :=
  if bool_decide (relative_path = "") then prefix
  else if bool_decide (prefix = "") || front_is_slash relative_path then relative_path
  else if back_is_slash prefix then prefix +:+ relative_path
  else prefix +:+ "/" +:+ relative_path.

(** [GetFileName] without the removal of an extension: what comes after the last slash. *)
Fixpoint has_slash (s : string) : bool := match s with String c s' => bool_decide (c = "/"%char) || has_slash s' | EmptyString => false end.
Fixpoint GetFileName (path : string) : string :=
  match path with String c s => if has_slash path then GetFileName s else path | EmptyString => EmptyString end.

(** [WorkRoot]: of the value of the environment's [CYBER_PATH]. *)
Definition WorkRoot (cyber_path : option string) : string := let r := default "" cyber_path in if bool_decide (r = "") then "/apollo/cyber" else r.

Section module_controller.
(** The messages of [dag_conf.proto]; the configuration of a component is whatever it is. *)
Context {config : Type}.

Record ComponentInfo := mkComponent { class_name : string; component_config : config }.
Record ModuleConfig := mkModule { module_library : string; components : list ComponentInfo; timer_components : list ComponentInfo }.
Definition DagConfig : Type := list ModuleConfig.

(** What the libraries register, what the file system holds, where the process was started, and what a component's [Initialize] answers after those that came before. *)
Context (registers : string -> option (list class)) (PathExists : string -> bool) (GetProtoFromFile : string -> option DagConfig).
Context (cyber_path : option string) (current_path : string) (TaskPoolSize : Z).
Context (Initialize : list ComponentInfo -> ComponentInfo -> bool).

Record ModuleController := mkController {
  component_list_ : list (nat * ComponentInfo);
  total_component_nums : Z;
  has_timer_component : bool;
  component_nums_ : Z;
  class_loader_manager_ : world;
}.

Definition controller_new : ModuleController := mkController [] 0 false 0 world_new.

Definition with_manager (w : world) (c : ModuleController) : ModuleController :=
  mkController (component_list_ c) (total_component_nums c) (has_timer_component c) (component_nums_ c) w.
Definition with_components (l : list (nat * ComponentInfo)) (c : ModuleController) : ModuleController :=
  mkController l (total_component_nums c) (has_timer_component c) (component_nums_ c) (class_loader_manager_ c).

(** The base of all components, as [typeid] names it. *)
Definition ComponentBase : string := "ComponentBase".

(** One component of a module: made, initialised and kept; an object that is not initialised is deleted at once. *)
Definition load_component (x : ComponentInfo) (c : ModuleController) : option (bool * ModuleController) :=
  '(base, w) ← MCreateClassObj registers (ComponentBase, class_name x) (class_loader_manager_ c);
  match base with
  | None => Some (false, with_manager w c)
  | Some o =>
      if Initialize (snd <$> component_list_ c) x then Some (true, with_components (component_list_ c ++ [(o, x)]) (with_manager w c))
      else w' ← OnClassObjDeleter o w; Some (false, with_manager w' c)
  end.

(** Do them in order, until one fails. *)
Fixpoint each {A} (f : A -> ModuleController -> option (bool * ModuleController)) (l : list A) (c : ModuleController) : option (bool * ModuleController) :=
  match l with
  | [] => Some (true, c)
  | x :: l' => '(b, c1) ← f x c; if (b : bool) then each f l' c1 else Some (false, c1)
  end.

Definition load_path (m : ModuleConfig) : string :=
  if front_is_slash (module_library m) then module_library m else GetAbsolutePath (WorkRoot cyber_path) (module_library m).

Definition load_module_config (m : ModuleConfig) (c : ModuleController) : option (bool * ModuleController) :=
  if PathExists (load_path m) then
    '(b, c1) ← each load_component (components m) (with_manager (snd (MLoadLibrary registers (load_path m) (class_loader_manager_ c))) c);
    if (b : bool) then each load_component (timer_components m) c1 else Some (false, c1)
  else Some (false, c).

Definition LoadModule (path : string) (c : ModuleController) : option (bool * ModuleController) :=
  match GetProtoFromFile path with None => Some (false, c) | Some dag => each load_module_config dag c end.

(** The count and whether a module has timer components. *)
Definition GetComponentNum (path : string) (has_timer : bool) : Z * bool :=
  match GetProtoFromFile path with
  | None => (0, has_timer)
  | Some dag => (fold_left (fun n m => n + Z.of_nat (length (components m))) dag 0,
      fold_left (fun b m => if (0 <? length (timer_components m))%nat then true else b) dag has_timer)
  end.

Definition module_path (dag_conf : string) : string :=
  if bool_decide (dag_conf = GetFileName dag_conf) then GetAbsolutePath (GetAbsolutePath (WorkRoot cyber_path) "dag") dag_conf
  else if front_is_slash dag_conf then dag_conf
  else let p := GetAbsolutePath current_path dag_conf in if PathExists p then p else GetAbsolutePath (WorkRoot cyber_path) dag_conf.

Definition count_path (c : ModuleController) (path : string) : ModuleController :=
  let '(n, b) := GetComponentNum path (has_timer_component c) in
  mkController (component_list_ c) (total_component_nums c + n) b (component_nums_ c) (class_loader_manager_ c).

Definition set_component_nums (c : ModuleController) : ModuleController :=
  let n := if has_timer_component c then total_component_nums c + TaskPoolSize else total_component_nums c in
  mkController (component_list_ c) n (has_timer_component c) n (class_loader_manager_ c).

Definition LoadAll (dag_conf_list : list string) (c : ModuleController) : option (bool * ModuleController) :=
  let paths := module_path <$> dag_conf_list in each LoadModule paths (set_component_nums (fold_left count_path paths c)).

(** [component_list_.clear()]: each object is deleted. *)
Fixpoint delete_objects (os : list nat) (w : world) : option world :=
  match os with [] => Some w | o :: os' => w1 ← OnClassObjDeleter o w; delete_objects os' w1 end.

(** What [Shutdown] of a component changes in the process: its node, its readers, its task. *)
Context {process : Type} (Shutdown : ComponentInfo -> process -> process).

(** The components are shut down one after the other; [None]: one that is deleted already. *)
Fixpoint shutdown_each (l : list (nat * ComponentInfo)) (w : world) (p : process) : option process :=
  match l with
  | [] => Some p
  | (o, x) :: l' => _ ← objects w !! o; shutdown_each l' w (Shutdown x p)
  end.

Definition Clear (c : ModuleController) (p : process) : option (process * ModuleController) :=
  p' ← shutdown_each (component_list_ c) (class_loader_manager_ c) p;
  w ← delete_objects (fst <$> component_list_ c) (class_loader_manager_ c);
  w' ← UnloadAllLibrary w;
  Some (p', with_components [] (with_manager w' c)).

(** ** What the configuration asks for *)

(** The reference: the libraries that were opened and the components that were initialised. *)
Definition view := (list string * list ComponentInfo)%type.
Definition asks := (bool * view)%type.
Definition ask_component (x : ComponentInfo) (s : view) : asks :=
  if offers registers s.1 (ComponentBase, class_name x) && Initialize s.2 x then (true, (s.1, s.2 ++ [x])) else (false, s).
Fixpoint ask_each {A} (f : A -> view -> asks) (l : list A) (s : view) : asks :=
  match l with [] => (true, s) | x :: l' => let '(b, s1) := f x s in if b then ask_each f l' s1 else (false, s1) end.
Definition ask_module (m : ModuleConfig) (s : view) : asks :=
  if PathExists (load_path m) then ask_each ask_component (components m ++ timer_components m) (opens registers (load_path m) s.1, s.2) else (false, s).
Definition ask_path (path : string) (s : view) : asks :=
  match GetProtoFromFile path with None => (false, s) | Some dag => ask_each ask_module dag s end.
Definition ask_all (dag_conf_list : list string) : asks := ask_each ask_path (module_path <$> dag_conf_list) ([], []).

(** ** The controller does what the configuration asks for *)

Hypothesis classes_distinct : distinct registers.

(** The controller has its objects, each of the class that its component has, and no others. *)
Record controls (c : ModuleController) : Prop := {
  ct_ok : loaders_ok registers (class_loader_manager_ c);
  ct_managed : managed registers (class_loader_manager_ c);
  ct_nodup : NoDup (fst <$> component_list_ c);
  ct_all : forall o x, objects (class_loader_manager_ c) !! o = Some x -> o ∈ (fst <$> component_list_ c);
  ct_class : forall o x, (o, x) ∈ component_list_ c -> exists b, objects (class_loader_manager_ c) !! o = Some b /\ class_of b = (ComponentBase, class_name x);
}.

Definition seen (c : ModuleController) : view := (libraries (class_loader_manager_ c), snd <$> component_list_ c).

(** [f] does what [g] says. *)
Definition does {A} (f : A -> ModuleController -> option (bool * ModuleController)) (g : A -> view -> asks) : Prop :=
  forall x c, controls c -> exists b c', f x c = Some (b, c') /\ controls c' /\ g x (seen c) = (b, seen c').

Lemma each_does {A} (f : A -> _) g : does f g -> does (each f) (ask_each g).
Proof.
  intros Hf l. induction l as [|x l IH]; intros c Hc; cbn; [by exists true, c|]. destruct (Hf x c Hc) as (b & c1 & -> & Hc1 & ->). cbn [mbind option_bind].
  destruct b; [by apply IH|by exists false, c1].
Qed.

Lemma ask_each_app {A} (g : A -> view -> asks) l1 l2 s : ask_each g (l1 ++ l2) s = let '(b, s1) := ask_each g l1 s in if b then ask_each g l2 s1 else (false, s1).
Proof.
  revert s. induction l1 as [|x l1 IH]; intros s; [done|]. cbn. destruct (g x s) as [[] s1]; [|done]. rewrite IH. by destruct (ask_each g l1 s1) as [[] s2].
Qed.

Lemma load_component_does : does load_component ask_component.
Proof.
  intros x c [C1 C2 C3 C4 C5]. unfold load_component, ask_component, seen. cbn [fst snd].
  destruct (managed_create registers (ComponentBase, class_name x) _ C1 C2) as [[-> ->]|(-> & w' & y & E & Hm & Hl & Ho & Hy)].
  - cbn. exists false, (with_manager (class_loader_manager_ c) c). by destruct c.
  - assert (Hok : loaders_ok registers w').
    { destruct (mcreate_ok registers classes_distinct (ComponentBase, class_name x) _ C1) as (o & w2 & E2 & ?). congruence. }
    assert (Hnew : objects (class_loader_manager_ c) !! fresh (class_loader_manager_ c) = None) by (apply (lo_fresh _ _ C1); lia).
    rewrite E. cbn [mbind option_bind andb]. destruct (Initialize _ x).
    + eexists true, _. split; [done|]. split; [|by cbn; rewrite Hl, fmap_app]. split; cbn; [done|done|..]; rewrite ?fmap_app; cbn.
      * apply NoDup_app. split; [done|]. split; [|apply NoDup_singleton]. intros o Hin ->%list_elem_of_singleton. apply list_elem_of_fmap in Hin as ([o z] & Eo & Hin).
        cbn in Eo. destruct (C5 o z Hin) as (b & Hb & _). congruence.
      * rewrite Ho. intros o b [[<- _]|[Hne Hb]]%lookup_insert_Some; apply elem_of_app; [right; by left|left; by apply (C4 o b)].
      * rewrite Ho. intros o z [Hin|Hin]%elem_of_app.
        -- destruct (C5 o z Hin) as (b & Hb & ?). exists b. split; [|done]. rewrite lookup_insert_ne; [done|congruence].
        -- apply list_elem_of_singleton in Hin as [= -> ->]. exists y. by rewrite lookup_insert_eq.
    + destruct (managed_deleter registers (fresh (class_loader_manager_ c)) w' Hok Hm) as (w2 & -> & Hok2 & Hm2 & Hl2 & Ho2); [rewrite Ho, lookup_insert_eq; by eexists|].
      rewrite Ho, delete_insert_id in Ho2 by done. cbn [mbind option_bind]. eexists false, _. split; [done|]. split; [|by cbn; rewrite Hl2, Hl]. split; cbn; rewrite ?Ho2; done.
Qed.

Lemma load_module_does : does load_module_config ask_module.
Proof.
  intros m c Hc. unfold load_module_config, ask_module. destruct (PathExists (load_path m)); [|by exists false, c].
  destruct Hc as [C1 C2 C3 C4 C5]. destruct (managed_load registers (load_path m) _ C1 C2) as (Hm & Hl & Ho). pose proof (mload_ok registers classes_distinct (load_path m) _ C1) as Hok.
  set (w := snd (MLoadLibrary _ _ _)) in *. clearbody w. assert (Hc1 : controls (with_manager w c)) by (split; cbn; rewrite ?Ho; done).
  assert (Hs : seen (with_manager w c) = (opens registers (load_path m) (seen c).1, (seen c).2)) by (unfold seen; cbn; by rewrite Hl). rewrite <- Hs, ask_each_app.
  destruct (each_does _ _ load_component_does (components m) _ Hc1) as (b & c1 & -> & Hc2 & ->). cbn [mbind option_bind]. destruct b; [|by exists false, c1].
  by apply (each_does _ _ load_component_does).
Qed.

Lemma load_path_does : does LoadModule ask_path.
Proof. intros p c Hc. unfold LoadModule, ask_path. destruct (GetProtoFromFile p) as [dag|]; [by apply (each_does _ _ load_module_does)|by exists false, c]. Qed.

Lemma counted_controls paths c : controls c -> let c' := set_component_nums (fold_left count_path paths c) in controls c' /\ seen c' = seen c.
Proof.
  intros Hc. cbv zeta. assert (H : controls (fold_left count_path paths c) /\ seen (fold_left count_path paths c) = seen c).
  { revert c Hc. induction paths as [|p ps IH]; intros c Hc; [done|]. cbn. unfold count_path at 2 4. destruct (GetComponentNum p _) as [n b].
    destruct (IH (mkController (component_list_ c) (total_component_nums c + n) b (component_nums_ c) (class_loader_manager_ c))) as [? ->]; [by destruct Hc|done]. }
  destruct H as [Hc' Hs]. split; [by destruct Hc'|done].
Qed.

Lemma new_controls : controls controller_new.
Proof.
  split; cbn; [apply start_ok|apply managed_start|apply NoDup_nil; done|by intros o x; rewrite lookup_empty|by intros o x ?%elem_of_nil].
Qed.

Lemma load_all_does confs : exists b c, LoadAll confs controller_new = Some (b, c) /\ controls c /\ ask_all confs = (b, seen c).
Proof.
  unfold LoadAll, ask_all. destruct (counted_controls (module_path <$> confs) _ new_controls) as [Hc Hs]. cbv zeta in Hc, Hs.
  destruct (each_does _ _ load_path_does (module_path <$> confs) _ Hc) as (b & c & E & Hc' & Ha). exists b, c. split; [done|]. split; [done|]. by rewrite Hs in Ha.
Qed.

(** C15: Loading does what the configuration says: the process starts exactly when every file can be read, every library is there, every class is registered by a library opened
    so far and every component answers that it is initialised; then, and up to the first failure, there is one live object per component asked for, in the order of the files and of
    the modules, plain components before timer components, of the class asked for, and no other object. *)
Theorem load_all_as_asked confs : exists b c, LoadAll confs controller_new = Some (b, c) /\ ask_all confs = (b, (libraries (class_loader_manager_ c), snd <$> component_list_ c)) /\
  forall o, is_Some (objects (class_loader_manager_ c) !! o) <-> exists x, (o, x) ∈ component_list_ c /\ class_of <$> (objects (class_loader_manager_ c) !! o) = Some (ComponentBase, class_name x).
Proof.
  destruct (load_all_does confs) as (b & c & E & [C1 C2 C3 C4 C5] & Ha). exists b, c. split; [done|]. split; [done|]. intros o. split.
  - intros [y Ho]. pose proof (C4 o y Ho) as Hin. apply list_elem_of_fmap in Hin as ([o' x] & -> & Hin). exists x. split; [done|]. destruct (C5 o' x Hin) as (b' & Hb & Hcl). cbn. by rewrite Hb; cbn; rewrite Hcl.
  - intros (x & Hin & _). destruct (C5 o x Hin) as (y & Hy & _). by exists y.
Qed.

Lemma delete_objects_all os w : loaders_ok registers w -> managed registers w -> NoDup os -> (forall o, is_Some (objects w !! o) <-> o ∈ os) ->
  exists w', delete_objects os w = Some w' /\ loaders_ok registers w' /\ managed registers w' /\ objects w' = ∅.
Proof.
  intros Hw Hm Hn. revert w Hw Hm. induction Hn as [|o os Ho Hn IH]; intros w Hw Hm Hall; cbn.
  - exists w. do 3 (split; [done|]). apply map_empty. intros o. apply eq_None_not_Some. intros Hs%Hall. by apply elem_of_nil in Hs.
  - destruct (managed_deleter registers o w Hw Hm) as (w1 & -> & Hw1 & Hm1 & _ & E); [apply Hall; by left|]. cbn. apply IH; [done|done|].
    intros o'. rewrite E, lookup_delete_is_Some, Hall, elem_of_cons. split; [by intros [? [|]]|]. intros Hin. split; [|by right]. by intros ->.
Qed.

Lemma shutdown_each_all l w p : (forall o x, (o, x) ∈ l -> is_Some (objects w !! o)) ->
  shutdown_each l w p = Some (fold_left (fun p x => Shutdown x p) (snd <$> l) p).
Proof.
  revert p. induction l as [|[o x] l IH]; intros p H; [done|]. cbn. destruct (H o x ltac:(by left)) as [y ->]. cbn.
  apply IH. intros o' x' Hin. apply (H o' x'). by right.
Qed.

(** C33: Whatever loading said, clearing gives all back: after [LoadAll], failed or not, [Clear] calls [Shutdown] of every component that is kept, in the order in which they were made
    and while every one of them is alive; then it destroys every component, closes every library and deletes every loader and factory; no step uses a deleted object or loader. *)
Theorem clear_gives_all_back confs p : exists b c c', LoadAll confs controller_new = Some (b, c) /\
  Clear c p = Some (fold_left (fun p x => Shutdown x p) (snd <$> component_list_ c) p, c') /\ component_list_ c' = [] /\
  let w := class_loader_manager_ c' in libraries w = [] /\ loaders w = ∅ /\ factories w = ∅ /\ objects w = ∅.
Proof.
  destruct (load_all_does confs) as (b & c & E & [C1 C2 C3 C4 C5] & _). exists b, c.
  destruct (delete_objects_all (fst <$> component_list_ c) _ C1 C2 C3) as (w1 & E1 & Hw1 & Hm1 & Ho1).
  { intros o. split; [intros [x Hx]; by apply (C4 o x)|]. intros ([o' x] & -> & Hin)%list_elem_of_fmap. destruct (C5 o' x Hin) as (y & Hy & _). by exists y. }
  destruct (unload_all_closes registers w1 Hw1 Hm1 Ho1) as (w2 & E2 & H). exists (with_components [] (with_manager w2 c)). split; [done|].
  unfold Clear. rewrite shutdown_each_all by (intros o x Hin; destruct (C5 o x Hin) as (y & Hy & _); by exists y).
  cbn [mbind option_bind]. rewrite E1. cbn [mbind option_bind]. rewrite E2. by cbn.
Qed.
End module_controller.

(** ** A process *)

Module BoardDemo.
(** One library with the classes of three components, and one that registers nothing. *)
Definition registers (p : string) : option (list class) :=
  if bool_decide (p = "/apollo/cyber/lib/camera.so") then Some [(ComponentBase, "Camera"); (ComponentBase, "Ticker"); ("Other", "Camera")]
  else if bool_decide (p = "/opt/empty.so") then Some []
  else None.

Definition camera : ModuleConfig := mkModule "lib/camera.so" [mkComponent "Camera" 1] [mkComponent "Ticker" 2].
Definition broken : ModuleConfig := mkModule "/opt/empty.so" [mkComponent "Camera" 3; mkComponent "Lidar" 4] [].

Definition files (p : string) : option DagConfig :=
  if bool_decide (p = "/apollo/cyber/dag/camera.dag") then Some [camera]
  else if bool_decide (p = "/home/car/broken.dag") then Some [camera; broken]
  else None.

Definition exists_path (p : string) : bool := negb (bool_decide (p = "/apollo/cyber/lib/lost.so")) && negb (bool_decide (p = "/home/car/dag/moved.dag")).
(** The second of two equal configurations is refused. *)
Definition answers (before : list (@ComponentInfo Z)) (x : ComponentInfo) : bool := forallb (fun y => negb (component_config y =? component_config x)) before.

Definition start (confs : list string) := LoadAll registers exists_path files None "/home/car" 100 answers confs controller_new.

Lemma registers_once : distinct registers.
Proof. intros p1 p2 ks1 ks2 k. unfold registers. repeat case_bool_decide; intros [= <-] [= <-] Hk1 Hk2; try congruence; by apply elem_of_nil in Hk1 || apply elem_of_nil in Hk2. Qed.

Lemma load_all_as_asked_witness :
  exists b c, start ["camera.dag"] = Some (b, c) /\
    ask_all registers exists_path files None "/home/car" answers ["camera.dag"] = (b, (libraries (class_loader_manager_ c), snd <$> component_list_ c)) /\
    forall o, is_Some (objects (class_loader_manager_ c) !! o) <->
      exists x, (o, x) ∈ component_list_ c /\ class_of <$> (objects (class_loader_manager_ c) !! o) = Some (ComponentBase, class_name x).
Proof. exact (load_all_as_asked registers exists_path files None "/home/car" 100 answers registers_once ["camera.dag"]). Defined.

(** The classes of the components that were shut down. *)
Definition note (x : @ComponentInfo Z) (p : list string) : list string := p ++ [class_name x].

Lemma clear_gives_all_back_witness : exists b c c', start ["camera.dag"; "./broken.dag"] = Some (b, c) /\
  Clear note c [] = Some (fold_left (fun p x => note x p) (snd <$> component_list_ c) [], c') /\ component_list_ c' = [] /\
  let w := class_loader_manager_ c' in libraries w = [] /\ loaders w = ∅ /\ factories w = ∅ /\ objects w = ∅.
Proof. exact (clear_gives_all_back registers exists_path files None "/home/car" 100 answers note registers_once ["camera.dag"; "./broken.dag"] []). Defined.

Lemma broken_cleared : ('(_, c) ← start ["/home/car/broken.dag"]; '(p, c') ← Clear note c []; Some (p, libraries (class_loader_manager_ c'))) = Some (["Camera"; "Ticker"; "Camera"], []).
Proof. vm_compute. reflexivity. Qed.

(** What a start shows: its answer, the classes of its components, the open libraries and the count of components. *)
Definition shows (confs : list string) := '(b, c) ← start confs; Some (b, (fun e => class_name (snd e)) <$> component_list_ c, libraries (class_loader_manager_ c), component_nums_ c).

Lemma camera_starts : shows ["camera.dag"] = Some (true, ["Camera"; "Ticker"], ["/apollo/cyber/lib/camera.so"], 101).
Proof. vm_compute. reflexivity. Qed.

(** A file by its absolute path; the process fails at the class that nobody has, after the components before it; they stay until the controller is cleared. *)
Lemma broken_stops : shows ["/home/car/broken.dag"] = Some (false, ["Camera"; "Ticker"; "Camera"], ["/apollo/cyber/lib/camera.so"; "/opt/empty.so"], 103).
Proof. vm_compute. reflexivity. Qed.

(** The same file twice: the second [Initialize] is refused and its object is gone at once. *)
Lemma twice_refused : shows ["camera.dag"; "camera.dag"] = Some (false, ["Camera"; "Ticker"], ["/apollo/cyber/lib/camera.so"], 102) /\
  ('(_, c) ← start ["camera.dag"; "camera.dag"]; Some (size (objects (class_loader_manager_ c)))) = Some 2%nat.
Proof. vm_compute. split; reflexivity. Qed.

(** Where a file of the configuration is looked for. *)
Lemma paths_of_files : module_path exists_path (Some "/cyber/") "/home/car" <$> ["camera.dag"; "/etc/x.dag"; "dag/x.dag"; "dag/moved.dag"] =
  ["/cyber/dag/camera.dag"; "/etc/x.dag"; "/home/car/dag/x.dag"; "/cyber/dag/moved.dag"].
Proof. vm_compute. reflexivity. Qed.
End BoardDemo.
