(* ===== verification/RecordProto.v ===== *)
(** * RecordProto: the messages of a record file, and the file itself

    Models [proto/record.proto], [record/header_builder.{h,cc}], [record/file/section.h] and [record_file_base.{h,cc}].  A message is
    the values of its fields; a field that is not set reads as its default.  The serialization of protobuf is a class.  A file is
    its bytes with the position of the descriptor; a medium may be full ([f_room]), and then [write] writes what fits. *)

From S2P Require Import Prelude ShmMessage.

Inductive SectionType := SECTION_HEADER | SECTION_CHUNK_HEADER | SECTION_CHUNK_BODY | SECTION_INDEX | SECTION_CHANNEL.
Inductive CompressType := COMPRESS_NONE | COMPRESS_BZ2 | COMPRESS_LZ4.

#[export] Instance SectionType_eq_dec : EqDecision SectionType.
Proof. solve_decision. Defined.
#[export] Instance CompressType_eq_dec : EqDecision CompressType.
Proof. solve_decision. Defined.

Definition section_num (t : SectionType) : Z :=
  match t with SECTION_HEADER => 0 | SECTION_CHUNK_HEADER => 1 | SECTION_CHUNK_BODY => 2 | SECTION_INDEX => 3 | SECTION_CHANNEL => 4 end.

Record ChannelCache := mkChannelCache {
  cc_message_number : Z; cc_name : string; cc_message_type : string; cc_proto_desc : string;
}.
Record ChunkHeaderCache := mkChunkHeaderCache {
  hc_message_number : Z; hc_begin_time : Z; hc_end_time : Z; hc_raw_size : Z;
}.

(** The field [cache] of an index. *)
Inductive Cache :=
| channel_cache (c : ChannelCache)
| chunk_header_cache (c : ChunkHeaderCache)
| chunk_body_cache (message_number : Z).

Record SingleIndex := mkSingleIndex { si_type : SectionType; si_position : Z; si_cache : option Cache }.

Record SingleMessage := mkSingleMessage { sm_channel_name : string; sm_time : Z; sm_content : bytes }.

Record Header := mkHeader {
  major_version : Z; minor_version : Z; compress : CompressType; chunk_interval : Z; segment_interval : Z; index_position : Z;
  chunk_number : Z; channel_number : Z; h_begin_time : Z; h_end_time : Z; h_message_number : Z; h_size : Z; is_complete : bool;
  chunk_raw_size : Z; segment_raw_size : Z;
}.

Record Channel := mkChannel { ch_name : string; ch_message_type : string; ch_proto_desc : string }.
Record ChunkHeader := mkChunkHeader { k_begin_time : Z; k_end_time : Z; k_message_number : Z; k_raw_size : Z }.
Definition ChunkBody : Type := list SingleMessage.
Definition Index : Type := list SingleIndex.

#[export] Instance SingleMessage_eq_dec : EqDecision SingleMessage.
Proof. solve_decision. Defined.
#[export] Instance Channel_eq_dec : EqDecision Channel.
Proof. solve_decision. Defined.
#[export] Instance ChunkHeader_eq_dec : EqDecision ChunkHeader.
Proof. solve_decision. Defined.
#[export] Instance Header_eq_dec : EqDecision Header.
Proof. solve_decision. Defined.
#[export] Instance ChannelCache_eq_dec : EqDecision ChannelCache.
Proof. solve_decision. Defined.
#[export] Instance ChunkHeaderCache_eq_dec : EqDecision ChunkHeaderCache.
Proof. solve_decision. Defined.
#[export] Instance Cache_eq_dec : EqDecision Cache.
Proof. solve_decision. Defined.
#[export] Instance SingleIndex_eq_dec : EqDecision SingleIndex.
Proof. solve_decision. Defined.

(** ** HeaderBuilder *)

Definition MAJOR_VERSION_ : Z := 1.
Definition MINOR_VERSION_ : Z := 0.
Definition CHUNK_INTERVAL_ : Z := 20 * 1000 * 1000 * 1000.
Definition SEGMENT_INTERVAL_ : Z := 60 * 1000 * 1000 * 1000.
Definition CHUNK_RAW_SIZE_ : Z := 200 * 1024 * 1024.
Definition SEGMENT_RAW_SIZE_ : Z := 2048 * 1024 * 1024.

Definition GetHeader : Header :=
  mkHeader MAJOR_VERSION_ MINOR_VERSION_ COMPRESS_NONE CHUNK_INTERVAL_ SEGMENT_INTERVAL_ 0 0 0 0 0 0 0 false CHUNK_RAW_SIZE_ SEGMENT_RAW_SIZE_.
Definition GetHeaderWithSegmentParams (interval raw_size : Z) : Header :=
  mkHeader MAJOR_VERSION_ MINOR_VERSION_ COMPRESS_NONE CHUNK_INTERVAL_ interval 0 0 0 0 0 0 0 false CHUNK_RAW_SIZE_ raw_size.
Definition GetHeaderWithChunkParams (interval raw_size : Z) : Header :=
  mkHeader MAJOR_VERSION_ MINOR_VERSION_ COMPRESS_NONE interval SEGMENT_INTERVAL_ 0 0 0 0 0 0 0 false raw_size SEGMENT_RAW_SIZE_.

(** The setters that are used. *)
Definition set_index_position (v : Z) (h : Header) : Header :=
  mkHeader (major_version h) (minor_version h) (compress h) (chunk_interval h) (segment_interval h) v (chunk_number h) (channel_number h)
    (h_begin_time h) (h_end_time h) (h_message_number h) (h_size h) (is_complete h) (chunk_raw_size h) (segment_raw_size h).
Definition set_channel_number (v : Z) (h : Header) : Header :=
  mkHeader (major_version h) (minor_version h) (compress h) (chunk_interval h) (segment_interval h) (index_position h) (chunk_number h) v
    (h_begin_time h) (h_end_time h) (h_message_number h) (h_size h) (is_complete h) (chunk_raw_size h) (segment_raw_size h).
Definition set_size (v : Z) (h : Header) : Header :=
  mkHeader (major_version h) (minor_version h) (compress h) (chunk_interval h) (segment_interval h) (index_position h) (chunk_number h)
    (channel_number h) (h_begin_time h) (h_end_time h) (h_message_number h) v (is_complete h) (chunk_raw_size h) (segment_raw_size h).
Definition set_is_complete (v : bool) (h : Header) : Header :=
  mkHeader (major_version h) (minor_version h) (compress h) (chunk_interval h) (segment_interval h) (index_position h) (chunk_number h)
    (channel_number h) (h_begin_time h) (h_end_time h) (h_message_number h) (h_size h) v (chunk_raw_size h) (segment_raw_size h).
Definition set_chunks (number begin_time end_time messages : Z) (h : Header) : Header :=
  mkHeader (major_version h) (minor_version h) (compress h) (chunk_interval h) (segment_interval h) (index_position h) number
    (channel_number h) begin_time end_time messages (h_size h) (is_complete h) (chunk_raw_size h) (segment_raw_size h).
Definition set_segment (interval raw_size : Z) (h : Header) : Header :=
  mkHeader (major_version h) (minor_version h) (compress h) (chunk_interval h) interval (index_position h) (chunk_number h)
    (channel_number h) (h_begin_time h) (h_end_time h) (h_message_number h) (h_size h) (is_complete h) (chunk_raw_size h) raw_size.

(** ** Serialization *)

(** Promised by protobuf: a message whose integers are in range parses from its serialization. *)
Class Wire (A : Type) := { ser : A -> bytes; parse : bytes -> option A }.
Class WireLaws (A : Type) (ok : A -> Prop) `{!Wire A} := { parse_ser : forall m, ok m -> parse (ser m) = Some m }.

(** The integers in range. *)
Record header_ok (h : Header) : Prop := {
  ok_major : 0 <= major_version h < two32;
  ok_minor : 0 <= minor_version h < two32;
  ok_chunk_interval : is_u64 (chunk_interval h);
  ok_segment_interval : is_u64 (segment_interval h);
  ok_index_position : is_u64 (index_position h);
  ok_chunk_number : is_u64 (chunk_number h);
  ok_channel_number : is_u64 (channel_number h);
  ok_begin_time : is_u64 (h_begin_time h);
  ok_end_time : is_u64 (h_end_time h);
  ok_message_number : is_u64 (h_message_number h);
  ok_size : is_u64 (h_size h);
  ok_chunk_raw_size : is_u64 (chunk_raw_size h);
  ok_segment_raw_size : is_u64 (segment_raw_size h);
}.
Definition channel_ok (c : Channel) : Prop := True.
Definition chunk_header_ok (k : ChunkHeader) : Prop :=
  is_u64 (k_begin_time k) /\ is_u64 (k_end_time k) /\ is_u64 (k_message_number k) /\ is_u64 (k_raw_size k).
Definition message_ok (m : SingleMessage) : Prop := is_u64 (sm_time m).
Definition body_ok (b : ChunkBody) : Prop := Forall message_ok b.
Definition cache_ok (c : Cache) : Prop :=
  match c with
  | channel_cache c => is_u64 (cc_message_number c)
  | chunk_header_cache c => is_u64 (hc_message_number c) /\ is_u64 (hc_begin_time c) /\ is_u64 (hc_end_time c) /\ is_u64 (hc_raw_size c)
  | chunk_body_cache n => is_u64 n
  end.
Definition index_ok (l : Index) : Prop := Forall (fun i => is_u64 (si_position i) /\ forall c, si_cache i = Some c -> cache_ok c) l.

(** ** The file *)

Record File := mkFile { f_bytes : bytes; f_pos : nat; f_room : option nat }.

Definition lseek (pos : nat) (f : File) : File := mkFile (f_bytes f) pos (f_room f).

(** Bytes written at the position; behind the end, the gap is zeros. *)
Definition put_bytes (pos : nat) (bs l : bytes) : bytes := take pos l ++ replicate (pos - length l) 0 ++ bs ++ drop (pos + length bs) l.

(** [write]: what is returned, -1 when nothing fits. *)
Definition fwrite (bs : bytes) (f : File) : Z * File :=
  let n := match f_room f with Some room => Nat.min (length bs) (room - f_pos f) | None => length bs end in
  if negb (n =? length bs)%nat && (n =? 0)%nat then (-1, f)
  else (Z.of_nat n, mkFile (put_bytes (f_pos f) (take n bs) (f_bytes f)) (f_pos f + n) (f_room f)).

(** [read] of [n] bytes. *)
Definition fread (n : nat) (f : File) : bytes * File :=
  let bs := take n (drop (f_pos f) (f_bytes f)) in (bs, lseek (f_pos f + length bs) f).

(** [CurrentPosition()]; [SetPosition]: [lseek] refuses a negative position. *)
Definition CurrentPosition (f : File) : Z := Z.of_nat (f_pos f).
Definition SetPosition (position : Z) (f : File) : bool * File :=
  if position <? 0 then (false, f) else (true, lseek (Z.to_nat position) f).

(** ** Section: four bytes of type, four of padding, eight of size *)

Record Section_ := mkSection { s_type : Z; s_size : Z }.

Definition HEADER_LENGTH : nat := 2048.
Definition section_length : nat := 16.

(** The bits of an integer of [w] bits as a signed integer, and back. *)
Definition signed (w x : Z) : Z := if x <? 2 ^ (w - 1) then x else x - 2 ^ w.
Definition unsigned (w x : Z) : Z := x mod 2 ^ w.

Definition section_bytes (s : Section_) : bytes :=
  to_bytes 4 (unsigned 32 (s_type s)) ++ replicate 4 0 ++ to_bytes 8 (unsigned 64 (s_size s)).
Definition section_of_bytes (l : bytes) : Section_ :=
  mkSection (signed 32 (of_bytes (slice 0 4 l))) (signed 64 (of_bytes (slice 8 8 l))).

Lemma length_section_bytes s : length (section_bytes s) = section_length.
Proof. unfold section_bytes. by rewrite !length_app, !length_to_bytes, length_replicate. Qed.

Lemma signed_unsigned w x : 0 < w -> - 2 ^ (w - 1) <= x < 2 ^ (w - 1) -> signed w (unsigned w x) = x.
Proof.
  intros Hw Hx. unfold signed, unsigned. assert (E : 2 ^ w = 2 * 2 ^ (w - 1)) by (rewrite <- Z.pow_succ_r by lia; f_equal; lia).
  destruct (decide (0 <= x)) as [H|H].
  - rewrite Z.mod_small by lia. by rewrite (proj2 (Z.ltb_lt _ _)) by lia.
  - assert (Em : x mod 2 ^ w = x + 2 ^ w) by (symmetry; apply (Z.mod_unique _ _ (-1)); lia). rewrite Em.
    rewrite (proj2 (Z.ltb_ge _ _)) by lia. lia.
Qed.

Lemma unsigned_range w x : 0 < w -> 0 <= unsigned w x < 2 ^ w.
Proof. intros Hw. apply Z.mod_pos_bound. apply Z.pow_pos_nonneg; lia. Qed.

(** What is written of a section reads back as it. *)
Lemma section_of_bytes_of t n : - 2 ^ 63 <= n < 2 ^ 63 -> section_of_bytes (section_bytes (mkSection (section_num t) n)) = mkSection (section_num t) n.
Proof.
  intros Hn. unfold section_of_bytes, section_bytes. cbn [s_type s_size].
  rewrite slice_here by by rewrite length_to_bytes.
  rewrite (slice_skip 4 _ _ 8) by by rewrite length_to_bytes. rewrite (slice_skip 0 _ _ 4) by by rewrite length_replicate.
  assert (E8 : slice 0 8 (to_bytes 8 (unsigned 64 n)) = to_bytes 8 (unsigned 64 n)).
  { rewrite <- (app_nil_r (to_bytes 8 _)) at 1. apply slice_here. by rewrite length_to_bytes. }
  rewrite E8, !of_to_bytes by (apply unsigned_range; lia). rewrite !signed_unsigned by (destruct t; cbn; lia). done.
Qed.

(** ** Writing in the file *)

Lemma length_put_bytes pos bs l : length (put_bytes pos bs l) = Nat.max (length l) (pos + length bs).
Proof. unfold put_bytes. rewrite !length_app, length_take, length_replicate, length_drop. lia. Qed.

(** Behind what was written so far, the old contents stay. *)
Lemma put_bytes_next pre bs old : put_bytes (length pre) bs (pre ++ old) = pre ++ bs ++ drop (length bs) old.
Proof.
  unfold put_bytes. rewrite take_app_length, length_app. replace (length pre - (length pre + length old))%nat with O by lia. cbn [replicate app].
  by rewrite drop_app_add.
Qed.

Lemma fwrite_all bs f : f_room f = None -> fwrite bs f = (Z.of_nat (length bs), mkFile (put_bytes (f_pos f) bs (f_bytes f)) (f_pos f + length bs) None).
Proof. intros Hr. unfold fwrite. rewrite Hr, Nat.eqb_refl. cbn [negb andb]. by rewrite firstn_all. Qed.
