(* ===== verification/RecordFile.v ===== *)
(** * RecordFile: writing and reading one record file

    Models [record/file/record_file_writer.{h,cc}] and [record_file_reader.{h,cc}].  The writer has two chunks: messages go into the active one,
    and a thread writes the other.  [FlushStep] is one turn of that thread, under the lock of the flush chunk; a message and
    a turn of the thread may come in any order.  [Close] waits for the thread twice, so it makes two turns itself.  A reader that parses a
    section reads its bytes in one block, [default_block] of them when the size is zero; [expect_at_end] is what the parser of
    protobuf answers of bytes that do not parse. *)

From S2P Require Import Prelude ShmMessage RecordProto.

(** ** Chunk *)

Record Chunk := mkChunk { header_ : ChunkHeader; body_ : ChunkBody }.

Definition chunk_clear : Chunk := mkChunk (mkChunkHeader 0 0 0 0) [].

Definition chunk_add (message : SingleMessage) (c : Chunk) : Chunk :=
  let h := header_ c in
  let b0 := if k_begin_time h =? 0 then sm_time message else k_begin_time h in
  let b1 := if sm_time message <? b0 then sm_time message else b0 in
  let e1 := if k_end_time h <? sm_time message then sm_time message else k_end_time h in
  mkChunk (mkChunkHeader b1 e1 (wrap_u64 (k_message_number h + 1)) (wrap_u64 (k_raw_size h + Z.of_nat (length (sm_content message)))))
    (body_ c ++ [message]).

Definition chunk_empty (c : Chunk) : bool := k_message_number (header_ c) =? 0.

(** ** RecordFileWriter *)

Record RecordFileWriter := mkWriter {
  w_file : File;
  w_header : Header;
  w_index : Index;
  is_writing_ : bool;
  chunk_active_ : Chunk;
  chunk_flush_ : Chunk;
  channel_message_number_map_ : gmap string Z;
}.

Definition with_file (f : File) (w : RecordFileWriter) : RecordFileWriter :=
  mkWriter f (w_header w) (w_index w) (is_writing_ w) (chunk_active_ w) (chunk_flush_ w) (channel_message_number_map_ w).
Definition with_header (h : Header) (w : RecordFileWriter) : RecordFileWriter :=
  mkWriter (w_file w) h (w_index w) (is_writing_ w) (chunk_active_ w) (chunk_flush_ w) (channel_message_number_map_ w).
Definition with_index (i : Index) (w : RecordFileWriter) : RecordFileWriter :=
  mkWriter (w_file w) (w_header w) i (is_writing_ w) (chunk_active_ w) (chunk_flush_ w) (channel_message_number_map_ w).
Definition with_chunks (active flush : Chunk) (w : RecordFileWriter) : RecordFileWriter :=
  mkWriter (w_file w) (w_header w) (w_index w) (is_writing_ w) active flush (channel_message_number_map_ w).

(** [static char blank[HEADER_LENGTH] = {'0'}]: the digit, and zeros. *)
Definition blank : bytes := 48 :: replicate (HEADER_LENGTH - 1) 0.

Section file.
Context `{!Wire Header, !Wire Channel, !Wire ChunkHeader, !Wire ChunkBody, !Wire Index}.

(** [WriteSection<T>(message)], of the type and the bytes of the message.  A header longer than its place would be padded from beyond
    [blank]; the write fails. *)
Definition WriteSection (type : SectionType) (bs : bytes) (w : RecordFileWriter) : bool * RecordFileWriter :=
  let f0 := match type with SECTION_HEADER => lseek 0 (w_file w) | _ => w_file w end in
  let '(count, f1) := fwrite (section_bytes (mkSection (section_num type) (Z.of_nat (length bs)))) f0 in
  if negb (count =? Z.of_nat section_length) then (false, with_file f1 w)
  else
    let '(_, f2) := fwrite bs f1 in
    match type with
    | SECTION_HEADER =>
        let n := (HEADER_LENGTH - length bs)%nat in
        let '(count, f3) := fwrite (take n blank) f2 in
        if (length bs <=? HEADER_LENGTH)%nat && (count =? Z.of_nat n) then
          (true, with_header (set_size (CurrentPosition f3) (w_header w)) (with_file f3 w))
        else (false, with_file f3 w)
    | _ => (true, with_header (set_size (CurrentPosition f2) (w_header w)) (with_file f2 w))
    end.

(** [Open(path)]: the file as it is, without what cannot be opened.  It is not truncated. *)
Definition OpenWriter (old : bytes) (room : option nat) : RecordFileWriter :=
  mkWriter (mkFile old 0 room) (mkHeader 0 0 COMPRESS_NONE 0 0 0 0 0 0 0 0 0 false 0 0) [] true chunk_clear chunk_clear ∅.

Definition WriteHeader (header : Header) (w : RecordFileWriter) : bool * RecordFileWriter :=
  WriteSection SECTION_HEADER (ser header) (with_header header w).

Definition WriteChannel (channel : Channel) (w : RecordFileWriter) : bool * RecordFileWriter :=
  let pos := CurrentPosition (w_file w) in
  let '(ok, w1) := WriteSection SECTION_CHANNEL (ser channel) w in
  if negb ok then (false, w1)
  else
    let w2 := with_header (set_channel_number (wrap_u64 (channel_number (w_header w1) + 1)) (w_header w1)) w1 in
    (true, with_index (w_index w2 ++ [mkSingleIndex SECTION_CHANNEL (wrap_u64 pos)
       (Some (channel_cache (mkChannelCache 0 (ch_name channel) (ch_message_type channel) (ch_proto_desc channel))))]) w2).

Definition WriteChunk (h : ChunkHeader) (body : ChunkBody) (w : RecordFileWriter) : bool * RecordFileWriter :=
  let pos := CurrentPosition (w_file w) in
  let '(ok, w1) := WriteSection SECTION_CHUNK_HEADER (ser h) w in
  if negb ok then (false, w1)
  else
    let w2 := with_index (w_index w1 ++ [mkSingleIndex SECTION_CHUNK_HEADER (wrap_u64 pos)
       (Some (chunk_header_cache (mkChunkHeaderCache (k_message_number h) (k_begin_time h) (k_end_time h) (k_raw_size h))))]) w1 in
    let pos := CurrentPosition (w_file w2) in
    let '(ok, w3) := WriteSection SECTION_CHUNK_BODY (ser body) w2 in
    if negb ok then (false, w3)
    else
      let hd := w_header w3 in
      let w4 := with_header (set_chunks (wrap_u64 (chunk_number hd + 1))
                  (if h_begin_time hd =? 0 then k_begin_time h else h_begin_time hd) (k_end_time h)
                  (wrap_u64 (h_message_number hd + k_message_number h)) hd) w3 in
      (true, with_index (w_index w4 ++ [mkSingleIndex SECTION_CHUNK_BODY (wrap_u64 pos) (Some (chunk_body_cache (Z.of_nat (length body))))]) w4).

(** One turn of [Flush]: a chunk that cannot be written is dropped. *)
Definition FlushStep (w : RecordFileWriter) : RecordFileWriter :=
  if chunk_empty (chunk_flush_ w) then w
  else let '(_, w1) := WriteChunk (header_ (chunk_flush_ w)) (body_ (chunk_flush_ w)) w in with_chunks (chunk_active_ w1) chunk_clear w1.

Definition count_message (name : string) (m : gmap string Z) : gmap string Z :=
  match m !! name with Some n => <[name := wrap_u64 (n + 1)]> m | None => <[name := 1]> m end.

Definition need_flush (message : SingleMessage) (h : Header) (c : Chunk) : bool :=
  ((0 <? chunk_interval h) && (chunk_interval h <? wrap_u64 (sm_time message - k_begin_time (header_ c)))) ||
  ((0 <? chunk_raw_size h) && (chunk_raw_size h <? k_raw_size (header_ c))).

Definition WriteMessage (message : SingleMessage) (w : RecordFileWriter) : RecordFileWriter :=
  let active := chunk_add message (chunk_active_ w) in
  let w1 := mkWriter (w_file w) (w_header w) (w_index w) (is_writing_ w) active (chunk_flush_ w)
              (count_message (sm_channel_name message) (channel_message_number_map_ w)) in
  if need_flush message (w_header w) active then with_chunks (chunk_flush_ w1) active w1 else w1.

Definition GetMessageNumber (name : string) (w : RecordFileWriter) : Z := default 0 (channel_message_number_map_ w !! name).

(** [WriteIndex]: the numbers of messages are put into the caches of the channels. *)
Definition fill_cache (m : gmap string Z) (i : SingleIndex) : SingleIndex :=
  match si_type i, si_cache i with
  | SECTION_CHANNEL, Some (channel_cache c) =>
      match m !! cc_name c with
      | Some n => mkSingleIndex SECTION_CHANNEL (si_position i) (Some (channel_cache (mkChannelCache n (cc_name c) (cc_message_type c) (cc_proto_desc c))))
      | None => i
      end
  | _, _ => i
  end.

Definition WriteIndex (w : RecordFileWriter) : bool * RecordFileWriter :=
  let index : Index := map (fill_cache (channel_message_number_map_ w)) (w_index w) in
  let w1 := with_header (set_index_position (wrap_u64 (CurrentPosition (w_file w))) (w_header w)) (with_index index w) in
  WriteSection SECTION_INDEX (ser index) w1.

(** [Close]: the thread writes what waits, then the active chunk. *)
Definition Close (w : RecordFileWriter) : RecordFileWriter :=
  if negb (is_writing_ w) then w
  else
    let w1 := FlushStep w in
    let w2 := FlushStep (with_chunks (chunk_flush_ w1) (chunk_active_ w1) w1) in
    let w3 := mkWriter (w_file w2) (w_header w2) (w_index w2) false (chunk_active_ w2) (chunk_flush_ w2) (channel_message_number_map_ w2) in
    let '(_, w4) := WriteIndex w3 in
    let '(_, w5) := WriteHeader (set_is_complete true (w_header w4)) w4 in w5.

(** ** RecordFileReader *)

Record RecordFileReader := mkFileReader {
  r_file : File;
  r_header : Header;
  r_index : Index;
  end_of_file_ : bool;
}.

Definition with_rfile (f : File) (r : RecordFileReader) : RecordFileReader := mkFileReader f (r_header r) (r_index r) (end_of_file_ r).
Definition with_eof (b : bool) (r : RecordFileReader) : RecordFileReader := mkFileReader (r_file r) (r_header r) (r_index r) b.

Context (default_block : nat) (expect_at_end : bytes -> bool).

(** [ReadSection(section)]: the sixteen bytes before a message. *)
Definition ReadSectionHeader (r : RecordFileReader) : option Section_ * RecordFileReader :=
  let '(bs, f) := fread section_length (r_file r) in
  if (length bs =? 0)%nat then (None, with_eof true (with_rfile f r))
  else if negb (length bs =? section_length)%nat then (None, with_rfile f r)
  else (Some (section_of_bytes bs), with_rfile f r).

(** [ReadSection<T>(size, message)]: what is parsed must have the size that the section gives.  Where a size below zero leaves the file
    is not modelled. *)
Definition ReadSection {A} `{!Wire A} (size : Z) (r : RecordFileReader) : option A * RecordFileReader :=
  if (size <? - 2 ^ 31) || (2 ^ 31 - 1 <? size) then (None, r)
  else if size <? 0 then (None, r)
  else
    let n := Z.to_nat size in
    let '(block, f) := fread (if (n =? 0)%nat then default_block else n) (r_file r) in
    match parse (take n block) with
    | Some m => if (length (ser m) =? n)%nat then (Some m, with_rfile f r) else (None, with_rfile f r)
    | None => (None, with_eof (expect_at_end (take n block)) (with_rfile f r))
    end.

Definition SkipSection (size : Z) (r : RecordFileReader) : bool * RecordFileReader :=
  let pos := CurrentPosition (r_file r) in
  if 2 ^ 63 - 1 - pos <? size then (false, r)
  else let '(ok, f) := SetPosition (pos + size) (r_file r) in (ok, with_rfile f r).

Definition first_position : nat := section_length + HEADER_LENGTH.

Definition FReset (r : RecordFileReader) : RecordFileReader := with_eof false (with_rfile (lseek first_position (r_file r)) r).

Definition ReadHeader (r : RecordFileReader) : bool * RecordFileReader :=
  match ReadSectionHeader r with
  | (Some s, r1) =>
      if negb (s_type s =? section_num SECTION_HEADER) then (false, r1)
      else match ReadSection (s_size s) r1 with
           | (Some h, r2) => (true, mkFileReader (lseek first_position (r_file r2)) h (r_index r2) (end_of_file_ r2))
           | (None, r2) => (false, r2)
           end
  | (None, r1) => (false, r1)
  end.

(** [Open(path)] of a file that is there. *)
Definition OpenReader (bs : bytes) : bool * RecordFileReader :=
  ReadHeader (mkFileReader (mkFile bs 0 None) (mkHeader 0 0 COMPRESS_NONE 0 0 0 0 0 0 0 0 0 false 0 0) [] false).

Definition ReadIndex (r : RecordFileReader) : bool * RecordFileReader :=
  if negb (is_complete (r_header r)) then (false, r)
  else
    let '(ok, f) := SetPosition (signed 64 (index_position (r_header r))) (r_file r) in
    if negb ok then (false, r)
    else match ReadSectionHeader (with_rfile f r) with
         | (Some s, r1) =>
             if negb (s_type s =? section_num SECTION_INDEX) then (false, r1)
             else match ReadSection (s_size s) r1 with
                  | (Some i, r2) => (true, FReset (mkFileReader (r_file r2) (r_header r2) i (end_of_file_ r2)))
                  | (None, r2) => (false, r2)
                  end
         | (None, r1) => (false, r1)
         end.
End file.
