(* ===== verification/RecordReader.v ===== *)
(** * RecordReader: reading a record in a range of time, and viewing several in order

    Models [record/record_reader.{h,cc}], [record/record_message.h] and [record_viewer.{h,cc}].  The loops have fuel, and [None] is
    running out of it: a file can make a reader go round.  The viewer is written over the class of what it uses of a reader, of which
    [RecordReader] is the instance.  What a chunk holds after a body that was refused is not modelled: it is empty. *)

From stdpp Require Import sorting.
From S2P Require Import Prelude ShmMessage RecordProto RecordFile.

(** ** RecordReader *)

Record RecordReader := mkReader {
  is_valid_ : bool;
  reach_end_ : bool;
  chunk_ : ChunkBody;
  message_index_ : nat;
  channel_info_ : gmap string ChannelCache;
  rr_header : Header;
  file_reader_ : RecordFileReader;
}.

Definition with_freader (f : RecordFileReader) (r : RecordReader) : RecordReader :=
  mkReader (is_valid_ r) (reach_end_ r) (chunk_ r) (message_index_ r) (channel_info_ r) (rr_header r) f.
Definition with_end (b : bool) (r : RecordReader) : RecordReader :=
  mkReader (is_valid_ r) b (chunk_ r) (message_index_ r) (channel_info_ r) (rr_header r) (file_reader_ r).
Definition with_chunk (c : ChunkBody) (r : RecordReader) : RecordReader :=
  mkReader (is_valid_ r) (reach_end_ r) c (message_index_ r) (channel_info_ r) (rr_header r) (file_reader_ r).
Definition with_message (i : nat) (r : RecordReader) : RecordReader :=
  mkReader (is_valid_ r) (reach_end_ r) (chunk_ r) i (channel_info_ r) (rr_header r) (file_reader_ r).

(** [channel_info_.insert] keeps the first cache of a name. *)
Definition add_channel_info (m : gmap string ChannelCache) (i : SingleIndex) : gmap string ChannelCache :=
  match si_type i, si_cache i with
  | SECTION_CHANNEL, Some (channel_cache c) => match m !! cc_name c with Some _ => m | None => <[cc_name c := c]> m end
  | _, _ => m
  end.

Section reader.
Context `{!Wire Header, !Wire Channel, !Wire ChunkHeader, !Wire ChunkBody, !Wire Index}.
Context (default_block : nat) (expect_at_end : bytes -> bool).

Definition RecordReader_new (bs : bytes) : RecordReader :=
  let '(ok, f) := OpenReader default_block expect_at_end bs in
  if negb ok then mkReader false false [] 0 ∅ (mkHeader 0 0 COMPRESS_NONE 0 0 0 0 0 0 0 0 0 false 0 0) f
  else
    let '(ok, f1) := ReadIndex default_block expect_at_end f in
    let info := if ok : bool then fold_left add_channel_info (r_index f1) ∅ else ∅ in
    mkReader true false [] 0 info (r_header f) (FReset f1).

Definition Reset (r : RecordReader) : RecordReader :=
  mkReader (is_valid_ r) false [] 0 (channel_info_ r) (rr_header r) (FReset (file_reader_ r)).

(** [ReadNextChunk]: the loop, with [skip_next_chunk_body]. *)
Fixpoint read_next (fuel : nat) (skip : bool) (begin_time end_time : Z) (r : RecordReader) : option (bool * RecordReader) :=
  match fuel with
  | O => None
  | S fuel' =>
      if reach_end_ r then Some (false, r)
      else match ReadSectionHeader (file_reader_ r) with
      | (None, f) => Some (false, with_freader f r)
      | (Some s, f) =>
          if s_type s =? section_num SECTION_INDEX then
            let '(_, f1) := SkipSection (s_size s) f in read_next fuel' skip begin_time end_time (with_end true (with_freader f1 r))
          else if s_type s =? section_num SECTION_CHANNEL then
            match ReadSection default_block expect_at_end (A := Channel) (s_size s) f with
            | (None, f1) => Some (false, with_freader f1 r)
            | (Some _, f1) => read_next fuel' skip begin_time end_time (with_freader f1 r)
            end
          else if s_type s =? section_num SECTION_CHUNK_HEADER then
            match ReadSection default_block expect_at_end (A := ChunkHeader) (s_size s) f with
            | (None, f1) => Some (false, with_freader f1 r)
            | (Some h, f1) =>
                let skip1 := if k_end_time h <? begin_time then true else skip in
                if end_time <? k_begin_time h then Some (false, with_freader f1 r)
                else read_next fuel' skip1 begin_time end_time (with_freader f1 r)
            end
          else if s_type s =? section_num SECTION_CHUNK_BODY then
            if skip then let '(_, f1) := SkipSection (s_size s) f in read_next fuel' false begin_time end_time (with_freader f1 r)
            else
              match ReadSection default_block expect_at_end (A := ChunkBody) (s_size s) f with
              | (None, f1) => Some (false, with_chunk [] (with_freader f1 r))
              | (Some body, f1) => Some (true, with_chunk body (with_freader f1 r))
              end
          else Some (false, with_freader f r)
      end
  end.

Definition ReadNextChunk (fuel : nat) : Z -> Z -> RecordReader -> option (bool * RecordReader) := read_next fuel false.
End reader.

(** The loop over the messages of the chunk from number [i]: a message that is found, the end of the range, or the end of the chunk. *)
Inductive scanned := Found (m : SingleMessage) (i : nat) | Beyond (i : nat) | Finished (i : nat).

Fixpoint scan_chunk (begin_time end_time : Z) (l : list SingleMessage) (i : nat) : scanned :=
  match l with
  | [] => Finished i
  | m :: l' =>
      if end_time <? sm_time m then Beyond i
      else if sm_time m <? begin_time then scan_chunk begin_time end_time l' (S i)
      else Found m (S i)
  end.

Section messages.
Context `{!Wire Header, !Wire Channel, !Wire ChunkHeader, !Wire ChunkBody, !Wire Index}.
Context (default_block : nat) (expect_at_end : bytes -> bool).

Fixpoint ReadMessage (fuel : nat) (begin_time end_time : Z) (r : RecordReader) : option (option SingleMessage * RecordReader) :=
  match fuel with
  | O => None
  | S fuel' =>
      if negb (is_valid_ r) then Some (None, r)
      else if (h_end_time (rr_header r) <? begin_time) || (end_time <? h_begin_time (rr_header r)) then Some (None, r)
      else match scan_chunk begin_time end_time (drop (message_index_ r) (chunk_ r)) (message_index_ r) with
      | Found m i => Some (Some m, with_message i r)
      | Beyond i => Some (None, with_message i r)
      | Finished i =>
          '(ok, r1) ← ReadNextChunk default_block expect_at_end fuel begin_time end_time (with_message i r);
          if ok : bool then ReadMessage fuel' begin_time end_time (with_message 0 r1) else Some (None, r1)
      end
  end.

Definition RGetMessageNumber (name : string) (r : RecordReader) : Z := from_option cc_message_number 0 (channel_info_ r !! name).
Definition RGetMessageType (name : string) (r : RecordReader) : string := from_option cc_message_type "" (channel_info_ r !! name).
Definition RGetProtoDesc (name : string) (r : RecordReader) : string := from_option cc_proto_desc "" (channel_info_ r !! name).
Definition RGetChannelList (r : RecordReader) : gset string := dom (channel_info_ r).
End messages.

(** ** RecordViewer *)

(** What the viewer uses of a reader. *)
Class Source (R : Type) := {
  s_valid : R -> bool;
  s_begin_time : R -> Z;
  s_end_time : R -> Z;
  s_channels : R -> gset string;
  s_reset : R -> R;
  s_read : nat -> Z -> Z -> R -> option (option SingleMessage * R);
}.

Definition reader_Source `{!Wire Header, !Wire Channel, !Wire ChunkHeader, !Wire ChunkBody, !Wire Index} (default_block : nat)
    (expect_at_end : bytes -> bool) : Source RecordReader := {|
  s_valid := is_valid_;
  s_begin_time r := h_begin_time (rr_header r);
  s_end_time r := h_end_time (rr_header r);
  s_channels := RGetChannelList;
  s_reset := Reset;
  s_read := ReadMessage default_block expect_at_end;
|}.

Definition kStepTimeNanoSec : Z := 1000000000.
Definition kBufferMinSize : nat := 128.

(** [std::multimap<uint64_t, ...>]: by time, and behind what has the same. *)
Fixpoint emplace (m : SingleMessage) (l : list SingleMessage) : list SingleMessage :=
  match l with
  | [] => [m]
  | x :: l' => if sm_time m <? sm_time x then m :: x :: l' else x :: emplace m l'
  end.

Section viewer.
Context {R : Type} `{!Source R}.

Record RecordViewer := mkViewer {
  v_begin_time : Z;
  v_end_time : Z;
  channels_ : gset string;
  channel_list_ : gset string;
  readers_ : list R;
  readers_finished_ : list bool;
  curr_begin_time_ : Z;
  msg_buffer_ : list SingleMessage;
}.

(** The order of [std::sort]; which of two readers with the same times comes first is not said. *)
Definition reader_le (a b : R) : Prop :=
  if s_begin_time a =? s_begin_time b then s_end_time a <= s_end_time b else s_begin_time a < s_begin_time b.
#[local] Instance reader_le_dec a b : Decision (reader_le a b).
Proof. unfold reader_le. destruct (_ =? _); apply _. Defined.

Definition VInit (v : RecordViewer) : RecordViewer :=
  mkViewer (v_begin_time v) (v_end_time v) (channels_ v) (channel_list_ v ∪ ⋃ (map (fun r => s_channels r ∩ channels_ v) (readers_ v)))
    (merge_sort reader_le (readers_ v)) (replicate (length (readers_ v)) false) (curr_begin_time_ v) (msg_buffer_ v).

Definition UpdateTime (v : RecordViewer) : RecordViewer :=
  let valid := filter (fun r => s_valid r = true) (readers_ v) in
  let min_begin := fold_left (fun t r => if s_begin_time r <? t then s_begin_time r else t) valid (two64 - 1) in
  let max_end := fold_left (fun t r => if t <? s_end_time r then s_end_time r else t) valid 0 in
  let b := if v_begin_time v <? min_begin then min_begin else v_begin_time v in
  let e := if max_end <? v_end_time v then max_end else v_end_time v in
  mkViewer b e (channels_ v) (channel_list_ v) (readers_ v) (readers_finished_ v) b (msg_buffer_ v).

Definition RecordViewer_new (readers : list R) (begin_time end_time : Z) (channels : gset string) : RecordViewer :=
  UpdateTime (VInit (mkViewer begin_time end_time channels ∅ readers [] 0 [])).

Definition IsValid (v : RecordViewer) : bool := v_begin_time v <=? v_end_time v.

Definition VReset (v : RecordViewer) : RecordViewer :=
  mkViewer (v_begin_time v) (v_end_time v) (channels_ v) (channel_list_ v) (map s_reset (readers_ v)) (map (fun _ => false) (readers_finished_ v))
    (v_begin_time v) [].

(** The first loop over the readers: those that have ended. *)
Definition finish_reader (this_begin : Z) (p : R * bool) : R * bool :=
  let '(r, finished) := p in if negb finished && (s_end_time r <? this_begin) then (s_reset r, true) else (r, finished).

(** The inner loop: a reader is read until it has nothing in the range. *)
Fixpoint drain (fuel : nat) (b e : Z) (r : R) (buffer : list SingleMessage) : option (R * list SingleMessage) :=
  match fuel with
  | O => None
  | S fuel' =>
      '(m, r1) ← s_read fuel b e r;
      match m with
      | Some m => drain fuel' b e r1 (emplace m buffer)
      | None => Some (r1, buffer)
      end
  end.

Fixpoint drain_all (fuel : nat) (b e : Z) (l : list (R * bool)) (buffer : list SingleMessage) : option (list (R * bool) * list SingleMessage) :=
  match l with
  | [] => Some ([], buffer)
  | (r, true) :: l' => '(l1, buffer) ← drain_all fuel b e l' buffer; Some ((r, true) :: l1, buffer)
  | (r, false) :: l' =>
      '(r1, buffer) ← drain fuel b e r buffer;
      '(l1, buffer) ← drain_all fuel b e l' buffer;
      Some ((r1, false) :: l1, buffer)
  end.

(** One turn of the outer loop of [FillBuffer]. *)
Definition fill_step (fuel : nat) (v : RecordViewer) : option RecordViewer :=
  let this_begin := curr_begin_time_ v in
  let this_end0 := wrap_u64 (this_begin + kStepTimeNanoSec) in
  let this_end := if v_end_time v <? this_end0 then v_end_time v else this_end0 in
  let l := map (finish_reader this_begin) (zip (readers_ v) (readers_finished_ v)) in
  '(l1, buffer) ← drain_all fuel this_begin this_end l (msg_buffer_ v);
  Some (mkViewer (v_begin_time v) (v_end_time v) (channels_ v) (channel_list_ v) (map fst l1) (map snd l1) (wrap_u64 (this_end + 1)) buffer).

Fixpoint FillBuffer (fuel : nat) (v : RecordViewer) : option (bool * RecordViewer) :=
  match fuel with
  | O => None
  | S fuel' =>
      if (curr_begin_time_ v <=? v_end_time v) && (length (msg_buffer_ v) <? kBufferMinSize)%nat then
        v1 ← fill_step fuel v; FillBuffer fuel' v1
      else Some (negb (bool_decide (msg_buffer_ v = [])), v)
  end.

Definition with_buffer (l : list SingleMessage) (v : RecordViewer) : RecordViewer :=
  mkViewer (v_begin_time v) (v_end_time v) (channels_ v) (channel_list_ v) (readers_ v) (readers_finished_ v) (curr_begin_time_ v) l.

Definition wanted (channels : gset string) (m : SingleMessage) : bool :=
  bool_decide (channels = ∅) || bool_decide (sm_channel_name m ∈ channels).

(** [Update]: the next message of the channels. *)
Fixpoint Update (fuel : nat) (v : RecordViewer) : option (option SingleMessage * RecordViewer) :=
  match fuel with
  | O => None
  | S fuel' =>
      '(more, v1) ← (match msg_buffer_ v with [] => FillBuffer fuel v | _ => Some (true, v) end);
      if negb more : bool then Some (None, v1)
      else match msg_buffer_ v1 with
           | [] => Some (None, v1)
           | m :: l => if wanted (channels_ v1) m then Some (Some m, with_buffer l v1) else Update fuel' (with_buffer l v1)
           end
  end.

(** ** Iterating from [begin()] to [end()] *)

Fixpoint iterate (fuel : nat) (v : RecordViewer) : option (list SingleMessage) :=
  match fuel with
  | O => None
  | S fuel' =>
      '(m, v1) ← Update fuel v;
      match m with
      | Some m => l ← iterate fuel' v1; Some (m :: l)
      | None => Some []
      end
  end.

(** What a loop from [begin()] sees. *)
Definition view (fuel : nat) (v : RecordViewer) : option (list SingleMessage) :=
  let v1 := VReset v in if IsValid v1 then iterate fuel v1 else Some [].
End viewer.
Arguments RecordViewer : clear implicits.
