(* ===== verification/RecordReading.v ===== *)
(** * RecordReading: what a record file holds, and what a reader finds in it

    The contents of a file after any sequence of writes, and what reading it gives: every message that was written, once. *)

(** ** What a record file holds after a sequence of writes

    The file of a writer is the area of the header, the sections that were written, and whatever an older file had behind them; the index
    names the position of every section, and the counts of the header are those of the sections.  This holds for every interleaving of
    the messages with the thread that writes the chunks. *)

From S2P Require Import Prelude ShmMessage RecordProto RecordFile.

(** ** The bytes of sections *)

(** What is written of a message: its section header and its bytes. *)
Definition image (t : SectionType) (bs : bytes) : bytes := section_bytes (mkSection (section_num t) (Z.of_nat (length bs))) ++ bs.

Lemma length_image t bs : length (image t bs) = (section_length + length bs)%nat.
Proof. unfold image. by rewrite length_app, length_section_bytes. Qed.

(** The position is behind [pre]; [rest] is what the file has from there. *)
Definition at_pos (pre rest : bytes) (f : File) : Prop := f_room f = None /\ f_bytes f = pre ++ rest /\ f_pos f = length pre.

Lemma fwrite_at pre rest bs f : at_pos pre rest f ->
  exists f', fwrite bs f = (Z.of_nat (length bs), f') /\ at_pos (pre ++ bs) (drop (length bs) rest) f'.
Proof.
  intros (Hr & Hb & Hp). rewrite fwrite_all by done. eexists. split; [done|]. split; [done|]. cbn [f_bytes f_pos].
  rewrite Hb, Hp, put_bytes_next, length_app, <- app_assoc. done.
Qed.

Section writing.
Context `{!Wire Header, !Wire Channel, !Wire ChunkHeader, !Wire ChunkBody, !Wire Index}.

Lemma WriteSection_at t bs pre rest w : t <> SECTION_HEADER -> at_pos pre rest (w_file w) ->
  exists f', WriteSection t bs w =
      (true, with_header (set_size (Z.of_nat (length (pre ++ image t bs))) (w_header w)) (with_file f' w)) /\
    at_pos (pre ++ image t bs) (drop (length (image t bs)) rest) f'.
Proof.
  intros Ht Hat. unfold WriteSection. replace (match t with SECTION_HEADER => lseek 0 (w_file w) | _ => w_file w end) with (w_file w) by by destruct t.
  destruct (fwrite_at pre rest (section_bytes (mkSection (section_num t) (Z.of_nat (length bs)))) _ Hat) as (f1 & E1 & H1).
  rewrite E1, length_section_bytes, Z.eqb_refl. cbn [negb]. destruct (fwrite_at _ _ bs f1 H1) as (f2 & E2 & H2). rewrite E2.
  assert (H3 : at_pos (pre ++ image t bs) (drop (length (image t bs)) rest) f2).
  { unfold image. rewrite app_assoc, length_app, <- drop_drop. done. }
  exists f2. split; [|done]. assert (Ep : CurrentPosition f2 = Z.of_nat (length (pre ++ image t bs))).
  { unfold CurrentPosition. by destruct H3 as (_ & _ & ->). }
  rewrite Ep. by destruct t.
Qed.

(** The place of the header. *)
Definition header_area (h : Header) : bytes := image SECTION_HEADER (ser h) ++ take (HEADER_LENGTH - length (ser h)) blank.

Lemma length_header_area h : (length (ser h) <= HEADER_LENGTH)%nat -> length (header_area h) = first_position.
Proof.
  intros Hl. unfold header_area, first_position. rewrite length_app, length_image, length_take.
  assert (E : length blank = HEADER_LENGTH) by (unfold blank; cbn [length]; by rewrite length_replicate). rewrite E. lia.
Qed.

Lemma WriteHeader_at h w rest : (length (ser h) <= HEADER_LENGTH)%nat -> f_room (w_file w) = None -> f_bytes (w_file w) = rest ->
  exists f', WriteHeader h w = (true, with_header (set_size (Z.of_nat first_position) h) (with_file f' (with_header h w))) /\
    at_pos (header_area h) (drop first_position rest) f'.
Proof.
  intros Hl Hr Hb. unfold WriteHeader, WriteSection. cbn [with_header w_file].
  assert (H0 : at_pos [] rest (lseek 0 (w_file w))) by done.
  destruct (fwrite_at [] rest (section_bytes (mkSection (section_num SECTION_HEADER) (Z.of_nat (length (ser h))))) _ H0) as (f1 & E1 & H1).
  rewrite E1, length_section_bytes, Z.eqb_refl. cbn [negb]. destruct (fwrite_at _ _ (ser h) f1 H1) as (f2 & E2 & H2). rewrite E2.
  destruct (fwrite_at _ _ (take (HEADER_LENGTH - length (ser h)) blank) f2 H2) as (f3 & E3 & H3). rewrite E3.
  assert (E : length (take (HEADER_LENGTH - length (ser h)) blank) = (HEADER_LENGTH - length (ser h))%nat).
  { rewrite length_take. unfold blank. cbn [length]. rewrite length_replicate. unfold HEADER_LENGTH. lia. }
  rewrite E, Z.eqb_refl, (proj2 (Nat.leb_le _ _) Hl). cbn [andb].
  assert (H4 : at_pos (header_area h) (drop first_position rest) f3).
  { destruct H3 as (A1 & A2 & A3). unfold header_area, image. cbn [app] in *. rewrite !drop_drop in A2. split; [done|]. split; [|done].
    rewrite A2. f_equal. f_equal. rewrite E, length_section_bytes. unfold first_position. lia. }
  exists f3. split; [|done]. destruct H4 as (_ & _ & Ep). unfold CurrentPosition. rewrite Ep, length_header_area by done. done.
Qed.

(** ** The contents of a file *)

Inductive item := IChannel (c : Channel) | IChunk (h : ChunkHeader) (b : ChunkBody).

Definition item_bytes (i : item) : bytes :=
  match i with
  | IChannel c => image SECTION_CHANNEL (ser c)
  | IChunk h b => image SECTION_CHUNK_HEADER (ser h) ++ image SECTION_CHUNK_BODY (ser b)
  end.
Definition items_bytes (l : list item) : bytes := mjoin (item_bytes <$> l).

(** The entries of the index, from the position of the first section. *)
Definition item_index (pos : nat) (i : item) : Index :=
  match i with
  | IChannel c => [mkSingleIndex SECTION_CHANNEL (wrap_u64 (Z.of_nat pos))
      (Some (channel_cache (mkChannelCache 0 (ch_name c) (ch_message_type c) (ch_proto_desc c))))]
  | IChunk h b => [mkSingleIndex SECTION_CHUNK_HEADER (wrap_u64 (Z.of_nat pos))
      (Some (chunk_header_cache (mkChunkHeaderCache (k_message_number h) (k_begin_time h) (k_end_time h) (k_raw_size h))));
     mkSingleIndex SECTION_CHUNK_BODY (wrap_u64 (Z.of_nat (pos + length (image SECTION_CHUNK_HEADER (ser h)))))
      (Some (chunk_body_cache (Z.of_nat (length b))))]
  end.
Fixpoint items_index (pos : nat) (l : list item) : Index :=
  match l with [] => [] | i :: l' => item_index pos i ++ items_index (pos + length (item_bytes i)) l' end.

(** The counts of the header. *)
Definition count_item (h : Header) (i : item) : Header :=
  match i with
  | IChannel c => set_channel_number (wrap_u64 (channel_number h + 1)) h
  | IChunk k b => set_chunks (wrap_u64 (chunk_number h + 1)) (if h_begin_time h =? 0 then k_begin_time k else h_begin_time h) (k_end_time k)
      (wrap_u64 (h_message_number h + k_message_number k)) h
  end.

Definition item_messages (i : item) : list SingleMessage := match i with IChannel _ => [] | IChunk _ b => b end.
Definition messages_of (l : list item) : list SingleMessage := mjoin (item_messages <$> l).

Lemma items_bytes_app l1 l2 : items_bytes (l1 ++ l2) = items_bytes l1 ++ items_bytes l2.
Proof. unfold items_bytes. by rewrite fmap_app, join_app. Qed.
Lemma items_bytes_one i : items_bytes [i] = item_bytes i.
Proof. unfold items_bytes. cbn. by rewrite app_nil_r. Qed.
Lemma messages_of_app l1 l2 : messages_of (l1 ++ l2) = messages_of l1 ++ messages_of l2.
Proof. unfold messages_of. by rewrite fmap_app, join_app. Qed.

Lemma messages_of_one i : messages_of [i] = item_messages i.
Proof. unfold messages_of. cbn. by rewrite app_nil_r. Qed.

Lemma items_index_app pos l1 l2 : items_index pos (l1 ++ l2) = items_index pos l1 ++ items_index (pos + length (items_bytes l1)) l2.
Proof.
  revert pos. induction l1 as [|i l1 IH]; intros pos; cbn [app items_index]; [by rewrite Nat.add_0_r|].
  rewrite IH, <- app_assoc. do 3 f_equal. change (items_bytes (i :: l1)) with (item_bytes i ++ items_bytes l1). rewrite length_app. lia.
Qed.

(** ** Chunks *)

Definition chunk_of (l : list SingleMessage) : Chunk := fold_left (fun c m => chunk_add m c) l chunk_clear.

Lemma chunk_of_snoc l m : chunk_of (l ++ [m]) = chunk_add m (chunk_of l).
Proof. unfold chunk_of. by rewrite fold_left_app. Qed.

Lemma chunk_of_body l : body_ (chunk_of l) = l.
Proof. induction l as [|m l IH] using rev_ind; [done|]. rewrite chunk_of_snoc. cbn. by rewrite IH. Qed.

Lemma chunk_of_number l : Z.of_nat (length l) < two64 -> k_message_number (header_ (chunk_of l)) = Z.of_nat (length l).
Proof.
  induction l as [|m l IH] using rev_ind; [done|]. rewrite length_app. cbn [length]. intros Hl. rewrite chunk_of_snoc. cbn. rewrite IH by lia.
  rewrite wrap_u64_small by lia. lia.
Qed.

Lemma chunk_of_empty l : Z.of_nat (length l) < two64 -> chunk_empty (chunk_of l) = bool_decide (l = []).
Proof.
  intros Hl. unfold chunk_empty. rewrite chunk_of_number by done. destruct l as [|m l]; [done|]. rewrite bool_decide_eq_false_2 by done.
  apply Z.eqb_neq. cbn [length]. lia.
Qed.

(** ** Sequences of writes *)

(** What the user does, and the turns of the thread in between. *)
Inductive wevent := EChannel (c : Channel) | EMessage (m : SingleMessage) | EFlush.

Definition run_event (w : RecordFileWriter) (e : wevent) : RecordFileWriter :=
  match e with
  | EChannel c => (WriteChannel c w).2
  | EMessage m => WriteMessage m w
  | EFlush => FlushStep w
  end.

(** The same in terms of the contents: what is in the file, what waits for the thread, and what is in the active chunk. *)
Record contents := mkContents { c_items : list item; c_flush : list SingleMessage; c_active : list SingleMessage; c_numbers : gmap string Z }.

Definition chunk_item (l : list SingleMessage) : item := IChunk (header_ (chunk_of l)) l.

Definition flush_contents (c : contents) : contents :=
  match c_flush c with [] => c | l => mkContents (c_items c ++ [chunk_item l]) [] (c_active c) (c_numbers c) end.

Definition step_contents (h0 : Header) (c : contents) (e : wevent) : contents :=
  match e with
  | EChannel ch => mkContents (c_items c ++ [IChannel ch]) (c_flush c) (c_active c) (c_numbers c)
  | EMessage m =>
      let active := c_active c ++ [m] in
      let numbers := count_message (sm_channel_name m) (c_numbers c) in
      if need_flush m h0 (chunk_of active) then mkContents (c_items c) active (c_flush c) numbers
      else mkContents (c_items c) (c_flush c) active numbers
  | EFlush => flush_contents c
  end.

Definition contents_after (h0 : Header) (evs : list wevent) : contents := fold_left (step_contents h0) evs (mkContents [] [] [] ∅).

Definition event_messages (e : wevent) : list SingleMessage := match e with EMessage m => [m] | _ => [] end.
Definition written (evs : list wevent) : list SingleMessage := mjoin (event_messages <$> evs).

Record file_inv (h0 : Header) (area rest : bytes) (c : contents) (w : RecordFileWriter) : Prop := {
  fi_at : at_pos (area ++ items_bytes (c_items c)) (drop (length (items_bytes (c_items c))) rest) (w_file w);
  fi_index : w_index w = items_index (length area) (c_items c);
  fi_header : w_header w = set_size (Z.of_nat (length (area ++ items_bytes (c_items c)))) (fold_left count_item (c_items c) h0);
  fi_writing : is_writing_ w = true;
  fi_active : chunk_active_ w = chunk_of (c_active c);
  fi_flush : chunk_flush_ w = chunk_of (c_flush c);
  fi_numbers : channel_message_number_map_ w = c_numbers c;
}.

Lemma count_items_settings l h : chunk_interval (fold_left count_item l h) = chunk_interval h /\ chunk_raw_size (fold_left count_item l h) = chunk_raw_size h.
Proof. revert h. induction l as [|i l IH]; intros h; [done|]. cbn [fold_left]. destruct (IH (count_item h i)) as [-> ->]. by destruct i. Qed.

Lemma need_flush_settings m h h' c : chunk_interval h = chunk_interval h' -> chunk_raw_size h = chunk_raw_size h' -> need_flush m h c = need_flush m h' c.
Proof. unfold need_flush. by intros -> ->. Qed.

Lemma count_item_size i v h : set_size v (count_item (set_size v h) i) = set_size v (count_item h i).
Proof. by destruct i. Qed.

(** The size is that of the position, whatever it was before. *)
Lemma set_size_twice v v' h : set_size v (set_size v' h) = set_size v h.
Proof. done. Qed.

Lemma at_pos_next area l bs rest f : at_pos ((area ++ items_bytes l) ++ bs) (drop (length bs) (drop (length (items_bytes l)) rest)) f ->
  forall i, bs = item_bytes i -> at_pos (area ++ items_bytes (l ++ [i])) (drop (length (items_bytes (l ++ [i]))) rest) f.
Proof. intros H i ->. rewrite items_bytes_app, items_bytes_one, length_app, <- drop_drop, app_assoc. done. Qed.

Lemma WriteChannel_inv h0 area rest c ch w : file_inv h0 area rest c w ->
  exists w', WriteChannel ch w = (true, w') /\ file_inv h0 area rest (step_contents h0 c (EChannel ch)) w'.
Proof.
  intros [H1 H2 H3 H4 H5 H6 H7]. unfold WriteChannel.
  destruct (WriteSection_at SECTION_CHANNEL (ser ch) _ _ w ltac:(done) H1) as (f' & E1 & Hf). rewrite E1. cbn [negb].
  eexists. split; [reflexivity|]. cbn [step_contents]. split; try done; cbn [with_index with_header with_file w_file w_index w_header c_items].
  - by apply (at_pos_next area _ _ rest f' Hf (IChannel ch)).
  - rewrite items_index_app, H2. f_equal. cbn [items_index item_index app]. unfold CurrentPosition. destruct H1 as (_ & _ & ->). by rewrite length_app.
  - rewrite fold_left_app, H3, items_bytes_app, items_bytes_one, app_assoc. done.
Qed.

Lemma WriteChunk_inv h0 area rest c l w : file_inv h0 area rest c w ->
  exists w', WriteChunk (header_ (chunk_of l)) l w = (true, w') /\
    file_inv h0 area rest (mkContents (c_items c ++ [chunk_item l]) (c_flush c) (c_active c) (c_numbers c)) w'.
Proof.
  intros [H1 H2 H3 H4 H5 H6 H7]. unfold WriteChunk. set (k := header_ (chunk_of l)).
  destruct (WriteSection_at SECTION_CHUNK_HEADER (ser k) _ _ w ltac:(done) H1) as (f1 & E1 & Hf1). rewrite E1. cbn [negb].
  set (w2 := with_index _ _). destruct (WriteSection_at SECTION_CHUNK_BODY (ser (l : ChunkBody)) _ _ w2 ltac:(done) Hf1) as (f2 & E2 & Hf2). rewrite E2. cbn [negb].
  eexists. split; [reflexivity|]. split; try done; cbn [w2 with_index with_header with_file w_file w_index w_header c_items].
  - rewrite <- app_assoc, drop_drop in Hf2. rewrite <- length_app in Hf2. by apply (at_pos_next area _ _ rest f2 Hf2 (chunk_item l)).
  - rewrite items_index_app, H2, <- app_assoc. f_equal. cbn [items_index item_index chunk_item app]. unfold CurrentPosition. destruct H1 as (_ & _ & ->).
    destruct Hf1 as (_ & _ & ->). by rewrite !length_app.
  - rewrite fold_left_app, H3, items_bytes_app, items_bytes_one. cbn [item_bytes chunk_item]. rewrite !app_assoc. done.
Qed.

Lemma FlushStep_inv h0 area rest c w : file_inv h0 area rest c w -> Z.of_nat (length (c_flush c)) < two64 ->
  file_inv h0 area rest (flush_contents c) (FlushStep w).
Proof.
  intros Hi Hl. unfold FlushStep, flush_contents. rewrite (fi_flush _ _ _ _ _ Hi), chunk_of_empty by done.
  destruct (c_flush c) as [|m l] eqn:Ef; [by rewrite bool_decide_eq_true_2|]. rewrite bool_decide_eq_false_2 by done.
  rewrite chunk_of_body. destruct (WriteChunk_inv h0 area rest c (m :: l) w Hi) as (w' & -> & [H1 H2 H3 H4 H5 H6 H7]). by split.
Qed.

Lemma run_event_inv h0 area rest c e w : file_inv h0 area rest c w -> Z.of_nat (length (c_flush c)) < two64 ->
  file_inv h0 area rest (step_contents h0 c e) (run_event w e).
Proof.
  intros Hi Hl. destruct e as [ch|m|]; cbn [run_event].
  - destruct (WriteChannel_inv h0 area rest c ch w Hi) as (w' & -> & H). done.
  - unfold WriteMessage. cbn [step_contents]. rewrite (fi_active _ _ _ _ _ Hi), <- chunk_of_snoc.
    assert (En : need_flush m (w_header w) (chunk_of (c_active c ++ [m])) = need_flush m h0 (chunk_of (c_active c ++ [m]))).
    { destruct (count_items_settings (c_items c) h0) as [S1 S2]. apply need_flush_settings; rewrite (fi_header _ _ _ _ _ Hi); done. }
    rewrite En. destruct Hi as [H1 H2 H3 H4 H5 H6 H7]. destruct (need_flush m h0 (chunk_of (c_active c ++ [m]))); split; try done; cbn; by rewrite H7.
  - by apply FlushStep_inv.
Qed.

(** *** Every message is somewhere, once *)

Lemma step_messages h0 c e :
  let c' := step_contents h0 c e in
  messages_of (c_items c') ++ c_flush c' ++ c_active c' ≡ₚ messages_of (c_items c) ++ c_flush c ++ c_active c ++ event_messages e.
Proof.
  destruct e as [ch|m|]; cbn [step_contents event_messages].
  - cbn [c_items c_flush c_active]. rewrite messages_of_app. cbn. by rewrite !app_nil_r.
  - destruct (need_flush _ _ _); cbn [c_items c_flush c_active]; [|done].
    apply Permutation_app_head. rewrite (Permutation_app_comm (c_active c ++ [m])). by rewrite app_assoc.
  - rewrite app_nil_r. unfold flush_contents. destruct (c_flush c) as [|m l] eqn:Ef; [by rewrite Ef|]. cbn [c_items c_flush c_active].
    by rewrite messages_of_app, messages_of_one, <- app_assoc.
Qed.

Lemma written_app l1 l2 : written (l1 ++ l2) = written l1 ++ written l2.
Proof. unfold written. by rewrite fmap_app, join_app. Qed.

Lemma contents_messages h0 evs :
  let c := contents_after h0 evs in messages_of (c_items c) ++ c_flush c ++ c_active c ≡ₚ written evs.
Proof.
  unfold contents_after. cbv zeta. induction evs as [|e evs IH] using rev_ind; [done|]. rewrite fold_left_app. cbn [fold_left].
  rewrite step_messages, written_app, <- IH, <- !app_assoc. cbn. by rewrite app_nil_r.
Qed.

Lemma flush_bound h0 evs : Z.of_nat (length (written evs)) < two64 -> Z.of_nat (length (c_flush (contents_after h0 evs))) < two64.
Proof.
  intros Hl. pose proof (Permutation_length (contents_messages h0 evs)) as H. rewrite !length_app in H. lia.
Qed.

Lemma run_events_inv h0 area rest evs w :
  file_inv h0 area rest (mkContents [] [] [] ∅) w -> Z.of_nat (length (written evs)) < two64 ->
  file_inv h0 area rest (contents_after h0 evs) (fold_left run_event evs w).
Proof.
  intros Hi. induction evs as [|e evs IH] using rev_ind; [done|]. rewrite written_app, length_app. intros Hl. unfold contents_after.
  rewrite !fold_left_app. cbn [fold_left]. apply run_event_inv; [apply IH; lia|]. apply flush_bound. lia.
Qed.

(** ** Closing *)

Definition swap_contents (c : contents) : contents := mkContents (c_items c) (c_active c) (c_flush c) (c_numbers c).
Definition close_contents (c : contents) : contents := flush_contents (swap_contents (flush_contents c)).

(** The index and the header of the file when it is closed. *)
Definition closed_index (c : contents) : Index := map (fill_cache (c_numbers c)) (items_index first_position (c_items c)).
Definition closed_header (h0 : Header) (c : contents) : Header :=
  let pos := (first_position + length (items_bytes (c_items c)))%nat in
  set_is_complete true (set_size (Z.of_nat (pos + length (image SECTION_INDEX (ser (closed_index c)))))
    (set_index_position (wrap_u64 (Z.of_nat pos)) (fold_left count_item (c_items c) h0))).

Lemma flush_contents_done c : c_flush (flush_contents c) = [].
Proof. unfold flush_contents. by destruct (c_flush c) eqn:E. Qed.

Lemma close_contents_messages c : messages_of (c_items (close_contents c)) = messages_of (c_items c) ++ c_flush c ++ c_active c.
Proof.
  assert (H : forall c, messages_of (c_items (flush_contents c)) = messages_of (c_items c) ++ c_flush c).
  { intros c'. unfold flush_contents. destruct (c_flush c') as [|m l] eqn:E; [by rewrite app_nil_r|].
    cbn [c_items]. by rewrite messages_of_app, messages_of_one. }
  unfold close_contents. rewrite H. cbn [swap_contents c_items c_flush]. rewrite H, <- app_assoc. do 2 f_equal.
  unfold flush_contents. by destruct (c_flush c).
Qed.

Lemma swap_inv h0 area rest c w : file_inv h0 area rest c w ->
  file_inv h0 area rest (swap_contents c) (with_chunks (chunk_flush_ w) (chunk_active_ w) w).
Proof. intros [H1 H2 H3 H4 H5 H6 H7]. by split. Qed.

(** A writer that was opened and used; the file when it is closed then. *)
Definition writer_after (h0 : Header) (old : bytes) (evs : list wevent) : RecordFileWriter :=
  fold_left run_event evs (WriteHeader h0 (OpenWriter old None)).2.
Definition recorded (h0 : Header) (old : bytes) (evs : list wevent) : bytes := f_bytes (w_file (Close (writer_after h0 old evs))).

Lemma WriteHeader_ok h0 old : (length (ser h0) <= HEADER_LENGTH)%nat -> (WriteHeader h0 (OpenWriter old None)).1 = true.
Proof. intros Hl. by destruct (WriteHeader_at h0 (OpenWriter old None) old Hl eq_refl eq_refl) as (f0 & -> & _). Qed.

Lemma writer_after_inv h0 old evs : (length (ser h0) <= HEADER_LENGTH)%nat -> Z.of_nat (length (written evs)) < two64 ->
  file_inv h0 (header_area h0) (drop first_position old) (contents_after h0 evs) (writer_after h0 old evs).
Proof.
  intros Hl0 Hn. destruct (WriteHeader_at h0 (OpenWriter old None) old Hl0 eq_refl eq_refl) as (f0 & E & Hf0). unfold writer_after. rewrite E. cbn [snd].
  apply run_events_inv; [|done]. set (w0 := with_header _ _).
  split; try done; cbn [c_items items_bytes]; change (items_bytes []) with (@nil byte); rewrite app_nil_r; [done|].
  change (w_header w0) with (set_size (Z.of_nat first_position) h0). by rewrite length_header_area.
Qed.

Lemma Close_bytes h0 old evs :
  let c := close_contents (contents_after h0 evs) in
  (length (ser h0) <= HEADER_LENGTH)%nat -> (length (ser (closed_header h0 c)) <= HEADER_LENGTH)%nat ->
  Z.of_nat (length (written evs)) < two64 ->
  exists rest, recorded h0 old evs = header_area (closed_header h0 c) ++ items_bytes (c_items c) ++ image SECTION_INDEX (ser (closed_index c)) ++ rest.
Proof.
  intros c Hl0 Hl1 Hn. unfold recorded. set (area := header_area h0). set (rest := drop first_position old).
  assert (Harea : length area = first_position) by by apply length_header_area.
  pose proof (writer_after_inv h0 old evs Hl0 Hn) as Hi. fold area rest in Hi. set (w := writer_after h0 old evs) in *.
  pose proof (contents_messages h0 evs) as Hp. cbv zeta in Hp. set (c0 := contents_after h0 evs) in *.
  assert (Hlen : Z.of_nat (length (c_flush c0)) < two64 /\ Z.of_nat (length (c_active c0)) < two64).
  { apply Permutation_length in Hp. rewrite !length_app in Hp. lia. }
  unfold Close. rewrite (fi_writing _ _ _ _ _ Hi). cbn [negb].
  pose proof (FlushStep_inv h0 area rest c0 w Hi (proj1 Hlen)) as Hi1. set (w1 := FlushStep w) in *.
  pose proof (swap_inv h0 area rest _ w1 Hi1) as Hi1'. set (w1' := with_chunks _ _ w1) in *.
  assert (Hl2 : Z.of_nat (length (c_flush (swap_contents (flush_contents c0)))) < two64).
  { cbn [swap_contents c_flush]. unfold flush_contents. destruct (c_flush c0); apply Hlen. }
  pose proof (FlushStep_inv h0 area rest _ w1' Hi1' Hl2) as Hi2. change (flush_contents _) with c in Hi2. set (w2 := FlushStep w1') in *.
  destruct Hi2 as [F1 F2 F3 F4 F5 F6 F7]. unfold WriteIndex. cbn [channel_message_number_map_ w_index w_file w_header].
  rewrite F7, F2, F3, Harea. fold (closed_index c). set (w3 := with_header _ _).
  destruct (WriteSection_at SECTION_INDEX (ser (closed_index c)) _ _ w3 ltac:(done) F1) as (f4 & -> & Hf4).
  cbn [w_header with_header with_file w3]. unfold CurrentPosition. destruct F1 as (_ & _ & Ep). rewrite Ep.
  destruct Hf4 as (G1 & G2 & G3). rewrite !length_app, Harea. set (hd := set_is_complete true _).
  assert (Eh : hd = closed_header h0 c).
  { unfold hd, closed_header. cbn. unfold set_is_complete, set_size, set_index_position. done. }
  rewrite Eh. set (w4 := with_header (set_size _ _) _).
  destruct (WriteHeader_at (closed_header h0 c) w4 _ Hl1 G1 G2) as (f5 & -> & (A1 & A2 & A3)). cbn [w_file with_header with_file]. rewrite A2.
  eexists. f_equal. rewrite <- !app_assoc, <- Harea, drop_app_length. done.
Qed.
End writing.

(** ** What a reader finds in the file of a writer

    A reader that stands at a section of a well formed file reads it, skips it, or stops there, as [next_body] says of the list of sections;
    [ReadMessage] then hands out the messages of the range.  From this: every message that was written is read back, once. *)

From stdpp Require Import sorting.
From S2P Require Import Prelude ShmMessage RecordProto RecordFile RecordReader.

(** ** Messages in the order of their times *)

Definition time_le (m1 m2 : SingleMessage) : Prop := sm_time m1 <= sm_time m2.
Abbreviation in_order := (StronglySorted time_le).
Definition timed (m : SingleMessage) : Prop := 0 < sm_time m.

Lemma filter_nothing (P : SingleMessage -> Prop) `{!forall x, Decision (P x)} l : Forall (fun x => ~ P x) l -> filter P l = [].
Proof. induction 1 as [|x l Hx Hl IH]; [done|]. by rewrite filter_cons, decide_False. Qed.

Section reading.
Context `{!Wire Header, !Wire Channel, !Wire ChunkHeader, !Wire ChunkBody, !Wire Index}.
Context `{!WireLaws Header header_ok, !WireLaws Channel channel_ok, !WireLaws ChunkHeader chunk_header_ok, !WireLaws ChunkBody body_ok,
  !WireLaws Index index_ok}.
Context (default_block : nat) (expect_at_end : bytes -> bool).

(** ** The sections of a file *)

Inductive rsection := SChannel (c : Channel) | SHeader (k : ChunkHeader) | SBody (b : ChunkBody).

Definition section_kind (s : rsection) : SectionType :=
  match s with SChannel _ => SECTION_CHANNEL | SHeader _ => SECTION_CHUNK_HEADER | SBody _ => SECTION_CHUNK_BODY end.
Definition section_ser (s : rsection) : bytes := match s with SChannel c => ser c | SHeader k => ser k | SBody b => ser b end.
Definition rsection_bytes (s : rsection) : bytes := image (section_kind s) (section_ser s).
Definition sections_bytes (l : list rsection) : bytes := mjoin (rsection_bytes <$> l).

Definition item_sections (i : item) : list rsection := match i with IChannel c => [SChannel c] | IChunk k b => [SHeader k; SBody b] end.
Definition sections_of (l : list item) : list rsection := mjoin (item_sections <$> l).

Definition section_messages (s : rsection) : list SingleMessage := match s with SBody b => b | _ => [] end.
Definition bodies (l : list rsection) : list SingleMessage := mjoin (section_messages <$> l).

(** The size of what is in a section: not zero, and as much as an [int] holds. *)
Definition sized (bs : bytes) : Prop := 0 < Z.of_nat (length bs) < 2 ^ 31.

Definition section_ok (s : rsection) : Prop :=
  sized (section_ser s) /\ match s with SChannel c => channel_ok c | SHeader k => chunk_header_ok k | SBody b => body_ok b end.

Lemma sections_bytes_cons s l : sections_bytes (s :: l) = rsection_bytes s ++ sections_bytes l.
Proof. done. Qed.
Lemma sections_of_cons i l : sections_of (i :: l) = item_sections i ++ sections_of l.
Proof. done. Qed.
Lemma bodies_cons s l : bodies (s :: l) = section_messages s ++ bodies l.
Proof. done. Qed.

Lemma sections_of_bytes l : sections_bytes (sections_of l) = items_bytes l.
Proof.
  induction l as [|i l IH]; [done|]. rewrite sections_of_cons. change (items_bytes (i :: l)) with (item_bytes i ++ items_bytes l). rewrite <- IH.
  destruct i as [c|k b]; cbn [item_sections app]; rewrite !sections_bytes_cons; [done|]. cbn [rsection_bytes item_bytes]. by rewrite app_assoc.
Qed.

Lemma bodies_of l : bodies (sections_of l) = messages_of l.
Proof.
  induction l as [|i l IH]; [done|]. rewrite sections_of_cons. change (messages_of (i :: l)) with (item_messages i ++ messages_of l). rewrite <- IH.
  by destruct i.
Qed.

(** ** Reading at a position *)

Lemma fread_at pre bs rest f : at_pos pre (bs ++ rest) f ->
  exists f', fread (length bs) f = (bs, f') /\ at_pos (pre ++ bs) rest f'.
Proof.
  intros (H1 & H2 & H3). unfold fread. rewrite H2, H3, drop_app_length, take_app_length. eexists. split; [done|].
  split; [done|]. cbn [lseek f_bytes f_pos]. by rewrite length_app, <- app_assoc.
Qed.

Lemma ReadSectionHeader_at t bs pre rest r : at_pos pre (image t bs ++ rest) (r_file r) -> Z.of_nat (length bs) < 2 ^ 63 ->
  exists f', ReadSectionHeader r = (Some (mkSection (section_num t) (Z.of_nat (length bs))), with_rfile f' r) /\
    at_pos (pre ++ section_bytes (mkSection (section_num t) (Z.of_nat (length bs)))) (bs ++ rest) f'.
Proof.
  intros Hat Hl. unfold image in Hat. set (h := section_bytes _) in *. assert (Eh : length h = section_length) by apply length_section_bytes.
  rewrite <- app_assoc in Hat. destruct (fread_at pre h (bs ++ rest) _ Hat) as (f' & E & H). rewrite Eh in E. exists f'. split; [|done].
  unfold ReadSectionHeader. rewrite E, Eh. cbn [section_length Nat.eqb negb]. unfold h. by rewrite section_of_bytes_of by lia.
Qed.

Lemma ReadSection_at {A} (ok : A -> Prop) `{!Wire A, !WireLaws A ok} m pre rest r : ok m -> sized (ser m) -> at_pos pre (ser m ++ rest) (r_file r) ->
  exists f', ReadSection default_block expect_at_end (Z.of_nat (length (ser m))) r = (Some m, with_rfile f' r) /\ at_pos (pre ++ ser m) rest f'.
Proof.
  intros Hok [Hs1 Hs2] Hat. unfold ReadSection. rewrite (proj2 (Z.ltb_ge _ (- _))), (proj2 (Z.ltb_ge (_ - 1) _)), (proj2 (Z.ltb_ge _ 0)) by lia.
  cbn [orb]. rewrite Nat2Z.id, (proj2 (Nat.eqb_neq (length (ser m)) 0)) by lia. destruct (fread_at pre (ser m) rest _ Hat) as (f' & -> & H).
  exists f'. split; [|done]. by rewrite firstn_all, (parse_ser m Hok), Nat.eqb_refl.
Qed.

(** Of nothing, or behind it, only the position is left open. *)
Lemma ReadSection_any {A} (ok : A -> Prop) `{!Wire A, !WireLaws A ok} m pre rest r : ok m -> Z.of_nat (length (ser m)) < 2 ^ 31 ->
  at_pos pre (ser m ++ rest) (r_file r) ->
  exists pos, ReadSection default_block expect_at_end (Z.of_nat (length (ser m))) r = (Some m, with_rfile (lseek pos (r_file r)) r).
Proof.
  intros Hok Hs Hat. destruct (decide (length (ser m) = O)) as [E0|E0].
  - unfold ReadSection. rewrite E0. change (Z.of_nat 0) with 0. change (0 <? - 2 ^ 31) with false. change (2 ^ 31 - 1 <? 0) with false. cbn [orb].
    change (0 <? 0) with false. change (Z.to_nat 0) with O. change ((0 =? 0)%nat) with true. unfold fread. set (bs := take default_block (drop (f_pos (r_file r)) (f_bytes (r_file r)))).
    assert (E : ser m = []) by by apply length_zero_iff_nil. 
    cbv zeta. replace (take 0 bs) with (ser m) by by rewrite E.
    rewrite (parse_ser m Hok), E. cbn [length Nat.eqb]. by eexists.
  - destruct (ReadSection_at ok m pre rest r Hok ltac:(split; lia) Hat) as (f' & -> & H). exists (f_pos f'). destruct f' as [b p m'], (r_file r) as [b0 p0 m0].
    destruct H as (A1 & A2 & A3), Hat as (B1 & B2 & B3). cbn in *. subst. by rewrite <- app_assoc.
Qed.

Lemma SkipSection_at bs pre rest r : at_pos pre (bs ++ rest) (r_file r) -> Z.of_nat (length (pre ++ bs ++ rest)) < 2 ^ 63 ->
  exists f', SkipSection (Z.of_nat (length bs)) r = (true, with_rfile f' r) /\ at_pos (pre ++ bs) rest f'.
Proof.
  intros (H1 & H2 & H3) Hl. rewrite !length_app in Hl. unfold SkipSection, CurrentPosition. rewrite H3, (proj2 (Z.ltb_ge _ _)) by lia. unfold SetPosition.
  rewrite (proj2 (Z.ltb_ge _ _)) by lia. replace (Z.to_nat (Z.of_nat (length pre) + Z.of_nat (length bs))) with (length (pre ++ bs)) by (rewrite length_app; lia).
  eexists. split; [done|]. split; [done|]. cbn [lseek f_bytes f_pos]. by rewrite H2, <- app_assoc.
Qed.

(** ** The next chunk *)

(** What the loop of [ReadNextChunk] does with the sections from where it stands: the body, and what is left. *)
Fixpoint next_body (skip : bool) (begin_time end_time : Z) (l : list rsection) : option ChunkBody * list rsection :=
  match l with
  | [] => (None, [])
  | SChannel _ :: l' => next_body skip begin_time end_time l'
  | SHeader k :: l' =>
      if end_time <? k_begin_time k then (None, l')
      else next_body (if k_end_time k <? begin_time then true else skip) begin_time end_time l'
  | SBody b :: l' => if skip then next_body false begin_time end_time l' else (Some b, l')
  end.

(** The file: sections, an index of the bytes [ibs], and whatever comes then. *)
Context (file ibs rest : bytes).
Hypothesis file_size : Z.of_nat (length file) < 2 ^ 63.

Definition tail_bytes : bytes := image SECTION_INDEX ibs ++ rest.

Definition stands (l : list rsection) (f : RecordFileReader) : Prop :=
  exists pre, file = pre ++ sections_bytes l ++ tail_bytes /\ at_pos pre (sections_bytes l ++ tail_bytes) (r_file f).

(** A reader before the sections [l], or one that has seen the index. *)
Definition reads (l : list rsection) (r : RecordReader) : Prop :=
  is_valid_ r = true /\ if reach_end_ r then l = [] else stands l (file_reader_ r).

Lemma stands_bound pre bs rest' : file = pre ++ bs ++ rest' -> Z.of_nat (length bs) < 2 ^ 63.
Proof. intros ->. rewrite !length_app in file_size. lia. Qed.

(** Between the header of the first section and what is in it. *)
Definition inside (s : rsection) (l : list rsection) (f : RecordFileReader) : Prop :=
  exists pre, file = pre ++ section_ser s ++ sections_bytes l ++ tail_bytes /\ at_pos pre (section_ser s ++ sections_bytes l ++ tail_bytes) (r_file f).

Lemma stands_header s l f : stands (s :: l) f ->
  exists f', ReadSectionHeader f = (Some (mkSection (section_num (section_kind s)) (Z.of_nat (length (section_ser s)))), f') /\ inside s l f'.
Proof.
  intros (pre & E & Hat). rewrite sections_bytes_cons, <- app_assoc in E, Hat. pose proof E as Eb. unfold rsection_bytes, image in Eb.
  rewrite <- (app_assoc (section_bytes _)), app_assoc in Eb.
  destruct (ReadSectionHeader_at (section_kind s) (section_ser s) pre _ f Hat) as (f' & E1 & H1); [by eapply stands_bound|].
  eexists. split; [done|]. by eexists.
Qed.

Lemma inside_read {A} (ok : A -> Prop) `{!Wire A, !WireLaws A ok} (m : A) s l f : inside s l f -> sized (section_ser s) -> section_ser s = ser m -> ok m ->
  exists f', ReadSection default_block expect_at_end (Z.of_nat (length (section_ser s))) f = (Some m, f') /\ stands l f'.
Proof.
  intros (pre & E & Hat) Hz Em Hok. rewrite Em in *. destruct (ReadSection_at ok m pre _ f Hok Hz Hat) as (f' & -> & H). eexists. split; [done|].
  exists (pre ++ ser m). by rewrite <- app_assoc.
Qed.

Lemma inside_skip s l f : inside s l f ->
  exists f', SkipSection (Z.of_nat (length (section_ser s))) f = (true, f') /\ stands l f'.
Proof.
  intros (pre & E & Hat). destruct (SkipSection_at (section_ser s) pre _ f Hat) as (f' & -> & H); [by rewrite <- E|]. eexists. split; [done|].
  exists (pre ++ section_ser s). by rewrite <- app_assoc.
Qed.

(** What is after the reading of a chunk. *)
Record next_result (r : RecordReader) (o : option ChunkBody) (l : list rsection) (r' : RecordReader) : Prop := {
  nr_reads : reads l r';
  nr_chunk : chunk_ r' = default (chunk_ r) o;
  nr_message : message_index_ r' = message_index_ r;
  nr_header : rr_header r' = rr_header r;
  nr_info : channel_info_ r' = channel_info_ r;
}.

Lemma next_result_from f r o l r' : next_result (with_freader f r) o l r' -> next_result r o l r'.
Proof. by intros [H1 H2 H3 H4 H5]. Qed.

Lemma read_next_end fuel skip b e r : (2 <= fuel)%nat -> reads [] r ->
  exists r', read_next default_block expect_at_end fuel skip b e r = Some (false, r') /\ next_result r None [] r'.
Proof.
  intros Hf [Hv Hr]. destruct fuel as [|[|fuel]]; [lia..|]. cbn [read_next]. destruct (reach_end_ r) eqn:Ee; [eexists; split; [done|]; split; [|done..]; unfold reads; by rewrite Ee|].
  destruct Hr as (pre & E & Hat). change (sections_bytes []) with (@nil byte) in *. cbn [app] in *. unfold tail_bytes in *.
  pose proof E as Eb. unfold image in Eb. rewrite <- (app_assoc (section_bytes _)), app_assoc in Eb.
  destruct (ReadSectionHeader_at SECTION_INDEX ibs pre rest _ Hat) as (f' & -> & H1); [by eapply stands_bound|]. cbn [s_type s_size].
  change (section_num SECTION_INDEX =? section_num SECTION_INDEX) with true. cbv iota beta.
  destruct (SkipSection _ _) as [ok f1]. cbn [reach_end_ with_end with_freader]. eexists. split; [done|]. by split.
Qed.

Lemma read_next_spec l : Forall section_ok l -> forall fuel skip b e r, (length l + 2 <= fuel)%nat -> reads l r ->
  exists r', read_next default_block expect_at_end fuel skip b e r = Some (bool_decide (is_Some (next_body skip b e l).1), r') /\
    next_result r (next_body skip b e l).1 (next_body skip b e l).2 r'.
Proof.
  induction 1 as [|s l Hs Hl IH]; intros fuel skip b e r Hf Hr; [by apply read_next_end|].
  destruct fuel as [|fuel]; [lia|]. cbn [length] in Hf. destruct Hr as [Hv Hr]. cbn [read_next]. destruct (reach_end_ r) eqn:Ee; [done|].
  assert (Hread : forall f, stands l f -> reads l (with_freader f r)) by (intros f Hst; split; [done|]; cbn; by rewrite Ee).
  destruct Hs as [Hz Hok].
  destruct (stands_header _ _ _ Hr) as (f & -> & Hin). cbn [s_type s_size].
  destruct s as [c|k|x]; cbn [next_body section_kind section_num Z.eqb Pos.eqb].
  - destruct (inside_read channel_ok c _ _ _ Hin Hz eq_refl Hok) as (f1 & -> & Hst).
    destruct (IH fuel skip b e _ ltac:(lia) (Hread _ Hst)) as (r' & E & H). eauto using next_result_from.
  - destruct (inside_read chunk_header_ok k _ _ _ Hin Hz eq_refl Hok) as (f1 & -> & Hst). destruct (e <? k_begin_time k).
    + eexists. split; [done|]. split; try done. by apply Hread.
    + destruct (IH fuel (if k_end_time k <? b then true else skip) b e _ ltac:(lia) (Hread _ Hst)) as (r' & E & H). eauto using next_result_from.
  - destruct skip.
    + destruct (inside_skip _ _ _ Hin) as (f1 & -> & Hst). destruct (IH fuel false b e _ ltac:(lia) (Hread _ Hst)) as (r' & E & H).
      eauto using next_result_from.
    + destruct (inside_read body_ok x _ _ _ Hin Hz eq_refl Hok) as (f1 & -> & Hst). eexists. split; [done|]. split; try done.
      destruct (Hread _ Hst) as [? ?]. by split.
Qed.

(** ** Messages in a range *)

Definition before_time (b : Z) (m : SingleMessage) : Prop := sm_time m < b.
Definition in_range (b e : Z) (m : SingleMessage) : Prop := b <= sm_time m <= e.
#[export] Instance in_range_dec b e m : Decision (in_range b e m).
Proof. unfold in_range. apply _. Defined.

(** A reader stops before a message behind the range, or at the end. *)
Definition stopped (e : Z) (l : list SingleMessage) : Prop := match l with [] => True | m :: _ => e < sm_time m end.

Lemma scan_chunk_spec b e l i :
  exists sk, Forall (before_time b) sk /\
    match scan_chunk b e l i with
    | Found m j => exists l', l = sk ++ m :: l' /\ j = (i + S (length sk))%nat /\ in_range b e m
    | Beyond j => exists l', l = sk ++ l' /\ j = (i + length sk)%nat /\ l' <> [] /\ stopped e l'
    | Finished j => l = sk /\ j = (i + length sk)%nat
    end.
Proof.
  revert i. induction l as [|m l IH]; intros i; cbn [scan_chunk]; [exists []; by rewrite Nat.add_0_r|].
  destruct (Z.ltb_spec e (sm_time m)) as [H1|H1]; [exists []; split; [done|]; exists (m :: l); by rewrite Nat.add_0_r|].
  destruct (Z.ltb_spec (sm_time m) b) as [H2|H2].
  - destruct (IH (S i)) as (sk & Hsk & H). exists (m :: sk). split; [by constructor|].
    destruct (scan_chunk b e l (S i)) as [m' j|j|j]; [destruct H as (l' & -> & -> & H); exists l'|destruct H as (l' & -> & -> & H); exists l'|destruct H as [-> ->]];
      cbn [length app]; (split; [done|]); [split; [lia|done]..|lia].
  - exists []. split; [done|]. exists l. split; [done|]. split; [cbn; lia|]. by split.
Qed.

(** Chunks whose header does not keep back what is in the range. *)
Definition item_fits (b e : Z) (i : item) : Prop :=
  match i with
  | IChannel _ => True
  | IChunk k x => (k_end_time k < b -> Forall (before_time b) x) /\ (e < k_begin_time k -> x <> [] /\ stopped e x)
  end.

(** Sections from the start of an item, or from the body of a chunk. *)
Definition sections_from (x : option ChunkBody) (l : list item) : list rsection := match x with Some x => SBody x :: sections_of l | None => sections_of l end.
Definition chunked (P : item -> Prop) (l : list rsection) : Prop := exists x its, l = sections_from x its /\ Forall P its.

Lemma chunked_items P l : Forall P l -> chunked P (sections_of l).
Proof. intros H. by exists None, l. Qed.

Lemma next_body_items P b e its : (forall i, P i -> item_fits b e i) -> Forall P its ->
  let '(o, l') := next_body false b e (sections_of its) in
  chunked P l' /\ (length l' + from_option (fun _ => 1) 0 o <= length (sections_of its))%nat /\
  exists sk, Forall (before_time b) sk /\ bodies (sections_of its) = sk ++ default [] o ++ bodies l' /\ (o = None -> stopped e (bodies l')).
Proof.
  intros HP. induction 1 as [|i its Hi Hl IH]; [by split; [exists None, []|split; [done|by exists []]]|].
  rewrite sections_of_cons. destruct i as [c|k x]; cbn [item_sections app next_body].
  { destruct (next_body _ _ _ _) as [o l']. destruct IH as (H1 & H2 & H). cbn [length]. repeat split; [done|lia|done]. }
  destruct (HP _ Hi) as [Hend Hbegin]. destruct (Z.ltb_spec e (k_begin_time k)) as [H1|H1].
  { split; [by exists (Some x), its|]. split; [cbn; lia|]. exists []. split; [done|]. split; [done|]. intros _. destruct (Hbegin H1) as [Hx Hs].
    rewrite bodies_cons. by destruct x. }
  destruct (Z.ltb_spec (k_end_time k) b) as [H2|H2]; cbn [next_body].
  - destruct (next_body _ _ _ _) as [o l']. destruct IH as (A1 & A2 & sk & B1 & B2 & B3). split; [done|]. split; [cbn [length]; lia|].
    exists (x ++ sk). split; [by apply Forall_app_2; [apply Hend|]|]. split; [|done]. rewrite !bodies_cons, B2. cbn. by rewrite <- app_assoc.
  - split; [by apply chunked_items|]. split; [cbn; lia|]. exists []. by split.
Qed.

Lemma next_body_chunked P b e l : (forall i, P i -> item_fits b e i) -> chunked P l ->
  let '(o, l') := next_body false b e l in
  chunked P l' /\ (length l' + from_option (fun _ => 1) 0 o <= length l)%nat /\
  exists sk, Forall (before_time b) sk /\ bodies l = sk ++ default [] o ++ bodies l' /\ (o = None -> stopped e (bodies l')).
Proof.
  intros HP (x & its & -> & Hits). destruct x as [x|]; [|by apply next_body_items]. cbn [sections_from next_body].
  split; [by apply chunked_items|]. split; [cbn; lia|]. exists []. by split.
Qed.

Lemma next_body_ok skip b e l : Forall section_ok l -> Forall section_ok (next_body skip b e l).2.
Proof.
  intros H. revert skip. induction H as [|s l Hs Hl IH]; intros skip; [done|]. destruct s; cbn [next_body]; [apply IH| |by destruct skip].
  destruct (_ <? _); [done|apply IH].
Qed.

(** A reader with [cur] left of its chunk, before the sections [l]. *)
Record before (P : item -> Prop) (cur : list SingleMessage) (l : list rsection) (r : RecordReader) : Prop := {
  bf_reads : reads l r;
  bf_cur : drop (message_index_ r) (chunk_ r) = cur;
  bf_chunked : chunked P l;
  bf_ok : Forall section_ok l;
}.

(** The message that is returned is the next in the range; those before it are before the range. *)
Definition read_result (b e : Z) (out_of_file : Prop) (l l' : list SingleMessage) (res : option SingleMessage) : Prop :=
  exists sk, Forall (before_time b) sk /\
    match res with
    | Some m => l = sk ++ m :: l' /\ in_range b e m
    | None => l = sk ++ l' /\ (stopped e l' \/ out_of_file)
    end.

Lemma read_result_skip b e O sk l l' res : Forall (before_time b) sk -> read_result b e O l l' res -> read_result b e O (sk ++ l) l' res.
Proof.
  intros Hsk (sk' & Hsk' & H). exists (sk ++ sk'). split; [by apply Forall_app_2|]. destruct res; destruct H as [-> ?]; by rewrite <- app_assoc.
Qed.

Definition out_of_file (b e : Z) (h : Header) : Prop := h_end_time h < b \/ e < h_begin_time h.

Lemma ReadMessage_spec P b e : (forall i, P i -> item_fits b e i) -> forall n fuel cur l r, (length l <= n)%nat -> (n + 3 <= fuel)%nat ->
  before P cur l r ->
  exists res r' cur' l', ReadMessage default_block expect_at_end fuel b e r = Some (res, r') /\ before P cur' l' r' /\ (length l' <= length l)%nat /\
    rr_header r' = rr_header r /\ channel_info_ r' = channel_info_ r /\
    read_result b e (out_of_file b e (rr_header r)) (cur ++ bodies l) (cur' ++ bodies l') res.
Proof.
  intros HP. induction n as [n IH] using lt_wf_ind. intros fuel cur l r Hn Hf [Hr Hc Hk Hok]. pose proof Hr as [Hv _].
  destruct fuel as [|fuel]; [lia|]. cbn [ReadMessage]. rewrite Hv. cbn [negb].
  destruct ((h_end_time (rr_header r) <? b) || (e <? h_begin_time (rr_header r))) eqn:Eo.
  { exists None, r, cur, l. repeat split; try done; [apply Hr|]. exists []. split; [done|]. split; [done|]. right.
    apply orb_true_iff in Eo as [E%Z.ltb_lt|E%Z.ltb_lt]; [by left|by right]. }
  rewrite Hc. assert (Hdrop : forall k, drop (message_index_ r + k) (chunk_ r) = drop k cur) by (intros k; by rewrite <- drop_drop, Hc).
  destruct (scan_chunk_spec b e cur (message_index_ r)) as (sk & Hsk & Hs). destruct (scan_chunk _ _ _ _) as [m j|j|j].
  - destruct Hs as (cur' & -> & -> & Hm). exists (Some m), (with_message (message_index_ r + S (length sk)) r), cur', l.
    split; [done|]. split; [split; try done|].
    + cbn [with_message message_index_ chunk_]. rewrite Hdrop. change (m :: cur') with ([m] ++ cur'). rewrite app_assoc. apply drop_app_length'.
      rewrite length_app. cbn. lia.
    + do 3 (split; [done|]). exists sk. split; [done|]. by rewrite <- app_assoc.
  - destruct Hs as (cur' & -> & -> & Hne & Hm). exists None, (with_message (message_index_ r + length sk) r), cur', l.
    split; [done|]. split; [split; try done|].
    + cbn [with_message message_index_ chunk_]. by rewrite Hdrop, drop_app_length.
    + do 3 (split; [done|]). exists sk. split; [done|]. rewrite <- app_assoc. split; [done|]. left. by destruct cur'.
  - destruct Hs as [-> ->]. unfold ReadNextChunk. set (r0 := with_message _ r).
    destruct (read_next_spec l Hok (S fuel) false b e r0 ltac:(lia) Hr) as (r1 & -> & [N1 N2 N3 N4 N5]).
    pose proof (next_body_chunked P b e l HP Hk) as Hnext. pose proof (next_body_ok false b e l Hok) as Hok'.
    destruct (next_body false b e l) as [o l']. cbn [fst snd] in *. destruct Hnext as (K1 & K2 & sk' & B1 & B2 & B3). cbn [mbind option_bind].
    destruct o as [x|]; cbn [from_option default] in *.
    + rewrite bool_decide_eq_true_2 by done. change (Datatypes.id x) with x in *.
      destruct (IH (length l') ltac:(lia) fuel x l' (with_message 0 r1) ltac:(lia) ltac:(lia)) as (res & r' & cur' & l'' & E & F1 & F2 & F3 & F4 & F5).
      { split; try done. }
      exists res, r', cur', l''. split; [done|]. split; [done|]. split; [lia|]. cbn [with_message rr_header channel_info_] in F3, F4.
      split; [by rewrite F3, N4|]. split; [by rewrite F4, N5|]. rewrite B2. apply read_result_skip; [done|]. apply read_result_skip; [done|].
      cbn [with_message rr_header] in F5. by rewrite N4 in F5.
    + rewrite bool_decide_eq_false_2 by by intros [? ?]. exists None, r1, [], l'. split; [done|]. split; [split; try done|].
      * rewrite N2, N3. cbn [r0 with_message chunk_ message_index_]. by rewrite Hdrop, drop_all.
      * split; [lia|]. split; [done|]. split; [done|]. rewrite B2. apply read_result_skip; [done|]. exists sk'. split; [done|]. split; [done|].
        left. by apply B3.
Qed.
End reading.
