(* ===== verification/RecordRoundtrip.v ===== *)
(** * RecordRoundtrip: what is written to a record file is read back

    For every sequence of channels, messages and turns of the flushing thread, and for any older file in its place: a reader opens the file
    that is left, finds its header and index, and reads every message once; in the order of the writes when the thread keeps up. *)

From stdpp Require Import sorting.
From S2P Require Import Prelude ShmMessage RecordProto RecordFile RecordReader RecordReading.

Section roundtrip.
Context `{!Wire Header, !Wire Channel, !Wire ChunkHeader, !Wire ChunkBody, !Wire Index}.
Context `{!WireLaws Header header_ok, !WireLaws Channel channel_ok, !WireLaws ChunkHeader chunk_header_ok, !WireLaws ChunkBody body_ok,
  !WireLaws Index index_ok}.
Context (default_block : nat) (expect_at_end : bytes -> bool).

(** ** The integers of what is written *)

Lemma chunk_of_ok l : Forall message_ok l -> chunk_header_ok (header_ (chunk_of l)).
Proof.
  induction l as [|m l IH] using rev_ind; [intros _; unfold chunk_header_ok, is_u64; cbn; unfold two64; lia|].
  intros [Hl Hm]%Forall_app. apply Forall_inv in Hm. destruct (IH Hl) as (H1 & H2 & H3 & H4). rewrite chunk_of_snoc.
  unfold chunk_add, chunk_header_ok. cbn [header_ k_begin_time k_end_time k_message_number k_raw_size].
  split; [repeat case_match; done|]. split; [by case_match|]. split; apply wrap_u64_range.
Qed.

(** A chunk of the file has the header of its messages, and at least one. *)
Definition made_item (i : item) : Prop := match i with IChannel _ => True | IChunk k x => k = header_ (chunk_of x) /\ x <> [] end.

Lemma flush_items_made c : Forall made_item (c_items c) -> Forall made_item (c_items (flush_contents c)).
Proof. unfold flush_contents. destruct (c_flush c) as [|m l] eqn:E; [done|]. intros H. cbn [c_items]. apply Forall_app_2; [done|]. by repeat constructor. Qed.

Lemma step_items_made h0 c e : Forall made_item (c_items c) -> Forall made_item (c_items (step_contents h0 c e)).
Proof.
  intros H. destruct e as [ch|m|]; cbn [step_contents].
  - apply Forall_app_2; [done|]. by repeat constructor.
  - by destruct (need_flush _ _ _).
  - by apply flush_items_made.
Qed.

Lemma contents_items_made h0 evs : Forall made_item (c_items (contents_after h0 evs)).
Proof.
  unfold contents_after. induction evs as [|e evs IH] using rev_ind; [constructor|]. rewrite fold_left_app. by apply step_items_made.
Qed.

Lemma close_items_made c : Forall made_item (c_items c) -> Forall made_item (c_items (close_contents c)).
Proof. intros H. apply flush_items_made. cbn [swap_contents c_items]. by apply flush_items_made. Qed.

(** The counts of the channels stay in their width. *)
Lemma count_message_range n (m : gmap string Z) : map_Forall (fun _ => is_u64) m -> map_Forall (fun _ => is_u64) (count_message n m).
Proof.
  intros H. unfold count_message. destruct (m !! n) as [x|]; apply map_Forall_insert_2; try done.
  apply wrap_u64_range.
Qed.

Lemma contents_numbers h0 evs : map_Forall (fun _ => is_u64) (c_numbers (contents_after h0 evs)).
Proof.
  unfold contents_after. induction evs as [|e evs IH] using rev_ind; [apply map_Forall_empty|]. rewrite fold_left_app. cbn [fold_left].
  set (c := fold_left _ _ _) in *. destruct e as [ch|m|]; cbn [step_contents]; [done| |by unfold flush_contents; destruct (c_flush c)].
  destruct (need_flush _ _ _); by apply count_message_range.
Qed.

Lemma close_numbers c : c_numbers (close_contents c) = c_numbers c.
Proof.
  assert (H : forall c, c_numbers (flush_contents c) = c_numbers c) by (intros c'; unfold flush_contents; by destruct (c_flush c')).
  unfold close_contents. rewrite H. cbn [swap_contents c_numbers]. apply H.
Qed.

(** Where the file was closed. *)
Definition closed (h0 : Header) (evs : list wevent) : contents := close_contents (contents_after h0 evs).

Lemma closed_messages h0 evs : messages_of (c_items (closed h0 evs)) ≡ₚ written evs.
Proof. unfold closed. rewrite close_contents_messages. apply contents_messages. Qed.

Lemma closed_made h0 evs : Forall made_item (c_items (closed h0 evs)).
Proof. apply close_items_made, contents_items_made. Qed.

(** What protobuf and the formats of the sections ask: the header fits in its place, and every section in its size. *)
Record fits (h0 : Header) (old : bytes) (evs : list wevent) : Prop := {
  ft_header : header_ok h0;
  ft_messages : Forall message_ok (written evs);
  ft_number : Z.of_nat (length (written evs)) < two64;
  ft_area : (length (ser h0) <= HEADER_LENGTH)%nat;
  ft_closed_area : (0 < length (ser (closed_header h0 (closed h0 evs))) <= HEADER_LENGTH)%nat;
  ft_sections : Forall (fun s => sized (section_ser s)) (sections_of (c_items (closed h0 evs)));
  ft_index : Z.of_nat (length (ser (closed_index (closed h0 evs)))) < 2 ^ 31;
  ft_file : Z.of_nat (length (recorded h0 old evs)) < 2 ^ 63;
}.

Lemma item_messages_all (P : SingleMessage -> Prop) l i : Forall P (messages_of l) -> i ∈ l -> Forall P (item_messages i).
Proof.
  intros H Hi. apply list_elem_of_split in Hi as (l1 & l2 & ->). change (i :: l2) with ([i] ++ l2) in H. rewrite !messages_of_app, messages_of_one in H.
  by apply Forall_app in H as [_ [H _]%Forall_app].
Qed.

Lemma closed_sections_ok h0 old evs : fits h0 old evs -> Forall section_ok (sections_of (c_items (closed h0 evs))).
Proof.
  intros Hf. pose proof (ft_sections _ _ _ Hf) as Hs. pose proof (closed_made h0 evs) as Hm. set (l := c_items (closed h0 evs)) in *.
  assert (Hok : Forall message_ok (messages_of l)) by (unfold l; rewrite closed_messages; apply Hf). clearbody l. clear Hf.
  induction Hm as [|i l Hi Hm IH]; [constructor|]. change (messages_of (i :: l)) with (item_messages i ++ messages_of l) in Hok.
  apply Forall_app in Hok as [Hx Hok]. rewrite sections_of_cons in Hs |- *. apply Forall_app in Hs as [Hs1 Hs2]. apply Forall_app_2; [|by apply IH].
  destruct i as [c|k x]; cbn [item_sections] in *.
  { apply Forall_singleton. apply Forall_inv in Hs1. by split. }
  destruct Hi as [-> _]. apply Forall_cons in Hs1 as [Hs1 Hs3]. apply Forall_inv in Hs3. constructor; [split; [done|by apply chunk_of_ok]|].
  constructor; [by split|constructor].
Qed.

Lemma count_item_ok h i : made_item i -> Forall message_ok (item_messages i) -> header_ok h -> header_ok (count_item h i).
Proof.
  intros Hi Hm [H1 H2 H3 H4 H5 H6 H7 H8 H9 H10 H11 H12 H13]. destruct i as [c|k x]; cbn [count_item].
  - split; try done. apply wrap_u64_range.
  - destruct Hi as [-> _]. destruct (chunk_of_ok x Hm) as (K1 & K2 & _ & _). split; try done; cbn; try apply wrap_u64_range. by case_match.
Qed.

Lemma count_items_ok l h : Forall made_item l -> Forall message_ok (messages_of l) -> header_ok h -> header_ok (fold_left count_item l h).
Proof.
  intros Hl. revert h. induction Hl as [|i l Hi Hl IH]; intros h Hm Hh; [done|]. change (messages_of (i :: l)) with (item_messages i ++ messages_of l) in Hm.
  apply Forall_app in Hm as [Hm1 Hm2]. cbn [fold_left]. apply IH; [done|]. by apply count_item_ok.
Qed.

Lemma item_index_ok pos i : made_item i -> Forall message_ok (item_messages i) -> Z.of_nat (length (item_messages i)) < two64 -> index_ok (item_index pos i).
Proof.
  intros Hi Hm Hn. assert (H0 : is_u64 0) by (unfold is_u64, two64; lia). destruct i as [c|k x]; cbn [item_index].
  - constructor; [|constructor]. split; [apply wrap_u64_range|]. intros ? [= <-]. done.
  - destruct Hi as [-> _]. destruct (chunk_of_ok x Hm) as (K1 & K2 & K3 & K4).
    constructor; [|constructor; [|constructor]]; (split; [apply wrap_u64_range|]); intros ? [= <-]; [done|]. cbn in *. unfold is_u64. lia.
Qed.

Lemma items_index_ok l : Forall made_item l -> Forall message_ok (messages_of l) -> Z.of_nat (length (messages_of l)) < two64 ->
  forall pos, index_ok (items_index pos l).
Proof.
  induction 1 as [|i l Hi Hl IH]; intros Hm Hn pos; [constructor|]. change (messages_of (i :: l)) with (item_messages i ++ messages_of l) in *.
  rewrite length_app in Hn. apply Forall_app in Hm as [Hm1 Hm2]. cbn [items_index]. apply Forall_app_2; [apply item_index_ok|apply IH]; try done; lia.
Qed.

Lemma fill_cache_ok m l : map_Forall (fun _ => is_u64) m -> index_ok l -> index_ok (map (fill_cache m) l).
Proof.
  intros Hm. induction 1 as [|i l [Hi Hc] Hl IH]; constructor; [|done]. unfold fill_cache. destruct i as [t p o]. cbn [si_type si_cache] in *.
  destruct t; try done. destruct o as [[c|c|n]|]; try done. destruct (m !! cc_name c) as [x|] eqn:E; [|done]. split; [done|]. intros ? [= <-].
  by apply (Hm _ _ E).
Qed.

Section closed.
Context (h0 : Header) (old : bytes) (evs : list wevent) (Hfits : fits h0 old evs).

Lemma closed_messages_ok : Forall message_ok (messages_of (c_items (closed h0 evs))).
Proof. rewrite closed_messages. apply Hfits. Qed.

Lemma closed_index_ok : index_ok (closed_index (closed h0 evs)).
Proof.
  apply fill_cache_ok; [unfold closed; rewrite close_numbers; apply contents_numbers|]. apply items_index_ok; [apply closed_made|apply closed_messages_ok|].
  rewrite (Permutation_length (closed_messages h0 evs)). apply Hfits.
Qed.

Lemma recorded_bytes : exists rest,
  recorded h0 old evs = header_area (closed_header h0 (closed h0 evs)) ++ sections_bytes (sections_of (c_items (closed h0 evs))) ++
    image SECTION_INDEX (ser (closed_index (closed h0 evs))) ++ rest.
Proof.
  destruct (Close_bytes h0 old evs) as (rest & ->); [apply Hfits..|]. exists rest. by rewrite sections_of_bytes.
Qed.

Lemma closed_header_ok : header_ok (closed_header h0 (closed h0 evs)).
Proof.
  pose proof (count_items_ok _ h0 (closed_made h0 evs) closed_messages_ok (ft_header _ _ _ Hfits)) as H.
  destruct recorded_bytes as (rest & E). apply (f_equal length) in E. pose proof (ft_file _ _ _ Hfits) as Hl. rewrite E in Hl.
  rewrite !length_app, sections_of_bytes, length_header_area in Hl by apply (ft_closed_area _ _ _ Hfits).
  unfold closed_header. set (h := fold_left _ _ _) in *. destruct H as [H1 H2 H3 H4 H5 H6 H7 H8 H9 H10 H11 H12 H13].
  split; try done; [apply wrap_u64_range|]. cbn [set_is_complete set_size h_size]. unfold is_u64. change two64 with (2 * 2 ^ 63). lia.
Qed.

(** ** Opening *)

Lemma at_pos_lseek pre rest f pos : at_pos pre rest f -> lseek pos f = mkFile (pre ++ rest) pos None.
Proof. destruct f as [b p r]. intros (E1 & E2 & _). cbn in E1, E2. by subst. Qed.

Lemma ReadHeader_closed : exists f,
  OpenReader default_block expect_at_end (recorded h0 old evs) = (true, mkFileReader f (closed_header h0 (closed h0 evs)) [] false) /\
  f = mkFile (recorded h0 old evs) first_position None.
Proof.
  destruct recorded_bytes as (rest & E). set (h := closed_header _ _) in *. set (tl := sections_bytes _ ++ _) in E. unfold header_area in E.
  rewrite <- app_assoc in E. set (tl2 := take _ blank ++ tl) in E. destruct (ft_closed_area _ _ _ Hfits) as [Hz1 Hz2]. fold h in Hz1, Hz2.
  assert (Hsz : sized (ser h)) by (unfold sized, HEADER_LENGTH in *; lia).
  unfold OpenReader, ReadHeader. set (r := mkFileReader _ _ _ _).
  assert (Hat : at_pos [] (image SECTION_HEADER (ser h) ++ tl2) (r_file r)) by (split; [done|split; [apply E|done]]).
  destruct (ReadSectionHeader_at SECTION_HEADER (ser h) [] _ r Hat ltac:(unfold sized in Hsz; lia)) as (f1 & -> & H1). cbn [s_type s_size].
  rewrite Z.eqb_refl. cbn [negb].
  destruct (ReadSection_at default_block expect_at_end header_ok h _ tl2 (with_rfile f1 r) closed_header_ok Hsz H1) as (f2 & -> & H2).
  eexists. split; [reflexivity|]. change (r_file (with_rfile f2 (with_rfile f1 r))) with f2. rewrite (at_pos_lseek _ _ _ _ H2), E. f_equal.
Qed.

Lemma closed_index_position : exists rest pre,
  recorded h0 old evs = pre ++ image SECTION_INDEX (ser (closed_index (closed h0 evs))) ++ rest /\
  signed 64 (index_position (closed_header h0 (closed h0 evs))) = Z.of_nat (length pre).
Proof.
  destruct recorded_bytes as (rest & E). pose proof (ft_file _ _ _ Hfits) as Hl. exists rest.
  exists (header_area (closed_header h0 (closed h0 evs)) ++ sections_bytes (sections_of (c_items (closed h0 evs)))). rewrite <- app_assoc. split; [done|].
  rewrite E, !length_app in Hl. rewrite sections_of_bytes in *. rewrite length_app.
  rewrite length_header_area in * by apply (ft_closed_area _ _ _ Hfits). unfold closed_header. cbn [set_is_complete set_size set_index_position index_position].
  rewrite wrap_u64_small by (change two64 with (2 * 2 ^ 63); lia). unfold signed. change (64 - 1) with 63. by rewrite (proj2 (Z.ltb_lt _ _)) by lia.
Qed.

Lemma ReadIndex_closed r : r_file r = mkFile (recorded h0 old evs) first_position None -> r_header r = closed_header h0 (closed h0 evs) ->
  ReadIndex default_block expect_at_end r =
    (true, mkFileReader (mkFile (recorded h0 old evs) first_position None) (r_header r) (closed_index (closed h0 evs)) false).
Proof.
  intros Ef Eh. destruct closed_index_position as (rest & pre & E & Ep). unfold ReadIndex. rewrite Eh, Ep, Ef.
  change (is_complete (closed_header h0 (closed h0 evs))) with true. cbn [negb]. unfold SetPosition. rewrite (proj2 (Z.ltb_ge _ _)) by lia.
  rewrite Nat2Z.id. cbn [lseek negb f_bytes f_room]. set (r0 := with_rfile _ r).
  assert (Hat : at_pos pre (image SECTION_INDEX (ser (closed_index (closed h0 evs))) ++ rest) (r_file r0)) by (split; [done|split; [apply E|done]]).
  pose proof (ft_index _ _ _ Hfits) as Hi.
  destruct (ReadSectionHeader_at SECTION_INDEX _ pre rest r0 Hat ltac:(lia)) as (f1 & -> & H1). cbn [s_type s_size]. rewrite Z.eqb_refl. cbn [negb].
  destruct (ReadSection_any default_block expect_at_end index_ok _ _ rest (with_rfile f1 r0) closed_index_ok Hi H1) as (pos & ->).
  unfold FReset, with_rfile, with_eof. cbn [r_file r_header r_index end_of_file_ r0 with_rfile]. rewrite Eh. f_equal. f_equal.
  rewrite !(at_pos_lseek _ _ _ _ H1). change (lseek first_position (mkFile ?b _ None)) with (mkFile b first_position None). rewrite E. unfold image. by rewrite <- !app_assoc.
Qed.

(** A reader that is made of the file stands at its first section; its header and its channels are those of the closed file. *)
Definition opened : RecordReader :=
  mkReader true false [] 0 (fold_left add_channel_info (closed_index (closed h0 evs)) ∅) (closed_header h0 (closed h0 evs))
    (mkFileReader (mkFile (recorded h0 old evs) first_position None) (closed_header h0 (closed h0 evs)) (closed_index (closed h0 evs)) false).

Lemma RecordReader_new_recorded : RecordReader_new default_block expect_at_end (recorded h0 old evs) = opened.
Proof.
  unfold RecordReader_new. destruct ReadHeader_closed as (f & -> & ->). cbn [negb]. by rewrite ReadIndex_closed.
Qed.

Definition good_item (i : item) : Prop := made_item i /\ Forall message_ok (item_messages i).

Lemma closed_good : Forall good_item (c_items (closed h0 evs)).
Proof.
  apply Forall_forall. intros i Hi. split; [by apply (proj1 (Forall_forall _ _) (closed_made h0 evs))|].
  by apply (item_messages_all _ _ i closed_messages_ok).
Qed.

Lemma opened_before : exists rest,
  before (recorded h0 old evs) (ser (closed_index (closed h0 evs))) rest good_item [] (sections_of (c_items (closed h0 evs))) opened.
Proof.
  destruct recorded_bytes as (rest & E). exists rest. split; [|done|apply chunked_items, closed_good|by eapply closed_sections_ok].
  split; [done|]. cbn [reach_end_ opened file_reader_]. exists (header_area (closed_header h0 (closed h0 evs))). split; [done|].
  split; [done|]. split; [done|]. cbn [opened file_reader_ r_file f_pos]. symmetry. apply length_header_area, (ft_closed_area _ _ _ Hfits).
Qed.
End closed.

(** ** Reading everything in a range *)

(** The loop of a user: messages are read until there is none. *)
Fixpoint read_all (fuel : nat) (b e : Z) (r : RecordReader) : option (list SingleMessage) :=
  match fuel with
  | O => None
  | S fuel' =>
      '(m, r1) ← ReadMessage default_block expect_at_end fuel b e r;
      match m with
      | Some m => l ← read_all fuel' b e r1; Some (m :: l)
      | None => Some []
      end
  end.

(** What it sees of the messages of a file: those before the range are passed over, the first behind it ends the reading. *)
Fixpoint ranged (b e : Z) (l : list SingleMessage) : list SingleMessage :=
  match l with
  | [] => []
  | m :: l' => if e <? sm_time m then [] else if sm_time m <? b then ranged b e l' else m :: ranged b e l'
  end.

Lemma ranged_skip b e sk l : b <= e -> Forall (before_time b) sk -> ranged b e (sk ++ l) = ranged b e l.
Proof.
  intros Hbe. induction 1 as [|m sk Hm Hsk IH]; [done|]. unfold before_time in Hm. cbn [app ranged].
  by rewrite (proj2 (Z.ltb_ge _ _)), (proj2 (Z.ltb_lt (sm_time m) _)) by lia.
Qed.

Lemma ranged_in b e m l : in_range b e m -> ranged b e (m :: l) = m :: ranged b e l.
Proof. intros [H1 H2]. cbn [ranged]. by rewrite !(proj2 (Z.ltb_ge _ _)) by lia. Qed.

Lemma ranged_stopped b e l : stopped e l -> ranged b e l = [].
Proof. destruct l as [|m l]; [done|]. cbn. intros H. by rewrite (proj2 (Z.ltb_lt _ _)). Qed.

Lemma read_all_spec file ibs rest (P : item -> Prop) b e : Z.of_nat (length file) < 2 ^ 63 -> (forall i, P i -> item_fits b e i) -> b <= e ->
  forall n cur l r, before file ibs rest P cur l r -> ~ out_of_file b e (rr_header r) -> (length (cur ++ bodies l) <= n)%nat ->
  forall fuel, (n + length l + 4 <= fuel)%nat -> read_all fuel b e r = Some (ranged b e (cur ++ bodies l)).
Proof.
  intros Hfile HP Hbe. induction n as [n IH] using lt_wf_ind. intros cur l r Hb Ho Hn fuel Hf. destruct fuel as [|fuel]; [lia|]. cbn [read_all].
  destruct (ReadMessage_spec default_block expect_at_end file ibs rest Hfile P b e HP (length l) (S fuel) cur l r ltac:(lia) ltac:(lia) Hb)
    as (res & r' & cur' & l' & -> & Hb' & Hl & Eh & _ & sk & Hsk & H).
  cbn [mbind option_bind]. destruct res as [m|]; destruct H as [E H].
  - rewrite E in Hn |- *. rewrite ranged_skip, ranged_in by done. rewrite length_app in Hn. cbn [length] in Hn.
    rewrite (IH (length (cur' ++ bodies l')) ltac:(lia) cur' l' r' Hb'); [done| |done|lia]. by rewrite Eh.
  - destruct H as [H|H]; [|by destruct Ho]. rewrite E, ranged_skip by done. by rewrite ranged_stopped.
Qed.

(** ** The whole range *)

Definition max_time : Z := two64 - 1.

Lemma good_fits_all i : good_item i -> item_fits 0 max_time i.
Proof.
  intros [Hi Hm]. destruct i as [c|k x]; [done|]. destruct Hi as [-> Hx]. destruct (chunk_of_ok x Hm) as (K1 & K2 & _). unfold is_u64, max_time in *.
  split; intros H; lia.
Qed.

Lemma ranged_all l : Forall message_ok l -> ranged 0 max_time l = l.
Proof.
  induction 1 as [|m l Hm Hl IH]; [done|]. rewrite ranged_in, IH; [done|]. unfold message_ok, is_u64, in_range, max_time in *. lia.
Qed.

(** In the order of the writes, when every swap finds the other chunk empty. *)
Fixpoint prompt (h0 : Header) (c : contents) (evs : list wevent) : bool :=
  match evs with
  | [] => true
  | e :: evs' =>
      match e with
      | EMessage m => negb (need_flush m h0 (chunk_of (c_active c ++ [m]))) || bool_decide (c_flush c = [])
      | _ => true
      end && prompt h0 (step_contents h0 c e) evs'
  end.

Definition all_messages (c : contents) : list SingleMessage := messages_of (c_items c) ++ c_flush c ++ c_active c.

Lemma prompt_messages h0 evs c : prompt h0 c evs = true -> all_messages (fold_left (step_contents h0) evs c) = all_messages c ++ written evs.
Proof.
  revert c. induction evs as [|e evs IH]; intros c; cbn [prompt fold_left]; [by rewrite app_nil_r|]. intros [He H]%andb_true_iff. rewrite IH by done.
  change (written (e :: evs)) with (event_messages e ++ written evs). rewrite app_assoc. f_equal. unfold all_messages.
  destruct e as [ch|m|]; cbn [step_contents event_messages].
  - cbn [c_items c_flush c_active]. by rewrite messages_of_app, !app_nil_r.
  - destruct (need_flush _ _ _) eqn:En; cbn [c_items c_flush c_active]; [|by rewrite <- !app_assoc].
    apply bool_decide_eq_true in He. rewrite He, app_nil_r. by rewrite <- app_assoc.
  - rewrite app_nil_r. unfold flush_contents. destruct (c_flush c) as [|m l] eqn:Ef; [by rewrite Ef|]. cbn [c_items c_flush c_active].
    by rewrite messages_of_app, messages_of_one, <- app_assoc.
Qed.

Lemma prompt_closed h0 evs : prompt h0 (mkContents [] [] [] ∅) evs = true -> messages_of (c_items (closed h0 evs)) = written evs.
Proof. intros H. unfold closed. rewrite close_contents_messages. apply (prompt_messages h0 evs _ H). Qed.

(** The fuel: a message or a section takes a step. *)
Definition read_fuel (h0 : Header) (evs : list wevent) : nat := length (written evs) + length (sections_of (c_items (closed h0 evs))) + 4.

Lemma read_all_closed h0 old evs b e fuel : fits h0 old evs -> (forall i, i ∈ c_items (closed h0 evs) -> item_fits b e i) -> b <= e ->
  ~ out_of_file b e (closed_header h0 (closed h0 evs)) -> (read_fuel h0 evs <= fuel)%nat ->
  read_all fuel b e (RecordReader_new default_block expect_at_end (recorded h0 old evs)) = Some (ranged b e (messages_of (c_items (closed h0 evs)))).
Proof.
  intros Hf Hfit Hbe Ho Hn. rewrite RecordReader_new_recorded by done. destruct (opened_before h0 old evs Hf) as (rest & [B1 B2 B3 B4]).
  rewrite <- bodies_of. eapply (read_all_spec _ _ rest (fun i => i ∈ c_items (closed h0 evs)) b e (ft_file _ _ _ Hf) Hfit Hbe _ []).
  - split; [done|done|by apply chunked_items, Forall_forall|done].
  - done.
  - cbn [app]. done.
  - unfold read_fuel in Hn. rewrite bodies_of, (Permutation_length (closed_messages h0 evs)). lia.
Qed.

Lemma closed_header_in_file h0 old evs : fits h0 old evs -> ~ out_of_file 0 max_time (closed_header h0 (closed h0 evs)).
Proof.
  intros Hf. pose proof (ok_end_time _ (closed_header_ok h0 old evs Hf)) as H1. pose proof (ok_begin_time _ (closed_header_ok h0 old evs Hf)) as H2.
  unfold out_of_file, is_u64, max_time in *. lia.
Qed.

(** C7: a record file gives back every message that was written to it, once: whatever the older file in its place, and whenever the flushing
    thread took its turns; and in the order of the writes when every chunk was written before the next one was full. *)
Theorem record_roundtrip h0 old evs fuel : fits h0 old evs -> (read_fuel h0 evs <= fuel)%nat ->
  exists l, read_all fuel 0 max_time (RecordReader_new default_block expect_at_end (recorded h0 old evs)) = Some l /\
    l ≡ₚ written evs /\ (prompt h0 (mkContents [] [] [] ∅) evs = true -> l = written evs).
Proof.
  intros Hf Hn. exists (messages_of (c_items (closed h0 evs))). split; [|split; [apply closed_messages|apply prompt_closed]].
  rewrite read_all_closed; try done; [|..].
  - f_equal. by eapply ranged_all, closed_messages_ok.
  - intros i Hi. by apply good_fits_all, (proj1 (Forall_forall _ _) (closed_good h0 old evs Hf)).
  - by eapply closed_header_in_file.
Qed.

(** ** A range of a file in order *)

Lemma ranged_filter b e l : in_order l -> ranged b e l = filter (in_range b e) l.
Proof.
  induction 1 as [|m l Hl IH Hm]; [done|]. cbn [ranged]. destruct (Z.ltb_spec e (sm_time m)) as [H1|H1].
  - symmetry. rewrite filter_cons, decide_False by (unfold in_range; lia). apply filter_nothing. eapply Forall_impl; [exact Hm|]. unfold time_le, in_range. intros x. cbn. lia.
  - rewrite filter_cons. destruct (Z.ltb_spec (sm_time m) b) as [H2|H2]; [by rewrite decide_False by (unfold in_range; lia)|].
    rewrite decide_True by (unfold in_range; lia). by rewrite IH.
Qed.

(** Messages whose time is set are between the times of their chunk. *)
Lemma chunk_of_bounds l : Forall timed l -> l <> [] ->
  0 < k_begin_time (header_ (chunk_of l)) /\ Forall (in_range (k_begin_time (header_ (chunk_of l))) (k_end_time (header_ (chunk_of l)))) l.
Proof.
  induction l as [|m l IH] using rev_ind; [done|]. intros [Hl Hm]%Forall_app _. apply Forall_inv in Hm. unfold timed in Hm.
  rewrite chunk_of_snoc. set (c := chunk_of l) in *. destruct (decide (l = [])) as [->|Hne].
  - change c with chunk_clear. cbn. rewrite Z.ltb_irrefl, (proj2 (Z.ltb_lt 0 _)) by done. split; [done|]. constructor; [unfold in_range; lia|constructor].
  - destruct (IH Hl Hne) as [H1 H2]. unfold chunk_add. cbn [header_ k_begin_time k_end_time]. rewrite (proj2 (Z.eqb_neq (k_begin_time (header_ c)) 0)) by lia.
    split; [case_match; lia|]. apply Forall_app_2; [eapply Forall_impl; [exact H2|]; unfold in_range; intros x|constructor; [unfold in_range|constructor]];
      destruct (Z.ltb_spec (sm_time m) (k_begin_time (header_ c))), (Z.ltb_spec (k_end_time (header_ c)) (sm_time m)); lia.
Qed.

Lemma made_fits b e i : made_item i -> Forall timed (item_messages i) -> item_fits b e i.
Proof.
  intros Hi Ht. destruct i as [c|k x]; [done|]. destruct Hi as [-> Hx]. destruct (chunk_of_bounds x Ht Hx) as [_ H]. split; intros Hbe.
  - eapply Forall_impl; [exact H|]. unfold in_range, before_time. intros m. lia.
  - split; [done|]. destruct x as [|m x]; [done|]. apply Forall_inv in H. unfold in_range in H. cbn. lia.
Qed.

Lemma in_order_app l1 l2 : in_order (l1 ++ l2) -> in_order l1 /\ (forall m1 m2, m1 ∈ l1 -> m2 ∈ l2 -> time_le m1 m2).
Proof. intros H. split; [by eapply StronglySorted_app_1_l|]. intros m1 m2. by apply StronglySorted_app_1_elem_of. Qed.

(** The times of the header bound all messages. *)
Lemma header_bounds h0 l : h_begin_time h0 = 0 -> Forall made_item l -> Forall timed (messages_of l) -> in_order (messages_of l) ->
  let h := fold_left count_item l h0 in
  (messages_of l = [] /\ h_begin_time h = 0) \/ (0 < h_begin_time h /\ messages_of l <> [] /\ Forall (in_range (h_begin_time h) (h_end_time h)) (messages_of l)).
Proof.
  intros H0. induction l as [|i l IH] using rev_ind; [by left|]. intros [Hl Hi]%Forall_app. apply Forall_inv in Hi.
  rewrite messages_of_app, messages_of_one, fold_left_app. cbn [fold_left]. set (h := fold_left _ _ _) in *. intros [Ht1 Ht2]%Forall_app Ho.
  destruct (in_order_app _ _ Ho) as [Ho1 Ho2]. specialize (IH Hl Ht1 Ho1). destruct i as [c|k x]; cbn [item_messages count_item] in *.
  { rewrite app_nil_r. exact IH. }
  destruct Hi as [-> Hx]. destruct (chunk_of_bounds x Ht2 Hx) as [Hb Hr]. set (k := header_ (chunk_of x)) in *. right.
  cbn [set_chunks h_begin_time h_end_time]. assert (Hne : messages_of l ++ x <> []) by (by intros [_ ?]%app_eq_nil).
  destruct IH as [[-> E]|(Hp & Hl1 & IH)]; cbn zeta in *; [by rewrite E, Z.eqb_refl|].
  rewrite (proj2 (Z.eqb_neq _ 0)) by lia. split; [done|]. split; [done|]. clear Hb. apply Forall_app_2; apply Forall_forall; intros y Hy.
  - apply (proj1 (Forall_forall _ _) IH) in Hy as Hy'. destruct x as [|m x]; [done|]. assert (Hle : sm_time y <= sm_time m) by (apply Ho2; [done|by left]).
    apply Forall_inv in Hr. unfold in_range in *. lia.
  - apply (proj1 (Forall_forall _ _) Hr) in Hy as Hy'. destruct (messages_of l) as [|z ?]; [done|].
    assert (Hle : sm_time z <= sm_time y) by (apply Ho2; [by left|done]). apply Forall_inv in IH. unfold in_range in *. lia.
Qed.

(** Reading a range of a file whose messages were written in the order of their times gives exactly those of the range. *)
Theorem read_range h0 old evs b e fuel : fits h0 old evs -> h_begin_time h0 = 0 -> prompt h0 (mkContents [] [] [] ∅) evs = true ->
  in_order (written evs) -> Forall timed (written evs) -> b <= e -> (read_fuel h0 evs <= fuel)%nat ->
  read_all fuel b e (RecordReader_new default_block expect_at_end (recorded h0 old evs)) = Some (filter (in_range b e) (written evs)).
Proof.
  intros Hf H0 Hp Ho Ht Hbe Hn. rewrite <- (prompt_closed h0 evs Hp) in Ho, Ht |- *. set (l := c_items (closed h0 evs)) in *.
  pose proof (header_bounds h0 l H0 (closed_made h0 evs) Ht Ho) as Hh. cbv zeta in Hh. rewrite <- ranged_filter by done.
  assert (Hfit : forall i, i ∈ l -> item_fits b e i).
  { intros i Hi. apply made_fits; [by apply (proj1 (Forall_forall _ _) (closed_made h0 evs))|].
    by apply (item_messages_all _ l). }
  destruct (decide (h_end_time (closed_header h0 (closed h0 evs)) < b \/ e < h_begin_time (closed_header h0 (closed h0 evs)))) as [Hout|Hin];
    [|by apply read_all_closed].
  destruct fuel as [|fuel]; [unfold read_fuel in Hn; lia|]. rewrite RecordReader_new_recorded by done. cbn [read_all ReadMessage opened is_valid_ negb rr_header].
  destruct (_ || _) eqn:E; [|by apply orb_false_iff in E as [?%Z.ltb_ge ?%Z.ltb_ge]; lia]. cbn [mbind option_bind].
  rewrite ranged_filter by done. f_equal. symmetry. apply filter_nothing. destruct Hh as [[-> _]|(_ & _ & Hh)]; [constructor|].
  eapply Forall_impl; [exact Hh|]. unfold in_range. intros m Hm.
  change (h_end_time (closed_header h0 (closed h0 evs))) with (h_end_time (fold_left count_item l h0)) in Hout.
  change (h_begin_time (closed_header h0 (closed h0 evs))) with (h_begin_time (fold_left count_item l h0)) in Hout. lia.
Qed.

(** ** The header and the channels *)

Definition event_channels (e : wevent) : list Channel := match e with EChannel c => [c] | _ => [] end.
Definition written_channels (evs : list wevent) : list Channel := mjoin (event_channels <$> evs).
Definition item_channels (i : item) : list Channel := match i with IChannel c => [c] | _ => [] end.
Definition channels_of (l : list item) : list Channel := mjoin (item_channels <$> l).

Definition find_channel (name : string) (l : list Channel) : option Channel := head (filter (fun c => ch_name c = name) l).
Definition messages_on (name : string) (l : list SingleMessage) : list SingleMessage := filter (fun m => sm_channel_name m = name) l.

Lemma channels_of_app l1 l2 : channels_of (l1 ++ l2) = channels_of l1 ++ channels_of l2.
Proof. unfold channels_of. by rewrite fmap_app, join_app. Qed.
Lemma written_channels_app l1 l2 : written_channels (l1 ++ l2) = written_channels l1 ++ written_channels l2.
Proof. unfold written_channels. by rewrite fmap_app, join_app. Qed.

Lemma flush_channels c : channels_of (c_items (flush_contents c)) = channels_of (c_items c).
Proof. unfold flush_contents. destruct (c_flush c); [done|]. cbn [c_items]. rewrite channels_of_app. cbn. by rewrite app_nil_r. Qed.

Lemma closed_channels h0 evs : channels_of (c_items (closed h0 evs)) = written_channels evs.
Proof.
  unfold closed, close_contents. rewrite flush_channels. cbn [swap_contents c_items]. rewrite flush_channels. unfold contents_after.
  induction evs as [|e evs IH] using rev_ind; [done|]. rewrite fold_left_app, written_channels_app, <- IH. cbn [fold_left].
  destruct e as [ch|m|]; cbn [step_contents]; [cbn [c_items]; by rewrite channels_of_app| |].
  - destruct (need_flush _ _ _); cbn; by rewrite app_nil_r.
  - rewrite flush_channels. cbn. by rewrite app_nil_r.
Qed.

Lemma messages_on_app name l1 l2 : messages_on name (l1 ++ l2) = messages_on name l1 ++ messages_on name l2.
Proof. apply filter_app. Qed.

(** The counts of the channels, which wrap around only behind 2^64 messages. *)
Lemma closed_numbers h0 evs name : Z.of_nat (length (written evs)) < two64 ->
  default 0 (c_numbers (closed h0 evs) !! name) = Z.of_nat (length (messages_on name (written evs))).
Proof.
  unfold closed. rewrite close_numbers. unfold contents_after. induction evs as [|e evs IH] using rev_ind; [done|].
  rewrite written_app, length_app, fold_left_app, messages_on_app, length_app. intros Hl. specialize (IH ltac:(lia)). cbn [fold_left].
  set (c := fold_left _ _ _) in *. destruct e as [ch|m|]; cbn [step_contents]; [cbn [c_numbers]; rewrite IH; cbn; lia| |].
  - assert (E : default 0 (count_message (sm_channel_name m) (c_numbers c) !! name) = Z.of_nat (length (messages_on name (written evs)) + length (messages_on name (written [EMessage m])))).
    { unfold count_message. change (written [EMessage m]) with [m]. unfold messages_on at 2. rewrite filter_cons, filter_nil.
      assert (Hle : (length (messages_on name (written evs)) <= length (written evs))%nat) by apply length_filter. cbn [written] in Hl.
      change (length (written [EMessage m])) with 1%nat in Hl.
      destruct (decide (sm_channel_name m = name)) as [->|Hne]; cbn [length].
      - destruct (c_numbers c !! name) as [x|] eqn:Ex; rewrite lookup_insert_eq; cbn [default] in *; change (Datatypes.id ?x) with x in *; [|lia].
        rewrite IH, wrap_u64_small by lia. lia.
      - destruct (c_numbers c !! sm_channel_name m); rewrite lookup_insert_ne by done; rewrite IH; lia. }
    destruct (need_flush _ _ _); cbn [c_numbers]; exact E.
  - assert (E : c_numbers (flush_contents c) = c_numbers c) by (unfold flush_contents; by destruct (c_flush c)). rewrite E, IH. cbn. lia.
Qed.

Lemma channel_info_fold nums name l : forall pos (m : gmap string ChannelCache),
  fold_left add_channel_info (map (fill_cache nums) (items_index pos l)) m !! name =
  match m !! name with
  | Some c => Some c
  | None => (fun c => mkChannelCache (default 0 (nums !! name)) name (ch_message_type c) (ch_proto_desc c)) <$> find_channel name (channels_of l)
  end.
Proof.
  induction l as [|i l IH]; intros pos m; [cbn; by destruct (m !! name)|]. cbn [items_index]. rewrite map_app, fold_left_app, IH. clear IH.
  destruct i as [c|k x]; [|done]. change (channels_of (IChannel c :: l)) with (c :: channels_of l). cbn [item_index map fold_left].
  assert (Ef : fill_cache nums (mkSingleIndex SECTION_CHANNEL (wrap_u64 (Z.of_nat pos)) (Some (channel_cache (mkChannelCache 0 (ch_name c) (ch_message_type c) (ch_proto_desc c))))) =
    mkSingleIndex SECTION_CHANNEL (wrap_u64 (Z.of_nat pos)) (Some (channel_cache (mkChannelCache (default 0 (nums !! ch_name c)) (ch_name c) (ch_message_type c) (ch_proto_desc c))))).
  { unfold fill_cache. cbn [si_type si_cache cc_name si_position cc_message_type cc_proto_desc]. by destruct (nums !! ch_name c). }
  rewrite Ef. unfold add_channel_info. cbn [si_type si_cache cc_name]. unfold find_channel. rewrite filter_cons.
  destruct (decide (ch_name c = name)) as [<-|Hne].
  - destruct (m !! ch_name c) eqn:E; [by rewrite E|]. by rewrite lookup_insert_eq.
  - destruct (m !! ch_name c) eqn:E; [done|]. by rewrite lookup_insert_ne.
Qed.

Lemma wrap_u64_add a b : wrap_u64 (wrap_u64 a + b) = wrap_u64 (a + b).
Proof. unfold wrap_u64. by rewrite Zplus_mod_idemp_l. Qed.

Lemma count_items_channels l : forall h, is_u64 (channel_number h) ->
  channel_number (fold_left count_item l h) = wrap_u64 (channel_number h + Z.of_nat (length (channels_of l))).
Proof.
  induction l as [|i l IH]; intros h Hh; [cbn; by rewrite Z.add_0_r, wrap_u64_small|]. cbn [fold_left].
  change (channels_of (i :: l)) with (item_channels i ++ channels_of l). rewrite length_app. destruct i as [c|k x]; cbn [count_item item_channels length].
  - rewrite IH by apply wrap_u64_range. cbn [set_channel_number channel_number]. rewrite wrap_u64_add. f_equal. lia.
  - by rewrite IH.
Qed.

Lemma count_items_messages l : Forall made_item l -> Z.of_nat (length (messages_of l)) < two64 -> forall h, is_u64 (h_message_number h) ->
  h_message_number (fold_left count_item l h) = wrap_u64 (h_message_number h + Z.of_nat (length (messages_of l))).
Proof.
  induction 1 as [|i l Hi Hl IH]; intros Hn h Hh; [cbn; by rewrite Z.add_0_r, wrap_u64_small|]. cbn [fold_left].
  change (messages_of (i :: l)) with (item_messages i ++ messages_of l) in *. rewrite length_app in *.
  destruct i as [c|k x]; cbn [count_item item_messages length] in *; [by rewrite IH|]. destruct Hi as [-> _].
  rewrite IH by (lia || apply wrap_u64_range). cbn [set_chunks h_message_number]. rewrite wrap_u64_add, chunk_of_number by lia. f_equal. lia.
Qed.

(** A reader of a closed file finds it complete, the number of its messages and channels, and for every channel that was written, its
    type, its description (those of the first that was written under the name) and the number of its messages. *)
Theorem record_metadata h0 old evs : fits h0 old evs -> channel_number h0 = 0 -> h_message_number h0 = 0 ->
  let r := RecordReader_new default_block expect_at_end (recorded h0 old evs) in
  is_valid_ r = true /\ is_complete (rr_header r) = true /\
  h_message_number (rr_header r) = Z.of_nat (length (written evs)) /\ channel_number (rr_header r) = wrap_u64 (Z.of_nat (length (written_channels evs))) /\
  forall name, channel_info_ r !! name =
    (fun c => mkChannelCache (Z.of_nat (length (messages_on name (written evs)))) name (ch_message_type c) (ch_proto_desc c)) <$>
      find_channel name (written_channels evs).
Proof.
  intros Hf Hc Hm. pose proof (ft_number _ _ _ Hf) as Hn. pose proof (Permutation_length (closed_messages h0 evs)) as Hp. cbv zeta.
  rewrite RecordReader_new_recorded by done. split; [done|]. split; [done|]. split; [|split].
  - change (h_message_number (rr_header (opened h0 old evs))) with (h_message_number (fold_left count_item (c_items (closed h0 evs)) h0)).
    rewrite (count_items_messages _ (closed_made h0 evs)), Hm, Hp by (rewrite ?Hp, ?Hm; done). apply wrap_u64_small. lia.
  - change (channel_number (rr_header (opened h0 old evs))) with (channel_number (fold_left count_item (c_items (closed h0 evs)) h0)).
    rewrite count_items_channels, Hc, closed_channels by by rewrite Hc. done.
  - intros name. cbn [opened channel_info_]. unfold closed_index. rewrite channel_info_fold, lookup_empty, closed_channels.
    by rewrite closed_numbers.
Qed.
End roundtrip.
