(* ===== verification/RecordViewing.v ===== *)
(** * RecordViewing: a viewer shows the messages of several records in order

    Proved against what a viewer relies on of a reader ([SourceLaws]); a reader of a file in order is an instance.  A window of the viewer
    takes from every reader its messages of the window, so that what is in the buffer comes before all that is still to come. *)

From stdpp Require Import sorting.
From S2P Require Import Prelude ShmMessage RecordProto RecordFile RecordReader RecordReading.

Definition from_time (b : Z) (m : SingleMessage) : Prop := b <= sm_time m.
#[export] Instance from_time_dec b m : Decision (from_time b m).
Proof. unfold from_time. apply _. Defined.

(** What stays of a source. *)
Definition same_source `{!Source R} (s_all : R -> list SingleMessage) (s_cost : R -> nat) (r r' : R) : Prop :=
  s_begin_time r' = s_begin_time r /\ s_end_time r' = s_end_time r /\ s_all r' = s_all r /\ (s_cost r' <= s_cost r)%nat.

(** A source: all its messages, those that are left, and what a call costs. *)
Class SourceLaws (R : Type) `{!Source R} (src_ok : R -> Prop) (s_all s_rest : R -> list SingleMessage) (s_cost : R -> nat) := {
  law_order r : src_ok r -> in_order (s_all r);
  law_times r : src_ok r -> Forall (in_range (s_begin_time r) (s_end_time r)) (s_all r);
  law_valid r : src_ok r -> s_valid r = true;
  law_rest r : src_ok r -> s_rest r `suffix_of` s_all r;
  law_reset r : src_ok r -> src_ok (s_reset r) /\ s_rest (s_reset r) = s_all r /\ same_source s_all s_cost r (s_reset r);
  law_read fuel b e r : src_ok r -> b <= e -> (s_cost r <= fuel)%nat ->
    exists res r', s_read fuel b e r = Some (res, r') /\ src_ok r' /\ same_source s_all s_cost r r' /\
      exists sk, Forall (before_time b) sk /\
        match res with
        | Some m => s_rest r = sk ++ m :: s_rest r' /\ in_range b e m
        | None => s_rest r = sk ++ s_rest r' /\ Forall (fun m => ~ in_range b e m) (s_rest r')
        end;
}.

(** ** The multimap *)

Lemma multimap_perm m l : emplace m l ≡ₚ m :: l.
Proof. induction l as [|x l IH]; [done|]. cbn [emplace]. destruct (_ <? _); [done|]. rewrite IH. constructor. Qed.

Lemma multimap_order m l : in_order l -> in_order (emplace m l).
Proof.
  induction 1 as [|x l Hl IH Hx]; [repeat constructor|]. cbn [emplace]. destruct (Z.ltb_spec (sm_time m) (sm_time x)) as [H|H].
  - constructor; [by constructor|]. constructor; [unfold time_le; lia|]. eapply Forall_impl; [exact Hx|]. unfold time_le. intros y; cbn; lia.
  - constructor; [done|]. rewrite multimap_perm. by constructor.
Qed.

Lemma filter_range_from b e (l1 l2 : list SingleMessage) : filter (from_time b) l1 = filter (from_time b) l2 -> filter (in_range b e) l1 = filter (in_range b e) l2.
Proof.
  intros H. assert (E : forall l : list SingleMessage, filter (in_range b e) l = filter (fun m => sm_time m <= e) (filter (from_time b) l)).
  { intros l. rewrite list_filter_filter. apply list_filter_iff. intros m. unfold in_range, from_time. lia. }
  by rewrite (E l1), (E l2), H.
Qed.

Lemma filter_from_later b b' (l1 l2 : list SingleMessage) : b <= b' -> filter (from_time b) l1 = filter (from_time b) l2 -> filter (from_time b') l1 = filter (from_time b') l2.
Proof.
  intros Hb H. assert (E : forall l : list SingleMessage, filter (from_time b') l = filter (from_time b') (filter (from_time b) l)).
  { intros l. rewrite list_filter_filter. apply list_filter_iff. intros m. unfold from_time. lia. }
  by rewrite (E l1), (E l2), H.
Qed.

Lemma filter_range_split b c e (l : list SingleMessage) : b <= c + 1 -> c <= e ->
  filter (in_range b c) l ++ filter (in_range (c + 1) e) l ≡ₚ filter (in_range b e) l.
Proof.
  intros H1 H2. induction l as [|m l IH]; [done|]. rewrite !filter_cons. unfold in_range in *.
  destruct (decide (b <= sm_time m <= c)), (decide (c + 1 <= sm_time m <= e)), (decide (b <= sm_time m <= e)); try lia.
  - cbn. by rewrite IH.
  - by rewrite <- Permutation_middle, IH.
  - done.
Qed.

Section viewing.
Context `{HS : !Source R} {src_ok : R -> Prop} {s_all s_rest : R -> list SingleMessage} {s_cost : R -> nat} `{HL : !SourceLaws R src_ok s_all s_rest s_cost}.

Lemma same_source_trans r1 r2 r3 : same_source s_all s_cost r1 r2 -> same_source s_all s_cost r2 r3 -> same_source s_all s_cost r1 r3.
Proof. intros (A1 & A2 & A3 & A4) (B1 & B2 & B3 & B4). unfold same_source. rewrite B1, B2, B3. repeat split; try done. lia. Qed.

(** What is behind a window does not change by reading the window. *)
Lemma filter_later_skip b c sk (l : list SingleMessage) : b <= c -> Forall (before_time b) sk -> filter (from_time c) (sk ++ l) = filter (from_time c) l.
Proof.
  intros Hc Hsk. rewrite filter_app. rewrite (filter_nothing (from_time c)); [done|]. eapply Forall_impl; [exact Hsk|]. unfold before_time, from_time.
  intros m. cbn. lia.
Qed.

Lemma filter_range_skip b e sk (l : list SingleMessage) : Forall (before_time b) sk -> filter (in_range b e) (sk ++ l) = filter (in_range b e) l.
Proof.
  intros Hsk. rewrite filter_app. rewrite (filter_nothing (in_range b e)); [done|]. eapply Forall_impl; [exact Hsk|]. unfold before_time, in_range.
  intros m. cbn. lia.
Qed.

Lemma drain_spec b e : b <= e -> forall n fuel r buffer, (length (s_rest r) <= n)%nat -> (n + s_cost r + 1 <= fuel)%nat -> src_ok r -> in_order buffer ->
  exists r' buffer', drain fuel b e r buffer = Some (r', buffer') /\ src_ok r' /\ same_source s_all s_cost r r' /\ in_order buffer' /\
    buffer' ≡ₚ buffer ++ filter (in_range b e) (s_rest r) /\ filter (from_time (e + 1)) (s_rest r') = filter (from_time (e + 1)) (s_rest r).
Proof.
  intros Hbe. induction n as [n IH] using lt_wf_ind. intros fuel r buffer Hn Hf Hr Hb. destruct fuel as [|fuel]; [lia|]. cbn [drain].
  destruct (law_read (S fuel) b e r Hr Hbe ltac:(lia)) as (res & r1 & -> & Hr1 & Hs1 & sk & Hsk & H). cbn [mbind option_bind]. destruct res as [m|].
  - destruct H as [E Hm]. rewrite E in Hn. rewrite length_app in Hn. cbn [length] in Hn. pose proof Hs1 as (_ & _ & _ & Hcost).
    destruct (IH (length (s_rest r1)) ltac:(lia) fuel r1 (emplace m buffer) ltac:(lia) ltac:(lia) Hr1 (multimap_order m _ Hb))
      as (r' & buffer' & E' & H1 & H2 & H3 & H4 & H5).
    exists r', buffer'. split; [done|]. split; [done|]. split; [by eapply same_source_trans|]. split; [done|]. rewrite E. split.
    + rewrite H4, multimap_perm, filter_range_skip by done. rewrite filter_cons, decide_True by done. by rewrite <- Permutation_middle.
    + rewrite H5, (filter_later_skip b) by (lia || done). rewrite filter_cons, decide_False by (unfold from_time, in_range in *; lia). done.
  - destruct H as [E Hm]. exists r1, buffer. split; [done|]. split; [done|]. split; [done|]. split; [done|]. rewrite E. split.
    + rewrite filter_range_skip, filter_nothing by done. by rewrite app_nil_r.
    + by rewrite (filter_later_skip b) by (lia || done).
Qed.

(** ** A window *)

Definition window (b e : Z) (rs : list R) : list SingleMessage := mjoin ((fun r => filter (in_range b e) (s_all r)) <$> rs).
Definition total (rs : list R) : nat := sum_list ((fun r => length (s_all r) + s_cost r)%nat <$> rs).

Abbreviation same := (same_source s_all s_cost).

Lemma window_cons b e r rs : window b e (r :: rs) = filter (in_range b e) (s_all r) ++ window b e rs.
Proof. done. Qed.

Lemma window_same b e rs rs' : Forall2 same rs rs' -> window b e rs' = window b e rs.
Proof. induction 1 as [|r r' rs rs' (_ & _ & E & _) _ IH]; [done|]. by rewrite !window_cons, E, IH. Qed.

Lemma window_perm b e rs rs' : rs ≡ₚ rs' -> window b e rs ≡ₚ window b e rs'.
Proof. intros H. unfold window. by rewrite H. Qed.

Lemma window_split b c e rs : b <= c + 1 -> c <= e -> window b c rs ++ window (c + 1) e rs ≡ₚ window b e rs.
Proof.
  intros H1 H2. induction rs as [|r rs IH]; [done|]. rewrite !window_cons, <- IH, <- (filter_range_split b c e) by done. rewrite <- !app_assoc.
  apply Permutation_app_head. rewrite !app_assoc. apply Permutation_app_tail, Permutation_app_comm.
Qed.

Lemma window_range b e rs : Forall (in_range b e) (window b e rs).
Proof.
  induction rs as [|r rs IH]; [constructor|]. rewrite window_cons. apply Forall_app_2; [|done]. apply Forall_forall. intros m.
  by intros [? _]%list_elem_of_filter.
Qed.

Lemma window_empty b e rs : e < b -> window b e rs = [].
Proof.
  intros H. induction rs as [|r rs IH]; [done|]. rewrite window_cons, IH, filter_nothing; [done|]. apply Forall_forall. intros m _. unfold in_range. lia.
Qed.

Lemma total_same rs rs' : Forall2 same rs rs' -> (total rs' <= total rs)%nat.
Proof. unfold total. induction 1 as [|r r' rs rs' (_ & _ & E & Hc) _ IH]; [done|]. cbn in *. rewrite E. lia. Qed.

Lemma total_perm rs rs' : rs ≡ₚ rs' -> total rs = total rs'.
Proof. intros H. unfold total. by rewrite H. Qed.

Lemma total_elem r rs : r ∈ rs -> (length (s_all r) + s_cost r <= total rs)%nat.
Proof. intros H. unfold total. induction H as [|r' rs H IH]; cbn in *; lia. Qed.

Lemma window_length b e rs : (length (window b e rs) <= total rs)%nat.
Proof.
  induction rs as [|r rs IH]; [done|]. rewrite window_cons, length_app. unfold total in *. cbn in *.
  pose proof (length_filter (in_range b e) (s_all r)). lia.
Qed.

(** A reader and its flag: before the time [t], the reader stands where nothing from [t] on was passed over. *)
Definition entry_ok (t : Z) (p : R * bool) : Prop :=
  src_ok p.1 /\ if p.2 then Forall (before_time t) (s_all p.1) else filter (from_time t) (s_rest p.1) = filter (from_time t) (s_all p.1).

Lemma finish_reader_ok t p : entry_ok t p -> entry_ok t (finish_reader t p) /\ same p.1 (finish_reader t p).1.
Proof.
  destruct p as [r fin]. intros [Hr Hp]. unfold finish_reader. cbn [fst snd] in *. destruct fin; cbn [negb andb]; [by repeat split|].
  destruct (Z.ltb_spec (s_end_time r) t) as [H|H]; [|by repeat split]. destruct (law_reset r Hr) as (H1 & H2 & H3).
  split; [|done]. split; [done|]. cbn [fst snd]. destruct H3 as (_ & _ & E & _). rewrite E. eapply Forall_impl; [exact (law_times r Hr)|].
  unfold in_range, before_time. intros m. lia.
Qed.

Lemma drain_all_spec b e fuel : b <= e -> forall l buffer, Forall (entry_ok b) l -> (total (l.*1) + 1 <= fuel)%nat -> in_order buffer ->
  exists l' buffer', drain_all fuel b e l buffer = Some (l', buffer') /\ Forall (entry_ok (e + 1)) l' /\ Forall2 same (l.*1) (l'.*1) /\
    in_order buffer' /\ buffer' ≡ₚ buffer ++ window b e (l.*1).
Proof.
  intros Hbe. induction l as [|[r fin] l IH]; intros buffer Hl Hf Hb; [by exists [], buffer; rewrite app_nil_r|].
  apply Forall_cons in Hl as [[Hr Hp] Hl]. cbn [fmap list_fmap fst snd] in *. rewrite window_cons.
  assert (Hft : (length (s_all r) + s_cost r + total (l.*1) + 1 <= fuel)%nat) by (unfold total in *; cbn in Hf; lia). destruct fin; cbn [drain_all].
  - destruct (IH buffer Hl ltac:(lia) Hb) as (l' & buffer' & -> & H1 & H2 & H3 & H4). cbn [mbind option_bind]. exists ((r, true) :: l'), buffer'.
    split; [done|]. split; [constructor; [|done]; split; [done|]; eapply Forall_impl; [exact Hp|]; unfold before_time; intros m; cbn; lia|].
    split; [by constructor|]. split; [done|]. rewrite filter_nothing; [done|]. eapply Forall_impl; [exact Hp|]. unfold before_time, in_range. intros m; cbn; lia.
  - pose proof (suffix_length _ _ (law_rest r Hr)) as Hlen.
    destruct (drain_spec b e Hbe (length (s_rest r)) fuel r buffer ltac:(lia) ltac:(lia) Hr Hb) as (r' & buffer1 & -> & D1 & D2 & D3 & D4 & D5).
    cbn [mbind option_bind]. destruct (IH buffer1 Hl ltac:(lia) D3) as (l' & buffer' & -> & H1 & H2 & H3 & H4). cbn [mbind option_bind].
    exists ((r', false) :: l'), buffer'. split; [done|]. split; [constructor; [|done]; split; [done|]|].
    + cbn [fst snd]. destruct D2 as (_ & _ & -> & _). rewrite D5. by apply (filter_from_later b); [lia|].
    + split; [by constructor|]. split; [done|]. rewrite H4, D4, <- app_assoc, (filter_range_from b e _ _ Hp). done.
Qed.

(** ** The buffer of a viewer *)

Record viewer_inv (v : RecordViewer R) : Prop := {
  vi_len : length (readers_ v) = length (readers_finished_ v);
  vi_entries : Forall (entry_ok (curr_begin_time_ v)) (zip (readers_ v) (readers_finished_ v));
  vi_begin : 0 <= curr_begin_time_ v;
  vi_cur : curr_begin_time_ v <= v_end_time v + 1;
  vi_end : v_end_time v + kStepTimeNanoSec + 1 < two64;
  vi_order : in_order (msg_buffer_ v);
  vi_before : Forall (before_time (curr_begin_time_ v)) (msg_buffer_ v);
}.

(** What is still to be shown, and the windows that are left. *)
Definition future (v : RecordViewer R) : list SingleMessage := msg_buffer_ v ++ window (curr_begin_time_ v) (v_end_time v) (readers_ v).
Definition windows (v : RecordViewer R) : nat := Z.to_nat ((v_end_time v + kStepTimeNanoSec - curr_begin_time_ v) / kStepTimeNanoSec).

(** What a step of the viewer leaves as it is, or makes smaller. *)
Record viewer_step (v v' : RecordViewer R) : Prop := {
  vs_inv : viewer_inv v';
  vs_channels : channels_ v' = channels_ v;
  vs_windows : (windows v' <= windows v)%nat;
  vs_total : (total (readers_ v') <= total (readers_ v))%nat;
}.

Lemma viewer_step_trans v1 v2 v3 : viewer_step v1 v2 -> viewer_step v2 v3 -> viewer_step v1 v3.
Proof. intros [A1 A2 A3 A4] [B1 B2 B3 B4]. split; [done|by rewrite B2|lia..]. Qed.

Lemma windows_next v c : curr_begin_time_ v <= v_end_time v -> v_end_time v + 1 <= c \/ curr_begin_time_ v + kStepTimeNanoSec + 1 <= c ->
  (Z.to_nat ((v_end_time v + kStepTimeNanoSec - c) / kStepTimeNanoSec) < windows v)%nat.
Proof.
  intros Hc H. unfold windows. assert (Hk : 0 < kStepTimeNanoSec) by done. set (k := kStepTimeNanoSec) in *. set (e := v_end_time v) in *.
  set (b := curr_begin_time_ v) in *. assert (H1 : 1 <= (e + k - b) / k) by (apply Z.div_le_lower_bound; lia).
  destruct H as [H|H].
  - assert (H2 : (e + k - c) / k < 1) by (apply Z.div_lt_upper_bound; lia). lia.
  - assert (H2 : (e + k - c) / k <= (e - b) / k) by (apply Z.div_le_mono; lia).
    replace (e + k - b) with (e - b + 1 * k) in * by lia. rewrite Z.div_add in * by lia. lia.
Qed.

Lemma fmap_fst_zip (rs : list R) (fs : list bool) : length rs = length fs -> (zip rs fs).*1 = rs.
Proof. intros H. by apply fst_zip, Nat.eq_le_incl. Qed.

Lemma zip_fst_snd (l : list (R * bool)) : zip (l.*1) (l.*2) = l.
Proof. induction l as [|[r f] l IH]; [done|]. cbn. by f_equal. Qed.

Lemma fill_step_spec fuel v : viewer_inv v -> curr_begin_time_ v <= v_end_time v -> (total (readers_ v) + 1 <= fuel)%nat ->
  exists v', fill_step fuel v = Some v' /\ viewer_step v v' /\ (windows v' < windows v)%nat /\ future v' ≡ₚ future v.
Proof.
  intros [I1 I2 I3 I4 I5 I6 I7] Hc Hf. unfold fill_step. set (b := curr_begin_time_ v) in *. set (l := zip _ _) in *.
  assert (Hk : 0 < kStepTimeNanoSec) by done. rewrite (wrap_u64_small (b + _)) by lia. set (e := if v_end_time v <? _ then _ else _).
  assert (He : b <= e <= v_end_time v /\ (e = v_end_time v \/ e = b + kStepTimeNanoSec)) by (unfold e; case_match; lia).
  set (l1 := map (finish_reader b) l).
  assert (Hl1 : Forall (entry_ok b) l1 /\ Forall2 same (readers_ v) (l1.*1)).
  { rewrite <- (fmap_fst_zip (readers_ v) (readers_finished_ v)) by done. fold l. unfold l1. clear -I2 HL. induction I2 as [|p l Hp Hl IH]; [done|].
    destruct IH as [IH1 IH2], (finish_reader_ok b p Hp). cbn. by split; constructor. }
  destruct Hl1 as [Hok1 Hs1]. pose proof (total_same _ _ Hs1) as Ht1.
  destruct (drain_all_spec b e fuel ltac:(lia) l1 (msg_buffer_ v) Hok1 ltac:(lia) I6) as (l2 & buffer & -> & D1 & D2 & D3 & D4).
  cbn [mbind option_bind]. rewrite (wrap_u64_small (e + 1)) by lia. eexists. split; [reflexivity|].
  rewrite (window_same _ _ _ _ Hs1) in D4. pose proof (total_same _ _ D2) as Ht2.
  assert (Hw : forall b' e', window b' e' (map fst l2) = window b' e' (readers_ v)).
  { intros b' e'. rewrite <- (window_same b' e' _ _ Hs1). by apply window_same. }
  assert (Hwin : (Z.to_nat ((v_end_time v + kStepTimeNanoSec - (e + 1)) / kStepTimeNanoSec) < windows v)%nat) by (apply windows_next; lia).
  split; [split; [split|..]|]; cbn [readers_ readers_finished_ curr_begin_time_ v_end_time msg_buffer_ channels_].
  - by rewrite !length_map.
  - by rewrite zip_fst_snd.
  - lia.
  - lia.
  - done.
  - done.
  - rewrite D4. apply Forall_app_2; [eapply Forall_impl; [exact I7|]|eapply Forall_impl; [apply window_range|]]; unfold before_time, in_range; intros m; cbn; lia.
  - done.
  - unfold windows at 1. cbn [v_end_time curr_begin_time_]. lia.
  - change (map fst l2) with (l2.*1). lia.
  - split; [done|]. unfold future. cbn [msg_buffer_ curr_begin_time_ v_end_time readers_]. rewrite Hw, D4, <- app_assoc.
    apply Permutation_app_head. apply window_split; lia.
Qed.

Lemma FillBuffer_spec n : forall fuel v, viewer_inv v -> (windows v <= n)%nat -> (n + total (readers_ v) + 2 <= fuel)%nat ->
  exists v', FillBuffer fuel v = Some (negb (bool_decide (msg_buffer_ v' = [])), v') /\ viewer_step v v' /\ future v' ≡ₚ future v /\
    (msg_buffer_ v' = [] -> future v' = []).
Proof.
  induction n as [n IH] using lt_wf_ind. intros fuel v Hv Hn Hf. destruct fuel as [|fuel]; [lia|]. cbn [FillBuffer].
  destruct (Z.leb_spec (curr_begin_time_ v) (v_end_time v)) as [Hc|Hc]; cbn [andb].
  - destruct (Nat.ltb_spec (length (msg_buffer_ v)) kBufferMinSize) as [Hl|Hl].
    + destruct (fill_step_spec (S fuel) v Hv Hc ltac:(lia)) as (v1 & -> & S1 & Hw1 & E1). cbn [mbind option_bind]. pose proof (vs_total _ _ S1) as Ht.
      destruct (IH (windows v1) ltac:(lia) fuel v1 (vs_inv _ _ S1) ltac:(lia) ltac:(lia)) as (v' & -> & S2 & E2 & H).
      exists v'. split; [done|]. split; [by eapply viewer_step_trans|]. split; [by rewrite E2|done].
    + exists v. split; [done|]. split; [by split|]. split; [done|]. intros E. rewrite E in Hl. unfold kBufferMinSize in Hl. cbn in Hl. lia.
  - exists v. split; [done|]. split; [by split|]. split; [done|]. intros E. unfold future. by rewrite E, window_empty.
Qed.

(** ** Message by message *)

Abbreviation is_wanted channels := (fun m => wanted channels m = true).

Lemma next_buffer fuel v : viewer_inv v -> (windows v + total (readers_ v) + 2 <= fuel)%nat ->
  exists v', (match msg_buffer_ v with [] => FillBuffer fuel v | _ => Some (true, v) end) = Some (negb (bool_decide (msg_buffer_ v' = [])), v') /\
    viewer_step v v' /\ future v' ≡ₚ future v /\ (msg_buffer_ v' = [] -> future v' = []).
Proof.
  intros Hv Hf. destruct (msg_buffer_ v) as [|m l] eqn:E; [by apply (FillBuffer_spec (windows v))|].
  exists v. rewrite E, bool_decide_eq_false_2 by done. split; [done|]. split; [by split|]. by split.
Qed.

Lemma pop_buffer v m l : viewer_inv v -> msg_buffer_ v = m :: l ->
  viewer_step v (with_buffer l v) /\ future v = m :: future (with_buffer l v) /\ Forall (time_le m) (future (with_buffer l v)).
Proof.
  intros Hv E. destruct Hv as [I1 I2 I3 I4 I5 I6 I7]. rewrite E in I6, I7. apply StronglySorted_inv in I6 as [I6 Hm]. apply Forall_cons in I7 as [Hb I7].
  split; [by split|]. split; [unfold future; by rewrite E|]. unfold future. cbn [with_buffer msg_buffer_ curr_begin_time_ v_end_time readers_].
  apply Forall_app_2; [done|]. eapply Forall_impl; [apply window_range|]. unfold in_range, time_le, before_time in *. intros x. cbn. lia.
Qed.

Lemma Update_spec n : forall fuel v, viewer_inv v -> (length (future v) <= n)%nat -> (n + windows v + total (readers_ v) + 3 <= fuel)%nat ->
  exists res v', Update fuel v = Some (res, v') /\ viewer_step v v' /\
    match res with
    | Some m => exists sk, future v ≡ₚ sk ++ m :: future v' /\ Forall (fun x => ~ is_wanted (channels_ v) x) sk /\ is_wanted (channels_ v) m /\
        Forall (time_le m) (future v')
    | None => Forall (fun x => ~ is_wanted (channels_ v) x) (future v)
    end.
Proof.
  induction n as [n IH] using lt_wf_ind. intros fuel v Hv Hn Hf. destruct fuel as [|fuel]; [lia|]. cbn [Update].
  destruct (next_buffer (S fuel) v Hv ltac:(lia)) as (v1 & -> & S1 & E1 & Hnil). cbn [mbind option_bind].
  destruct (msg_buffer_ v1) as [|m l] eqn:Eb; [rewrite bool_decide_eq_true_2 by done|rewrite bool_decide_eq_false_2 by done]; cbn [negb].
  - exists None, v1. split; [done|]. split; [done|]. rewrite <- E1, Hnil by done. constructor.
  - destruct (pop_buffer v1 m l (vs_inv _ _ S1) Eb) as (S2 & Ef & Hm). pose proof (viewer_step_trans _ _ _ S1 S2) as S12.
    rewrite (vs_channels _ _ S1). destruct (wanted (channels_ v) m) eqn:Ew.
    + exists (Some m), (with_buffer l v1). split; [done|]. split; [done|]. exists []. by rewrite <- E1, Ef.
    + assert (Hlen : length (future v) = S (length (future (with_buffer l v1)))) by by rewrite <- E1, Ef.
      pose proof (vs_windows _ _ S12). pose proof (vs_total _ _ S12).
      destruct (IH (length (future (with_buffer l v1))) ltac:(lia) fuel _ (vs_inv _ _ S12) ltac:(lia) ltac:(lia)) as (res & v' & -> & S3 & H3).
      exists res, v'. split; [done|]. split; [by eapply viewer_step_trans|]. rewrite (vs_channels _ _ S12) in H3. destruct res as [m'|].
      * destruct H3 as (sk & P1 & P2 & P3 & P4). exists (m :: sk). rewrite <- E1, Ef, P1. split; [done|]. split; [|done]. constructor; [congruence|done].
      * rewrite <- E1, Ef. constructor; [congruence|done].
Qed.

Lemma iterate_spec n : forall fuel v, viewer_inv v -> (length (future v) <= n)%nat -> (n + windows v + total (readers_ v) + 4 <= fuel)%nat ->
  exists l, iterate fuel v = Some l /\ in_order l /\ l ≡ₚ filter (is_wanted (channels_ v)) (future v).
Proof.
  induction n as [n IH] using lt_wf_ind. intros fuel v Hv Hn Hf. destruct fuel as [|fuel]; [lia|]. cbn [iterate].
  destruct (Update_spec n (S fuel) v Hv Hn ltac:(lia)) as (res & v' & -> & S1 & H). cbn [mbind option_bind]. destruct res as [m|].
  - destruct H as (sk & E & Hsk & Hw & Hm). assert (Hlen : (S (length (future v')) <= length (future v))%nat) by (rewrite E, length_app; cbn; lia).
    pose proof (vs_windows _ _ S1). pose proof (vs_total _ _ S1).
    destruct (IH (length (future v')) ltac:(lia) fuel v' (vs_inv _ _ S1) ltac:(lia) ltac:(lia)) as (l & -> & Ho & El). cbn [mbind option_bind].
    exists (m :: l). split; [done|]. rewrite (vs_channels _ _ S1) in El. split.
    + constructor; [done|]. rewrite El. apply Forall_forall. intros x [_ Hx]%list_elem_of_filter. by apply (proj1 (Forall_forall _ _) Hm).
    + rewrite E, filter_app, filter_nothing by done. cbn [app]. rewrite filter_cons, decide_True by done. by rewrite El.
  - exists []. split; [done|]. split; [constructor|]. by rewrite filter_nothing.
Qed.

(** ** The whole view *)

Lemma fold_min (f : R -> Z) l t : let x := fold_left (fun t r => if f r <? t then f r else t) l t in x <= t /\ forall r, r ∈ l -> x <= f r.
Proof.
  revert t. induction l as [|r l IH]; intros t; [split; [done|intros r H; by apply not_elem_of_nil in H]|]. cbn [fold_left].
  destruct (IH (if f r <? t then f r else t)) as [H1 H2]. cbv zeta in *.
  assert (Hle : (if f r <? t then f r else t) <= t /\ (if f r <? t then f r else t) <= f r) by (destruct (Z.ltb_spec (f r) t); lia).
  split; [lia|]. intros r' [->|Hr]%elem_of_cons; [lia|by apply H2].
Qed.

Lemma fold_max (f : R -> Z) (P : Z -> Prop) l t : P t -> (forall r, r ∈ l -> P (f r)) ->
  let x := fold_left (fun t r => if t <? f r then f r else t) l t in P x /\ forall r, r ∈ l -> f r <= x.
Proof.
  revert t. induction l as [|r l IH]; intros t Ht Hl; [split; [done|intros r H; by apply not_elem_of_nil in H]|]. cbn [fold_left].
  assert (Hp : P (if t <? f r then f r else t)) by (destruct (_ <? _); [apply Hl; by left|done]).
  destruct (IH _ Hp ltac:(intros r' Hr'; apply Hl; by right)) as [H1 H2]. split; [done|]. intros r' [->|Hr]%elem_of_cons; [|by apply H2].
  clear Hp H1. clear IH. assert (Hm : forall l t, t <= fold_left (fun t r => if t <? f r then f r else t) l t).
  { intros l0. induction l0 as [|x l0 IH0]; intros t0; [done|]. cbn [fold_left]. etransitivity; [|apply IH0]. destruct (Z.ltb_spec t0 (f x)); lia. }
  etransitivity; [|apply Hm]. destruct (Z.ltb_spec t (f r)); lia.
Qed.

Definition all_of (rs : list R) : list SingleMessage := mjoin (s_all <$> rs).

#[local] Instance all_of_proper : Proper ((≡ₚ) ==> (≡ₚ)) all_of.
Proof. intros l1 l2 H. unfold all_of. by rewrite H. Qed.

Lemma window_all b e rs : window b e rs = filter (in_range b e) (all_of rs).
Proof. induction rs as [|r rs IH]; [done|]. rewrite window_cons, IH. unfold all_of. cbn. by rewrite filter_app. Qed.

Lemma readers_VInit readers b e channels : readers_ (RecordViewer_new readers b e channels) ≡ₚ readers.
Proof. apply merge_sort_Permutation. Qed.

(** The range of the viewer holds the same messages as the range that was asked for. *)
Lemma UpdateTime_range readers b e channels : Forall src_ok readers -> 0 <= b -> Forall (fun r => s_end_time r + kStepTimeNanoSec + 1 < two64) readers ->
  let v := RecordViewer_new readers b e channels in
  0 <= v_begin_time v /\ v_end_time v + kStepTimeNanoSec + 1 < two64 /\
  window (v_begin_time v) (v_end_time v) (readers_ v) ≡ₚ filter (in_range b e) (all_of readers).
Proof.
  intros Hok Hb Hend v. pose proof (readers_VInit readers b e channels) as Hp. fold v in Hp.
  assert (Ev : filter (fun r => s_valid r = true) (readers_ v) = readers_ v).
  { rewrite <- Hp in Hok. clear -Hok HL. induction Hok as [|r l Hr Hl IH]; [done|]. by rewrite filter_cons, decide_True, IH by by apply law_valid. }
  set (rs := readers_ v) in *. pose proof (fold_min s_begin_time rs (two64 - 1)) as [_ Hmin].
  destruct (fold_max s_end_time (fun x => x + kStepTimeNanoSec + 1 < two64) rs 0 ltac:(done)) as [Hmax1 Hmax2].
  { intros r Hr. rewrite Hp in Hr. by apply (proj1 (Forall_forall _ _) Hend). }
  assert (Eb : v_begin_time v = (let m := fold_left (fun t r => if s_begin_time r <? t then s_begin_time r else t)
    (filter (fun r => s_valid r = true) rs) (two64 - 1) in if b <? m then m else b)) by reflexivity.
  assert (Ee : v_end_time v = (let m := fold_left (fun t r => if t <? s_end_time r then s_end_time r else t)
    (filter (fun r => s_valid r = true) rs) 0 in if m <? e then m else e)) by reflexivity.
  rewrite Ev in Eb, Ee. cbv zeta in *. set (mb := fold_left _ rs (two64 - 1)) in *. set (me := fold_left _ rs 0) in *. rewrite Eb, Ee.
  split; [destruct (Z.ltb_spec b mb); lia|]. split; [destruct (Z.ltb_spec me e); lia|].
  rewrite window_all, <- Hp. fold rs. assert (Hin : Forall (in_range mb me) (all_of rs)).
  { rewrite <- Hp in Hok. unfold all_of. apply Forall_join, Forall_fmap, Forall_forall. intros r Hr. apply (proj1 (Forall_forall _ _) Hok) in Hr as Hr'.
    eapply Forall_impl; [exact (law_times r Hr')|]. unfold in_range. intros m. specialize (Hmin r Hr). specialize (Hmax2 r Hr). lia. }
  clear -Hin. induction Hin as [|m l Hm Hl IH]; [done|]. rewrite !filter_cons. unfold in_range in Hm.
  assert (Hiff : in_range (if b <? mb then mb else b) (if me <? e then me else e) m <-> in_range b e m).
  { unfold in_range. destruct (Z.ltb_spec b mb), (Z.ltb_spec me e); lia. }
  destruct (decide (in_range b e m)) as [H|H].
  { rewrite decide_True by by apply Hiff. by constructor. } by rewrite decide_False by by rewrite Hiff.
Qed.

Definition view_fuel (v : RecordViewer R) : nat := 2 * total (readers_ v) + windows (VReset v) + 4.

(** A loop over a viewer of several records shows, in the order of their times, exactly the messages of the wanted channels in the range, of
    all the records. *)
Theorem view_merges readers b e channels fuel : Forall src_ok readers -> 0 <= b ->
  Forall (fun r => s_end_time r + kStepTimeNanoSec + 1 < two64) readers -> (view_fuel (RecordViewer_new readers b e channels) <= fuel)%nat ->
  exists l, view fuel (RecordViewer_new readers b e channels) = Some l /\ in_order l /\
    l ≡ₚ filter (is_wanted channels) (filter (in_range b e) (all_of readers)).
Proof.
  intros Hok Hb Hend Hf. destruct (UpdateTime_range readers b e channels Hok Hb Hend) as (R1 & R2 & R3). set (v := RecordViewer_new _ _ _ _) in *.
  pose proof (readers_VInit readers b e channels) as Hp. fold v in Hp. unfold view, IsValid. cbn [VReset v_begin_time v_end_time].
  destruct (Z.leb_spec (v_begin_time v) (v_end_time v)) as [Hv|Hv]; [|rewrite window_empty in R3 by done; exists []; split; [done|]; split; [constructor|]; by rewrite <- R3].
  assert (Hsame : Forall2 same (readers_ v) (map s_reset (readers_ v)) /\ Forall (entry_ok (v_begin_time v)) (zip (map s_reset (readers_ v)) (map (fun _ => false) (replicate (length (readers_ v)) false)))).
  { rewrite <- Hp in Hok. clear -Hok HL. induction Hok as [|r l Hr Hl [IH1 IH2]]; [by split|]. destruct (law_reset r Hr) as (H1 & H2 & H3). cbn.
    split; [by constructor|]. constructor; [|done]. split; [done|]. cbn [fst snd]. destruct H3 as (_ & _ & -> & _). by rewrite H2. }
  destruct Hsame as [Hs He]. pose proof (total_same _ _ Hs) as Ht. set (v0 := VReset v) in *.
  assert (Efin : readers_finished_ v = replicate (length (readers_ v)) false).
  { change (readers_finished_ v) with (replicate (length readers) false). by rewrite Hp. }
  assert (Hinv : viewer_inv v0).
  { split; [|..|constructor|constructor].
    - change (length (map s_reset (readers_ v)) = length (map (fun _ => false) (readers_finished_ v))). by rewrite !length_map, Efin, length_replicate.
    - change (Forall (entry_ok (v_begin_time v)) (zip (map s_reset (readers_ v)) (map (fun _ => false) (readers_finished_ v)))). by rewrite Efin.
    - exact R1.
    - change (v_begin_time v <= v_end_time v + 1). lia.
    - exact R2. }
  assert (Efut : future v0 ≡ₚ filter (in_range b e) (all_of readers)).
  { change (future v0) with (window (v_begin_time v) (v_end_time v) (map s_reset (readers_ v))). by rewrite (window_same _ _ _ _ Hs). }
  destruct (iterate_spec (length (future v0)) fuel v0 Hinv ltac:(lia)) as (l & -> & Ho & El).
  { pose proof (window_length (v_begin_time v) (v_end_time v) (readers_ v0)). change (future v0) with (window (v_begin_time v) (v_end_time v) (readers_ v0)).
    unfold view_fuel in Hf. fold v0 in Hf. change (readers_ v0) with (map s_reset (readers_ v)) in *. lia. }
  exists l. split; [done|]. split; [done|]. by rewrite El, Efut.
Qed.
End viewing.
