(* ===== verification/RecordPlayback.v ===== *)
(** * RecordPlayback: viewing records that were written in order

    A reader of a closed file is a source of the viewer: reading moves only the position in the file, so that a reset reader reads it
    again.  From this, the theorem on a viewer holds of the files of writers. *)

From stdpp Require Import sorting.
From S2P Require Import Prelude ShmMessage RecordProto RecordFile RecordReader RecordReading RecordRoundtrip RecordViewing.

Section playback.
Context `{!Wire Header, !Wire Channel, !Wire ChunkHeader, !Wire ChunkBody, !Wire Index}.
Context `{!WireLaws Header header_ok, !WireLaws Channel channel_ok, !WireLaws ChunkHeader chunk_header_ok, !WireLaws ChunkBody body_ok,
  !WireLaws Index index_ok}.
Context (default_block : nat) (expect_at_end : bytes -> bool).

(** ** Reading moves the position only *)

Definition same_file (f f' : RecordFileReader) : Prop :=
  f_bytes (r_file f') = f_bytes (r_file f) /\ f_room (r_file f') = f_room (r_file f) /\ r_header f' = r_header f /\ r_index f' = r_index f.

#[local] Instance same_file_preorder : PreOrder same_file.
Proof. split; [by intros f|]. intros f1 f2 f3 (A1 & A2 & A3 & A4) (B1 & B2 & B3 & B4). unfold same_file. by rewrite B1, B2, B3, B4. Qed.

Lemma ReadSectionHeader_file r : same_file r (ReadSectionHeader r).2.
Proof.
  unfold ReadSectionHeader. destruct (fread _ _) as [bs f] eqn:E. unfold fread in E. injection E as _ <-. destruct (_ =? _)%nat; [done|].
  by destruct (negb _).
Qed.

Lemma ReadSection_file {A} `{!Wire A} size r : same_file r (ReadSection default_block expect_at_end (A := A) size r).2.
Proof.
  unfold ReadSection. destruct (_ || _); [done|]. destruct (_ <? _); [done|]. destruct (fread _ _) as [block f] eqn:E. unfold fread in E.
  injection E as _ <-. destruct (parse _); [|done]. by destruct (_ =? _)%nat.
Qed.

Lemma SkipSection_file size r : same_file r (SkipSection size r).2.
Proof. unfold SkipSection, SetPosition. destruct (_ <? _); [done|]. by destruct (_ <? _). Qed.

Lemma read_next_file fuel : forall skip b e r res, read_next default_block expect_at_end fuel skip b e r = Some res ->
  same_file (file_reader_ r) (file_reader_ res.2).
Proof.
  induction fuel as [|fuel IH]; intros skip b e r res; [done|]. cbn [read_next]. case_match; [by intros [= <-]|].
  pose proof (ReadSectionHeader_file (file_reader_ r)) as H1. destruct (ReadSectionHeader _) as [[s|] f]; cbn [snd] in H1; [|by intros [= <-]].
  destruct (_ =? _).
  { pose proof (SkipSection_file (s_size s) f) as H2. destruct (SkipSection _ _) as [ok f1]. intros E%IH. by etransitivity; [exact H1|etransitivity; [exact H2|]]. }
  destruct (_ =? _).
  { pose proof (ReadSection_file (A := Channel) (s_size s) f) as H2. destruct (ReadSection _ _ _ _) as [[c|] f1]; cbn [snd] in H2.
    - intros E%IH. by etransitivity; [exact H1|etransitivity; [exact H2|]].
    - intros [= <-]. by etransitivity. }
  destruct (_ =? _).
  { pose proof (ReadSection_file (A := ChunkHeader) (s_size s) f) as H2. destruct (ReadSection _ _ _ _) as [[k|] f1]; cbn [snd] in H2; [|intros [= <-]; by etransitivity].
    destruct (_ <? _); [intros [= <-]; by etransitivity|]. intros E%IH. by etransitivity; [exact H1|etransitivity; [exact H2|]]. }
  destruct (_ =? _); [|by intros [= <-]]. destruct skip.
  - pose proof (SkipSection_file (s_size s) f) as H2. destruct (SkipSection _ _) as [ok f1]. intros E%IH. by etransitivity; [exact H1|etransitivity; [exact H2|]].
  - pose proof (ReadSection_file (A := ChunkBody) (s_size s) f) as H2. destruct (ReadSection _ _ _ _) as [[x|] f1]; cbn [snd] in H2; intros [= <-]; by etransitivity.
Qed.

Lemma ReadMessage_file fuel : forall b e r res, ReadMessage default_block expect_at_end fuel b e r = Some res ->
  same_file (file_reader_ r) (file_reader_ res.2).
Proof.
  induction fuel as [|fuel IH]; intros b e r res; [done|]. cbn [ReadMessage]. case_match; [by intros [= <-]|]. case_match; [by intros [= <-]|].
  destruct (scan_chunk _ _ _ _); [by intros [= <-]|by intros [= <-]|]. unfold ReadNextChunk.
  destruct (read_next _ _ _ _ _ _ _) as [[ok r1]|] eqn:E1; [|done]. apply read_next_file in E1. cbn [mbind option_bind fst snd] in *.
  destruct ok; [|by intros [= <-]]. intros E2%IH. by etransitivity.
Qed.

(** ** Readers of files in order *)

(** Written in the order of the times, with the thread in time, over a header that is fresh. *)
Record orderly (h0 : Header) (old : bytes) (evs : list wevent) : Prop := {
  od_fits : fits h0 old evs;
  od_begin : h_begin_time h0 = 0;
  od_prompt : prompt h0 (mkContents [] [] [] ∅) evs = true;
  od_order : in_order (written evs);
  od_timed : Forall timed (written evs);
}.

(** A reader of the file with [cur] left of its chunk, before the sections [l]. *)
Record plays (h0 : Header) (old : bytes) (evs : list wevent) (cur : list SingleMessage) (l : list rsection) (r : RecordReader) : Prop := {
  pl_before : exists rest, before (recorded h0 old evs) (ser (closed_index (closed h0 evs))) rest (fun i => i ∈ c_items (closed h0 evs)) cur l r;
  pl_suffix : cur ++ bodies l `suffix_of` written evs;
  pl_header : rr_header r = closed_header h0 (closed h0 evs);
  pl_file : same_file (file_reader_ (opened h0 old evs)) (file_reader_ r);
  pl_length : (length l <= length (sections_of (c_items (closed h0 evs))))%nat;
}.

Lemma opened_plays h0 old evs : orderly h0 old evs -> plays h0 old evs [] (sections_of (c_items (closed h0 evs))) (opened h0 old evs).
Proof.
  intros [Hf H0 Hp Ho Ht]. destruct (opened_before h0 old evs Hf) as (rest & [B1 B2 B3 B4]). split; try done.
  - exists rest. split; try done. by apply chunked_items, Forall_forall.
  - cbn [app]. by rewrite bodies_of, prompt_closed.
Qed.

Lemma reset_plays h0 old evs cur l r : orderly h0 old evs -> plays h0 old evs cur l r ->
  plays h0 old evs [] (sections_of (c_items (closed h0 evs))) (Reset r).
Proof.
  intros Ho [(rest & [[Hv _] _ _ _]) _ Hh (F1 & F2 & F3 & F4) _]. destruct (opened_plays h0 old evs Ho) as [(rest' & [[_ B1] B2 B3 B4]) P2 _ _ P5].
  split; try done. exists rest'. split; try done. split; [done|]. cbn [Reset reach_end_ file_reader_]. destruct B1 as (pre & E & A1 & A2 & A3).
  exists pre. split; [done|]. split; [by rewrite <- A1|]. split; [by rewrite <- A2|]. exact A3.
Qed.

Section source.
Context (F : nat).

Definition played (r : RecordReader) : Prop :=
  exists h0 old evs cur l, orderly h0 old evs /\ (read_fuel h0 evs <= F)%nat /\ plays h0 old evs cur l r.

(** What is left of a reader is what a user would still read. *)
Definition rest_of (r : RecordReader) : list SingleMessage := default [] (read_all default_block expect_at_end F 0 max_time r).
Definition all_in (r : RecordReader) : list SingleMessage := rest_of (Reset r).

Lemma plays_messages_ok h0 old evs cur l r : orderly h0 old evs -> plays h0 old evs cur l r -> Forall message_ok (cur ++ bodies l).
Proof. intros Ho Hp. pose proof (ft_messages _ _ _ (od_fits _ _ _ Ho)) as H. destruct (pl_suffix _ _ _ _ _ _ Hp) as [sk E]. rewrite E in H. by apply Forall_app in H as [_ H]. Qed.

Lemma plays_rest h0 old evs cur l r : orderly h0 old evs -> (read_fuel h0 evs <= F)%nat -> plays h0 old evs cur l r -> rest_of r = cur ++ bodies l.
Proof.
  intros Ho HF Hp. pose proof (plays_messages_ok _ _ _ _ _ _ Ho Hp) as Hok. destruct Hp as [(rest & Hb) Hs Hh _ Hl]. destruct Ho as [Hf _ _ _ _].
  unfold rest_of. erewrite (read_all_spec default_block expect_at_end _ _ rest _ 0 max_time (ft_file _ _ _ Hf) _ ltac:(done) (length (cur ++ bodies l)) cur l r Hb);
    [cbn [default]; by apply ranged_all|by rewrite Hh; eapply closed_header_in_file|done|].
  unfold read_fuel in HF. apply suffix_length in Hs. lia.
  Unshelve. intros i Hi. by apply good_fits_all, (proj1 (Forall_forall _ _) (closed_good h0 old evs Hf)).
Qed.

Lemma plays_all h0 old evs cur l r : orderly h0 old evs -> (read_fuel h0 evs <= F)%nat -> plays h0 old evs cur l r -> all_in r = written evs.
Proof.
  intros Ho HF Hp. unfold all_in. erewrite plays_rest; [|done..|by eapply reset_plays]. cbn [app]. rewrite bodies_of. by apply prompt_closed, Ho.
Qed.

Lemma orderly_bounds h0 old evs : orderly h0 old evs ->
  Forall (in_range (h_begin_time (closed_header h0 (closed h0 evs))) (h_end_time (closed_header h0 (closed h0 evs)))) (written evs).
Proof.
  intros [Hf H0 Hp Ho Ht]. pose proof (prompt_closed h0 evs Hp) as E. rewrite <- E in Ho, Ht |- *.
  destruct (header_bounds h0 _ H0 (closed_made h0 evs) Ht Ho) as [[-> _]|(_ & _ & H)]; [constructor|exact H].
Qed.

Lemma orderly_fits h0 old evs b e i : orderly h0 old evs -> i ∈ c_items (closed h0 evs) -> item_fits b e i.
Proof.
  intros [Hf H0 Hp Ho Ht] Hi. apply made_fits; [by apply (proj1 (Forall_forall _ _) (closed_made h0 evs))|].
  rewrite <- (prompt_closed h0 evs Hp) in Ht. by apply (item_messages_all _ _ i Ht).
Qed.

Lemma stopped_none b e l : in_order l -> stopped e l -> Forall (fun m => ~ in_range b e m) l.
Proof.
  destruct 1 as [|m l Hl Hm]; [constructor|]. cbn [stopped]. intros H. constructor; [unfold in_range; lia|]. eapply Forall_impl; [exact Hm|].
  unfold time_le, in_range. intros x. cbn. lia.
Qed.

Lemma plays_read h0 old evs cur l r fuel b e : orderly h0 old evs -> (read_fuel h0 evs <= fuel)%nat -> plays h0 old evs cur l r ->
  exists res r' cur' l', ReadMessage default_block expect_at_end fuel b e r = Some (res, r') /\ plays h0 old evs cur' l' r' /\
    exists sk, Forall (before_time b) sk /\
      match res with
      | Some m => cur ++ bodies l = sk ++ m :: cur' ++ bodies l' /\ in_range b e m
      | None => cur ++ bodies l = sk ++ cur' ++ bodies l' /\ Forall (fun m => ~ in_range b e m) (cur' ++ bodies l')
      end.
Proof.
  intros Ho HF [(rest & Hb) Hs Hh Hfile Hl]. pose proof (ft_file _ _ _ (od_fits _ _ _ Ho)) as Hsz.
  destruct (ReadMessage_spec default_block expect_at_end (recorded h0 old evs) (ser (closed_index (closed h0 evs))) rest Hsz
    (fun i => i ∈ c_items (closed h0 evs)) b e (fun i => orderly_fits h0 old evs b e i Ho) (length l) fuel cur l r ltac:(done))
    as (res & r' & cur' & l' & E & Hb' & Hl' & Eh & _ & sk & Hsk & H); [unfold read_fuel in HF; lia|done|].
  exists res, r', cur', l'. split; [done|]. assert (Hs' : cur' ++ bodies l' `suffix_of` cur ++ bodies l).
  { destruct res as [m|]; destruct H as [-> _]; [|by exists sk]. exists (sk ++ [m]). by rewrite <- app_assoc. }
  split.
  - split; [by exists rest|by etransitivity|by rewrite Eh| |lia]. apply ReadMessage_file in E. by etransitivity.
  - exists sk. split; [done|]. destruct res as [m|]; [done|]. destruct H as [H1 H2]. split; [done|]. destruct H2 as [H2|H2].
    + apply stopped_none; [|done]. destruct Hs as [p1 E1], Hs' as [p2 E2]. pose proof (od_order _ _ _ Ho) as Hord. rewrite E1, E2, app_assoc in Hord.
      by apply StronglySorted_app_1_r in Hord.
    + rewrite Hh in H2. destruct Hs as [p1 E1], Hs' as [p2 E2]. pose proof (orderly_bounds h0 old evs Ho) as Hbd. rewrite E1, E2 in Hbd.
      apply Forall_app in Hbd as [_ Hbd]. apply Forall_app in Hbd as [_ Hbd]. eapply Forall_impl; [exact Hbd|]. unfold in_range, out_of_file in *.
      intros m. lia.
Qed.

#[local] Instance played_Source : Source RecordReader := reader_Source default_block expect_at_end.

Lemma played_laws : SourceLaws RecordReader played all_in rest_of (fun _ => F).
Proof.
  split.
  - intros r (h0 & old & evs & cur & l & Ho & HF & Hp). rewrite (plays_all _ _ _ _ _ _ Ho HF Hp). apply Ho.
  - intros r (h0 & old & evs & cur & l & Ho & HF & Hp). rewrite (plays_all _ _ _ _ _ _ Ho HF Hp). cbn [s_begin_time s_end_time played_Source reader_Source].
    rewrite (pl_header _ _ _ _ _ _ Hp). by eapply orderly_bounds.
  - intros r (h0 & old & evs & cur & l & Ho & HF & [(rest & [[Hv _] _ _ _]) _ _ _ _]). done.
  - intros r (h0 & old & evs & cur & l & Ho & HF & Hp). rewrite (plays_all _ _ _ _ _ _ Ho HF Hp), (plays_rest _ _ _ _ _ _ Ho HF Hp). apply Hp.
  - intros r (h0 & old & evs & cur & l & Ho & HF & Hp). pose proof (reset_plays _ _ _ _ _ _ Ho Hp) as Hp'.
    split; [by exists h0, old, evs, [], (sections_of (c_items (closed h0 evs)))|]. split; [done|]. split; [done|]. split; [done|]. split; [|done].
    cbn [s_reset played_Source reader_Source]. by rewrite (plays_all _ _ _ _ _ _ Ho HF Hp), (plays_all _ _ _ _ _ _ Ho HF Hp').
  - intros fuel b e r (h0 & old & evs & cur & l & Ho & HF & Hp) Hbe Hfu.
    destruct (plays_read h0 old evs cur l r fuel b e Ho ltac:(lia) Hp) as (res & r' & cur' & l' & E & Hp' & H). exists res, r'. split; [exact E|].
    split; [by exists h0, old, evs, cur', l'|]. rewrite (plays_rest _ _ _ _ _ _ Ho HF Hp), (plays_rest _ _ _ _ _ _ Ho HF Hp'). split; [|exact H].
    unfold same_source. rewrite (plays_all _ _ _ _ _ _ Ho HF Hp), (plays_all _ _ _ _ _ _ Ho HF Hp').
    cbn [s_begin_time s_end_time played_Source reader_Source]. by rewrite (pl_header _ _ _ _ _ _ Hp), (pl_header _ _ _ _ _ _ Hp').
Qed.
End source.

(** ** Viewing records *)

(** A loop over a viewer of readers. *)
Definition view_records (fuel : nat) (readers : list RecordReader) (b e : Z) (channels : gset string) : option (list SingleMessage) :=
  @view _ (reader_Source default_block expect_at_end) fuel (@RecordViewer_new _ (reader_Source default_block expect_at_end) readers b e channels).

(** How a record came to be. *)
Record recording := mkRecording { rc_header : Header; rc_old : bytes; rc_events : list wevent }.
Definition rc_reader (w : recording) : RecordReader := RecordReader_new default_block expect_at_end (recorded (rc_header w) (rc_old w) (rc_events w)).
Definition rc_orderly (w : recording) : Prop := orderly (rc_header w) (rc_old w) (rc_events w).

Lemma rc_reader_opened w : rc_orderly w -> rc_reader w = opened (rc_header w) (rc_old w) (rc_events w).
Proof. intros [Hf _ _ _ _]. by apply RecordReader_new_recorded. Qed.

Lemma rc_played F w : rc_orderly w -> (read_fuel (rc_header w) (rc_events w) <= F)%nat -> played F (rc_reader w) /\ all_in F (rc_reader w) = written (rc_events w).
Proof.
  intros Ho HF. rewrite rc_reader_opened by done. pose proof (opened_plays _ _ _ Ho) as Hp. split; [|by eapply plays_all].
  by eexists _, _, _, _, _.
Qed.

(** C8: for records that were each written in the order of the times of their messages, none of them at time zero, with a flushing thread
    that takes every chunk before the next one is full, over a new header and within the sizes of the format ([orderly]), and that end
    before the last representable step: with enough fuel a viewer shows exactly what was written to any of them on the wanted channels
    and in the range, merged in the order of the times.  Without the order, without positive times, or with a late thread it fails: [out_of_order_not_shown], [time_zero_lost] and
    [late_chunk_hides_record]. *)
Theorem records_viewed ws b e channels : Forall rc_orderly ws -> 0 <= b ->
  Forall (fun w => h_end_time (rr_header (rc_reader w)) + kStepTimeNanoSec + 1 < two64) ws ->
  exists enough, forall fuel, (enough <= fuel)%nat -> exists l,
    view_records fuel (map rc_reader ws) b e channels = Some l /\ in_order l /\
    l ≡ₚ filter (fun m => wanted channels m = true) (filter (in_range b e) (mjoin ((fun w => written (rc_events w)) <$> ws))).
Proof.
  intros Hws Hb Hend. set (F := sum_list ((fun w => read_fuel (rc_header w) (rc_events w)) <$> ws)).
  assert (HF : forall w, w ∈ ws -> (read_fuel (rc_header w) (rc_events w) <= F)%nat).
  { intros w Hw. unfold F. clear -Hw. induction Hw as [|w' ws Hw IH]; cbn in *; lia. }
  assert (Hok : Forall (played F) (map rc_reader ws) /\ all_of (s_all := all_in F) (map rc_reader ws) = mjoin ((fun w => written (rc_events w)) <$> ws)).
  { clearbody F. clear Hend. induction Hws as [|w ws Hw Hws IH]; [done|]. destruct IH as [IH1 IH2]; [intros w' Hw'; apply HF; by right|].
    destruct (rc_played F w Hw ltac:(apply HF; by left)) as [H1 H2]. split; [by constructor|]. unfold all_of in *.
    change (all_in F (rc_reader w) ++ mjoin (all_in F <$> map rc_reader ws) = written (rc_events w) ++ mjoin ((fun w => written (rc_events w)) <$> ws)).
    by rewrite H2, IH2. }
  destruct Hok as [Hok Hall]. pose proof (played_laws F) as HL.
  eexists. intros fuel Hfuel. pose proof (view_merges (HL := HL) (map rc_reader ws) b e channels fuel Hok Hb) as H. rewrite Hall in H.
  apply H; [|exact Hfuel]. apply Forall_fmap. exact Hend.
Qed.
End playback.
