(* ===== verification/RecordWriter.v ===== *)
(** * RecordWriter: recording to a sequence of files

    Models [record/record_writer.{h,cc}]: the channels that are known, and the file that is split when it is long or large enough.  The disk
    holds the bytes of the files that are not being written.  [None] is a call through a null pointer.  Which paths can be opened, and the
    room on the medium, are given; the order in which a new file names the known channels (that of an [unordered_map]) is that of
    [map_to_list]. *)

From Stdlib Require Import Ascii.
From stdpp Require Import strings.
From S2P Require Import Prelude ShmMessage RecordProto RecordFile.

Record RecordWriter := mkRecordWriter {
  rw_header : Header;
  file_ : string;
  is_opened_ : bool;
  path_ : string;
  segment_raw_size_ : Z;
  segment_begin_time_ : Z;
  file_index_ : Z;
  rw_message_number_map_ : gmap string Z;
  channel_message_type_map_ : gmap string string;
  channel_proto_desc_map_ : gmap string string;
  file_writer_ : option RecordFileWriter;
  disk : gmap string bytes;
}.

(** A path with the number of a segment: a dot, and five digits. *)
Definition digit (n : Z) : ascii := ascii_of_nat (Z.to_nat (48 + n mod 10)).
Definition index_string (n : Z) : string :=
  String "." (String (digit (n / 10000)) (String (digit (n / 1000)) (String (digit (n / 100)) (String (digit (n / 10)) (String (digit n) EmptyString))))).

Definition RecordWriter_new (d : gmap string bytes) : RecordWriter := mkRecordWriter GetHeader "" false "" 0 0 0 ∅ ∅ ∅ None d.
Definition RecordWriter_with (header : Header) (d : gmap string bytes) : RecordWriter := mkRecordWriter header "" false "" 0 0 0 ∅ ∅ ∅ None d.

Definition with_writer (fw : option RecordFileWriter) (w : RecordWriter) : RecordWriter :=
  mkRecordWriter (rw_header w) (file_ w) (is_opened_ w) (path_ w) (segment_raw_size_ w) (segment_begin_time_ w) (file_index_ w)
    (rw_message_number_map_ w) (channel_message_type_map_ w) (channel_proto_desc_map_ w) fw (disk w).
Definition with_disk (d : gmap string bytes) (w : RecordWriter) : RecordWriter :=
  mkRecordWriter (rw_header w) (file_ w) (is_opened_ w) (path_ w) (segment_raw_size_ w) (segment_begin_time_ w) (file_index_ w)
    (rw_message_number_map_ w) (channel_message_type_map_ w) (channel_proto_desc_map_ w) (file_writer_ w) d.
Definition with_opened (b : bool) (w : RecordWriter) : RecordWriter :=
  mkRecordWriter (rw_header w) (file_ w) b (path_ w) (segment_raw_size_ w) (segment_begin_time_ w) (file_index_ w)
    (rw_message_number_map_ w) (channel_message_type_map_ w) (channel_proto_desc_map_ w) (file_writer_ w) (disk w).
Definition with_rw_header (h : Header) (w : RecordWriter) : RecordWriter :=
  mkRecordWriter h (file_ w) (is_opened_ w) (path_ w) (segment_raw_size_ w) (segment_begin_time_ w) (file_index_ w)
    (rw_message_number_map_ w) (channel_message_type_map_ w) (channel_proto_desc_map_ w) (file_writer_ w) (disk w).
(** What names the file that is written next. *)
Definition with_path (file path : string) (index : Z) (w : RecordWriter) : RecordWriter :=
  mkRecordWriter (rw_header w) file (is_opened_ w) path (segment_raw_size_ w) (segment_begin_time_ w) index
    (rw_message_number_map_ w) (channel_message_type_map_ w) (channel_proto_desc_map_ w) (file_writer_ w) (disk w).
Definition with_segment (size begin_time : Z) (w : RecordWriter) : RecordWriter :=
  mkRecordWriter (rw_header w) (file_ w) (is_opened_ w) (path_ w) size begin_time (file_index_ w)
    (rw_message_number_map_ w) (channel_message_type_map_ w) (channel_proto_desc_map_ w) (file_writer_ w) (disk w).
Definition with_channels (n : gmap string Z) (t d : gmap string string) (w : RecordWriter) : RecordWriter :=
  mkRecordWriter (rw_header w) (file_ w) (is_opened_ w) (path_ w) (segment_raw_size_ w) (segment_begin_time_ w) (file_index_ w)
    n t d (file_writer_ w) (disk w).

Section writer.
Context `{!Wire Header, !Wire Channel, !Wire ChunkHeader, !Wire ChunkBody, !Wire Index}.
Context (openable : string -> bool) (room : option nat).

(** [file_writer_->Close()], or its destructor: the file is on the disk. *)
Definition close_file (w : RecordWriter) : RecordWriter :=
  match file_writer_ w with
  | Some fw => let fw' := RecordFile.Close fw in with_disk (<[path_ w := f_bytes (w_file fw')]> (disk w)) (with_writer (Some fw') w)
  | None => w
  end.

(** [file_writer_->Open(path_)] of a writer that is new: when it fails, its chunks are null. *)
Definition open_file (w : RecordWriter) : bool * RecordWriter :=
  if openable (path_ w) then (true, with_writer (Some (OpenWriter (default [] (disk w !! path_ w)) room)) w)
  else (false, with_writer None w).

(** [file_writer_->WriteHeader(header_)]. *)
Definition write_header (w : RecordWriter) : bool * RecordWriter :=
  match file_writer_ w with
  | Some fw => let '(ok, fw') := RecordFile.WriteHeader (rw_header w) fw in (ok, with_writer (Some fw') w)
  | None => (false, w)
  end.

Definition segmented (h : Header) : bool := (0 <? segment_interval h) || (0 <? segment_raw_size h).

Definition Open (file : string) (w : RecordWriter) : bool * RecordWriter :=
  let path := if segmented (rw_header w) then (file ++ index_string 0)%string else file in
  let w1 := with_path file path 1 (close_file w) in
  let '(ok, w2) := open_file w1 in
  if negb ok then (false, w2)
  else
    let '(ok, w3) := write_header w2 in
    if negb ok then (false, close_file w3) else (true, with_opened true w3).

Definition Close (w : RecordWriter) : RecordWriter := if is_opened_ w then with_opened false (close_file w) else w.

Fixpoint write_channels (w : RecordWriter) (l : list (string * Z)) (fw : RecordFileWriter) : bool * RecordFileWriter :=
  match l with
  | [] => (true, fw)
  | (name, _) :: l' =>
      let channel := mkChannel name (default "" (channel_message_type_map_ w !! name)) (default "" (channel_proto_desc_map_ w !! name)) in
      let '(ok, fw') := RecordFile.WriteChannel channel fw in
      if negb ok then (false, fw') else write_channels w l' fw'
  end.

Definition SplitOutfile (w : RecordWriter) : bool * RecordWriter :=
  let index := if 99999 <? file_index_ w then 0 else file_index_ w in
  let w1 := with_segment 0 0 (with_path (file_ w) (file_ w ++ index_string index)%string (index + 1) w) in
  let '(ok, w2) := open_file w1 in
  if negb ok then (false, w2)
  else
    let '(ok, w3) := write_header w2 in
    if negb ok then (false, w3)
    else match file_writer_ w3 with
         | Some fw => let '(ok, fw') := write_channels w3 (map_to_list (rw_message_number_map_ w3)) fw in (ok, with_writer (Some fw') w3)
         | None => (false, w3)
         end.

Definition IsNewChannel (name : string) (w : RecordWriter) : bool := bool_decide (rw_message_number_map_ w !! name = None).
Definition OnNewChannel (name message_type proto_desc : string) (w : RecordWriter) : RecordWriter :=
  with_channels (<[name := 0]> (rw_message_number_map_ w)) (<[name := message_type]> (channel_message_type_map_ w))
    (<[name := proto_desc]> (channel_proto_desc_map_ w)) w.
Definition OnNewMessage (name : string) (w : RecordWriter) : RecordWriter :=
  match rw_message_number_map_ w !! name with
  | Some n => with_channels (<[name := wrap_u64 (n + 1)]> (rw_message_number_map_ w)) (channel_message_type_map_ w) (channel_proto_desc_map_ w) w
  | None => w
  end.

Definition WriteChannel (name message_type proto_desc : string) (w : RecordWriter) : option (bool * RecordWriter) :=
  if IsNewChannel name w then
    let w1 := OnNewChannel name message_type proto_desc w in
    fw ← file_writer_ w1;
    let '(ok, fw') := RecordFile.WriteChannel (mkChannel name message_type proto_desc) fw in
    Some (ok, with_writer (Some fw') w1)
  else Some (true, w).

(** The size and the begin of the segment with a message. *)
Definition count_segment (message : SingleMessage) (w : RecordWriter) : RecordWriter :=
  let size := wrap_u64 (segment_raw_size_ w + Z.of_nat (length (sm_content message))) in
  let b0 := if segment_begin_time_ w =? 0 then sm_time message else segment_begin_time_ w in
  with_segment size (if sm_time message <? b0 then sm_time message else b0) w.

Definition need_split (message : SingleMessage) (w : RecordWriter) : bool :=
  ((0 <? segment_interval (rw_header w)) && (segment_interval (rw_header w) <? wrap_u64 (sm_time message - segment_begin_time_ w))) ||
  ((0 <? segment_raw_size (rw_header w)) && (segment_raw_size (rw_header w) <? segment_raw_size_ w)).

(** [WriteMessage(const SingleMessage&)]. *)
Definition write_message (message : SingleMessage) (w : RecordWriter) : option (bool * RecordWriter) :=
  let w1 := OnNewMessage (sm_channel_name message) w in
  fw ← file_writer_ w1;
  let w2 := count_segment message (with_writer (Some (RecordFile.WriteMessage message fw)) w1) in
  Some (if need_split message w2 then SplitOutfile (close_file w2) else (true, w2)).

(** [WriteMessage(channel_name, std::string)], and of a raw message, which may be null. *)
Definition WriteString (channel_name : string) (content : bytes) (time_nanosec : Z) (w : RecordWriter) : option (bool * RecordWriter) :=
  write_message (mkSingleMessage channel_name time_nanosec content) w.
Definition WriteRaw (channel_name : string) (message : option bytes) (time_nanosec : Z) (w : RecordWriter) : option (bool * RecordWriter) :=
  match message with Some content => WriteString channel_name content time_nanosec w | None => Some (false, w) end.

Definition GetMessageNumber (name : string) (w : RecordWriter) : Z := default 0 (rw_message_number_map_ w !! name).
Definition GetMessageType (name : string) (w : RecordWriter) : string := default "" (channel_message_type_map_ w !! name).
Definition GetProtoDesc (name : string) (w : RecordWriter) : string := default "" (channel_proto_desc_map_ w !! name).
Definition GetChannelList (w : RecordWriter) : gset string := dom (rw_message_number_map_ w).

(** [WriteMessage<MessageT>]: of the name of its type, and of its serialization, which may fail. *)
Definition WriteMessage (channel_name type_name : string) (content : option bytes) (time_nanosec : Z) (proto_desc : string) (w : RecordWriter)
    : option (bool * RecordWriter) :=
  let message_type := GetMessageType channel_name w in
  '(ok, w1) ← (if String.eqb message_type "" then WriteChannel channel_name type_name proto_desc w
               else Some (String.eqb type_name message_type, w));
  if negb ok : bool then Some (false, w1)
  else match content with
       | None => Some (false, w1)
       | Some content => WriteString channel_name content time_nanosec w1
       end.

Definition SetSizeOfFileSegmentation (size_kilobytes : Z) (w : RecordWriter) : bool * RecordWriter :=
  if is_opened_ w then (false, w)
  else (true, with_rw_header (set_segment (segment_interval (rw_header w)) (wrap_u64 (size_kilobytes * 1024)) (rw_header w)) w).
Definition SetIntervalOfFileSegmentation (time_sec : Z) (w : RecordWriter) : bool * RecordWriter :=
  if is_opened_ w then (false, w)
  else (true, with_rw_header (set_segment (wrap_u64 (time_sec * 1000000000)) (segment_raw_size (rw_header w)) (rw_header w)) w).

(** A turn of the thread that flushes the file. *)
Definition flush_turn (w : RecordWriter) : RecordWriter :=
  match file_writer_ w with
  | Some fw => if is_writing_ fw then with_writer (Some (FlushStep fw)) w else w
  | None => w
  end.
End writer.
