(* ===== verification/RecordSegments.v ===== *)
(** * RecordSegments: the files of a recorder

    A recorder that is used with channels it knows, on a medium with room, leaves one closed file per segment; the segments hold the messages
    in the order they came, and every segment names the channels of its messages. *)

From Stdlib Require Import Ascii.
From stdpp Require Import strings.
From S2P Require Import Prelude ShmMessage RecordProto RecordFile RecordReader RecordReading RecordRoundtrip RecordWriter.

(** ** The paths of segments *)

Lemma digit_inj a b : digit a = digit b -> a mod 10 = b mod 10.
Proof.
  unfold digit. intros H. apply (f_equal nat_of_ascii) in H. rewrite !nat_ascii_embedding in H by div_lia. apply Z2Nat.inj in H; div_lia.
Qed.

Lemma index_string_inj a b : 0 <= a < 100000 -> 0 <= b < 100000 -> index_string a = index_string b -> a = b.
Proof.
  intros Ha Hb. unfold index_string. intros H. injection H as H4 H3 H2 H1 H0.
  apply digit_inj in H4, H3, H2, H1, H0. div_lia.
Qed.

Definition segment_path (file : string) (h : Header) (i : nat) : string :=
  if segmented h then (file ++ index_string (Z.of_nat i))%string else file.

Lemma segment_path_inj file h i j : segmented h = true -> Z.of_nat i < 100000 -> Z.of_nat j < 100000 -> segment_path file h i = segment_path file h j -> i = j.
Proof.
  unfold segment_path. intros -> Hi Hj H. apply (inj (String.append file)) in H. apply index_string_inj in H; lia.
Qed.

Section segments.
Context `{!Wire Header, !Wire Channel, !Wire ChunkHeader, !Wire ChunkBody, !Wire Index}.

(** ** What a user does *)

Inductive rop := OChannel (name message_type proto_desc : string) | OMessage (m : SingleMessage) | OTurn.

Abbreviation every_path := (fun _ : string => true).

Definition run_rop (w : RecordWriter) (o : rop) : option RecordWriter :=
  match o with
  | OChannel name t d => snd <$> RecordWriter.WriteChannel name t d w
  | OMessage m => snd <$> write_message every_path None m w
  | OTurn => Some (flush_turn w)
  end.
Fixpoint run_rops (w : RecordWriter) (l : list rop) : option RecordWriter :=
  match l with [] => Some w | o :: l' => w' ← run_rop w o; run_rops w' l' end.

Definition rop_messages (o : rop) : list SingleMessage := match o with OMessage m => [m] | _ => [] end.
Definition rops_messages (l : list rop) : list SingleMessage := mjoin (rop_messages <$> l).

(** Messages come on channels that are known, as the typed [WriteMessage] sees to. *)
Fixpoint known_channels (known : gset string) (l : list rop) : bool :=
  match l with
  | [] => true
  | OChannel name _ _ :: l' => known_channels ({[name]} ∪ known) l'
  | OMessage m :: l' => bool_decide (sm_channel_name m ∈ known) && known_channels known l'
  | OTurn :: l' => known_channels known l'
  end.

(** ** Segments *)

Record segment := mkSegment { sg_old : bytes; sg_events : list wevent }.

Definition segments_messages (l : list segment) : list SingleMessage := mjoin ((fun s => written (sg_events s)) <$> l).

(** Every message of a segment is on a channel that the segment names. *)
Definition named (s : segment) : Prop :=
  forall m, m ∈ written (sg_events s) -> exists c, c ∈ written_channels (sg_events s) /\ ch_name c = sm_channel_name m.

Record writer_inv (file : string) (h : Header) (closed : list segment) (cur : segment) (messages : list SingleMessage) (w : RecordWriter) : Prop := {
  wi_header : rw_header w = h;
  wi_file : file_ w = file;
  wi_opened : is_opened_ w = true;
  wi_writer : file_writer_ w = Some (writer_after h (sg_old cur) (sg_events cur));
  wi_path : path_ w = segment_path file h (length closed);
  wi_index : file_index_ w = Z.of_nat (length closed) + 1;
  wi_split : segmented h = false -> closed = [];
  wi_closed : forall i s, closed !! i = Some s -> disk w !! segment_path file h i = Some (recorded h (sg_old s) (sg_events s));
  wi_messages : segments_messages (closed ++ [cur]) = messages;
  wi_count : (length closed <= length messages)%nat;
  wi_known : forall name, is_Some (rw_message_number_map_ w !! name) -> exists c, c ∈ written_channels (sg_events cur) /\ ch_name c = name;
  wi_named : Forall named (closed ++ [cur]);
}.

Lemma segments_messages_app l1 l2 : segments_messages (l1 ++ l2) = segments_messages l1 ++ segments_messages l2.
Proof. unfold segments_messages. by rewrite fmap_app, join_app. Qed.
Lemma segments_messages_one s : segments_messages [s] = written (sg_events s).
Proof. unfold segments_messages. cbn. by rewrite app_nil_r. Qed.

Lemma writer_after_app h old evs1 evs2 : writer_after h old (evs1 ++ evs2) = fold_left run_event evs2 (writer_after h old evs1).
Proof. unfold writer_after. by rewrite fold_left_app. Qed.

Lemma written_channels_one e : written_channels [e] = event_channels e.
Proof. unfold written_channels. cbn. by rewrite app_nil_r. Qed.
Lemma written_one e : written [e] = event_messages e.
Proof. unfold written. cbn. by rewrite app_nil_r. Qed.

Lemma elem_written_channels c evs : EChannel c ∈ evs -> c ∈ written_channels evs.
Proof.
  intros (l1 & l2 & ->)%list_elem_of_split. rewrite written_channels_app. apply elem_of_app. right. by left.
Qed.

Lemma WriteChannel_after h old evs ch : (length (ser h) <= HEADER_LENGTH)%nat -> Z.of_nat (length (written evs)) < two64 ->
  RecordFile.WriteChannel ch (writer_after h old evs) = (true, writer_after h old (evs ++ [EChannel ch])).
Proof.
  intros Hl Hn. destruct (WriteChannel_inv _ _ _ _ ch _ (writer_after_inv h old evs Hl Hn)) as (w' & E & _). rewrite writer_after_app. cbn [fold_left run_event].
  by rewrite E.
Qed.

(** The channels that a new file names. *)
Definition channel_event (w : RecordWriter) (p : string * Z) : wevent :=
  EChannel (mkChannel p.1 (default "" (channel_message_type_map_ w !! p.1)) (default "" (channel_proto_desc_map_ w !! p.1))).

Lemma written_channel_events w l : written (map (channel_event w) l) = [].
Proof. induction l as [|p l IH]; [done|]. exact IH. Qed.

Lemma write_channels_after w l : forall h old evs, (length (ser h) <= HEADER_LENGTH)%nat -> Z.of_nat (length (written evs)) < two64 ->
  write_channels w l (writer_after h old evs) = (true, writer_after h old (evs ++ map (channel_event w) l)).
Proof.
  induction l as [|[name n] l IH]; intros h old evs Hl Hn; cbn [write_channels map]; [by rewrite app_nil_r|].
  rewrite WriteChannel_after by done. cbn [negb]. rewrite IH; [|done|].
  - by rewrite <- app_assoc.
  - rewrite written_app, written_one. cbn. by rewrite app_nil_r.
Qed.

(** ** One more event in the file *)

Definition add_event (e : wevent) (s : segment) : segment := mkSegment (sg_old s) (sg_events s ++ [e]).

Lemma add_event_messages e s : written (sg_events (add_event e s)) = written (sg_events s) ++ event_messages e.
Proof. cbn [add_event sg_events]. by rewrite written_app, written_one. Qed.

Lemma add_event_channels e s c : c ∈ written_channels (sg_events s) \/ c ∈ event_channels e -> c ∈ written_channels (sg_events (add_event e s)).
Proof. cbn [add_event sg_events]. rewrite written_channels_app, written_channels_one. apply elem_of_app. Qed.

Lemma writer_inv_event file h closed cur messages w e w' :
  writer_inv file h closed cur messages w ->
  (forall m, m ∈ event_messages e -> is_Some (rw_message_number_map_ w !! sm_channel_name m)) ->
  rw_header w' = rw_header w -> file_ w' = file_ w -> is_opened_ w' = is_opened_ w -> path_ w' = path_ w -> file_index_ w' = file_index_ w -> disk w' = disk w ->
  file_writer_ w' = Some (run_event (writer_after h (sg_old cur) (sg_events cur)) e) ->
  (forall name, is_Some (rw_message_number_map_ w' !! name) -> is_Some (rw_message_number_map_ w !! name) \/ exists c, c ∈ event_channels e /\ ch_name c = name) ->
  writer_inv file h closed (add_event e cur) (messages ++ event_messages e) w'.
Proof.
  intros [I1 I2 I3 I4 I5 I6 I7 I8 I9 I10 I11 I12] Hm E1 E2 E3 E4 E5 E6 E7 Hk. split; try congruence; try done.
  - rewrite E7. unfold add_event. cbn [sg_old sg_events]. by rewrite writer_after_app.
  - intros i s Hs. rewrite E6. by apply I8.
  - rewrite <- I9, !segments_messages_app, !segments_messages_one, add_event_messages. by rewrite app_assoc.
  - rewrite length_app. lia.
  - intros name Hn. destruct (Hk name Hn) as [H|(c & Hc & <-)].
    + destruct (I11 name H) as (c & Hc & <-). exists c. split; [|done]. apply add_event_channels. by left.
    + exists c. split; [|done]. apply add_event_channels. by right.
  - apply Forall_app in I12 as [N1 N2]. apply Forall_inv in N2. apply Forall_app_2; [done|]. constructor; [|constructor]. intros m. rewrite add_event_messages.
    intros [Hx|Hx]%elem_of_app.
    + destruct (N2 m Hx) as (c & Hc & E). exists c. split; [|done]. apply add_event_channels. by left.
    + destruct (I11 _ (Hm m Hx)) as (c & Hc & E). exists c. split; [|done]. apply add_event_channels. by left.
Qed.

(** ** The next file *)

Lemma split_inv file h closed cur messages w : (length (ser h) <= HEADER_LENGTH)%nat -> segmented h = true ->
  (length closed < length messages)%nat -> Z.of_nat (length messages) < 99999 -> writer_inv file h closed cur messages w ->
  exists w' old, SplitOutfile every_path None (close_file w) = (true, w') /\
    writer_inv file h (closed ++ [cur]) (mkSegment old (map (channel_event w) (map_to_list (rw_message_number_map_ w)))) messages w' /\
    rw_message_number_map_ w' = rw_message_number_map_ w.
Proof.
  intros Hl Hseg Hc Hn [I1 I2 I3 I4 I5 I6 I7 I8 I9 I10 I11 I12]. unfold SplitOutfile, close_file. rewrite I4.
  cbn [with_disk with_writer file_index_ file_ rw_message_number_map_]. rewrite I6. rewrite (proj2 (Z.ltb_ge _ _)) by lia. unfold open_file.
  set (w0 := with_disk _ _). set (w1 := with_segment 0 0 _).
  cbn [negb]. unfold write_header. cbn [with_writer file_writer_ rw_header]. set (old := default [] (disk w1 !! path_ w1)).
  change (rw_header w1) with (rw_header w). rewrite I1. pose proof (WriteHeader_ok h old Hl) as Hok.
  assert (Efw : (WriteHeader h (OpenWriter old None)).2 = writer_after h old []) by done.
  destruct (WriteHeader h (OpenWriter old None)) as [ok fw]. cbn [fst snd] in *. subst ok fw. cbn [negb with_writer file_writer_].
  set (w3 := with_writer _ (with_writer _ w1)). change (rw_message_number_map_ w3) with (rw_message_number_map_ w). set (l := map_to_list _).
  rewrite (write_channels_after w3 l h old []) by done. cbn [app]. change (map (channel_event w3) l) with (map (channel_event w) l).
  eexists _, old. split; [reflexivity|]. split; [|done]. assert (Hpath : segment_path file h (length (closed ++ [cur])) = path_ w1).
  { unfold segment_path. rewrite Hseg. cbn [w1 with_segment with_path path_]. rewrite I2, length_app. do 3 f_equal. cbn. lia. }
  split; try (exact I1 || exact I2 || exact I3 || reflexivity || done).
  - cbn [with_writer file_index_ w3 w1 with_segment with_path]. rewrite length_app. cbn. lia.
  - congruence.
  - intros i s Hs. cbn [with_writer disk w3 w1 with_segment with_path w0 with_disk]. rewrite I5.
    destruct (decide (i = length closed)) as [->|Hne].
    + rewrite lookup_insert_eq. rewrite lookup_app_r, Nat.sub_diag in Hs by done. by injection Hs as <-.
    + assert (Hi : (i < length closed)%nat) by (apply lookup_lt_Some in Hs; rewrite length_app in Hs; cbn in Hs; lia).
      rewrite lookup_app_l in Hs by done. rewrite lookup_insert_ne; [by apply I8|]. intros E. apply segment_path_inj in E; [lia|done|lia..].
  - rewrite segments_messages_app, segments_messages_one. cbn [sg_events]. by rewrite written_channel_events, app_nil_r.
  - rewrite length_app. cbn. lia.
  - intros name [n Hname]. cbn [with_writer rw_message_number_map_ w3 w1 with_segment with_path w0 with_disk] in Hname.
    eexists. split; [apply elem_written_channels, (list_elem_of_fmap_2 (channel_event w) l (name, n)), elem_of_map_to_list, Hname|done].
  - apply Forall_app_2; [done|]. constructor; [|constructor]. intros m. cbn [sg_events]. rewrite written_channel_events. by intros ?%not_elem_of_nil.
Qed.

(** ** A call of the user *)

Lemma OnNewMessage_known name w x : is_Some (rw_message_number_map_ (OnNewMessage name w) !! x) <-> is_Some (rw_message_number_map_ w !! x).
Proof.
  unfold OnNewMessage. destruct (rw_message_number_map_ w !! name) eqn:E; [|done]. cbn [with_channels rw_message_number_map_].
  rewrite lookup_insert_is_Some'. split; [intros [<-|H]; [by rewrite E|done]|by right].
Qed.

Lemma OnNewMessage_same name w :
  rw_header (OnNewMessage name w) = rw_header w /\ file_ (OnNewMessage name w) = file_ w /\ is_opened_ (OnNewMessage name w) = is_opened_ w /\
  path_ (OnNewMessage name w) = path_ w /\ file_index_ (OnNewMessage name w) = file_index_ w /\ disk (OnNewMessage name w) = disk w /\
  file_writer_ (OnNewMessage name w) = file_writer_ w.
Proof. unfold OnNewMessage. by destruct (_ !! _). Qed.

Lemma need_split_segmented m w : need_split m w = true -> segmented (rw_header w) = true.
Proof. unfold need_split, segmented. intros [[-> _]%andb_true_iff|[-> _]%andb_true_iff]%orb_true_iff; [done|by rewrite orb_true_r]. Qed.

Definition rop_known (o : rop) : gset string := match o with OChannel name _ _ => {[name]} | _ => ∅ end.

Lemma segment_bound file h closed cur messages w : writer_inv file h closed cur messages w -> (length (written (sg_events cur)) <= length messages)%nat.
Proof. intros Hi. rewrite <- (wi_messages _ _ _ _ _ _ Hi), segments_messages_app, segments_messages_one, length_app. lia. Qed.

Lemma run_rop_inv file h closed cur messages w o known : (length (ser h) <= HEADER_LENGTH)%nat -> Z.of_nat (length (messages ++ rop_messages o)) < 99999 ->
  writer_inv file h closed cur messages w -> (forall m, m ∈ rop_messages o -> sm_channel_name m ∈ known) -> known ⊆ dom (rw_message_number_map_ w) ->
  exists w' closed' cur', run_rop w o = Some w' /\ writer_inv file h closed' cur' (messages ++ rop_messages o) w' /\
    rop_known o ∪ known ⊆ dom (rw_message_number_map_ w').
Proof.
  intros Hl Hn Hi Hm Hk. pose proof (segment_bound _ _ _ _ _ _ Hi) as Hb. rewrite length_app in Hn. destruct o as [name t d|m|]; cbn [run_rop rop_messages rop_known] in *.
  - unfold RecordWriter.WriteChannel, IsNewChannel. case_bool_decide as Hnew.
    + cbn [OnNewChannel with_channels file_writer_]. rewrite (wi_writer _ _ _ _ _ _ Hi). cbn [mbind option_bind].
      rewrite WriteChannel_after by (done || (unfold two64; lia)). cbn [fmap option_fmap option_map snd]. eexists _, closed, (add_event (EChannel (mkChannel name t d)) cur).
      split; [reflexivity|]. split; [apply (writer_inv_event file h closed cur messages w (EChannel (mkChannel name t d)) _ Hi); try done|].
      * by intros m ?%not_elem_of_nil.
      * unfold add_event. cbn [with_writer file_writer_ sg_old sg_events]. by rewrite writer_after_app.
      * intros x. cbn [with_writer OnNewChannel with_channels rw_message_number_map_]. rewrite lookup_insert_is_Some'. intros [<-|H]; [|by left].
        right. exists (mkChannel name t d). split; [by left|done].
      * cbn [with_writer OnNewChannel with_channels rw_message_number_map_]. rewrite dom_insert_L. set_solver.
    + cbn [fmap option_fmap option_map snd]. exists w, closed, cur. rewrite app_nil_r. split; [done|]. split; [done|].
      assert (name ∈ dom (rw_message_number_map_ w)) by by apply elem_of_dom, not_eq_None_Some. set_solver.
  - unfold write_message. destruct (OnNewMessage_same (sm_channel_name m) w) as (S1 & S2 & S3 & S4 & S5 & S6 & S7). rewrite S7, (wi_writer _ _ _ _ _ _ Hi).
    cbn [mbind option_bind fmap option_fmap option_map]. set (w2 := count_segment _ _).
    assert (Hi2 : writer_inv file h closed (add_event (EMessage m) cur) (messages ++ [m]) w2).
    { apply (writer_inv_event file h closed cur messages w (EMessage m) w2 Hi); try done.
      - intros x [->|[]%not_elem_of_nil]%elem_of_cons. apply elem_of_dom, Hk, Hm. by left.
      - intros x Hx. left. by apply (OnNewMessage_known (sm_channel_name m)). }
    assert (Hk2 : known ⊆ dom (rw_message_number_map_ w2)).
    { intros x Hx%Hk. apply elem_of_dom. apply elem_of_dom in Hx. by apply (OnNewMessage_known (sm_channel_name m)). }
    destruct (need_split m w2) eqn:Es.
    + apply need_split_segmented in Es. rewrite (wi_header _ _ _ _ _ _ Hi2) in Es. pose proof (wi_count _ _ _ _ _ _ Hi).
      destruct (split_inv file h closed (add_event (EMessage m) cur) (messages ++ [m]) w2 Hl Es ltac:(rewrite length_app; cbn; lia)
        ltac:(rewrite length_app; cbn in *; lia) Hi2) as (w' & old & E & Hi' & Ek).
      eexists w', _, _. rewrite E. split; [done|]. split; [exact Hi'|]. rewrite Ek. set_solver.
    + eexists w2, closed, _. split; [done|]. split; [exact Hi2|]. set_solver.
  - unfold flush_turn. rewrite (wi_writer _ _ _ _ _ _ Hi). rewrite (fi_writing _ _ _ _ _ (writer_after_inv h (sg_old cur) (sg_events cur) Hl ltac:(unfold two64; lia))).
    eexists _, closed, (add_event EFlush cur). split; [done|]. split; [|cbn [with_writer rw_message_number_map_]; set_solver].
    apply (writer_inv_event file h closed cur messages w EFlush _ Hi); try done; [by intros m ?%not_elem_of_nil|]. intros x Hx. by left.
Qed.

(** ** From the first call to the last *)

Lemma known_channels_step known o l : known_channels known (o :: l) = true ->
  (forall m, m ∈ rop_messages o -> sm_channel_name m ∈ known) /\ known_channels (rop_known o ∪ known) l = true.
Proof.
  destruct o as [name t d|m|]; cbn [known_channels rop_messages rop_known].
  - intros H. split; [by intros m ?%not_elem_of_nil|done].
  - intros [Hm%bool_decide_eq_true H]%andb_true_iff. split; [|by rewrite (left_id_L ∅ (∪))]. by intros x [->|[]%not_elem_of_nil]%elem_of_cons.
  - intros H. split; [by intros m ?%not_elem_of_nil|by rewrite (left_id_L ∅ (∪))].
Qed.

Lemma known_channels_mono l : forall known known', known ⊆ known' -> known_channels known l = true -> known_channels known' l = true.
Proof.
  induction l as [|o l IH]; intros known known' Hk; [done|]. destruct o as [name t d|m|]; cbn [known_channels].
  - apply IH. set_solver.
  - intros [Hm%bool_decide_eq_true H]%andb_true_iff. apply andb_true_iff. split; [|by apply (IH known)]. apply bool_decide_eq_true. set_solver.
  - by apply IH.
Qed.

Lemma run_rops_inv file h : (length (ser h) <= HEADER_LENGTH)%nat -> forall l closed cur messages w,
  Z.of_nat (length (messages ++ rops_messages l)) < 99999 -> writer_inv file h closed cur messages w ->
  known_channels (dom (rw_message_number_map_ w)) l = true ->
  exists w' closed' cur', run_rops w l = Some w' /\ writer_inv file h closed' cur' (messages ++ rops_messages l) w'.
Proof.
  intros Hl. induction l as [|o l IH]; intros closed cur messages w Hn Hi Hk; [exists w, closed, cur; by rewrite app_nil_r|].
  change (rops_messages (o :: l)) with (rop_messages o ++ rops_messages l) in *. rewrite app_assoc in *.
  destruct (known_channels_step _ _ _ Hk) as [Hm Hk']. destruct (run_rop_inv file h closed cur messages w o (dom (rw_message_number_map_ w)) Hl ltac:(rewrite length_app in Hn; lia) Hi Hm)
    as (w1 & closed1 & cur1 & E & Hi1 & Hk1); [done|]. cbn [run_rops]. rewrite E. cbn [mbind option_bind].
  apply (IH closed1 cur1); [done|done|]. by eapply known_channels_mono.
Qed.

Lemma Open_inv file h d : (length (ser h) <= HEADER_LENGTH)%nat ->
  exists w old, Open every_path None file (RecordWriter_with h d) = (true, w) /\ writer_inv file h [] (mkSegment old []) [] w /\
    rw_message_number_map_ w = ∅.
Proof.
  intros Hl. unfold Open, close_file. cbn [RecordWriter_with file_writer_ rw_header]. set (w1 := with_path _ _ _ _). unfold open_file. cbn [negb].
  set (old := default [] (disk w1 !! path_ w1)). unfold write_header. cbn [with_writer file_writer_ rw_header w1 with_path RecordWriter_with].
  pose proof (WriteHeader_ok h old Hl) as Hok. assert (Efw : (WriteHeader h (OpenWriter old None)).2 = writer_after h old []) by done.
  destruct (WriteHeader h (OpenWriter old None)) as [ok fw]. cbn [fst snd] in *. subst ok fw. cbn [negb].
  eexists _, old. split; [reflexivity|]. split; [|done]. split; try done.
  - intros name [n Hname]. cbn in Hname. by rewrite lookup_empty in Hname.
  - constructor; [|constructor]. intros m. by intros ?%not_elem_of_nil.
Qed.

(** The files after [Close]. *)
Lemma Close_disk file h closed cur messages w : Z.of_nat (length messages) < 99999 -> writer_inv file h closed cur messages w ->
  forall i s, (closed ++ [cur]) !! i = Some s -> disk (Close w) !! segment_path file h i = Some (recorded h (sg_old s) (sg_events s)).
Proof.
  intros Hn [I1 I2 I3 I4 I5 I6 I7 I8 I9 I10 I11 I12] i s Hs. unfold Close, close_file. rewrite I3, I4. cbn [with_opened with_disk with_writer disk path_]. rewrite I5.
  destruct (decide (i = length closed)) as [->|Hne].
  - rewrite lookup_insert_eq. rewrite lookup_app_r, Nat.sub_diag in Hs by done. by injection Hs as <-.
  - assert (Hi : (i < length closed)%nat) by (apply lookup_lt_Some in Hs; rewrite length_app in Hs; cbn in Hs; lia).
    rewrite lookup_app_l in Hs by done. rewrite lookup_insert_ne; [by apply I8|].
    destruct (segmented h) eqn:Eseg; [|by rewrite (I7 eq_refl) in Hi; cbn in Hi; lia]. intros E. apply segment_path_inj in E; [lia|done|lia..].
Qed.

Section read_back.
Context `{!WireLaws Header header_ok, !WireLaws Channel channel_ok, !WireLaws ChunkHeader chunk_header_ok, !WireLaws ChunkBody body_ok,
  !WireLaws Index index_ok}.
Context (default_block : nat) (expect_at_end : bytes -> bool).

(** The files of the segments, read one after another. *)
Fixpoint read_files (fuel : nat) (d : gmap string bytes) (paths : list string) : option (list SingleMessage) :=
  match paths with
  | [] => Some []
  | p :: l =>
      bs ← d !! p;
      m1 ← read_all default_block expect_at_end fuel 0 max_time (RecordReader_new default_block expect_at_end bs);
      m2 ← read_files fuel d l;
      Some (m1 ++ m2)
  end.

Lemma read_files_segments fuel d path h l : (forall i s, l !! i = Some s -> d !! path i = Some (recorded h (sg_old s) (sg_events s))) ->
  Forall (fun s => fits h (sg_old s) (sg_events s)) l -> Forall (fun s => (read_fuel h (sg_events s) <= fuel)%nat) l ->
  exists ms, read_files fuel d (map path (seq 0 (length l))) = Some ms /\ ms ≡ₚ segments_messages l.
Proof.
  intros Hd Hfit. revert path Hd. induction Hfit as [|s l Hs Hl IH]; intros path Hd Hf; [by exists []|]. apply Forall_cons in Hf as [Hf Hfl].
  cbn [length seq map read_files]. rewrite (Hd 0%nat s) by done. cbn [mbind option_bind].
  rewrite read_all_closed; [|done| |done|by eapply closed_header_in_file|done].
  2:{ intros i Hi. by apply good_fits_all, (proj1 (Forall_forall _ _) (closed_good h _ _ Hs)). }
  cbn [mbind option_bind]. rewrite <- seq_shift, map_map. destruct (IH (fun i => path (S i))) as (ms & -> & E); [by intros i s' Hs'; apply Hd|done|].
  cbn [mbind option_bind]. eexists. split; [reflexivity|]. rewrite E. change (segments_messages (s :: l)) with (written (sg_events s) ++ segments_messages l).
  apply Permutation_app_tail. rewrite (ranged_all _ (closed_messages_ok h _ _ Hs)). apply closed_messages.
Qed.

(** C9: recording to segments: the files are opened and split with every call succeeding; when the recorder is closed, there is one file per
    segment, under the numbered paths; the segments hold the messages in the order they came, every segment names the channels of its
    messages, and reading the files one after another gives back every message once. *)
Theorem recording_keeps_all file h d ops : (length (ser h) <= HEADER_LENGTH)%nat -> known_channels ∅ ops = true ->
  Z.of_nat (length (rops_messages ops)) < 99999 ->
  exists w1 w2 segs, Open every_path None file (RecordWriter_with h d) = (true, w1) /\ run_rops w1 ops = Some w2 /\
    (forall i s, segs !! i = Some s -> disk (Close w2) !! segment_path file h i = Some (recorded h (sg_old s) (sg_events s))) /\
    segments_messages segs = rops_messages ops /\ Forall named segs /\
    (Forall (fun s => fits h (sg_old s) (sg_events s)) segs -> exists enough, forall fuel, (enough <= fuel)%nat -> exists ms,
      read_files fuel (disk (Close w2)) (map (segment_path file h) (seq 0 (length segs))) = Some ms /\ ms ≡ₚ rops_messages ops).
Proof.
  intros Hl Hk Hn. destruct (Open_inv file h d Hl) as (w1 & old & E1 & Hi1 & Ed).
  destruct (run_rops_inv file h Hl ops [] (mkSegment old []) [] w1) as (w2 & closed & cur & E2 & Hi2); [done|exact Hi1|by rewrite Ed, dom_empty_L|].
  pose proof (Close_disk file h closed cur _ w2 Hn Hi2) as Hd. exists w1, w2, (closed ++ [cur]). split; [done|]. split; [done|]. split; [exact Hd|].
  split; [apply (wi_messages _ _ _ _ _ _ Hi2)|]. split; [apply (wi_named _ _ _ _ _ _ Hi2)|]. intros Hfit.
  exists (sum_list ((fun s => read_fuel h (sg_events s)) <$> (closed ++ [cur]))). intros fuel Hf.
  destruct (read_files_segments fuel (disk (Close w2)) (segment_path file h) h (closed ++ [cur]) Hd Hfit) as (ms & -> & E).
  { apply Forall_forall. intros s Hs. etransitivity; [|exact Hf]. clear -Hs. induction Hs as [s l|s s' l Hs IH]; cbn in *; lia. }
  exists ms. split; [done|]. by rewrite E, (wi_messages _ _ _ _ _ _ Hi2).
Qed.
End read_back.
End segments.
