(* ===== verification/RecordDemo.v ===== *)
(** * RecordDemo: a record file

    The theorems on record files at a small file: a channel and three messages, in two chunks. *)

(** ** An instance of the serialization of messages

    What protobuf is to the record files, shown to be possible: a countable type has a serialization that is never empty, from the
    encoding of its values as numbers.  The theorems on record files are applied to it. *)

From stdpp Require Import countable strings.
From S2P Require Import Prelude ShmMessage RecordProto.

Definition count_bytes (p : positive) : nat := S (Z.to_nat (Z.log2 (Zpos p) / 8)).

Lemma count_bytes_bound p : 0 <= Zpos p < 256 ^ Z.of_nat (count_bytes p).
Proof.
  split; [lia|]. pose proof (Z.log2_spec (Zpos p) ltac:(lia)) as [_ H]. pose proof (Z.log2_nonneg (Zpos p)) as Hn. unfold count_bytes.
  rewrite Nat2Z.inj_succ, Z2Nat.id by (apply Z.div_pos; lia). change 256 with (2 ^ 8). rewrite <- Z.pow_mul_r by div_lia.
  eapply Z.lt_le_trans; [exact H|]. apply Z.pow_le_mono_r; [lia|]. div_lia.
Qed.

Definition countable_Wire (A : Type) `{Countable A} : Wire A := {|
  ser x := to_bytes (count_bytes (encode x)) (Zpos (encode x));
  parse l := match of_bytes l with Zpos p => decode p | _ => None end;
|}.

Lemma countable_WireLaws (A : Type) `{Countable A} (ok : A -> Prop) : @WireLaws A ok (countable_Wire A).
Proof.
  split. intros m _. cbn [parse ser countable_Wire]. rewrite of_to_bytes by apply count_bytes_bound. apply decode_encode.
Qed.

(** ** The messages are countable *)

Definition compress_num (c : CompressType) : Z := match c with COMPRESS_NONE => 0 | COMPRESS_BZ2 => 1 | COMPRESS_LZ4 => 2 end.
Definition compress_of (z : Z) : CompressType := if z =? 0 then COMPRESS_NONE else if z =? 1 then COMPRESS_BZ2 else COMPRESS_LZ4.
Definition type_of (z : Z) : SectionType :=
  if z =? 0 then SECTION_HEADER else if z =? 1 then SECTION_CHUNK_HEADER else if z =? 2 then SECTION_CHUNK_BODY else if z =? 3 then SECTION_INDEX
  else SECTION_CHANNEL.

Definition header_fields (h : Header) : list Z :=
  [major_version h; minor_version h; compress_num (compress h); chunk_interval h; segment_interval h; index_position h; chunk_number h;
   channel_number h; h_begin_time h; h_end_time h; h_message_number h; h_size h; if is_complete h then 1 else 0; chunk_raw_size h; segment_raw_size h].
Definition header_of_fields (l : list Z) : option Header :=
  match l with
  | [a; b; c; d; e; f; g; h; i; j; k; x; m; n; o] => Some (mkHeader a b (compress_of c) d e f g h i j k x (m =? 1) n o)
  | _ => None
  end.
Definition cache_fields (c : Cache) : string * string * string * list Z :=
  match c with
  | channel_cache c => (cc_name c, cc_message_type c, cc_proto_desc c, [cc_message_number c])
  | chunk_header_cache c => ("", "", "", [hc_message_number c; hc_begin_time c; hc_end_time c; hc_raw_size c])
  | chunk_body_cache n => ("", "", "", [n; 0])
  end.
Definition cache_of_fields (p : string * string * string * list Z) : option Cache :=
  let '(n, t, d, l) := p in
  match l with
  | [x] => Some (channel_cache (mkChannelCache x n t d))
  | [a; b; c; e] => Some (chunk_header_cache (mkChunkHeaderCache a b c e))
  | [x; _] => Some (chunk_body_cache x)
  | _ => None
  end.

#[export] Instance Header_countable : Countable Header.
Proof. refine (inj_countable header_fields header_of_fields _). intros [a b c d e f g h i j k x m n o]. by destruct c, m. Defined.
#[export] Instance Cache_countable : Countable Cache.
Proof. refine (inj_countable cache_fields cache_of_fields _). by intros [[]|[]|n]. Defined.
#[export] Instance Channel_countable : Countable Channel.
Proof.
  refine (inj_countable' (fun c => (ch_name c, ch_message_type c, ch_proto_desc c)) (fun p => mkChannel p.1.1 p.1.2 p.2) _). by intros [].
Defined.
#[export] Instance ChunkHeader_countable : Countable ChunkHeader.
Proof.
  refine (inj_countable (fun k => [k_begin_time k; k_end_time k; k_message_number k; k_raw_size k])
    (fun l => match l with [a; b; c; d] => Some (mkChunkHeader a b c d) | _ => None end) _). by intros [].
Defined.
#[export] Instance SingleMessage_countable : Countable SingleMessage.
Proof.
  refine (inj_countable' (fun m => (sm_channel_name m, sm_time m, sm_content m)) (fun p => mkSingleMessage p.1.1 p.1.2 p.2) _). by intros [].
Defined.
#[export] Instance SingleIndex_countable : Countable SingleIndex.
Proof.
  refine (inj_countable' (fun i => (section_num (si_type i), si_position i, si_cache i)) (fun p => mkSingleIndex (type_of p.1.1) p.1.2 p.2) _).
  by intros [[] p c].
Defined.

#[export] Instance Header_Wire : Wire Header := countable_Wire _.
#[export] Instance Channel_Wire : Wire Channel := countable_Wire _.
#[export] Instance ChunkHeader_Wire : Wire ChunkHeader := countable_Wire _.
#[export] Instance ChunkBody_Wire : Wire ChunkBody := countable_Wire _.
#[export] Instance Index_Wire : Wire Index := countable_Wire _.
#[export] Instance Header_Laws : WireLaws Header header_ok := countable_WireLaws _ _.
#[export] Instance Channel_Laws : WireLaws Channel channel_ok := countable_WireLaws _ _.
#[export] Instance ChunkHeader_Laws : WireLaws ChunkHeader chunk_header_ok := countable_WireLaws _ _.
#[export] Instance ChunkBody_Laws : WireLaws ChunkBody body_ok := countable_WireLaws _ _.
#[export] Instance Index_Laws : WireLaws Index index_ok := countable_WireLaws _ _.

(** ** Runs *)

From stdpp Require Import sorting.
From S2P Require Import Prelude ShmMessage RecordProto RecordFile RecordReader RecordReading RecordRoundtrip RecordViewing RecordPlayback RecordWriter RecordSegments.

Definition demo_channel : Channel := mkChannel "a" "T" "d".
Definition demo_message (t : Z) : SingleMessage := mkSingleMessage "a" t [7; 8].
Definition demo_header : Header := set_segment 0 0 (GetHeaderWithChunkParams 0 3).
Definition demo_events : list wevent :=
  [EChannel demo_channel; EMessage (demo_message 5); EMessage (demo_message 6); EFlush; EMessage (demo_message 9)].

#[local] Instance sized_dec bs : Decision (sized bs).
Proof. unfold sized. apply _. Defined.
#[local] Instance message_ok_dec m : Decision (message_ok m).
Proof. unfold message_ok, is_u64. apply _. Defined.

Ltac by_computing := lazymatch goal with |- ?P => refine (bool_decide_unpack P _); vm_compute; exact I end.

Lemma demo_fits : fits demo_header [1; 2; 3] demo_events.
Proof.
  split; [split; vm_compute; by (split; [|congruence])|by_computing..].
Defined.

Lemma demo_in_order : in_order (written demo_events).
Proof. repeat constructor; unfold time_le; cbn; lia. Defined.
Lemma demo_timed : Forall timed (written demo_events).
Proof. repeat constructor. Defined.

Lemma record_roundtrip_witness :
  exists l, read_all 5 (fun _ => true) 100 0 max_time (RecordReader_new 5 (fun _ => true) (recorded demo_header [1; 2; 3] demo_events)) = Some l /\
    l ≡ₚ written demo_events /\ (prompt demo_header (mkContents [] [] [] ∅) demo_events = true -> l = written demo_events).
Proof. apply (record_roundtrip 5 (fun _ => true) demo_header [1; 2; 3] demo_events 100 demo_fits). by_computing. Defined.

Lemma read_range_witness :
  read_all 5 (fun _ => true) 100 6 8 (RecordReader_new 5 (fun _ => true) (recorded demo_header [1; 2; 3] demo_events)) = Some [demo_message 6].
Proof.
  rewrite (read_range 5 (fun _ => true) demo_header [1; 2; 3] demo_events 6 8 100 demo_fits eq_refl); [reflexivity|reflexivity|apply demo_in_order|apply demo_timed|lia|by_computing].
Defined.

Lemma record_metadata_witness :
  RGetMessageNumber "a" (RecordReader_new 5 (fun _ => true) (recorded demo_header [1; 2; 3] demo_events)) = 3.
Proof.
  unfold RGetMessageNumber. destruct (record_metadata 5 (fun _ => true) demo_header [1; 2; 3] demo_events demo_fits eq_refl eq_refl) as (_ & _ & _ & _ & H).
  rewrite H. vm_compute. reflexivity.
Defined.

(** ** A chunk behind a later one *)

Definition demo_reader (old : bytes) (evs : list wevent) : RecordReader := RecordReader_new 5 (fun _ => true) (recorded demo_header old evs).
Definition demo_view (readers : list RecordReader) (b e : Z) : option (list SingleMessage) := view_records 5 (fun _ => true) 100 readers b e ∅.

(** The thread does not take its turn before the second chunk is full: the two chunks change places. *)
Definition late_events : list wevent := map (fun t => EMessage (demo_message t)) [5; 5; 6; 6].

(** When the second chunk is full before the flushing thread has taken the first, the first comes behind it in the file, and the header says
    that the record begins after it ends: all messages are in the file, but reading the range of the first two finds none, and a viewer
    of the whole record shows nothing. *)
Theorem late_chunk_hides_record :
  let r := demo_reader [] late_events in
  read_all 5 (fun _ => true) 100 0 max_time r = Some (map demo_message [6; 6; 5; 5]) /\
  h_begin_time (rr_header r) = 6 /\ h_end_time (rr_header r) = 5 /\
  read_all 5 (fun _ => true) 100 5 5 r = Some [] /\ demo_view [r] 0 max_time = Some [].
Proof. vm_compute. done. Qed.


(** Zero is no time for a chunk: its header says that it begins at the second message, and the first is not found. *)
Example time_zero_lost :
  let r := demo_reader [] [EMessage (demo_message 0); EMessage (demo_message 5)] in
  read_all 5 (fun _ => true) 100 0 max_time r = Some [demo_message 0; demo_message 5] /\ read_all 5 (fun _ => true) 100 0 3 r = Some [].
Proof. vm_compute. done. Qed.

(** A record over an older one whose writer did not come to close it: behind its only chunk, the messages of the older record are read. *)
Example stale_sections_read :
  let old := recorded demo_header [] (map (fun t => EMessage (demo_message t)) [1; 2; 3; 4]) in
  let w := fold_left run_event (map (fun t => EMessage (demo_message t)) [5; 6] ++ [EFlush]) (WriteHeader demo_header (OpenWriter old None)).2 in
  read_all 5 (fun _ => true) 100 0 max_time (RecordReader_new 5 (fun _ => true) (f_bytes (w_file w))) = Some (map demo_message [5; 6; 1; 2]).
Proof. vm_compute. done. Qed.

(** ** Two records *)

Definition demo_recordings : list recording :=
  [mkRecording demo_header [1; 2; 3] demo_events; mkRecording demo_header [] [EMessage (mkSingleMessage "b" 7 [])]].

Lemma demo_orderly : Forall rc_orderly demo_recordings.
Proof.
  constructor; [|constructor; [|constructor]].
  - exact (Build_orderly _ _ _ demo_fits eq_refl eq_refl demo_in_order demo_timed).
  - split; [split; [apply demo_fits|by_computing..]|done|done|repeat constructor|repeat constructor].
Defined.

Lemma records_viewed_witness :
  exists enough, forall fuel, (enough <= fuel)%nat -> exists l,
    view_records 5 (fun _ => true) fuel (map (rc_reader 5 (fun _ => true)) demo_recordings) 6 8 ∅ = Some l /\ in_order l /\
    l ≡ₚ [demo_message 6; mkSingleMessage "b" 7 []].
Proof.
  assert (E : filter (fun m => wanted ∅ m = true) (filter (in_range 6 8) (mjoin ((fun w => written (rc_events w)) <$> demo_recordings))) =
    [demo_message 6; mkSingleMessage "b" 7 []]) by (vm_compute; reflexivity).
  rewrite <- E. apply (records_viewed 5 (fun _ => true) demo_recordings 6 8 ∅ demo_orderly ltac:(lia)).
  constructor; [vm_compute; reflexivity|]. constructor; [vm_compute; reflexivity|constructor].
Defined.

(** ** A recorder *)

Definition demo_segments : Header := set_segment 0 3 (GetHeaderWithChunkParams 0 0).
Definition demo_ops : list rop :=
  [OChannel "a" "T" "d"; OMessage (demo_message 1); OMessage (demo_message 2); OTurn; OMessage (demo_message 3); OMessage (demo_message 4);
   OMessage (demo_message 5)].

Lemma recording_keeps_all_witness :
  exists w1 w2 segs, Open (fun _ => true) None "r" (RecordWriter_with demo_segments ∅) = (true, w1) /\ run_rops w1 demo_ops = Some w2 /\
    segments_messages segs = map demo_message [1; 2; 3; 4; 5] /\ Forall named segs.
Proof.
  destruct (recording_keeps_all 5 (fun _ => true) "r" demo_segments ∅ demo_ops ltac:(by_computing) eq_refl eq_refl)
    as (w1 & w2 & segs & H1 & H2 & _ & H4 & H5 & _).
  exists w1, w2, segs. split; [exact H1|]. split; [exact H2|]. split; [exact H4|exact H5].
Defined.

(** Three files: two that were split, and the one that was closed. *)
Example demo_recording_read :
  let w := run_rops (Open (fun _ => true) None "r" (RecordWriter_with demo_segments ∅)).2 demo_ops in
  (w ← w; read_files 5 (fun _ => true) 100 (disk (RecordWriter.Close w)) ["r.00000"; "r.00001"; "r.00002"]) = Some (map demo_message [1; 2; 3; 4; 5]).
Proof. vm_compute. done. Qed.

(** A channel that could not be written is known from then on: writing it again succeeds without writing. *)
Example channel_lost :
  let w := (Open (fun _ => true) (Some 2064%nat) "r" (RecordWriter_with demo_segments ∅)).2 in
  ('(ok1, w1) ← RecordWriter.WriteChannel "a" "T" "d" w; '(ok2, w2) ← RecordWriter.WriteChannel "a" "T" "d" w1;
   Some (ok1 : bool, ok2 : bool, w_index <$> file_writer_ w2)) = Some (false, true, Some []).
Proof. vm_compute. done. Qed.

(** When the next file cannot be opened, the call says so, and the call after it goes through a null pointer. *)
Example split_failure_crashes :
  let ok path := String.eqb path "r.00000" in
  let w := (Open ok None "r" (RecordWriter_with demo_segments ∅)).2 in
  ('(ok1, w1) ← write_message ok None (demo_message 1) w; '(ok2, w2) ← write_message ok None (demo_message 2) w1;
   Some (ok1 : bool, ok2 : bool, fst <$> write_message ok None (demo_message 3) w2)) = Some (true, false, None).
Proof. vm_compute. done. Qed.

(** A message out of order in a chunk of its own: the header takes the end of the last chunk, not the latest, and a viewer stops there. *)
Example out_of_order_not_shown :
  let r := demo_reader [] [EMessage (demo_message 1); EMessage (demo_message 3); EMessage (demo_message 2)] in
  read_all 5 (fun _ => true) 100 0 max_time r = Some (map demo_message [1; 3; 2]) /\ h_end_time (rr_header r) = 2 /\
  demo_view [r] 0 max_time = Some [demo_message 1].
Proof. vm_compute. done. Qed.
