(* ===== verification/Service.v ===== *)
(** * Service: requests and responses between clients and services

    Models [service/service.h], [service/client.h], [node/node_service_impl.h] and the way of the header of a message over RTPS
    ([rtps_transmitter.h], [sub_listener.cc]).  A net has clients and services, and the packets on the wire between them, which may arrive in
    any order or be lost.  The thread of a service takes a task and runs it as two steps; a call of a client and the arrival of a response are
    steps of their own, under the mutex of the client.  A callback may send another request on its client.  The callbacks of the services
    share a state, which they and the rest of the program use under its lock.  [None] is a step that cannot be made, or that waits
    forever. *)

From S2P Require Import Prelude ShmMessage.

(** ** The header of a message over RTPS *)

Definition SRV_CHANNEL_REQ_SUFFIX : string := "__SRV__REQUEST".
Definition SRV_CHANNEL_RES_SUFFIX : string := "__SRV__RESPONSE".

(** The identity of the related sample: sixteen bytes, and a number in two halves, the high one signed. *)
Record related_sample := mkRelated { writer_guid : bytes; sequence_high : Z; sequence_low : Z }.

Definition to_related (info : MessageInfo) : related_sample :=
  mkRelated (data_ (sender_id_ info) ++ data_ (spare_id_ info))
    (wrap_i32 (Z.shiftr (Z.land (seq_num_ info) 0xFFFFFFFF00000000) 32)) (wrap_u32 (wrap_i32 (Z.land (seq_num_ info) 0xFFFFFFFF))).

Definition from_related (Hash : bytes -> Z) (r : related_sample) (info : MessageInfo) : MessageInfo :=
  mkInfo (Info.set_data Hash (take ID_SIZE (writer_guid r))) (info_channel_id_ info)
    (wrap_u64 (Z.lor (Z.shiftl (sequence_high r) 32) (sequence_low r))) (Info.set_data Hash (take ID_SIZE (drop ID_SIZE (writer_guid r)))).

Section service.
Context {Req Resp W : Type}.

(** What the callback of a call does with the response: nothing that matters here, or another call on the same client. *)
Inductive callback := CNone | CSend (request : Req) (k : callback).

(** ** The state *)

Record Client := mkClient {
  c_service_name : string;
  writer_id_ : Identity;
  response_receiver_ : bool;
  sequence_number_ : Z;
  pending_requests_ : gmap Z callback;
  pending_mutex_ : bool;
  futures_ : gmap Z (option Resp);
  broken_promise : bool;
  invoked_ : list Z;
}.

Record Service := mkService {
  s_service_name : string;
  request_receiver_ : bool;
  response_id_ : Identity;
  inited_ : bool;
  tasks_ : list (Req * MessageInfo);
  task_ : option (Req * MessageInfo);
  thread_ended : bool;
}.

Inductive packet :=
| PRequest (service : nat) (request : Req) (info : MessageInfo)
| PResponse (client : nat) (response : Resp) (info : MessageInfo).

(** What the callbacks of the services were given, and made of it, and what the program changed itself: in the order in which it took the
    lock of the state that the callbacks share.  What the clients sent, and to how many services. *)
Record handling := mkHandling { hd_service : nat; hd_request : Req; hd_info : MessageInfo; hd_response : Resp }.
Inductive effect := Handled (h : handling) | Changed (f : W -> W).
Record call := mkCall { cl_client : nat; cl_number : Z; cl_request : Req; cl_asked : nat }.

Record Net := mkNet {
  clients : list Client;
  services : list Service;
  wire : list packet;
  world : W;
  effects : list effect;
  calls : list call;
}.

Definition net_new (w : W) : Net := mkNet [] [] [] w [] [].

Definition with_clients (l : list Client) (n : Net) : Net := mkNet l (services n) (wire n) (world n) (effects n) (calls n).
Definition with_services (l : list Service) (n : Net) : Net := mkNet (clients n) l (wire n) (world n) (effects n) (calls n).
Definition with_wire (l : list packet) (n : Net) : Net := mkNet (clients n) (services n) l (world n) (effects n) (calls n).
Definition with_effect (w : W) (e : effect) (n : Net) : Net := mkNet (clients n) (services n) (wire n) w (effects n ++ [e]) (calls n).

Definition handled (n : Net) : list handling := omap (fun e => match e with Handled h => Some h | Changed _ => None end) (effects n).

(** ** Transmitting: a packet for every receiver of the channel *)

Fixpoint packets_from {A B} (i : nat) (p : A -> bool) (make : nat -> B) (l : list A) : list B :=
  match l with [] => [] | x :: l' => (if p x then [make i] else []) ++ packets_from (S i) p make l' end.

(** Names of channels are those of services with a suffix. *)
Definition on_request_channel (name : string) (s : Service) : bool :=
  request_receiver_ s && String.eqb (name ++ SRV_CHANNEL_REQ_SUFFIX) (s_service_name s ++ SRV_CHANNEL_REQ_SUFFIX).
Definition on_response_channel (name : string) (c : Client) : bool :=
  response_receiver_ c && String.eqb (name ++ SRV_CHANNEL_RES_SUFFIX) (c_service_name c ++ SRV_CHANNEL_RES_SUFFIX).

Definition transmit_request (name : string) (request : Req) (info : MessageInfo) (n : Net) : Net :=
  with_wire (wire n ++ packets_from 0 (on_request_channel name) (fun s => PRequest s request info) (services n)) n.
Definition transmit_response (name : string) (response : Resp) (info : MessageInfo) (n : Net) : Net :=
  with_wire (wire n ++ packets_from 0 (on_response_channel name) (fun c => PResponse c response info) (clients n)) n.

(** ** Client *)

Definition Client_new (service_name : string) (id : Identity) : Client := mkClient service_name id true 0 ∅ false ∅ false [].

Definition with_pending (seq : Z) (m : gmap Z callback) (f : gmap Z (option Resp)) (c : Client) : Client :=
  mkClient (c_service_name c) (writer_id_ c) (response_receiver_ c) seq m (pending_mutex_ c) f (broken_promise c) (invoked_ c).

(** [AsyncSendRequest(request, cb)] of an initialised client, whose mutex has to be free. *)
Definition AsyncSendRequest (i : nat) (request : Req) (k : callback) (n : Net) : option Net :=
  c ← clients n !! i;
  if negb (response_receiver_ c) then Some n
  else if pending_mutex_ c then None
  else
    let seq := wrap_u64 (sequence_number_ c + 1) in
    let info := mkInfo (writer_id_ c) 0 seq (writer_id_ c) in
    let n1 := transmit_request (c_service_name c) request info n in
    let asked := length (packets_from 0 (on_request_channel (c_service_name c)) id (services n)) in
    let c1 := with_pending seq (<[seq := k]> (pending_requests_ c)) (<[seq := None]> (futures_ c)) c in
    Some (mkNet (<[i := c1]> (clients n1)) (services n1) (wire n1) (world n1) (effects n1) (calls n1 ++ [mkCall i seq request asked])).

(** [set_value]: a promise that has a value already throws. *)
Definition set_value (seq : Z) (response : Resp) (c : Client) : Client :=
  mkClient (c_service_name c) (writer_id_ c) (response_receiver_ c) (sequence_number_ c) (pending_requests_ c) (pending_mutex_ c)
    (<[seq := Some response]> (futures_ c)) (broken_promise c || match futures_ c !! seq with Some None => false | _ => true end) (invoked_ c).

(** [callback(future)], with the mutex held: a callback that sends waits for the mutex. *)
Definition invoke (seq : Z) (k : callback) (c : Client) : Client :=
  mkClient (c_service_name c) (writer_id_ c) (response_receiver_ c) (sequence_number_ c) (pending_requests_ c)
    (match k with CNone => pending_mutex_ c | CSend _ _ => true end) (futures_ c) (broken_promise c) (invoked_ c ++ [seq]).

Definition HandleResponse (response : Resp) (info : MessageInfo) (c : Client) : option Client :=
  if pending_mutex_ c then None
  else if negb (Identity_eqb (spare_id_ info) (writer_id_ c)) then Some c
  else match pending_requests_ c !! seq_num_ info with
       | None => Some c
       | Some k =>
           let c1 := with_pending (sequence_number_ c) (delete (seq_num_ info) (pending_requests_ c)) (futures_ c) c in
           Some (invoke (seq_num_ info) k (set_value (seq_num_ info) response c1))
       end.

(** What [SendRequest] returns when the wait is over: the response, or null. *)
Definition SendRequest_returns (seq : Z) (c : Client) : option Resp := default None (futures_ c !! seq).

(** ** Service *)

Context (service_callback : nat -> W -> Req -> Resp * W).

Definition Service_new (service_name : string) (id : Identity) : Service := mkService service_name true id true [] None false.

Definition with_tasks (l : list (Req * MessageInfo)) (t : option (Req * MessageInfo)) (s : Service) : Service :=
  mkService (s_service_name s) (request_receiver_ s) (response_id_ s) (inited_ s) l t (thread_ended s).

Definition Enqueue (task : Req * MessageInfo) (s : Service) : Service := with_tasks (tasks_ s ++ [task]) (task_ s) s.

(** [Process]: the thread takes a task, or leaves its loop. *)
Definition take_task (s : Service) : option Service :=
  if thread_ended s then None
  else match task_ s with
       | Some _ => None
       | None =>
           if negb (inited_ s) then
             Some (mkService (s_service_name s) (request_receiver_ s) (response_id_ s) (inited_ s) (tasks_ s) None true)
           else match tasks_ s with [] => None | t :: l => Some (with_tasks l (Some t) s) end
       end.

(** [HandleRequest], with [SendResponse]: the task that was taken. *)
Definition HandleRequest (i : nat) (n : Net) : option Net :=
  s ← services n !! i;
  '(request, info) ← task_ s;
  let n1 := with_services (<[i := with_tasks (tasks_ s) None s]> (services n)) n in
  if negb (request_receiver_ s) then Some n1
  else
    let '(response, w) := service_callback i (world n1) request in
    let msg_info := mkInfo (response_id_ s) (info_channel_id_ info) (seq_num_ info) (spare_id_ info) in
    Some (transmit_response (s_service_name s) response msg_info (with_effect w (Handled (mkHandling i request info response)) n1)).

(** [destroy()], but for waiting for the thread. *)
Definition destroy (s : Service) : Service :=
  mkService (s_service_name s) (request_receiver_ s) (response_id_ s) false [] (task_ s) (thread_ended s).

(** ** Steps of the net *)

Inductive event :=
| ECreateService (name : string) (id : Identity)
| ECreateClient (name : string) (id : Identity)
| ESend (client : nat) (request : Req) (k : callback)
| EArrive (packet : nat)
| ELose (packet : nat)
| ETake (service : nat)
| EHandle (service : nat)
| EDestroy (service : nat)
| EChange (f : W -> W).

Definition arrive (p : packet) (n : Net) : option Net :=
  match p with
  | PRequest i request info =>
      s ← services n !! i; Some (with_services (<[i := Enqueue (request, info) s]> (services n)) n)
  | PResponse i response info =>
      c ← clients n !! i; c1 ← HandleResponse response info c; Some (with_clients (<[i := c1]> (clients n)) n)
  end.

Definition step (n : Net) (e : event) : option Net :=
  match e with
  | ECreateService name id => Some (with_services (services n ++ [Service_new name id]) n)
  | ECreateClient name id => Some (with_clients (clients n ++ [Client_new name id]) n)
  | ESend i request k => AsyncSendRequest i request k n
  | EArrive j => p ← wire n !! j; arrive p (with_wire (delete j (wire n)) n)
  | ELose j => _ ← wire n !! j; Some (with_wire (delete j (wire n)) n)
  | ETake i => s ← services n !! i; s1 ← take_task s; Some (with_services (<[i := s1]> (services n)) n)
  | EHandle i => HandleRequest i n
  | EDestroy i => s ← services n !! i; Some (with_services (<[i := destroy s]> (services n)) n)
  | EChange f => Some (with_effect (f (world n)) (Changed f) n)
  end.

Fixpoint run (n : Net) (l : list event) : option Net :=
  match l with [] => Some n | e :: l' => n1 ← step n e; run n1 l' end.
End service.
