(* ===== verification/ServiceSafety.v ===== *)
(** * ServiceSafety: a response answers the request of its call

    In every run, with requests and responses lost, late or in any order, and services that come and go: the value of a future was made by the
    callback of a service from the request of its own call, and no promise is given a value twice. *)

From S2P Require Import Prelude ShmMessage Service.

Lemma string_length_app s1 s2 : String.length (s1 ++ s2) = (String.length s1 + String.length s2)%nat.
Proof. induction s1 as [|a s1 IH]; [done|].
  change (S (String.length (s1 ++ s2)) = (S (String.length s1) + String.length s2)%nat). rewrite IH. lia.
Qed.

Lemma append_inj_r s1 s2 s : (s1 ++ s = s2 ++ s)%string -> s1 = s2.
Proof.
  revert s2. induction s1 as [|a s1 IH]; intros [|b s2] H; [done| | |].
  - apply (f_equal String.length) in H. rewrite !string_length_app in H. cbn in H. lia.
  - apply (f_equal String.length) in H. rewrite !string_length_app in H. cbn in H. lia.
  - injection H as -> H. f_equal. by apply IH.
Qed.

(** ** The header over RTPS *)

Lemma wrap_i32_mod z : wrap_i32 z mod two32 = z mod two32.
Proof. unfold wrap_i32, two32. case_if; div_lia. Qed.

(** A header that went over RTPS, where its number is cut in two halves of which the high one is signed, is the one that was sent, up to the
    channel and the hash values, which the receiver has of its own. *)
Theorem related_roundtrip (Hash : bytes -> Z) info info0 : Info.valid info -> from_related Hash (to_related info) info0 = Info.received Hash info info0.
Proof.
  intros (H1 & H2 & H3). unfold from_related, to_related, Info.received. cbn [writer_guid sequence_high sequence_low]. f_equal.
  - f_equal. rewrite <- H1. apply take_app_length.
  - unfold is_u64 in H3. set (z := seq_num_ info) in *. unfold wrap_u32. rewrite wrap_i32_mod, lor_halves by (apply Z.mod_pos_bound; done).
    change 0xFFFFFFFF with (Z.ones 32). rewrite Z.land_ones by lia. change 0xFFFFFFFF00000000 with (Z.shiftl (Z.ones 32) 32).
    rewrite Z.shiftr_land, Z.shiftr_shiftl_l by lia. change (Z.shiftl (Z.ones 32) (32 - 32)) with (Z.ones 32).
    rewrite Z.shiftr_div_pow2, Z.land_ones by lia. change (2 ^ 32) with two32. rewrite Z.mod_mod by done. pose proof (wrap_i32_mod ((z / two32) mod two32)) as E.
    unfold wrap_u64, two64 in *. unfold two32 in *. div_lia.
  - f_equal. rewrite <- H1, drop_app_length, H1. rewrite <- H2. apply firstn_all.
Qed.

Lemma elem_packets_from {A B} (p : A -> bool) (make : nat -> B) (l : list A) x : forall i,
  x ∈ packets_from i p make l <-> exists j a, l !! j = Some a /\ p a = true /\ x = make (i + j)%nat.
Proof.
  induction l as [|a l IH]; intros i; cbn [packets_from].
  - split; [by intros ?%not_elem_of_nil|intros (j & a & H & _); by rewrite lookup_nil in H].
  - rewrite elem_of_app, IH. split.
    + intros [H|(j & b & H1 & H2 & ->)].
      * destruct (p a) eqn:E; [|by apply not_elem_of_nil in H]. apply list_elem_of_singleton in H as ->. exists 0%nat, a. by rewrite Nat.add_0_r.
      * exists (S j), b. split; [done|]. split; [done|]. f_equal. lia.
    + intros (j & b & H1 & H2 & ->). destruct j as [|j]; [injection H1 as ->; left; rewrite H2, Nat.add_0_r; by left|].
      right. exists j, b. split; [done|]. split; [done|]. f_equal. lia.
Qed.

Section safety.
Context {Req Resp W : Type} (service_callback : nat -> W -> Req -> Resp * W).
#[local] Abbreviation Client := (@Client Req Resp).
#[local] Abbreviation Service := (@Service Req).
#[local] Abbreviation Net := (@Net Req Resp W).
#[local] Abbreviation event := (@event Req W).
#[local] Abbreviation run := (run service_callback).
#[local] Abbreviation step := (step service_callback).

(** ** One client *)

(** The calls are numbered from one; a call has a future, and is pending until the future has its value; then its callback was invoked. *)
Record client_ok (c : Client) : Prop := {
  co_receiver : response_receiver_ c = true;
  co_number : 0 <= sequence_number_ c;
  co_futures : forall k, is_Some (futures_ c !! k) <-> 1 <= k <= sequence_number_ c;
  co_pending : forall k, is_Some (pending_requests_ c !! k) <-> futures_ c !! k = Some None;
  co_promise : broken_promise c = false;
  co_invoked : forall k, k ∈ invoked_ c <-> exists r, futures_ c !! k = Some (Some r);
  co_once : NoDup (invoked_ c);
}.

Lemma client_new_ok name id : client_ok (Client_new name id).
Proof.
  split; try done; cbn.
  - intros k. rewrite lookup_empty. split; [by intros [? ?]|lia].
  - intros k. rewrite !lookup_empty. split; [by intros [? ?]|done].
  - intros k. rewrite lookup_empty. split; [by intros ?%not_elem_of_nil|by intros [? ?]].
  - constructor.
Qed.

(** A call gets the next number. *)
Definition client_called (k : callback) (c : Client) : Client :=
  with_pending (sequence_number_ c + 1) (<[sequence_number_ c + 1 := k]> (pending_requests_ c)) (<[sequence_number_ c + 1 := None]> (futures_ c)) c.

Lemma client_called_ok k c : client_ok c -> client_ok (client_called k c).
Proof.
  intros [H1 H2 H3 H4 H5 H6 H7]. assert (Hfresh : futures_ c !! (sequence_number_ c + 1) = None).
  { apply eq_None_not_Some. rewrite H3. lia. }
  split; try done; cbn [client_called with_pending sequence_number_ futures_ pending_requests_ invoked_]; [lia|..].
  - intros x. rewrite lookup_insert_is_Some', H3. lia.
  - intros x. destruct (decide (x = sequence_number_ c + 1)) as [->|Hne]; [by rewrite !lookup_insert_eq|]. by rewrite !lookup_insert_ne by done.
  - intros x. rewrite H6. destruct (decide (x = sequence_number_ c + 1)) as [->|Hne]; [|by rewrite lookup_insert_ne by done].
    rewrite lookup_insert_eq, Hfresh. split; by intros [? ?].
Qed.

Lemma HandleResponse_cases response info c c' : client_ok c -> HandleResponse response info c = Some c' ->
  client_ok c' /\ writer_id_ c' = writer_id_ c /\ c_service_name c' = c_service_name c /\ sequence_number_ c' = sequence_number_ c /\
  (c' = c \/ data_ (spare_id_ info) = data_ (writer_id_ c) /\ futures_ c !! seq_num_ info = Some None /\
     futures_ c' = <[seq_num_ info := Some response]> (futures_ c)).
Proof.
  intros Hc. unfold HandleResponse. destruct (pending_mutex_ c); [done|]. unfold Identity_eqb. case_bool_decide as Hid; cbn [negb]; [|by intros [= <-]; split_and!; auto].
  destruct (pending_requests_ c !! seq_num_ info) as [k|] eqn:Ek; [|by intros [= <-]; split_and!; auto]. intros [= <-].
  destruct Hc as [H1 H2 H3 H4 H5 H6 H7]. assert (Hf : futures_ c !! seq_num_ info = Some None) by by apply H4; rewrite Ek.
  split; [|split; [done|split; [done|split; [done|by right]]]].
  split; try done; cbn [invoke set_value with_pending sequence_number_ futures_ pending_requests_ invoked_ broken_promise].
  - intros x. rewrite lookup_insert_is_Some', H3. split; [intros [<-|H]; [by apply H3; rewrite Hf|done]|by right].
  - intros x. destruct (decide (x = seq_num_ info)) as [->|Hne].
    + rewrite lookup_delete_eq, lookup_insert_eq. split; [by intros [? ?]|done].
    + by rewrite lookup_delete_ne, lookup_insert_ne by done.
  - by rewrite H5, Hf.
  - intros x. rewrite elem_of_app, list_elem_of_singleton, H6. destruct (decide (x = seq_num_ info)) as [->|Hne].
    + rewrite lookup_insert_eq. split; [by eexists|by right].
    + rewrite lookup_insert_ne by done. split; [by intros [?|?]|by left].
  - apply NoDup_app. split; [done|]. split; [|by apply NoDup_singleton]. intros x Hx Hx'%list_elem_of_singleton. subst x.
    apply H6 in Hx as [r Hr]. congruence.
Qed.

(** ** The net *)

(** The request is that of a call of the client whose identity the header has. *)
Definition asked (n : Net) (request : Req) (info : MessageInfo) : Prop :=
  exists i c a, clients n !! i = Some c /\ data_ (spare_id_ info) = data_ (writer_id_ c) /\ mkCall i (seq_num_ info) request a ∈ calls n.

Lemma handled_handled w (h : handling) (n : Net) : handled (with_effect w (Handled h) n) = handled n ++ [h].
Proof. unfold handled. cbn [with_effect effects]. by rewrite omap_app. Qed.
Lemma handled_changed w f (n : Net) : handled (with_effect w (Changed f) n) = handled n.
Proof. unfold handled. cbn [with_effect effects]. rewrite omap_app. apply app_nil_r. Qed.

(** A request that was sent and is not handled yet. *)
Definition holds (s : Service) (request : Req) (info : MessageInfo) : Prop := (request, info) ∈ tasks_ s \/ task_ s = Some (request, info).
Definition in_transit (n : Net) (request : Req) (info : MessageInfo) : Prop :=
  (exists s, PRequest s request info ∈ wire n) \/ (exists i s, services n !! i = Some s /\ holds s request info).

(** A handling that answers call [k] of the client with the identity. *)
Definition answers (n : Net) (id : Identity) (k : Z) (response : Resp) : Prop :=
  exists h, h ∈ handled n /\ hd_response h = response /\ seq_num_ (hd_info h) = k /\ data_ (spare_id_ (hd_info h)) = data_ id.

Record net_inv (n : Net) : Prop := {
  ni_clients : forall i c, clients n !! i = Some c -> client_ok c /\ sequence_number_ c <= Z.of_nat (length (calls n));
  ni_calls : forall x, x ∈ calls n -> exists c, clients n !! cl_client x = Some c /\ 1 <= cl_number x <= sequence_number_ c;
  ni_unique : NoDup ((fun x => (cl_client x, cl_number x)) <$> calls n);
  ni_transit : forall request info, in_transit n request info -> asked n request info;
  ni_handled : forall h, h ∈ handled n -> asked n (hd_request h) (hd_info h) /\
    exists w, hd_response h = (service_callback (hd_service h) w (hd_request h)).1;
  ni_responses : forall i response info, PResponse i response info ∈ wire n -> answers n (spare_id_ info) (seq_num_ info) response;
  ni_futures : forall i c k response, clients n !! i = Some c -> futures_ c !! k = Some (Some response) -> answers n (writer_id_ c) k response;
}.

(** The log, and the identities of the clients, only grow. *)
Record grows (n n' : Net) : Prop := {
  gr_clients : forall i c, clients n !! i = Some c -> exists c', clients n' !! i = Some c' /\ writer_id_ c' = writer_id_ c /\
    c_service_name c' = c_service_name c /\ sequence_number_ c <= sequence_number_ c';
  gr_calls : forall x, x ∈ calls n -> x ∈ calls n';
  gr_handled : forall h, h ∈ handled n -> h ∈ handled n';
}.

Lemma grows_same n n' : clients n' = clients n -> calls n' = calls n -> handled n' = handled n -> grows n n'.
Proof. intros E1 E2 E3. split; rewrite ?E1, ?E2, ?E3; try done. intros i c Hc. exists c. by split_and!. Qed.

Lemma asked_grows n n' request info : grows n n' -> asked n request info -> asked n' request info.
Proof.
  intros [H1 H2 _] (i & c & a & Hc & Hid & Hx). destruct (H1 i c Hc) as (c' & Hc' & E & _). exists i, c', a. split; [done|]. split; [by rewrite E|]. by apply H2.
Qed.

Lemma answers_grows n n' id k response : grows n n' -> answers n id k response -> answers n' id k response.
Proof. intros [_ _ H3] (h & Hh & H). exists h. split; [by apply H3|done]. Qed.

(** The parts of the invariant that come from what the steps leave. *)
Lemma net_inv_keep n n' : net_inv n -> grows n n' -> calls n' = calls n -> handled n' = handled n ->
  (forall i c, clients n' !! i = Some c -> client_ok c /\ sequence_number_ c <= Z.of_nat (length (calls n')) /\
     forall k response, futures_ c !! k = Some (Some response) -> answers n (writer_id_ c) k response) ->
  (forall request info, in_transit n' request info -> in_transit n request info) ->
  (forall i response info, PResponse i response info ∈ wire n' -> PResponse i response info ∈ wire n) -> net_inv n'.
Proof.
  intros [I1 I2 I3 I4 I5 I6 I7] Hg Ec Eh Hcl Ht Hw. split.
  - intros i c Hc. by destruct (Hcl i c Hc) as (? & ? & _).
  - intros x Hx. rewrite Ec in Hx. destruct (I2 x Hx) as (c & Hc & Hb). destruct (gr_clients _ _ Hg _ c Hc) as (c' & Hc' & _ & _ & Hle). exists c'. split; [done|lia].
  - by rewrite Ec.
  - intros request info H. by eapply asked_grows, I4, Ht.
  - intros h Hh. rewrite Eh in Hh. destruct (I5 h Hh) as [H1 H2]. split; [by eapply asked_grows|done].
  - intros i response info H. by eapply answers_grows, I6, Hw.
  - intros i c k response Hc Hk. destruct (Hcl i c Hc) as (_ & _ & H). by eapply answers_grows, H.
Qed.

Lemma clients_keep n : net_inv n -> forall i c, clients n !! i = Some c -> client_ok c /\ sequence_number_ c <= Z.of_nat (length (calls n)) /\
  forall k response, futures_ c !! k = Some (Some response) -> answers n (writer_id_ c) k response.
Proof. intros [I1 _ _ _ _ _ I7] i c Hc. destruct (I1 i c Hc). split_and!; try done. intros k response. by apply I7 with i. Qed.

(** A step that changes a service, and takes packets from the wire. *)
Lemma net_inv_service n i s s' wi : net_inv n -> services n !! i = Some s -> (forall p, p ∈ wi -> p ∈ wire n) ->
  (forall request info, holds s' request info -> holds s request info \/ PRequest i request info ∈ wire n) ->
  net_inv (with_services (<[i := s']> (services n)) (with_wire wi n)).
Proof.
  intros Hi Hs Hw Hh. apply (net_inv_keep n); try done; [by apply grows_same|exact (clients_keep n Hi)| |].
  - intros request info [(j & Hp)|(j & t & Ht & Hx)]; [left; exists j; by apply Hw|]. cbn [with_services services] in Ht.
    destruct (decide (i = j)) as [<-|Hne].
    + rewrite list_lookup_insert_eq in Ht by by eapply lookup_lt_Some. injection Ht as <-. destruct (Hh _ _ Hx) as [H|H]; [right; by exists i, s|left; by exists i].
    + rewrite list_lookup_insert_ne in Ht by done. right. by exists j, t.
  - intros j response info Hp. by apply Hw.
Qed.

Lemma elem_delete {A} j (l : list A) x : x ∈ delete j l -> x ∈ l.
Proof. rewrite delete_take_drop, elem_of_app. intros [H|H]; [by apply (subseteq_take j)|by apply (subseteq_drop (S j))]. Qed.

Lemma call_inv n i request k n' : net_inv n -> Z.of_nat (length (calls n)) + 1 < two64 -> AsyncSendRequest i request k n = Some n' -> net_inv n'.
Proof.
  intros Hi Hn. unfold AsyncSendRequest. destruct (clients n !! i) as [c|] eqn:Ec; [|done]. cbn [mbind option_bind].
  destruct (ni_clients n Hi i c Ec) as [Hc Hb]. rewrite (co_receiver c Hc). cbn [negb]. destruct (pending_mutex_ c); [done|].
  rewrite wrap_u64_small by (pose proof (co_number c Hc); lia). change (with_pending _ _ _ c) with (client_called k c). intros [= <-].
  set (info := mkInfo _ _ _ _). set (x := mkCall _ _ _ _). set (n' := mkNet _ _ _ _ _ _).
  assert (Hl : forall j d, clients n' !! j = Some d -> j = i /\ d = client_called k c \/ j <> i /\ clients n !! j = Some d).
  { intros j d. cbn [n' clients transmit_request with_wire]. destruct (decide (j = i)) as [->|Hne]; [|rewrite list_lookup_insert_ne by done; by right].
    rewrite list_lookup_insert_eq by by eapply lookup_lt_Some. intros [= <-]. by left. }
  assert (Hg : grows n n').
  { split; [|by intros y Hy; apply elem_of_app; left|done]. intros j d Hd. cbn [n' clients transmit_request with_wire]. destruct (decide (j = i)) as [->|Hne].
    - rewrite list_lookup_insert_eq by by eapply lookup_lt_Some. eexists. split; [done|]. rewrite Hd in Ec. injection Ec as ->. split_and!; try done. cbn. lia.
    - rewrite list_lookup_insert_ne by done. exists d. by split_and!. }
  assert (Hasked : asked n' request info).
  { exists i, (client_called k c), (cl_asked x). split; [|split; [done|apply elem_of_app; right; by left]]. cbn [n' clients transmit_request with_wire].
    by rewrite list_lookup_insert_eq by by eapply lookup_lt_Some. }
  split.
  - intros j d Hd. cbn [n' calls transmit_request with_wire]. rewrite length_app. cbn [length]. destruct (Hl j d Hd) as [[-> ->]|[_ Hd']].
    + split; [by apply client_called_ok|]. cbn. lia.
    + destruct (ni_clients n Hi j d Hd'). split; [done|lia].
  - intros y [Hy|Hy%list_elem_of_singleton]%elem_of_app.
    + destruct (ni_calls n Hi y Hy) as (d & Hd & Hbd). destruct (gr_clients _ _ Hg _ d Hd) as (d' & Hd' & _ & _ & Hle). exists d'. split; [done|lia].
    + subst y. exists (client_called k c). cbn [x cl_client cl_number]. cbn [n' clients transmit_request with_wire].
      rewrite list_lookup_insert_eq by by eapply lookup_lt_Some. split; [done|]. cbn. pose proof (co_number c Hc). lia.
  - cbn [n' calls transmit_request with_wire]. rewrite fmap_app. apply NoDup_app. split; [apply Hi|]. split; [|by apply NoDup_singleton].
    intros p (y & -> & Hy)%list_elem_of_fmap Hp. apply list_elem_of_singleton in Hp. injection Hp as E1 E2.
    destruct (ni_calls n Hi y Hy) as (d & Hd & Hbd). rewrite E1, Ec in Hd. injection Hd as <-. cbn [x cl_number] in E2. lia.
  - intros q f [(s & Hp)|Ht].
    + cbn [n' wire transmit_request with_wire] in Hp. apply elem_of_app in Hp as [Hp|Hp]; [eapply asked_grows, Hi; [done|left; by exists s]|].
      apply elem_packets_from in Hp as (j & sv & _ & _ & [= _ -> ->]). done.
    + eapply asked_grows, Hi; [done|by right].
  - intros h Hh. destruct (ni_handled n Hi h Hh) as [H1 H2]. split; [by eapply asked_grows|done].
  - intros j r f Hp. cbn [n' wire transmit_request with_wire] in Hp. apply elem_of_app in Hp as [Hp|Hp]; [by eapply answers_grows, (ni_responses n Hi j)|].
    by apply elem_packets_from in Hp as (? & ? & _ & _ & ?).
  - intros j d y r Hd Hy. eapply answers_grows; [done|]. destruct (Hl j d Hd) as [[-> ->]|[_ Hd']]; [|by eapply (ni_futures n Hi j)].
    cbn [client_called with_pending futures_ writer_id_] in Hy |- *. apply lookup_insert_Some in Hy as [[_ ?]|[_ Hy]]; [done|]. by eapply (ni_futures n Hi i).
Qed.

Lemma response_inv n j i response info c c' : net_inv n -> wire n !! j = Some (PResponse i response info) -> clients n !! i = Some c ->
  HandleResponse response info c = Some c' -> net_inv (with_clients (<[i := c']> (clients n)) (with_wire (delete j (wire n)) n)).
Proof.
  intros Hi Hp Hc Hr. destruct (ni_clients n Hi i c Hc) as [Hok Hb]. destruct (HandleResponse_cases response info c c' Hok Hr) as (H1 & H2 & H3 & H4 & H5).
  apply (net_inv_keep n); try done.
  - split; try done. intros k d Hd. cbn [with_clients clients]. destruct (decide (k = i)) as [->|Hne].
    + rewrite list_lookup_insert_eq by by eapply lookup_lt_Some. rewrite Hd in Hc. injection Hc as ->. eexists. split; [done|]. split_and!; try done. lia.
    + rewrite list_lookup_insert_ne by done. exists d. by split_and!.
  - intros k d Hd. cbn [with_clients clients] in Hd. cbn [with_clients with_wire calls]. destruct (decide (k = i)) as [->|Hne].
    + rewrite list_lookup_insert_eq in Hd by by eapply lookup_lt_Some. injection Hd as <-. split; [done|]. split; [lia|]. intros x r Hx. rewrite H2.
      destruct H5 as [->|(E1 & E2 & E3)]; [by eapply (ni_futures n Hi i)|]. rewrite E3 in Hx. apply lookup_insert_Some in Hx as [[<- [= <-]]|[_ Hx]].
      * destruct (ni_responses n Hi i response info) as (h & A1 & A2 & A3 & A4); [by eapply list_elem_of_lookup_2|]. exists h. split_and!; try done. by rewrite A4.
      * by eapply (ni_futures n Hi i).
    + rewrite list_lookup_insert_ne in Hd by done. by apply (clients_keep n Hi k).
  - intros q f [(s & Hx)|Ht]; [left; exists s; by apply (elem_delete j)|by right].
  - intros k r f Hx. by apply (elem_delete j).
Qed.

Lemma handle_inv n i n' : net_inv n -> HandleRequest service_callback i n = Some n' -> net_inv n'.
Proof.
  intros Hi. unfold HandleRequest. destruct (services n !! i) as [s|] eqn:Es; [|done]. cbn [mbind option_bind].
  destruct (task_ s) as [[request info]|] eqn:Et; [|done]. cbn [mbind option_bind]. set (n0 := with_services _ n).
  assert (Hi0 : net_inv n0).
  { apply (net_inv_service n i s (with_tasks (tasks_ s) None s) (wire n)); try done. intros q f [H|H]; [by left; left|done]. }
  destruct (request_receiver_ s) eqn:Er; cbn [negb]; [|by intros [= <-]].
  destruct (service_callback i (world n0) request) as [response w] eqn:Ecb. intros [= <-]. set (h := mkHandling i request info response).
  assert (Hask : asked n0 request info).
  { apply (asked_grows n); [by apply grows_same|]. apply Hi. right. exists i, s. split; [done|by right]. }
  set (n' := transmit_response _ _ _ _). assert (Eh : handled n' = handled n0 ++ [h]) by apply handled_handled.
  assert (Hg : grows n0 n').
  { split; [|done|by intros y Hy; rewrite Eh; apply elem_of_app; left]. intros j d Hd. exists d. by split_and!. }
  destruct Hi0 as [I1 I2 I3 I4 I5 I6 I7]. split; try done.
  - intros q f [(t & Hp)|Ht].
    + cbn [n' wire transmit_response with_wire] in Hp. apply elem_of_app in Hp as [Hp|Hp]; [eapply asked_grows, I4; [done|left; by exists t]|].
      by apply elem_packets_from in Hp as (? & ? & _ & _ & ?).
    + eapply asked_grows, I4; [done|by right].
  - intros y Hy. rewrite Eh in Hy. apply elem_of_app in Hy as [Hy|Hy%list_elem_of_singleton].
    + destruct (I5 y Hy) as [A1 A2]. split; [by eapply asked_grows|done].
    + subst y. split; [by eapply asked_grows|]. exists (world n0). cbn [h hd_response hd_service hd_request]. by rewrite Ecb.
  - intros j r f Hp. cbn [n' wire transmit_response with_wire] in Hp. apply elem_of_app in Hp as [Hp|Hp]; [by eapply answers_grows, I6|].
    apply elem_packets_from in Hp as (? & ? & _ & _ & [= _ -> ->]). exists h. split; [rewrite Eh; apply elem_of_app; right; by left|done].
  - intros j d k r Hd Hk. by eapply answers_grows, I7.
Qed.

Lemma net_step_inv n e n' : net_inv n -> Z.of_nat (length (calls n)) + 1 < two64 -> step n e = Some n' -> net_inv n'.
Proof.
  intros Hi Hn. destruct e as [name id|name id|i request k|j|j|i|i|i|f]; cbn [Service.step].
  - intros [= <-]. apply (net_inv_keep n); try done; [by apply grows_same|exact (clients_keep n Hi)|].
    intros q f [(s & Hp)|(j & s & Hs & Hh)]; [left; by exists s|]. cbn [with_services services] in Hs. apply lookup_app_Some in Hs as [Hs|[_ Hs]]; [right; by exists j, s|].
    apply list_lookup_singleton_Some in Hs as [_ <-]. by destruct Hh as [?%not_elem_of_nil|?].
  - intros [= <-]. apply (net_inv_keep n); try done.
    + split; try done. intros i c Hc. exists c. split; [by apply lookup_app_l_Some|]. by split_and!.
    + intros i c Hc. cbn [with_clients clients] in Hc. apply lookup_app_Some in Hc as [Hc|[_ Hc]]; [by apply (clients_keep n Hi i)|].
      apply list_lookup_singleton_Some in Hc as [_ <-]. split; [apply client_new_ok|]. split; [cbn; lia|]. intros k r Hk. cbn in Hk. by rewrite lookup_empty in Hk.
  - by apply call_inv.
  - destruct (wire n !! j) as [p|] eqn:Ep; [|done]. cbn [mbind option_bind]. destruct p as [i request info|i response info]; cbn [arrive].
    + destruct (services (with_wire _ n) !! i) as [s|] eqn:Es; [|done]. cbn [mbind option_bind]. intros [= <-].
      apply (net_inv_service n i s (Enqueue (request, info) s)); [done|done|by apply elem_delete|]. intros q f [Hx|Hx]; [|by left; right].
      apply elem_of_app in Hx as [Hx|Hx%list_elem_of_singleton]; [by left; left|]. injection Hx as -> ->. right. by eapply list_elem_of_lookup_2.
    + destruct (clients (with_wire _ n) !! i) as [c|] eqn:Ec; [|done]. cbn [mbind option_bind].
      destruct (HandleResponse response info c) as [c'|] eqn:Er; [|done]. cbn [mbind option_bind]. intros [= <-]. by eapply response_inv.
  - destruct (wire n !! j) as [p|] eqn:Ep; [|done]. cbn [mbind option_bind]. intros [= <-].
    apply (net_inv_keep n); try done; [by apply grows_same|exact (clients_keep n Hi)| |].
    + intros q f [(s & Hx)|Ht]; [left; exists s; by apply (elem_delete j)|by right].
    + intros k r f Hx. by apply (elem_delete j).
  - destruct (services n !! i) as [s|] eqn:Es; [|done]. cbn [mbind option_bind]. destruct (take_task s) as [s'|] eqn:Et; [|done]. cbn [mbind option_bind].
    intros [= <-]. apply (net_inv_service n i s s' (wire n)); try done. intros q f Hx. left. revert Et. unfold take_task. destruct (thread_ended s); [done|].
    destruct (task_ s) as [t|] eqn:Etask; [done|]. destruct (inited_ s); cbn [negb].
    + destruct (tasks_ s) as [|t l] eqn:El; [done|]. intros [= <-]. destruct Hx as [Hx|Hx]; left; rewrite El; [by right|]. injection Hx as ->. by left.
    + intros [= <-]. destruct Hx as [Hx|Hx]; [by left|done].
  - by apply handle_inv.
  - destruct (services n !! i) as [s|] eqn:Es; [|done]. cbn [mbind option_bind]. intros [= <-].
    apply (net_inv_service n i s (destroy s) (wire n)); try done. intros q f [Hx|Hx]; [by apply not_elem_of_nil in Hx|by left; right].
  - intros [= <-]. apply (net_inv_keep n); try done; [apply grows_same; [done|done|apply handled_changed]|apply handled_changed|exact (clients_keep n Hi)].
Qed.

(** The steps of the wire and of the threads. *)
Definition internal (e : event) : bool := match e with EArrive _ | ETake _ | EHandle _ => true | _ => false end.

Lemma internal_calls n e n' : internal e = true -> step n e = Some n' -> calls n' = calls n.
Proof.
  destruct e as [| | |j| |i|i| |]; try done; intros _; cbn [Service.step].
  - destruct (wire n !! j) as [p|]; [|done]. cbn [mbind option_bind]. destruct p as [i request info|i response info]; cbn [arrive].
    + destruct (services (with_wire _ n) !! i); [|done]. by intros [= <-].
    + destruct (clients (with_wire _ n) !! i) as [c|]; [|done]. cbn [mbind option_bind]. destruct (HandleResponse _ _ _); [|done]. by intros [= <-].
  - destruct (services n !! i) as [s|]; [|done]. cbn [mbind option_bind]. destruct (take_task s); [|done]. by intros [= <-].
  - unfold HandleRequest. destruct (services n !! i) as [s|]; [|done]. cbn [mbind option_bind]. destruct (task_ s) as [[q f]|]; [|done]. cbn [mbind option_bind].
    destruct (negb _); [by intros [= <-]|]. destruct (service_callback _ _ _). by intros [= <-].
Qed.

(** ** Runs *)

Lemma net_new_inv w0 : net_inv (net_new w0).
Proof.
  split; try (by intros ? ?); try (by intros ? ?%not_elem_of_nil); try (by intros ? ? ? ?%not_elem_of_nil); try (by intros ? ? ? ? ?).
  - constructor.
  - intros q f [(s & H)|(i & s & H & _)]; [by apply not_elem_of_nil in H|done].
Qed.

(** The identities of the clients that a run creates. *)
Definition event_ids (e : event) : list bytes := match e with ECreateClient _ id => [data_ id] | _ => [] end.
Definition client_ids (l : list event) : list bytes := mjoin (event_ids <$> l).
Definition net_ids (n : Net) : list bytes := (fun c => data_ (writer_id_ c)) <$> clients n.

Lemma insert_ids i c c' (l : list Client) : l !! i = Some c -> writer_id_ c' = writer_id_ c ->
  (fun c => data_ (writer_id_ c)) <$> <[i := c']> l = (fun c => data_ (writer_id_ c)) <$> l.
Proof. intros Hc E. rewrite list_fmap_insert, E. apply list_insert_id. by rewrite list_lookup_fmap, Hc. Qed.

Lemma HandleResponse_id response info (c c' : Client) : HandleResponse response info c = Some c' -> writer_id_ c' = writer_id_ c.
Proof. unfold HandleResponse. repeat (case_match; [|]); try done; intros [= <-]; done. Qed.

Lemma step_ids n e n' : step n e = Some n' -> net_ids n' = net_ids n ++ event_ids e /\ (length (calls n') <= S (length (calls n)))%nat.
Proof.
  unfold net_ids. destruct e as [name id|name id|i request k|j|j|i|i|i|f]; cbn [Service.step event_ids]; rewrite ?app_nil_r.
  - intros [= <-]. split; [done|cbn; lia].
  - intros [= <-]. split; [cbn [with_clients clients]; by rewrite fmap_app|cbn; lia].
  - unfold AsyncSendRequest. destruct (clients n !! i) as [c|] eqn:Ec; [|done]. cbn [mbind option_bind]. case_match; [intros [= <-]; split; [done|lia]|].
    case_match; [done|]. intros [= <-]. cbn [clients calls transmit_request with_wire]. split; [by apply (insert_ids i c)|]. rewrite length_app. cbn. lia.
  - destruct (wire n !! j) as [p|] eqn:Ep; [|done]. cbn [mbind option_bind]. destruct p as [i request info|i response info]; cbn [arrive].
    + destruct (services (with_wire _ n) !! i) as [s|] eqn:Es; [|done]. intros [= <-]. split; [done|cbn; lia].
    + destruct (clients (with_wire _ n) !! i) as [c|] eqn:Ec; [|done]. cbn [mbind option_bind].
      destruct (HandleResponse response info c) as [c'|] eqn:Er; [|done]. intros [= <-]. split; [|cbn; lia]. apply (insert_ids i c); [done|by eapply HandleResponse_id].
  - destruct (wire n !! j); [|done]. intros [= <-]. split; [done|cbn; lia].
  - destruct (services n !! i) as [s|]; [|done]. cbn [mbind option_bind]. destruct (take_task s); [|done]. intros [= <-]. split; [done|cbn; lia].
  - unfold HandleRequest. destruct (services n !! i) as [s|]; [|done]. cbn [mbind option_bind]. destruct (task_ s) as [[q f]|]; [|done]. cbn [mbind option_bind].
    destruct (request_receiver_ s); cbn [negb]; [|intros [= <-]; split; [done|cbn; lia]]. destruct (service_callback _ _ _). intros [= <-]. split; [done|cbn; lia].
  - destruct (services n !! i) as [s|]; [|done]. intros [= <-]. split; [done|cbn; lia].
  - intros [= <-]. split; [done|cbn; lia].
Qed.

Lemma net_run_inv l : forall n n', net_inv n -> Z.of_nat (length (calls n) + length l) < two64 -> run n l = Some n' ->
  net_inv n' /\ net_ids n' = net_ids n ++ client_ids l /\ (length (calls n') <= length (calls n) + length l)%nat.
Proof.
  induction l as [|e l IH]; intros n n' Hi Hn; cbn [Service.run]; [intros [= <-]; rewrite app_nil_r; split; [done|split; [done|cbn; lia]]|].
  cbn [length] in *. destruct (step n e) as [n1|] eqn:E; [|done]. cbn [mbind option_bind]. destruct (step_ids n e n1 E) as [E1 Hle]. intros H.
  destruct (IH n1 n') as (H1 & H2 & H3); [exact (net_step_inv n e n1 Hi ltac:(lia) E)|lia|done|]. split; [done|]. split; [|lia].
  rewrite H2, E1, <- app_assoc. done.
Qed.

(** What a call returns was made by the callback of a service from the request of that very call, whatever requests and responses are
    lost, late or answered twice; no promise is given a value twice, and a callback is invoked exactly once for every call that has its
    response. *)
Theorem response_answers_call w0 l n i c : NoDup (client_ids l) -> Z.of_nat (length l) < two64 -> run (net_new w0) l = Some n -> clients n !! i = Some c ->
  broken_promise c = false /\ NoDup (invoked_ c) /\
  forall k response, SendRequest_returns k c = Some response -> k ∈ invoked_ c /\
    exists request asked s w, mkCall i k request asked ∈ calls n /\ (forall x, x ∈ calls n -> cl_client x = i -> cl_number x = k -> x = mkCall i k request asked) /\
      response = (service_callback s w request).1.
Proof.
  intros Hid Hl Hr Hc. destruct (net_run_inv l (net_new w0) n (net_new_inv w0) Hl Hr) as (Hi & Eids & _). destruct (ni_clients n Hi i c Hc) as [Hok _].
  split; [apply Hok|]. split; [apply Hok|]. intros k response Hk. unfold SendRequest_returns in Hk.
  destruct (futures_ c !! k) as [[r|]|] eqn:Ek; try done. cbn in Hk. injection Hk as ->. split; [apply Hok; by exists response|].
  destruct (ni_futures n Hi i c k response Hc Ek) as (h & Hh & Er & Es & Eid). destruct (ni_handled n Hi h Hh) as [(j & d & a & Hd & Eid' & Hx) (w & Ew)].
  assert (Hj : j = i).
  { cbn [app] in Eids. change (net_ids (net_new w0)) with (@nil bytes) in Eids. cbn [app] in Eids. rewrite <- Eids in Hid. unfold net_ids in Hid.
    eapply NoDup_lookup; [exact Hid|rewrite list_lookup_fmap, Hd; done|rewrite list_lookup_fmap, Hc; cbn; by rewrite <- Eid, Eid']. }
  subst j. rewrite Es in Hx. exists (hd_request h), a, (hd_service h), w. split; [done|]. split; [|by rewrite <- Er].
  intros x Hx' E1 E2. apply list_elem_of_lookup in Hx as [p Hp], Hx' as [p' Hp'].
  assert (Epp : p' = p).
  { eapply NoDup_lookup; [exact (ni_unique n Hi)|rewrite list_lookup_fmap, Hp'; done|rewrite list_lookup_fmap, Hp; cbn; by rewrite E1, E2]. }
  subst p'. rewrite Hp in Hp'. by injection Hp' as <-.
Qed.
End safety.
