(* ===== verification/ServiceOrder.v ===== *)
(** * ServiceOrder: calls take effect one at a time, and once

    The effects on the state that the callbacks of the services share are in one order, and every response is what the callback makes of the
    state at the place of its call in this order.  The order is that of the calls where one ended before the other began.  A service handles
    a call at most once. *)

From S2P Require Import Prelude ShmMessage Service ServiceSafety.

Section lists.
Context {A B : Type}.

Lemma submseteq_NoDup (l k : list A) : l ⊆+ k -> NoDup k -> NoDup l.
Proof. intros [m ->]%submseteq_Permutation. by intros [? _]%NoDup_app. Qed.

(** Replacing one element replaces what it stands for. *)
Lemma join_insert (f : nat -> A -> list B) i (l : list A) x : l !! i = Some x ->
  exists r, mjoin (imap f l) ≡ₚ f i x ++ r /\ forall y, mjoin (imap f (<[i := y]> l)) ≡ₚ f i y ++ r.
Proof.
  intros Hx. assert (Hlen : length (take i l) = i) by (rewrite length_take; apply lookup_lt_Some in Hx; lia).
  exists (mjoin (imap f (take i l)) ++ mjoin (imap (fun j => f (i + S j)%nat) (drop (S i) l))).
  assert (H : forall y, mjoin (imap f (take i l ++ y :: drop (S i) l)) ≡ₚ
    f i y ++ mjoin (imap f (take i l)) ++ mjoin (imap (fun j => f (i + S j)%nat) (drop (S i) l))).
  { intros y. rewrite imap_app, imap_cons, Hlen, Nat.add_0_r, join_app. apply Permutation_app_swap_app. }
  split; [rewrite <- (take_drop_middle l i x Hx) at 1; apply H|]. intros y. rewrite insert_take_drop by by eapply lookup_lt_Some. apply H.
Qed.

Lemma join_fmap_delete (f : A -> list B) i (l : list A) x : l !! i = Some x -> mjoin (f <$> l) ≡ₚ f x ++ mjoin (f <$> delete i l).
Proof. intros H. by rewrite (delete_Permutation l i x H) at 1. Qed.
End lists.

Section order.
Context {Req Resp W : Type} (service_callback : nat -> W -> Req -> Resp * W).
#[local] Abbreviation Client := (@Client Req Resp).
#[local] Abbreviation Service := (@Service Req).
#[local] Abbreviation Net := (@Net Req Resp W).
#[local] Abbreviation event := (@event Req W).
#[local] Abbreviation effect := (@effect Req Resp W).
#[local] Abbreviation run := (run service_callback).
#[local] Abbreviation step := (step service_callback).
#[local] Abbreviation net_inv := (net_inv service_callback).

(** ** The state at a place of the order *)

Definition apply_effect (w : W) (e : effect) : W :=
  match e with Handled h => (service_callback (hd_service h) w (hd_request h)).2 | Changed f => f w end.
Definition world_at (w0 : W) (l : list effect) : W := foldl apply_effect w0 l.

Lemma world_at_snoc w0 l e : world_at w0 (l ++ [e]) = apply_effect (world_at w0 l) e.
Proof. unfold world_at. by rewrite foldl_app. Qed.

Record order_inv (w0 : W) (n : Net) : Prop := {
  oi_world : world n = world_at w0 (effects n);
  oi_responses : forall p h, effects n !! p = Some (Handled h) ->
    hd_response h = (service_callback (hd_service h) (world_at w0 (take p (effects n))) (hd_request h)).1;
}.

(** What a step does to the effects. *)
Lemma step_effects n e n' : step n e = Some n' ->
  effects n' = effects n /\ world n' = world n \/
  (exists f, e = EChange f /\ effects n' = effects n ++ [Changed f] /\ world n' = f (world n)) \/
  (exists h, effects n' = effects n ++ [Handled h] /\ (hd_response h, world n') = service_callback (hd_service h) (world n) (hd_request h)).
Proof.
  destruct e as [name id|name id|i request k|j|j|i|i|i|f]; cbn [Service.step]; try (intros [= <-]; by left).
  - unfold AsyncSendRequest. destruct (clients n !! i) as [c|]; [|done]. cbn [mbind option_bind]. case_match; [intros [= <-]; by left|].
    case_match; [done|]. intros [= <-]. by left.
  - destruct (wire n !! j) as [p|]; [|done]. cbn [mbind option_bind]. destruct p as [i request info|i response info]; cbn [arrive].
    + destruct (services (with_wire _ n) !! i); [|done]. intros [= <-]. by left.
    + destruct (clients (with_wire _ n) !! i) as [c|]; [|done]. cbn [mbind option_bind]. destruct (HandleResponse _ _ _); [|done]. intros [= <-]. by left.
  - destruct (wire n !! j); [|done]. intros [= <-]. by left.
  - destruct (services n !! i) as [s|]; [|done]. cbn [mbind option_bind]. destruct (take_task s); [|done]. intros [= <-]. by left.
  - unfold HandleRequest. destruct (services n !! i) as [s|]; [|done]. cbn [mbind option_bind]. destruct (task_ s) as [[q f]|]; [|done]. cbn [mbind option_bind].
    destruct (negb _); [intros [= <-]; by left|]. destruct (service_callback _ _ _) as [r w] eqn:E. intros [= <-]. right. right.
    exists (mkHandling i q f r). split; [done|]. symmetry. exact E.
  - destruct (services n !! i); [|done]. intros [= <-]. by left.
  - intros [= <-]. right. left. by exists f.
Qed.

Lemma order_snoc w0 n n' e : order_inv w0 n -> effects n' = effects n ++ [e] -> world n' = apply_effect (world n) e ->
  (forall h, e = Handled h -> hd_response h = (service_callback (hd_service h) (world n) (hd_request h)).1) -> order_inv w0 n'.
Proof.
  intros [H1 H2] E1 E2 Hh. split; rewrite E1; [by rewrite world_at_snoc, E2, H1|]. intros p h Hp.
  apply lookup_app_Some in Hp as [Hp|[Hle Hp]].
  - rewrite take_app_le by (apply lookup_lt_Some in Hp; lia). by apply H2.
  - apply list_lookup_singleton_Some in Hp as [Hp ->]. replace p with (length (effects n)) by lia. rewrite take_app_length, <- H1. by apply Hh.
Qed.

Lemma step_order w0 n e n' : order_inv w0 n -> step n e = Some n' -> order_inv w0 n' /\ effects n `prefix_of` effects n'.
Proof.
  intros Hi [[E1 E2]|[(f & _ & E1 & E2)|(h & E1 & E2)]]%step_effects.
  - split; [|by rewrite E1]. destruct Hi as [H1 H2]. split; rewrite E1, ?E2; done.
  - split; [|rewrite E1; by eexists]. eapply order_snoc; [done|done|done|done].
  - split; [|rewrite E1; by eexists]. eapply order_snoc; [done|done|cbn; by rewrite <- E2|]. intros h' [= <-]. by rewrite <- E2.
Qed.

Lemma run_order w0 l : forall n n', order_inv w0 n -> run n l = Some n' -> order_inv w0 n' /\ effects n `prefix_of` effects n'.
Proof.
  induction l as [|e l IH]; intros n n' Hi; cbn [Service.run]; [by intros [= <-]|]. destruct (step n e) as [n1|] eqn:E; [|done]. cbn [mbind option_bind].
  destruct (step_order w0 n e n1 Hi E) as [Hi1 Hp]. intros H. destruct (IH n1 n' Hi1 H) as [Hi' Hp']. split; [done|]. by transitivity (effects n1).
Qed.

(** ** A future keeps its value *)

Definition future_of (n : Net) (i : nat) (k : Z) (response : Resp) : Prop := exists c, clients n !! i = Some c /\ futures_ c !! k = Some (Some response).

(** What a step does to a client. *)
Lemma step_client n e n' i c : step n e = Some n' -> clients n !! i = Some c ->
  clients n' !! i = Some c \/
  (exists seq k, seq = wrap_u64 (sequence_number_ c + 1) /\ pending_mutex_ c = false /\
    clients n' !! i = Some (with_pending seq (<[seq := k]> (pending_requests_ c)) (<[seq := None]> (futures_ c)) c)) \/
  (exists response info c', HandleResponse response info c = Some c' /\ clients n' !! i = Some c').
Proof.
  intros Hs Hc. assert (Hlt : (i < length (clients n))%nat) by by eapply lookup_lt_Some. revert Hs.
  destruct e as [name id|name id|i' request cb|j|j|i'|i'|i'|f]; cbn [Service.step]; try (intros [= <-]; by left).
  - intros [= <-]. left. by apply lookup_app_l_Some.
  - unfold AsyncSendRequest. destruct (clients n !! i') as [d|] eqn:Ed; [|done]. cbn [mbind option_bind]. case_match; [intros [= <-]; by left|].
    destruct (pending_mutex_ d) eqn:Em; [done|]. intros [= <-]. cbn [clients transmit_request with_wire]. destruct (decide (i' = i)) as [->|Hne].
    + rewrite Hc in Ed. injection Ed as <-. rewrite list_lookup_insert_eq by done. right. left. by eexists _, _.
    + rewrite list_lookup_insert_ne by done. by left.
  - destruct (wire n !! j) as [p|]; [|done]. cbn [mbind option_bind]. destruct p as [i' request info|i' response' info]; cbn [arrive].
    + destruct (services (with_wire _ n) !! i'); [|done]. intros [= <-]. by left.
    + destruct (clients (with_wire _ n) !! i') as [d|] eqn:Ed; [|done]. cbn [mbind option_bind]. destruct (HandleResponse response' info d) as [d'|] eqn:Er; [|done].
      intros [= <-]. cbn [with_clients clients]. cbn [with_wire clients] in Ed. destruct (decide (i' = i)) as [->|Hne].
      * rewrite Hc in Ed. injection Ed as <-. rewrite list_lookup_insert_eq by done. right. right. by exists response', info, d'.
      * rewrite list_lookup_insert_ne by done. by left.
  - destruct (wire n !! j); [|done]. intros [= <-]. by left.
  - destruct (services n !! i') as [s|]; [|done]. cbn [mbind option_bind]. destruct (take_task s); [|done]. intros [= <-]. by left.
  - unfold HandleRequest. destruct (services n !! i') as [s|]; [|done]. cbn [mbind option_bind]. destruct (task_ s) as [[q f]|]; [|done]. cbn [mbind option_bind].
    destruct (negb _); [intros [= <-]; by left|]. destruct (service_callback _ _ _) as [r w]. intros [= <-]. by left.
  - destruct (services n !! i'); [|done]. intros [= <-]. by left.
Qed.

Lemma step_futures n e n' i k response : net_inv n -> Z.of_nat (length (calls n)) + 1 < two64 -> step n e = Some n' ->
  future_of n i k response -> future_of n' i k response.
Proof.
  intros Hi Hn Hs (c & Hc & Hk). destruct (ni_clients _ n Hi i c Hc) as [Hok Hb].
  destruct (step_client n e n' i c Hs Hc) as [Hc'|[(seq & cb & -> & _ & Hc')|(r & info & c' & Hr & Hc')]]; [by exists c|eexists; split; [done|]|exists c'; split; [done|]].
  - cbn [with_pending futures_]. rewrite wrap_u64_small by (pose proof (co_number c Hok); lia). rewrite lookup_insert_ne; [done|].
    assert (is_Some (futures_ c !! k)) as Hx%(co_futures c Hok) by by eexists. lia.
  - destruct (HandleResponse_cases r info c c' Hok Hr) as (_ & _ & _ & _ & [->|(_ & E2 & ->)]); [done|]. rewrite lookup_insert_ne; [done|]. intros <-. congruence.
Qed.

(** A client whose mutex is held, by a callback that waits for it, stays as it is. *)
Definition locked (i : nat) (n : Net) : Prop := exists c, clients n !! i = Some c /\ response_receiver_ c = true /\ pending_mutex_ c = true.

Lemma locked_stays i l : forall n n', locked i n -> run n l = Some n' -> locked i n'.
Proof.
  induction l as [|e l IH]; intros n n' Hl; cbn [Service.run]; [by intros [= <-]|]. destruct (step n e) as [n1|] eqn:E; [|done]. cbn [mbind option_bind].
  apply IH. destruct Hl as (c & Hc & Hr & Hm). destruct (step_client n e n1 i c E Hc) as [Hc'|[(seq & cb & _ & Hf & _)|(r & info & c' & Hh & Hc')]]; [by exists c|congruence|].
  unfold HandleResponse in Hh. by rewrite Hm in Hh.
Qed.

Lemma locked_calls i n request k : locked i n -> step n (ESend i request k) = None.
Proof. intros (c & Hc & Hr & Hm). cbn [Service.step]. unfold AsyncSendRequest. rewrite Hc. cbn [mbind option_bind]. by rewrite Hr, Hm. Qed.

Lemma run_futures i k response l : forall n n', net_inv n -> Z.of_nat (length (calls n) + length l) < two64 -> run n l = Some n' ->
  future_of n i k response -> future_of n' i k response.
Proof.
  induction l as [|e l IH]; intros n n' Hi Hn; cbn [Service.run]; [by intros [= <-]|]. cbn [length] in *. destruct (step n e) as [n1|] eqn:E; [|done].
  cbn [mbind option_bind]. destruct (step_ids service_callback n e n1 E) as [_ Hle]. intros H Hf.
  apply (IH n1 n'); [exact (net_step_inv service_callback n e n1 Hi ltac:(lia) E)|lia|done|]. exact (step_futures n e n1 i k response Hi ltac:(lia) E Hf).
Qed.

(** ** Once: a request is in one place *)

(** A request at a service: on its way there, waiting, or handled. *)
Definition token : Type := nat * bytes * Z.
Definition token_of (i : nat) (info : MessageInfo) : token := (i, data_ (spare_id_ info), seq_num_ info).
Definition packet_token (p : @packet Req Resp) : list token := match p with PRequest i _ info => [token_of i info] | PResponse _ _ _ => [] end.
Definition service_tokens (i : nat) (s : Service) : list token :=
  ((fun t => token_of i t.2) <$> tasks_ s) ++ match task_ s with Some t => [token_of i t.2] | None => [] end.
Definition handled_token (h : @handling Req Resp) : token := token_of (hd_service h) (hd_info h).
Definition tokens (n : Net) : list token :=
  mjoin (packet_token <$> wire n) ++ mjoin (imap service_tokens (services n)) ++ (handled_token <$> handled n).

(** A token is that of a call. *)
Lemma token_asked n t : net_inv n -> t ∈ tokens n ->
  exists i c x, clients n !! i = Some c /\ t.1.2 = data_ (writer_id_ c) /\ x ∈ calls n /\ cl_client x = i /\ cl_number x = t.2.
Proof.
  intros Hi Ht. assert (H : exists request info s, t = token_of s info /\ asked n request info).
  { unfold tokens in Ht. apply elem_of_app in Ht as [(l & Hl & (p & -> & Hp)%list_elem_of_fmap)%list_elem_of_join|Ht].
    - destruct p as [s request info|]; cbn in Hl; [|by apply not_elem_of_nil in Hl]. apply list_elem_of_singleton in Hl as ->.
      exists request, info, s. split; [done|]. apply Hi. left. by exists s.
    - apply elem_of_app in Ht as [(l & Hl & (s & sv & -> & Hs)%elem_of_lookup_imap_1)%list_elem_of_join|(h & -> & Hh)%list_elem_of_fmap].
      + apply elem_of_app in Hl as [([q f] & -> & Hq)%list_elem_of_fmap|Hl].
        * exists q, f, s. split; [done|]. apply Hi. right. exists s, sv. split; [done|by left].
        * destruct (task_ sv) as [[q f]|] eqn:E; [|by apply not_elem_of_nil in Hl]. apply list_elem_of_singleton in Hl as ->.
          exists q, f, s. split; [done|]. apply Hi. right. exists s, sv. split; [done|by right].
      + exists (hd_request h), (hd_info h), (hd_service h). split; [done|]. by apply (ni_handled _ n Hi h). }
  destruct H as (request & info & s & -> & (i & c & a & Hc & Hid & Hx)). by exists i, c, (mkCall i (seq_num_ info) request a).
Qed.

Lemma tokens_service n i s s' wi : services n !! i = Some s ->
  mjoin (packet_token <$> wi) ++ service_tokens i s' ⊆+ mjoin (packet_token <$> wire n) ++ service_tokens i s ->
  tokens (with_services (<[i := s']> (services n)) (with_wire wi n)) ⊆+ tokens n.
Proof.
  intros Hs H. unfold tokens. cbn [with_services with_wire wire services]. change (handled (with_services _ _)) with (handled n).
  destruct (join_insert service_tokens i (services n) s Hs) as (r & Hr & Hr'). rewrite Hr, (Hr' s'), <- !app_assoc, !(assoc_L (++)).
  by do 2 apply submseteq_skips_r.
Qed.

Lemma tokens_wire n wi : mjoin (packet_token <$> wi) ⊆+ mjoin (packet_token <$> wire n) -> tokens (with_wire wi n) ⊆+ tokens n.
Proof. intros H. unfold tokens. by apply submseteq_skips_r. Qed.

Lemma tokens_packets request info (p : Service -> bool) (l : list Service) i :
  mjoin (packet_token <$> packets_from i p (fun s => PRequest s request info) l) = (fun s => token_of s info) <$> packets_from i p id l.
Proof. revert i. induction l as [|s l IH]; intros i; [done|]. cbn [packets_from]. rewrite !fmap_app, join_app, IH. by destruct (p s). Qed.

Lemma NoDup_packets_from {A} (p : A -> bool) (l : list A) i : NoDup (packets_from i p id l).
Proof.
  revert i. induction l as [|s l IH]; intros i; cbn [packets_from]; [constructor|]. apply NoDup_app. split; [by destruct (p s); repeat constructor; apply not_elem_of_nil|].
  split; [|apply IH]. intros x Hx (j & a & _ & _ & ->)%elem_packets_from. destruct (p s); [|by apply not_elem_of_nil in Hx].
  apply list_elem_of_singleton in Hx. cbn in Hx. lia.
Qed.

Lemma tokens_responses response info (p : Client -> bool) (l : list Client) i :
  mjoin (packet_token <$> packets_from i p (fun c => PResponse c response info) l) = [].
Proof. revert i. induction l as [|c l IH]; intros i; [done|]. cbn [packets_from]. rewrite fmap_app, join_app, IH. by destruct (p c). Qed.

(** A call of its client has a number that no request has yet. *)
Lemma tokens_call n i request k n' : net_inv n -> NoDup (net_ids n) -> Z.of_nat (length (calls n)) + 1 < two64 ->
  AsyncSendRequest i request k n = Some n' -> NoDup (tokens n) -> NoDup (tokens n').
Proof.
  intros Hi Hid Hn. unfold AsyncSendRequest. destruct (clients n !! i) as [c|] eqn:Ec; [|done]. cbn [mbind option_bind].
  destruct (ni_clients _ n Hi i c Ec) as [Hc Hb]. rewrite (co_receiver c Hc). cbn [negb]. destruct (pending_mutex_ c); [done|].
  rewrite wrap_u64_small by (pose proof (co_number c Hc); lia). set (info := mkInfo _ _ _ _). intros [= <-] Ht.
  unfold tokens. cbn [transmit_request with_wire wire services]. change (handled (mkNet _ _ _ _ _ _)) with (handled n).
  rewrite fmap_app, join_app, <- app_assoc. set (new := mjoin (packet_token <$> packets_from _ _ _ _)). rewrite (Permutation_app_swap_app _ new). change (NoDup (new ++ tokens n)).
  unfold new. rewrite tokens_packets. apply NoDup_app. split; [|split; [|done]].
  - apply NoDup_fmap_2_strong; [|apply NoDup_packets_from]. by intros x y _ _ [= ->].
  - intros x (s & -> & _)%list_elem_of_fmap (j & d & y & Hd & E1 & Hy & E2 & E3)%token_asked; [|done]. cbn in E1, E3.
    assert (j = i) as ->.
    { eapply NoDup_lookup; [exact Hid|unfold net_ids; by rewrite list_lookup_fmap, Hd|unfold net_ids; rewrite list_lookup_fmap, Ec; cbn; by rewrite E1]. }
    destruct (ni_calls _ n Hi y Hy) as (d' & Hd' & Hbd). rewrite E2, Ec in Hd'. injection Hd' as <-. lia.
Qed.

Lemma tokens_delete j l (p : @packet Req Resp) : l !! j = Some p -> mjoin (packet_token <$> delete j l) ++ packet_token p ≡ₚ mjoin (packet_token <$> l).
Proof. intros H. rewrite (join_fmap_delete packet_token j l p H). apply Permutation_app_comm. Qed.

Lemma tokens_handle n i n' : HandleRequest service_callback i n = Some n' -> tokens n' ⊆+ tokens n.
Proof.
  unfold HandleRequest. destruct (services n !! i) as [s|] eqn:Es; [|done]. cbn [mbind option_bind]. destruct (task_ s) as [[q f]|] eqn:Et; [|done].
  cbn [mbind option_bind]. destruct (negb _).
  - intros [= <-]. apply (tokens_service n i s (with_tasks (tasks_ s) None s) (wire n) Es). apply submseteq_app; [done|]. unfold service_tokens. cbn [with_tasks tasks_ task_].
    apply submseteq_app; [done|apply submseteq_nil_l].
  - destruct (service_callback _ _ _) as [r w]. intros [= <-]. unfold tokens. change (handled (transmit_response _ _ _ ?m)) with (handled m).
    cbn [transmit_response with_effect with_services with_wire wire services]. rewrite handled_handled, !fmap_app, join_app, tokens_responses, app_nil_r.
    change (handled (with_services _ n)) with (handled n). apply submseteq_app; [done|].
    destruct (join_insert service_tokens i (services n) s Es) as (m & Hr & Hr'). rewrite Hr, (Hr' (with_tasks (tasks_ s) None s)). unfold service_tokens at 1 2.
    cbn [with_tasks tasks_ task_]. rewrite Et, app_nil_r, <- !app_assoc. apply submseteq_app; [done|]. rewrite (assoc_L (++)), (Permutation_app_comm (m ++ _)). done.
Qed.

Definition sends (e : event) : bool := match e with ESend _ _ _ => true | _ => false end.

(** No other step makes a token. *)
Lemma step_tokens n e n' : sends e = false -> step n e = Some n' -> tokens n' ⊆+ tokens n.
Proof.
  intros He. destruct e as [name id|name id|i request k|j|j|i|i|i|f]; try done; cbn [Service.step].
  - intros [= <-]. unfold tokens. cbn [with_services wire services]. by rewrite imap_app, join_app, app_nil_r.
  - by intros [= <-].
  - destruct (wire n !! j) as [p|] eqn:Ep; [|done]. cbn [mbind option_bind]. pose proof (tokens_delete j _ _ Ep) as Hd. destruct p as [i request info|i response info]; cbn [arrive].
    + destruct (services (with_wire _ n) !! i) as [s|] eqn:Es; [|done]. cbn [mbind option_bind]. intros [= <-].
      apply (tokens_service n i s (Enqueue (request, info) s) _ Es). rewrite <- Hd, <- app_assoc. apply submseteq_app; [done|].
      unfold service_tokens. cbn [Enqueue with_tasks tasks_ task_]. rewrite fmap_app, <- app_assoc. cbn. by rewrite Permutation_middle.
    + destruct (clients (with_wire _ n) !! i) as [c|]; [|done]. cbn [mbind option_bind]. destruct (HandleResponse _ _ _); [|done]. intros [= <-].
      apply (tokens_wire n). rewrite <- Hd. apply submseteq_inserts_r. done.
  - destruct (wire n !! j) as [p|] eqn:Ep; [|done]. intros [= <-]. apply tokens_wire. rewrite <- (tokens_delete j _ _ Ep). by apply submseteq_inserts_r.
  - destruct (services n !! i) as [s|] eqn:Es; [|done]. cbn [mbind option_bind]. destruct (take_task s) as [s'|] eqn:Et; [|done]. intros [= <-].
    apply (tokens_service n i s s' (wire n) Es). apply submseteq_app; [done|]. revert Et. unfold take_task, service_tokens. destruct (thread_ended s); [done|].
    destruct (task_ s) as [t|]; [done|]. destruct (negb _); [by intros [= <-]|]. destruct (tasks_ s) as [|t l]; [done|]. intros [= <-].
    cbn [with_tasks tasks_ task_]. rewrite fmap_cons, app_nil_r, Permutation_app_comm. done.
  - by apply tokens_handle.
  - destruct (services n !! i) as [s|] eqn:Es; [|done]. intros [= <-]. apply (tokens_service n i s (destroy s) (wire n) Es). apply submseteq_app; [done|].
    unfold service_tokens. cbn [destroy tasks_ task_]. apply submseteq_app; [apply submseteq_nil_l|done].
  - intros [= <-]. unfold tokens. by rewrite handled_changed.
Qed.

Lemma step_once n e n' : net_inv n -> NoDup (net_ids n) -> Z.of_nat (length (calls n)) + 1 < two64 -> step n e = Some n' -> NoDup (tokens n) -> NoDup (tokens n').
Proof.
  intros Hi Hid Hn Hs Ht. destruct (sends e) eqn:E; [|by eapply submseteq_NoDup, Ht; apply (step_tokens n e)]. destruct e; try done. by eapply tokens_call.
Qed.

Lemma run_once l : forall n n', net_inv n -> NoDup (net_ids n ++ client_ids l) -> Z.of_nat (length (calls n) + length l) < two64 -> run n l = Some n' ->
  NoDup (tokens n) -> NoDup (tokens n').
Proof.
  induction l as [|e l IH]; intros n n' Hi Hid Hn; cbn [Service.run]; [by intros [= <-]|]. cbn [length] in *. destruct (step n e) as [n1|] eqn:E; [|done].
  cbn [mbind option_bind]. destruct (step_ids service_callback n e n1 E) as [E1 Hle]. intros H Ht.
  apply (IH n1 n'); [exact (net_step_inv service_callback n e n1 Hi ltac:(lia) E)|by rewrite E1, <- app_assoc|lia|done|].
  apply (step_once n e n1 Hi); try done; [by apply NoDup_app in Hid as (? & _)|lia].
Qed.

(** ** Where: at a service of the name that the client calls *)

(** Clients and services keep their names. *)
Definition client_key (c : Client) : bytes * string := (data_ (writer_id_ c), c_service_name c).

Definition new_clients (e : event) : list (bytes * string) := match e with ECreateClient name id => [(data_ id, name)] | _ => [] end.
Definition new_services (e : event) : list string := match e with ECreateService name _ => [name] | _ => [] end.

Lemma step_names n e n' : step n e = Some n' ->
  client_key <$> clients n' = (client_key <$> clients n) ++ new_clients e /\ s_service_name <$> services n' = (s_service_name <$> services n) ++ new_services e.
Proof.
  assert (Hsv : forall i (s s' : Service), services n !! i = Some s -> s_service_name s' = s_service_name s ->
    s_service_name <$> <[i := s']> (services n) = s_service_name <$> services n).
  { intros i s s' Hs E. rewrite list_fmap_insert, E. apply list_insert_id. by rewrite list_lookup_fmap, Hs. }
  assert (Hcl : forall i (c c' : Client), clients n !! i = Some c -> client_key c' = client_key c -> client_key <$> <[i := c']> (clients n) = client_key <$> clients n).
  { intros i c c' Hc E. rewrite list_fmap_insert, E. apply list_insert_id. by rewrite list_lookup_fmap, Hc. }
  destruct e as [name id|name id|i request k|j|j|i|i|i|f]; cbn [Service.step new_clients new_services]; rewrite ?app_nil_r.
  - intros [= <-]. split; [done|]. cbn [with_services services]. by rewrite fmap_app.
  - intros [= <-]. split; [|done]. cbn [with_clients clients]. by rewrite fmap_app.
  - unfold AsyncSendRequest. destruct (clients n !! i) as [c|] eqn:Ec; [|done]. cbn [mbind option_bind]. case_match; [by intros [= <-]|].
    case_match; [done|]. intros [= <-]. split; [|done]. cbn [clients transmit_request with_wire]. by rewrite (Hcl i c).
  - destruct (wire n !! j) as [p|]; [|done]. cbn [mbind option_bind]. destruct p as [i request info|i response info]; cbn [arrive].
    + destruct (services (with_wire _ n) !! i) as [s|] eqn:Es; [|done]. intros [= <-]. split; [done|]. cbn [with_services services]. by rewrite (Hsv i s).
    + destruct (clients (with_wire _ n) !! i) as [c|] eqn:Ec; [|done]. cbn [mbind option_bind]. destruct (HandleResponse _ _ _) as [c'|] eqn:Er; [|done].
      intros [= <-]. split; [|done]. cbn [with_clients clients]. rewrite (Hcl i c); [done|done|]. unfold client_key. rewrite (HandleResponse_id _ _ _ _ Er).
      f_equal. revert Er. unfold HandleResponse. repeat (case_match; [|]); try done; by intros [= <-].
  - destruct (wire n !! j); [|done]. by intros [= <-].
  - destruct (services n !! i) as [s|] eqn:Es; [|done]. cbn [mbind option_bind]. destruct (take_task s) as [s'|] eqn:Et; [|done]. intros [= <-]. split; [done|].
    cbn [with_services services]. rewrite (Hsv i s); [done|done|]. revert Et. unfold take_task. repeat (case_match; try done); by intros [= <-].
  - unfold HandleRequest. destruct (services n !! i) as [s|] eqn:Es; [|done]. cbn [mbind option_bind]. destruct (task_ s) as [[q f]|]; [|done]. cbn [mbind option_bind].
    destruct (negb _); [|destruct (service_callback _ _ _) as [r w]]; intros [= <-]; (split; [done|]);
      cbn [transmit_response with_effect with_wire with_services services]; by rewrite (Hsv i s).
  - destruct (services n !! i) as [s|] eqn:Es; [|done]. intros [= <-]. split; [done|]. cbn [with_services services]. by rewrite (Hsv i s).
  - by intros [= <-].
Qed.

Lemma run_names l : forall n n', run n l = Some n' ->
  client_key <$> clients n' = (client_key <$> clients n) ++ mjoin (new_clients <$> l) /\
  s_service_name <$> services n' = (s_service_name <$> services n) ++ mjoin (new_services <$> l).
Proof.
  induction l as [|e l IH]; intros n n'; cbn [Service.run]; [intros [= <-]; cbn; by rewrite !app_nil_r|]. destruct (step n e) as [n1|] eqn:E; [|done].
  cbn [mbind option_bind]. destruct (step_names n e n1 E) as [E1 E2]. intros H. destruct (IH n1 n' H) as [E1' E2'].
  rewrite E1', E2', E1, E2, !fmap_cons, <- !app_assoc. done.
Qed.

(** Where the calls and the changes of a run come from. *)
Lemma net_run_calls l : forall n n' x, run n l = Some n' -> x ∈ calls n' -> x ∈ calls n \/ exists k, ESend (cl_client x) (cl_request x) k ∈ l.
Proof.
  induction l as [|e l IH]; intros n n' x; cbn [Service.run]; [intros [= <-]; by left|]. destruct (step n e) as [n1|] eqn:E; [|done].
  cbn [mbind option_bind]. intros H Hx. destruct (IH n1 n' x H Hx) as [Hx1|[k Hk]]; [|right; exists k; by right]. destruct (sends e) eqn:Ee.
  - destruct e as [| |i request k| | | | | |]; try done. cbn [Service.step] in E. unfold AsyncSendRequest in E. destruct (clients n !! i) as [c|]; [|done].
    cbn [mbind option_bind] in E. destruct (negb _); [injection E as <-; by left|]. destruct (pending_mutex_ c); [done|]. injection E as <-.
    cbn [calls transmit_request with_wire] in Hx1. apply elem_of_app in Hx1 as [Hx1|Hx1%list_elem_of_singleton]; [by left|]. subst x. right. exists k. by left.
  - left. enough (calls n1 = calls n) as <- by done. destruct e; try done; cbn [Service.step] in E.
    + by injection E as <-.
    + by injection E as <-.
    + apply (internal_calls service_callback n (EArrive packet) n1 eq_refl E).
    + destruct (wire n !! packet); [|done]. by injection E as <-.
    + apply (internal_calls service_callback n (ETake service) n1 eq_refl E).
    + apply (internal_calls service_callback n (EHandle service) n1 eq_refl E).
    + destruct (services n !! service); [|done]. by injection E as <-.
    + by injection E as <-.
Qed.

Lemma run_changes l : forall n n' f, run n l = Some n' -> Changed f ∈ effects n' -> Changed f ∈ effects n \/ EChange f ∈ l.
Proof.
  induction l as [|e l IH]; intros n n' f; cbn [Service.run]; [intros [= <-]; by left|]. destruct (step n e) as [n1|] eqn:E; [|done].
  cbn [mbind option_bind]. intros H Hf. destruct (IH n1 n' f H Hf) as [Hf1|Hf1]; [|right; by right].
  destruct (step_effects n e n1 E) as [[E1 _]|[(g & -> & E1 & _)|(h & E1 & _)]]; rewrite E1 in Hf1; [by left|..].
  - apply elem_of_app in Hf1 as [Hf1|Hf1%list_elem_of_singleton]; [by left|injection Hf1 as ->; right; by left].
  - apply elem_of_app in Hf1 as [Hf1|Hf1%list_elem_of_singleton]; [by left|done].
Qed.

(** The service of a token has the name of the client's. *)
Definition well_sent (n : Net) (t : token) : Prop :=
  exists i name, (client_key <$> clients n) !! i = Some (t.1.2, name) /\ (s_service_name <$> services n) !! t.1.1 = Some name.

Lemma well_sent_keep n n' t : (client_key <$> clients n) `prefix_of` (client_key <$> clients n') ->
  (s_service_name <$> services n) `prefix_of` (s_service_name <$> services n') -> well_sent n t -> well_sent n' t.
Proof. intros Hc Hs (i & name & H1 & H2). exists i, name. split; by eapply prefix_lookup_Some. Qed.

Lemma call_tokens n i request k n' t : AsyncSendRequest i request k n = Some n' -> t ∈ tokens n' -> t ∈ tokens n \/ well_sent n t.
Proof.
  unfold AsyncSendRequest. destruct (clients n !! i) as [c|] eqn:Ec; [|done]. cbn [mbind option_bind]. case_match; [intros [= <-]; by left|].
  case_match; [done|]. set (info := mkInfo _ _ _ _). intros [= <-]. unfold tokens. cbn [transmit_request with_wire wire services].
  change (handled (mkNet _ _ _ _ _ _)) with (handled n). rewrite fmap_app, join_app, tokens_packets, <- app_assoc, !elem_of_app.
  intros [Ht|[(s & -> & (j & sv & Hsv & Hon & ->)%elem_packets_from)%list_elem_of_fmap|Ht]]; [by left; left| |left; by right].
  right. exists i, (c_service_name c). split; [by rewrite list_lookup_fmap, Ec|]. cbn. rewrite list_lookup_fmap, Hsv. cbn. f_equal.
  unfold on_request_channel in Hon. apply andb_true_iff in Hon as [_ E%String.eqb_eq]. symmetry. by eapply append_inj_r.
Qed.

Lemma step_well_sent n e n' : step n e = Some n' -> Forall (well_sent n) (tokens n) -> Forall (well_sent n') (tokens n').
Proof.
  intros Hs Ht. destruct (step_names n e n' Hs) as [H1 H2]. apply Forall_forall. intros t Hin.
  apply (well_sent_keep n); [rewrite H1; by eexists|rewrite H2; by eexists|].
  rewrite Forall_forall in Ht. destruct (sends e) eqn:E; [|apply Ht; eapply elem_of_submseteq, (step_tokens n e n'); done].
  destruct e as [| |i request k| | | | | |]; try done. destruct (call_tokens n i request k n' t Hs Hin) as [H|H]; [by apply Ht|done].
Qed.

Lemma run_well_sent l : forall n n', run n l = Some n' -> Forall (well_sent n) (tokens n) -> Forall (well_sent n') (tokens n').
Proof.
  induction l as [|e l IH]; intros n n'; cbn [Service.run]; [by intros [= <-]|]. destruct (step n e) as [n1|] eqn:E; [|done]. cbn [mbind option_bind].
  intros H Ht. apply (IH n1 n' H). by apply (step_well_sent n e).
Qed.

(** ** Runs *)

Definition called (n : Net) (i : nat) (k : Z) : Prop := exists x, x ∈ calls n /\ cl_client x = i /\ cl_number x = k.

(** What holds in every run. *)
Record run_facts (w0 : W) (n : Net) : Prop := {
  rf_net : net_inv n;
  rf_order : order_inv w0 n;
  rf_once : NoDup (tokens n);
  rf_sent : Forall (well_sent n) (tokens n);
}.

Lemma net_new_facts w0 : run_facts w0 (net_new w0).
Proof. split; [apply net_new_inv|by split|constructor|constructor]. Qed.

Lemma run_keeps_facts w0 l n n' : run_facts w0 n -> NoDup (net_ids n ++ client_ids l) -> Z.of_nat (length (calls n) + length l) < two64 ->
  run n l = Some n' -> run_facts w0 n' /\ effects n `prefix_of` effects n'.
Proof.
  intros [Hi Ho Ht Hs] Hid Hl Hr. destruct (run_order w0 l n n' Ho Hr) as [Ho' Hp]. split; [|done]. split; [|done| |].
  - by apply (net_run_inv service_callback l n n' Hi Hl Hr).
  - by apply (run_once l n n').
  - by apply (run_well_sent l n n').
Qed.

Lemma facts_handled w0 n : run_facts w0 n -> NoDup (handled_token <$> handled n).
Proof. intros [_ _ Ht _]. unfold tokens in Ht. by apply NoDup_app in Ht as (_ & _ & (_ & _ & ?)%NoDup_app). Qed.

Lemma handled_elem (n : Net) h : h ∈ handled n <-> exists p, effects n !! p = Some (Handled h).
Proof.
  unfold handled. rewrite list_elem_of_omap. split.
  - intros (e & He & Ee). destruct e as [h'|]; [|done]. injection Ee as ->. by apply list_elem_of_lookup in He.
  - intros [p Hp]. exists (Handled h). split; [|done]. by eapply list_elem_of_lookup_2.
Qed.

Lemma same_client (n : Net) i j c d : NoDup (net_ids n) -> clients n !! i = Some c -> clients n !! j = Some d -> data_ (writer_id_ c) = data_ (writer_id_ d) -> i = j.
Proof.
  intros Hid Hc Hd E. eapply NoDup_lookup; [exact Hid|unfold net_ids; by rewrite list_lookup_fmap, Hc|unfold net_ids; rewrite list_lookup_fmap, Hd; cbn; by rewrite E].
Qed.

(** The place of a call that has its response, and what is there. *)
Definition place (n : Net) (id : Identity) (k : Z) (response : Resp) (p : nat) (h : handling) : Prop :=
  effects n !! p = Some (Handled h) /\ hd_response h = response /\ seq_num_ (hd_info h) = k /\ data_ (spare_id_ (hd_info h)) = data_ id.

Lemma future_place n i c k response : net_inv n -> clients n !! i = Some c -> futures_ c !! k = Some (Some response) ->
  exists p h, place n (writer_id_ c) k response p h.
Proof.
  intros Hi Hc Hk. destruct (ni_futures _ n Hi i c k response Hc Hk) as (h & [p Hp]%handled_elem & H). by exists p, h.
Qed.

Lemma call_place w0 n i c k response p h : run_facts w0 n -> NoDup (net_ids n) -> clients n !! i = Some c -> place n (writer_id_ c) k response p h ->
  exists a s, mkCall i k (hd_request h) a ∈ calls n /\ services n !! hd_service h = Some s /\ s_service_name s = c_service_name c /\
    response = (service_callback (hd_service h) (world_at w0 (take p (effects n))) (hd_request h)).1.
Proof.
  intros [Hi Ho _ Hs] Hid Hc (Hp & Er & Es & Eid). assert (Hh : h ∈ handled n) by (apply handled_elem; by exists p).
  destruct (ni_handled _ n Hi h Hh) as [(j & d & a & Hd & Eid' & Hx) _]. assert (j = i) as -> by (eapply same_client; [done..|congruence]).
  rewrite Forall_forall in Hs. destruct (Hs (handled_token h)) as (j & name & Hj & Hn).
  { unfold tokens. rewrite !elem_of_app. right. right. by apply list_elem_of_fmap_2. }
  apply list_lookup_fmap_Some_1 in Hj as (d' & [= Ej ->] & Ed'), Hn as (s & En & Esv).
  assert (j = i) as -> by (eapply same_client; [done..|congruence]). rewrite Hc in Ed'. injection Ed' as <-.
  exists a, s. rewrite Es in Hx. split_and!; [done..|]. rewrite <- Er. by apply Ho.
Qed.

(** The place does not move; a call that was not made has none. *)
Lemma place_stays n n' id k response p h : effects n `prefix_of` effects n' -> place n id k response p h -> place n' id k response p h /\ (p < length (effects n))%nat.
Proof. intros Hpre (Hp & H). split; [split; [by eapply prefix_lookup_Some|done]|]. by eapply lookup_lt_Some. Qed.

Lemma place_called n n' i c k response p h : net_inv n -> (client_key <$> clients n) `prefix_of` (client_key <$> clients n') -> NoDup (net_ids n') ->
  effects n `prefix_of` effects n' -> clients n' !! i = Some c -> place n' (writer_id_ c) k response p h -> (p < length (effects n))%nat -> called n i k.
Proof.
  intros Hi Hcl Hid Hpre Hc (Hp & _ & Es & Eid) Hlt. destruct (lookup_lt_is_Some_2 _ _ Hlt) as [e He]. pose proof (prefix_lookup_Some _ _ _ _ He Hpre) as He'.
  rewrite Hp in He'. injection He' as <-. destruct (ni_handled _ n Hi h) as [(j & d & a & Hd & Eid' & Hx) _]; [apply handled_elem; by exists p|].
  assert (Hj : (client_key <$> clients n) !! j = Some (client_key d)) by by rewrite list_lookup_fmap, Hd. pose proof (prefix_lookup_Some _ _ _ _ Hj Hcl) as Hj'.
  rewrite list_lookup_fmap in Hj'. destruct (clients n' !! j) as [d'|] eqn:Ed'; [|done]. injection Hj' as E1 _.
  assert (j = i) as -> by (eapply same_client; [done..|congruence]). exists (mkCall i (seq_num_ (hd_info h)) (hd_request h) a). by split_and!.
Qed.

(** A call that had returned has its place in what there was already. *)
Lemma early_place w0 n1 l n2 i c k response : run_facts w0 n1 -> run_facts w0 n2 -> Z.of_nat (length (calls n1) + length l) < two64 -> run n1 l = Some n2 ->
  effects n1 `prefix_of` effects n2 -> clients n2 !! i = Some c -> futures_ c !! k = Some (Some response) ->
  exists p h, place n2 (writer_id_ c) k response p h /\ ((exists r, future_of n1 i k r) -> (p < length (effects n1))%nat).
Proof.
  intros Hf1 Hf2 Hl Hr2 Hpre Hc Ek.
  assert (Hlate : (forall r, ~ future_of n1 i k r) -> exists p h, place n2 (writer_id_ c) k response p h /\ ((exists r, future_of n1 i k r) -> (p < length (effects n1))%nat)).
  { intros Hno. destruct (future_place n2 i c k response (rf_net _ _ Hf2) Hc Ek) as (p & h & Hp). exists p, h. split; [done|]. intros [r Hr]. by destruct (Hno r). }
  destruct (clients n1 !! i) as [d|] eqn:Ed; [|apply Hlate; intros r (? & ? & _); congruence].
  destruct (futures_ d !! k) as [[r|]|] eqn:Ekd; [|apply Hlate; intros r (? & ? & ?); congruence..].
  destruct (run_futures i k r l n1 n2 (rf_net _ _ Hf1) Hl Hr2 ltac:(by exists d)) as (c' & Hc' & Hk'). rewrite Hc in Hc'. injection Hc' as <-.
  rewrite Ek in Hk'. injection Hk' as ->. destruct (future_place n1 i d k r (rf_net _ _ Hf1) Ed Ekd) as (p & h & Hp).
  assert (Eid : data_ (writer_id_ d) = data_ (writer_id_ c)).
  { assert (Hd : (client_key <$> clients n1) !! i = Some (client_key d)) by by rewrite list_lookup_fmap, Ed.
    assert (Hd' : (client_key <$> clients n2) !! i = Some (client_key d)) by (rewrite (proj1 (run_names l n1 n2 Hr2)); by apply lookup_app_l_Some).
    rewrite list_lookup_fmap, Hc in Hd'. by injection Hd' as E _. }
  destruct (place_stays n1 n2 _ k r p h Hpre Hp) as [Hp' Hlt]. exists p, h. split; [|done]. unfold place in *. by rewrite <- Eid.
Qed.

(** What holds from [n1] to [n2]. *)
Definition linearized (w0 : W) (n1 n2 : Net) : Prop :=
  world n2 = world_at w0 (effects n2) /\ effects n1 `prefix_of` effects n2 /\ NoDup (handled_token <$> handled n2) /\
  forall i c k response, clients n2 !! i = Some c -> SendRequest_returns k c = Some response ->
    exists p h a s, effects n2 !! p = Some (Handled h) /\ seq_num_ (hd_info h) = k /\ mkCall i k (hd_request h) a ∈ calls n2 /\
      services n2 !! hd_service h = Some s /\ s_service_name s = c_service_name c /\
      response = (service_callback (hd_service h) (world_at w0 (take p (effects n2))) (hd_request h)).1 /\
      ((exists r, future_of n1 i k r) -> (p < length (effects n1))%nat) /\ (~ called n1 i k -> (length (effects n1) <= p)%nat).

Lemma run_linearized w0 l1 n1 l2 n2 : NoDup (client_ids (l1 ++ l2)) -> Z.of_nat (length (l1 ++ l2)) < two64 ->
  run (net_new w0) l1 = Some n1 -> run n1 l2 = Some n2 -> linearized w0 n1 n2.
Proof.
  rewrite length_app. intros Hid Hl Hr1 Hr2. unfold client_ids in Hid. rewrite fmap_app, join_app in Hid.
  destruct (net_run_inv service_callback l1 (net_new w0) n1 (net_new_inv service_callback w0) ltac:(cbn; lia) Hr1) as (Hi1 & E1 & Hc1).
  change (net_ids (net_new w0)) with (@nil bytes) in E1. cbn [app] in E1. cbn in Hc1.
  destruct (net_run_inv service_callback l2 n1 n2 Hi1 ltac:(lia) Hr2) as (_ & E2 & _). rewrite E1 in E2.
  assert (Hid1 : NoDup (net_ids n1)) by (rewrite E1; by apply NoDup_app in Hid as (? & _)). assert (Hid2 : NoDup (net_ids n2)) by by rewrite E2.
  destruct (run_keeps_facts w0 l1 _ n1 (net_new_facts w0) ltac:(rewrite E1 in Hid1; exact Hid1) ltac:(cbn; lia) Hr1) as [Hf1 _].
  destruct (run_keeps_facts w0 l2 n1 n2 Hf1 ltac:(rewrite E1; exact Hid) ltac:(lia) Hr2) as [Hf2 Hpre].
  split; [by apply Hf2|]. split; [done|]. split; [by eapply facts_handled|].
  intros i c k response Hc Hk. unfold SendRequest_returns in Hk. destruct (futures_ c !! k) as [[r|]|] eqn:Ek; try done. cbn in Hk. injection Hk as ->.
  destruct (early_place w0 n1 l2 n2 i c k response Hf1 Hf2 ltac:(lia) Hr2 Hpre Hc Ek) as (p & h & Hp & Hlt).
  destruct (call_place w0 n2 i c k response p h Hf2 Hid2 Hc Hp) as (a & s & Hx & Hs & Hn & Hr).
  exists p, h, a, s. split_and!; try done; [apply Hp|apply Hp|]. intros Hno. apply Nat.nlt_ge. intros Hlt'. apply Hno.
  assert (Hcl : (client_key <$> clients n1) `prefix_of` (client_key <$> clients n2)) by (rewrite (proj1 (run_names l2 n1 n2 Hr2)); by eexists).
  by eapply (place_called n1 n2 i c k response p h (rf_net _ _ Hf1) Hcl Hid2 Hpre Hc Hp).
Qed.

(** C10: the calls of all clients, and the changes of the program itself, take effect one at a time, in one order: every response is what
    the callback of a service with the name that the client calls makes of the state at the place of the call, and of the request of this
    very call.  The order only grows, a call that has its response is in it, and a call that was not made yet will have a later place: so it
    is the order of the calls where one returned before the other was made.  A service handles a call at most once. *)
Theorem calls_linearizable w0 l1 n1 l2 n2 : NoDup (client_ids (l1 ++ l2)) -> Z.of_nat (length (l1 ++ l2)) < two64 ->
  run (net_new w0) l1 = Some n1 -> run n1 l2 = Some n2 ->
  world n2 = world_at w0 (effects n2) /\ effects n1 `prefix_of` effects n2 /\ NoDup (handled_token <$> handled n2) /\
  forall i c k response, clients n2 !! i = Some c -> SendRequest_returns k c = Some response ->
    exists p h a s, effects n2 !! p = Some (Handled h) /\ seq_num_ (hd_info h) = k /\ mkCall i k (hd_request h) a ∈ calls n2 /\
      services n2 !! hd_service h = Some s /\ s_service_name s = c_service_name c /\
      response = (service_callback (hd_service h) (world_at w0 (take p (effects n2))) (hd_request h)).1 /\
      ((exists r, future_of n1 i k r) -> (p < length (effects n1))%nat) /\ (~ called n1 i k -> (length (effects n1) <= p)%nat).
Proof. intros Hid Hl H1 H2. exact (run_linearized w0 l1 n1 l2 n2 Hid Hl H1 H2). Qed.
End order.
