(* ===== verification/ServiceLiveness.v ===== *)
(** * ServiceLiveness: every call to a service is answered

    When nothing is lost, no service is destroyed and the callbacks do not call again: what is between a call and its response is always
    somewhere, the steps that bring it on cannot go on forever, and when no such step is left every call to a service has its response. *)

From S2P Require Import Prelude ShmMessage Service ServiceSafety.

Section liveness.
Context {Req Resp W : Type} (service_callback : nat -> W -> Req -> Resp * W).
#[local] Abbreviation Client := (@Client Req Resp).
#[local] Abbreviation Service := (@Service Req).
#[local] Abbreviation Net := (@Net Req Resp W).
#[local] Abbreviation event := (@event Req W).
#[local] Abbreviation run := (run service_callback).
#[local] Abbreviation step := (step service_callback).
#[local] Abbreviation net_inv := (net_inv service_callback).

(** What users do, when nothing goes wrong. *)
Definition calm (e : event) : bool :=
  match e with
  | ELose _ | EDestroy _ => false
  | ESend _ _ k => match k with CNone => true | CSend _ _ => false end
  | _ => true
  end.

Lemma internal_calm e : internal e = true -> calm e = true.
Proof. by destruct e. Qed.

(** ** What is on its way *)

Definition request_coming (n : Net) (name : string) (id : Identity) (k : Z) : Prop :=
  exists i s request info, services n !! i = Some s /\ s_service_name s = name /\ (PRequest i request info ∈ wire n \/ holds s request info) /\
    seq_num_ info = k /\ data_ (spare_id_ info) = data_ id.
Definition response_coming (n : Net) (i : nat) (id : Identity) (k : Z) : Prop :=
  exists response info, PResponse i response info ∈ wire n /\ seq_num_ info = k /\ data_ (spare_id_ info) = data_ id.

Record live_inv (n : Net) : Prop := {
  li_services : forall i s, services n !! i = Some s -> request_receiver_ s = true /\ inited_ s = true /\ thread_ended s = false;
  li_clients : forall i c, clients n !! i = Some c -> pending_mutex_ c = false /\ forall k cb, pending_requests_ c !! k = Some cb -> cb = CNone;
  li_requests : forall i request info, PRequest i request info ∈ wire n -> is_Some (services n !! i);
  li_responses : forall i response info, PResponse i response info ∈ wire n -> is_Some (clients n !! i);
  li_calls : forall x c, x ∈ calls n -> (0 < cl_asked x)%nat -> clients n !! cl_client x = Some c -> futures_ c !! cl_number x = Some None ->
    request_coming n (c_service_name c) (writer_id_ c) (cl_number x) \/ response_coming n (cl_client x) (writer_id_ c) (cl_number x);
}.

Lemma net_new_live w0 : live_inv (net_new w0).
Proof. split; intros *; try done; try (by intros ?%not_elem_of_nil). Qed.

(** Of the services and of the wire, only what is on its way has to stay. *)
Lemma coming_keep n n' : live_inv n -> calls n' = calls n ->
  (forall i s, services n' !! i = Some s -> request_receiver_ s = true /\ inited_ s = true /\ thread_ended s = false) ->
  (forall i c', clients n' !! i = Some c' -> pending_mutex_ c' = false /\ (forall k cb, pending_requests_ c' !! k = Some cb -> cb = CNone)) ->
  (forall i request info, PRequest i request info ∈ wire n' -> is_Some (services n' !! i)) ->
  (forall i response info, PResponse i response info ∈ wire n' -> is_Some (clients n' !! i)) ->
  (forall i c' k, clients n' !! i = Some c' -> futures_ c' !! k = Some None -> (exists x, x ∈ calls n' /\ cl_client x = i /\ cl_number x = k) ->
     exists c, clients n !! i = Some c /\ c_service_name c = c_service_name c' /\ writer_id_ c = writer_id_ c' /\ futures_ c !! k = Some None /\
       (request_coming n (c_service_name c) (writer_id_ c) k ->
          request_coming n' (c_service_name c) (writer_id_ c) k \/ response_coming n' i (writer_id_ c) k) /\
       (response_coming n i (writer_id_ c) k -> response_coming n' i (writer_id_ c) k)) -> live_inv n'.
Proof.
  intros [L1 L2 L3 L4 L5] Ec H1 H2 H3 H4 H5. split; try done. intros x c' Hx Ha Hc' Hf.
  destruct (H5 (cl_client x) c' (cl_number x) Hc' Hf ltac:(by exists x)) as (c & Hc & <- & <- & Hf' & Hq & Hr). rewrite Ec in Hx.
  destruct (L5 x c Hx Ha Hc Hf') as [H|H]; [by apply Hq|right; by apply Hr].
Qed.

(** A step that changes a service, which goes on; its client side stays. *)
Lemma live_service n i s s' wi : live_inv n -> services n !! i = Some s ->
  request_receiver_ s' = true /\ inited_ s' = true /\ thread_ended s' = false -> s_service_name s' = s_service_name s ->
  (forall request info, holds s request info -> holds s' request info) ->
  (forall p, p ∈ wi -> p ∈ wire n) ->
  (forall p, p ∈ wire n -> p ∈ wi \/ exists request info, p = PRequest i request info /\ holds s' request info) ->
  live_inv (with_services (<[i := s']> (services n)) (with_wire wi n)).
Proof.
  intros Hl Hs Hok Hname Hh Hw1 Hw2. assert (Hlt : (i < length (services n))%nat) by by eapply lookup_lt_Some.
  assert (Hin : forall j, is_Some (services n !! j) -> is_Some (<[i := s']> (services n) !! j)) by (intros j; rewrite !lookup_lt_is_Some, length_insert; done).
  apply (coming_keep n); try done; cbn [with_services with_wire services clients wire].
  - intros j t Ht. destruct (decide (i = j)) as [<-|Hne]; [rewrite list_lookup_insert_eq in Ht by done; by injection Ht as <-|].
    rewrite list_lookup_insert_ne in Ht by done. by apply (li_services n Hl j).
  - by apply Hl.
  - intros j q f Hp%Hw1. by apply Hin, (li_requests n Hl j q f).
  - intros j r f Hp%Hw1. by apply (li_responses n Hl j r f).
  - intros j c k Hc Hf _. exists c. split_and!; try done.
    + intros (t & sv & q & f & Ht & Hn & Hp & E1 & E2). left. destruct (decide (i = t)) as [<-|Hne].
      * rewrite Hs in Ht. injection Ht as <-. exists i, s', q, f. cbn [with_services with_wire services wire]. rewrite list_lookup_insert_eq by done.
        split_and!; try done; [by rewrite Hname|]. destruct Hp as [Hp|Hp]; [|by right; apply Hh]. destruct (Hw2 _ Hp) as [H|(q' & f' & [= <- <-] & H)]; [by left|by right].
      * exists t, sv, q, f. cbn [with_services with_wire services wire]. rewrite list_lookup_insert_ne by done. split_and!; try done.
        destruct Hp as [Hp|Hp]; [|by right]. destruct (Hw2 _ Hp) as [H|(q' & f' & [= -> <- <-] & H)]; [by left|done].
    + intros (r & f & Hp & H). exists r, f. split; [|done]. cbn [with_services with_wire wire]. destruct (Hw2 _ Hp) as [Hx|(q' & f' & ? & _)]; [done|done].
Qed.

Lemma live_call n i request n' : net_inv n -> live_inv n -> Z.of_nat (length (calls n)) + 1 < two64 -> AsyncSendRequest i request CNone n = Some n' -> live_inv n'.
Proof.
  intros Hi Hl Hn. unfold AsyncSendRequest. destruct (clients n !! i) as [c|] eqn:Ec; [|done]. cbn [mbind option_bind].
  destruct (ni_clients _ n Hi i c Ec) as [Hc Hb]. rewrite (co_receiver c Hc). cbn [negb]. destruct (li_clients n Hl i c Ec) as [-> Hk0].
  rewrite wrap_u64_small by (pose proof (co_number c Hc); lia). change (with_pending _ _ _ c) with (client_called CNone c). intros [= <-].
  assert (Hlt : (i < length (clients n))%nat) by by eapply lookup_lt_Some. set (info := mkInfo _ _ _ _). set (x := mkCall _ _ _ _). set (n' := mkNet _ _ _ _ _ _).
  assert (Hreq : forall name id k, request_coming n name id k -> request_coming n' name id k).
  { intros name id k (t & sv & q & f & Ht & Hnm & Hp & H). exists t, sv, q, f. split; [done|]. split; [done|]. split; [|done].
    destruct Hp as [Hp|Hp]; [left; apply elem_of_app; by left|by right]. }
  assert (Hres : forall j id k, response_coming n j id k -> response_coming n' j id k).
  { intros j id k (r & f & Hp & H). exists r, f. split; [apply elem_of_app; by left|done]. }
  split; cbn [n' services clients calls transmit_request with_wire].
  - apply Hl.
  - intros j d Hd. destruct (decide (i = j)) as [<-|Hne]; [|rewrite list_lookup_insert_ne in Hd by done; by apply (li_clients n Hl j)].
    rewrite list_lookup_insert_eq in Hd by done. injection Hd as <-. split; [by apply (li_clients n Hl i c)|]. intros k cb Hcb. cbn in Hcb.
    apply lookup_insert_Some in Hcb as [[_ <-]|[_ Hcb]]; [done|by eapply Hk0].
  - intros j q f Hp. cbn [n' wire transmit_request with_wire] in Hp. apply elem_of_app in Hp as [Hp|Hp]; [by apply (li_requests n Hl j q f)|].
    apply elem_packets_from in Hp as (t & sv & Hsv & _ & [= -> _ _]). by exists sv.
  - intros j r f Hp. cbn [n' wire transmit_request with_wire] in Hp. apply elem_of_app in Hp as [Hp|Hp]; [|by apply elem_packets_from in Hp as (? & ? & _ & _ & ?)].
    rewrite lookup_lt_is_Some, length_insert, <- lookup_lt_is_Some. by apply (li_responses n Hl j r f).
  - intros y d [Hy|Hy%list_elem_of_singleton]%elem_of_app Ha Hd Hf.
    + destruct (ni_calls _ n Hi y Hy) as (d0 & Hd0 & Hbd). assert (Hd' : exists d1, clients n !! cl_client y = Some d1 /\ c_service_name d1 = c_service_name d /\
        writer_id_ d1 = writer_id_ d /\ futures_ d1 !! cl_number y = Some None).
      { destruct (decide (i = cl_client y)) as [E|Hne]; [|rewrite list_lookup_insert_ne in Hd by done; by exists d].
        rewrite <- E in *. rewrite list_lookup_insert_eq in Hd by done. injection Hd as <-. exists c. split_and!; try done. cbn in Hf.
        rewrite Ec in Hd0. injection Hd0 as <-. rewrite lookup_insert_ne in Hf by lia. done. }
      destruct Hd' as (d1 & Hd1 & E1 & E2 & Hf1). rewrite <- E1, <- E2. destruct (li_calls n Hl y d1 Hy Ha Hd1 Hf1); [left; by apply Hreq|right; by apply Hres].
    + subst y. cbn [x cl_client cl_number cl_asked] in *. rewrite list_lookup_insert_eq in Hd by done. injection Hd as <-. left.
      destruct (packets_from 0 (on_request_channel (c_service_name c)) id (services n)) as [|t l] eqn:Ep; [cbn in Ha; lia|].
      assert (Ht : t ∈ packets_from 0 (on_request_channel (c_service_name c)) id (services n)) by (rewrite Ep; by left).
      apply elem_packets_from in Ht as (j & sv & Hsv & Hon & ->). cbn [Nat.add id] in *. exists j, sv, request, info.
      unfold on_request_channel in Hon. pose proof Hon as [_ En%String.eqb_eq]%andb_true_iff. apply append_inj_r in En.
      split; [done|]. split; [by symmetry|]. split; [|done]. left. apply elem_of_app. right. apply elem_packets_from. exists j, sv. by split_and!.
Qed.

Lemma HandleResponse_live response info (c c' : Client) : client_ok c -> (forall k cb, pending_requests_ c !! k = Some cb -> cb = CNone) ->
  HandleResponse response info c = Some c' ->
  pending_mutex_ c' = false /\ (forall k cb, pending_requests_ c' !! k = Some cb -> cb = CNone) /\
  (data_ (spare_id_ info) = data_ (writer_id_ c) -> futures_ c' !! seq_num_ info <> Some None).
Proof.
  intros Hc Hk. unfold HandleResponse. destruct (pending_mutex_ c) eqn:Em; [done|]. unfold Identity_eqb. case_bool_decide as Hid; cbn [negb]; [|by intros [= <-]].
  destruct (pending_requests_ c !! seq_num_ info) as [k|] eqn:Ek.
  - intros [= <-]. apply Hk in Ek. subst k. split; [done|]. split; [|cbn; by rewrite lookup_insert_eq]. intros x cb Hx. cbn in Hx.
    apply lookup_delete_Some in Hx as [_ Hx]. by eapply Hk.
  - intros [= <-]. split; [done|]. split; [done|]. intros _ Hf. apply (co_pending c Hc) in Hf. rewrite Ek in Hf. by destruct Hf.
Qed.

Lemma elem_delete_other {A} j (l : list A) x y : l !! j = Some y -> x ∈ l -> x = y \/ x ∈ delete j l.
Proof.
  intros Hj Hx. rewrite <- (take_drop_middle l j y Hj), elem_of_app, elem_of_cons in Hx. rewrite delete_take_drop, elem_of_app. tauto.
Qed.

Lemma live_response n j i response info c c' : net_inv n -> live_inv n -> wire n !! j = Some (PResponse i response info) -> clients n !! i = Some c ->
  HandleResponse response info c = Some c' -> live_inv (with_clients (<[i := c']> (clients n)) (with_wire (delete j (wire n)) n)).
Proof.
  intros Hi Hl Hp Hc Hr. destruct (ni_clients _ n Hi i c Hc) as [Hok _]. destruct (li_clients n Hl i c Hc) as [_ Hk0].
  destruct (HandleResponse_cases response info c c' Hok Hr) as (_ & E1 & E2 & _ & H5).
  destruct (HandleResponse_live response info c c' Hok Hk0 Hr) as (M1 & M2 & M3). assert (Hlt : (i < length (clients n))%nat) by by eapply lookup_lt_Some.
  apply (coming_keep n); try done; cbn [with_clients with_wire services clients wire].
  - apply Hl.
  - intros k d Hd. destruct (decide (i = k)) as [<-|Hne]; [rewrite list_lookup_insert_eq in Hd by done; by injection Hd as <-|].
    rewrite list_lookup_insert_ne in Hd by done. by apply (li_clients n Hl k).
  - intros k q f Hx%elem_delete. by apply (li_requests n Hl k q f).
  - intros k r f Hx%elem_delete. rewrite lookup_lt_is_Some, length_insert, <- lookup_lt_is_Some. by apply (li_responses n Hl k r f).
  - intros k d x Hd Hf _.
    assert (Hd' : exists d0, clients n !! k = Some d0 /\ c_service_name d0 = c_service_name d /\ writer_id_ d0 = writer_id_ d /\ futures_ d0 !! x = Some None /\
      (k = i -> data_ (spare_id_ info) = data_ (writer_id_ d0) -> x <> seq_num_ info)).
    { destruct (decide (i = k)) as [<-|Hne]; [|rewrite list_lookup_insert_ne in Hd by done; by exists d].
      rewrite list_lookup_insert_eq in Hd by done. injection Hd as <-. exists c. split_and!; try done.
      - destruct H5 as [->|(_ & _ & E3)]; [done|]. rewrite E3 in Hf. by apply lookup_insert_Some in Hf as [[_ ?]|[_ ?]].
      - intros _ Hid ->. by apply M3. }
    destruct Hd' as (d0 & Hd0 & N1 & N2 & Hf0 & Hne). exists d0. split_and!; try done.
    + intros (t & sv & q & f & Ht & Hnm & Hx & H). left. exists t, sv, q, f. split; [done|]. split; [done|]. split; [|done].
      destruct Hx as [Hx|Hx]; [left|by right]. by destruct (elem_delete_other _ _ _ _ Hp Hx).
    + intros (r & f & Hx & Es & Eid). destruct (elem_delete_other _ _ _ _ Hp Hx) as [[= -> -> ->]|Hx']; [|by exists r, f].
      subst x. by destruct (Hne eq_refl Eid).
Qed.

Lemma live_handle n i n' : net_inv n -> live_inv n -> HandleRequest service_callback i n = Some n' -> live_inv n'.
Proof.
  intros Hi Hl. unfold HandleRequest. destruct (services n !! i) as [s|] eqn:Es; [|done]. cbn [mbind option_bind].
  destruct (task_ s) as [[request info]|] eqn:Et; [|done]. cbn [mbind option_bind]. destruct (li_services n Hl i s Es) as (-> & Hin & Hend). cbn [negb].
  destruct (service_callback i _ request) as [response w] eqn:Ecb. intros [= <-]. set (msg_info := mkInfo _ _ _ _). set (n' := transmit_response _ _ _ _).
  assert (Hlt : (i < length (services n))%nat) by by eapply lookup_lt_Some. apply (coming_keep n); try done.
  - intros j t Ht. cbn [n' services transmit_response with_effect with_wire with_services] in Ht. destruct (decide (i = j)) as [<-|Hne].
    + rewrite list_lookup_insert_eq in Ht by done. injection Ht as <-. by apply (li_services n Hl i s).
    + rewrite list_lookup_insert_ne in Ht by done. by apply (li_services n Hl j).
  - apply Hl.
  - intros j q f Hp. cbn [n' wire services transmit_response with_effect with_wire with_services] in Hp |- *. apply elem_of_app in Hp as [Hp|Hp]; [|by apply elem_packets_from in Hp as (? & ? & _ & _ & ?)].
    rewrite lookup_lt_is_Some, length_insert, <- lookup_lt_is_Some. by apply (li_requests n Hl j q f).
  - intros j r f Hp. cbn [n' wire clients transmit_response with_effect with_wire with_services] in Hp |- *. apply elem_of_app in Hp as [Hp|Hp]; [by apply (li_responses n Hl j r f)|].
    apply elem_packets_from in Hp as (t & c & Hc & _ & [= -> _ _]). by exists c.
  - intros j c k Hc Hf _. exists c. split_and!; try done.
    + intros (t & sv & q & f & Ht & Hnm & Hp & E1 & E2).
      assert (Hkeep : (PRequest t q f ∈ wire n \/ holds sv q f /\ (t <> i \/ (q, f) ∈ tasks_ sv)) -> request_coming n' (c_service_name c) (writer_id_ c) k).
      { intros Hx. exists t, (if decide (t = i) then with_tasks (tasks_ s) None s else sv), q, f. cbn [n' wire services transmit_response with_effect with_wire with_services].
        destruct (decide (t = i)) as [->|Hne].
        - rewrite Es in Ht. injection Ht as <-. rewrite list_lookup_insert_eq by done. split_and!; try done.
          destruct Hx as [Hx|[_ [?|Hx]]]; [left; apply elem_of_app; by left|done|by right; left].
        - rewrite list_lookup_insert_ne by done. split_and!; try done. destruct Hx as [Hx|[Hx _]]; [left; apply elem_of_app; by left|by right]. }
      destruct Hp as [Hp|[Hp|Hp]]; [left; apply Hkeep; by left|left; apply Hkeep; right; split; [by left|by right]|].
      destruct (decide (t = i)) as [->|Hne]; [|left; apply Hkeep; right; split; [by right|by left]].
      rewrite Es in Ht. injection Ht as <-. rewrite Et in Hp. injection Hp as <- <-. right. exists response, msg_info. split; [|done].
      cbn [n' wire transmit_response with_effect with_services with_wire]. apply elem_of_app. right. apply elem_packets_from. exists j, c. split; [done|]. split; [|done].
      destruct (ni_clients _ n Hi j c Hc) as [Hok _]. unfold on_response_channel. rewrite (co_receiver c Hok), Hnm. apply String.eqb_refl.
    + intros (r & f & Hp & H). exists r, f. split; [|done]. cbn [n' wire transmit_response with_effect with_services with_wire]. apply elem_of_app. by left.
Qed.

Lemma take_task_live (s s' : Service) : inited_ s = true -> take_task s = Some s' ->
  request_receiver_ s' = request_receiver_ s /\ inited_ s' = true /\ thread_ended s' = false /\ s_service_name s' = s_service_name s /\
  (forall request info, holds s request info -> holds s' request info) /\
  (length (tasks_ s) = S (length (tasks_ s')))%nat /\ task_ s = None /\ is_Some (task_ s').
Proof.
  intros Hin. unfold take_task. destruct (thread_ended s) eqn:Ee; [done|]. destruct (task_ s) as [t|] eqn:Et; [done|]. rewrite Hin. cbn [negb].
  destruct (tasks_ s) as [|t l] eqn:El; [done|]. intros [= <-]. cbn. split_and!; try done. intros q f [Hx|Hx]; [|by rewrite Et in Hx].
  rewrite El in Hx. apply elem_of_cons in Hx as [<-|Hx]; [by right|by left].
Qed.

Lemma net_step_live n e n' : net_inv n -> live_inv n -> calm e = true -> Z.of_nat (length (calls n)) + 1 < two64 -> step n e = Some n' -> live_inv n'.
Proof.
  intros Hi Hl Hcalm Hn. destruct e as [name id|name id|i request k|j|j|i|i|i|f]; cbn [Service.step]; try done.
  - intros [= <-]. apply (coming_keep n); try done; cbn [with_services services clients wire]; try apply Hl.
    + intros i s Hs. apply lookup_app_Some in Hs as [Hs|[_ Hs]]; [by apply (li_services n Hl i)|]. apply list_lookup_singleton_Some in Hs as [_ <-]. by split_and!.
    + intros i q f Hp. destruct (li_requests n Hl i q f Hp) as [s Hs]. exists s. by apply lookup_app_l_Some.
    + intros i c k Hc Hf _. exists c. split_and!; try done. intros (t & sv & q & f & Ht & H). left. exists t, sv, q, f. split; [by apply lookup_app_l_Some|done].
  - intros [= <-]. apply (coming_keep n); try done; cbn [with_clients services clients wire]; try apply Hl.
    + intros i c Hc. apply lookup_app_Some in Hc as [Hc|[_ Hc]]; [by apply (li_clients n Hl i)|]. apply list_lookup_singleton_Some in Hc as [_ <-]. split; [done|]. intros k cb Hk. cbn in Hk. by rewrite lookup_empty in Hk.
    + intros i r f Hp. destruct (li_responses n Hl i r f Hp) as [c Hc]. exists c. by apply lookup_app_l_Some.
    + intros i c k Hc Hf _. apply lookup_app_Some in Hc as [Hc|[_ Hc]]; [exists c; split_and!; try done; by left|].
      apply list_lookup_singleton_Some in Hc as [_ <-]. cbn in Hf. by rewrite lookup_empty in Hf.
  - destruct k; [|done]. by apply live_call.
  - destruct (wire n !! j) as [p|] eqn:Ep; [|done]. cbn [mbind option_bind]. destruct p as [i request info|i response info]; cbn [arrive].
    + destruct (services (with_wire _ n) !! i) as [s|] eqn:Es; [|done]. cbn [mbind option_bind]. intros [= <-].
      apply (live_service n i s (Enqueue (request, info) s) (delete j (wire n))); try done; [exact (li_services n Hl i s Es)| |by apply elem_delete|].
      * intros q f [Hx|Hx]; [left; apply elem_of_app; by left|by right].
      * intros p Hp. destruct (elem_delete_other _ _ _ _ Ep Hp) as [->|H]; [|by left]. right. exists request, info. split; [done|]. left. apply elem_of_app. right. by left.
    + destruct (clients (with_wire _ n) !! i) as [c|] eqn:Ec; [|done]. cbn [mbind option_bind].
      destruct (HandleResponse response info c) as [c'|] eqn:Er; [|done]. cbn [mbind option_bind]. intros [= <-]. by eapply live_response.
  - destruct (services n !! i) as [s|] eqn:Es; [|done]. cbn [mbind option_bind]. destruct (take_task s) as [s'|] eqn:Et; [|done]. cbn [mbind option_bind].
    intros [= <-]. destruct (li_services n Hl i s Es) as (A1 & A2 & A3). destruct (take_task_live s s' A2 Et) as (B1 & B2 & B3 & B4 & B5 & _).
    apply (live_service n i s s' (wire n)); try done; [by rewrite B1|by left].
  - by apply live_handle.
  - intros [= <-]. apply (coming_keep n); try done; try apply Hl. intros i c k Hc Hf _. exists c. split_and!; try done. intros H. by left.
Qed.

(** ** What is left to do *)

Definition packet_work (clients : nat) (p : @packet Req Resp) : nat := match p with PRequest _ _ _ => 3 + clients | PResponse _ _ _ => 1 end.
Definition service_work (clients : nat) (s : Service) : nat :=
  (2 + clients) * length (tasks_ s) + match task_ s with Some _ => 1 + clients | None => 0 end.
Definition work (n : Net) : nat :=
  sum_list (packet_work (length (clients n)) <$> wire n) + sum_list (service_work (length (clients n)) <$> services n).

Lemma sum_delete {A} (f : A -> nat) j (l : list A) x : l !! j = Some x -> sum_list (f <$> l) = (f x + sum_list (f <$> delete j l))%nat.
Proof. intros H. by rewrite (delete_Permutation l j x H) at 1. Qed.

Lemma sum_insert {A} (f : A -> nat) j (l : list A) x y : l !! j = Some x -> (sum_list (f <$> <[j := y]> l) + f x = sum_list (f <$> l) + f y)%nat.
Proof.
  revert j. induction l as [|a l IH]; intros [|j] H; try done; cbn in *; [injection H as ->; lia|]. specialize (IH j H). rewrite <- !Nat.add_assoc. f_equal. exact IH.
Qed.

Lemma length_packets_from {A B} (p : A -> bool) (make : nat -> B) (l : list A) i : (length (packets_from i p make l) <= length l)%nat.
Proof. revert i. induction l as [|a l IH]; intros i; cbn [packets_from]; [done|]. rewrite length_app. specialize (IH (S i)). destruct (p a); cbn [length]; lia. Qed.

Lemma sum_response_packets c (f : nat -> @packet Req Resp) (l : list Client) p i : (forall j, packet_work c (f j) = 1%nat) ->
  (sum_list (packet_work c <$> packets_from i p f l) <= length l)%nat.
Proof.
  intros Hf. etransitivity; [|apply (length_packets_from p f l i)]. generalize (elem_packets_from p f l). intros He.
  assert (H : forall q, q ∈ packets_from i p f l -> packet_work c q = 1%nat) by (intros q (j & a & _ & _ & ->)%He; apply Hf). clear He.
  induction (packets_from i p f l) as [|q m IH]; [done|]. cbn. rewrite (H q) by by left. pose proof (IH ltac:(intros x Hx; apply H; by right)). unfold fmap in *. lia.
Qed.

Lemma internal_step n e n' : live_inv n -> internal e = true -> step n e = Some n' -> (work n' < work n)%nat.
Proof.
  intros Hl He. unfold work. destruct e as [| | |j| |i|i| |]; try done; cbn [Service.step].
  - destruct (wire n !! j) as [p|] eqn:Ep; [|done]. cbn [mbind option_bind]. destruct p as [i request info|i response info]; cbn [arrive].
    + destruct (services (with_wire _ n) !! i) as [s|] eqn:Es; [|done]. intros [= <-]. cbn [with_services with_wire services clients wire].
      rewrite (sum_delete _ j (wire n) _ Ep). pose proof (sum_insert (service_work (length (clients n))) i (services n) s (Enqueue (request, info) s) Es) as H.
      unfold service_work in H at 2 4. cbn [Enqueue with_tasks tasks_ task_] in H. rewrite length_app in H. cbn [length packet_work] in *. lia.
    + destruct (clients (with_wire _ n) !! i) as [c|] eqn:Ec; [|done]. cbn [mbind option_bind].
      destruct (HandleResponse response info c) as [c'|] eqn:Er; [|done]. intros [= <-]. cbn [with_clients with_wire services clients wire].
      rewrite length_insert, (sum_delete _ j (wire n) _ Ep). cbn [packet_work]. lia.
  - destruct (services n !! i) as [s|] eqn:Es; [|done]. cbn [mbind option_bind]. destruct (take_task s) as [s'|] eqn:Et; [|done]. intros [= <-].
    destruct (li_services n Hl i s Es) as (_ & A2 & _). destruct (take_task_live s s' A2 Et) as (_ & _ & _ & _ & _ & B6 & B7 & [t B8]).
    cbn [with_services services clients wire]. pose proof (sum_insert (service_work (length (clients n))) i (services n) s s' Es) as H.
    unfold service_work in H at 2 4. rewrite B6, B7, B8 in H. lia.
  - unfold HandleRequest. destruct (services n !! i) as [s|] eqn:Es; [|done]. cbn [mbind option_bind]. destruct (task_ s) as [[q f]|] eqn:Et; [|done].
    cbn [mbind option_bind]. destruct (li_services n Hl i s Es) as (-> & _ & _). cbn [negb]. destruct (service_callback _ _ _) as [r w]. intros [= <-].
    cbn [transmit_response with_effect with_services with_wire services clients wire]. rewrite fmap_app, sum_list_with_app.
    set (make := fun c => PResponse c r _).
    pose proof (sum_response_packets (length (clients n)) make (clients n) (on_response_channel (s_service_name s)) 0 ltac:(done)) as Hp.
    pose proof (sum_insert (service_work (length (clients n))) i (services n) s (with_tasks (tasks_ s) None s) Es) as H.
    unfold service_work in H at 2 4. rewrite Et in H. cbn [with_tasks tasks_ task_] in H. lia.
Qed.

(** ** Runs *)

Lemma run_live l : forall n n', net_inv n -> live_inv n -> forallb calm l = true -> Z.of_nat (length (calls n) + length l) < two64 -> run n l = Some n' ->
  live_inv n'.
Proof.
  induction l as [|e l IH]; intros n n' Hi Hl Hc Hn; cbn [Service.run]; [by intros [= <-]|]. cbn [length forallb] in *. apply andb_true_iff in Hc as [Hc1 Hc2].
  destruct (step n e) as [n1|] eqn:E; [|done]. cbn [mbind option_bind]. destruct (step_ids service_callback n e n1 E) as [_ Hle]. intros H.
  apply (IH n1 n'); try done; [exact (net_step_inv service_callback n e n1 Hi ltac:(lia) E)|exact (net_step_live n e n1 Hi Hl Hc1 ltac:(lia) E)|lia].
Qed.

Lemma run_internal l : forall n n', net_inv n -> live_inv n -> forallb internal l = true -> Z.of_nat (length (calls n)) + 1 < two64 -> run n l = Some n' ->
  net_inv n' /\ live_inv n' /\ (length l + work n' <= work n)%nat.
Proof.
  induction l as [|e l IH]; intros n n' Hi Hl Hc Hn; cbn [Service.run]; [by intros [= <-]|]. cbn [length forallb] in *. apply andb_true_iff in Hc as [Hc1 Hc2].
  destruct (step n e) as [n1|] eqn:E; [|done]. cbn [mbind option_bind]. intros H. pose proof (internal_step n e n1 Hl Hc1 E) as Hw.
  pose proof (internal_calls service_callback n e n1 Hc1 E) as Ec.
  destruct (IH n1 n') as (H1 & H2 & H3); try done; [exact (net_step_inv service_callback n e n1 Hi ltac:(lia) E)|
    exact (net_step_live n e n1 Hi Hl (internal_calm e Hc1) ltac:(lia) E)|by rewrite Ec|]. split; [done|]. split; [done|]. lia.
Qed.

(** Where no step is left, nothing is on its way. *)
Definition quiet (n : Net) : Prop := forall e, internal e = true -> step n e = None.

Lemma quiet_wire n : live_inv n -> quiet n -> wire n = [].
Proof.
  intros Hl Hq. destruct (wire n) as [|p m] eqn:Ew; [done|]. exfalso. specialize (Hq (EArrive 0) eq_refl). cbn [Service.step] in Hq. rewrite Ew in Hq.
  cbn [lookup list_lookup mbind option_bind] in Hq. destruct p as [i q f|i r f]; cbn [arrive with_wire services clients] in Hq.
  - destruct (li_requests n Hl i q f) as [s Hs]; [rewrite Ew; by left|]. by rewrite Hs in Hq.
  - destruct (li_responses n Hl i r f) as [c Hc]; [rewrite Ew; by left|]. rewrite Hc in Hq. cbn [mbind option_bind] in Hq.
    destruct (li_clients n Hl i c Hc) as [Em _]. unfold HandleResponse in Hq. rewrite Em in Hq. destruct (negb _); [done|]. by destruct (_ !! _).
Qed.

Lemma quiet_services n i s : live_inv n -> quiet n -> services n !! i = Some s -> tasks_ s = [] /\ task_ s = None.
Proof.
  intros Hl Hq Hs. destruct (li_services n Hl i s Hs) as (A1 & A2 & A3). assert (Et : task_ s = None).
  { pose proof (Hq (EHandle i) eq_refl) as H. cbn [Service.step] in H. unfold HandleRequest in H. rewrite Hs in H. cbn [mbind option_bind] in H.
    destruct (task_ s) as [[q f]|]; [|done]. cbn [mbind option_bind] in H. rewrite A1 in H. cbn [negb] in H. by destruct (service_callback _ _ _). }
  split; [|done]. pose proof (Hq (ETake i) eq_refl) as H. cbn [Service.step] in H. rewrite Hs in H. cbn [mbind option_bind] in H.
  unfold take_task in H. rewrite A3, Et, A2 in H. cbn [negb] in H. by destruct (tasks_ s).
Qed.

(** C12: when nothing is lost or destroyed and no callback calls again: from every state that is reached, the steps of the wire and of the
    threads of the services come to an end, within a bound, and then every call that went to a service has its response. *)
Theorem calls_answered w0 l n l' n' : forallb calm l = true -> Z.of_nat (length l) + 1 < two64 -> run (net_new w0) l = Some n ->
  forallb internal l' = true -> run n l' = Some n' ->
  (length l' <= work n)%nat /\
  (quiet n' -> forall x c, x ∈ calls n' -> (0 < cl_asked x)%nat -> clients n' !! cl_client x = Some c -> is_Some (SendRequest_returns (cl_number x) c)).
Proof.
  intros Hc Hn Hr Hc' Hr'. destruct (net_run_inv service_callback l (net_new w0) n (net_new_inv service_callback w0) ltac:(cbn; lia) Hr) as (Hi & _ & Hlen).
  pose proof (run_live l (net_new w0) n (net_new_inv service_callback w0) (net_new_live w0) Hc ltac:(cbn; lia) Hr) as Hl. cbn in Hlen.
  destruct (run_internal l' n n' Hi Hl Hc' ltac:(lia) Hr') as (Hi' & Hl' & Hw). split; [lia|]. intros Hq x c Hx Ha Hcl.
  destruct (ni_calls _ n' Hi' x Hx) as (c0 & Hc0 & Hb). rewrite Hcl in Hc0. injection Hc0 as <-. destruct (ni_clients _ n' Hi' _ c Hcl) as [Hok _].
  unfold SendRequest_returns. destruct (proj2 (co_futures c Hok (cl_number x)) Hb) as [[r|] Er]; rewrite Er; [by eexists|]. exfalso.
  destruct (li_calls n' Hl' x c Hx Ha Hcl Er) as [(i & s & q & f & Hs & _ & [Hp|Hp] & _)|(r & f & Hp & _)].
  - rewrite (quiet_wire n' Hl' Hq) in Hp. by apply not_elem_of_nil in Hp.
  - destruct (quiet_services n' i s Hl' Hq Hs) as [E1 E2]. destruct Hp as [Hp|Hp]; [rewrite E1 in Hp; by apply not_elem_of_nil in Hp|by rewrite E2 in Hp].
  - rewrite (quiet_wire n' Hl' Hq) in Hp. by apply not_elem_of_nil in Hp.
Qed.
End liveness.

(** ** Clients and services

    The theorems on requests and responses at a small net: a service that adds, and two clients of it. *)

From S2P Require Import Prelude ShmMessage Service ServiceSafety ServiceOrder.

Definition demo_id (b : Z) : Identity := mkIdentity (replicate ID_SIZE b) b.

(** The service keeps a sum, and answers with it. *)
Definition demo_callback (i : nat) (w : Z) (request : Z) : Z * Z := (w + request, w + request).

#[local] Abbreviation demo_run := (run demo_callback).
#[local] Abbreviation event := (@event Z Z).

Definition demo_start : list event := [ECreateService "add" (demo_id 1); ECreateClient "add" (demo_id 2); ECreateClient "add" (demo_id 3)].
(** Both clients ask; the requests arrive in the other order; the program changes the sum; the responses are received by both clients. *)
Definition demo_asked : list event := demo_start ++ [ESend 0 5 CNone; ESend 1 7 CNone].
Definition demo_half : list event := [EArrive 1; ETake 0; EHandle 0; EArrive 1; EArrive 1].
Definition demo_rest : list event := [EChange (fun w => w * 100); EArrive 0; ETake 0; EHandle 0; EArrive 0; EArrive 0].

Lemma related_roundtrip_witness :
  from_related (fun _ => 9) (to_related (mkInfo (demo_id 2) 0 (2 ^ 63 + 2 ^ 31) (demo_id 3))) info_new =
  mkInfo (mkIdentity (data_ (demo_id 2)) 9) 0 (2 ^ 63 + 2 ^ 31) (mkIdentity (data_ (demo_id 3)) 9).
Proof. apply (related_roundtrip (fun _ => 9) (mkInfo (demo_id 2) 0 (2 ^ 63 + 2 ^ 31) (demo_id 3)) info_new). by repeat split. Defined.

Lemma demo_ids (l : list event) : client_ids l = client_ids (demo_start : list event) -> NoDup (client_ids l).
Proof. intros ->. apply (bool_decide_unpack _). vm_compute. exact I. Defined.

Lemma response_answers_call_witness : exists n c, demo_run (net_new 0) (demo_asked ++ demo_half ++ demo_rest) = Some n /\ clients n !! 0%nat = Some c /\
  SendRequest_returns 1 c = Some 705 /\ broken_promise c = false /\ 1 ∈ invoked_ c.
Proof.
  eexists _, _. split; [vm_compute; reflexivity|]. split; [reflexivity|]. split; [reflexivity|].
  eassert (H := response_answers_call demo_callback 0 (demo_asked ++ demo_half ++ demo_rest) _ 0 _ (demo_ids _ eq_refl) ltac:(done) ltac:(vm_compute; reflexivity) eq_refl).
  destruct H as (H1 & _ & H3). split; [exact H1|]. exact (proj1 (H3 1 705 eq_refl)).
Defined.

(** The call of client 1 returned before the sum was changed and client 0 got its response. *)
Lemma calls_linearizable_witness : exists n1 n2 c, demo_run (net_new 0) (demo_asked ++ demo_half) = Some n1 /\ demo_run n1 demo_rest = Some n2 /\
  clients n2 !! 1%nat = Some c /\ SendRequest_returns 1 c = Some 7 /\
  exists p h, effects n2 !! p = Some (Handled h) /\ hd_request h = 7 /\ (p < length (effects n1))%nat.
Proof.
  eexists _, _, _. split; [vm_compute; reflexivity|]. split; [vm_compute; reflexivity|]. split; [reflexivity|]. split; [reflexivity|].
  eassert (H := calls_linearizable demo_callback 0 (demo_asked ++ demo_half) _ demo_rest _ (demo_ids _ eq_refl) ltac:(done)
    ltac:(vm_compute; reflexivity) ltac:(vm_compute; reflexivity)).
  destruct H as (_ & _ & _ & H). destruct (H 1%nat _ 1 7 eq_refl eq_refl) as (p & h & a & s & Hp & _ & Hx & _ & _ & _ & Hlt & _).
  exists p, h. split; [exact Hp|]. split; [|apply Hlt; exists 7; eexists; split; reflexivity].
  apply elem_of_cons in Hx as [Hx|Hx]; [discriminate|]. apply elem_of_cons in Hx as [Hx|Hx]; [by injection Hx|by apply not_elem_of_nil in Hx].
Defined.

Definition demo_answer : list event := [EArrive 0; ETake 0; EHandle 0; EArrive 0; ETake 0; EArrive 0; EArrive 0; EHandle 0; EArrive 0; EArrive 0].

Lemma calls_answered_witness : exists n n', demo_run (net_new 0) demo_asked = Some n /\ demo_run n demo_answer = Some n' /\ (length demo_answer <= work n)%nat /\
  forall c, clients n' !! 1%nat = Some c -> quiet demo_callback n' -> is_Some (SendRequest_returns 1 c).
Proof.
  eexists _, _. split; [vm_compute; reflexivity|]. split; [vm_compute; reflexivity|].
  eassert (H := calls_answered demo_callback 0 demo_asked _ demo_answer _ eq_refl ltac:(done) ltac:(vm_compute; reflexivity) eq_refl ltac:(vm_compute; reflexivity)).
  destruct H as [H1 H2]. split; [exact H1|]. intros c Hc Hq. refine (H2 Hq (mkCall 1 1 7 1) c _ _ Hc); [right; left|cbn; lia].
Defined.

(** ** What goes wrong *)

(** A callback that calls again on its client waits for the mutex that [HandleResponse] holds: whatever happens then, no call on this client
    goes through any more. *)
Theorem calling_back_deadlocks : exists n, demo_run (net_new 0) (demo_start ++ [ESend 0 5 (CSend 6 CNone); EArrive 0; ETake 0; EHandle 0; EArrive 0]) = Some n /\
  forall l n' request k, demo_run n l = Some n' -> step demo_callback n' (ESend 0 request k) = None.
Proof.
  eexists. split; [vm_compute; reflexivity|]. intros l n' request k Hr. apply locked_calls. eapply locked_stays, Hr. eexists. by split_and!.
Qed.

(** A call that is not answered stays pending after [SendRequest] gave up. *)
Theorem unanswered_call_leaks : exists n c, demo_run (net_new 0) [ECreateClient "add" (demo_id 2); ESend 0 5 CNone; ESend 0 6 CNone] = Some n /\
  clients n !! 0%nat = Some c /\ wire n = [] /\ dom (pending_requests_ c) = {[ 1; 2 ]}.
Proof. eexists _, _. split; [vm_compute; reflexivity|]. split; [reflexivity|]. split; [reflexivity|]. apply (bool_decide_unpack _). vm_compute. exact I. Qed.

(** Two services of one name both handle a call: its effect is there twice, and the second response is dropped. *)
Theorem two_services_handle_twice : exists n c, demo_run (net_new 0)
    ([ECreateService "add" (demo_id 1)] ++ demo_start ++ [ESend 0 5 CNone; EArrive 0; EArrive 0; ETake 0; ETake 1; EHandle 0; EHandle 1; EArrive 0; EArrive 1]) = Some n /\
  clients n !! 0%nat = Some c /\ SendRequest_returns 1 c = Some 5 /\ invoked_ c = [1] /\ world n = 10.
Proof. eexists _, _. split; [vm_compute; reflexivity|]. by split_and!. Qed.
