(* ===== verification/ParameterServer.v ===== *)
(** * ParameterServer: parameters, their server and its clients

    Models [parameter/parameter.{h,cc}], [parameter_server.{h,cc}], [parameter_client.{h,cc}] and [parameter_service_names.h].  A server keeps
    a map behind three services, one to get, one to set and one to list; a client has a client of each.  A [double] is a floating-point number
    of the Standard Library's [SpecFloat]; a string is its characters.  The order in which the map is listed is not that of the code's hash
    table: the theorems do not depend on it. *)

From stdpp Require Import strings.
From Stdlib Require Import Floats.SpecFloat.
From S2P Require Import Prelude ShmMessage Service.

(** ** [Param] and [Parameter] *)

Inductive ParamType := NOT_SET | BOOL | INT | DOUBLE | STRING | PROTOBUF.

Inductive oneof_value := OBool (b : bool) | OInt (z : Z) | ODouble (f : spec_float) | OString (s : string) | ONotSet.

Record Param := mkParam { name : string; type : ParamType; type_name : string; value : oneof_value; proto_desc : string }.

Definition param_new : Param := mkParam "" NOT_SET "" ONotSet "".

#[export] Instance ParamType_dec : EqDecision ParamType.
Proof. solve_decision. Defined.

Record Parameter_ := mkParameter { param_ : Param }.

(** The formats of [float] and [double], and the conversions between them. *)
Definition convert (prec emax : Z) (f : spec_float) : spec_float :=
  match f with S754_finite s m e => binary_normalize prec emax (if s then - Z.pos m else Z.pos m) e s | _ => f end.
Definition to_double (f : spec_float) : spec_float := convert 53 1024 f.
Definition to_float (f : spec_float) : spec_float := convert 24 128 f.

Definition parameter_new : Parameter_ := mkParameter param_new.
Definition parameter_named (n : string) : Parameter_ := mkParameter (mkParam n NOT_SET "" ONotSet "").
Definition parameter_copy (p : Parameter_) : Parameter_ := mkParameter (param_ p).
Definition parameter_bool (n : string) (b : bool) : Parameter_ := mkParameter (mkParam n BOOL "BOOL" (OBool b) "").
Definition parameter_int (n : string) (z : Z) : Parameter_ := mkParameter (mkParam n INT "INT" (OInt z) "").
Definition parameter_int64 (n : string) (z : Z) : Parameter_ := mkParameter (mkParam n INT "INT" (OInt z) "").
Definition parameter_float (n : string) (f : spec_float) : Parameter_ := mkParameter (mkParam n DOUBLE "DOUBLE" (ODouble (to_double f)) "").
Definition parameter_double (n : string) (f : spec_float) : Parameter_ := mkParameter (mkParam n DOUBLE "DOUBLE" (ODouble f) "").
Definition parameter_string (n s : string) : Parameter_ := mkParameter (mkParam n STRING "STRING" (OString s) "").
Definition parameter_chars (n s : string) : Parameter_ := mkParameter (mkParam n STRING "STRING" (OString s) "").
Definition parameter_proto (n msg_str full_name desc : string) : Parameter_ := mkParameter (mkParam n PROTOBUF full_name (OString msg_str) desc).

Definition FromProtoParam (p : Param) (_ : Parameter_) : Parameter_ := mkParameter p.
Definition ToProtoParam (p : Parameter_) : Param := param_ p.

Definition Type_ (p : Parameter_) : ParamType := type (param_ p).
Definition TypeName (p : Parameter_) : string := type_name (param_ p).
Definition Descriptor (p : Parameter_) : string := proto_desc (param_ p).
Definition Name (p : Parameter_) : string := name (param_ p).

(** The generated accessors give a default where the value is of another kind. *)
Definition bool_value (p : Param) : bool := match value p with OBool b => b | _ => false end.
Definition int_value (p : Param) : Z := match value p with OInt z => z | _ => 0 end.
Definition double_value (p : Param) : spec_float := match value p with ODouble f => f | _ => S754_zero false end.
Definition string_value (p : Param) : string := match value p with OString s => s | _ => "" end.

(** [value<ValueType>()]: whether an error was logged, and the value. *)
Definition value_int {A} (cast : Z -> A) (p : Parameter_) : bool * A := (negb (bool_decide (type (param_ p) = INT)), cast (int_value (param_ p))).
Definition value_floating (cast : spec_float -> spec_float) (p : Parameter_) : bool * spec_float :=
  (negb (bool_decide (type (param_ p) = DOUBLE)), cast (double_value (param_ p))).
Definition value_string (p : Parameter_) : bool * string :=
  (negb (bool_decide (type (param_ p) = STRING)) && negb (bool_decide (type (param_ p) = PROTOBUF)), string_value (param_ p)).
Definition value_bool (p : Parameter_) : bool * bool := (negb (bool_decide (type (param_ p) = BOOL)), bool_value (param_ p)).

Definition AsBool (p : Parameter_) : bool := (value_bool p).2.
Definition AsInt64 (p : Parameter_) : Z := (value_int (fun z => z) p).2.
Definition AsDouble (p : Parameter_) : spec_float := (value_floating (fun f => f) p).2.
Definition AsString (p : Parameter_) : string := (value_string p).2.

(** ** The services *)

Definition SERVICE_NAME_DELIMITER : string := "/".
Definition GET_PARAMETER_SERVICE_NAME : string := "get_parameter".
Definition SET_PARAMETER_SERVICE_NAME : string := "set_parameter".
Definition LIST_PARAMETERS_SERVICE_NAME : string := "list_parameters".

Definition FixParameterServiceName (node_name service_name : string) : string := node_name ++ SERVICE_NAME_DELIMITER ++ service_name.

Inductive request := ParamName (value : string) | SetParam (p : Param) | NodeName (value : string).
Inductive response := GotParam (p : Param) | BoolResult (value : bool) | Params (l : list Param).

Abbreviation param_map := (gmap string Param).

(** The callbacks of the three services, the first to be made. *)
Definition get_service (w : param_map) (n : string) : Param := match w !! n with Some p => p | None => param_new end.
Definition set_service (w : param_map) (p : Param) : bool * param_map := (true, <[name p := p]> w).
Definition list_service (w : param_map) : list Param := (map_to_list w).*2.

(** A request of another type does not reach a service; see [ParameterStore]. *)
Definition parameter_callback (i : nat) (w : param_map) (r : request) : response * param_map :=
  match i, r with
  | 0%nat, ParamName n => (GotParam (get_service w n), w)
  | 1%nat, SetParam p => let '(b, w1) := set_service w p in (BoolResult b, w1)
  | 2%nat, NodeName _ => (Params (list_service w), w)
  | _, _ => (GotParam param_new, w)
  end.

(** ** [ParameterServer]: its own operations on the map *)

Definition SetParameter (p : Parameter_) (w : param_map) : param_map := <[Name p := ToProtoParam p]> w.
Definition GetParameter (n : string) (p : Parameter_) (w : param_map) : bool * Parameter_ :=
  match w !! n with None => (false, p) | Some q => (true, FromProtoParam q p) end.
Definition ListParameters (l : list Parameter_) (w : param_map) : list Parameter_ :=
  l ++ ((fun q => FromProtoParam q parameter_new) <$> (map_to_list w).*2).

(** ** [ParameterClient]: what it makes of a response, null where there was none *)

Definition got (r : response) : option Param := match r with GotParam q => Some q | _ => None end.
Definition result (r : response) : option bool := match r with BoolResult b => Some b | _ => None end.
Definition listed (r : response) : option (list Param) := match r with Params l => Some l | _ => None end.

Definition client_GetParameter (r : option Param) (p : Parameter_) : bool * Parameter_ :=
  match r with
  | None => (false, p)
  | Some q => if decide (type q = NOT_SET) then (false, p) else (true, FromProtoParam q p)
  end.
Definition client_SetParameter (r : option bool) : bool := match r with None => false | Some b => b end.
Definition client_ListParameters (r : option (list Param)) (l : list Parameter_) : bool * list Parameter_ :=
  match r with
  | None => (false, l)
  | Some ps => (true, l ++ ((fun q => FromProtoParam q parameter_new) <$> ps))
  end.

(** ** The net of a server and its clients: client [j] has the clients [3 j] and the two after *)

Section net.
Context (node_name : string) (id1 id2 id3 : Identity).

#[local] Abbreviation event := (@event request param_map).

Definition server_events : list event :=
  [ECreateService (FixParameterServiceName node_name GET_PARAMETER_SERVICE_NAME) id1;
   ECreateService (FixParameterServiceName node_name SET_PARAMETER_SERVICE_NAME) id2;
   ECreateService (FixParameterServiceName node_name LIST_PARAMETERS_SERVICE_NAME) id3].

Definition client_events (i1 i2 i3 : Identity) : list event :=
  [ECreateClient (FixParameterServiceName node_name GET_PARAMETER_SERVICE_NAME) i1;
   ECreateClient (FixParameterServiceName node_name SET_PARAMETER_SERVICE_NAME) i2;
   ECreateClient (FixParameterServiceName node_name LIST_PARAMETERS_SERVICE_NAME) i3].

(** What the users of a client and of the server do, and what the wire and the threads do. *)
Inductive pevent :=
| PClient (i1 i2 i3 : Identity)
| PGet (client : nat) (n : string)
| PSet (client : nat) (p : Parameter_)
| PList (client : nat) (node : string)
| PServerSet (p : Parameter_)
| PArrive (packet : nat)
| PLose (packet : nat)
| PTake (service : nat)
| PHandle (service : nat).

Definition events_of (e : pevent) : list event :=
  match e with
  | PClient i1 i2 i3 => client_events i1 i2 i3
  | PGet j n => [ESend (3 * j) (ParamName n) CNone]
  | PSet j p => [ESend (3 * j + 1) (SetParam (ToProtoParam p)) CNone]
  | PList j n => [ESend (3 * j + 2) (NodeName n) CNone]
  | PServerSet p => [EChange (SetParameter p)]
  | PArrive j => [EArrive j]
  | PLose j => [ELose j]
  | PTake i => [ETake i]
  | PHandle i => [EHandle i]
  end.

Definition program (l : list pevent) : list event := mjoin (events_of <$> l).
Definition parameter_run (l : list pevent) : option Net := run parameter_callback (net_new ∅) (server_events ++ program l).
End net.
