(* ===== verification/ParameterStore.v ===== *)
(** * ParameterStore: parameters are a store

    The clients of a parameter server, the server itself and the wire between them: whatever they do and whatever is lost, what is
    returned is what one store of parameters would give, where every operation takes effect at one place of one order. *)

From stdpp Require Import strings.
From S2P Require Import Prelude ShmMessage Service ServiceSafety ServiceOrder ParameterServer.

#[local] Abbreviation effect := (@effect request response param_map).
#[local] Abbreviation Net := (@Net request response param_map).
#[local] Abbreviation world_at := (world_at parameter_callback).
#[local] Abbreviation apply_effect := (apply_effect parameter_callback).

(** ** What an effect does to the map *)

Definition sets (e : effect) (p : Param) : Prop := forall w, apply_effect w e = <[name p := p]> w.
Definition keeps (e : effect) : Prop := forall w, apply_effect w e = w.

(** The parameter of a name that was set last. *)
Inductive latest (n : string) : list effect -> option Param -> Prop :=
| latest_none l : (forall e p, e ∈ l -> sets e p -> name p <> n) -> latest n l None
| latest_some l1 e l2 p : sets e p -> name p = n -> (forall e' p', e' ∈ l2 -> sets e' p' -> name p' <> n) -> latest n (l1 ++ e :: l2) (Some p).

Definition known (e : effect) : Prop := (exists p, sets e p) \/ keeps e.

Lemma sets_inj e p q : sets e p -> sets e q -> p = q.
Proof.
  intros Hp Hq. pose proof (Hp ∅) as H. rewrite (Hq ∅) in H. destruct (decide (name q = name p)) as [E|Hne].
  - apply (f_equal (lookup (name p))) in H. rewrite E, !lookup_insert_eq in H. congruence.
  - apply (f_equal (lookup (name p))) in H. by rewrite lookup_insert_eq, lookup_insert_ne, lookup_empty in H.
Qed.

Lemma keeps_sets e p : keeps e -> ~ sets e p.
Proof. intros Hk Hp. pose proof (Hp ∅) as H. rewrite (Hk ∅) in H. apply (f_equal (lookup (name p))) in H. by rewrite lookup_insert_eq, lookup_empty in H. Qed.

Lemma latest_snoc n l e v : latest n l v -> (forall p, sets e p -> name p <> n) -> latest n (l ++ [e]) v.
Proof.
  intros [l' H|l1 e' l2 p H1 H2 H3] He.
  - constructor. intros e' p [Hin|Hin%list_elem_of_singleton]%elem_of_app; [by apply H|subst e'; apply He].
  - rewrite <- app_assoc. cbn. apply latest_some; [done..|]. intros e'' p' [Hin|Hin%list_elem_of_singleton]%elem_of_app; [by apply H3|subst e''; apply He].
Qed.

(** The map has, for every name, what was set last. *)
Lemma latest_world l : Forall known l -> forall n, latest n l (world_at ∅ l !! n).
Proof.
  induction l as [|e l IH] using rev_ind; intros Hl n; [constructor; by intros ? ? ?%not_elem_of_nil|].
  apply Forall_app in Hl as [Hl He]. rewrite Forall_singleton in He. rewrite world_at_snoc. specialize (IH Hl n). destruct He as [[p Hp]|Hk].
  - rewrite (Hp _). destruct (decide (name p = n)) as [<-|Hne].
    + rewrite lookup_insert_eq. apply latest_some; [done|done|]. by intros ? ? ?%not_elem_of_nil.
    + rewrite lookup_insert_ne by done. apply latest_snoc; [done|]. intros q Hq. by rewrite <- (sets_inj e p q Hp Hq).
  - rewrite (Hk _). apply latest_snoc; [done|]. intros p Hp. by destruct (keeps_sets e p Hk).
Qed.

Lemma latest_world_iff l n v : Forall known l -> latest n l v -> v = world_at ∅ l !! n.
Proof.
  intros Hl H. revert Hl. induction H as [l H|l1 e l2 p H1 H2 H3]; intros Hl.
  - induction l as [|e l IH] using rev_ind; [done|]. apply Forall_app in Hl as [Hl He]. rewrite Forall_singleton in He. rewrite world_at_snoc.
    assert (Hin : e ∈ l ++ [e]) by (apply elem_of_app; right; by left).
    assert (IH' : None = world_at ∅ l !! n) by (apply IH; [intros x q Hx; apply H; apply elem_of_app; by left|done]).
    destruct He as [[p Hp]|Hk]; [rewrite (Hp _)|by rewrite (Hk _)]. by rewrite lookup_insert_ne by by apply (H e p).
  - induction l2 as [|e' l2 IH] using rev_ind; [rewrite world_at_snoc, (H1 _), H2; by rewrite lookup_insert_eq|].
    rewrite app_comm_cons, app_assoc in Hl |- *. apply Forall_app in Hl as [Hl He]. rewrite Forall_singleton in He. rewrite world_at_snoc.
    assert (IH' : Some p = world_at ∅ (l1 ++ e :: l2) !! n) by (apply IH; [intros x q Hx; apply H3; apply elem_of_app; by left|done]).
    destruct He as [[q Hq]|Hk]; [rewrite (Hq _)|by rewrite (Hk _)]. rewrite lookup_insert_ne; [done|]. apply (H3 e' q); [apply elem_of_app; right; by left|done].
Qed.

(** Every entry of the map has its name. *)
Lemma world_named l n p : Forall known l -> world_at ∅ l !! n = Some p -> name p = n.
Proof. intros Hl H. pose proof (latest_world l Hl n) as Hn. rewrite H in Hn. by inversion Hn. Qed.

Lemma callback_known (h : handling) : known (Handled h).
Proof.
  destruct h as [i q info r]. destruct i as [|[|[|i]]], q as [n|p|n]; try (right; by intros w); left; exists p; by intros w.
Qed.

(** ** What a service promises *)

(** The response to a request at a place of the order. *)
Definition as_stored (l : list effect) (q : request) (r : response) : Prop :=
  match q with
  | ParamName n => exists v, latest n l v /\ r = GotParam (default param_new v)
  | SetParam _ => r = BoolResult true
  | NodeName _ => exists ps, r = Params ps /\ NoDup (name <$> ps) /\ forall p, p ∈ ps <-> latest (name p) l (Some p)
  end.
(** What the request does there. *)
Definition acts (q : request) (e : effect) : Prop := match q with SetParam p => sets e p | _ => keeps e end.

Definition kind (q : request) : nat := match q with ParamName _ => 0 | SetParam _ => 1 | NodeName _ => 2 end.

Lemma callback_stored l q : Forall known l -> as_stored l q (parameter_callback (kind q) (world_at ∅ l) q).1.
Proof.
  intros Hl. destruct q as [n|p|n]; cbn.
  - exists (world_at ∅ l !! n). split; [by apply latest_world|]. unfold get_service. by destruct (_ !! n).
  - done.
  - eexists. split; [done|]. unfold list_service. split.
    + assert (E : name <$> (map_to_list (world_at ∅ l)).*2 = (map_to_list (world_at ∅ l)).*1); [|rewrite E; apply NoDup_fst_map_to_list].
      rewrite <- list_fmap_compose. apply list_fmap_ext. intros i [k p] Hi. cbn. apply list_elem_of_lookup_2, elem_of_map_to_list in Hi. by eapply world_named.
    + intros p. rewrite list_elem_of_fmap. split.
      * intros ([k q] & -> & Hq%elem_of_map_to_list). cbn. rewrite (world_named l k q Hl Hq), <- Hq. by apply latest_world.
      * intros H. exists (name p, p). split; [done|]. apply elem_of_map_to_list. symmetry. by apply latest_world_iff.
Qed.

Lemma callback_acts (h : handling) : hd_service h = kind (hd_request h) -> acts (hd_request h) (Handled h).
Proof. destruct h as [i q info r]. cbn. intros ->. destruct q; cbn; intros w; done. Qed.

(** ** Who asks whom *)

Ltac one_of H := repeat (apply elem_of_cons in H as [H|H]); try (by apply not_elem_of_nil in H).

Section net.
Context (node_name : string) (id1 id2 id3 : Identity).

#[local] Abbreviation server_events := (server_events node_name id1 id2 id3).
#[local] Abbreviation program := (program node_name).
#[local] Abbreviation parameter_run := (parameter_run node_name id1 id2 id3).

Definition service_names : list string :=
  [FixParameterServiceName node_name GET_PARAMETER_SERVICE_NAME; FixParameterServiceName node_name SET_PARAMETER_SERVICE_NAME;
   FixParameterServiceName node_name LIST_PARAMETERS_SERVICE_NAME].

Lemma append_inj_l (s s1 s2 : string) : (s ++ s1 = s ++ s2)%string -> s1 = s2.
Proof. induction s as [|a s IH]; [done|]. intros H. apply IH. by injection H. Qed.

Lemma service_names_distinct : NoDup service_names.
Proof.
  change service_names with (FixParameterServiceName node_name <$> [GET_PARAMETER_SERVICE_NAME; SET_PARAMETER_SERVICE_NAME; LIST_PARAMETERS_SERVICE_NAME]).
  apply NoDup_fmap_2; [|apply (bool_decide_unpack _); vm_compute; exact I]. intros a b E%append_inj_l. by apply append_inj_l in E.
Qed.

Lemma program_cons e l : program (e :: l) = events_of node_name e ++ program l.
Proof. done. Qed.

(** The clients come in threes, of the three services. *)
Lemma program_clients l : exists m, (snd <$> mjoin (new_clients <$> program l)) = mjoin (replicate m service_names).
Proof.
  induction l as [|e l [m IH]]; [by exists 0%nat|]. rewrite program_cons, fmap_app, join_app, fmap_app, IH.
  destruct e; try (by exists m). by exists (S m).
Qed.

Lemma threes_lookup (l : list string) m i x : length l = 3%nat -> mjoin (replicate m l) !! i = Some x -> l !! (i mod 3)%nat = Some x.
Proof.
  intros Hl. revert i. induction m as [|m IH]; intros i; [done|]. cbn [replicate mjoin list_join]. intros [H|[Hle H]]%lookup_app_Some.
  - rewrite Nat.mod_small; [done|]. apply lookup_lt_Some in H. lia.
  - apply IH in H. rewrite Hl in *. rewrite <- H. f_equal. replace i with ((i - 3) + 1 * 3)%nat at 1 by lia. by rewrite Nat.Div0.mod_add.
Qed.

Lemma program_services l : mjoin (new_services <$> program l) = [].
Proof. induction l as [|e l IH]; [done|]. rewrite program_cons, fmap_app, join_app, IH. by destruct e. Qed.

Lemma program_sends l i q k : ESend i q k ∈ program l -> kind q = (i mod 3)%nat.
Proof.
  intros (es & Hin & (e & -> & _)%list_elem_of_fmap)%list_elem_of_join.
  destruct e; cbn [events_of client_events] in Hin; one_of Hin; try done; injection Hin as -> -> _; cbn [kind]; apply (Nat.mod_unique _ _ client); lia.
Qed.

Lemma program_changes l f : EChange f ∈ program l -> exists p, f = SetParameter p.
Proof.
  intros (es & Hin & (e & -> & _)%list_elem_of_fmap)%list_elem_of_join.
  destruct e; cbn [events_of client_events] in Hin; one_of Hin; try done; injection Hin as ->; by exists p.
Qed.

(** ** Runs *)

Record store_facts (n : Net) : Prop := {
  sf_calls : forall x, x ∈ calls n -> kind (cl_request x) = (cl_client x mod 3)%nat;
  sf_effects : Forall known (effects n);
  sf_services : s_service_name <$> services n = service_names;
  sf_clients : forall i c, clients n !! i = Some c -> service_names !! (i mod 3)%nat = Some (c_service_name c);
}.

Lemma server_no e l : e ∈ server_events ++ l -> (exists s id, e = ECreateService s id) \/ e ∈ l.
Proof. intros [Hin|Hin]%elem_of_app; [left|by right]. unfold ParameterServer.server_events in Hin. one_of Hin; by eexists _, _. Qed.

Lemma parameter_run_facts l n : parameter_run l = Some n -> store_facts n.
Proof.
  intros Hr. destruct (run_names parameter_callback (server_events ++ program l) _ n Hr) as [Ec Es]. rewrite fmap_app, join_app in Ec. rewrite (fmap_app new_services), join_app in Es. split.
  - intros x Hx. destruct (net_run_calls parameter_callback _ _ n x Hr Hx) as [?%not_elem_of_nil|[k [(s & id & ?)|Hk]%server_no]]; try done. by eapply program_sends.
  - apply Forall_forall. intros [h|f] Hf; [apply callback_known|].
    destruct (run_changes parameter_callback _ _ n f Hr Hf) as [?%not_elem_of_nil|[(s & id & ?)|Hk]%server_no]; try done.
    apply program_changes in Hk as [p ->]. left. exists (param_ p). by intros w.
  - rewrite Es, program_services. done.
  - intros i c Hc. destruct (program_clients l) as [m Hm]. apply (threes_lookup service_names m); [done|]. rewrite <- Hm.
    assert (E : client_key <$> clients n = mjoin (new_clients <$> program l)) by exact Ec. rewrite <- E, !list_lookup_fmap, Hc. done.
Qed.

(** The place of a call: inside what had happened when it returned, after what had happened when it was not made yet. *)
Definition in_real_time (n1 : Net) (i : nat) (k : Z) (p : nat) : Prop :=
  ((exists r, future_of n1 i k r) -> (p < length (effects n1))%nat) /\ (~ called n1 i k -> (length (effects n1) <= p)%nat).

Definition fits (l : list pevent) : Prop :=
  NoDup (client_ids (server_events ++ program l)) /\ Z.of_nat (length (server_events ++ program l)) < two64.

Lemma program_app l1 l2 : program (l1 ++ l2) = program l1 ++ program l2.
Proof. unfold ParameterServer.program. by rewrite fmap_app, join_app. Qed.

Lemma fits_prefix l1 l2 : fits (l1 ++ l2) -> fits l1.
Proof.
  unfold fits. rewrite program_app, app_assoc. generalize (server_events ++ program l1). intros l. unfold client_ids. rewrite fmap_app, join_app, length_app.
  intros [Hid Hl]. split; [by apply NoDup_app in Hid as (? & _)|lia].
Qed.

Lemma run_app l1 l2 n1 n2 : parameter_run l1 = Some n1 -> parameter_run (l1 ++ l2) = Some n2 -> run parameter_callback n1 (program l2) = Some n2.
Proof.
  unfold ParameterServer.parameter_run, ParameterServer.program. rewrite fmap_app, join_app, app_assoc. generalize (server_events ++ mjoin (events_of node_name <$> l1)).
  generalize (@net_new request response param_map ∅). intros n l. revert n. induction l as [|e l IH]; intros n; cbn; [by intros [= <-]|]. destruct (step _ n e) as [m|]; [|done]. apply IH.
Qed.

(** What every call that returned gave: the place of its effect in the order, in real time, with what it does there. *)
Lemma call_stored l1 n1 l2 n2 i c k r : fits (l1 ++ l2) -> parameter_run l1 = Some n1 -> parameter_run (l1 ++ l2) = Some n2 ->
  clients n2 !! i = Some c -> SendRequest_returns k c = Some r ->
  exists p e q a, effects n2 !! p = Some e /\ mkCall i k q a ∈ calls n2 /\ kind q = (i mod 3)%nat /\
    acts q e /\ as_stored (take p (effects n2)) q r /\ in_real_time n1 i k p.
Proof.
  intros [Hid Hl] H1 H2 Hc Hk. pose proof (run_app l1 l2 n1 n2 H1 H2) as H12. destruct (parameter_run_facts _ _ H2) as [F1 F2 F3 F4].
  rewrite program_app, app_assoc in Hid, Hl. destruct (run_linearized parameter_callback ∅ _ n1 _ n2 Hid Hl H1 H12) as (_ & _ & _ & H).
  destruct (H i c k r Hc Hk) as (p & h & a & s & Hp & _ & Hx & Hs & Hn & -> & Hrt). exists p, (Handled h), (hd_request h), a.
  assert (Hkind : kind (hd_request h) = (i mod 3)%nat) by exact (F1 _ Hx).
  assert (Hsv : hd_service h = kind (hd_request h)).
  { rewrite Hkind. eapply NoDup_lookup; [exact service_names_distinct| |exact (F4 i c Hc)]. rewrite <- F3, list_lookup_fmap, Hs. cbn. by rewrite Hn. }
  split_and!; try done; [by apply callback_acts|]. rewrite Hsv. apply callback_stored. by apply Forall_take.
Qed.

Lemma effects_prefix l1 n1 l2 n2 : fits (l1 ++ l2) -> parameter_run l1 = Some n1 -> parameter_run (l1 ++ l2) = Some n2 -> effects n1 `prefix_of` effects n2.
Proof.
  intros [Hid Hl] H1 H2. pose proof (run_app l1 l2 n1 n2 H1 H2) as H12. rewrite program_app, app_assoc in Hid, Hl.
  by apply (run_linearized parameter_callback ∅ _ n1 _ n2 Hid Hl H1 H12).
Qed.

Lemma only_call l n i k q a q' a' : fits l -> parameter_run l = Some n -> mkCall i k q a ∈ calls n -> mkCall i k q' a' ∈ calls n -> q = q'.
Proof.
  intros [_ Hl] Hr H1 H2. destruct (net_run_inv parameter_callback _ _ n (net_new_inv _ ∅) ltac:(cbn; exact Hl) Hr) as (Hi & _ & _).
  apply list_elem_of_lookup in H1 as [p1 H1], H2 as [p2 H2].
  assert (p1 = p2) as -> by (eapply NoDup_lookup; [exact (ni_unique _ n Hi)|by rewrite list_lookup_fmap, H1|by rewrite list_lookup_fmap, H2]).
  rewrite H1 in H2. by injection H2.
Qed.

(** C11: a parameter server and its clients, with requests and responses lost, late and in any order, are one store of parameters: every
    call that returned has a place in the order of the effects, in real time; what was got there is the parameter of the name that was set last
    before, by a client or by the server, and not set where there is none; what was listed there are the parameters of all names, each as it
    was set last; and a set stores its parameter. *)
Theorem parameters_linearizable l1 n1 l2 n2 i c k q a r : fits (l1 ++ l2) -> parameter_run l1 = Some n1 -> parameter_run (l1 ++ l2) = Some n2 ->
  clients n2 !! i = Some c -> mkCall i k q a ∈ calls n2 -> SendRequest_returns k c = Some r ->
  exists p e, effects n2 !! p = Some e /\ acts q e /\ as_stored (take p (effects n2)) q r /\ in_real_time n1 i k p.
Proof.
  intros Hf H1 H2 Hc Hx Hr. destruct (call_stored l1 n1 l2 n2 i c k r Hf H1 H2 Hc Hr) as (p & e & q' & a' & Hp & Hx' & _ & He & Hs & Ht).
  rewrite (only_call _ n2 i k q a q' a' Hf H2 Hx Hx'). by exists p, e.
Qed.

(** A [GetParameter] that begins after a [SetParameter] of its name has returned true gives the parameter that was set, as long as
    nothing else is ever stored under the name, and unless the parameter is one without a value, which the client cannot tell from none. *)
Theorem set_then_get l1 n1 l2 n2 i c k x a i' c' k' a' p0 : fits (l1 ++ l2) -> parameter_run l1 = Some n1 -> parameter_run (l1 ++ l2) = Some n2 ->
  clients n1 !! i = Some c -> mkCall i k (SetParam x) a ∈ calls n1 -> client_SetParameter (SendRequest_returns k c ≫= result) = true ->
  clients n2 !! i' = Some c' -> mkCall i' k' (ParamName (name x)) a' ∈ calls n2 -> ~ called n1 i' k' -> is_Some (SendRequest_returns k' c') ->
  (forall e y, e ∈ effects n2 -> sets e y -> name y = name x -> y = x) ->
  client_GetParameter (SendRequest_returns k' c' ≫= got) p0 = if decide (type x = NOT_SET) then (false, p0) else (true, mkParameter x).
Proof.
  intros Hf H1 H2 Hc Hx Hr Hc' Hx' Hno [r' Hr'] Hsame. assert (Hf1 : fits (l1 ++ [])) by (rewrite app_nil_r; by eapply fits_prefix).
  assert (Hret : exists r, SendRequest_returns k c = Some r) by (destruct (SendRequest_returns k c) as [r|]; [by exists r|done]). destruct Hret as [r Hr0].
  destruct (call_stored l1 n1 [] n1 i c k r Hf1 H1 ltac:(by rewrite app_nil_r) Hc Hr0) as (p & e & q & b & Hp & Hx1 & _ & He & _ & _).
  rewrite <- (only_call _ n1 i k (SetParam x) a q b Hf1 ltac:(by rewrite app_nil_r) Hx Hx1) in He. cbn in He.
  destruct (call_stored l1 n1 l2 n2 i' c' k' r' Hf H1 H2 Hc' Hr') as (p' & e' & q' & b' & Hp' & Hx2 & _ & _ & Hs & _ & Hlt).
  rewrite <- (only_call _ n2 i' k' _ a' q' b' Hf H2 Hx' Hx2) in Hs. destruct Hs as (v & Hv & ->). specialize (Hlt Hno). rewrite Hr'. cbn [mbind option_bind got client_GetParameter].
  pose proof (prefix_lookup_Some _ _ _ _ Hp (effects_prefix l1 n1 l2 n2 Hf H1 H2)) as Hp2. apply lookup_lt_Some in Hp.
  assert (Hin : e ∈ take p' (effects n2)) by (eapply list_elem_of_lookup_2; rewrite lookup_take_lt; [exact Hp2|lia]).
  enough (v = Some x) as -> by done. inversion Hv as [l Hnone E|l1' e'' l2' y Hy En Hlast E1 E2]; [by destruct (Hnone e x Hin He)|].
  f_equal. apply (Hsame e''); [|done|done]. apply (subseteq_take p'). rewrite <- E1. apply elem_of_app. right. by left.
Qed.
End net.

(** ** A parameter server and a client

    The theorems on parameters at a small run: a parameter is set, got and listed. *)

From stdpp Require Import strings.
From S2P Require Import Prelude ShmMessage Service ServiceSafety ServiceOrder ServiceLiveness ParameterServer.

#[local] Abbreviation Client := (@Client request response).
#[local] Abbreviation demo_parameters := (parameter_run "node" (demo_id 1) (demo_id 2) (demo_id 3)).

Definition demo_speed : Parameter_ := parameter_int "speed" 7.
Definition demo_set : list pevent := [PClient (demo_id 4) (demo_id 5) (demo_id 6);
  PSet 0 demo_speed; PArrive 0; PTake 1; PHandle 1; PArrive 0].
Definition demo_get : list pevent := [PGet 0 "speed"; PList 0 "me"; PArrive 0; PTake 0; PHandle 0; PArrive 0; PTake 2; PHandle 2; PArrive 0; PArrive 0].

Definition demo_more : list pevent := demo_set ++ [PServerSet (parameter_bool "on" true)].

Lemma demo_fits_store : fits "node" (demo_id 1) (demo_id 2) (demo_id 3) (demo_set ++ demo_get).
Proof. split; [apply (bool_decide_unpack _); vm_compute; exact I|done]. Defined.

Lemma demo_fits_more : fits "node" (demo_id 1) (demo_id 2) (demo_id 3) (demo_more ++ demo_get).
Proof. split; [apply (bool_decide_unpack _); vm_compute; exact I|done]. Defined.

(** The nets of the runs, and what their clients were told. *)
Definition demo_net (l : list pevent) : Net := default (net_new ∅) (demo_parameters l).
Definition demo_client (l : list pevent) (i : nat) : Client := default (Client_new "" (demo_id 0)) (clients (demo_net l) !! i).

Lemma demo_runs l : is_Some (demo_parameters l) -> demo_parameters l = Some (demo_net l).
Proof. intros [n H]. unfold demo_net. by rewrite H. Qed.
Lemma demo_client_at l i : is_Some (clients (demo_net l) !! i) -> clients (demo_net l) !! i = Some (demo_client l i).
Proof. intros [c H]. unfold demo_client. by rewrite H. Qed.

Ltac computing := lazymatch goal with |- ?P => refine (bool_decide_unpack P _); vm_compute; exact I end.

Lemma demo_set_run : demo_parameters demo_set = Some (demo_net demo_set).
Proof. apply demo_runs. computing. Qed.
Lemma demo_set_get_run : demo_parameters (demo_set ++ demo_get) = Some (demo_net (demo_set ++ demo_get)).
Proof. apply demo_runs. computing. Qed.
Lemma demo_more_run : demo_parameters demo_more = Some (demo_net demo_more).
Proof. apply demo_runs. computing. Qed.
Lemma demo_more_get_run : demo_parameters (demo_more ++ demo_get) = Some (demo_net (demo_more ++ demo_get)).
Proof. apply demo_runs. computing. Qed.

Lemma demo_set_client : clients (demo_net demo_set) !! 1%nat = Some (demo_client demo_set 1).
Proof. apply demo_client_at. computing. Qed.
Lemma demo_set_get_client : clients (demo_net (demo_set ++ demo_get)) !! 0%nat = Some (demo_client (demo_set ++ demo_get) 0).
Proof. apply demo_client_at. computing. Qed.
Lemma demo_more_get_client : clients (demo_net (demo_more ++ demo_get)) !! 0%nat = Some (demo_client (demo_more ++ demo_get) 0).
Proof. apply demo_client_at. computing. Qed.

Lemma demo_more_call : mkCall 0 1 (ParamName "speed") 1 ∈ calls (demo_net (demo_more ++ demo_get)).
Proof. vm_compute. right. left. Qed.
Lemma demo_set_call : mkCall 1 1 (SetParam (param_ demo_speed)) 1 ∈ calls (demo_net demo_set).
Proof. vm_compute. left. Qed.
Lemma demo_set_get_call : mkCall 0 1 (ParamName "speed") 1 ∈ calls (demo_net (demo_set ++ demo_get)).
Proof. vm_compute. right. left. Qed.
Lemma demo_not_called : ~ called (demo_net demo_set) 0 1.
Proof. intros (x & Hx & Hi & _). vm_compute in Hx. apply elem_of_cons in Hx as [->|Hx]; [discriminate|by apply not_elem_of_nil in Hx]. Qed.

Lemma demo_more_answer : SendRequest_returns 1 (demo_client (demo_more ++ demo_get) 0) = Some (GotParam (param_ demo_speed)).
Proof. vm_compute. reflexivity. Qed.
Lemma demo_set_answer : client_SetParameter (SendRequest_returns 1 (demo_client demo_set 1) ≫= result) = true.
Proof. vm_compute. reflexivity. Qed.
Lemma demo_get_answered : is_Some (SendRequest_returns 1 (demo_client (demo_set ++ demo_get) 0)).
Proof. computing. Qed.

Lemma demo_set_only e y : e ∈ effects (demo_net (demo_set ++ demo_get)) -> sets e y -> name y = "speed"%string -> y = param_ demo_speed.
Proof.
  intros He Hy En. vm_compute in He. one_of He; subst e.
  - eapply (sets_inj _ _ _ Hy). by intros w.
  - exfalso. eapply keeps_sets; [|exact Hy]. by intros w.
  - exfalso. eapply keeps_sets; [|exact Hy]. by intros w.
Qed.

Lemma parameters_linearizable_witness : exists p e, effects (demo_net (demo_more ++ demo_get)) !! p = Some e /\ keeps e /\
  as_stored (take p (effects (demo_net (demo_more ++ demo_get)))) (ParamName "speed") (GotParam (param_ demo_speed)) /\ in_real_time (demo_net demo_more) 0 1 p.
Proof.
  exact (parameters_linearizable "node" (demo_id 1) (demo_id 2) (demo_id 3) demo_more (demo_net demo_more) demo_get (demo_net (demo_more ++ demo_get)) 0
    (demo_client (demo_more ++ demo_get) 0) 1 (ParamName "speed") 1 (GotParam (param_ demo_speed)) demo_fits_more
    demo_more_run demo_more_get_run demo_more_get_client demo_more_call demo_more_answer).
Defined.

Lemma set_then_get_witness : client_GetParameter (SendRequest_returns 1 (demo_client (demo_set ++ demo_get) 0) ≫= got) parameter_new = (true, demo_speed).
Proof.
  exact (set_then_get "node" (demo_id 1) (demo_id 2) (demo_id 3) demo_set (demo_net demo_set) demo_get (demo_net (demo_set ++ demo_get)) 1 (demo_client demo_set 1) 1
    (param_ demo_speed) 1 0 (demo_client (demo_set ++ demo_get) 0) 1 1 parameter_new demo_fits_store demo_set_run demo_set_get_run
    demo_set_client demo_set_call demo_set_answer demo_set_get_client demo_set_get_call demo_not_called demo_get_answered demo_set_only).
Defined.

(** ** What goes wrong *)

(** A parameter without a value can be set, and the server has it; a client that gets it is told that there is none. *)
Theorem unset_parameter_hidden : exists n c1 c2, demo_parameters [PClient (demo_id 4) (demo_id 5) (demo_id 6);
    PSet 0 (parameter_named "x"); PArrive 0; PTake 1; PHandle 1; PArrive 0; PGet 0 "x"; PArrive 0; PTake 0; PHandle 0; PArrive 0] = Some n /\
  clients n !! 1%nat = Some c1 /\ client_SetParameter (SendRequest_returns 1 c1 ≫= result) = true /\
  GetParameter "x" parameter_new (world n) = (true, parameter_named "x") /\
  clients n !! 0%nat = Some c2 /\ client_GetParameter (SendRequest_returns 1 c2 ≫= got) parameter_new = (false, parameter_new).
Proof. eexists _, _, _. split; [vm_compute; reflexivity|]. by split_and!. Qed.
